(* ===== verification/_CoqProject ===== *)
-Q . S2P
Prelude.v
Text.v
EgressGateway.v
CoreTypes.v
AgentStream.v
AgentControl.v
AgentSession.v
SandboxLifecycle.v
BootstrapStore.v
LifecycleContract.v
Json.v
CompilerCache.v
CompilerCacheProofs.v
CompilerCacheSamples.v
Idempotency.v
Authz.v
AuthzProofs.v
Store.v
Leases.v
Workers.v
Protocol.v
Queue.v
Refinement.v
AgentLeases.v
AgentResident.v
Scheduler.v
LeaseProperties.v
Pagination.v
Limits.v
World.v
BootstrapHandoff.v
CommandOutput.v
Scopes.v
AgentSupervisor.v
Placement.v
Claim.v
ClaimProofs.v
Provisioning.v
RuntimeResources.v
Snapshots.v
SterilePool.v
PoolController.v
SterileCells.v
Effects.v
Commands.v
EffectProofs.v
SandboxStop.v
Cleanup.v
CleanupProofs.v
RuntimeInventory.v
WorkerReconcile.v
GuestTokens.v
ResidentContract.v
AgentPaths.v
AgentLauncher.v
ResidentAttestations.v
AttestationProofs.v
MaestroActivations.v
MaestroProofs.v
HandoffProofs.v
ResidentProcesses.v
ResidentHandlers.v
ResidentProofs.v
ResidentTheorems.v
SterileCellProofs.v
SterileCellMachine.v
SterileCellTheorems.v
Samples.v
ClaimSamples.v
ProvisioningSamples.v
WorldSamples.v
AgentSamples.v
ReconcileSamples.v
CleanupSamples.v
SterileCellSamples.v
ResidentSamples.v
Anomalies.v
