(* ===== verification/Prelude.v ===== *)
(** * Sandboxwich: a verification library

    Sandboxwich is a control plane for sandboxes.  An HTTP service (the crate
    [sandboxwich-api]) keeps all durable state in one relational database; the
    worker processes ([sandboxwich-worker]) register with it, claim jobs under
    leases, drive Kubernetes or another provider and report back; an agent
    ([sandboxwich-agent]) runs in each guest, executes the jobs that belong
    there and supervises resident processes.  [sandboxwich-core] holds the
    data types they share.  This library models the parts that decide what
    happens: the scheduler, the side effects of jobs on the database, sterile
    cells and their pool, resident processes with their bootstraps and
    proofs, admission of requests, retention and reconciliation, and the
    agent's supervision, and proves what they promise each other.

    ** How the program is modelled

    Pure functions are functions.  A handler that opens a database
    transaction is a value of [Store.Tx], a function from the tables to a
    result with new tables or an error; [Store.run_tx] commits the first and
    rolls back the second.  An SQL statement is a function on finite maps
    from primary keys to rows ([update_row], [update_rows], inserts that
    check unique indexes, foreign keys and check constraints), its [where]
    clause a boolean predicate.  Concurrency is the interleaving of committed
    transactions ([Scheduler.sched_step], the machines of [Idempotency],
    [SterileCellMachine], [ResidentProofs], [AttestationProofs]), with rows
    that a handler read before its transaction kept as part of the state or
    given as an argument, so that decisions on stale reads are covered; a
    sweep is a sequence of transactions with an arbitrary change of the
    tables between any two of them ([Cleanup.Sweep]); for the in-memory
    bootstrap store it is the interleaving of its mutex-protected methods
    with the guards outstanding.  The agent's loops are functions of the
    ticks, answers and signals they receive.  A panic is the value [None].

    Integers are [Z] at the width of the source where it matters: conversions
    that can fail are [try_i64], saturating and wrapping operations are
    written out.  Instants are nanoseconds since the epoch.  The database
    stores them as RFC 3339 text in UTC and compares the text; for the years
    0 to 9999 that order is the order of instants.  Identifiers are numbers;
    where a query orders by identifier, the order of the text of a UUID is
    the order of its number.  Text in queries is compared by bytes.

    Code outside the repository is a parameter, a class whose instance the
    samples give by concrete functions: [Store.UuidLib] and [UuidTextLaws]
    (UUID text), [Leases.SerdeLib], [SerdeLaws], [ClaimSerdeLib] (JSON,
    SHA-256), [Leases.Runtime] (the clock and fresh identifiers of one call),
    [Pagination.CursorCodec] (base64, UTF-8), [SandboxStop.ChronoLib] (the
    last instant), [TimeTextLib] and [Rfc3339Lib] (instants as text),
    [IpNetLib] (addresses and networks), [ArchiveLib] (gzip and tar),
    [IdemLib], [AuthzLib] and [TokenHashLaws] (digests of requests and
    tokens), [CellLib], [AttestationLib], [ActivationLib] (HMAC and digests),
    [HandoffLib] (the cipher), [Base64Lib], [Base64UrlLib], [EnvelopeLib],
    [ErrorBodyLib] and [LauncherLib] (encodings on the agent's side).  Laws
    are assumed only where a theorem names them.  The rendering of Kubernetes
    manifests is an argument of the reconciler.

    ** The files

    Foundations:
    - [Prelude]: results and their [let?] binder, tactics, hint databases and
      lemmas on lists, options, maps and integers.  [Text]: bytes and text.
    - [CoreTypes]: the enums of [sandboxwich-core/src/lib.rs] that the
      database stores, with the codec of [db_variant_enum!] as a class with
      laws.  [Json]: [serde_json::Value] and [canonicalize_json].
    - [SandboxLifecycle]: [SandboxState], [can_transition_to] and the trigger
      of [db.rs].  [LifecycleContract]: reason codes ([lifecycle_contract.rs]).
    - [Store], [World]: errors, the tables, transactions and the statements
      shared by handlers.

    Scheduling:
    - [Leases], [Queue], [Workers]: [handlers/leases.rs], [handlers/jobs.rs],
      [handlers/workers.rs].  What an outcome does to other tables is the
      interface [JobEffects] with its laws [JobEffectsLaws].
    - [Protocol]: the abstract lease protocol; [Refinement] shows each
      transaction to be steps of it, [Scheduler] interleaves every writer,
      [LeaseProperties] draws consequences.
    - [Claim], [ClaimProofs], [Placement]: the whole claim handler with its
      long poll, scheduling query, replay and placement repair.
    - [Provisioning]: stage reports of a provision.
    - [Effects], [EffectProofs]: the five effect functions for the eleven job
      kinds, the control plane's instance of [JobEffects], and its laws.

    Sandboxes and what belongs to them:
    - [CommandOutput], [Commands], [RuntimeResources], [Snapshots]:
      [handlers/commands.rs], [reconcile.rs], [handlers/snapshots.rs].
    - [SandboxStop]: [stop_sandbox_via_job] and the lifetime sweep ([reap.rs]).
    - [Cleanup], [CleanupProofs]: the cleanup run and the repair loop of
      [cleanup.rs], with the snapshot sweeps they use.
    - [GuestTokens]: issuing and refreshing guest tokens.
    - [RuntimeInventory], [WorkerReconcile]: the inventory handler
      ([handlers/workers.rs]), and the worker that collects it and reconciles
      the cluster with it ([sandboxwich-worker], [main.rs], [provider.rs]).

    Sterile cells and residents:
    - [SterilePool], [PoolController]: [sterile_pool.rs].  [SterileCells] with
      [SterileCellProofs], [SterileCellMachine], [SterileCellTheorems]:
      [handlers/sterile_cells.rs] and its interleavings with the pool.
    - [BootstrapStore]: [ResidentBootstrapStore] of [state.rs].
      [BootstrapHandoff], [HandoffProofs]: its encrypted shared copy.
    - [ResidentContract], [ResidentProcesses], [ResidentHandlers] with
      [ResidentProofs], [ResidentTheorems]: [handlers/resident_processes.rs].
    - [ResidentAttestations], [AttestationProofs]: placement proofs and
      Maestro bindings.  [MaestroActivations], [MaestroProofs]: validations.

    Requests:
    - [Authz], [AuthzProofs], [Scopes]: [auth.rs], [authz.rs], [routes.rs] and
      the per-resource checks.  [Idempotency]: [idempotency.rs].  [Limits],
      [Pagination]: [limits.rs], [pagination.rs].

    The guest agent and the gateway:
    - [AgentStream], [AgentControl], [AgentSession], [AgentLeases]: output
      streams, retries and heartbeats, the guest credential, lease renewal.
    - [AgentResident], [AgentSupervisor]: runs of resident processes and
      their supervisor.  [AgentPaths], [AgentLauncher]: workspace paths and
      the sterile launcher.
    - [CompilerCache], [CompilerCacheProofs]: [compiler_cache_archive.rs].
    - [EgressGateway]: [egress_gateway.rs].

    The files whose names end in [Samples] hold the concrete states that the
    theorems are applied to; [Anomalies] holds consequences of the code its
    comments do not expect.

    ** What is proved

    - Leases.  A job is leased exactly while one active lease names it, with
      its current attempt, under every interleaving; the scheduler refines
      the protocol; a claim takes only what the worker may run; attempts,
      slots and durations are bounded; ended leases are final; completion can
      be replayed; sweeps clear what is due; a drain closes admission.
    - Job outcomes keep sandboxes on the lifecycle and archived ones archived,
      keep the accounting of output exact and only withdraw pool cells; a
      late provision is torn down; a queued command runs as it was asked for,
      and only its job stores its environment and input.
    - Stopping, retention, reconciliation.  A stop is all or nothing; a
      sandbox is reaped exactly when a deadline has passed; cleanup deletes
      only archived, unreferenced sandboxes past their retention, leaving no
      trace but tombstones and everything of others as it was, and,
      undisturbed, deletes all that a batch holds; each stranded runtime gets
      one teardown; the worker's reconciler deletes only what it observed, on
      grounds in its inventory and within its limit, besides the ended
      supervisors it replaces.
    - Sterile cells.  A cell serves one claim; a claim is answered once; the
      pool stays within its target and its ready floor.
    - Residents.  A bootstrap has one holder and is gone when acknowledged;
      stored specifications are well formed; a sealed bootstrap is bound to
      its row and is recovered from it; a proof is redeemed for one key; an
      activation is bound to what was validated first while the sandbox of
      the validation exists; the three gates that wait for a ready sidecar
      agree on a row of the tenant.
    - Requests.  Away from probes and the insecure mode a forwarded request is
      backed by a credential; the policy agrees with the layers of the mounted
      routes, and what it does where there is none; scopes confine
      credentials; one request
      runs per idempotency key; the newest guest token is the only key.
    - Agent and gateway.  Streamed output is exact; retries are exact and
      end; renewals keep a lease exactly while each comes in time, for which
      only grants between five seconds and two minutes leave room, whatever
      the latency; a resident run is in order and ends; tasks
      are accounted; the launcher runs one activation; paths stay in the
      workspace; a captured cache restores; the gateway connects only to
      allowed addresses.
    - Anomalies: a command at its output limit blocks the expiry of its last
      lease, a stale claim repeats an attempt number, a padded worker name
      cannot register twice, sandboxes that are not due starve younger
      overdue ones, oversized lifetimes end the sweeps, retention counted
      from creation deletes the resources of live sandboxes, and others that
      are stated beside the code they are about.

    ** Bounds and fuel

    Batch sizes are the code's; theorems about one sweep state that its work
    fits the batch, or are about the rows selected.  Loops that are not
    structural carry fuel that is shown to be enough: following page cursors
    and collecting the inventory, one more than the number of rows; the
    decoders and the tar reader, the length of their input; the long poll of
    a claim, 101 turns of its interval, and its four attempts; retries, the
    turns their budget leaves; waiting for a deleted Pod, the code's 30
    polls.  A resident run settles within five times its attempts plus four
    undisturbed ticks.  All other recursion is structural.

    ** What is not modelled

    The handlers that create, fork and resume sandboxes and create, restore
    and fork snapshots; Apex instructions, divergence, desktop and SSH
    handlers; the event stream of resident processes and listings: they are
    request handlers over the tables modelled here whose writes the job
    outcomes, not they, complete.  Metrics, health, tracing, configuration,
    routing glue and database setup: no decision of the core depends on
    them.  The worker's job loop and shutdown, the manifests and commands of
    the Kubernetes provider and the Cloudflare provider, and in the agent
    TLS, argument parsing, spawning of processes and the outer loop: they
    drive external systems.  The command line and the benchmark are clients
    of the HTTP interface. *)

From stdpp Require Export base tactics list strings gmap numbers option sorting.
From Stdlib Require Export ZArith Lia.

(** ** Results

    Rust's [Result<A, E>] with the [?] operator as a binder. *)

Inductive result (A E : Type) : Type :=
| Ok (a : A)
| Err (e : E).
Arguments Ok {A E} a.
Arguments Err {A E} e.

Definition result_bind {A B E : Type} (r : result A E) (k : A -> result B E) : result B E :=
  match r with
  | Ok a => k a
  | Err e => Err e
  end.

Definition is_ok {A E : Type} (r : result A E) : bool :=
  match r with Ok _ => true | Err _ => false end.

Declare Scope rust_scope.
Delimit Scope rust_scope with rust.
Notation "'let?' x ':=' r 'in' k" := (result_bind r (fun x => k))
  (at level 10, x pattern, r at level 100, k at level 200) : rust_scope.
Notation "'guard!' b 'else' e 'in' k" := (if (b : bool) then k else Err e)
  (at level 10, b at level 100, e at level 100, k at level 200) : rust_scope.
Open Scope rust_scope.

Lemma result_bind_ok {A B E} (r : result A E) (k : A -> result B E) b :
  result_bind r k = Ok b <-> exists a, r = Ok a /\ k a = Ok b.
Proof. destruct r; simpl; split; [eauto | intros (?&[= ->]&?); done | done | intros (?&?&?); done]. Qed.

Lemma is_ok_true {A E} (r : result A E) : is_ok r = true <-> exists a, r = Ok a.
Proof. destruct r; simpl; naive_solver. Qed.

(** ** Options *)

Definition is_some {A} (o : option A) : bool := match o with Some _ => true | None => false end.
Definition is_none {A} (o : option A) : bool := negb (is_some o).

(** ** Machine integers

    Unsigned and signed integers are integers in range; conversions write
    the range check out. *)

Definition u8_max : Z := 2 ^ 8 - 1.
Definition u16_max : Z := 2 ^ 16 - 1.
Definition u32_max : Z := 2 ^ 32 - 1.
Definition u64_max : Z := 2 ^ 64 - 1.
Definition i64_max : Z := 2 ^ 63 - 1.
Definition i64_min : Z := - 2 ^ 63.

Definition in_u32 (z : Z) : bool := (0 <=? z)%Z && (z <=? u32_max)%Z.
Definition in_u64 (z : Z) : bool := (0 <=? z)%Z && (z <=? u64_max)%Z.
Definition in_i64 (z : Z) : bool := (i64_min <=? z)%Z && (z <=? i64_max)%Z.

(** [T::try_from(z).ok()] for the widths the code converts to. *)
Definition try_u32 (z : Z) : option Z := if in_u32 z then Some z else None.
Definition try_i64 (z : Z) : option Z := if in_i64 z then Some z else None.

(** [a.saturating_add(b)] on [u64]. *)
Definition u64_saturating_add (a b : Z) : Z := Z.min (a + b) u64_max.

Lemma try_u32_some z w : try_u32 z = Some w <-> w = z /\ (0 <= z <= u32_max)%Z.
Proof. unfold try_u32, in_u32. repeat case_match; naive_solver lia. Qed.

Lemma try_i64_some z w : try_i64 z = Some w <-> w = z /\ (i64_min <= z <= i64_max)%Z.
Proof. unfold try_i64, in_i64. repeat case_match; naive_solver lia. Qed.

(** ** Strings

    A Rust [str] is its sequence of UTF-8 bytes, a Rocq [string];
    [str::len] is its byte length.  The predicates the code applies to
    [char]s (ASCII classes, Unicode white space) are decided on decoded code
    points. *)

Definition str_bytes (s : string) : list N := Ascii.N_of_ascii <$> String.list_ascii_of_string s.

(** UTF-8 decoding of a byte sequence into code points.  Rust strings are
    valid UTF-8, on which this is the usual decoding; an invalid or
    truncated sequence decodes byte by byte. *)
Fixpoint utf8_decode (bs : list N) : list N :=
  match bs with
  | [] => []
  | b :: rest =>
      if (b <? 128)%N then b :: utf8_decode rest
      else if (b <? 224)%N then
        match rest with
        | b1 :: rest' => ((b - 192) * 64 + (b1 - 128))%N :: utf8_decode rest'
        | [] => [b]
        end
      else if (b <? 240)%N then
        match rest with
        | b1 :: b2 :: rest' =>
            ((b - 224) * 4096 + (b1 - 128) * 64 + (b2 - 128))%N :: utf8_decode rest'
        | _ => b :: rest
        end
      else
        match rest with
        | b1 :: b2 :: b3 :: rest' =>
            ((b - 240) * 262144 + (b1 - 128) * 4096 + (b2 - 128) * 64 + (b3 - 128))%N
              :: utf8_decode rest'
        | _ => b :: rest
        end
  end.

(** [str::chars]. *)
Definition chars (s : string) : list N := utf8_decode (str_bytes s).

(** [char::is_whitespace]: the Unicode [White_Space] property. *)
Definition is_whitespace (c : N) : bool :=
  ((9 <=? c) && (c <=? 13) || (c =? 32) || (c =? 133) || (c =? 160) || (c =? 5760)
   || (8192 <=? c) && (c <=? 8202) || (c =? 8232) || (c =? 8233) || (c =? 8239)
   || (c =? 8287) || (c =? 12288))%N.

Definition is_ascii_digit (c : N) : bool := ((48 <=? c) && (c <=? 57))%N.
Definition is_ascii_lowercase (c : N) : bool := ((97 <=? c) && (c <=? 122))%N.
Definition is_ascii_uppercase (c : N) : bool := ((65 <=? c) && (c <=? 90))%N.
Definition is_ascii_alphanumeric (c : N) : bool :=
  is_ascii_digit c || is_ascii_lowercase c || is_ascii_uppercase c.

Definition char_of (a : Ascii.ascii) : N := Ascii.N_of_ascii a.

Fixpoint drop_while {A} (p : A -> bool) (l : list A) : list A :=
  match l with
  | [] => []
  | x :: l' => if p x then drop_while p l' else l
  end.

(** [str::trim], on the decoded characters. *)
Definition trim_chars (cs : list N) : list N :=
  reverse (drop_while is_whitespace (reverse (drop_while is_whitespace cs))).

(** UTF-8 encoding of code points. *)
Definition utf8_encode_char (c : N) : list N :=
  if (c <? 128)%N then [c]
  else if (c <? 2048)%N then [192 + c / 64; 128 + c mod 64]%N
  else if (c <? 65536)%N then [224 + c / 4096; 128 + c / 64 mod 64; 128 + c mod 64]%N
  else [240 + c / 262144; 128 + c / 4096 mod 64; 128 + c / 64 mod 64; 128 + c mod 64]%N.

Definition string_of_chars (cs : list N) : string :=
  String.string_of_list_ascii (Ascii.ascii_of_N <$> (cs ≫= utf8_encode_char)).

(** [s.trim()]. *)
Definition trim (s : string) : string := string_of_chars (trim_chars (chars s)).

(** [s.trim().is_empty()]. *)
Definition trim_is_empty (s : string) : bool := forallb is_whitespace (chars s).

(** [s.contains('\0')]: NUL is a byte of no longer UTF-8 sequence. *)
Definition contains_nul (s : string) : bool := existsb (N.eqb 0) (str_bytes s).

(** [s.starts_with(p)]. *)
Definition starts_with (p s : string) : bool := String.prefix p s.

Lemma trim_is_empty_spec s : trim_is_empty s = true <-> trim_chars (chars s) = [].
Proof.
  unfold trim_is_empty, trim_chars. generalize (chars s) as l. intros l.
  assert (Hdw : forall k, drop_while is_whitespace k = [] <-> forallb is_whitespace k = true).
  { intros k; induction k as [|a k IH]; simpl; [done|].
    destruct (is_whitespace a); simpl; [exact IH | done]. }
  rewrite <- Hdw. split; [by intros -> |].
  intros H. apply (f_equal reverse) in H. rewrite reverse_involutive in H. simpl in H.
  apply Hdw in H. destruct (drop_while is_whitespace l) as [|x k] eqn:E; [done|exfalso].
  assert (Hx : is_whitespace x = false).
  { clear H. induction l as [|a l IH]; simpl in E; [done|].
    destruct (is_whitespace a) eqn:Ea; [auto | by simplify_eq]. }
  rewrite forallb_forall in H. rewrite (H x) in Hx; [done|].
  apply list_elem_of_In, elem_of_reverse. left.
Qed.

(** ** Finite maps *)

Lemma size_delete_present `{Countable K} {A} (m : gmap K A) k x :
  m !! k = Some x -> size m = S (size (delete k m)).
Proof.
  intros E. rewrite <- (insert_delete_id m k x E) at 1.
  by rewrite map_size_insert_None by apply lookup_delete_eq.
Qed.

Lemma size_insert_present `{Countable K} {A} (m : gmap K A) k x e :
  m !! k = Some x -> size (<[k := e]> m) = size m.
Proof. intros E. apply map_size_insert_Some. by eauto. Qed.

(** ** Automation *)

Create HintDb sbw discriminated.
#[export] Hint Resolve result_bind_ok is_ok_true : sbw.

(** Case analysis on every boolean test and match of the goal and context,
    then congruence and arithmetic. *)
Ltac bool_to_prop :=
  repeat match goal with
  | H : _ && _ = true |- _ => apply andb_true_iff in H as [? ?]
  | H : _ && _ = false |- _ => apply andb_false_iff in H
  | H : _ || _ = false |- _ => apply orb_false_iff in H as [? ?]
  | H : _ || _ = true |- _ => apply orb_true_iff in H
  | H : negb _ = true |- _ => apply negb_true_iff in H
  | H : negb _ = false |- _ => apply negb_false_iff in H
  | H : bool_decide _ = true |- _ => apply bool_decide_eq_true in H
  | H : bool_decide _ = false |- _ => apply bool_decide_eq_false in H
  | H : (_ =? _)%Z = true |- _ => apply Z.eqb_eq in H
  | H : (_ =? _)%Z = false |- _ => apply Z.eqb_neq in H
  | H : (_ <=? _)%Z = true |- _ => apply Z.leb_le in H
  | H : (_ <=? _)%Z = false |- _ => apply Z.leb_gt in H
  | H : (_ <? _)%Z = true |- _ => apply Z.ltb_lt in H
  | H : (_ <? _)%Z = false |- _ => apply Z.ltb_ge in H
  | H : (_ =? _)%nat = true |- _ => apply Nat.eqb_eq in H
  | H : (_ =? _)%nat = false |- _ => apply Nat.eqb_neq in H
  | H : (_ <=? _)%nat = true |- _ => apply Nat.leb_le in H
  | H : (_ <=? _)%nat = false |- _ => apply Nat.leb_gt in H
  | H : (_ <? _)%nat = true |- _ => apply Nat.ltb_lt in H
  | H : (_ <? _)%nat = false |- _ => apply Nat.ltb_ge in H
  | H : (_ =? _)%N = true |- _ => apply N.eqb_eq in H
  | H : (_ =? _)%N = false |- _ => apply N.eqb_neq in H
  | H : (_ <=? _)%N = true |- _ => apply N.leb_le in H
  | H : (_ <=? _)%N = false |- _ => apply N.leb_gt in H
  | H : (_ <? _)%N = true |- _ => apply N.ltb_lt in H
  | H : (_ <? _)%N = false |- _ => apply N.ltb_ge in H
  | H : String.eqb _ _ = true |- _ => apply String.eqb_eq in H
  | H : String.eqb _ _ = false |- _ => apply String.eqb_neq in H
  end.

Ltac split_matches :=
  repeat (case_match; simplify_eq/=; bool_to_prop).

(** ** Strings *)

Lemma string_append_assoc (a b c : string) : (a ++ (b ++ c) = (a ++ b) ++ c)%string.
Proof. induction a as [|x a IH]; [done | exact (f_equal (String x) IH)]. Qed.

Lemma string_append_nil (a : string) : (a ++ "" = a)%string.
Proof. induction a as [|x a IH]; [done | exact (f_equal (String x) IH)]. Qed.

Lemma string_length_append (a b : string) :
  String.length (a ++ b) = String.length a + String.length b.
Proof. induction a as [|x a IH]; [done | exact (f_equal S IH)]. Qed.

(** ** Sorting

    [order by] over rows with distinct keys has one answer. *)
Lemma sorted_perm_unique {A B} (R : relation A) (key : A -> B) :
  (forall x y, R x y -> R y x -> key x = key y) ->
  forall a b, StronglySorted R a -> StronglySorted R b -> a ≡ₚ b -> NoDup (key <$> a) -> a = b.
Proof.
  intros Hanti a. induction a as [|x a IH]; intros b Hs1 Hs2 Hpp Hnd.
  { by apply Permutation_nil_l in Hpp. }
  destruct b as [|y b]; [by apply Permutation_nil_r in Hpp|].
  inversion Hs1 as [|? ? Hs1' Hx]; subst. inversion Hs2 as [|? ? Hs2' Hy]; subst.
  assert (Hxy : x = y).
  { assert (Hxin : x ∈ y :: b) by (rewrite <- Hpp; left).
    assert (Hyin : y ∈ x :: a) by (rewrite Hpp; left).
    apply elem_of_cons in Hxin as [->|Hxin]; [done|].
    apply elem_of_cons in Hyin as [->|Hyin]; [done|].
    rewrite Forall_forall in Hx, Hy.
    assert (Hk : key x = key y) by (apply Hanti; auto).
    exfalso. apply NoDup_cons in Hnd as [Hnd _]. apply Hnd. rewrite Hk.
    by apply list_elem_of_fmap_2. }
  subst y. f_equal. apply IH; [done..| |].
  - by apply (Permutation_cons_inv (a := x)).
  - by apply NoDup_cons in Hnd as [_ Hnd].
Qed.

Lemma merge_sort_sorted {A B} (R : relation A) `{!RelDecision R, !Transitive R, !Total R}
    (key : A -> B) l :
  (forall x y, R x y -> R y x -> key x = key y) -> StronglySorted R l -> NoDup (key <$> l) ->
  merge_sort R l = l.
Proof.
  intros Hanti Hs Hnd. apply (sorted_perm_unique R key); [done| |done| |].
  - apply (StronglySorted_merge_sort _).
  - apply merge_sort_Permutation.
  - by rewrite merge_sort_Permutation.
Qed.

(** ** Counting the rows of a table: [select count] *)
Section CountRows.
Context `{Countable K} {A : Type}.
Implicit Types (m : gmap K A) (p q : K -> A -> bool).

Definition count_rows p m : nat := length (List.filter (fun kx => p kx.1 kx.2) (map_to_list m)).

Lemma count_rows_new p m k x :
  m !! k = None -> count_rows p (<[k := x]> m) = (Nat.b2n (p k x) + count_rows p m)%nat.
Proof.
  intros Hk. unfold count_rows.
  assert (Hp : map_to_list (<[k := x]> m) ≡ₚ (k, x) :: map_to_list m) by by apply map_to_list_insert.
  assert (Hf : forall l l' : list (K * A), l ≡ₚ l' ->
    length (List.filter (fun kx => p kx.1 kx.2) l) = length (List.filter (fun kx => p kx.1 kx.2) l')).
  { induction 1 as [| [] | [] [] | ]; simpl; repeat case_match; simpl; congruence. }
  rewrite (Hf _ _ Hp). simpl. by destruct (p k x).
Qed.

Lemma count_rows_delete p m k x :
  m !! k = Some x -> count_rows p m = (Nat.b2n (p k x) + count_rows p (delete k m))%nat.
Proof. intros Hk. rewrite <-count_rows_new by apply lookup_delete_eq. by rewrite insert_delete_id. Qed.

Lemma count_rows_update p m k x y :
  m !! k = Some x ->
  (count_rows p (<[k := y]> m) + Nat.b2n (p k x) = count_rows p m + Nat.b2n (p k y))%nat.
Proof.
  intros Hk. rewrite (count_rows_delete _ _ _ _ Hk), <-insert_delete_eq, count_rows_new by apply lookup_delete_eq.
  lia.
Qed.

Lemma count_rows_mono p q m m' :
  (forall k y, m' !! k = Some y -> p k y = true -> exists x, m !! k = Some x /\ q k x = true) ->
  (count_rows p m' <= count_rows q m)%nat.
Proof.
  intros Hpq. unfold count_rows. rewrite <-(length_map fst), <-(length_map fst (List.filter _ (map_to_list m))).
  apply List.NoDup_incl_length.
  - rewrite <-NoDup_ListNoDup. apply (sublist_NoDup _ ((map_to_list m').*1)); [apply NoDup_fst_map_to_list|].
    apply (fmap_sublist fst). induction (map_to_list m') as [|[k y] l IH]; simpl; [done|].
    destruct (p k y); by constructor.
  - intros k Hk. apply List.in_map_iff in Hk as ([k' y] & <- & [Hin Hp]%List.filter_In). simpl in *.
    apply list_elem_of_In, elem_of_map_to_list in Hin. destruct (Hpq _ _ Hin Hp) as (x & Hx & Hq).
    apply List.in_map_iff. exists (k', x). split; [done|]. apply List.filter_In. split; [|done].
    by apply list_elem_of_In, elem_of_map_to_list.
Qed.

Lemma count_rows_ext p q m m' :
  (forall k, (exists y, m' !! k = Some y /\ p k y = true) <-> (exists x, m !! k = Some x /\ q k x = true)) ->
  count_rows p m' = count_rows q m.
Proof.
  intros Hpq. apply Nat.le_antisymm; apply count_rows_mono.
  - intros k y Hy Hp. apply Hpq. eauto.
  - intros k x Hx Hq. apply Hpq. eauto.
Qed.

Lemma count_rows_pos p m k x : m !! k = Some x -> p k x = true -> (1 <= count_rows p m)%nat.
Proof. intros Hk Hp. rewrite (count_rows_delete _ _ _ _ Hk), Hp. simpl. lia. Qed.

Lemma count_rows_split p q m :
  count_rows p m =
    (count_rows (fun k x => p k x && q k x) m + count_rows (fun k x => p k x && negb (q k x)) m)%nat.
Proof.
  unfold count_rows. induction (map_to_list m) as [|[k x] l IH]; simpl; [done|].
  destruct (p k x), (q k x); simpl; lia.
Qed.
End CountRows.
