(* ===== verification/Text.v ===== *)
(** * Text and bytes

    The parts of Rust's [str] and of [std::net] parsing that the gateway, the
    archive and the routing code use.  Here a [str] is its sequence of
    characters (code points) and a byte slice a sequence of numbers below 256;
    [from_utf8] and [into_bytes] relate the two as the standard library
    does. *)

From S2P Require Import Prelude.

Abbreviation Text := (list N).
Abbreviation Bytes := (list N).

(** A literal. *)
Definition txt (s : string) : Text := chars s.

(** ** UTF-8 *)

Definition is_cont (b : N) : bool := ((128 <=? b) && (b <=? 191))%N.

(** [std::str::from_utf8]: overlong forms, surrogates and code points past
    the last one are errors. *)
Fixpoint from_utf8 (bs : Bytes) : option Text :=
  match bs with
  | [] => Some []
  | b0 :: r =>
      if (b0 <? 128)%N then cons b0 <$> from_utf8 r
      else if ((194 <=? b0) && (b0 <=? 223))%N then
        match r with
        | b1 :: r' =>
            if is_cont b1 then cons ((b0 - 192) * 64 + (b1 - 128))%N <$> from_utf8 r' else None
        | _ => None
        end
      else if ((224 <=? b0) && (b0 <=? 239))%N then
        match r with
        | b1 :: b2 :: r' =>
            let low := (if b0 =? 224 then 160 else 128)%N in
            let high := (if b0 =? 237 then 159 else 191)%N in
            if ((low <=? b1) && (b1 <=? high))%N && is_cont b2
            then cons ((b0 - 224) * 4096 + (b1 - 128) * 64 + (b2 - 128))%N <$> from_utf8 r'
            else None
        | _ => None
        end
      else if ((240 <=? b0) && (b0 <=? 244))%N then
        match r with
        | b1 :: b2 :: b3 :: r' =>
            let low := (if b0 =? 240 then 144 else 128)%N in
            let high := (if b0 =? 244 then 143 else 191)%N in
            if ((low <=? b1) && (b1 <=? high))%N && is_cont b2 && is_cont b3
            then cons ((b0 - 240) * 262144 + (b1 - 128) * 4096 + (b2 - 128) * 64 + (b3 - 128))%N
                   <$> from_utf8 r'
            else None
        | _ => None
        end
      else None
  end.

(** [String::into_bytes]. *)
Definition into_bytes (t : Text) : Bytes := t ≫= utf8_encode_char.

(** A [char]: a code point that is not a surrogate. *)
Definition is_scalar (c : N) : bool := ((c <? 55296) || (57344 <=? c) && (c <? 1114112))%N.

(** ** Predicates on characters *)

Definition to_ascii_lower (c : N) : N := if is_ascii_uppercase c then (c + 32)%N else c.
Definition to_ascii_lowercase (t : Text) : Text := to_ascii_lower <$> t.
Definition eq_ignore_ascii_case (a b : Text) : bool :=
  bool_decide (to_ascii_lowercase a = to_ascii_lowercase b).

(** ** Prefixes and suffixes *)

Fixpoint strip_prefix (p t : Text) : option Text :=
  match p, t with
  | [], _ => Some t
  | a :: p', b :: t' => if (a =? b)%N then strip_prefix p' t' else None
  | _ :: _, [] => None
  end.

Definition strip_suffix (p t : Text) : option Text :=
  reverse <$> strip_prefix (reverse p) (reverse t).

Definition text_starts_with (p t : Text) : bool := bool_decide (is_Some (strip_prefix p t)).
Definition text_ends_with (p t : Text) : bool := bool_decide (is_Some (strip_suffix p t)).
Definition contains_char (c : N) (t : Text) : bool := existsb (N.eqb c) t.

(** [t.contains(p)] for a string [p]. *)
Fixpoint contains_text (p t : Text) : bool :=
  text_starts_with p t || match t with [] => false | _ :: t' => contains_text p t' end.

Definition count_char (c : N) (t : Text) : nat := length (List.filter (N.eqb c) t).

(** ** Trimming *)

Definition drop_end_while (p : N -> bool) (t : Text) : Text := reverse (drop_while p (reverse t)).
Definition text_trim (t : Text) : Text := drop_end_while is_whitespace (drop_while is_whitespace t).
Definition trim_end_matches (c : N) (t : Text) : Text := drop_end_while (N.eqb c) t.
Definition trim_matches (c : N) (t : Text) : Text := drop_end_while (N.eqb c) (drop_while (N.eqb c) t).

(** ** Splitting *)

(** [t.split_once(c)]. *)
Fixpoint text_split_once (c : N) (t : Text) : option (Text * Text) :=
  match t with
  | [] => None
  | a :: t' => if (a =? c)%N then Some ([], t')
               else '(x, y) ← text_split_once c t'; Some (a :: x, y)
  end.

(** [t.rsplit_once(c)]. *)
Definition rsplit_once (c : N) (t : Text) : option (Text * Text) :=
  '(x, y) ← text_split_once c (reverse t); Some (reverse y, reverse x).

(** [t.split(p)] for the characters satisfying [p]. *)
Fixpoint split_by (p : N -> bool) (t : Text) : list Text :=
  match t with
  | [] => [[]]
  | a :: t' =>
      if p a then [] :: split_by p t'
      else match split_by p t' with
           | x :: rest => (a :: x) :: rest
           | [] => [[a]]
           end
  end.

Definition split_char (c : N) (t : Text) : list Text := split_by (N.eqb c) t.

Definition is_nil {A} (l : list A) : bool := match l with [] => true | _ => false end.

(** [t.split_whitespace()]. *)
Definition split_whitespace (t : Text) : list Text :=
  List.filter (fun x => negb (is_nil x)) (split_by is_whitespace t).

(** [t.split("\r\n")]. *)
Fixpoint split_crlf (t : Text) : list Text :=
  match t with
  | [] => [[]]
  | a :: t' =>
      match t' with
      | b :: t'' =>
          if ((a =? 13) && (b =? 10))%N then [] :: split_crlf t''
          else match split_crlf t' with x :: rest => (a :: x) :: rest | [] => [[a]] end
      | [] => [[a]]
      end
  end.

(** [t.lines().next()]: the text up to the first newline, without it and
    without a carriage return before it. *)
Definition first_line (t : Text) : option Text :=
  match t with
  | [] => None
  | _ => Some match text_split_once 10 t with
              | None => t
              | Some (line, _) => default line (strip_suffix [13%N] line)
              end
  end.

(** ** Numbers *)

Definition digit_value (radix c : N) : option N :=
  let d := (if is_ascii_digit c then c - 48
            else if is_ascii_lowercase c then c - 97 + 10
            else if is_ascii_uppercase c then c - 65 + 10 else 99)%N in
  if (d <? radix)%N then Some d else None.

(** Digits to a number of at most [max]. *)
Fixpoint parse_digits (max acc : N) (t : Text) : option N :=
  match t with
  | [] => Some acc
  | c :: t' =>
      d ← digit_value 10 c;
      let acc' := (acc * 10 + d)%N in
      if (acc' <=? max)%N then parse_digits max acc' t' else None
  end.

(** [t.parse::<u16>()] and the like: an optional plus sign, then digits. *)
Definition parse_unsigned (max : N) (t : Text) : option N :=
  match t with
  | [] => None
  | c :: t' =>
      let digits := if (c =? 43)%N then t' else t in
      match digits with [] => None | _ => parse_digits max 0 digits end
  end.

(** ** Internet addresses *)

Inductive IpAddr : Set :=
| V4 (address : Z)
| V6 (address : Z).

#[export] Instance IpAddr_eq_dec : EqDecision IpAddr.
Proof. solve_decision. Defined.

(** The parser of [core::net::parser]: a parser consumes a prefix. *)
Definition Parser (A : Type) : Type := Text -> option (A * Text).

Definition read_given_char (c : N) : Parser unit := fun t =>
  match t with a :: t' => if (a =? c)%N then Some (tt, t') else None | [] => None end.

(** [read_separator]: no separator before the first item. *)
Definition read_separator {A} (sep : N) (index : nat) (p : Parser A) : Parser A := fun t =>
  match index with
  | O => p t
  | S _ => '(_, t') ← read_given_char sep t; p t'
  end.

Fixpoint read_digits (radix max : N) (digits : nat) (acc : N) (count : nat) (t : Text) :
    option (N * nat * Text) :=
  match t with
  | [] => Some (acc, count, t)
  | c :: t' =>
      match digit_value radix c with
      | None => Some (acc, count, t)
      | Some d =>
          let acc' := (acc * radix + d)%N in
          match digits with
          | O => None
          | S digits' =>
              if (acc' <=? max)%N then read_digits radix max digits' acc' (S count) t' else None
          end
      end
  end.

(** [read_number(radix, Some(max_digits), allow_zero_prefix)]. *)
Definition read_number (radix max : N) (max_digits : nat) (allow_zero_prefix : bool) : Parser N :=
  fun t =>
    match read_digits radix max max_digits 0 0 t with
    | None => None
    | Some (n, count, t') =>
        let leading_zero := match t with c :: _ => (c =? 48)%N | [] => false end in
        if (count =? 0)%nat then None
        else if negb allow_zero_prefix && leading_zero && (1 <? count)%nat then None
        else Some (n, t')
    end.

Fixpoint read_octets (index n : nat) (acc : Z) : Parser Z := fun t =>
  match n with
  | O => Some (acc, t)
  | S n' =>
      '(octet, t') ← read_separator 46 index (read_number 10 255 3 false) t;
      read_octets (S index) n' (acc * 256 + Z.of_N octet)%Z t'
  end.

Definition read_ipv4_addr : Parser Z := read_octets 0 4 0%Z.

(** [read_groups] into a slice of [limit] slots: the groups read, and whether
    the last two came from an embedded IPv4 address. *)
Fixpoint read_groups (limit index : nat) (t : Text) : list Z * bool * Text :=
  match limit with
  | O => ([], false, t)
  | S limit' =>
      let group : list Z * bool * Text :=
        match read_separator 58 index (read_number 16 65535 4 true) t with
        | Some (g, t') =>
            let '(rest, v4, t'') := read_groups limit' (S index) t' in (Z.of_N g :: rest, v4, t'')
        | None => ([], false, t)
        end in
      match limit' with
      | O => group
      | S _ =>
          match read_separator 58 index read_ipv4_addr t with
          | Some (a, t') => ([Z.shiftr a 16; Z.land a 65535], true, t')
          | None => group
          end
      end
  end.

Definition groups_value (gs : list Z) : Z := fold_left (fun acc g => acc * 65536 + g)%Z gs 0%Z.

Definition read_ipv6_addr : Parser Z := fun t =>
  let '(head, head_ipv4, t1) := read_groups 8 0 t in
  if (length head =? 8)%nat then Some (groups_value head, t1)
  else if head_ipv4 then None
  else
    '(_, t2) ← read_given_char 58 t1;
    '(_, t3) ← read_given_char 58 t2;
    let '(tail, _, t4) := read_groups (8 - (length head + 1)) 0 t3 in
    Some (groups_value (head ++ replicate (8 - length head - length tail) 0%Z ++ tail), t4).

(** [t.parse::<IpAddr>().ok()]. *)
Definition parse_ip (t : Text) : option IpAddr :=
  let v6 : option IpAddr :=
    match read_ipv6_addr t with Some (a, []) => Some (V6 a) | _ => None end in
  match read_ipv4_addr t with
  | Some (a, []) => Some (V4 a)
  | Some _ => None
  | None => v6
  end.

(** [Ipv6Addr::to_ipv4_mapped]: [::ffff:a.b.c.d]. *)
Definition to_ipv4_mapped (a : Z) : option Z :=
  if (Z.shiftr a 32 =? 65535)%Z then Some (Z.land a (2 ^ 32 - 1)) else None.

(** ** Joining *)

(** [parts.join("/")]. *)
Fixpoint join_slash (parts : list Text) : Text :=
  match parts with
  | [] => []
  | [p] => p
  | p :: rest => p ++ 47%N :: join_slash rest
  end.

(** ** Ordered sets

    [collect::<BTreeSet<_>>()] then iteration: sorted, without duplicates. *)
Definition btree_set {A} `{!EqDecision A} (R : relation A) `{!RelDecision R} (l : list A) : list A :=
  merge_sort R (remove_dups l).

(** The order of strings: by bytes, which for UTF-8 is by code points. *)
Fixpoint text_leb (a b : Text) : bool :=
  match a, b with
  | [], _ => true
  | _ :: _, [] => false
  | x :: a', y :: b' => (x <? y)%N || (x =? y)%N && text_leb a' b'
  end.
Definition text_le (a b : Text) : Prop := text_leb a b = true.

#[export] Instance text_le_dec : RelDecision text_le.
Proof. intros a b. unfold text_le. apply _. Defined.

(** [iter().map(f).collect::<Result<Vec<_>, _>>()]. *)
Fixpoint result_all {A B E} (f : A -> result B E) (l : list A) : result (list B) E :=
  match l with
  | [] => Ok []
  | x :: rest => let? y := f x in let? ys := result_all f rest in Ok (y :: ys)
  end.

(** ** Lemmas *)

Lemma elem_of_btree_set {A} `{!EqDecision A} (R : relation A) `{!RelDecision R} (l : list A) x :
  x ∈ btree_set R l <-> x ∈ l.
Proof. unfold btree_set. by rewrite merge_sort_Permutation, elem_of_remove_dups. Qed.

Lemma result_all_ok {A B E} (f : A -> result B E) l ys :
  result_all f l = Ok ys -> Forall2 (fun x y => f x = Ok y) l ys.
Proof.
  revert ys. induction l as [|x l IH]; simpl; intros ys.
  - by intros [= <-].
  - rewrite result_bind_ok. intros (y & Hy & Hys). apply result_bind_ok in Hys as (ys' & E' & [= <-]).
    constructor; [done|]. by apply IH.
Qed.

Lemma strip_prefix_Some p t r : strip_prefix p t = Some r <-> t = p ++ r.
Proof.
  revert t. induction p as [|a p IH]; intros t; simpl; [naive_solver|].
  destruct t as [|b t]; [naive_solver|]. destruct (N.eqb_spec a b) as [->|Hne].
  - rewrite IH. naive_solver.
  - naive_solver.
Qed.

Lemma strip_suffix_Some p t r : strip_suffix p t = Some r <-> t = r ++ p.
Proof.
  unfold strip_suffix. rewrite fmap_Some. split.
  - intros (x & Hx%strip_prefix_Some & ->). apply (f_equal reverse) in Hx.
    by rewrite reverse_involutive, reverse_app, reverse_involutive in Hx.
  - intros ->. exists (reverse r). rewrite strip_prefix_Some, reverse_app, reverse_involutive. done.
Qed.

Lemma text_starts_with_spec p t : text_starts_with p t = true <-> exists r, t = p ++ r.
Proof.
  unfold text_starts_with. rewrite bool_decide_eq_true. unfold is_Some.
  by setoid_rewrite strip_prefix_Some.
Qed.

Lemma text_ends_with_spec p t : text_ends_with p t = true <-> exists r, t = r ++ p.
Proof.
  unfold text_ends_with. rewrite bool_decide_eq_true. unfold is_Some.
  by setoid_rewrite strip_suffix_Some.
Qed.

Lemma contains_char_spec c t : contains_char c t = true <-> c ∈ t.
Proof.
  unfold contains_char. rewrite existsb_exists. setoid_rewrite <- list_elem_of_In.
  setoid_rewrite N.eqb_eq. naive_solver.
Qed.

Lemma text_split_once_Some c t x y : text_split_once c t = Some (x, y) <-> t = x ++ c :: y /\ c ∉ x.
Proof.
  revert x. induction t as [|a t IH]; intros x; simpl.
  - split; [done|]. intros [E _]. by destruct x.
  - destruct (N.eqb_spec a c) as [->|Hne].
    + split.
      * intros [= <- <-]. split; [done|apply not_elem_of_nil].
      * intros [E Hx]. destruct x as [|b x]; [by simplify_list_eq|]. exfalso. simplify_list_eq. set_solver.
    + split.
      * intros E. destruct (text_split_once c t) as [[x' y']|] eqn:Es; simplify_eq/=.
        destruct (proj1 (IH x') eq_refl) as [-> Hn]. split; [done|]. set_solver.
      * intros [E Hx]. destruct x as [|b x]; simplify_list_eq.
        rewrite (proj2 (IH x)); [done|]. split; [done|set_solver].
Qed.

Lemma text_split_once_None c t : text_split_once c t = None <-> c ∉ t.
Proof.
  split.
  - intros E Hin. apply list_elem_of_split in Hin as (l1 & l2 & ->).
    induction l1 as [|a l1 IH]; simpl in E; [by rewrite N.eqb_refl in E|].
    destruct (a =? c)%N; [done|]. apply IH. by destruct (text_split_once c (l1 ++ c :: l2)) as [[]|].
  - intros Hn. destruct (text_split_once c t) as [[x y]|] eqn:E; [|done].
    apply text_split_once_Some in E as [-> _]. set_solver.
Qed.

Lemma rsplit_once_Some c t x y : rsplit_once c t = Some (x, y) <-> t = x ++ c :: y /\ c ∉ y.
Proof.
  unfold rsplit_once. split.
  - destruct (text_split_once c (reverse t)) as [[a b]|] eqn:E; simpl; [|done]. intros [= <- <-].
    apply text_split_once_Some in E as [E Hn]. apply (f_equal reverse) in E.
    rewrite reverse_involutive, reverse_app, reverse_cons, <- app_assoc in E. split; [done|].
    by rewrite elem_of_reverse.
  - intros [-> Hn].
    rewrite (proj2 (text_split_once_Some c _ (reverse y) (reverse x))); simpl;
      rewrite ?reverse_involutive; [done|].
    rewrite reverse_app, reverse_cons, <- app_assoc. split; [done|]. by rewrite elem_of_reverse.
Qed.

Lemma split_by_pieces p t x : x ∈ split_by p t -> forall c, c ∈ x -> p c = false /\ c ∈ t.
Proof.
  revert x. induction t as [|a t IH]; simpl; intros x Hx c Hc.
  - apply list_elem_of_singleton in Hx as ->. by apply not_elem_of_nil in Hc.
  - destruct (p a) eqn:Ea.
    + apply elem_of_cons in Hx as [->|Hx]; [by apply not_elem_of_nil in Hc|].
      destruct (IH _ Hx _ Hc). set_solver.
    + destruct (split_by p t) as [|y rest].
      * apply list_elem_of_singleton in Hx as ->. apply list_elem_of_singleton in Hc as ->. set_solver.
      * apply elem_of_cons in Hx as [->|Hx].
        -- apply elem_of_cons in Hc as [->|Hc]; [set_solver|].
           destruct (IH y (list_elem_of_here _ _) _ Hc). set_solver.
        -- destruct (IH x (list_elem_of_further _ _ _ Hx) _ Hc). set_solver.
Qed.

Lemma split_whitespace_pieces t x c : x ∈ split_whitespace t -> c ∈ x -> is_whitespace c = false.
Proof.
  unfold split_whitespace. rewrite list_elem_of_In, List.filter_In, <- list_elem_of_In.
  intros [Hx _] Hc. by apply (split_by_pieces _ _ _ Hx).
Qed.

(** *** UTF-8 *)

Ltac Zify.zify_post_hook ::= Z.to_euclidean_division_equations.

Lemma encode_2 b0 b1 : (194 <= b0 <= 223)%N -> is_cont b1 = true ->
  utf8_encode_char ((b0 - 192) * 64 + (b1 - 128)) = [b0; b1].
Proof.
  unfold is_cont, utf8_encode_char. rewrite andb_true_iff, !N.leb_le. intros H0 H1.
  rewrite (proj2 (N.ltb_ge _ _)) by lia. rewrite (proj2 (N.ltb_lt _ _)) by lia.
  repeat f_equal; lia.
Qed.

Lemma encode_3 b0 b1 b2 : (224 <= b0 <= 239)%N -> (128 <= b1 <= 191)%N -> is_cont b2 = true ->
  (b0 = 224 -> 160 <= b1)%N ->
  utf8_encode_char ((b0 - 224) * 4096 + (b1 - 128) * 64 + (b2 - 128)) = [b0; b1; b2].
Proof.
  unfold is_cont, utf8_encode_char. rewrite andb_true_iff, !N.leb_le. intros H0 H1 H2 H3.
  rewrite !(proj2 (N.ltb_ge _ _)) by lia. rewrite (proj2 (N.ltb_lt _ _)) by lia.
  repeat f_equal; lia.
Qed.

Lemma encode_4 b0 b1 b2 b3 : (240 <= b0 <= 244)%N -> (128 <= b1 <= 191)%N -> is_cont b2 = true ->
  is_cont b3 = true -> (b0 = 240 -> 144 <= b1)%N ->
  utf8_encode_char ((b0 - 240) * 262144 + (b1 - 128) * 4096 + (b2 - 128) * 64 + (b3 - 128)) =
    [b0; b1; b2; b3].
Proof.
  unfold is_cont, utf8_encode_char. rewrite !andb_true_iff, !N.leb_le. intros H0 H1 H2 H3 H4.
  rewrite !(proj2 (N.ltb_ge _ _)) by lia. repeat f_equal; lia.
Qed.

Lemma into_bytes_cons c t : into_bytes (c :: t) = utf8_encode_char c ++ into_bytes t.
Proof. done. Qed.

Lemma into_bytes_app a b : into_bytes (a ++ b) = into_bytes a ++ into_bytes b.
Proof. apply bind_app. Qed.

(** What decodes encodes back. *)
Lemma from_utf8_into_bytes bs t : from_utf8 bs = Some t -> into_bytes t = bs.
Proof.
  remember (length bs) as n eqn:Hn. assert (Hle : length bs <= n) by lia. clear Hn.
  revert bs t Hle. induction n as [|n IH]; intros bs t Hle E.
  { destruct bs; [by simplify_eq/= | simpl in Hle; lia]. }
  destruct bs as [|b0 r]; [by simplify_eq/=|]. cbn [from_utf8] in E. simpl in Hle.
  destruct (N.ltb_spec b0 128).
  { apply fmap_Some in E as (t' & E & ->). rewrite into_bytes_cons, (IH r t') by (done || lia).
    unfold utf8_encode_char. by rewrite (proj2 (N.ltb_lt _ _)). }
  destruct (_ && _) eqn:E2 in E; [|destruct (_ && _) eqn:E3 in E;
    [|destruct (_ && _) eqn:E4 in E; [|done]]].
  - destruct r as [|b1 r]; [done|]. destruct (is_cont b1) eqn:E1; [|done].
    apply fmap_Some in E as (t' & E & ->). simpl in Hle. bool_to_prop.
    rewrite into_bytes_cons, (IH r t'), encode_2 by (done || lia). done.
  - destruct r as [|b1 [|b2 r]]; [done..|]. cbn zeta in E. simpl in Hle.
    destruct (_ && is_cont b2) eqn:E1 in E; [|done]. apply fmap_Some in E as (t' & E & ->).
    bool_to_prop. rewrite into_bytes_cons, (IH r t'), encode_3; try done; repeat case_match;
      bool_to_prop; lia.
  - destruct r as [|b1 [|b2 [|b3 r]]]; [done..|]. cbn zeta in E. simpl in Hle.
    destruct (_ && is_cont b3) eqn:E1 in E; [|done]. apply fmap_Some in E as (t' & E & ->).
    bool_to_prop. rewrite into_bytes_cons, (IH r t'), encode_4; try done; repeat case_match;
      bool_to_prop; lia.
Qed.

(** Deciding the comparisons of the goal from bounds in the context. *)
Ltac decide_comparisons :=
  repeat match goal with
  | |- context [(?a <? ?b)%N] =>
      first [rewrite (proj2 (N.ltb_lt a b)) by lia | rewrite (proj2 (N.ltb_ge a b)) by lia]
  | |- context [(?a <=? ?b)%N] =>
      first [rewrite (proj2 (N.leb_le a b)) by lia | rewrite (proj2 (N.leb_gt a b)) by lia]
  end.

Lemma decode_2 b0 b1 r : (194 <= b0 <= 223)%N -> (128 <= b1 <= 191)%N ->
  from_utf8 (b0 :: b1 :: r) = cons ((b0 - 192) * 64 + (b1 - 128))%N <$> from_utf8 r.
Proof. intros H0 H1. cbn [from_utf8]. unfold is_cont. by decide_comparisons. Qed.

Lemma decode_3 b0 b1 b2 r : (224 <= b0 <= 239)%N -> (128 <= b1 <= 191)%N -> (128 <= b2 <= 191)%N ->
  (b0 = 224 -> 160 <= b1)%N -> (b0 = 237 -> b1 <= 159)%N ->
  from_utf8 (b0 :: b1 :: b2 :: r) =
    cons ((b0 - 224) * 4096 + (b1 - 128) * 64 + (b2 - 128))%N <$> from_utf8 r.
Proof.
  intros H0 H1 H2 H3 H4. cbn [from_utf8]. unfold is_cont.
  destruct (N.eqb_spec b0 224), (N.eqb_spec b0 237); try lia; by decide_comparisons.
Qed.

Lemma decode_4 b0 b1 b2 b3 r : (240 <= b0 <= 244)%N -> (128 <= b1 <= 191)%N ->
  (128 <= b2 <= 191)%N -> (128 <= b3 <= 191)%N -> (b0 = 240 -> 144 <= b1)%N ->
  (b0 = 244 -> b1 <= 143)%N ->
  from_utf8 (b0 :: b1 :: b2 :: b3 :: r) =
    cons ((b0 - 240) * 262144 + (b1 - 128) * 4096 + (b2 - 128) * 64 + (b3 - 128))%N <$> from_utf8 r.
Proof.
  intros H0 H1 H2 H3 H4 H5. cbn [from_utf8]. unfold is_cont.
  destruct (N.eqb_spec b0 240), (N.eqb_spec b0 244); try lia; by decide_comparisons.
Qed.

Lemma from_utf8_encode c r : is_scalar c = true ->
  from_utf8 (utf8_encode_char c ++ r) = cons c <$> from_utf8 r.
Proof.
  intros Hs. assert (Hc : (c < 55296 \/ 57344 <= c < 1114112)%N).
  { unfold is_scalar in Hs. apply orb_true_iff in Hs as [Hs|Hs]; bool_to_prop; lia. }
  unfold utf8_encode_char.
  destruct (N.ltb_spec c 128); [|destruct (N.ltb_spec c 2048); [|destruct (N.ltb_spec c 65536)]];
    cbn [app].
  - cbn [from_utf8]. by rewrite (proj2 (N.ltb_lt _ _)).
  - rewrite decode_2 by lia. f_equal. f_equal. lia.
  - rewrite decode_3 by lia. f_equal. f_equal. lia.
  - rewrite decode_4 by lia. f_equal. f_equal. lia.
Qed.

(** What is encoded decodes back. *)
Lemma from_utf8_round_trip t : Forall (fun c => is_scalar c = true) t ->
  from_utf8 (into_bytes t) = Some t.
Proof.
  induction 1 as [|c t Hc _ IH]; [done|]. by rewrite into_bytes_cons, from_utf8_encode, IH.
Qed.

(** *** Lines *)

Definition no_crlf (t : Text) : Prop := forall x y, t <> x ++ 13%N :: 10%N :: y.

Lemma no_crlf_tail a t : no_crlf (a :: t) -> no_crlf t.
Proof. intros Hn x y ->. by apply (Hn (a :: x) y). Qed.

Lemma no_crlf_free t : 13%N ∉ t -> no_crlf t.
Proof. intros Hn x y ->. set_solver. Qed.

Lemma split_crlf_cons a b t : (a = 13%N -> b <> 10%N) ->
  split_crlf (a :: b :: t) =
    match split_crlf (b :: t) with x :: rest => (a :: x) :: rest | [] => [[a]] end.
Proof.
  intros Hab. cbn [split_crlf]. destruct (N.eqb_spec a 13) as [->|]; [|done].
  destruct (N.eqb_spec b 10); naive_solver.
Qed.

Lemma split_crlf_app a rest : no_crlf a ->
  split_crlf (a ++ 13%N :: 10%N :: rest) = a :: split_crlf rest.
Proof.
  induction a as [|x a IH]; intros Hn; [done|].
  destruct a as [|y a].
  - cbn [app]. rewrite split_crlf_cons by done. done.
  - cbn [app] in *. rewrite split_crlf_cons.
    + by rewrite (IH (no_crlf_tail _ _ Hn)).
    + intros -> ->. by apply (Hn [] a).
Qed.

Lemma split_crlf_pieces t x : x ∈ split_crlf t -> no_crlf x /\ forall c, c ∈ x -> c ∈ t.
Proof.
  remember (length t) as n eqn:En. assert (Hle : length t <= n) by lia. clear En.
  revert t x Hle. induction n as [|n IH]; intros t x Hle Hx.
  { destruct t; [|simpl in Hle; lia]. apply list_elem_of_singleton in Hx as ->.
    split; [|set_solver]. by intros [] ?. }
  destruct t as [|a [|b t]]; simpl in Hle.
  - apply list_elem_of_singleton in Hx as ->. split; [|set_solver]. by intros [] ?.
  - apply list_elem_of_singleton in Hx as ->. split; [|set_solver]. by intros [|? []] ?.
  - cbn [split_crlf] in Hx. destruct ((a =? 13) && (b =? 10))%N eqn:E.
    + apply elem_of_cons in Hx as [->|Hx]; [split; [by intros [] ?|set_solver]|].
      destruct (IH t x) as [H1 H2]; [lia|done|]. split; [done|]. set_solver.
    + change (match t with
        | [] => [[b]]
        | b0 :: t'' => if ((b =? 13) && (b0 =? 10))%N then [] :: split_crlf t''
                       else match split_crlf t with x0 :: rest => (b :: x0) :: rest | [] => [[b]] end
        end) with (split_crlf (b :: t)) in Hx.
      assert (Hhead : forall y, y ∈ split_crlf (b :: t) -> no_crlf y /\ forall c, c ∈ y -> c ∈ b :: t)
        by (intros; apply IH; [simpl; lia|done]).
      destruct (split_crlf (b :: t)) as [|y rest] eqn:Es.
      * apply list_elem_of_singleton in Hx as ->. split; [by intros [|? []] ?|set_solver].
      * apply elem_of_cons in Hx as [->|Hx].
        -- destruct (Hhead y) as [H1 H2]; [set_solver|]. split; [|set_solver].
           intros [|z u] v; [|intros [= -> ->]; by apply (H1 u v)].
           intros [= -> ->]. cbn [andb N.eqb] in E.
           assert (b = 10%N) as ->; [|done].
           { clear -Es. cbn [split_crlf] in Es. destruct t as [|c t]; [by simplify_eq|].
             destruct (_ && _); [by simplify_eq|]. destruct (split_crlf (c :: t)); by simplify_eq. }
        -- destruct (Hhead x) as [H1 H2]; [set_solver|]. split; [done|set_solver].
Qed.

Lemma from_utf8_scalar bs t : from_utf8 bs = Some t -> Forall (fun c => is_scalar c = true) t.
Proof.
  remember (length bs) as n eqn:Hn. assert (Hle : length bs <= n) by lia. clear Hn.
  revert bs t Hle. induction n as [|n IH]; intros bs t Hle E.
  { destruct bs; [by simplify_eq/= | simpl in Hle; lia]. }
  destruct bs as [|b0 r]; [by simplify_eq/=|]. cbn [from_utf8] in E. simpl in Hle.
  unfold is_cont in E. unfold is_scalar. setoid_rewrite orb_true_iff.
  setoid_rewrite andb_true_iff. setoid_rewrite N.ltb_lt. setoid_rewrite N.leb_le.
  assert (Hgo : forall r' c t', length r' <= n -> from_utf8 r' = Some t' ->
    (c < 55296 \/ 57344 <= c /\ c < 1114112)%N ->
    Forall (fun c => (c < 55296 \/ 57344 <= c /\ c < 1114112)%N) (c :: t')).
  { intros r' c t' Hr' E' Hc. constructor; [done|]. eapply Forall_impl; [by eapply IH|].
    unfold is_scalar. intros x Hx. apply orb_true_iff in Hx as [Hx|Hx]; bool_to_prop; lia. }
  destruct (N.ltb_spec b0 128).
  { apply fmap_Some in E as (t' & E & ->). apply (Hgo r); (done || lia). }
  destruct (_ && _) eqn:E2 in E; [|destruct (_ && _) eqn:E3 in E;
    [|destruct (_ && _) eqn:E4 in E; [|done]]]; cbn zeta in E.
  - destruct r as [|b1 r]; [done|]. case_match eqn:E1; [|done].
    apply fmap_Some in E as (t' & E & ->). simpl in Hle. bool_to_prop. apply (Hgo r); [lia|done|lia].
  - destruct r as [|b1 [|b2 r]]; [done..|]. simpl in Hle.
    destruct (_ && _) eqn:E1 in E; [|done]. apply fmap_Some in E as (t' & E & ->).
    bool_to_prop. apply (Hgo r); [lia|done|]. repeat case_match; bool_to_prop; lia.
  - destruct r as [|b1 [|b2 [|b3 r]]]; [done..|]. simpl in Hle.
    destruct (_ && _) eqn:E1 in E; [|done]. apply fmap_Some in E as (t' & E & ->).
    bool_to_prop. apply (Hgo r); [lia|done|]. repeat case_match; bool_to_prop; lia.
Qed.

(** *** Trimming *)

Lemma drop_while_none p (t : Text) : (forall c, c ∈ t -> p c = false) -> drop_while p t = t.
Proof. destruct t as [|a t]; intros Hp; simpl; [done|]. by rewrite Hp by left. Qed.

Lemma drop_while_idem p (t : Text) : drop_while p (drop_while p t) = drop_while p t.
Proof.
  induction t as [|a t IH]; simpl; [done|]. destruct (p a) eqn:E; [done|]. simpl. by rewrite E.
Qed.

Lemma drop_while_elem p (t : Text) c : c ∈ drop_while p t -> c ∈ t.
Proof. induction t as [|a t IH]; simpl; [done|]. destruct (p a); set_solver. Qed.

Lemma drop_end_while_elem p t c : c ∈ drop_end_while p t -> c ∈ t.
Proof.
  unfold drop_end_while. rewrite elem_of_reverse. intros Hc%drop_while_elem.
  by rewrite elem_of_reverse in Hc.
Qed.

Lemma text_trim_none t : (forall c, c ∈ t -> is_whitespace c = false) -> text_trim t = t.
Proof.
  intros Hw. unfold text_trim, drop_end_while. rewrite (drop_while_none _ t) by done.
  rewrite drop_while_none; [by rewrite reverse_involutive|].
  intros c. rewrite elem_of_reverse. apply Hw.
Qed.

(** ** Splitting and joining at a character *)

Lemma split_char_free c t : c ∉ t -> split_char c t = [t].
Proof.
  unfold split_char. induction t as [|a t IH]; simpl; [done|]. intros Hn.
  apply not_elem_of_cons in Hn as [Hca Hn]. rewrite (proj2 (N.eqb_neq c a) Hca). by rewrite IH.
Qed.

Lemma split_char_app c t rest : c ∉ t -> split_char c (t ++ c :: rest) = t :: split_char c rest.
Proof.
  unfold split_char. induction t as [|a t IH]; simpl; intros Hn.
  - by rewrite N.eqb_refl.
  - apply not_elem_of_cons in Hn as [Hca Hn]. rewrite (proj2 (N.eqb_neq c a) Hca). by rewrite IH.
Qed.

Lemma split_char_nonnil c t : split_char c t <> [].
Proof. unfold split_char. destruct t; simpl; [done|]. repeat case_match; done. Qed.

Lemma join_split t : join_slash (split_char 47 t) = t.
Proof.
  unfold split_char. induction t as [|a t IH]; [done|]. cbn [split_by].
  destruct (47 =? a)%N eqn:E.
  - apply N.eqb_eq in E as <-. pose proof (split_char_nonnil 47 t) as Hn. unfold split_char in Hn.
    destruct (split_by (N.eqb 47) t) eqn:Es; [done|]. simpl. simpl in IH. by rewrite IH.
  - destruct (split_by (N.eqb 47) t) as [|x [|y rest]] eqn:Es.
    + pose proof (split_char_nonnil 47 t) as Hn. done.
    + change (a :: join_slash [x] = a :: t). by rewrite IH.
    + change (a :: join_slash (x :: y :: rest) = a :: t). by rewrite IH.
Qed.

Lemma split_join parts : parts <> [] -> Forall (fun t => 47%N ∉ t) parts ->
  split_char 47 (join_slash parts) = parts.
Proof.
  induction parts as [|p parts IH]; [done|]. intros _ HF. apply Forall_cons in HF as [Hp HF].
  destruct parts as [|q parts]; [by apply split_char_free|].
  change (join_slash (p :: q :: parts)) with (p ++ 47%N :: join_slash (q :: parts)).
  rewrite split_char_app by done. by rewrite IH.
Qed.

Lemma join_slash_inj a b : a <> [] -> b <> [] ->
  Forall (fun t => 47%N ∉ t) a -> Forall (fun t => 47%N ∉ t) b -> join_slash a = join_slash b -> a = b.
Proof. intros Ha Hb HFa HFb E. rewrite <- (split_join a), <- (split_join b) by done. by rewrite E. Qed.

Lemma split_char_no_sep c t : Forall (fun x => c ∉ x) (split_char c t).
Proof.
  apply Forall_forall. intros x Hx Hc. destruct (split_by_pieces _ _ _ Hx _ Hc) as [E _].
  by rewrite N.eqb_refl in E.
Qed.

Lemma into_bytes_ascii t : Forall (fun c => c < 128)%N t -> into_bytes t = t.
Proof.
  intros HF. induction HF as [|c t Hc HF IH]; [done|]. rewrite into_bytes_cons, IH.
  unfold utf8_encode_char. by rewrite (proj2 (N.ltb_lt _ _) Hc).
Qed.

(** ** Numbers in a radix *)

Fixpoint digits (radix : N) (k : nat) (n : N) : list N :=
  match k with
  | O => []
  | S k' => digits radix k' (n / radix) ++ [n mod radix]%N
  end.

Definition number (radix : N) (ds : list N) : N := fold_left (fun acc d => acc * radix + d)%N ds 0%N.

Lemma length_digits radix k n : length (digits radix k n) = k.
Proof. revert n. induction k as [|k IH]; intros n; simpl; [done|]. rewrite length_app, IH. simpl. lia. Qed.

Lemma number_digits radix k n : (1 < radix)%N -> (n < radix ^ N.of_nat k)%N -> number radix (digits radix k n) = n.
Proof.
  intros Hr. unfold number. revert n. induction k as [|k IH]; intros n Hn.
  - simpl in *. lia.
  - cbn [digits]. rewrite fold_left_app. simpl. rewrite IH.
    + rewrite (N.div_mod n radix) at 3 by lia. lia.
    + apply N.Div0.div_lt_upper_bound. rewrite Nat2N.inj_succ, N.pow_succ_r' in Hn. lia.
Qed.

Lemma digits_bound radix k n : (radix <> 0)%N -> Forall (fun d => d < radix)%N (digits radix k n).
Proof.
  intros Hr. revert n. induction k as [|k IH]; intros n; simpl; [constructor|].
  apply Forall_app. split; [apply IH|]. constructor; [by apply N.mod_lt|constructor].
Qed.
