(* ===== verification/EgressGateway.v ===== *)
(** * The egress gateway

    A sandbox that may only reach named hosts talks to the outside through an
    HTTP proxy that checks the requested host against a policy, resolves it
    itself, refuses it when any answer is a protected address, and connects
    to the address it checked.

    Source: [sandboxwich-worker/src/egress_gateway.rs].  The [ipnet] crate,
    the resolver, the sockets and the policy digest are parameters. *)

From S2P Require Import Prelude Text.

(** The [ipnet] crate: networks, their parser, order and membership. *)
Class IpNetLib : Type := {
  IpNet : Type;
  net_eq_dec :: EqDecision IpNet;
  net_le : relation IpNet;
  net_le_dec :: RelDecision net_le;
  net_parse : Text -> option IpNet;
  net_contains : IpNet -> IpAddr -> bool;
  policy_digest : list Text -> list N -> list IpNet -> option string
}.

Definition DEFAULT_GATEWAY_DENY_CIDRS : list string :=
  ["0.0.0.0/8"; "10.0.0.0/8"; "100.64.0.0/10"; "127.0.0.0/8"; "169.254.0.0/16"; "172.16.0.0/12";
   "192.168.0.0/16"; "198.18.0.0/15"; "224.0.0.0/4"; "240.0.0.0/4"; "::/128"; "::1/128";
   "::ffff:0:0/96"; "64:ff9b::/96"; "64:ff9b:1::/48"; "fc00::/7"; "fe80::/10"; "ff00::/8"].

Definition MAX_HEADER_BYTES : nat := N.to_nat 16384.

(** Reason codes of a refusal. *)
Abbreviation GatewayDeny := string.

Record ResolvedTarget : Type := mkResolvedTarget {
  target_host : Text;
  target_address : IpAddr;
  target_port : N
}.

(** The order of addresses: IPv4 first, then by value. *)
Definition ip_le (a b : IpAddr) : Prop :=
  match a, b with
  | V4 x, V4 y => (x <= y)%Z
  | V4 _, V6 _ => True
  | V6 _, V4 _ => False
  | V6 x, V6 y => (x <= y)%Z
  end.

#[export] Instance ip_le_dec : RelDecision ip_le.
Proof. intros [] []; simpl; apply _. Defined.

(** ** The policy *)

(** [normalize_host]. *)
Definition normalize_host (host : Text) : Text :=
  to_ascii_lowercase (trim_end_matches 46 (text_trim host)).

Definition WILDCARD : Text := [42; 46]%N.

(** [normalize_rule]. *)
Definition normalize_rule (rule : Text) : result Text string :=
  let rule := normalize_host rule in
  let wildcard := text_starts_with WILDCARD rule in
  if is_nil rule || bool_decide (rule = [42%N])
     || (Nat.b2n wildcard <? count_char 42 rule)%nat
     || (contains_char 42 rule && negb wildcard)
     || match strip_prefix WILDCARD rule with
        | Some base => negb (contains_char 46 base)
        | None => false
        end
  then Err "invalid gateway host rule" else Ok rule.

Section Gateway.
Context `{IpNetLib}.

Record EgressGatewayPolicy : Type := mkEgressGatewayPolicy {
  policy_id : string;
  policy_hosts : list Text;
  policy_ports : list N;
  denied_cidrs : list IpNet;
  connection_lifetime_seconds : Z
}.

Definition default_connection_lifetime_seconds : Z := 300.

Definition parse_net (s : string) : result IpNet string :=
  match net_parse (txt s) with Some n => Ok n | None => Err "invalid network" end.

(** [EgressGatewayPolicy::new]. *)
Definition policy_new (hosts : list Text) (ports : list N) (additional_denied_cidrs : list IpNet) :
    result EgressGatewayPolicy string :=
  let? rules := result_all normalize_rule hosts in
  let hosts := btree_set text_le rules in
  let ports := btree_set N.le ports in
  if is_nil hosts || is_nil ports then Err "gateway policy requires at least one host and port"
  else
    let? defaults := result_all parse_net DEFAULT_GATEWAY_DENY_CIDRS in
    let denied := btree_set net_le (btree_set net_le defaults ++ additional_denied_cidrs) in
    match policy_digest hosts ports denied with
    | None => Err "serialize gateway policy"
    | Some id =>
        Ok (mkEgressGatewayPolicy id hosts ports denied default_connection_lifetime_seconds)
    end.

(** A rule against a normalized host. *)
Definition rule_allows (host rule : Text) : bool :=
  match strip_prefix WILDCARD rule with
  | Some suffix =>
      match strip_suffix suffix host with
      | Some prefix => text_ends_with [46%N] prefix && (1 <? length prefix)%nat
      | None => false
      end
  | None => bool_decide (host = rule)
  end.

(** [allows_host]; a non-empty prefix that ends with an ASCII dot has more
    than one byte exactly when it has more than one character. *)
Definition allows_host (p : EgressGatewayPolicy) (host : Text) : bool :=
  existsb (rule_allows (normalize_host host)) (policy_hosts p).

(** [address_is_denied]. *)
Definition address_is_denied (address : IpAddr) (denied : list IpNet) : bool :=
  existsb (fun cidr => net_contains cidr address) denied
  || match address with
     | V6 a =>
         match to_ipv4_mapped a with
         | Some mapped => existsb (fun cidr => net_contains cidr (V4 mapped)) denied
         | None => false
         end
     | V4 _ => false
     end.

(** [evaluate_target]. *)
Definition evaluate_target (p : EgressGatewayPolicy) (host : Text) (port : N)
    (addresses : list IpAddr) : result ResolvedTarget GatewayDeny :=
  if is_some (parse_ip host) then Err "direct_ip_denied"
  else
    let host := normalize_host host in
    if negb (allows_host p host) then Err "host_not_allowed"
    else if negb (existsb (N.eqb port) (policy_ports p)) then Err "port_not_allowed"
    else
      let addresses := btree_set ip_le addresses in
      match addresses with
      | [] => Err "dns_empty"
      | address :: _ =>
          if existsb (fun a => address_is_denied a (denied_cidrs p)) addresses
          then Err "protected_dns_answer"
          else Ok (mkResolvedTarget host address port)
      end.

(** ** Requests *)

Record ProxyRequest : Type := mkProxyRequest {
  request_host : Text;
  request_port : N;
  request_connect : bool;
  forward_header : Bytes
}.

(** [parse_authority]. *)
Definition parse_authority (authority : Text) (default_port : N) : result (Text * N) GatewayDeny :=
  if text_starts_with [91%N] authority || contains_char 64 authority then Err "invalid_authority"
  else
    let? hp :=
      match rsplit_once 58 authority with
      | None => Ok (authority, default_port)
      | Some (host, port) =>
          match parse_unsigned 65535 port with
          | Some port => Ok (host, port)
          | None => Err "invalid_port"
          end
      end in
    if is_nil hp.1 then Err "invalid_authority" else Ok hp.

Definition CRLF : Text := [13; 10]%N.

(** The header lines after the request line: up to the first empty one, less
    those named [host]. *)
Fixpoint forward_lines (lines : list Text) : result Text GatewayDeny :=
  match lines with
  | [] => Ok []
  | line :: rest =>
      if is_nil line then Ok []
      else
        match text_split_once 58 line with
        | None => Err "invalid_header"
        | Some (name, _) =>
            let? kept := forward_lines rest in
            if eq_ignore_ascii_case name (txt "host") then Ok kept
            else Ok (line ++ CRLF ++ kept)
        end
  end.

(** [rest.split_once('/')]: the authority, and the path with its slash. *)
Definition split_authority (rest : Text) : Text * Text :=
  match text_split_once 47 rest with
  | None => (rest, [47%N])
  | Some (authority, _) => (authority, drop (length authority) rest)
  end.

Definition request_line (text : Text) : result (Text * Text * Text) GatewayDeny :=
  match first_line text with
  | None => Err "invalid_header"
  | Some first =>
      match split_whitespace first with
      | [method; target; version] =>
          if negb (text_starts_with (txt "HTTP/1.") version) then Err "invalid_header"
          else Ok (method, target, version)
      | _ => Err "invalid_header"
      end
  end.

(** [ProxyRequest::parse]. *)
Definition parse_request (header : Bytes) : result ProxyRequest GatewayDeny :=
  match from_utf8 header with
  | None => Err "invalid_header"
  | Some text =>
      let? (method, target, version) := request_line text in
      if eq_ignore_ascii_case method (txt "CONNECT") then
        let? (host, port) := parse_authority target 443 in
        Ok (mkProxyRequest host port true [])
      else
        match strip_prefix (txt "http://") target with
        | None => Err "unsupported_proxy_request"
        | Some rest =>
            let (authority, path) := split_authority rest in
            let? (host, port) := parse_authority authority 80 in
            let first := method ++ [32%N] ++ path ++ [32%N] ++ version in
            let? kept := forward_lines (tail (split_crlf text)) in
            Ok (mkProxyRequest host port false
                  (into_bytes (first ++ CRLF ++ txt "Host: " ++ authority ++ CRLF ++ kept ++ CRLF)))
        end
  end.

(** ** A connection *)

(** [read_header] on what the client sends until it closes; [fuel] is what
    is left of the limit. *)
Fixpoint read_header_from (fuel : nat) (header stream : Bytes) : result Bytes string :=
  match fuel with
  | O => Err "request_header_too_large"
  | S fuel' =>
      match stream with
      | [] => Err "request_header_eof"
      | byte :: rest =>
          let header := header ++ [byte] in
          if text_ends_with (CRLF ++ CRLF) header then Ok header
          else read_header_from fuel' header rest
      end
  end.

Definition read_header (stream : Bytes) : result Bytes string :=
  read_header_from MAX_HEADER_BYTES [] stream.

Inductive GatewayAction : Type :=
| Audit (host : Text) (port : N) (decision reason : string)
| Respond (status : Z)
| Connect (address : IpAddr) (port : N)
| Established
| SendUpstream (bytes : Bytes)
| Tunnel (seconds : Z).

(** What the gateway meets outside: the resolver and the network. *)
Record Network : Type := mkNetwork {
  lookup_host : Text -> N -> option (list IpAddr);
  connects : IpAddr -> N -> bool
}.

(** [resolve_target]. *)
Definition resolve_target (net : Network) (p : EgressGatewayPolicy) (host : Text) (port : N) :
    result ResolvedTarget GatewayDeny :=
  match lookup_host net host port with
  | None => Err "dns_failed"
  | Some addresses => evaluate_target p host port addresses
  end.

(** [handle_client]: what it does, in order, and whether it ends in an error.
    [timed_out] is the header timeout. *)
Definition handle_client (net : Network) (p : EgressGatewayPolicy) (timed_out : bool)
    (stream : Bytes) : list GatewayAction * result unit string :=
  if timed_out then ([Respond 408], Err "request_header_timeout")
  else
    match read_header stream with
    | Err e => ([], Err e)
    | Ok header =>
        match parse_request header with
        | Err reason => ([Audit [] 0 "deny" reason; Respond 400], Ok tt)
        | Ok r =>
            match resolve_target net p (request_host r) (request_port r) with
            | Err reason =>
                ([Audit (request_host r) (request_port r) "deny" reason; Respond 403], Ok tt)
            | Ok target =>
                let connect := Connect (target_address target) (target_port target) in
                if negb (connects net (target_address target) (target_port target)) then
                  ([connect; Audit (request_host r) (request_port r) "error" "connect_failed";
                    Respond 502], Err "connect_failed")
                else
                  ([connect; Audit (request_host r) (request_port r) "allow" "policy_allowed";
                    if request_connect r then Established else SendUpstream (forward_header r);
                    Tunnel (Z.min (connection_lifetime_seconds p) 300)], Ok tt)
            end
        end
    end.
End Gateway.

(** ** What is relied on of [ipnet]

    [address/length], with the length in plain decimal digits, without a sign or
    leading zeros, and at most the width of the address's family, denotes the
    addresses of that family that agree with [address] on the first [length]
    bits.  Nothing is assumed of other texts. *)

Definition family_width (ip : IpAddr) : N := match ip with V4 _ => 32 | V6 _ => 128 end.

(** Decimal digits, the first not a zero unless it is the only one. *)
Definition plain_decimal (t : Text) : bool :=
  forallb (fun c => (48 <=? c)%N && (c <=? 57)%N) t &&
  match t with [] => false | [_] => true | c :: _ => negb (c =? 48)%N end.

Definition parse_cidr (t : Text) : option (IpAddr * Z) :=
  '(address, len) ← text_split_once 47 t;
  ip ← parse_ip address;
  if plain_decimal len then
    n ← parse_unsigned (family_width ip) len;
    Some (ip, Z.of_N n)
  else None.

Example cidr_length_is_bounded :
  parse_cidr (txt "10.0.0.0/33") = None /\ parse_cidr (txt "10.0.0.0/+8") = None /\ parse_cidr (txt "10.0.0.0/08") = None /\
  parse_cidr (txt "10.0.0.0/8") = Some (V4 (10 * 2 ^ 24), 8%Z) /\ parse_cidr (txt "::1/128") = Some (V6 1, 128%Z).
Proof. vm_compute. split_and!; reflexivity. Qed.

Definition in_prefix (base : IpAddr) (len : Z) (a : IpAddr) : bool :=
  match base, a with
  | V4 b, V4 x => (Z.shiftr x (32 - len) =? Z.shiftr b (32 - len))%Z
  | V6 b, V6 x => (Z.shiftr x (128 - len) =? Z.shiftr b (128 - len))%Z
  | _, _ => false
  end.

Class IpNetLaws `{IpNetLib} : Prop := {
  net_parse_cidr s base len : parse_cidr s = Some (base, len) ->
    exists n, net_parse s = Some n /\ forall a, net_contains n a = in_prefix base len a
}.

(** ** The protected addresses, as ranges *)

Definition v4 (a b c d : Z) : Z := (((a * 256 + b) * 256 + c) * 256 + d)%Z.

Definition PROTECTED_V4 : list (Z * Z) :=
  [(v4 0 0 0 0, v4 0 255 255 255); (v4 10 0 0 0, v4 10 255 255 255);
   (v4 100 64 0 0, v4 100 127 255 255); (v4 127 0 0 0, v4 127 255 255 255);
   (v4 169 254 0 0, v4 169 254 255 255); (v4 172 16 0 0, v4 172 31 255 255);
   (v4 192 168 0 0, v4 192 168 255 255); (v4 198 18 0 0, v4 198 19 255 255);
   (v4 224 0 0 0, v4 239 255 255 255); (v4 240 0 0 0, v4 255 255 255 255)].

(** The unspecified and the loopback address, the addresses that embed an
    IPv4 address, the private, the link-local and the multicast ones. *)
Definition PROTECTED_V6 : list (Z * Z) :=
  [(0, 0); (1, 1); (65535 * 2 ^ 32, 65536 * 2 ^ 32 - 1);
   (0x64ff9b * 2 ^ 96, 0x64ff9b * 2 ^ 96 + 2 ^ 32 - 1);
   (0x64ff9b0001 * 2 ^ 80, 0x64ff9b0002 * 2 ^ 80 - 1);
   (0xfc * 2 ^ 120, 0xfe * 2 ^ 120 - 1); (0xfe80 * 2 ^ 112, 0xfec0 * 2 ^ 112 - 1);
   (0xff * 2 ^ 120, 2 ^ 128 - 1)]%Z.

Definition in_ranges (ranges : list (Z * Z)) (a : Z) : bool :=
  existsb (fun r => (r.1 <=? a)%Z && (a <=? r.2)%Z) ranges.

Definition is_protected (a : IpAddr) : bool :=
  match a with V4 x => in_ranges PROTECTED_V4 x | V6 x => in_ranges PROTECTED_V6 x end.

(** ** Lemmas *)

(** The networks of the default list, decoded. *)
Definition DEFAULT_NETS : list (IpAddr * Z) :=
  [(V4 (v4 0 0 0 0), 8); (V4 (v4 10 0 0 0), 8); (V4 (v4 100 64 0 0), 10); (V4 (v4 127 0 0 0), 8);
   (V4 (v4 169 254 0 0), 16); (V4 (v4 172 16 0 0), 12); (V4 (v4 192 168 0 0), 16);
   (V4 (v4 198 18 0 0), 15); (V4 (v4 224 0 0 0), 4); (V4 (v4 240 0 0 0), 4); (V6 0, 128); (V6 1, 128);
   (V6 (65535 * 2 ^ 32), 96); (V6 (0x64ff9b * 2 ^ 96), 96); (V6 (0x64ff9b0001 * 2 ^ 80), 48);
   (V6 (0xfc * 2 ^ 120), 7); (V6 (0xfe80 * 2 ^ 112), 10); (V6 (0xff * 2 ^ 120), 8)]%Z.

Lemma default_nets_parse :
  Forall2 (fun s n => parse_cidr (txt s) = Some n) DEFAULT_GATEWAY_DENY_CIDRS DEFAULT_NETS.
Proof. repeat (constructor; [vm_compute; reflexivity|]). constructor. Qed.

Lemma prefix_of_range lo hi k a :
  (0 <= k)%Z -> (lo mod 2 ^ k = 0)%Z -> hi = (lo + 2 ^ k - 1)%Z -> (lo <=? a)%Z && (a <=? hi)%Z = true ->
  (Z.shiftr a k =? Z.shiftr lo k)%Z = true.
Proof.
  intros Hk Hlo -> Ha. bool_to_prop. apply Z.eqb_eq. rewrite !Z.shiftr_div_pow2 by lia.
  assert (0 < 2 ^ k)%Z by lia. rewrite (Z.div_mod lo (2 ^ k)), Hlo, Z.add_0_r, Z.mul_comm, Z.div_mul by lia.
  symmetry. apply (Z.div_unique_pos _ _ _ (a - lo)); [lia|].
  rewrite (Z.div_mod lo (2 ^ k)) at 2 by lia. lia.
Qed.

(** A network written [base/len], with nothing set after the prefix, and the
    range of its addresses. *)
Definition net_width (ip : IpAddr) : Z := match ip with V4 _ => 32 | V6 _ => 128 end.
Definition net_base (ip : IpAddr) : Z := match ip with V4 b | V6 b => b end.
Definition spans (v6 : bool) (r : Z * Z) (n : IpAddr * Z) : bool :=
  let size := (2 ^ (net_width n.1 - n.2))%Z in
  bool_decide (match n.1 with V4 _ => false | V6 _ => true end = v6)
  && (n.2 <=? net_width n.1)%Z && (net_base n.1 mod size =? 0)%Z
  && (r.1 =? net_base n.1)%Z && (r.2 =? net_base n.1 + size - 1)%Z.

Fixpoint all_span (v6 : bool) (rs : list (Z * Z)) (ns : list (IpAddr * Z)) : bool :=
  match rs, ns with
  | [], [] => true
  | r :: rs', n :: ns' => spans v6 r n && all_span v6 rs' ns'
  | _, _ => false
  end.

Lemma spans_prefix v6 r n a : spans v6 r n = true -> (r.1 <=? a)%Z && (a <=? r.2)%Z = true ->
  in_prefix n.1 n.2 (if v6 then V6 a else V4 a) = true.
Proof.
  unfold spans. rewrite !andb_true_iff, !Z.eqb_eq, !Z.leb_le, bool_decide_eq_true.
  destruct r as [lo hi], n as [[b|b] len]; cbn [fst snd net_width net_base in_prefix];
    intros ((((<- & Hlen) & Hb) & ->) & ->) [Hlo Hhi];
    eapply (prefix_of_range _ (b + 2 ^ _ - 1)); (done || lia || (apply andb_true_iff; lia)).
Qed.

Lemma all_span_prefix v6 rs ns a : all_span v6 rs ns = true -> in_ranges rs a = true ->
  exists n, n ∈ ns /\ in_prefix n.1 n.2 (if v6 then V6 a else V4 a) = true.
Proof.
  revert ns. induction rs as [|r rs IH]; intros ns Hs Ha; [done|]. destruct ns as [|n ns]; [done|].
  cbn [all_span] in Hs. apply andb_true_iff in Hs as [H1 H2]. cbn [in_ranges existsb] in Ha.
  apply orb_true_iff in Ha as [Ha|Ha].
  - exists n. split; [left|]. by eapply spans_prefix.
  - destruct (IH ns H2 Ha) as (m & Hm & Hp). exists m. split; [by right|done].
Qed.

(** The default networks cover the protected addresses. *)
Lemma protected_in_default a : is_protected a = true ->
  exists n, n ∈ DEFAULT_NETS /\ in_prefix n.1 n.2 a = true.
Proof.
  intros Ha. destruct a as [x|x]; simpl in Ha.
  - destruct (all_span_prefix false PROTECTED_V4 (take 10 DEFAULT_NETS) x) as (n & Hn & Hp);
      [vm_compute; reflexivity|done|]. exists n. split; [|done].
    rewrite <- (take_drop 10 DEFAULT_NETS). apply elem_of_app. by left.
  - destruct (all_span_prefix true PROTECTED_V6 (drop 10 DEFAULT_NETS) x) as (n & Hn & Hp);
      [vm_compute; reflexivity|done|]. exists n. split; [|done].
    rewrite <- (take_drop 10 DEFAULT_NETS). apply elem_of_app. by right.
Qed.

(** *** Hosts *)

(** A rule names a host, or with [*.] every host below a domain. *)
Inductive rule_matches : Text -> Text -> Prop :=
| match_exact host : 42%N ∉ host -> rule_matches host host
| match_wildcard label base : label <> [] -> rule_matches (WILDCARD ++ base) (label ++ 46%N :: base).

Lemma normalize_rule_ok rule r : normalize_rule rule = Ok r ->
  r = normalize_host rule /\ (42%N ∈ r -> exists base, r = WILDCARD ++ base).
Proof.
  unfold normalize_rule. destruct (_ || _) eqn:E; [done|]. intros [= <-]. split; [done|]. intros Hin.
  apply orb_false_iff in E as [E _]. apply orb_false_iff in E as [_ E].
  rewrite (proj2 (contains_char_spec _ _) Hin) in E. simpl in E. apply negb_false_iff in E.
  by apply text_starts_with_spec.
Qed.

Lemma rule_allows_matches host rule r :
  normalize_rule rule = Ok r -> rule_allows host r = true -> rule_matches (normalize_host rule) host.
Proof.
  intros [-> Hstar]%normalize_rule_ok. unfold rule_allows.
  destruct (strip_prefix WILDCARD (normalize_host rule)) as [base|] eqn:Ep.
  - apply strip_prefix_Some in Ep as ->. destruct (strip_suffix base host) as [prefix|] eqn:Es; [|done].
    apply strip_suffix_Some in Es as ->. rewrite andb_true_iff, text_ends_with_spec, Nat.ltb_lt.
    intros [[label ->] Hlen]. rewrite <- app_assoc. apply match_wildcard. intros ->. simpl in Hlen. lia.
  - rewrite bool_decide_eq_true. intros ->. apply match_exact. intros Hin.
    destruct (Hstar Hin) as [base Hb]. by rewrite (proj2 (strip_prefix_Some _ _ base)) in Ep.
Qed.

Lemma drop_while_fmap (p : N -> bool) f (t : Text) :
  (forall c, p (f c) = p c) -> drop_while p (f <$> t) = f <$> drop_while p t.
Proof. intros Hp. induction t as [|a t IH]; simpl; [done|]. rewrite Hp. by destruct (p a). Qed.

Lemma to_ascii_lower_dot c : (46 =? to_ascii_lower c)%N = (46 =? c)%N.
Proof.
  unfold to_ascii_lower, is_ascii_uppercase. destruct (_ && _) eqn:E; [|done]. bool_to_prop.
  destruct (N.eqb_spec 46 (c + 32)), (N.eqb_spec 46 c); (done || lia).
Qed.

Lemma to_ascii_lower_whitespace c : is_whitespace c = false -> is_whitespace (to_ascii_lower c) = false.
Proof.
  unfold to_ascii_lower, is_ascii_uppercase. destruct (_ && _) eqn:E; [|done]. intros _. bool_to_prop.
  unfold is_whitespace. rewrite !orb_false_iff, !andb_false_iff, !N.eqb_neq, !N.leb_gt. lia.
Qed.

Lemma to_ascii_lower_idem c : to_ascii_lower (to_ascii_lower c) = to_ascii_lower c.
Proof.
  unfold to_ascii_lower at 2 3. destruct (is_ascii_uppercase c) eqn:E.
  - unfold to_ascii_lower. replace (is_ascii_uppercase (c + 32)) with false; [done|].
    unfold is_ascii_uppercase in *. bool_to_prop. symmetry. apply andb_false_iff. rewrite !N.leb_gt. lia.
  - unfold to_ascii_lower. by rewrite E.
Qed.

(** Normalizing a host without spaces twice is normalizing it once. *)
Lemma normalize_host_idem host : (forall c, c ∈ host -> is_whitespace c = false) ->
  normalize_host (normalize_host host) = normalize_host host.
Proof.
  intros Hws. unfold normalize_host. rewrite (text_trim_none host) by done.
  unfold trim_end_matches, drop_end_while, to_ascii_lowercase.
  rewrite text_trim_none.
  - rewrite <- fmap_reverse, reverse_involutive, drop_while_fmap, drop_while_idem
      by apply to_ascii_lower_dot.
    rewrite <- fmap_reverse, <- list_fmap_compose. apply list_fmap_ext. intros i c _.
    apply to_ascii_lower_idem.
  - intros c (d & -> & Hd)%list_elem_of_fmap. apply to_ascii_lower_whitespace, Hws.
    rewrite elem_of_reverse in Hd. apply drop_while_elem in Hd. by rewrite elem_of_reverse in Hd.
Qed.

(** *** Requests *)

Lemma parse_authority_host authority d h port c :
  parse_authority authority d = Ok (h, port) -> c ∈ h -> c ∈ authority.
Proof.
  unfold parse_authority. destruct (_ || _); [done|]. destruct (rsplit_once 58 authority) as [[x y]|] eqn:E.
  - destruct (parse_unsigned 65535 y); [|done]. cbn [result_bind fst].
    destruct (is_nil x); [done|]. intros [= <- <-] Hc. apply rsplit_once_Some in E as [-> _].
    apply elem_of_app. by left.
  - cbn [result_bind fst]. destruct (is_nil authority); [done|]. by intros [= <- <-].
Qed.

Lemma request_line_ok text m t v : request_line text = Ok (m, t, v) ->
  forall x, x ∈ [m; t; v] -> forall c, c ∈ x -> is_whitespace c = false.
Proof.
  unfold request_line. destruct (first_line text) as [first|]; [|done].
  destruct (split_whitespace first) as [|m' [|t' [|v' []]]] eqn:E; try done.
  destruct (negb _); [done|]. intros [= <- <- <-] x Hx c Hc.
  eapply (split_whitespace_pieces first); [by rewrite E|done].
Qed.

Lemma split_authority_elem rest a path c : split_authority rest = (a, path) -> c ∈ a -> c ∈ rest.
Proof.
  unfold split_authority. destruct (text_split_once 47 rest) as [[x y]|] eqn:E; intros [= <- <-]; [|done].
  apply text_split_once_Some in E as [-> _]. set_solver.
Qed.

(** A request names a host without spaces. *)
Lemma parse_request_host header r c : parse_request header = Ok r -> c ∈ request_host r -> is_whitespace c = false.
Proof.
  unfold parse_request. destruct (from_utf8 header) as [text|]; [|done].
  intros Hp. apply result_bind_ok in Hp as ([[m t] v] & Hl & Hp).
  assert (Ht : forall c, c ∈ t -> is_whitespace c = false) by (intros; eapply (request_line_ok _ _ _ _ Hl t); [set_solver|done]).
  destruct (eq_ignore_ascii_case m _).
  - apply result_bind_ok in Hp as ([h port] & Ha & [= <-]). cbn. intros Hc. apply Ht. by eapply parse_authority_host.
  - destruct (strip_prefix (txt "http://") t) as [rest|] eqn:Er; [|done]. apply strip_prefix_Some in Er as ->.
    destruct (split_authority rest) as [a path] eqn:Es.
    apply result_bind_ok in Hp as ([h port] & Ha & Hp). apply result_bind_ok in Hp as (kept & Hk & [= <-]).
    cbn. intros Hc. apply Ht. apply elem_of_app. right. eapply split_authority_elem; [done|].
    by eapply parse_authority_host.
Qed.

Section Confinement.
Context `{IpNetLaws}.

(** *** The policy that was built *)

Lemma policy_new_ok hosts ports extra p : policy_new hosts ports extra = Ok p ->
  (forall r, r ∈ policy_hosts p -> exists rule, rule ∈ hosts /\ normalize_rule rule = Ok r) /\
  (forall port, port ∈ policy_ports p -> port ∈ ports) /\
  (forall n, n ∈ DEFAULT_NETS -> exists c, c ∈ denied_cidrs p /\ forall a, net_contains c a = in_prefix n.1 n.2 a) /\
  (forall c, c ∈ extra -> c ∈ denied_cidrs p) /\
  connection_lifetime_seconds p = 300%Z.
Proof.
  unfold policy_new. intros Hp. apply result_bind_ok in Hp as (rules & Hrules & Hp).
  destruct (_ || _); [done|]. apply result_bind_ok in Hp as (defaults & Hdef & Hp).
  destruct (policy_digest _ _ _); [|done]. injection Hp as <-. cbn.
  apply result_all_ok in Hrules, Hdef. setoid_rewrite elem_of_btree_set. split_and!.
  - intros r (i & Hi)%list_elem_of_lookup. destruct (Forall2_lookup_r _ _ _ _ _ Hrules Hi) as (rule & Hr & Hn).
    exists rule. split; [by eapply list_elem_of_lookup_2|done].
  - done.
  - intros [base len] (i & Hi)%list_elem_of_lookup.
    destruct (Forall2_lookup_r _ _ _ _ _ default_nets_parse Hi) as (text & Htext & Hparse).
    destruct (Forall2_lookup_l _ _ _ _ _ Hdef Htext) as (c & Hc & Hpn).
    destruct (net_parse_cidr _ _ _ Hparse) as (c' & Hc' & Hall).
    unfold parse_net in Hpn. rewrite Hc' in Hpn. injection Hpn as <-. exists c'. split; [|done].
    apply elem_of_app. left. apply elem_of_btree_set. by eapply list_elem_of_lookup_2.
  - intros c Hc. apply elem_of_app. by right.
  - done.
Qed.

Lemma not_denied_not_protected p a :
  (forall n, n ∈ DEFAULT_NETS ->
     exists c, c ∈ denied_cidrs p /\ forall x, net_contains c x = in_prefix n.1 n.2 x) ->
  address_is_denied a (denied_cidrs p) = false -> is_protected a = false.
Proof.
  intros Hdef Hd. destruct (is_protected a) eqn:E; [exfalso|done].
  destruct (protected_in_default a E) as (n & Hn & Hp). destruct (Hdef n Hn) as (c & Hc & Hall).
  apply orb_false_iff in Hd as [Hd _]. apply not_true_iff_false in Hd. apply Hd, existsb_exists.
  exists c. split; [by apply list_elem_of_In|]. by rewrite Hall.
Qed.

(** *** Targets *)

Lemma evaluate_target_ok p host port answers t : evaluate_target p host port answers = Ok t ->
  parse_ip host = None /\ target_port t = port /\ target_address t ∈ answers /\ port ∈ policy_ports p /\
  (exists r, r ∈ policy_hosts p /\ rule_allows (normalize_host (normalize_host host)) r = true) /\
  forall b, b ∈ answers -> address_is_denied b (denied_cidrs p) = false.
Proof.
  unfold evaluate_target. destruct (parse_ip host) eqn:Hip; cbn [is_some]; [done|].
  destruct (allows_host p _) eqn:Eh; simpl; [|done]. destruct (existsb (N.eqb port) _) eqn:Ep; simpl; [|done].
  destruct (btree_set ip_le answers) as [|a rest] eqn:Ea; [done|].
  destruct (existsb _ (a :: rest)) eqn:Ed; [done|]. intros [= <-]. cbn [target_address target_port].
  assert (Hin : forall b, b ∈ answers <-> b ∈ a :: rest).
  { intros b. by rewrite <- Ea, elem_of_btree_set. }
  split_and!.
  - done.
  - done.
  - apply Hin. left.
  - apply existsb_exists in Ep as (q & Hq & E%N.eqb_eq). subst q. by apply list_elem_of_In.
  - unfold allows_host in Eh. apply existsb_exists in Eh as (r & Hr & E). exists r.
    split; [by apply list_elem_of_In|done].
  - intros b Hb%Hin%list_elem_of_In. apply not_true_iff_false. intros Hc.
    apply not_true_iff_false in Ed. apply Ed, existsb_exists. eauto.
Qed.

(** C37. The gateway only connects where its policy allows.  Whatever the
    client sends and whatever the resolver answers, an upstream connection is
    made to one of the answers for the requested host, on a listed port, for
    a name (not an address) that a rule of the configuration covers; none of
    the answers, not only the chosen one, is a protected address or in an
    operator's denied network.  Nothing is tunnelled without such a
    connection, and no tunnel outlives five minutes. *)
Theorem gateway_confines_connections hosts ports extra p net timed_out stream actions outcome :
  policy_new hosts ports extra = Ok p ->
  handle_client net p timed_out stream = (actions, outcome) ->
  (forall a port, Connect a port ∈ actions ->
     exists host answers,
       lookup_host net host port = Some answers /\ a ∈ answers /\ port ∈ ports /\
       parse_ip host = None /\
       (exists rule, rule ∈ hosts /\ rule_matches (normalize_host rule) (normalize_host host)) /\
       (forall b, b ∈ answers -> is_protected b = false /\
          forall n, n ∈ extra -> net_contains n b = false)) /\
  (forall x, x ∈ actions ->
     match x with
     | Established | SendUpstream _ =>
         exists a port, Connect a port ∈ actions /\ connects net a port = true
     | Tunnel seconds =>
         (seconds <= 300)%Z /\ exists a port, Connect a port ∈ actions /\ connects net a port = true
     | _ => True
     end).
Proof.
  intros Hpol. destruct (policy_new_ok _ _ _ _ Hpol) as (Hhosts & Hports & Hdef & Hextra & Hlife).
  unfold handle_client. destruct timed_out; [intros [= <- <-]; set_solver|].
  destruct (read_header stream) as [header|e]; [|intros [= <- <-]; set_solver].
  destruct (parse_request header) as [r|e] eqn:Er; [|intros [= <- <-]; set_solver].
  destruct (resolve_target net p _ _) as [t|e] eqn:Et; [|intros [= <- <-]; set_solver].
  unfold resolve_target in Et.
  destruct (lookup_host net (request_host r) (request_port r)) as [answers|] eqn:El; [|done].
  apply evaluate_target_ok in Et as (Hip & Hport & Ha & Hp & (rule & Hrule & Hallow) & Hden).
  rewrite normalize_host_idem in Hallow by (intros; by eapply parse_request_host).
  assert (Hmain : exists host answers,
       lookup_host net host (target_port t) = Some answers /\ target_address t ∈ answers /\
       target_port t ∈ ports /\ parse_ip host = None /\
       (exists rule, rule ∈ hosts /\ rule_matches (normalize_host rule) (normalize_host host)) /\
       (forall b, b ∈ answers -> is_protected b = false /\
          forall n, n ∈ extra -> net_contains n b = false)).
  { exists (request_host r), answers. rewrite Hport. split_and!; try done; [by apply Hports| |].
    - destruct (Hhosts _ Hrule) as (rule0 & Hin & Hn). exists rule0. split; [done|].
      by eapply rule_allows_matches.
    - intros b Hb. split; [by eapply not_denied_not_protected, Hden|]. intros n Hn%Hextra.
      pose proof (Hden b Hb) as Hd. apply orb_false_iff in Hd as [Hd _].
      apply not_true_iff_false. intros Hc. apply not_true_iff_false in Hd. apply Hd, existsb_exists.
      exists n. split; [by apply list_elem_of_In|done]. }
  destruct (connects net (target_address t) (target_port t)) eqn:Ec; cbn [negb]; intros [= <- <-].
  - split.
    + intros a port Hin. repeat (apply elem_of_cons in Hin as [?|Hin]); simplify_eq; try done;
        [destruct (request_connect r); simplify_eq | by apply not_elem_of_nil in Hin].
    + assert (Hconn : exists a port, Connect a port ∈ [Connect (target_address t) (target_port t);
         Audit (request_host r) (request_port r) "allow" "policy_allowed";
         if request_connect r then Established else SendUpstream (forward_header r);
         Tunnel (connection_lifetime_seconds p `min` 300)] /\ connects net a port = true).
      { do 2 eexists. split; [left|done]. }
      intros x Hx. repeat (apply elem_of_cons in Hx as [->|Hx]); [done|done| | |by apply not_elem_of_nil in Hx].
      * by destruct (request_connect r).
      * split; [rewrite Hlife; done|done].
  - split; [|set_solver]. intros a port Hin.
    repeat (apply elem_of_cons in Hin as [?|Hin]); simplify_eq; try done. by apply not_elem_of_nil in Hin.
Qed.
End Confinement.

(** ** What is forwarded *)

(** The header lines of a request and whether one is a [Host] header. *)
Fixpoint take_lines (lines : list Text) : list Text :=
  match lines with
  | [] => []
  | line :: rest => if is_nil line then [] else line :: take_lines rest
  end.

Definition header_lines (text : Text) : list Text := take_lines (tail (split_crlf text)).

Definition names_host (line : Text) : bool :=
  match text_split_once 58 line with
  | Some (name, _) => eq_ignore_ascii_case name (txt "host")
  | None => false
  end.

Definition unlines (lines : list Text) : Text := lines ≫= fun line => line ++ CRLF.

Lemma forward_lines_ok lines kept : forward_lines lines = Ok kept ->
  kept = unlines (List.filter (fun line => negb (names_host line)) (take_lines lines)).
Proof.
  revert kept. induction lines as [|line rest IH]; simpl; intros kept; [by intros [= <-]|].
  destruct (is_nil line); [by intros [= <-]|]. cbn [List.filter]. unfold names_host at 1.
  destruct (text_split_once 58 line) as [[name ?]|]; [|done]. rewrite result_bind_ok.
  intros (k & Hk%IH & Hkept). destruct (eq_ignore_ascii_case name _); simpl; injection Hkept as <-; subst; [done|].
  unfold unlines. simpl. by rewrite <- app_assoc.
Qed.

Lemma split_unlines lines rest : (forall line, line ∈ lines -> no_crlf line) ->
  split_crlf (unlines lines ++ rest) = lines ++ split_crlf rest.
Proof.
  induction lines as [|line lines IH]; intros Hn; [done|]. unfold unlines. cbn [mbind list_bind].
  rewrite <- !app_assoc. unfold CRLF at 1. cbn [app]. rewrite split_crlf_app by (apply Hn; left).
  f_equal. apply IH. intros l Hl. apply Hn. by right.
Qed.

Lemma take_lines_elem line lines : line ∈ take_lines lines -> line ∈ lines.
Proof. induction lines as [|l ls IH]; simpl; [done|]. destruct (is_nil l); set_solver. Qed.

Lemma tail_elem {A} (x : A) l : x ∈ tail l -> x ∈ l.
Proof. destruct l; [done|]. by right. Qed.

Lemma request_line_elem text m t v : request_line text = Ok (m, t, v) ->
  forall x, x ∈ [m; t; v] -> forall c, c ∈ x -> is_whitespace c = false /\ c ∈ text.
Proof.
  intros Hl x Hx c Hc. split; [by eapply (request_line_ok text m t v)|].
  unfold request_line in Hl. destruct text as [|a text]; [done|]. cbn [first_line] in Hl.
  set (whole := a :: text) in *.
  destruct (split_whitespace _) as [|m' [|t' [|v' []]]] eqn:E in Hl; try done.
  destruct (negb _); [done|]. injection Hl as <- <- <-.
  assert (Hin : x ∈ split_by is_whitespace
      match text_split_once 10 whole with
      | Some (line, _) => default line (strip_suffix [13%N] line)
      | None => whole
      end).
  { rewrite <- E in Hx. unfold split_whitespace in Hx.
    by rewrite list_elem_of_In, List.filter_In, <- list_elem_of_In in Hx; destruct Hx. }
  apply split_by_pieces with (c := c) in Hin as [_ Hin]; [|done].
  destruct (text_split_once 10 whole) as [[line rest]|] eqn:El; [|done].
  apply text_split_once_Some in El as [-> _]. apply elem_of_app. left.
  destruct (strip_suffix [13%N] line) as [l|] eqn:Es; simpl in Hin; [|done].
  apply strip_suffix_Some in Es as ->. set_solver.
Qed.

Lemma split_authority_path rest a path c : split_authority rest = (a, path) -> c ∈ path -> c = 47%N \/ c ∈ rest.
Proof.
  unfold split_authority. destruct (text_split_once 47 rest) as [[x y]|] eqn:E; intros [= <- <-] Hc.
  - right. rewrite <- (take_drop (length x) rest). apply elem_of_app. by right.
  - left. by apply list_elem_of_singleton in Hc.
Qed.

Lemma not_whitespace_crlf (t : Text) : (forall c, c ∈ t -> is_whitespace c = false) -> 13%N ∉ t.
Proof. intros Ht Hin. by apply Ht in Hin. Qed.

Definition forward_text (m path v authority : Text) (lines : list Text) : Text :=
  (m ++ [32%N] ++ path ++ [32%N] ++ v) ++ CRLF ++ txt "Host: " ++ authority ++ CRLF ++
    unlines lines ++ CRLF.

Lemma forward_text_scalar m path v authority lines :
  let scalar := Forall (fun c => is_scalar c = true) in
  scalar m -> scalar path -> scalar v -> scalar authority -> Forall scalar lines ->
  scalar (forward_text m path v authority lines).
Proof.
  intros scalar Hm Hp Hv Ha Hl. unfold scalar, forward_text in *. rewrite !Forall_app.
  assert (Hcrlf : Forall (fun c => is_scalar c = true) CRLF) by by repeat constructor.
  split_and!; try done; try by repeat constructor.
  induction Hl as [|line lines Hline _ IH]; [constructor|]. unfold unlines. cbn [mbind list_bind].
  by rewrite !Forall_app.
Qed.

Lemma forward_text_split m path v authority lines :
  let plain (t : Text) := forall c, c ∈ t -> is_whitespace c = false in
  plain m -> plain path -> plain v -> plain authority -> (forall line, line ∈ lines -> no_crlf line) ->
  split_crlf (forward_text m path v authority lines) =
    (m ++ [32%N] ++ path ++ [32%N] ++ v) :: (txt "Host: " ++ authority) :: lines ++ [[]; []].
Proof.
  intros plain Hm Hp Hv Ha Hl. unfold forward_text, CRLF. cbn [app].
  rewrite split_crlf_app.
  - f_equal. rewrite app_assoc, split_crlf_app.
    + f_equal. by rewrite split_unlines.
    + apply no_crlf_free. rewrite elem_of_app. intros [Hin|Hin%Ha]; [|done]. vm_compute in Hin. set_solver.
  - apply no_crlf_free. rewrite !elem_of_app, !elem_of_cons, elem_of_app, elem_of_cons.
    intros [Hin%Hm|[?|[Hin%Hp|[?|Hin%Hv]]]]; done.
Qed.

(** A plain request is forwarded as it was sent, with the checked
    authority as its only [Host] header.  Split at line ends, what the gateway
    sends upstream is the request line with the path in place of the absolute
    target, one [Host] line with the authority that the policy was evaluated
    on, every other header line of the request unchanged and in order, and
    the empty line that ends them. *)
Theorem forwarded_request_is_faithful header r :
  parse_request header = Ok r -> request_connect r = false ->
  exists text m v authority path rest forwarded,
    from_utf8 header = Some text /\
    request_line text = Ok (m, txt "http://" ++ rest, v) /\
    (rest = authority ++ path \/ rest = authority /\ path = [47%N]) /\
    parse_authority authority 80 = Ok (request_host r, request_port r) /\
    from_utf8 (forward_header r) = Some forwarded /\
    split_crlf forwarded =
      (m ++ [32%N] ++ path ++ [32%N] ++ v) :: (txt "Host: " ++ authority)
      :: List.filter (fun line => negb (names_host line)) (header_lines text) ++ [[]; []].
Proof.
  unfold parse_request. destruct (from_utf8 header) as [text|] eqn:Et; [|done].
  intros Hp Hconn. apply result_bind_ok in Hp as ([[m t] v] & Hl & Hp).
  destruct (eq_ignore_ascii_case m _).
  { apply result_bind_ok in Hp as ([h port] & Ha & [= <-]). done. }
  destruct (strip_prefix (txt "http://") t) as [rest|] eqn:Er; [|done]. apply strip_prefix_Some in Er as ->.
  destruct (split_authority rest) as [a path] eqn:Es.
  apply result_bind_ok in Hp as ([h port] & Ha & Hp). apply result_bind_ok in Hp as (kept & Hk & [= <-]).
  cbn [request_host request_port forward_header].
  assert (Htoken : forall x, x ∈ [m; txt "http://" ++ rest; v] -> forall c, c ∈ x -> is_whitespace c = false /\ c ∈ text)
    by by eapply request_line_elem.
  assert (Hrest : forall c, c ∈ rest -> is_whitespace c = false /\ c ∈ text).
  { intros c Hc. eapply Htoken; [right; left|]. apply elem_of_app. by right. }
  apply forward_lines_ok in Hk as ->. fold (header_lines text).
  set (lines := List.filter _ (header_lines text)).
  assert (Hlines : forall line, line ∈ lines -> no_crlf line /\ forall c, c ∈ line -> c ∈ text).
  { intros line Hline. unfold lines in Hline.
    rewrite list_elem_of_In, List.filter_In, <- list_elem_of_In in Hline. destruct Hline as [Hline _].
    by apply split_crlf_pieces, tail_elem, take_lines_elem. }
  pose proof (from_utf8_scalar _ _ Et) as Hs. rewrite Forall_forall in Hs.
  exists text, m, v, a, path, rest, (forward_text m path v a lines). split_and!; [done|done| |done| |].
  - unfold split_authority in Es. destruct (text_split_once 47 rest) as [[x y]|] eqn:E; injection Es as <- <-.
    + left. apply text_split_once_Some in E as [-> _]. by rewrite drop_app_length.
    + by right.
  - apply from_utf8_round_trip, forward_text_scalar; apply Forall_forall.
    + intros c Hc. eapply Hs, (Htoken m); [left|done].
    + intros c Hc. destruct (split_authority_path _ _ _ _ Es Hc) as [->|Hc']; [done|]. by apply Hs, Hrest.
    + intros c Hc. eapply Hs, (Htoken v); [right; right; left|done].
    + intros c Hc. by eapply Hs, Hrest, split_authority_elem.
    + intros line Hline. apply Forall_forall. intros c Hc. by eapply Hs, Hlines.
  - apply forward_text_split.
    + intros c Hc. eapply (Htoken m); [left|done].
    + intros c Hc. destruct (split_authority_path _ _ _ _ Es Hc) as [->|Hc']; [done|]. by apply Hrest.
    + intros c Hc. eapply (Htoken v); [right; right; left|done].
    + intros c Hc. by eapply Hrest, split_authority_elem.
    + intros line Hline. by apply Hlines.
Qed.

(** ** Reading the header *)

Definition ends_header (t : Bytes) : bool := text_ends_with (CRLF ++ CRLF) t.

Lemma read_header_from_spec fuel acc stream :
  match read_header_from fuel acc stream with
  | Ok h => exists n, 1 <= n <= fuel /\ n <= length stream /\ h = acc ++ take n stream /\
      ends_header h = true /\
      forall k, 1 <= k < n -> ends_header (acc ++ take k stream) = false
  | Err e =>
      (forall k, 1 <= k <= fuel -> k <= length stream -> ends_header (acc ++ take k stream) = false) /\
      (e = "request_header_too_large" /\ fuel <= length stream \/
       e = "request_header_eof" /\ length stream < fuel)
  end.
Proof.
  revert acc stream. induction fuel as [|fuel IH]; intros acc stream; cbn [read_header_from].
  { split; [lia|]. left. split; [done|lia]. }
  destruct stream as [|byte rest]; [split; [simpl; lia|right; simpl; split; [done|lia]]|].
  destruct (text_ends_with (CRLF ++ CRLF) (acc ++ [byte])) eqn:E.
  { exists 1. simpl. split_and!; try lia; done. }
  specialize (IH (acc ++ [byte]) rest).
  assert (Hstep : forall k, (acc ++ [byte]) ++ take k rest = acc ++ take (S k) (byte :: rest))
    by (intros k; by rewrite <- app_assoc).
  destruct (read_header_from fuel (acc ++ [byte]) rest) as [h|e].
  - destruct IH as (n & Hn & Hlen & -> & Hend & Hmin). exists (S n). rewrite Hstep in *.
    split_and!; try (simpl; lia); [done..|]. intros [|k] Hk; [lia|].
    destruct k as [|k]; [exact E|]. rewrite <- Hstep. apply Hmin. lia.
  - destruct IH as [Hmin Hcase]. split; [|simpl; destruct Hcase as [[-> ?]|[-> ?]]; [left|right]; split; (done || lia)].
    intros [|k] Hk Hlen; [lia|]. destruct k as [|k]; [exact E|]. rewrite <- Hstep.
    apply Hmin; [lia|]. simpl in Hlen. lia.
Qed.

(** The header of a request is read exactly and within its limit.  What
    [read_header] returns is the shortest prefix of the stream that ends with
    an empty line, so nothing of the body is consumed; it fails exactly when
    the first 16384 bytes hold no such end, as too large if there were that
    many bytes and as cut off if the client sent fewer. *)
Theorem header_read_is_exact stream :
  match read_header stream with
  | Ok h => exists n, n <= MAX_HEADER_BYTES /\ h = take n stream /\ length h = n /\
      ends_header h = true /\ forall k, k < n -> ends_header (take k stream) = false
  | Err e =>
      (forall k, k <= MAX_HEADER_BYTES -> ends_header (take k stream) = false) /\
      (e = "request_header_too_large" /\ MAX_HEADER_BYTES <= length stream \/
       e = "request_header_eof" /\ length stream < MAX_HEADER_BYTES)
  end.
Proof.
  unfold read_header. pose proof (read_header_from_spec MAX_HEADER_BYTES [] stream) as Hs.
  assert (H0 : ends_header (take 0 stream) = false) by by destruct stream.
  destruct (read_header_from MAX_HEADER_BYTES [] stream) as [h|e].
  - destruct Hs as (n & Hn & Hlen & -> & Hend & Hmin). exists n. cbn [app] in *.
    split_and!; [lia|done|rewrite length_take; lia|done|]. intros [|k] Hk; [done|]. apply Hmin. lia.
  - destruct Hs as [Hmin Hcase]. cbn [app] in Hmin. split; [|done]. intros [|k] Hk; [done|].
    destruct (decide (S k <= length stream)) as [Hle|Hgt]; [by apply Hmin; lia|].
    rewrite take_ge by lia. destruct stream as [|b stream]; [done|].
    rewrite <- (firstn_all (b :: stream)). apply Hmin; simpl in *; lia.
Qed.

(** ** A worked example *)

(** Networks as an address and a length. *)
#[export] Instance plain_nets : IpNetLib := {|
  IpNet := IpAddr * Z;
  net_le a b := ip_le a.1 b.1;
  net_le_dec a b := ip_le_dec a.1 b.1;
  net_parse := parse_cidr;
  net_contains n a := in_prefix n.1 n.2 a;
  policy_digest _ _ _ := Some "policy"
|}.

#[export] Instance plain_nets_laws : IpNetLaws.
Proof. split. intros s base len E. exists (base, len). by split. Qed.

Definition sample_policy : result EgressGatewayPolicy string :=
  policy_new [txt "*.Example.com"; txt "api.test"] [80; 443]%N [].

Definition public_answer : Network :=
  mkNetwork (fun _ _ => Some [V4 (v4 203 0 113 10)]) (fun _ _ => true).

Definition line (s : string) : Bytes := str_bytes s ++ CRLF.

(** A plain request for [v1.example.com], with a [Host] header of its own. *)
Definition sample_request : Bytes :=
  line "GET http://V1.example.com/x HTTP/1.1" ++ line "Host: other.test" ++ line "X-Test: kept" ++ CRLF.

Definition sample_first_action : option GatewayAction :=
  match sample_policy with
  | Ok p => head (handle_client public_answer p false sample_request).1
  | Err _ => None
  end.

Lemma gateway_confines_connections_witness :
  exists p actions outcome, sample_policy = Ok p /\
    handle_client public_answer p false sample_request = (actions, outcome) /\
    Connect (V4 (v4 203 0 113 10)) 80 ∈ actions /\ (80%N ∈ [80; 443]%N).
Proof.
  assert (Hp : is_ok sample_policy = true) by (vm_compute; reflexivity).
  apply is_ok_true in Hp as [p Hp].
  destruct (handle_client public_answer p false sample_request) as [actions outcome] eqn:E.
  pose proof (gateway_confines_connections _ _ _ p public_answer false sample_request actions outcome
    Hp E) as [Hc _].
  exists p, actions, outcome. split; [exact Hp|]. split; [exact E|].
  assert (Hin : sample_first_action = Some (Connect (V4 (v4 203 0 113 10)) 80)) by (vm_compute; reflexivity).
  unfold sample_first_action in Hin. rewrite Hp, E in Hin. cbn [fst] in Hin.
  assert (Hin' : Connect (V4 (v4 203 0 113 10)) 80 ∈ actions).
  { destruct actions as [|x actions]; [discriminate Hin|]. injection Hin as ->. left. }
  split; [exact Hin'|]. destruct (Hc _ _ Hin') as (host & answers & _ & _ & Hport & _). exact Hport.
Defined.

Lemma forwarded_request_is_faithful_witness :
  exists r forwarded, parse_request sample_request = Ok r /\ request_connect r = false /\
    from_utf8 (forward_header r) = Some forwarded /\
    split_crlf forwarded =
      [txt "GET /x HTTP/1.1"; txt "Host: V1.example.com"; txt "X-Test: kept"; []; []].
Proof.
  assert (Hr : exists r, parse_request sample_request = Ok r /\ request_connect r = false)
    by (eexists; split; vm_compute; reflexivity).
  destruct Hr as (r & Hr & Hc). exists r.
  destruct (forwarded_request_is_faithful sample_request r Hr Hc)
    as (text & m & v & authority & path & rest & forwarded & _ & _ & _ & _ & Hf & _).
  exists forwarded. split_and!; try done.
  vm_compute in Hr. injection Hr as <-. vm_compute in Hf. injection Hf as <-. vm_compute. reflexivity.
Defined.

(** *** A [Host] header behind a bare newline *)

(** The header value [a], a newline, and a second [Host] line. *)
Definition smuggled_request : Bytes :=
  line "GET http://api.test/ HTTP/1.1" ++ str_bytes "X: a" ++ [10%N] ++ line "Host: other.test" ++ CRLF.

(** A [Host] header behind a bare newline is forwarded.  The parser
    splits header lines at CRLF only, so the part of a value after a lone
    newline is not looked at.  A server that ends lines at a lone newline, as
    HTTP/1.1 lets it, reads a second [Host] header of the client's choice. *)
Theorem host_header_passes_behind_newline :
  exists r forwarded, parse_request smuggled_request = Ok r /\ request_host r = txt "api.test" /\
    from_utf8 (forward_header r) = Some forwarded /\
    txt "Host: other.test" ∈ (default [] ∘ head ∘ split_char 13) <$> split_char 10 forwarded.
Proof.
  eexists _, _. split_and!; [vm_compute; reflexivity..|].
  apply (bool_decide_unpack _). vm_compute. exact I.
Qed.
