(* ===== verification/CoreTypes.v ===== *)
(** * Core data model

    The closed enums of [crates/sandboxwich-core/src/lib.rs] that cross the
    database boundary, and the codec the [db_variant_enum!] macro derives for
    them.  The macro is modelled once, as the class [DbVariant] with its
    parser; every enum is an instance, and the laws the macro's expansion
    guarantees are the class [DbVariantLaws]. *)

From S2P Require Import Prelude.

(** ** The [DbVariant] trait and its derived parser *)

Record DbVariantError := {
  err_enum_name : string;
  err_value : string;
  err_expected : list string;
}.

Class DbVariant (A : Type) := {
  enum_name : string;
  variants : list A;
  as_db_str : A -> string;
}.

Definition VALUES (A : Type) `{DbVariant A} : list string := as_db_str <$> (variants : list A).

(** The arms of the generated [match value { "v1" => ..., _ => Err }], tried
    in declaration order. *)
Fixpoint match_arms `{DbVariant A} (arms : list A) (value : string) : option A :=
  match arms with
  | [] => None
  | a :: rest => if String.eqb (as_db_str a) value then Some a else match_arms rest value
  end.

Definition parse_db_str `{DbVariant A} (value : string) : result A DbVariantError :=
  match match_arms variants value with
  | Some a => Ok a
  | None => Err {| err_enum_name := enum_name; err_value := value; err_expected := VALUES A |}
  end.

(** What the macro's expansion promises: the variant list is the whole type
    and no two variants share a string. *)
Class DbVariantLaws (A : Type) `{DbVariant A} := {
  variants_complete : forall a : A, a ∈ (variants : list A);
  as_db_str_inj : forall a b : A, as_db_str a = as_db_str b -> a = b;
}.

Ltac solve_db_laws :=
  split;
  [ intros []; simpl; set_solver
  | intros [] []; simpl; intros; (reflexivity || discriminate) ].

Section db_variant.
Context {A : Type} `{DbVariantLaws A}.

Lemma match_arms_sound arms value a :
  match_arms arms value = Some a -> a ∈ arms /\ as_db_str a = value.
Proof.
  induction arms as [|b arms IH]; simpl; [done|].
  destruct (String.eqb_spec (as_db_str b) value); intros; simplify_eq.
  - split; [left | done].
  - destruct IH; [done|]. split; [by right | done].
Qed.

Lemma match_arms_complete arms a :
  a ∈ arms -> match_arms arms (as_db_str a) = Some a.
Proof.
  induction 1 as [b arms|b c arms Hin IH]; simpl.
  - by rewrite String.eqb_refl.
  - destruct (String.eqb_spec (as_db_str c) (as_db_str b)) as [E|]; [|done].
    by rewrite (as_db_str_inj _ _ E).
Qed.

(** Parsing inverts printing for every variant. *)
Lemma parse_as_db_str (a : A) : parse_db_str (as_db_str a) = Ok a.
Proof.
  unfold parse_db_str. by rewrite match_arms_complete by apply variants_complete.
Qed.

(** A parsed variant prints back to the very string it was parsed from. *)
Lemma parse_db_str_sound value (a : A) : parse_db_str value = Ok a -> as_db_str a = value.
Proof.
  unfold parse_db_str. destruct (match_arms _ _) eqn:E; intros; simplify_eq.
  by apply match_arms_sound in E as [].
Qed.

Lemma parse_db_str_err value e :
  @parse_db_str A _ value = Err e <->
  value ∉ VALUES A /\
  e = {| err_enum_name := enum_name; err_value := value; err_expected := VALUES A |}.
Proof.
  unfold parse_db_str, VALUES. destruct (match_arms variants value) as [a|] eqn:E.
  - apply match_arms_sound in E as [? <-]. split; [done|]. intros [Hn _]. destruct Hn.
    by apply list_elem_of_fmap_2.
  - split; [intros [= <-]; split; [|done] | by intros [_ ->]].
    intros (a & -> & Ha)%list_elem_of_fmap.
    by rewrite match_arms_complete in E.
Qed.
End db_variant.

(** ** The enums *)

Module SandboxState.
Inductive SandboxState : Set :=
| Planning
| Provisioning
| Ready
| Running
| Idle
| Archiving
| Archived
| Error.
#[global] Instance SandboxState_eq_dec : EqDecision SandboxState.
Proof. solve_decision. Defined.
#[global] Instance SandboxState_db : DbVariant SandboxState := {|
  enum_name := "SandboxState";
  variants := [Planning; Provisioning; Ready; Running; Idle; Archiving; Archived; Error];
  as_db_str x := match x with
    | Planning => "planning"
    | Provisioning => "provisioning"
    | Ready => "ready"
    | Running => "running"
    | Idle => "idle"
    | Archiving => "archiving"
    | Archived => "archived"
    | Error => "error"
    end |}.
#[global] Instance SandboxState_db_laws : DbVariantLaws SandboxState.
Proof. solve_db_laws. Qed.
End SandboxState.
Abbreviation SandboxState := SandboxState.SandboxState.

Module WorkspaceMode.
Inductive WorkspaceMode : Set :=
| Ephemeral
| GenericEphemeral
| Persistent.
#[global] Instance WorkspaceMode_eq_dec : EqDecision WorkspaceMode.
Proof. solve_decision. Defined.
#[global] Instance WorkspaceMode_db : DbVariant WorkspaceMode := {|
  enum_name := "WorkspaceMode";
  variants := [Ephemeral; GenericEphemeral; Persistent];
  as_db_str x := match x with
    | Ephemeral => "ephemeral"
    | GenericEphemeral => "generic_ephemeral"
    | Persistent => "persistent"
    end |}.
#[global] Instance WorkspaceMode_db_laws : DbVariantLaws WorkspaceMode.
Proof. solve_db_laws. Qed.
End WorkspaceMode.
Abbreviation WorkspaceMode := WorkspaceMode.WorkspaceMode.

Module SandboxRuntimeProfile.
Inductive SandboxRuntimeProfile : Set :=
| Unprivileged
| ApexTrustedSupervisorV1.
#[global] Instance SandboxRuntimeProfile_eq_dec : EqDecision SandboxRuntimeProfile.
Proof. solve_decision. Defined.
#[global] Instance SandboxRuntimeProfile_db : DbVariant SandboxRuntimeProfile := {|
  enum_name := "SandboxRuntimeProfile";
  variants := [Unprivileged; ApexTrustedSupervisorV1];
  as_db_str x := match x with
    | Unprivileged => "unprivileged"
    | ApexTrustedSupervisorV1 => "apex_trusted_supervisor_v1"
    end |}.
#[global] Instance SandboxRuntimeProfile_db_laws : DbVariantLaws SandboxRuntimeProfile.
Proof. solve_db_laws. Qed.
End SandboxRuntimeProfile.
Abbreviation SandboxRuntimeProfile := SandboxRuntimeProfile.SandboxRuntimeProfile.

Module SnapshotStatus.
Inductive SnapshotStatus : Set :=
| Pending
| Ready
| Failed
| Expired.
#[global] Instance SnapshotStatus_eq_dec : EqDecision SnapshotStatus.
Proof. solve_decision. Defined.
#[global] Instance SnapshotStatus_db : DbVariant SnapshotStatus := {|
  enum_name := "SnapshotStatus";
  variants := [Pending; Ready; Failed; Expired];
  as_db_str x := match x with
    | Pending => "pending"
    | Ready => "ready"
    | Failed => "failed"
    | Expired => "expired"
    end |}.
#[global] Instance SnapshotStatus_db_laws : DbVariantLaws SnapshotStatus.
Proof. solve_db_laws. Qed.
End SnapshotStatus.
Abbreviation SnapshotStatus := SnapshotStatus.SnapshotStatus.

Module DesktopSessionStatus.
Inductive DesktopSessionStatus : Set :=
| Pending
| Ready
| Failed
| Closed
| Expired.
#[global] Instance DesktopSessionStatus_eq_dec : EqDecision DesktopSessionStatus.
Proof. solve_decision. Defined.
#[global] Instance DesktopSessionStatus_db : DbVariant DesktopSessionStatus := {|
  enum_name := "DesktopSessionStatus";
  variants := [Pending; Ready; Failed; Closed; Expired];
  as_db_str x := match x with
    | Pending => "pending"
    | Ready => "ready"
    | Failed => "failed"
    | Closed => "closed"
    | Expired => "expired"
    end |}.
#[global] Instance DesktopSessionStatus_db_laws : DbVariantLaws DesktopSessionStatus.
Proof. solve_db_laws. Qed.
End DesktopSessionStatus.
Abbreviation DesktopSessionStatus := DesktopSessionStatus.DesktopSessionStatus.

Module DesktopAccessMode.
Inductive DesktopAccessMode : Set :=
| Browser
| Vnc
| Rdp.
#[global] Instance DesktopAccessMode_eq_dec : EqDecision DesktopAccessMode.
Proof. solve_decision. Defined.
#[global] Instance DesktopAccessMode_db : DbVariant DesktopAccessMode := {|
  enum_name := "DesktopAccessMode";
  variants := [Browser; Vnc; Rdp];
  as_db_str x := match x with
    | Browser => "browser"
    | Vnc => "vnc"
    | Rdp => "rdp"
    end |}.
#[global] Instance DesktopAccessMode_db_laws : DbVariantLaws DesktopAccessMode.
Proof. solve_db_laws. Qed.
End DesktopAccessMode.
Abbreviation DesktopAccessMode := DesktopAccessMode.DesktopAccessMode.

Module DesktopTransportKind.
Inductive DesktopTransportKind : Set :=
| NovncWebsocket.
#[global] Instance DesktopTransportKind_eq_dec : EqDecision DesktopTransportKind.
Proof. solve_decision. Defined.
#[global] Instance DesktopTransportKind_db : DbVariant DesktopTransportKind := {|
  enum_name := "DesktopTransportKind";
  variants := [NovncWebsocket];
  as_db_str x := match x with
    | NovncWebsocket => "novnc_websocket"
    end |}.
#[global] Instance DesktopTransportKind_db_laws : DbVariantLaws DesktopTransportKind.
Proof. solve_db_laws. Qed.
End DesktopTransportKind.
Abbreviation DesktopTransportKind := DesktopTransportKind.DesktopTransportKind.

Module RuntimeResourceKind.
Inductive RuntimeResourceKind : Set :=
| Pod
| SandboxClaim
| Sandbox
| PersistentVolumeClaim
| Service
| Secret
| VolumeSnapshot
| NetworkPolicy.
#[global] Instance RuntimeResourceKind_eq_dec : EqDecision RuntimeResourceKind.
Proof. solve_decision. Defined.
#[global] Instance RuntimeResourceKind_db : DbVariant RuntimeResourceKind := {|
  enum_name := "RuntimeResourceKind";
  variants := [Pod; SandboxClaim; Sandbox; PersistentVolumeClaim; Service; Secret; VolumeSnapshot; NetworkPolicy];
  as_db_str x := match x with
    | Pod => "pod"
    | SandboxClaim => "sandbox_claim"
    | Sandbox => "sandbox"
    | PersistentVolumeClaim => "persistent_volume_claim"
    | Service => "service"
    | Secret => "secret"
    | VolumeSnapshot => "volume_snapshot"
    | NetworkPolicy => "network_policy"
    end |}.
#[global] Instance RuntimeResourceKind_db_laws : DbVariantLaws RuntimeResourceKind.
Proof. solve_db_laws. Qed.
End RuntimeResourceKind.
Abbreviation RuntimeResourceKind := RuntimeResourceKind.RuntimeResourceKind.

Module RuntimeResourcePurpose.
Inductive RuntimeResourcePurpose : Set :=
| Runtime
| Workspace
| Ssh
| Desktop
| Snapshot
| Network.
#[global] Instance RuntimeResourcePurpose_eq_dec : EqDecision RuntimeResourcePurpose.
Proof. solve_decision. Defined.
#[global] Instance RuntimeResourcePurpose_db : DbVariant RuntimeResourcePurpose := {|
  enum_name := "RuntimeResourcePurpose";
  variants := [Runtime; Workspace; Ssh; Desktop; Snapshot; Network];
  as_db_str x := match x with
    | Runtime => "runtime"
    | Workspace => "workspace"
    | Ssh => "ssh"
    | Desktop => "desktop"
    | Snapshot => "snapshot"
    | Network => "network"
    end |}.
#[global] Instance RuntimeResourcePurpose_db_laws : DbVariantLaws RuntimeResourcePurpose.
Proof. solve_db_laws. Qed.
End RuntimeResourcePurpose.
Abbreviation RuntimeResourcePurpose := RuntimeResourcePurpose.RuntimeResourcePurpose.

Module RuntimeResourceStatus.
Inductive RuntimeResourceStatus : Set :=
| Planned
| Applied
| Ready
| Failed
| Deleted
| Destroyed.
#[global] Instance RuntimeResourceStatus_eq_dec : EqDecision RuntimeResourceStatus.
Proof. solve_decision. Defined.
#[global] Instance RuntimeResourceStatus_db : DbVariant RuntimeResourceStatus := {|
  enum_name := "RuntimeResourceStatus";
  variants := [Planned; Applied; Ready; Failed; Deleted; Destroyed];
  as_db_str x := match x with
    | Planned => "planned"
    | Applied => "applied"
    | Ready => "ready"
    | Failed => "failed"
    | Deleted => "deleted"
    | Destroyed => "destroyed"
    end |}.
#[global] Instance RuntimeResourceStatus_db_laws : DbVariantLaws RuntimeResourceStatus.
Proof. solve_db_laws. Qed.
End RuntimeResourceStatus.
Abbreviation RuntimeResourceStatus := RuntimeResourceStatus.RuntimeResourceStatus.

Module SterileCellRuntimeClass.
Inductive SterileCellRuntimeClass : Set :=
| KataMicrovm
| GvisorLowerRisk.
#[global] Instance SterileCellRuntimeClass_eq_dec : EqDecision SterileCellRuntimeClass.
Proof. solve_decision. Defined.
#[global] Instance SterileCellRuntimeClass_db : DbVariant SterileCellRuntimeClass := {|
  enum_name := "SterileCellRuntimeClass";
  variants := [KataMicrovm; GvisorLowerRisk];
  as_db_str x := match x with
    | KataMicrovm => "kata_microvm"
    | GvisorLowerRisk => "gvisor_lower_risk"
    end |}.
#[global] Instance SterileCellRuntimeClass_db_laws : DbVariantLaws SterileCellRuntimeClass.
Proof. solve_db_laws. Qed.
End SterileCellRuntimeClass.
Abbreviation SterileCellRuntimeClass := SterileCellRuntimeClass.SterileCellRuntimeClass.

Module SterileCellState.
Inductive SterileCellState : Set :=
| Ready
| Leased
| Destroyed
| Quarantined.
#[global] Instance SterileCellState_eq_dec : EqDecision SterileCellState.
Proof. solve_decision. Defined.
#[global] Instance SterileCellState_db : DbVariant SterileCellState := {|
  enum_name := "SterileCellState";
  variants := [Ready; Leased; Destroyed; Quarantined];
  as_db_str x := match x with
    | Ready => "ready"
    | Leased => "leased"
    | Destroyed => "destroyed"
    | Quarantined => "quarantined"
    end |}.
#[global] Instance SterileCellState_db_laws : DbVariantLaws SterileCellState.
Proof. solve_db_laws. Qed.
End SterileCellState.
Abbreviation SterileCellState := SterileCellState.SterileCellState.

Module SterileCellDisposition.
Inductive SterileCellDisposition : Set :=
| Destroyed
| Quarantined.
#[global] Instance SterileCellDisposition_eq_dec : EqDecision SterileCellDisposition.
Proof. solve_decision. Defined.
#[global] Instance SterileCellDisposition_db : DbVariant SterileCellDisposition := {|
  enum_name := "SterileCellDisposition";
  variants := [Destroyed; Quarantined];
  as_db_str x := match x with
    | Destroyed => "destroyed"
    | Quarantined => "quarantined"
    end |}.
#[global] Instance SterileCellDisposition_db_laws : DbVariantLaws SterileCellDisposition.
Proof. solve_db_laws. Qed.
End SterileCellDisposition.
Abbreviation SterileCellDisposition := SterileCellDisposition.SterileCellDisposition.

Module SterileCellNoLeaseReasonV1.
Inductive SterileCellNoLeaseReasonV1 : Set :=
| CapacityAbsent
| ReleaseMismatch
| Unhealthy
| AlreadyLeased
| ReadyFloorProtected
| NotClaimable
| ClaimContended.
#[global] Instance SterileCellNoLeaseReasonV1_eq_dec : EqDecision SterileCellNoLeaseReasonV1.
Proof. solve_decision. Defined.
#[global] Instance SterileCellNoLeaseReasonV1_db : DbVariant SterileCellNoLeaseReasonV1 := {|
  enum_name := "SterileCellNoLeaseReasonV1";
  variants := [CapacityAbsent; ReleaseMismatch; Unhealthy; AlreadyLeased; ReadyFloorProtected; NotClaimable; ClaimContended];
  as_db_str x := match x with
    | CapacityAbsent => "capacity_absent"
    | ReleaseMismatch => "release_mismatch"
    | Unhealthy => "unhealthy"
    | AlreadyLeased => "already_leased"
    | ReadyFloorProtected => "ready_floor_protected"
    | NotClaimable => "not_claimable"
    | ClaimContended => "claim_contended"
    end |}.
#[global] Instance SterileCellNoLeaseReasonV1_db_laws : DbVariantLaws SterileCellNoLeaseReasonV1.
Proof. solve_db_laws. Qed.
End SterileCellNoLeaseReasonV1.
Abbreviation SterileCellNoLeaseReasonV1 := SterileCellNoLeaseReasonV1.SterileCellNoLeaseReasonV1.

Module CleanupRunStatus.
Inductive CleanupRunStatus : Set :=
| Running
| Succeeded
| Failed.
#[global] Instance CleanupRunStatus_eq_dec : EqDecision CleanupRunStatus.
Proof. solve_decision. Defined.
#[global] Instance CleanupRunStatus_db : DbVariant CleanupRunStatus := {|
  enum_name := "CleanupRunStatus";
  variants := [Running; Succeeded; Failed];
  as_db_str x := match x with
    | Running => "running"
    | Succeeded => "succeeded"
    | Failed => "failed"
    end |}.
#[global] Instance CleanupRunStatus_db_laws : DbVariantLaws CleanupRunStatus.
Proof. solve_db_laws. Qed.
End CleanupRunStatus.
Abbreviation CleanupRunStatus := CleanupRunStatus.CleanupRunStatus.

Module MemoryLimit.
Inductive MemoryLimit : Set :=
| OneG
| FourG
| SixteenG
| SixtyFourG.
#[global] Instance MemoryLimit_eq_dec : EqDecision MemoryLimit.
Proof. solve_decision. Defined.
#[global] Instance MemoryLimit_db : DbVariant MemoryLimit := {|
  enum_name := "MemoryLimit";
  variants := [OneG; FourG; SixteenG; SixtyFourG];
  as_db_str x := match x with
    | OneG => "1g"
    | FourG => "4g"
    | SixteenG => "16g"
    | SixtyFourG => "64g"
    end |}.
#[global] Instance MemoryLimit_db_laws : DbVariantLaws MemoryLimit.
Proof. solve_db_laws. Qed.
End MemoryLimit.
Abbreviation MemoryLimit := MemoryLimit.MemoryLimit.

Module NetworkEgressMode.
Inductive NetworkEgressMode : Set :=
| DenyAll
| Allowlist
| AllowAll.
#[global] Instance NetworkEgressMode_eq_dec : EqDecision NetworkEgressMode.
Proof. solve_decision. Defined.
#[global] Instance NetworkEgressMode_db : DbVariant NetworkEgressMode := {|
  enum_name := "NetworkEgressMode";
  variants := [DenyAll; Allowlist; AllowAll];
  as_db_str x := match x with
    | DenyAll => "deny_all"
    | Allowlist => "allowlist"
    | AllowAll => "allow_all"
    end |}.
#[global] Instance NetworkEgressMode_db_laws : DbVariantLaws NetworkEgressMode.
Proof. solve_db_laws. Qed.
End NetworkEgressMode.
Abbreviation NetworkEgressMode := NetworkEgressMode.NetworkEgressMode.

Module NetworkAllowRuleKind.
Inductive NetworkAllowRuleKind : Set :=
| Cidr
| Host.
#[global] Instance NetworkAllowRuleKind_eq_dec : EqDecision NetworkAllowRuleKind.
Proof. solve_decision. Defined.
#[global] Instance NetworkAllowRuleKind_db : DbVariant NetworkAllowRuleKind := {|
  enum_name := "NetworkAllowRuleKind";
  variants := [Cidr; Host];
  as_db_str x := match x with
    | Cidr => "cidr"
    | Host => "host"
    end |}.
#[global] Instance NetworkAllowRuleKind_db_laws : DbVariantLaws NetworkAllowRuleKind.
Proof. solve_db_laws. Qed.
End NetworkAllowRuleKind.
Abbreviation NetworkAllowRuleKind := NetworkAllowRuleKind.NetworkAllowRuleKind.

Module ExecutionClass.
Inductive ExecutionClass : Set :=
| DevelopmentContainer
| SandboxedContainer
| VirtualMachine.
#[global] Instance ExecutionClass_eq_dec : EqDecision ExecutionClass.
Proof. solve_decision. Defined.
#[global] Instance ExecutionClass_db : DbVariant ExecutionClass := {|
  enum_name := "ExecutionClass";
  variants := [DevelopmentContainer; SandboxedContainer; VirtualMachine];
  as_db_str x := match x with
    | DevelopmentContainer => "development_container"
    | SandboxedContainer => "sandboxed_container"
    | VirtualMachine => "virtual_machine"
    end |}.
#[global] Instance ExecutionClass_db_laws : DbVariantLaws ExecutionClass.
Proof. solve_db_laws. Qed.
End ExecutionClass.
Abbreviation ExecutionClass := ExecutionClass.ExecutionClass.

Module ProviderPreference.
Inductive ProviderPreference : Set :=
| Any
| Kubernetes
| AgentSandbox
| Cloudflare.
#[global] Instance ProviderPreference_eq_dec : EqDecision ProviderPreference.
Proof. solve_decision. Defined.
#[global] Instance ProviderPreference_db : DbVariant ProviderPreference := {|
  enum_name := "ProviderPreference";
  variants := [Any; Kubernetes; AgentSandbox; Cloudflare];
  as_db_str x := match x with
    | Any => "any"
    | Kubernetes => "kubernetes"
    | AgentSandbox => "agent_sandbox"
    | Cloudflare => "cloudflare"
    end |}.
#[global] Instance ProviderPreference_db_laws : DbVariantLaws ProviderPreference.
Proof. solve_db_laws. Qed.
End ProviderPreference.
Abbreviation ProviderPreference := ProviderPreference.ProviderPreference.

Module HomeState.
Inductive HomeState : Set :=
| Ready
| Deleting
| DeleteFailed.
#[global] Instance HomeState_eq_dec : EqDecision HomeState.
Proof. solve_decision. Defined.
#[global] Instance HomeState_db : DbVariant HomeState := {|
  enum_name := "HomeState";
  variants := [Ready; Deleting; DeleteFailed];
  as_db_str x := match x with
    | Ready => "ready"
    | Deleting => "deleting"
    | DeleteFailed => "delete_failed"
    end |}.
#[global] Instance HomeState_db_laws : DbVariantLaws HomeState.
Proof. solve_db_laws. Qed.
End HomeState.
Abbreviation HomeState := HomeState.HomeState.

Module ActivityClass.
Inductive ActivityClass : Set :=
| ProcessSpawn
| NetworkConnect
| FileWrite.
#[global] Instance ActivityClass_eq_dec : EqDecision ActivityClass.
Proof. solve_decision. Defined.
#[global] Instance ActivityClass_db : DbVariant ActivityClass := {|
  enum_name := "ActivityClass";
  variants := [ProcessSpawn; NetworkConnect; FileWrite];
  as_db_str x := match x with
    | ProcessSpawn => "process_spawn"
    | NetworkConnect => "network_connect"
    | FileWrite => "file_write"
    end |}.
#[global] Instance ActivityClass_db_laws : DbVariantLaws ActivityClass.
Proof. solve_db_laws. Qed.
End ActivityClass.
Abbreviation ActivityClass := ActivityClass.ActivityClass.

Module DivergenceKind.
Inductive DivergenceKind : Set :=
| UnaccountedActivity
| ReceiptScopeMismatch.
#[global] Instance DivergenceKind_eq_dec : EqDecision DivergenceKind.
Proof. solve_decision. Defined.
#[global] Instance DivergenceKind_db : DbVariant DivergenceKind := {|
  enum_name := "DivergenceKind";
  variants := [UnaccountedActivity; ReceiptScopeMismatch];
  as_db_str x := match x with
    | UnaccountedActivity => "unaccounted_activity"
    | ReceiptScopeMismatch => "receipt_scope_mismatch"
    end |}.
#[global] Instance DivergenceKind_db_laws : DbVariantLaws DivergenceKind.
Proof. solve_db_laws. Qed.
End DivergenceKind.
Abbreviation DivergenceKind := DivergenceKind.DivergenceKind.

Module DivergenceFindingStatus.
Inductive DivergenceFindingStatus : Set :=
| Open
| Resolved.
#[global] Instance DivergenceFindingStatus_eq_dec : EqDecision DivergenceFindingStatus.
Proof. solve_decision. Defined.
#[global] Instance DivergenceFindingStatus_db : DbVariant DivergenceFindingStatus := {|
  enum_name := "DivergenceFindingStatus";
  variants := [Open; Resolved];
  as_db_str x := match x with
    | Open => "open"
    | Resolved => "resolved"
    end |}.
#[global] Instance DivergenceFindingStatus_db_laws : DbVariantLaws DivergenceFindingStatus.
Proof. solve_db_laws. Qed.
End DivergenceFindingStatus.
Abbreviation DivergenceFindingStatus := DivergenceFindingStatus.DivergenceFindingStatus.

Module CommandStatus.
Inductive CommandStatus : Set :=
| Queued
| Running
| Finished
| Failed.
#[global] Instance CommandStatus_eq_dec : EqDecision CommandStatus.
Proof. solve_decision. Defined.
#[global] Instance CommandStatus_db : DbVariant CommandStatus := {|
  enum_name := "CommandStatus";
  variants := [Queued; Running; Finished; Failed];
  as_db_str x := match x with
    | Queued => "queued"
    | Running => "running"
    | Finished => "finished"
    | Failed => "failed"
    end |}.
#[global] Instance CommandStatus_db_laws : DbVariantLaws CommandStatus.
Proof. solve_db_laws. Qed.
End CommandStatus.
Abbreviation CommandStatus := CommandStatus.CommandStatus.

Module CommandOutputStream.
Inductive CommandOutputStream : Set :=
| Stdout
| Stderr.
#[global] Instance CommandOutputStream_eq_dec : EqDecision CommandOutputStream.
Proof. solve_decision. Defined.
#[global] Instance CommandOutputStream_db : DbVariant CommandOutputStream := {|
  enum_name := "CommandOutputStream";
  variants := [Stdout; Stderr];
  as_db_str x := match x with
    | Stdout => "stdout"
    | Stderr => "stderr"
    end |}.
#[global] Instance CommandOutputStream_db_laws : DbVariantLaws CommandOutputStream.
Proof. solve_db_laws. Qed.
End CommandOutputStream.
Abbreviation CommandOutputStream := CommandOutputStream.CommandOutputStream.

Module SandboxEventKind.
Inductive SandboxEventKind : Set :=
| LifecycleChanged
| CommandQueued
| CommandStarted
| CommandOutput
| CommandFinished
| PromptQueued
| PromptStarted
| PromptFinished
| DesktopRequested
| DesktopReady
| DesktopFailed
| DesktopClosed
| DesktopExpired
| GuestHealthFailed
| FileUploaded
| FileMaterialized
| DivergenceDetected.
#[global] Instance SandboxEventKind_eq_dec : EqDecision SandboxEventKind.
Proof. solve_decision. Defined.
#[global] Instance SandboxEventKind_db : DbVariant SandboxEventKind := {|
  enum_name := "SandboxEventKind";
  variants := [LifecycleChanged; CommandQueued; CommandStarted; CommandOutput; CommandFinished; PromptQueued; PromptStarted; PromptFinished; DesktopRequested; DesktopReady; DesktopFailed; DesktopClosed; DesktopExpired; GuestHealthFailed; FileUploaded; FileMaterialized; DivergenceDetected];
  as_db_str x := match x with
    | LifecycleChanged => "lifecycle_changed"
    | CommandQueued => "command_queued"
    | CommandStarted => "command_started"
    | CommandOutput => "command_output"
    | CommandFinished => "command_finished"
    | PromptQueued => "prompt_queued"
    | PromptStarted => "prompt_started"
    | PromptFinished => "prompt_finished"
    | DesktopRequested => "desktop_requested"
    | DesktopReady => "desktop_ready"
    | DesktopFailed => "desktop_failed"
    | DesktopClosed => "desktop_closed"
    | DesktopExpired => "desktop_expired"
    | GuestHealthFailed => "guest_health_failed"
    | FileUploaded => "file_uploaded"
    | FileMaterialized => "file_materialized"
    | DivergenceDetected => "divergence_detected"
    end |}.
#[global] Instance SandboxEventKind_db_laws : DbVariantLaws SandboxEventKind.
Proof. solve_db_laws. Qed.
End SandboxEventKind.
Abbreviation SandboxEventKind := SandboxEventKind.SandboxEventKind.

Module WorkerStatus.
Inductive WorkerStatus : Set :=
| Registered
| Online
| Draining
| Offline.
#[global] Instance WorkerStatus_eq_dec : EqDecision WorkerStatus.
Proof. solve_decision. Defined.
#[global] Instance WorkerStatus_db : DbVariant WorkerStatus := {|
  enum_name := "WorkerStatus";
  variants := [Registered; Online; Draining; Offline];
  as_db_str x := match x with
    | Registered => "registered"
    | Online => "online"
    | Draining => "draining"
    | Offline => "offline"
    end |}.
#[global] Instance WorkerStatus_db_laws : DbVariantLaws WorkerStatus.
Proof. solve_db_laws. Qed.
End WorkerStatus.
Abbreviation WorkerStatus := WorkerStatus.WorkerStatus.

Module WorkerCapability.
Inductive WorkerCapability : Set :=
| ProvisionSandbox
| SandboxedContainer
| VirtualMachine
| RunCommand
| UidIsolatedResidentProcess
| MaterializeFile
| ApexTaskInstructions
| AgentPrompt
| Snapshot
| DesktopStream
| K8sPod
| GvisorSandbox
| FqdnEgress
| ApexTrustedSupervisorV1.
#[global] Instance WorkerCapability_eq_dec : EqDecision WorkerCapability.
Proof. solve_decision. Defined.
#[global] Instance WorkerCapability_db : DbVariant WorkerCapability := {|
  enum_name := "WorkerCapability";
  variants := [ProvisionSandbox; SandboxedContainer; VirtualMachine; RunCommand; UidIsolatedResidentProcess; MaterializeFile; ApexTaskInstructions; AgentPrompt; Snapshot; DesktopStream; K8sPod; GvisorSandbox; FqdnEgress; ApexTrustedSupervisorV1];
  as_db_str x := match x with
    | ProvisionSandbox => "provision_sandbox"
    | SandboxedContainer => "sandboxed_container"
    | VirtualMachine => "virtual_machine"
    | RunCommand => "run_command"
    | UidIsolatedResidentProcess => "uid_isolated_resident_process"
    | MaterializeFile => "materialize_file"
    | ApexTaskInstructions => "apex_task_instructions"
    | AgentPrompt => "agent_prompt"
    | Snapshot => "snapshot"
    | DesktopStream => "desktop_stream"
    | K8sPod => "k8s_pod"
    | GvisorSandbox => "gvisor_sandbox"
    | FqdnEgress => "fqdn_egress"
    | ApexTrustedSupervisorV1 => "apex_trusted_supervisor_v1"
    end |}.
#[global] Instance WorkerCapability_db_laws : DbVariantLaws WorkerCapability.
Proof. solve_db_laws. Qed.
End WorkerCapability.
Abbreviation WorkerCapability := WorkerCapability.WorkerCapability.

Module ResidentProcessRestartPolicy.
Inductive ResidentProcessRestartPolicy : Set :=
| Never
| OnFailure.
#[global] Instance ResidentProcessRestartPolicy_eq_dec : EqDecision ResidentProcessRestartPolicy.
Proof. solve_decision. Defined.
#[global] Instance ResidentProcessRestartPolicy_db : DbVariant ResidentProcessRestartPolicy := {|
  enum_name := "ResidentProcessRestartPolicy";
  variants := [Never; OnFailure];
  as_db_str x := match x with
    | Never => "never"
    | OnFailure => "on_failure"
    end |}.
#[global] Instance ResidentProcessRestartPolicy_db_laws : DbVariantLaws ResidentProcessRestartPolicy.
Proof. solve_db_laws. Qed.
End ResidentProcessRestartPolicy.
Abbreviation ResidentProcessRestartPolicy := ResidentProcessRestartPolicy.ResidentProcessRestartPolicy.

Module ResidentProcessDesiredState.
Inductive ResidentProcessDesiredState : Set :=
| Running
| Stopped.
#[global] Instance ResidentProcessDesiredState_eq_dec : EqDecision ResidentProcessDesiredState.
Proof. solve_decision. Defined.
#[global] Instance ResidentProcessDesiredState_db : DbVariant ResidentProcessDesiredState := {|
  enum_name := "ResidentProcessDesiredState";
  variants := [Running; Stopped];
  as_db_str x := match x with
    | Running => "running"
    | Stopped => "stopped"
    end |}.
#[global] Instance ResidentProcessDesiredState_db_laws : DbVariantLaws ResidentProcessDesiredState.
Proof. solve_db_laws. Qed.
End ResidentProcessDesiredState.
Abbreviation ResidentProcessDesiredState := ResidentProcessDesiredState.ResidentProcessDesiredState.

Module ResidentProcessObservedState.
Inductive ResidentProcessObservedState : Set :=
| Pending
| Starting
| Running
| Failed
| Stopped
| Lost.
#[global] Instance ResidentProcessObservedState_eq_dec : EqDecision ResidentProcessObservedState.
Proof. solve_decision. Defined.
#[global] Instance ResidentProcessObservedState_db : DbVariant ResidentProcessObservedState := {|
  enum_name := "ResidentProcessObservedState";
  variants := [Pending; Starting; Running; Failed; Stopped; Lost];
  as_db_str x := match x with
    | Pending => "pending"
    | Starting => "starting"
    | Running => "running"
    | Failed => "failed"
    | Stopped => "stopped"
    | Lost => "lost"
    end |}.
#[global] Instance ResidentProcessObservedState_db_laws : DbVariantLaws ResidentProcessObservedState.
Proof. solve_db_laws. Qed.
End ResidentProcessObservedState.
Abbreviation ResidentProcessObservedState := ResidentProcessObservedState.ResidentProcessObservedState.

Module JobKind.
Inductive JobKind : Set :=
| ProvisionSandbox
| StopSandbox
| ResumeSandbox
| RunCommand
| RunResidentProcess
| MaterializeFile
| ApexTaskInstructions
| RunPrompt
| CreateSnapshot
| ForkSandbox
| DeleteHome.
#[global] Instance JobKind_eq_dec : EqDecision JobKind.
Proof. solve_decision. Defined.
#[global] Instance JobKind_db : DbVariant JobKind := {|
  enum_name := "JobKind";
  variants := [ProvisionSandbox; StopSandbox; ResumeSandbox; RunCommand; RunResidentProcess; MaterializeFile; ApexTaskInstructions; RunPrompt; CreateSnapshot; ForkSandbox; DeleteHome];
  as_db_str x := match x with
    | ProvisionSandbox => "provision_sandbox"
    | StopSandbox => "stop_sandbox"
    | ResumeSandbox => "resume_sandbox"
    | RunCommand => "run_command"
    | RunResidentProcess => "run_resident_process"
    | MaterializeFile => "materialize_file"
    | ApexTaskInstructions => "apex_task_instructions"
    | RunPrompt => "run_prompt"
    | CreateSnapshot => "create_snapshot"
    | ForkSandbox => "fork_sandbox"
    | DeleteHome => "delete_home"
    end |}.
#[global] Instance JobKind_db_laws : DbVariantLaws JobKind.
Proof. solve_db_laws. Qed.
End JobKind.
Abbreviation JobKind := JobKind.JobKind.

Module JobStatus.
Inductive JobStatus : Set :=
| Queued
| Leased
| Succeeded
| Failed
| Dead
| Cancelled.
#[global] Instance JobStatus_eq_dec : EqDecision JobStatus.
Proof. solve_decision. Defined.
#[global] Instance JobStatus_db : DbVariant JobStatus := {|
  enum_name := "JobStatus";
  variants := [Queued; Leased; Succeeded; Failed; Dead; Cancelled];
  as_db_str x := match x with
    | Queued => "queued"
    | Leased => "leased"
    | Succeeded => "succeeded"
    | Failed => "failed"
    | Dead => "dead"
    | Cancelled => "cancelled"
    end |}.
#[global] Instance JobStatus_db_laws : DbVariantLaws JobStatus.
Proof. solve_db_laws. Qed.
End JobStatus.
Abbreviation JobStatus := JobStatus.JobStatus.

Module LeaseStatus.
Inductive LeaseStatus : Set :=
| Active
| Completed
| Failed
| Expired.
#[global] Instance LeaseStatus_eq_dec : EqDecision LeaseStatus.
Proof. solve_decision. Defined.
#[global] Instance LeaseStatus_db : DbVariant LeaseStatus := {|
  enum_name := "LeaseStatus";
  variants := [Active; Completed; Failed; Expired];
  as_db_str x := match x with
    | Active => "active"
    | Completed => "completed"
    | Failed => "failed"
    | Expired => "expired"
    end |}.
#[global] Instance LeaseStatus_db_laws : DbVariantLaws LeaseStatus.
Proof. solve_db_laws. Qed.
End LeaseStatus.
Abbreviation LeaseStatus := LeaseStatus.LeaseStatus.

Module ProvisioningStage.
Inductive ProvisioningStage : Set :=
| WorkspacePlanned
| WorkspaceReady
| NetworkPolicyReady
| CredentialsReady
| PodReady
| ServiceReady
| SandboxReady.
#[global] Instance ProvisioningStage_eq_dec : EqDecision ProvisioningStage.
Proof. solve_decision. Defined.
#[global] Instance ProvisioningStage_db : DbVariant ProvisioningStage := {|
  enum_name := "ProvisioningStage";
  variants := [WorkspacePlanned; WorkspaceReady; NetworkPolicyReady; CredentialsReady; PodReady; ServiceReady; SandboxReady];
  as_db_str x := match x with
    | WorkspacePlanned => "workspace_planned"
    | WorkspaceReady => "workspace_ready"
    | NetworkPolicyReady => "network_policy_ready"
    | CredentialsReady => "credentials_ready"
    | PodReady => "pod_ready"
    | ServiceReady => "service_ready"
    | SandboxReady => "sandbox_ready"
    end |}.
#[global] Instance ProvisioningStage_db_laws : DbVariantLaws ProvisioningStage.
Proof. solve_db_laws. Qed.
End ProvisioningStage.
Abbreviation ProvisioningStage := ProvisioningStage.ProvisioningStage.

Module ProvisioningErrorClass.
Inductive ProvisioningErrorClass : Set :=
| RetryableProvider
| RetryableCapacity
| TerminalContract
| TerminalSecurity.
#[global] Instance ProvisioningErrorClass_eq_dec : EqDecision ProvisioningErrorClass.
Proof. solve_decision. Defined.
#[global] Instance ProvisioningErrorClass_db : DbVariant ProvisioningErrorClass := {|
  enum_name := "ProvisioningErrorClass";
  variants := [RetryableProvider; RetryableCapacity; TerminalContract; TerminalSecurity];
  as_db_str x := match x with
    | RetryableProvider => "retryable_provider"
    | RetryableCapacity => "retryable_capacity"
    | TerminalContract => "terminal_contract"
    | TerminalSecurity => "terminal_security"
    end |}.
#[global] Instance ProvisioningErrorClass_db_laws : DbVariantLaws ProvisioningErrorClass.
Proof. solve_db_laws. Qed.
End ProvisioningErrorClass.
Abbreviation ProvisioningErrorClass := ProvisioningErrorClass.ProvisioningErrorClass.

Module ProviderHealthStatus.
Inductive ProviderHealthStatus : Set :=
| Healthy
| Degraded
| Unhealthy.
#[global] Instance ProviderHealthStatus_eq_dec : EqDecision ProviderHealthStatus.
Proof. solve_decision. Defined.
#[global] Instance ProviderHealthStatus_db : DbVariant ProviderHealthStatus := {|
  enum_name := "ProviderHealthStatus";
  variants := [Healthy; Degraded; Unhealthy];
  as_db_str x := match x with
    | Healthy => "healthy"
    | Degraded => "degraded"
    | Unhealthy => "unhealthy"
    end |}.
#[global] Instance ProviderHealthStatus_db_laws : DbVariantLaws ProviderHealthStatus.
Proof. solve_db_laws. Qed.
End ProviderHealthStatus.
Abbreviation ProviderHealthStatus := ProviderHealthStatus.ProviderHealthStatus.

Module GuestStatus.
Inductive GuestStatus : Set :=
| Pending
| Ready
| Unreachable
| Unhealthy
| Terminated.
#[global] Instance GuestStatus_eq_dec : EqDecision GuestStatus.
Proof. solve_decision. Defined.
#[global] Instance GuestStatus_db : DbVariant GuestStatus := {|
  enum_name := "GuestStatus";
  variants := [Pending; Ready; Unreachable; Unhealthy; Terminated];
  as_db_str x := match x with
    | Pending => "pending"
    | Ready => "ready"
    | Unreachable => "unreachable"
    | Unhealthy => "unhealthy"
    | Terminated => "terminated"
    end |}.
#[global] Instance GuestStatus_db_laws : DbVariantLaws GuestStatus.
Proof. solve_db_laws. Qed.
End GuestStatus.
Abbreviation GuestStatus := GuestStatus.GuestStatus.

Module SshKeyStatus.
Inductive SshKeyStatus : Set :=
| Requested
| Applied
| Failed
| Revoked.
#[global] Instance SshKeyStatus_eq_dec : EqDecision SshKeyStatus.
Proof. solve_decision. Defined.
#[global] Instance SshKeyStatus_db : DbVariant SshKeyStatus := {|
  enum_name := "SshKeyStatus";
  variants := [Requested; Applied; Failed; Revoked];
  as_db_str x := match x with
    | Requested => "requested"
    | Applied => "applied"
    | Failed => "failed"
    | Revoked => "revoked"
    end |}.
#[global] Instance SshKeyStatus_db_laws : DbVariantLaws SshKeyStatus.
Proof. solve_db_laws. Qed.
End SshKeyStatus.
Abbreviation SshKeyStatus := SshKeyStatus.SshKeyStatus.

Module SecretBackend.
Inductive SecretBackend : Set :=
| CsiSecretProviderClass.
#[global] Instance SecretBackend_eq_dec : EqDecision SecretBackend.
Proof. solve_decision. Defined.
#[global] Instance SecretBackend_db : DbVariant SecretBackend := {|
  enum_name := "SecretBackend";
  variants := [CsiSecretProviderClass];
  as_db_str x := match x with
    | CsiSecretProviderClass => "csi_secret_provider_class"
    end |}.
#[global] Instance SecretBackend_db_laws : DbVariantLaws SecretBackend.
Proof. solve_db_laws. Qed.
End SecretBackend.
Abbreviation SecretBackend := SecretBackend.SecretBackend.

Module SecretDelivery.
Inductive SecretDelivery : Set :=
| File.
#[global] Instance SecretDelivery_eq_dec : EqDecision SecretDelivery.
Proof. solve_decision. Defined.
#[global] Instance SecretDelivery_db : DbVariant SecretDelivery := {|
  enum_name := "SecretDelivery";
  variants := [File];
  as_db_str x := match x with
    | File => "file"
    end |}.
#[global] Instance SecretDelivery_db_laws : DbVariantLaws SecretDelivery.
Proof. solve_db_laws. Qed.
End SecretDelivery.
Abbreviation SecretDelivery := SecretDelivery.SecretDelivery.

Module SecretRefState.
Inductive SecretRefState : Set :=
| Active
| Revoked.
#[global] Instance SecretRefState_eq_dec : EqDecision SecretRefState.
Proof. solve_decision. Defined.
#[global] Instance SecretRefState_db : DbVariant SecretRefState := {|
  enum_name := "SecretRefState";
  variants := [Active; Revoked];
  as_db_str x := match x with
    | Active => "active"
    | Revoked => "revoked"
    end |}.
#[global] Instance SecretRefState_db_laws : DbVariantLaws SecretRefState.
Proof. solve_db_laws. Qed.
End SecretRefState.
Abbreviation SecretRefState := SecretRefState.SecretRefState.
