(* ===== verification/AgentStream.v ===== *)
(** * The guest agent's output streams

    [sandboxwich-agent/src/main.rs]: a command's output is read in chunks,
    decoded incrementally for the control plane ([Utf8StreamDecoder]) and
    captured up to a limit for the final result ([stream_reader]).  The
    decoder is compared with [String::from_utf8_lossy] of the whole stream. *)

From S2P Require Import Prelude Text CoreTypes.
From stdpp Require Import pretty.

Open Scope nat_scope.

(** ** The standard library's validation

    [run_utf8_validation] looks at one character: it is valid, or the bytes
    seen cannot start one ([error_len]), or the input ends inside one. *)
Inductive Utf8Step : Type :=
| Decoded (c : N) (n : nat)
| Malformed (n : nat)
| Unfinished.

Definition second_ok (b0 b1 : N) : bool :=
  if (b0 =? 224)%N then ((160 <=? b1) && (b1 <=? 191))%N
  else if (b0 =? 237)%N then ((128 <=? b1) && (b1 <=? 159))%N
  else if (b0 =? 240)%N then ((144 <=? b1) && (b1 <=? 191))%N
  else if (b0 =? 244)%N then ((128 <=? b1) && (b1 <=? 143))%N
  else is_cont b1.

Definition utf8_step (b0 : N) (r : Bytes) : Utf8Step :=
  if (b0 <? 128)%N then Decoded b0 1
  else if ((194 <=? b0) && (b0 <=? 223))%N then
    match r with
    | [] => Unfinished
    | b1 :: _ => if is_cont b1 then Decoded ((b0 - 192) * 64 + (b1 - 128))%N 2 else Malformed 1
    end
  else if ((224 <=? b0) && (b0 <=? 239))%N then
    match r with
    | [] => Unfinished
    | b1 :: r1 =>
        if negb (second_ok b0 b1) then Malformed 1 else
        match r1 with
        | [] => Unfinished
        | b2 :: _ =>
            if is_cont b2 then Decoded ((b0 - 224) * 4096 + (b1 - 128) * 64 + (b2 - 128))%N 3
            else Malformed 2
        end
    end
  else if ((240 <=? b0) && (b0 <=? 244))%N then
    match r with
    | [] => Unfinished
    | b1 :: r1 =>
        if negb (second_ok b0 b1) then Malformed 1 else
        match r1 with
        | [] => Unfinished
        | b2 :: r2 =>
            if negb (is_cont b2) then Malformed 2 else
            match r2 with
            | [] => Unfinished
            | b3 :: _ =>
                if is_cont b3
                then Decoded ((b0 - 240) * 262144 + (b1 - 128) * 4096 + (b2 - 128) * 64 + (b3 - 128))%N 4
                else Malformed 3
            end
        end
    end
  else Malformed 1.

(** How [str::from_utf8] ends: the whole input is valid, or an error with its
    [error_len]. *)
Inductive Utf8End : Type :=
| AllValid
| ErrorLen (n : option nat).

(** The text before the end, [valid_up_to], and the end.  Each turn consumes a
    byte, so the length of the input is enough fuel. *)
Fixpoint validate_from (fuel : nat) (bs : Bytes) : Text * nat * Utf8End :=
  match fuel, bs with
  | _, [] => ([], 0, AllValid)
  | 0, _ :: _ => ([], 0, ErrorLen None)
  | S fuel', b0 :: r =>
      match utf8_step b0 r with
      | Decoded c n =>
          let '(t, k, e) := validate_from fuel' (drop n bs) in (c :: t, n + k, e)
      | Malformed n => ([], 0, ErrorLen (Some n))
      | Unfinished => ([], 0, ErrorLen None)
      end
  end.

Definition str_from_utf8 (bs : Bytes) : Text * nat * Utf8End := validate_from (length bs) bs.

Definition REPLACEMENT : N := 65533.

(** [String::from_utf8_lossy]: every malformed sequence, and an unfinished one
    at the end, becomes one replacement character. *)
Fixpoint lossy_from (fuel : nat) (bs : Bytes) : Text :=
  match fuel, bs with
  | _, [] => []
  | 0, _ :: _ => []
  | S fuel', b0 :: r =>
      match utf8_step b0 r with
      | Decoded c n => c :: lossy_from fuel' (drop n bs)
      | Malformed n => REPLACEMENT :: lossy_from fuel' (drop n bs)
      | Unfinished => [REPLACEMENT]
      end
  end.

Definition from_utf8_lossy (bs : Bytes) : Text := lossy_from (length bs) bs.

(** ** [Utf8StreamDecoder] *)

Record Utf8StreamDecoder : Type := mkDecoder { pending : Bytes }.

Definition decoder_default : Utf8StreamDecoder := mkDecoder [].

(** The loop of [push]; a turn that continues drains at least one byte. *)
Fixpoint push_loop (fuel : nat) (bs : Bytes) : Text * Bytes :=
  match fuel with
  | 0 => ([], bs)
  | S fuel' =>
      let '(text, valid_up_to, e) := str_from_utf8 bs in
      match e with
      | AllValid => (text, [])
      | ErrorLen (Some n) =>
          let '(out, rest) := push_loop fuel' (drop (valid_up_to + n) bs) in
          (text ++ from_utf8_lossy (take n (drop valid_up_to bs)) ++ out, rest)
      | ErrorLen None => (text, drop valid_up_to bs)
      end
  end.

Definition push (d : Utf8StreamDecoder) (chunk : Bytes) : Text * Utf8StreamDecoder :=
  let bs := pending d ++ chunk in
  let '(out, rest) := push_loop (S (length bs)) bs in (out, mkDecoder rest).

Definition finish (d : Utf8StreamDecoder) : Text * Utf8StreamDecoder :=
  (from_utf8_lossy (pending d), mkDecoder []).

(** ** [stream_reader] *)

(** The name of the stream as [{:?}] prints it. *)
Definition stream_debug (stream : CommandOutputStream.CommandOutputStream) : string :=
  match stream with
  | CommandOutputStream.Stdout => "Stdout"
  | CommandOutputStream.Stderr => "Stderr"
  end.

Definition NEWLINE : N := 10.

Definition truncation_note (stream : CommandOutputStream.CommandOutputStream) (max : N) : Bytes :=
  NEWLINE :: str_bytes ("[sandboxwich-agent: " ++ stream_debug stream ++ " truncated after "
                        ++ pretty max ++ " bytes]") ++ [NEWLINE].

Record ReaderState : Type := mkReader {
  rd_captured : Bytes;
  rd_truncated : bool;
  rd_decoder : Utf8StreamDecoder;
  (** The chunks handed to [append_output_chunk] that are not empty: those
      that are posted. *)
  rd_posted : list Text
}.

Definition post_chunk (chunk : Text) (posted : list Text) : list Text :=
  if is_nil chunk then posted else posted ++ [chunk].

(** The captured copy after one chunk. *)
Definition capture (stream : CommandOutputStream.CommandOutputStream) (max : N) (chunk : Bytes)
    (captured : Bytes) (truncated : bool) : Bytes * bool :=
  if truncated then (captured, true)
  else
    let remaining := (max - N.of_nat (length captured))%N in
    let taken := N.to_nat (N.min remaining (N.of_nat (length chunk))) in
    if (taken <? length chunk)%nat
    then (captured ++ take taken chunk ++ truncation_note stream max, true)
    else (captured ++ take taken chunk, false).

(** One turn of the loop; [streaming] says whether there is a lease to post
    to.  A failed post is only reported on standard error. *)
Definition read_chunk (stream : CommandOutputStream.CommandOutputStream) (max : N) (streaming : bool)
    (s : ReaderState) (chunk : Bytes) : ReaderState :=
  let '(captured, truncated) := capture stream max chunk (rd_captured s) (rd_truncated s) in
  if streaming
  then let '(decoded, d) := push (rd_decoder s) chunk in
       mkReader captured truncated d (post_chunk decoded (rd_posted s))
  else mkReader captured truncated (rd_decoder s) (rd_posted s).

(** The whole task, on the chunks that the reader returned before the end. *)
Definition stream_reader (stream : CommandOutputStream.CommandOutputStream) (max : N) (streaming : bool)
    (chunks : list Bytes) : Bytes * list Text :=
  let s := fold_left (read_chunk stream max streaming) chunks (mkReader [] false decoder_default []) in
  (rd_captured s,
   if streaming then post_chunk (finish (rd_decoder s)).1 (rd_posted s) else rd_posted s).

(** ** The decoder agrees with the lossy decoding of the whole stream *)

Lemma utf8_step_app b0 r rest :
  utf8_step b0 r <> Unfinished -> utf8_step b0 (r ++ rest) = utf8_step b0 r.
Proof.
  unfold utf8_step. intros Hu. destruct r as [|b1 [|b2 [|b3 r]]]; simpl; try done.
  all: repeat case_match; done.
Qed.

(** A step consumes at least one byte and no more than there are. *)
Definition step_len (s : Utf8Step) : nat :=
  match s with Decoded _ n => n | Malformed n => n | Unfinished => 0 end.

Lemma step_len_bounds b0 r : step_len (utf8_step b0 r) <= S (length r).
Proof. unfold utf8_step. repeat case_match; simpl; lia. Qed.

Lemma step_len_pos b0 r : utf8_step b0 r <> Unfinished -> 1 <= step_len (utf8_step b0 r).
Proof. unfold utf8_step. repeat case_match; simpl; intros; try lia; done. Qed.

Lemma unfinished_short b0 r : utf8_step b0 r = Unfinished -> length r <= 2.
Proof.
  unfold utf8_step. destruct r as [|b1 [|b2 [|b3 r]]]; simpl; try lia.
  intros H. repeat case_match; done.
Qed.

Lemma lossy_fuel f bs : length bs <= f -> lossy_from f bs = from_utf8_lossy bs.
Proof.
  unfold from_utf8_lossy. revert bs. assert (H : forall n bs f, length bs <= n -> length bs <= f ->
    lossy_from f bs = lossy_from (length bs) bs).
  { induction n as [|n IH]; intros bs f' Hn Hf; (destruct bs as [|b0 r]; [by destruct f'|]); simpl in Hn, Hf; [lia|].
    destruct f' as [|f']; [lia|]. simpl. pose proof (step_len_pos b0 r) as Hp.
    pose proof (step_len_bounds b0 r) as Hb.
    assert (Hd : forall k, 1 <= k -> lossy_from f' (drop k (b0 :: r)) = lossy_from (length r) (drop k (b0 :: r))).
    { intros k Hk. rewrite (IH _ f'), (IH _ (length r)); rewrite ?length_drop; simpl; try done; lia. }
    destruct (utf8_step b0 r) as [c k|k|]; simpl in Hp, Hb; try done; f_equal; apply Hd; apply Hp; done. }
  intros bs Hf. by apply (H f).
Qed.

(** The equation of [from_utf8_lossy] at one character. *)
Lemma lossy_cons b0 r :
  from_utf8_lossy (b0 :: r) =
  match utf8_step b0 r with
  | Decoded c n => c :: from_utf8_lossy (drop n (b0 :: r))
  | Malformed n => REPLACEMENT :: from_utf8_lossy (drop n (b0 :: r))
  | Unfinished => [REPLACEMENT]
  end.
Proof.
  unfold from_utf8_lossy at 1. simpl length. cbn [lossy_from].
  pose proof (step_len_pos b0 r) as Hp.
  destruct (utf8_step b0 r) as [c k|k|]; simpl in Hp; [| |done].
  all: f_equal; apply lossy_fuel; rewrite length_drop; simpl; specialize (Hp ltac:(done)); lia.
Qed.

(** Validation stops where the lossy decoding can be resumed, whatever bytes
    follow. *)
Lemma validate_resumes f bs rest t k e :
  length bs <= f -> validate_from f bs = (t, k, e) ->
  k <= length bs /\
  from_utf8_lossy (bs ++ rest) = t ++ from_utf8_lossy (drop k bs ++ rest) /\
  match e with
  | AllValid => k = length bs
  | ErrorLen o => exists b0 r, drop k bs = b0 :: r /\
      match o with Some n => utf8_step b0 r = Malformed n | None => utf8_step b0 r = Unfinished end
  end.
Proof.
  revert bs t k e. induction f as [|f IH]; intros bs t k e Hf Hv.
  { destruct bs; [|simpl in Hf; lia]. simpl in Hv. by simplify_eq. }
  destruct bs as [|b0 r]; [simpl in Hv; by simplify_eq|].
  cbn [validate_from] in Hv. pose proof (step_len_bounds b0 r) as Hb. pose proof (step_len_pos b0 r) as Hp.
  destruct (utf8_step b0 r) as [c n|n|] eqn:Es; simpl in Hb, Hp; simplify_eq.
  - specialize (Hp ltac:(done)).
    destruct (validate_from f (drop n (b0 :: r))) as [[t' k'] e'] eqn:Ev. simplify_eq.
    apply IH in Ev as (Hk & Hl & He); [|rewrite length_drop; simpl in *; lia].
    rewrite length_drop in Hk. rewrite !drop_drop in *. split; [simpl in *; lia|]. split.
    + change ((b0 :: r) ++ rest) with (b0 :: (r ++ rest)). rewrite lossy_cons, utf8_step_app, Es by by rewrite Es.
      simpl. f_equal. rewrite <- Hl. f_equal. change (b0 :: r ++ rest) with ((b0 :: r) ++ rest).
      apply drop_app_le. simpl. lia.
    + destruct e; [|exact He]. rewrite length_drop in He. simpl in *. lia.
  - split; [lia|]. split; [done|]. eauto.
  - split; [lia|]. split; [done|]. eauto.
Qed.

Lemma malformed_prefix_lossy b0 r n :
  utf8_step b0 r = Malformed n -> from_utf8_lossy (take n (b0 :: r)) = [REPLACEMENT].
Proof.
  unfold utf8_step. intros H. destruct r as [|b1 [|b2 [|b3 r]]].
  all: repeat (first [done | progress simplify_eq/= | case_match]);
    rewrite lossy_cons; unfold utf8_step; simpl;
    repeat match goal with E : _ = ?b |- context [?x] => progress rewrite E end; done.
Qed.

(** What is left pending after a push. *)
Definition is_unfinished (bs : Bytes) : Prop :=
  match bs with [] => True | b0 :: r => utf8_step b0 r = Unfinished end.

Lemma push_loop_spec f bs out left_ :
  length bs < f -> push_loop f bs = (out, left_) ->
  is_unfinished left_ /\ forall rest, from_utf8_lossy (bs ++ rest) = out ++ from_utf8_lossy (left_ ++ rest).
Proof.
  revert bs out left_. induction f as [|f IH]; intros bs out left_ Hf Hp; [lia|].
  cbn [push_loop] in Hp. unfold str_from_utf8 in Hp.
  destruct (validate_from (length bs) bs) as [[t k] e] eqn:Ev.
  assert (Hr := fun rest => validate_resumes _ _ rest _ _ _ (Nat.le_refl _) Ev).
  destruct e as [|[n|]]; simplify_eq.
  - split; [done|]. intros rest. destruct (Hr rest) as (_ & -> & ->). by rewrite drop_all.
  - destruct (push_loop f (drop (k + n) bs)) as [out' rest'] eqn:El. simplify_eq.
    destruct (Hr []) as (Hk & _ & b0 & r & Hd & Hs).
    assert (Hn : 1 <= n <= length bs - k).
    { pose proof (step_len_pos b0 r) as Hp. pose proof (step_len_bounds b0 r) as Hb. rewrite Hs in Hp, Hb.
      apply (f_equal length) in Hd. rewrite length_drop in Hd. simpl in *. specialize (Hp ltac:(done)). lia. }
    apply IH in El as [Hu Hl]; [|rewrite length_drop; lia].
    split; [done|]. intros rest. destruct (Hr rest) as (_ & -> & _).
    rewrite <- !app_assoc. f_equal. rewrite Hd, (malformed_prefix_lossy _ _ _ Hs). simpl ([_] ++ _).
    change ((b0 :: r) ++ rest) with (b0 :: (r ++ rest)).
    rewrite lossy_cons, utf8_step_app, Hs by by rewrite Hs. f_equal. rewrite <- Hl. f_equal.
    change (b0 :: r ++ rest) with ((b0 :: r) ++ rest).
    rewrite <- drop_drop, Hd. apply drop_app_le. apply (f_equal length) in Hd. rewrite length_drop in Hd.
    simpl in *. lia.
  - destruct (Hr []) as (_ & _ & b0 & r & Hd & Hs). split; [by rewrite Hd|].
    intros rest. by destruct (Hr rest) as (_ & -> & _).
Qed.

Lemma push_spec d chunk out d' :
  push d chunk = (out, d') ->
  is_unfinished (pending d') /\
  forall rest, from_utf8_lossy (pending d ++ chunk ++ rest) = out ++ from_utf8_lossy (pending d' ++ rest).
Proof.
  unfold push. destruct (push_loop _ _) as [o p] eqn:E. intros ?; simplify_eq.
  apply push_loop_spec in E as [Hu Hl]; [|lia]. split; [done|]. intros rest. by rewrite app_assoc.
Qed.

(** The ranges of the second byte, as [from_utf8] states them. *)
Lemma second_ok3 b0 b1 : ((224 <=? b0) && (b0 <=? 239))%N = true ->
  (((if b0 =? 224 then 160 else 128) <=? b1) && (b1 <=? (if b0 =? 237 then 159 else 191)))%N = second_ok b0 b1.
Proof.
  intros [H1%N.leb_le H2%N.leb_le]%andb_true_iff. unfold second_ok, is_cont.
  destruct (b0 =? 224)%N eqn:E1; [apply N.eqb_eq in E1 as ->; done|].
  destruct (b0 =? 237)%N eqn:E2; [done|].
  assert (E3 : (b0 =? 240)%N = false) by (apply N.eqb_neq; lia).
  assert (E4 : (b0 =? 244)%N = false) by (apply N.eqb_neq; lia). by rewrite E3, E4.
Qed.

Lemma second_ok4 b0 b1 : ((240 <=? b0) && (b0 <=? 244))%N = true ->
  (((if b0 =? 240 then 144 else 128) <=? b1) && (b1 <=? (if b0 =? 244 then 143 else 191)))%N = second_ok b0 b1.
Proof.
  intros [H1%N.leb_le H2%N.leb_le]%andb_true_iff. unfold second_ok, is_cont.
  assert (E1 : (b0 =? 224)%N = false) by (apply N.eqb_neq; lia).
  assert (E2 : (b0 =? 237)%N = false) by (apply N.eqb_neq; lia). rewrite E1, E2.
  destruct (b0 =? 240)%N eqn:E3; [apply N.eqb_eq in E3 as ->; done|]. by destruct (b0 =? 244)%N.
Qed.

(** [from_utf8] advances by the same steps. *)
Lemma from_utf8_cons b0 r :
  from_utf8 (b0 :: r) =
  match utf8_step b0 r with
  | Decoded c n => cons c <$> from_utf8 (drop n (b0 :: r))
  | _ => None
  end.
Proof.
  cbn [from_utf8]. unfold utf8_step. destruct (b0 <? 128)%N; [done|].
  destruct ((194 <=? b0) && (b0 <=? 223))%N; [destruct r as [|b1 r]; [done|]; by destruct (is_cont b1)|].
  destruct ((224 <=? b0) && (b0 <=? 239))%N eqn:E3.
  { destruct r as [|b1 [|b2 r]]; [done|by destruct (second_ok b0 b1)|].
    rewrite (second_ok3 b0 b1 E3). destruct (second_ok b0 b1); [|done]. by destruct (is_cont b2). }
  destruct ((240 <=? b0) && (b0 <=? 244))%N eqn:E4; [|done].
  destruct r as [|b1 [|b2 [|b3 r]]]; [done|by destruct (second_ok b0 b1)| |].
  { destruct (second_ok b0 b1); [|done]. by destruct (is_cont b2). }
  rewrite (second_ok4 b0 b1 E4). destruct (second_ok b0 b1); [|done].
  destruct (is_cont b2); [|done]. by destruct (is_cont b3).
Qed.

(** Nothing is replaced in valid UTF-8. *)
Lemma from_utf8_lossy_valid bs t : from_utf8 bs = Some t -> from_utf8_lossy bs = t.
Proof.
  assert (H : forall n bs t, length bs <= n -> from_utf8 bs = Some t -> from_utf8_lossy bs = t).
  { induction n as [|n IH]; intros cs u Hn Hu; (destruct cs as [|b0 r]; [by simplify_eq/=|]); [simpl in Hn; lia|].
    rewrite from_utf8_cons in Hu. rewrite lossy_cons. pose proof (step_len_pos b0 r) as Hp.
    destruct (utf8_step b0 r) as [c k|k|]; try done. specialize (Hp ltac:(done)). simpl in Hp.
    apply fmap_Some in Hu as (v & Hv & ->). f_equal. apply IH; [rewrite length_drop; simpl in *; lia|done]. }
  intros Hu. by apply (H (length bs)).
Qed.

(** ** What the reader captures and posts *)

Definition captured_of (stream : CommandOutputStream.CommandOutputStream) (max : N) (bs : Bytes) : Bytes :=
  if (N.of_nat (length bs) <=? max)%N then bs else take (N.to_nat max) bs ++ truncation_note stream max.

Lemma capture_spec stream max seen chunk :
  capture stream max chunk (captured_of stream max seen) (max <? N.of_nat (length seen))%N
  = (captured_of stream max (seen ++ chunk), (max <? N.of_nat (length (seen ++ chunk)))%N).
Proof.
  unfold capture, captured_of. rewrite length_app.
  destruct (max <? N.of_nat (length seen))%N eqn:E.
  { apply N.ltb_lt in E. rewrite (proj2 (N.leb_gt _ _)) by lia.
    rewrite (proj2 (N.leb_gt (N.of_nat (length seen + length chunk)) max)) by lia.
    rewrite take_app_le by lia. f_equal. symmetry. apply N.ltb_lt. lia. }
  apply N.ltb_ge in E. rewrite (proj2 (N.leb_le _ _)) by lia.
  destruct (Nat.ltb_spec (N.to_nat (N.min (max - N.of_nat (length seen)) (N.of_nat (length chunk)))) (length chunk)) as [Hc|Hc].
  - rewrite (proj2 (N.leb_gt (N.of_nat (length seen + length chunk)) max)) by lia.
    rewrite (proj2 (N.ltb_lt max _)) by lia. rewrite take_app_ge by lia. rewrite <- app_assoc. do 4 f_equal. lia.
  - rewrite (proj2 (N.leb_le (N.of_nat (length seen + length chunk)) max)) by lia.
    rewrite (proj2 (N.ltb_ge max _)) by lia. rewrite take_ge by lia. done.
Qed.

Lemma concat_post c posted : concat (post_chunk c posted) = concat posted ++ c.
Proof. unfold post_chunk. destruct c; simpl; [by rewrite app_nil_r | by rewrite concat_app; simpl; rewrite app_nil_r]. Qed.

Lemma post_nonempty c posted : Forall (fun x => x <> []) posted -> Forall (fun x => x <> []) (post_chunk c posted).
Proof. unfold post_chunk. destruct c; simpl; [done|]. intros H. by apply Forall_app; split; [|constructor]. Qed.

(** The state of the reader after the bytes [seen]. *)
Record reader_at (stream : CommandOutputStream.CommandOutputStream) (max : N) (seen : Bytes)
    (s : ReaderState) : Prop := {
  ra_captured : rd_captured s = captured_of stream max seen;
  ra_truncated : rd_truncated s = (max <? N.of_nat (length seen))%N;
  ra_decoder : is_unfinished (pending (rd_decoder s));
  ra_posted : forall rest, from_utf8_lossy (seen ++ rest)
                = concat (rd_posted s) ++ from_utf8_lossy (pending (rd_decoder s) ++ rest);
  ra_nonempty : Forall (fun x => x <> []) (rd_posted s)
}.

Lemma read_chunk_at stream max seen s chunk :
  reader_at stream max seen s -> reader_at stream max (seen ++ chunk) (read_chunk stream max true s chunk).
Proof.
  intros [Hc Ht Hd Hp Hn]. unfold read_chunk. rewrite Hc, Ht, capture_spec.
  destruct (push (rd_decoder s) chunk) as [out d] eqn:E. apply push_spec in E as [Hu Hl].
  split; simpl; [done|done|done| |by apply post_nonempty].
  intros rest. rewrite concat_post, <- !app_assoc, Hp, Hl. by rewrite app_assoc.
Qed.

Lemma read_chunks_at stream max chunks seen s :
  reader_at stream max seen s ->
  reader_at stream max (seen ++ concat chunks) (fold_left (read_chunk stream max true) chunks s).
Proof.
  revert seen s. induction chunks as [|c cs IH]; intros seen s Hs; simpl; [by rewrite app_nil_r|].
  rewrite app_assoc. apply IH, read_chunk_at, Hs.
Qed.

Lemma reader_starts stream max : reader_at stream max [] (mkReader [] false decoder_default []).
Proof.
  split; simpl; try done.
  - unfold captured_of. destruct (N.leb_spec (N.of_nat (length (@nil N))) max); [done | simpl in *; lia].
  - symmetry. apply N.ltb_ge. lia.
Qed.

Lemma unfinished_bound bs : is_unfinished bs -> length bs <= 3.
Proof. destruct bs as [|b0 r]; simpl; [lia|]. intros H%unfinished_short. lia. Qed.

(** C16. However the output of a command is split into reads, the chunks
    posted to the control plane are not empty and together are the lossy
    decoding of the whole output, in which valid text is unchanged; at most
    three bytes are held back between reads; and the captured copy is the
    whole output, or its first [max] bytes and a note when it is longer. *)
Theorem streamed_output_is_exact (stream : CommandOutputStream.CommandOutputStream) (max : N)
    (chunks : list Bytes) :
  let all := concat chunks in
  let '(captured, posted) := stream_reader stream max true chunks in
  concat posted = from_utf8_lossy all /\ Forall (fun x => x <> []) posted /\
  captured = (if (N.of_nat (length all) <=? max)%N then all
              else take (N.to_nat max) all ++ truncation_note stream max) /\
  length (pending (rd_decoder (fold_left (read_chunk stream max true) chunks
                                 (mkReader [] false decoder_default [])))) <= 3 /\
  (forall t, from_utf8 all = Some t -> concat posted = t).
Proof.
  cbv zeta. unfold stream_reader.
  pose proof (read_chunks_at stream max chunks [] _ (reader_starts stream max)) as Hr.
  destruct (fold_left (read_chunk stream max true) chunks _) as [captured truncated d posted].
  destruct Hr as [Hc _ Hd Hp Hn]. simpl in *. specialize (Hp []). rewrite !app_nil_r in Hp.
  assert (He : concat (post_chunk (from_utf8_lossy (pending d)) posted) = from_utf8_lossy (concat chunks))
    by by rewrite concat_post, Hp.
  split; [exact He|]. split; [by apply post_nonempty|]. split; [exact Hc|].
  split; [by apply unfinished_bound|]. intros t Ht. rewrite He. by apply from_utf8_lossy_valid.
Qed.

(** The euro sign split over two reads. *)
Lemma streamed_output_is_exact_witness :
  concat (stream_reader CommandOutputStream.Stdout 10 true [[226; 130]; [172; 65]]%N).2 = [8364; 65]%N.
Proof.
  exact (proj2 (proj2 (proj2 (proj2 (streamed_output_is_exact CommandOutputStream.Stdout 10
           [[226; 130]; [172; 65]]%N)))) [8364; 65]%N eq_refl).
Defined.
