(* ===== verification/AgentControl.v ===== *)
(** * The guest agent's control loops

    [sandboxwich-agent/src/main.rs]: the calls of the daemon to the control
    plane.  Errors are classified ([AgentRequestError]), recoverable ones are
    retried under a failure budget with exponential backoff ([with_retry]),
    and the heartbeat loop ends after too many failures in a row.  The
    operations retried are functions of a state that stands for whatever they
    change; the retries are shown to stop, and where. *)

From S2P Require Import Prelude.

Open Scope Z_scope.

(** ** Durations

    A [Duration] is a number of nanoseconds; its seconds are a [u64], and
    [Duration * u32] panics past that. *)
Definition millis (n : Z) : Z := n * 1000000.
Definition secs (n : Z) : Z := n * 1000000000.

Definition duration_max : Z := secs (u64_max + 1) - 1.

Definition duration_mul (d k : Z) : option Z := if d * k <=? duration_max then Some (d * k) else None.

Definition MAX_CLAIM_BACKOFF : Z := secs 30.
Definition DEFAULT_HEARTBEAT_FAILURE_THRESHOLD : Z := 12.

(** ** The failure budget *)

Record HeartbeatFailureBudget : Type := mkBudget {
  max_consecutive_failures : Z;
  consecutive_failures : Z
}.

Definition budget_new (max : Z) : HeartbeatFailureBudget := mkBudget (Z.max max 1) 0.

Definition record_success (b : HeartbeatFailureBudget) : HeartbeatFailureBudget :=
  mkBudget (max_consecutive_failures b) 0.

Definition u32_saturating_add (a b : Z) : Z := Z.min (a + b) u32_max.

(** Whether the budget is spent. *)
Definition record_failure (b : HeartbeatFailureBudget) : bool * HeartbeatFailureBudget :=
  let failures := u32_saturating_add (consecutive_failures b) 1 in
  (max_consecutive_failures b <=? failures, mkBudget (max_consecutive_failures b) failures).

(** ** Backoff *)

Record Backoff : Type := mkBackoff {
  bo_base : Z;
  bo_max : Z;
  bo_current : Z
}.

Definition backoff_new (base : Z) : Backoff :=
  let base := Z.max base (millis 1) in
  mkBackoff base (Z.max MAX_CLAIM_BACKOFF base) base.

Definition backoff_reset (b : Backoff) : Backoff := mkBackoff (bo_base b) (bo_max b) (bo_base b).

(** How long it sleeps, and the backoff after it; [None] is the panic of the
    multiplication. *)
Definition backoff_wait (b : Backoff) : option (Z * Backoff) :=
  match duration_mul (bo_current b) 2 with
  | Some doubled => Some (bo_current b, mkBackoff (bo_base b) (bo_max b) (Z.min doubled (bo_max b)))
  | None => None
  end.

(** ** Errors of a call *)

(** What [reqwest::Error] says of itself. *)
Record TransportError : Type := mkTransportError {
  is_timeout : bool;
  is_connect : bool;
  is_request : bool
}.

Inductive AgentRequestError : Type :=
| Transport (error : TransportError)
| Configuration (message : string)
| Status (status : Z) (body : string)
| DecodeError.

(** [serde_json::from_str::<ErrorEnvelope>(body)]: the code of the envelope,
    when the body is one. *)
Class EnvelopeLib : Type := { envelope_code : string -> option string }.

Definition StatusCode_UNAUTHORIZED : Z := 401.
Definition StatusCode_FORBIDDEN : Z := 403.
Definition StatusCode_REQUEST_TIMEOUT : Z := 408.
Definition StatusCode_CONFLICT : Z := 409.
Definition StatusCode_TOO_MANY_REQUESTS : Z := 429.

Definition is_server_error (status : Z) : bool := (500 <=? status) && (status <? 600).

Section Errors.
Context `{EnvelopeLib}.

Definition is_terminal_auth_failure (e : AgentRequestError) : bool :=
  match e with
  | Status status body =>
      if status =? StatusCode_UNAUTHORIZED then true
      else if negb (status =? StatusCode_CONFLICT) && negb (status =? StatusCode_FORBIDDEN) then false
      else match envelope_code body with
           | Some code =>
               String.eqb code "guest_token_expired" || String.eqb code "guest_token_revoked"
               || String.eqb code "lease_cancelled"
           | None => false
           end
  | _ => false
  end.

Definition is_recoverable (e : AgentRequestError) : bool :=
  if is_terminal_auth_failure e then false
  else match e with
       | Transport error => is_timeout error || is_connect error || is_request error
       | Status status _ =>
           is_server_error status || (status =? StatusCode_TOO_MANY_REQUESTS)
           || (status =? StatusCode_REQUEST_TIMEOUT)
       | DecodeError => false
       | Configuration _ => false
       end.

Definition is_resident_desired_stop (e : AgentRequestError) : bool :=
  match e with
  | Status _ body =>
      match envelope_code body with
      | Some code => String.eqb code "resident_process_stopped"
      | None => false
      end
  | _ => false
  end.

(** ** Retrying: [with_retry] *)

(** How the call ends: [bail!] with one of its three messages. *)
Inductive RetryFailure : Type :=
| TerminalAuth (error : AgentRequestError)
| Exhausted (error : AgentRequestError)
| NonRecoverable (error : AgentRequestError)
| BackoffPanicked.

Section WithRetry.
Context {S T : Type} (operation : S -> result T AgentRequestError * S).

(** The state after a call of [with_retry]: what the retried operation left,
    the budget and the backoff, and the sleeps taken. *)
Record RetryState : Type := mkRetryState {
  rs_world : S;
  rs_budget : HeartbeatFailureBudget;
  rs_backoff : Backoff;
  rs_sleeps : list Z
}.

(** One turn of the loop: an outcome, or another turn. *)
Definition retry_turn (s : RetryState) : option (result T RetryFailure) * RetryState :=
  let '(answer, world) := operation (rs_world s) in
  match answer with
  | Ok value =>
      (Some (Ok value),
       mkRetryState world (record_success (rs_budget s)) (backoff_reset (rs_backoff s)) (rs_sleeps s))
  | Err error =>
      if is_terminal_auth_failure error then
        (Some (Err (TerminalAuth error)), mkRetryState world (rs_budget s) (rs_backoff s) (rs_sleeps s))
      else if is_recoverable error then
        let '(spent, budget) := record_failure (rs_budget s) in
        if spent then
          (Some (Err (Exhausted error)), mkRetryState world budget (rs_backoff s) (rs_sleeps s))
        else match backoff_wait (rs_backoff s) with
             | None => (Some (Err BackoffPanicked), mkRetryState world budget (rs_backoff s) (rs_sleeps s))
             | Some (slept, backoff) =>
                 (None, mkRetryState world budget backoff (rs_sleeps s ++ [slept]))
             end
      else (Some (Err (NonRecoverable error)), mkRetryState world (rs_budget s) (rs_backoff s) (rs_sleeps s))
  end.

(** The loop, for a number of turns. *)
Fixpoint retry_loop (turns : nat) (s : RetryState) : option (result T RetryFailure) * RetryState :=
  match turns with
  | O => (None, s)
  | Datatypes.S turns =>
      match retry_turn s with
      | (Some outcome, s') => (Some outcome, s')
      | (None, s') => retry_loop turns s'
      end
  end.

(** The turns a budget leaves. *)
Definition turns_left (b : HeartbeatFailureBudget) : nat :=
  Z.to_nat (Z.max 1 (max_consecutive_failures b - consecutive_failures b)).

Definition with_retry (budget : HeartbeatFailureBudget) (backoff : Backoff) (world : S) :
    option (result T RetryFailure) * RetryState :=
  retry_loop (turns_left budget) (mkRetryState world budget backoff []).
End WithRetry.
End Errors.

(** ** The heartbeat loop

    Each turn posts the guest's health; [outcomes] are the answers.  The
    result is the number of posts after which the loop ends with its error,
    or the budget it goes on with. *)
Fixpoint heartbeats {E} (budget : HeartbeatFailureBudget) (outcomes : list (result unit E)) :
    nat + HeartbeatFailureBudget :=
  match outcomes with
  | [] => inr budget
  | outcome :: rest =>
      let next (budget : HeartbeatFailureBudget) :=
        match heartbeats budget rest with inl n => inl (S n) | inr b => inr b end in
      match outcome with
      | Ok _ => next (record_success budget)
      | Err _ =>
          let '(spent, budget) := record_failure budget in
          if spent then inl 1%nat else next budget
      end
  end.

Definition heartbeat_loop {E} (heartbeat_failure_threshold : Z) (outcomes : list (result unit E)) :
    nat + HeartbeatFailureBudget :=
  heartbeats (budget_new heartbeat_failure_threshold) outcomes.

(** ** What retrying does *)

Definition budget_ok (b : HeartbeatFailureBudget) : Prop :=
  0 <= consecutive_failures b < max_consecutive_failures b /\ max_consecutive_failures b <= u32_max.

(** The sleeps may be doubled without a panic. *)
Definition backoff_ok (b : Backoff) : Prop :=
  0 < bo_base b <= bo_current b /\ bo_current b <= bo_max b /\ 2 * bo_max b <= duration_max.

Lemma budget_new_ok n : 0 <= n <= u32_max -> budget_ok (budget_new n).
Proof. unfold budget_ok, budget_new, u32_max; simpl. lia. Qed.

(** A base given in milliseconds of a [u64] never makes the backoff panic. *)
Lemma backoff_new_ok ms : 0 <= ms <= u64_max -> backoff_ok (backoff_new (millis ms)).
Proof.
  unfold backoff_ok, backoff_new, millis, MAX_CLAIM_BACKOFF, duration_max, secs, u64_max; simpl. lia.
Qed.

Lemma backoff_reset_ok b : backoff_ok b -> backoff_ok (backoff_reset b).
Proof. unfold backoff_ok; simpl. lia. Qed.

Lemma backoff_wait_ok b : backoff_ok b ->
  exists b', backoff_wait b = Some (bo_current b, b') /\ backoff_ok b' /\
    bo_base b' = bo_base b /\ bo_max b' = bo_max b /\ bo_current b' = Z.min (bo_current b * 2) (bo_max b).
Proof.
  unfold backoff_ok, backoff_wait, duration_mul. intros (Hb & Hc & Hm).
  destruct (Z.leb_spec (bo_current b * 2) duration_max); [|lia].
  eexists. split; [done|]. simpl. lia.
Qed.

Lemma record_failure_ok b : budget_ok b ->
  record_failure b = (max_consecutive_failures b <=? consecutive_failures b + 1,
                      mkBudget (max_consecutive_failures b) (consecutive_failures b + 1)).
Proof.
  unfold budget_ok, record_failure, u32_saturating_add. intros [H1 H2].
  rewrite Z.min_l by lia. done.
Qed.

Section RetryProofs.
Context `{EnvelopeLib} {S T : Type} (operation : S -> result T AgentRequestError * S).

Definition world_after (n : nat) (w : S) : S := Nat.iter n (fun w => (operation w).2) w.

(** What the operation answers the [n]-th time it is called. *)
Definition answer (n : nat) (w : S) : result T AgentRequestError := (operation (world_after n w)).1.

Definition recoverable (r : result T AgentRequestError) : bool :=
  match r with Ok _ => false | Err e => is_recoverable e end.

(** How the loop ends when it ends with this answer. *)
Definition settle (r : result T AgentRequestError) : result T RetryFailure :=
  match r with
  | Ok v => Ok v
  | Err e =>
      if is_terminal_auth_failure e then Err (TerminalAuth e)
      else if is_recoverable e then Err (Exhausted e) else Err (NonRecoverable e)
  end.

Definition sleeps_from (b : Backoff) (k : nat) : list Z :=
  (fun i : nat => Z.min (bo_current b * 2 ^ Z.of_nat i) (bo_max b)) <$> seq 0 k.

Lemma world_after_S n w : world_after (Datatypes.S n) w = world_after n (operation w).2.
Proof. unfold world_after. by rewrite Nat.iter_succ_r. Qed.

Lemma answer_S n w : answer (Datatypes.S n) w = answer n (operation w).2.
Proof. unfold answer. by rewrite world_after_S. Qed.

Lemma sleeps_from_S b b' k : backoff_ok b ->
  bo_max b' = bo_max b -> bo_current b' = Z.min (bo_current b * 2) (bo_max b) ->
  sleeps_from b (Datatypes.S k) = bo_current b :: sleeps_from b' k.
Proof.
  intros (Hb & Hc & _) Hm Hn. unfold sleeps_from. simpl. f_equal; [lia|].
  rewrite <- seq_shift, <- list_fmap_compose. apply list_fmap_ext. intros i x _. simpl.
  rewrite Hm, Hn, Nat2Z.inj_succ, Z.pow_succ_r by lia.
  assert (0 < 2 ^ Z.of_nat x) by (apply Z.pow_pos_nonneg; lia). nia.
Qed.

Lemma terminal_not_recoverable e : is_terminal_auth_failure e = true -> is_recoverable e = false.
Proof. unfold is_recoverable. by intros ->. Qed.

Lemma turns_left_S b : budget_ok b -> consecutive_failures b + 1 < max_consecutive_failures b ->
  turns_left b = Datatypes.S (turns_left (mkBudget (max_consecutive_failures b) (consecutive_failures b + 1))).
Proof. unfold turns_left, budget_ok; simpl. lia. Qed.

Lemma turns_left_last b : budget_ok b -> max_consecutive_failures b <= consecutive_failures b + 1 ->
  turns_left b = 1%nat.
Proof. unfold turns_left, budget_ok. lia. Qed.

Definition retry_result (n : nat) (s : RetryState) (k : nat) (s' : RetryState) : Prop :=
  retry_loop operation n s = (Some (settle (answer k (rs_world s))), s') /\ (k < n)%nat /\
  (forall i, (i < k)%nat -> recoverable (answer i (rs_world s)) = true) /\
  (recoverable (answer k (rs_world s)) = true -> Datatypes.S k = n) /\
  rs_world s' = world_after (Datatypes.S k) (rs_world s) /\
  rs_sleeps s' = rs_sleeps s ++ sleeps_from (rs_backoff s) k /\
  (is_ok (answer k (rs_world s)) = true ->
     rs_budget s' = record_success (rs_budget s) /\ rs_backoff s' = backoff_reset (rs_backoff s)).

(** The turn that settles the call. *)
Lemma settled_at_once n s outcome s' : (0 < n)%nat ->
  retry_turn operation s = (Some outcome, s') ->
  outcome = settle (answer 0 (rs_world s)) ->
  (recoverable (answer 0 (rs_world s)) = true -> n = 1%nat) ->
  rs_world s' = (operation (rs_world s)).2 -> rs_sleeps s' = rs_sleeps s ->
  (is_ok (answer 0 (rs_world s)) = true ->
     rs_budget s' = record_success (rs_budget s) /\ rs_backoff s' = backoff_reset (rs_backoff s)) ->
  retry_result n s 0 s'.
Proof.
  intros Hn Ht Ho Hl Hw Hs Hb. destruct n as [|n]; [lia|]. unfold retry_result. simpl. rewrite Ht, <- Ho.
  split_and!; [done|lia|lia|naive_solver|done|by rewrite Hs, app_nil_r|done].
Qed.

(** A turn either settles the call with its answer, or counts a failure and
    sleeps. *)
Lemma retry_turn_cases s ans w : budget_ok (rs_budget s) -> backoff_ok (rs_backoff s) ->
  operation (rs_world s) = (ans, w) ->
  (exists s', retry_turn operation s = (Some (settle ans), s') /\ rs_world s' = w /\ rs_sleeps s' = rs_sleeps s /\
     (recoverable ans = true -> turns_left (rs_budget s) = 1%nat) /\
     (is_ok ans = true ->
        rs_budget s' = record_success (rs_budget s) /\ rs_backoff s' = backoff_reset (rs_backoff s))) \/
  (recoverable ans = true /\ exists budget backoff,
     retry_turn operation s
     = (None, mkRetryState w budget backoff (rs_sleeps s ++ [bo_current (rs_backoff s)])) /\
     turns_left (rs_budget s) = Datatypes.S (turns_left budget) /\ budget_ok budget /\ backoff_ok backoff /\
     max_consecutive_failures budget = max_consecutive_failures (rs_budget s) /\
     bo_base backoff = bo_base (rs_backoff s) /\ bo_max backoff = bo_max (rs_backoff s) /\
     bo_current backoff = Z.min (bo_current (rs_backoff s) * 2) (bo_max (rs_backoff s))).
Proof.
  intros Hb Hk Eo. unfold retry_turn, settle, recoverable, is_ok. rewrite Eo.
  destruct ans as [v|e]; [left; eexists; split; [done|]; done|].
  destruct (is_terminal_auth_failure e) eqn:E1.
  { left. rewrite (terminal_not_recoverable e E1). eexists; split; [done|]; done. }
  destruct (is_recoverable e); [|left; eexists; split; [done|]; done].
  rewrite (record_failure_ok _ Hb). destruct (Z.leb_spec (max_consecutive_failures (rs_budget s))
                                                (consecutive_failures (rs_budget s) + 1)) as [Hl|Hl].
  - left. eexists; split; [done|]. simpl. split_and!; try done. intros _. by apply turns_left_last.
  - right. split; [done|]. destruct (backoff_wait_ok _ Hk) as (b' & -> & Hok & Hb1 & Hb2 & Hb3).
    eexists _, b'. split; [done|]. split_and!; try done; [by apply turns_left_S|].
    unfold budget_ok in *; simpl. lia.
Qed.

Lemma retry_loop_spec n : forall s, n = turns_left (rs_budget s) -> budget_ok (rs_budget s) ->
  backoff_ok (rs_backoff s) -> exists k s', retry_result n s k s'.
Proof.
  induction n as [|n IH]; intros s Hn Hb Hk; [unfold turns_left in Hn; lia|].
  destruct (operation (rs_world s)) as [ans w] eqn:Eo.
  assert (Ea : answer 0 (rs_world s) = ans) by (unfold answer; simpl; by rewrite Eo).
  destruct (retry_turn_cases s ans w Hb Hk Eo)
    as [(s' & Et & Hw & Hs & Hl & Hok)|(Hr & bud & bo & Et & Ht & Hb' & Hk' & Hmax & Hb1 & Hb2 & Hb3)].
  - exists 0%nat, s'. rewrite <- Ea in *.
    apply (settled_at_once _ _ (settle (answer 0 (rs_world s)))); try done; [lia| |by rewrite Eo].
    intros Hr. rewrite Hn. by apply Hl.
  - destruct (IH (mkRetryState w bud bo (rs_sleeps s ++ [bo_current (rs_backoff s)])))
      as (k & s' & Hres & Hlt & Hrec & Hlast & Hw & Hsl & Hok); simpl in *; [lia|done|done|].
    exists (Datatypes.S k), s'. unfold retry_result. cbn [retry_loop]. rewrite Et.
    rewrite answer_S, world_after_S, Eo. cbn [snd]. split_and!; try done; [lia| | | |].
    + intros [|i] Hi; [by rewrite Ea|]. rewrite answer_S, Eo. apply Hrec. lia.
    + intros Hlst. f_equal. by apply Hlast.
    + rewrite Hsl, (sleeps_from_S (rs_backoff s) bo k) by done. by rewrite <- app_assoc.
    + intros Ho. destruct (Hok Ho) as [-> ->]. unfold record_success, backoff_reset. by rewrite Hmax, Hb1, Hb2.
Qed.

(** C31. Retrying is exact and ends.  A call that is retried under a budget with
    failures left settles with the first answer that is not a recoverable error,
    or with the answer that spends the budget; it never calls again after that,
    never panics, and sleeps before each further call for the current backoff,
    doubled every time up to its ceiling.  A success resets both. *)
Theorem retries_are_exact budget backoff w :
  budget_ok budget -> backoff_ok backoff ->
  exists k st, with_retry operation budget backoff w = (Some (settle (answer k w)), st) /\
    (k < turns_left budget)%nat /\
    (forall i, (i < k)%nat -> recoverable (answer i w) = true) /\
    (recoverable (answer k w) = true -> Datatypes.S k = turns_left budget) /\
    rs_world st = world_after (Datatypes.S k) w /\
    rs_sleeps st = sleeps_from backoff k /\
    (is_ok (answer k w) = true ->
       rs_budget st = record_success budget /\ rs_backoff st = backoff_reset backoff).
Proof.
  intros Hb Hk. destruct (retry_loop_spec _ (mkRetryState w budget backoff []) eq_refl Hb Hk)
    as (k & st & Hr & Hlt & Hrec & Hlast & Hw & Hs & Hok).
  exists k, st. done.
Qed.
End RetryProofs.

(** ** What the heartbeat loop does *)

(** The failures in a row at the end of the answers. *)
Definition streak {E} (c : Z) (outcomes : list (result unit E)) : Z :=
  foldl (fun c outcome => if is_ok outcome then 0 else c + 1) c outcomes.

Lemma heartbeats_spec {E} (outcomes : list (result unit E)) : forall b, budget_ok b ->
  match heartbeats b outcomes with
  | inl n => (n <= length outcomes)%nat /\ streak (consecutive_failures b) (take n outcomes) = max_consecutive_failures b /\
      forall m, (m < n)%nat -> streak (consecutive_failures b) (take m outcomes) < max_consecutive_failures b
  | inr b' => max_consecutive_failures b' = max_consecutive_failures b /\
      consecutive_failures b' = streak (consecutive_failures b) outcomes /\
      forall m, (m <= length outcomes)%nat -> streak (consecutive_failures b) (take m outcomes) < max_consecutive_failures b
  end.
Proof.
  induction outcomes as [|o rest IH]; intros b Hb; [simpl|cbn [heartbeats length]].
  { split_and!; try done. intros m _. rewrite take_nil. unfold budget_ok in Hb. simpl. lia. }
  set (c := if is_ok o then 0 else consecutive_failures b + 1).
  assert (Hgo : c < max_consecutive_failures b ->
    let b1 := mkBudget (max_consecutive_failures b) c in
    match (match heartbeats b1 rest with inl n => inl (S n) | inr b => inr b end : nat + HeartbeatFailureBudget) with
    | inl n => (n <= S (length rest))%nat /\ streak (consecutive_failures b) (take n (o :: rest)) = max_consecutive_failures b /\
        forall m, (m < n)%nat -> streak (consecutive_failures b) (take m (o :: rest)) < max_consecutive_failures b
    | inr b' => max_consecutive_failures b' = max_consecutive_failures b /\
        consecutive_failures b' = streak c rest /\
        forall m, (m <= S (length rest))%nat -> streak (consecutive_failures b) (take m (o :: rest)) < max_consecutive_failures b
    end).
  { intros Hc b1. assert (Hb1 : budget_ok b1).
    { unfold budget_ok, b1, c in *; simpl in *. destruct (is_ok o); lia. }
    specialize (IH b1 Hb1). unfold budget_ok in Hb.
    destruct (heartbeats b1 rest) as [n|b']; simpl in *.
    - destruct IH as (H1 & H2 & H3). split_and!; [lia|done|]. intros [|m] Hm; simpl; [lia|]. apply H3. lia.
    - destruct IH as (H1 & H2 & H3). split_and!; [done|done|]. intros [|m] Hm; simpl; [lia|]. apply H3. lia. }
  destruct o as [u|e].
  - apply Hgo. unfold c, budget_ok in *; simpl. lia.
  - rewrite (record_failure_ok _ Hb). destruct (Z.leb_spec (max_consecutive_failures b) (consecutive_failures b + 1)).
    + unfold budget_ok in Hb. split_and!; [lia|unfold take; simpl; lia|]. intros m Hm.
      replace m with 0%nat by lia. simpl. lia.
    + apply Hgo. unfold c; simpl. lia.
Qed.

(** The heartbeat loop ends exactly when its budget says.  For any answers
    to its posts, it stops after the post with which the failures in a row first
    reach the configured threshold (at least one), and not otherwise. *)
Theorem heartbeat_stops_exactly {E} threshold (outcomes : list (result unit E)) n :
  0 <= threshold <= u32_max ->
  heartbeat_loop threshold outcomes = inl n <->
  (n <= length outcomes)%nat /\ streak 0 (take n outcomes) = Z.max threshold 1 /\
  forall m, (m < n)%nat -> streak 0 (take m outcomes) < Z.max threshold 1.
Proof.
  intros Ht. unfold heartbeat_loop. pose proof (heartbeats_spec outcomes _ (budget_new_ok _ Ht)) as Hs.
  destruct (heartbeats _ outcomes) as [k|b']; simpl in Hs; destruct Hs as (H1 & H2 & H3); split.
  - by intros [= ->].
  - intros (G1 & G2 & G3). f_equal. destruct (lt_eq_lt_dec k n) as [[Hl|Hl]|Hl]; [|done|].
    + specialize (G3 _ Hl). lia.
    + specialize (H3 _ Hl). lia.
  - done.
  - intros (G1 & G2 & G3). specialize (H3 _ G1). lia.
Qed.

(** ** A concrete call *)

(** Two connections are refused, then the call answers. *)
Definition flaky (w : nat) : result nat AgentRequestError * nat :=
  (if (w <? 2)%nat then Err (Transport (mkTransportError false true false)) else Ok w, S w).

#[local] Instance no_envelopes : EnvelopeLib := { envelope_code _ := None }.

Example flaky_call_answers :
  with_retry flaky (budget_new 12) (backoff_new (millis 1000)) 0%nat
  = (Some (Ok 2%nat), mkRetryState 3%nat (budget_new 12) (backoff_new (millis 1000)) [secs 1; secs 2]).
Proof. vm_compute. reflexivity. Qed.

Lemma retries_are_exact_witness :
  exists k st, with_retry flaky (budget_new 12) (backoff_new (millis 1000)) 0%nat
    = (Some (settle (answer flaky k 0%nat)), st) /\ (k < 12)%nat.
Proof.
  destruct (retries_are_exact flaky (budget_new 12) (backoff_new (millis 1000)) 0%nat) as (k & st & E & Hk & _).
  - apply budget_new_ok. vm_compute. split; discriminate.
  - apply backoff_new_ok. vm_compute. split; discriminate.
  - exists k, st. split; [exact E|exact Hk].
Defined.

Lemma heartbeat_stops_exactly_witness :
  heartbeat_loop 2 [Ok tt; Err tt; Ok tt; Err tt; Err tt; Ok tt] = inl 5%nat.
Proof.
  apply (heartbeat_stops_exactly 2 [Ok tt; Err tt; Ok tt; Err tt; Err tt; Ok tt] 5).
  - vm_compute. split; discriminate.
  - split; [simpl; lia|]. split; [reflexivity|].
    intros m Hm. do 5 (destruct m as [|m]; [vm_compute; reflexivity|]). lia.
Defined.
