(* ===== verification/AgentSession.v ===== *)
(** * The guest agent's credential

    [sandboxwich-agent/src/main.rs]: which credential a daemon uses
    ([guest_credential_source], [resolve_guest_session]) and when it is
    refreshed ([GuestAuthSession]).  The point at which a refresh is due is
    computed in floating point; [SpecFloat] is the arithmetic of [f64]. *)

From S2P Require Import Prelude Text AgentControl.
From Stdlib Require Import SpecFloat.

Open Scope Z_scope.

(** ** Tokens given to the daemon *)

Inductive TokenFileError : Type :=
| TokenFileUnreadable
| TokenFileEmpty.

(** [resolve_api_token]: the file takes precedence; [read] is what reading it
    gives. *)
Definition resolve_api_token {File} (read : File -> option Text) (token_file : option File) (cli_token : option Text) :
    result (option Text) TokenFileError :=
  match token_file with
  | None => Ok cli_token
  | Some path =>
      match read path with
      | None => Err TokenFileUnreadable
      | Some contents =>
          let token := text_trim contents in
          if is_nil token then Err TokenFileEmpty else Ok (Some token)
      end
  end.

Inductive GuestCredentialSource : Type :=
| Provided (token : Text)
| SelfMint (worker_id : N) (ttl_seconds : Z)
| NoCredential.

Definition guest_credential_source (resolved_guest_token : option Text) (worker_id : option N) (ttl_seconds : Z) :
    GuestCredentialSource :=
  match resolved_guest_token, worker_id with
  | Some token, _ => Provided token
  | None, Some worker_id => SelfMint worker_id ttl_seconds
  | None, None => NoCredential
  end.

(** ** The session *)

Definition DEFAULT_GUEST_TOKEN_TTL_SECS : Z := 3600.

(** The nearest [f64] to 0.65. *)
Definition GUEST_TOKEN_REFRESH_FRACTION : spec_float := S754_finite false 5854679515581645 (-53).

Definition f64_mul : spec_float -> spec_float -> spec_float := SFmul 53 1024.
Definition f64_sub : spec_float -> spec_float -> spec_float := SFsub 53 1024.
Definition f64_of_i64 (z : Z) : spec_float := binary_normalize 53 1024 z 0 false.

(** [as i64]: towards zero, for a finite number in range. *)
Definition f64_as_i64 (f : spec_float) : Z :=
  match f with
  | S754_finite sign m e =>
      let magnitude := if 0 <=? e then Z.pos m * 2 ^ e else Z.pos m / 2 ^ (- e) in
      let z := if sign then - magnitude else magnitude in
      Z.max i64_min (Z.min z i64_max)
  | S754_infinity sign => if sign then i64_min else i64_max
  | S754_zero _ | S754_nan => 0
  end.

(** A client is the token it sends; the worker's credential is [None]. *)
Record GuestAuthSession : Type := mkSession {
  gs_client : option Text;
  gs_expires_at : option Z;
  gs_ttl_seconds : Z;
  gs_worker_id : option N;
  gs_can_refresh : bool
}.

(** The milliseconds before its expiry at which a token is due. *)
Definition refresh_margin (ttl_seconds : Z) : Z :=
  f64_as_i64 (f64_mul (f64_of_i64 (Z.max ttl_seconds 1 * 1000))
                (f64_sub (f64_of_i64 1) GUEST_TOKEN_REFRESH_FRACTION)).

Definition needs_refresh (s : GuestAuthSession) (now : Z) : bool :=
  gs_can_refresh s &&
  match gs_expires_at s with
  | None => false
  | Some expires_at => expires_at - millis (refresh_margin (gs_ttl_seconds s)) <=? now
  end.

Record MintedToken : Type := mkMintedToken {
  mt_token : Text;
  mt_expires_at : Z
}.

Section Session.
Context `{EnvelopeLib} {S : Type}.
(** The two endpoints: refreshing with a client's token, minting with the
    worker's. *)
Context (refresh : option Text -> Z -> S -> result MintedToken AgentRequestError * S).
Context (mint : N -> Z -> S -> result MintedToken AgentRequestError * S).

(** [ensure_fresh]; the clock is read again after the call. *)
Definition ensure_fresh (now after : Z) (s : GuestAuthSession) (server : S) :
    result unit AgentRequestError * GuestAuthSession * S :=
  if negb (needs_refresh s now) then (Ok tt, s, server)
  else
    let '(minted, server) := refresh (gs_client s) (gs_ttl_seconds s) server in
    let '(minted, server) :=
      match minted with
      | Ok m => (Ok m, server)
      | Err error =>
          if is_terminal_auth_failure error then (Err error, server)
          else match gs_worker_id s with
               | None => (Err error, server)
               | Some worker_id => mint worker_id (gs_ttl_seconds s) server
               end
      end in
    match minted with
    | Err error => (Err error, s, server)
    | Ok m =>
        let ttl := Z.max ((mt_expires_at m - after) / secs 1) 1 in
        (Ok tt, mkSession (Some (mt_token m)) (Some (mt_expires_at m)) (Z.min ttl 86400) (gs_worker_id s) (gs_can_refresh s),
         server)
    end.

(** [resolve_guest_session]. *)
Definition resolve_guest_session (credential : GuestCredentialSource) (server : S) :
    result GuestAuthSession AgentRequestError * S :=
  match credential with
  | Provided token => (Ok (mkSession (Some token) None DEFAULT_GUEST_TOKEN_TTL_SECS None true), server)
  | SelfMint worker_id ttl_seconds =>
      match mint worker_id ttl_seconds server with
      | (Ok m, server) =>
          (Ok (mkSession (Some (mt_token m)) (Some (mt_expires_at m)) ttl_seconds (Some worker_id) true), server)
      | (Err e, server) => (Err e, server)
      end
  | NoCredential => (Ok (mkSession None None DEFAULT_GUEST_TOKEN_TTL_SECS None false), server)
  end.

(** How the daemon starts a session: a token without a known expiry is taken
    to expire a whole time to live from now. *)
Definition scheduled_session (now : Z) (s : GuestAuthSession) : GuestAuthSession :=
  if is_none (gs_expires_at s) && gs_can_refresh s
  then mkSession (gs_client s) (Some (now + secs (gs_ttl_seconds s))) (gs_ttl_seconds s) (gs_worker_id s) (gs_can_refresh s)
  else s.
End Session.

(** ** When a token is refreshed *)

(** The margin of the default time to live is twenty-one minutes. *)
Lemma default_margin : refresh_margin DEFAULT_GUEST_TOKEN_TTL_SECS = 1260000.
Proof. vm_compute. reflexivity. Qed.

Lemma needs_refresh_default client expires worker can now :
  needs_refresh (mkSession client (Some expires) DEFAULT_GUEST_TOKEN_TTL_SECS worker can) now
  = can && (expires - secs 1260 <=? now).
Proof. unfold needs_refresh. cbn [gs_can_refresh gs_expires_at gs_ttl_seconds]. by rewrite default_margin. Qed.

(** When a token is refreshed.  With the default time to live of an hour, a
    token the daemon minted itself is due exactly from twenty-one minutes before
    it expires.  A token that was mounted for the daemon is due at some time
    before it expires exactly when the daemon started less than twenty-one minutes
    after the token was minted; a later daemon lets it expire. *)
Theorem provided_token_is_refreshed_iff {S} `{EnvelopeLib} mint token minted started (server : S) :
  (forall session server', resolve_guest_session mint (Provided token) server = (Ok session, server') ->
     (exists now, now < minted + secs DEFAULT_GUEST_TOKEN_TTL_SECS /\
        needs_refresh (scheduled_session started session) now = true)
     <-> started < minted + secs 1260) /\
  (forall worker session server' now,
     resolve_guest_session mint (SelfMint worker DEFAULT_GUEST_TOKEN_TTL_SECS) server = (Ok session, server') ->
     exists m, mint worker DEFAULT_GUEST_TOKEN_TTL_SECS server = (Ok m, server') /\
       gs_client (scheduled_session started session) = Some (mt_token m) /\
       needs_refresh (scheduled_session started session) now = (mt_expires_at m - secs 1260 <=? now)) /\
  (forall session server' now, resolve_guest_session mint NoCredential server = (Ok session, server') ->
     needs_refresh (scheduled_session started session) now = false).
Proof.
  unfold resolve_guest_session. split_and!.
  - intros session server' [= <- <-]. 
    change (scheduled_session started _)
      with (mkSession (Some token) (Some (started + secs DEFAULT_GUEST_TOKEN_TTL_SECS)) DEFAULT_GUEST_TOKEN_TTL_SECS None true).
    split.
    + intros (now & Hn & Hr). rewrite needs_refresh_default in Hr.
      unfold secs, DEFAULT_GUEST_TOKEN_TTL_SECS in *. simpl in Hr. lia.
    + intros Hs. exists (minted + secs DEFAULT_GUEST_TOKEN_TTL_SECS - 1). split; [lia|].
      rewrite needs_refresh_default. unfold secs, DEFAULT_GUEST_TOKEN_TTL_SECS in *. simpl. lia.
  - intros worker session server' now Hm. destruct (mint worker _ server) as [[m|] sv]; [|done].
    injection Hm as <- <-. exists m. split_and!; [done|done|]. 
    change (scheduled_session started _)
      with (mkSession (Some (mt_token m)) (Some (mt_expires_at m)) DEFAULT_GUEST_TOKEN_TTL_SECS (Some worker) true).
    by rewrite needs_refresh_default.
  - intros session server' now [= <- <-]. done.
Qed.

(** A daemon that starts half an hour late. *)
Lemma provided_token_is_refreshed_iff_witness :
  ~ exists now, now < secs 3600 /\
      needs_refresh (scheduled_session (secs 1800) (mkSession (Some (txt "sbw_gtok_a")) None 3600 None true)) now = true.
Proof.
  destruct (@provided_token_is_refreshed_iff unit {| envelope_code _ := None |}
              (fun _ _ s => (Err DecodeError, s)) (txt "sbw_gtok_a") 0 (secs 1800) tt) as (H & _ & _).
  intros Hn. apply (H (mkSession (Some (txt "sbw_gtok_a")) None 3600 None true) tt eq_refl) in Hn.
  vm_compute in Hn. discriminate Hn.
Defined.
