(* ===== verification/SandboxLifecycle.v ===== *)
(** * The sandbox lifecycle state machine

    [SandboxState] of [crates/sandboxwich-core/src/lib.rs]: the legal
    predecessor sets of every lifecycle action, the coarse transition relation
    [can_transition_to] derived from them, and the transition pairs the
    database backstop trigger of [crates/sandboxwich-api/src/db.rs] is built
    from. *)

From S2P Require Import Prelude CoreTypes.
Import SandboxState.

(** ** The constants *)

Definition SandboxState_ALL : list SandboxState :=
  [Planning; Provisioning; Ready; Running; Idle; Archiving; Archived; Error].

Definition is_home_mount_reclaimable (s : SandboxState) : bool :=
  match s with Archived | Error => true | _ => false end.

Definition STOP_LEGAL_FROM : list SandboxState :=
  [Planning; Provisioning; Ready; Running; Idle; Error].
Definition STOP_COMPLETED_LEGAL_FROM : list SandboxState := [Archiving].
Definition RESUME_LEGAL_FROM : list SandboxState := [Archived].
Definition RESUME_COMPLETED_LEGAL_FROM : list SandboxState := [Provisioning].
Definition RESUME_FAILED_LEGAL_FROM : list SandboxState := [Provisioning].
Definition FORK_CLAIMED_LEGAL_FROM : list SandboxState := [Planning].
Definition FORK_COMPLETED_LEGAL_FROM : list SandboxState := [Provisioning].
Definition FORK_RETRIED_LEGAL_FROM : list SandboxState := [Provisioning].
Definition FORK_FAILED_LEGAL_FROM : list SandboxState := [Provisioning].
Definition PROVISION_COMPLETED_LEGAL_FROM : list SandboxState :=
  [Planning; Provisioning; Ready; Running; Idle; Error].
Definition PROVISION_FAILED_LEGAL_FROM : list SandboxState := [Planning; Provisioning].
Definition SNAPSHOT_FAILED_CHILD_LEGAL_FROM : list SandboxState := [Planning].

(** ** The coarse transition relation *)

(** [slice.contains(&x)]. *)
Definition contains (l : list SandboxState) (s : SandboxState) : bool :=
  existsb (fun x => bool_decide (x = s)) l.

Definition can_transition_to (self next : SandboxState) : bool :=
  (contains STOP_LEGAL_FROM self && bool_decide (next = Archiving))
  || (contains STOP_COMPLETED_LEGAL_FROM self && bool_decide (next = Archived))
  || (contains FORK_CLAIMED_LEGAL_FROM self && bool_decide (next = Provisioning))
  || (contains FORK_COMPLETED_LEGAL_FROM self && bool_decide (next = Ready))
  || (contains FORK_RETRIED_LEGAL_FROM self && bool_decide (next = Planning))
  || (contains FORK_FAILED_LEGAL_FROM self && bool_decide (next = Error))
  || (contains PROVISION_COMPLETED_LEGAL_FROM self && bool_decide (next = Ready))
  || (contains PROVISION_FAILED_LEGAL_FROM self && bool_decide (next = Error))
  || (contains SNAPSHOT_FAILED_CHILD_LEGAL_FROM self && bool_decide (next = Error))
  || (contains RESUME_LEGAL_FROM self && bool_decide (next = Provisioning))
  || (contains RESUME_COMPLETED_LEGAL_FROM self && bool_decide (next = Ready))
  || (contains RESUME_FAILED_LEGAL_FROM self && bool_decide (next = Archived)).

Definition legal_predecessors (next : SandboxState) : list SandboxState :=
  List.filter (fun from => can_transition_to from next) SandboxState_ALL.

(** [db.rs]: the [(from, to)] string pairs the trigger admits. *)
Definition sandbox_legal_transition_pairs : list (string * string) :=
  flat_map (fun from =>
    flat_map (fun to =>
      if can_transition_to from to then [(as_db_str from, as_db_str to)] else [])
      SandboxState_ALL)
    SandboxState_ALL.

(** The trigger body: abort the update unless [(old.state, new.state)] is one
    of the listed pairs.  It runs on every update of the [state] column. *)
Definition transition_guard_admits (old new : string) : bool :=
  existsb (fun p => String.eqb p.1 old && String.eqb p.2 new) sandbox_legal_transition_pairs.

(** ** The action-level machine *)

(** One constructor per lifecycle action of the control plane. *)
Inductive LifecycleAction : Set :=
| StopRequested | StopCompleted
| ResumeRequested | ResumeCompleted | ResumeFailed
| ForkClaimed | ForkCompleted | ForkRetried | ForkFailed
| ProvisionCompleted | ProvisionFailed
| ParentSnapshotFailed.

Definition legal_from (a : LifecycleAction) : list SandboxState :=
  match a with
  | StopRequested => STOP_LEGAL_FROM
  | StopCompleted => STOP_COMPLETED_LEGAL_FROM
  | ResumeRequested => RESUME_LEGAL_FROM
  | ResumeCompleted => RESUME_COMPLETED_LEGAL_FROM
  | ResumeFailed => RESUME_FAILED_LEGAL_FROM
  | ForkClaimed => FORK_CLAIMED_LEGAL_FROM
  | ForkCompleted => FORK_COMPLETED_LEGAL_FROM
  | ForkRetried => FORK_RETRIED_LEGAL_FROM
  | ForkFailed => FORK_FAILED_LEGAL_FROM
  | ProvisionCompleted => PROVISION_COMPLETED_LEGAL_FROM
  | ProvisionFailed => PROVISION_FAILED_LEGAL_FROM
  | ParentSnapshotFailed => SNAPSHOT_FAILED_CHILD_LEGAL_FROM
  end.

Definition action_target (a : LifecycleAction) : SandboxState :=
  match a with
  | StopRequested => Archiving
  | StopCompleted | ResumeFailed => Archived
  | ResumeRequested | ForkClaimed => Provisioning
  | ResumeCompleted | ForkCompleted | ProvisionCompleted => Ready
  | ForkRetried => Planning
  | ForkFailed | ProvisionFailed | ParentSnapshotFailed => Error
  end.

(** A compare-and-swap by one action. *)
Inductive lifecycle_step : SandboxState -> LifecycleAction -> SandboxState -> Prop :=
| lifecycle_cas s a : s ∈ legal_from a -> lifecycle_step s a (action_target a).

Definition lifecycle_edge (s t : SandboxState) : Prop := exists a, lifecycle_step s a t.

(** ** Lemmas *)

Lemma contains_spec l s : contains l s = true <-> s ∈ l.
Proof.
  unfold contains. rewrite existsb_exists. setoid_rewrite bool_decide_eq_true.
  rewrite list_elem_of_In. naive_solver.
Qed.

Lemma SandboxState_ALL_complete s : s ∈ SandboxState_ALL.
Proof. destruct s; simpl; set_solver. Qed.

Lemma can_transition_to_edge s t : can_transition_to s t = true <-> lifecycle_edge s t.
Proof.
  split.
  - unfold can_transition_to. intros H.
    repeat (apply orb_true_iff in H as [H|H]);
      apply andb_true_iff in H as [Hin%contains_spec ->%bool_decide_eq_true];
      match type of Hin with
      | _ ∈ STOP_LEGAL_FROM => exists StopRequested
      | _ ∈ STOP_COMPLETED_LEGAL_FROM => exists StopCompleted
      | _ ∈ FORK_CLAIMED_LEGAL_FROM => exists ForkClaimed
      | _ ∈ FORK_COMPLETED_LEGAL_FROM => exists ForkCompleted
      | _ ∈ FORK_RETRIED_LEGAL_FROM => exists ForkRetried
      | _ ∈ FORK_FAILED_LEGAL_FROM => exists ForkFailed
      | _ ∈ PROVISION_COMPLETED_LEGAL_FROM => exists ProvisionCompleted
      | _ ∈ PROVISION_FAILED_LEGAL_FROM => exists ProvisionFailed
      | _ ∈ SNAPSHOT_FAILED_CHILD_LEGAL_FROM => exists ParentSnapshotFailed
      | _ ∈ RESUME_LEGAL_FROM => exists ResumeRequested
      | _ ∈ RESUME_COMPLETED_LEGAL_FROM => exists ResumeCompleted
      | _ ∈ RESUME_FAILED_LEGAL_FROM => exists ResumeFailed
      end; by apply lifecycle_cas.
  - intros [a [s' a' Hin]]. apply contains_spec in Hin.
    destruct a'; simpl in *; revert Hin; destruct s'; vm_compute; done.
Qed.

Lemma legal_predecessors_spec s t : s ∈ legal_predecessors t <-> can_transition_to s t = true.
Proof.
  unfold legal_predecessors. rewrite list_elem_of_In, filter_In, <- list_elem_of_In.
  split; [tauto | split; [apply SandboxState_ALL_complete | done]].
Qed.

Lemma transition_pairs_spec old new :
  (old, new) ∈ sandbox_legal_transition_pairs <->
  exists s t, can_transition_to s t = true /\ old = as_db_str s /\ new = as_db_str t.
Proof.
  unfold sandbox_legal_transition_pairs.
  rewrite list_elem_of_In, in_flat_map. setoid_rewrite in_flat_map. split.
  - intros (s & _ & t & _ & Hin). destruct (can_transition_to s t) eqn:E; [|done].
    destruct Hin as [[= <- <-]|[]]. eauto.
  - intros (s & t & E & -> & ->). exists s. split; [apply list_elem_of_In, SandboxState_ALL_complete|].
    exists t. split; [apply list_elem_of_In, SandboxState_ALL_complete|]. rewrite E. by left.
Qed.

Lemma transition_guard_admits_spec old new :
  transition_guard_admits old new = true <-> (old, new) ∈ sandbox_legal_transition_pairs.
Proof.
  unfold transition_guard_admits. rewrite existsb_exists, list_elem_of_In.
  split.
  - intros ([a b] & Hin & Heq). simpl in Heq. bool_to_prop. by subst.
  - intros Hin. exists (old, new). by rewrite !String.eqb_refl.
Qed.

Lemma guard_admits_states (s t : SandboxState) :
  transition_guard_admits (as_db_str s) (as_db_str t) = true <-> can_transition_to s t = true.
Proof.
  rewrite transition_guard_admits_spec, transition_pairs_spec. split; [|by eauto].
  intros (s' & t' & E & Hs & Ht). by rewrite (as_db_str_inj _ _ Hs), (as_db_str_inj _ _ Ht).
Qed.

(** ** Properties *)

(** The database backstop trigger and the action-level machine agree:
    an update of a sandbox row from state [s] to state [t] passes the trigger
    exactly when some lifecycle action may legally move a sandbox from [s] to
    [t].  So no legal compare-and-swap is ever rejected by the database, and
    every illegal write is. *)
Theorem trigger_admits_exactly_lifecycle_edges (s t : SandboxState) :
  transition_guard_admits (as_db_str s) (as_db_str t) = true <-> lifecycle_edge s t.
Proof. by rewrite guard_admits_states, can_transition_to_edge. Qed.

(** The transition table of the documentation of [can_transition_to]. *)
Definition documented_edges : list (SandboxState * SandboxState) :=
  [ (Planning, Provisioning); (Planning, Ready); (Planning, Error); (Planning, Archiving);
    (Provisioning, Ready); (Provisioning, Planning); (Provisioning, Error);
    (Provisioning, Archiving); (Provisioning, Archived);
    (Ready, Ready); (Ready, Archiving);
    (Running, Ready); (Running, Archiving);
    (Idle, Ready); (Idle, Archiving);
    (Archiving, Archived); (Archived, Provisioning);
    (Error, Ready); (Error, Archiving) ].

Lemma documented_edges_exact s t : can_transition_to s t = bool_decide ((s, t) ∈ documented_edges).
Proof. destruct s, t; vm_compute; reflexivity. Qed.

(** ** Reachability *)

(** Reachable by any sequence of lifecycle actions. *)
Definition lifecycle_reach : SandboxState -> SandboxState -> Prop := rtc lifecycle_edge.

Lemma edge_of_can s t : can_transition_to s t = true -> lifecycle_edge s t.
Proof. apply can_transition_to_edge. Qed.

(** The action on the way out of a stopped sandbox: provider teardown first,
    then an explicit snapshot-backed resume. *)
Lemma stopped_exit s a t :
  lifecycle_step s a t ->
  (s = Archiving -> a = StopCompleted /\ t = Archived) /\
  (s = Archived -> a = ResumeRequested /\ t = Provisioning).
Proof.
  intros [s' a' Hin]. split; intros ->; destruct a'; simpl in *;
    apply contains_spec in Hin; revert Hin; vm_compute; done.
Qed.

(** A trace of actions. *)
Inductive lifecycle_trace : SandboxState -> list LifecycleAction -> SandboxState -> Prop :=
| trace_nil s : lifecycle_trace s [] s
| trace_cons s a t tr u :
    lifecycle_step s a t -> lifecycle_trace t tr u -> lifecycle_trace s (a :: tr) u.

(** An archived sandbox is never resurrected by a late job: on every
    sequence of lifecycle actions that starts in [archiving] or [archived] and
    ends in a state in which the sandbox is not stopped, a snapshot-backed
    resume request occurs.  Provision, fork and resume completions that land
    after the stop cannot leave the stopped states on their own. *)
Theorem no_resurrection_without_resume s tr t :
  lifecycle_trace s tr t ->
  s = Archiving \/ s = Archived ->
  t <> Archiving -> t <> Archived ->
  ResumeRequested ∈ tr.
Proof.
  induction 1 as [s|s a t tr u Hstep Htr IH]; intros Hs Hn1 Hn2; [naive_solver|].
  destruct (stopped_exit _ _ _ Hstep) as [H1 H2]. destruct Hs as [->| ->].
  - destruct H1 as [-> ->]; [done|]. right. by apply IH; [right|..].
  - destruct H2 as [-> ->]; [done|]. left.
Qed.

Lemma no_resurrection_without_resume_witness :
  ResumeRequested ∈ [StopCompleted; ResumeRequested; ProvisionFailed].
Proof.
  apply (no_resurrection_without_resume Archiving _ Error); [| by left | done | done].
  econstructor; [apply (lifecycle_cas Archiving StopCompleted); vm_compute; constructor|].
  econstructor; [apply (lifecycle_cas Archived ResumeRequested); vm_compute; constructor|].
  econstructor; [apply (lifecycle_cas Provisioning ProvisionFailed); vm_compute|].
  { right; left. }
  constructor.
Defined.

(** Every sandbox, from whatever state, can be driven to [archived] by
    user stop and provider confirmation (no state is stuck), and a home mount
    is reclaimable exactly in the two states that hold no provider resources:
    [archived] and [error]. *)
Theorem archived_always_reachable (s : SandboxState) :
  lifecycle_reach s Archived /\
  (is_home_mount_reclaimable s = true <-> s = Archived \/ s = Error).
Proof.
  split; [|destruct s; simpl; naive_solver].
  destruct (decide (s = Archived)) as [->|Hna]; [constructor|].
  destruct (decide (s = Archiving)) as [->|Hni].
  - apply rtc_once, edge_of_can. reflexivity.
  - apply rtc_l with Archiving; [|apply rtc_once]; apply edge_of_can; [|reflexivity].
    destruct s; try reflexivity; done.
Qed.
