(* ===== verification/BootstrapStore.v ===== *)
(** * The resident bootstrap store

    [ResidentBootstrapStore] of [crates/sandboxwich-api/src/state.rs]: the
    process-local, bounded table of resident-process bootstraps, with the two
    RAII guards that hold capacity ([ResidentBootstrapReservation]) and bytes
    ([ResidentBootstrapDelivery]).  Every method takes the mutex for its whole
    body, so a method is one atomic transition of [Inner]; concurrency is the
    interleaving of such transitions, the step relation [sys_step] below, in
    which the outstanding guards are part of the state and are either
    consumed or dropped.

    A method that can panic (an [expect], or an unsigned subtraction below
    zero) returns [None] for the panic. *)

From S2P Require Import Prelude.

(** ** Data *)

Abbreviation ResidentProcessId := N.
Abbreviation Uuid := N.

Record SterileResidentActivationV1 := {
  sa_lease_id : Uuid;
  sa_generation : Z;
  sa_organization_id : string;
  sa_workspace_id : string;
  sa_thread_id : string;
  sa_runner_session_id : string;
  sa_lease_attestation : string;
}.

Record LiveResidentBootstrap := {
  lb_tenant_id : string;
  lb_content : list N;
  lb_sha256 : string;
  lb_target_file : string;
  lb_mode : Z;
  lb_generation : Z;
  lb_sterile_activation : option SterileResidentActivationV1;
}.

Record ResidentBootstrapFence := {
  bf_generation : Z;
  bf_lease_id : Uuid;
  bf_sha256 : string;
}.

#[global] Instance ResidentBootstrapFence_eq_dec : EqDecision ResidentBootstrapFence.
Proof. solve_decision. Defined.

Inductive ResidentBootstrapEntry : Type :=
| Ready (bootstrap : LiveResidentBootstrap)
| InFlight (tenant_id : string) (fence : ResidentBootstrapFence) (acknowledged : bool)
| Delivered (bootstrap : LiveResidentBootstrap) (fence : ResidentBootstrapFence).

Definition entry_tenant_id (e : ResidentBootstrapEntry) : string :=
  match e with
  | Ready b | Delivered b _ => lb_tenant_id b
  | InFlight t _ _ => t
  end.

Definition entry_generation (e : ResidentBootstrapEntry) : Z :=
  match e with
  | Ready b | Delivered b _ => lb_generation b
  | InFlight _ f _ => bf_generation f
  end.

Record Inner := {
  values : gmap ResidentProcessId ResidentBootstrapEntry;
  reserved : nat;
  reserved_by_tenant : gmap string nat;
  capacity : nat;
}.

Definition set_values (f : gmap ResidentProcessId ResidentBootstrapEntry ->
    gmap ResidentProcessId ResidentBootstrapEntry) (st : Inner) : Inner :=
  {| values := f (values st); reserved := reserved st;
     reserved_by_tenant := reserved_by_tenant st; capacity := capacity st |}.

Inductive ResidentBootstrapReserveError : Set := Capacity | StaleGeneration.
Inductive ResidentBootstrapDeliveryError : Set := Unavailable | DeliveryInFlight | FenceMismatch.

Record ResidentBootstrapReservation := { res_bootstrap : option LiveResidentBootstrap }.

Record ResidentBootstrapDelivery := {
  del_id : ResidentProcessId;
  del_fence : ResidentBootstrapFence;
  del_bootstrap : option LiveResidentBootstrap;
  del_restore_as_delivered : bool;
}.

Definition with_capacity (cap : nat) : Inner :=
  {| values := ∅; reserved := 0; reserved_by_tenant := ∅; capacity := cap |}.

(** ** Admission *)

Definition rehydrate (st : Inner) (id : ResidentProcessId) (b : LiveResidentBootstrap)
    (delivered_fence : option ResidentBootstrapFence) : result Inner unit :=
  match values st !! id with
  | Some _ => Ok st
  | None =>
      if (capacity st <=? size (values st) + reserved st)%nat then Err tt
      else
        let entry := match delivered_fence with
                     | Some fence => Delivered b fence
                     | None => Ready b
                     end in
        Ok (set_values <[id := entry]> st)
  end.

Definition tenant_entries (st : Inner) (tenant : string) (skip : option ResidentProcessId) : nat :=
  size (filter (fun kv : ResidentProcessId * ResidentBootstrapEntry =>
                  entry_tenant_id kv.2 = tenant /\ skip <> Some kv.1) (values st)).

Definition tenant_reservations (st : Inner) (tenant : string) : nat :=
  default 0 (reserved_by_tenant st !! tenant).

Definition per_tenant_capacity (st : Inner) : nat := Nat.max (Nat.div (capacity st) 2) 1.

(** Whether a replacement displaces a live entry, or is stale. *)
Definition replaces_local_entry (st : Inner) (b : LiveResidentBootstrap)
    (replacement : option (ResidentProcessId * Z)) : result bool ResidentBootstrapReserveError :=
  match replacement with
  | Some (id, expected_generation) =>
      match values st !! id with
      | Some entry =>
          if bool_decide (entry_generation entry = expected_generation)
             && bool_decide (entry_tenant_id entry = lb_tenant_id b)
          then Ok true else Err StaleGeneration
      | None => Ok false
      end
  | None => Ok false
  end.

Definition reserve_inner (st : Inner) (b : LiveResidentBootstrap)
    (replacement : option (ResidentProcessId * Z)) :
    result (Inner * ResidentBootstrapReservation) ResidentBootstrapReserveError :=
  match replaces_local_entry st b replacement with
  | Err e => Err e
  | Ok replaces =>
      if (capacity st <=? size (values st) + reserved st - (if replaces then 1 else 0))%nat
      then Err Capacity
      else
        let skip := if replaces then fst <$> replacement else None in
        if (per_tenant_capacity st <=?
              tenant_entries st (lb_tenant_id b) skip + tenant_reservations st (lb_tenant_id b))%nat
        then Err Capacity
        else
          Ok ({| values := values st;
                 reserved := S (reserved st);
                 reserved_by_tenant :=
                   <[lb_tenant_id b := S (tenant_reservations st (lb_tenant_id b))]>
                     (reserved_by_tenant st);
                 capacity := capacity st |},
              {| res_bootstrap := Some b |})
  end.

Definition reserve (st : Inner) (b : LiveResidentBootstrap) :=
  reserve_inner st b None.

Definition reserve_replacement (st : Inner) (b : LiveResidentBootstrap)
    (id : ResidentProcessId) (expected_generation : Z) :=
  reserve_inner st b (Some (id, expected_generation)).

(** ** Reservations: publication and [Drop] *)

(** The accounting both exits of a reservation share: one slot less in total
    and for the tenant, whose counter disappears at zero. *)
Definition release_slot (st : Inner) (tenant : string) : option Inner :=
  match reserved st, reserved_by_tenant st !! tenant with
  | S r, Some (S n) =>
      Some {| values := values st; reserved := r;
              reserved_by_tenant :=
                if (n =? 0)%nat then delete tenant (reserved_by_tenant st)
                else <[tenant := n]> (reserved_by_tenant st);
              capacity := capacity st |}
  | _, _ => None
  end.

Definition publish_inner (st : Inner) (r : ResidentBootstrapReservation)
    (id : ResidentProcessId) (replaced_generation : option Z) :
    option (Inner * ResidentBootstrapReservation * result unit unit) :=
  match res_bootstrap r with
  | None => None
  | Some b =>
      match release_slot st (lb_tenant_id b) with
      | None => None
      | Some st' =>
          let taken := {| res_bootstrap := None |} in
          match values st' !! id, replaced_generation with
          | Some previous, Some expected =>
              if bool_decide (entry_generation previous = expected)
              then Some (set_values <[id := Ready b]> st', taken, Ok tt)
              else Some (st', taken, Err tt)
          | Some _, None => Some (st', taken, Err tt)
          | None, _ => Some (set_values <[id := Ready b]> st', taken, Ok tt)
          end
      end
  end.

Definition drop_reservation (st : Inner) (r : ResidentBootstrapReservation) : option Inner :=
  match res_bootstrap r with
  | Some b => release_slot st (lb_tenant_id b)
  | None => Some st
  end.

(** [publish] and [publish_replacement] consume the guard: its [Drop] runs
    when they return. *)
Definition publish_and_drop (st : Inner) (r : ResidentBootstrapReservation)
    (id : ResidentProcessId) (replaced_generation : option Z) : option (Inner * result unit unit) :=
  match publish_inner st r id replaced_generation with
  | None => None
  | Some (st', r', res) =>
      match drop_reservation st' r' with
      | None => None
      | Some st'' => Some (st'', res)
      end
  end.

Definition publish st r id := publish_and_drop st r id None.
Definition publish_replacement st r id expected_generation :=
  publish_and_drop st r id (Some expected_generation).

(** ** Delivery *)

Definition begin_delivery (st : Inner) (id : ResidentProcessId) (fence : ResidentBootstrapFence) :
    Inner * result ResidentBootstrapDelivery ResidentBootstrapDeliveryError :=
  match values st !! id with
  | None => (st, Err Unavailable)
  | Some entry =>
      let removed := set_values (delete id) st in
      let start b restore :=
        (set_values <[id := InFlight (lb_tenant_id b) fence false]> removed,
         Ok {| del_id := id; del_fence := fence; del_bootstrap := Some b;
               del_restore_as_delivered := restore |}) in
      match entry with
      | Ready b => start b false
      | Delivered b delivered_fence =>
          if bool_decide (delivered_fence = fence) then start b true
          else (set_values <[id := Delivered b delivered_fence]> removed, Err FenceMismatch)
      | InFlight t f ack => (set_values <[id := InFlight t f ack]> removed, Err DeliveryInFlight)
      end
  end.

Definition acknowledge (st : Inner) (id : ResidentProcessId) (fence : ResidentBootstrapFence) :
    Inner * bool :=
  match values st !! id with
  | Some (Delivered _ f) =>
      if bool_decide (f = fence) then (set_values (delete id) st, true) else (st, false)
  | Some (InFlight t f _) =>
      if bool_decide (f = fence) then (set_values <[id := InFlight t f true]> st, true)
      else (st, false)
  | _ => (st, false)
  end.

Definition reclaim (st : Inner) (id : ResidentProcessId) (generation : Z) (sha256 : string)
    (fence : option ResidentBootstrapFence) : Inner * bool :=
  let should_remove :=
    match values st !! id with
    | Some (Ready b) =>
        bool_decide (lb_generation b = generation) && bool_decide (lb_sha256 b = sha256)
    | Some (Delivered _ f) => bool_decide (fence = Some f)
    | _ => false
    end in
  if should_remove then (set_values (delete id) st, true)
  else match values st !! id with
       | Some (InFlight t f _) =>
           if bool_decide (fence = Some f) then (set_values <[id := InFlight t f true]> st, true)
           else (st, false)
       | _ => (st, false)
       end.

Definition discard_generation (st : Inner) (id : ResidentProcessId) (generation : Z) : Inner * bool :=
  match values st !! id with
  | Some entry =>
      if bool_decide (entry_generation entry = generation) then (set_values (delete id) st, true)
      else (st, false)
  | None => (st, false)
  end.

(** The entry is this delivery's own in-flight marker; [Some ack] then. *)
Definition exact_delivery (st : Inner) (d : ResidentBootstrapDelivery) : option bool :=
  match values st !! del_id d with
  | Some (InFlight _ f ack) => if bool_decide (f = del_fence d) then Some ack else None
  | _ => None
  end.

Definition take_delivery (d : ResidentBootstrapDelivery) : ResidentBootstrapDelivery :=
  {| del_id := del_id d; del_fence := del_fence d; del_bootstrap := None;
     del_restore_as_delivered := del_restore_as_delivered d |}.

Definition drop_delivery (st : Inner) (d : ResidentBootstrapDelivery) : Inner :=
  match del_bootstrap d with
  | None => st
  | Some b =>
      match exact_delivery st d with
      | None => st
      | Some true => set_values (delete (del_id d)) st
      | Some false =>
          let restored := if del_restore_as_delivered d then Delivered b (del_fence d) else Ready b in
          set_values <[del_id d := restored]> (set_values (delete (del_id d)) st)
      end
  end.

(** Consumes the guard; [None] is the panic on an already completed one. *)
Definition mark_delivered (st : Inner) (d : ResidentBootstrapDelivery) :
    option (Inner * result LiveResidentBootstrap ResidentBootstrapDeliveryError) :=
  match del_bootstrap d with
  | None => None
  | Some b =>
      let '(st', res) :=
        match exact_delivery st d with
        | None => (st, Err Unavailable)
        | Some true => (set_values (delete (del_id d)) st, Err Unavailable)
        | Some false =>
            (set_values <[del_id d := Delivered b (del_fence d)]>
               (set_values (delete (del_id d)) st), Ok b)
        end in
      Some (drop_delivery st' (take_delivery d), res)
  end.

(** ** The store with its outstanding guards

    [held] maps each outstanding reservation to its bytes and, for one made by
    [reserve_replacement], to the entry it is meant to displace;
    [in_flight] holds the outstanding deliveries.  The handlers publish a
    replacement reservation only for the process it was reserved for
    ([put_resident_process]); a plain reservation may be published either
    way. *)

Record Sys := {
  store : Inner;
  held : gmap nat (LiveResidentBootstrap * option (ResidentProcessId * Z));
  in_flight : gmap nat ResidentBootstrapDelivery;
}.

Definition reservation_of (x : LiveResidentBootstrap * option (ResidentProcessId * Z)) :
    ResidentBootstrapReservation := {| res_bootstrap := Some x.1 |}.

(** Whether the handlers may publish reservation [x] under [id] and [g]. *)
Definition publish_allowed (x : LiveResidentBootstrap * option (ResidentProcessId * Z))
    (id : ResidentProcessId) (g : option Z) : Prop :=
  match x.2 with
  | Some (rid, rg) => id = rid /\ g = Some rg
  | None => True
  end.

(** The operations on entries that hold no guard. *)
Inductive entry_op : Set :=
| OpAcknowledge (id : ResidentProcessId) (f : ResidentBootstrapFence)
| OpReclaim (id : ResidentProcessId) (g : Z) (sha : string) (f : option ResidentBootstrapFence)
| OpDiscard (id : ResidentProcessId) (g : Z).

Definition run_entry_op (st : Inner) (o : entry_op) : Inner :=
  match o with
  | OpAcknowledge id f => (acknowledge st id f).1
  | OpReclaim id g sha f => (reclaim st id g sha f).1
  | OpDiscard id g => (discard_generation st id g).1
  end.

(** Steps that admit content under an id are labelled with it. *)
Inductive sys_label : Set := LAdmit (id : ResidentProcessId) | LOther.

Inductive sys_step : Sys -> sys_label -> Sys -> Prop :=
| step_reserve s h b rep st' r :
    held s !! h = None ->
    reserve_inner (store s) b rep = Ok (st', r) ->
    sys_step s LOther
      {| store := st'; held := <[h := (b, rep)]> (held s); in_flight := in_flight s |}
| step_publish s h x id g st' res :
    held s !! h = Some x ->
    publish_allowed x id g ->
    publish_and_drop (store s) (reservation_of x) id g = Some (st', res) ->
    sys_step s (LAdmit id)
      {| store := st'; held := delete h (held s); in_flight := in_flight s |}
| step_drop_reservation s h x st' :
    held s !! h = Some x ->
    drop_reservation (store s) (reservation_of x) = Some st' ->
    sys_step s LOther
      {| store := st'; held := delete h (held s); in_flight := in_flight s |}
| step_rehydrate s id b f st' :
    rehydrate (store s) id b f = Ok st' ->
    sys_step s (LAdmit id) {| store := st'; held := held s; in_flight := in_flight s |}
| step_begin s h id f st' d :
    in_flight s !! h = None ->
    begin_delivery (store s) id f = (st', Ok d) ->
    sys_step s LOther
      {| store := st'; held := held s; in_flight := <[h := d]> (in_flight s) |}
| step_mark s h d st' res :
    in_flight s !! h = Some d ->
    mark_delivered (store s) d = Some (st', res) ->
    sys_step s LOther {| store := st'; held := held s; in_flight := delete h (in_flight s) |}
| step_drop_delivery s h d :
    in_flight s !! h = Some d ->
    sys_step s LOther {| store := drop_delivery (store s) d; held := held s;
                         in_flight := delete h (in_flight s) |}
| step_entry s o :
    sys_step s LOther
      {| store := run_entry_op (store s) o; held := held s; in_flight := in_flight s |}.

Definition any_step (s s' : Sys) : Prop := exists l, sys_step s l s'.

(** A step that does not admit content under [id]. *)
Definition quiet_step (id : ResidentProcessId) (s s' : Sys) : Prop :=
  exists l, sys_step s l s' /\ l <> LAdmit id.

Definition sys_init (cap : nat) : Sys :=
  {| store := with_capacity cap; held := ∅; in_flight := ∅ |}.

Definition sys_reachable (cap : nat) (s : Sys) : Prop := rtc any_step (sys_init cap) s.

(** *** The invariant *)

Definition held_by (t : string) (x : LiveResidentBootstrap * option (ResidentProcessId * Z)) : Prop :=
  lb_tenant_id x.1 = t.

#[global] Instance held_by_dec t x : Decision (held_by t x).
Proof. unfold held_by. apply _. Defined.

Definition held_count (hs : gmap nat (LiveResidentBootstrap * option (ResidentProcessId * Z)))
    (t : string) : nat :=
  size (filter (fun kv : nat * _ => held_by t kv.2) hs).

(** A reservation outstanding for an entry that is still in the table: the
    one slot by which the total may exceed the capacity. *)
Definition overbooked (s : Sys) : Prop :=
  exists h b id g, held s !! h = Some (b, Some (id, g)) /\ is_Some (values (store s) !! id).

Record sys_inv (cap : nat) (s : Sys) : Prop := {
  inv_capacity : capacity (store s) = cap;
  inv_reserved : reserved (store s) = size (held s);
  inv_tenants : forall t, reserved_by_tenant (store s) !! t =
    (if (held_count (held s) t =? 0)%nat then None else Some (held_count (held s) t));
  inv_total :
    size (values (store s)) + reserved (store s) <= cap \/
    (size (values (store s)) + reserved (store s) = S cap /\ overbooked s);
  inv_deliveries : forall h d, in_flight s !! h = Some d -> is_Some (del_bootstrap d);
}.

(** **** Counting lemmas *)

Lemma held_count_insert hs h x t :
  hs !! h = None ->
  held_count (<[h := x]> hs) t =
    (if bool_decide (held_by t x) then S (held_count hs t) else held_count hs t).
Proof.
  intros Hh. unfold held_count. case_bool_decide as Hx.
  - rewrite map_filter_insert_True by done. apply map_size_insert_None.
    rewrite map_lookup_filter_None. by left.
  - rewrite map_filter_insert_False by done. by rewrite delete_id.
Qed.

Lemma held_count_delete hs h x t :
  hs !! h = Some x ->
  held_count hs t =
    (if bool_decide (held_by t x) then S (held_count (delete h hs) t)
     else held_count (delete h hs) t).
Proof.
  intros Hh. rewrite <- (held_count_insert _ h x t) by apply lookup_delete_eq.
  by rewrite insert_delete_id.
Qed.

(** **** Operations that neither add an entry nor touch the accounting *)

(** [shrinks st st']: same accounting, no new key. *)
Definition shrinks (st st' : Inner) : Prop :=
  reserved st' = reserved st /\ reserved_by_tenant st' = reserved_by_tenant st /\
  capacity st' = capacity st /\
  (dom (values st') = dom (values st) \/
   exists id, is_Some (values st !! id) /\ dom (values st') = dom (values st) ∖ {[id]}).

Lemma shrinks_refl st : shrinks st st.
Proof. repeat split; by left. Qed.

Lemma shrinks_delete st id x :
  values st !! id = Some x -> shrinks st (set_values (delete id) st).
Proof.
  intros E. repeat split. right. exists id. split; [by eauto|]. simpl. by rewrite dom_delete_L.
Qed.

Lemma shrinks_insert st id x e :
  values st !! id = Some x -> shrinks st (set_values <[id := e]> st).
Proof.
  intros E. repeat split. left. simpl. rewrite dom_insert_L.
  apply elem_of_dom_2 in E. set_solver.
Qed.

Lemma set_values_delete_insert st id e :
  set_values <[id := e]> (set_values (delete id) st) = set_values <[id := e]> st.
Proof. unfold set_values; simpl. by rewrite insert_delete_eq. Qed.

Lemma set_values_same st id e : values st !! id = Some e -> set_values <[id := e]> st = st.
Proof. intros E. unfold set_values. rewrite insert_id by done. by destruct st. Qed.

#[export] Hint Resolve shrinks_refl shrinks_delete shrinks_insert : sbw.

Lemma exact_delivery_some st d ack :
  exact_delivery st d = Some ack ->
  exists t, values st !! del_id d = Some (InFlight t (del_fence d) ack).
Proof. unfold exact_delivery. intros. split_matches; subst; eauto. Qed.

Lemma drop_delivery_shrinks st d : shrinks st (drop_delivery st d).
Proof.
  unfold drop_delivery. destruct (del_bootstrap d); [|by auto with sbw].
  destruct (exact_delivery st d) as [ack|] eqn:E; [|by auto with sbw].
  apply exact_delivery_some in E as [t E].
  destruct ack; [|rewrite set_values_delete_insert]; eauto with sbw.
Qed.

Lemma take_delivery_drop st d : drop_delivery st (take_delivery d) = st.
Proof. reflexivity. Qed.

Lemma mark_delivered_cases st d st' res :
  mark_delivered st d = Some (st', res) ->
  exists b, del_bootstrap d = Some b /\
    ((exact_delivery st d = None /\ st' = st /\ res = Err Unavailable) \/
     (exact_delivery st d = Some true /\ st' = set_values (delete (del_id d)) st /\
      res = Err Unavailable) \/
     (exact_delivery st d = Some false /\
      st' = set_values <[del_id d := Delivered b (del_fence d)]> st /\ res = Ok b)).
Proof.
  unfold mark_delivered. destruct (del_bootstrap d) as [b|]; [|done].
  intros H. exists b. split; [done|].
  destruct (exact_delivery st d) as [[]|]; simplify_eq/=; try rewrite take_delivery_drop;
    try rewrite set_values_delete_insert; naive_solver.
Qed.

Lemma mark_delivered_shrinks st d st' res :
  mark_delivered st d = Some (st', res) -> shrinks st st'.
Proof.
  intros (b & Hb & [(E & -> & _)|[(E & -> & _)|(E & -> & _)]])%mark_delivered_cases;
    [by auto with sbw|..]; apply exact_delivery_some in E as [t E]; eauto with sbw.
Qed.

Lemma begin_delivery_cases st id f st' res :
  begin_delivery st id f = (st', res) ->
  (exists e, res = Err e /\ st' = st) \/
  (exists b r, (values st !! id = Some (Ready b) /\ r = false \/
                values st !! id = Some (Delivered b f) /\ r = true) /\
     st' = set_values <[id := InFlight (lb_tenant_id b) f false]> st /\
     res = Ok {| del_id := id; del_fence := f; del_bootstrap := Some b;
                 del_restore_as_delivered := r |}).
Proof.
  unfold begin_delivery. intros H.
  repeat (case_match; simplify_eq/=; bool_to_prop);
    rewrite ?set_values_delete_insert; rewrite ?set_values_same by done;
    first [by left; eauto | right; subst; eauto 10].
Qed.

Lemma begin_delivery_shrinks st id f st' res :
  begin_delivery st id f = (st', res) -> shrinks st st'.
Proof.
  intros [(e & _ & ->)|(b & r & E & -> & _)]%begin_delivery_cases; [by auto with sbw|].
  destruct E as [[E _]|[E _]]; eauto with sbw.
Qed.

Lemma run_entry_op_shrinks st o : shrinks st (run_entry_op st o).
Proof.
  destruct o; simpl; unfold acknowledge, reclaim, discard_generation;
    repeat (case_match; simplify_eq/=; bool_to_prop); eauto with sbw.
Qed.

(** **** Preservation *)

Lemma shrinks_size st st' :
  shrinks st st' ->
  (size (values st') = size (values st) /\ dom (values st') = dom (values st)) \/
  S (size (values st')) = size (values st).
Proof.
  intros (_ & _ & _ & [Hd|(id & [x Hx] & Hd)]).
  - left. by rewrite <- !size_dom, Hd.
  - right. rewrite <- (size_dom (values st')), Hd, <- dom_delete_L, size_dom.
    symmetry. by eapply size_delete_present.
Qed.

Lemma inv_shrinks cap s st' fl :
  sys_inv cap s -> shrinks (store s) st' ->
  (forall h d, fl !! h = Some d -> is_Some (del_bootstrap d)) ->
  sys_inv cap {| store := st'; held := held s; in_flight := fl |}.
Proof.
  intros [Hc Hr Ht Htot _] Hsh Hfl.
  pose proof (shrinks_size _ _ Hsh) as Hsize. destruct Hsh as (Er & Et & Ec & _).
  split; simpl; [congruence|congruence|intros t; rewrite Et; apply Ht| |done].
  rewrite Er. destruct Hsize as [[Hs Hd]|Hs], Htot as [Htot|[Htot Ho]]; try (left; lia).
  right. split; [lia|]. destruct Ho as (h & b & id & g & Hh & Hin).
  exists h, b, id, g. split; [done|]. simpl. apply elem_of_dom. rewrite Hd. by apply elem_of_dom.
Qed.

Lemma inv_release cap s h x :
  sys_inv cap s -> held s !! h = Some x ->
  exists st', release_slot (store s) (lb_tenant_id x.1) = Some st' /\
    values st' = values (store s) /\ capacity st' = cap /\
    S (reserved st') = reserved (store s) /\
    reserved st' = size (delete h (held s)) /\
    (forall t, reserved_by_tenant st' !! t =
      (if (held_count (delete h (held s)) t =? 0)%nat then None
       else Some (held_count (delete h (held s)) t))).
Proof.
  intros [Hc Hr Ht _ _] Hh.
  pose proof (size_delete_present _ _ _ Hh) as Hsz.
  pose proof (held_count_delete _ _ _ (lb_tenant_id x.1) Hh) as Hcnt.
  rewrite bool_decide_eq_true_2 in Hcnt by done.
  unfold release_slot. rewrite Hr, Hsz. rewrite Ht, Hcnt. simpl. eexists. split; [done|].
  simpl. repeat split; [done|].
  intros t. destruct (decide (t = lb_tenant_id x.1)) as [->|Hne].
  - destruct (held_count (delete h (held s)) (lb_tenant_id x.1)) eqn:E; simpl.
    + apply lookup_delete_eq.
    + apply lookup_insert_eq.
  - specialize (Ht t).
    rewrite (held_count_delete _ _ _ t Hh), bool_decide_eq_false_2 in Ht
      by (unfold held_by; congruence).
    destruct (held_count (delete h (held s)) (lb_tenant_id x.1) =? 0);
      rewrite ?lookup_delete_ne, ?lookup_insert_ne by done; apply Ht.
Qed.

Lemma publish_and_drop_cases st x id g st' res :
  publish_and_drop st (reservation_of x) id g = Some (st', res) ->
  exists st1, release_slot st (lb_tenant_id x.1) = Some st1 /\
    ((values st1 !! id = None \/
      exists e, values st1 !! id = Some e /\ g = Some (entry_generation e)) /\
     st' = set_values <[id := Ready x.1]> st1 /\ res = Ok tt \/
     is_Some (values st1 !! id) /\ st' = st1 /\ res = Err tt).
Proof.
  unfold publish_and_drop, publish_inner; simpl.
  destruct (release_slot st _) as [st1|] eqn:E; [|done].
  intros H. exists st1. split; [done|].
  destruct (values st1 !! id) as [e|] eqn:Ev; [destruct g as [g|]|]; simplify_eq/=;
    [|by right; eauto | left; by eauto].
  case_bool_decide; simplify_eq/=; [left | right]; split; eauto.
Qed.

Lemma inv_reserve cap s h b rep st' r :
  sys_inv cap s -> held s !! h = None -> reserve_inner (store s) b rep = Ok (st', r) ->
  sys_inv cap {| store := st'; held := <[h := (b, rep)]> (held s); in_flight := in_flight s |}.
Proof.
  intros [Hc Hr Ht Htot Hfl] Hh. unfold reserve_inner.
  destruct (replaces_local_entry _ _ _) as [replaces|] eqn:Erep; [|done].
  destruct (_ <=? _ - _)%nat eqn:Ecap; [done|]. destruct (_ <=? _ + _)%nat; [done|].
  intros [= <- <-]. apply Nat.leb_gt in Ecap. rewrite Hc in Ecap. split; simpl; [done| | | |done].
  - by rewrite map_size_insert_None, Hr.
  - intros t. rewrite held_count_insert by done.
    unfold tenant_reservations. destruct (decide (lb_tenant_id b = t)) as [<-|Hne].
    + rewrite lookup_insert_eq, bool_decide_eq_true_2 by done. rewrite Ht.
      by destruct (held_count (held s) (lb_tenant_id b)).
    + rewrite lookup_insert_ne, bool_decide_eq_false_2 by done. apply Ht.
  - unfold replaces_local_entry in Erep. split_matches; try (left; lia).
    destruct (decide (S (size (values (store s)) + reserved (store s)) <= capacity (store s))); [left; lia|].
    right. split; [lia|]. repeat eexists; [simpl; apply lookup_insert_eq | by simpl; eauto].
Qed.

Lemma inv_publish cap s h x id g st' res :
  sys_inv cap s -> held s !! h = Some x -> publish_allowed x id g ->
  publish_and_drop (store s) (reservation_of x) id g = Some (st', res) ->
  sys_inv cap {| store := st'; held := delete h (held s); in_flight := in_flight s |}.
Proof.
  intros Hinv Hh Hal (st1 & Hrel & Hcase)%publish_and_drop_cases.
  destruct (inv_release cap s h x Hinv Hh) as (st1' & Hrel' & Hv & Hc & Hr & Hr' & Ht').
  rewrite Hrel in Hrel'. simplify_eq. destruct Hinv as [_ _ _ Htot Hfl].
  destruct Hcase as [(Hid & -> & _)|(Hid & -> & _)]; (split; simpl; [done|done|done| |done]);
    rewrite Hv in *; [|left; lia].
  destruct Hid as [Hid|(e & Hid & ->)].
  - rewrite map_size_insert_None by done. destruct Htot as [Htot|[Htot Ho]]; [left; lia|].
    destruct Ho as (h0 & b0 & id0 & g0 & Hh0 & [e0 He0]). right. split; [lia|].
    assert (h0 <> h /\ id0 <> id) as [Hneh Hneid].
    { split; [|naive_solver]. intros ->. rewrite Hh in Hh0. simplify_eq/=.
      destruct Hal as [<- _]. by rewrite Hid in He0. }
    exists h0, b0, id0, g0. simpl. rewrite lookup_delete_ne, lookup_insert_ne, Hv by done. eauto.
  - rewrite (size_insert_present _ _ _ _ Hid). left. lia.
Qed.

Lemma inv_preserved cap s s' : sys_inv cap s -> any_step s s' -> sys_inv cap s'.
Proof.
  intros Hinv [l Hstep]. pose proof (inv_deliveries _ _ Hinv) as Hfl.
  destruct Hstep as
    [s h b rep st' r Hh Hres | s h x id g st' res Hh Hal Hpub | s h x st' Hh Hdrop
    | s id b f st' Hre | s h id f st' d Hh Hbeg | s h d st' res Hh Hm | s h d Hh | s o].
  - by eapply inv_reserve.
  - by eapply inv_publish.
  - destruct (inv_release cap s h x Hinv Hh) as (st1' & Hrel' & Hv & Hc & Hr & Hr' & Ht').
    unfold drop_reservation in Hdrop. simpl in Hdrop. rewrite Hrel' in Hdrop. simplify_eq.
    destruct Hinv as [_ _ _ Htot _]. split; simpl; [done|done|done| |done].
    rewrite Hv. left. lia.
  - unfold rehydrate in Hre. destruct (values (store s) !! id) eqn:E; simplify_eq.
    { by destruct Hinv. }
    destruct (_ <=? _)%nat eqn:Ecap; simplify_eq. apply Nat.leb_gt in Ecap.
    destruct Hinv as [Hc Hr Ht Htot _].
    split; simpl; [done|done|done| |done]. rewrite map_size_insert_None by done. left. lia.
  - eapply inv_shrinks; [done|by eapply begin_delivery_shrinks|].
    intros h' d'. rewrite lookup_insert_Some. intros [[_ <-]|[_ ?]]; [|by eauto].
    apply begin_delivery_cases in Hbeg as [(e & ? & _)|(b & r & _ & _ & ?)]; simplify_eq/=. eauto.
  - eapply inv_shrinks; [done|by eapply mark_delivered_shrinks|].
    intros h' d' [_ ?]%lookup_delete_Some. eauto.
  - eapply inv_shrinks; [done|by apply drop_delivery_shrinks|].
    intros h' d' [_ ?]%lookup_delete_Some. eauto.
  - eapply inv_shrinks; [done|by apply run_entry_op_shrinks|done].
Qed.

Lemma inv_init cap : sys_inv cap (sys_init cap).
Proof.
  split; simpl; [done|by rewrite map_size_empty| |left; rewrite map_size_empty; lia|].
  - intros t. unfold held_count. rewrite map_filter_empty, map_size_empty. apply lookup_empty.
  - intros h d Hd. by rewrite lookup_empty in Hd.
Qed.

Lemma reachable_inv cap s : sys_reachable cap s -> sys_inv cap s.
Proof.
  unfold sys_reachable. generalize (inv_init cap). generalize (sys_init cap).
  induction 2; eauto using inv_preserved.
Qed.

(** ** Properties of the store *)

(** C39.  Bounded admission under every interleaving: whatever sequence of
    reservations, publications, guard drops, rehydrations, deliveries,
    acknowledgements, reclaims and discards the API process runs, the table
    never holds more bootstraps than the configured capacity, and entries and
    outstanding reservations together exceed it by at most the one slot a
    replacement shares with the live entry it displaces. *)
Theorem store_is_bounded cap s :
  sys_reachable cap s ->
  size (values (store s)) <= cap /\
  size (values (store s)) + reserved (store s) <= S cap.
Proof.
  intros H%reachable_inv. destruct H as [_ Hr _ Htot _].
  destruct Htot as [Htot|[Htot (h & b & id & g & Hh & _)]]; [lia|].
  apply size_delete_present in Hh. lia.
Qed.

(** No guard ever panics: in every reachable state each outstanding
    reservation can be published (under any process id) and dropped, and each
    outstanding delivery can be completed: no unsigned counter underflows and
    no tenant counter is missing. *)
Theorem guards_never_panic cap s :
  sys_reachable cap s ->
  (forall h x id g, held s !! h = Some x ->
     is_Some (publish_and_drop (store s) (reservation_of x) id g) /\
     is_Some (drop_reservation (store s) (reservation_of x))) /\
  (forall h d, in_flight s !! h = Some d -> is_Some (mark_delivered (store s) d)).
Proof.
  intros Hinv%reachable_inv. split.
  - intros h x id g Hh. destruct (inv_release _ _ _ _ Hinv Hh) as (st1 & Hrel & _).
    unfold publish_and_drop, publish_inner, drop_reservation. simpl. rewrite Hrel.
    split; [|by eauto]. repeat case_match; simplify_eq/=; eauto.
  - intros h d Hd. apply (inv_deliveries _ _ Hinv) in Hd as [b Hb].
    unfold mark_delivered. rewrite Hb. repeat case_match; eauto.
Qed.

(** Guards return exactly what they took: when no reservation is
    outstanding the counters are back to zero for every tenant, so a dropped
    or failed admission never leaks capacity. *)
Theorem reservations_never_leak cap s :
  sys_reachable cap s ->
  reserved (store s) = size (held s) /\
  (held s = ∅ -> reserved (store s) = 0 /\ reserved_by_tenant (store s) = ∅).
Proof.
  intros Hinv%reachable_inv. destruct Hinv as [_ Hr Ht _ _]. split; [done|].
  intros He. rewrite He in *. split; [by rewrite Hr, map_size_empty|].
  apply map_eq. intros t. rewrite Ht, lookup_empty. unfold held_count.
  by rewrite map_filter_empty, map_size_empty.
Qed.

(** ** The delivery protocol *)

(** How the entry of one id can move in a step that admits nothing under it. *)
Inductive entry_move (s : Sys) (id : ResidentProcessId) :
    option ResidentBootstrapEntry -> option ResidentBootstrapEntry -> Prop :=
| move_same e : entry_move s id e e
| move_gone e : entry_move s id (Some e) None
| move_begin_ready b f : entry_move s id (Some (Ready b)) (Some (InFlight (lb_tenant_id b) f false))
| move_begin_again b f :
    entry_move s id (Some (Delivered b f)) (Some (InFlight (lb_tenant_id b) f false))
| move_ack t f a : entry_move s id (Some (InFlight t f a)) (Some (InFlight t f true))
| move_deliver t f b : entry_move s id (Some (InFlight t f false)) (Some (Delivered b f))
| move_restore t b h d :
    in_flight s !! h = Some d -> del_id d = id -> del_restore_as_delivered d = false ->
    entry_move s id (Some (InFlight t (del_fence d) false)) (Some (Ready b)).

Lemma mark_entry_move s h d st' res id :
  in_flight s !! h = Some d -> mark_delivered (store s) d = Some (st', res) ->
  entry_move s id (values (store s) !! id) (values st' !! id).
Proof.
  intros Hd (b & Hb & [(E & -> & _)|[(E & -> & _)|(E & -> & _)]])%mark_delivered_cases;
    [constructor|..]; apply exact_delivery_some in E as [t E]; simpl;
    (destruct (decide (del_id d = id)) as [<-|Hne];
     [rewrite E, ?lookup_delete_eq, ?lookup_insert_eq
     |rewrite ?lookup_delete_ne, ?lookup_insert_ne by done; constructor]); constructor.
Qed.

Lemma drop_entry_move s h d id :
  in_flight s !! h = Some d ->
  entry_move s id (values (store s) !! id) (values (drop_delivery (store s) d) !! id).
Proof.
  intros Hd. unfold drop_delivery. destruct (del_bootstrap d) as [b|]; [|constructor].
  destruct (exact_delivery (store s) d) as [ack|] eqn:E; [|constructor].
  apply exact_delivery_some in E as [t E].
  destruct (decide (del_id d = id)) as [<-|Hne];
    [|destruct ack; simpl; rewrite ?lookup_insert_ne, ?lookup_delete_ne by done; constructor].
  destruct ack; simpl; rewrite E, ?lookup_insert_eq, ?lookup_delete_eq; [constructor|].
  destruct (del_restore_as_delivered d) eqn:Er; [constructor | by eapply move_restore].
Qed.

Lemma op_entry_move s o id :
  entry_move s id (values (store s) !! id) (values (run_entry_op (store s) o) !! id).
Proof.
  destruct o as [i f|i g sha f|i g]; simpl; unfold acknowledge, reclaim, discard_generation;
    (destruct (decide (i = id)) as [->|Hne];
     [|repeat case_match; simpl; rewrite ?lookup_insert_ne, ?lookup_delete_ne by done; constructor]);
    destruct (values (store s) !! id) as [[]|] eqn:E; repeat case_bool_decide; simpl;
    rewrite ?lookup_insert_eq, ?lookup_delete_eq, ?E; try constructor;
    repeat case_match; simpl; rewrite ?lookup_delete_eq, ?E; constructor.
Qed.

Lemma quiet_entry_move id s s' :
  quiet_step id s s' -> entry_move s id (values (store s) !! id) (values (store s') !! id).
Proof.
  intros (l & Hstep & Hl). destruct Hstep as
    [s h b rep st' r Hh Hres | s h x i g st' res Hh Hal Hpub | s h x st' Hh Hdrop
    | s i b f st' Hre | s h i f st' d Hh Hbeg | s h d st' res Hh Hm | s h d Hh | s o]; simpl.
  - unfold reserve_inner in Hres. split_matches; constructor.
  - assert (i <> id) by congruence.
    apply publish_and_drop_cases in Hpub as (st1 & Hrel & Hc).
    assert (values st1 = values (store s)) as Hv.
    { unfold release_slot in Hrel. split_matches; done. }
    destruct Hc as [(_ & -> & _)|(_ & -> & _)]; simpl; rewrite Hv;
      rewrite ?lookup_insert_ne by done; constructor.
  - unfold drop_reservation, release_slot in Hdrop. simpl in Hdrop. split_matches; constructor.
  - assert (i <> id) by congruence. unfold rehydrate in Hre.
    split_matches; rewrite ?lookup_insert_ne by done; constructor.
  - apply begin_delivery_cases in Hbeg as [(e & ? & ?)|(b & r & E & -> & _)]; [by simplify_eq|].
    simpl. destruct (decide (i = id)) as [->|]; [|rewrite lookup_insert_ne by done; constructor].
    rewrite lookup_insert_eq. destruct E as [[-> _]|[-> _]]; constructor.
  - by eapply mark_entry_move.
  - by eapply drop_entry_move.
  - apply op_entry_move.
Qed.

(** New deliveries of an id start from its current entry. *)
Lemma quiet_new_delivery id s s' h d :
  quiet_step id s s' -> in_flight s' !! h = Some d -> del_id d = id ->
  in_flight s !! h = Some d \/
  (exists b, values (store s) !! id = Some (Ready b)) \/
  (exists b, values (store s) !! id = Some (Delivered b (del_fence d)) /\
             del_restore_as_delivered d = true).
Proof.
  intros (l & Hstep & _) Hd Hid. destruct Hstep; simpl in *; auto.
  - rewrite lookup_insert_Some in Hd. destruct Hd as [[<- <-]|[_ ?]]; [|by auto].
    match goal with H : begin_delivery _ _ _ = _ |- _ => apply begin_delivery_cases in H end.
    naive_solver.
  - apply lookup_delete_Some in Hd as [_ ?]; auto.
  - apply lookup_delete_Some in Hd as [_ ?]; auto.
Qed.

(** The bootstrap of [id] is bound to fence [F]: its entry is delivered or in
    flight under [F], or gone, and no outstanding delivery under [F] would
    put it back as undelivered. *)
Definition bound_to (id : ResidentProcessId) (F : ResidentBootstrapFence) (s : Sys) : Prop :=
  match values (store s) !! id with
  | Some (Ready _) => False
  | Some (InFlight _ f _) | Some (Delivered _ f) => f = F
  | None => True
  end /\
  (forall h d, in_flight s !! h = Some d -> del_id d = id -> del_fence d = F ->
     del_restore_as_delivered d = true).

Lemma bound_to_quiet id F s s' : bound_to id F s -> quiet_step id s s' -> bound_to id F s'.
Proof.
  intros [He Hd] Hq. split.
  - pose proof (quiet_entry_move _ _ _ Hq) as Hm.
    destruct Hm as [e|e|b f|b f|t f a|t f b|t b h d Hh Hid Hr]; try done; [].
    by rewrite (Hd h d) in Hr.
  - intros h d Hh Hid Hf.
    destruct (quiet_new_delivery _ _ _ _ _ Hq Hh Hid) as [?|[[b E]|[b [_ ?]]]]; eauto.
    by rewrite E in He.
Qed.

Lemma bound_to_refuses id F s F' :
  bound_to id F s -> F' <> F ->
  (exists e, begin_delivery (store s) id F' = (store s, Err e)) /\
  (forall d b, del_id d = id -> del_fence d = F' -> del_bootstrap d = Some b ->
     mark_delivered (store s) d = Some (store s, Err Unavailable)).
Proof.
  intros [He _] Hne. split.
  - destruct (begin_delivery (store s) id F') as [st' res] eqn:E.
    apply begin_delivery_cases in E as [(e & -> & ->)|(b & r & [[E _]|[E _]] & _)]; [by eauto|..];
      rewrite E in He; naive_solver.
  - intros d b Hid Hf Hb. unfold mark_delivered, exact_delivery. rewrite Hb, Hid.
    destruct (values (store s) !! id) as [[]|]; try done.
    rewrite bool_decide_eq_false_2 by congruence. done.
Qed.

(** The delivery fence is sticky: once a bootstrap is delivered under a
    fence [F] (and no other delivery under [F] that would restore it as
    undelivered is outstanding), then until new content is admitted under the
    same process id no interleaving of the store's operations lets it be read
    under a different generation, lease or digest: every attempt to begin a
    delivery under another fence fails and leaves the store unchanged, and so
    does completing an outstanding delivery that holds another fence. *)
Theorem delivered_fence_is_sticky id b F s s' F' :
  values (store s) !! id = Some (Delivered b F) ->
  (forall h d, in_flight s !! h = Some d -> del_id d = id -> del_fence d = F ->
     del_restore_as_delivered d = true) ->
  rtc (quiet_step id) s s' ->
  F' <> F ->
  (exists e, begin_delivery (store s') id F' = (store s', Err e)) /\
  (forall d b', del_id d = id -> del_fence d = F' -> del_bootstrap d = Some b' ->
     mark_delivered (store s') d = Some (store s', Err Unavailable)).
Proof.
  intros He Hd Hrtc. apply bound_to_refuses.
  assert (bound_to id F s) as Hb by (split; [by rewrite He | done]).
  clear He Hd. induction Hrtc; eauto using bound_to_quiet.
Qed.

(** The bootstrap of [id] was acknowledged: gone, or in flight and only
    waiting for its delivery to end. *)
Definition acknowledged_gone (id : ResidentProcessId) (s : Sys) : Prop :=
  match values (store s) !! id with
  | None => True
  | Some (InFlight _ _ a) => a = true
  | _ => False
  end.

Lemma acknowledged_gone_quiet id s s' :
  acknowledged_gone id s -> quiet_step id s s' -> acknowledged_gone id s'.
Proof.
  unfold acknowledged_gone. intros He Hq. pose proof (quiet_entry_move _ _ _ Hq) as Hm.
  by destruct Hm.
Qed.

(** Acknowledgement is final: after an [acknowledge] that matched the
    entry, and until new content is admitted under the same process id, no
    interleaving of the store's operations hands the bytes out again: every
    [begin_delivery] fails, whatever its fence, and completing any outstanding
    delivery of the process returns [Unavailable]. *)
Theorem acknowledged_bootstrap_is_never_redelivered id F st1 s s' :
  acknowledge (store s) id F = (st1, true) ->
  rtc (quiet_step id)
    {| store := st1; held := held s; in_flight := in_flight s |} s' ->
  (forall F', exists e, begin_delivery (store s') id F' = (store s', Err e)) /\
  (forall d b, del_id d = id -> del_bootstrap d = Some b ->
     exists st2, mark_delivered (store s') d = Some (st2, Err Unavailable)).
Proof.
  intros Hack Hrtc. assert (acknowledged_gone id s') as Hg.
  { assert (acknowledged_gone id {| store := st1; held := held s; in_flight := in_flight s |}) as H0.
    { unfold acknowledge, acknowledged_gone in *. simpl. split_matches;
        rewrite ?lookup_delete_eq, ?lookup_insert_eq in *; simplify_eq; done. }
    clear Hack. induction Hrtc; eauto using acknowledged_gone_quiet. }
  unfold acknowledged_gone in Hg. split.
  - intros F'. destruct (begin_delivery (store s') id F') as [st' res] eqn:E.
    apply begin_delivery_cases in E as [(e & -> & ->)|(b & r & [[E _]|[E _]] & _)]; [by eauto|..];
      by rewrite E in Hg.
  - intros d b Hid Hb. unfold mark_delivered, exact_delivery. rewrite Hb, Hid.
    destruct (values (store s') !! id) as [[]|]; try done; [|by eauto].
    subst. case_bool_decide; eauto.
Qed.

(** ** Admission fairness *)

(** Fair shares: a plain reservation is admitted exactly when the store
    has a free slot and the tenant's entries and reservations stay below its
    share, half the capacity (at least one slot).  So a tenant at its share
    is refused even when slots are free, and a tenant that holds nothing is
    admitted whenever one is. *)
Theorem reserve_admits_exactly_fair_share st b :
  is_ok (reserve st b) = true <->
  size (values st) + reserved st < capacity st /\
  tenant_entries st (lb_tenant_id b) None + tenant_reservations st (lb_tenant_id b)
    < Nat.max (Nat.div (capacity st) 2) 1.
Proof.
  unfold reserve, reserve_inner, replaces_local_entry, per_tenant_capacity. simpl.
  rewrite Nat.sub_0_r. repeat case_match; bool_to_prop; simpl; split; intros; (done || lia || naive_solver lia).
Qed.

(** ** Witnesses *)

Definition sample_bootstrap : LiveResidentBootstrap :=
  {| lb_tenant_id := "acme"; lb_content := [1%N; 2%N]; lb_sha256 := "d1";
     lb_target_file := "/run/sandboxwich/bootstrap/t"; lb_mode := 256; lb_generation := 1;
     lb_sterile_activation := None |}.

Definition sample_fence : ResidentBootstrapFence :=
  {| bf_generation := 1; bf_lease_id := 7; bf_sha256 := "d1" |}.

Definition sample_reserved : Sys :=
  {| store := {| values := ∅; reserved := 1; reserved_by_tenant := {["acme" := 1]}; capacity := 2 |};
     held := {[0 := (sample_bootstrap, None)]}; in_flight := ∅ |}.

Definition sample_ready : Sys :=
  {| store := {| values := {[5%N := Ready sample_bootstrap]}; reserved := 0;
                 reserved_by_tenant := ∅; capacity := 2 |};
     held := ∅; in_flight := ∅ |}.

Lemma sample_reserved_reachable : sys_reachable 2 sample_reserved.
Proof.
  apply rtc_once. exists LOther.
  exact (step_reserve (sys_init 2) 0 sample_bootstrap None (store sample_reserved) _ eq_refl eq_refl).
Qed.

Lemma sample_ready_reachable : sys_reachable 2 sample_ready.
Proof.
  eapply rtc_r; [apply sample_reserved_reachable|]. exists (LAdmit 5%N).
  exact (step_publish sample_reserved 0 (sample_bootstrap, None) 5%N None (store sample_ready) _
           eq_refl I eq_refl).
Qed.

Lemma store_is_bounded_witness : size (values (store sample_ready)) <= 2.
Proof. apply (store_is_bounded 2 sample_ready sample_ready_reachable). Defined.

Lemma guards_never_panic_witness :
  is_Some (publish_and_drop (store sample_reserved) (reservation_of (sample_bootstrap, None)) 5%N None).
Proof.
  apply (proj1 (guards_never_panic 2 sample_reserved sample_reserved_reachable) 0). reflexivity.
Defined.

Lemma reservations_never_leak_witness : reserved_by_tenant (store sample_ready) = ∅.
Proof.
  apply (proj2 (reservations_never_leak 2 sample_ready sample_ready_reachable)). reflexivity.
Defined.

Definition sample_delivered : Sys :=
  {| store := {| values := {[5%N := Delivered sample_bootstrap sample_fence]}; reserved := 0;
                 reserved_by_tenant := ∅; capacity := 2 |};
     held := ∅; in_flight := ∅ |}.

Lemma delivered_fence_is_sticky_witness :
  exists e, begin_delivery (store sample_delivered) 5%N
    {| bf_generation := 2; bf_lease_id := 8; bf_sha256 := "d2" |} = (store sample_delivered, Err e).
Proof.
  apply (delivered_fence_is_sticky 5%N sample_bootstrap sample_fence sample_delivered).
  - reflexivity.
  - intros h d Hd. simpl in Hd. by rewrite lookup_empty in Hd.
  - constructor.
  - done.
Defined.

Lemma acknowledged_bootstrap_is_never_redelivered_witness :
  exists e, begin_delivery (with_capacity 2) 5%N sample_fence = (with_capacity 2, Err e).
Proof.
  refine (proj1 (acknowledged_bootstrap_is_never_redelivered 5%N sample_fence (with_capacity 2)
    sample_delivered {| store := with_capacity 2; held := ∅; in_flight := ∅ |} _ _) sample_fence).
  - reflexivity.
  - constructor.
Defined.
