(* ===== verification/LifecycleContract.v ===== *)
(** * The lifecycle contract

    The closed set of reason codes a provider error may carry, the
    disposition the published contract gives each, the classification of the
    sandbox states, and the reading of a provider error's code and class.

    Sources: [sandboxwich-core/src/lifecycle_contract.rs] and
    [sandboxwich-api/src/error.rs]. *)

From S2P Require Import Prelude CoreTypes SandboxLifecycle.
From Stdlib Require Import Ascii.

Inductive LifecycleDisposition : Set :=
| RetrySameGeneration
| QueueSameGeneration
| TerminalSameGeneration.

#[global] Instance LifecycleDisposition_eq_dec : EqDecision LifecycleDisposition.
Proof. solve_decision. Defined.

Inductive SandboxStateDisposition : Set :=
| PendingState
| ActiveState
| TerminalState.

#[global] Instance SandboxStateDisposition_eq_dec : EqDecision SandboxStateDisposition.
Proof. solve_decision. Defined.

Inductive LifecycleReasonCode : Set :=
| ProviderTransient
| KubernetesProviderTransient
| WorkspaceCapacityPending
| ResourceContractConflict
| RuntimeClassBoundaryUnverified
| KubernetesPolicyDenied
| KubernetesContractInvalid
| PodUnschedulable
| ResourceObservationMissing
| ResourceObservationInvalid
| ResourceIdentityConflict
| ResourceIdentityMissing
| PlacementAttestationPending
| PlacementAttestationNotFound
| PlacementAttestationNotLive
| ResidentMaterializationPending
| WorkspaceCapacityExhausted
| IdentityExchangeFailed
| ResidentMaterializationFailed
| MaestroWorkloadStaleGeneration.

#[global] Instance LifecycleReasonCode_eq_dec : EqDecision LifecycleReasonCode.
Proof. solve_decision. Defined.

Definition reason_as_str (c : LifecycleReasonCode) : string :=
  match c with
  | ProviderTransient => "provider_transient"
  | KubernetesProviderTransient => "kubernetes_provider_transient"
  | WorkspaceCapacityPending => "workspace_capacity_pending"
  | ResourceContractConflict => "resource_contract_conflict"
  | RuntimeClassBoundaryUnverified => "runtime_class_boundary_unverified"
  | KubernetesPolicyDenied => "kubernetes_policy_denied"
  | KubernetesContractInvalid => "kubernetes_contract_invalid"
  | PodUnschedulable => "pod_unschedulable"
  | ResourceObservationMissing => "resource_observation_missing"
  | ResourceObservationInvalid => "resource_observation_invalid"
  | ResourceIdentityConflict => "resource_identity_conflict"
  | ResourceIdentityMissing => "resource_identity_missing"
  | PlacementAttestationPending => "placement_attestation_pending"
  | PlacementAttestationNotFound => "placement_attestation_not_found"
  | PlacementAttestationNotLive => "placement_attestation_not_live"
  | ResidentMaterializationPending => "resident_materialization_pending"
  | WorkspaceCapacityExhausted => "workspace_capacity_exhausted"
  | IdentityExchangeFailed => "identity_exchange_failed"
  | ResidentMaterializationFailed => "resident_materialization_failed"
  | MaestroWorkloadStaleGeneration => "maestro_workload_stale_generation"
  end.

Definition LIFECYCLE_REASON_CODES : list LifecycleReasonCode :=
  [ProviderTransient; KubernetesProviderTransient; WorkspaceCapacityPending; ResourceContractConflict; RuntimeClassBoundaryUnverified; KubernetesPolicyDenied; KubernetesContractInvalid; PodUnschedulable; ResourceObservationMissing; ResourceObservationInvalid; ResourceIdentityConflict; ResourceIdentityMissing; PlacementAttestationPending; PlacementAttestationNotFound; PlacementAttestationNotLive; ResidentMaterializationPending; WorkspaceCapacityExhausted; IdentityExchangeFailed; ResidentMaterializationFailed; MaestroWorkloadStaleGeneration].

(** [LifecycleReasonCode::parse]. *)
Definition parse_reason (value : string) : option LifecycleReasonCode :=
  find (fun code => String.eqb (reason_as_str code) value) LIFECYCLE_REASON_CODES.

Definition default_provisioning_error_class (c : LifecycleReasonCode) : ProvisioningErrorClass :=
  match c with
  | WorkspaceCapacityPending => ProvisioningErrorClass.RetryableCapacity
  | ProviderTransient | KubernetesProviderTransient | ResourceObservationMissing
  | ResourceObservationInvalid | ResourceIdentityMissing =>
      ProvisioningErrorClass.RetryableProvider
  | KubernetesPolicyDenied | RuntimeClassBoundaryUnverified =>
      ProvisioningErrorClass.TerminalSecurity
  | _ => ProvisioningErrorClass.TerminalContract
  end.

Definition allows_provisioning_error_class (c : LifecycleReasonCode) (class : ProvisioningErrorClass) :
    bool :=
  bool_decide (class = default_provisioning_error_class c)
  || (bool_decide (c = ResourceContractConflict)
      && bool_decide (class = ProvisioningErrorClass.TerminalSecurity)).

Definition LIFECYCLE_OUTCOMES : list (string * LifecycleDisposition) :=
  [(reason_as_str ProviderTransient, RetrySameGeneration);
   (reason_as_str KubernetesProviderTransient, RetrySameGeneration);
   (reason_as_str WorkspaceCapacityPending, QueueSameGeneration);
   (reason_as_str ResourceObservationMissing, RetrySameGeneration);
   (reason_as_str PlacementAttestationPending, RetrySameGeneration);
   (reason_as_str PlacementAttestationNotLive, RetrySameGeneration);
   (reason_as_str ResidentMaterializationPending, RetrySameGeneration);
   (reason_as_str ResourceContractConflict, TerminalSameGeneration);
   (reason_as_str RuntimeClassBoundaryUnverified, TerminalSameGeneration);
   (reason_as_str KubernetesPolicyDenied, TerminalSameGeneration);
   (reason_as_str KubernetesContractInvalid, TerminalSameGeneration);
   (reason_as_str PodUnschedulable, TerminalSameGeneration);
   (reason_as_str ResourceObservationInvalid, TerminalSameGeneration);
   (reason_as_str ResourceIdentityConflict, TerminalSameGeneration);
   (reason_as_str ResourceIdentityMissing, TerminalSameGeneration);
   (reason_as_str PlacementAttestationNotFound, TerminalSameGeneration);
   (reason_as_str WorkspaceCapacityExhausted, TerminalSameGeneration);
   (reason_as_str IdentityExchangeFailed, TerminalSameGeneration);
   (reason_as_str ResidentMaterializationFailed, TerminalSameGeneration);
   (reason_as_str MaestroWorkloadStaleGeneration, TerminalSameGeneration)].

Definition SANDBOX_STATES : list (string * SandboxStateDisposition) :=
  [("planning", PendingState);
   ("provisioning", PendingState);
   ("ready", ActiveState);
   ("running", ActiveState);
   ("idle", ActiveState);
   ("archiving", TerminalState);
   ("archived", TerminalState);
   ("error", TerminalState)].

(** ** Provider errors: ["code: message"] *)

(** [str::split_once(':')], the part before. *)
Fixpoint before_colon (s : string) : option string :=
  match s with
  | EmptyString => None
  | String a s' =>
      if Ascii.eqb a ":"%char then Some EmptyString else String a <$> before_colon s'
  end.

Definition is_code_byte (a : Ascii.ascii) : bool :=
  let n := Ascii.N_of_ascii a in is_ascii_lowercase n || is_ascii_digit n || Ascii.eqb a "_"%char.

Definition all_bytes (p : Ascii.ascii -> bool) (s : string) : bool :=
  forallb p (String.list_ascii_of_string s).

Definition provisioning_error_class_for_code (code : option string) :
    option ProvisioningErrorClass :=
  match code with
  | None => None
  | Some c =>
      if String.eqb c "resource_quota" then Some ProvisioningErrorClass.RetryableCapacity
      else default_provisioning_error_class <$> parse_reason c
  end.

Definition provider_error_fields (error : string) :
    option ProvisioningErrorClass * option string :=
  let code :=
    match before_colon error with
    | Some c =>
        let c := trim c in
        if negb (String.eqb c "") && all_bytes is_code_byte c then Some c else None
    | None => None
    end in
  (provisioning_error_class_for_code code, code).

(** ** Properties *)

Lemma parse_reason_as_str c : parse_reason (reason_as_str c) = Some c.
Proof. by destruct c. Qed.

Lemma parse_reason_sound v c : parse_reason v = Some c -> reason_as_str c = v.
Proof.
  unfold parse_reason. intros E%find_some. destruct E as [_ E]. by apply String.eqb_eq.
Qed.

Definition disposition_of (c : LifecycleReasonCode) : option LifecycleDisposition :=
  snd <$> find (fun o => String.eqb o.1 (reason_as_str c)) LIFECYCLE_OUTCOMES.

Definition is_retryable (class : ProvisioningErrorClass) : bool :=
  match class with
  | ProvisioningErrorClass.RetryableProvider | ProvisioningErrorClass.RetryableCapacity => true
  | _ => false
  end.

(** The lifecycle contract is complete and errors are classified by it.
    Every reason code parses back from its published name and nothing else
    parses; every code is exported exactly once and every sandbox state is
    classified; and an error ["<code>: <message>"] is read as that code with
    that code's class, whatever the message says. *)
Theorem lifecycle_codes_classify_errors :
  (forall v c, parse_reason v = Some c <-> v = reason_as_str c) /\
  (NoDup LIFECYCLE_OUTCOMES.*1 /\
     forall v, v ∈ LIFECYCLE_OUTCOMES.*1 <-> exists c, v = reason_as_str c) /\
  SANDBOX_STATES.*1 = VALUES SandboxState /\
  (forall c message,
     provider_error_fields (reason_as_str c ++ ":" ++ message) =
     (Some (default_provisioning_error_class c), Some (reason_as_str c))).
Proof.
  split_and!.
  - intros v c. split; [intros E; symmetry; by apply parse_reason_sound | intros ->].
    apply parse_reason_as_str.
  - apply (bool_decide_unpack _). vm_compute. exact I.
  - intros v. split.
    + intros Hv. assert (Hall : Forall (fun v => v ∈ reason_as_str <$> LIFECYCLE_REASON_CODES)
                                  LIFECYCLE_OUTCOMES.*1)
        by (apply (bool_decide_unpack _); vm_compute; exact I).
      rewrite Forall_forall in Hall. apply Hall, list_elem_of_fmap in Hv as (c & -> & _). eauto.
    + intros [c ->]. apply (bool_decide_unpack _). destruct c; vm_compute; exact I.
  - reflexivity.
  - intros c message. by destruct c.
Qed.

(** The published disposition and the internal error class disagree on
    exactly five codes: three the contract retries are classed terminal, and two it ends
    are classed retryable. *)
Theorem contract_and_class_disagree c :
  (disposition_of c = Some TerminalSameGeneration <->
     is_retryable (default_provisioning_error_class c) = true) <->
  c ∈ [PlacementAttestationPending; PlacementAttestationNotLive; ResidentMaterializationPending;
       ResourceObservationInvalid; ResourceIdentityMissing].
Proof.
  split.
  - intros Hc. apply (bool_decide_unpack _).
    destruct c; vm_compute; try exact I; exfalso; vm_compute in Hc; naive_solver.
  - intros Hc. repeat (apply elem_of_cons in Hc as [->|Hc]; [vm_compute; split; congruence|]).
    by apply not_elem_of_nil in Hc.
Qed.
