(* ===== verification/Json.v ===== *)
(** * JSON values and their canonical form

    [serde_json::Value] as the job payloads, event data and completion
    results carry it, the accessors the handlers use on it, and
    [canonicalize_json] of [handlers/leases.rs], which the completion
    fingerprint is computed from. *)

From S2P Require Import Prelude.
From stdpp Require Import sorting.

(** [serde_json::Number]: an unsigned, a negative or a floating number (by
    its bits). *)
Inductive Number : Type :=
| PosInt (n : Z)
| NegInt (n : Z)
| Float (bits : Z).

(** [serde_json::Value].  An object is the list of its entries in iteration
    order; keys are distinct in every value the library builds (below,
    [json_wf]). *)
Inductive Json : Type :=
| JNull
| JBool (b : bool)
| JNumber (n : Number)
| JString (s : string)
| JArray (values : list Json)
| JObject (entries : list (string * Json)).

#[global] Instance Number_eq_dec : EqDecision Number.
Proof. solve_decision. Defined.

Fixpoint Json_eq_dec_fix (a b : Json) {struct a} : {a = b} + {a <> b}.
Proof.
  destruct a as [|p|p|p|p|p], b as [|q|q|q|q|q]; try (right; discriminate); [by left|..].
  - destruct (decide (p = q)); [left | right]; congruence.
  - destruct (decide (p = q)); [left | right]; congruence.
  - destruct (decide (p = q)); [left | right]; congruence.
  - destruct (List.list_eq_dec Json_eq_dec_fix p q); [left | right]; congruence.
  - assert (D : forall x y : string * Json, {x = y} + {x <> y}).
    { intros [k v] [k' v'].
      destruct (decide (k = k')); [|right; congruence].
      destruct (Json_eq_dec_fix v v'); [left | right]; congruence. }
    destruct (List.list_eq_dec D p q); [left | right]; congruence.
Defined.

#[global] Instance Json_eq_dec : EqDecision Json := Json_eq_dec_fix.

(** Induction with hypotheses for every element of an array and every value
    of an object. *)
Section JsonInd.
Variable P : Json -> Prop.
Hypothesis P_null : P JNull.
Hypothesis P_bool : forall b, P (JBool b).
Hypothesis P_number : forall n, P (JNumber n).
Hypothesis P_string : forall s, P (JString s).
Hypothesis P_array : forall vs, Forall P vs -> P (JArray vs).
Hypothesis P_object : forall es, Forall (fun e => P e.2) es -> P (JObject es).

Fixpoint json_rect_nested (v : Json) : P v :=
  match v with
  | JNull => P_null
  | JBool b => P_bool b
  | JNumber n => P_number n
  | JString s => P_string s
  | JArray vs =>
      P_array vs ((fix go l : Forall P l :=
        match l with
        | [] => Forall_nil_2 P
        | x :: l' => Forall_cons_2 P x l' (json_rect_nested x) (go l')
        end) vs)
  | JObject es =>
      P_object es ((fix go l : Forall (fun e => P e.2) l :=
        match l with
        | [] => Forall_nil_2 _
        | x :: l' => Forall_cons_2 _ x l' (json_rect_nested x.2) (go l')
        end) es)
  end.
End JsonInd.

(** ** Accessors *)

Fixpoint entry_lookup (k : string) (es : list (string * Json)) : option Json :=
  match es with
  | [] => None
  | (k', v) :: es' => if String.eqb k k' then Some v else entry_lookup k es'
  end.

(** [Value::get] with a string index; [value[key]] is this with [Null] as
    default. *)
Definition get (v : Json) (k : string) : option Json :=
  match v with JObject es => entry_lookup k es | _ => None end.

Definition index (v : Json) (k : string) : Json := default JNull (get v k).

Definition as_str (v : Json) : option string :=
  match v with JString s => Some s | _ => None end.

Definition as_u64 (v : Json) : option Z :=
  match v with JNumber (PosInt n) => Some n | _ => None end.

Definition as_object (v : Json) : option (list (string * Json)) :=
  match v with JObject es => Some es | _ => None end.

(** [payload.get(k).and_then(Value::as_str)] and its [as_u64] twin. *)
Definition get_str (v : Json) (k : string) : option string := get v k ≫= as_str.
Definition get_u64 (v : Json) (k : string) : option Z := get v k ≫= as_u64.

(** [Map::insert]: an existing key keeps its place, a new one goes last. *)
Fixpoint object_insert (k : string) (v : Json) (es : list (string * Json)) :
    list (string * Json) :=
  match es with
  | [] => [(k, v)]
  | (k', v') :: es' =>
      if String.eqb k k' then (k', v) :: es' else (k', v') :: object_insert k v es'
  end.

(** ** Canonical form *)

Definition key_le (a b : string * Json) : Prop := String.le a.1 b.1.

#[global] Instance key_le_dec : RelDecision key_le.
Proof. intros a b. unfold key_le. apply _. Defined.

#[global] Instance key_le_trans : Transitive key_le.
Proof. intros a b c H K. unfold key_le in *. by etrans. Qed.

#[global] Instance key_le_total : Total key_le.
Proof. intros a b. unfold key_le. apply (total String.le). Qed.

(** [canonicalize_json]: entries sorted by key, each value canonicalized and
    inserted in that order into the emptied map. *)
Fixpoint canonicalize_json (v : Json) : Json :=
  match v with
  | JObject entries =>
      JObject
        (fold_left (fun object '(key, value) => object_insert key value object)
           (merge_sort key_le (map (fun '(key, value) => (key, canonicalize_json value)) entries))
           [])
  | JArray values => JArray (map canonicalize_json values)
  | _ => v
  end.

(** Every object of the value has distinct keys. *)
Fixpoint json_wf (v : Json) : Prop :=
  match v with
  | JArray vs => Forall id (map json_wf vs)
  | JObject es => NoDup es.*1 /\ Forall id (map (fun '(_, x) => json_wf x) es)
  | _ => True
  end.

(** Equality of JSON values up to the order of object entries. *)
Inductive json_eq : Json -> Json -> Prop :=
| json_eq_null : json_eq JNull JNull
| json_eq_bool b : json_eq (JBool b) (JBool b)
| json_eq_number n : json_eq (JNumber n) (JNumber n)
| json_eq_string s : json_eq (JString s) (JString s)
| json_eq_array l k : Forall2 json_eq l k -> json_eq (JArray l) (JArray k)
| json_eq_object l l' k :
    l ≡ₚ l' -> Forall2 (fun a b => a.1 = b.1 /\ json_eq a.2 b.2) l' k ->
    json_eq (JObject l) (JObject k).

Definition canon_entry (e : string * Json) : string * Json := (e.1, canonicalize_json e.2).

Lemma canonicalize_entries es :
  map (fun '(key, value) => (key, canonicalize_json value)) es = canon_entry <$> es.
Proof. apply map_ext. by intros []. Qed.

Lemma object_insert_fresh k v es : k ∉ es.*1 -> object_insert k v es = es ++ [(k, v)].
Proof.
  induction es as [|[k' v'] es IH]; simpl; [done|].
  intros Hk. destruct (String.eqb_spec k k') as [->|Hne]; [set_solver|].
  by rewrite IH by set_solver.
Qed.

(** Inserting entries with distinct keys in order rebuilds the list. *)
Lemma fold_object_insert es acc :
  NoDup (acc ++ es).*1 ->
  fold_left (fun object '(key, value) => object_insert key value object) es acc = acc ++ es.
Proof.
  revert acc. induction es as [|[k v] es IH]; intros acc Hnd; simpl; [by rewrite app_nil_r|].
  rewrite object_insert_fresh.
  - rewrite IH; by rewrite <- (assoc_L (++)).
  - rewrite fmap_app in Hnd. apply NoDup_app in Hnd as (_ & Hdisj & _).
    intros Hin. apply (Hdisj _ Hin). simpl. left.
Qed.

Lemma canon_keys es : (canon_entry <$> es).*1 = es.*1.
Proof. by rewrite <- list_fmap_compose. Qed.

Lemma canonicalize_object es :
  NoDup es.*1 ->
  canonicalize_json (JObject es) = JObject (merge_sort key_le (canon_entry <$> es)).
Proof.
  intros Hnd. simpl. f_equal. rewrite canonicalize_entries.
  rewrite fold_object_insert; [done|]. simpl.
  rewrite merge_sort_Permutation. by rewrite canon_keys.
Qed.

(** Sorting by key forgets the order of entries with distinct keys. *)
Lemma merge_sort_unique l k :
  NoDup l.*1 -> l ≡ₚ k -> merge_sort key_le l = merge_sort key_le k.
Proof.
  intros Hnd Hp. apply (sorted_perm_unique key_le fst).
  - intros x y Hxy Hyx. by apply (anti_symm String.le).
  - apply (StronglySorted_merge_sort _).
  - apply (StronglySorted_merge_sort _).
  - by rewrite !merge_sort_Permutation.
  - by rewrite merge_sort_Permutation.
Qed.

Lemma json_wf_array vs : json_wf (JArray vs) <-> Forall json_wf vs.
Proof. simpl. by rewrite Forall_fmap. Qed.

Lemma json_wf_object es :
  json_wf (JObject es) <-> NoDup es.*1 /\ Forall (fun e => json_wf e.2) es.
Proof.
  simpl. rewrite Forall_fmap.
  assert (Hf : Forall (id ∘ (fun '(_, x) => json_wf x)) es <-> Forall (fun e => json_wf e.2) es)
    by (apply Forall_iff; by intros []).
  by rewrite Hf.
Qed.

(** Values equal up to entry order have one canonical form. *)
Lemma json_eq_canonicalize a b :
  json_wf a -> json_eq a b -> canonicalize_json a = canonicalize_json b.
Proof.
  revert b. induction a as [|b0|n0|s0|vs IH|es IH] using json_rect_nested; intros b Hwf Heq;
    inversion Heq as [| | | |l k H|l l' k Hp H]; subst; try done.
  - apply json_wf_array in Hwf. simpl. f_equal. clear Heq.
    revert k H. induction vs as [|v vs IHl]; intros k H; inversion H; subst; simpl; [done|].
    inversion IH; inversion Hwf; subst. f_equal; auto.
  - apply json_wf_object in Hwf as [Hnd Hwf].
    assert (Hk : l'.*1 = k.*1).
    { clear -H. induction H as [|[k1 v1] [k2 v2] l1 l2 [Hk _] _ IH]; csimpl in *; [done|]. by rewrite Hk, IH. }
    assert (Hm : canon_entry <$> l' = canon_entry <$> k).
    { clear Heq Hk Hnd. rewrite Hp in IH, Hwf. clear Hp es.
      induction H as [|[] [] ? ? [? ?]]; simpl in *; [done|].
      inversion IH; inversion Hwf; subst. simpl in *. f_equal; [|by auto].
      unfold canon_entry; simpl. f_equal; auto. }
    rewrite !canonicalize_object; [|by rewrite <- Hk, <- Hp|done].
    f_equal. rewrite <- Hm. apply merge_sort_unique; [by rewrite canon_keys|].
    by apply fmap_Permutation.
Qed.

(** Values with one canonical form are equal up to entry order. *)
Lemma canonicalize_json_eq a b :
  json_wf a -> json_wf b -> canonicalize_json a = canonicalize_json b -> json_eq a b.
Proof.
  revert b. induction a as [|b0|n0|s0|vs IH|es IH] using json_rect_nested; intros b Hwa Hwb Heq;
    destruct b as [|?|?|?|ws|fs]; try (simpl in Heq; simplify_eq; by constructor).
  - apply json_wf_array in Hwa, Hwb. simpl in Heq. simplify_eq. constructor.
    revert ws Heq Hwb. induction vs as [|v vs IHl]; intros [|w ws] Heq Hwb;
      simpl in Heq; simplify_eq; constructor; inversion IH; inversion Hwa; inversion Hwb; subst; auto.
  - apply json_wf_object in Hwa as [Hna Hwa]. apply json_wf_object in Hwb as [Hnb Hwb].
    rewrite !canonicalize_object in Heq by done. simplify_eq.
    assert (Hp : canon_entry <$> es ≡ₚ canon_entry <$> fs).
    { rewrite <- (merge_sort_Permutation key_le (canon_entry <$> es)), Heq.
      apply merge_sort_Permutation. }
    symmetry in Hp. apply Permutation_map_inv in Hp as (es' & Hm & Hp).
    apply json_eq_object with es'; [done|].
    rewrite Hp in IH, Hwa. clear Heq Hna Hnb Hp es.
    revert fs Hm Hwb. induction es' as [|[k v] es' IHl]; intros [|[k' v'] fs] Hm Hwb;
      simpl in Hm; simplify_eq; constructor; inversion IH; inversion Hwa; inversion Hwb; subst.
    + simpl in *. unfold canon_entry in *. simpl in *. simplify_eq. auto.
    + auto.
Qed.

Lemma canonicalize_wf a : json_wf a -> json_wf (canonicalize_json a).
Proof.
  induction a as [|b0|n0|s0|vs IH|es IH] using json_rect_nested; intros Hwf; try done.
  - apply json_wf_array in Hwf. simpl canonicalize_json. apply json_wf_array.
    rewrite Forall_forall in IH, Hwf. apply Forall_fmap, Forall_forall. intros v Hv.
    apply IH, Hwf; done.
  - apply json_wf_object in Hwf as [Hnd Hwf]. rewrite canonicalize_object by done.
    apply json_wf_object. rewrite merge_sort_Permutation, canon_keys. split; [done|].
    rewrite Forall_forall in IH, Hwf. apply Forall_fmap, Forall_forall. intros [k v] Hv.
    simpl. apply (IH _ Hv), (Hwf _ Hv).
Qed.

Lemma canonicalize_json_refl a : json_wf a -> json_eq (canonicalize_json a) a.
Proof.
  induction a as [|b0|n0|s0|vs IH|es IH] using json_rect_nested; intros Hwf; try (by constructor).
  - apply json_wf_array in Hwf. simpl. constructor.
    rewrite Forall_forall in IH, Hwf. apply Forall2_fmap_l, Forall2_same_length_lookup.
    split; [done|]. intros i x y Hx Hy. simplify_eq.
    assert (x ∈ vs) by (by eapply list_elem_of_lookup_2). auto.
  - apply json_wf_object in Hwf as [Hnd Hwf]. rewrite canonicalize_object by done.
    apply json_eq_object with (canon_entry <$> es); [apply merge_sort_Permutation|].
    rewrite Forall_forall in IH, Hwf. apply Forall2_fmap_l, Forall2_same_length_lookup.
    split; [done|]. intros i x y Hx Hy. simplify_eq.
    assert (x ∈ es) by (by eapply list_elem_of_lookup_2). simpl. auto.
Qed.

(** Canonicalization decides equality up to key order.  Two well-formed
    JSON values have the same canonical form exactly when they differ only
    in the order of object entries, at any depth; and the canonical form is
    a fixed point of canonicalization, so a stored canonical value hashes to
    the same fingerprint when it is canonicalized again. *)
Theorem canonicalize_json_normalizes a b :
  json_wf a -> json_wf b ->
  (canonicalize_json a = canonicalize_json b <-> json_eq a b) /\
  canonicalize_json (canonicalize_json a) = canonicalize_json a.
Proof.
  intros Ha Hb. split; [split|].
  - by apply canonicalize_json_eq.
  - by apply json_eq_canonicalize.
  - apply json_eq_canonicalize; [by apply canonicalize_wf | by apply canonicalize_json_refl].
Qed.

Definition sample_result (first second : string * Json) : Json :=
  JObject [("kind", JString "run_command"); ("result", JObject [first; second])].

Lemma canonicalize_json_normalizes_witness :
  canonicalize_json (sample_result ("stdout", JString "ok") ("exit_code", JNumber (PosInt 0))) =
  canonicalize_json (sample_result ("exit_code", JNumber (PosInt 0)) ("stdout", JString "ok")) <->
  json_eq (sample_result ("stdout", JString "ok") ("exit_code", JNumber (PosInt 0)))
          (sample_result ("exit_code", JNumber (PosInt 0)) ("stdout", JString "ok")).
Proof.
  apply (canonicalize_json_normalizes
    (sample_result ("stdout", JString "ok") ("exit_code", JNumber (PosInt 0)))
    (sample_result ("exit_code", JNumber (PosInt 0)) ("stdout", JString "ok"))).
  all: unfold sample_result; simpl; rewrite !Forall_cons; repeat split; try done;
    (try apply Forall_nil_2); repeat (constructor; [set_solver|]); try constructor.
Defined.
