(* ===== verification/CompilerCache.v ===== *)
(** * The compiler-cache archive

    A sandbox's compiler cache is captured into a deterministic archive, a
    gzipped tar that also holds the identity it was built under, and later
    restored into a fresh sandbox.  Restoring trusts nothing: the bytes must
    hash to the expected digest, the embedded identity must be the expected
    one, every entry must be a regular file with a normalized relative path
    within the size bounds, and the tree is staged in full before it is
    renamed into place.

    Source: [sandboxwich-agent/src/compiler_cache_archive.rs].  The [tar]
    headers, gzip, SHA-256 and the JSON codec are parameters; the file system
    is a tree. *)

From S2P Require Import Prelude Text Json.

Definition IDENTITY_ENTRY : Text := Eval vm_compute in txt "foam-compiler-cache-identity-v1.json".

Definition IDENTITY_FIELDS : list string :=
  ["schemaVersion"; "host"; "repository"; "sourceTreeSha"; "patchDigest"; "lockfileDigests";
   "compilerIdentity"; "targetTriple"; "buildProfile"; "cargoFeatures"; "executionClass";
   "environmentPolicyDigest"; "namespace"].

Record ArchiveLimits : Type := mkArchiveLimits {
  max_compressed_bytes : Z;
  max_uncompressed_bytes : Z;
  max_entries : nat;
  max_entry_bytes : Z;
  max_identity_bytes : Z
}.

Definition LIMITS : ArchiveLimits :=
  mkArchiveLimits (64 * 1024 * 1024) (64 * 1024 * 1024) (N.to_nat 100000) (48 * 1024 * 1024) (1024 * 1024).

Definition MAX_TAR_BYTES : Z := (64 * 1024 * 1024 + (100000 + 1) * 1024 + 1024)%Z.

Record ArchiveSummary : Type := mkArchiveSummary {
  sum_sha256 : Text;
  sum_compressed_bytes : Z;
  sum_uncompressed_bytes : Z;
  sum_entries : nat
}.

Definition len {A} (l : list A) : Z := Z.of_nat (length l).

(** [a.checked_add(b)] on [u64]. *)
Definition u64_checked_add (a b : Z) : option Z := if (a + b <=? u64_max)%Z then Some (a + b)%Z else None.

(** ** The identity *)

Inductive CacheTrustLane : Set := LaneTrusted | LaneBulk.

Inductive CacheVisibility : Type :=
| RepositoryShared
| TenantRepositoryPrivate (tenant : Text).

Record CompilerCacheNamespace : Type := mkCompilerCacheNamespace {
  ns_host : Text;
  ns_repository : Text;
  ns_trust_lane : CacheTrustLane;
  ns_visibility : CacheVisibility
}.

Record CompilerCacheIdentityV1 : Type := mkCompilerCacheIdentityV1 {
  id_schema_version : Z;
  id_host : Text;
  id_repository : Text;
  id_source_tree_sha : Text;
  id_patch_digest : option Text;
  id_lockfile_digests : list Text;
  id_compiler_identity : Text;
  id_target_triple : Text;
  id_build_profile : Text;
  id_cargo_features : list Text;
  id_execution_class : Text;
  id_environment_policy_digest : Text;
  id_namespace : CompilerCacheNamespace
}.

(** Archive errors, by their message. *)
Abbreviation ArchiveResult A := (result A string).

Definition check (b : bool) (message : string) : ArchiveResult unit :=
  if b then Ok tt else Err message.

(** [value.len()] in bytes. *)
Definition byte_len (t : Text) : Z := len (into_bytes t).

(** [char::is_control]: the category [Cc]. *)
Definition is_control (c : N) : bool := ((c <=? 31) || (127 <=? c) && (c <=? 159))%N.

Definition valid_label (label : Text) : bool :=
  negb (is_nil label) && (byte_len label <=? 63)%Z && negb (text_starts_with [45%N] label)
  && negb (text_ends_with [45%N] label)
  && forallb (fun c => is_ascii_alphanumeric c || (c =? 45)%N) label.

Definition validate_git_host (value : Text) : ArchiveResult unit :=
  check (negb (is_nil value) && (byte_len value <=? 253)%Z
         && bool_decide (value = to_ascii_lowercase value)
         && forallb valid_label (split_char 46 value))
    "compiler cache host must be a normalized lowercase DNS-style hostname".

Definition valid_repository_component (value : Text) : bool :=
  negb (is_nil value) && (byte_len value <=? 100)%Z
  && forallb (fun c => is_ascii_alphanumeric c || (c =? 45)%N || (c =? 95)%N || (c =? 46)%N) value.

Definition validate_repository (value : Text) : ArchiveResult unit :=
  check match split_char 47 value with
        | [owner; name] => valid_repository_component owner && valid_repository_component name
        | _ => false
        end
    "compiler cache repository must have exactly two non-empty URL-safe owner/name components".

Definition is_lower_hex (c : N) : bool := (is_ascii_digit c || (97 <=? c) && (c <=? 102))%N.

Definition validate_git_tree (value : Text) : ArchiveResult unit :=
  check (((byte_len value =? 40)%Z || (byte_len value =? 64)%Z) && forallb is_lower_hex value)
    "compiler cache source tree must be 40 or 64 lowercase hexadecimal characters".

(** [validate_sha256] and [validate_digest]. *)
Definition validate_sha256 (value : Text) : ArchiveResult unit :=
  check ((byte_len value =? 64)%Z && forallb is_lower_hex value)
    "compiler cache digest must be 64 lowercase hexadecimal characters".

Definition validate_text (value : Text) : ArchiveResult unit :=
  check (negb (is_nil value) && (length value <=? 256)%nat && negb (existsb is_control value))
    "compiler cache field must be non-empty bounded text without control characters".

Definition validate_compiler_identity (value : Text) : ArchiveResult unit :=
  check (negb (is_nil value) && (len value <=? 4096)%Z
         && negb (existsb (fun c => is_control c && negb ((c =? 10) || (c =? 9))%N) value))
    "compiler cache compiler identity is invalid".

(** [for x in xs { f(x)?; }]. *)
Fixpoint check_all {A} (f : A -> ArchiveResult unit) (l : list A) : ArchiveResult unit :=
  match l with [] => Ok tt | x :: rest => let? _ := f x in check_all f rest end.

(** [CompilerCacheIdentityV1::validate]. *)
Definition identity_validate (i : CompilerCacheIdentityV1) : ArchiveResult unit :=
  let? _ := check (id_schema_version i =? 1)%Z "compiler cache schema version must be 1" in
  let? _ := validate_git_host (id_host i) in
  let? _ := validate_repository (id_repository i) in
  let? _ := validate_git_tree (id_source_tree_sha i) in
  let? _ := match id_patch_digest i with Some d => validate_sha256 d | None => Ok tt end in
  let? _ := check_all validate_sha256 (id_lockfile_digests i) in
  let? _ := validate_compiler_identity (id_compiler_identity i) in
  let? _ := validate_text (id_target_triple i) in
  let? _ := validate_text (id_build_profile i) in
  let? _ := check_all validate_text (id_cargo_features i) in
  let? _ := validate_text (id_execution_class i) in
  let? _ := validate_sha256 (id_environment_policy_digest i) in
  let? _ := validate_git_host (ns_host (id_namespace i)) in
  let? _ := validate_repository (ns_repository (id_namespace i)) in
  let? _ := check (bool_decide (id_host i = ns_host (id_namespace i))
                   && bool_decide (id_repository i = ns_repository (id_namespace i)))
              "compiler cache identity host and repository must match its namespace" in
  match ns_visibility (id_namespace i) with
  | TenantRepositoryPrivate tenant => validate_text tenant
  | RepositoryShared => Ok tt
  end.

(** A tree being extracted: what is at each path below its root. *)
Inductive StagedNode : Set :=
| StagedFile (content : Bytes)
| StagedDir.

#[export] Instance StagedNode_eq_dec : EqDecision StagedNode.
Proof. solve_decision. Defined.

(** A directory tree, by the paths below its root. *)
Abbreviation Staged := (gmap (list Text) StagedNode).

(** ** The libraries *)

Class ArchiveLib : Type := {
  json_from_slice : Bytes -> option Json;
  identity_from_value : Json -> option CompilerCacheIdentityV1;
  identity_to_vec : CompilerCacheIdentityV1 -> Bytes;
  sha256 : Bytes -> Text;
  gz_encode : Bytes -> Bytes;
  gz_decode : Bytes -> option Bytes;
  (** [deterministic_header]: [None] when the path does not fit. *)
  tar_header : Text -> Z -> option Bytes;
  (** [tar::Builder]: the headers and contents appended, and [finish]. *)
  tar_build : list (Bytes * Bytes) -> Bytes;
  (** Reading a header back. *)
  header_cksum : Bytes -> option Z;
  header_is_file : Bytes -> bool;
  header_path_bytes : Bytes -> Bytes;
  header_entry_size : Bytes -> option N
}.

Section Archive.
Context `{ArchiveLib}.

(** [validate_identity]. *)
Definition validate_identity (identity : Bytes) (limits : ArchiveLimits) : ArchiveResult unit :=
  let? _ := check (negb (is_nil identity) && (len identity <=? max_identity_bytes limits)%Z)
              "compiler cache identity exceeds its size bound" in
  match json_from_slice identity with
  | None => Err "compiler cache identity must be valid JSON"
  | Some raw =>
      match as_object raw with
      | None => Err "compiler cache identity must be a JSON object"
      | Some fields =>
          let? _ := check ((length fields =? length IDENTITY_FIELDS)%nat
                           && forallb (fun f => existsb (fun kv => String.eqb kv.1 f) fields)
                                IDENTITY_FIELDS)
                      "compiler cache identity fields do not match the v1 schema" in
          match identity_from_value raw with
          | None => Err "compiler cache identity does not match the v1 schema"
          | Some parsed =>
              let? _ := identity_validate parsed in
              check (bool_decide (identity_to_vec parsed = identity))
                "compiler cache identity is not in canonical Foam encoding"
          end
      end
  end.

(** ** Capturing *)

(** What [read_dir] and [symlink_metadata] show of a path: a regular file with
    its link count, a directory with its entries in the order they are read,
    or anything else.  Names are bytes. *)
Inductive CacheNode : Type :=
| CacheFile (content : Bytes) (nlink : Z)
| CacheDir (entries : list (Bytes * CacheNode))
| CacheOther.

Record SourceFile : Type := mkSourceFile {
  src_relative : Text;
  src_content : Bytes
}.

(** [normalized_relative]: names of entries are normal components. *)
Definition normalized_relative (path : list Bytes) : ArchiveResult Text :=
  let? parts := result_all (fun b => match from_utf8 b with
                                     | Some t => Ok t
                                     | None => Err "compiler cache path is not UTF-8"
                                     end) path in
  if is_nil parts then Err "compiler cache path is empty" else Ok (join_slash parts).

(** [collect_sources]. *)
Fixpoint collect_sources (path : list Bytes) (node : CacheNode) : ArchiveResult (list SourceFile) :=
  match node with
  | CacheDir entries =>
      (fix go (es : list (Bytes * CacheNode)) : ArchiveResult (list SourceFile) :=
         match es with
         | [] => Ok []
         | (name, child) :: rest =>
             let? xs := collect_sources (path ++ [name]) child in
             let? ys := go rest in
             Ok (xs ++ ys)
         end) entries
  | CacheFile content nlink =>
      let? _ := check (nlink =? 1)%Z "compiler cache entry must not be hardlinked" in
      let? relative := normalized_relative path in
      Ok [mkSourceFile relative content]
  | CacheOther => Err "compiler cache contains a symlink or special file"
  end.

Definition source_le (a b : SourceFile) : Prop := text_le (src_relative a) (src_relative b).

#[global] Instance source_le_dec : RelDecision source_le.
Proof. intros a b. unfold source_le. apply _. Defined.

(** The size accounting of [capture_with_limits]. *)
Fixpoint account_sources (limits : ArchiveLimits) (total : Z) (sources : list SourceFile) :
    ArchiveResult Z :=
  match sources with
  | [] => Ok total
  | s :: rest =>
      let? _ := check (negb (bool_decide (src_relative s = IDENTITY_ENTRY)))
                  "compiler cache contains the reserved identity path" in
      let? _ := check (len (src_content s) <=? max_entry_bytes limits)%Z
                  "compiler cache entry exceeds its size bound" in
      match u64_checked_add total (len (src_content s)) with
      | None => Err "compiler cache size overflow"
      | Some total =>
          let? _ := check (total <=? max_uncompressed_bytes limits)%Z
                      "compiler cache exceeds its uncompressed size bound" in
          account_sources limits total rest
      end
  end.

(** The order of entries: the identity goes where it sorts. *)
Fixpoint with_identity (identity : Bytes) (sources : list SourceFile) : list (Text * Bytes) :=
  match sources with
  | [] => [(IDENTITY_ENTRY, identity)]
  | s :: rest =>
      if negb (text_leb (src_relative s) IDENTITY_ENTRY)
      then (IDENTITY_ENTRY, identity) :: map (fun s => (src_relative s, src_content s)) sources
      else (src_relative s, src_content s) :: with_identity identity rest
  end.

Definition add_header (e : Text * Bytes) : ArchiveResult (Bytes * Bytes) :=
  match tar_header e.1 (len e.2) with
  | Some h => Ok (h, e.2)
  | None => Err "compiler cache path does not fit a header"
  end.

(** [capture_with_limits] of a tree that does not change: the archive that is
    published, and its summary. *)
Definition capture_with_limits (root : CacheNode) (identity : Bytes)
    (destination_in_root destination_exists : bool) (limits : ArchiveLimits) :
    ArchiveResult (Bytes * ArchiveSummary) :=
  let? _ := validate_identity identity limits in
  match root with
  | CacheDir _ =>
      let? _ := check (negb destination_in_root)
                  "compiler cache archive destination must be outside the cache root" in
      let? sources := collect_sources [] root in
      let sources := merge_sort source_le sources in
      let? _ := check (length sources <=? max_entries limits)%nat
                  "compiler cache contains too many entries" in
      let? uncompressed := account_sources limits (len identity) sources in
      let? entries := result_all add_header (with_identity identity sources) in
      let archive := gz_encode (tar_build entries) in
      let? _ := check (len archive <=? max_compressed_bytes limits)%Z
                  "compiler cache archive exceeds its compressed size bound" in
      let? _ := check (negb destination_exists) "publish compiler cache archive" in
      Ok (archive, mkArchiveSummary (sha256 archive) (len archive) uncompressed (length sources))
  | _ => Err "compiler cache root is not a directory"
  end.

(** ** Paths of an archive *)

Inductive Component : Type :=
| RootDir
| CurDir
| ParentDir
| NormalComponent (part : Text).

(** [Path::components] of the pieces between slashes: empty pieces and inner
    dots are skipped. *)
Fixpoint piece_components (first : bool) (pieces : list Text) : list Component :=
  match pieces with
  | [] => []
  | p :: rest =>
      (if is_nil p then []
       else if bool_decide (p = [46%N]) then (if first then [CurDir] else [])
       else if bool_decide (p = [46; 46]%N) then [ParentDir]
       else [NormalComponent p]) ++ piece_components false rest
  end.

Definition is_absolute (raw : Text) : bool := text_starts_with [47%N] raw.

Definition components (raw : Text) : list Component :=
  (if is_absolute raw then [RootDir] else []) ++
  piece_components (negb (is_absolute raw)) (split_char 47 raw).

Definition normal_part (c : Component) : ArchiveResult Text :=
  match c with
  | NormalComponent p => Ok p
  | _ => Err "compiler cache archive contains path traversal"
  end.

(** [normalized_archive_path]: the path's components. *)
Definition normalized_archive_path (raw : Text) : ArchiveResult (list Text) :=
  let? _ := check (negb (is_nil raw || contains_char 0 raw || contains_char 92 raw))
              "compiler cache archive contains an unsafe path" in
  let? _ := check (negb (is_absolute raw)) "compiler cache archive contains an absolute path" in
  let? parts := result_all normal_part (components raw) in
  let? _ := check (negb (is_nil parts)) "compiler cache archive contains an empty path" in
  Ok parts.

(** ** Validating the tar *)

Record ValidatedEntry : Type := mkValidatedEntry {
  ve_path : list Text;
  ve_data_offset : Z;
  ve_size : Z
}.

(** The bytes at an offset. *)
Definition slice (offset size : Z) (bytes : Bytes) : Bytes :=
  take (Z.to_nat size) (drop (Z.to_nat offset) bytes).

(** [validate_header_checksum]: the sum of the header's bytes with the
    checksum field read as spaces. *)
Definition header_sum (bytes : Bytes) : Z :=
  fold_left (fun sum byte => sum + Z.of_N byte)%Z (take 148 bytes ++ drop 156 bytes) (8 * 32)%Z.

Definition is_zero (b : N) : bool := (b =? 0)%N.

(** One header: its entry. *)
Definition read_entry (header : Bytes) (limits : ArchiveLimits) (seen : list (list Text)) (total : Z) :
    ArchiveResult (list Text * Z * Z) :=
  match header_cksum header with
  | None => Err "invalid checksum field"
  | Some declared =>
      let? _ := check (declared =? header_sum header)%Z
                  "compiler cache archive header checksum mismatch" in
      let? _ := check (header_is_file header)
                  "compiler cache archive contains a link or special entry" in
      match from_utf8 (header_path_bytes header) with
      | None => Err "invalid utf-8"
      | Some raw =>
          let? path := normalized_archive_path raw in
          let? _ := check (bool_decide (raw = join_slash path))
                      "compiler cache archive path is not canonically normalized UTF-8" in
          let? _ := check (negb (bool_decide (path ∈ seen)))
                      "compiler cache archive contains a duplicate path" in
          match header_entry_size header with
          | None => Err "invalid size field"
          | Some size =>
              let size := Z.of_N size in
              let bound := if bool_decide (path = [IDENTITY_ENTRY]) then max_identity_bytes limits
                           else max_entry_bytes limits in
              let? _ := check (size <=? bound)%Z
                          "compiler cache archive entry exceeds its size bound" in
              match u64_checked_add total size with
              | None => Err "compiler cache size overflow"
              | Some total =>
                  let? _ := check (total <=? max_uncompressed_bytes limits)%Z
                              "compiler cache archive exceeds its uncompressed size bound" in
                  Ok (path, size, total)
              end
          end
      end
  end.

(** Where the data of an entry ends: padded to whole blocks. *)
Definition entry_end (offset size archive_size : Z) : ArchiveResult Z :=
  match u64_checked_add size 511 with
  | None => Err "compiler cache archive entry size overflow"
  | Some padded =>
      match u64_checked_add offset (padded / 512 * 512) with
      | None => Err "compiler cache archive offset overflow"
      | Some e =>
          let? _ := check (e <=? archive_size)%Z "compiler cache archive entry is truncated" in
          Ok e
      end
  end.

(** The loop of [validate_tar] from [offset]; each round reads at least one
    block, so a round per block is enough. *)
Fixpoint tar_loop (fuel : nat) (snapshot : Bytes) (limits : ArchiveLimits) (offset : Z)
    (seen : list (list Text)) (entries : list ValidatedEntry) (identity : option Bytes) (total : Z) :
    ArchiveResult (list ValidatedEntry * Bytes * Z) :=
  match fuel with
  | O => Err "out of rounds"
  | S fuel' =>
      if negb (offset <? len snapshot)%Z then Err "compiler cache archive is missing its tar trailer"
      else
        let header := slice offset 512 snapshot in
        let offset := (offset + 512)%Z in
        if forallb is_zero header then
          let remaining := (len snapshot - offset)%Z in
          let? _ := check (remaining <=? 512)%Z
                      "compiler cache archive trailer exceeds its size bound" in
          let? _ := check (forallb is_zero (slice offset remaining snapshot))
                      "compiler cache archive contains data after its trailer" in
          match identity with
          | None => Err "compiler cache archive is missing its identity"
          | Some identity => Ok (entries, identity, total)
          end
        else
          let? (path, size, total) := read_entry header limits seen total in
          let? data_end := entry_end offset size (len snapshot) in
          if bool_decide (path = [IDENTITY_ENTRY]) then
            let bytes := slice offset size snapshot in
            let? _ := validate_identity bytes limits in
            tar_loop fuel' snapshot limits data_end (path :: seen) entries (Some bytes) total
          else
            let? _ := check (negb (length entries =? max_entries limits)%nat)
                        "compiler cache archive contains too many entries" in
            tar_loop fuel' snapshot limits data_end (path :: seen)
              (entries ++ [mkValidatedEntry path offset size]) identity total
  end.

Definition validate_tar (snapshot : Bytes) (limits : ArchiveLimits) :
    ArchiveResult (list ValidatedEntry * Bytes * Z) :=
  let? _ := check (len snapshot mod 512 =? 0)%Z "compiler cache archive is not tar-block aligned" in
  tar_loop (S (length snapshot)) snapshot limits 0 [] [] None 0.

(** ** Extracting *)

(** [create_parent_confined]: open or make each parent in turn. *)
Fixpoint create_parents (done_ rest : list Text) (tree : Staged) : ArchiveResult Staged :=
  match rest with
  | [] | [_] => Ok tree
  | part :: rest' =>
      let here := done_ ++ [part] in
      match tree !! here with
      | Some StagedDir => create_parents here rest' tree
      | None => create_parents here rest' (<[here := StagedDir]> tree)
      | Some (StagedFile _) => Err "compiler cache extraction parent is not a directory"
      end
  end.

(** One round of [extract_entries]. *)
Definition extract_entry (snapshot : Bytes) (e : ValidatedEntry) (tree : Staged) : ArchiveResult Staged :=
  let? tree := create_parents [] (ve_path e) tree in
  match tree !! ve_path e with
  | Some _ => Err "file exists"
  | None =>
      let content := slice (ve_data_offset e) (ve_size e) snapshot in
      let? _ := check (len content =? ve_size e)%Z
                  "compiler cache archive entry was truncated during extraction" in
      Ok (<[ve_path e := StagedFile content]> tree)
  end.

Fixpoint extract_entries (snapshot : Bytes) (entries : list ValidatedEntry) (tree : Staged) :
    ArchiveResult Staged :=
  match entries with
  | [] => Ok tree
  | e :: rest => let? tree := extract_entry snapshot e tree in extract_entries snapshot rest tree
  end.

(** The proper, non-empty prefixes of a path. *)
Fixpoint parents_from (done_ rest : list Text) : list (list Text) :=
  match rest with
  | [] | [_] => []
  | part :: rest' => (done_ ++ [part]) :: parents_from (done_ ++ [part]) rest'
  end.

Definition parents (path : list Text) : list (list Text) := parents_from [] path.

(** [validate_extracted_tree]: the files with their sizes and the
    directories, as sets. *)
Definition staged_files (tree : Staged) : gset (list Text * Z) :=
  list_to_set (List.flat_map (fun kn => match kn.2 with
                                        | StagedFile c => [(kn.1, len c)]
                                        | StagedDir => []
                                        end) (map_to_list tree)).

Definition staged_dirs (tree : Staged) : gset (list Text) :=
  list_to_set (List.flat_map (fun kn => match kn.2 with
                                        | StagedDir => [kn.1]
                                        | StagedFile _ => []
                                        end) (map_to_list tree)).

Definition validate_extracted_tree (tree : Staged) (entries : list ValidatedEntry) : ArchiveResult unit :=
  check (bool_decide (staged_files tree = list_to_set (map (fun e => (ve_path e, ve_size e)) entries))
         && bool_decide (staged_dirs tree = list_to_set (List.flat_map (fun e => parents (ve_path e)) entries)))
    "compiler cache staging tree changed before activation".

(** ** Restoring *)

(** [copy_bounded] of the decoder's output. *)
Definition decode_bounded (archive : Bytes) (limits : ArchiveLimits) : ArchiveResult Bytes :=
  let tar_limit := default MAX_TAR_BYTES
    (u64_checked_add (max_uncompressed_bytes limits)
       ((Z.of_nat (max_entries limits) + 1) * 1024 + 1024)) in
  match gz_decode archive with
  | None => Err "corrupt gzip stream"
  | Some tar =>
      let? _ := check (len tar <=? tar_limit)%Z
                  "compiler cache archive expands beyond its physical bound" in
      Ok tar
  end.

(** [restore_with_limits]: the outcome, and the cache root afterwards ([None]
    when there is none).  [raced] says that the cache root appeared between
    the first check and the rename, which then refuses to replace it. *)
Definition restore_with_limits (archive : Bytes) (expected_sha256 : Text) (expected_identity : Bytes)
    (cache_root : option Staged) (raced : bool) (limits : ArchiveLimits) :
    ArchiveResult ArchiveSummary * option Staged :=
  let staged : ArchiveResult (ArchiveSummary * Staged) :=
    let? _ := validate_sha256 expected_sha256 in
    let? _ := validate_identity expected_identity limits in
    let? _ := check (is_none cache_root) "compiler cache activation destination already exists" in
    let? _ := check (len archive <=? max_compressed_bytes limits)%Z
                "compiler cache archive exceeds its compressed size bound" in
    let? _ := check (bool_decide (sha256 archive = expected_sha256))
                "compiler cache archive digest mismatch" in
    let? snapshot := decode_bounded archive limits in
    let? (entries, identity, uncompressed) := validate_tar snapshot limits in
    let? _ := check (bool_decide (identity = expected_identity))
                "compiler cache identity does not exactly match expected identity" in
    let? tree := extract_entries snapshot entries ∅ in
    let? _ := validate_extracted_tree tree entries in
    let? _ := check (negb raced) "atomically activate compiler cache" in
    Ok (mkArchiveSummary (sha256 archive) (len archive) uncompressed (length entries), tree) in
  match staged with
  | Ok (summary, tree) => (Ok summary, Some tree)
  | Err e => (Err e, cache_root)
  end.
End Archive.
