(* ===== verification/CompilerCacheProofs.v ===== *)
(** * The compiler-cache archive: what restoring guarantees

    Theorems about [CompilerCache]: a captured cache restores to exactly the
    files that were captured; whatever archive is offered, a restore that
    succeeds stays within its bounds and its root, and one that fails leaves
    the cache root alone; the tar reader always stops. *)

From S2P Require Import Prelude Text Json CompilerCache.

(** ** Paths *)

Record good_part (t : Text) : Prop := {
  part_nonempty : t <> [];
  part_no_slash : 47%N ∉ t;
  part_not_dot : t <> [46%N];
  part_not_dotdot : t <> [46; 46]%N
}.

Lemma piece_components_good first parts : Forall good_part parts ->
  piece_components first parts = map NormalComponent parts.
Proof.
  intros HF. revert first. induction HF as [|p parts [H1 H2 H3 H4] HF IH]; intros first; simpl; [done|].
  destruct p as [|x p]; [done|]. cbn [is_nil].
  rewrite !bool_decide_false by done. simpl. by rewrite IH.
Qed.

Lemma good_no_slash parts : Forall good_part parts -> Forall (fun t => 47%N ∉ t) parts.
Proof. intros HF. eapply Forall_impl; [exact HF|]. by intros t [? ? ? ?]. Qed.

Lemma join_not_absolute parts : Forall good_part parts -> is_absolute (join_slash parts) = false.
Proof.
  unfold is_absolute. intros HF. apply not_true_iff_false. rewrite text_starts_with_spec. intros (r & E).
  destruct HF as [|p parts [Hne Hns _ _] HF]; [done|].
  destruct p as [|a p]; [done|]. assert (a = 47%N) as ->.
  { destruct parts; simpl in E; by injection E. }
  by apply Hns; left.
Qed.

Lemma components_join parts : parts <> [] -> Forall good_part parts ->
  components (join_slash parts) = map NormalComponent parts.
Proof.
  intros Hne HF. unfold components. rewrite join_not_absolute by done. simpl.
  rewrite split_join by (done || by apply good_no_slash). by apply piece_components_good.
Qed.

Lemma normal_parts parts : result_all normal_part (map NormalComponent parts) = Ok parts.
Proof. induction parts as [|p parts IH]; simpl; [done|]. by rewrite IH. Qed.

Lemma contains_char_join c parts : c <> 47%N -> contains_char c (join_slash parts) = existsb (contains_char c) parts.
Proof.
  intros Hc. induction parts as [|p parts IH]; [done|].
  destruct parts as [|q parts]; [by simpl; rewrite orb_false_r|].
  change (join_slash (p :: q :: parts)) with (p ++ 47%N :: join_slash (q :: parts)).
  change (existsb (contains_char c) (p :: q :: parts))
    with (contains_char c p || existsb (contains_char c) (q :: parts)).
  rewrite <- IH. unfold contains_char. rewrite existsb_app. simpl.
  by rewrite (proj2 (N.eqb_neq c 47) Hc).
Qed.

Lemma join_nonnil parts : parts <> [] -> Forall good_part parts -> join_slash parts <> [].
Proof.
  intros Hne HF. destruct HF as [|p parts [Hp _ _ _] HF]; [done|].
  destruct p; [done|]. by destruct parts.
Qed.

(** A path of normal components without NUL and backslash is read back. *)
Lemma normalized_archive_path_join parts : parts <> [] -> Forall good_part parts ->
  existsb (contains_char 0) parts = false -> existsb (contains_char 92) parts = false ->
  normalized_archive_path (join_slash parts) = Ok parts.
Proof.
  intros Hne HF H0 H92. unfold normalized_archive_path.
  rewrite !contains_char_join, H0, H92 by done.
  pose proof (join_nonnil parts Hne HF) as Hj.
  destruct (join_slash parts) as [|x xs] eqn:E; [done|]. cbn [is_nil orb negb check result_bind].
  rewrite <- E, join_not_absolute by done. cbn [negb check result_bind].
  rewrite components_join by done. rewrite normal_parts. by destruct parts.
Qed.

Lemma piece_components_normal first pieces parts :
  Forall (fun t => 47%N ∉ t) pieces ->
  result_all normal_part (piece_components first pieces) = Ok parts -> Forall good_part parts.
Proof.
  intros HF. revert first parts. induction HF as [|p pieces Hp HF IH]; intros first parts; simpl.
  - intros [= <-]. constructor.
  - destruct p as [|x p]; [apply IH|]. cbn [is_nil].
    case_bool_decide as E1; [destruct first; [done|apply IH]|].
    case_bool_decide as E2; [done|]. simpl. intros E.
    apply result_bind_ok in E as (ys & Hys & [= <-]). constructor; [by constructor|]. by eapply IH.
Qed.

(** Whatever the archive says, an accepted path goes down only. *)
Lemma normalized_archive_path_good raw parts :
  normalized_archive_path raw = Ok parts -> parts <> [] /\ Forall good_part parts.
Proof.
  unfold normalized_archive_path, check. intros E.
  destruct (negb _); [|done]. simpl in E. destruct (negb (is_absolute raw)) eqn:Ea; [|done]. simpl in E.
  apply result_bind_ok in E as (ps & Hps & E). destruct ps as [|p ps']; [done|].
  simpl in E. injection E as <-. split; [done|].
  unfold components in Hps. apply negb_true_iff in Ea. rewrite Ea in Hps.
  eapply piece_components_normal; [apply (split_char_no_sep 47 raw)|exact Hps].
Qed.

(** ** Slices of bytes *)

Lemma len_app {A} (a b : list A) : len (a ++ b) = (len a + len b)%Z.
Proof. unfold len. rewrite length_app. lia. Qed.

Lemma len_nonneg {A} (a : list A) : (0 <= len a)%Z.
Proof. unfold len. lia. Qed.

Lemma len_replicate {A} n (x : A) : len (replicate n x) = Z.of_nat n.
Proof. unfold len. by rewrite length_replicate. Qed.

Lemma slice_middle (a b c : Bytes) off size : off = len a -> size = len b ->
  slice off size (a ++ b ++ c) = b.
Proof.
  intros -> ->. unfold slice, len. rewrite !Nat2Z.id.
  rewrite drop_app_length. by rewrite take_app_length.
Qed.

Lemma slice_length off size (bs : Bytes) : (0 <= off)%Z -> (0 <= size)%Z -> (off + size <= len bs)%Z ->
  len (slice off size bs) = size.
Proof. unfold slice, len. intros. rewrite length_take, length_drop. lia. Qed.

(** ** Trees of files *)

(** The files of a tree, by path: [T] holds exactly them and the directories
    above them. *)
Definition tree_spec (T : Staged) (files : list (list Text * Bytes)) : Prop :=
  forall p n, T !! p = Some n <->
    match n with
    | StagedFile c => (p, c) ∈ files
    | StagedDir => exists q c, (q, c) ∈ files /\ p ∈ parents q
    end.

Lemma parents_from_spec done_ rest p :
  p ∈ parents_from done_ rest <-> exists a b, a <> [] /\ b <> [] /\ rest = a ++ b /\ p = done_ ++ a.
Proof.
  revert done_. induction rest as [|x rest IH]; intros done_; simpl.
  - split; [by intros ?%not_elem_of_nil|]. intros (a&b&Ha&_&E&_). by destruct a.
  - destruct rest as [|y rest].
    + split; [by intros ?%not_elem_of_nil|]. intros (a&b&Ha&Hb&E&_).
      destruct a as [|? a]; [done|]. injection E as -> E. symmetry in E. by apply app_eq_nil in E as [-> ->].
    + rewrite elem_of_cons, IH. split.
      * intros [->|(a&b&Ha&Hb&->&->)]; [by exists [x], (y :: rest)|].
        exists (x :: a), b. by rewrite <- app_assoc.
      * intros (a&b&Ha&Hb&E&->). destruct a as [|x' a]; [done|]. injection E as <- E.
        destruct a as [|y' a]; [by left|]. right. exists (y' :: a), b.
        rewrite <- app_assoc. by rewrite E.
Qed.

Lemma elem_of_parents q p : p ∈ parents q <-> p <> [] /\ exists r, r <> [] /\ q = p ++ r.
Proof. unfold parents. rewrite parents_from_spec. naive_solver. Qed.

(** What making the parents does to the tree. *)
Lemma create_parents_lookup done_ rest T T' : create_parents done_ rest T = Ok T' ->
  forall p, T' !! p = if bool_decide (p ∈ parents_from done_ rest) then Some StagedDir else T !! p.
Proof.
  revert done_ T. induction rest as [|x rest IH]; intros done_ T; cbn [create_parents parents_from].
  - intros [= <-] p. by rewrite bool_decide_false by apply not_elem_of_nil.
  - destruct rest as [|y rest]; [intros [= <-] p; by rewrite bool_decide_false by apply not_elem_of_nil|].
    set (R := y :: rest) in *. clearbody R. intros E p.
    assert (Hcase : exists T1, create_parents (done_ ++ [x]) R T1 = Ok T' /\
                      (T1 = T /\ T !! (done_ ++ [x]) = Some StagedDir
                       \/ T1 = <[done_ ++ [x] := StagedDir]> T)).
    { destruct (T !! (done_ ++ [x])) as [[c|]|] eqn:ET; [done|exists T; auto|]. eauto. }
    destruct Hcase as (T1 & E1 & HT1). rewrite (IH _ _ E1).
    destruct (decide (p ∈ parents_from (done_ ++ [x]) R)) as [Hin|Hin].
    + rewrite !bool_decide_true; [done|by right|done].
    + rewrite (bool_decide_false (p ∈ parents_from (done_ ++ [x]) R)) by done.
      case_bool_decide as Hc.
      * apply elem_of_cons in Hc as [->|Hc]; [|done].
        destruct HT1 as [[-> ?]| ->]; [done|]. by rewrite lookup_insert_eq.
      * apply not_elem_of_cons in Hc as [Hc _]. destruct HT1 as [[-> ?]| ->]; [done|].
        by rewrite lookup_insert_ne.
Qed.

Lemma create_parents_no_file done_ rest T T' p c : create_parents done_ rest T = Ok T' ->
  T !! p = Some (StagedFile c) -> p ∉ parents_from done_ rest.
Proof.
  revert done_ T. induction rest as [|x rest IH]; intros done_ T E HH Hpar; simpl in *.
  - by apply not_elem_of_nil in Hpar.
  - destruct rest as [|y rest]; [by apply not_elem_of_nil in Hpar|].
    apply elem_of_cons in Hpar as [->|Hpar]; [by rewrite HH in E|].
    destruct (T !! (done_ ++ [x])) as [[|]|] eqn:ET; [done|by eapply IH|].
    eapply (IH _ (<[done_ ++ [x]:=StagedDir]> T)); [exact E| |exact Hpar].
    rewrite lookup_insert_ne; [done|]. intros <-. by rewrite ET in HH.
Qed.

Lemma create_parents_ok done_ rest T :
  (forall p c, p ∈ parents_from done_ rest -> T !! p <> Some (StagedFile c)) ->
  exists T', create_parents done_ rest T = Ok T'.
Proof.
  revert done_ T. induction rest as [|x rest IH]; intros done_ T Hp; simpl; [eauto|].
  destruct rest as [|y rest]; [eauto|].
  destruct (T !! (done_ ++ [x])) as [[c|]|] eqn:ET.
  - exfalso. eapply Hp; [|exact ET]. simpl. by left.
  - apply IH. intros p c Hin. apply Hp. simpl. by right.
  - apply IH. intros p c Hin. destruct (decide (p = done_ ++ [x])) as [->|Hne].
    + by rewrite lookup_insert_eq.
    + rewrite lookup_insert_ne by done. apply Hp. simpl. by right.
Qed.

Section Extraction.
Context (snapshot : Bytes).

(** A validated entry and the file it stands for. *)
Definition entry_file (e : ValidatedEntry) : list Text * Bytes :=
  (ve_path e, slice (ve_data_offset e) (ve_size e) snapshot).

Lemma extract_entry_spec e T T' files : tree_spec T files ->
  extract_entry snapshot e T = Ok T' -> tree_spec T' (files ++ [entry_file e]).
Proof.
  unfold extract_entry. intros HT E. apply result_bind_ok in E as (T1 & E1 & E).
  pose proof (create_parents_lookup _ _ _ _ E1) as HL.
  destruct (T1 !! ve_path e) eqn:Ep; [done|]. unfold check in E.
  destruct (_ =? _)%Z eqn:El; [|done]. injection E as <-.
  assert (Hown : ve_path e ∉ parents (ve_path e)).
  { intros (_ & r & Hr & Er)%elem_of_parents. apply Hr.
    apply (app_inv_head (ve_path e)). by rewrite app_nil_r. }
  assert (HTp : T !! ve_path e = None).
  { rewrite HL in Ep. fold (parents (ve_path e)) in Ep. by rewrite bool_decide_false in Ep. }
  intros p n. destruct (decide (ve_path e = p)) as [<-|Hne].
  - rewrite lookup_insert_eq. split.
    + intros [= <-]. apply elem_of_app. right. by apply list_elem_of_singleton.
    + destruct n as [c|].
      * rewrite elem_of_app, list_elem_of_singleton. intros [Hin|[= ->]]; [|done].
        pose proof (proj2 (HT (ve_path e) (StagedFile c)) Hin) as HH. by rewrite HTp in HH.
      * intros (q & c & Hin & Hpar). apply elem_of_app in Hin as [Hin|Hin].
        -- assert (HH : T !! ve_path e = Some StagedDir) by (apply HT; eauto). by rewrite HTp in HH.
        -- apply list_elem_of_singleton in Hin as [= -> _]. done.
  - rewrite lookup_insert_ne, HL by done. fold (parents (ve_path e)).
    case_bool_decide as Hpar.
    + split.
      * intros [= <-]. exists (ve_path e), (slice (ve_data_offset e) (ve_size e) snapshot).
        split; [apply elem_of_app; right; by apply list_elem_of_singleton|done].
      * destruct n as [c|]; [|done]. rewrite elem_of_app, list_elem_of_singleton.
        intros [Hin|[= -> _]]; [|done].
        pose proof (proj2 (HT p (StagedFile c)) Hin) as HH. exfalso.
        by eapply create_parents_no_file.
    + rewrite (HT p n). destruct n as [c|].
      * rewrite elem_of_app, list_elem_of_singleton. unfold entry_file. naive_solver.
      * setoid_rewrite elem_of_app. setoid_rewrite list_elem_of_singleton.
        split; [naive_solver|]. intros (q & c & [Hin|[= -> ->]] & Hq); [eauto|done].
Qed.

Lemma extract_entries_spec es T T' files : tree_spec T files ->
  extract_entries snapshot es T = Ok T' -> tree_spec T' (files ++ map entry_file es).
Proof.
  revert T files. induction es as [|e es IH]; intros T files HT; simpl.
  - intros [= <-]. by rewrite app_nil_r.
  - intros E. apply result_bind_ok in E as (T1 & E1 & E).
    replace (files ++ entry_file e :: map entry_file es)
      with ((files ++ [entry_file e]) ++ map entry_file es) by by rewrite <- app_assoc.
    eapply IH; [|exact E]. by eapply extract_entry_spec.
Qed.
End Extraction.

(** ** What the reader of an archive accepts *)

Section Reader.
Context `{ArchiveLib}.

Definition sizes (es : list ValidatedEntry) : Z := fold_right (fun e acc => (ve_size e + acc)%Z) 0%Z es.

Lemma sizes_app a b : sizes (a ++ b) = (sizes a + sizes b)%Z.
Proof. induction a; simpl; lia. Qed.

(** An accepted entry: a path that goes down only, a bounded size, and its
    bytes inside the archive. *)
Record entry_in_bounds (snapshot : Bytes) (limits : ArchiveLimits) (e : ValidatedEntry) : Prop := {
  eb_nonempty : ve_path e <> [];
  eb_good : Forall good_part (ve_path e);
  eb_not_identity : ve_path e <> [IDENTITY_ENTRY];
  eb_size : (0 <= ve_size e <= max_entry_bytes limits)%Z;
  eb_inside : (0 <= ve_data_offset e /\ ve_data_offset e + ve_size e <= len snapshot)%Z
}.

Lemma check_ok b m : check b m = Ok tt <-> b = true.
Proof. unfold check. by destruct b. Qed.

Lemma read_entry_ok header limits seen total path size total' :
  read_entry header limits seen total = Ok (path, size, total') ->
  path <> [] /\ Forall good_part path /\ path ∉ seen /\ (0 <= size)%Z /\ total' = (total + size)%Z /\
  (total' <= max_uncompressed_bytes limits)%Z /\
  (path <> [IDENTITY_ENTRY] -> (size <= max_entry_bytes limits)%Z).
Proof.
  unfold read_entry. destruct (header_cksum header) as [declared|]; [|done].
  intros E. apply result_bind_ok in E as ([] & _ & E). apply result_bind_ok in E as ([] & _ & E).
  destruct (from_utf8 _) as [raw|]; [|done].
  apply result_bind_ok in E as (p & Hp & E). apply result_bind_ok in E as ([] & _ & E).
  apply result_bind_ok in E as ([] & Hseen & E). apply check_ok in Hseen.
  destruct (header_entry_size header) as [sz|]; [|done].
  apply result_bind_ok in E as ([] & Hb & E). apply check_ok in Hb.
  unfold u64_checked_add in E. destruct (_ <=? u64_max)%Z; [|done].
  apply result_bind_ok in E as ([] & Ht & E). apply check_ok in Ht. injection E as <- <- <-.
  apply normalized_archive_path_good in Hp as [Hne Hgood]. bool_to_prop.
  repeat split; try done; try lia.
  intros Hid. rewrite bool_decide_false in Hb by done. lia.
Qed.

Lemma entry_end_ok offset size total e : (0 <= size)%Z -> entry_end offset size total = Ok e ->
  (offset + size <= e <= total)%Z.
Proof.
  unfold entry_end, u64_checked_add. intros Hs E.
  destruct (size + 511 <=? u64_max)%Z; [|done]. destruct (_ <=? u64_max)%Z; [|done].
  apply result_bind_ok in E as ([] & Hc & [= <-]). apply check_ok in Hc. bool_to_prop. lia.
Qed.

Lemma tar_loop_accepts fuel snapshot limits offset seen entries identity total es i t :
  tar_loop fuel snapshot limits offset seen entries identity total = Ok (es, i, t) ->
  (0 <= offset)%Z ->
  Forall (entry_in_bounds snapshot limits) entries -> length entries <= max_entries limits ->
  total = (sizes entries + len (default [] identity))%Z ->
  (identity <> None -> [IDENTITY_ENTRY] ∈ seen) ->
  (forall b, identity = Some b -> validate_identity b limits = Ok tt) ->
  (total <= max_uncompressed_bytes limits)%Z ->
  Forall (entry_in_bounds snapshot limits) es /\ length es <= max_entries limits /\
  t = (sizes es + len i)%Z /\ (t <= max_uncompressed_bytes limits)%Z /\ validate_identity i limits = Ok tt.
Proof.
  revert offset seen entries identity total.
  induction fuel as [|fuel IH]; intros offset seen entries identity total; [done|]. cbn [tar_loop].
  destruct (offset <? len snapshot)%Z eqn:Eo; [|done]. cbn [negb].
  destruct (forallb is_zero (slice offset 512 snapshot)) eqn:Ez.
  { intros E Hoff HF Hlen Htot Hid Hval Hmax. apply result_bind_ok in E as ([] & _ & E).
    apply result_bind_ok in E as ([] & _ & E). destruct identity as [b|]; [|done].
    injection E as <- <- <-. simpl in Htot. by repeat (split; [by auto|]); auto. }
  intros E Hoff HF Hlen Htot Hid Hval Hmax. apply result_bind_ok in E as ([[path size] total'] & Hr & E).
  destruct (read_entry_ok _ _ _ _ _ _ _ Hr) as (Hne & Hgood & Hseen & Hs & Ht & Hm & Hb).
  apply result_bind_ok in E as (e & He & E). apply entry_end_ok in He; [|done].
  case_bool_decide as Hpath.
  - apply result_bind_ok in E as ([] & Hv & E).
    destruct identity as [b|]; [by exfalso; apply Hseen; rewrite Hpath; apply Hid|].
    simpl in Htot. eapply IH; [exact E|lia|done|done| |intros _; rewrite Hpath; by left| |lia].
    + simpl. rewrite slice_length by lia. unfold len in *; simpl in *; lia.
    + by intros ? [= <-].
  - apply result_bind_ok in E as ([] & Hc & E). apply check_ok in Hc. bool_to_prop.
    eapply IH; [exact E|lia| | | |intros Hi; right; by apply Hid|done|lia].
    + apply Forall_app. split; [done|]. constructor; [|constructor]. constructor; simpl; auto; lia.
    + rewrite length_app. simpl. lia.
    + rewrite sizes_app. simpl. lia.
Qed.

Lemma validate_tar_accepts snapshot limits es i t : (0 <= max_uncompressed_bytes limits)%Z ->
  validate_tar snapshot limits = Ok (es, i, t) ->
  Forall (entry_in_bounds snapshot limits) es /\ length es <= max_entries limits /\
  t = (sizes es + len i)%Z /\ (t <= max_uncompressed_bytes limits)%Z /\ validate_identity i limits = Ok tt.
Proof.
  intros Hpos E. unfold validate_tar in E. apply result_bind_ok in E as ([] & _ & E).
  eapply tar_loop_accepts; [exact E|..]; done || (simpl; lia).
Qed.

(** The size of the files of a tree. *)
Definition files_size (files : list (list Text * Bytes)) : Z :=
  fold_right (fun f acc => (len f.2 + acc)%Z) 0%Z files.

Lemma files_size_entries snapshot limits es : Forall (entry_in_bounds snapshot limits) es ->
  files_size (map (entry_file snapshot) es) = sizes es.
Proof.
  intros HF. induction HF as [|e es He HF IH]; simpl; [done|]. rewrite IH. f_equal.
  destruct He. apply slice_length; lia.
Qed.

(** What an outcome of a restore may be: see [restore_is_confined]. *)
Definition confined (archive : Bytes) (expected_sha256 : Text) (expected_identity : Bytes)
    (cache_root : option Staged) (limits : ArchiveLimits)
    (outcome : ArchiveResult ArchiveSummary * option Staged) : Prop :=
  match outcome with
  | (Err _, after) => after = cache_root
  | (Ok summary, after) =>
      cache_root = None /\ sha256 archive = expected_sha256 /\ sum_sha256 summary = expected_sha256 /\
      sum_compressed_bytes summary = len archive /\ (len archive <= max_compressed_bytes limits)%Z /\
      validate_identity expected_identity limits = Ok tt /\
      exists tree files,
        after = Some tree /\ tree_spec tree files /\
        sum_entries summary = length files /\ length files <= max_entries limits /\
        sum_uncompressed_bytes summary = (files_size files + len expected_identity)%Z /\
        (sum_uncompressed_bytes summary <= max_uncompressed_bytes limits)%Z /\
        Forall (fun f => Forall good_part f.1 /\ f.1 <> [] /\ f.1 <> [IDENTITY_ENTRY] /\
                         (len f.2 <= max_entry_bytes limits)%Z) files
  end.

(** Whatever archive is offered, restoring is confined.  A restore that fails leaves the cache root as it was.  One that succeeds had no cache root before, an archive with the expected digest and size, and installs a tree of regular files and the directories above them and nothing else: every path is made of normal components only (no root, no dot, no dot-dot), no path is the identity's, each file, the number of files and the total size with the identity are within the limits, and the summary reports exactly them. *)
Theorem restore_is_confined archive expected_sha256 expected_identity cache_root raced limits :
  (0 <= max_uncompressed_bytes limits)%Z ->
  confined archive expected_sha256 expected_identity cache_root limits
    (restore_with_limits archive expected_sha256 expected_identity cache_root raced limits).
Proof.
  intros Hpos. unfold confined, restore_with_limits.
  match goal with |- context [match ?s with Ok _ => _ | Err _ => _ end] => destruct s as [[summary tree]|e] eqn:E end;
    [|done].
  apply result_bind_ok in E as ([] & _ & E). apply result_bind_ok in E as ([] & Hid & E).
  apply result_bind_ok in E as ([] & Hroot & E). apply check_ok in Hroot.
  apply result_bind_ok in E as ([] & Hcomp & E). apply check_ok in Hcomp.
  apply result_bind_ok in E as ([] & Hsha & E). apply check_ok in Hsha.
  apply result_bind_ok in E as (snapshot & _ & E).
  apply result_bind_ok in E as ([[es i] t] & Htar & E).
  apply result_bind_ok in E as ([] & Hi & E). apply check_ok in Hi.
  apply result_bind_ok in E as (T & Hext & E). apply result_bind_ok in E as ([] & _ & E).
  apply result_bind_ok in E as ([] & _ & [= <- <-]). bool_to_prop. subst i.
  apply validate_tar_accepts in Htar as (HF & Hlen & Ht & Hmax & _); [|done].
  destruct cache_root; [done|]. repeat (split; [done|]).
  exists T, (map (entry_file snapshot) es). split; [done|]. split.
  { eapply (extract_entries_spec _ _ ∅ T []); [|exact Hext]. intros p n. rewrite lookup_empty.
    split; [done|]. destruct n; [by intros ?%not_elem_of_nil|]. by intros (?&?&?%not_elem_of_nil&_). }
  simpl. rewrite length_map. repeat (split; [done|]).
  erewrite files_size_entries by exact HF. split; [done|]. split; [done|].
  apply Forall_map. eapply Forall_impl; [exact HF|]. intros e [? ? ? ? ?]. simpl.
  rewrite slice_length by lia. naive_solver lia.
Qed.
End Reader.

(** ** The reader stops *)

Lemma bind_not_err {A B E} (r : result A E) (k : A -> result B E) e :
  r <> Err e -> (forall a, r = Ok a -> k a <> Err e) -> result_bind r k <> Err e.
Proof. destruct r; simpl; [by auto|congruence]. Qed.

Lemma check_not_err b m e : m <> e -> check b m <> Err e.
Proof. unfold check. destruct b; congruence. Qed.

Lemma check_all_not_err {A} (f : A -> ArchiveResult unit) l e :
  (forall x, f x <> Err e) -> check_all f l <> Err e.
Proof. intros Hf. induction l; simpl; [done|]. by apply bind_not_err. Qed.

(** Every error of a chain of checks is one of its messages. *)
Ltac other_error :=
  repeat first
    [ progress intros
    | discriminate
    | apply bind_not_err
    | apply check_not_err; discriminate
    | apply check_all_not_err
    | case_match ].

Section Stops.
Context `{ArchiveLib}.

Definition OUT_OF_ROUNDS : string := "out of rounds".

Lemma identity_validate_rounds i : identity_validate i <> Err OUT_OF_ROUNDS.
Proof.
  unfold identity_validate, validate_git_host, validate_repository, validate_git_tree, validate_sha256,
    validate_compiler_identity, validate_text. other_error.
Qed.

Lemma validate_identity_rounds b limits : validate_identity b limits <> Err OUT_OF_ROUNDS.
Proof. unfold validate_identity. pose proof identity_validate_rounds. other_error. Qed.

Lemma normalized_archive_path_rounds raw : normalized_archive_path raw <> Err OUT_OF_ROUNDS.
Proof.
  unfold normalized_archive_path. other_error.
  assert (Hr : forall cs, result_all normal_part cs <> Err OUT_OF_ROUNDS); [|done].
  intros cs. induction cs as [|c cs IH]; simpl; [done|]. destruct c; simpl; other_error; done.
Qed.

Lemma read_entry_rounds header limits seen total : read_entry header limits seen total <> Err OUT_OF_ROUNDS.
Proof.
  unfold read_entry. destruct (header_cksum header); [|done]. apply bind_not_err; [other_error|intros _ _].
  apply bind_not_err; [other_error|intros _ _]. destruct (from_utf8 _); [|done].
  apply bind_not_err; [apply normalized_archive_path_rounds|]. other_error.
Qed.

Lemma entry_end_rounds offset size total : entry_end offset size total <> Err OUT_OF_ROUNDS.
Proof. unfold entry_end. other_error. Qed.

Lemma tar_loop_rounds fuel snapshot limits offset seen entries identity total :
  (0 <= offset)%Z -> (len snapshot - offset < Z.of_nat fuel)%Z -> (0 < fuel)%nat ->
  tar_loop fuel snapshot limits offset seen entries identity total <> Err OUT_OF_ROUNDS.
Proof.
  revert offset seen entries identity total.
  induction fuel as [|fuel IH]; intros offset seen entries identity total Hoff Hf Hpos; [lia|]. cbn [tar_loop].
  destruct (offset <? len snapshot)%Z eqn:Eo; [|done]. cbn [negb]. bool_to_prop.
  destruct (forallb is_zero _); [other_error|].
  apply bind_not_err; [apply read_entry_rounds|]. intros [[path size] total'] Hr.
  destruct (read_entry_ok _ _ _ _ _ _ _ Hr) as (_ & _ & _ & Hs & _).
  apply bind_not_err; [apply entry_end_rounds|]. intros e He. apply entry_end_ok in He; [|done].
  case_bool_decide; (apply bind_not_err; [by apply validate_identity_rounds || other_error|]);
    intros _ _; apply IH; lia.
Qed.

(** The tar reader terminates on every input: each round consumes at least one 512-byte block, so a round per byte is never exhausted and the loop always ends in a decision of the code. *)
Theorem validate_tar_terminates snapshot limits : validate_tar snapshot limits <> Err OUT_OF_ROUNDS.
Proof.
  unfold validate_tar. apply bind_not_err; [other_error|]. intros _ _.
  apply tar_loop_rounds; unfold len; lia.
Qed.
End Stops.

(** ** Captured caches restore *)

(** The zero bytes after the contents of an entry. *)
Definition padding (size : Z) : nat := Z.to_nat ((size + 511) / 512 * 512 - size).

Definition tar_block (e : Bytes * Bytes) : Bytes := e.1 ++ e.2 ++ replicate (padding (len e.2)) 0%N.

(** What capturing and restoring rely on of the libraries: gzip is lossless,
    a digest is 64 lowercase hexadecimal digits, the tar builder lays out
    headers and padded contents and two zero blocks, and a header it made for
    a normalized path is read back. *)
Class ArchiveLaws `{ArchiveLib} : Prop := {
  gz_round_trip b : gz_decode (gz_encode b) = Some b;
  sha256_hex b : validate_sha256 (sha256 b) = Ok tt;
  tar_layout es : tar_build es = concat (map tar_block es) ++ replicate 1024 0%N;
  tar_header_length p n h : tar_header p n = Some h -> length h = 512;
  tar_header_nonzero p n h : tar_header p n = Some h -> forallb is_zero h = false;
  tar_header_cksum p n h : tar_header p n = Some h -> header_cksum h = Some (header_sum h);
  tar_header_file p n h : tar_header p n = Some h -> header_is_file h = true;
  tar_header_path parts n h : parts <> [] -> Forall good_part parts ->
    tar_header (join_slash parts) n = Some h -> header_path_bytes h = into_bytes (join_slash parts);
  tar_header_size p n h : tar_header p (Z.of_N n) = Some h -> header_entry_size h = Some n
}.

(** An entry of the archive being written. *)
Record TarEntry : Type := mkTarEntry {
  te_parts : list Text;
  te_data : Bytes;
  te_header : Bytes
}.

Definition te_block (e : TarEntry) : Bytes := tar_block (te_header e, te_data e).
Definition te_identity (e : TarEntry) : bool := bool_decide (te_parts e = [IDENTITY_ENTRY]).
Definition te_sizes (es : list TarEntry) : Z := fold_right (fun e acc => (len (te_data e) + acc)%Z) 0%Z es.

Lemma te_sizes_nonneg es : (0 <= te_sizes es)%Z.
Proof. induction es as [|e es IH]; simpl; [done|]. pose proof (len_nonneg (te_data e)). lia. Qed.

Section RoundTrip.
Context `{ArchiveLaws}.

Record te_ok (limits : ArchiveLimits) (e : TarEntry) : Prop := {
  te_nonempty : te_parts e <> [];
  te_good : Forall good_part (te_parts e);
  te_no_nul : existsb (contains_char 0) (te_parts e) = false;
  te_no_backslash : existsb (contains_char 92) (te_parts e) = false;
  te_utf8 : from_utf8 (into_bytes (join_slash (te_parts e))) = Some (join_slash (te_parts e));
  te_made : tar_header (join_slash (te_parts e)) (len (te_data e)) = Some (te_header e);
  te_bound : te_identity e = false -> (len (te_data e) <= max_entry_bytes limits)%Z;
  te_valid : te_identity e = true -> validate_identity (te_data e) limits = Ok tt
}.

Lemma validate_identity_size b limits : validate_identity b limits = Ok tt ->
  (len b <= max_identity_bytes limits)%Z.
Proof.
  unfold validate_identity. intros E. apply result_bind_ok in E as ([] & Hc & _).
  apply check_ok in Hc. bool_to_prop. lia.
Qed.

Lemma read_entry_made limits e seen total :
  te_ok limits e -> te_parts e ∉ seen -> (total + len (te_data e) <= max_uncompressed_bytes limits)%Z ->
  (total + len (te_data e) <= u64_max)%Z ->
  read_entry (te_header e) limits seen total
  = Ok (te_parts e, len (te_data e), (total + len (te_data e))%Z).
Proof.
  intros [Hne Hg Hnul H92 Hu Hm Hb Hv] Hseen Ht Hu64. unfold read_entry.
  erewrite tar_header_cksum by exact Hm. rewrite Z.eqb_refl. cbn [check result_bind].
  erewrite tar_header_file by exact Hm. cbn [check result_bind].
  erewrite tar_header_path by (done || exact Hm). rewrite Hu.
  rewrite normalized_archive_path_join by done. cbn [result_bind].
  rewrite bool_decide_true by done. rewrite bool_decide_false by done. cbn [check result_bind negb].
  assert (Hm' : tar_header (join_slash (te_parts e)) (Z.of_N (Z.to_N (len (te_data e)))) = Some (te_header e)).
  { rewrite Z2N.id by apply len_nonneg. done. }
  rewrite (tar_header_size _ _ _ Hm'). rewrite Z2N.id by apply len_nonneg. cbv zeta.
  assert (Hbound : (len (te_data e) <=? (if bool_decide (te_parts e = [IDENTITY_ENTRY])
                     then max_identity_bytes limits else max_entry_bytes limits))%Z = true).
  { unfold te_identity in *. destruct (bool_decide (te_parts e = [IDENTITY_ENTRY])).
    - apply Z.leb_le, validate_identity_size. auto.
    - apply Z.leb_le. auto. }
  rewrite Hbound. cbn [check result_bind]. unfold u64_checked_add.
  rewrite (proj2 (Z.leb_le _ _) Hu64), (proj2 (Z.leb_le _ _) Ht). done.
Qed.

Lemma padding_spec size : (0 <= size)%Z -> Z.of_nat (padding size) = ((size + 511) / 512 * 512 - size)%Z.
Proof. intros Hs. unfold padding. lia. Qed.

Lemma te_block_length limits e : te_ok limits e ->
  len (te_block e) = (512 + (len (te_data e) + 511) / 512 * 512)%Z.
Proof.
  intros [_ _ _ _ _ Hm _ _]. unfold te_block, tar_block. cbn [fst snd].
  rewrite !len_app, len_replicate, padding_spec by apply len_nonneg.
  apply tar_header_length in Hm. unfold len at 1. rewrite Hm. lia.
Qed.

(** What the reader makes of the entries from an offset. *)
Fixpoint ventries (offset : Z) (es : list TarEntry) : list ValidatedEntry :=
  match es with
  | [] => []
  | e :: rest =>
      (if te_identity e then [] else [mkValidatedEntry (te_parts e) (offset + 512) (len (te_data e))])
      ++ ventries (offset + len (te_block e)) rest
  end.

Definition found (identity : option Bytes) (es : list TarEntry) : option Bytes :=
  fold_left (fun acc e => if te_identity e then Some (te_data e) else acc) es identity.

Definition tar_bytes (es : list TarEntry) : Bytes := concat (map te_block es) ++ replicate 1024 0%N.

(** The blocks of entries read back, from any position. *)
Lemma tar_loop_made limits es : forall fuel pre snapshot seen entries identity total,
  snapshot = pre ++ tar_bytes es -> (len snapshot <= u64_max)%Z -> length es < fuel ->
  Forall (te_ok limits) es -> NoDup (map te_parts es) -> (forall e, e ∈ es -> te_parts e ∉ seen) ->
  (total + te_sizes es <= max_uncompressed_bytes limits)%Z -> (total + te_sizes es <= u64_max)%Z ->
  length entries + length (List.filter (fun e => negb (te_identity e)) es) <= max_entries limits ->
  tar_loop fuel snapshot limits (len pre) seen entries identity total =
    match found identity es with
    | Some i => Ok (entries ++ ventries (len pre) es, i, (total + te_sizes es)%Z)
    | None => Err "compiler cache archive is missing its identity"
    end.
Proof.
  induction es as [|e es IH]; intros fuel pre snapshot seen entries identity total Hs Hu Hf Hok Hnd Hseen Ht Ht64 Hn;
    (destruct fuel as [|fuel]; [simpl in Hf; lia|]); cbn [tar_loop].
  - unfold tar_bytes in Hs. cbn [map concat app] in Hs.
    assert (Hl : len snapshot = (len pre + 1024)%Z) by (rewrite Hs, len_app, len_replicate; lia).
    rewrite (proj2 (Z.ltb_lt _ _)) by lia. cbn [negb].
    assert (Hz : forall k n, (len pre <= k)%Z -> forallb is_zero (slice k n snapshot) = true).
    { intros k n Hk. apply forallb_forall. intros x Hx. apply list_elem_of_In in Hx. unfold slice in Hx.
      apply elem_of_take in Hx as (j & Hj & _). rewrite lookup_drop, Hs in Hj.
      rewrite lookup_app_r in Hj by (unfold len in Hk; lia).
      apply lookup_replicate in Hj as [-> _]. done. }
    rewrite Hz by lia. rewrite (proj2 (Z.leb_le _ _)) by lia. cbn [check result_bind].
    rewrite Hz by lia. cbn [check result_bind found fold_left]. simpl.
    destruct identity; [|done]. by rewrite app_nil_r, Z.add_0_r.
  - apply Forall_cons in Hok as [He Hok]. simpl in Hnd. apply NoDup_cons in Hnd as [Hne Hnd].
    simpl in Ht, Ht64. pose proof (te_sizes_nonneg es) as Hpos. pose proof (len_nonneg pre) as Hpre.
    pose proof (len_nonneg (te_data e)) as Hd.
    pose proof (te_block_length _ _ He) as Hbl.
    assert (Hsplit : snapshot = pre ++ te_header e ++ (te_data e ++ replicate (padding (len (te_data e))) 0%N ++ tar_bytes es)).
    { rewrite Hs. unfold tar_bytes. cbn [map concat]. unfold te_block at 1, tar_block. cbn [fst snd]. by rewrite <- !app_assoc. }
    assert (Hhl : len (te_header e) = 512%Z).
    { destruct He. unfold len. erewrite tar_header_length; [done|eassumption]. }
    assert (Hlen : (len snapshot = len pre + len (te_block e) + len (tar_bytes es))%Z).
    { rewrite Hs. unfold tar_bytes. cbn [map concat]. rewrite !len_app. lia. }
    pose proof (len_nonneg (tar_bytes es)) as Hrest.
    rewrite (proj2 (Z.ltb_lt _ _)) by lia. cbn [negb].
    assert (Hh : slice (len pre) 512 snapshot = te_header e) by (rewrite Hsplit; apply slice_middle; done).
    rewrite Hh. erewrite tar_header_nonzero by (destruct He; eassumption).
    rewrite read_entry_made by (done || lia || (apply Hseen; by left)). cbn [result_bind].
    assert (Hend : entry_end (len pre + 512) (len (te_data e)) (len snapshot) = Ok (len pre + len (te_block e))%Z).
    { unfold entry_end, u64_checked_add.
      rewrite (proj2 (Z.leb_le (len (te_data e) + 511) u64_max)) by lia.
      rewrite (proj2 (Z.leb_le (len pre + 512 + _) u64_max)) by lia.
      rewrite (proj2 (Z.leb_le (len pre + 512 + _) (len snapshot))) by lia. simpl. f_equal. lia. }
    rewrite Hend. cbn [result_bind].
    assert (Hpre' : (len pre + len (te_block e))%Z = len (pre ++ te_block e)) by (by rewrite len_app).
    assert (Hsnap : snapshot = (pre ++ te_block e) ++ tar_bytes es).
    { rewrite Hs. unfold tar_bytes. cbn [map concat]. by rewrite <- !app_assoc. }
    assert (Hseen' : forall e', e' ∈ es -> te_parts e' ∉ te_parts e :: seen).
    { intros e' Hin. apply not_elem_of_cons. split; [|apply Hseen; by right]. intros E. apply Hne. rewrite <- E.
      by apply list_elem_of_fmap_2. }
    cbn [found fold_left ventries]. fold (te_identity e). simpl in Hn. simpl in Hf.
    destruct (te_identity e) eqn:Ei.
    + assert (Hdata : slice (len pre + 512) (len (te_data e)) snapshot = te_data e).
      { rewrite Hsplit, app_assoc. apply slice_middle; [by rewrite len_app, Hhl|done]. }
      rewrite Hdata. destruct He. rewrite te_valid0 by done. cbn [result_bind].
      rewrite Hpre', (IH fuel (pre ++ te_block e) snapshot); try (done || lia || (simpl in Hn; lia)).
      unfold found. destruct (fold_left _ _ _); [|done]. rewrite <- Hpre'. do 2 f_equal. cbn [te_sizes fold_right]. fold (te_sizes es). lia.
    + simpl in Hn. rewrite (proj2 (Nat.eqb_neq _ _)) by lia. cbn [check negb result_bind].
      rewrite Hpre', (IH fuel (pre ++ te_block e) snapshot) by
        (done || (rewrite ?length_app; simpl in *; lia)).
      unfold found. destruct (fold_left _ _ _); [|done]. rewrite <- app_assoc, <- Hpre'. do 2 f_equal.
      cbn [te_sizes fold_right]. fold (te_sizes es). lia.
Qed.

Lemma ventries_files limits es : forall pre snapshot, snapshot = pre ++ tar_bytes es ->
  Forall (te_ok limits) es ->
  map (entry_file snapshot) (ventries (len pre) es)
  = map (fun e => (te_parts e, te_data e)) (List.filter (fun e => negb (te_identity e)) es).
Proof.
  induction es as [|e es IH]; intros pre snapshot Hs Hok; [done|]. apply Forall_cons in Hok as [He Hok].
  cbn [ventries]. rewrite map_app.
  assert (Hsnap : snapshot = (pre ++ te_block e) ++ tar_bytes es).
  { rewrite Hs. unfold tar_bytes. cbn [map concat]. by rewrite <- !app_assoc. }
  rewrite <- len_app, (IH _ _ Hsnap Hok). simpl. destruct (te_identity e); [done|]. simpl. f_equal.
  unfold entry_file. simpl. f_equal. rewrite Hsnap. unfold te_block, tar_block. cbn [fst snd].
  replace ((pre ++ te_header e ++ te_data e ++ replicate (padding (len (te_data e))) 0%N) ++ tar_bytes es)
    with ((pre ++ te_header e) ++ te_data e ++ (replicate (padding (len (te_data e))) 0%N ++ tar_bytes es))
    by by rewrite <- !app_assoc.
  destruct He. apply slice_middle; [|done]. rewrite len_app. f_equal. unfold len.
  erewrite tar_header_length; [done|eassumption].
Qed.

Lemma tar_bytes_length limits es : Forall (te_ok limits) es ->
  (len (tar_bytes es) mod 512 = 0 /\
   te_sizes es + 512 * len es + 1024 <= len (tar_bytes es) <= te_sizes es + 1023 * len es + 1024)%Z.
Proof.
  unfold tar_bytes. rewrite len_app, len_replicate. intros HF.
  induction HF as [|e es He HF IH]; [done|]. cbn [map concat te_sizes fold_right]. fold (te_sizes es).
  rewrite len_app, (te_block_length _ _ He). pose proof (len_nonneg (te_data e)).
  unfold len in *. rewrite length_cons. lia.
Qed.
End RoundTrip.

(** ** The tree that is captured *)

(** What a file system says of a directory entry's name. *)
Definition valid_name (b : Bytes) : bool :=
  negb (is_nil b) && negb (existsb (N.eqb 47) b) && negb (existsb (N.eqb 0) b)
  && negb (bool_decide (b = [46%N])) && negb (bool_decide (b = [46; 46]%N)).

Fixpoint well_formed (node : CacheNode) : bool :=
  match node with
  | CacheDir entries =>
      bool_decide (NoDup (map fst entries)) && forallb (fun e => valid_name e.1 && well_formed e.2) entries
  | _ => true
  end.

(** No name holds a backslash. *)
Fixpoint no_backslash (node : CacheNode) : bool :=
  match node with
  | CacheDir entries => forallb (fun e => negb (existsb (N.eqb 92) e.1) && no_backslash e.2) entries
  | _ => true
  end.

Fixpoint assoc (name : Bytes) (entries : list (Bytes * CacheNode)) : option CacheNode :=
  match entries with
  | [] => None
  | (n, child) :: rest => if bool_decide (n = name) then Some child else assoc name rest
  end.

(** The contents of the file at a path. *)
Fixpoint file_at (node : CacheNode) (path : list Bytes) : option Bytes :=
  match path, node with
  | [], CacheFile c _ => Some c
  | name :: rest, CacheDir entries =>
      match assoc name entries with Some child => file_at child rest | None => None end
  | _, _ => None
  end.

Definition scalars (p : list Text) : Prop := Forall (Forall (fun c => is_scalar c = true)) p.

Lemma CacheNode_tree_ind (P : CacheNode -> Prop) :
  (forall c n, P (CacheFile c n)) -> P CacheOther ->
  (forall es, Forall (fun e => P e.2) es -> P (CacheDir es)) -> forall node, P node.
Proof.
  intros Hf Ho Hd. fix IH 1. intros [c n|es|]; [apply Hf| |apply Ho]. apply Hd.
  induction es as [|[n c] es IHes]; constructor; [apply IH|exact IHes].
Qed.

Lemma assoc_elem name es child : assoc name es = Some child -> (name, child) ∈ es.
Proof.
  induction es as [|[n c] es IH]; simpl; [done|]. case_bool_decide as E.
  - intros [= ->]. subst n. by left.
  - intros E'. right. auto.
Qed.

Lemma file_at_prefix_free a : forall node b c d,
  file_at node a = Some c -> file_at node (a ++ b) = Some d -> b = [].
Proof.
  induction a as [|name a IH]; intros node b c d Ha Hab; simpl in *.
  - destruct node; [|done..]. by destruct b.
  - destruct node as [|es|]; [done| |done]. destruct (assoc name es); [|done]. by eapply IH.
Qed.

Lemma file_at_names (ok : Bytes -> bool) (holds : CacheNode -> bool) :
  (forall es, holds (CacheDir es) = true -> Forall (fun e => ok e.1 = true /\ holds e.2 = true) es) ->
  forall p node c, holds node = true -> file_at node p = Some c -> Forall (fun b => ok b = true) p.
Proof.
  intros Hdir p. induction p as [|name p IH]; intros node c Hh Hf; [constructor|]. simpl in Hf.
  destruct node as [|es|]; [done| |done]. destruct (assoc name es) as [child|] eqn:E; [|done].
  apply assoc_elem in E. apply Hdir in Hh. rewrite Forall_forall in Hh.
  destruct (Hh _ E) as [H1 H2]. simpl in *. constructor; [done|]. by eapply IH.
Qed.

Lemma file_at_valid node p c : well_formed node = true -> file_at node p = Some c ->
  Forall (fun b => valid_name b = true) p.
Proof.
  apply (file_at_names valid_name well_formed). intros es Hw. simpl in Hw. bool_to_prop.
  apply Forall_forall. intros e He. match goal with H : forallb _ _ = true |- _ =>
    rewrite forallb_forall in H; specialize (H e (proj1 (list_elem_of_In _ _) He)) end.
  by bool_to_prop.
Qed.

Lemma file_at_no_backslash node p c : no_backslash node = true -> file_at node p = Some c ->
  Forall (fun b => negb (existsb (N.eqb 92) b) = true) p.
Proof.
  apply (file_at_names (fun b => negb (existsb (N.eqb 92) b)) no_backslash). intros es Hw. simpl in Hw.
  rewrite forallb_forall in Hw. apply Forall_forall. intros e He.
  specialize (Hw e (proj1 (list_elem_of_In _ _) He)). by apply andb_true_iff in Hw.
Qed.

(** ASCII characters are their own bytes. *)
Lemma ascii_in_bytes c t : (c < 128)%N -> c ∈ t -> c ∈ into_bytes t.
Proof.
  intros Hc Hin. unfold into_bytes. apply list_elem_of_bind. exists c. split; [|done].
  unfold utf8_encode_char. rewrite (proj2 (N.ltb_lt _ _) Hc). by left.
Qed.

Lemma existsb_contains c t : (c < 128)%N -> existsb (N.eqb c) (into_bytes t) = false -> contains_char c t = false.
Proof.
  intros Hc Hb. apply not_true_iff_false. rewrite contains_char_spec. intros Hin.
  apply (ascii_in_bytes c t Hc) in Hin. apply not_true_iff_false in Hb. apply Hb.
  apply existsb_exists. exists c. split; [by apply list_elem_of_In|apply N.eqb_refl].
Qed.

Lemma valid_name_good t : valid_name (into_bytes t) = true -> good_part t /\ contains_char 0 t = false.
Proof.
  unfold valid_name. intros Hv. bool_to_prop. split.
  - constructor.
    + by intros ->.
    + intros Hin. apply (proj2 (contains_char_spec 47 t)) in Hin.
      by rewrite existsb_contains in Hin by done.
    + by intros ->.
    + by intros ->.
  - by apply existsb_contains.
Qed.

(** The names on the way to a node, decoded. *)
Definition utf8_names (path : list Bytes) (pts : list Text) : Prop :=
  Forall2 (fun b t => from_utf8 b = Some t) path pts.

Definition source_of (path : list Bytes) (s : SourceFile) (f : list Text * Bytes) : Prop :=
  exists pts, utf8_names path pts /\ s = mkSourceFile (join_slash (pts ++ f.1)) f.2.

(** The files of a list of directory entries. *)
Definition files_of (es : list (Bytes * CacheNode)) (files : list (list Text * Bytes)) : Prop :=
  NoDup (map fst files) /\
  forall p c, (p, c) ∈ files <-> scalars p /\ file_at (CacheDir es) (map into_bytes p) = Some c.

Definition collects (path : list Bytes) (node : CacheNode) : Prop := forall srcs,
  well_formed node = true -> collect_sources path node = Ok srcs ->
  exists files, Forall2 (source_of path) srcs files /\ NoDup (map fst files) /\
    forall p c, (p, c) ∈ files <-> scalars p /\ file_at node (map into_bytes p) = Some c.

Lemma collects_file path content nlink : collects path (CacheFile content nlink).
Proof.
  intros srcs _ E. cbn [collect_sources] in E. apply result_bind_ok in E as ([] & _ & E).
  apply result_bind_ok in E as (rel & Hrel & [= <-]). unfold normalized_relative in Hrel.
  apply result_bind_ok in Hrel as (pts & Hpts & Hrel). destruct (is_nil pts); [done|].
  injection Hrel as <-. apply result_all_ok in Hpts.
  exists [([], content)]. split; [|split].
  - constructor; [|constructor]. exists pts. split.
    + eapply Forall2_impl; [exact Hpts|]. intros b t; simpl; intros Hb. destruct (from_utf8 b); by simplify_eq.
    + by rewrite app_nil_r.
  - apply NoDup_singleton.
  - intros p c. rewrite list_elem_of_singleton. split.
    + intros [= -> ->]. split; [constructor|done].
    + intros [_ Hf]. destruct p as [|t p]; [|done]. simpl in Hf. by simplify_eq.
Qed.

(** Taking a child's files one level up. *)
Definition under (t : Text) (files : list (list Text * Bytes)) : list (list Text * Bytes) :=
  map (fun f => (t :: f.1, f.2)) files.

Lemma elem_of_under t files p c : (p, c) ∈ under t files <-> exists q, p = t :: q /\ (q, c) ∈ files.
Proof.
  unfold under. rewrite list_elem_of_fmap. split.
  - intros ([q d] & [= -> ->] & Hin). eauto.
  - intros (q & -> & Hin). by exists (q, c).
Qed.

Lemma NoDup_under t files : NoDup (map fst files) -> NoDup (map fst (under t files)).
Proof.
  unfold under. rewrite map_map. simpl. intros Hnd.
  assert (E : map (fun f : list Text * Bytes => t :: f.1) files = map (cons t) (map fst files))
    by by rewrite map_map.
  rewrite E. apply NoDup_fmap_2; [|done]. by intros ?? [= ->].
Qed.

Lemma source_of_child path name t s f : from_utf8 name = Some t ->
  source_of (path ++ [name]) s f -> source_of path s (t :: f.1, f.2).
Proof.
  intros Ht (pts & Hp & ->). apply Forall2_app_inv_l in Hp as (pts0 & ts & Hp & Hts & ->).
  apply Forall2_cons_inv_l in Hts as (t' & ts' & Ht' & Hnil & ->). apply Forall2_nil_inv_l in Hnil as ->.
  simplify_eq. exists pts0. split; [done|]. simpl. by rewrite <- app_assoc.
Qed.

Lemma into_bytes_utf8 b t : scalars [t] -> into_bytes t = b -> from_utf8 b = Some t.
Proof. intros Hs <-. apply from_utf8_round_trip. by apply Forall_cons in Hs as [Ht _]. Qed.

(** The loop over a directory's entries. *)
Lemma collects_entries path es :
  Forall (fun e => forall path, collects path e.2) es -> forall srcs,
  NoDup (map fst es) -> forallb (fun e => valid_name e.1 && well_formed e.2) es = true ->
  collect_sources path (CacheDir es) = Ok srcs ->
  exists files, Forall2 (source_of path) srcs files /\ files_of es files.
Proof.
  intros HF. induction HF as [|[name child] es Hc HF IH]; intros srcs Hnd Hw E.
  - injection E as <-. exists []. split; [constructor|]. split; [constructor|].
    intros p c. split; [by intros ?%not_elem_of_nil|]. intros [_ Hf]. by destruct p.
  - simpl in Hnd. apply NoDup_cons in Hnd as [Hne Hnd]. simpl in Hw. bool_to_prop. simpl in Hc.
    apply result_bind_ok in E as (xs & Ex & E). apply result_bind_ok in E as (ys & Ey & [= <-]).
    destruct (Hc _ _ ltac:(done) Ex) as (fa & Ha & Hnda & Hspeca).
    destruct (IH ys) as (fb & Hb & Hndb & Hspecb); [done..|].
    assert (Hother : forall t q c, (t :: q, c) ∈ fb -> into_bytes t <> name).
    { intros t q c Hin Et. apply Hspecb in Hin as [_ Hf]. simpl in Hf.
      destruct (assoc (into_bytes t) es) eqn:Ea; [|done]. apply assoc_elem in Ea. apply Hne.
      rewrite <- Et. by apply (list_elem_of_fmap_2 fst) in Ea. }
    assert (Hnonnil : forall c, ([], c) ∉ fb) by (intros c [_ Hf]%Hspecb; done).
    destruct (from_utf8 name) as [t|] eqn:Et.
    + exists (under t fa ++ fb). split; [|split].
      * apply Forall2_app; [|done]. unfold under. apply Forall2_fmap_r. eapply Forall2_impl; [exact Ha|].
        intros s f. by apply source_of_child.
      * rewrite map_app. apply NoDup_app. split; [by apply NoDup_under|]. split; [|done].
        intros p Hp Hq. apply list_elem_of_fmap in Hp as ([p' c] & -> & Hp).
        apply elem_of_under in Hp as (q & -> & _). apply list_elem_of_fmap in Hq as ([p2 c2] & Ep & Hq).
        simpl in Ep. subst p2. eapply Hother; [exact Hq|]. by apply from_utf8_into_bytes.
      * intros p c. rewrite elem_of_app, elem_of_under. split.
        -- intros [(q & -> & Hin)|Hin].
           ++ apply Hspeca in Hin as [Hs Hf]. split.
              ** constructor; [by eapply from_utf8_scalar|done].
              ** simpl. rewrite bool_decide_true by (symmetry; by apply from_utf8_into_bytes). done.
           ++ destruct p as [|t' q]; [by exfalso; eapply Hnonnil|].
              pose proof (Hother _ _ _ Hin). apply Hspecb in Hin as [Hs Hf]. split; [done|].
              simpl. rewrite bool_decide_false by done. done.
        -- intros [Hs Hf]. destruct p as [|t' q]; [done|]. simpl in Hf.
           apply Forall_cons in Hs as [Ht' Hs]. case_bool_decide as En.
           ++ left. exists q. rewrite (into_bytes_utf8 name t') in Et by (done || by constructor).
              injection Et as ->. split; [done|]. by apply Hspeca.
           ++ right. apply Hspecb. split; [by constructor|done].
    + exists fb. assert (fa = []) as ->.
      { destruct Ha as [|s f ? ? (pts & Hp & _) _]; [done|]. exfalso.
        apply Forall2_app_inv_l in Hp as (? & ? & _ & Hp & _).
        by apply Forall2_cons_inv_l in Hp as (? & ? & ? & _); simplify_eq. }
      apply Forall2_nil_inv_r in Ha as ->. simpl. split; [done|]. split; [done|].
      intros p c. split.
      * intros Hin. destruct p as [|t' q]; [by exfalso; eapply Hnonnil|].
        pose proof (Hother _ _ _ Hin). apply Hspecb in Hin as [Hs Hf]. split; [done|].
        simpl. rewrite bool_decide_false by done. done.
      * intros [Hs Hf]. destruct p as [|t' q]; [done|]. simpl in Hf.
        apply Forall_cons in Hs as [Ht' Hs]. case_bool_decide as En.
        -- by rewrite (into_bytes_utf8 name t') in Et by (done || by constructor).
        -- apply Hspecb. split; [by constructor|done].
Qed.

Lemma collect_sources_spec node : forall path, collects path node.
Proof.
  induction node as [c n| |es HF] using CacheNode_tree_ind; intros path.
  - apply collects_file.
  - by intros srcs _ E.
  - intros srcs Hw E. simpl in Hw. bool_to_prop.
    destruct (collects_entries path es HF srcs) as (files & HF2 & Hnd & Hspec); [done..|].
    by exists files.
Qed.

(** ** Assembling the round trip *)

Definition mk_source (f : list Text * Bytes) : SourceFile := mkSourceFile (join_slash f.1) f.2.
Definition joined (f : list Text * Bytes) : Text * Bytes := (join_slash f.1, f.2).

Lemma sources_at_root srcs files : Forall2 (source_of []) srcs files -> srcs = map mk_source files.
Proof.
  intros HF. induction HF as [|s f srcs files (pts & Hp & ->) HF IH]; [done|].
  apply Forall2_nil_inv_l in Hp as ->. simpl. by rewrite IH.
Qed.

Lemma account_sources_ok limits srcs : forall total u, account_sources limits total srcs = Ok u ->
  u = (total + fold_right (fun s acc => len (src_content s) + acc) 0 srcs)%Z /\
  (srcs <> [] -> (u <= max_uncompressed_bytes limits)%Z) /\
  Forall (fun s => src_relative s <> IDENTITY_ENTRY /\ (len (src_content s) <= max_entry_bytes limits)%Z) srcs.
Proof.
  induction srcs as [|s srcs IH]; intros total u E; simpl in E.
  - injection E as <-. split; [simpl; lia|]. split; [done|constructor].
  - apply result_bind_ok in E as ([] & Hi & E). apply check_ok in Hi.
    apply result_bind_ok in E as ([] & Hb & E). apply check_ok in Hb. unfold u64_checked_add in E.
    destruct (_ <=? u64_max)%Z; [|done]. apply result_bind_ok in E as ([] & Hm & E). apply check_ok in Hm.
    apply IH in E as (-> & Hmax & HF). bool_to_prop. split; [simpl; lia|]. split.
    + intros _. destruct srcs; [simpl; lia|by apply Hmax].
    + by constructor.
Qed.

Lemma with_identity_joined identity fs : exists a b, fs = a ++ b /\
  with_identity identity (map mk_source fs) = map joined (a ++ ([IDENTITY_ENTRY], identity) :: b).
Proof.
  induction fs as [|f fs (a & b & -> & IH)]; [exists [], []; split; reflexivity|]. cbn [with_identity map].
  case_match eqn:E.
  - exists [], (f :: a ++ b). split; [done|]. cbn [app map]. f_equal. f_equal.
    rewrite map_map. by apply map_ext.
  - exists (f :: a), b. split; [done|]. cbn [app map]. f_equal. exact IH.
Qed.

Section Assembly.
Context `{ArchiveLaws}.

Lemma add_headers_entries L hs : result_all add_header (map joined L) = Ok hs ->
  exists es, map (fun e => (te_parts e, te_data e)) es = L /\
    hs = map (fun e => (te_header e, te_data e)) es /\
    Forall (fun e => tar_header (join_slash (te_parts e)) (len (te_data e)) = Some (te_header e)) es.
Proof.
  revert hs. induction L as [|[p d] L IH]; intros hs E; cbn [map result_all] in E.
  - injection E as <-. exists []. by split.
  - apply result_bind_ok in E as ([h d'] & Hh & E). apply result_bind_ok in E as (hs' & E & [= <-]).
    destruct (IH _ E) as (es & HL & -> & HF). unfold add_header in Hh. simpl in Hh.
    destruct (tar_header _ _) as [b|] eqn:Eh; [|done]. injection Hh as <- <-.
    exists (mkTarEntry p d b :: es). simpl. rewrite HL. split; [done|]. split; [done|]. by constructor.
Qed.

Lemma te_block_map es : concat (map tar_block (map (fun e => (te_header e, te_data e)) es)) = concat (map te_block es).
Proof. by rewrite map_map. Qed.

Lemma from_utf8_join p : scalars p -> from_utf8 (into_bytes (join_slash p)) = Some (join_slash p).
Proof.
  intros Hs. apply from_utf8_round_trip. induction Hs as [|t p Ht Hs IH]; [constructor|].
  destruct p as [|t' p]; [done|].
  change (join_slash (t :: t' :: p)) with (t ++ 47%N :: join_slash (t' :: p)).
  apply Forall_app. split; [done|]. by constructor.
Qed.

Lemma IDENTITY_part : good_part IDENTITY_ENTRY.
Proof.
  assert (E : IDENTITY_ENTRY <> [] /\ contains_char 47 IDENTITY_ENTRY = false /\
              IDENTITY_ENTRY <> [46%N] /\ IDENTITY_ENTRY <> [46; 46]%N) by (vm_compute; repeat split; discriminate).
  destruct E as (E1 & E2 & E3 & E4). constructor; [exact E1| |exact E3|exact E4].
  intros Hin. apply contains_char_spec in Hin. rewrite E2 in Hin. discriminate.
Qed.

(** The entries of a captured tree are readable. *)
Lemma captured_entries_ok limits root identity es :
  well_formed root = true -> no_backslash root = true -> validate_identity identity limits = Ok tt ->
  Forall (fun e => tar_header (join_slash (te_parts e)) (len (te_data e)) = Some (te_header e)) es ->
  (forall e, e ∈ es -> (te_parts e = [IDENTITY_ENTRY] /\ te_data e = identity) \/
     (te_parts e <> [] /\ te_parts e <> [IDENTITY_ENTRY] /\ scalars (te_parts e) /\
      file_at root (map into_bytes (te_parts e)) = Some (te_data e) /\
      (len (te_data e) <= max_entry_bytes limits)%Z)) ->
  Forall (te_ok limits) es.
Proof.
  intros Hw Hb Hv Hmade Hes. apply Forall_forall. intros e He. rewrite Forall_forall in Hmade.
  pose proof (Hmade e He) as Hm. destruct (Hes e He) as [[Hp Hd]|(Hne & Hid & Hs & Hf & Hl)].
  - constructor; unfold te_identity; rewrite ?Hp, ?Hd in *; try done.
    constructor; [apply IDENTITY_part|constructor].
  - pose proof (file_at_valid _ _ _ Hw Hf) as Hval. pose proof (file_at_no_backslash _ _ _ Hb Hf) as Hnb.
    apply Forall_map in Hval, Hnb. unfold compose in Hval, Hnb.
    assert (Hnone : forall c, (forall t, t ∈ te_parts e -> contains_char c t = false) ->
              existsb (contains_char c) (te_parts e) = false).
    { intros c Hc. apply not_true_iff_false. intros (t & Ht & Hx)%existsb_exists.
      apply list_elem_of_In in Ht. by rewrite Hc in Hx. }
    rewrite Forall_forall in Hval, Hnb.
    constructor; try done.
    + apply Forall_forall. intros t Ht. by apply valid_name_good, Hval.
    + apply Hnone. intros t Ht. by apply valid_name_good, Hval.
    + apply Hnone. intros t Ht. apply existsb_contains; [done|]. by apply negb_true_iff, Hnb.
    + by apply from_utf8_join.
    + unfold te_identity. by rewrite bool_decide_false.
Qed.

Lemma found_identity identity es : NoDup (map te_parts es) -> forall pre post e,
  es = pre ++ e :: post -> te_parts e = [IDENTITY_ENTRY] -> te_data e = identity ->
  found None es = Some identity /\
  List.filter (fun e => negb (te_identity e)) es = pre ++ post.
Proof.
  intros Hnd pre post e -> Hp Hd. rewrite map_app in Hnd. simpl in Hnd.
  apply NoDup_app in Hnd as (_ & Hdis & Hnd). apply NoDup_cons in Hnd as [Hpost _].
  assert (Hno : forall l, (forall x, x ∈ l -> te_parts x <> [IDENTITY_ENTRY]) ->
            List.filter (fun e => negb (te_identity e)) l = l /\ forall acc, found acc l = acc).
  { intros l Hl. induction l as [|x l IH]; [done|].
    destruct IH as [IH1 IH2]; [intros y Hy; apply Hl; by right|].
    unfold found, te_identity in *. simpl. rewrite (bool_decide_false (te_parts x = _)) by (apply Hl; by left).
    simpl. by rewrite IH1. }
  destruct (Hno pre) as [F1 F2].
  { intros x Hx E. apply (Hdis (te_parts x)); [by apply list_elem_of_fmap_2|]. rewrite E, Hp. by left. }
  destruct (Hno post) as [F3 F4].
  { intros x Hx E. apply Hpost. rewrite Hp, <- E. by apply list_elem_of_fmap_2. }
  assert (Hid : te_identity e = true) by by apply bool_decide_eq_true.
  split.
  - unfold found in *. rewrite fold_left_app, F2. simpl. rewrite Hid, F4. by rewrite Hd.
  - rewrite List.filter_app. simpl. rewrite Hid. simpl. by rewrite F1, F3.
Qed.

(** Files with distinct, prefix-free paths extract. *)
Lemma extract_entries_ok snapshot es : forall T files,
  tree_spec T files -> Forall (fun e => len (slice (ve_data_offset e) (ve_size e) snapshot) = ve_size e) es ->
  NoDup (map fst (files ++ map (entry_file snapshot) es)) ->
  (forall p q r, p ∈ map fst (files ++ map (entry_file snapshot) es) ->
     q ∈ map fst (files ++ map (entry_file snapshot) es) -> q = p ++ r -> r = []) ->
  exists T', extract_entries snapshot es T = Ok T'.
Proof.
  induction es as [|e es IH]; intros T files HT HF Hnd Hpf; simpl; [eauto|].
  apply Forall_cons in HF as [He HF].
  assert (Hmem : ve_path e ∈ map fst (files ++ map (entry_file snapshot) (e :: es))).
  { rewrite map_app. apply elem_of_app. right. simpl. by left. }
  assert (Hold : forall p c, (p, c) ∈ files -> p ∈ map fst (files ++ map (entry_file snapshot) (e :: es))).
  { intros p c Hin. rewrite map_app. apply elem_of_app. left. by apply (list_elem_of_fmap_2 fst) in Hin. }
  destruct (create_parents_ok [] (ve_path e) T) as [T1 HT1].
  { intros p c Hp HL. apply HT in HL. fold (parents (ve_path e)) in Hp.
    apply elem_of_parents in Hp as (_ & r & Hr & Er). apply Hr. by apply (Hpf p (ve_path e) r); eauto. }
  assert (Hnone : T1 !! ve_path e = None).
  { rewrite (create_parents_lookup _ _ _ _ HT1). rewrite bool_decide_false.
    2:{ intros (_ & r & Hr & Er)%elem_of_parents. apply Hr. by apply (Hpf (ve_path e) (ve_path e)). }
    destruct (T !! ve_path e) as [n|] eqn:En; [|done]. exfalso. apply HT in En. destruct n as [c|].
    - rewrite map_app in Hnd. apply NoDup_app in Hnd as (_ & Hdis & _).
      apply (Hdis (ve_path e)); [by apply (list_elem_of_fmap_2 fst) in En|]. simpl. by left.
    - destruct En as (q & c & Hin & (_ & r & Hr & Er)%elem_of_parents). apply Hr. by apply (Hpf (ve_path e) q r); eauto. }
  assert (E : extract_entry snapshot e T = Ok (<[ve_path e := StagedFile (slice (ve_data_offset e) (ve_size e) snapshot)]> T1)).
  { unfold extract_entry. rewrite HT1. cbn [result_bind]. rewrite Hnone. cbv zeta. by rewrite He, Z.eqb_refl. }
  rewrite E. cbn [result_bind].
  replace (files ++ map (entry_file snapshot) (e :: es))
    with ((files ++ [entry_file snapshot e]) ++ map (entry_file snapshot) es) in * by by rewrite <- app_assoc.
  eapply IH; [|done..]. by eapply extract_entry_spec.
Qed.

Lemma validate_extracted_tree_ok snapshot es T :
  tree_spec T (map (entry_file snapshot) es) ->
  Forall (fun e => len (slice (ve_data_offset e) (ve_size e) snapshot) = ve_size e) es ->
  validate_extracted_tree T es = Ok tt.
Proof.
  intros HT HF. unfold validate_extracted_tree. apply check_ok, andb_true_iff. rewrite Forall_forall in HF.
  split; apply bool_decide_eq_true, set_eq; intros x; unfold staged_files, staged_dirs;
    rewrite !elem_of_list_to_set.
  - rewrite list_elem_of_In, in_flat_map, list_elem_of_fmap. split.
    + intros ([p n] & Hin & Hx). apply list_elem_of_In, elem_of_map_to_list in Hin. apply HT in Hin.
      destruct n as [c|]; [|done]. destruct Hx as [<-|[]]. apply list_elem_of_fmap in Hin as (e & [= -> ->] & He).
      exists e. split; [|done]. simpl. by rewrite HF.
    + intros (e & -> & He). exists (ve_path e, StagedFile (slice (ve_data_offset e) (ve_size e) snapshot)).
      split; [|left; simpl; by rewrite HF]. apply list_elem_of_In, elem_of_map_to_list, HT.
      by apply (list_elem_of_fmap_2 (entry_file snapshot)) in He.
  - rewrite !list_elem_of_In, !in_flat_map. split.
    + intros ([p n] & Hin & Hx). apply list_elem_of_In, elem_of_map_to_list in Hin. apply HT in Hin.
      destruct n as [c|]; [done|]. destruct Hx as [<-|[]]. destruct Hin as (q & c & Hq & Hp).
      apply list_elem_of_fmap in Hq as (e & [= -> ->] & He). exists e. by rewrite <- !list_elem_of_In.
    + intros (e & He & Hx). apply list_elem_of_In in He, Hx. exists (x, StagedDir). split; [|by left].
      apply list_elem_of_In, elem_of_map_to_list, HT. eexists _, _. split; [|exact Hx].
      by apply (list_elem_of_fmap_2 (entry_file snapshot)) in He.
Qed.

Lemma tar_limit :
  default MAX_TAR_BYTES (u64_checked_add (max_uncompressed_bytes LIMITS)
    ((Z.of_nat (max_entries LIMITS) + 1) * 1024 + 1024)) = MAX_TAR_BYTES.
Proof. vm_compute. reflexivity. Qed.

(** An archive laid out from readable entries restores to their files. *)
Lemma restore_made es pre post e identity files :
  es = pre ++ e :: post -> te_parts e = [IDENTITY_ENTRY] -> te_data e = identity ->
  files = map (fun e => (te_parts e, te_data e)) (pre ++ post) ->
  Forall (te_ok LIMITS) es -> NoDup (map te_parts es) ->
  (forall p q r, p ∈ map fst files -> q ∈ map fst files -> q = p ++ r -> r = []) ->
  (te_sizes es <= max_uncompressed_bytes LIMITS)%Z -> length files <= max_entries LIMITS ->
  (len (gz_encode (tar_bytes es)) <= max_compressed_bytes LIMITS)%Z ->
  validate_identity identity LIMITS = Ok tt ->
  exists T,
    restore_with_limits (gz_encode (tar_bytes es)) (sha256 (gz_encode (tar_bytes es))) identity None false LIMITS
    = (Ok (mkArchiveSummary (sha256 (gz_encode (tar_bytes es))) (len (gz_encode (tar_bytes es)))
             (te_sizes es) (length files)), Some T) /\
    tree_spec T files.
Proof.
  intros Hes Hp Hd Hfiles Hok Hnd Hpf Hsz Hn Hc Hv.
  destruct (found_identity identity es Hnd pre post e Hes Hp Hd) as [Hfound Hfilter].
  destruct (tar_bytes_length _ _ Hok) as (Hmod & Hlo & Hhi).
  assert (Hlen : len es = (len files + 1)%Z).
  { rewrite Hfiles, Hes. unfold len. rewrite length_map, !length_app. simpl. lia. }
  set (snapshot := tar_bytes es) in *.
  assert (Hbig : (len snapshot <= MAX_TAR_BYTES)%Z).
  { change (max_uncompressed_bytes LIMITS) with 67108864%Z in Hsz.
    change (max_entries LIMITS) with (N.to_nat 100000) in Hn.
    change MAX_TAR_BYTES with 169510912%Z. unfold len in *. lia. }
  pose proof (ventries_files LIMITS es [] snapshot eq_refl Hok) as Hvf. change (len []) with 0%Z in Hvf.
  rewrite Hfilter, <- Hfiles in Hvf.
  assert (Htar : validate_tar snapshot LIMITS = Ok (ventries 0 es, identity, te_sizes es)).
  { unfold validate_tar. rewrite Hmod. cbn [check result_bind Z.eqb].
    pose proof (tar_loop_made LIMITS es (S (length snapshot)) [] snapshot [] [] None 0) as L.
    change (len []) with 0%Z in L. rewrite L, Hfound.
    - reflexivity.
    - reflexivity.
    - apply (Z.le_trans _ MAX_TAR_BYTES); [exact Hbig|by vm_compute].
    - clear -Hlo. unfold len in *. pose proof (te_sizes_nonneg es). lia.
    - exact Hok.
    - exact Hnd.
    - intros ? _. apply not_elem_of_nil.
    - exact Hsz.
    - apply (Z.le_trans _ (max_uncompressed_bytes LIMITS)); [exact Hsz|by vm_compute].
    - rewrite Hfilter. rewrite Hfiles, length_map in Hn. exact Hn. }
  assert (Hpos : (0 <= max_uncompressed_bytes LIMITS)%Z) by (change (max_uncompressed_bytes LIMITS) with 67108864%Z; lia).
  destruct (validate_tar_accepts _ _ _ _ _ Hpos Htar) as (HFb & _).
  assert (Hslices : Forall (fun v => len (slice (ve_data_offset v) (ve_size v) snapshot) = ve_size v) (ventries 0 es)).
  { eapply Forall_impl; [exact HFb|]. intros v [_ _ _ [? _] [? ?]]. by apply slice_length. }
  assert (Hempty : tree_spec ∅ []).
  { intros p n. rewrite lookup_empty. split; [done|]. destruct n; [by intros ?%not_elem_of_nil|].
    by intros (?&?&?%not_elem_of_nil&_). }
  destruct (extract_entries_ok snapshot (ventries 0 es) ∅ []) as [T HT]; [done|done| |rewrite Hvf; exact Hpf|].
  { simpl. rewrite Hvf, Hfiles, map_map. simpl. rewrite Hes, map_app in Hnd. simpl in Hnd.
    rewrite map_app. apply NoDup_app in Hnd as (N1 & N2 & N3). apply NoDup_cons in N3 as [N3 N4].
    apply NoDup_app. repeat split; [done| |done]. intros x Hx Hy. apply (N2 x Hx). by right. }
  pose proof (extract_entries_spec _ _ _ _ _ Hempty HT) as Hspec. simpl in Hspec.
  exists T. split; [|by rewrite <- Hvf].
  unfold restore_with_limits. rewrite sha256_hex, Hv. cbn [result_bind is_none is_some negb check].
  rewrite (proj2 (Z.leb_le _ _) Hc). rewrite bool_decide_true by done. cbn [result_bind check].
  unfold decode_bounded. rewrite gz_round_trip. fold snapshot.
  rewrite tar_limit. cbv zeta.
  rewrite (proj2 (Z.leb_le _ _) Hbig). cbn [result_bind check]. rewrite Htar. cbn [result_bind].
  rewrite bool_decide_true by done. cbn [result_bind check]. rewrite HT. cbn [result_bind].
  rewrite (validate_extracted_tree_ok snapshot) by done. cbn [result_bind check negb].
  by rewrite <- Hvf, length_map.
Qed.

(** The captured files, in the order they are written. *)
Lemma captured_files entries srcs :
  well_formed (CacheDir entries) = true -> collect_sources [] (CacheDir entries) = Ok srcs ->
  exists files, merge_sort source_le srcs = map mk_source files /\ files_of entries files.
Proof.
  intros Hw Hcol. destruct (collect_sources_spec _ [] srcs Hw Hcol) as (files & HF & Hnd & Hspec).
  apply sources_at_root in HF as ->.
  assert (Hperm : merge_sort source_le (map mk_source files) ≡ₚ map mk_source files)
    by apply merge_sort_Permutation.
  apply Permutation_map_inv in Hperm as (files' & -> & Hp). exists files'. split; [done|].
  split; [by rewrite <- Hp|]. intros p c. rewrite <- Hp. apply Hspec.
Qed.

Lemma joined_paths L es : map (fun e => (te_parts e, te_data e)) es = L -> map te_parts es = map fst L.
Proof. intros <-. by rewrite map_map. Qed.

Lemma te_sizes_files es : te_sizes es = files_size (map (fun e => (te_parts e, te_data e)) es).
Proof. induction es as [|e es IH]; simpl; [done|]. by rewrite IH. Qed.

Lemma files_size_app a b : files_size (a ++ b) = (files_size a + files_size b)%Z.
Proof. induction a; simpl; lia. Qed.

Lemma sources_size files :
  fold_right (fun s acc => len (src_content s) + acc)%Z 0%Z (map mk_source files) = files_size files.
Proof. induction files as [|f files IH]; simpl; [done|]. by rewrite IH. Qed.

(** C32. A captured cache restores to exactly what was captured.  When [capture] publishes an archive of a directory tree whose names hold no backslash, [restore] of that archive, with the digest capture reported and the same identity, into a root that does not exist succeeds, reports the same summary, and installs exactly the captured files with their contents and the directories above them. *)
Theorem captured_cache_restores root identity in_root exists_ archive summary :
  well_formed root = true -> no_backslash root = true ->
  capture_with_limits root identity in_root exists_ LIMITS = Ok (archive, summary) ->
  exists T files,
    restore_with_limits archive (sum_sha256 summary) identity None false LIMITS = (Ok summary, Some T) /\
    tree_spec T files /\ NoDup (map fst files) /\
    forall p c, (p, c) ∈ files <-> scalars p /\ file_at root (map into_bytes p) = Some c.
Proof.
  intros Hw Hb E. unfold capture_with_limits in E. apply result_bind_ok in E as ([] & Hv & E).
  destruct root as [|entries|]; [done| |done].
  apply result_bind_ok in E as ([] & _ & E). apply result_bind_ok in E as (srcs & Hcol & E).
  destruct (captured_files _ _ Hw Hcol) as (files & Hsort & Hnd & Hspec). cbv zeta in E. rewrite Hsort in E.
  apply result_bind_ok in E as ([] & Hn & E). apply check_ok, Nat.leb_le in Hn. rewrite length_map in Hn.
  apply result_bind_ok in E as (u & Hacc & E).
  apply account_sources_ok in Hacc as (Hu & Hmax & HFa). rewrite sources_size in Hu.
  apply Forall_map in HFa. rewrite Forall_forall in HFa.
  apply result_bind_ok in E as (hs & Hh & E). apply result_bind_ok in E as ([] & Hc & E).
  apply check_ok, Z.leb_le in Hc. apply result_bind_ok in E as ([] & _ & [= <- <-]).
  destruct (with_identity_joined identity files) as (a & b & Hab & Hwith). rewrite Hwith in Hh.
  apply add_headers_entries in Hh as (es & Hes & -> & Hmade).
  apply map_eq_app in Hes as (pre & rest & -> & Ha & Hrest).
  apply map_eq_cons in Hrest as (e & post & -> & Heid & Hbpost). injection Heid as Hep Hed.
  assert (Hfiles : files = map (fun e => (te_parts e, te_data e)) (pre ++ post)) by (by rewrite map_app, Ha, Hbpost).
  assert (Hmem : forall x, x ∈ pre ++ post -> (te_parts x, te_data x) ∈ files).
  { intros x Hx. rewrite Hfiles. by apply (list_elem_of_fmap_2 (fun e => (te_parts e, te_data e))) in Hx. }
  assert (Hsize : te_sizes (pre ++ e :: post) = u).
  { rewrite te_sizes_files, map_app, files_size_app. simpl. rewrite Ha, Hbpost, Hed, Hu, Hab, files_size_app. lia. }
  assert (Hnid : forall x, x ∈ pre ++ post -> te_parts x <> [IDENTITY_ENTRY]).
  { intros x Hx Ex. destruct (HFa _ (Hmem x Hx)) as [Hne _]. apply Hne. simpl. by rewrite Ex. }
  assert (Hok : Forall (te_ok LIMITS) (pre ++ e :: post)).
  { apply (captured_entries_ok LIMITS (CacheDir entries) identity); [done..|]. intros x Hx.
    assert (Hx' : x = e \/ x ∈ pre ++ post) by set_solver. destruct Hx' as [->|Hx']; [by left|right].
    pose proof (proj1 (Hspec _ _) (Hmem x Hx')) as [Hs Hf]. split; [by intros En; rewrite En in Hf|].
    split; [by apply Hnid|]. split; [done|]. split; [done|]. apply (HFa _ (Hmem x Hx')). }
  assert (Hnd' : NoDup (map te_parts (pre ++ e :: post))).
  { rewrite map_app. cbn [map]. rewrite <- Permutation_middle. rewrite <- map_app. apply NoDup_cons. split.
    - rewrite Hep. intros (x & Ex & Hx)%list_elem_of_fmap. by eapply Hnid.
    - rewrite Hfiles, map_map in Hnd. exact Hnd. }
  assert (Hsz : (te_sizes (pre ++ e :: post) <= max_uncompressed_bytes LIMITS)%Z).
  { rewrite Hsize. destruct files as [|f fs]; [|by apply Hmax]. simpl in Hu. rewrite Hu, Z.add_0_r.
    apply validate_identity_size in Hv. apply (Z.le_trans _ _ _ Hv). by vm_compute. }
  rewrite tar_layout, te_block_map in *. fold (tar_bytes (pre ++ e :: post)) in *.
  destruct (restore_made _ pre post e identity files eq_refl Hep Hed Hfiles Hok Hnd') as (T & HR & HT); [|done..|].
  { intros p q r Hp Hq ->. apply list_elem_of_fmap in Hp as ([p' c] & -> & Hp). simpl in *.
    apply list_elem_of_fmap in Hq as ([q' d] & Eq & Hq). simpl in Eq. subst q'. apply Hspec in Hp as [_ Hp]. apply Hspec in Hq as [_ Hq].
    rewrite map_app in Hq. pose proof (file_at_prefix_free _ _ _ _ _ Hp Hq) as En. by destruct r. }
  exists T, files. split; [|done]. simpl. rewrite HR, Hsize. by rewrite length_map.
Qed.
End Assembly.
