(* ===== verification/CompilerCacheSamples.v ===== *)
(** * A concrete archive library, and what it shows

    The parameters of [CompilerCache] instantiated: headers in the ustar
    layout (for paths that fit the name field), gzip as a framing of the
    bytes, a sum of the bytes as 64 hexadecimal digits, and one identity document.  The
    laws hold of it, so the theorems of [CompilerCacheProofs] apply, and the
    code can be run on concrete trees. *)

From S2P Require Import Prelude Text Json CompilerCache CompilerCacheProofs.

(** ** ustar headers *)

(** A field of [k] octal digits. *)
Definition octal (k : nat) (n : N) : Bytes := (fun d => 48 + d)%N <$> digits 8 k n.
Definition read_octal (bs : Bytes) : N := number 8 ((fun c => c - 48)%N <$> bs).

Lemma read_octal_octal k n : (n < 8 ^ N.of_nat k)%N -> read_octal (octal k n) = n.
Proof.
  intros Hn. unfold read_octal, octal. rewrite <- list_fmap_compose.
  rewrite (list_fmap_ext _ id).
  - rewrite list_fmap_id. by apply number_digits.
  - intros i d _. simpl. unfold compose, id. lia.
Qed.

Lemma length_octal k n : length (octal k n) = k.
Proof. unfold octal. by rewrite length_fmap, length_digits. Qed.

(** Name, mode, owner, group, size and time: the 148 bytes before the
    checksum. *)
Definition ustar_front (name : Bytes) (size : N) : Bytes :=
  (name ++ replicate (100 - length name) 0%N) ++ (octal 7 384 ++ [0%N]) ++ (octal 7 0 ++ [0%N])
  ++ (octal 7 0 ++ [0%N]) ++ octal 11 size ++ [0%N] ++ octal 11 0 ++ [0%N].

(** Type, magic and the unused fields: the 356 bytes after it. *)
Definition ustar_back : Bytes :=
  [48%N] ++ replicate 100 0%N ++ str_bytes "ustar" ++ [0%N] ++ str_bytes "00" ++ replicate 247 0%N.

Definition ustar_sum (front : Bytes) : Z :=
  fold_left (fun sum byte => sum + Z.of_N byte)%Z (front ++ ustar_back) (8 * 32)%Z.

Definition ustar_header (path : Text) (size : Z) : option Bytes :=
  let name := into_bytes path in
  let front := ustar_front name (Z.to_N size) in
  if negb (is_nil name) && (length name <=? 100)%nat && negb (existsb (N.eqb 0) name)
     && (0 <=? size)%Z && (Z.to_N size <? 8 ^ 11)%N
     && (0 <=? ustar_sum front)%Z && (Z.to_N (ustar_sum front) <? 8 ^ 6)%N
  then Some (front ++ (octal 6 (Z.to_N (ustar_sum front)) ++ [0; 32]%N) ++ ustar_back)
  else None.

Definition ustar_cksum (h : Bytes) : option Z := Some (Z.of_N (read_octal (take 6 (drop 148 h)))).
Definition ustar_is_file (h : Bytes) : bool := bool_decide (h !! 156%nat = Some 48%N).
Fixpoint until_nul (bs : Bytes) : Bytes :=
  match bs with [] => [] | b :: rest => if (b =? 0)%N then [] else b :: until_nul rest end.
Definition ustar_path (h : Bytes) : Bytes := until_nul (take 100 h).
Definition ustar_size (h : Bytes) : option N := Some (read_octal (take 11 (drop 124 h))).

(** ** The instance *)

Definition hex_digit (d : N) : N := (if d <? 10 then 48 + d else 87 + d)%N.
Definition checksum (bs : Bytes) : Text :=
  hex_digit <$> digits 16 64 (fold_left (fun acc b => acc + b + 1)%N bs 0%N).

Definition sample_identity : CompilerCacheIdentityV1 :=
  mkCompilerCacheIdentityV1 1 (txt "github.com") (txt "evalops/foam") (replicate 40 97%N)
    (Some (replicate 64 97%N)) [replicate 64 97%N] (txt "rustc 1.95.0") (txt "x86_64-unknown-linux-gnu")
    (txt "release") [txt "cache"] (txt "trusted-linux") (replicate 64 98%N)
    (mkCompilerCacheNamespace (txt "github.com") (txt "evalops/foam") LaneTrusted RepositoryShared).

Definition identity_bytes : Bytes := Eval vm_compute in str_bytes "foam identity document".
Definition identity_document : Json := JObject ((fun f => (f, JNull)) <$> IDENTITY_FIELDS).

#[export] Instance sample_archive : ArchiveLib := {|
  json_from_slice b := if bool_decide (b = identity_bytes) then Some identity_document else None;
  identity_from_value j := if bool_decide (j = identity_document) then Some sample_identity else None;
  identity_to_vec _ := identity_bytes;
  sha256 := checksum;
  gz_encode b := [31; 139]%N ++ b;
  gz_decode := strip_prefix [31; 139]%N;
  tar_header := ustar_header;
  tar_build es := concat (map tar_block es) ++ replicate 1024 0%N;
  header_cksum := ustar_cksum;
  header_is_file := ustar_is_file;
  header_path_bytes := ustar_path;
  header_entry_size := ustar_size
|}.

(** ** Its laws *)

Record ustar_made (path : Text) (size : Z) (h : Bytes) : Prop := {
  um_name : into_bytes path <> [];
  um_short : length (into_bytes path) <= 100;
  um_no_nul : existsb (N.eqb 0) (into_bytes path) = false;
  um_size : (0 <= size)%Z /\ (Z.to_N size < 8 ^ 11)%N;
  um_sum : (0 <= ustar_sum (ustar_front (into_bytes path) (Z.to_N size)))%Z /\
           (Z.to_N (ustar_sum (ustar_front (into_bytes path) (Z.to_N size))) < 8 ^ 6)%N;
  um_header : h = ustar_front (into_bytes path) (Z.to_N size)
                  ++ (octal 6 (Z.to_N (ustar_sum (ustar_front (into_bytes path) (Z.to_N size)))) ++ [0; 32]%N)
                  ++ ustar_back
}.

Lemma ustar_header_made path size h : ustar_header path size = Some h -> ustar_made path size h.
Proof.
  unfold ustar_header. cbv zeta. case_match eqn:E; [|done]. intros [= <-]. bool_to_prop.
  constructor; [|assumption|assumption|split; assumption|split; assumption|reflexivity].
  intros En. match goal with H : is_nil _ = false |- _ => rewrite En in H; discriminate H end.
Qed.

Lemma length_front name size : length name <= 100 -> length (ustar_front name size) = 148.
Proof.
  intros Hn. unfold ustar_front. rewrite !length_app, !length_octal, length_replicate. simpl. lia.
Qed.

Lemma until_nul_app a b : existsb (N.eqb 0) a = false -> until_nul (a ++ 0%N :: b) = a /\ until_nul a = a.
Proof.
  induction a as [|x a IH]; cbn [existsb until_nul app]; [done|].
  rewrite orb_false_iff, N.eqb_sym. intros [-> Ha]. destruct (IH Ha) as [-> E]. by rewrite E.
Qed.

Lemma until_nul_padded name k : existsb (N.eqb 0) name = false -> until_nul (name ++ replicate k 0%N) = name.
Proof.
  intros Hn. destruct k; [rewrite app_nil_r; by apply (until_nul_app name [])|].
  cbn [replicate]. by apply until_nul_app.
Qed.

Lemma hex_digit_lower d : (d < 16)%N -> is_lower_hex (hex_digit d) = true /\ (hex_digit d < 128)%N.
Proof.
  intros Hd. unfold is_lower_hex, hex_digit, is_ascii_digit. destruct (d <? 10)%N eqn:E; bool_to_prop.
  - split; [|lia]. apply orb_true_iff. left. apply andb_true_iff. split; apply N.leb_le; lia.
  - split; [|lia]. apply orb_true_iff. right. apply andb_true_iff. split; apply N.leb_le; lia.
Qed.

Lemma checksum_hex b : validate_sha256 (checksum b) = Ok tt.
Proof.
  unfold validate_sha256, checksum. apply check_ok, andb_true_iff.
  match goal with |- context [digits 16 64 ?x] => generalize x as n end. intros n.
  pose proof (digits_bound 16 64 n ltac:(done)) as HF.
  assert (HF2 : Forall (fun c => is_lower_hex c = true /\ (c < 128)%N) (hex_digit <$> digits 16 64 n)).
  { apply Forall_fmap. eapply Forall_impl; [exact HF|]. intros d. apply hex_digit_lower. }
  split.
  - unfold byte_len. rewrite into_bytes_ascii; [|eapply Forall_impl; [exact HF2|]; by intros ? [_ ?]].
    unfold len. by rewrite length_fmap, length_digits.
  - apply forallb_forall. intros c Hc. rewrite Forall_forall in HF2. by apply HF2, list_elem_of_In.
Qed.

(** Where the fields of a made header are. *)
Lemma ustar_fields path size h : ustar_made path size h ->
  length h = 512 /\
  take 100 h = into_bytes path ++ replicate (100 - length (into_bytes path)) 0%N /\
  take 11 (drop 124 h) = octal 11 (Z.to_N size) /\
  take 6 (drop 148 h) = octal 6 (Z.to_N (ustar_sum (ustar_front (into_bytes path) (Z.to_N size)))) /\
  take 148 h ++ drop 156 h = ustar_front (into_bytes path) (Z.to_N size) ++ ustar_back /\
  h !! 156%nat = Some 48%N.
Proof.
  intros [_ Hshort _ _ _ ->]. set (name := into_bytes path) in *. set (n := Z.to_N size).
  set (sum := octal 6 _). assert (Hs : length sum = 6) by apply length_octal.
  pose proof (length_front name n Hshort) as Hf. clearbody sum.
  split; [rewrite !length_app, Hf, Hs; reflexivity|]. split; [|split; [|split; [|split]]].
  - unfold ustar_front. rewrite <- !app_assoc. rewrite (app_assoc name). apply take_app_length'.
    rewrite length_app, length_replicate. lia.
  - unfold ustar_front.
    replace 124 with (length ((name ++ replicate (100 - length name) 0%N) ++ (octal 7 384 ++ [0%N])
                       ++ (octal 7 0 ++ [0%N]) ++ (octal 7 0 ++ [0%N])))
      by (rewrite !length_app, !length_octal, length_replicate; simpl; lia).
    rewrite <- !app_assoc.
    match goal with |- take 11 (drop (length ?p) ?l) = _ => set (w := l) end.
    assert (Hw : w = ((name ++ replicate (100 - length name) 0%N) ++ (octal 7 384 ++ [0%N])
                       ++ (octal 7 0 ++ [0%N]) ++ (octal 7 0 ++ [0%N])) ++ octal 11 n ++
                       ([0%N] ++ octal 11 0 ++ [0%N] ++ sum ++ [0; 32]%N ++ ustar_back))
      by (unfold w; by rewrite <- !app_assoc).
    rewrite Hw. rewrite <- !app_assoc. rewrite !(app_assoc _ _ (octal 11 n ++ _)).
    rewrite drop_app_length' by (rewrite !length_app, !length_octal, length_replicate; simpl; lia).
    apply take_app_length'. by rewrite length_octal.
  - rewrite drop_app_length' by done. rewrite <- app_assoc. by apply take_app_length'.
  - rewrite take_app_length' by done. f_equal. rewrite app_assoc. apply drop_app_length'.
    rewrite !length_app, Hf, Hs. reflexivity.
  - rewrite lookup_app_r by lia. rewrite lookup_app_r by (rewrite Hf, length_app, Hs; simpl; lia).
    rewrite Hf, length_app, Hs. reflexivity.
Qed.

#[export] Instance sample_archive_laws : ArchiveLaws.
Proof.
  constructor.
  - intros b. by apply strip_prefix_Some.
  - exact checksum_hex.
  - reflexivity.
  - intros p n h Hh. by apply ustar_header_made, ustar_fields in Hh as [? _].
  - intros p n h Hh. apply ustar_header_made, ustar_fields in Hh as (_ & _ & _ & _ & _ & Hh).
    apply not_true_iff_false. rewrite forallb_forall. intros Hall.
    apply list_elem_of_lookup_2, list_elem_of_In, Hall in Hh. discriminate Hh.
  - intros p n h Hh. apply ustar_header_made in Hh. pose proof (ustar_fields _ _ _ Hh) as (_ & _ & _ & Hs & Hrest & _).
    destruct Hh as [_ _ _ _ [Hp Hb] _]. cbn [header_cksum sample_archive]. unfold ustar_cksum. f_equal.
    rewrite Hs, read_octal_octal by exact Hb. rewrite Z2N.id by exact Hp.
    unfold header_sum, ustar_sum. by rewrite Hrest.
  - intros p n h Hh. apply ustar_header_made, ustar_fields in Hh as (_ & _ & _ & _ & _ & Hh).
    by apply bool_decide_eq_true.
  - intros parts n h _ _ Hh. apply ustar_header_made in Hh.
    pose proof (ustar_fields _ _ _ Hh) as (_ & Hn & _). destruct Hh as [_ _ Hnul _ _ _].
    cbn [header_path_bytes sample_archive]. unfold ustar_path. rewrite Hn. by apply until_nul_padded.
  - intros p n h Hh. apply ustar_header_made in Hh. pose proof (ustar_fields _ _ _ Hh) as (_ & _ & Hs & _).
    destruct Hh as [_ _ _ [_ Hb] _ _]. cbn [header_entry_size sample_archive]. unfold ustar_size. f_equal.
    rewrite Hs, read_octal_octal by exact Hb. apply N2Z.id.
Qed.

(** ** Running the code *)

(** A cache with a nested file, an empty directory and a file at the top. *)
Definition sample_root : CacheNode :=
  CacheDir [(str_bytes "objects", CacheDir [(str_bytes "a.o", CacheFile (str_bytes "object code") 1)]);
            (str_bytes "empty", CacheDir []);
            (str_bytes "index", CacheFile (str_bytes "a.o") 1)].

Definition captured (root : CacheNode) : ArchiveResult (Bytes * ArchiveSummary) :=
  capture_with_limits root identity_bytes false false LIMITS.

Definition captured_archive (root : CacheNode) : Bytes :=
  match captured root with Ok (archive, _) => archive | Err _ => [] end.

Definition restored (archive : Bytes) (sha : Text) : ArchiveResult ArchiveSummary * option Staged :=
  restore_with_limits archive sha identity_bytes None false LIMITS.

Definition entries_of (r : ArchiveResult ArchiveSummary * option Staged) : option nat :=
  match r.1 with Ok summary => Some (sum_entries summary) | Err _ => None end.

Definition error_of (r : ArchiveResult ArchiveSummary * option Staged) : option string :=
  match r.1 with Ok _ => None | Err e => Some e end.

(** What a successful run of known size has. *)
Lemma confined_files archive sha identity root limits outcome n :
  confined archive sha identity root limits outcome -> entries_of outcome = Some n ->
  exists tree files, outcome.2 = Some tree /\ tree_spec tree files /\ length files = n.
Proof.
  destruct outcome as [[summary|e] after]; [|done].
  intros (_ & _ & _ & _ & _ & _ & tree & files & -> & Ht & Hn & _) [= <-]. by exists tree, files.
Qed.

Lemma restore_is_confined_witness :
  (0 <= max_uncompressed_bytes LIMITS)%Z /\
  exists tree files,
    (restore_with_limits (captured_archive sample_root) (checksum (captured_archive sample_root))
       identity_bytes None false LIMITS).2 = Some tree /\
    tree_spec tree files /\ length files = 2.
Proof.
  assert (Hpos : (0 <= max_uncompressed_bytes LIMITS)%Z) by (vm_compute; discriminate).
  split; [exact Hpos|].
  assert (Hr : entries_of (restore_with_limits (captured_archive sample_root) (checksum (captured_archive sample_root))
                 identity_bytes None false LIMITS) = Some 2) by (vm_compute; reflexivity).
  exact (confined_files _ _ _ _ _ _ 2
    (restore_is_confined (captured_archive sample_root) (checksum (captured_archive sample_root))
       identity_bytes None false LIMITS Hpos) Hr).
Defined.

Lemma captured_cache_restores_witness :
  well_formed sample_root = true /\ no_backslash sample_root = true /\
  exists archive summary T files,
    captured sample_root = Ok (archive, summary) /\
    restored archive (sum_sha256 summary) = (Ok summary, Some T) /\ tree_spec T files /\
    ([txt "objects"; txt "a.o"], str_bytes "object code") ∈ files.
Proof.
  assert (Hw : well_formed sample_root = true) by (vm_compute; reflexivity).
  assert (Hb : no_backslash sample_root = true) by (vm_compute; reflexivity).
  split; [exact Hw|]. split; [exact Hb|].
  assert (Hok : is_ok (captured sample_root) = true) by (vm_compute; reflexivity).
  destruct (captured sample_root) as [[archive summary]|e] eqn:E; [|discriminate Hok].
  destruct (captured_cache_restores sample_root identity_bytes false false archive summary Hw Hb E)
    as (T & files & HR & HT & _ & Hspec).
  exists archive, summary, T, files. split; [reflexivity|]. split; [exact HR|]. split; [exact HT|].
  apply Hspec. split; [|vm_compute; reflexivity].
  repeat constructor.
Defined.

(** A file whose name holds a backslash, which Unix allows, is captured without complaint into an archive that can never be restored: capturing checks names component by component and accepts it, restoring refuses any path with a backslash as unsafe, so the whole cache is lost to one such name. *)
Theorem backslash_name_cannot_be_restored :
  let root := CacheDir [(str_bytes "a\b", CacheFile (str_bytes "object code") 1)] in
  well_formed root = true /\ is_ok (captured root) = true /\
  error_of (restored (captured_archive root) (checksum (captured_archive root)))
  = Some "compiler cache archive contains an unsafe path"%string.
Proof. vm_compute. repeat split; reflexivity. Qed.
