(* ===== verification/Idempotency.v ===== *)
(** * Idempotent requests

    A mutating request with an [Idempotency-Key] claims the key of its tenant
    by inserting a row, runs, and stores its response in the row; a request
    that finds the key taken replays the stored response, or waits for it, or
    is refused when its fingerprint differs.  Requests of one key run
    concurrently, each statement being one atomic step; a sweeper deletes
    expired rows.

    Source: [sandboxwich-api/src/idempotency.rs].  The digest, base64 and the
    JSON of an error envelope are parameters. *)

From S2P Require Import Prelude Text.
From stdpp Require Import sorting.

Definition IDEMPOTENCY_RETENTION_MS : Z := 24 * 60 * 60 * 1000.
Definition PROCESSING_LEASE_MS : Z := 5 * 60 * 1000.
Definition MAX_IDEMPOTENT_REQUEST_BYTES : N := 1024 * 1024.
Definition MAX_STORED_RESPONSE_BYTES : N := 16 * 1024 * 1024.
Definition CONCURRENT_REPLAY_POLLS : nat := 40.
Definition SWEEP_LIMIT : nat := 1000.

Definition size_of (bs : Bytes) : N := N.of_nat (length bs).

(** ** Requests and responses *)

Inductive Method : Set := GET | HEAD | OPTIONS | POST | PUT | PATCH | DELETE.

Definition is_mutating (m : Method) : bool :=
  match m with POST | PUT | PATCH | DELETE => true | _ => false end.

Definition method_str (m : Method) : Bytes :=
  str_bytes match m with
            | GET => "GET" | HEAD => "HEAD" | OPTIONS => "OPTIONS" | POST => "POST"
            | PUT => "PUT" | PATCH => "PATCH" | DELETE => "DELETE"
            end.

(** Who the authentication layer says the caller is; identifiers are not
    looked at here. *)
Inductive CallerKind : Set := TenantCaller | OperatorCaller | WorkerCaller | GuestCaller.

Record IdemRequest : Type := mkIdemRequest {
  rq_method : Method;
  rq_uri : Bytes;
  (** The tenant context, when the request carries one. *)
  rq_context : option (Text * CallerKind);
  (** Header values are bytes. *)
  rq_key : option Bytes;
  rq_content_type : option Bytes;
  rq_body : Bytes
}.

(** [HeaderValue::to_str] and [HeaderValue::from_str] accept the same bytes. *)
Definition is_visible_ascii (b : N) : bool := ((32 <=? b) && (b <? 127) || (b =? 9))%N.
Definition header_to_str (v : Bytes) : option Text := if forallb is_visible_ascii v then Some v else None.
Definition header_from_str (t : Text) : option Bytes := if forallb is_visible_ascii t then Some t else None.

Record HttpResponse : Type := mkHttpResponse {
  hr_status : Z;
  hr_content_type : option Bytes;
  hr_location : option Bytes;
  hr_retry_after : option Bytes;
  hr_body : Bytes
}.

Record StoredResponse : Type := mkStoredResponse {
  st_status : Z;
  st_content_type : option Text;
  st_location : option Text;
  st_retry_after : option Text;
  st_body : Bytes
}.

#[export] Instance StoredResponse_eq_dec : EqDecision StoredResponse.
Proof. solve_decision. Defined.

Inductive RecordState : Set := RecordProcessing | RecordCompleted.

#[export] Instance RecordState_eq_dec : EqDecision RecordState.
Proof. solve_decision. Defined.

Definition RecordState_as_str (s : RecordState) : string :=
  match s with RecordProcessing => "processing" | RecordCompleted => "completed" end.

Definition RecordState_parse (s : string) : result RecordState string :=
  if String.eqb s "processing" then Ok RecordProcessing
  else if String.eqb s "completed" then Ok RecordCompleted
  else Err "database contains invalid idempotency state".

Class IdemLib : Type := {
  (** SHA-256, in base64. *)
  digest : Bytes -> Text;
  base64_encode : Bytes -> Text;
  base64_decode : Text -> option Bytes;
  (** [serde_json] of an [ErrorEnvelope]. *)
  envelope : string -> string -> Bytes
}.

Class IdemLaws `{IdemLib} : Prop := {
  base64_round_trip b : base64_decode (base64_encode b) = Some b
}.

(** A row of [idempotency_records], without its key. *)
Record IdemRecord : Type := mkIdemRecord {
  ir_fingerprint : Text;
  ir_state : string;
  ir_status : option Z;
  ir_content_type : option Text;
  ir_location : option Text;
  ir_retry_after : option Text;
  ir_body_base64 : option Text;
  ir_created_at : Z;
  ir_completed_at : option Z;
  ir_expires_at : Z
}.

Abbreviation Records := (gmap (Text * Text) IdemRecord).

Section Middleware.
Context `{IdemLib}.

Definition coded_error (status : Z) (code message : string) (retry_after : option Bytes) : HttpResponse :=
  mkHttpResponse status (Some (str_bytes "application/json")) None retry_after (envelope code message).

Definition fingerprint_conflict : HttpResponse :=
  coded_error 409 "idempotency_key_reused" "Idempotency-Key was already used with a different request" None.

(** What is hashed: the fields, each ended by a zero byte, then the body. *)
Definition fingerprint_material (method uri : Bytes) (content_type : option Bytes) (body : Bytes) : Bytes :=
  method ++ [0%N] ++ uri ++ [0%N] ++ default [] content_type ++ [0%N] ++ body.

Definition fingerprint_request (m : Method) (uri : Bytes) (content_type : option Text) (body : Bytes) : Text :=
  digest (fingerprint_material (method_str m) uri content_type body).

(** A claim on a key. *)
Record Claim : Type := mkClaim {
  cl_tenant : Text;
  cl_key : Text;
  cl_fingerprint : Text
}.

(** [enforce_idempotency] up to its first statement. *)
Inductive Admission : Type :=
| RunDirectly
| RejectWith (r : HttpResponse)
| ClaimKey (c : Claim).

Definition admit_request (r : IdemRequest) : Admission :=
  if negb (is_mutating (rq_method r)) then RunDirectly else
  match rq_context r with
  | None => RunDirectly
  | Some (_, OperatorCaller) | Some (_, WorkerCaller) => RunDirectly
  | Some (tenant, _) =>
      match rq_key r with
      | None => RunDirectly
      | Some header =>
          match header_to_str header with
          | None => RejectWith (coded_error 400 "invalid_idempotency_key"
                                  "Idempotency-Key must contain valid non-empty text" None)
          | Some value =>
              let key := text_trim value in
              if is_nil key then
                RejectWith (coded_error 400 "invalid_idempotency_key"
                              "Idempotency-Key must contain valid non-empty text" None)
              else if (128 <? size_of key)%N then
                RejectWith (coded_error 400 "invalid_idempotency_key"
                              "Idempotency-Key must be at most 128 characters" None)
              else if (MAX_IDEMPOTENT_REQUEST_BYTES <? size_of (rq_body r))%N then
                RejectWith (coded_error 413 "idempotency_payload_too_large"
                              "idempotent requests are limited to 1 MiB" None)
              else
                let content_type := match rq_content_type r with
                                    | Some v => header_to_str v
                                    | None => None
                                    end in
                ClaimKey (mkClaim tenant key
                            (fingerprint_request (rq_method r) (rq_uri r) content_type (rq_body r)))
          end
      end
  end.

(** ** Statements *)

(** [insert ... on conflict do nothing]: the table, and whether a row went in. *)
Definition insert_record (c : Claim) (now : Z) (rs : Records) : Records * bool :=
  match rs !! (cl_tenant c, cl_key c) with
  | Some _ => (rs, false)
  | None =>
      (<[(cl_tenant c, cl_key c) :=
           mkIdemRecord (cl_fingerprint c) (RecordState_as_str RecordProcessing) None None None None None now
             None (now + PROCESSING_LEASE_MS)]> rs, true)
  end.

Definition is_processing (r : IdemRecord) : bool := String.eqb (ir_state r) "processing".

Definition abandon_record (tenant key : Text) (rs : Records) : Records :=
  match rs !! (tenant, key) with
  | Some r => if is_processing r then delete (tenant, key) rs else rs
  | None => rs
  end.

(** The row once it stores a response. *)
Definition completed_row (r : IdemRecord) (stored : StoredResponse) (now : Z) : IdemRecord :=
  mkIdemRecord (ir_fingerprint r) (RecordState_as_str RecordCompleted) (Some (st_status stored))
    (st_content_type stored) (st_location stored) (st_retry_after stored)
    (Some (base64_encode (st_body stored))) (ir_created_at r) (Some now) (now + IDEMPOTENCY_RETENTION_MS).

Definition complete_record (tenant key : Text) (stored : StoredResponse) (now : Z) (rs : Records) : Records :=
  match rs !! (tenant, key) with
  | Some r => if is_processing r then <[(tenant, key) := completed_row r stored now]> rs else rs
  | None => rs
  end.

(** [StatusCode::from_u16] of [u16::try_from]. *)
Definition status_code (z : Z) : option Z :=
  if ((0 <=? z) && (z <=? u16_max) && (100 <=? z) && (z <=? 999))%Z then Some z else None.

(** The response columns of a row. *)
Definition row_response (r : IdemRecord) : result (option StoredResponse) string :=
  match ir_status r with
  | None => Ok None
  | Some status =>
      match status_code status with
      | None => Err "invalid stored response status"
      | Some status =>
          match ir_body_base64 r with
          | None => Err "database operation failed"
          | Some encoded =>
              match base64_decode encoded with
              | None => Err "invalid stored response body"
              | Some body =>
                  Ok (Some (mkStoredResponse status (ir_content_type r) (ir_location r)
                              (ir_retry_after r) body))
              end
          end
      end
  end.

Definition fetch_record (tenant key : Text) (rs : Records) :
    result (option (Text * RecordState * option StoredResponse)) string :=
  match rs !! (tenant, key) with
  | None => Ok None
  | Some r =>
      let? state := RecordState_parse (ir_state r) in
      let? response := row_response r in
      Ok (Some (ir_fingerprint r, state, response))
  end.

(** The order of the sweep. *)
Definition expiry_le (a b : Text * Text * IdemRecord) : Prop :=
  (ir_expires_at a.2 < ir_expires_at b.2)%Z \/
  ir_expires_at a.2 = ir_expires_at b.2 /\
  (a.1.1 = b.1.1 /\ text_le a.1.2 b.1.2 \/ a.1.1 <> b.1.1 /\ text_le a.1.1 b.1.1).

#[global] Instance expiry_le_dec : RelDecision expiry_le.
Proof. intros a b. unfold expiry_le. apply _. Defined.

Definition expired_rows (now : Z) (rs : Records) : list (Text * Text * IdemRecord) :=
  merge_sort expiry_le (List.filter (fun kr => (ir_expires_at kr.2 <=? now)%Z) (map_to_list rs)).

Definition expire_idempotency_records (now : Z) (rs : Records) : Records :=
  foldr (fun kr rs => delete kr.1 rs) rs (take SWEEP_LIMIT (expired_rows now rs)).

(** ** Responses *)

Definition capture_response (response : HttpResponse) : StoredResponse :=
  if (size_of (hr_body response) <=? MAX_STORED_RESPONSE_BYTES)%N then
    mkStoredResponse (hr_status response) (hr_content_type response ≫= header_to_str)
      (hr_location response ≫= header_to_str) (hr_retry_after response ≫= header_to_str) (hr_body response)
  else
    mkStoredResponse 500 (Some (str_bytes "application/json")) None None
      (envelope "idempotency_response_too_large" "response is too large for idempotent replay").

Definition into_response (stored : StoredResponse) : HttpResponse :=
  mkHttpResponse (st_status stored) (st_content_type stored ≫= header_from_str)
    (st_location stored ≫= header_from_str) (st_retry_after stored ≫= header_from_str) (st_body stored).

(** ** One poll of [replay_or_wait] *)

Inductive PollOutcome : Type :=
| Answer (r : HttpResponse)
| Replay (stored : StoredResponse)
| PollAgain
| PollError (message : string).

Definition poll_once (c : Claim) (rs : Records) : PollOutcome :=
  match fetch_record (cl_tenant c) (cl_key c) rs with
  | Ok (Some (seen, RecordCompleted, Some response)) =>
      if bool_decide (seen = cl_fingerprint c) then Replay response else Answer fingerprint_conflict
  | Ok (Some (seen, RecordProcessing, _)) =>
      if bool_decide (seen = cl_fingerprint c) then PollAgain else Answer fingerprint_conflict
  | Ok (Some (_, RecordCompleted, None)) =>
      Answer (coded_error 500 "idempotency_record_incomplete" "stored idempotency response is incomplete" None)
  | Ok None =>
      Answer (coded_error 409 "idempotency_record_released"
                "the prior request finished without a replayable response; retry the request"
                (Some (str_bytes "0")))
  | Err e => PollError e
  end.

Definition in_progress : HttpResponse :=
  coded_error 409 "idempotency_in_progress" "an identical request is still in progress" (Some (str_bytes "1")).

(** ** The system

    A request in flight has claimed its key and is running, or waits with the
    polls it has left. *)

Inductive Flight : Type :=
| Running (c : Claim) (started : Z)
| Polling (c : Claim) (polls : nat).

Record Idem : Type := mkIdem {
  idem_now : Z;
  idem_records : Records;
  idem_flights : gmap nat Flight;
  (** The handlers that ran to their end: claim, response, and whether the
      response is marked as not to be persisted. *)
  idem_executed : list (Claim * StoredResponse * bool);
  (** The stored responses that were replayed, and to which claim. *)
  idem_replayed : list (Claim * StoredResponse);
  idem_answered : list (nat * HttpResponse)
}.

Definition idem_init : Idem := mkIdem 0 ∅ ∅ [] [] [].

(** Which of the statements after the handler fail. *)
Inductive FinishFault : Set := NoFault | CompleteFault | BothFault.

(** [enforce_idempotency] from the end of the handler on. *)
Definition finish_records (c : Claim) (stored : StoredResponse) (skip : bool) (fault : FinishFault) (now : Z)
    (rs : Records) : Records :=
  if (st_status stored =? 429)%Z || skip then
    match fault with
    | BothFault => rs
    | _ => abandon_record (cl_tenant c) (cl_key c) rs
    end
  else
    match fault with
    | NoFault => complete_record (cl_tenant c) (cl_key c) stored now rs
    | CompleteFault => abandon_record (cl_tenant c) (cl_key c) rs
    | BothFault => rs
    end.

Inductive IdemEvent : Type :=
| Arrive (id : nat) (c : Claim)
| Finish (id : nat) (response : HttpResponse) (skip : bool) (fault : FinishFault)
| PollRecord (id : nat)
| Vanish (id : nat)
| SweepExpired
| Elapse (ms : Z).

Definition answer (id : nat) (r : HttpResponse) (s : Idem) : Idem :=
  mkIdem (idem_now s) (idem_records s) (delete id (idem_flights s)) (idem_executed s) (idem_replayed s)
    ((id, r) :: idem_answered s).

Definition idem_step (s : Idem) (e : IdemEvent) : option Idem :=
  match e with
  | Arrive id c =>
      match idem_flights s !! id with
      | Some _ => None
      | None =>
          let (rs, inserted) := insert_record c (idem_now s) (idem_records s) in
          let flight := if inserted then Running c (idem_now s) else Polling c CONCURRENT_REPLAY_POLLS in
          Some (mkIdem (idem_now s) rs (<[id := flight]> (idem_flights s)) (idem_executed s) (idem_replayed s)
                  (idem_answered s))
      end
  | Finish id response skip fault =>
      match idem_flights s !! id with
      | Some (Running c _) =>
          let stored := capture_response response in
          Some (mkIdem (idem_now s) (finish_records c stored skip fault (idem_now s) (idem_records s))
                  (delete id (idem_flights s)) ((c, stored, skip) :: idem_executed s) (idem_replayed s)
                  ((id, into_response stored) :: idem_answered s))
      | _ => None
      end
  | PollRecord id =>
      match idem_flights s !! id with
      | Some (Polling c polls) =>
          match polls with
          | O => Some (answer id in_progress s)
          | S polls' =>
              match poll_once c (idem_records s) with
              | Answer r => Some (answer id r s)
              | Replay stored =>
                  let s := answer id (into_response stored) s in
                  Some (mkIdem (idem_now s) (idem_records s) (idem_flights s) (idem_executed s)
                          ((c, stored) :: idem_replayed s) (idem_answered s))
              | PollAgain =>
                  Some (mkIdem (idem_now s) (idem_records s) (<[id := Polling c polls']> (idem_flights s))
                          (idem_executed s) (idem_replayed s) (idem_answered s))
              | PollError e => Some (answer id (coded_error 500 "internal" e None) s)
              end
          end
      | _ => None
      end
  | Vanish id =>
      match idem_flights s !! id with
      | Some _ => Some (mkIdem (idem_now s) (idem_records s) (delete id (idem_flights s)) (idem_executed s)
                          (idem_replayed s) (idem_answered s))
      | None => None
      end
  | SweepExpired =>
      Some (mkIdem (idem_now s) (expire_idempotency_records (idem_now s) (idem_records s)) (idem_flights s)
              (idem_executed s) (idem_replayed s) (idem_answered s))
  | Elapse ms =>
      if (0 <=? ms)%Z then
        Some (mkIdem (idem_now s + ms) (idem_records s) (idem_flights s) (idem_executed s) (idem_replayed s)
                (idem_answered s))
      else None
  end.
End Middleware.

(** ** Fingerprints *)

Lemma zero_split (a b : Bytes) (x y : Bytes) : 0%N ∉ a -> 0%N ∉ b -> a ++ 0%N :: x = b ++ 0%N :: y -> a = b /\ x = y.
Proof.
  revert b. induction a as [|c a IH]; intros b Ha Hb E; destruct b as [|d b]; simpl in E.
  - by injection E.
  - injection E as <- _. exfalso. apply Hb. by left.
  - injection E as -> _. exfalso. apply Ha. by left.
  - injection E as -> E. apply not_elem_of_cons in Ha as [_ Ha]. apply not_elem_of_cons in Hb as [_ Hb].
    destruct (IH b Ha Hb E) as [-> ->]. done.
Qed.

Lemma method_str_no_nul m : 0%N ∉ method_str m.
Proof. intros Hin. assert (E : contains_char 0 (method_str m) = true) by by apply contains_char_spec. by destruct m. Qed.

Lemma method_str_inj m m' : method_str m = method_str m' -> m = m'.
Proof. by destruct m, m'. Qed.

Lemma header_no_nul v t : header_to_str v = Some t -> 0%N ∉ t.
Proof.
  unfold header_to_str. destruct (forallb is_visible_ascii v) eqn:E; [|done]. intros [= <-] Hin.
  rewrite forallb_forall in E. apply list_elem_of_In, E in Hin. done.
Qed.

(** The fingerprint covers the request: two requests whose method, URI and content type are header-safe hash the same bytes exactly when they have the same method, URI and body and the same content type, an absent one counting as empty.  No field can borrow bytes from its neighbour. *)
Theorem fingerprint_material_is_injective m m' uri uri' ct ct' body body' :
  0%N ∉ uri -> 0%N ∉ uri' ->
  fingerprint_material (method_str m) uri (ct ≫= header_to_str) body
  = fingerprint_material (method_str m') uri' (ct' ≫= header_to_str) body' <->
  m = m' /\ uri = uri' /\ body = body' /\
  default [] (ct ≫= header_to_str) = default [] (ct' ≫= header_to_str).
Proof.
  intros Hu Hu'. unfold fingerprint_material. simpl. split.
  - assert (Hct : forall o : option Bytes, 0%N ∉ default [] (o ≫= header_to_str)).
    { intros [v|]; simpl; [|apply not_elem_of_nil]. destruct (header_to_str v) as [t|] eqn:E; simpl;
        [by eapply header_no_nul|apply not_elem_of_nil]. }
    intros E. apply zero_split in E as [Em E]; [|apply method_str_no_nul..].
    apply zero_split in E as [-> E]; [|done..]. apply zero_split in E as [Ec ->]; [|apply Hct..].
    by apply method_str_inj in Em as ->.
  - by intros (-> & -> & -> & ->).
Qed.

Lemma fingerprint_material_is_injective_witness :
  fingerprint_material (method_str POST) (str_bytes "/v1/sandboxes") (Some (str_bytes "application/json") ≫= header_to_str)
    (str_bytes "{}")
  <> fingerprint_material (method_str POST) (str_bytes "/v1/sandboxes") (None ≫= header_to_str) (str_bytes "{}").
Proof.
  intros E. apply fingerprint_material_is_injective in E as (_ & _ & _ & E).
  - vm_compute in E. discriminate E.
  - intros Hin. apply contains_char_spec in Hin. vm_compute in Hin. discriminate Hin.
  - intros Hin. apply contains_char_spec in Hin. vm_compute in Hin. discriminate Hin.
Defined.

(** ** Sweeping *)

Lemma foldr_delete_lookup (l : list (Text * Text * IdemRecord)) (rs : Records) k :
  foldr (fun kr rs => delete kr.1 rs) rs l !! k = if bool_decide (k ∈ map fst l) then None else rs !! k.
Proof.
  induction l as [|[k' r] l IH]; cbn [foldr map].
  - by rewrite bool_decide_false by apply not_elem_of_nil.
  - destruct (decide (k = k')) as [->|Hne].
    + rewrite lookup_delete_eq. by rewrite bool_decide_true by by left.
    + rewrite lookup_delete_ne, IH by done.
      by rewrite (bool_decide_ext (k ∈ map fst l) (k ∈ k' :: map fst l)) by (rewrite elem_of_cons; naive_solver).
Qed.

(** A sweep deletes only rows that are due, and keeps the rest as they are. *)
Lemma expired_sweep_lookup now rs k r :
  expire_idempotency_records now rs !! k = Some r -> rs !! k = Some r.
Proof. unfold expire_idempotency_records. rewrite foldr_delete_lookup. by case_bool_decide. Qed.

Lemma sweep_keeps now rs k r : rs !! k = Some r -> (now < ir_expires_at r)%Z ->
  expire_idempotency_records now rs !! k = Some r.
Proof.
  intros Hk Hl. unfold expire_idempotency_records. rewrite foldr_delete_lookup. case_bool_decide as Hin; [|done].
  exfalso. apply list_elem_of_fmap in Hin as ([k' r'] & -> & Hin). apply elem_of_take in Hin as (i & Hi & _).
  apply list_elem_of_lookup_2 in Hi. unfold expired_rows in Hi. rewrite merge_sort_Permutation in Hi.
  apply list_elem_of_In, filter_In in Hi as [Hi He]. apply list_elem_of_In, elem_of_map_to_list in Hi.
  simpl in *. simplify_eq. bool_to_prop. lia.
Qed.

(** ** What the table holds *)

Section Invariants.
Context `{IdemLaws}.

(** A row that stores a response. *)
Definition row_of (r : IdemRecord) (stored : StoredResponse) : Prop :=
  ir_state r = "completed"%string /\ ir_status r = Some (st_status stored) /\
  ir_content_type r = st_content_type stored /\ ir_location r = st_location stored /\
  ir_retry_after r = st_retry_after stored /\ ir_body_base64 r = Some (base64_encode (st_body stored)).

Definition claim_key (c : Claim) : Text * Text := (cl_tenant c, cl_key c).

(** Every row is an open claim without a response, or stores the response of
    a handler that ran for its key and did not ask to be left out. *)
Definition row_sound (s : Idem) (k : Text * Text) (r : IdemRecord) : Prop :=
  ir_state r = "processing"%string /\ ir_status r = None /\ ir_body_base64 r = None \/
  exists c stored, (c, stored, false) ∈ idem_executed s /\ claim_key c = k /\
    st_status stored <> 429%Z /\ row_of r stored.

Definition rows_sound (s : Idem) : Prop :=
  forall k r, idem_records s !! k = Some r -> row_sound s k r.

Inductive idem_reach (allowed : Idem -> IdemEvent -> bool) : Idem -> Prop :=
| idem_reach_init : idem_reach allowed idem_init
| idem_reach_step s e s' :
    idem_reach allowed s -> allowed s e = true -> idem_step s e = Some s' -> idem_reach allowed s'.

Definition always (s : Idem) (e : IdemEvent) : bool := true.

(** Handlers end within their lease: time does not pass the end of the lease
    of a request that is running. *)
Definition timely (s : Idem) (e : IdemEvent) : bool :=
  match e with
  | Elapse ms =>
      forallb (fun kf => match kf.2 with
                         | Running _ started => (idem_now s + ms <? started + PROCESSING_LEASE_MS)%Z
                         | Polling _ _ => true
                         end) (map_to_list (idem_flights s))
  | _ => true
  end.

Lemma is_processing_spec r : is_processing r = true <-> ir_state r = "processing"%string.
Proof. unfold is_processing. apply String.eqb_eq. Qed.

Lemma insert_record_lookup c now rs rs' b k r : insert_record c now rs = (rs', b) -> rs' !! k = Some r ->
  rs !! k = Some r \/
  b = true /\ k = claim_key c /\ rs !! k = None /\ ir_state r = "processing"%string /\ ir_status r = None /\
  ir_body_base64 r = None /\ ir_fingerprint r = cl_fingerprint c /\
  ir_expires_at r = (now + PROCESSING_LEASE_MS)%Z.
Proof.
  unfold insert_record, claim_key. destruct (rs !! (cl_tenant c, cl_key c)) eqn:E.
  - intros [= <- <-]. auto.
  - intros [= <- <-]. destruct (decide (k = (cl_tenant c, cl_key c))) as [->|Hne].
    + rewrite lookup_insert_eq. intros [= <-]. right. by rewrite E.
    + rewrite lookup_insert_ne by done. auto.
Qed.

Lemma abandon_lookup t k rs k' r : abandon_record t k rs !! k' = Some r -> rs !! k' = Some r.
Proof.
  unfold abandon_record. destruct (rs !! (t, k)) eqn:E; [|done]. destruct (is_processing _); [|done].
  destruct (decide (k' = (t, k))) as [->|Hne]; [by rewrite lookup_delete_eq|by rewrite lookup_delete_ne].
Qed.

(** What the statements after a handler may have done to a row. *)
Lemma finish_lookup c stored skip fault now rs k r : finish_records c stored skip fault now rs !! k = Some r ->
  rs !! k = Some r \/
  skip = false /\ st_status stored <> 429%Z /\ k = claim_key c /\
  exists r0, rs !! k = Some r0 /\ ir_state r0 = "processing"%string /\ r = completed_row r0 stored now.
Proof.
  unfold finish_records, claim_key.
  destruct ((st_status stored =? 429)%Z || skip) eqn:E.
  { destruct fault; intros Hr; left; try exact Hr; by eapply abandon_lookup. }
  bool_to_prop. destruct fault; [|intros Hr; left; by eapply abandon_lookup|by left].
  unfold complete_record. destruct (rs !! (cl_tenant c, cl_key c)) as [r0|] eqn:E0; [|by left].
  destruct (is_processing r0) eqn:Ep; [|by left]. apply is_processing_spec in Ep.
  destruct (decide (k = (cl_tenant c, cl_key c))) as [->|Hne].
  - rewrite lookup_insert_eq. intros [= <-]. right. repeat split; [done..|]. eauto.
  - rewrite lookup_insert_ne by done. by left.
Qed.

Lemma completed_row_of r stored now : row_of (completed_row r stored now) stored.
Proof. by repeat split. Qed.

Lemma row_sound_mono s s' k r :
  (forall x, x ∈ idem_executed s -> x ∈ idem_executed s') -> row_sound s k r -> row_sound s' k r.
Proof. intros Hm [Hp|(c & stored & Hin & Hrest)]; [by left|right]. exists c, stored. auto. Qed.

(** The shape of a step: what it does to rows and to the log. *)
Lemma rows_sound_step s e s' : rows_sound s -> idem_step s e = Some s' -> rows_sound s'.
Proof.
  intros Hs Hstep.
  assert (Hsame : forall s2, idem_records s2 = idem_records s -> idem_executed s2 = idem_executed s -> rows_sound s2).
  { intros s2 Er Ee k r. rewrite Er. intros Hk. eapply row_sound_mono; [|by apply Hs]. by rewrite Ee. }
  destruct e as [id c|id response skip fault|id|id| |ms]; simpl in Hstep.
  - destruct (idem_flights s !! id); [done|]. destruct (insert_record _ _ _) as [rs b] eqn:Ei.
    injection Hstep as <-. intros k r Hk. simpl in Hk.
    destruct (insert_record_lookup _ _ _ _ _ _ _ Ei Hk) as [Hold|(_ & _ & _ & Hp & Hst & Hb & _)].
    + by apply (row_sound_mono s); [|apply Hs].
    + by left.
  - destruct (idem_flights s !! id) as [[c t|]|]; [|done..]. injection Hstep as <-. intros k r Hk. simpl in Hk.
    destruct (finish_lookup _ _ _ _ _ _ _ _ Hk) as [Hold|(-> & Hst & -> & r0 & Hr0 & Hp & ->)].
    + apply (row_sound_mono s); [|by apply Hs]. simpl. by right.
    + right. exists c, (capture_response response). repeat split; [|done..]. simpl. by left.
  - destruct (idem_flights s !! id) as [[|c polls]|]; [done| |done].
    destruct polls; [injection Hstep as <-; by apply Hsame|].
    destruct (poll_once c (idem_records s)); injection Hstep as <-; by apply Hsame.
  - destruct (idem_flights s !! id); [|done]. injection Hstep as <-. by apply Hsame.
  - injection Hstep as <-. intros k r Hk. simpl in Hk. apply expired_sweep_lookup in Hk.
    by apply (row_sound_mono s); [|apply Hs].
  - destruct (0 <=? ms)%Z; [|done]. injection Hstep as <-. by apply Hsame.
Qed.

Lemma rows_sound_reach allowed s : idem_reach allowed s -> rows_sound s.
Proof.
  induction 1 as [|s e s' _ IH _ Hstep]; [intros k r Hk; done|by eapply rows_sound_step].
Qed.

(** Secrets are never written down: in every reachable state, however requests, sweeps and failures interleave, a row's body is the encoding of the body of a handler that ran for that key, did not mark its response as secret-bearing and was not throttled. *)
Theorem stored_bodies_are_persistable s k r encoded :
  idem_reach always s -> idem_records s !! k = Some r -> ir_body_base64 r = Some encoded ->
  exists c stored, (c, stored, false) ∈ idem_executed s /\ claim_key c = k /\
    st_status stored <> 429%Z /\ encoded = base64_encode (st_body stored).
Proof.
  intros Hr Hk Hb. destruct (rows_sound_reach _ _ Hr k r Hk) as [(_ & _ & Hn)|(c & stored & Hin & Hc & Hst & Hrow)].
  - by rewrite Hn in Hb.
  - exists c, stored. destruct Hrow as (_ & _ & _ & _ & _ & Hb'). by simplify_eq.
Qed.

(** ** Exclusive execution *)

Definition running (s : Idem) (id : nat) (c : Claim) (started : Z) : Prop :=
  idem_flights s !! id = Some (Running c started).

(** While handlers end within their lease: who runs holds the open row of its
    key with its fingerprint, and nobody else runs for that key; completed
    rows and replays carry responses of the same fingerprint. *)
Record exclusive (s : Idem) : Prop := {
  ex_row id c t : running s id c t ->
    (idem_now s < t + PROCESSING_LEASE_MS)%Z /\
    exists r, idem_records s !! claim_key c = Some r /\ ir_state r = "processing"%string /\
      ir_fingerprint r = cl_fingerprint c /\ ir_expires_at r = (t + PROCESSING_LEASE_MS)%Z;
  ex_one id id' c c' t t' : running s id c t -> running s id' c' t' -> claim_key c = claim_key c' -> id = id';
  ex_stored k r : idem_records s !! k = Some r -> ir_state r <> "processing"%string ->
    exists c stored, (c, stored, false) ∈ idem_executed s /\ claim_key c = k /\
      cl_fingerprint c = ir_fingerprint r /\ row_of r stored;
  ex_replayed c stored : (c, stored) ∈ idem_replayed s ->
    exists c', (c', stored, false) ∈ idem_executed s /\ claim_key c' = claim_key c /\
      cl_fingerprint c' = cl_fingerprint c
}.

(** A step that only changes who waits, or forgets a runner. *)
Lemma exclusive_fewer s s' : exclusive s ->
  idem_now s' = idem_now s -> idem_records s' = idem_records s ->
  (forall id c t, running s' id c t -> running s id c t) ->
  (forall x, x ∈ idem_executed s -> x ∈ idem_executed s') ->
  (forall c stored, (c, stored) ∈ idem_replayed s' -> (c, stored) ∈ idem_replayed s \/
     exists c', (c', stored, false) ∈ idem_executed s' /\ claim_key c' = claim_key c /\
       cl_fingerprint c' = cl_fingerprint c) ->
  exclusive s'.
Proof.
  intros [H1 H2 H3 H4] En Er Hrun Hex Hrep. constructor.
  - intros id c t Hr. rewrite En, Er. by apply (H1 id), Hrun.
  - intros id id' c c' t t' Ha Hb. eauto.
  - intros k r. rewrite Er. intros Hk Hp. destruct (H3 k r Hk Hp) as (c & st & Hin & ?). exists c, st. auto.
  - intros c stored Hin. destruct (Hrep c stored Hin) as [Hold|]; [|done].
    destruct (H4 c stored Hold) as (c' & Hin' & ?). exists c'. auto.
Qed.

Lemma row_response_of r stored stored' : row_of r stored -> row_response r = Ok (Some stored') -> stored' = stored.
Proof.
  intros (_ & Hst & Hct & Hloc & Hra & Hb). unfold row_response. rewrite Hst, Hb, base64_round_trip.
  destruct (status_code (st_status stored)) as [z|] eqn:E; [|done]. unfold status_code in E.
  case_match; [|done]. injection E as <-. intros [= <-]. rewrite Hct, Hloc, Hra. by destruct stored.
Qed.

Lemma poll_replay c rs stored : poll_once c rs = Replay stored ->
  exists r, rs !! claim_key c = Some r /\ ir_state r <> "processing"%string /\
    ir_fingerprint r = cl_fingerprint c /\ row_response r = Ok (Some stored).
Proof.
  unfold poll_once, fetch_record, claim_key. destruct (rs !! (cl_tenant c, cl_key c)) as [r|]; [|done].
  destruct (RecordState_parse (ir_state r)) as [st|] eqn:Ep; [|done]. cbn [result_bind].
  destruct (row_response r) as [resp|] eqn:Er; [|done]. cbn [result_bind].
  destruct st; [by case_match|]. destruct resp as [resp|]; [|done]. case_bool_decide as Ef; [|done].
  intros [= <-]. exists r. repeat split; [|done|done]. intros E. by rewrite E in Ep.
Qed.

Lemma running_insert (fl : gmap nat Flight) id f id' c t : <[id := f]> fl !! id' = Some (Running c t) ->
  (id' = id /\ f = Running c t) \/ (id' <> id /\ fl !! id' = Some (Running c t)).
Proof.
  destruct (decide (id = id')) as [<-|Hne].
  - rewrite lookup_insert_eq. intros [= ->]. by left.
  - rewrite lookup_insert_ne by done. by right.
Qed.

Lemma running_delete (fl : gmap nat Flight) id id' c t : delete id fl !! id' = Some (Running c t) ->
  fl !! id' = Some (Running c t) /\ id' <> id.
Proof.
  destruct (decide (id = id')) as [<-|Hne]; [by rewrite lookup_delete_eq|]. by rewrite lookup_delete_ne.
Qed.

Lemma exclusive_arrive s id c s' : exclusive s -> idem_step s (Arrive id c) = Some s' -> exclusive s'.
Proof.
  intros Hex Hstep. simpl in Hstep. destruct (idem_flights s !! id) eqn:Efl; [done|].
  unfold insert_record in Hstep. destruct (idem_records s !! (cl_tenant c, cl_key c)) as [r|] eqn:Er.
  - injection Hstep as <-. apply (exclusive_fewer s); try done; [|by left].
    intros id' c' t' Hr. destruct (running_insert _ _ _ _ _ _ Hr) as [[_ ?]|[_ ?]]; done.
  - injection Hstep as <-. destruct Hex as [H1 H2 H3 H4].
    assert (Hother : forall id' c' t', running s id' c' t' -> claim_key c' <> claim_key c).
    { intros id' c' t' Hr E. destruct (H1 _ _ _ Hr) as (_ & r & Hrow & _). rewrite E in Hrow.
      unfold claim_key in Hrow. by simplify_eq. }
    constructor; cbn [idem_now idem_records idem_executed idem_replayed].
    + intros id' c' t' Hr. destruct (running_insert _ _ _ _ _ _ Hr) as [[-> [= <- <-]]|[Hne Hold]].
      * split; [unfold PROCESSING_LEASE_MS; lia|]. eexists. split; [by apply lookup_insert_eq|done].
      * destruct (H1 id' c' t' Hold) as (Hl & r & Hrow & Hrest). split; [done|]. exists r. split; [|done].
        rewrite lookup_insert_ne; [done|]. intros E. by apply (Hother id' c' t' Hold).
    + intros i i' a a' t t' Ha Hb E.
      destruct (running_insert _ _ _ _ _ _ Ha) as [[-> [= <- <-]]|[Hne Hold]];
      destruct (running_insert _ _ _ _ _ _ Hb) as [[-> [= <- <-]]|[Hne' Hold']];
        [done| | |by eapply H2].
      * exfalso. eapply Hother; [exact Hold'|done].
      * exfalso. eapply Hother; [exact Hold|done].
    + intros k r. destruct (decide (k = (cl_tenant c, cl_key c))) as [->|Hne].
      * rewrite lookup_insert_eq. by intros [= <-].
      * rewrite lookup_insert_ne by done. apply H3.
    + apply H4.
Qed.

Lemma exclusive_finish s id response skip fault s' : exclusive s ->
  idem_step s (Finish id response skip fault) = Some s' -> exclusive s'.
Proof.
  intros [H1 H2 H3 H4] Hstep. simpl in Hstep. destruct (idem_flights s !! id) as [[c t|]|] eqn:Efl; [|done..].
  injection Hstep as <-. set (stored := capture_response response).
  destruct (H1 id c t Efl) as (_ & rc & Hrc & _ & Hfp & _).
  assert (Hkeep : forall k r, k <> claim_key c -> idem_records s !! k = Some r ->
            finish_records c stored skip fault (idem_now s) (idem_records s) !! k = Some r).
  { intros k r Hne Hk. unfold finish_records, abandon_record, complete_record, claim_key in *.
    repeat (case_match; try done); by rewrite ?lookup_insert_ne, ?lookup_delete_ne by done. }
  constructor; cbn [idem_now idem_records idem_executed idem_replayed].
  - intros id' c' t' Hr. destruct (running_delete _ _ _ _ _ Hr) as [Hold Hne].
    destruct (H1 id' c' t' Hold) as (Hl & r & Hrow & Hrest). split; [done|]. exists r. split; [|done].
    apply Hkeep; [|done]. intros E. by apply Hne, (H2 id' id c' c t' t).
  - intros i i' a a' u u' Ha Hb. destruct (running_delete _ _ _ _ _ Ha) as [Ha' _].
    destruct (running_delete _ _ _ _ _ Hb) as [Hb' _]. by eapply H2.
  - intros k r Hk Hp. destruct (finish_lookup _ _ _ _ _ _ _ _ Hk) as [Hold|(-> & _ & -> & r0 & Hr0 & _ & ->)].
    + destruct (H3 k r Hold Hp) as (c' & st & Hin & Hrest). exists c', st. split; [by right|done].
    + exists c, stored. split; [by left|]. split; [done|]. split; [|apply completed_row_of].
      simplify_eq. simpl. done.
  - intros c' st Hin. destruct (H4 c' st Hin) as (c2 & Hin2 & Hrest). exists c2. split; [by right|done].
Qed.

Lemma exclusive_poll s id s' : exclusive s -> idem_step s (PollRecord id) = Some s' -> exclusive s'.
Proof.
  intros Hex Hstep. simpl in Hstep. destruct (idem_flights s !! id) as [[|c polls]|] eqn:Efl; [done| |done].
  assert (Hdel : forall s2, idem_flights s2 = delete id (idem_flights s) -> idem_now s2 = idem_now s ->
            idem_records s2 = idem_records s -> idem_executed s2 = idem_executed s ->
            (forall a st, (a, st) ∈ idem_replayed s2 -> (a, st) ∈ idem_replayed s \/
               exists a', (a', st, false) ∈ idem_executed s /\ claim_key a' = claim_key a /\
                 cl_fingerprint a' = cl_fingerprint a) -> exclusive s2).
  { intros s2 Ef En Er Ee Hrep. apply (exclusive_fewer s); rewrite ?Ee; try done.
    intros id' c' t' Hr. unfold running in Hr. rewrite Ef in Hr. by apply running_delete in Hr as [? _]. }
  destruct polls as [|polls]; [injection Hstep as <-; apply Hdel; by auto|].
  destruct (poll_once c (idem_records s)) as [r|stored| |m] eqn:Ep; injection Hstep as <-.
  - apply Hdel; by auto.
  - apply Hdel; try done. intros a st Hin. apply elem_of_cons in Hin as [[= -> ->]|Hin]; [right|by left].
    destruct (poll_replay _ _ _ Ep) as (r & Hr & Hp & Hf & Hresp).
    destruct (ex_stored s Hex _ _ Hr Hp) as (c' & st' & Hin & Hk & Hfp & Hrow).
    rewrite (row_response_of _ _ _ Hrow Hresp). exists c'. by rewrite <- Hf.
  - apply (exclusive_fewer s); try done; [|by left].
    intros id' c' t' Hr. destruct (running_insert _ _ _ _ _ _ Hr) as [[_ ?]|[_ ?]]; done.
  - apply Hdel; by auto.
Qed.

Lemma exclusive_sweep s s' : exclusive s -> idem_step s SweepExpired = Some s' -> exclusive s'.
Proof.
  intros [H1 H2 H3 H4] [= <-]. constructor; [| | |exact H4].
  - intros id c t Hr. destruct (H1 id c t Hr) as (Hl & r & Hrow & Hp & Hf & He). split; [done|]. exists r.
    split; [|done]. apply sweep_keeps; [done|]. simpl in Hl. lia.
  - exact H2.
  - intros k r Hk. apply expired_sweep_lookup in Hk. by apply H3.
Qed.

Lemma exclusive_step s e s' : exclusive s -> timely s e = true -> idem_step s e = Some s' -> exclusive s'.
Proof.
  intros Hex Ht Hstep. destruct e as [id c|id response skip fault|id|id| |ms].
  - by eapply exclusive_arrive.
  - by eapply exclusive_finish.
  - by eapply exclusive_poll.
  - simpl in Hstep. destruct (idem_flights s !! id); [|done]. injection Hstep as <-.
    apply (exclusive_fewer s); try done; [|by left]. intros id' c' t' Hr. by apply running_delete in Hr as [? _].
  - by eapply exclusive_sweep.
  - simpl in Hstep, Ht. destruct (0 <=? ms)%Z; [|done]. injection Hstep as <-. destruct Hex as [H1 H2 H3 H4].
    constructor; [|exact H2|exact H3|exact H4].
    intros id c t Hr. destruct (H1 id c t Hr) as (_ & Hrow). split; [|exact Hrow].
    rewrite forallb_forall in Ht. simpl.
    assert (Hin : (id, Running c t) ∈ map_to_list (idem_flights s)) by by apply elem_of_map_to_list.
    apply list_elem_of_In, Ht in Hin. simpl in Hin. bool_to_prop. lia.
Qed.

Lemma exclusive_reach s : idem_reach timely s -> exclusive s.
Proof.
  induction 1 as [|s e s' _ IH Ht Hstep]; [|by eapply exclusive_step].
  constructor; unfold running; simpl; try done. intros c st Hin. by apply not_elem_of_nil in Hin.
Qed.

(** C35. Execution is exclusive: as long as handlers end within their five-minute lease, at every moment of every interleaving at most one request runs for a tenant's key, it runs under an open row that carries its fingerprint and is not due for the sweeper, and no response is stored for that key meanwhile. *)
Theorem execution_is_exclusive s id c t :
  idem_reach timely s -> running s id c t ->
  (forall id' c' t', running s id' c' t' -> claim_key c' = claim_key c -> id' = id) /\
  exists r, idem_records s !! claim_key c = Some r /\ ir_state r = RecordState_as_str RecordProcessing /\
    ir_fingerprint r = cl_fingerprint c /\ ir_status r = None /\ (idem_now s < ir_expires_at r)%Z.
Proof.
  intros Hreach Hr. pose proof (exclusive_reach _ Hreach) as Hex. split.
  - intros id' c' t' Hr' E. by eapply ex_one.
  - destruct (ex_row s Hex id c t Hr) as (Hl & r & Hrow & Hp & Hf & He). exists r.
    destruct (rows_sound_reach _ _ Hreach _ _ Hrow) as [(_ & Hn & _)|(? & ? & _ & _ & _ & (Hc & _))].
    + by rewrite He.
    + by rewrite Hp in Hc.
Qed.

(** Replays are faithful: as long as handlers end within their lease, every response replayed to a request is, field by field, the response of a handler that ran for the same tenant, the same key and the same request fingerprint, and it was not marked secret-bearing. *)
Theorem replay_is_faithful s c stored :
  idem_reach timely s -> (c, stored) ∈ idem_replayed s ->
  exists c', (c', stored, false) ∈ idem_executed s /\ cl_tenant c' = cl_tenant c /\ cl_key c' = cl_key c /\
    cl_fingerprint c' = cl_fingerprint c.
Proof.
  intros Hreach Hin. destruct (ex_replayed s (exclusive_reach _ Hreach) c stored Hin) as (c' & Hin' & Hk & Hf).
  exists c'. unfold claim_key in Hk. by simplify_eq.
Qed.
End Invariants.

(** ** Runs *)

#[export] Instance plain_idem : IdemLib := {|
  digest b := b;
  base64_encode b := (fun x => x + 1)%N <$> b;
  base64_decode t := Some ((fun x => x - 1)%N <$> t);
  envelope code message := str_bytes (code ++ ": " ++ message)
|}.

#[export] Instance plain_idem_laws : IdemLaws.
Proof.
  constructor. intros b. cbn [base64_decode base64_encode plain_idem]. f_equal. rewrite <- list_fmap_compose.
  rewrite <- (list_fmap_id b) at 2. apply list_fmap_ext. intros i x _. unfold compose, id. lia.
Qed.

(** Events in order, as far as they are allowed. *)
Fixpoint idem_run (allowed : Idem -> IdemEvent -> bool) (s : Idem) (es : list IdemEvent) : option Idem :=
  match es with
  | [] => Some s
  | e :: rest => if allowed s e then s' ← idem_step s e; idem_run allowed s' rest else None
  end.

Lemma idem_run_reach allowed es s s' :
  idem_reach allowed s -> idem_run allowed s es = Some s' -> idem_reach allowed s'.
Proof.
  revert s. induction es as [|e es IH]; intros s Hs; cbn [idem_run]; [by intros [= <-]|].
  destruct (allowed s e) eqn:Ea; [|done]. destruct (idem_step s e) as [s1|] eqn:Es; [|done].
  intros E. apply (IH s1); [|exact E]. by eapply idem_reach_step.
Qed.

Definition claim_a : Claim := mkClaim (txt "tenant") (txt "key") (txt "a").
Definition claim_b : Claim := mkClaim (txt "tenant") (txt "key") (txt "b").
Definition created : HttpResponse := mkHttpResponse 202 None None None (str_bytes "created").

Definition idem_after (allowed : Idem -> IdemEvent -> bool) (es : list IdemEvent) : Idem :=
  default idem_init (idem_run allowed idem_init es).

Lemma idem_after_reach allowed es : is_some (idem_run allowed idem_init es) = true ->
  idem_reach allowed (idem_after allowed es).
Proof.
  intros E. unfold idem_after. destruct (idem_run allowed idem_init es) as [s|] eqn:Er; [|done].
  by eapply idem_run_reach; [constructor|].
Qed.

Definition replay_run : list IdemEvent :=
  [Arrive 1 claim_a; Arrive 2 claim_a; PollRecord 2; Elapse 1000; Finish 1 created false NoFault;
   SweepExpired; PollRecord 2].

Lemma stored_bodies_are_persistable_witness :
  exists r encoded, idem_records (idem_after always replay_run) !! (txt "tenant", txt "key") = Some r /\
    ir_body_base64 r = Some encoded /\
    exists c stored, (c, stored, false) ∈ idem_executed (idem_after always replay_run) /\
      encoded = base64_encode (st_body stored).
Proof.
  assert (Hr : is_some (idem_run always idem_init replay_run) = true) by (vm_compute; reflexivity).
  apply idem_after_reach in Hr.
  assert (Hb : (r ← idem_records (idem_after always replay_run) !! (txt "tenant", txt "key"); ir_body_base64 r)
               = Some (base64_encode (str_bytes "created"))) by (vm_compute; reflexivity).
  destruct (idem_records (idem_after always replay_run) !! (txt "tenant", txt "key")) as [r|] eqn:Er; [|discriminate Hb].
  exists r, (base64_encode (str_bytes "created")). split; [reflexivity|]. split; [exact Hb|].
  destruct (stored_bodies_are_persistable _ _ r _ Hr Er Hb) as (c & stored & Hin & _ & _ & E).
  exists c, stored. split; [exact Hin|exact E].
Defined.

Definition running_run : list IdemEvent := [Arrive 1 claim_a; Arrive 2 claim_b; Elapse 1000; SweepExpired].

Lemma execution_is_exclusive_witness :
  running (idem_after timely running_run) 1 claim_a 0 /\
  exists r, idem_records (idem_after timely running_run) !! claim_key claim_a = Some r /\
    ir_fingerprint r = txt "a".
Proof.
  assert (Hr : is_some (idem_run timely idem_init running_run) = true) by (vm_compute; reflexivity).
  apply idem_after_reach in Hr.
  assert (Hrun : running (idem_after timely running_run) 1 claim_a 0) by (vm_compute; reflexivity).
  split; [exact Hrun|].
  destruct (execution_is_exclusive _ 1 claim_a 0 Hr Hrun) as (_ & r & Hrow & _ & Hf & _).
  exists r. split; [exact Hrow|exact Hf].
Defined.

Lemma replay_is_faithful_witness :
  (claim_a, capture_response created) ∈ idem_replayed (idem_after timely replay_run) /\
  exists c', (c', capture_response created, false) ∈ idem_executed (idem_after timely replay_run) /\
    cl_fingerprint c' = txt "a".
Proof.
  assert (Hr : is_some (idem_run timely idem_init replay_run) = true) by (vm_compute; reflexivity).
  apply idem_after_reach in Hr.
  assert (E : idem_replayed (idem_after timely replay_run) = [(claim_a, capture_response created)])
    by (vm_compute; reflexivity).
  assert (Hin : (claim_a, capture_response created) ∈ idem_replayed (idem_after timely replay_run))
    by (rewrite E; left).
  split; [exact Hin|].
  destruct (replay_is_faithful _ claim_a (capture_response created) Hr Hin) as (c' & Hex & _ & _ & Hf).
  exists c'. split; [exact Hex|exact Hf].
Defined.

(** Why the lease has to hold: a handler that outlives it completes whatever
    open row now has its key, so a later duplicate of another request is
    answered with its response. *)
Definition late_run : list IdemEvent :=
  [Arrive 1 claim_a; Elapse PROCESSING_LEASE_MS; SweepExpired; Arrive 2 claim_b;
   Finish 1 created false NoFault; Arrive 3 claim_b; PollRecord 3].

Lemma late_handler_answers_for_another :
  idem_reach always (idem_after always late_run) /\
  idem_replayed (idem_after always late_run) = [(claim_b, capture_response created)] /\
  idem_executed (idem_after always late_run) = [(claim_a, capture_response created, false)].
Proof.
  split; [apply idem_after_reach; vm_compute; reflexivity|]. vm_compute. split; reflexivity.
Qed.
