(* ===== verification/Authz.v ===== *)
(** * Authentication and the authorization policy

    Every request passes [auth_and_tenant]: a bearer token is resolved to a
    tenant and a principal, the principal is checked against the policy of
    the route, and a receipt of the decision is derived whose identifiers are
    digests of length-prefixed fields.

    Source: [sandboxwich-api/src/auth.rs], [authz.rs], and the route table of
    [routes.rs].  Digests, the text of identifiers and random identifiers are
    parameters. *)

From S2P Require Import Prelude Text.

(** ** Paths *)

Definition path_starts (p : string) (t : Text) : bool := text_starts_with (txt p) t.
Definition path_ends (p : string) (t : Text) : bool := text_ends_with (txt p) t.
Definition path_contains (p : string) (t : Text) : bool := contains_text (txt p) t.
Definition is_path (p : string) (t : Text) : bool := bool_decide (t = txt p).

Definition AUTHORIZATION_POLICY_ID : string := "sandboxwich-api-authz".
Definition AUTHORIZATION_POLICY_VERSION : string := "v2".

Definition AUTHORIZATION_POLICY_RULES : list string :=
  [
   "operator|operator|/operator/*"; "operator|cleanup|/snapshots/cleanup"; "worker|heartbeat|/workers/*/heartbeat";
   "worker|drain|/workers/*/drain"; "worker|prepare|/workers/*/sterile-cells/prepare";
   "worker|read|/workers/*/sterile-cells/*"; "worker|retire|/workers/*/sterile-cells/*/retire";
   "worker|destroy|/workers/*/sterile-cells/*/destroy"; "worker|release|/workers/*/sterile-cells/*/release";
   "worker|read|/workers/*/runtime-resource-inventory"; "worker|reconcile|/workers/*/runtime-resources/reconcile";
   "worker|create|/workers/*/sandboxes/*/guest-token"; "worker|callback|/workers/*/apex-instruction-callbacks/*";
   "worker_or_guest|claim|/workers/*/leases/claim"; "worker_or_guest|write|/resident-processes/*";
   "worker_or_guest|write|/leases/*"; "worker_or_guest|write|/sandboxes/*/guest-health";
   "worker_or_guest|refresh|/sandboxes/*/guest-token/refresh"; "deny|unknown_worker|/workers/*";
   "deny|unclassified_route|*"; "not_exposed|identity_only|/maestro-workload-identities/validate"
  ].

Definition AUTHORIZATION_ROUTE_MANIFEST : list string :=
  [
   "/healthz"; "/readyz"; "/openapi.json"; "/metrics"; "/mcp"; "/homes"; "/homes/*"; "/homes/*/sandboxes";
   "/sandboxes"; "/sandboxes/*"; "/sandboxes/*/observed-state"; "/sandboxes/*/files"; "/sandboxes/*/files/*";
   "/sandboxes/*/runtime-resources"; "/sandboxes/*/stop"; "/sandboxes/*/resident-processes/*";
   "/sandboxes/*/resident-processes/maestro-hosted-runner/connection-binding";
   "/sandboxes/*/resident-processes/maestro-hosted-runner/activations/validate";
   "/sandboxes/*/resident-processes/maestro-hosted-runner/activations/validate-identity";
   "/sandboxes/*/resident-processes/*/stop"; "/sandboxes/*/resident-processes/*/events"; "/sandboxes/*/resume";
   "/sandboxes/*/fork"; "/sandboxes/*/snapshots"; "/sandboxes/*/desktop"; "/sandboxes/*/desktop-sessions";
   "/sandboxes/*/commands"; "/sandboxes/*/prompt"; "/sandboxes/*/events"; "/desktop-sessions/*";
   "/desktop-sessions/*/status"; "/desktop-sessions/*/access"; "/secret-refs"; "/secret-refs/*";
   "/snapshots/cleanup"; "/snapshots/*"; "/snapshots/*/fork"; "/commands/*"; "/commands/*/output"; "/workers";
   "/capacity"; "/jobs"; "/jobs/*"; "/sterile-cells/claim"; "/sterile-cell-leases/*";
   "/sterile-cell-leases/*/release"; "/sterile-cell-leases/*/validate"; "/divergence/reconcile";
   "/sandboxes/*/tool-call-ledger"; "/sandboxes/*/divergence-findings"; "/operations/*"; "/operations/*/events";
   "/operations/*/cancel"; "/sandboxes/*/guest-health"; "/sandboxes/*/ssh-keys"; "/sandboxes/*/ssh-access";
   "/ssh-keys/*/status"; "/sandboxes/*/apex-task-instructions"; "/resident-placement-attestations/redeem";
   "/resident-placement-attestations/validate"; "/workers/register"; "/workers/*/heartbeat"; "/workers/*/drain";
   "/workers/*/sterile-cells/prepare"; "/workers/*/sterile-cells/*"; "/workers/*/sterile-cells/*/retire";
   "/workers/*/sterile-cells/*/destroy"; "/workers/*/sterile-cells/*/release";
   "/workers/*/runtime-resource-inventory"; "/workers/*/runtime-resources/reconcile";
   "/workers/*/sandboxes/*/guest-token"; "/workers/*/apex-instruction-callbacks/*"; "/workers/*/leases/claim";
   "/resident-processes/*/bootstrap"; "/resident-processes/*/observations"; "/leases/*/renew";
   "/leases/*/materialization"; "/leases/*/provisioning"; "/leases/*/output"; "/leases/*/complete";
   "/leases/*/fail"; "/sandboxes/*/guest-token/refresh"; "/operator/tenant-policies/*";
   "/operator/home-mounts/reconcile"
  ].

Definition AUTHORIZATION_NON_TENANT_ROUTE_MANIFEST : list string := ["/maestro-workload-identities/validate"].

Definition normalized_path (path : Text) : Text :=
  let path := default path (strip_prefix (txt "/v1") path) in
  if is_nil path then txt "/" else path.

Definition parts_match (part expected : Text) : bool :=
  bool_decide (expected = [42%N]) || bool_decide (part = expected).

Definition path_matches_template (path template : Text) : bool :=
  let path_parts := split_char 47 (trim_matches 47 path) in
  let template_parts := split_char 47 (trim_matches 47 template) in
  (length path_parts =? length template_parts)%nat
  && forallb (fun '(part, expected) => parts_match part expected) (zip path_parts template_parts).

Definition matches (path : Text) (template : string) : bool := path_matches_template path (txt template).

Definition known_route (path : Text) : bool := existsb (matches path) AUTHORIZATION_ROUTE_MANIFEST.
Definition known_non_tenant_route (path : Text) : bool :=
  existsb (matches path) AUTHORIZATION_NON_TENANT_ROUTE_MANIFEST.

(** ** The policy of a route *)

(** Identifiers are opaque. *)
Inductive Principal : Type :=
| PrincipalTenant
| PrincipalOperator
| PrincipalWorker (worker_id : N)
| PrincipalGuest (worker_id sandbox_id : N).

#[export] Instance Principal_eq_dec : EqDecision Principal.
Proof. solve_decision. Defined.

Inductive PrincipalRequirement : Set :=
| ReqAuthenticated | ReqTenantOrOperator | ReqOperator | ReqWorker | ReqWorkerOrGuest | ReqDeny | ReqNotExposed.

#[export] Instance PrincipalRequirement_eq_dec : EqDecision PrincipalRequirement.
Proof. solve_decision. Defined.

Definition allows (r : PrincipalRequirement) (p : Principal) : bool :=
  match r, p with
  | ReqAuthenticated, _ => true
  | ReqTenantOrOperator, (PrincipalTenant | PrincipalOperator) => true
  | ReqOperator, PrincipalOperator => true
  | ReqWorker, PrincipalWorker _ => true
  | ReqWorkerOrGuest, (PrincipalWorker _ | PrincipalGuest _ _) => true
  | _, _ => false
  end.

Record RoutePolicy : Type := mkRoutePolicy {
  resource_kind_of : string;
  action_of : string;
  requirement_of : PrincipalRequirement
}.

Definition worker_route (path : Text) : bool :=
  path_starts "/workers/" path
  && (path_ends "/heartbeat" path
      || path_ends "/drain" path
      || path_ends "/runtime-resource-inventory" path
      || path_ends "/runtime-resources/reconcile" path
      || path_ends "/guest-token" path
      || path_ends "/sterile-cells/prepare" path
      || matches path "/workers/*/sterile-cells/*"
      || path_contains "/sterile-cells/" path && path_ends "/retire" path
      || path_contains "/sterile-cells/" path && path_ends "/destroy" path
      || path_contains "/sterile-cells/" path && path_ends "/release" path
      || path_contains "/apex-instruction-callbacks/" path).

Definition worker_or_guest_route (method : string) (path : Text) : bool :=
  path_starts "/workers/" path && path_contains "/leases/claim" path
  || path_starts "/resident-processes/" path
  || path_starts "/leases/" path
  || String.eqb method "POST" && (path_ends "/guest-health" path || path_ends "/guest-token/refresh" path).

Definition resource_kind (path : Text) : string :=
  if is_path "/operator" path || path_starts "/operator/" path then "operator"
  else if path_contains "/sandboxes" path then "sandbox"
  else if path_starts "/workers" path then "worker"
  else if path_starts "/resident-processes" path then "resident_process"
  else if path_starts "/leases" path then "lease"
  else if path_starts "/sterile-cell" path then "sterile_cell"
  else if path_starts "/snapshots" path then "snapshot"
  else if path_starts "/homes" path then "home"
  else if path_starts "/jobs" path then "job"
  else if path_starts "/operations" path then "operation"
  else if path_starts "/desktop" path then "desktop"
  else "platform".

Definition action (method : string) (path : Text) : string :=
  if is_path "/snapshots/cleanup" path then "cleanup"
  else if path_starts "/operator" path then "operator"
  else if path_ends "/stop" path then "stop"
  else if path_ends "/resume" path then "resume"
  else if path_ends "/fork" path then "fork"
  else if path_ends "/heartbeat" path then "heartbeat"
  else if path_ends "/drain" path then "drain"
  else if path_ends "/retire" path then "retire"
  else if path_ends "/claim" path then "claim"
  else if path_ends "/refresh" path then "refresh"
  else if path_ends "/renew" path then "renew"
  else if path_ends "/complete" path then "complete"
  else if path_ends "/fail" path then "fail"
  else if path_ends "/reconcile" path then "reconcile"
  else if path_ends "/guest-health" path then "health"
  else if path_contains "/apex-instruction-callbacks/" path then "callback"
  else if path_ends "/guest-token" path then "create_token"
  else if path_ends "/bootstrap" path then "bootstrap"
  else if path_ends "/observations" path then "observe"
  else if path_ends "/materialization" path then "read_materialization"
  else if path_ends "/provisioning" path then "update_provisioning"
  else if path_ends "/output" path then "append_output"
  else if String.eqb method "GET" || String.eqb method "HEAD" then "read"
  else if String.eqb method "POST" then "create"
  else if String.eqb method "PUT" || String.eqb method "PATCH" then "update"
  else if String.eqb method "DELETE" then "delete"
  else "unknown".

Definition route_requirement (method : string) (path : Text) : PrincipalRequirement :=
  if known_non_tenant_route path then ReqNotExposed
  else if is_path "/workers/register" path && known_route path then ReqTenantOrOperator
  else if matches path "/sterile-cell-leases/*/validate" && known_route path then ReqAuthenticated
  else if (is_path "/snapshots/cleanup" path || is_path "/operator" path || path_starts "/operator/" path)
          && known_route path then ReqOperator
  else if worker_route path && known_route path then ReqWorker
  else if worker_or_guest_route method path && known_route path then ReqWorkerOrGuest
  else if path_starts "/workers/" path || negb (known_route path) then ReqDeny
  else ReqTenantOrOperator.

Definition route_policy (method : string) (path : Text) : RoutePolicy :=
  let path := normalized_path path in
  mkRoutePolicy (resource_kind path) (action method path) (route_requirement method path).

Definition requirement_code (r : PrincipalRequirement) : string :=
  match r with
  | ReqAuthenticated => "authenticated"
  | ReqTenantOrOperator => "tenant_or_operator"
  | ReqOperator => "operator"
  | ReqWorker => "worker"
  | ReqWorkerOrGuest => "worker_or_guest"
  | ReqDeny => "deny"
  | ReqNotExposed => "not_exposed"
  end.

Definition decision_reason (policy : RoutePolicy) (principal : Principal) : string :=
  match requirement_of policy with
  | ReqNotExposed => "route_not_exposed"
  | ReqDeny => "unknown_route"
  | r => if allows r principal then "allowed" else "principal_class_not_allowed"
  end.

(** ** Receipts *)

Class AuthzLib : Type := {
  (** SHA-256 as lowercase hexadecimal. *)
  sha256_hex_digest : Bytes -> Text;
  (** [Uuid]'s [Display]. *)
  uuid_text : N -> Text
}.

Definition principal_class (p : Principal) : string :=
  match p with
  | PrincipalTenant => "tenant"
  | PrincipalOperator => "operator"
  | PrincipalWorker _ => "worker"
  | PrincipalGuest _ _ => "guest"
  end.

(** [(n as u64).to_be_bytes()]. *)
Definition be_bytes (n : N) : Bytes := digits 256 8 n.

(** [update_field]: what it feeds to the hash. *)
Definition field_bytes (field : Bytes * Bytes) : Bytes :=
  be_bytes (N.of_nat (length field.1)) ++ field.1 ++ be_bytes (N.of_nat (length field.2)) ++ field.2.

(** A hash input: the fields in order. *)
Definition material (fields : list (Bytes * Bytes)) : Bytes := concat (map field_bytes fields).

Definition field (name : string) (value : Text) : Bytes * Bytes := (str_bytes name, into_bytes value).

Section Receipts.
Context `{AuthzLib}.

Definition principal_binding (p : Principal) : Text :=
  match p with
  | PrincipalTenant => txt "tenant"
  | PrincipalOperator => txt "operator"
  | PrincipalWorker w => txt "worker:" ++ uuid_text w
  | PrincipalGuest w sb => txt "guest:" ++ uuid_text w ++ 58%N :: uuid_text sb
  end.

Definition authorization_policy_digest : Text :=
  txt "authz_policy_v1_" ++ sha256_hex_digest (material
    ([field "policy_id" (txt AUTHORIZATION_POLICY_ID); field "policy_version" (txt AUTHORIZATION_POLICY_VERSION)]
     ++ map (fun rule => field "rule" (txt rule)) AUTHORIZATION_POLICY_RULES)).

(** The fields of [digest_id]. *)
Definition digest_fields (request_id : option Text) (method : string) (path tenant_id : Text)
    (principal : Principal) (policy : RoutePolicy) (policy_digest : Text) : list (Bytes * Bytes) :=
  [field "policy_id" (txt AUTHORIZATION_POLICY_ID);
   field "policy_version" (txt AUTHORIZATION_POLICY_VERSION);
   field "policy_digest" policy_digest;
   field "resource_kind" (txt (resource_kind_of policy));
   field "action" (txt (action_of policy));
   field "requirement" (txt (requirement_code (requirement_of policy)))]
  ++ match request_id with Some r => [field "request_id" r] | None => [] end
  ++ [field "method" (txt method);
      field "path" path;
      field "tenant_id" tenant_id;
      field "principal_class" (txt (principal_class principal));
      field "principal_binding" (principal_binding principal)].

Definition decision_id (request_id : Text) (method : string) (path tenant_id : Text) (principal : Principal) : Text :=
  txt "authz_decision_v1_" ++ sha256_hex_digest (material
    (digest_fields (Some request_id) method path tenant_id principal (route_policy method path)
       authorization_policy_digest)).

Definition authorization_fingerprint (method : string) (path tenant_id : Text) (principal : Principal) : Text :=
  txt "authz_fingerprint_v1_" ++ sha256_hex_digest (material
    (digest_fields None method path tenant_id principal (route_policy method path) authorization_policy_digest)).

Definition receipt_id (decision : Text) : Text :=
  txt "authz_receipt_v2_" ++ sha256_hex_digest (material
    [field "policy_digest" authorization_policy_digest; field "decision_id" decision]).

(** ** Requests *)

Definition is_ascii_control (c : N) : bool := ((c <? 32) || (c =? 127))%N.

Definition valid_request_id (value : Text) : bool :=
  negb (is_nil (text_trim value)) && (length (into_bytes value) <=? 256)%nat
  && negb (existsb is_ascii_control (into_bytes value)).

(** Header values are bytes; [to_str] accepts visible ASCII. *)
Definition visible (b : N) : bool := ((32 <=? b) && (b <? 127) || (b =? 9))%N.
Definition to_str (v : Bytes) : option Text := if forallb visible v then Some v else None.

Record RequestHead : Type := mkRequestHead {
  req_method : string;
  req_path : Text;
  req_authorization : option Bytes;
  req_operator_token : option Bytes;
  req_tenant_header : option Bytes;
  req_routing_scope : option Bytes;
  req_request_id : option Bytes;
  req_lineage_id : option Bytes;
  (** [RequestTrace], when the layer outside attached one: its request and
      trace identifiers. *)
  req_trace : option (Text * Text)
}.

Record AuthorizationContext : Type := mkAuthorizationContext {
  az_request_id : Text;
  az_decision_id : Text;
  az_lineage_id : Text;
  az_fingerprint : Text;
  az_trace_id : option Text;
  az_principal_class : string;
  az_receipt_id : Text;
  az_policy_digest : Text;
  az_resource_kind : string;
  az_action : string;
  az_decision_reason : string;
  az_requirement : PrincipalRequirement
}.

Definition new_with_lineage (lineage_id request_id : Text) (trace_id : option Text) (method : string)
    (path tenant_id : Text) (principal : Principal) : AuthorizationContext :=
  let policy := route_policy method path in
  let decision := decision_id request_id method path tenant_id principal in
  mkAuthorizationContext request_id decision lineage_id
    (authorization_fingerprint method path tenant_id principal) trace_id (principal_class principal)
    (receipt_id decision) authorization_policy_digest (resource_kind_of policy) (action_of policy)
    (decision_reason policy principal) (requirement_of policy).

Definition keep (p : Text -> bool) (o : option Text) : option Text :=
  match o with Some t => if p t then Some t else None | None => None end.

(** [from_request]; [fresh] is the identifier made when the request has none. *)
Definition from_request (request : RequestHead) (tenant_id : Text) (principal : Principal) (fresh : Text) :
    AuthorizationContext :=
  let traced := keep valid_request_id (fst <$> req_trace request) in
  let sent := keep valid_request_id (req_request_id request ≫= to_str) in
  let request_id := match traced with
                    | Some r => r
                    | None => default (txt "sandboxwich-authz-" ++ fresh) sent
                    end in
  let trace_id := keep (fun t => negb (is_nil t)) (snd <$> req_trace request) in
  let lineage := default request_id (keep valid_request_id (text_trim <$> (req_lineage_id request ≫= to_str))) in
  new_with_lineage lineage request_id trace_id (req_method request) (req_path request) tenant_id principal.
End Receipts.

(** ** Authentication *)

Definition PROBE_PATHS : list string := ["/healthz"; "/readyz"].
Definition WORKER_TOKEN_PREFIX : string := "sbw_wtok_".
Definition GUEST_TOKEN_PREFIX : string := "sbw_gtok_".

(** Tokens of tenants, with the tenant they stand for. *)
Record AuthConfig : Type := mkAuthConfig {
  shared_token : option Text;
  tenant_tokens : list (Text * Text);
  provider_routing_tokens : list (Text * Text);
  operator_token : option Text;
  allow_insecure_no_auth : bool
}.

Record GuestTokenRow : Type := mkGuestTokenRow {
  gt_hash : Text;
  gt_tenant : Text;
  gt_worker : N;
  gt_sandbox : N;
  gt_expires_at : Z;
  gt_revoked_at : option Z
}.

Record WorkerTokenRow : Type := mkWorkerTokenRow {
  wt_hash : option Text;
  wt_tenant : Text;
  wt_worker : N
}.

Record AuthState : Type := mkAuthState {
  as_config : AuthConfig;
  as_default_tenant : Text;
  as_guest_tokens : list GuestTokenRow;
  as_worker_tokens : list WorkerTokenRow;
  as_now : Z;
  (** Whether the statement that looks a token up fails. *)
  as_lookup_fails : bool
}.

Inductive Refusal : Type := mkRefusal (status : Z) (message : string).

Inductive AuthOutcome : Type :=
| Forward (tenant_id : Text) (principal : Principal) (scope : option Text) (authorization : AuthorizationContext)
| Refuse (r : Refusal) (receipt : option AuthorizationContext).

Definition bearer_token (request : RequestHead) : option Text :=
  (req_authorization request ≫= to_str) ≫= strip_prefix (txt "Bearer ").

(** [constant_time_eq] decides equality of the bytes. *)
Definition constant_time_eq (left right : Text) : bool := bool_decide (into_bytes left = into_bytes right).

Section Authentication.
Context `{AuthzLib}.

Definition hash_worker_token (token : Text) : Text := sha256_hex_digest (into_bytes token).

Definition resolve_guest_token (s : AuthState) (token : Text) : result (option (Text * N * N)) Refusal :=
  if as_lookup_fails s then Err (mkRefusal 500 "database operation failed") else
  match List.find (fun row => bool_decide (gt_hash row = hash_worker_token token) && is_none (gt_revoked_at row))
          (as_guest_tokens s) with
  | None => Ok None
  | Some row =>
      if (gt_expires_at row <=? as_now s)%Z then Ok None
      else Ok (Some (gt_tenant row, gt_worker row, gt_sandbox row))
  end.

Definition resolve_worker_token (s : AuthState) (token : Text) : result (option (Text * N)) Refusal :=
  if as_lookup_fails s then Err (mkRefusal 500 "database operation failed") else
  match List.find (fun row => bool_decide (wt_hash row = Some (hash_worker_token token))) (as_worker_tokens s) with
  | None => Ok None
  | Some row => Ok (Some (wt_tenant row, wt_worker row))
  end.

Definition token_tenant (tokens : list (Text * Text)) (token : Text) : option Text :=
  snd <$> List.find (fun candidate => constant_time_eq token candidate.1) tokens.

Definition is_operator_request (s : AuthState) (request : RequestHead) : bool :=
  match operator_token (as_config s) with
  | None => false
  | Some expected =>
      match req_operator_token request ≫= to_str with
      | Some token => constant_time_eq token expected
      | None => false
      end
  end.

(** Who the bearer is: tenant, principal, and whether the credential is a
    provider-routing one. *)
Definition authenticate (s : AuthState) (request : RequestHead) : result (Text * Principal * bool) Refusal :=
  let config := as_config s in
  if existsb (fun p => is_path p (req_path request)) PROBE_PATHS then
    Ok (as_default_tenant s, PrincipalTenant, false)
  else match keep (text_starts_with (txt GUEST_TOKEN_PREFIX)) (bearer_token request) with
  | Some token =>
      let? found := resolve_guest_token s token in
      match found with
      | Some (tenant, worker, sandbox) => Ok (tenant, PrincipalGuest worker sandbox, false)
      | None => Err (mkRefusal 401 "valid guest bearer token is required")
      end
  | None =>
  match keep (text_starts_with (txt WORKER_TOKEN_PREFIX)) (bearer_token request) with
  | Some token =>
      let? found := resolve_worker_token s token in
      match found with
      | Some (tenant, worker) => Ok (tenant, PrincipalWorker worker, false)
      | None => Err (mkRefusal 401 "valid worker bearer token is required")
      end
  | None =>
      if negb (is_nil (provider_routing_tokens config)) || negb (is_nil (tenant_tokens config)) then
        match bearer_token request with
        | None => Err (mkRefusal 401 "valid bearer token is required")
        | Some token =>
            match token_tenant (provider_routing_tokens config) token with
            | Some tenant => Ok (tenant, PrincipalTenant, true)
            | None =>
                match token_tenant (tenant_tokens config) token with
                | Some tenant => Ok (tenant, PrincipalTenant, false)
                | None => Err (mkRefusal 401 "valid tenant bearer token is required")
                end
            end
        end
      else match shared_token config with
      | Some expected =>
          match bearer_token request with
          | Some token =>
              if constant_time_eq token expected then Ok (as_default_tenant s, PrincipalTenant, false)
              else Err (mkRefusal 401 "valid bearer token is required")
          | None => Err (mkRefusal 401 "valid bearer token is required")
          end
      | None =>
          if allow_insecure_no_auth config then
            let sent := keep (fun t => negb (is_nil t)) (text_trim <$> (req_tenant_header request ≫= to_str)) in
            Ok (default (as_default_tenant s) sent, PrincipalTenant, false)
          else Err (mkRefusal 500 "sandboxwich-api has no authentication configured")
      end
  end
  end.

Definition valid_scope (scope : Text) : bool :=
  match text_split_once 58 scope with
  | Some (organization, workspace) =>
      negb (is_nil organization) && negb (is_nil workspace) && negb (contains_char 58 workspace)
      && negb (existsb is_whitespace scope)
  | None => false
  end.

Definition provider_routing_scope (request : RequestHead) (allowed : bool) : result (option Text) Refusal :=
  let explicit := req_routing_scope request in
  let legacy := if allowed then req_tenant_header request else None in
  match (match explicit with Some v => Some v | None => legacy end) with
  | None => Ok None
  | Some raw =>
      match to_str raw with
      | None => if is_none explicit then Ok None
                else Err (mkRefusal 400 "provider routing scope header must be valid ASCII")
      | Some value =>
          let scope := text_trim value in
          if valid_scope scope then Ok (Some scope)
          else if is_none explicit then Ok None
          else Err (mkRefusal 400 "provider routing scope must be exactly organization:workspace")
      end
  end.

Definition denial (r : PrincipalRequirement) : Refusal :=
  match r with
  | ReqDeny => mkRefusal 403 "authenticated principal is not authorized for this route"
  | ReqNotExposed => mkRefusal 404 "resource not found"
  | _ => mkRefusal 401 "valid credential for this route is required"
  end.

(** [auth_and_tenant] up to running the handler. *)
Definition auth_and_tenant (s : AuthState) (request : RequestHead) (fresh : Text) : AuthOutcome :=
  match authenticate s request with
  | Err r => Refuse r None
  | Ok (tenant_id, principal, provider_routing_allowed) =>
      let principal := match principal with
                       | PrincipalTenant => if is_operator_request s request then PrincipalOperator else PrincipalTenant
                       | p => p
                       end in
      let authorization := from_request request tenant_id principal fresh in
      if negb (allows (az_requirement authorization) principal) then
        Refuse (denial (az_requirement authorization)) (Some authorization)
      else
        match provider_routing_scope request provider_routing_allowed with
        | Err r => Refuse r None
        | Ok scope =>
            if is_some scope && negb provider_routing_allowed then
              Refuse (mkRefusal 403 "provider routing scope requires a provider-routing service credential") None
            else Forward tenant_id principal scope authorization
        end
  end.
End Authentication.

(** ** The route table

    The routes as they are mounted, below [/v1] and (all but the operator's)
    at the root, with the layer in front of each. *)

Inductive RouteLayer : Set := LayerTenant | LayerWorker | LayerGuest | LayerNone.

(** [require_tenant_principal], [require_worker_principal],
    [require_guest_route_principal]. *)
Definition layer_admits (l : RouteLayer) (p : Principal) : bool :=
  match l, p with
  | LayerTenant, (PrincipalTenant | PrincipalOperator) => true
  | LayerWorker, PrincipalWorker _ => true
  | LayerGuest, (PrincipalWorker _ | PrincipalGuest _ _) => true
  | LayerNone, _ => true
  | _, _ => false
  end.

(** A segment of a template: a literal or a parameter. *)
Inductive Segment : Type := Lit (s : string) | Par.

Record Route : Type := mkRoute {
  rt_segments : list Segment;
  rt_methods : list string;
  rt_layer : RouteLayer
}.

Definition tenant_routes : list Route :=
  [
   mkRoute [Lit "metrics"] ["GET"] LayerTenant;
   mkRoute [Lit "homes"] ["POST"] LayerTenant;
   mkRoute [Lit "homes"; Par] ["GET"; "DELETE"] LayerTenant;
   mkRoute [Lit "homes"; Par; Lit "sandboxes"] ["POST"] LayerTenant;
   mkRoute [Lit "mcp"] ["POST"] LayerTenant;
   mkRoute [Lit "sandboxes"] ["GET"; "POST"] LayerTenant;
   mkRoute [Lit "sandboxes"; Par] ["GET"] LayerTenant;
   mkRoute [Lit "sandboxes"; Par; Lit "observed-state"] ["GET"] LayerTenant;
   mkRoute [Lit "sandboxes"; Par; Lit "files"] ["GET"; "POST"] LayerTenant;
   mkRoute [Lit "sandboxes"; Par; Lit "files"; Par] ["GET"] LayerTenant;
   mkRoute [Lit "sandboxes"; Par; Lit "runtime-resources"] ["GET"] LayerTenant;
   mkRoute [Lit "sandboxes"; Par; Lit "stop"] ["POST"] LayerTenant;
   mkRoute [Lit "sandboxes"; Par; Lit "resident-processes"; Par] ["GET"; "PUT"] LayerTenant;
   mkRoute [Lit "sandboxes"; Par; Lit "resident-processes"; Lit "maestro-hosted-runner"; Lit "connection-binding"] ["GET"] LayerTenant;
   mkRoute [Lit "sandboxes"; Par; Lit "resident-processes"; Lit "maestro-hosted-runner"; Lit "activations"; Lit "validate"] ["POST"] LayerTenant;
   mkRoute [Lit "sandboxes"; Par; Lit "resident-processes"; Lit "maestro-hosted-runner"; Lit "activations"; Lit "validate-identity"] ["POST"] LayerTenant;
   mkRoute [Lit "sandboxes"; Par; Lit "resident-processes"; Par; Lit "stop"] ["POST"] LayerTenant;
   mkRoute [Lit "sandboxes"; Par; Lit "resident-processes"; Par; Lit "events"] ["GET"] LayerTenant;
   mkRoute [Lit "sandboxes"; Par; Lit "resume"] ["POST"] LayerTenant;
   mkRoute [Lit "sandboxes"; Par; Lit "fork"] ["POST"] LayerTenant;
   mkRoute [Lit "sandboxes"; Par; Lit "snapshots"] ["GET"; "POST"] LayerTenant;
   mkRoute [Lit "sandboxes"; Par; Lit "desktop"] ["GET"] LayerTenant;
   mkRoute [Lit "sandboxes"; Par; Lit "desktop-sessions"] ["GET"; "POST"] LayerTenant;
   mkRoute [Lit "sandboxes"; Par; Lit "commands"] ["GET"; "POST"] LayerTenant;
   mkRoute [Lit "sandboxes"; Par; Lit "prompt"] ["POST"] LayerTenant;
   mkRoute [Lit "sandboxes"; Par; Lit "events"] ["GET"] LayerTenant;
   mkRoute [Lit "desktop-sessions"; Par] ["GET"] LayerTenant;
   mkRoute [Lit "desktop-sessions"; Par; Lit "status"] ["POST"] LayerTenant;
   mkRoute [Lit "desktop-sessions"; Par; Lit "access"] ["POST"] LayerTenant;
   mkRoute [Lit "secret-refs"] ["GET"; "POST"] LayerTenant;
   mkRoute [Lit "secret-refs"; Par] ["GET"; "DELETE"] LayerTenant;
   mkRoute [Lit "snapshots"; Lit "cleanup"] ["POST"] LayerTenant;
   mkRoute [Lit "snapshots"; Par] ["GET"] LayerTenant;
   mkRoute [Lit "snapshots"; Par; Lit "fork"] ["POST"] LayerTenant;
   mkRoute [Lit "commands"; Par] ["GET"] LayerTenant;
   mkRoute [Lit "commands"; Par; Lit "output"] ["GET"] LayerTenant;
   mkRoute [Lit "workers"] ["GET"] LayerTenant;
   mkRoute [Lit "capacity"] ["GET"] LayerTenant;
   mkRoute [Lit "jobs"] ["GET"; "POST"] LayerTenant;
   mkRoute [Lit "jobs"; Par] ["GET"] LayerTenant;
   mkRoute [Lit "sterile-cells"; Lit "claim"] ["POST"] LayerTenant;
   mkRoute [Lit "sterile-cell-leases"; Par] ["GET"] LayerTenant;
   mkRoute [Lit "sterile-cell-leases"; Par; Lit "release"] ["POST"] LayerTenant;
   mkRoute [Lit "divergence"; Lit "reconcile"] ["POST"] LayerTenant;
   mkRoute [Lit "sandboxes"; Par; Lit "tool-call-ledger"] ["POST"] LayerTenant;
   mkRoute [Lit "sandboxes"; Par; Lit "divergence-findings"] ["GET"] LayerTenant;
   mkRoute [Lit "operations"; Par] ["GET"] LayerTenant;
   mkRoute [Lit "operations"; Par; Lit "events"] ["GET"] LayerTenant;
   mkRoute [Lit "operations"; Par; Lit "cancel"] ["POST"] LayerTenant;
   mkRoute [Lit "sandboxes"; Par; Lit "guest-health"] ["GET"] LayerTenant;
   mkRoute [Lit "sandboxes"; Par; Lit "ssh-keys"] ["GET"; "POST"] LayerTenant;
   mkRoute [Lit "sandboxes"; Par; Lit "ssh-access"] ["POST"] LayerTenant;
   mkRoute [Lit "ssh-keys"; Par; Lit "status"] ["POST"] LayerTenant
  ].

Definition ephemeral_tenant_routes : list Route :=
  [
   mkRoute [Lit "sandboxes"; Par; Lit "apex-task-instructions"] ["POST"] LayerTenant
  ].

Definition resident_attestation_routes : list Route :=
  [
   mkRoute [Lit "resident-placement-attestations"; Lit "redeem"] ["POST"] LayerTenant;
   mkRoute [Lit "resident-placement-attestations"; Lit "validate"] ["POST"] LayerTenant
  ].

Definition sterile_attestation_routes : list Route :=
  [
   mkRoute [Lit "sterile-cell-leases"; Par; Lit "validate"] ["POST"] LayerNone
  ].

Definition registration_routes : list Route :=
  [
   mkRoute [Lit "workers"; Lit "register"] ["POST"] LayerTenant
  ].

Definition worker_routes : list Route :=
  [
   mkRoute [Lit "workers"; Par; Lit "heartbeat"] ["POST"] LayerWorker;
   mkRoute [Lit "workers"; Par; Lit "drain"] ["POST"] LayerWorker;
   mkRoute [Lit "workers"; Par; Lit "sterile-cells"; Lit "prepare"] ["POST"] LayerWorker;
   mkRoute [Lit "workers"; Par; Lit "sterile-cells"; Par] ["GET"] LayerWorker;
   mkRoute [Lit "workers"; Par; Lit "sterile-cells"; Par; Lit "retire"] ["POST"] LayerWorker;
   mkRoute [Lit "workers"; Par; Lit "sterile-cells"; Par; Lit "destroy"] ["POST"] LayerWorker;
   mkRoute [Lit "workers"; Par; Lit "sterile-cells"; Par; Lit "release"] ["POST"] LayerWorker;
   mkRoute [Lit "workers"; Par; Lit "runtime-resource-inventory"] ["GET"] LayerWorker;
   mkRoute [Lit "workers"; Par; Lit "runtime-resources"; Lit "reconcile"] ["POST"] LayerWorker;
   mkRoute [Lit "workers"; Par; Lit "sandboxes"; Par; Lit "guest-token"] ["POST"] LayerWorker;
   mkRoute [Lit "workers"; Par; Lit "apex-instruction-callbacks"; Par] ["POST"] LayerWorker
  ].

Definition guest_routes : list Route :=
  [
   mkRoute [Lit "workers"; Par; Lit "leases"; Lit "claim"] ["POST"] LayerGuest;
   mkRoute [Lit "resident-processes"; Par; Lit "bootstrap"] ["POST"] LayerGuest;
   mkRoute [Lit "resident-processes"; Par; Lit "observations"] ["POST"] LayerGuest;
   mkRoute [Lit "leases"; Par; Lit "renew"] ["POST"] LayerGuest;
   mkRoute [Lit "leases"; Par; Lit "materialization"] ["GET"] LayerGuest;
   mkRoute [Lit "leases"; Par; Lit "provisioning"] ["PUT"] LayerGuest;
   mkRoute [Lit "leases"; Par; Lit "output"] ["POST"] LayerGuest;
   mkRoute [Lit "leases"; Par; Lit "complete"] ["POST"] LayerGuest;
   mkRoute [Lit "leases"; Par; Lit "fail"] ["POST"] LayerGuest;
   mkRoute [Lit "sandboxes"; Par; Lit "guest-health"] ["POST"] LayerGuest;
   mkRoute [Lit "sandboxes"; Par; Lit "guest-token"; Lit "refresh"] ["POST"] LayerGuest
  ].

Definition operator_routes : list Route :=
  [
   mkRoute [Lit "operator"; Lit "tenant-policies"; Par] ["GET"; "PUT"] LayerTenant;
   mkRoute [Lit "operator"; Lit "home-mounts"; Lit "reconcile"] ["POST"] LayerTenant
  ].

Definition versioned_routes : list Route :=
  tenant_routes ++ ephemeral_tenant_routes ++ worker_routes ++ guest_routes ++ registration_routes
  ++ resident_attestation_routes ++ sterile_attestation_routes.

(** Probes and the description of the API, with no principal layer in front. *)
Definition healthz_route : Route := mkRoute [Lit "healthz"] ["GET"] LayerNone.
Definition readyz_route : Route := mkRoute [Lit "readyz"] ["GET"] LayerNone.
Definition openapi_route : Route := mkRoute [Lit "openapi.json"] ["GET"] LayerNone.

(** The router: every route with the prefix it is mounted below. *)
Definition mounted_routes : list (string * Route) :=
  [("", healthz_route); ("", readyz_route);
   ("/v1", openapi_route); ("/v1", healthz_route); ("/v1", readyz_route)]
  ++ (pair "/v1" <$> versioned_routes) ++ (pair "/v1" <$> operator_routes)
  ++ (pair "" <$> versioned_routes).
