(* ===== verification/AuthzProofs.v ===== *)
(** * Authentication and authorization: theorems

    What a forwarded request is backed by, that the policy and the layers of
    the route table agree, and that receipts bind their material. *)

From S2P Require Import Prelude Text Authz.

(** ** Paths as segments *)

Lemma contains_text_spec p t : contains_text p t = true <-> exists a b, t = a ++ p ++ b.
Proof.
  induction t as [|x t IH]; cbn [contains_text].
  - rewrite orb_false_r, text_starts_with_spec. split.
    + intros (r & E). exists [], r. done.
    + intros (a & b & E). symmetry in E. apply app_eq_nil in E as [-> E]. exists b. done.
  - rewrite orb_true_iff, text_starts_with_spec, IH. split.
    + intros [(r & E)|(a & b & ->)]; [by exists [], r|]. by exists (x :: a), b.
    + intros (a & b & E). destruct a as [|y a]; [left; by exists b|]. injection E as <- ->. right. by exists a, b.
Qed.

Lemma split_char_at c a r : split_char c (a ++ c :: r) = split_char c a ++ split_char c r.
Proof.
  unfold split_char. induction a as [|x a IH]; cbn [split_by app].
  - by rewrite N.eqb_refl.
  - rewrite IH. destruct (c =? x)%N; [done|].
    pose proof (split_char_nonnil c a) as Hn. unfold split_char in Hn.
    by destruct (split_by (N.eqb c) a) as [|y ys].
Qed.

Lemma join_app a b : a <> [] -> b <> [] -> join_slash (a ++ b) = join_slash a ++ 47%N :: join_slash b.
Proof.
  intros Ha Hb. induction a as [|x a IH]; [done|]. destruct a as [|y a].
  - by destruct b.
  - change (x ++ 47%N :: join_slash ((y :: a) ++ b) = (x ++ 47%N :: join_slash (y :: a)) ++ 47%N :: join_slash b).
    rewrite IH by done. by rewrite <- app_assoc.
Qed.

(** A path of non-empty segments. *)
Definition segment (t : Text) : Prop := t <> [] /\ 47%N ∉ t.
Definition path_of (segs : list Text) : Text := 47%N :: join_slash segs.

Section Segments.
Context (segs : list Text).
Hypothesis Hne : segs <> [].
Hypothesis Hsegs : Forall segment segs.

Lemma split_path : split_char 47 (path_of segs) = [] :: segs.
Proof.
  unfold path_of. change (47%N :: join_slash segs) with ([] ++ 47%N :: join_slash segs).
  rewrite split_char_app by apply not_elem_of_nil. f_equal. apply split_join; [done|].
  eapply Forall_impl; [exact Hsegs|]. by intros t [_ ?].
Qed.

Lemma path_inj t : t = path_of segs <-> split_char 47 t = [] :: segs.
Proof.
  split; [intros ->; apply split_path|]. intros E. rewrite <- (join_split t), E.
  destruct segs; [done|]. reflexivity.
Qed.

(** [starts_with("/w/")]: the first segment, with more after it. *)
Lemma starts_segment w : 47%N ∉ w ->
  text_starts_with (47%N :: w ++ [47%N]) (path_of segs) = true <-> exists r, r <> [] /\ segs = w :: r.
Proof.
  intros Hw. rewrite text_starts_with_spec. split.
  - intros (r & E). pose proof split_path as Hs. rewrite E in Hs. simpl in Hs.
    change (47%N :: (w ++ [47%N]) ++ r) with ([] ++ 47%N :: ((w ++ [47%N]) ++ r)) in Hs.
    rewrite split_char_app in Hs by apply not_elem_of_nil. rewrite <- app_assoc in Hs. simpl in Hs.
    rewrite split_char_app in Hs by done. injection Hs as Hs. exists (split_char 47 r).
    split; [apply split_char_nonnil|done].
  - intros (r & Hr & E). destruct r as [|s r]; [done|]. exists (join_slash (s :: r)).
    unfold path_of. rewrite E. simpl. by rewrite <- app_assoc.
Qed.

(** [ends_with("/w")]: the last segment. *)
Lemma ends_segment w : 47%N ∉ w ->
  text_ends_with (47%N :: w) (path_of segs) = true <-> exists r, segs = r ++ [w].
Proof.
  intros Hw. rewrite text_ends_with_spec. split.
  - intros (r & E). pose proof split_path as Hs. rewrite E, split_char_at, (split_char_free 47 w) in Hs by done.
    pose proof (split_char_nonnil 47 r) as Hn. destruct (split_char 47 r) as [|x xs]; [done|].
    injection Hs as -> Hs. by exists xs.
  - intros (r & E). exists (if is_nil r then [] else path_of r). unfold path_of. rewrite E.
    destruct r as [|x r]; [done|]. cbn [is_nil]. by rewrite join_app.
Qed.

(** [ends_with("/v/w")]: the last two. *)
Lemma ends_segments v w : 47%N ∉ v -> 47%N ∉ w ->
  text_ends_with (47%N :: v ++ 47%N :: w) (path_of segs) = true <-> exists r, segs = r ++ [v; w].
Proof.
  intros Hv Hw. rewrite text_ends_with_spec. split.
  - intros (r & E). pose proof split_path as Hs. rewrite E, split_char_at, split_char_app, (split_char_free 47 w) in Hs by done.
    pose proof (split_char_nonnil 47 r) as Hn. destruct (split_char 47 r) as [|x xs]; [done|].
    injection Hs as -> Hs. by exists xs.
  - intros (r & E). exists (if is_nil r then [] else path_of r). unfold path_of. rewrite E.
    destruct r as [|x r]; [done|]. cbn [is_nil]. by rewrite join_app.
Qed.

(** [contains("/w/")]: a segment that is not the last. *)
Lemma contains_segment w : 47%N ∉ w ->
  contains_text (47%N :: w ++ [47%N]) (path_of segs) = true <-> exists a b, b <> [] /\ segs = a ++ w :: b.
Proof.
  intros Hw. rewrite contains_text_spec. split.
  - intros (a & b & E). pose proof split_path as Hs. rewrite E in Hs. cbn [app] in Hs.
    rewrite split_char_at in Hs. rewrite <- app_assoc in Hs. cbn [app] in Hs. rewrite split_char_app in Hs by done.
    pose proof (split_char_nonnil 47 a) as Hn. destruct (split_char 47 a) as [|x xs]; [done|].
    injection Hs as -> Hs. exists xs, (split_char 47 b). split; [apply split_char_nonnil|done].
  - intros (a & b & Hb & E). exists (if is_nil a then [] else path_of a), (join_slash b). unfold path_of. rewrite E.
    destruct a as [|x a].
    + destruct b as [|y b]; [done|]. simpl. by rewrite <- app_assoc.
    + cbn [is_nil]. rewrite join_app by done. destruct b as [|y b]; [done|]. simpl. by rewrite <- !app_assoc.
Qed.

(** [contains("/v/w")]: a segment [v] before one that starts with [w]. *)
Lemma contains_before v w : 47%N ∉ v -> 47%N ∉ w ->
  contains_text (47%N :: v ++ 47%N :: w) (path_of segs) = true <->
  exists a s b, segs = a ++ v :: s :: b /\ text_starts_with w s = true.
Proof.
  intros Hv Hw. rewrite contains_text_spec. split.
  - intros (a & b & E). pose proof split_path as Hs. rewrite E in Hs. cbn [app] in Hs.
    rewrite split_char_at in Hs. rewrite <- app_assoc in Hs. cbn [app] in Hs. rewrite split_char_app in Hs by done.
    pose proof (split_char_nonnil 47 a) as Hn. destruct (split_char 47 a) as [|x xs]; [done|].
    injection Hs as -> Hs.
    assert (Hsb : exists s0 rest, split_char 47 (w ++ b) = (w ++ s0) :: rest).
    { clear -Hw. unfold split_char. induction w as [|c w IH]; cbn [app split_by].
      - pose proof (split_char_nonnil 47 b) as Hn. unfold split_char in Hn.
        destruct (split_by (N.eqb 47) b) as [|s0 rest]; [done|]. by exists s0, rest.
      - apply not_elem_of_cons in Hw as [Hc Hw]. destruct (IH Hw) as (s0 & rest & ->).
        rewrite (proj2 (N.eqb_neq 47 c)) by done. by exists s0, rest. }
    destruct Hsb as (s0 & rest & Eb). rewrite Eb in Hs. exists xs, (w ++ s0), rest. split; [done|].
    apply text_starts_with_spec. by exists s0.
  - intros (a & s & b & E & Hs). apply text_starts_with_spec in Hs as (s0 & ->).
    exists (if is_nil a then [] else path_of a), (s0 ++ if is_nil b then [] else 47%N :: join_slash b).
    unfold path_of. rewrite E. destruct a as [|x a].
    + cbn [is_nil app]. destruct b as [|y b]; simpl; by rewrite <- ?app_assoc, ?app_nil_r.
    + cbn [is_nil]. rewrite join_app by done. destruct b as [|y b]; simpl; by rewrite <- ?app_assoc, ?app_nil_r.
Qed.

Lemma trim_path : trim_matches 47 (path_of segs) = join_slash segs.
Proof.
  unfold trim_matches, path_of. cbn [drop_while]. rewrite N.eqb_refl.
  assert (Hhead : forall l, Forall segment l -> drop_while (N.eqb 47) (join_slash l) = join_slash l).
  { intros l HF. destruct HF as [|x l [Hx Hs] HF]; [done|]. destruct x as [|c x]; [done|].
    assert (Hc : (47 =? c)%N = false) by (apply N.eqb_neq; intros <-; apply Hs; by left).
    destruct l; cbn [join_slash app drop_while]; by rewrite Hc. }
  rewrite Hhead by done. unfold drop_end_while.
  assert (Hlast : exists r c, c <> 47%N /\ join_slash segs = r ++ [c]).
  { clear Hhead. induction Hsegs as [|x l [Hx Hs] HF IH]; [done|]. destruct l as [|y l].
    - destruct (exists_last Hx) as (r & c & ->). exists r, c. split; [|done]. intros ->. apply Hs.
      apply elem_of_app. right. by apply list_elem_of_singleton.
    - destruct IH as (r & c & Hc & E); [done|exact HF|]. exists (x ++ 47%N :: r), c. split; [done|].
      change (x ++ 47%N :: join_slash (y :: l) = (x ++ 47%N :: r) ++ [c]). rewrite E. by rewrite <- app_assoc. }
  destruct Hlast as (r & c & Hc & E). rewrite E, reverse_app.
  change (reverse [c]) with [c]. cbn [app drop_while]. rewrite (proj2 (N.eqb_neq 47 c)) by congruence.
  by rewrite reverse_cons, reverse_involutive.
Qed.

Lemma split_trimmed : split_char 47 (trim_matches 47 (path_of segs)) = segs.
Proof. rewrite trim_path. apply split_join; [done|]. eapply Forall_impl; [exact Hsegs|]. by intros t [_ ?]. Qed.
End Segments.

(** ** The policy on segments

    The same rules over a list of segments, for any kind of segment that can
    be compared with a word. *)

Definition template_parts (template : string) : list Text := split_char 47 (trim_matches 47 (txt template)).

Section SegmentPolicy.
Context {A : Type} (eq pre : A -> Text -> bool).

Definition seg_starts (w : string) (segs : list A) : bool :=
  match segs with s :: _ :: _ => eq s (txt w) | _ => false end.
Definition seg_ends (w : string) (segs : list A) : bool :=
  match rev segs with s :: _ => eq s (txt w) | _ => false end.
Definition seg_ends2 (v w : string) (segs : list A) : bool :=
  match rev segs with b :: a :: _ => eq a (txt v) && eq b (txt w) | _ => false end.
Fixpoint seg_contains (w : string) (segs : list A) : bool :=
  match segs with a :: (_ :: _) as rest => eq a (txt w) || seg_contains w rest | _ => false end.
Fixpoint seg_before (v w : string) (segs : list A) : bool :=
  match segs with
  | a :: (b :: _) as rest => eq a (txt v) && pre b (txt w) || seg_before v w rest
  | _ => false
  end.
Fixpoint parts_all (f : A -> Text -> bool) (segs : list A) (parts : list Text) : bool :=
  match segs, parts with
  | [], [] => true
  | s :: segs', e :: parts' => f s e && parts_all f segs' parts'
  | _, _ => false
  end.
Definition seg_matches (template : string) (segs : list A) : bool :=
  parts_all (fun s e => bool_decide (e = [42%N]) || eq s e) segs (template_parts template).
Definition seg_is (p : string) (segs : list A) : bool := parts_all eq segs (template_parts p).

Definition seg_known (segs : list A) : bool := existsb (fun t => seg_matches t segs) AUTHORIZATION_ROUTE_MANIFEST.

Definition seg_worker_route (segs : list A) : bool :=
  seg_starts "workers" segs
  && (seg_ends "heartbeat" segs || seg_ends "drain" segs || seg_ends "runtime-resource-inventory" segs
      || seg_ends2 "runtime-resources" "reconcile" segs || seg_ends "guest-token" segs
      || seg_ends2 "sterile-cells" "prepare" segs || seg_matches "/workers/*/sterile-cells/*" segs
      || seg_contains "sterile-cells" segs && seg_ends "retire" segs
      || seg_contains "sterile-cells" segs && seg_ends "destroy" segs
      || seg_contains "sterile-cells" segs && seg_ends "release" segs
      || seg_contains "apex-instruction-callbacks" segs).

Definition seg_worker_or_guest_route (method : string) (segs : list A) : bool :=
  seg_starts "workers" segs && seg_before "leases" "claim" segs
  || seg_starts "resident-processes" segs || seg_starts "leases" segs
  || String.eqb method "POST" && (seg_ends "guest-health" segs || seg_ends2 "guest-token" "refresh" segs).

Definition seg_requirement (method : string) (segs : list A) : PrincipalRequirement :=
  if existsb (fun t => seg_matches t segs) AUTHORIZATION_NON_TENANT_ROUTE_MANIFEST then ReqNotExposed
  else if seg_is "/workers/register" segs && seg_known segs then ReqTenantOrOperator
  else if seg_matches "/sterile-cell-leases/*/validate" segs && seg_known segs then ReqAuthenticated
  else if (seg_is "/snapshots/cleanup" segs || seg_is "/operator" segs || seg_starts "operator" segs)
          && seg_known segs then ReqOperator
  else if seg_worker_route segs && seg_known segs then ReqWorker
  else if seg_worker_or_guest_route method segs && seg_known segs then ReqWorkerOrGuest
  else if seg_starts "workers" segs || negb (seg_known segs) then ReqDeny
  else ReqTenantOrOperator.
End SegmentPolicy.

Definition text_eq (a w : Text) : bool := bool_decide (a = w).
Definition text_pre (a w : Text) : bool := text_starts_with w a.

Lemma bool_eq_iff (a b : bool) : (a = true <-> b = true) -> a = b.
Proof. destruct a, b; naive_solver. Qed.

Lemma no_slash w : contains_char 47 w = false -> 47%N ∉ w.
Proof. intros E Hin. apply contains_char_spec in Hin. by rewrite E in Hin. Qed.

Lemma text_eq_true a w : text_eq a w = true <-> a = w.
Proof. apply bool_decide_eq_true. Qed.

Lemma parts_all_zip (f : Text -> Text -> bool) segs parts :
  ((length segs =? length parts)%nat && forallb (fun '(s, e) => f s e) (zip segs parts)) = parts_all f segs parts.
Proof.
  revert parts. induction segs as [|s segs IH]; intros [|e parts]; simpl; try done. rewrite <- IH.
  by destruct (length segs =? length parts)%nat, (f s e).
Qed.

(** The rules on text agree with the rules on segments. *)
Section Agree.
Context (segs : list Text).
Hypothesis Hne : segs <> [].
Hypothesis Hsegs : Forall segment segs.

Lemma starts_agree w pat : txt pat = 47%N :: txt w ++ [47%N] -> contains_char 47 (txt w) = false ->
  path_starts pat (path_of segs) = seg_starts text_eq w segs.
Proof.
  intros Ep Hw. apply bool_eq_iff. unfold path_starts. rewrite Ep, starts_segment by (done || by apply no_slash).
  unfold seg_starts. destruct segs as [|a [|b r]]; [done| |].
  - split; [|done]. intros (r & Hr & [= _ E]). by subst.
  - rewrite text_eq_true. split; [intros (r' & _ & [= -> _]); done|]. intros ->. by exists (b :: r).
Qed.

Lemma ends_agree w pat : txt pat = 47%N :: txt w -> contains_char 47 (txt w) = false ->
  path_ends pat (path_of segs) = seg_ends text_eq w segs.
Proof.
  intros Ep Hw. apply bool_eq_iff. unfold path_ends. rewrite Ep, ends_segment by (done || by apply no_slash).
  unfold seg_ends. split.
  - intros (r & E). rewrite E, rev_app_distr. by apply text_eq_true.
  - destruct (rev segs) as [|s r] eqn:Er; [done|]. rewrite text_eq_true. intros ->.
    exists (rev r). rewrite <- (rev_involutive segs), Er. done.
Qed.

Lemma ends2_agree v w pat : txt pat = 47%N :: txt v ++ 47%N :: txt w -> contains_char 47 (txt v) = false ->
  contains_char 47 (txt w) = false ->
  path_ends pat (path_of segs) = seg_ends2 text_eq v w segs.
Proof.
  intros Ep Hv Hw. apply bool_eq_iff. unfold path_ends. rewrite Ep, ends_segments by (done || by apply no_slash).
  unfold seg_ends2. split.
  - intros (r & E). rewrite E, rev_app_distr. simpl. apply andb_true_iff. by rewrite !text_eq_true.
  - destruct (rev segs) as [|b [|a r]] eqn:Er; [done..|]. rewrite andb_true_iff, !text_eq_true. intros [-> ->].
    exists (rev r). rewrite <- (rev_involutive segs), Er. simpl. by rewrite <- app_assoc.
Qed.

Lemma contains_agree w pat : txt pat = 47%N :: txt w ++ [47%N] -> contains_char 47 (txt w) = false ->
  path_contains pat (path_of segs) = seg_contains text_eq w segs.
Proof.
  intros Ep Hw. apply bool_eq_iff. unfold path_contains. rewrite Ep, contains_segment by (done || by apply no_slash).
  clear Hne Hsegs. induction segs as [|a l IH]; [split; [intros ([]&?&?&?)|]; done|].
  destruct l as [|b r].
  - split; [|done]. intros ([|x [|y xs]] & c & Hc & E); simplify_eq/=.
  - cbn [seg_contains]. rewrite orb_true_iff, text_eq_true, <- IH. split.
    + intros ([|x xs] & c & Hc & E); simplify_eq/=; [by left|]. right. by exists xs, c.
    + intros [->|(xs & c & Hc & E)]; [by exists [], (b :: r)|]. exists (a :: xs), c. by rewrite E.
Qed.

Lemma before_agree v w pat : txt pat = 47%N :: txt v ++ 47%N :: txt w -> contains_char 47 (txt v) = false ->
  contains_char 47 (txt w) = false ->
  path_contains pat (path_of segs) = seg_before text_eq text_pre v w segs.
Proof.
  intros Ep Hv Hw. apply bool_eq_iff. unfold path_contains. rewrite Ep, contains_before by (done || by apply no_slash).
  clear Hne Hsegs. induction segs as [|a l IH]; [split; [intros ([]&?&?&?&?)|]; done|].
  destruct l as [|b r].
  - split; [|done]. intros ([|x [|y xs]] & s & c & E & _); simplify_eq/=.
  - cbn [seg_before]. rewrite orb_true_iff, andb_true_iff, text_eq_true, <- IH. unfold text_pre. split.
    + intros ([|x xs] & s & c & E & Hs); simplify_eq/=; [by left|]. right. by exists xs, s, c.
    + intros [[-> Hs]|(xs & s & c & E & Hs)]; [by exists [], b, r|]. exists (a :: xs), s, c. by rewrite E.
Qed.

Lemma matches_agree template : matches (path_of segs) template = seg_matches text_eq template segs.
Proof.
  unfold matches, path_matches_template, seg_matches. rewrite split_trimmed by done.
  rewrite <- parts_all_zip. done.
Qed.

Lemma is_agree p parts : txt p = path_of parts -> template_parts p = parts -> parts <> [] -> Forall segment parts ->
  is_path p (path_of segs) = seg_is text_eq p segs.
Proof.
  intros Ep Et Hpn Hps. apply bool_eq_iff. unfold is_path, seg_is. rewrite bool_decide_eq_true, Ep, Et.
  rewrite (path_inj parts) by done. rewrite split_path by done.
  transitivity (segs = parts); [naive_solver|]. clear. revert parts.
  induction segs as [|a l IH]; intros [|b r]; simpl; try (split; done).
  rewrite andb_true_iff, text_eq_true, <- IH. naive_solver.
Qed.
End Agree.

Ltac literal := vm_compute; reflexivity.

Lemma existsb_ext {A} (f g : A -> bool) l : (forall x, f x = g x) -> existsb f l = existsb g l.
Proof. intros E. induction l as [|x l IH]; simpl; [done|]. by rewrite E, IH. Qed.

Lemma segment_txt w : is_nil (txt w) = false -> contains_char 47 (txt w) = false -> segment (txt w).
Proof. intros Hn Hs. split; [by intros E; rewrite E in Hn|by apply no_slash]. Qed.

Lemma route_requirement_segments method segs : segs <> [] -> Forall segment segs ->
  route_requirement method (path_of segs) = seg_requirement text_eq text_pre method segs.
Proof.
  intros Hne Hsegs. unfold route_requirement, seg_requirement, known_route, known_non_tenant_route, worker_route,
    worker_or_guest_route, seg_known, seg_worker_route, seg_worker_or_guest_route.
  rewrite !(existsb_ext (matches (path_of segs)) (fun t => seg_matches text_eq t segs))
    by (intros t; by apply matches_agree).
  rewrite !matches_agree by done.
  rewrite (starts_agree segs Hne Hsegs "workers" "/workers/"), (starts_agree segs Hne Hsegs "operator" "/operator/"),
    (starts_agree segs Hne Hsegs "resident-processes" "/resident-processes/"),
    (starts_agree segs Hne Hsegs "leases" "/leases/") by literal.
  rewrite (ends_agree segs Hne Hsegs "heartbeat" "/heartbeat"), (ends_agree segs Hne Hsegs "drain" "/drain"),
    (ends_agree segs Hne Hsegs "runtime-resource-inventory" "/runtime-resource-inventory"),
    (ends_agree segs Hne Hsegs "guest-token" "/guest-token"), (ends_agree segs Hne Hsegs "retire" "/retire"),
    (ends_agree segs Hne Hsegs "destroy" "/destroy"), (ends_agree segs Hne Hsegs "release" "/release"),
    (ends_agree segs Hne Hsegs "guest-health" "/guest-health") by literal.
  rewrite (ends2_agree segs Hne Hsegs "runtime-resources" "reconcile" "/runtime-resources/reconcile"),
    (ends2_agree segs Hne Hsegs "sterile-cells" "prepare" "/sterile-cells/prepare"),
    (ends2_agree segs Hne Hsegs "guest-token" "refresh" "/guest-token/refresh") by literal.
  rewrite (contains_agree segs Hne Hsegs "sterile-cells" "/sterile-cells/"),
    (contains_agree segs Hne Hsegs "apex-instruction-callbacks" "/apex-instruction-callbacks/") by literal.
  rewrite (before_agree segs Hne Hsegs "leases" "claim" "/leases/claim") by literal.
  rewrite (is_agree segs Hne Hsegs "/workers/register" [txt "workers"; txt "register"]),
    (is_agree segs Hne Hsegs "/snapshots/cleanup" [txt "snapshots"; txt "cleanup"]),
    (is_agree segs Hne Hsegs "/operator" [txt "operator"])
    by (literal || discriminate || (repeat constructor; apply segment_txt; literal)).
  reflexivity.
Qed.

(** ** Routes with parameters *)

(** The words the policy compares segments with. *)
Definition POLICY_WORDS : list Text :=
  Eval vm_compute in
    List.filter (fun w => negb (bool_decide (w = [42%N])))
      (concat (map template_parts (AUTHORIZATION_ROUTE_MANIFEST ++ AUTHORIZATION_NON_TENANT_ROUTE_MANIFEST
                                   ++ ["/workers/register"; "/snapshots/cleanup"; "/operator"]))).

(** The value of a parameter: a segment that is not one of those words. *)
Definition plain (p : Text) : Prop := segment p /\ p ∉ POLICY_WORDS /\ text_starts_with (txt "claim") p = false.

Definition lit_eq (s : Segment) (w : Text) : bool :=
  match s with Lit l => bool_decide (txt l = w) | Par => false end.
Definition lit_pre (s : Segment) (w : Text) : bool :=
  match s with Lit l => text_starts_with w (txt l) | Par => false end.

(** The segments of a path of a route. *)
Definition fills (t : Text) (s : Segment) : Prop :=
  match s with Lit l => t = txt l | Par => plain t end.

Definition same_tests (t : Text) (s : Segment) : Prop :=
  (forall w, w ∈ POLICY_WORDS -> text_eq t w = lit_eq s w) /\ text_pre t (txt "claim") = lit_pre s (txt "claim").

Lemma fills_same_tests t s : fills t s -> same_tests t s.
Proof.
  destruct s as [l|]; simpl.
  - intros ->. done.
  - intros (_ & Hw & Hc). split; [|exact Hc]. intros w Hin. unfold text_eq. apply bool_decide_eq_false. by intros ->.
Qed.

Section Parametric.
Context (ts : list Text) (ss : list Segment).
Hypothesis HF : Forall2 same_tests ts ss.

Lemma starts_same w : txt w ∈ POLICY_WORDS -> seg_starts text_eq w ts = seg_starts lit_eq w ss.
Proof.
  intros Hw. unfold seg_starts. destruct HF as [|t s ts' ss' [H1 _] HF']; [done|]. destruct HF'; [done|]. by apply H1.
Qed.

Lemma rev_same : Forall2 same_tests (rev ts) (rev ss).
Proof. induction HF as [|t s ts' ss' H1 HF' IH]; simpl; [constructor|]. apply Forall2_app; [by apply IH|by constructor]. Qed.

Lemma ends_same w : txt w ∈ POLICY_WORDS -> seg_ends text_eq w ts = seg_ends lit_eq w ss.
Proof. intros Hw. unfold seg_ends. destruct rev_same as [|t s ts' ss' [H1 _] _]; [done|]. by apply H1. Qed.

Lemma ends2_same v w : txt v ∈ POLICY_WORDS -> txt w ∈ POLICY_WORDS ->
  seg_ends2 text_eq v w ts = seg_ends2 lit_eq v w ss.
Proof.
  intros Hv Hw. unfold seg_ends2. destruct rev_same as [|t s ts' ss' [H1 _] HF']; [done|].
  destruct HF' as [|t' s' ? ? [H1' _] _]; [done|]. by rewrite H1, H1'.
Qed.

Lemma contains_same w : txt w ∈ POLICY_WORDS -> seg_contains text_eq w ts = seg_contains lit_eq w ss.
Proof.
  intros Hw. induction HF as [|t s ts' ss' [H1 _] HF' IH]; [done|]. destruct HF'; [done|].
  cbn [seg_contains]. rewrite H1 by done. f_equal. apply IH. by constructor.
Qed.

Lemma before_same v : txt v ∈ POLICY_WORDS ->
  seg_before text_eq text_pre v "claim" ts = seg_before lit_eq lit_pre v "claim" ss.
Proof.
  intros Hv. induction HF as [|t s ts' ss' [H1 _] HF' IH]; [done|]. assert (IH' := IH HF'). clear IH.
  destruct HF' as [|t' s' ? ? [_ H2'] ?]; [done|].
  cbn [seg_before]. rewrite H1, H2' by done. f_equal. exact IH'.
Qed.

Lemma parts_same (any : bool) parts : (forall w, w ∈ parts -> any && bool_decide (w = [42%N]) = false -> w ∈ POLICY_WORDS) ->
  parts_all (fun s e => any && bool_decide (e = [42%N]) || text_eq s e) ts parts
  = parts_all (fun s e => any && bool_decide (e = [42%N]) || lit_eq s e) ss parts.
Proof.
  revert parts. induction HF as [|t s ts' ss' [H1 _] HF' IH]; intros [|e parts] Hp; simpl; try done.
  rewrite IH by (done || (intros w Hw; apply Hp; by right)). f_equal.
  destruct (any && bool_decide (e = [42%N])) eqn:Ee; [done|]. simpl. apply H1, Hp; [by left|done].
Qed.

(** The words of a template are policy words. *)
Definition covered (any : bool) (template : string) : bool :=
  forallb (fun w => any && bool_decide (w = [42%N]) || bool_decide (w ∈ POLICY_WORDS)) (template_parts template).

Lemma covered_spec any template w : covered any template = true -> w ∈ template_parts template ->
  any && bool_decide (w = [42%N]) = false -> w ∈ POLICY_WORDS.
Proof.
  unfold covered. rewrite forallb_forall. intros Hc Hin Hs. apply list_elem_of_In, Hc in Hin. rewrite Hs in Hin.
  by apply bool_decide_eq_true in Hin.
Qed.

Lemma matches_same template : covered true template = true -> seg_matches text_eq template ts = seg_matches lit_eq template ss.
Proof. intros Hc. unfold seg_matches. apply (parts_same true). intros w Hw. by apply (covered_spec true template). Qed.

Lemma is_same p : covered false p = true -> seg_is text_eq p ts = seg_is lit_eq p ss.
Proof. intros Hc. unfold seg_is. apply (parts_same false). intros w Hw. by apply (covered_spec false p). Qed.

Lemma existsb_same (templates : list string) : forallb (covered true) templates = true ->
  existsb (fun t => seg_matches text_eq t ts) templates = existsb (fun t => seg_matches lit_eq t ss) templates.
Proof.
  induction templates as [|t templates IH]; [done|]. cbn [forallb existsb]. rewrite andb_true_iff. intros [Ht Hts].
  by rewrite matches_same, IH.
Qed.
End Parametric.

Lemma policy_word w : bool_decide (w ∈ POLICY_WORDS) = true -> w ∈ POLICY_WORDS.
Proof. apply bool_decide_eq_true. Qed.

Ltac covered_word := first [apply policy_word; literal | literal].

Lemma seg_requirement_same method ts ss : Forall2 same_tests ts ss ->
  seg_requirement text_eq text_pre method ts = seg_requirement lit_eq lit_pre method ss.
Proof.
  intros HF. unfold seg_requirement, seg_known, seg_worker_route, seg_worker_or_guest_route.
  rewrite !(existsb_same ts ss HF) by literal.
  rewrite !(is_same ts ss HF) by literal. rewrite !(matches_same ts ss HF) by literal.
  rewrite !(starts_same ts ss HF) by covered_word. rewrite !(ends_same ts ss HF) by covered_word.
  rewrite !(ends2_same ts ss HF) by covered_word. rewrite !(contains_same ts ss HF) by covered_word.
  rewrite !(before_same ts ss HF) by covered_word. reflexivity.
Qed.

(** ** The policy and the layers agree *)

(** Routes that act across tenants. *)
Definition operator_only (r : Route) : bool :=
  match rt_segments r with
  | Lit "operator" :: _ => true
  | [Lit "snapshots"; Lit "cleanup"] => true
  | _ => false
  end.

(** Routes that no layer guards and that the policy keeps to tenants and operators. *)
Definition public_route (r : Route) : bool :=
  match rt_segments r with
  | [Lit l] => bool_decide (l ∈ ["healthz"; "readyz"; "openapi.json"])
  | _ => false
  end.

Definition expected_requirement (r : Route) : PrincipalRequirement :=
  if operator_only r then ReqOperator
  else if public_route r then ReqTenantOrOperator
  else match rt_layer r with
       | LayerTenant => ReqTenantOrOperator
       | LayerWorker => ReqWorker
       | LayerGuest => ReqWorkerOrGuest
       | LayerNone => ReqAuthenticated
       end.

(** The check of one route: literals are segments, the first is not a
    version, and the policy requires what is expected. *)
Definition route_checks (r : Route) : bool :=
  match rt_segments r with
  | Lit l :: _ => negb (text_starts_with (txt "v1") (txt l))
  | _ => false
  end
  && forallb (fun s => match s with
                       | Lit l => negb (is_nil (txt l)) && negb (contains_char 47 (txt l))
                       | Par => true
                       end) (rt_segments r)
  && forallb (fun m => bool_decide (seg_requirement lit_eq lit_pre m (rt_segments r) = expected_requirement r))
       (rt_methods r).

Lemma mounted_routes_check : forallb (fun vr => bool_decide (vr.1 ∈ [""; "/v1"]) && route_checks vr.2) mounted_routes = true.
Proof. literal. Qed.

Lemma filled_segments r ts : route_checks r = true -> Forall2 fills ts (rt_segments r) ->
  ts <> [] /\ Forall segment ts.
Proof.
  unfold route_checks. intros Hc HF. bool_to_prop.
  split; [intros ->; apply Forall2_nil_inv_l in HF; by rewrite HF in *|].
  match goal with H : forallb _ (rt_segments r) = true |- _ => revert H end. revert HF. clear.
  generalize (rt_segments r) as ss. intros ss HF. induction HF as [|t s ts ss Hf HF IH]; [constructor|].
  cbn [forallb]. intros E. bool_to_prop. constructor; [|by apply IH]. destruct s as [l|]; simpl in Hf.
  - subst t. bool_to_prop. by apply segment_txt.
  - by destruct Hf.
Qed.

Lemma unversioned t rest : text_starts_with (txt "v1") t = false -> segment t ->
  strip_prefix (txt "/v1") (path_of (t :: rest)) = None.
Proof.
  intros Hv [Hn _]. destruct (strip_prefix _ _) as [r|] eqn:E; [exfalso|done]. apply strip_prefix_Some in E.
  change (txt "/v1" ++ r) with ([47; 118; 49]%N ++ r) in E. change (txt "v1") with [118; 49]%N in Hv.
  apply not_true_iff_false in Hv. apply Hv, text_starts_with_spec. unfold path_of in E. injection E as E.
  destruct t as [|a [|b t]]; [done| |].
  - destruct rest; simpl in E; simplify_eq.
  - destruct rest; simpl in E; simplify_eq; by exists t.
Qed.

Lemma normalized_mount v r ts : v ∈ [""; "/v1"] -> route_checks r = true -> Forall2 fills ts (rt_segments r) ->
  normalized_path (txt v ++ path_of ts) = path_of ts.
Proof.
  intros Hv Hc HF. destruct (filled_segments r ts Hc HF) as [Hne Hsegs]. unfold normalized_path.
  apply elem_of_cons in Hv as [->|Hv].
  - change (txt "") with (@nil N). destruct ts as [|t ts]; [done|]. rewrite app_nil_l.
    apply Forall_cons in Hsegs as [Ht _]. rewrite unversioned; [done| |done].
    unfold route_checks in Hc. destruct (rt_segments r) as [|[l|] ss]; [by inversion HF| |done].
    apply Forall2_cons_1 in HF as [Hf _]. simpl in Hf. subst t. by bool_to_prop.
  - apply list_elem_of_singleton in Hv as ->.
    rewrite (proj2 (strip_prefix_Some (txt "/v1") (txt "/v1" ++ path_of ts) (path_of ts)) eq_refl). done.
Qed.

Lemma mounted_requirement v r m ts : (v, r) ∈ mounted_routes -> m ∈ rt_methods r -> Forall2 fills ts (rt_segments r) ->
  requirement_of (route_policy m (txt v ++ path_of ts)) = expected_requirement r.
Proof.
  intros Hr Hm HF. pose proof mounted_routes_check as Hall. rewrite forallb_forall in Hall.
  apply list_elem_of_In, Hall in Hr. cbn [fst snd] in Hr. apply andb_true_iff in Hr as [Hv Hr]. apply bool_decide_eq_true in Hv.
  destruct (filled_segments r ts Hr HF) as [Hne Hsegs].
  unfold route_policy. cbn [requirement_of]. rewrite (normalized_mount v r) by done.
  rewrite route_requirement_segments by done.
  rewrite (seg_requirement_same m ts (rt_segments r)).
  - unfold route_checks in Hr. apply andb_true_iff in Hr as [_ Hr]. rewrite forallb_forall in Hr.
    apply list_elem_of_In, Hr in Hm. by apply bool_decide_eq_true in Hm.
  - eapply Forall2_impl; [exact HF|]. apply fills_same_tests.
Qed.

(** C38. The authorization policy and the router agree.  For every route of the
    router at the prefix it is mounted below, each of its methods, and any
    parameter values that are not themselves words of the policy: the policy
    admits a principal exactly when the layer in front of the route does, except
    that the operator's routes and snapshot cleanup admit the operator alone, and
    that the probes and the description of the API, which have no layer, admit
    tenants and operators only.  No mounted route is unknown to the policy or left
    to a weaker rule. *)
Theorem policy_agrees_with_routes v r m ts p :
  (v, r) ∈ mounted_routes -> m ∈ rt_methods r -> Forall2 fills ts (rt_segments r) ->
  allows (requirement_of (route_policy m (txt v ++ path_of ts))) p
  = if public_route r then bool_decide (p = PrincipalTenant \/ p = PrincipalOperator)
    else layer_admits (rt_layer r) p && (negb (operator_only r) || bool_decide (p = PrincipalOperator)).
Proof.
  intros Hr Hm HF. rewrite (mounted_requirement v r m ts) by done. unfold expected_requirement.
  assert (Hop : (operator_only r = true -> rt_layer r = LayerTenant) /\ (public_route r = true -> operator_only r = false)).
  { assert (Hc : forallb (fun vr => (negb (operator_only vr.2) || match rt_layer vr.2 with LayerTenant => true | _ => false end)
        && (negb (public_route vr.2) || negb (operator_only vr.2))) mounted_routes = true) by literal.
    rewrite forallb_forall in Hc. apply list_elem_of_In, Hc in Hr. cbn [snd] in Hr.
    destruct (operator_only r), (public_route r), (rt_layer r); done. }
  destruct Hop as [Hop Hpub]. destruct (public_route r); [rewrite (Hpub eq_refl); by destruct p|].
  destruct (operator_only r); [rewrite (Hop eq_refl); by destruct p|]. by destruct (rt_layer r), p.
Qed.

(** ** Forwarded requests *)

(** The credential behind a principal: a bearer token that the tables or the
    configuration give to that tenant, and to that worker and sandbox. *)
Definition backed `{AuthzLib} (s : AuthState) (request : RequestHead) (tenant : Text) (p : Principal) : Prop :=
  match p with
  | PrincipalGuest w sb =>
      exists token row, bearer_token request = Some token /\ text_starts_with (txt GUEST_TOKEN_PREFIX) token = true /\
        row ∈ as_guest_tokens s /\ gt_hash row = hash_worker_token token /\ gt_revoked_at row = None /\
        (as_now s < gt_expires_at row)%Z /\ gt_tenant row = tenant /\ gt_worker row = w /\ gt_sandbox row = sb
  | PrincipalWorker w =>
      exists token row, bearer_token request = Some token /\ text_starts_with (txt WORKER_TOKEN_PREFIX) token = true /\
        row ∈ as_worker_tokens s /\ wt_hash row = Some (hash_worker_token token) /\ wt_tenant row = tenant /\
        wt_worker row = w
  | PrincipalTenant | PrincipalOperator =>
      exists token, bearer_token request = Some token /\ text_starts_with (txt GUEST_TOKEN_PREFIX) token = false /\
        text_starts_with (txt WORKER_TOKEN_PREFIX) token = false /\
        ((exists listed, (listed, tenant) ∈ provider_routing_tokens (as_config s) ++ tenant_tokens (as_config s) /\
            into_bytes listed = into_bytes token) \/
         (tenant = as_default_tenant s /\
          exists expected, shared_token (as_config s) = Some expected /\ into_bytes expected = into_bytes token))
  end.

(** A path that is served without a credential. *)
Definition is_probe (request : RequestHead) : bool := existsb (fun p => is_path p (req_path request)) PROBE_PATHS.

(** No tokens of tenants are configured, and requests without one are let in. *)
Definition insecure (config : AuthConfig) : Prop :=
  allow_insecure_no_auth config = true /\ shared_token config = None /\ provider_routing_tokens config = [] /\
  tenant_tokens config = [].

(** What is behind the principal of a request that is let in: on a probe path the
    default tenant, whatever was sent; elsewhere a credential, or in the insecure
    mode no token of a worker or guest. *)
Definition behind `{AuthzLib} (s : AuthState) (request : RequestHead) (tenant : Text) (p : Principal) : Prop :=
  let tenant_kind := p = PrincipalTenant \/ p = PrincipalOperator in
  if is_probe request then tenant_kind /\ tenant = as_default_tenant s
  else backed s request tenant p \/
       insecure (as_config s) /\ tenant_kind /\
       (forall token, bearer_token request = Some token -> text_starts_with (txt GUEST_TOKEN_PREFIX) token = false /\
          text_starts_with (txt WORKER_TOKEN_PREFIX) token = false).

Section Forwarding.
Context `{AuthzLib}.

Lemma keep_Some p o t : keep p o = Some t <-> o = Some t /\ p t = true.
Proof.
  unfold keep. destruct o as [x|]; [|by split; [|intros [? _]]]. destruct (p x) eqn:E.
  - split; [by intros [= <-]|by intros [? _]].
  - split; [done|]. intros [[= ->] Ht]. congruence.
Qed.

Lemma keep_None p t : keep p (Some t) = None -> p t = false.
Proof. unfold keep. by destruct (p t). Qed.

Lemma token_tenant_Some tokens token tenant : token_tenant tokens token = Some tenant ->
  exists listed, (listed, tenant) ∈ tokens /\ into_bytes listed = into_bytes token.
Proof.
  unfold token_tenant. destruct (List.find _ tokens) as [[l t]|] eqn:E; [|done]. intros [= <-].
  apply find_some in E as [Hin E]. apply bool_decide_eq_true in E. exists l. split; [by apply list_elem_of_In|done].
Qed.

Lemma resolve_guest_backed s request token tenant w sb :
  keep (text_starts_with (txt GUEST_TOKEN_PREFIX)) (bearer_token request) = Some token ->
  resolve_guest_token s token = Ok (Some (tenant, w, sb)) -> backed s request tenant (PrincipalGuest w sb).
Proof.
  intros Hk E. apply keep_Some in Hk as [Hb Hp]. unfold resolve_guest_token in E.
  destruct (as_lookup_fails s); [done|]. destruct (List.find _ _) as [row|] eqn:Ef; [|done].
  apply find_some in Ef as [Hin Hrow]. destruct (gt_expires_at row <=? as_now s)%Z eqn:Ee; [done|].
  injection E as <- <- <-. bool_to_prop. exists token, row. repeat split; try done; [by apply list_elem_of_In|].
  by destruct (gt_revoked_at row).
Qed.

Lemma resolve_worker_backed s request token tenant w :
  keep (text_starts_with (txt WORKER_TOKEN_PREFIX)) (bearer_token request) = Some token ->
  resolve_worker_token s token = Ok (Some (tenant, w)) -> backed s request tenant (PrincipalWorker w).
Proof.
  intros Hk E. apply keep_Some in Hk as [Hb Hp]. unfold resolve_worker_token in E.
  destruct (as_lookup_fails s); [done|]. destruct (List.find _ _) as [row|] eqn:Ef; [|done].
  apply find_some in Ef as [Hin Hrow]. injection E as <- <-. bool_to_prop. exists token, row.
  repeat split; try done. by apply list_elem_of_In.
Qed.

Lemma authenticate_backed s request tenant p routing : authenticate s request = Ok (tenant, p, routing) ->
  behind s request tenant p /\ p <> PrincipalOperator.
Proof.
  unfold authenticate, behind, is_probe.
  destruct (existsb (fun p0 => is_path p0 (req_path request)) PROBE_PATHS) eqn:Ep.
  { intros [= <- <- _]. split; [|done]. split; [by left|done]. }
  destruct (keep (text_starts_with (txt GUEST_TOKEN_PREFIX)) (bearer_token request)) as [token|] eqn:Eg.
  { intros E. apply result_bind_ok in E as ([[[t w] sb]|] & Hr & E); [|done]. injection E as <- <- _.
    split; [left; by eapply resolve_guest_backed|done]. }
  destruct (keep (text_starts_with (txt WORKER_TOKEN_PREFIX)) (bearer_token request)) as [token|] eqn:Ew.
  { intros E. apply result_bind_ok in E as ([[t w]|] & Hr & E); [|done]. injection E as <- <- _.
    split; [left; by eapply resolve_worker_backed|done]. }
  destruct (negb (is_nil (provider_routing_tokens (as_config s))) || negb (is_nil (tenant_tokens (as_config s)))) eqn:El.
  - destruct (bearer_token request) as [token|] eqn:Eb; [|done]. apply keep_None in Eg, Ew.
    assert (Htok : forall t, (exists listed, (listed, t) ∈ provider_routing_tokens (as_config s) ++ tenant_tokens (as_config s) /\
              into_bytes listed = into_bytes token) -> backed s request t PrincipalTenant).
    { intros t Hl. exists token. repeat split; try done. by left. }
    destruct (token_tenant (provider_routing_tokens (as_config s)) token) as [t|] eqn:E1.
    + intros [= <- <- _]. split; [left|done]. apply Htok. apply token_tenant_Some in E1 as (l & Hin & E).
      exists l. split; [apply elem_of_app; by left|done].
    + destruct (token_tenant (tenant_tokens (as_config s)) token) as [t|] eqn:E2; [|done].
      intros [= <- <- _]. split; [left|done]. apply Htok. apply token_tenant_Some in E2 as (l & Hin & E).
      exists l. split; [apply elem_of_app; by right|done].
  - apply orb_false_iff in El as [Hl1 Hl2]. destruct (shared_token (as_config s)) as [expected|] eqn:Es.
    + destruct (bearer_token request) as [token|] eqn:Eb; [|done].
      destruct (constant_time_eq token expected) eqn:Ec; [|done]. intros [= <- <- _]. split; [left|done].
      apply keep_None in Eg, Ew. apply bool_decide_eq_true in Ec. exists token. repeat split; try done.
      right. split; [done|]. by exists expected.
    + destruct (allow_insecure_no_auth (as_config s)) eqn:Ei; [|done]. intros [= _ <- _]. split; [right|done].
      split_and!; [|by left|].
      * split_and!; try done; [by destruct (provider_routing_tokens (as_config s))|by destruct (tenant_tokens (as_config s))].
      * intros token Eb. rewrite Eb in Eg, Ew. by apply keep_None in Eg, Ew.
Qed.

Lemma provider_scope_ok request allowed scope : provider_routing_scope request allowed = Ok (Some scope) ->
  valid_scope scope = true.
Proof.
  unfold provider_routing_scope.
  destruct (match req_routing_scope request with Some v => Some v | None => _ end) as [raw|]; [|done].
  destruct (to_str raw) as [v|]; [|by destruct (is_none (req_routing_scope request))].
  cbv zeta. destruct (valid_scope (text_trim v)) eqn:E; [by intros [= <-]|].
  by destruct (is_none (req_routing_scope request)).
Qed.

Lemma valid_scope_shape scope : valid_scope scope = true ->
  exists org ws, scope = org ++ 58%N :: ws /\ org <> [] /\ ws <> [] /\ 58%N ∉ org /\ 58%N ∉ ws.
Proof.
  unfold valid_scope. destruct (text_split_once 58 scope) as [[org ws]|] eqn:E; [|done].
  apply text_split_once_Some in E as [-> Ho]. intros Hv. bool_to_prop. exists org, ws.
  repeat split; try done; [by intros ->|by intros ->|].
  intros Hin. apply contains_char_spec in Hin. congruence.
Qed.

(** C33. What stands behind a forwarded request.  Away from the two probe paths, and
    unless the explicit insecure mode is on with no tenant token configured, a
    credential does: a guest or worker token of that prefix whose digest is stored,
    unexpired and unrevoked, for exactly that tenant, worker and sandbox; or a token
    configured for exactly that tenant, never one that looks like a worker's or a
    guest's.  In the insecure mode a request without a worker's or guest's token is
    a tenant's; a probe is the default tenant's.  An operator always presented the
    operator token.  The route is in the policy's manifest and its rule admits the
    principal, and a routing scope is of the form organization:workspace and was
    sent with a provider-routing credential. *)
Theorem forwarded_requests_are_backed s request fresh tenant p scope az :
  auth_and_tenant s request fresh = Forward tenant p scope az ->
  behind s request tenant p /\
  (p = PrincipalOperator -> exists expected sent, operator_token (as_config s) = Some expected /\
     req_operator_token request = Some sent /\ into_bytes sent = into_bytes expected) /\
  known_route (normalized_path (req_path request)) = true /\
  allows (requirement_of (route_policy (req_method request) (req_path request))) p = true /\
  (forall sc, scope = Some sc -> exists org ws, sc = org ++ 58%N :: ws /\ org <> [] /\ ws <> [] /\ 58%N ∉ org /\ 58%N ∉ ws) /\
  (is_some scope = true -> exists token listed, bearer_token request = Some token /\
     (listed, tenant) ∈ provider_routing_tokens (as_config s) /\ into_bytes listed = into_bytes token).
Proof.
  unfold auth_and_tenant. destruct (authenticate s request) as [[[t p0] routing]|] eqn:Ea; [|done].
  pose proof (authenticate_backed _ _ _ _ _ Ea) as [Hb Hnop].
  set (principal := match p0 with PrincipalTenant => _ | _ => _ end).
  destruct (negb _) eqn:En; [done|]. apply negb_false_iff in En.
  destruct (provider_routing_scope request routing) as [sc|] eqn:Es; [|done].
  destruct (is_some sc && negb routing) eqn:Er; [done|]. intros [= <- <- <- <-].
  change (az_requirement _) with (requirement_of (route_policy (req_method request) (req_path request))) in En.
  assert (Hp : behind s request t principal).
  { subst principal. destruct p0; try done. case_match; [|done]. unfold behind in *.
    destruct (is_probe request); [split; [by right|apply Hb]|]. destruct Hb as [Hb|(Hi & _ & Ht)]; [by left|].
    right. split_and!; [done|by right|done]. }
  split; [exact Hp|]. split; [|split; [|split; [exact En|split]]].
  - subst principal. intros Eop. destruct p0; try done. unfold is_operator_request in Eop.
    destruct (operator_token (as_config s)) as [expected|]; [|done].
    destruct (req_operator_token request) as [sent|]; [|done]. simpl in Eop. unfold to_str in Eop.
    destruct (forallb visible sent); [|done]. destruct (constant_time_eq sent expected) eqn:Ec; [|done].
    apply bool_decide_eq_true in Ec. by exists expected, sent.
  - destruct (known_route (normalized_path (req_path request))) eqn:Ek; [done|exfalso].
    unfold route_policy in En. cbn [requirement_of] in En. unfold route_requirement in En. rewrite Ek in En.
    rewrite !andb_false_r, orb_true_r in En. destruct (known_non_tenant_route _); by destruct principal.
  - intros x ->. apply valid_scope_shape. by eapply provider_scope_ok.
  - intros Hsc. destruct routing; [|by rewrite Hsc in Er]. clear -Ea Hsc. unfold authenticate in Ea.
    destruct (existsb _ _); [done|].
    destruct (keep (text_starts_with (txt GUEST_TOKEN_PREFIX)) (bearer_token request)).
    { by apply result_bind_ok in Ea as ([[[? ?] ?]|] & _ & ?). }
    destruct (keep (text_starts_with (txt WORKER_TOKEN_PREFIX)) (bearer_token request)).
    { by apply result_bind_ok in Ea as ([[? ?]|] & _ & ?). }
    destruct (_ || _); [|repeat case_match; done].
    destruct (bearer_token request) as [token|]; [|done].
    destruct (token_tenant (provider_routing_tokens (as_config s)) token) as [t'|] eqn:Et; [|by case_match].
    injection Ea as <- _. apply token_tenant_Some in Et as (listed & Hin & E). by exists token, listed.
Qed.
End Forwarding.

(** ** Receipts bind their material *)

(** Reading a hash input back. *)
Definition read_chunk (bs : Bytes) : option (Bytes * Bytes) :=
  if (length bs <? 8)%nat then None
  else let n := N.to_nat (number 256 (take 8 bs)) in
       let rest := drop 8 bs in
       if (length rest <? n)%nat then None else Some (take n rest, drop n rest).

Fixpoint read_fields (fuel : nat) (bs : Bytes) : option (list (Bytes * Bytes)) :=
  match fuel with
  | O => None
  | S fuel' =>
      if is_nil bs then Some []
      else '(name, bs) ← read_chunk bs; '(value, bs) ← read_chunk bs;
           fields ← read_fields fuel' bs; Some ((name, value) :: fields)
  end.

Definition u64_size (bs : Bytes) : Prop := (N.of_nat (length bs) < 2 ^ 64)%N.

Lemma read_chunk_written bs rest : u64_size bs ->
  read_chunk (be_bytes (N.of_nat (length bs)) ++ bs ++ rest) = Some (bs, rest).
Proof.
  intros Hs. unfold read_chunk, be_bytes.
  assert (Hl : length (digits 256 8 (N.of_nat (length bs))) = 8) by apply length_digits.
  rewrite (proj2 (Nat.ltb_ge _ _)) by (rewrite !length_app, Hl; lia).
  rewrite take_app_length', drop_app_length' by done.
  rewrite number_digits by (done || exact Hs). rewrite Nat2N.id. cbv zeta.
  rewrite (proj2 (Nat.ltb_ge _ _)) by (rewrite length_app; lia).
  by rewrite take_app_length, drop_app_length.
Qed.

Lemma field_bytes_nonempty f : is_nil (field_bytes f) = false.
Proof.
  unfold field_bytes. destruct (be_bytes (N.of_nat (length f.1))) eqn:E; [|done].
  pose proof (length_digits 256 8 (N.of_nat (length f.1))) as Hl. unfold be_bytes in E. by rewrite E in Hl.
Qed.

Lemma read_fields_written fields fuel : Forall (fun f => u64_size f.1 /\ u64_size f.2) fields ->
  length fields < fuel -> read_fields fuel (material fields) = Some fields.
Proof.
  intros HF. revert fuel. induction HF as [|[name value] fields [Hn Hv] HF IH]; intros fuel Hl;
    (destruct fuel as [|fuel]; [simpl in Hl; lia|]); cbn [read_fields]; [done|].
  unfold material. cbn [map concat]. fold (material fields).
  assert (Hne : is_nil (field_bytes (name, value) ++ material fields) = false).
  { pose proof (field_bytes_nonempty (name, value)) as Hf. by destruct (field_bytes (name, value)). }
  rewrite Hne. unfold field_bytes. cbn [fst snd] in *. rewrite <- !app_assoc.
  rewrite read_chunk_written by done. cbv beta iota delta [mbind option_bind].
  rewrite read_chunk_written by done. cbv beta iota delta [mbind option_bind].
  by rewrite IH by (simpl in Hl; lia).
Qed.

(** The hash inputs of two field lists are equal only if the lists are. *)
Lemma material_inj a b : Forall (fun f => u64_size f.1 /\ u64_size f.2) a ->
  Forall (fun f => u64_size f.1 /\ u64_size f.2) b -> material a = material b -> a = b.
Proof.
  intros Ha Hb E. set (fuel := S (length a + length b)).
  pose proof (read_fields_written a fuel Ha ltac:(lia)) as E1.
  pose proof (read_fields_written b fuel Hb ltac:(lia)) as E2. rewrite E in E1. congruence.
Qed.

(** What the text of identifiers is: distinct ASCII without a colon. *)
Class UuidLaws `{AuthzLib} : Prop := {
  uuid_text_inj a b : uuid_text a = uuid_text b -> a = b;
  uuid_text_plain a : Forall (fun c => (c < 128)%N /\ c <> 58%N) (uuid_text a)
}.

Section Binding.
Context `{UuidLaws}.

Lemma uuid_bytes a : into_bytes (uuid_text a) = uuid_text a.
Proof. apply into_bytes_ascii. eapply Forall_impl; [apply uuid_text_plain|]. by intros c [? _]. Qed.

Lemma uuid_no_colon a : 58%N ∉ uuid_text a.
Proof. intros Hin. pose proof (uuid_text_plain a) as HF. rewrite Forall_forall in HF. by destruct (HF _ Hin). Qed.

(** The binding text names the principal. *)
Lemma principal_binding_inj p q : into_bytes (principal_binding p) = into_bytes (principal_binding q) -> p = q.
Proof.
  intros E. pose proof (f_equal head E) as Hh.
  destruct p as [| |w|w sb], q as [| |w'|w' sb']; try reflexivity; try (vm_compute in Hh; discriminate Hh);
    clear Hh; cbn [principal_binding] in E; rewrite !into_bytes_app in E.
  - apply app_inv_head in E. rewrite !uuid_bytes in E. by apply uuid_text_inj in E as ->.
  - apply app_inv_head in E. rewrite !into_bytes_cons, !uuid_bytes in E.
    change (utf8_encode_char 58) with [58%N] in E. cbn [app] in E.
    assert (Hs : forall x y : N, text_split_once 58 (uuid_text x ++ 58%N :: uuid_text y) = Some (uuid_text x, uuid_text y)).
    { intros x y. apply text_split_once_Some. split; [done|apply uuid_no_colon]. }
    pose proof (Hs w sb) as Ha. rewrite E, Hs in Ha. injection Ha as E1 E2.
    by apply uuid_text_inj in E1 as ->; apply uuid_text_inj in E2 as ->.
Qed.

(** A decision identifier is bound to the decision: two requests whose decision identifiers hash the same bytes have the same request id, method, path and tenant, byte for byte, and the same principal down to its worker and sandbox.  Every field is length-prefixed, so no value can be shifted into another, and the input of a decision is never that of a fingerprint. *)
Theorem decision_material_is_binding rid rid' m m' path path' t t' p p' policy policy' dig dig' :
  Forall u64_size [into_bytes rid; into_bytes rid'; into_bytes path; into_bytes path'; into_bytes t; into_bytes t';
                   into_bytes (txt m); into_bytes (txt m'); into_bytes dig; into_bytes dig';
                   into_bytes (principal_binding p); into_bytes (principal_binding p');
                   into_bytes (txt (resource_kind_of policy)); into_bytes (txt (resource_kind_of policy'));
                   into_bytes (txt (action_of policy)); into_bytes (txt (action_of policy'))] ->
  material (digest_fields (Some rid) m path t p policy dig)
  <> material (digest_fields None m' path' t' p' policy' dig') /\
  (material (digest_fields (Some rid) m path t p policy dig)
   = material (digest_fields (Some rid') m' path' t' p' policy' dig') ->
   into_bytes rid = into_bytes rid' /\ into_bytes (txt m) = into_bytes (txt m') /\
   into_bytes path = into_bytes path' /\ into_bytes t = into_bytes t' /\ p = p').
Proof.
  intros HF. repeat match goal with H : Forall _ (_ :: _) |- _ => apply Forall_cons in H as [? H] end.
  assert (Hfields : forall r r0 m0 path0 t0 p0 pol0 dig0,
            r = Some r0 \/ r = None -> u64_size (into_bytes r0) -> u64_size (into_bytes path0) ->
            u64_size (into_bytes t0) -> u64_size (into_bytes (txt m0)) -> u64_size (into_bytes dig0) ->
            u64_size (into_bytes (principal_binding p0)) -> u64_size (into_bytes (txt (resource_kind_of pol0))) ->
            u64_size (into_bytes (txt (action_of pol0))) ->
            Forall (fun f => u64_size f.1 /\ u64_size f.2) (digest_fields r m0 path0 t0 p0 pol0 dig0)).
  { intros r r0 m0 path0 t0 p0 pol0 dig0 Hr ? ? ? ? ? ? ? ?. unfold digest_fields.
    assert (Hreq : u64_size (into_bytes (txt (requirement_code (requirement_of pol0))))).
    { by destruct (requirement_of pol0). }
    assert (Hcls : u64_size (into_bytes (txt (principal_class p0)))) by by destruct p0.
    destruct Hr as [-> | ->]; cbn [app];
      repeat (apply Forall_cons_2; [cbn [field fst snd]; split; first [assumption|literal]|]); apply Forall_nil_2. }
  split.
  - intros E. apply material_inj in E; [apply (f_equal length) in E; discriminate E| |]; eapply Hfields; eauto.
  - intros E. apply material_inj in E; [|eapply Hfields; eauto..].
    assert (Hat : forall i f g, digest_fields (Some rid) m path t p policy dig !! i = Some f ->
              digest_fields (Some rid') m' path' t' p' policy' dig' !! i = Some g -> f.2 = g.2)
      by (intros i f g Hf Hg; rewrite E in Hf; congruence).
    repeat split.
    + exact (Hat 6 (field "request_id" rid) (field "request_id" rid') eq_refl eq_refl).
    + exact (Hat 7 (field "method" (txt m)) (field "method" (txt m')) eq_refl eq_refl).
    + exact (Hat 8 (field "path" path) (field "path" path') eq_refl eq_refl).
    + exact (Hat 9 (field "tenant_id" t) (field "tenant_id" t') eq_refl eq_refl).
    + apply principal_binding_inj.
      exact (Hat 11 (field "principal_binding" _) (field "principal_binding" _) eq_refl eq_refl).
Qed.
End Binding.

(** ** Concrete requests *)

#[export] Instance plain_authz : AuthzLib := {|
  sha256_hex_digest b := b;
  uuid_text n := replicate (N.to_nat n) 97%N
|}.

#[export] Instance plain_uuid_laws : UuidLaws.
Proof.
  constructor.
  - intros a b E. apply (f_equal length) in E. cbn [uuid_text plain_authz] in E. rewrite !length_replicate in E. lia.
  - intros a. apply Forall_forall. intros c Hc. apply list_elem_of_lookup in Hc as (i & Hi).
    apply lookup_replicate in Hi as [-> _]. split; [done|discriminate].
Qed.

Lemma policy_agrees_with_routes_witness :
  let r := mkRoute [Lit "sandboxes"; Par; Lit "stop"] ["POST"] LayerTenant in
  allows (requirement_of (route_policy "POST" (txt "/v1" ++ path_of [txt "sandboxes"; txt "7c0e"; txt "stop"])))
    (PrincipalWorker 1) = false /\
  allows (requirement_of (route_policy "GET" (txt "/v1" ++ path_of [txt "healthz"]))) (PrincipalWorker 1) = false.
Proof.
  intros r. split.
  - rewrite (policy_agrees_with_routes "/v1" r "POST" [txt "sandboxes"; txt "7c0e"; txt "stop"]).
    + reflexivity.
    + apply list_elem_of_In. vm_compute. tauto.
    + left.
    + repeat constructor; try (vm_compute; discriminate).
      * apply no_slash. vm_compute. reflexivity.
      * apply (bool_decide_eq_false_1 _). vm_compute. reflexivity.
  - rewrite (policy_agrees_with_routes "/v1" healthz_route "GET" [txt "healthz"]).
    + reflexivity.
    + apply list_elem_of_In. vm_compute. tauto.
    + left.
    + repeat constructor.
Defined.

Definition sample_request (path : string) (token : string) : RequestHead :=
  mkRequestHead "POST" (txt path) (Some (str_bytes ("Bearer " ++ token))) None None None None None None.

Definition sample_auth : AuthState :=
  mkAuthState (mkAuthConfig None [(txt "secret-a", txt "tenant-a"); (txt "secret-b", txt "tenant-b")] [] None false)
    (txt "default") [] [] 0 false.

Definition forwarded_as (o : AuthOutcome) : option (Text * Principal) :=
  match o with Forward t p _ _ => Some (t, p) | Refuse _ _ => None end.

Lemma forwarded_as_Some o t p : forwarded_as o = Some (t, p) -> exists scope az, o = Forward t p scope az.
Proof. destruct o; [|done]. intros [= -> ->]. eauto. Qed.

Lemma forwarded_requests_are_backed_witness :
  exists scope az,
    auth_and_tenant sample_auth (sample_request "/v1/sandboxes" "secret-b") [] = Forward (txt "tenant-b") PrincipalTenant scope az /\
    backed sample_auth (sample_request "/v1/sandboxes" "secret-b") (txt "tenant-b") PrincipalTenant.
Proof.
  assert (E : forwarded_as (auth_and_tenant sample_auth (sample_request "/v1/sandboxes" "secret-b") [])
              = Some (txt "tenant-b", PrincipalTenant)) by (vm_compute; reflexivity).
  apply forwarded_as_Some in E as (scope & az & E). exists scope, az. split; [exact E|].
  destruct (proj1 (forwarded_requests_are_backed _ _ _ _ _ _ _ E)) as [Hb|[[Hi _] _]]; [exact Hb|discriminate Hi].
Defined.

Lemma decision_material_is_binding_witness :
  material (digest_fields (Some (txt "request-1")) "POST" (txt "/v1/jobs") (txt "tenant-a") (PrincipalWorker 1)
              (route_policy "POST" (txt "/v1/jobs")) (txt "d"))
  <> material (digest_fields (Some (txt "request-1")) "POST" (txt "/v1/jobs") (txt "tenant-a") (PrincipalGuest 1 2)
              (route_policy "POST" (txt "/v1/jobs")) (txt "d")).
Proof.
  intros E. apply decision_material_is_binding in E as (_ & _ & _ & _ & E); [discriminate E|].
  repeat (apply Forall_cons_2; [vm_compute; reflexivity|]). apply Forall_nil_2.
Defined.

(** ** Where the policy and its description part *)

(** The policy misreads a path whose first slash is doubled, or missing after the version: templates are matched after trimming slashes, so the route counts as known, while the operator and worker rules look for a literal [/operator/] or [/workers/] at the front, so such a path falls to the weakest rule and a tenant is authorized, with a receipt, for the operator's and the workers' routes.  Only the router's refusal to match such a path stands in the way. *)
Theorem odd_slashes_evade_the_operator_rule :
  requirement_of (route_policy "PUT" (txt "/v1/operator/tenant-policies/acme")) = ReqOperator /\
  requirement_of (route_policy "PUT" (txt "/v1//operator/tenant-policies/acme")) = ReqTenantOrOperator /\
  requirement_of (route_policy "PUT" (txt "/v1operator/tenant-policies/acme")) = ReqTenantOrOperator /\
  requirement_of (route_policy "POST" (txt "//workers/w/sandboxes/s/guest-token")) = ReqTenantOrOperator /\
  forwarded_as (auth_and_tenant sample_auth (sample_request "/v1//operator/tenant-policies/acme" "secret-a") [])
  = Some (txt "tenant-a", PrincipalTenant).
Proof. vm_compute. repeat split; reflexivity. Qed.

(** Receipts do not name the actions the policy lists: for preparing, destroying and releasing a sterile cell the policy's rules say prepare, destroy and release and the receipt says create, and for minting a guest token the rules say create and the receipt says create_token. *)
Theorem receipts_name_other_actions :
  "worker|destroy|/workers/*/sterile-cells/*/destroy" ∈ AUTHORIZATION_POLICY_RULES /\
  action_of (route_policy "POST" (txt "/v1/workers/w/sterile-cells/c/destroy")) = "create" /\
  "worker|release|/workers/*/sterile-cells/*/release" ∈ AUTHORIZATION_POLICY_RULES /\
  action_of (route_policy "POST" (txt "/v1/workers/w/sterile-cells/c/release")) = "create" /\
  "worker|prepare|/workers/*/sterile-cells/prepare" ∈ AUTHORIZATION_POLICY_RULES /\
  action_of (route_policy "POST" (txt "/v1/workers/w/sterile-cells/prepare")) = "create" /\
  "worker|create|/workers/*/sandboxes/*/guest-token" ∈ AUTHORIZATION_POLICY_RULES /\
  action_of (route_policy "POST" (txt "/v1/workers/w/sandboxes/s/guest-token")) = "create_token".
Proof.
  assert (Hin : forall x, existsb (String.eqb x) AUTHORIZATION_POLICY_RULES = true -> x ∈ AUTHORIZATION_POLICY_RULES).
  { intros x (y & Hy & E)%existsb_exists. apply String.eqb_eq in E as ->. by apply list_elem_of_In. }
  repeat split; try (apply Hin; vm_compute; reflexivity); vm_compute; reflexivity.
Qed.
