(* ===== verification/Store.v ===== *)
(** * The control-plane database

    The tables the scheduler reads and writes, as finite maps from primary
    keys to rows, and the transactions over them.  A handler that opens a
    transaction is a value of [Tx]: it either produces a result and the
    updated tables or an [ApiError], and [run_tx] commits the former and
    rolls the latter back.  Timestamps are nanoseconds; the tables whose
    rows only job side effects touch (sandboxes, commands, snapshots,
    events, ...) are the type parameter [W].

    Sources: [sandboxwich-core/src/lib.rs] (the data types),
    [sandboxwich-api/src/error.rs], [rows.rs], [handlers/jobs.rs] and the
    migrations that declare the tables. *)

From S2P Require Import Prelude CoreTypes Json.

(** ** Errors: [error.rs] *)

Inductive StatusCode : Type :=
| BAD_REQUEST
| UNAUTHORIZED
| FORBIDDEN
| NOT_FOUND
| CONFLICT
| GONE
| PAYLOAD_TOO_LARGE
| UNPROCESSABLE_ENTITY
| TOO_MANY_REQUESTS
| INTERNAL_SERVER_ERROR
| BAD_GATEWAY
| SERVICE_UNAVAILABLE
| NOT_IMPLEMENTED.

#[global] Instance StatusCode_eq_dec : EqDecision StatusCode.
Proof. solve_decision. Defined.

Record ApiError : Type := mkApiError {
  err_status : StatusCode;
  err_code : string;
  err_message : string;
  err_details : option Json
}.

Definition bad_request (message : string) : ApiError :=
  mkApiError BAD_REQUEST "bad_request" message None.
Definition bad_request_code (code message : string) : ApiError :=
  mkApiError BAD_REQUEST code message None.
Definition not_found (message : string) : ApiError :=
  mkApiError NOT_FOUND "not_found" message None.
Definition unauthorized (message : string) : ApiError :=
  mkApiError UNAUTHORIZED "unauthorized" message None.
Definition forbidden (message : string) : ApiError :=
  mkApiError FORBIDDEN "authorization_denied" message None.
Definition conflict (message : string) : ApiError :=
  mkApiError CONFLICT "conflict" message None.
Definition conflict_code (code message : string) : ApiError :=
  mkApiError CONFLICT code message None.
Definition conflict_code_with_details (code message : string) (details : Json) : ApiError :=
  mkApiError CONFLICT code message (Some details).
Definition payload_too_large (code message : string) : ApiError :=
  mkApiError PAYLOAD_TOO_LARGE code message None.
Definition too_many_requests (code message : string) : ApiError :=
  mkApiError TOO_MANY_REQUESTS code message None.
Definition internal (message : string) : ApiError :=
  mkApiError INTERNAL_SERVER_ERROR "internal" message None.
Definition not_implemented (code message : string) : ApiError :=
  mkApiError NOT_IMPLEMENTED code message None.

(** The errors [From<sqlx::Error>] distinguishes. *)
Inductive DbErrorKind : Type :=
| UniqueViolation
| CheckViolation
| OtherDbError.

Definition api_error_of_db_error (kind : DbErrorKind) : ApiError :=
  match kind with
  | UniqueViolation => conflict "the request conflicts with an existing record"
  | CheckViolation => bad_request "the request violates a database constraint"
  | OtherDbError => internal "database operation failed"
  end.

(** ** Identifiers

    A [Uuid] is its 128-bit number.  Parsing and printing are the [uuid]
    crate's. *)

Definition Uuid : Type := N.

Class UuidLib : Type := {
  uuid_parse_str : string -> option Uuid;
  uuid_to_string : Uuid -> string
}.

Definition parse_uuid `{UuidLib} (value : string) : result Uuid ApiError :=
  match uuid_parse_str value with
  | Some u => Ok u
  | None => Err (internal "database contains invalid uuid")
  end.

(** ** Sandbox placement data carried by jobs *)

Record NetworkAllowRule : Type := mkNetworkAllowRule {
  rule_kind : NetworkAllowRuleKind;
  rule_value : string
}.

Inductive NetworkEgress : Type :=
| DenyAll
| Allowlist (rules : list NetworkAllowRule)
| AllowAll.

Record SecretSource : Type := mkSecretSource {
  secret_backend : SecretBackend;
  object_name : string;
  object_key : string
}.

Record SandboxSecretMount : Type := mkSandboxSecretMount {
  mount_secret_ref_id : Uuid;
  mount_name : string;
  mount_source : SecretSource;
  mount_delivery : SecretDelivery;
  mount_mount_dir : string;
  mount_file_path : string;
  mount_env_file_variable : string
}.

Record SterileCellReleaseTrustClassV1 : Type := mkReleaseTrustClass {
  release_set_id : string;
  release_runtime_class : SterileCellRuntimeClass;
  release_policy_digest : string;
  release_signature : string
}.

#[global] Instance SterileCellReleaseTrustClassV1_eq_dec :
  EqDecision SterileCellReleaseTrustClassV1.
Proof. solve_decision. Defined.

Record SterilePoolCandidateV1 : Type := mkSterilePoolCandidate {
  candidate_cell_id : Uuid;
  candidate_release : SterileCellReleaseTrustClassV1;
  candidate_agent_image : string;
  candidate_maestro_image : string;
  candidate_service_name : string;
  candidate_pod_name : option string;
  candidate_pod_uid : option string
}.

Record SandboxProvisionSpec : Type := mkSandboxProvisionSpec {
  memory_limit : MemoryLimit;
  network_egress : NetworkEgress;
  workspace_mode : WorkspaceMode;
  runtime_profile : SandboxRuntimeProfile;
  execution_class : ExecutionClass;
  provider_preference : ProviderPreference;
  spec_tenant_id : option string;
  provider_external_id : option string;
  provider_routing_scope : option string;
  secret_mounts : list SandboxSecretMount;
  sterile_pool_candidate : option SterilePoolCandidateV1
}.

(** ** Jobs, leases, workers *)

Record Job : Type := mkJob {
  job_id : Uuid;
  job_tenant_id : string;
  job_kind : JobKind;
  job_status : JobStatus;
  job_payload : Json;
  required_capability : WorkerCapability;
  required_execution_class : ExecutionClass;
  priority : Z;
  attempts : Z;
  max_attempts : Z;
  scheduled_at : Z;
  created_at : Z;
  updated_at : Z;
  last_error : option string
}.

Record JobReferences : Type := mkJobReferences {
  ref_sandbox_id : option Uuid;
  ref_command_id : option Uuid;
  ref_snapshot_id : option Uuid;
  ref_parent_sandbox_id : option Uuid;
  ref_child_sandbox_id : option Uuid;
  ref_prompt_event_id : option Uuid
}.

Definition no_references : JobReferences := mkJobReferences None None None None None None.

(** A row of [jobs]: the job, its indexed references and the cancellation
    columns. *)
Record JobRow : Type := mkJobRow {
  row_job : Job;
  row_references : JobReferences;
  row_cancel_requested_at : option Z;
  row_cancel_reason : option string
}.

(** A row of [job_leases]. *)
Record LeaseRow : Type := mkLeaseRow {
  lr_job_id : Uuid;
  lr_worker_id : Uuid;
  lr_status : LeaseStatus;
  lr_attempt : Z;
  lr_leased_at : Z;
  lr_expires_at : Z;
  lr_completed_at : option Z;
  lr_error : option string;
  lr_completion_fingerprint : option string;
  lr_cancel_requested_at : option Z;
  lr_cancel_reason : option string
}.

Record JobLease : Type := mkJobLease {
  lease_id : Uuid;
  lease_job_id : Uuid;
  lease_worker_id : Uuid;
  lease_status : LeaseStatus;
  lease_attempt : Z;
  leased_at : Z;
  expires_at : Z;
  completed_at : option Z;
  lease_error : option string;
  lease_required_execution_class : ExecutionClass;
  lease_job : Job
}.

Record WorkerResourceEnvelope : Type := mkWorkerResourceEnvelope {
  max_memory_bytes : option Z;
  max_cpu_millis : option Z;
  eligible_node_count : option Z;
  evidence_at : Z;
  probe_failure_reason : option string
}.

Record Worker : Type := mkWorker {
  worker_id : Uuid;
  worker_tenant_id : string;
  worker_name : string;
  worker_status : WorkerStatus;
  worker_provider : string;
  capabilities : list WorkerCapability;
  max_concurrent_jobs : Z;
  labels : gmap string string;
  resource_envelope : option WorkerResourceEnvelope;
  registered_at : Z;
  last_heartbeat_at : option Z
}.

(** A row of [workers] with its credential hash, and of [worker_sessions]. *)
Record WorkerRow : Type := mkWorkerRow {
  row_worker : Worker;
  row_token_hash : string;
  row_session_generation : Z;
  row_session_started_at : Z
}.

Record DrainReceiptRow : Type := mkDrainReceiptRow {
  receipt_worker_id : Uuid;
  receipt_tenant_id : string;
  receipt_hard_deadline : Z;
  receipt_created_at : Z;
  receipt_retired_at : option Z
}.

Record DrainFenceRow : Type := mkDrainFenceRow {
  fence_worker_id : Uuid;
  fence_job_id : Uuid;
  fence_attempt : Z;
  fence_hard_deadline : Z;
  fence_outcome : option string;
  fence_resolved_at : option Z
}.

Record PlacementRow : Type := mkPlacementRow {
  placement_worker_id : Uuid;
  placement_provider : string;
  placement_cluster : option string;
  placement_generation : Z;
  placement_created_at : Z;
  placement_updated_at : Z
}.

(** The columns of [resident_processes] that only an admission writes. *)
Record ResidentSpec : Type := mkResidentSpec {
  rsp_argv : list string;
  rsp_cwd : option string;
  rsp_env : list (string * string);
  rsp_bootstrap_byte_count : option Z;
  rsp_bootstrap_target_file : option string;
  rsp_bootstrap_mode : option Z;
  rsp_restart_policy : ResidentProcessRestartPolicy
}.

(** The columns of [resident_processes] the scheduler reads or writes. *)
Record ResidentRow : Type := mkResidentRow {
  rp_sandbox_id : Uuid;
  rp_tenant_id : string;
  rp_name : string;
  rp_generation : Z;
  rp_desired_state : ResidentProcessDesiredState;
  rp_observed_state : ResidentProcessObservedState;
  rp_active_lease_id : option Uuid;
  rp_pid : option Z;
  rp_exited_at : option Z;
  rp_exit_code : option Z;
  rp_last_error_class : option ProvisioningErrorClass;
  rp_last_error_code : option string;
  rp_last_error : option string;
  rp_provider_pod_name : option string;
  rp_provider_pod_uid : option string;
  rp_updated_at : Z;
  rp_bootstrap_sha256 : option string;
  rp_bootstrap_delivered_generation : option Z;
  rp_bootstrap_delivered_lease_id : option Uuid;
  rp_bootstrap_delivered_sha256 : option string;
  rp_bootstrap_acknowledged_at : option Z;
  rp_sterile_cell_id : option Uuid;
  rp_sterile_lease_id : option Uuid;
  rp_sterile_lease_generation : option Z;
  rp_provider_isolation_version : Z;
  rp_spec : ResidentSpec;
  rp_bootstrap_consumed_at : option Z;
  rp_started_at : option Z;
  rp_ready_at : option Z;
  rp_created_at : Z
}.

(** A row of [sterile_cells]. *)
Record SterileCellRow : Type := mkSterileCellRow {
  cell_worker_id : Uuid;
  cell_provider_cell_id : string;
  cell_state : SterileCellState;
  cell_generation : Z;
  cell_release : SterileCellReleaseTrustClassV1;
  cell_tenant_id : option string;
  cell_organization_id : option string;
  cell_workspace_id : option string;
  cell_thread_id : option string;
  cell_runner_session_id : option string;
  cell_lease_id : option Uuid;
  cell_lease_attestation_sha256 : option string;
  cell_lease_expires_at : option Z;
  cell_expires_at : Z;
  cell_disposition : option SterileCellDisposition;
  cell_ever_tenant_exposed : bool;
  cell_created_at : Z;
  cell_leased_at : option Z;
  cell_destroyed_at : option Z;
  cell_updated_at : Z;
  cell_activated_resident_process_id : option Uuid;
  cell_activated_resident_generation : option Z
}.

(** [set state = .., disposition = .., destroyed_at = .., updated_at = ..]. *)
Definition cell_set_terminal (state : SterileCellState) (disposition : SterileCellDisposition)
    (now : Z) (c : SterileCellRow) : SterileCellRow :=
  mkSterileCellRow (cell_worker_id c) (cell_provider_cell_id c) state (cell_generation c)
    (cell_release c) (cell_tenant_id c) (cell_organization_id c) (cell_workspace_id c)
    (cell_thread_id c) (cell_runner_session_id c) (cell_lease_id c)
    (cell_lease_attestation_sha256 c) (cell_lease_expires_at c) (cell_expires_at c)
    (Some disposition) (cell_ever_tenant_exposed c) (cell_created_at c) (cell_leased_at c)
    (Some now) now (cell_activated_resident_process_id c) (cell_activated_resident_generation c).

Record SloRow : Type := mkSloRow {
  slo_tenant_id : string;
  slo_outcome : string;
  slo_workspace_mode : option string;
  slo_start_type : option string;
  slo_duration_ms : Z;
  slo_observed_at : Z
}.

(** A row of the append-only heartbeat history. *)
Record HeartbeatRow : Type := mkHeartbeatRow {
  hb_worker_id : Uuid;
  hb_labels : gmap string string;
  hb_created_at : Z
}.

(** The tables.  Composite primary keys are pairs. *)
Record Db (W : Type) : Type := mkDb {
  jobs : gmap Uuid JobRow;
  job_leases : gmap Uuid LeaseRow;
  workers : gmap Uuid WorkerRow;
  worker_drain_receipts : gmap Uuid DrainReceiptRow;
  worker_drain_lease_fences : gmap (Uuid * Uuid) DrainFenceRow;
  sandbox_placements : gmap Uuid PlacementRow;
  lease_claim_operations : gmap (Uuid * Uuid) (Uuid * Z);
  worker_heartbeats : gmap Uuid HeartbeatRow;
  resident_processes : gmap Uuid ResidentRow;
  sterile_cells : gmap Uuid SterileCellRow;
  terminal_slo_observations : gmap (Uuid * string) SloRow;
  world : W
}.
Arguments mkDb {W} _ _ _ _ _ _ _ _ _ _ _ _.
Arguments jobs {W} _.
Arguments job_leases {W} _.
Arguments workers {W} _.
Arguments worker_drain_receipts {W} _.
Arguments worker_drain_lease_fences {W} _.
Arguments sandbox_placements {W} _.
Arguments lease_claim_operations {W} _.
Arguments worker_heartbeats {W} _.
Arguments resident_processes {W} _.
Arguments sterile_cells {W} _.
Arguments terminal_slo_observations {W} _.
Arguments world {W} _.

Section Setters.
Context {W : Type}.
Implicit Type db : Db W.

Definition set_jobs (m : gmap Uuid JobRow) db : Db W :=
  mkDb m (job_leases db) (workers db) (worker_drain_receipts db) (worker_drain_lease_fences
    db) (sandbox_placements db) (lease_claim_operations db) (worker_heartbeats db)
    (resident_processes db) (sterile_cells db) (terminal_slo_observations db) (world db).
Definition set_job_leases (m : gmap Uuid LeaseRow) db : Db W :=
  mkDb (jobs db) m (workers db) (worker_drain_receipts db) (worker_drain_lease_fences db)
    (sandbox_placements db) (lease_claim_operations db) (worker_heartbeats db)
    (resident_processes db) (sterile_cells db) (terminal_slo_observations db) (world db).
Definition set_workers (m : gmap Uuid WorkerRow) db : Db W :=
  mkDb (jobs db) (job_leases db) m (worker_drain_receipts db) (worker_drain_lease_fences db)
    (sandbox_placements db) (lease_claim_operations db) (worker_heartbeats db)
    (resident_processes db) (sterile_cells db) (terminal_slo_observations db) (world db).
Definition set_worker_drain_receipts (m : gmap Uuid DrainReceiptRow) db : Db W :=
  mkDb (jobs db) (job_leases db) (workers db) m (worker_drain_lease_fences db)
    (sandbox_placements db) (lease_claim_operations db) (worker_heartbeats db)
    (resident_processes db) (sterile_cells db) (terminal_slo_observations db) (world db).
Definition set_worker_drain_lease_fences (m : gmap (Uuid * Uuid) DrainFenceRow) db : Db W :=
  mkDb (jobs db) (job_leases db) (workers db) (worker_drain_receipts db) m
    (sandbox_placements db) (lease_claim_operations db) (worker_heartbeats db)
    (resident_processes db) (sterile_cells db) (terminal_slo_observations db) (world db).
Definition set_sandbox_placements (m : gmap Uuid PlacementRow) db : Db W :=
  mkDb (jobs db) (job_leases db) (workers db) (worker_drain_receipts db)
    (worker_drain_lease_fences db) m (lease_claim_operations db) (worker_heartbeats db)
    (resident_processes db) (sterile_cells db) (terminal_slo_observations db) (world db).
Definition set_lease_claim_operations (m : gmap (Uuid * Uuid) (Uuid * Z)) db : Db W :=
  mkDb (jobs db) (job_leases db) (workers db) (worker_drain_receipts db)
    (worker_drain_lease_fences db) (sandbox_placements db) m (worker_heartbeats db)
    (resident_processes db) (sterile_cells db) (terminal_slo_observations db) (world db).
Definition set_worker_heartbeats (m : gmap Uuid HeartbeatRow) db : Db W :=
  mkDb (jobs db) (job_leases db) (workers db) (worker_drain_receipts db)
    (worker_drain_lease_fences db) (sandbox_placements db) (lease_claim_operations db) m
    (resident_processes db) (sterile_cells db) (terminal_slo_observations db) (world db).
Definition set_resident_processes (m : gmap Uuid ResidentRow) db : Db W :=
  mkDb (jobs db) (job_leases db) (workers db) (worker_drain_receipts db)
    (worker_drain_lease_fences db) (sandbox_placements db) (lease_claim_operations db)
    (worker_heartbeats db) m (sterile_cells db) (terminal_slo_observations db) (world db).
Definition set_sterile_cells (m : gmap Uuid SterileCellRow) db : Db W :=
  mkDb (jobs db) (job_leases db) (workers db) (worker_drain_receipts db)
    (worker_drain_lease_fences db) (sandbox_placements db) (lease_claim_operations db)
    (worker_heartbeats db) (resident_processes db) m (terminal_slo_observations db) (world
    db).
Definition set_terminal_slo_observations (m : gmap (Uuid * string) SloRow) db : Db W :=
  mkDb (jobs db) (job_leases db) (workers db) (worker_drain_receipts db)
    (worker_drain_lease_fences db) (sandbox_placements db) (lease_claim_operations db)
    (worker_heartbeats db) (resident_processes db) (sterile_cells db) m (world db).
Definition set_world (w : W) db : Db W :=
  mkDb (jobs db) (job_leases db) (workers db) (worker_drain_receipts db)
    (worker_drain_lease_fences db) (sandbox_placements db) (lease_claim_operations db)
    (worker_heartbeats db) (resident_processes db) (sterile_cells db)
    (terminal_slo_observations db) w.
End Setters.

(** ** Transactions

    [tx.commit] on success, [tx.rollback] on error: an error leaves the
    tables as they were. *)

Definition Tx (W A : Type) : Type := Db W -> result (A * Db W) ApiError.

Section Transactions.
Context {W : Type}.

Definition tx_ret {A} (a : A) : Tx W A := fun db => Ok (a, db).
Definition tx_bind {A B} (m : Tx W A) (k : A -> Tx W B) : Tx W B :=
  fun db => match m db with
            | Ok (a, db') => k a db'
            | Err e => Err e
            end.
Definition tx_throw {A} (e : ApiError) : Tx W A := fun _ => Err e.
Definition tx_get : Tx W (Db W) := fun db => Ok (db, db).
Definition tx_modify (f : Db W -> Db W) : Tx W unit := fun db => Ok (tt, f db).
Definition tx_lift {A} (r : result A ApiError) : Tx W A :=
  fun db => match r with Ok a => Ok (a, db) | Err e => Err e end.

Definition run_tx {A} (m : Tx W A) (db : Db W) : result A ApiError * Db W :=
  match m db with
  | Ok (a, db') => (Ok a, db')
  | Err e => (Err e, db)
  end.
End Transactions.

Notation "'let!' x ':=' m 'in' k" := (tx_bind m (fun x => k))
  (at level 10, x pattern, m at level 100, k at level 200) : rust_scope.
Notation "'check!' b 'else' e 'in' k" := (if (b : bool) then k else tx_throw e)
  (at level 10, b at level 100, e at level 100, k at level 200) : rust_scope.

(** *** Relational reasoning

    [tx_rel R m]: every successful run of [m] relates the tables before and
    after by [R].  A preorder composes along [tx_bind]. *)
Section TxRel.
Context {W : Type} (R : relation (Db W)) `{!PreOrder R}.

Definition tx_rel {A} (m : Tx W A) : Prop :=
  forall db a db', m db = Ok (a, db') -> R db db'.

Lemma tx_rel_ret {A} (a : A) : tx_rel (tx_ret a).
Proof. intros db ? db' [= -> ->]. reflexivity. Qed.

Lemma tx_rel_throw {A} e : tx_rel (tx_throw (A := A) e).
Proof. by intros db a db' [=]. Qed.

Lemma tx_rel_get : tx_rel tx_get.
Proof. intros db ? db' [= -> ->]. reflexivity. Qed.

Lemma tx_rel_lift {A} (r : result A ApiError) : tx_rel (tx_lift r).
Proof. intros db a db'. unfold tx_lift. destruct r; [|done]. intros [= -> ->]. reflexivity. Qed.

Lemma tx_rel_bind {A B} (m : Tx W A) (k : A -> Tx W B) :
  tx_rel m -> (forall a, tx_rel (k a)) -> tx_rel (tx_bind m k).
Proof.
  intros Hm Hk db b db'. unfold tx_bind. destruct (m db) as [[a db1]|] eqn:E; [|done].
  intros H. etrans; [by eapply Hm | by eapply Hk].
Qed.

Lemma tx_rel_if {A} (b : bool) (m n : Tx W A) : tx_rel m -> tx_rel n -> tx_rel (if b then m else n).
Proof. by destruct b. Qed.

Lemma tx_rel_modify f : (forall db, R db (f db)) -> tx_rel (tx_modify f).
Proof. intros H db [] db' [= <-]. apply H. Qed.

Lemma run_tx_rel {A} (m : Tx W A) db : tx_rel m -> R db (run_tx m db).2.
Proof.
  intros H. unfold run_tx. destruct (m db) as [[a db']|] eqn:E; simpl; [by eapply H | reflexivity].
Qed.
End TxRel.

Lemma run_tx_ok {W A} (m : Tx W A) db a db' : run_tx m db = (Ok a, db') -> m db = Ok (a, db').
Proof. unfold run_tx. destruct (m db) as [[]|]; naive_solver. Qed.

Lemma tx_bind_ok {W A B} (m : Tx W A) (k : A -> Tx W B) db b db' :
  tx_bind m k db = Ok (b, db') -> exists a db1, m db = Ok (a, db1) /\ k a db1 = Ok (b, db').
Proof. unfold tx_bind. destruct (m db) as [[a db1]|]; [eauto | done]. Qed.

Lemma tx_lift_ok {W A} (r : result A ApiError) (db : Db W) a db' :
  tx_lift r db = Ok (a, db') -> r = Ok a /\ db' = db.
Proof. unfold tx_lift. destruct r; naive_solver. Qed.

(** [rows_affected] of an [update ... where id = k and guard]. *)
Definition update_row `{Countable K} {A} (k : K) (guard : A -> bool) (f : A -> A)
    (m : gmap K A) : bool * gmap K A :=
  match m !! k with
  | Some r => if guard r then (true, <[k := f r]> m) else (false, m)
  | None => (false, m)
  end.

(** An [update ... where guard] over every row. *)
Definition update_rows `{Countable K} {A} (guard : K -> A -> bool) (f : A -> A)
    (m : gmap K A) : gmap K A :=
  map_imap (fun k r => Some (if guard k r then f r else r)) m.

Lemma lookup_update_rows `{Countable K} {A} guard (f : A -> A) (m : gmap K A) k :
  update_rows guard f m !! k = (fun r => if guard k r then f r else r) <$> m !! k.
Proof. unfold update_rows. rewrite map_lookup_imap. by destruct (m !! k). Qed.

Lemma update_row_true `{Countable K} {A} k guard (f : A -> A) (m m' : gmap K A) :
  update_row k guard f m = (true, m') ->
  exists r, m !! k = Some r /\ guard r = true /\ m' = <[k := f r]> m.
Proof. unfold update_row. destruct (m !! k) as [r|]; [|done]. destruct (guard r) eqn:?; naive_solver. Qed.

Lemma update_row_false `{Countable K} {A} k guard (f : A -> A) (m m' : gmap K A) :
  update_row k guard f m = (false, m') -> m' = m.
Proof. unfold update_row. destruct (m !! k) as [r|]; [destruct (guard r)|]; naive_solver. Qed.

Lemma lookup_update_row `{Countable K} {A} k guard (f : A -> A) (m : gmap K A) k' :
  (update_row k guard f m).2 !! k' =
  (fun r => if bool_decide (k = k') && guard r then f r else r) <$> m !! k'.
Proof.
  unfold update_row. case_bool_decide as Hk; simpl.
  - subst k'. destruct (m !! k) as [r|] eqn:E; simpl; [|by rewrite E].
    destruct (guard r); simpl; [by rewrite lookup_insert_eq | by rewrite E].
  - destruct (m !! k) as [r|] eqn:E; simpl; [destruct (guard r); simpl|];
      try rewrite lookup_insert_ne by done; by destruct (m !! k').
Qed.

(** ** Inverting a transaction *)

(** Unfolds one step of a transaction that is known to have succeeded. *)
Ltac tx_step H :=
  first
    [ let a := fresh "a" in let db1 := fresh "db1" in let H1 := fresh "Hm" in
      apply tx_bind_ok in H as (a & db1 & H1 & H)
    | apply tx_lift_ok in H as [? ?]; subst
    | progress (unfold tx_get, tx_ret, tx_modify, tx_throw in H); simplify_eq/= ].

(** A transaction that only reads. *)
Notation reads_only m := (tx_rel eq m).

Ltac tx_rel_auto :=
  repeat first
    [ done
    | apply tx_rel_ret; apply _
    | apply tx_rel_throw
    | apply tx_rel_get; apply _
    | apply tx_rel_lift; apply _
    | apply tx_rel_bind; [apply _ | | intro]
    | apply tx_rel_if
    | case_match ].

(** ** Reading a job's payload: [handlers/jobs.rs], [sandboxes.rs], ... *)

Section JobPayload.
Context `{UuidLib}.

Definition uuid_from_job_payload (job : Job) (key missing : string) : result Uuid ApiError :=
  match get_str (job_payload job) key with
  | Some value => parse_uuid value
  | None => Err (internal missing)
  end.

Definition sandbox_id_from_job (job : Job) : result Uuid ApiError :=
  uuid_from_job_payload job "sandboxId" "run command job is missing sandbox id".
Definition parent_sandbox_id_from_job (job : Job) : result Uuid ApiError :=
  uuid_from_job_payload job "parentSandboxId" "fork job is missing parent sandbox id".
Definition child_sandbox_id_from_job (job : Job) : result Uuid ApiError :=
  uuid_from_job_payload job "childSandboxId" "fork job is missing child sandbox id".
Definition command_id_from_job (job : Job) : result Uuid ApiError :=
  uuid_from_job_payload job "commandId" "run command job is missing command id".
Definition snapshot_id_from_job (job : Job) : result Uuid ApiError :=
  uuid_from_job_payload job "snapshotId" "snapshot job is missing snapshot id".
Definition prompt_event_id_from_job (job : Job) : result Uuid ApiError :=
  uuid_from_job_payload job "promptEventId" "prompt job is missing prompt event id".

Definition resident_process_id_from_job (job : Job) : result Uuid ApiError :=
  match get_str (job_payload job) "residentProcessId" with
  | None => Err (bad_request "residentProcessId is required")
  | Some value =>
      match uuid_parse_str value with
      | Some u => Ok u
      | None => Err (bad_request "residentProcessId is invalid")
      end
  end.

Definition file_id_from_job (job : Job) : result Uuid ApiError :=
  match get_str (job_payload job) "fileId" with
  | None => Err (bad_request "materialization fileId is required")
  | Some value =>
      match uuid_parse_str value with
      | Some u => Ok u
      | None => Err (bad_request "materialization fileId is invalid")
      end
  end.

(** [job_references]: the references a job of each kind must carry. *)
Definition job_references (job : Job) : result JobReferences ApiError :=
  match job_kind job with
  | JobKind.ProvisionSandbox | JobKind.StopSandbox
  | JobKind.RunResidentProcess | JobKind.MaterializeFile | JobKind.ApexTaskInstructions =>
      let? s := sandbox_id_from_job job in
      Ok (mkJobReferences (Some s) None None None None None)
  | JobKind.ResumeSandbox | JobKind.CreateSnapshot =>
      let? s := sandbox_id_from_job job in
      let? n := snapshot_id_from_job job in
      Ok (mkJobReferences (Some s) None (Some n) None None None)
  | JobKind.RunCommand =>
      let? s := sandbox_id_from_job job in
      let? c := command_id_from_job job in
      Ok (mkJobReferences (Some s) (Some c) None None None None)
  | JobKind.RunPrompt =>
      let? s := sandbox_id_from_job job in
      let? e := prompt_event_id_from_job job in
      Ok (mkJobReferences (Some s) None None None None (Some e))
  | JobKind.ForkSandbox =>
      let? p := parent_sandbox_id_from_job job in
      let? c := child_sandbox_id_from_job job in
      let? n := snapshot_id_from_job job in
      Ok (mkJobReferences None None (Some n) (Some p) (Some c) None)
  | JobKind.DeleteHome => Ok no_references
  end.

(** [job_matches_sandbox]. *)
Definition result_is_ok_of (r : result Uuid ApiError) (u : Uuid) : bool :=
  match r with Ok v => bool_decide (v = u) | Err _ => false end.

Definition job_matches_sandbox (job : Job) (sandbox_id : Uuid) : bool :=
  result_is_ok_of (sandbox_id_from_job job) sandbox_id
  || result_is_ok_of (parent_sandbox_id_from_job job) sandbox_id
  || result_is_ok_of (child_sandbox_id_from_job job) sandbox_id.

(** The partial unique index [idx_jobs_one_active_stop_per_sandbox]: at most
    one queued or leased teardown per sandbox. *)
Definition is_active_stop (sandbox_id : Uuid) (row : JobRow) : bool :=
  bool_decide (ref_sandbox_id (row_references row) = Some sandbox_id)
  && bool_decide (job_kind (row_job row) = JobKind.StopSandbox)
  && (bool_decide (job_status (row_job row) = JobStatus.Queued)
      || bool_decide (job_status (row_job row) = JobStatus.Leased)).

Definition violates_stop_index (row : JobRow) (m : gmap Uuid JobRow) : bool :=
  match ref_sandbox_id (row_references row) with
  | None => false
  | Some s => is_active_stop s row && existsb (fun kr => is_active_stop s kr.2) (map_to_list m)
  end.

(** [insert_job_on_connection]: a conflict on the primary key or on the
    teardown index is a 409. *)
Definition insert_job_on_connection {W} (job : Job) : Tx W unit :=
  let! references := tx_lift (job_references job) in
  let! db := tx_get in
  let row := mkJobRow job references None None in
  match jobs db !! job_id job with
  | Some _ => tx_throw (api_error_of_db_error UniqueViolation)
  | None =>
      if violates_stop_index row (jobs db)
      then tx_throw (api_error_of_db_error UniqueViolation)
      else tx_modify (set_jobs (<[job_id job := row]> (jobs db)))
  end.
End JobPayload.

(** ** Columns the scheduler rewrites *)

(** [update jobs set status = .., last_error = .., updated_at = ..]. *)
Definition job_set_status (status : JobStatus) (error : option string) (now : Z) (j : Job) : Job :=
  mkJob (job_id j) (job_tenant_id j) (job_kind j) status (job_payload j) (required_capability j)
    (required_execution_class j) (priority j) (attempts j) (max_attempts j) (scheduled_at j)
    (created_at j) now error.

(** [update jobs set status = .., attempts = .., updated_at = ..]. *)
Definition job_set_claimed (attempt now : Z) (j : Job) : Job :=
  mkJob (job_id j) (job_tenant_id j) (job_kind j) JobStatus.Leased (job_payload j)
    (required_capability j) (required_execution_class j) (priority j) attempt (max_attempts j)
    (scheduled_at j) (created_at j) now (last_error j).

(** [update jobs set payload = .., required_execution_class = .., updated_at = ..]. *)
Definition job_set_placement (payload : Json) (class : ExecutionClass) (now : Z) (j : Job) : Job :=
  mkJob (job_id j) (job_tenant_id j) (job_kind j) (job_status j) payload (required_capability j)
    class (priority j) (attempts j) (max_attempts j) (scheduled_at j) (created_at j) now
    (last_error j).

Definition row_set_job (f : Job -> Job) (r : JobRow) : JobRow :=
  mkJobRow (f (row_job r)) (row_references r) (row_cancel_requested_at r) (row_cancel_reason r).

(** [.., cancel_requested_at = .., cancel_reason = ..] on a job. *)
Definition row_set_cancelled (now : Z) (reason : string) (r : JobRow) : JobRow :=
  mkJobRow (job_set_status JobStatus.Cancelled (Some reason) now (row_job r)) (row_references r)
    (Some now) (Some reason).

(** [update job_leases set status = .., completed_at = .., error = ..]. *)
Definition lease_set_terminal (status : LeaseStatus) (at_ : Z) (error : option string)
    (l : LeaseRow) : LeaseRow :=
  mkLeaseRow (lr_job_id l) (lr_worker_id l) status (lr_attempt l) (lr_leased_at l)
    (lr_expires_at l) (Some at_) error (lr_completion_fingerprint l) (lr_cancel_requested_at l)
    (lr_cancel_reason l).

(** The same with [completion_fingerprint = ..]. *)
Definition lease_set_completed (at_ : Z) (fingerprint : string) (l : LeaseRow) : LeaseRow :=
  mkLeaseRow (lr_job_id l) (lr_worker_id l) LeaseStatus.Completed (lr_attempt l) (lr_leased_at l)
    (lr_expires_at l) (Some at_) None (Some fingerprint) (lr_cancel_requested_at l)
    (lr_cancel_reason l).

Definition lease_set_expires_at (expires : Z) (l : LeaseRow) : LeaseRow :=
  mkLeaseRow (lr_job_id l) (lr_worker_id l) (lr_status l) (lr_attempt l) (lr_leased_at l)
    expires (lr_completed_at l) (lr_error l) (lr_completion_fingerprint l)
    (lr_cancel_requested_at l) (lr_cancel_reason l).

Definition lease_set_cancel (now : Z) (reason : string) (l : LeaseRow) : LeaseRow :=
  mkLeaseRow (lr_job_id l) (lr_worker_id l) (lr_status l) (lr_attempt l) (lr_leased_at l)
    (lr_expires_at l) (lr_completed_at l) (lr_error l) (lr_completion_fingerprint l)
    (Some now) (Some reason).

Definition fence_resolve (outcome : string) (resolved_at : Z) (f : DrainFenceRow) : DrainFenceRow :=
  mkDrainFenceRow (fence_worker_id f) (fence_job_id f) (fence_attempt f) (fence_hard_deadline f)
    (Some outcome) (Some resolved_at).

Definition worker_set_status (status : WorkerStatus) (w : Worker) : Worker :=
  mkWorker (worker_id w) (worker_tenant_id w) (worker_name w) status (worker_provider w)
    (capabilities w) (max_concurrent_jobs w) (labels w) (resource_envelope w) (registered_at w)
    (last_heartbeat_at w).

Definition row_set_worker (f : Worker -> Worker) (r : WorkerRow) : WorkerRow :=
  mkWorkerRow (f (row_worker r)) (row_token_hash r) (row_session_generation r)
    (row_session_started_at r).

Definition is_queued (r : JobRow) : bool := bool_decide (job_status (row_job r) = JobStatus.Queued).
Definition is_active (l : LeaseRow) : bool := bool_decide (lr_status l = LeaseStatus.Active).

(** Seconds as [chrono::Duration]s are nanoseconds. *)
Definition seconds (n : Z) : Z := (n * 1000000000)%Z.
