(* ===== verification/Leases.v ===== *)
(** * Leases: granting, renewing, completing, failing and expiring

    [handlers/leases.rs] and the claim path of [handlers/jobs.rs].  A lease
    is the authority one worker holds over one attempt of one job.  The
    operations here are the transactions that grant that authority
    ([try_claim_job]), extend it ([renew_lease]) and end it
    ([complete_lease_in_transaction], [fail_lease_in_transaction],
    [expire_lease_if_still_active]).  What a job's outcome does to the rest
    of the system is behind the interface [JobEffects]. *)

From S2P Require Import Prelude CoreTypes Json Store.
From stdpp Require Import sorting fin_maps.

(** ** Worker results: [sandboxwich-core/src/lib.rs] *)

Inductive MaterializeFileDestination : Type :=
| CompilerCacheArchive
| ApexWorld
| ApexTask
| ApexTaskInstructionsFile
| ApexGradingBundle.

#[global] Instance MaterializeFileDestination_eq_dec : EqDecision MaterializeFileDestination.
Proof. solve_decision. Defined.

Inductive MaterializeFileCleanupOwner : Type :=
| ControlPlane.

Record AgentCommandResult : Type := mkAgentCommandResult {
  result_exit_code : option Z;
  result_stdout : string;
  result_stderr : string;
  result_started_at : Z;
  result_finished_at : Z
}.

Record ProviderRuntimeResource : Type := mkProviderRuntimeResource {
  prr_sandbox_id : Uuid;
  prr_snapshot_id : option Uuid;
  prr_provider : string;
  prr_resource_kind : RuntimeResourceKind;
  prr_purpose : RuntimeResourcePurpose;
  prr_resource_name : string;
  prr_namespace : string;
  prr_status : RuntimeResourceStatus;
  prr_cluster : option string;
  prr_storage_class : option string;
  prr_snapshot_class : option string;
  prr_storage_size : option string;
  prr_runtime_image : option string;
  prr_service_port : option Z;
  prr_target_port : option string;
  prr_source_snapshot_id : option Uuid;
  prr_ready_at : option Z;
  prr_error : option string
}.

Record ProviderSandboxHandle : Type := mkProviderSandboxHandle {
  sandbox_handle_provider : string;
  sandbox_handle_sandbox_id : Uuid;
  sandbox_handle_resources : list ProviderRuntimeResource;
  sandbox_handle_metadata : Json
}.

Record ProviderSnapshotHandle : Type := mkProviderSnapshotHandle {
  snapshot_handle_provider : string;
  snapshot_handle_snapshot_id : Uuid;
  snapshot_handle_resources : list ProviderRuntimeResource;
  snapshot_handle_metadata : Json
}.

Record ProviderForkHandle : Type := mkProviderForkHandle {
  fork_handle_provider : string;
  fork_handle_parent_sandbox_id : Uuid;
  fork_handle_child_sandbox_id : Uuid;
  fork_handle_snapshot_id : Uuid;
  fork_handle_resources : list ProviderRuntimeResource;
  fork_handle_metadata : Json
}.

Record ProviderResumeHandle : Type := mkProviderResumeHandle {
  resume_handle_provider : string;
  resume_handle_sandbox_id : Uuid;
  resume_handle_snapshot_id : Uuid;
  resume_handle_resources : list ProviderRuntimeResource;
  resume_handle_metadata : Json
}.

Record MaterializeFileReceipt : Type := mkMaterializeFileReceipt {
  receipt_sandbox_id : Uuid;
  receipt_file_id : Uuid;
  receipt_destination : MaterializeFileDestination;
  receipt_sha256 : string;
  receipt_destination_sha256 : string;
  receipt_size_bytes : Z;
  receipt_cleanup_owner : MaterializeFileCleanupOwner
}.

(** The custody receipt is carried as its JSON encoding: it is only stored in
    a lifecycle event. *)
Inductive WorkerJobResult : Type :=
| ResultProvisionSandbox (handle : ProviderSandboxHandle)
| ResultRunCommand (result : AgentCommandResult)
| ResultRunResidentProcess (process_id : Uuid) (generation : Z) (exit_code : option Z)
| ResultMaterializeFile (receipt : MaterializeFileReceipt)
| ResultApexTaskInstructions (request_id sandbox_id lease_id : Uuid) (lease_attempt : Z)
    (provider_apply_id : Uuid) (sha256 : string) (byte_count : Z) (output_unavailable : bool)
| ResultRunPrompt (output : string)
| ResultCreateSnapshot (handle : ProviderSnapshotHandle)
| ResultForkSandbox (handle : ProviderForkHandle)
| ResultStopSandbox (provider : string) (sandbox_id : Uuid) (custody_receipt : option Json)
| ResultResumeSandbox (handle : ProviderResumeHandle)
| ResultDeleteHome (provider : string) (home_id : Uuid).

(** ** The environment

    The clock and the random identifiers one request draws.  A request that
    reads the clock several times inside one transaction reads one instant
    here. *)
Record Runtime : Type := mkRuntime {
  utc_now : Z;
  new_uuid : nat -> Uuid
}.

(** Serialization and hashing: [serde_json] and [sha2]. *)
Class SerdeLib : Type := {
  result_to_value : WorkerJobResult -> option Json;
  json_to_vec : Json -> option string;
  sha256_hex : string -> string;
  provision_spec_from_value : Json -> option SandboxProvisionSpec;
  provision_spec_to_value : SandboxProvisionSpec -> Json;
  destination_from_value : Json -> option MaterializeFileDestination;
  destination_to_value : MaterializeFileDestination -> Json
}.

(** ** What a job's outcome does to the rest of the system

    [apply_claimed_job_on_connection] and its three siblings, as the lease
    transactions call them, and the per-kind part of [cancel_operation]. *)
Class JobEffects (W : Type) : Type := {
  apply_claimed_job_on_connection : Runtime -> Job -> Tx W unit;
  apply_completed_job_on_connection : Runtime -> Job -> WorkerJobResult -> Tx W unit;
  apply_retryable_job_on_connection : Runtime -> Job -> string -> Tx W unit;
  apply_failed_job_on_connection : Runtime -> Job -> string -> Tx W unit;
  apply_cancelled_job_on_connection : Runtime -> Job -> Tx W unit
}.

(** A side effect may retire a job that is still queued; it never touches a
    job that is leased or finished. *)
Definition job_retired (r r' : JobRow) : Prop :=
  is_queued r = true /\
  job_status (row_job r') <> JobStatus.Queued /\ job_status (row_job r') <> JobStatus.Leased /\
  job_id (row_job r') = job_id (row_job r) /\ job_kind (row_job r') = job_kind (row_job r) /\
  attempts (row_job r') = attempts (row_job r) /\
  max_attempts (row_job r') = max_attempts (row_job r).

(** A job a side effect enqueues starts queued, with no attempt used and at
    least one allowed. *)
Definition job_enqueued (id : Uuid) (r : JobRow) : Prop :=
  is_queued r = true /\ job_id (row_job r) = id /\
  attempts (row_job r) = 0%Z /\ (1 <= max_attempts (row_job r))%Z.

(** What the lease component relies on: side effects leave leases, workers
    and drain state alone, and change jobs only as above. *)
Definition jobs_evolve (m m' : gmap Uuid JobRow) : Prop :=
  (forall id r, m !! id = Some r -> exists r', m' !! id = Some r' /\ (r' = r \/ job_retired r r')) /\
  (forall id r', m' !! id = Some r' -> m !! id = None -> job_enqueued id r' \/
     exists r, job_enqueued id r /\ job_retired r r').

Record core_frame {W} (db db' : Db W) : Prop := mkCoreFrame {
  frame_leases : job_leases db' = job_leases db;
  frame_workers : workers db' = workers db;
  frame_receipts : worker_drain_receipts db' = worker_drain_receipts db;
  frame_fences : worker_drain_lease_fences db' = worker_drain_lease_fences db;
  frame_jobs : jobs_evolve (jobs db) (jobs db')
}.

Record effect_frame {W} (db db' : Db W) : Prop := mkEffectFrame {
  frame_core : core_frame db db';
  frame_operations : lease_claim_operations db' = lease_claim_operations db
}.

Class JobEffectsLaws (W : Type) `{JobEffects W} : Prop := {
  apply_claimed_frame rt job : tx_rel effect_frame (apply_claimed_job_on_connection rt job);
  apply_completed_frame rt job res :
    tx_rel effect_frame (apply_completed_job_on_connection rt job res);
  apply_retryable_frame rt job e :
    tx_rel effect_frame (apply_retryable_job_on_connection rt job e);
  apply_failed_frame rt job e : tx_rel effect_frame (apply_failed_job_on_connection rt job e);
  apply_cancelled_frame rt job : tx_rel effect_frame (apply_cancelled_job_on_connection rt job)
}.

(** ** Reading leases *)

Section Leases.
Context {W : Type} `{UuidLib} `{SerdeLib} `{JobEffects W}.

Definition row_to_lease_with_job (id : Uuid) (l : LeaseRow) (j : Job) : JobLease :=
  mkJobLease id (lr_job_id l) (lr_worker_id l) (lr_status l) (lr_attempt l) (lr_leased_at l)
    (lr_expires_at l) (lr_completed_at l) (lr_error l) (required_execution_class j) j.

(** [LEASE_WITH_JOB_SELECT]: the lease joined with its job. *)
Definition lease_with_job (db : Db W) (id : Uuid) : option JobLease :=
  l ← job_leases db !! id;
  r ← jobs db !! lr_job_id l;
  Some (row_to_lease_with_job id l (row_job r)).

Definition fetch_lease (db : Db W) (id : Uuid) : result JobLease ApiError :=
  match lease_with_job db id with
  | Some lease => Ok lease
  | None => Err (not_found "lease not found")
  end.

Definition fetch_lease_on_connection (id : Uuid) : Tx W JobLease :=
  let! db := tx_get in tx_lift (fetch_lease db id).

(** The no-op update of the worker row that serializes terminalization with
    drain capture. *)
Definition lock_worker_for_lease_terminalization_on_connection (id : Uuid) : Tx W unit :=
  let! db := tx_get in
  check! is_some (workers db !! id) else not_found "worker not found" in
  tx_ret tt.

(** ** Single-row transitions *)

Definition complete_active_lease_on_connection (id : Uuid) (at_ : Z) (fingerprint : string) :
    Tx W unit :=
  let! db := tx_get in
  let '(affected, m) := update_row id is_active (lease_set_completed at_ fingerprint) (job_leases db) in
  check! affected else bad_request "lease is not active" in
  tx_modify (set_job_leases m).

Definition fail_active_lease_on_connection (id : Uuid) (at_ : Z) (error : string) : Tx W unit :=
  let! db := tx_get in
  let '(affected, m) :=
    update_row id is_active (lease_set_terminal LeaseStatus.Failed at_ (Some error))
      (job_leases db) in
  check! affected else bad_request "lease is not active" in
  tx_modify (set_job_leases m).

(** The guarded [active] to [expired] transition re-reads [expires_at]. *)
Definition expire_active_lease_on_connection (id : Uuid) (at_ : Z) (error : string) : Tx W bool :=
  let! db := tx_get in
  let '(affected, m) :=
    update_row id (fun l => is_active l && (lr_expires_at l <=? at_)%Z)
      (lease_set_terminal LeaseStatus.Expired at_ (Some error)) (job_leases db) in
  let! _ := tx_modify (set_job_leases m) in
  tx_ret affected.

Definition update_job_status_on_connection (id : Uuid) (status : JobStatus)
    (error : option string) (now : Z) : Tx W unit :=
  let! db := tx_get in
  tx_modify (set_jobs
    (update_row id (fun _ => true) (row_set_job (job_set_status status error now)) (jobs db)).2).

(** The drain fences captured for this exact worker, job and attempt. *)
Definition fence_matches (lease : JobLease) (key : Uuid * Uuid) (f : DrainFenceRow) : bool :=
  bool_decide (key.2 = lease_id lease)
  && bool_decide (fence_worker_id f = lease_worker_id lease)
  && bool_decide (fence_job_id f = lease_job_id lease)
  && bool_decide (fence_attempt f = lease_attempt lease)
  && is_none (fence_resolved_at f).

Definition resolve_captured_worker_drain_fence_on_connection (lease : JobLease) (outcome : string)
    (resolved_at : Z) : Tx W unit :=
  let! db := tx_get in
  tx_modify (set_worker_drain_lease_fences
    (update_rows (fence_matches lease) (fence_resolve outcome resolved_at)
       (worker_drain_lease_fences db))).

(** ** Resident process checks *)

Definition missing_generation : ApiError := internal "resident process job is missing generation".

Definition resident_matches (id : Uuid) (generation : Z) (db : Db W) (p : ResidentRow -> bool) : bool :=
  match resident_processes db !! id with
  | Some row => bool_decide (rp_generation row = generation) && p row
  | None => false
  end.

(** The [generation] of a resident job's payload, in the database's range. *)
Definition job_generation_i64 (job : Job) : result Z ApiError :=
  match get_u64 (job_payload job) "generation" with
  | None => Err missing_generation
  | Some g =>
      match try_i64 g with
      | Some g' => Ok g'
      | None => Err (internal "resident process generation exceeds database range")
      end
  end.

Definition resident_process_desires_stop (job : Job) : Tx W bool :=
  if negb (bool_decide (job_kind job = JobKind.RunResidentProcess)) then tx_ret false
  else
    let! process_id := tx_lift (resident_process_id_from_job job) in
    let! generation := tx_lift (job_generation_i64 job) in
    let! db := tx_get in
    tx_ret (resident_matches process_id generation db (fun row =>
      bool_decide (rp_desired_state row = ResidentProcessDesiredState.Stopped))).

Definition resident_process_is_cleanly_stopped (job : Job) : Tx W bool :=
  if negb (bool_decide (job_kind job = JobKind.RunResidentProcess)) then tx_ret false
  else
    let! process_id := tx_lift (resident_process_id_from_job job) in
    let! generation := tx_lift (job_generation_i64 job) in
    let! db := tx_get in
    tx_ret (resident_matches process_id generation db (fun row =>
      bool_decide (rp_desired_state row = ResidentProcessDesiredState.Stopped)
      && bool_decide (rp_observed_state row = ResidentProcessObservedState.Stopped)
      && bool_decide (rp_exit_code row = Some 0%Z)
      && is_none (rp_active_lease_id row))).

(** The row is looked up by the payload's text, unparsed. *)
Definition resident_by_text (value : string) (db : Db W) : option ResidentRow :=
  match list_find (fun kr => uuid_to_string kr.1 = value) (map_to_list (resident_processes db)) with
  | Some (_, kr) => Some kr.2
  | None => None
  end.

Definition resident_bootstrap_was_delivered (job : Job) : Tx W bool :=
  if negb (bool_decide (job_kind job = JobKind.RunResidentProcess)) then tx_ret false
  else
    match get_str (job_payload job) "residentProcessId" with
    | None => tx_ret false
    | Some process_id =>
        let! db := tx_get in
        tx_ret (match resident_by_text process_id db with
                | Some row => is_some (rp_bootstrap_delivered_lease_id row)
                | None => false
                end)
    end.

(** ** Service-level observations *)

Definition slo_metric_kind (kind : JobKind) : option string :=
  match kind with
  | JobKind.ProvisionSandbox => Some "sandbox_creation"
  | JobKind.RunCommand => Some "command"
  | JobKind.StopSandbox => Some "cleanup"
  | _ => None
  end.

(** [on conflict do nothing]: the first outcome recorded for a job stays. *)
Definition record_terminal_slo_observation (lease : JobLease) (successful : bool) (observed_at : Z) :
    Tx W unit :=
  match slo_metric_kind (job_kind (lease_job lease)) with
  | None => tx_ret tt
  | Some metric_kind =>
      let job := lease_job lease in
      let creation := String.eqb metric_kind "sandbox_creation" in
      let workspace_mode :=
        if creation then
          Some (default "persistent"
                  (as_str (index (index (job_payload job) "provisionSpec") "workspace_mode")))
        else None in
      let start_type :=
        if creation then
          Some (if (Z.quot (leased_at lease - scheduled_at job) 1000000000 <=? 30)%Z
                then "warm" else "cold")
        else None in
      let row := mkSloRow (job_tenant_id job) (if successful then "success" else "failure")
                   workspace_mode start_type
                   (Z.max (Z.quot (observed_at - scheduled_at job) 1000000) 0) observed_at in
      tx_modify (fun db =>
        match terminal_slo_observations db !! (job_id job, metric_kind) with
        | Some _ => db
        | None =>
            set_terminal_slo_observations
              (<[(job_id job, metric_kind) := row]> (terminal_slo_observations db)) db
        end)
  end.

(** ** Completion *)

(** [completion_result_fingerprint]. *)
Definition completion_result_fingerprint (res : WorkerJobResult) : result string ApiError :=
  match result_to_value res with
  | None => Err (internal "failed to encode lease completion result")
  | Some canonical =>
      match json_to_vec (canonicalize_json canonical) with
      | None => Err (internal "failed to encode lease completion result")
      | Some encoded => Ok ("sha256:v1:" ++ sha256_hex encoded)%string
      end
  end.

Definition result_successful (res : WorkerJobResult) : bool :=
  match res with
  | ResultRunCommand r => bool_decide (result_exit_code r = Some 0%Z)
  | ResultRunResidentProcess _ _ exit_code => bool_decide (exit_code = Some 0%Z)
  | _ => true
  end.

(** The acknowledgement of a clean stop the expiry sweeper already finalized. *)
Definition expired_clean_stop_replay (lease : JobLease) (res : WorkerJobResult) : Tx W bool :=
  if bool_decide (lease_status lease = LeaseStatus.Expired)
     && bool_decide (job_status (lease_job lease) = JobStatus.Succeeded)
  then
    match res with
    | ResultRunResidentProcess process_id generation (Some 0%Z) =>
        let! expected := tx_lift (resident_process_id_from_job (lease_job lease)) in
        if bool_decide (process_id = expected)
           && bool_decide (get_u64 (job_payload (lease_job lease)) "generation" = Some generation)
        then resident_process_is_cleanly_stopped (lease_job lease)
        else tx_ret false
    | _ => tx_ret false
    end
  else tx_ret false.

(** The lease as the completion response reports it. *)
Definition lease_as_completed (lease : JobLease) (now : Z) : JobLease :=
  mkJobLease (lease_id lease) (lease_job_id lease) (lease_worker_id lease) LeaseStatus.Completed
    (lease_attempt lease) (leased_at lease) (expires_at lease) (Some now) None
    (lease_required_execution_class lease)
    (job_set_status JobStatus.Succeeded None now (lease_job lease)).

(** The transaction body of [complete_lease_in_transaction]. *)
Definition complete_lease_tx (rt : Runtime) (id : Uuid) (res : WorkerJobResult)
    (fingerprint : string) : Tx W JobLease :=
  let! lease := fetch_lease_on_connection id in
  let! _ := lock_worker_for_lease_terminalization_on_connection (lease_worker_id lease) in
  let! lease := fetch_lease_on_connection id in
  if bool_decide (lease_status lease = LeaseStatus.Completed) then
    let! db := tx_get in
    match job_leases db !! id ≫= lr_completion_fingerprint with
    | Some stored =>
        if String.eqb stored fingerprint then tx_ret lease
        else tx_throw (bad_request "lease is already completed with a different result")
    | None =>
        tx_throw (conflict_code "completion_replay_unavailable"
                    "completed lease predates persisted completion evidence")
    end
  else
    let! acknowledged := expired_clean_stop_replay lease res in
    if acknowledged then tx_ret lease
    else if negb (bool_decide (lease_status lease = LeaseStatus.Active)) then
      tx_throw (bad_request "lease is already terminal with a different outcome")
    else
      let now := utc_now rt in
      let! _ := complete_active_lease_on_connection id now fingerprint in
      let! _ := apply_completed_job_on_connection rt (lease_job lease) res in
      let! _ := update_job_status_on_connection (lease_job_id lease) JobStatus.Succeeded None now in
      let! _ := record_terminal_slo_observation lease (result_successful res) now in
      let! _ := resolve_captured_worker_drain_fence_on_connection lease "completed" now in
      tx_ret (lease_as_completed lease now).

Definition complete_lease_in_transaction (rt : Runtime) (id : Uuid) (res : WorkerJobResult)
    (db : Db W) : result JobLease ApiError * Db W :=
  match completion_result_fingerprint res with
  | Err e => (Err e, db)
  | Ok fingerprint => run_tx (complete_lease_tx rt id res fingerprint) db
  end.

(** ** Failure *)

Definition lease_as_failed (lease : JobLease) (now : Z) (status : JobStatus) (error : string) :
    JobLease :=
  mkJobLease (lease_id lease) (lease_job_id lease) (lease_worker_id lease) LeaseStatus.Failed
    (lease_attempt lease) (leased_at lease) (expires_at lease) (Some now) (Some error)
    (lease_required_execution_class lease)
    (job_set_status status (Some error) now (lease_job lease)).

Definition fail_lease_tx (rt : Runtime) (id : Uuid) (retry_requested : bool) (error : string) :
    Tx W JobLease :=
  let! lease := fetch_lease_on_connection id in
  let! _ := lock_worker_for_lease_terminalization_on_connection (lease_worker_id lease) in
  let! lease := fetch_lease_on_connection id in
  if bool_decide (lease_status lease = LeaseStatus.Failed) then tx_ret lease
  else if negb (bool_decide (lease_status lease = LeaseStatus.Active)) then
    tx_throw (bad_request "lease is already terminal with a different outcome")
  else
    let now := utc_now rt in
    let job := lease_job lease in
    let! _ := fail_active_lease_on_connection id now error in
    let! retry :=
      if retry_requested && (attempts job <? max_attempts job)%Z then
        let! delivered := resident_bootstrap_was_delivered job in tx_ret (negb delivered)
      else tx_ret false in
    let! lease' :=
      if retry then
        let! _ := update_job_status_on_connection (lease_job_id lease) JobStatus.Queued
                    (Some error) now in
        let! _ := apply_retryable_job_on_connection rt job error in
        tx_ret (lease_as_failed lease now JobStatus.Queued error)
      else
        let! _ := update_job_status_on_connection (lease_job_id lease) JobStatus.Failed
                    (Some error) now in
        let! _ := apply_failed_job_on_connection rt job error in
        let! _ := record_terminal_slo_observation lease false now in
        tx_ret (lease_as_failed lease now JobStatus.Failed error) in
    let! _ := resolve_captured_worker_drain_fence_on_connection lease' "failed" now in
    tx_ret lease'.

Definition fail_lease_in_transaction (rt : Runtime) (id : Uuid) (retry_requested : bool)
    (error : string) (db : Db W) : result JobLease ApiError * Db W :=
  run_tx (fail_lease_tx rt id retry_requested error) db.

(** ** Expiry *)

Definition expire_lease_tx (rt : Runtime) (id : Uuid) (now : Z) : Tx W unit :=
  let! lease := fetch_lease_on_connection id in
  let! _ := lock_worker_for_lease_terminalization_on_connection (lease_worker_id lease) in
  let! won_transition := expire_active_lease_on_connection id now "lease expired" in
  if negb won_transition then tx_ret tt
  else
    let! lease := fetch_lease_on_connection id in
    let! _ := resolve_captured_worker_drain_fence_on_connection lease "expired" now in
    let job := lease_job lease in
    let! desires_stop := resident_process_desires_stop job in
    if desires_stop then
      let! process_id := tx_lift (resident_process_id_from_job job) in
      match get_u64 (job_payload job) "generation" with
      | None => tx_throw missing_generation
      | Some generation =>
          let! _ := apply_completed_job_on_connection rt job
                      (ResultRunResidentProcess process_id generation (Some 0%Z)) in
          update_job_status_on_connection (job_id job) JobStatus.Succeeded None now
      end
    else
      let! bootstrap_was_delivered := resident_bootstrap_was_delivered job in
      let exhausted := (max_attempts job <=? attempts job)%Z || bootstrap_was_delivered in
      let next_status := if exhausted then JobStatus.Dead else JobStatus.Queued in
      let! _ := update_job_status_on_connection (job_id job) next_status (Some "lease expired") now in
      if exhausted then
        let! _ := apply_failed_job_on_connection rt job "lease expired" in
        record_terminal_slo_observation lease false now
      else apply_retryable_job_on_connection rt job "lease expired".

Definition expire_lease_if_still_active (rt : Runtime) (id : Uuid) (now : Z) (db : Db W) :
    result unit ApiError * Db W :=
  run_tx (expire_lease_tx rt id now) db.

(** The expiry sweep: due leases in order of expiry, then of identifier, at
    most [LEASE_EXPIRY_BATCH_SIZE] of them; the first error ends the sweep. *)
Definition LEASE_EXPIRY_BATCH_SIZE : nat := N.to_nat 1000.

Definition due_le (a b : Uuid * LeaseRow) : Prop :=
  (lr_expires_at a.2 < lr_expires_at b.2)%Z \/
  (lr_expires_at a.2 = lr_expires_at b.2 /\ (a.1 <= b.1)%N).

#[local] Instance due_le_dec : RelDecision due_le.
Proof. intros a b. unfold due_le. apply _. Defined.

Definition lease_is_due (now : Z) (l : LeaseRow) : bool :=
  is_active l && (lr_expires_at l <=? now)%Z.

Definition due_leases (db : Db W) (now : Z) : list Uuid :=
  (take LEASE_EXPIRY_BATCH_SIZE
    (merge_sort due_le
      (List.filter (fun kl => lease_is_due now kl.2) (map_to_list (job_leases db))))).*1.

Fixpoint expire_each (rts : nat -> Runtime) (ids : list Uuid) (now : Z) (db : Db W) :
    result unit ApiError * Db W :=
  match ids with
  | [] => (Ok tt, db)
  | id :: ids' =>
      match expire_lease_if_still_active (rts 0) id now db with
      | (Ok _, db') => expire_each (fun n => rts (S n)) ids' now db'
      | (Err e, db') => (Err e, db')
      end
  end.

Definition expire_due_leases (rts : nat -> Runtime) (now : Z) (db : Db W) :
    result unit ApiError * Db W :=
  expire_each rts (due_leases db now) now db.

(** ** Renewal *)

Definition MIN_LEASE_SECONDS : Z := 1.
Definition MAX_LEASE_SECONDS : Z := 3600.
Definition DEFAULT_LEASE_SECONDS : Z := 60.

Definition effective_lease_seconds (requested : option Z) : Z :=
  match requested with
  | Some value => Z.min (Z.max value MIN_LEASE_SECONDS) MAX_LEASE_SECONDS
  | None => DEFAULT_LEASE_SECONDS
  end.

(** The earliest unresolved drain deadline captured for this lease. *)
Definition renewal_hard_deadline (lease : JobLease) (db : Db W) : option Z :=
  map_fold (fun key f acc =>
    if fence_matches lease key f then
      Some (match acc with
            | Some d => Z.min d (fence_hard_deadline f)
            | None => fence_hard_deadline f
            end)
    else acc) None (worker_drain_lease_fences db).

(** The extension itself: capped by the drain deadline, and only for a lease
    that is active, not cancelled and not past its expiry by the database's
    own clock [db_now] ([timestamp_is_future]). *)
Definition extend_lease_tx (rt : Runtime) (db_now : Z) (lease : JobLease)
    (lease_seconds : option Z) : Tx W unit :=
  let! db := tx_get in
  let now := utc_now rt in
  let requested_expires_at := (now + seconds (effective_lease_seconds lease_seconds))%Z in
  let hard_deadline := renewal_hard_deadline lease db in
  if (match hard_deadline with Some d => (d <=? now)%Z | None => false end) then
    tx_throw (conflict_code "worker_drain_deadline_elapsed" "worker drain deadline has elapsed")
  else
    let expires :=
      match hard_deadline with
      | Some d => Z.min requested_expires_at d
      | None => requested_expires_at
      end in
    let '(affected, m) :=
      update_row (lease_id lease)
        (fun l => is_active l && is_none (lr_cancel_requested_at l)
                  && (db_now <? lr_expires_at l)%Z)
        (lease_set_expires_at expires) (job_leases db) in
    if affected then tx_modify (set_job_leases m)
    else
      match job_leases db !! lease_id lease with
      | Some l =>
          if is_some (lr_cancel_requested_at l)
          then tx_throw (conflict_code "lease_cancelled" "lease cancellation was requested")
          else tx_throw (not_found "active lease not found")
      | None => tx_throw (not_found "active lease not found")
      end.

(** The transaction body of [renew_lease]: [lease] was read by the
    authorization check before the transaction. *)
Definition renew_lease_tx (rt : Runtime) (db_now : Z) (lease : JobLease)
    (lease_seconds : option Z) : Tx W unit :=
  let! db := tx_get in
  match job_leases db !! lease_id lease ≫= lr_cancel_requested_at with
  | Some _ =>
      tx_throw (conflict_code "lease_cancelled"
                  (default "lease cancellation was requested"
                     (job_leases db !! lease_id lease ≫= lr_cancel_reason)))
  | None => extend_lease_tx rt db_now lease lease_seconds
  end.

(** The stop signal of a resident process is raised after the renewal has
    committed. *)
Definition resident_stop_requested (lease : JobLease) (db : Db W) : bool :=
  bool_decide (job_kind (lease_job lease) = JobKind.RunResidentProcess) &&
  match resident_by_text
          (default "" (get_str (job_payload (lease_job lease)) "residentProcessId")) db with
  | Some row => bool_decide (rp_desired_state row = ResidentProcessDesiredState.Stopped)
  | None => false
  end.

Definition renew_lease (rt : Runtime) (db_now : Z) (lease : JobLease) (lease_seconds : option Z)
    (db : Db W) : result JobLease ApiError * Db W :=
  match run_tx (renew_lease_tx rt db_now lease lease_seconds) db with
  | (Err e, db') => (Err e, db')
  | (Ok _, db') =>
      if resident_stop_requested lease db' then
        (Err (conflict_code "resident_process_stopped"
                "resident process no longer desires a running lease"), db')
      else (fetch_lease db' (lease_id lease), db')
  end.

(** ** Claiming *)

(** [lock_worker_for_claim_on_connection]: only a registered or online worker
    may take work. *)
Definition worker_accepts_claims (status : WorkerStatus) : bool :=
  bool_decide (status = WorkerStatus.Registered) || bool_decide (status = WorkerStatus.Online).

Definition lock_worker_for_claim_on_connection (id : Uuid) : Tx W bool :=
  let! db := tx_get in
  tx_ret (match workers db !! id with
          | Some row => worker_accepts_claims (worker_status (row_worker row))
          | None => false
          end).

(** [active_lease_count_for_worker_on_connection]: resident processes do not
    occupy an ordinary slot. *)
Definition occupies_slot (db : Db W) (id : Uuid) (l : LeaseRow) : bool :=
  bool_decide (lr_worker_id l = id) && is_active l &&
  match jobs db !! lr_job_id l with
  | Some r => negb (bool_decide (job_kind (row_job r) = JobKind.RunResidentProcess))
  | None => false
  end.

Definition slot_count (db : Db W) (id : Uuid) : nat :=
  size (filter (fun kl => occupies_slot db id kl.2 = true) (job_leases db)).

Definition active_lease_count_for_worker_on_connection (id : Uuid) : Tx W Z :=
  let! db := tx_get in
  match try_u32 (Z.of_nat (slot_count db id)) with
  | Some n => tx_ret n
  | None => tx_throw (internal "database contains invalid active lease count")
  end.

(** [lock_apex_instruction_placement_on_connection]. *)
Definition lock_apex_instruction_placement_on_connection (worker : Worker) (job : Job) : Tx W bool :=
  if negb (bool_decide (job_kind job = JobKind.ApexTaskInstructions)) then tx_ret true
  else
    match get_str (job_payload job) "targetWorkerId" ≫= uuid_parse_str,
          get_u64 (job_payload job) "targetPlacementGeneration" ≫= try_i64 with
    | Some target_worker_id, Some target_generation =>
        if negb (bool_decide (target_worker_id = worker_id worker)) then tx_ret false
        else
          let! sandbox_id := tx_lift (sandbox_id_from_job job) in
          let! db := tx_get in
          tx_ret (match sandbox_placements db !! sandbox_id with
                  | Some p => bool_decide (placement_worker_id p = worker_id worker)
                              && bool_decide (placement_generation p = target_generation)
                  | None => false
                  end)
    | _, _ => tx_ret false
    end.

(** [bind_sandbox_placement_on_connection]: an upsert that bumps the
    placement generation on conflict. *)
Definition bind_sandbox_placement_on_connection (rt : Runtime) (job : Job) (worker : Worker) :
    Tx W unit :=
  let bind (sandbox_id : Uuid) : Tx W unit :=
    tx_modify (fun db =>
      let row :=
        match sandbox_placements db !! sandbox_id with
        | Some p =>
            mkPlacementRow (worker_id worker) (worker_provider worker) (labels worker !! "cluster")
              (placement_generation p + 1) (placement_created_at p) (utc_now rt)
        | None =>
            mkPlacementRow (worker_id worker) (worker_provider worker) (labels worker !! "cluster")
              1 (utc_now rt) (utc_now rt)
        end in
      set_sandbox_placements (<[sandbox_id := row]> (sandbox_placements db)) db) in
  match job_kind job with
  | JobKind.ProvisionSandbox => let! s := tx_lift (sandbox_id_from_job job) in bind s
  | JobKind.ForkSandbox => let! s := tx_lift (child_sandbox_id_from_job job) in bind s
  | _ => tx_ret tt
  end.

(** *** The sterile activation fence, re-checked inside the claim *)

Definition fence_mismatch (message : string) : ApiError :=
  conflict_code "sterile_resident_activation_fence_mismatch" message.

Definition uuid_text_is (u : option Uuid) (text : string) : bool :=
  match u with Some v => String.eqb (uuid_to_string v) text | None => false end.

Definition i64_or (e : ApiError) (n : Z) : result Z ApiError :=
  match try_i64 n with Some m => Ok m | None => Err e end.

(** The join of [resident_processes] and [sterile_cells] that proves the
    activation is still live. *)
Definition sterile_activation_is_live (db : Db W) (now : Z) (process_id : Uuid) (tenant_id : string)
    (resident_generation : Z) (cell_text lease_text : string) (lease_generation : Z) : bool :=
  match resident_processes db !! process_id with
  | None => false
  | Some rp =>
      match rp_sterile_cell_id rp ≫= fun c => sterile_cells db !! c with
      | None => false
      | Some sc =>
          String.eqb (rp_tenant_id rp) tenant_id
          && bool_decide (rp_generation rp = resident_generation)
          && uuid_text_is (rp_sterile_cell_id rp) cell_text
          && uuid_text_is (rp_sterile_lease_id rp) lease_text
          && bool_decide (rp_sterile_lease_generation rp = Some lease_generation)
          && bool_decide (cell_tenant_id sc = Some (rp_tenant_id rp))
          && bool_decide (cell_state sc = SterileCellState.Leased)
          && bool_decide (cell_activated_resident_process_id sc = Some process_id)
          && bool_decide (cell_activated_resident_generation sc = Some (rp_generation rp))
          && is_some (cell_lease_id sc) && bool_decide (cell_lease_id sc = rp_sterile_lease_id rp)
          && bool_decide (Some (cell_generation sc) = rp_sterile_lease_generation rp)
          && match cell_lease_expires_at sc with Some t => (now <? t)%Z | None => false end
      end
  end.

Definition recheck_sterile_resident_activation_on_connection (rt : Runtime) (job : Job) : Tx W unit :=
  if negb (bool_decide (job_kind job = JobKind.RunResidentProcess)) then tx_ret tt
  else
    let! process_id := tx_lift (resident_process_id_from_job job) in
    match get_u64 (job_payload job) "generation" with
    | None => tx_throw missing_generation
    | Some resident_generation =>
        match get (job_payload job) "sterileActivation" with
        | None =>
            let! g := tx_lift (i64_or (internal "resident generation exceeds database range")
                                 resident_generation) in
            let! db := tx_get in
            check! (resident_matches process_id g db (fun row =>
                      is_none (rp_sterile_cell_id row) && is_none (rp_sterile_lease_id row)
                      && is_none (rp_sterile_lease_generation row)))
              else fence_mismatch "ungated resident job does not match its durable activation fence" in
            tx_ret tt
        | Some activation =>
            match get_str activation "cellId", get_str activation "leaseId",
                  get_u64 activation "generation" with
            | None, _, _ => tx_throw (internal "sterile resident job is missing cell id")
            | _, None, _ => tx_throw (internal "sterile resident job is missing lease id")
            | _, _, None => tx_throw (internal "sterile resident job is missing generation")
            | Some cell_id, Some lease_text, Some lease_generation =>
                let! sandbox_id := tx_lift (sandbox_id_from_job job) in
                check! String.eqb cell_id (uuid_to_string sandbox_id)
                  else fence_mismatch "sterile resident cell does not match the job sandbox" in
                let! g := tx_lift (i64_or (internal "resident generation exceeds database range")
                                     resident_generation) in
                let! lg := tx_lift (i64_or
                             (internal "sterile lease generation exceeds database range")
                             lease_generation) in
                let! db := tx_get in
                check! sterile_activation_is_live db (utc_now rt) process_id (job_tenant_id job) g
                         cell_id lease_text lg
                  else fence_mismatch "sterile resident activation is no longer live at job claim" in
                tx_ret tt
            end
        end
    end.

(** [quarantine_invalid_sterile_resident_job]: the queued job dies, and only
    then its process and cell with it. *)
Definition STERILE_STALE : string := "sterile resident activation expired or changed before claim".

Definition resident_set_failed_before_claim (now : Z) (r : ResidentRow) : ResidentRow :=
  mkResidentRow (rp_sandbox_id r) (rp_tenant_id r) (rp_name r) (rp_generation r)
    ResidentProcessDesiredState.Stopped ResidentProcessObservedState.Failed (rp_active_lease_id r)
    (rp_pid r) (rp_exited_at r) (rp_exit_code r) (rp_last_error_class r) (rp_last_error_code r)
    (Some STERILE_STALE) (rp_provider_pod_name r) (rp_provider_pod_uid r) now
    (rp_bootstrap_sha256 r) (rp_bootstrap_delivered_generation r)
    (rp_bootstrap_delivered_lease_id r) (rp_bootstrap_delivered_sha256 r)
    (rp_bootstrap_acknowledged_at r) (rp_sterile_cell_id r) (rp_sterile_lease_id r)
    (rp_sterile_lease_generation r)
    (rp_provider_isolation_version r) (rp_spec r) (rp_bootstrap_consumed_at r) (rp_started_at r)
    (rp_ready_at r) (rp_created_at r).

Definition cell_set_quarantined : Z -> SterileCellRow -> SterileCellRow :=
  cell_set_terminal SterileCellState.Quarantined SterileCellDisposition.Quarantined.

Definition quarantine_tx (rt : Runtime) (job : Job) (process_id : Uuid) (cell_text : string) :
    Tx W unit :=
  let now := utc_now rt in
  let! db := tx_get in
  let '(terminalized, m) :=
    update_row (job_id job) is_queued
      (row_set_job (job_set_status JobStatus.Dead (Some STERILE_STALE) now)) (jobs db) in
  if terminalized then
    tx_modify (fun db =>
      set_sterile_cells
        (update_rows (fun id c => String.eqb (uuid_to_string id) cell_text
                                  && bool_decide (cell_state c = SterileCellState.Leased))
           (cell_set_quarantined now) (sterile_cells db))
      (set_resident_processes
        (update_row process_id (fun r => uuid_text_is (rp_sterile_cell_id r) cell_text)
           (resident_set_failed_before_claim now) (resident_processes db)).2
      (set_jobs m db)))
  else tx_ret tt.

Definition quarantine_invalid_sterile_resident_job (rt : Runtime) (job : Job) (db : Db W) :
    result unit ApiError * Db W :=
  match get (job_payload job) "sterileActivation" ≫= fun a => get_str a "cellId" with
  | None => (Ok tt, db)
  | Some cell_text =>
      match resident_process_id_from_job job with
      | Err e => (Err e, db)
      | Ok process_id => run_tx (quarantine_tx rt job process_id cell_text) db
      end
  end.

(** [terminalize_invalid_sterile_resident_job_before_filtering]. *)
Definition terminalize_invalid_sterile_resident_job_before_filtering (rt : Runtime) (job : Job)
    (db : Db W) : result bool ApiError * Db W :=
  if negb (bool_decide (job_kind job = JobKind.RunResidentProcess))
     || is_none (get (job_payload job) "sterileActivation")
  then (Ok false, db)
  else
    match recheck_sterile_resident_activation_on_connection rt job db with
    | Ok _ => (Ok false, db)
    | Err e =>
        if String.eqb (err_code e) "sterile_resident_activation_fence_mismatch" then
          match quarantine_invalid_sterile_resident_job rt job db with
          | (Ok _, db') => (Ok true, db')
          | (Err e', db') => (Err e', db')
          end
        else (Err e, db)
    end.

(** *** Granting the lease *)

(** [insert_lease_on_connection]. *)
Definition insert_lease_on_connection (lease : JobLease) : Tx W unit :=
  let! db := tx_get in
  match job_leases db !! lease_id lease with
  | Some _ => tx_throw (api_error_of_db_error UniqueViolation)
  | None =>
      tx_modify (set_job_leases
        (<[lease_id lease :=
            mkLeaseRow (lease_job_id lease) (lease_worker_id lease) (lease_status lease)
              (lease_attempt lease) (leased_at lease) (expires_at lease) (completed_at lease)
              (lease_error lease) None None None]> (job_leases db)))
  end.

Definition insert_claim_operation (worker : Uuid) (operation : option Uuid) (lease : Uuid) (now : Z) :
    Tx W unit :=
  match operation with
  | None => tx_ret tt
  | Some op =>
      let! db := tx_get in
      match lease_claim_operations db !! (worker, op) with
      | Some _ => tx_throw (api_error_of_db_error UniqueViolation)
      | None =>
          tx_modify (set_lease_claim_operations
            (<[(worker, op) := (lease, now)]> (lease_claim_operations db)))
      end
  end.

(** [generation as i64]. *)
Definition u64_as_i64 (n : Z) : Z := if (n <=? i64_max)%Z then n else (n - 2 ^ 64)%Z.

Definition resident_set_starting (lease : Uuid) (now : Z) (r : ResidentRow) : ResidentRow :=
  mkResidentRow (rp_sandbox_id r) (rp_tenant_id r) (rp_name r) (rp_generation r)
    (rp_desired_state r) ResidentProcessObservedState.Starting (Some lease)
    (rp_pid r) (rp_exited_at r) (rp_exit_code r) None None None None None now
    (rp_bootstrap_sha256 r) (rp_bootstrap_delivered_generation r)
    (rp_bootstrap_delivered_lease_id r) (rp_bootstrap_delivered_sha256 r)
    (rp_bootstrap_acknowledged_at r) (rp_sterile_cell_id r) (rp_sterile_lease_id r)
    (rp_sterile_lease_generation r)
    (rp_provider_isolation_version r) (rp_spec r) (rp_bootstrap_consumed_at r) (rp_started_at r)
    (rp_ready_at r) (rp_created_at r).

Definition start_resident_process (lease : JobLease) (now : Z) : Tx W unit :=
  if negb (bool_decide (job_kind (lease_job lease) = JobKind.RunResidentProcess)) then tx_ret tt
  else
    match as_u64 (index (job_payload (lease_job lease)) "generation") with
    | None => tx_throw (bad_request "resident generation is required")
    | Some generation =>
        let! process_id := tx_lift (resident_process_id_from_job (lease_job lease)) in
        let! db := tx_get in
        let '(affected, m) :=
          update_row process_id
            (fun r => bool_decide (rp_generation r = u64_as_i64 generation)
                      && bool_decide (rp_desired_state r = ResidentProcessDesiredState.Running))
            (resident_set_starting (lease_id lease) now) (resident_processes db) in
        check! affected
          else conflict_code "resident_process_generation_conflict"
                 "resident process generation changed before lease claim" in
        tx_modify (set_resident_processes m)
    end.

(** The lease [try_claim_job] builds from the job it was handed. *)
Definition granted_lease (rt : Runtime) (worker : Worker) (job : Job) (lease_seconds : option Z) :
    JobLease :=
  let now := utc_now rt in
  let attempt := (attempts job + 1)%Z in
  mkJobLease (new_uuid rt 0) (job_id job) (worker_id worker) LeaseStatus.Active attempt now
    (now + seconds (effective_lease_seconds lease_seconds)) None None
    (required_execution_class job) (job_set_claimed attempt now job).

(** The transaction body of [try_claim_job].  [worker] and [job] are the rows
    the candidate scan read earlier; only the worker's admission, the slot
    count and the job's [queued] status are checked again. *)
Definition try_claim_tx (rt : Runtime) (worker : Worker) (job : Job) (lease_seconds : option Z)
    (operation_id : option Uuid) : Tx W (option JobLease) :=
  let! locked := lock_worker_for_claim_on_connection (worker_id worker) in
  if negb locked then tx_ret None
  else
    let! placed := lock_apex_instruction_placement_on_connection worker job in
    if negb placed then tx_ret None
    else
      let! active_leases := active_lease_count_for_worker_on_connection (worker_id worker) in
      if (max_concurrent_jobs worker <=? active_leases)%Z then tx_ret None
      else
        let! _ := recheck_sterile_resident_activation_on_connection rt job in
        let now := utc_now rt in
        let lease := granted_lease rt worker job lease_seconds in
        let! db := tx_get in
        let '(affected, m) :=
          update_row (job_id job) is_queued
            (row_set_job (job_set_claimed (attempts job + 1) now)) (jobs db) in
        if negb affected then tx_ret None
        else
          let! _ := tx_modify (set_jobs m) in
          let! _ := insert_lease_on_connection lease in
          let! _ := bind_sandbox_placement_on_connection rt (lease_job lease) worker in
          let! _ := insert_claim_operation (worker_id worker) operation_id (lease_id lease) now in
          let! _ := apply_claimed_job_on_connection rt (lease_job lease) in
          let! _ := start_resident_process lease now in
          tx_ret (Some lease).

(** [worker_matches_provider_preference]: [Any] means a general-purpose
    (kubernetes) worker, a named preference only that provider. *)
Definition ascii_lower (a : Ascii.ascii) : Ascii.ascii :=
  let n := Ascii.N_of_ascii a in
  if is_ascii_uppercase n then Ascii.ascii_of_N (n + 32) else a.

Fixpoint to_ascii_lowercase (s : string) : string :=
  match s with
  | EmptyString => EmptyString
  | String a s' => String (ascii_lower a) (to_ascii_lowercase s')
  end.

Definition eq_ignore_ascii_case (a b : string) : bool :=
  String.eqb (to_ascii_lowercase a) (to_ascii_lowercase b).

Definition worker_matches_provider_preference (provider : string) (preference : ProviderPreference) :
    bool :=
  match preference with
  | ProviderPreference.Any => eq_ignore_ascii_case provider "kubernetes"
  | _ => eq_ignore_ascii_case (as_db_str preference) provider
  end.

Definition job_provider_preference (job : Job) : ProviderPreference :=
  match get (job_payload job) "provisionSpec" ≫= provision_spec_from_value with
  | Some spec => provider_preference spec
  | None => ProviderPreference.Any
  end.

(** [try_claim_job]: a granted lease commits; no grant or an error rolls
    back, and a stale sterile activation quarantines its job. *)
Definition try_claim_job (rt : Runtime) (worker : Worker) (job : Job) (lease_seconds : option Z)
    (operation_id : option Uuid) (db : Db W) : result (option JobLease) ApiError * Db W :=
  if negb (worker_matches_provider_preference (worker_provider worker)
             (job_provider_preference job))
  then (Ok None, db)
  else
    match try_claim_tx rt worker job lease_seconds operation_id db with
    | Ok (Some lease, db') => (Ok (Some lease), db')
    | Ok (None, _) => (Ok None, db)
    | Err e =>
        if String.eqb (err_code e) "sterile_resident_activation_fence_mismatch" then
          match quarantine_invalid_sterile_resident_job rt job db with
          | (Ok _, db') => (Ok None, db')
          | (Err e', db') => (Err e', db')
          end
        else (Err e, db)
    end.

End Leases.
