(* ===== verification/Workers.v ===== *)
(** * Workers: registration, heartbeat, liveness and drain

    [handlers/workers.rs] and the drain reconciliation of
    [handlers/leases.rs].  A typed drain closes a worker's admission, records
    a receipt and captures every lease the worker holds behind a fence with a
    hard deadline; the sweeper resolves the fences and retires the receipt
    once the deadline has passed. *)

From S2P Require Import Prelude CoreTypes Json Store Leases.
From stdpp Require Import sorting fin_maps.

(** ** Requests and replies *)

Record RegisterWorkerRequest : Type := mkRegisterWorkerRequest {
  register_name : string;
  register_provider : string;
  register_capabilities : list WorkerCapability;
  register_max_concurrent_jobs : option Z;
  register_labels : gmap string string
}.

Record WorkerHeartbeatRequest : Type := mkWorkerHeartbeatRequest {
  heartbeat_labels : gmap string string;
  heartbeat_max_concurrent_jobs : option Z;
  heartbeat_resource_envelope : option WorkerResourceEnvelope
}.

Record DrainWorkerRequest : Type := mkDrainWorkerRequest {
  drain_shutdown_id : Uuid;
  drain_hard_deadline : Z
}.

Record DrainLeaseFence : Type := mkDrainLeaseFence {
  dlf_lease_id : Uuid;
  dlf_job_id : Uuid;
  dlf_attempt : Z;
  dlf_outcome : option string;
  dlf_resolved_at : option Z
}.

Record DrainReceipt : Type := mkDrainReceipt {
  dr_shutdown_id : Uuid;
  dr_worker_id : Uuid;
  dr_hard_deadline : Z;
  dr_leases : list DrainLeaseFence
}.

Section Workers.
Context {W : Type} `{UuidLib} `{SerdeLib} `{JobEffects W}.
Implicit Type db : Db W.

(** [exists (select 1 from worker_drain_receipts where worker_id = .. and
    retired_at is null)]. *)
Definition has_open_receipt (db : Db W) (id : Uuid) : bool :=
  existsb (fun kr => bool_decide (receipt_worker_id kr.2 = id) && is_none (receipt_retired_at kr.2))
    (map_to_list (worker_drain_receipts db)).

Definition fetch_worker (db : Db W) (id : Uuid) : result Worker ApiError :=
  match workers db !! id with
  | Some row => Ok (row_worker row)
  | None => Err (not_found "worker not found")
  end.

(** ** Registration *)

Definition validate_max_concurrent_jobs (max_concurrent_jobs : Z) : result Z ApiError :=
  if (max_concurrent_jobs =? 0)%Z
  then Err (bad_request "max_concurrent_jobs must be greater than 0")
  else Ok max_concurrent_jobs.

Definition has_identity (tenant name provider : string) (w : Worker) : bool :=
  String.eqb (worker_tenant_id w) tenant && String.eqb (worker_name w) name
  && String.eqb (worker_provider w) provider.

Definition fetch_worker_by_logical_identity (db : Db W) (tenant name provider : string) :
    option Worker :=
  match list_find (fun kr => has_identity tenant name provider (row_worker kr.2) = true)
          (map_to_list (workers db)) with
  | Some (_, kr) => Some (row_worker kr.2)
  | None => None
  end.

(** [insert_worker]: the identity is unique across the table. *)
Definition insert_worker (worker : Worker) (token_hash : string) (now : Z) (db : Db W) :
    result (Db W) ApiError :=
  if is_some (workers db !! worker_id worker)
     || is_some (fetch_worker_by_logical_identity db (worker_tenant_id worker)
                   (worker_name worker) (worker_provider worker))
  then Err (api_error_of_db_error UniqueViolation)
  else Ok (set_workers (<[worker_id worker := mkWorkerRow worker token_hash 1 now]> (workers db)) db).

(** The update a known identity gets: an open drain receipt keeps the worker
    draining, the session generation moves on. *)
Definition reregister_row (draining : bool) (worker : Worker) (token_hash : string) (now : Z)
    (r : WorkerRow) : WorkerRow :=
  let w := row_worker r in
  mkWorkerRow
    (mkWorker (worker_id w) (worker_tenant_id w) (worker_name w)
       (if draining then WorkerStatus.Draining else WorkerStatus.Registered)
       (worker_provider w) (capabilities worker) (max_concurrent_jobs worker) (labels worker)
       (resource_envelope w) now None)
    token_hash (row_session_generation r + 1) now.

Definition register_worker (rt : Runtime) (tenant_id : string) (request : RegisterWorkerRequest)
    (token_hash : string) (db : Db W) : result Worker ApiError * Db W :=
  if trim_is_empty (register_name request) then (Err (bad_request "worker name is required"), db)
  else if trim_is_empty (register_provider request) then
    (Err (bad_request "worker provider is required"), db)
  else if match register_capabilities request with [] => true | _ => false end then
    (Err (bad_request "worker must report at least one capability"), db)
  else
    match validate_max_concurrent_jobs (default 1%Z (register_max_concurrent_jobs request)) with
    | Err e => (Err e, db)
    | Ok max_concurrent =>
        let now := utc_now rt in
        let existing := fetch_worker_by_logical_identity db tenant_id
                          (trim (register_name request)) (trim (register_provider request)) in
        let id := match existing with Some w => worker_id w | None => new_uuid rt 0 end in
        let worker :=
          mkWorker id tenant_id (register_name request) WorkerStatus.Registered
            (register_provider request) (register_capabilities request) max_concurrent
            (register_labels request) None now None in
        match existing with
        | Some _ =>
            let db' := set_workers
              (update_row id (fun _ => true)
                 (reregister_row (has_open_receipt db id) worker token_hash now) (workers db)).2 db in
            (fetch_worker db' id, db')
        | None =>
            match insert_worker worker token_hash now db with
            | Err e => (Err e, db)
            | Ok db' => (fetch_worker db' id, db')
            end
        end
    end.

(** ** Heartbeat *)

Definition WORKER_HEARTBEAT_HISTORY_INTERVAL_SECS : Z := 30.

(** [insert_worker_heartbeat]: at most one history row per interval. *)
Definition insert_worker_heartbeat (rt : Runtime) (id : Uuid) (labels : gmap string string)
    (created_at : Z) (db : Db W) : Db W :=
  let cutoff := (created_at - seconds WORKER_HEARTBEAT_HISTORY_INTERVAL_SECS)%Z in
  if existsb (fun kr => bool_decide (hb_worker_id kr.2 = id) && (cutoff <=? hb_created_at kr.2)%Z)
       (map_to_list (worker_heartbeats db))
  then db
  else set_worker_heartbeats
         (<[new_uuid rt 0 := mkHeartbeatRow id labels created_at]> (worker_heartbeats db)) db.

(** The one update the four statements of [heartbeat_worker] share; capacity
    and envelope change only when the worker reports them. *)
Definition heartbeat_row (open_receipt : bool) (request : WorkerHeartbeatRequest) (now : Z)
    (w : Worker) : Worker :=
  mkWorker (worker_id w) (worker_tenant_id w) (worker_name w)
    (if open_receipt then WorkerStatus.Draining
     else if bool_decide (worker_status w = WorkerStatus.Draining) then worker_status w
     else WorkerStatus.Online)
    (worker_provider w) (capabilities w)
    (default (max_concurrent_jobs w) (heartbeat_max_concurrent_jobs request))
    (heartbeat_labels request)
    (match heartbeat_resource_envelope request with
     | Some e => Some e
     | None => resource_envelope w
     end)
    (registered_at w) (Some now).

Definition heartbeat_worker (rt : Runtime) (id : Uuid) (request : WorkerHeartbeatRequest)
    (db : Db W) : result Worker ApiError * Db W :=
  match match heartbeat_max_concurrent_jobs request with
        | None => Ok tt
        | Some m => let? _ := validate_max_concurrent_jobs m in Ok tt
        end with
  | Err e => (Err e, db)
  | Ok _ =>
      let now := utc_now rt in
      match update_row id (fun _ => true)
              (row_set_worker (heartbeat_row (has_open_receipt db id) request now)) (workers db) with
      | (false, _) => (Err (not_found "worker not found"), db)
      | (true, m) =>
          let db' := insert_worker_heartbeat rt id (heartbeat_labels request) now
                       (set_workers m db) in
          (fetch_worker db' id, db')
      end
  end.

(** ** Liveness *)

Definition is_stale (now : Z) (w : Worker) : bool :=
  (bool_decide (worker_status w = WorkerStatus.Online)
   || bool_decide (worker_status w = WorkerStatus.Draining))
  && (default (registered_at w) (last_heartbeat_at w) <? now - seconds 90)%Z.

Definition heartbeat_le (a b : Uuid * HeartbeatRow) : Prop :=
  (hb_created_at a.2 < hb_created_at b.2)%Z \/
  (hb_created_at a.2 = hb_created_at b.2 /\ (a.1 <= b.1)%N).

#[local] Instance heartbeat_le_dec : RelDecision heartbeat_le.
Proof. intros a b. unfold heartbeat_le. apply _. Defined.

Definition HEARTBEAT_RETENTION_BATCH : nat := N.to_nat 1000.

(** The oldest thousand history rows past the seven-day retention. *)
Definition retired_heartbeats (now : Z) (db : Db W) : list Uuid :=
  (take HEARTBEAT_RETENTION_BATCH
    (merge_sort heartbeat_le
      (List.filter (fun kr => hb_created_at kr.2 <? now - seconds (7 * 86400))%Z
         (map_to_list (worker_heartbeats db))))).*1.

Definition reconcile_worker_liveness (rt : Runtime) (db : Db W) : Db W :=
  let now := utc_now rt in
  let db1 := set_workers
    (update_rows (fun _ r => is_stale now (row_worker r))
       (row_set_worker (worker_set_status WorkerStatus.Offline)) (workers db)) db in
  set_worker_heartbeats
    (foldr delete (worker_heartbeats db1) (retired_heartbeats now db1)) db1.

(** ** Drain *)

Definition fence_of_row (key : Uuid * Uuid) (f : DrainFenceRow) : DrainLeaseFence :=
  mkDrainLeaseFence key.2 (fence_job_id f) (fence_attempt f) (fence_outcome f) (fence_resolved_at f).

Definition fence_le (a b : DrainLeaseFence) : Prop := (dlf_lease_id a <= dlf_lease_id b)%N.

#[local] Instance fence_le_dec : RelDecision fence_le.
Proof. intros a b. unfold fence_le. apply _. Defined.

Definition fetch_drain_receipt_on_connection (shutdown_id : Uuid) : Tx W DrainReceipt :=
  let! db := tx_get in
  match worker_drain_receipts db !! shutdown_id with
  | None => tx_throw (api_error_of_db_error OtherDbError)
  | Some r =>
      tx_ret (mkDrainReceipt shutdown_id (receipt_worker_id r) (receipt_hard_deadline r)
        (merge_sort fence_le
          (omap (fun kf => if bool_decide (kf.1.1 = shutdown_id)
                           then Some (fence_of_row kf.1 kf.2) else None)
             (map_to_list (worker_drain_lease_fences db)))))
  end.

(** One fence per active lease of the worker. *)
Definition captured_fences (shutdown_id worker : Uuid) (deadline : Z) (db : Db W) :
    gmap (Uuid * Uuid) DrainFenceRow :=
  map_fold (fun lid l acc =>
    if bool_decide (lr_worker_id l = worker) && is_active l then
      <[(shutdown_id, lid) :=
          mkDrainFenceRow worker (lr_job_id l) (lr_attempt l) deadline None None]> acc
    else acc) ∅ (job_leases db).

Definition cap_leases (worker : Uuid) (deadline : Z) (m : gmap Uuid LeaseRow) : gmap Uuid LeaseRow :=
  update_rows (fun _ l => bool_decide (lr_worker_id l = worker) && is_active l
                          && (deadline <? lr_expires_at l)%Z)
    (lease_set_expires_at deadline) m.

(** The transaction body of a typed [drain_worker]. *)
Definition drain_tx (rt : Runtime) (tenant_id : string) (worker : Uuid) (request : DrainWorkerRequest) :
    Tx W DrainReceipt :=
  let now := utc_now rt in
  let sid := drain_shutdown_id request in
  let deadline := drain_hard_deadline request in
  let! db := tx_get in
  check! is_some (workers db !! worker) else not_found "worker not found" in
  let! _ :=
    match worker_drain_receipts db !! sid with
    | Some existing =>
        if negb (bool_decide (receipt_worker_id existing = worker))
           || negb (String.eqb (receipt_tenant_id existing) tenant_id)
           || negb (bool_decide (receipt_hard_deadline existing = deadline))
        then tx_throw (conflict_code "worker_drain_receipt_conflict"
                         "shutdown id is already bound to a different drain fence")
        else tx_ret tt
    | None =>
        if (deadline <=? now)%Z then
          tx_throw (bad_request "drain hard deadline must be in the future")
        else if (now + seconds 3600 <? deadline)%Z then
          tx_throw (bad_request "drain hard deadline cannot exceed one hour")
        else
          let '(affected, m) :=
            update_row worker
              (fun r => worker_accepts_claims (worker_status (row_worker r)))
              (row_set_worker (worker_set_status WorkerStatus.Draining)) (workers db) in
          check! affected
            else conflict_code "worker_not_drainable" "worker is not online or draining" in
          tx_modify (fun db =>
            set_job_leases (cap_leases worker deadline (job_leases db))
            (set_worker_drain_lease_fences
              (captured_fences sid worker deadline db ∪ worker_drain_lease_fences db)
            (set_worker_drain_receipts
              (<[sid := mkDrainReceiptRow worker tenant_id deadline now None]>
                 (worker_drain_receipts db))
            (set_workers m db))))
    end in
  fetch_drain_receipt_on_connection sid.

(** [drain_worker]: without a request the status alone changes. *)
Definition drain_worker (rt : Runtime) (tenant_id : string) (worker : Uuid)
    (request : option DrainWorkerRequest) (db : Db W) :
    result (Worker * option DrainReceipt) ApiError * Db W :=
  match request with
  | None =>
      let db' := set_workers
        (update_row worker (fun _ => true)
           (row_set_worker (worker_set_status WorkerStatus.Draining)) (workers db)).2 db in
      (let? w := fetch_worker db' worker in Ok (w, None), db')
  | Some request =>
      match run_tx (drain_tx rt tenant_id worker request) db with
      | (Err e, db') => (Err e, db')
      | (Ok receipt, db') => (let? w := fetch_worker db' worker in Ok (w, Some receipt), db')
      end
  end.

(** ** Reconciling due fences: [reconcile_due_worker_drain_fences] *)

Definition DRAIN_FENCE_BATCH_SIZE : nat := N.to_nat 1000.

Definition fence_due_le (a b : (Uuid * Uuid) * DrainFenceRow) : Prop :=
  (fence_hard_deadline a.2 < fence_hard_deadline b.2)%Z \/
  (fence_hard_deadline a.2 = fence_hard_deadline b.2 /\ (a.1.2 <= b.1.2)%N).

#[local] Instance fence_due_le_dec : RelDecision fence_due_le.
Proof. intros a b. unfold fence_due_le. apply _. Defined.

Definition fence_is_due (now : Z) (f : DrainFenceRow) : bool :=
  is_none (fence_resolved_at f) && (fence_hard_deadline f <=? now)%Z.

Definition due_fences (db : Db W) (now : Z) : list ((Uuid * Uuid) * DrainFenceRow) :=
  take DRAIN_FENCE_BATCH_SIZE
    (merge_sort fence_due_le
      (List.filter (fun kf => fence_is_due now kf.2) (map_to_list (worker_drain_lease_fences db)))).

(** [resolve_worker_drain_fence]. *)
Definition resolve_worker_drain_fence (key : Uuid * Uuid) (outcome : string) (at_ : Z) (db : Db W) :
    Db W :=
  set_worker_drain_lease_fences
    (update_row key (fun f => is_none (fence_resolved_at f)) (fence_resolve outcome at_)
       (worker_drain_lease_fences db)).2 db.

Definition lease_status_text (db : Db W) (id : Uuid) : option LeaseStatus :=
  lr_status <$> job_leases db !! id.

(** One due fence: a fence whose lease no longer carries the captured worker,
    job and attempt is stale; an active lease is expired first. *)
Definition reconcile_fence (rt : Runtime) (now : Z) (kf : (Uuid * Uuid) * DrainFenceRow) (db : Db W) :
    result unit ApiError * Db W :=
  let '(key, f) := kf in
  match job_leases db !! key.2 with
  | None => (Ok tt, db)
  | Some l =>
      if negb (bool_decide (lr_worker_id l = fence_worker_id f)
               && bool_decide (lr_job_id l = fence_job_id f)
               && bool_decide (lr_attempt l = fence_attempt f))
      then (Ok tt, resolve_worker_drain_fence key "stale_fence" now db)
      else
        match (if is_active l then expire_lease_if_still_active rt key.2 now db else (Ok tt, db)) with
        | (Err e, db') => (Err e, db')
        | (Ok _, db') =>
            match lease_status_text db' key.2 with
            | None => (Err (api_error_of_db_error OtherDbError), db')
            | Some status =>
                if bool_decide (status = LeaseStatus.Active) then (Ok tt, db')
                else (Ok tt, resolve_worker_drain_fence key (as_db_str status) now db')
            end
        end
  end.

Fixpoint reconcile_each (rts : nat -> Runtime) (now : Z)
    (kfs : list ((Uuid * Uuid) * DrainFenceRow)) (db : Db W) : result unit ApiError * Db W :=
  match kfs with
  | [] => (Ok tt, db)
  | kf :: kfs' =>
      match reconcile_fence (rts 0) now kf db with
      | (Ok _, db') => reconcile_each (fun n => rts (S n)) now kfs' db'
      | (Err e, db') => (Err e, db')
      end
  end.

(** A receipt past its deadline with no open fence is retired. *)
Definition receipt_retires (now : Z) (db : Db W) (sid : Uuid) (r : DrainReceiptRow) : bool :=
  is_none (receipt_retired_at r) && (receipt_hard_deadline r <=? now)%Z
  && negb (existsb (fun kf => bool_decide (kf.1.1 = sid) && is_none (fence_resolved_at kf.2))
             (map_to_list (worker_drain_lease_fences db))).

Definition receipt_set_retired (now : Z) (r : DrainReceiptRow) : DrainReceiptRow :=
  mkDrainReceiptRow (receipt_worker_id r) (receipt_tenant_id r) (receipt_hard_deadline r)
    (receipt_created_at r) (Some now).

Definition retire_receipts (now : Z) (db : Db W) : Db W :=
  set_worker_drain_receipts
    (update_rows (receipt_retires now db) (receipt_set_retired now) (worker_drain_receipts db)) db.

Definition reconcile_due_worker_drain_fences (rts : nat -> Runtime) (now : Z) (db : Db W) :
    result unit ApiError * Db W :=
  match reconcile_each rts now (due_fences db now) db with
  | (Ok _, db') => (Ok tt, retire_receipts now db')
  | (Err e, db') => (Err e, db')
  end.

End Workers.
