(* ===== verification/Protocol.v ===== *)
(** * The lease protocol, abstractly

    What the scheduler promises about jobs, leases and drains, as a small
    transition system over the tables: a side effect, a grant, the end of a
    lease, an adjustment of live leases, a drain, a change of worker rows and
    the settling of drain fences.  [protocol_inv] is the invariant these
    transitions keep; [Scheduler.v] shows that every operation of the code is
    a sequence of them. *)

From S2P Require Import Prelude CoreTypes Json Store Leases Workers.
From stdpp Require Import fin_maps.

(** ** Evolution of the job table *)

Lemma job_retired_status r r' : job_retired r r' -> is_queued r' = false.
Proof. intros (_ & Hq & _). apply bool_decide_eq_false. done. Qed.

#[global] Instance jobs_evolve_preorder : PreOrder jobs_evolve.
Proof.
  split.
  - intros m. split; [eauto | naive_solver].
  - intros m1 m2 m3 [H1 N1] [H2 N2]. split.
    + intros id r Hr. destruct (H1 _ _ Hr) as (r' & Hr' & [->|Hret]); [by eauto|].
      destruct (H2 _ _ Hr') as (r'' & Hr'' & [->|Hret']); [by eauto|].
      exfalso. destruct Hret' as [Hq _]. by rewrite (job_retired_status _ _ Hret) in Hq.
    + intros id r'' Hr'' Hnone. destruct (m2 !! id) as [r'|] eqn:E; [|by eauto].
      destruct (H2 _ _ E) as (r3 & Hr3 & Hev). rewrite Hr'' in Hr3. simplify_eq.
      destruct (N1 _ _ E Hnone) as [He|(r & He & Hret)].
      * destruct Hev as [->|Hret]; [by left | right; eauto].
      * destruct Hev as [->|Hret']; [right; by eauto|].
        exfalso. destruct Hret' as [Hq _]. by rewrite (job_retired_status _ _ Hret) in Hq.
Qed.

#[global] Instance core_frame_preorder {W} : PreOrder (core_frame (W := W)).
Proof.
  split.
  - intros db. by constructor.
  - intros db1 db2 db3 [] []. constructor; try congruence. by etrans.
Qed.

#[global] Instance effect_frame_preorder {W} : PreOrder (effect_frame (W := W)).
Proof.
  split.
  - intros db. by constructor.
  - intros db1 db2 db3 [] []. constructor; [by etrans | congruence].
Qed.

(** Every existing job keeps its key columns. *)
Lemma jobs_evolve_lookup m m' id r :
  jobs_evolve m m' -> m !! id = Some r ->
  exists r', m' !! id = Some r' /\ job_id (row_job r') = job_id (row_job r) /\
    job_kind (row_job r') = job_kind (row_job r) /\
    attempts (row_job r') = attempts (row_job r) /\
    max_attempts (row_job r') = max_attempts (row_job r).
Proof.
  intros [H _] Hr. destruct (H _ _ Hr) as (r' & Hr' & [->|Hret]); [naive_solver|].
  exists r'. destruct Hret as (_ & _ & _ & ? & ? & ? & ?). naive_solver.
Qed.

(** A job that is leased or finished is left alone. *)
Lemma jobs_evolve_settled m m' id r :
  jobs_evolve m m' -> m !! id = Some r -> is_queued r = false -> m' !! id = Some r.
Proof.
  intros [H _] Hr Hq. destruct (H _ _ Hr) as (r' & Hr' & [->|[Hq' _]]); [done|congruence].
Qed.

(** A job that is leased afterwards was leased, unchanged, before. *)
Lemma jobs_evolve_leased m m' id r' :
  jobs_evolve m m' -> m' !! id = Some r' -> job_status (row_job r') = JobStatus.Leased ->
  m !! id = Some r'.
Proof.
  intros [H N] Hr' Hl. destruct (m !! id) as [r|] eqn:E.
  - destruct (H _ _ E) as (r2 & Hr2 & [->|Hret]); simplify_eq; [done|].
    destruct Hret as (_ & _ & Hnl & _). done.
  - destruct (N _ _ Hr' E) as [(Hq & _)|(r & _ & (_ & _ & Hnl & _))]; [|done].
    apply bool_decide_eq_true in Hq. congruence.
Qed.

Lemma jobs_evolve_insert m m' id r x :
  jobs_evolve m m' -> m !! id = Some r -> jobs_evolve (<[id := x]> m) (<[id := x]> m').
Proof.
  intros [H N] Hr. split.
  - intros k rk. destruct (decide (k = id)) as [->|Hne].
    + rewrite !lookup_insert_eq. intros [= ->]. eauto.
    + rewrite !lookup_insert_ne by done. apply H.
  - intros k rk. destruct (decide (k = id)) as [->|Hne].
    + by rewrite !lookup_insert_eq.
    + rewrite !lookup_insert_ne by done. apply N.
Qed.

(** ** The invariant *)

Section Protocol.
Context {W : Type}.
Implicit Type db : Db W.

Definition open_receipt db (sid w : Uuid) (deadline : Z) : Prop :=
  exists r, worker_drain_receipts db !! sid = Some r /\ receipt_worker_id r = w /\
    receipt_hard_deadline r = deadline /\ receipt_retired_at r = None.

(** An unresolved fence for exactly this worker, job and attempt. *)
Definition captured db (sid lid : Uuid) (l : LeaseRow) (deadline : Z) : Prop :=
  exists f, worker_drain_lease_fences db !! (sid, lid) = Some f /\
    fence_worker_id f = lr_worker_id l /\ fence_job_id f = lr_job_id l /\
    fence_attempt f = lr_attempt l /\ fence_hard_deadline f = deadline /\
    fence_resolved_at f = None.

Definition active_lease db (lid : Uuid) (l : LeaseRow) : Prop :=
  job_leases db !! lid = Some l /\ is_active l = true.

Record protocol_inv db : Prop := mkProtocolInv {
  inv_keyed id r : jobs db !! id = Some r -> job_id (row_job r) = id;
  inv_attempts id r : jobs db !! id = Some r ->
    (0 <= attempts (row_job r) <= max_attempts (row_job r))%Z /\
    (is_queued r = true -> (attempts (row_job r) < max_attempts (row_job r))%Z);
  inv_lease_job lid l : job_leases db !! lid = Some l -> is_Some (jobs db !! lr_job_id l);
  inv_active lid l : active_lease db lid l ->
    exists r, jobs db !! lr_job_id l = Some r /\
      job_status (row_job r) = JobStatus.Leased /\ attempts (row_job r) = lr_attempt l;
  inv_unique lid l lid' l' : active_lease db lid l -> active_lease db lid' l' ->
    lr_job_id l = lr_job_id l' -> lid = lid';
  inv_leased id r : jobs db !! id = Some r -> job_status (row_job r) = JobStatus.Leased ->
    exists lid l, active_lease db lid l /\ lr_job_id l = id;
  inv_drain_closed sid w d : open_receipt db sid w d ->
    exists wr, workers db !! w = Some wr /\
      worker_accepts_claims (worker_status (row_worker wr)) = false;
  inv_drain_captured sid w d lid l : open_receipt db sid w d -> active_lease db lid l ->
    lr_worker_id l = w -> captured db sid lid l d /\ (lr_expires_at l <= d)%Z
}.

(** ** Transitions *)

Definition same_identity (l l' : LeaseRow) : Prop :=
  lr_job_id l' = lr_job_id l /\ lr_worker_id l' = lr_worker_id l /\
  lr_attempt l' = lr_attempt l /\ lr_leased_at l' = lr_leased_at l.

(** An adjusted lease keeps its identity and status, an ended one is left
    alone, and no live lease outgrows a fence that captures it. *)
Definition lease_adjusted db (lid : Uuid) (l l' : LeaseRow) : Prop :=
  l' = l \/
  (is_active l = true /\ lr_status l' = lr_status l /\ same_identity l l' /\
   (lr_expires_at l' = lr_expires_at l \/
    forall sid d, captured db sid lid l d -> (lr_expires_at l' <= d)%Z)).

Definition fence_settled db (key : Uuid * Uuid) (f : DrainFenceRow) : Prop :=
  forall l, active_lease db key.2 l ->
    ~ (fence_worker_id f = lr_worker_id l /\ fence_job_id f = lr_job_id l /\
       fence_attempt f = lr_attempt l).

Definition same_drains db db' : Prop :=
  worker_drain_receipts db' = worker_drain_receipts db /\
  worker_drain_lease_fences db' = worker_drain_lease_fences db.

Inductive protocol_step db db' : Prop :=
| ps_effect : core_frame db db' -> protocol_step db db'
| ps_grant lid l r now wr :
    jobs db !! lr_job_id l = Some r -> is_queued r = true -> job_leases db !! lid = None ->
    lr_status l = LeaseStatus.Active -> (1 <= lr_attempt l <= max_attempts (row_job r))%Z ->
    workers db !! lr_worker_id l = Some wr ->
    worker_accepts_claims (worker_status (row_worker wr)) = true ->
    job_leases db' = <[lid := l]> (job_leases db) -> workers db' = workers db ->
    same_drains db db' ->
    jobs_evolve (<[lr_job_id l := row_set_job (job_set_claimed (lr_attempt l) now) r]> (jobs db))
      (jobs db') ->
    protocol_step db db'
| ps_finish lid l l' r status error now :
    active_lease db lid l -> same_identity l l' -> is_active l' = false ->
    jobs db !! lr_job_id l = Some r -> status <> JobStatus.Leased ->
    (status = JobStatus.Queued -> (attempts (row_job r) < max_attempts (row_job r))%Z) ->
    job_leases db' = <[lid := l']> (job_leases db) -> workers db' = workers db ->
    worker_drain_receipts db' = worker_drain_receipts db ->
    (forall key, key.2 <> lid ->
       worker_drain_lease_fences db' !! key = worker_drain_lease_fences db !! key) ->
    jobs_evolve (<[lr_job_id l := row_set_job (job_set_status status error now) r]> (jobs db))
      (jobs db') ->
    protocol_step db db'
| ps_adjust :
    (forall lid, option_relation (lease_adjusted db lid) (fun _ => False) (fun _ => False)
       (job_leases db !! lid) (job_leases db' !! lid)) ->
    jobs_evolve (jobs db) (jobs db') -> workers db' = workers db -> same_drains db db' ->
    protocol_step db db'
| ps_placement id r payload class now :
    jobs db !! id = Some r -> is_queued r = true ->
    jobs db' = <[id := row_set_job (job_set_placement payload class now) r]> (jobs db) ->
    job_leases db' = job_leases db -> workers db' = workers db -> same_drains db db' ->
    protocol_step db db'
| ps_workers :
    (forall w, is_Some (workers db !! w) -> is_Some (workers db' !! w)) ->
    (forall w wr', workers db' !! w = Some wr' -> workers db !! w = Some wr' \/
       has_open_receipt db w = false \/
       worker_accepts_claims (worker_status (row_worker wr')) = false) ->
    jobs db' = jobs db -> job_leases db' = job_leases db -> same_drains db db' ->
    protocol_step db db'
| ps_drain sid w wr receipt :
    worker_drain_receipts db !! sid = None -> workers db !! w = Some wr ->
    worker_accepts_claims (worker_status (row_worker wr)) = true ->
    receipt_worker_id receipt = w ->
    workers db' = <[w := row_set_worker (worker_set_status WorkerStatus.Draining) wr]> (workers db) ->
    worker_drain_receipts db' = <[sid := receipt]> (worker_drain_receipts db) ->
    worker_drain_lease_fences db' =
      captured_fences sid w (receipt_hard_deadline receipt) db ∪ worker_drain_lease_fences db ->
    job_leases db' = cap_leases w (receipt_hard_deadline receipt) (job_leases db) ->
    jobs db' = jobs db ->
    protocol_step db db'
| ps_settle key f outcome now :
    worker_drain_lease_fences db !! key = Some f -> fence_settled db key f ->
    worker_drain_lease_fences db' =
      <[key := fence_resolve outcome now f]> (worker_drain_lease_fences db) ->
    worker_drain_receipts db' = worker_drain_receipts db ->
    jobs db' = jobs db -> job_leases db' = job_leases db -> workers db' = workers db ->
    protocol_step db db'
| ps_retire :
    (forall sid r', worker_drain_receipts db' !! sid = Some r' -> receipt_retired_at r' = None ->
       worker_drain_receipts db !! sid = Some r') ->
    jobs db' = jobs db -> job_leases db' = job_leases db -> workers db' = workers db ->
    worker_drain_lease_fences db' = worker_drain_lease_fences db ->
    protocol_step db db'.

(** ** Facts about receipts, fences and capped leases *)

Lemma has_open_receipt_true db w :
  has_open_receipt db w = true <-> exists sid d, open_receipt db sid w d.
Proof.
  unfold has_open_receipt. rewrite existsb_exists. split.
  - intros ([sid r] & Hin & Hc). apply list_elem_of_In, elem_of_map_to_list in Hin.
    simpl in Hc. bool_to_prop. exists sid, (receipt_hard_deadline r), r.
    split; [done|]. split; [done|]. split; [done|].
    unfold is_none, is_some in *. by destruct (receipt_retired_at r).
  - intros (sid & d & r & Hr & Hw & _ & Hn). exists (sid, r). split.
    + by apply list_elem_of_In, elem_of_map_to_list.
    + simpl. rewrite Hn, bool_decide_eq_true_2; done.
Qed.

Lemma captured_fences_lookup sid w d db s lid :
  captured_fences sid w d db !! (s, lid) =
  if bool_decide (s = sid) then
    l ← job_leases db !! lid;
    if bool_decide (lr_worker_id l = w) && is_active l
    then Some (mkDrainFenceRow w (lr_job_id l) (lr_attempt l) d None None) else None
  else None.
Proof.
  unfold captured_fences. apply (map_fold_weak_ind (fun acc m =>
    acc !! (s, lid) =
    if bool_decide (s = sid) then
      l ← m !! lid;
      if bool_decide (lr_worker_id l = w) && is_active l
      then Some (mkDrainFenceRow w (lr_job_id l) (lr_attempt l) d None None) else None
    else None)).
  - rewrite !lookup_empty. by destruct (bool_decide _).
  - intros i l m acc Hi IH. destruct (decide (lid = i)) as [->|Hne].
    + rewrite Hi in IH. rewrite lookup_insert_eq. simpl.
      case_bool_decide as Hs; [subst s|].
      * destruct (bool_decide (lr_worker_id l = w) && is_active l) eqn:E;
          [by rewrite lookup_insert_eq | by rewrite IH].
      * destruct (bool_decide (lr_worker_id l = w) && is_active l);
          [rewrite lookup_insert_ne by congruence|]; by rewrite IH.
    + rewrite lookup_insert_ne by done.
      destruct (bool_decide (lr_worker_id l = w) && is_active l);
        [rewrite lookup_insert_ne by congruence|]; by rewrite IH.
Qed.

Lemma cap_leases_lookup w d m lid :
  cap_leases w d m !! lid =
  (fun l => if bool_decide (lr_worker_id l = w) && is_active l && (d <? lr_expires_at l)%Z
            then lease_set_expires_at d l else l) <$> m !! lid.
Proof. apply lookup_update_rows. Qed.

(** ** Jobs and leases are preserved

    The clauses of the invariant that speak of jobs and leases only depend on
    those tables. *)

Definition jobs_ok (js : gmap Uuid JobRow) : Prop :=
  forall id r, js !! id = Some r -> job_id (row_job r) = id /\
    (0 <= attempts (row_job r) <= max_attempts (row_job r))%Z /\
    (is_queued r = true -> (attempts (row_job r) < max_attempts (row_job r))%Z).

Definition leases_ok (js : gmap Uuid JobRow) (ls : gmap Uuid LeaseRow) : Prop :=
  (forall lid l, ls !! lid = Some l -> is_Some (js !! lr_job_id l)) /\
  (forall lid l, ls !! lid = Some l -> is_active l = true ->
     exists r, js !! lr_job_id l = Some r /\
       job_status (row_job r) = JobStatus.Leased /\ attempts (row_job r) = lr_attempt l) /\
  (forall lid l lid' l', ls !! lid = Some l -> is_active l = true ->
     ls !! lid' = Some l' -> is_active l' = true -> lr_job_id l = lr_job_id l' -> lid = lid') /\
  (forall id r, js !! id = Some r -> job_status (row_job r) = JobStatus.Leased ->
     exists lid l, ls !! lid = Some l /\ is_active l = true /\ lr_job_id l = id).

Definition drains_ok db : Prop :=
  (forall sid w d, open_receipt db sid w d ->
     exists wr, workers db !! w = Some wr /\
       worker_accepts_claims (worker_status (row_worker wr)) = false) /\
  (forall sid w d lid l, open_receipt db sid w d -> active_lease db lid l ->
     lr_worker_id l = w -> captured db sid lid l d /\ (lr_expires_at l <= d)%Z).

Lemma protocol_inv_split db :
  protocol_inv db <-> jobs_ok (jobs db) /\ leases_ok (jobs db) (job_leases db) /\ drains_ok db.
Proof.
  split.
  - intros [K A LJ AC U L D1 D2]. split; [|split].
    + intros id r Hr. destruct (A _ _ Hr). eauto.
    + unfold active_lease in *. split; [|split; [|split]]; eauto.
      intros id r Hr Hl. destruct (L _ _ Hr Hl) as (lid & l & [? ?] & ?). eauto.
    + by split.
  - intros (J & (LJ & AC & U & L) & D1 & D2). constructor.
    + intros id r Hr. by destruct (J _ _ Hr).
    + intros id r Hr. by destruct (J _ _ Hr) as (_ & ? & ?).
    + exact LJ.
    + intros lid l [? ?]. eauto.
    + intros lid l lid' l' [? ?] [? ?]. eauto.
    + intros id r Hr Hl. destruct (L _ _ Hr Hl) as (lid & l & ? & ? & ?).
      exists lid, l. by repeat split.
    + exact D1.
    + exact D2.
Qed.

Lemma jobs_ok_evolve m m' : jobs_ok m -> jobs_evolve m m' -> jobs_ok m'.
Proof.
  intros J E id r' Hr'. destruct (m !! id) as [r|] eqn:Hr.
  - destruct E as [E _]. destruct (E _ _ Hr) as (r2 & Hr2 & [->|Hret]); simplify_eq; [by apply J|].
    destruct (J _ _ Hr) as (Hid & Ha & _). pose proof (job_retired_status _ _ Hret) as Hq.
    destruct Hret as (_ & _ & _ & -> & _ & -> & ->). split; [done|]. split; [done|]. congruence.
  - destruct E as [_ N]. destruct (N _ _ Hr' Hr) as [(Hq & Hid & Ha & Hm)|(r & He & Hret)].
    + split; [done|]. rewrite Ha. split; [lia|]. lia.
    + pose proof (job_retired_status _ _ Hret) as Hq. destruct He as (_ & Hid & Ha & Hm).
      destruct Hret as (_ & _ & _ & Hid' & _ & Ha' & Hm').
      split; [congruence|]. split; [|congruence]. rewrite Ha', Hm', Ha. lia.
Qed.

Lemma leases_ok_evolve m m' ls : leases_ok m ls -> jobs_evolve m m' -> leases_ok m' ls.
Proof.
  intros (LJ & AC & U & L) E. split; [|split; [|split]].
  - intros lid l Hl. destruct (LJ _ _ Hl) as [r Hr].
    destruct (jobs_evolve_lookup _ _ _ _ E Hr) as (r' & ? & _). eauto.
  - intros lid l Hl Ha. destruct (AC _ _ Hl Ha) as (r & Hr & Hs & ?). exists r. split; [|done].
    eapply jobs_evolve_settled; [done..|]. apply bool_decide_eq_false. by rewrite Hs.
  - done.
  - intros id r Hr Hs. eapply L; [by eapply jobs_evolve_leased | done].
Qed.

(** Writing one job that keeps its identity and attempt bounds. *)
Lemma jobs_ok_insert m id r r' :
  jobs_ok m -> m !! id = Some r -> job_id (row_job r') = job_id (row_job r) ->
  (0 <= attempts (row_job r') <= max_attempts (row_job r'))%Z ->
  (is_queued r' = true -> (attempts (row_job r') < max_attempts (row_job r'))%Z) ->
  jobs_ok (<[id := r']> m).
Proof.
  intros J Hr Hid Ha Hq k rk. destruct (decide (k = id)) as [->|].
  - rewrite lookup_insert_eq. intros [= <-]. rewrite Hid. destruct (J _ _ Hr). eauto.
  - rewrite lookup_insert_ne by done. apply J.
Qed.

(** Granting a lease on a queued job. *)
Lemma leases_ok_grant js ls lid l r r' :
  leases_ok js ls -> js !! lr_job_id l = Some r -> is_queued r = true ->
  ls !! lid = None -> is_active l = true ->
  job_status (row_job r') = JobStatus.Leased -> attempts (row_job r') = lr_attempt l ->
  leases_ok (<[lr_job_id l := r']> js) (<[lid := l]> ls).
Proof.
  intros (LJ & AC & U & L) Hr Hq Hnone Hact Hs Ha.
  assert (Hfree : forall k lk, ls !! k = Some lk -> is_active lk = true -> lr_job_id lk <> lr_job_id l).
  { intros k lk Hk Hak Heq. destruct (AC _ _ Hk Hak) as (rk & Hrk & Hsk & _).
    rewrite Heq in Hrk. simplify_eq. apply bool_decide_eq_true in Hq. congruence. }
  split; [|split; [|split]].
  - intros k lk. destruct (decide (k = lid)) as [->|].
    + rewrite lookup_insert_eq. intros [= <-]. rewrite lookup_insert_eq. eauto.
    + rewrite lookup_insert_ne by done. intros Hk.
      destruct (decide (lr_job_id lk = lr_job_id l)) as [->|];
        [rewrite lookup_insert_eq; eauto | rewrite lookup_insert_ne by done; by eapply LJ].
  - intros k lk. destruct (decide (k = lid)) as [->|].
    + rewrite lookup_insert_eq. intros [= <-] _. rewrite lookup_insert_eq. eauto.
    + rewrite lookup_insert_ne by done. intros Hk Hak.
      rewrite lookup_insert_ne by (by apply not_eq_sym, (Hfree k)). by eapply AC.
  - intros k1 l1 k2 l2.
    destruct (decide (k1 = lid)) as [->|]; [rewrite lookup_insert_eq | rewrite lookup_insert_ne by done];
    (destruct (decide (k2 = lid)) as [->|]; [rewrite lookup_insert_eq | rewrite lookup_insert_ne by done]);
      intros H1 A1 H2 A2 Heq; simplify_eq; try done; [exfalso..|by eapply U].
    + by eapply (Hfree k2).
    + by eapply (Hfree k1).
  - intros id rid. destruct (decide (id = lr_job_id l)) as [->|].
    + intros _ _. exists lid, l. by rewrite lookup_insert_eq.
    + rewrite lookup_insert_ne by done. intros Hid Hl.
      destruct (L _ _ Hid Hl) as (k & lk & Hk & ? & ?). exists k, lk.
      rewrite lookup_insert_ne by congruence. done.
Qed.

(** Ending a lease together with its job's turn. *)
Lemma leases_ok_finish js ls lid l l' r r' :
  leases_ok js ls -> ls !! lid = Some l -> is_active l = true ->
  lr_job_id l' = lr_job_id l -> is_active l' = false ->
  js !! lr_job_id l = Some r -> job_status (row_job r') <> JobStatus.Leased ->
  leases_ok (<[lr_job_id l := r']> js) (<[lid := l']> ls).
Proof.
  intros (LJ & AC & U & L) Hl Hact Hid Hin Hr Hs.
  assert (Hfree : forall k lk, k <> lid -> ls !! k = Some lk -> is_active lk = true ->
            lr_job_id lk <> lr_job_id l).
  { intros k lk Hne Hk Hak Heq. apply Hne. by eapply (U k lk lid l). }
  split; [|split; [|split]].
  - intros k lk. destruct (decide (k = lid)) as [->|].
    + rewrite lookup_insert_eq. intros [= <-]. rewrite Hid, lookup_insert_eq. eauto.
    + rewrite lookup_insert_ne by done. intros Hk.
      destruct (decide (lr_job_id lk = lr_job_id l)) as [->|];
        [rewrite lookup_insert_eq; eauto | rewrite lookup_insert_ne by done; by eapply LJ].
  - intros k lk. destruct (decide (k = lid)) as [->|].
    + rewrite lookup_insert_eq. intros [= <-]. congruence.
    + rewrite lookup_insert_ne by done. intros Hk Hak.
      rewrite lookup_insert_ne by (by apply not_eq_sym, (Hfree k)). by eapply AC.
  - intros k1 l1 k2 l2.
    destruct (decide (k1 = lid)) as [->|]; [rewrite lookup_insert_eq | rewrite lookup_insert_ne by done];
    (destruct (decide (k2 = lid)) as [->|]; [rewrite lookup_insert_eq | rewrite lookup_insert_ne by done]);
      intros H1 A1 H2 A2 Heq; simplify_eq; try done; try congruence. by eapply U.
  - intros id rid. destruct (decide (id = lr_job_id l)) as [->|].
    + rewrite lookup_insert_eq. intros [= <-]. done.
    + rewrite lookup_insert_ne by done. intros Hjid Hl'.
      destruct (L _ _ Hjid Hl') as (k & lk & Hk & ? & ?). exists k, lk.
      destruct (decide (k = lid)) as [->|]; [simplify_eq|]. by rewrite lookup_insert_ne.
Qed.

(** Lease rows that keep identity and status keep the invariant. *)
Lemma leases_ok_same js ls ls' :
  leases_ok js ls ->
  (forall lid, option_relation (fun l l' => lr_status l' = lr_status l /\ same_identity l l')
     (fun _ => False) (fun _ => False) (ls !! lid) (ls' !! lid)) ->
  leases_ok js ls'.
Proof.
  intros (LJ & AC & U & L) Hrel.
  assert (Hback : forall lid l', ls' !! lid = Some l' ->
            exists l, ls !! lid = Some l /\ is_active l = is_active l' /\ same_identity l l').
  { intros lid l' Hl'. specialize (Hrel lid). rewrite Hl' in Hrel.
    destruct (ls !! lid) as [l|]; simpl in Hrel; [|done]. destruct Hrel as [Hs Hi].
    exists l. unfold is_active. by rewrite Hs. }
  split; [|split; [|split]].
  - intros lid l' Hl'. destruct (Hback _ _ Hl') as (l & Hl & _ & (Hj & _)). rewrite Hj. by eapply LJ.
  - intros lid l' Hl' Ha. destruct (Hback _ _ Hl') as (l & Hl & Hal & (Hj & _ & Hat & _)).
    rewrite Hj, Hat. eapply AC; [done | congruence].
  - intros k1 l1 k2 l2 H1 A1 H2 A2 Heq.
    destruct (Hback _ _ H1) as (m1 & Hm1 & Ha1 & (Hj1 & _)).
    destruct (Hback _ _ H2) as (m2 & Hm2 & Ha2 & (Hj2 & _)).
    eapply U; [exact Hm1 | | exact Hm2 | |]; congruence.
  - intros id r Hr Hs. destruct (L _ _ Hr Hs) as (lid & l & Hl & Ha & Hj).
    specialize (Hrel lid). rewrite Hl in Hrel.
    destruct (ls' !! lid) as [l'|] eqn:E; simpl in Hrel; [|done]. destruct Hrel as [Hst (Hj' & _)].
    exists lid, l'. split; [done|]. unfold is_active in *. rewrite Hst. by rewrite Hj'.
Qed.

(** ** Drains are preserved *)

Lemma drains_ok_mono db db' :
  drains_ok db ->
  (forall sid w d, open_receipt db' sid w d -> open_receipt db sid w d) ->
  (forall sid w d, open_receipt db sid w d -> forall wr, workers db !! w = Some wr ->
     worker_accepts_claims (worker_status (row_worker wr)) = false ->
     exists wr', workers db' !! w = Some wr' /\
       worker_accepts_claims (worker_status (row_worker wr')) = false) ->
  (forall sid w d lid l', open_receipt db sid w d -> active_lease db' lid l' ->
     lr_worker_id l' = w ->
     exists l, active_lease db lid l /\ same_identity l l' /\
       (captured db sid lid l d -> captured db' sid lid l' d /\
          ((lr_expires_at l <= d)%Z -> (lr_expires_at l' <= d)%Z))) ->
  drains_ok db'.
Proof.
  intros [D1 D2] HR HW HL. split.
  - intros sid w d Ho. destruct (D1 _ _ _ (HR _ _ _ Ho)) as (wr & Hwr & Hc).
    by eapply HW; [apply HR | ..].
  - intros sid w d lid l' Ho Ha Hw. pose proof (HR _ _ _ Ho) as Ho'.
    destruct (HL _ _ _ _ _ Ho' Ha Hw) as (l & Hal & Hid & Hcap).
    assert (Hlw : lr_worker_id l = w) by (destruct Hid as (_ & Hid & _); congruence).
    destruct (D2 _ _ _ _ _ Ho' Hal Hlw) as [Hc He]. destruct (Hcap Hc). auto.
Qed.

Lemma captured_same db db' sid lid l l' d :
  worker_drain_lease_fences db' !! (sid, lid) = worker_drain_lease_fences db !! (sid, lid) ->
  same_identity l l' -> captured db sid lid l d -> captured db' sid lid l' d.
Proof.
  intros Hf (Hj & Hw & Ha & _) (f & Hl & E1 & E2 & E3 & E4 & E5). exists f.
  rewrite Hf, Hj, Hw, Ha. done.
Qed.

Lemma same_identity_refl l : same_identity l l.
Proof. done. Qed.

Lemma open_receipt_same db db' sid w d :
  worker_drain_receipts db' = worker_drain_receipts db ->
  open_receipt db' sid w d <-> open_receipt db sid w d.
Proof. unfold open_receipt. by intros ->. Qed.

(** Steps that touch neither workers, receipts nor leases. *)
Lemma adjusted_same db lid l l' :
  lease_adjusted db lid l l' -> lr_status l' = lr_status l /\ same_identity l l'.
Proof. intros [->|(_ & ? & ? & _)]; done. Qed.

(** The leases stay, and what was captured stays captured. *)
Lemma drains_ok_kept db db' :
  drains_ok db ->
  (forall sid w d, open_receipt db' sid w d -> open_receipt db sid w d) ->
  (forall sid w d, open_receipt db sid w d -> forall wr, workers db !! w = Some wr ->
     worker_accepts_claims (worker_status (row_worker wr)) = false ->
     exists wr', workers db' !! w = Some wr' /\
       worker_accepts_claims (worker_status (row_worker wr')) = false) ->
  job_leases db' = job_leases db ->
  (forall sid lid l d, active_lease db lid l -> captured db sid lid l d -> captured db' sid lid l d) ->
  drains_ok db'.
Proof.
  intros D HR HW HL HC. apply (drains_ok_mono db); [done..|].
  intros sid w d lid l' _ [Hl' Ha] _. exists l'. rewrite HL in Hl'.
  split; [done|]. split; [done|]. intros Hc. split; [|done]. by eapply HC.
Qed.

Lemma workers_kept db db' : workers db' = workers db ->
  forall (sid w : Uuid) (d : Z), open_receipt db sid w d -> forall wr, workers db !! w = Some wr ->
    worker_accepts_claims (worker_status (row_worker wr)) = false ->
    exists wr', workers db' !! w = Some wr' /\
      worker_accepts_claims (worker_status (row_worker wr')) = false.
Proof. intros -> sid w d _ wr. eauto. Qed.

Lemma fences_kept db db' : worker_drain_lease_fences db' = worker_drain_lease_fences db ->
  forall sid lid l d, active_lease db lid l -> captured db sid lid l d -> captured db' sid lid l d.
Proof. intros HF sid lid l d _ Hc. eapply captured_same; [by rewrite HF|done..]. Qed.

Lemma drains_ok_frame db db' :
  drains_ok db -> workers db' = workers db -> same_drains db db' ->
  job_leases db' = job_leases db -> drains_ok db'.
Proof.
  intros D HW [HR HF] HL. apply (drains_ok_kept db); [done| |by apply workers_kept|done|by apply fences_kept].
  intros sid w d. by rewrite (open_receipt_same db db').
Qed.

(** One lease is written; if it is live, its worker is not draining. *)
Lemma drains_ok_put_lease db db' lid l' :
  drains_ok db -> workers db' = workers db -> worker_drain_receipts db' = worker_drain_receipts db ->
  (forall key, key.2 <> lid ->
     worker_drain_lease_fences db' !! key = worker_drain_lease_fences db !! key) ->
  job_leases db' = <[lid := l']> (job_leases db) ->
  (is_active l' = true -> forall sid d, ~ open_receipt db sid (lr_worker_id l') d) ->
  drains_ok db'.
Proof.
  intros D HW HR HF HL Hfree. apply (drains_ok_mono db); [done| |by apply workers_kept|].
  - intros sid w d. by rewrite (open_receipt_same db db').
  - intros sid w d k lk Ho [Hk Hak] Hwk. rewrite HL in Hk.
    destruct (decide (k = lid)) as [->|Hne].
    + rewrite lookup_insert_eq in Hk. simplify_eq. exfalso. by eapply Hfree.
    + rewrite lookup_insert_ne in Hk by done. exists lk. split; [done|].
      split; [done|]. intros Hc. split; [|done]. eapply captured_same; [by apply HF | done..].
Qed.

(** Live leases are shortened or asked to cancel. *)
Lemma drains_ok_adjust db db' :
  drains_ok db ->
  (forall lid, option_relation (lease_adjusted db lid) (fun _ => False) (fun _ => False)
     (job_leases db !! lid) (job_leases db' !! lid)) ->
  workers db' = workers db -> same_drains db db' -> drains_ok db'.
Proof.
  intros D HL HW [HR HF]. apply (drains_ok_mono db); [done| |by apply workers_kept|].
  - intros sid w d. by rewrite (open_receipt_same db db').
  - intros sid w d k lk Ho [Hk Hak] Hwk. specialize (HL k). rewrite Hk in HL.
    destruct (job_leases db !! k) as [l|] eqn:El; simpl in HL; [|done].
    exists l. destruct (adjusted_same _ _ _ _ HL) as [Hst Hid].
    split; [split; [done|unfold is_active in *; by rewrite <- Hst]|]. split; [done|].
    intros Hc. split; [eapply captured_same; [by rewrite HF | done..]|].
    destruct HL as [->|(_ & _ & _ & [->|Hexp])]; [done..|]. intros _. by eapply Hexp.
Qed.

Lemma drains_ok_drain db db' sid w wr receipt :
  drains_ok db ->
  worker_drain_receipts db !! sid = None -> workers db !! w = Some wr ->
  worker_accepts_claims (worker_status (row_worker wr)) = true ->
  receipt_worker_id receipt = w ->
  workers db' = <[w := row_set_worker (worker_set_status WorkerStatus.Draining) wr]> (workers db) ->
  worker_drain_receipts db' = <[sid := receipt]> (worker_drain_receipts db) ->
  worker_drain_lease_fences db' =
    captured_fences sid w (receipt_hard_deadline receipt) db ∪ worker_drain_lease_fences db ->
  job_leases db' = cap_leases w (receipt_hard_deadline receipt) (job_leases db) ->
  drains_ok db'.
Proof.
  intros [D1 D2] Hsid Hwr Hacc Hrw HW HR HF HL.
  assert (Hother : forall s w' d, open_receipt db' s w' d ->
            (s = sid /\ w' = w /\ d = receipt_hard_deadline receipt) \/
            (s <> sid /\ w' <> w /\ open_receipt db s w' d)).
  { intros s w' d (r & Hr & Hw' & Hd & Hn). rewrite HR in Hr.
    destruct (decide (s = sid)) as [->|Hne].
    - rewrite lookup_insert_eq in Hr. simplify_eq. auto.
    - rewrite lookup_insert_ne in Hr by done.
      assert (Ho : open_receipt db s w' d) by (by exists r).
      right. split; [done|]. split; [|done]. intros ->.
      destruct (D1 _ _ _ Ho) as (wr' & Hwr' & Hc). congruence. }
  split.
  - intros s w' d Ho. rewrite HW. destruct (Hother _ _ _ Ho) as [(-> & -> & _)|(_ & Hne & Ho')].
    + rewrite lookup_insert_eq. eauto.
    + rewrite lookup_insert_ne by done. by eapply D1.
  - intros s w' d lid l' Ho [Hl' Ha] Hw'. rewrite HL, cap_leases_lookup in Hl'.
    destruct (job_leases db !! lid) as [l|] eqn:El; simpl in Hl'; [|done]. simplify_eq.
    destruct (Hother _ _ _ Ho) as [(-> & Heq & ->)|(Hsne & Hne & Ho')].
    + destruct (bool_decide (lr_worker_id l = receipt_worker_id receipt) && is_active l) eqn:E.
      2:{ exfalso. rewrite andb_false_l in Ha, Heq. rewrite Ha in E.
          rewrite bool_decide_eq_true_2 in E; done. }
      rewrite andb_true_l in Ha, Heq |- *.
      bool_to_prop. assert (Hf : captured_fences sid (receipt_worker_id receipt)
        (receipt_hard_deadline receipt) db !! (sid, lid) =
        Some (mkDrainFenceRow (receipt_worker_id receipt) (lr_job_id l) (lr_attempt l)
                (receipt_hard_deadline receipt) None None)).
      { rewrite captured_fences_lookup, El, bool_decide_eq_true_2 by done. simpl.
        rewrite bool_decide_eq_true_2 by done. by destruct (is_active l). }
      split.
      * eexists. rewrite HF. split; [by apply lookup_union_Some_l|].
        destruct (receipt_hard_deadline receipt <? lr_expires_at l)%Z; simpl; done.
      * destruct (receipt_hard_deadline receipt <? lr_expires_at l)%Z eqn:El2; simpl; lia.
    + assert (Hsame : (bool_decide (lr_worker_id l = receipt_worker_id receipt) && is_active l
                && (receipt_hard_deadline receipt <? lr_expires_at l)%Z) = false).
      { destruct (bool_decide (lr_worker_id l = receipt_worker_id receipt)) eqn:E; [|done].
        bool_to_prop. exfalso. apply Hne. by destruct (_ && _). }
      rewrite Hsame in *. destruct (D2 _ _ _ lid l Ho' (conj El Ha) eq_refl) as [Hc He].
      split; [|done]. eapply captured_same; [|apply same_identity_refl|exact Hc].
      rewrite HF. apply lookup_union_r. rewrite captured_fences_lookup.
      by rewrite bool_decide_eq_false_2.
Qed.

(** ** Every transition keeps the invariant *)

Lemma fence_resolve_captured db db' key f outcome now sid lid l d :
  worker_drain_lease_fences db !! key = Some f -> fence_settled db key f ->
  worker_drain_lease_fences db' =
    <[key := fence_resolve outcome now f]> (worker_drain_lease_fences db) ->
  active_lease db lid l -> captured db sid lid l d -> captured db' sid lid l d.
Proof.
  intros Hf Hset HF Hal (g & Hg & E1 & E2 & E3 & E4 & E5). exists g. split; [|done].
  rewrite HF, lookup_insert_ne; [done|]. intros ->. simplify_eq.
  by apply (Hset l Hal).
Qed.

Lemma protocol_step_drains db db' : protocol_inv db -> protocol_step db db' -> drains_ok db'.
Proof.
  intros Hinv Hs. apply protocol_inv_split in Hinv as (J & L & D).
  destruct Hs as [F|lid l r now wr Hr Hq Hnone Hst Hat Hwr Hacc HL HW HD HJ
    |lid l l' r status error now Hal Hid Hin Hr Hns Hq HL HW HR Hfs HJ
    |HL HJ HW HD|id r payload class now Hr Hq HJ HL HW HD|HW1 HW2 HJ HL HD
    |sid w wr receipt Hsid Hwr Hacc Hrw HW HR HF HL HJ|key f outcome now Hf Hset HF HR HJ HL HW
    |HR HJ HL HW HF].
  - destruct F. by apply (drains_ok_frame db).
  - destruct HD as [HR HF]. apply (drains_ok_put_lease db db' lid l); try done; [by rewrite HF|].
    intros _ sid d Ho. destruct D as [D1 _]. destruct (D1 _ _ _ Ho) as (wr' & Hwr' & Hc). congruence.
  - apply (drains_ok_put_lease db db' lid l'); try done. by rewrite Hin.
  - by apply (drains_ok_adjust db).
  - by apply (drains_ok_frame db).
  - destruct HD as [HR HF]. apply (drains_ok_kept db); [done| | |done|by apply fences_kept].
    + intros sid w d. by rewrite (open_receipt_same db db').
    + intros sid w d Ho wr Hwr Hc. destruct (HW1 w) as [wr' Hwr']; [by eauto|].
      exists wr'. split; [done|]. destruct (HW2 _ _ Hwr') as [Heq|[Hno|Hc']]; [congruence| |done].
      exfalso. assert (Ht : has_open_receipt db w = true) by (apply has_open_receipt_true; eauto).
      congruence.
  - by eapply (drains_ok_drain db db' sid w wr receipt).
  - apply (drains_ok_kept db); [done| |by apply workers_kept|done|].
    + intros sid w d. by rewrite (open_receipt_same db db').
    + intros. by eapply (fence_resolve_captured db db' key f).
  - apply (drains_ok_kept db); [done| |by apply workers_kept|done|by apply fences_kept].
    intros sid w d (r & Hr & ? & ? & Hn). exists r. split; [|done]. by apply HR.
Qed.

Lemma protocol_step_jobs db db' :
  protocol_inv db -> protocol_step db db' ->
  jobs_ok (jobs db') /\ leases_ok (jobs db') (job_leases db').
Proof.
  intros Hinv Hs. apply protocol_inv_split in Hinv as (J & L & _).
  destruct Hs as [F|lid l r now wr Hr Hq Hnone Hst Hat Hwr Hacc HL HW HD HJ
    |lid l l' r status error now [Hl Hact] Hid Hin Hr Hns Hq HL HW HR Hfs HJ
    |HL HJ HW HD|id r payload class now Hr Hq HJ HL HW HD|HW1 HW2 HJ HL HD
    |sid w wr receipt Hsid Hwr Hacc Hrw HW HR HF HL HJ|key f outcome now Hf Hset HF HR HJ HL HW
    |HR HJ HL HW HF].
  - destruct F as [-> _ _ _ HJ]. split; [by eapply jobs_ok_evolve | by eapply leases_ok_evolve].
  - rewrite HL. destruct (J _ _ Hr) as (Hk & _). split.
    + eapply jobs_ok_evolve; [|exact HJ]. eapply jobs_ok_insert; [done..| |]; simpl; [lia|done].
    + eapply leases_ok_evolve; [|exact HJ]. eapply leases_ok_grant; try done.
      unfold is_active. by apply bool_decide_eq_true.
  - rewrite HL. destruct (J _ _ Hr) as (Hk & Ha & _). split.
    + eapply jobs_ok_evolve; [|exact HJ]. eapply jobs_ok_insert; [done..| |]; simpl; [lia|].
      intros Hq'. apply bool_decide_eq_true in Hq'. by apply Hq.
    + eapply leases_ok_evolve; [|exact HJ]. destruct Hid. by eapply leases_ok_finish.
  - split; [by eapply jobs_ok_evolve|]. eapply leases_ok_same; [by eapply leases_ok_evolve|].
    intros lid. specialize (HL lid).
    destruct (job_leases db !! lid), (job_leases db' !! lid); simpl in *; try done.
    by eapply adjusted_same.
  - rewrite HJ, HL. destruct (J _ _ Hr) as (Hk & Ha & Hlt). split.
    + eapply jobs_ok_insert; try done.
    + destruct L as (LJ & AC & U & LL). apply bool_decide_eq_true in Hq.
      split; [|split; [|split]]; [..|done|].
      * intros k lk Hk'. destruct (decide (lr_job_id lk = id)) as [->|];
          [rewrite lookup_insert_eq; eauto | rewrite lookup_insert_ne by done; by eapply LJ].
      * intros k lk Hk' Hak. destruct (AC _ _ Hk' Hak) as (rk & Hrk & Hsk & ?). exists rk.
        rewrite lookup_insert_ne; [done|]. intros ->. simplify_eq. congruence.
      * intros k rk. destruct (decide (k = id)) as [->|].
        { rewrite lookup_insert_eq. intros [= <-]. simpl. congruence. }
        rewrite lookup_insert_ne by done. apply LL.
  - by rewrite HJ, HL.
  - rewrite HJ, HL. split; [done|]. eapply leases_ok_same; [done|]. intros k.
    rewrite cap_leases_lookup. destruct (job_leases db !! k) as [l|]; simpl; [|done].
    destruct (_ && _); done.
  - by rewrite HJ, HL.
  - by rewrite HJ, HL.
Qed.

Lemma protocol_step_inv db db' : protocol_inv db -> protocol_step db db' -> protocol_inv db'.
Proof.
  intros Hinv Hs. apply protocol_inv_split.
  destruct (protocol_step_jobs _ _ Hinv Hs). split; [done|]. split; [done|].
  by eapply protocol_step_drains.
Qed.

(** A lease that has ended is never written again, and the identity of a
    lease never changes. *)
Lemma protocol_step_lease db db' lid l :
  protocol_inv db -> protocol_step db db' -> job_leases db !! lid = Some l ->
  exists l', job_leases db' !! lid = Some l' /\ same_identity l l' /\
    (is_active l = false -> l' = l).
Proof.
  intros Hinv Hs Hl.
  destruct Hs as [F|k lk r now wr Hr Hq Hnone Hst Hat Hwr Hacc HL HW HD HJ
    |k lk l' r status error now [Hk Hact] Hid Hin Hr Hns Hq HL HW HR Hfs HJ
    |HL HJ HW HD|id r payload class now Hr Hq HJ HL HW HD|HW1 HW2 HJ HL HD
    |sid w wr receipt Hsid Hwr Hacc Hrw HW HR HF HL HJ|key f outcome now Hf Hset HF HR HJ HL HW
    |HR HJ HL HW HF].
  - destruct F as [HL _ _ _ _]. rewrite HL. eauto using same_identity_refl.
  - rewrite HL, lookup_insert_ne by congruence. eauto using same_identity_refl.
  - rewrite HL. destruct (decide (k = lid)) as [->|].
    + simplify_eq. rewrite lookup_insert_eq. exists l'. split; [done|]. split; [done|]. congruence.
    + rewrite lookup_insert_ne by done. eauto using same_identity_refl.
  - specialize (HL lid). rewrite Hl in HL. destruct (job_leases db' !! lid) as [l'|]; simpl in HL; [|done].
    exists l'. split; [done|]. destruct (adjusted_same _ _ _ _ HL). split; [done|].
    destruct HL as [->|(Ha & _)]; [done|]. congruence.
  - rewrite HL. eauto using same_identity_refl.
  - rewrite HL. eauto using same_identity_refl.
  - rewrite HL, cap_leases_lookup, Hl. simpl. eexists. split; [done|].
    destruct (is_active l) eqn:Ha.
    + split; [|done]. by destruct (_ && _).
    + rewrite andb_false_r. simpl. done.
  - rewrite HL. eauto using same_identity_refl.
  - rewrite HL. eauto using same_identity_refl.
Qed.

(** Jobs are never deleted and keep their kind and attempt limit. *)
Lemma protocol_step_job db db' id r :
  protocol_step db db' -> jobs db !! id = Some r ->
  exists r', jobs db' !! id = Some r' /\ job_kind (row_job r') = job_kind (row_job r) /\
    max_attempts (row_job r') = max_attempts (row_job r).
Proof.
  intros Hs Hid.
  assert (Hins : forall k rk rk' m', jobs db !! k = Some rk ->
    jobs_evolve (<[k := rk']> (jobs db)) m' ->
    job_kind (row_job rk') = job_kind (row_job rk) ->
    max_attempts (row_job rk') = max_attempts (row_job rk) ->
    exists r', m' !! id = Some r' /\ job_kind (row_job r') = job_kind (row_job r) /\
      max_attempts (row_job r') = max_attempts (row_job r)).
  { intros k rk rk' m' Hk E Hkind Hmax. destruct (decide (k = id)) as [->|].
    - simplify_eq. destruct (jobs_evolve_lookup _ _ id rk' E) as (r2 & ? & _ & ? & _ & ?);
        [by rewrite lookup_insert_eq|]. exists r2. split; [done|]. split; congruence.
    - destruct (jobs_evolve_lookup _ _ id r E) as (r2 & ? & _ & ? & _ & ?);
        [by rewrite lookup_insert_ne|]. eauto. }
  destruct Hs as [F|k lk rk now wr Hr Hq Hnone Hst Hat Hwr Hacc HL HW HD HJ
    |k lk l' rk status error now Hal Hsi Hin Hr Hns Hq HL HW HR Hfs HJ
    |HL HJ HW HD|k rk payload class now Hr Hq HJ HL HW HD|HW1 HW2 HJ HL HD
    |sid w wr receipt Hsid Hwr Hacc Hrw HW HR HF HL HJ|key f outcome now Hf Hset HF HR HJ HL HW
    |HR HJ HL HW HF]; try (rewrite HJ; by eauto).
  - destruct F as [_ _ _ _ E]. destruct (jobs_evolve_lookup _ _ id r E Hid) as (r2 & ? & _ & ? & _ & ?).
    eauto.
  - by apply (Hins _ rk _ _ Hr HJ).
  - by apply (Hins _ rk _ _ Hr HJ).
  - destruct (jobs_evolve_lookup _ _ id r HJ Hid) as (r2 & ? & _ & ? & _ & ?). eauto.
  - rewrite HJ. by apply (Hins k rk (row_set_job (job_set_placement payload class now) rk) _ Hr).
Qed.

(** A lease appears only by a grant to a worker that accepts claims. *)
Lemma protocol_step_new_lease db db' lid l' :
  protocol_step db db' -> job_leases db !! lid = None -> job_leases db' !! lid = Some l' ->
  exists wr, workers db !! lr_worker_id l' = Some wr /\
    worker_accepts_claims (worker_status (row_worker wr)) = true.
Proof.
  intros Hs Hn Hl'.
  destruct Hs as [F|k lk rk now wr Hr Hq Hnone Hst Hat Hwr Hacc HL HW HD HJ
    |k lk l2 rk status error now [Hk _] Hsi Hin Hr Hns Hq HL HW HR Hfs HJ
    |HL HJ HW HD|k rk payload class now Hr Hq HJ HL HW HD|HW1 HW2 HJ HL HD
    |sid w wr receipt Hsid Hwr Hacc Hrw HW HR HF HL HJ|key f outcome now Hf Hset HF HR HJ HL HW
    |HR HJ HL HW HF]; try (rewrite HL in Hl'; congruence).
  - destruct F as [HL _ _ _ _]. congruence.
  - rewrite HL in Hl'. destruct (decide (lid = k)) as [->|].
    + rewrite lookup_insert_eq in Hl'. simplify_eq. eauto.
    + rewrite lookup_insert_ne in Hl' by done. congruence.
  - rewrite HL, lookup_insert_ne in Hl' by congruence. congruence.
  - specialize (HL lid). rewrite Hn, Hl' in HL. done.
  - rewrite HL, cap_leases_lookup, Hn in Hl'. done.
Qed.

(** Workers are never deleted. *)
Lemma protocol_step_worker db db' w :
  protocol_step db db' -> is_Some (workers db !! w) -> is_Some (workers db' !! w).
Proof.
  intros Hs Hw.
  destruct Hs as [F|k lk rk now wr Hr Hq Hnone Hst Hat Hwr Hacc HL HW HD HJ
    |k lk l2 rk status error now Hal Hsi Hin Hr Hns Hq HL HW HR Hfs HJ
    |HL HJ HW HD|k rk payload class now Hr Hq HJ HL HW HD|HW1 HW2 HJ HL HD
    |sid k wr receipt Hsid Hwr Hacc Hrw HW HR HF HL HJ|key f outcome now Hf Hset HF HR HJ HL HW
    |HR HJ HL HW HF]; try (by rewrite HW); try (by apply HW1).
  - destruct F as [_ HW _ _ _]. by rewrite HW.
  - rewrite HW. destruct (decide (w = k)) as [->|]; [rewrite lookup_insert_eq; eauto|].
    by rewrite lookup_insert_ne.
Qed.
End Protocol.
