(* ===== verification/Queue.v ===== *)
(** * The job queue outside a lease

    The writers of [jobs] that act on queued work without holding a lease:
    job creation, cancellation of an operation, the work a sandbox stop
    cancels, the maximum-age sweep, the dead-lettering of jobs whose
    placement is gone, and the retirement of queued snapshot and resident
    jobs.  Sources: [handlers/jobs.rs], [handlers/operations.rs],
    [handlers/sandboxes.rs], [handlers/leases.rs], [handlers/snapshots.rs],
    [handlers/resident_processes.rs]. *)

From S2P Require Import Prelude CoreTypes Json Store Leases.
From stdpp Require Import sorting fin_maps.

Section Queue.
Context {W : Type} `{UuidLib} `{SerdeLib} `{JobEffects W}.

(** [fetch_job] with the tenant check of [tenant_operation]. *)
Definition tenant_operation (db : Db W) (id : Uuid) (tenant_id : string) : result Job ApiError :=
  match jobs db !! id with
  | None => Err (not_found "job not found")
  | Some r =>
      if String.eqb (job_tenant_id (row_job r)) tenant_id then Ok (row_job r)
      else Err (not_found "operation not found")
  end.

(** ** Creation: the job [create_job] builds *)

Record CreateJobRequest : Type := mkCreateJobRequest {
  create_kind : JobKind;
  create_payload : Json;
  create_required_capability : WorkerCapability;
  create_priority : option Z;
  create_max_attempts : option Z
}.

Definition validate_functional_required_capability (c : WorkerCapability) : result unit ApiError :=
  match c with
  | WorkerCapability.SandboxedContainer | WorkerCapability.VirtualMachine =>
      Err (bad_request "required_capability must be a functional worker capability; isolation is selected by the sandbox execution_class")
  | _ => Ok tt
  end.

Definition job_of_request (rt : Runtime) (tenant_id : string) (request : CreateJobRequest) : Job :=
  let now := utc_now rt in
  mkJob (new_uuid rt 0) tenant_id (create_kind request) JobStatus.Queued (create_payload request)
    (create_required_capability request) ExecutionClass.DevelopmentContainer
    (default 0%Z (create_priority request)) 0 (Z.max (default 3%Z (create_max_attempts request)) 1)
    now now now None.

(** ** Cancelling an operation: [cancel_operation] *)

Definition is_cancellable_kind (kind : JobKind) : bool :=
  match kind with
  | JobKind.RunCommand | JobKind.MaterializeFile | JobKind.CreateSnapshot => true
  | _ => false
  end.

(** [job] was read before the transaction; the update checks the status
    again. *)
Definition cancel_operation_tx (rt : Runtime) (job : Job) : Tx W unit :=
  let now := utc_now rt in
  let! db := tx_get in
  let '(affected, m) :=
    update_row (job_id job) is_queued (row_set_cancelled now "operation_cancelled") (jobs db) in
  check! affected
    else conflict_code "operation_not_cancellable" "operation is no longer cancellable" in
  let! _ := tx_modify (set_jobs m) in
  apply_cancelled_job_on_connection rt job.

Definition cancel_operation (rt : Runtime) (tenant_id : string) (id : Uuid) (db : Db W) :
    result Job ApiError * Db W :=
  match tenant_operation db id tenant_id with
  | Err e => (Err e, db)
  | Ok job =>
      if negb (bool_decide (job_status job = JobStatus.Queued)) then
        (Err (conflict_code "operation_not_cancellable" "only queued operations can be cancelled"), db)
      else if negb (is_cancellable_kind (job_kind job)) then
        (Err (conflict_code "operation_not_cancellable" "this operation cannot be cancelled safely"),
         db)
      else
        match run_tx (cancel_operation_tx rt job) db with
        | (Err e, db') => (Err e, db')
        | (Ok _, db') => (tenant_operation db' id tenant_id, db')
        end
  end.

(** ** What stopping a sandbox cancels: [stop_sandbox_via_job] *)

Definition references_sandbox (sandbox_id : Uuid) (r : JobReferences) : bool :=
  bool_decide (ref_sandbox_id r = Some sandbox_id)
  || bool_decide (ref_parent_sandbox_id r = Some sandbox_id)
  || bool_decide (ref_child_sandbox_id r = Some sandbox_id).

Definition stop_cancels_job (tenant_id : string) (sandbox_id : Uuid) (r : JobRow) : bool :=
  String.eqb (job_tenant_id (row_job r)) tenant_id && is_queued r
  && negb (bool_decide (job_kind (row_job r) = JobKind.StopSandbox))
  && negb (bool_decide (job_kind (row_job r) = JobKind.ProvisionSandbox))
  && references_sandbox sandbox_id (row_references r).

Definition stop_cancels_lease (tenant_id : string) (sandbox_id : Uuid) (db : Db W) (l : LeaseRow) :
    bool :=
  is_active l && is_none (lr_cancel_requested_at l)
  && match jobs db !! lr_job_id l with
     | Some r => String.eqb (job_tenant_id (row_job r)) tenant_id
                 && references_sandbox sandbox_id (row_references r)
     | None => false
     end.

Definition cancel_sandbox_work_on_connection (now : Z) (tenant_id : string) (sandbox_id : Uuid) :
    Tx W unit :=
  let! _ := tx_modify (fun db =>
    set_jobs (update_rows (fun _ => stop_cancels_job tenant_id sandbox_id)
                (row_set_cancelled now "sandbox_stopped") (jobs db)) db) in
  tx_modify (fun db =>
    set_job_leases (update_rows (fun _ => stop_cancels_lease tenant_id sandbox_id db)
                      (lease_set_cancel now "sandbox_stopped") (job_leases db)) db).

(** ** Retiring queued jobs one at a time *)

(** [update jobs set status = .., last_error = .., updated_at = .. where id =
    .. and status = 'queued'], the statement of the maximum-age sweep
    ([Dead], "queued job exceeded max age"), of placement dead-lettering
    ([Dead], "authoritative_placement_unavailable") and of a resident process
    stopped before its claim ([Succeeded], no error). *)
Definition retire_queued_job (id : Uuid) (status : JobStatus) (error : option string) (now : Z)
    (db : Db W) : bool * Db W :=
  let '(affected, m) :=
    update_row id is_queued (row_set_job (job_set_status status error now)) (jobs db) in
  (affected, set_jobs m db).

(** ** The maximum-age sweep: [expire_stale_queued_jobs] *)

Definition QUEUED_JOB_BATCH_SIZE : nat := N.to_nat 1000.

Definition queue_age_le (a b : Uuid * JobRow) : Prop :=
  (scheduled_at (row_job a.2) < scheduled_at (row_job b.2))%Z \/
  (scheduled_at (row_job a.2) = scheduled_at (row_job b.2) /\ (a.1 <= b.1)%N).

#[local] Instance queue_age_le_dec : RelDecision queue_age_le.
Proof. intros a b. unfold queue_age_le. apply _. Defined.

Definition is_overdue (cutoff : Z) (r : JobRow) : bool :=
  is_queued r && (scheduled_at (row_job r) <=? cutoff)%Z.

Definition overdue_jobs (db : Db W) (cutoff : Z) : list Uuid :=
  (take QUEUED_JOB_BATCH_SIZE
    (merge_sort queue_age_le
      (List.filter (fun kr => is_overdue cutoff kr.2) (map_to_list (jobs db))))).*1.

Fixpoint retire_each (ids : list Uuid) (now : Z) (db : Db W) : Z * Db W :=
  match ids with
  | [] => (0%Z, db)
  | id :: ids' =>
      let '(affected, db1) :=
        retire_queued_job id JobStatus.Dead (Some "queued job exceeded max age") now db in
      let '(n, db2) := retire_each ids' now db1 in
      ((if affected then n + 1 else n)%Z, db2)
  end.

(** [max_age_secs] is the configured age in seconds; zero disables the
    sweep. *)
Definition expire_stale_queued_jobs (rt : Runtime) (max_age_secs : Z) (db : Db W) : Z * Db W :=
  if (max_age_secs =? 0)%Z then (0%Z, db)
  else
    let now := utc_now rt in
    let cutoff := (now - seconds (Z.min max_age_secs i64_max))%Z in
    retire_each (overdue_jobs db cutoff) now db.

(** ** Placement refresh at claim time *)

(** The repaired payload and execution class are stored only while the job is
    still queued. *)
Definition store_refreshed_placement (id : Uuid) (payload : Json) (class : ExecutionClass) (now : Z)
    (db : Db W) : bool * Db W :=
  let '(affected, m) :=
    update_row id is_queued (row_set_job (job_set_placement payload class now)) (jobs db) in
  (affected, set_jobs m db).

(** [validate_authoritative_placement_reference]. *)
Definition validate_authoritative_placement_reference (job : Job) : result unit ApiError :=
  let key := if bool_decide (job_kind job = JobKind.ForkSandbox)
             then "childSandboxId" else "sandboxId" in
  match get_str (job_payload job) key with
  | None => Err (bad_request ("job payload is missing " ++ key))
  | Some value =>
      match uuid_parse_str value with
      | Some _ => Ok tt
      | None => Err (bad_request ("job payload contains invalid " ++ key))
      end
  end.

(** [authoritatively_refresh_job_placement_cached]: [enrich] is the
    enrichment of the payload from the live sandbox. *)
Definition authoritatively_refresh_job_placement_cached (rt : Runtime)
    (enrich : Job -> result (bool * Json * ExecutionClass) ApiError) (job : Job) (db : Db W) :
    result (bool * Job) ApiError * Db W :=
  if bool_decide (job_kind job = JobKind.DeleteHome) then (Ok (true, job), db)
  else
    match (let? _ := validate_authoritative_placement_reference job in enrich job) with
    | Err e =>
        if negb (bool_decide (err_status e = BAD_REQUEST)
                 || bool_decide (err_status e = NOT_FOUND))
        then (Err e, db)
        else (Ok (false, job),
              (retire_queued_job (job_id job) JobStatus.Dead
                 (Some "authoritative_placement_unavailable") (utc_now rt) db).2)
    | Ok (changed, payload, class) =>
        let job' := job_set_placement payload class (updated_at job) job in
        if negb changed then (Ok (true, job), db)
        else
          let '(updated, db') :=
            store_refreshed_placement (job_id job) payload class (utc_now rt) db in
          (Ok (updated, job'), db')
    end.

(** ** Queued snapshot jobs: [dead_queued_snapshot_jobs_on_connection] *)

Definition is_queued_snapshot_job (snapshot_id : Uuid) (r : JobRow) : bool :=
  bool_decide (job_kind (row_job r) = JobKind.CreateSnapshot) && is_queued r
  && bool_decide (ref_snapshot_id (row_references r) = Some snapshot_id).

Definition dead_queued_snapshot_jobs_on_connection (snapshot_id : Uuid) (error : string) (now : Z) :
    Tx W nat :=
  let! db := tx_get in
  let n := size (filter (fun kr => is_queued_snapshot_job snapshot_id kr.2 = true) (jobs db)) in
  let! _ := tx_modify (set_jobs
    (update_rows (fun _ => is_queued_snapshot_job snapshot_id)
       (row_set_job (job_set_status JobStatus.Dead (Some error) now)) (jobs db))) in
  tx_ret n.

End Queue.
