(* ===== verification/Refinement.v ===== *)
(** * The operations refine the protocol

    Every transaction of [Leases.v], [Workers.v] and [Queue.v] is a step of
    the abstract lease protocol: the lemmas here read off, branch by branch,
    what a successful run did to jobs, leases, workers and drains. *)

From S2P Require Import Prelude CoreTypes Json Store Leases Workers Queue Protocol.
From stdpp Require Import fin_maps.

Section Reads.
Context {W : Type} `{UuidLib} `{SerdeLib} `{JobEffects W}.

Lemma fetch_lease_reads id : reads_only (fetch_lease_on_connection (W := W) id).
Proof. unfold fetch_lease_on_connection. tx_rel_auto. Qed.

Lemma lock_terminal_reads id :
  reads_only (lock_worker_for_lease_terminalization_on_connection (W := W) id).
Proof. unfold lock_worker_for_lease_terminalization_on_connection. tx_rel_auto. Qed.

Lemma desires_stop_reads job : reads_only (resident_process_desires_stop (W := W) job).
Proof. unfold resident_process_desires_stop. tx_rel_auto. Qed.

Lemma cleanly_stopped_reads job : reads_only (resident_process_is_cleanly_stopped (W := W) job).
Proof. unfold resident_process_is_cleanly_stopped. tx_rel_auto. Qed.

Lemma bootstrap_delivered_reads job : reads_only (resident_bootstrap_was_delivered (W := W) job).
Proof. unfold resident_bootstrap_was_delivered. tx_rel_auto. Qed.

Lemma clean_stop_replay_reads lease res : reads_only (expired_clean_stop_replay (W := W) lease res).
Proof.
  unfold expired_clean_stop_replay.
  apply tx_rel_if; tx_rel_auto.
Qed.

Lemma lock_claim_reads id : reads_only (lock_worker_for_claim_on_connection (W := W) id).
Proof. unfold lock_worker_for_claim_on_connection. tx_rel_auto. Qed.

Lemma lock_apex_reads worker job :
  reads_only (lock_apex_instruction_placement_on_connection (W := W) worker job).
Proof. unfold lock_apex_instruction_placement_on_connection. tx_rel_auto. Qed.

Lemma active_count_reads id : reads_only (active_lease_count_for_worker_on_connection (W := W) id).
Proof. unfold active_lease_count_for_worker_on_connection. tx_rel_auto. Qed.

Lemma recheck_reads rt job :
  reads_only (recheck_sterile_resident_activation_on_connection (W := W) rt job).
Proof. unfold recheck_sterile_resident_activation_on_connection. tx_rel_auto. Qed.

Lemma fetch_receipt_reads sid : reads_only (fetch_drain_receipt_on_connection (W := W) sid).
Proof. unfold fetch_drain_receipt_on_connection. tx_rel_auto. Qed.
End Reads.

#[export] Hint Resolve fetch_lease_reads lock_terminal_reads desires_stop_reads
  cleanly_stopped_reads bootstrap_delivered_reads clean_stop_replay_reads lock_claim_reads
  lock_apex_reads active_count_reads recheck_reads fetch_receipt_reads : sbw.

(** Drops the reads of a successful run: their tables are the ones before. *)
Ltac tx_reads :=
  repeat match goal with
  | H : ?m ?db = Ok (?a, ?db1) |- _ =>
      lazymatch db1 with
      | db => fail
      | _ =>
          is_var db1;
          let E := fresh in
          assert (E : reads_only m) by (solve [auto with sbw]);
          apply E in H as ?; subst db1; clear E
      end
  end.

(** ** Single-row writes *)

Section Writes.
Context {W : Type} `{UuidLib} `{SerdeLib} `{JobEffects W} `{!JobEffectsLaws W}.
Implicit Type db : Db W.

Lemma fetch_lease_ok db id lease db' :
  fetch_lease_on_connection id db = Ok (lease, db') ->
  db' = db /\ exists l r, job_leases db !! id = Some l /\ jobs db !! lr_job_id l = Some r /\
    lease = row_to_lease_with_job id l (row_job r).
Proof.
  intros Hf. unfold fetch_lease_on_connection, tx_bind, tx_get, tx_lift in Hf.
  destruct (fetch_lease db id) as [lease'|] eqn:E; simplify_eq. split; [done|].
  unfold fetch_lease, lease_with_job in E.
  destruct (job_leases db' !! id) as [l|] eqn:El; simpl in *; [|done].
  destruct (jobs db' !! lr_job_id l) as [r|] eqn:Er; simpl in *; [|done]. simplify_eq.
  by exists l, r.
Qed.

(** The frame every table-local write of the lease transactions keeps. *)
Lemma slo_frame lease ok now : tx_rel core_frame (record_terminal_slo_observation (W := W) lease ok now).
Proof.
  unfold record_terminal_slo_observation. case_match; [|apply tx_rel_ret; apply _].
  apply tx_rel_modify. intros db. case_match; [reflexivity | by constructor].
Qed.

Lemma bind_placement_frame rt job worker :
  tx_rel core_frame (bind_sandbox_placement_on_connection (W := W) rt job worker).
Proof.
  unfold bind_sandbox_placement_on_connection. case_match; try (apply tx_rel_ret; apply _);
    (apply tx_rel_bind; [apply _ | apply tx_rel_lift; apply _ |]; intros s;
     apply tx_rel_modify; intros db; by constructor).
Qed.

Lemma claim_operation_frame worker op lease now :
  tx_rel core_frame (insert_claim_operation (W := W) worker op lease now).
Proof.
  unfold insert_claim_operation. case_match; [|apply tx_rel_ret; apply _].
  apply tx_rel_bind; [apply _ | apply tx_rel_get; apply _ |]. intros db0.
  case_match; [apply tx_rel_throw|]. apply tx_rel_modify. intros db. by constructor.
Qed.

Lemma start_resident_frame lease now : tx_rel core_frame (start_resident_process (W := W) lease now).
Proof.
  unfold start_resident_process. apply tx_rel_if; [apply tx_rel_ret; apply _|].
  case_match; [|apply tx_rel_throw].
  apply tx_rel_bind; [apply _ | apply tx_rel_lift; apply _ |]. intros p.
  apply tx_rel_bind; [apply _ | apply tx_rel_get; apply _ |]. intros db0.
  case_match. apply tx_rel_if; [|apply tx_rel_throw]. apply tx_rel_modify. intros db. by constructor.
Qed.

Lemma effect_core {A} (m : Tx W A) : tx_rel effect_frame m -> tx_rel core_frame m.
Proof. intros Hm db a db' E. by destruct (Hm _ _ _ E). Qed.

Lemma update_job_status_ok db id status error now db' u r :
  update_job_status_on_connection id status error now db = Ok (u, db') ->
  jobs db !! id = Some r ->
  db' = set_jobs (<[id := row_set_job (job_set_status status error now) r]> (jobs db)) db.
Proof.
  unfold update_job_status_on_connection, tx_bind, tx_get, tx_modify, update_row.
  intros Hu Hr. rewrite Hr in Hu. by simplify_eq/=.
Qed.

Lemma complete_active_ok db id at_ fp db' u :
  complete_active_lease_on_connection id at_ fp db = Ok (u, db') ->
  exists l, active_lease db id l /\
    db' = set_job_leases (<[id := lease_set_completed at_ fp l]> (job_leases db)) db.
Proof.
  unfold complete_active_lease_on_connection, tx_bind, tx_get.
  destruct (update_row _ _ _ _) as [[] m] eqn:E; [|done].
  apply update_row_true in E as (l & Hl & Ha & ->). intros [= <- <-]. by exists l.
Qed.

Lemma fail_active_ok db id at_ e db' u :
  fail_active_lease_on_connection id at_ e db = Ok (u, db') ->
  exists l, active_lease db id l /\
    db' = set_job_leases
            (<[id := lease_set_terminal LeaseStatus.Failed at_ (Some e) l]> (job_leases db)) db.
Proof.
  unfold fail_active_lease_on_connection, tx_bind, tx_get.
  destruct (update_row _ _ _ _) as [[] m] eqn:E; [|done].
  apply update_row_true in E as (l & Hl & Ha & ->). intros [= <- <-]. by exists l.
Qed.

Lemma expire_active_ok db id at_ e db' b :
  expire_active_lease_on_connection id at_ e db = Ok (b, db') ->
  (b = false /\ db' = db /\ forall l, active_lease db id l -> (at_ < lr_expires_at l)%Z) \/
  (b = true /\ exists l, active_lease db id l /\ (lr_expires_at l <= at_)%Z /\
    db' = set_job_leases
            (<[id := lease_set_terminal LeaseStatus.Expired at_ (Some e) l]> (job_leases db)) db).
Proof.
  unfold expire_active_lease_on_connection, tx_bind, tx_get, tx_modify, tx_ret.
  destruct (update_row _ _ _ _) as [[] m] eqn:E; intros [= <- <-].
  - apply update_row_true in E as (l & Hl & Hg & ->). bool_to_prop. right. split; [done|].
    by exists l.
  - left. split; [done|]. split.
    + apply update_row_false in E as ->. by destruct db.
    + intros l [Hl Ha]. unfold update_row in E. rewrite Hl, Ha in E. simpl in E.
      destruct (Z.leb_spec (lr_expires_at l) at_); [done|lia].
Qed.

Lemma resolve_fences_ok db lease outcome now db' u :
  resolve_captured_worker_drain_fence_on_connection lease outcome now db = Ok (u, db') ->
  db' = set_worker_drain_lease_fences
          (update_rows (fence_matches lease) (fence_resolve outcome now)
             (worker_drain_lease_fences db)) db.
Proof. by intros [= <-]. Qed.

(** Only fences of the lease itself are resolved. *)
Lemma resolve_fences_other (lease : JobLease) (outcome : string) (now : Z) (fs : gmap (Uuid * Uuid) DrainFenceRow) (key : Uuid * Uuid) :
  key.2 <> lease_id lease ->
  update_rows (fence_matches lease) (fence_resolve outcome now) fs !! key = fs !! key.
Proof.
  intros Hne. rewrite lookup_update_rows. unfold fence_matches.
  destruct (fs !! key); simpl; [|done]. by rewrite bool_decide_eq_false_2.
Qed.

(** ** Ending a lease

    The tables after [core_frame] effects around the job update, whichever
    comes first. *)
Lemma finish_after_effect db db2 jid r r' m :
  core_frame db db2 -> jobs db !! jid = Some r -> is_queued r = false ->
  jobs_evolve (<[jid := r']> (jobs db2)) m -> jobs_evolve (<[jid := r']> (jobs db)) m.
Proof.
  intros F Hr Hq Hm. etrans; [|exact Hm]. destruct F as [_ _ _ _ E].
  by eapply jobs_evolve_insert.
Qed.

Lemma active_job_leased db lid l :
  protocol_inv db -> active_lease db lid l ->
  exists r, jobs db !! lr_job_id l = Some r /\ is_queued r = false /\
    job_id (row_job r) = lr_job_id l /\
    job_status (row_job r) = JobStatus.Leased /\ attempts (row_job r) = lr_attempt l.
Proof.
  intros I Ha. destruct (inv_active _ I _ _ Ha) as (r & Hr & Hs & Hat). exists r.
  split; [done|]. split; [apply bool_decide_eq_false; congruence|].
  split; [by apply (inv_keyed _ I) | done].
Qed.

Lemma complete_lease_refines rt id res fp db lease db' :
  protocol_inv db -> complete_lease_tx rt id res fp db = Ok (lease, db') ->
  db' = db \/ protocol_step db db'.
Proof.
  intros I Hc. unfold complete_lease_tx in Hc.
  tx_step Hc. apply fetch_lease_ok in Hm as (-> & l0 & r0 & Hl0 & Hr0 & ->).
  tx_step Hc. tx_reads. tx_step Hc. apply fetch_lease_ok in Hm0 as (-> & l & r & Hl & Hr & ->).
  simplify_eq. case_bool_decide as Hst.
  { left. tx_step Hc. tx_step Hm0. repeat case_match; tx_step Hc; done. }
  tx_step Hc. tx_reads. destruct a0.
  { left. by tx_step Hc. }
  case_bool_decide as Hact; simpl in Hc; [|by tx_step Hc].
  tx_step Hc. apply complete_active_ok in Hm1 as (l2 & Hal & ->). pose proof Hal as [Hl2 _]. simplify_eq.
  destruct (active_job_leased _ _ _ I Hal) as (r2 & Hr2 & Hq & Hk & Hs & Hat). simplify_eq.
  tx_step Hc. apply (effect_core _ (apply_completed_frame _ _ _)) in Hm1 as F1.
  tx_step Hc. simpl in Hm2.
  pose proof (frame_jobs _ _ F1) as E1. simpl in E1.
  eapply update_job_status_ok in Hm2; [|by eapply jobs_evolve_settled]. subst.
  tx_step Hc. apply slo_frame in Hm2 as F2. tx_step Hc. apply resolve_fences_ok in Hm3. subst.
  tx_step Hc. right. destruct F1 as [L1 W1 R1 S1 _], F2 as [L2 W2 R2 S2 E2]. simpl in *.
  apply (ps_finish _ _ id l0 (lease_set_completed (utc_now rt) fp l0) r0 JobStatus.Succeeded None
           (utc_now rt) Hal); try done; simpl; try congruence.
  - intros key Hne. rewrite resolve_fences_other by done. by rewrite S2, S1.
  - etrans; [|exact E2]. by eapply jobs_evolve_insert.
Qed.

(** Failing a lease: the job goes back to the queue only while attempts
    remain. *)
(** The decision to retry writes nothing, and needs an attempt left. *)
Lemma will_retry_ok (retry : bool) (job : Job) db b db' :
  (if retry && (attempts job <? max_attempts job)%Z then
     (let! delivered := resident_bootstrap_was_delivered (W := W) job in tx_ret (negb delivered))
   else tx_ret false) db = Ok (b, db') ->
  db' = db /\ (b = true -> (attempts job < max_attempts job)%Z).
Proof.
  intros Hretry. split.
  - assert (Hread : reads_only (
      if retry && (attempts job <? max_attempts job)%Z then
        (let! delivered := resident_bootstrap_was_delivered (W := W) job in tx_ret (negb delivered))
      else tx_ret false)).
    { apply tx_rel_if; [|apply tx_rel_ret; apply _]. apply tx_rel_bind; [apply _|auto with sbw|].
      intros. apply tx_rel_ret; apply _. }
    by apply Hread in Hretry.
  - intros ->. destruct retry; simpl in Hretry; [|by tx_step Hretry].
    destruct (Z.ltb_spec (attempts job) (max_attempts job)); [done|]. by tx_step Hretry.
Qed.

Lemma fail_lease_refines rt id retry e db lease db' :
  protocol_inv db -> fail_lease_tx rt id retry e db = Ok (lease, db') ->
  db' = db \/ protocol_step db db'.
Proof.
  intros I Hc. unfold fail_lease_tx in Hc.
  tx_step Hc. apply fetch_lease_ok in Hm as (-> & l0 & r0 & Hl0 & Hr0 & ->).
  tx_step Hc. tx_reads. tx_step Hc. apply fetch_lease_ok in Hm0 as (-> & l & r & Hl & Hr & ->).
  simplify_eq. case_bool_decide as Hst; [left; by tx_step Hc|].
  case_bool_decide as Hact; simpl in Hc; [|by tx_step Hc].
  tx_step Hc. apply fail_active_ok in Hm0 as (l2 & Hal & ->). pose proof Hal as [Hl2 _]. simplify_eq.
  destruct (active_job_leased _ _ _ I Hal) as (r2 & Hr2 & Hq & Hk & Hs & Hat). simplify_eq.
  tx_step Hc. rename Hm0 into Hretry. rename a1 into will_retry.
  apply will_retry_ok in Hretry as [-> Hlt].
  tx_step Hc. right.
  assert (exists status db2, (status = JobStatus.Queued -> will_retry = true) /\
    status <> JobStatus.Leased /\ lease_id a1 = id /\
    core_frame (set_jobs (<[lr_job_id l0 := row_set_job (job_set_status status (Some e) (utc_now rt)) r0]>
                  (jobs db))
      (set_job_leases (<[id := lease_set_terminal LeaseStatus.Failed (utc_now rt) (Some e) l0]>
         (job_leases db)) db)) db2 /\ db2 = db1) as (status & db2 & Hq' & Hnl & Hid & F & ->).
  { destruct will_retry; simpl in Hm0.
    - tx_step Hm0. eapply update_job_status_ok in Hm1; [|done]. subst. tx_step Hm0.
      apply (effect_core _ (apply_retryable_frame _ _ _)) in Hm1. tx_step Hm0.
      exists JobStatus.Queued, db1.
      split; [done|]. split; [done|]. split; [done|]. by split.
    - tx_step Hm0. eapply update_job_status_ok in Hm1; [|done]. subst. tx_step Hm0.
      apply (effect_core _ (apply_failed_frame _ _ _)) in Hm1. tx_step Hm0.
      apply slo_frame in Hm2. tx_step Hm0. exists JobStatus.Failed, db1.
      split; [done|]. split; [done|]. split; [done|]. split; [by etrans | done]. }
  tx_step Hc. apply resolve_fences_ok in Hm1. subst. tx_step Hc.
  destruct F as [L1 W1 R1 S1 E1]. simpl in *.
  apply (ps_finish _ _ (lease_id lease) l0
           (lease_set_terminal LeaseStatus.Failed (utc_now rt) (Some e) l0) r0 status (Some e)
           (utc_now rt) Hal); try done; simpl; eauto.
  intros key Hne. rewrite resolve_fences_other by done. by rewrite S1.
Qed.

(** The tables once a lease has ended and before its job is written. *)
Definition ended db (lid : Uuid) (l' : LeaseRow) (fs : gmap (Uuid * Uuid) DrainFenceRow) : Db W :=
  set_worker_drain_lease_fences fs (set_job_leases (<[lid := l']> (job_leases db)) db).

Lemma ended_finish db db' (lid : Uuid) (l l' : LeaseRow) (r : JobRow) (status : JobStatus)
    (error : option string) (now : Z)
    (fs : gmap (Uuid * Uuid) DrainFenceRow) :
  active_lease db lid l -> same_identity l l' -> is_active l' = false ->
  jobs db !! lr_job_id l = Some r -> status <> JobStatus.Leased ->
  (status = JobStatus.Queued -> (attempts (row_job r) < max_attempts (row_job r))%Z) ->
  (forall key, key.2 <> lid -> fs !! key = worker_drain_lease_fences db !! key) ->
  core_frame (set_jobs (<[lr_job_id l := row_set_job (job_set_status status error now) r]> (jobs db))
                (ended db lid l' fs)) db' ->
  protocol_step db db'.
Proof.
  intros Ha Hid Hin Hr Hnl Hq Hfs [L1 W1 R1 S1 E1]. simpl in *.
  apply (ps_finish _ _ lid l l' r status error now Ha); try done.
  intros key Hne. rewrite S1. by apply Hfs.
Qed.

(** What expiry may leave of a job: back in the queue (or retired there by a
    side effect) while attempts remain, finished otherwise. *)
Definition expired_job_outcome (j j' : Job) : Prop :=
  job_status j' <> JobStatus.Leased /\
  ((max_attempts j <= attempts j)%Z ->
     job_status j' = JobStatus.Dead \/ job_status j' = JobStatus.Succeeded).

(** The outcome of an expired lease. *)
Lemma expire_outcome (rt : Runtime) (now : Z) (job : Job) db db' (u : unit) (r : JobRow) (lid : Uuid) (l l' : LeaseRow)
    (fs : gmap (Uuid * Uuid) DrainFenceRow) :
  protocol_inv db -> active_lease db lid l -> same_identity l l' -> is_active l' = false ->
  jobs db !! lr_job_id l = Some r -> job = row_job r ->
  (forall key, key.2 <> lid -> fs !! key = worker_drain_lease_fences db !! key) ->
  (let! desires_stop := resident_process_desires_stop job in
   if desires_stop then
      let! process_id := tx_lift (resident_process_id_from_job job) in
      match get_u64 (job_payload job) "generation" with
      | None => tx_throw missing_generation
      | Some generation =>
          let! _ := apply_completed_job_on_connection rt job
                      (ResultRunResidentProcess process_id generation (Some 0%Z)) in
          update_job_status_on_connection (job_id job) JobStatus.Succeeded None now
      end
    else
      let! bootstrap_was_delivered := resident_bootstrap_was_delivered job in
      let exhausted := (max_attempts job <=? attempts job)%Z || bootstrap_was_delivered in
      let next_status := if exhausted then JobStatus.Dead else JobStatus.Queued in
      let! _ := update_job_status_on_connection (job_id job) next_status (Some "lease expired") now in
      if exhausted then
        let! _ := apply_failed_job_on_connection rt job "lease expired" in
        record_terminal_slo_observation (row_to_lease_with_job lid l' job) false now
      else apply_retryable_job_on_connection rt job "lease expired") (ended db lid l' fs)
    = Ok (u, db') ->
  protocol_step db db' /\ job_leases db' = <[lid := l']> (job_leases db) /\
  exists r', jobs db' !! lr_job_id l = Some r' /\ expired_job_outcome (row_job r) (row_job r').
Proof.
  intros I Ha Hid Hin Hr -> Hfs Hc.
  destruct (active_job_leased _ _ _ I Ha) as (r2 & Hr2 & Hq & Hk & _). simplify_eq.
  tx_step Hc. tx_reads. destruct a.
  - tx_step Hc. tx_reads. tx_step Hm0. case_match; [|by tx_step Hc]. tx_step Hc.
    apply (effect_core _ (apply_completed_frame _ _ _)) in Hm0 as F.
    destruct F as [L1 W1 R1 S1 E1]. simpl in *.
    eapply update_job_status_ok in Hc; [|rewrite Hk; by eapply jobs_evolve_settled]. subst db'.
    split; [|split].
    + apply (ended_finish db _ lid l l' r JobStatus.Succeeded None now fs); try done.
      rewrite Hk. constructor; simpl; try done. by eapply jobs_evolve_insert.
    + done.
    + simpl. rewrite Hk, lookup_insert_eq. eexists. split; [done|]. split; [done | by right].
  - tx_step Hc. tx_reads. tx_step Hc. simpl in Hm1.
    eapply update_job_status_ok in Hm1; [|by rewrite Hk]. subst. rewrite Hk in Hc.
    destruct ((max_attempts (row_job r) <=? attempts (row_job r))%Z || a) eqn:Ex; simpl in Hc.
    + tx_step Hc. apply (effect_core _ (apply_failed_frame _ _ _)) in Hm1.
      apply slo_frame in Hc.
      assert (F : core_frame (set_jobs _ (ended db lid l' fs)) db') by (by etrans).
      destruct F as [L1 _ _ _ E1]. split; [|split; [done|]].
      * apply (ended_finish db _ lid l l' r JobStatus.Dead (Some "lease expired") now fs); try done.
        by etrans.
      * eexists. split; [eapply jobs_evolve_settled; [exact E1|apply lookup_insert_eq|done]|].
        split; [done | by left].
    + apply (effect_core _ (apply_retryable_frame _ _ _)) in Hc as F. bool_to_prop.
      destruct F as [L1 _ _ _ E1]. split; [|split; [done|]].
      * apply (ended_finish db _ lid l l' r JobStatus.Queued (Some "lease expired") now fs); try done.
        by apply (effect_core _ (apply_retryable_frame _ _ _)) in Hc.
      * destruct E1 as [E1 _]. destruct (E1 (lr_job_id l) _ (lookup_insert_eq _ _ _)) as (r' & Hr' & Ho).
        exists r'. split; [done|]. split; [|lia].
        destruct Ho as [->|(_ & _ & ? & _)]; done.
Qed.

Lemma expire_lease_spec rt id now db u db' :
  protocol_inv db -> expire_lease_tx rt id now db = Ok (u, db') ->
  (db' = db /\ forall l, active_lease db id l -> (now < lr_expires_at l)%Z) \/
  (protocol_step db db' /\ exists l, active_lease db id l /\ (lr_expires_at l <= now)%Z /\
     job_leases db' = <[id := lease_set_terminal LeaseStatus.Expired now (Some "lease expired") l]>
                        (job_leases db) /\
     exists r r', jobs db !! lr_job_id l = Some r /\ jobs db' !! lr_job_id l = Some r' /\
       expired_job_outcome (row_job r) (row_job r')).
Proof.
  intros I Hc. unfold expire_lease_tx in Hc.
  tx_step Hc. apply fetch_lease_ok in Hm as (-> & l0 & r0 & Hl0 & Hr0 & ->).
  tx_step Hc. tx_reads. tx_step Hc.
  apply expire_active_ok in Hm0 as [(-> & -> & Hnd)|(-> & l & Ha & Hdue & ->)]; simpl in Hc.
  { left. by tx_step Hc. }
  pose proof Ha as [Hl _]. simplify_eq. right.
  tx_step Hc. apply fetch_lease_ok in Hm0 as (-> & l2 & r2 & Hl2 & Hr2 & ->). simpl in *.
  rewrite lookup_insert_eq in Hl2. simplify_eq. simpl in Hr2. simplify_eq.
  tx_step Hc. apply resolve_fences_ok in Hm0. subst.
  eapply (expire_outcome rt now _ db db' u r0 id l0) in Hc as (Hp & HL & r' & Hr' & Ho); try done.
  - split; [done|]. exists l0. split; [done|]. split; [done|]. split; [done|]. eauto.
  - intros key Hne. by apply resolve_fences_other.
Qed.

Lemma expire_lease_refines rt id now db u db' :
  protocol_inv db -> expire_lease_tx rt id now db = Ok (u, db') ->
  db' = db \/ protocol_step db db'.
Proof. intros I He. destruct (expire_lease_spec _ _ _ _ _ _ I He) as [[-> _]|[? _]]; auto. Qed.

(** ** Claiming *)

Lemma quarantine_refines rt job db :
  core_frame db (quarantine_invalid_sterile_resident_job rt job db).2.
Proof.
  unfold quarantine_invalid_sterile_resident_job. case_match; [|reflexivity].
  case_match; [|reflexivity]. apply (run_tx_rel core_frame). intros db0 u db' Hc.
  unfold quarantine_tx in Hc. tx_step Hc. tx_step Hm.
  destruct (update_row _ _ _ _) as [[] m] eqn:E; tx_step Hc; [|reflexivity].
  apply update_row_true in E as (r & Hr & Hq & ->). constructor; simpl; try done. split.
  - intros k rk Hk. destruct (decide (k = job_id job)) as [->|].
    + rewrite lookup_insert_eq. simplify_eq. eexists. split; [done|]. right. done.
    + rewrite lookup_insert_ne by done. eauto.
  - intros k rk. destruct (decide (k = job_id job)) as [->|]; [naive_solver|].
    rewrite lookup_insert_ne by done. naive_solver.
Qed.

(** What a granted claim did. *)
Lemma try_claim_refines rt worker job secs op db lease db' :
  (forall r, jobs db !! job_id job = Some r ->
     (0 <= attempts job < max_attempts (row_job r))%Z) ->
  try_claim_tx rt worker job secs op db = Ok (Some lease, db') ->
  lease = granted_lease rt worker job secs /\ protocol_step db db' /\
  job_leases db !! lease_id lease = None /\
  (exists l, lr_worker_id l = worker_id worker /\
     job_leases db' = <[lease_id lease := l]> (job_leases db)) /\
  (Z.of_nat (slot_count db (worker_id worker)) < max_concurrent_jobs worker)%Z.
Proof.
  intros Hb Hc. unfold try_claim_tx in Hc.
  tx_step Hc. destruct a; simpl in Hc; [|by tx_step Hc].
  assert (exists wr, workers db !! worker_id worker = Some wr /\
            worker_accepts_claims (worker_status (row_worker wr)) = true) as (wr & Hwr & Hacc).
  { unfold lock_worker_for_claim_on_connection, tx_bind, tx_get, tx_ret in Hm.
    destruct (workers db !! worker_id worker) as [wr|]; simplify_eq. eauto. }
  tx_step Hc. destruct a; simpl in Hc; [|by tx_step Hc].
  tx_step Hc. tx_reads. destruct (Z.leb_spec (max_concurrent_jobs worker) a); [by tx_step Hc|].
  assert (Hslots : a = Z.of_nat (slot_count db (worker_id worker))).
  { unfold active_lease_count_for_worker_on_connection, tx_bind, tx_get in Hm1.
    destruct (try_u32 _) eqn:E; [|done]. apply try_u32_some in E as [-> _].
    by unfold tx_ret in Hm1; simplify_eq. }
  tx_step Hc. tx_reads. tx_step Hc. tx_step Hm3.
  destruct (update_row _ _ _ _) as [[] m] eqn:E; simpl in Hc; [|by tx_step Hc].
  apply update_row_true in E as (r & Hr & Hq & ->).
  tx_step Hc. tx_step Hm3. tx_step Hc.
  unfold insert_lease_on_connection in Hm3. tx_step Hm3. tx_step Hm4. simpl in Hm3.
  destruct (job_leases db1 !! new_uuid rt 0) eqn:Hfresh; tx_step Hm3.
  tx_step Hc. apply bind_placement_frame in Hm3. tx_step Hc. apply claim_operation_frame in Hm4.
  tx_step Hc. apply (effect_core _ (apply_claimed_frame _ _)) in Hm5.
  tx_step Hc. apply start_resident_frame in Hm6. tx_step Hc.
  assert (F : core_frame (set_job_leases _ (set_jobs _ db1)) db')
    by (etrans; [exact Hm3|]; etrans; [exact Hm4|]; by etrans).
  destruct F as [L1 W1 R1 S1 E1]. simpl in *.
  split; [done|]. split; [|split; [done|split; [eexists; split; [|exact L1]; done|lia]]]. specialize (Hb _ Hr).
  eapply (ps_grant _ _ (new_uuid rt 0) _ r (utc_now rt) wr); [..|exact L1| | |exact E1]; simpl.
  all: try done; try lia.
Qed.

(** ** Renewal *)

(** The columns of a lease snapshot that never change agree with its row. *)
Definition lease_snapshot db (lease : JobLease) : Prop :=
  forall l, job_leases db !! lease_id lease = Some l ->
    lease_worker_id lease = lr_worker_id l /\ lease_job_id lease = lr_job_id l /\
    lease_attempt lease = lr_attempt l.

(** The renewal deadline is at most the deadline of every open fence. *)
Lemma renewal_hard_deadline_le lease db key f :
  worker_drain_lease_fences db !! key = Some f -> fence_matches lease key f = true ->
  exists d, renewal_hard_deadline lease db = Some d /\ (d <= fence_hard_deadline f)%Z.
Proof.
  unfold renewal_hard_deadline.
  apply (map_fold_weak_ind (fun acc m =>
    m !! key = Some f -> fence_matches lease key f = true ->
    exists d, acc = Some d /\ (d <= fence_hard_deadline f)%Z)); [done|].
  intros k g m acc Hk IH. destruct (decide (k = key)) as [->|Hne].
  - rewrite lookup_insert_eq. intros [= ->] Hm. rewrite Hm. eexists. split; [done|].
    destruct acc; simpl; lia.
  - rewrite lookup_insert_ne by done. intros Hf Hm. destruct (IH Hf Hm) as (d & -> & Hd).
    destruct (fence_matches lease k g); [|by eauto]. eexists. split; [done|]. lia.
Qed.

(** Row-wise adjustment of one lease. *)
Lemma adjust_one db db' lid l l' :
  job_leases db !! lid = Some l -> lease_adjusted db lid l l' ->
  job_leases db' = <[lid := l']> (job_leases db) -> jobs_evolve (jobs db) (jobs db') ->
  workers db' = workers db -> same_drains db db' -> protocol_step db db'.
Proof.
  intros Hl Ha HL HJ HW HD. apply ps_adjust; [|done..]. intros k. rewrite HL.
  destruct (decide (k = lid)) as [->|].
  - rewrite lookup_insert_eq, Hl. done.
  - rewrite lookup_insert_ne by done. destruct (job_leases db !! k); simpl; [by left | done].
Qed.

(** What a successful extension wrote. *)
Lemma extend_lease_ok rt db_now lease secs db u db' :
  extend_lease_tx rt db_now lease secs db = Ok (u, db') ->
  exists l e, active_lease db (lease_id lease) l /\ lr_cancel_requested_at l = None /\
    (db_now < lr_expires_at l)%Z /\
    db' = set_job_leases (<[lease_id lease := lease_set_expires_at e l]> (job_leases db)) db /\
    (utc_now rt < e <= utc_now rt + seconds (effective_lease_seconds secs))%Z /\
    forall d, renewal_hard_deadline lease db = Some d -> (e <= d)%Z.
Proof.
  intros Hc. unfold extend_lease_tx in Hc. tx_step Hc. tx_step Hm. rename db1 into db.
  assert (Hs : (1 <= effective_lease_seconds secs)%Z).
  { unfold effective_lease_seconds, MIN_LEASE_SECONDS, MAX_LEASE_SECONDS, DEFAULT_LEASE_SECONDS.
    destruct secs; lia. }
  destruct (match renewal_hard_deadline lease db with Some d => (d <=? utc_now rt)%Z
            | None => false end) eqn:Hdl; [done|].
  destruct (update_row _ _ _ _) as [[] m] eqn:E; [|repeat (case_match; try done)].
  apply update_row_true in E as (l & Hl & Hg & ->). bool_to_prop. tx_step Hc.
  exists l. eexists. split; [done|]. split; [by destruct (lr_cancel_requested_at l)|].
  split; [done|]. split; [done|]. unfold seconds.
  destruct (renewal_hard_deadline lease db) as [d|]; split; [lia|intros d' [= <-]; lia|lia|done].
Qed.

Lemma renew_lease_ok rt db_now lease secs db u db' :
  renew_lease_tx rt db_now lease secs db = Ok (u, db') ->
  extend_lease_tx rt db_now lease secs db = Ok (u, db').
Proof.
  intros Hc. unfold renew_lease_tx in Hc. tx_step Hc. tx_step Hm. by case_match.
Qed.

Lemma renew_lease_refines rt db_now lease secs db u db' :
  lease_snapshot db lease -> renew_lease_tx rt db_now lease secs db = Ok (u, db') ->
  protocol_step db db'.
Proof.
  intros Hsnap Hc. apply renew_lease_ok, extend_lease_ok in Hc
    as (l & e & [Hl Hact] & Hcan & Hfut & -> & He & Hd).
  destruct (Hsnap _ Hl) as (Sw & Sj & Sa).
  eapply (adjust_one db _ (lease_id lease) l); try done. right.
  split; [done|]. split; [done|]. split; [done|]. right.
  intros sid d (f & Hf & E1 & E2 & E3 & <- & E5).
  destruct (renewal_hard_deadline_le lease db (sid, lease_id lease) f Hf) as (d' & Hd' & Hle).
  { unfold fence_matches. rewrite E1, E2, E3, E5, Sw, Sj, Sa. simpl.
    by rewrite !bool_decide_eq_true_2. }
  simpl. specialize (Hd _ Hd'). lia.
Qed.

(** ** Drain *)

Lemma drain_refines rt tenant w request db receipt db' :
  drain_tx rt tenant w request db = Ok (receipt, db') -> db' = db \/ protocol_step db db'.
Proof.
  intros Hc. unfold drain_tx in Hc. tx_step Hc. tx_step Hm. rename db1 into db.
  destruct (is_some (workers db !! w)) eqn:Hw; [|by tx_step Hc].
  tx_step Hc. apply fetch_receipt_reads in Hc as ->.
  destruct (worker_drain_receipts db !! drain_shutdown_id request) as [existing|] eqn:Er.
  { left. case_match; by tx_step Hm. }
  right. case_match; [by tx_step Hm|]. case_match; [by tx_step Hm|].
  destruct (update_row _ _ _ _) as [[] m] eqn:E; [|by tx_step Hm].
  apply update_row_true in E as (wr & Hwr & Hacc & ->). tx_step Hm.
  by eapply (ps_drain _ _ (drain_shutdown_id request) w wr
    (mkDrainReceiptRow w tenant (drain_hard_deadline request) (utc_now rt) None)).
Qed.

(** ** Worker rows *)

(** Rewriting one worker: the new status accepts claims only without an open
    receipt. *)
Lemma workers_one db db' w r r' :
  workers db !! w = Some r -> workers db' = <[w := r']> (workers db) ->
  (has_open_receipt db w = true ->
     worker_accepts_claims (worker_status (row_worker r')) = false) ->
  jobs db' = jobs db -> job_leases db' = job_leases db -> same_drains db db' ->
  protocol_step db db'.
Proof.
  intros Hr HW Hopen HJ HL HD. apply ps_workers; [|..|done|done|done].
  - intros k. rewrite HW. destruct (decide (k = w)) as [->|];
      [rewrite lookup_insert_eq; eauto | by rewrite lookup_insert_ne].
  - intros k rk. rewrite HW. destruct (decide (k = w)) as [->|].
    + rewrite lookup_insert_eq. intros [= <-].
      destruct (has_open_receipt db w); [right; right; auto | auto].
    + rewrite lookup_insert_ne by done. auto.
Qed.

Lemma register_refines rt tenant request hash db :
  protocol_inv db -> (register_worker rt tenant request hash db).2 = db \/
  protocol_step db (register_worker rt tenant request hash db).2.
Proof.
  intros I. unfold register_worker.
  destruct (trim_is_empty _); [by left|]. destruct (trim_is_empty _); [by left|].
  destruct (register_capabilities request) as [|c cs]; [by left|].
  destruct (validate_max_concurrent_jobs _) as [mc|e]; [|by left].
  destruct (fetch_worker_by_logical_identity _ _ _ _) as [w|].
  - simpl. unfold update_row. destruct (workers db !! worker_id w) as [r|] eqn:Er.
    + right. eapply (workers_one db _ (worker_id w) r); try done. simpl. by intros ->.
    + left. simpl. by destruct db.
  - unfold insert_worker. simpl. destruct (is_some (workers db !! new_uuid rt 0)) eqn:Hid; [by left|].
    destruct (is_some (fetch_worker_by_logical_identity _ _ _ _)); [by left|]. simpl. right.
    assert (Hnone : workers db !! new_uuid rt 0 = None) by (by destruct (workers db !! new_uuid rt 0)).
    apply ps_workers; try done; simpl.
    + intros k Hk. destruct (decide (k = new_uuid rt 0)) as [->|];
        [rewrite lookup_insert_eq; eauto | by rewrite lookup_insert_ne].
    + intros k rk. destruct (decide (k = new_uuid rt 0)) as [->|]; [|rewrite lookup_insert_ne by done; auto].
      intros _. right. left. apply not_true_is_false. intros Ho.
      apply has_open_receipt_true in Ho as (sid & d & Ho).
      destruct (inv_drain_closed _ I _ _ _ Ho) as (wr & Hwr & _). congruence.
Qed.

Lemma heartbeat_refines rt id request db :
  (heartbeat_worker rt id request db).2 = db \/
  protocol_step db (heartbeat_worker rt id request db).2.
Proof.
  unfold heartbeat_worker.
  destruct (match heartbeat_max_concurrent_jobs request with
            | None => _ | Some m => _ end) as [u|e]; [|by left].
  destruct (update_row _ _ _ _) as [[] m] eqn:E; [|by left]. right. simpl.
  apply update_row_true in E as (r & Hr & _ & ->).
  eapply (workers_one db _ id r); [done|..].
  - unfold insert_worker_heartbeat. by case_match.
  - simpl. by intros ->.
  - unfold insert_worker_heartbeat. by case_match.
  - unfold insert_worker_heartbeat. by case_match.
  - unfold insert_worker_heartbeat. by case_match.
Qed.

Lemma liveness_refines rt db : protocol_step db (reconcile_worker_liveness rt db).
Proof.
  apply ps_workers; try done; simpl.
  - intros w [r Hr]. rewrite lookup_update_rows, Hr. simpl. eauto.
  - intros w wr'. rewrite lookup_update_rows. destruct (workers db !! w) as [r|]; simpl; [|done].
    intros [= <-]. destruct (is_stale _ _); [right; by right | by left].
Qed.

Lemma legacy_drain_refines rt tenant w db :
  (drain_worker rt tenant w None db).2 = db \/
  protocol_step db (drain_worker rt tenant w None db).2.
Proof.
  simpl. unfold update_row. destruct (workers db !! w) as [r|] eqn:Er.
  - right. by eapply (workers_one db _ w r).
  - left. by destruct db.
Qed.

(** ** Fences and receipts *)

Lemma settle_refines key outcome now db :
  (forall f, worker_drain_lease_fences db !! key = Some f -> fence_settled db key f) ->
  resolve_worker_drain_fence key outcome now db = db \/
  protocol_step db (resolve_worker_drain_fence key outcome now db).
Proof.
  intros Hset. unfold resolve_worker_drain_fence, update_row.
  destruct (worker_drain_lease_fences db !! key) as [f|] eqn:Ef; [|left; by destruct db].
  destruct (is_none _); [|left; by destruct db].
  right. eapply (ps_settle _ _ key f); try done. by apply Hset.
Qed.

Lemma retire_refines now db : protocol_step db (retire_receipts now db).
Proof.
  apply ps_retire; try done. intros sid r'. simpl. rewrite lookup_update_rows.
  destruct (worker_drain_receipts db !! sid) as [r|]; simpl; [|done].
  intros [= <-]. by destruct (receipt_retires _ _ _ _).
Qed.

(** ** The queue *)

Lemma retire_rows_evolve (guard : Uuid -> JobRow -> bool) f (m : gmap Uuid JobRow) :
  (forall id r, guard id r = true -> job_retired r (f r)) ->
  jobs_evolve m (update_rows guard f m).
Proof.
  intros Hg. split.
  - intros id r Hr. rewrite lookup_update_rows, Hr. simpl. eexists. split; [done|].
    destruct (guard id r) eqn:E; eauto.
  - intros id r'. rewrite lookup_update_rows. intros Hr' Hn. by rewrite Hn in Hr'.
Qed.

Lemma retire_row_evolve id guard f (m : gmap Uuid JobRow) :
  (forall r, guard r = true -> job_retired r (f r)) ->
  jobs_evolve m (update_row id guard f m).2.
Proof.
  intros Hg. split.
  - intros k r Hr. rewrite lookup_update_row, Hr. simpl. eexists. split; [done|].
    destruct (_ && guard r) eqn:E; bool_to_prop; eauto.
  - intros k r'. rewrite lookup_update_row. intros Hr' Hn. by rewrite Hn in Hr'.
Qed.

Lemma retire_queued_refines id status e now db :
  status <> JobStatus.Queued -> status <> JobStatus.Leased ->
  core_frame db (retire_queued_job id status e now db).2.
Proof.
  intros Hq Hl. unfold retire_queued_job.
  pose proof (retire_row_evolve id is_queued (row_set_job (job_set_status status e now)) (jobs db)) as He.
  destruct (update_row _ _ _ _) as [b m]. constructor; try done. simpl in *. by apply He.
Qed.

Lemma store_placement_refines id payload class now db :
  (store_refreshed_placement id payload class now db).2 = db \/
  protocol_step db (store_refreshed_placement id payload class now db).2.
Proof.
  unfold store_refreshed_placement. destruct (update_row _ _ _ _) as [[] m] eqn:E; simpl.
  - apply update_row_true in E as (r & Hr & Hq & ->). right. by eapply (ps_placement _ _ id r).
  - apply update_row_false in E as ->. left. by destruct db.
Qed.

Lemma cancel_operation_frame rt job : tx_rel core_frame (cancel_operation_tx rt job).
Proof.
  intros db u db' Hc. unfold cancel_operation_tx in Hc. tx_step Hc. tx_step Hm.
  destruct (update_row _ _ _ _) as [[] m] eqn:E; [|by tx_step Hc].
  pose proof (f_equal snd E) as Em. simpl in Em. tx_step Hc. tx_step Hm.
  apply (effect_core _ (apply_cancelled_frame _ _)) in Hc. etrans; [|exact Hc].
  constructor; try done. simpl. apply retire_row_evolve. done.
Qed.

Lemma dead_snapshot_frame sid e now :
  tx_rel core_frame (dead_queued_snapshot_jobs_on_connection (W := W) sid e now).
Proof.
  intros db n db' Hc. unfold dead_queued_snapshot_jobs_on_connection in Hc.
  tx_step Hc. tx_step Hm. tx_step Hc. tx_step Hm. tx_step Hc.
  constructor; try done. simpl. apply retire_rows_evolve. intros _ r Hr.
  unfold is_queued_snapshot_job in Hr. bool_to_prop. done.
Qed.

Lemma cancel_sandbox_work_refines now tenant sid db u db' :
  cancel_sandbox_work_on_connection now tenant sid db = Ok (u, db') -> protocol_step db db'.
Proof.
  intros Hc. unfold cancel_sandbox_work_on_connection in Hc. tx_step Hc. tx_step Hm. tx_step Hc.
  apply ps_adjust; try done; simpl.
  - intros lid. rewrite lookup_update_rows. destruct (job_leases db !! lid) as [l|]; simpl; [|done].
    destruct (stop_cancels_lease _ _ _ _) eqn:E; [|by left]. right.
    unfold stop_cancels_lease in E. bool_to_prop. simpl. split; [done|]. split; [done|].
    split; [done|]. by left.
  - apply retire_rows_evolve. intros _ r Hr. unfold stop_cancels_job in Hr. bool_to_prop. done.
Qed.
End Writes.
