(* ===== verification/AgentLeases.v ===== *)
(** * The guest agent's leases

    [sandboxwich-agent/src/main.rs]: which jobs a daemon claims and accepts,
    and the task that renews the lease of a running job until it is lost or
    the job is told to stop.  The task is run against the renewal handler of
    [Leases], over a network whose calls take time, which decides for which lease
    durations the two agree. *)

From S2P Require Import Prelude AgentControl CoreTypes Json Store Leases Protocol Refinement.

Open Scope Z_scope.

(** ** Cancellation

    The reason is an atomic cell that is written once: [compare_exchange]
    from [None]. *)
Inductive LeaseCancellationReason : Type :=
| NotCancelled
| DesiredStop
| LeaseLost.

#[export] Instance reason_eq_dec : EqDecision LeaseCancellationReason.
Proof. solve_decision. Defined.

Definition cancel (current reason : LeaseCancellationReason) : LeaseCancellationReason :=
  match current with NotCancelled => reason | _ => current end.

Definition is_cancelled (reason : LeaseCancellationReason) : bool := negb (bool_decide (reason = NotCancelled)).

(** ** Renewal: [spawn_lease_renewal_task] *)

Definition MIN_RENEW_INTERVAL : Z := secs 5.
Definition FALLBACK_LEASE_DURATION : Z := secs 30.
Definition RENEW_ATTEMPTS : nat := 3.
Definition RENEW_RETRY_DELAY : Z := millis 250.

(** [to_std] refuses a negative duration. *)
Definition renew_interval (lease : JobLease) : Z :=
  let duration := expires_at lease - leased_at lease in
  if duration <? 0 then FALLBACK_LEASE_DURATION else Z.max (duration / 2) MIN_RENEW_INTERVAL.

(** The times the code does not choose: how long after the lease was granted the
    task starts to sleep, and how long the n-th call takes to reach the service and
    its answer to come back. *)
Record Latency : Type := mkLatency {
  lt_start : Z;
  lt_out : nat -> Z;
  lt_back : nat -> Z
}.

Section Renewal.
Context `{EnvelopeLib} {S : Type} (net : Latency).
(** One call of [renew_lease] that reaches the service at an instant. *)
Context (renew : Z -> S -> result unit AgentRequestError * S).

Record RenewalState : Type := mkRenewalState {
  rn_now : Z;
  rn_calls : nat;
  rn_reason : LeaseCancellationReason;
  rn_server : S
}.

(** The attempts of one round: whether the lease was renewed. *)
Fixpoint renew_attempts (more : nat) (s : RenewalState) : bool * RenewalState :=
  match more with
  | O => (false, s)
  | Datatypes.S more =>
      let arrives := rn_now s + lt_out net (rn_calls s) in
      let now := arrives + lt_back net (rn_calls s) in
      let calls := Datatypes.S (rn_calls s) in
      match renew arrives (rn_server s) with
      | (Ok _, server) => (true, mkRenewalState now calls (rn_reason s) server)
      | (Err error, server) =>
          if is_resident_desired_stop error then
            (true, mkRenewalState now calls (cancel (rn_reason s) DesiredStop) server)
          else
            renew_attempts more
              (mkRenewalState (if (0 <? more)%nat then now + RENEW_RETRY_DELAY else now) calls (rn_reason s) server)
      end
  end.

(** A round: whether the task goes on. *)
Definition renewal_round (interval : Z) (s : RenewalState) : bool * RenewalState :=
  let s := mkRenewalState (rn_now s + interval) (rn_calls s) (rn_reason s) (rn_server s) in
  let '(renewed, s) := renew_attempts RENEW_ATTEMPTS s in
  if renewed then (true, s)
  else if bool_decide (rn_reason s = DesiredStop) then (true, s)
  else (false, mkRenewalState (rn_now s) (rn_calls s) (cancel (rn_reason s) LeaseLost) (rn_server s)).

Fixpoint renewal_rounds (interval : Z) (rounds : nat) (s : RenewalState) : bool * RenewalState :=
  match rounds with
  | O => (true, s)
  | Datatypes.S rounds =>
      match renewal_round interval s with
      | (true, s) => renewal_rounds interval rounds s
      | (false, s) => (false, s)
      end
  end.

(** The task that serves a lease. *)
Definition lease_renewal_task (lease : JobLease) (rounds : nat) (server : S) : bool * RenewalState :=
  renewal_rounds (renew_interval lease) rounds
    (mkRenewalState (leased_at lease + lt_start net) 0 NotCancelled server).

(** ** What the task decides *)

Lemma renew_attempts_reason more : forall s renewed s', renew_attempts more s = (renewed, s') ->
  rn_reason s' = rn_reason s \/ renewed = true /\ rn_reason s' = cancel (rn_reason s) DesiredStop.
Proof.
  induction more as [|more IH]; intros s renewed s'; simpl; [intros [= <- <-]; by left|].
  destruct (renew _ (rn_server s)) as [[u|e] server]; [intros [= <- <-]; by left|].
  destruct (is_resident_desired_stop e); [intros [= <- <-]; by right|].
  intros Hr. by apply IH in Hr.
Qed.

(** A round goes on exactly unless the lease is lost, and a stop that was
    asked for is never turned into a loss. *)
Lemma renewal_round_reason interval s goes s' : rn_reason s <> LeaseLost ->
  renewal_round interval s = (goes, s') ->
  (goes = false <-> rn_reason s' = LeaseLost) /\ (rn_reason s = DesiredStop -> rn_reason s' = DesiredStop).
Proof.
  intros Hn. unfold renewal_round. destruct (renew_attempts _ _) as [renewed s1] eqn:E.
  apply renew_attempts_reason in E. simpl in E.
  destruct E as [E|[-> E]].
  - destruct renewed; [|case_bool_decide]; intros [= <- <-]; simpl; rewrite ?E in *;
      destruct (rn_reason s); simpl; naive_solver.
  - intros [= <- <-]. rewrite E. destruct (rn_reason s); simpl; naive_solver.
Qed.

Lemma renewal_rounds_reason interval rounds : forall s goes s', rn_reason s <> LeaseLost ->
  renewal_rounds interval rounds s = (goes, s') ->
  (goes = false <-> rn_reason s' = LeaseLost) /\ (rn_reason s = DesiredStop -> rn_reason s' = DesiredStop).
Proof.
  induction rounds as [|rounds IH]; intros s goes s' Hn; simpl.
  { intros [= <- <-]. split; [split; [done|by intros Hl]|done]. }
  destruct (renewal_round interval s) as [[] s1] eqn:E; apply renewal_round_reason in E as [E1 E2]; try done.
  - intros Hr. assert (Hn1 : rn_reason s1 <> LeaseLost) by (intros Hl; by apply E1 in Hl).
    destruct (IH _ _ _ Hn1 Hr) as [H1 H2]. split; [done|]. eauto.
  - intros [= <- <-]. done.
Qed.
End Renewal.

(** ** The task against the control plane *)

Definition status_number (s : StatusCode) : Z :=
  match s with
  | BAD_REQUEST => 400 | UNAUTHORIZED => 401 | FORBIDDEN => 403 | NOT_FOUND => 404 | CONFLICT => 409
  | GONE => 410 | PAYLOAD_TOO_LARGE => 413 | UNPROCESSABLE_ENTITY => 422 | TOO_MANY_REQUESTS => 429
  | INTERNAL_SERVER_ERROR => 500 | NOT_IMPLEMENTED => 501 | BAD_GATEWAY => 502 | SERVICE_UNAVAILABLE => 503
  end.

(** The body of an error's response, an envelope that reads back with its
    code. *)
Class ErrorBodyLib `{EnvelopeLib} : Type := {
  error_body : ApiError -> string;
  error_body_code e : envelope_code (error_body e) = Some (err_code e)
}.

Section Cadence.
Context {W : Type} `{UuidLib} `{EnvelopeLib} `{!ErrorBodyLib}.

(** [decode_json]: an error status is kept with its body. *)
Definition decode_answer {A} (answer : result A ApiError) : result A AgentRequestError :=
  match answer with
  | Ok a => Ok a
  | Err e => Err (Status (status_number (err_status e)) (error_body e))
  end.

(** [renew_lease] of the agent: it leaves the duration to the service. *)
Definition call_renew (lease : JobLease) (now : Z) (db : Db W) : result unit AgentRequestError * Db W :=
  let '(answer, db) := renew_lease (mkRuntime now (fun _ => 0%N)) now lease None db in
  (decode_answer (let? _ := answer in Ok tt), db).

(** The lease is held: its row is active and not cancelled, no drain bounds it
    and its process is not told to stop. *)
Record held (lease : JobLease) (expires : Z) (db : Db W) : Prop := mkHeld {
  held_row : exists l, job_leases db !! lease_id lease = Some l /\ is_active l = true /\
               lr_cancel_requested_at l = None /\ lr_expires_at l = expires /\
               is_Some (jobs db !! lr_job_id l);
  held_undrained : renewal_hard_deadline lease db = None;
  held_wanted : resident_stop_requested lease db = false
}.

Lemma held_extended lease expires expires' (db : Db W) l :
  held lease expires db -> job_leases db !! lease_id lease = Some l ->
  held lease expires' (set_job_leases (<[lease_id lease := lease_set_expires_at expires' l]> (job_leases db)) db).
Proof.
  intros [(l0 & Hl & Ha & Hc & He & Hj) Hd Hw] Hl'. rewrite Hl in Hl'. injection Hl' as <-. split.
  - exists (lease_set_expires_at expires' l0). simpl. rewrite lookup_insert_eq. done.
  - exact Hd.
  - exact Hw.
Qed.

(** A renewal in time is granted for the default duration. *)
Lemma call_renew_in_time lease expires now (db : Db W) : held lease expires db -> now < expires ->
  exists db', call_renew lease now db = (Ok tt, db') /\ held lease (now + secs 60) db'.
Proof.
  intros Hh Hn. destruct Hh as [(l & Hl & Ha & Hc & He & Hj) Hd Hw] eqn:Eh. clear Eh.
  pose proof (held_extended lease expires (now + secs 60) db l Hh Hl) as Hh'.
  exists (set_job_leases (<[lease_id lease := lease_set_expires_at (now + secs 60) l]> (job_leases db)) db).
  split; [|done]. unfold call_renew, renew_lease, renew_lease_tx, extend_lease_tx, run_tx, tx_get, tx_bind.
  simpl. rewrite Hl. simpl. rewrite Hc, Hd. unfold update_row. rewrite Hl, Ha, Hc, He. simpl.
  rewrite (proj2 (Z.ltb_lt _ _)) by done. unfold tx_modify.
  change (now + seconds DEFAULT_LEASE_SECONDS) with (now + secs 60). simpl.
  rewrite (held_wanted _ _ _ Hh').
  unfold fetch_lease, lease_with_job. simpl. rewrite lookup_insert_eq. simpl.
  destruct Hj as [j ->]. done.
Qed.

(** One that comes too late is refused, and the refusal is not a stop. *)
Lemma call_renew_too_late lease expires now (db : Db W) : held lease expires db -> expires <= now ->
  exists e, call_renew lease now db = (Err e, db) /\ is_resident_desired_stop e = false.
Proof.
  intros [(l & Hl & Ha & Hc & He & Hj) Hd Hw] Hn.
  exists (Status 404 (error_body (not_found "active lease not found"))). split.
  - unfold call_renew, renew_lease, renew_lease_tx, extend_lease_tx, run_tx, tx_get, tx_bind.
    simpl. rewrite Hl. simpl. rewrite Hc, Hd. unfold update_row. rewrite Hl, Ha, Hc, He. simpl.
    rewrite (proj2 (Z.ltb_ge _ _)) by done. done.
  - simpl. by rewrite error_body_code.
Qed.

(** Time passes. *)
Record forward (net : Latency) : Prop := {
  fw_start : 0 <= lt_start net;
  fw_out n : 0 <= lt_out net n;
  fw_back n : 0 <= lt_back net n
}.

Lemma round_in_time net lease expires s interval :
  let arrives := rn_now s + interval + lt_out net (rn_calls s) in
  held lease expires (rn_server s) -> arrives < expires ->
  exists db', renewal_round net (call_renew lease) interval s
    = (true, mkRenewalState (arrives + lt_back net (rn_calls s)) (S (rn_calls s)) (rn_reason s) db') /\
    held lease (arrives + secs 60) db'.
Proof.
  intros arrives Hh Hn. destruct (call_renew_in_time _ _ _ _ Hh Hn) as (db' & E & Hh').
  exists db'. split; [|done]. unfold renewal_round. simpl. fold arrives. by rewrite E.
Qed.

Lemma attempts_too_late net lease expires more s :
  forward net -> held lease expires (rn_server s) -> expires <= rn_now s + lt_out net (rn_calls s) ->
  exists s', renew_attempts net (call_renew lease) more s = (false, s') /\ rn_reason s' = rn_reason s /\
    rn_server s' = rn_server s /\ (more <> 0%nat -> expires <= rn_now s').
Proof.
  intros Hf. assert (Hdelay : 0 <= RENEW_RETRY_DELAY) by (vm_compute; discriminate).
  revert s. induction more as [|more IH]; intros s Hh Hn; [exists s; by split_and!|]. cbn [renew_attempts].
  pose proof (fw_out _ Hf (S (rn_calls s))) as Ho. pose proof (fw_back _ Hf (rn_calls s)) as Hb.
  destruct (call_renew_too_late lease expires (rn_now s + lt_out net (rn_calls s)) _ Hh Hn) as (e & -> & ->).
  set (now := if (0 <? more)%nat then _ else _).
  assert (Hnow : expires <= now) by (subst now; case_match; lia). clearbody now.
  destruct (IH (mkRenewalState now (S (rn_calls s)) (rn_reason s) (rn_server s))) as (s' & E & Er & Es & Hle);
    [done|simpl; lia|].
  exists s'. split_and!; [done..|]. intros _. destruct more; [injection E as <-; simpl; lia|auto].
Qed.

Lemma round_too_late net lease expires s interval :
  forward net -> held lease expires (rn_server s) -> expires <= rn_now s + interval + lt_out net (rn_calls s) ->
  rn_reason s = NotCancelled ->
  exists s', renewal_round net (call_renew lease) interval s = (false, s') /\ rn_reason s' = LeaseLost /\
    rn_server s' = rn_server s /\ expires <= rn_now s'.
Proof.
  intros Hf Hh Hn Hr. unfold renewal_round.
  destruct (attempts_too_late net lease expires RENEW_ATTEMPTS
    (mkRenewalState (rn_now s + interval) (rn_calls s) (rn_reason s) (rn_server s)) Hf Hh Hn) as (s' & -> & Er & Es & Hle).
  rewrite Er. cbn [rn_reason]. rewrite Hr. cbn. eexists. split_and!; [done|done|done|]. by apply Hle.
Qed.

(** Each of the first [rounds] renewals reaches the service before the lease ends:
    the first before [expires], and each later one within the sixty seconds that
    the one before it was given. *)
Definition all_in_time (net : Latency) (interval : Z) (rounds : nat) (expires now : Z) (calls : nat) : Prop :=
  (rounds <> 0%nat -> now + interval + lt_out net calls < expires) /\
  forall k, (S k < rounds)%nat -> lt_back net (calls + k) + interval + lt_out net (S (calls + k)) < secs 60.

Lemma all_in_time_step net interval rounds expires now calls :
  all_in_time net interval (S rounds) expires now calls <->
  now + interval + lt_out net calls < expires /\
  all_in_time net interval rounds (now + interval + lt_out net calls + secs 60)
    (now + interval + lt_out net calls + lt_back net calls) (S calls).
Proof.
  unfold all_in_time. split.
  - intros [Hone Htwo]. split_and!; [by apply Hone| |].
    + intros Hr. specialize (Htwo 0%nat ltac:(lia)). rewrite Nat.add_0_r in Htwo. lia.
    + intros k Hk. specialize (Htwo (S k) ltac:(lia)). by rewrite <- plus_n_Sm in Htwo.
  - intros (Hone & Htwo & Hthr). split; [done|]. intros [|k] Hk.
    + rewrite Nat.add_0_r. specialize (Htwo ltac:(lia)). lia.
    + rewrite <- plus_n_Sm. apply (Hthr k). lia.
Qed.

(** The task goes on exactly while every renewal comes in time; otherwise the job
    is cancelled, though the lease is still the worker's. *)
Lemma rounds_keep_iff net lease interval rounds s expires :
  forward net -> held lease expires (rn_server s) -> rn_reason s = NotCancelled ->
  exists goes s', renewal_rounds net (call_renew lease) interval rounds s = (goes, s') /\
    (goes = true <-> all_in_time net interval rounds expires (rn_now s) (rn_calls s)) /\
    rn_reason s' = (if goes then NotCancelled else LeaseLost) /\
    exists expires', held lease expires' (rn_server s') /\ (goes = false -> expires' <= rn_now s').
Proof.
  intros Hf. revert s expires. induction rounds as [|rounds IH]; intros s expires Hh Hr.
  { exists true, s. split_and!; [done| |done|by exists expires]. split; [|done]. intros _. split; [done|lia]. }
  cbn [renewal_rounds].
  pose proof (all_in_time_step net interval rounds expires (rn_now s) (rn_calls s)) as Hstep.
  destruct (Z.lt_ge_cases (rn_now s + interval + lt_out net (rn_calls s)) expires) as [Hlt|Hge].
  - destruct (round_in_time net lease expires s interval Hh Hlt) as (db' & -> & Hh').
    destruct (IH (mkRenewalState (rn_now s + interval + lt_out net (rn_calls s) + lt_back net (rn_calls s))
      (S (rn_calls s)) (rn_reason s) db') _ Hh' Hr) as (goes & s' & -> & Hiff & Hrest).
    exists goes, s'. split_and!; [done| |apply Hrest..]. rewrite Hiff, Hstep. simpl. tauto.
  - destruct (round_too_late net lease expires s interval Hf Hh Hge Hr) as (s' & -> & Er & Es & Hle).
    exists false, s'. split_and!; [done| |done|exists expires; by rewrite Es]. rewrite Hstep. split; [done|lia].
Qed.

Lemma renew_interval_granted lease n : 0 <= n -> expires_at lease = leased_at lease + seconds n ->
  renew_interval lease = Z.max (n * 500000000) (secs 5).
Proof.
  intros Hn He. unfold renew_interval. rewrite He. unfold seconds.
  replace (leased_at lease + n * 1000000000 - leased_at lease) with (n * 500000000 * 2) by lia.
  rewrite Z.div_mul by lia. destruct (Z.ltb_spec (n * 500000000 * 2) 0); [lia|done].
Qed.

(** What is left of the lease, and of each renewal, after the sleep of a round. *)
Definition renewal_slack (lease : JobLease) (granted : Z) : Z :=
  Z.min (seconds granted) (secs 60) - renew_interval lease.

(** C27. For which durations a job keeps its lease, however long calls take.  The
    task that renews the lease of a running job sleeps half the duration it was
    granted for (at least five seconds), but every renewal lasts sixty.  Against the
    handler, when every call is answered, the task goes on for as many rounds as
    every renewal reaches the service before the lease ends; otherwise the job is
    cancelled although nobody took the lease.  For a lease of 6 to 119 seconds some
    time is left for the start of the task and for the calls, and while they stay
    below it the lease is kept for ever; for a longer or shorter one the lease is
    lost in the first two rounds, however fast the calls are. *)
Theorem renewals_keep_lease_iff net requested lease (db : Db W) :
  let granted := effective_lease_seconds requested in
  let task rounds := lease_renewal_task net (call_renew lease) lease rounds db in
  forward net -> expires_at lease = leased_at lease + seconds granted -> held lease (expires_at lease) db ->
  (forall rounds, exists goes s', task rounds = (goes, s') /\
     (goes = true <-> all_in_time net (renew_interval lease) rounds (seconds granted) (lt_start net) 0) /\
     rn_reason s' = (if goes then NotCancelled else LeaseLost) /\
     exists expires, held lease expires (rn_server s') /\ (goes = false -> expires <= rn_now s')) /\
  (0 < renewal_slack lease granted <-> 5 < granted < 120) /\
  (lt_start net + lt_out net 0 < renewal_slack lease granted ->
   (forall k, lt_back net k + lt_out net (S k) < renewal_slack lease granted) ->
   forall rounds, (task rounds).1 = true) /\
  (renewal_slack lease granted <= 0 -> forall rounds, (2 <= rounds)%nat -> (task rounds).1 = false).
Proof.
  intros n task Hf He Hh.
  assert (Hn : 1 <= n) by (subst n; unfold effective_lease_seconds, MIN_LEASE_SECONDS, MAX_LEASE_SECONDS,
                             DEFAULT_LEASE_SECONDS; destruct requested; lia).
  assert (Hi : renew_interval lease = Z.max (n * 500000000) (secs 5)) by (apply renew_interval_granted; [lia|done]).
  assert (Hall : forall rounds, exists goes s', task rounds = (goes, s') /\
     (goes = true <-> all_in_time net (renew_interval lease) rounds (seconds n) (lt_start net) 0) /\
     rn_reason s' = (if goes then NotCancelled else LeaseLost) /\
     exists expires, held lease expires (rn_server s') /\ (goes = false -> expires <= rn_now s')).
  { intros rounds. unfold task, lease_renewal_task.
    destruct (rounds_keep_iff net lease (renew_interval lease) rounds
      (mkRenewalState (leased_at lease + lt_start net) 0 NotCancelled db) _ Hf Hh eq_refl) as (goes & s' & E & Hiff & Hrest).
    exists goes, s'. split_and!; [done| |apply Hrest..]. rewrite Hiff, He. unfold all_in_time. simpl.
    by setoid_replace (rounds <> 0%nat -> leased_at lease + lt_start net + renew_interval lease + lt_out net 0 < leased_at lease + seconds n)
      with (rounds <> 0%nat -> lt_start net + renew_interval lease + lt_out net 0 < seconds n) using relation iff
      by (split; intros Hx Hr; specialize (Hx Hr); lia). }
  pose proof (fw_out _ Hf 0) as Ho0. pose proof (fw_out _ Hf 1) as Ho1. pose proof (fw_back _ Hf 0) as Hb0.
  pose proof (fw_start _ Hf) as Hs0. unfold renewal_slack. unfold seconds, secs in *. split_and!; [done|lia| |].
  - intros Hone Htwo rounds. destruct (Hall rounds) as (goes & s' & -> & Hiff & _). apply Hiff. split; [lia|].
    intros k _. specialize (Htwo k). unfold secs. simpl. lia.
  - intros Hslack rounds Hr. destruct (Hall rounds) as (goes & s' & -> & Hiff & _). simpl.
    apply not_true_iff_false. intros [Hone Htwo]%Hiff. specialize (Hone ltac:(lia)). specialize (Htwo 0%nat ltac:(lia)).
    unfold secs in Htwo. simpl in Htwo. lia.
Qed.
End Cadence.
