(* ===== verification/AgentResident.v ===== *)
(** * Running a resident process

    [handle_resident_process_with_bootstrap_root] and
    [supervise_sterile_launcher] of [sandboxwich-agent/src/main.rs]: the agent
    spawns the process of a resident job, reports what it observes, and ends
    the lease.  The functions wait on three things that do not depend on them
    (the answers of the control plane, the child process, and the renewal task
    that may cancel the lease), so they are programs that read a script of
    such answers, one tick for each time they look, and write a trace of what
    they do.  A script that ends leaves the program waiting.  *)

From S2P Require Import Prelude CoreTypes AgentControl AgentLeases.

Open Scope nat_scope.

(** ** Scripts, traces and programs *)

Inductive ChildEvent : Type :=
| StillRunning
| Exited (code : option Z)
| WaitFailed.

Inductive SterileLauncherPhaseV1 : Type :=
| PhaseAccepted
| PhaseRunning
| PhaseTerminal.

#[export] Instance launcher_phase_eq_dec : EqDecision SterileLauncherPhaseV1.
Proof. solve_decision. Defined.

Record SterileLauncherStatusV1 : Type := mkLauncherStatus {
  ls_phase : SterileLauncherPhaseV1;
  ls_pid : option Z;
  ls_exit_code : option Z;
  ls_error : option string
}.

(** What the program finds when it looks: the cancellation cell, whether a
    call is answered with success, whether a spawn succeeds (with the child's
    identifier, if it has one), the child, the status of the launcher and
    whether the cell's lease has expired. *)
Record Tick : Type := mkTick {
  tk_reason : LeaseCancellationReason;
  tk_ok : bool;
  tk_spawn : option (option Z);
  tk_child : ChildEvent;
  tk_status : option SterileLauncherStatusV1;
  tk_expired : bool
}.

Record Observation : Type := mkObservation {
  ob_state : ResidentProcessObservedState;
  ob_pid : option Z;
  ob_exit_code : option Z;
  ob_error_code : option string
}.

(** Each call to the control plane is recorded with whether it succeeded. *)
Inductive Action : Type :=
| ASpawn (pid : option (option Z))
| AObserve (o : Observation) (delivered : bool)
| AExit (code : option Z)
| AKill
| AComplete (exit_code : option Z) (accepted : bool)
| AFail (retry accepted : bool).

Definition Prog (A : Type) : Type := list Tick -> list Action * option (A * list Tick).

Definition prog_ret {A} (a : A) : Prog A := fun s => ([], Some (a, s)).

Definition prog_bind {A B} (p : Prog A) (k : A -> Prog B) : Prog B := fun s =>
  match p s with
  | (tr, None) => (tr, None)
  | (tr, Some (a, s)) => let '(tr', r) := k a s in (tr ++ tr', r)
  end.

Notation "'let*' x ':=' p 'in' k" := (prog_bind p (fun x => k))
  (at level 10, x pattern, p at level 100, k at level 200) : rust_scope.

(** Looking once, and doing something. *)
Definition look : Prog Tick := fun s => match s with [] => ([], None) | t :: s => ([], Some (t, s)) end.

Definition act (a : Action) : Prog unit := fun s => ([a], Some (tt, s)).

(** Looking until there is an answer; what is done meanwhile is written
    down. *)
Fixpoint poll {A} (f : Tick -> list Action * option A) (s : list Tick) : list Action * option (A * list Tick) :=
  match s with
  | [] => ([], None)
  | t :: s =>
      match f t with
      | (tr, Some a) => (tr, Some (a, s))
      | (tr, None) => let '(tr', r) := poll f s in (tr ++ tr', r)
      end
  end.

(** ** The calls that are repeated *)

(** A call that is repeated until it succeeds or the lease is cancelled. *)
Definition until_resolved (call : bool -> Action) : Prog (result unit LeaseCancellationReason) :=
  poll (fun t =>
    if is_cancelled (tk_reason t) then ([], Some (Err (tk_reason t)))
    else if tk_ok t then ([call true], Some (Ok tt)) else ([call false], None)).

(** [post_resident_observation_until_resolved]. *)
Definition post_until_resolved (o : Observation) : Prog (result unit LeaseCancellationReason) :=
  until_resolved (AObserve o).

(** [complete_resident_lease_until_resolved]. *)
Definition complete_until_resolved (exit_code : option Z) : Prog (result unit LeaseCancellationReason) :=
  until_resolved (AComplete exit_code).

(** The two loops of [complete_desired_stop_resident_lease], which nothing
    interrupts. *)
Definition insist (call : bool -> Action) : Prog unit :=
  poll (fun t => if tk_ok t then ([call true], Some tt) else ([call false], None)).

(** The [select!] of the child and the cancellation. *)
Inductive Waited : Type :=
| ChildExited (code : option Z)
| ChildWaitFailed
| Cancelled (reason : LeaseCancellationReason).

Definition wait_child : Prog Waited :=
  poll (fun t =>
    match tk_child t with
    | Exited code => ([AExit code], Some (ChildExited code))
    | WaitFailed => ([AKill], Some ChildWaitFailed)
    | StillRunning =>
        ([], if is_cancelled (tk_reason t) then Some (Cancelled (tk_reason t)) else None)
    end).

(** ** Ending a lease *)

(** The response the function returns, or its error. *)
Inductive RunEnd : Type :=
| Completed (exit_code : option Z)
| FailedTerminal
| FailedRetryable
| RunError.

(** A call that is made once: [fail_lease_terminal], [fail_lease_retryable]. *)
Definition fail_lease (retry : bool) : Prog RunEnd :=
  let* t := look in
  let* _ := act (AFail retry (tk_ok t)) in
  prog_ret (if tk_ok t then (if retry then FailedRetryable else FailedTerminal) else RunError).

Definition stopped_observation : Observation := mkObservation ResidentProcessObservedState.Stopped None (Some 0%Z) None.

Definition complete_desired_stop : Prog RunEnd :=
  let* _ := insist (AObserve stopped_observation) in
  let* _ := insist (AComplete (Some 0%Z)) in
  prog_ret (Completed (Some 0%Z)).

(** [reconcile_resident_cancellation_without_child]. *)
Definition cancelled_without_child (reason : LeaseCancellationReason) : Prog RunEnd :=
  if bool_decide (reason = DesiredStop) then complete_desired_stop else fail_lease false.

(** [reconcile_resident_cancellation]: the child is killed and reaped
    first. *)
Definition cancelled_with_child (pid : option Z) (reason : LeaseCancellationReason) : Prog RunEnd :=
  let* _ := act AKill in
  if bool_decide (reason = DesiredStop) then complete_desired_stop
  else
    let* t := look in
    let* _ := act (AObserve (mkObservation ResidentProcessObservedState.Lost pid None (Some "lease_lost")) (tk_ok t)) in
    if tk_ok t then fail_lease true else prog_ret RunError.

(** ** The run *)

Definition terminal_observation (code : option Z) : Observation :=
  if bool_decide (code = Some 0%Z) then mkObservation ResidentProcessObservedState.Stopped None code None
  else mkObservation ResidentProcessObservedState.Failed None code (Some "resident_process_exit").

Definition finish (code : option Z) : Prog RunEnd :=
  let* posted := post_until_resolved (terminal_observation code) in
  match posted with
  | Err reason => cancelled_without_child reason
  | Ok _ =>
      let* completed := complete_until_resolved code in
      match completed with
      | Ok _ => prog_ret (Completed code)
      | Err reason => cancelled_without_child reason
      end
  end.

Definition spawn_failed_observation : Observation :=
  mkObservation ResidentProcessObservedState.Failed None None (Some "resident_process_spawn_failed").

(** The child is alive from its spawn on. *)
Definition serve_child (pid : option Z) (k : option Z -> Prog RunEnd) : Prog RunEnd :=
  let* started := post_until_resolved (mkObservation ResidentProcessObservedState.Starting pid None None) in
  match started with
  | Err reason => cancelled_with_child pid reason
  | Ok _ =>
      let* running := post_until_resolved (mkObservation ResidentProcessObservedState.Running pid None None) in
      match running with
      | Err reason => cancelled_with_child pid reason
      | Ok _ =>
          let* waited := wait_child in
          match waited with
          | Cancelled reason => cancelled_with_child pid reason
          | ChildWaitFailed => prog_ret RunError
          | ChildExited code => k code
          end
      end
  end.

(** The attempts that are left; the activation is validated before each. *)
Fixpoint run_attempts (attempts : nat) : Prog RunEnd :=
  match attempts with
  | O => prog_ret RunError
  | S more =>
      let* validated := look in
      if negb (tk_ok validated) then prog_ret RunError
      else
        let* t := look in
        let* _ := act (ASpawn (tk_spawn t)) in
        match tk_spawn t with
        | None =>
            if (0 <? more) then run_attempts more
            else
              let* posted := post_until_resolved spawn_failed_observation in
              match posted with
              | Err reason => cancelled_without_child reason
              | Ok _ => fail_lease false
              end
        | Some pid =>
            serve_child pid (fun code =>
              if bool_decide (code = Some 0%Z) || (more =? 0) then finish code else run_attempts more)
        end
  end.

Definition max_attempts (policy : ResidentProcessRestartPolicy) : nat :=
  match policy with
  | ResidentProcessRestartPolicy.OnFailure => 3
  | ResidentProcessRestartPolicy.Never => 1
  end.

Definition run_resident (policy : ResidentProcessRestartPolicy) : Prog RunEnd := run_attempts (max_attempts policy).

(** ** The launcher of a sterile cell *)

(** [wait_launcher_status]: a terminal launcher was running, too; [None] is
    the error of an expired cell. *)
Definition wait_launcher_status (phase : SterileLauncherPhaseV1) : Prog (option SterileLauncherStatusV1) :=
  poll (fun t =>
    ([], if tk_expired t then Some None
         else match tk_status t with
              | Some status =>
                  if bool_decide (ls_phase status = phase)
                     || (bool_decide (phase = PhaseRunning) && bool_decide (ls_phase status = PhaseTerminal))
                  then Some (Some status) else None
              | None => None
              end)).

(** An observation that is posted once. *)
Definition post_once (o : Observation) (k : Prog RunEnd) : Prog RunEnd :=
  let* t := look in
  let* _ := act (AObserve o (tk_ok t)) in
  if tk_ok t then k else prog_ret RunError.

Definition launcher_observation (status : SterileLauncherStatusV1) : Observation :=
  let success := bool_decide (ls_exit_code status = Some 0%Z) && bool_decide (ls_error status = None) in
  mkObservation (if success then ResidentProcessObservedState.Stopped else ResidentProcessObservedState.Failed)
    None (ls_exit_code status) (if success then None else Some "sterile_launcher_terminal").

Definition supervise_sterile_launcher : Prog RunEnd :=
  let* started := wait_launcher_status PhaseRunning in
  match started with
  | None => prog_ret RunError
  | Some started =>
      post_once (mkObservation ResidentProcessObservedState.Starting (ls_pid started) None None)
        (post_once (mkObservation ResidentProcessObservedState.Running (ls_pid started) None None)
          (let* terminal := wait_launcher_status PhaseTerminal in
           match terminal with
           | None => prog_ret RunError
           | Some terminal =>
               post_once (launcher_observation terminal)
                 (if bool_decide (ob_state (launcher_observation terminal) = ResidentProcessObservedState.Stopped)
                  then
                    let* completed := complete_until_resolved (ls_exit_code terminal) in
                    match completed with
                    | Ok _ => prog_ret (Completed (ls_exit_code terminal))
                    | Err _ => prog_ret RunError
                    end
                  else fail_lease false)
           end))
  end.

(** ** Traces that are in order

    What a trace has done so far: the child that is alive, how many were
    spawned, the last observation that was delivered, and whether the control
    plane has accepted an end of the lease. *)
Record Book : Type := mkBook {
  bk_child : option (option Z);
  bk_spawns : nat;
  bk_last : option ResidentProcessObservedState;
  bk_ended : bool
}.

Definition book_start : Book := mkBook None 0 None false.

Definition is_terminal_state (s : ResidentProcessObservedState) : bool :=
  match s with
  | ResidentProcessObservedState.Stopped | ResidentProcessObservedState.Failed | ResidentProcessObservedState.Lost => true
  | _ => false
  end.

Definition ends_as (exit_code : option Z) : ResidentProcessObservedState :=
  if bool_decide (exit_code = Some 0%Z) then ResidentProcessObservedState.Stopped else ResidentProcessObservedState.Failed.

(** One action, if it is allowed: one child at a time and at most [max];
    a live child is observed under its own identifier, and the end of the
    process only when no child is alive; a lease is completed only after the
    end was observed, as what it was observed; nothing follows its end. *)
Definition track (max : nat) (a : Action) (b : Book) : option Book :=
  let dead := bool_decide (bk_child b = None) in
  if bk_ended b then None
  else match a with
  | ASpawn None => if dead then Some b else None
  | ASpawn (Some pid) =>
      if dead && (bk_spawns b <? max) then Some (mkBook (Some pid) (S (bk_spawns b)) (bk_last b) false) else None
  | AObserve o delivered =>
      if (if is_terminal_state (ob_state o) then dead else bool_decide (bk_child b = Some (ob_pid o)))
      then Some (if delivered then mkBook (bk_child b) (bk_spawns b) (Some (ob_state o)) false else b)
      else None
  | AExit _ | AKill => if dead then None else Some (mkBook None (bk_spawns b) (bk_last b) false)
  | AComplete code accepted =>
      if dead && bool_decide (bk_last b = Some (ends_as code))
      then Some (mkBook None (bk_spawns b) (bk_last b) accepted) else None
  | AFail retry accepted =>
      if dead && (negb retry || bool_decide (bk_last b = Some ResidentProcessObservedState.Lost))
      then Some (mkBook None (bk_spawns b) (bk_last b) accepted) else None
  end.

Definition track_all (max : nat) (b : Book) (tr : list Action) : option Book :=
  foldl (fun ob a => ob ≫= track max a) (Some b) tr.

Lemma track_all_None max tr : foldl (fun ob a => ob ≫= track max a) None tr = None.
Proof. by induction tr. Qed.

Lemma track_all_app max b tr tr' : track_all max b (tr ++ tr') = track_all max b tr ≫= (fun b => track_all max b tr').
Proof.
  unfold track_all. rewrite foldl_app. destruct (foldl _ (Some b) tr); [done|]. apply track_all_None.
Qed.

(** Every trace of the program is in order, and what it returns fits. *)
Definition ensures {A} (max : nat) (b : Book) (p : Prog A) (Q : A -> Book -> Prop) : Prop :=
  forall s, exists b', track_all max b (p s).1 = Some b' /\
    match (p s).2 with Some (a, _) => Q a b' | None => True end.

Lemma ensures_ret {A} max b (a : A) (Q : A -> Book -> Prop) : Q a b -> ensures max b (prog_ret a) Q.
Proof. intros HQ s. by exists b. Qed.

Lemma ensures_bind {A B} max b (p : Prog A) (k : A -> Prog B) (Q : A -> Book -> Prop) (R : B -> Book -> Prop) :
  ensures max b p Q -> (forall a b', Q a b' -> ensures max b' (k a) R) -> ensures max b (prog_bind p k) R.
Proof.
  intros Hp Hk s. unfold prog_bind. destruct (Hp s) as (b1 & H1 & H2).
  destruct (p s) as [tr [[a s']|]]; simpl in *; [|eauto].
  destruct (Hk a b1 H2 s') as (b2 & H3 & H4). destruct (k a s') as [tr' r]; simpl in *.
  exists b2. by rewrite track_all_app, H1.
Qed.

Lemma ensures_look max b (Q : Tick -> Book -> Prop) : (forall t, Q t b) -> ensures max b look Q.
Proof. intros HQ [|t s]; exists b; split; simpl; auto. Qed.

Lemma ensures_act max b a b' (Q : unit -> Book -> Prop) : track max a b = Some b' -> Q tt b' -> ensures max b (act a) Q.
Proof. intros Ht HQ s. exists b'. by split. Qed.

(** Polling keeps the book until it has its answer. *)
Lemma ensures_poll {A} max b (f : Tick -> list Action * option A) (Q : A -> Book -> Prop) :
  (forall t, match f t with
             | (tr, None) => track_all max b tr = Some b
             | (tr, Some a) => exists b', track_all max b tr = Some b' /\ Q a b'
             end) ->
  ensures max b (poll f) Q.
Proof.
  intros Hf s. induction s as [|t s IH]; simpl; [by exists b|]. specialize (Hf t).
  destruct (f t) as [tr [a|]]; simpl; [done|].
  destruct (poll f s) as [tr' r]; simpl in *. destruct IH as (b1 & H1 & H2).
  exists b1. by rewrite track_all_app, Hf.
Qed.

(** The repeated calls. *)
Lemma ensures_until max b call (Q : result unit LeaseCancellationReason -> Book -> Prop) b' :
  track max (call false) b = Some b -> track max (call true) b = Some b' ->
  Q (Ok tt) b' -> (forall reason, Q (Err reason) b) -> ensures max b (until_resolved call) Q.
Proof.
  intros Hf Ht HQ He. apply ensures_poll. intros t.
  destruct (is_cancelled (tk_reason t)); [by exists b; split; [|apply He]|].
  destruct (tk_ok t); [by exists b'|done].
Qed.

Lemma ensures_insist max b call (Q : unit -> Book -> Prop) b' :
  track max (call false) b = Some b -> track max (call true) b = Some b' -> Q tt b' ->
  ensures max b (insist call) Q.
Proof. intros Hf Ht HQ. apply ensures_poll. intros t. destruct (tk_ok t); [by exists b'|done]. Qed.

Lemma ensures_wait max pid n last (Q : Waited -> Book -> Prop) :
  (forall code, Q (ChildExited code) (mkBook None n last false)) -> Q ChildWaitFailed (mkBook None n last false) ->
  (forall reason, Q (Cancelled reason) (mkBook (Some pid) n last false)) ->
  ensures max (mkBook (Some pid) n last false) wait_child Q.
Proof.
  intros He Hw Hc. apply ensures_poll. intros t. destruct (tk_child t); [|by eexists|by eexists].
  destruct (is_cancelled (tk_reason t)); [by eexists|done].
Qed.

(** *** The parts of a run *)

(** A run is over in order: no child is left, and the lease has ended unless
    the run failed. *)
Definition over (e : RunEnd) (b : Book) : Prop :=
  bk_child b = None /\ bk_ended b = match e with RunError => false | _ => true end.

Lemma fail_ensures max n last retry :
  (retry = true -> last = Some ResidentProcessObservedState.Lost) ->
  ensures max (mkBook None n last false) (fail_lease retry) over.
Proof.
  intros Hr. unfold fail_lease. eapply (ensures_bind _ _ _ _ (fun _ b => b = mkBook None n last false));
    [by apply ensures_look|]. intros t b ->.
  eapply (ensures_bind _ _ _ _ (fun _ b => b = mkBook None n last (tk_ok t))).
  - apply ensures_act with (b' := mkBook None n last (tk_ok t)); [|done].
    unfold track. simpl. destruct retry; [|done]. by rewrite (Hr eq_refl).
  - intros _ b ->. apply ensures_ret. by destruct (tk_ok t), retry.
Qed.

Lemma stop_ensures max n last : ensures max (mkBook None n last false) complete_desired_stop over.
Proof.
  unfold complete_desired_stop. set (stopped := Some ResidentProcessObservedState.Stopped).
  eapply (ensures_bind _ _ _ _ (fun _ b => b = mkBook None n stopped false)); [by eapply ensures_insist|].
  intros _ b ->. eapply (ensures_bind _ _ _ _ (fun _ b => b = mkBook None n stopped true)); [by eapply ensures_insist|].
  intros _ b ->. by apply ensures_ret.
Qed.

Lemma cancelled_without_ensures max n last reason :
  ensures max (mkBook None n last false) (cancelled_without_child reason) over.
Proof.
  unfold cancelled_without_child. case_bool_decide; [apply stop_ensures|by apply fail_ensures].
Qed.

Lemma cancelled_with_ensures max n last pid reason :
  ensures max (mkBook (Some pid) n last false) (cancelled_with_child pid reason) over.
Proof.
  unfold cancelled_with_child. eapply (ensures_bind _ _ _ _ (fun _ b => b = mkBook None n last false));
    [by eapply ensures_act|]. intros _ b ->. case_bool_decide; [apply stop_ensures|].
  eapply (ensures_bind _ _ _ _ (fun _ b => b = mkBook None n last false)); [by apply ensures_look|]. intros t b ->.
  eapply (ensures_bind _ _ _ _ (fun _ b => b = mkBook None n (if tk_ok t then Some ResidentProcessObservedState.Lost else last) false)).
  - eapply ensures_act; [|done]. unfold track. simpl. by destruct (tk_ok t).
  - intros _ b ->. destruct (tk_ok t); [by apply fail_ensures|]. by apply ensures_ret.
Qed.

Lemma finish_ensures max n last code : ensures max (mkBook None n last false) (finish code) over.
Proof.
  unfold finish. set (seen := Some (ends_as code)).
  assert (Ho : ob_state (terminal_observation code) = ends_as code /\ is_terminal_state (ends_as code) = true)
    by (unfold terminal_observation, ends_as; by case_bool_decide). destruct Ho as [Ho1 Ho2].
  eapply (ensures_bind _ _ _ _ (fun r b => b = mkBook None n (match r with Ok _ => seen | Err _ => last end) false)).
  - eapply ensures_until; [unfold track; simpl; by rewrite Ho1, Ho2..|done|done].
  - intros [u|reason] b ->; [|apply cancelled_without_ensures].
    eapply (ensures_bind _ _ _ _ (fun r b => b = mkBook None n seen (is_ok r))).
    + eapply ensures_until; [unfold track; simpl; by rewrite bool_decide_true..|done|done].
    + intros [v|reason] b ->; [by apply ensures_ret|apply cancelled_without_ensures].
Qed.

Lemma serve_ensures max n last pid k : 
  (forall code last', ensures max (mkBook None n last' false) (k code) over) ->
  ensures max (mkBook (Some pid) n last false) (serve_child pid k) over.
Proof.
  intros Hk. unfold serve_child.
  eapply (ensures_bind _ _ _ _ (fun r b => exists last', b = mkBook (Some pid) n last' false)).
  { eapply ensures_until; [unfold track; simpl; by rewrite bool_decide_true..| |]; eauto. }
  intros [u|reason] b [last1 ->]; [|apply cancelled_with_ensures].
  eapply (ensures_bind _ _ _ _ (fun r b => exists last', b = mkBook (Some pid) n last' false)).
  { eapply ensures_until; [unfold track; simpl; by rewrite bool_decide_true..| |]; eauto. }
  intros [v|reason] b [last2 ->]; [|apply cancelled_with_ensures].
  eapply (ensures_bind _ _ _ _ (fun w b => b = mkBook (match w with Cancelled _ => Some pid | _ => None end) n last2 false)).
  { by apply ensures_wait. }
  intros [code| |reason] b ->; [apply Hk|by apply ensures_ret|apply cancelled_with_ensures].
Qed.

Lemma attempts_ensures max attempts : forall n last, n + attempts <= max ->
  ensures max (mkBook None n last false) (run_attempts attempts) over.
Proof.
  induction attempts as [|more IH]; intros n last Hn; simpl; [by apply ensures_ret|].
  eapply (ensures_bind _ _ _ _ (fun _ b => b = mkBook None n last false)); [by apply ensures_look|]. intros t b ->.
  destruct (tk_ok t); [|by apply ensures_ret]. simpl.
  eapply (ensures_bind _ _ _ _ (fun _ b => b = mkBook None n last false)); [by apply ensures_look|]. intros t1 b ->.
  destruct (tk_spawn t1) as [pid|].
  - eapply (ensures_bind _ _ _ _ (fun _ b => b = mkBook (Some pid) (S n) last false)).
    + eapply ensures_act; [|done]. unfold track. simpl. by rewrite (proj2 (Nat.ltb_lt n max)) by lia.
    + intros _ b ->. apply serve_ensures. intros code last'.
      destruct (bool_decide (code = Some 0%Z) || (more =? 0)); [apply finish_ensures|]. apply IH. lia.
  - eapply (ensures_bind _ _ _ _ (fun _ b => b = mkBook None n last false)); [by eapply ensures_act|]. intros _ b ->.
    destruct (0 <? more); [apply IH; lia|].
    eapply (ensures_bind _ _ _ _ (fun r b => exists last', b = mkBook None n last' false)).
    { eapply ensures_until; [done|done| |]; eauto. }
    intros [u|reason] b [last1 ->]; [by apply fail_ensures|apply cancelled_without_ensures].
Qed.

(** C17. A resident run is in order.  Whatever the control plane answers, the
    child does and the renewal task decides, the run has at most one child at a
    time and at most as many as its restart policy allows; it observes a child as
    starting and running only while that child is alive and its end only when it
    is reaped; it completes the lease only as what was observed and ends it at
    most once; and when it returns no child is left and the lease has been ended,
    unless it returns an error. *)
Theorem resident_run_is_in_order policy s :
  exists b, track_all (max_attempts policy) book_start (run_resident policy s).1 = Some b /\
    match (run_resident policy s).2 with
    | None => True
    | Some (e, _) => bk_child b = None /\ bk_ended b = match e with RunError => false | _ => true end
    end.
Proof. apply (attempts_ensures (max_attempts policy) (max_attempts policy) 0 None). lia. Qed.

(** ** A stop is not a loss *)

(** What holds of every action and every result, on scripts whose ticks all
    satisfy [G]. *)
Definition always {A} (G : Tick -> Prop) (P : Action -> Prop) (p : Prog A) (Q : A -> Prop) : Prop :=
  forall s, Forall G s -> Forall P (p s).1 /\
    match (p s).2 with Some (a, s') => Q a /\ Forall G s' | None => True end.

Section Always.
Context (G : Tick -> Prop) (P : Action -> Prop).

Lemma always_ret {A} (a : A) (Q : A -> Prop) : Q a -> always G P (prog_ret a) Q.
Proof. intros HQ s Hs. by split. Qed.

Lemma always_bind {A B} (p : Prog A) (k : A -> Prog B) (Q : A -> Prop) (R : B -> Prop) :
  always G P p Q -> (forall a, Q a -> always G P (k a) R) -> always G P (prog_bind p k) R.
Proof.
  intros Hp Hk s Hs. unfold prog_bind. destruct (Hp s Hs) as [H1 H2].
  destruct (p s) as [tr [[a s']|]]; simpl in *; [|done]. destruct H2 as [HQ Hs'].
  destruct (Hk a HQ s' Hs') as [H3 H4]. destruct (k a s') as [tr' r]; simpl in *. split; [by apply Forall_app|done].
Qed.

Lemma always_look (Q : Tick -> Prop) : (forall t, G t -> Q t) -> always G P look Q.
Proof. intros HQ [|t s] Hs; simpl; [done|]. apply Forall_cons in Hs as [Ht Hs]. auto. Qed.

Lemma always_act a (Q : unit -> Prop) : P a -> Q tt -> always G P (act a) Q.
Proof. intros Ha HQ s Hs. split; [by constructor|done]. Qed.

Lemma always_poll {A} (f : Tick -> list Action * option A) (Q : A -> Prop) :
  (forall t, G t -> Forall P (f t).1 /\ match (f t).2 with Some a => Q a | None => True end) ->
  always G P (poll f) Q.
Proof.
  intros Hf s. induction s as [|t s IH]; intros Hs; simpl; [done|]. apply Forall_cons in Hs as [Ht Hs].
  destruct (Hf t Ht) as [H1 H2]. destruct (f t) as [tr [a|]]; simpl in *; [done|].
  specialize (IH Hs). destruct (poll f s) as [tr' r]; simpl in *. destruct IH as [H3 H4].
  split; [by apply Forall_app|done].
Qed.
End Always.

(** The lease is not lost and children can be spawned. *)
Definition not_lost (t : Tick) : Prop := tk_reason t <> LeaseLost /\ is_Some (tk_spawn t).

Definition no_failure (a : Action) : Prop := match a with AFail _ _ | ASpawn None => False | _ => True end.

Definition stop_reason {A} (r : result A LeaseCancellationReason) : Prop :=
  match r with Ok _ => True | Err reason => reason = DesiredStop end.

Lemma cancelled_is_stop t : not_lost t -> is_cancelled (tk_reason t) = true -> tk_reason t = DesiredStop.
Proof. intros [Hl _]. unfold is_cancelled. by destruct (tk_reason t). Qed.

Lemma until_not_lost call : no_failure (call true) -> no_failure (call false) ->
  always not_lost no_failure (until_resolved call) stop_reason.
Proof.
  intros Ht Hf. apply always_poll. intros t Hg. destruct (is_cancelled (tk_reason t)) eqn:E; simpl.
  - split; [done|]. by apply cancelled_is_stop.
  - destruct (tk_ok t); simpl; split; try done; by constructor.
Qed.

Lemma insist_not_lost call : no_failure (call true) -> no_failure (call false) ->
  always not_lost no_failure (insist call) (fun _ => True).
Proof. intros Ht Hf. apply always_poll. intros t _. destruct (tk_ok t); simpl; split; try done; by constructor. Qed.

Definition not_failed (e : RunEnd) : Prop := match e with Completed _ | RunError => True | _ => False end.

Lemma stop_not_lost : always not_lost no_failure complete_desired_stop not_failed.
Proof.
  unfold complete_desired_stop. eapply always_bind; [by apply insist_not_lost|]. intros _ _.
  eapply always_bind; [by apply insist_not_lost|]. intros _ _. by apply always_ret.
Qed.

Lemma cancelled_without_not_lost : always not_lost no_failure (cancelled_without_child DesiredStop) not_failed.
Proof. exact stop_not_lost. Qed.

Lemma cancelled_with_not_lost pid : always not_lost no_failure (cancelled_with_child pid DesiredStop) not_failed.
Proof.
  unfold cancelled_with_child. eapply always_bind; [by apply always_act with (Q := fun _ => True)|]. intros _ _.
  exact stop_not_lost.
Qed.

Lemma finish_not_lost code : always not_lost no_failure (finish code) not_failed.
Proof.
  unfold finish. eapply always_bind; [by apply until_not_lost|].
  intros [u|reason] Hr; [|simpl in Hr; subst; apply cancelled_without_not_lost].
  eapply always_bind; [by apply until_not_lost|].
  intros [v|reason] Hr'; [by apply always_ret|simpl in Hr'; subst; apply cancelled_without_not_lost].
Qed.

Lemma serve_not_lost pid k : (forall code, always not_lost no_failure (k code) not_failed) ->
  always not_lost no_failure (serve_child pid k) not_failed.
Proof.
  intros Hk. unfold serve_child. eapply always_bind; [by apply until_not_lost|].
  intros [u|reason] Hr; [|simpl in Hr; subst; apply cancelled_with_not_lost].
  eapply always_bind; [by apply until_not_lost|].
  intros [v|reason] Hr'; [|simpl in Hr'; subst; apply cancelled_with_not_lost].
  eapply (always_bind _ _ _ _ (fun w => match w with Cancelled reason => reason = DesiredStop | _ => True end)).
  - apply always_poll. intros t Hg. destruct (tk_child t); simpl; [|by split; [constructor|]..].
    split; [done|]. destruct (is_cancelled (tk_reason t)) eqn:E; [by apply cancelled_is_stop|done].
  - intros [code| |reason] Hw; [apply Hk|by apply always_ret|subst; apply cancelled_with_not_lost].
Qed.

Lemma attempts_not_lost attempts : always not_lost no_failure (run_attempts attempts) not_failed.
Proof.
  induction attempts as [|more IH]; simpl; [by apply always_ret|].
  eapply (always_bind _ _ _ _ (fun _ => True)); [by apply always_look|]. intros t _.
  destruct (tk_ok t); [|by apply always_ret]. simpl.
  eapply (always_bind _ _ _ _ not_lost); [by apply always_look|]. intros t1 [_ [pid Hp]]. rewrite Hp.
  eapply always_bind; [by apply always_act with (Q := fun _ => True)|]. intros _ _.
  apply serve_not_lost. intros code. destruct (bool_decide (code = Some 0%Z) || (more =? 0)); [apply finish_not_lost|done].
Qed.

(** ** Runs end *)

(** The control plane answers, a child can be spawned, and the one that runs
    exits. *)
Definition good (t : Tick) : Prop :=
  tk_ok t = true /\ is_Some (tk_spawn t) /\ exists code, tk_child t = Exited code.

(** With [n] ticks that may be anything, the program returns [c] ticks later
    at the latest. *)
Definition settles {A} (p : Prog A) (c : nat) : Prop :=
  forall n s, Forall good (drop n s) -> n + c <= length s ->
    exists a n', (p s).2 = Some (a, drop n' s) /\ n' <= n + c.

Lemma settles_mono {A} (p : Prog A) c c' : settles p c -> c <= c' -> settles p c'.
Proof.
  intros Hp Hc n s Hg Hl. destruct (Hp n s Hg ltac:(lia)) as (a & n' & E & Hn). exists a, n'. split; [done|lia].
Qed.

Lemma settles_ret {A} (a : A) : settles (prog_ret a) 0.
Proof. intros n s _ _. exists a, 0. split; [by rewrite drop_0|lia]. Qed.

Lemma settles_act a : settles (act a) 0.
Proof. intros n s _ _. exists tt, 0. split; [by rewrite drop_0|lia]. Qed.

Lemma settles_look : settles look 1.
Proof.
  intros n [|t s] _ Hl; simpl in *; [lia|]. exists t, 1. split; [|lia]. simpl. by rewrite drop_0.
Qed.

Lemma settles_poll {A} (f : Tick -> list Action * option A) :
  (forall t, good t -> is_Some (f t).2) -> settles (poll f) 1.
Proof.
  intros Hf n s. revert n. induction s as [|t s IH]; intros n Hg Hl; simpl in Hl; [lia|]. simpl.
  destruct (f t) as [tr [a|]] eqn:E; [exists a, 1; split; [simpl; by rewrite drop_0|lia]|].
  destruct n as [|n].
  - rewrite drop_0 in Hg. apply Forall_cons in Hg as [Ht _]. apply Hf in Ht. rewrite E in Ht. by destruct Ht.
  - simpl in Hg. destruct (IH n Hg ltac:(lia)) as (a & n' & E' & Hn).
    destruct (poll f s) as [tr' r]; simpl in *. subst r. exists a, (S n'). split; [done|lia].
Qed.

Lemma settles_bind {A B} (p : Prog A) (k : A -> Prog B) c c' :
  settles p c -> (forall a, settles (k a) c') -> settles (prog_bind p k) (c + c').
Proof.
  intros Hp Hk n s Hg Hl. destruct (Hp n s Hg ltac:(lia)) as (a & n1 & E & Hn1).
  unfold prog_bind. destruct (p s) as [tr r]; simpl in E. subst r.
  destruct (Hk a (n - n1) (drop n1 s)) as (a' & n2 & E' & Hn2).
  - rewrite drop_drop. destruct (decide (n1 <= n)).
    + by replace (n1 + (n - n1)) with n by lia.
    + replace (n1 + (n - n1)) with (n + (n1 - n)) by lia. rewrite <- drop_drop. by apply Forall_drop.
  - rewrite length_drop. lia.
  - destruct (k a (drop n1 s)) as [tr' r']; simpl in *. subst r'. exists a', (n1 + n2). rewrite drop_drop in *.
    split; [done|lia].
Qed.

Lemma settles_until call : settles (until_resolved call) 1.
Proof. apply settles_poll. intros t (-> & _ & _). destruct (is_cancelled (tk_reason t)); simpl; eauto. Qed.

Lemma settles_insist call : settles (insist call) 1.
Proof. apply settles_poll. intros t (-> & _ & _). simpl. eauto. Qed.

Lemma settles_wait : settles wait_child 1.
Proof. apply settles_poll. intros t (_ & _ & code & ->). simpl. eauto. Qed.

Lemma settles_fail retry : settles (fail_lease retry) 1.
Proof.
  unfold fail_lease. apply (settles_bind _ _ 1 0); [apply settles_look|]. intros t.
  apply (settles_bind _ _ 0 0); [apply settles_act|]. intros _. apply settles_ret.
Qed.

Lemma settles_stop : settles complete_desired_stop 2.
Proof.
  apply (settles_bind _ _ 1 1); [apply settles_insist|]. intros _.
  apply (settles_bind _ _ 1 0); [apply settles_insist|]. intros _. apply settles_ret.
Qed.

Lemma settles_without reason : settles (cancelled_without_child reason) 2.
Proof.
  unfold cancelled_without_child. case_bool_decide; [apply settles_stop|].
  apply (settles_mono _ 1); [apply settles_fail|lia].
Qed.

Lemma settles_with pid reason : settles (cancelled_with_child pid reason) 2.
Proof.
  apply (settles_bind _ _ 0 2); [apply settles_act|]. intros _. case_bool_decide; [apply settles_stop|].
  apply (settles_bind _ _ 1 1); [apply settles_look|]. intros t.
  apply (settles_bind _ _ 0 1); [apply settles_act|]. intros _.
  destruct (tk_ok t); [apply settles_fail|apply (settles_mono _ 0); [apply settles_ret|lia]].
Qed.

Lemma settles_finish code : settles (finish code) 4.
Proof.
  apply (settles_bind _ _ 1 3); [apply settles_until|]. intros [u|reason].
  - apply (settles_bind _ _ 1 2); [apply settles_until|]. intros [v|reason]; [|apply settles_without].
    apply (settles_mono _ 0); [apply settles_ret|lia].
  - apply (settles_mono _ 2); [apply settles_without|lia].
Qed.

Lemma settles_serve pid k c : 2 <= c -> (forall code, settles (k code) c) -> settles (serve_child pid k) (3 + c).
Proof.
  intros Hc Hk. apply (settles_bind _ _ 1 (2 + c)); [apply settles_until|].
  intros [u|reason]; [|apply (settles_mono _ 2); [apply settles_with|lia]].
  apply (settles_bind _ _ 1 (1 + c)); [apply settles_until|].
  intros [v|reason]; [|apply (settles_mono _ 2); [apply settles_with|lia]].
  apply (settles_bind _ _ 1 c); [apply settles_wait|].
  intros [code| |reason]; [apply Hk|apply (settles_mono _ 0); [apply settles_ret|lia]|].
  apply (settles_mono _ 2); [apply settles_with|lia].
Qed.

Lemma settles_attempts attempts : settles (run_attempts attempts) (5 * attempts + 4).
Proof.
  induction attempts as [|more IH]; [apply (settles_mono _ 0); [apply settles_ret|lia]|]. cbn [run_attempts].
  replace (5 * S more + 4) with (1 + (1 + (0 + (3 + (5 * more + 4))))) by lia.
  apply settles_bind; [apply settles_look|]. intros t.
  destruct (tk_ok t); simpl negb; cbv iota; [|apply (settles_mono _ 0); [apply settles_ret|lia]].
  apply settles_bind; [apply settles_look|]. intros t1. apply settles_bind; [apply settles_act|]. intros _.
  destruct (tk_spawn t1) as [pid|].
  - apply settles_serve; [lia|]. intros code.
    destruct (bool_decide (code = Some 0%Z) || (more =? 0)); [|done].
    apply (settles_mono _ 4); [apply settles_finish|lia].
  - destruct (0 <? more); [apply (settles_mono _ (5 * more + 4)); [done|lia]|].
    apply (settles_mono _ (1 + 2)); [|lia]. apply settles_bind; [apply settles_until|].
    intros [u|reason]; [apply (settles_mono _ 1); [apply settles_fail|lia]|apply settles_without].
Qed.


(** A process that fails twice is restarted and then completes; the post that
    failed is repeated. *)
Definition tick (ok : bool) (child : ChildEvent) : Tick := mkTick NotCancelled ok (Some (Some 41%Z)) child None false.

Definition restarted_script : list Tick :=
  replicate 4 (tick true StillRunning) ++ [tick true (Exited (Some 1%Z))] ++
  replicate 2 (tick true StillRunning) ++ [tick false StillRunning] ++ replicate 20 (tick true (Exited (Some 0%Z))).

Example restarted_run :
  (run_resident ResidentProcessRestartPolicy.OnFailure restarted_script).1
  = let child o d := AObserve (mkObservation o (Some 41%Z) None None) d in
    [ASpawn (Some (Some 41%Z)); child ResidentProcessObservedState.Starting true;
     child ResidentProcessObservedState.Running true; AExit (Some 1%Z);
     ASpawn (Some (Some 41%Z)); child ResidentProcessObservedState.Starting false;
     child ResidentProcessObservedState.Starting true; child ResidentProcessObservedState.Running true;
     AExit (Some 0%Z);
     AObserve (mkObservation ResidentProcessObservedState.Stopped None (Some 0%Z) None) true;
     AComplete (Some 0%Z) true].
Proof. vm_compute. reflexivity. Qed.


(** ** A stop does not reach the launcher *)

Definition waits_for_terminal (t : Tick) : Prop :=
  tk_expired t = false /\ exists pid, tk_status t = Some (mkLauncherStatus PhaseRunning pid None None).

Lemma wait_terminal_skips ws t s status : Forall waits_for_terminal ws ->
  tk_expired t = false -> tk_status t = Some status -> ls_phase status = PhaseTerminal ->
  wait_launcher_status PhaseTerminal (ws ++ t :: s) = ([], Some (Some status, s)).
Proof.
  intros Hw He Hs Hp. unfold wait_launcher_status. set (f := fun t : Tick => _).
  assert (Hskip : forall w, waits_for_terminal w -> f w = ([], None)).
  { intros w (Hwe & pid & Hws). unfold f. by rewrite Hwe, Hws. }
  assert (Hend : f t = ([], Some (Some status))).
  { unfold f. by rewrite He, Hs, Hp. }
  induction Hw as [|w ws Hw _ IH]; cbn [app poll]; [by rewrite Hend|]. by rewrite (Hskip w Hw), IH.
Qed.

(** A stop does not reach the launcher of a sterile cell.  While the
    launcher's process runs, the supervision waits for it whether or not a stop
    was asked for; and when it then exits with success, its end is observed but
    the lease is not completed: the supervision returns an error, from which the
    daemon fails the lease. *)
Theorem launcher_stop_ends_in_error t1 t2 t3 ws t4 t5 t6 s pid :
  tk_expired t1 = false -> tk_status t1 = Some (mkLauncherStatus PhaseRunning pid None None) ->
  tk_ok t2 = true -> tk_ok t3 = true -> Forall waits_for_terminal ws ->
  tk_expired t4 = false -> tk_status t4 = Some (mkLauncherStatus PhaseTerminal None (Some 0%Z) None) ->
  tk_ok t5 = true -> tk_reason t6 = DesiredStop ->
  supervise_sterile_launcher (t1 :: t2 :: t3 :: ws ++ t4 :: t5 :: t6 :: s)
  = ([AObserve (mkObservation ResidentProcessObservedState.Starting pid None None) true;
      AObserve (mkObservation ResidentProcessObservedState.Running pid None None) true;
      AObserve (mkObservation ResidentProcessObservedState.Stopped None (Some 0%Z) None) true],
     Some (RunError, s)).
Proof.
  intros E1 S1 O2 O3 Hw E4 S4 O5 R6. unfold supervise_sterile_launcher, post_once, prog_bind, look, act.
  assert (Hrun : wait_launcher_status PhaseRunning (t1 :: t2 :: t3 :: ws ++ t4 :: t5 :: t6 :: s)
    = ([], Some (Some (mkLauncherStatus PhaseRunning pid None None), t2 :: t3 :: ws ++ t4 :: t5 :: t6 :: s))).
  { unfold wait_launcher_status. cbn [poll]. rewrite E1, S1. by rewrite bool_decide_true. }
  assert (Hdone : complete_until_resolved (Some 0%Z) (t6 :: s) = ([], Some (Err DesiredStop, s))).
  { unfold complete_until_resolved, until_resolved. cbn [poll]. by rewrite R6. }
  rewrite Hrun. cbn -[wait_launcher_status app complete_until_resolved].
  rewrite O2. cbn -[wait_launcher_status app complete_until_resolved].
  rewrite O3. cbn -[wait_launcher_status app complete_until_resolved].
  rewrite (wait_terminal_skips ws t4 _ _ Hw E4 S4 eq_refl). cbn -[app complete_until_resolved].
  rewrite O5. unfold launcher_observation. cbn -[app complete_until_resolved].
  rewrite !bool_decide_true by done. cbn -[app complete_until_resolved].
  by rewrite Hdone.
Qed.

Definition launcher_tick (status : SterileLauncherPhaseV1) (code : option Z) (reason : LeaseCancellationReason) : Tick :=
  mkTick reason true None StillRunning (Some (mkLauncherStatus status None code None)) false.

Lemma launcher_stop_ends_in_error_witness :
  (supervise_sterile_launcher
     (launcher_tick PhaseRunning None NotCancelled :: launcher_tick PhaseRunning None NotCancelled ::
      launcher_tick PhaseRunning None NotCancelled :: replicate 5 (launcher_tick PhaseRunning None DesiredStop) ++
      launcher_tick PhaseTerminal (Some 0%Z) DesiredStop :: launcher_tick PhaseTerminal (Some 0%Z) DesiredStop ::
      launcher_tick PhaseTerminal (Some 0%Z) DesiredStop :: [])).2 = Some (RunError, []).
Proof.
  rewrite (launcher_stop_ends_in_error (launcher_tick PhaseRunning None NotCancelled)
             (launcher_tick PhaseRunning None NotCancelled) (launcher_tick PhaseRunning None NotCancelled)
             (replicate 5 (launcher_tick PhaseRunning None DesiredStop)) (launcher_tick PhaseTerminal (Some 0%Z) DesiredStop)
             (launcher_tick PhaseTerminal (Some 0%Z) DesiredStop) (launcher_tick PhaseTerminal (Some 0%Z) DesiredStop) [] None);
    try reflexivity.
  repeat (constructor; [split; [reflexivity|eexists; reflexivity]|]). constructor.
Defined.
