(* ===== verification/Scheduler.v ===== *)
(** * The scheduler: every writer of jobs and leases, interleaved

    The control plane as a transition system.  A state is the tables together
    with the job rows that concurrent candidate scans have read and may still
    act on; a step is one committed transaction or statement of any handler
    or sweeper, in any order.  The theorems are the guarantees the rest of
    the system builds on: one live lease per job, a bounded number of
    attempts, ended leases that stay ended, drains that close admission and
    capacity that is not exceeded. *)

From S2P Require Import Prelude CoreTypes Json Store Leases Workers Queue Protocol Refinement.
From stdpp Require Import sorting fin_maps.

Section Scheduler.
Context {W : Type} `{UuidLib} `{SerdeLib} `{JobEffects W} `{!JobEffectsLaws W}.

(** ** States and steps *)

Record Sys : Type := mkSys {
  tables : Db W;
  seen : list Job
}.

Definition with_tables (db : Db W) (s : Sys) : Sys := mkSys db (seen s).

(** A claim acts on a job some scan has read; placement refresh may have
    rewritten the copy's payload and execution class since. *)
Definition from_snapshot (read job : Job) : Prop :=
  job_id job = job_id read /\ job_kind job = job_kind read /\
  attempts job = attempts read /\ max_attempts job = max_attempts read.

(** The statement of [resolve_worker_drain_fence] is reached for a lease that
    was read with another worker, job or attempt, or as no longer active. *)
Definition fence_read_settled (db : Db W) (key : Uuid * Uuid) : Prop :=
  exists l f, job_leases db !! key.2 = Some l /\ worker_drain_lease_fences db !! key = Some f /\
    (is_active l = false \/ lr_worker_id l <> fence_worker_id f \/
     lr_job_id l <> fence_job_id f \/ lr_attempt l <> fence_attempt f).

(** [admissible] restricts the worker rows claims act on. *)
Variable admissible : Worker -> Prop.

Inductive sched_step : Sys -> Sys -> Prop :=
| st_scan s id r :
    jobs (tables s) !! id = Some r -> is_queued r = true ->
    sched_step s (mkSys (tables s) (row_job r :: seen s))
| st_claim s rt worker read job secs op :
    read ∈ seen s -> from_snapshot read job -> admissible worker ->
    sched_step s (with_tables (try_claim_job rt worker job secs op (tables s)).2 s)
| st_terminalize s rt job :
    sched_step s (with_tables
      (terminalize_invalid_sterile_resident_job_before_filtering rt job (tables s)).2 s)
| st_renew s rt db_now lease secs :
    lease_snapshot (tables s) lease ->
    sched_step s (with_tables (renew_lease rt db_now lease secs (tables s)).2 s)
| st_complete s rt id res :
    sched_step s (with_tables (complete_lease_in_transaction rt id res (tables s)).2 s)
| st_fail s rt id retry e :
    sched_step s (with_tables (fail_lease_in_transaction rt id retry e (tables s)).2 s)
| st_expire s rt id now :
    sched_step s (with_tables (expire_lease_if_still_active rt id now (tables s)).2 s)
| st_drain s rt tenant w request :
    sched_step s (with_tables (drain_worker rt tenant w request (tables s)).2 s)
| st_register s rt tenant request hash :
    sched_step s (with_tables (register_worker rt tenant request hash (tables s)).2 s)
| st_heartbeat s rt id request :
    sched_step s (with_tables (heartbeat_worker rt id request (tables s)).2 s)
| st_liveness s rt :
    sched_step s (with_tables (reconcile_worker_liveness rt (tables s)) s)
| st_settle s key outcome now :
    fence_read_settled (tables s) key ->
    sched_step s (with_tables (resolve_worker_drain_fence key outcome now (tables s)) s)
| st_retire_receipts s now :
    sched_step s (with_tables (retire_receipts now (tables s)) s)
| st_retire_queued s id status e now :
    status <> JobStatus.Queued -> status <> JobStatus.Leased ->
    sched_step s (with_tables (retire_queued_job id status e now (tables s)).2 s)
| st_placement s id payload class now :
    sched_step s (with_tables (store_refreshed_placement id payload class now (tables s)).2 s)
| st_cancel_operation s rt tenant id :
    sched_step s (with_tables (cancel_operation rt tenant id (tables s)).2 s)
| st_stop s now tenant sid :
    sched_step s (with_tables
      (run_tx (cancel_sandbox_work_on_connection now tenant sid) (tables s)).2 s)
| st_dead_snapshot s sid e now :
    sched_step s (with_tables
      (run_tx (dead_queued_snapshot_jobs_on_connection sid e now) (tables s)).2 s)
| st_create s rt tenant request :
    sched_step s (with_tables
      (run_tx (insert_job_on_connection (job_of_request rt tenant request)) (tables s)).2 s)
| st_other s db' :
    core_frame (tables s) db' -> sched_step s (with_tables db' s).

(** A fresh deployment: workers may exist, nothing is queued. *)
Definition initial (s : Sys) : Prop :=
  jobs (tables s) = ∅ /\ job_leases (tables s) = ∅ /\
  worker_drain_receipts (tables s) = ∅ /\ seen s = [].

Definition reachable (s : Sys) : Prop := exists s0, initial s0 /\ rtc sched_step s0 s.

(** Every job a scan has read still exists, with the attempts it was read
    with below its maximum. *)
Definition seen_ok (s : Sys) : Prop :=
  forall read, read ∈ seen s -> exists r, jobs (tables s) !! job_id read = Some r /\
    max_attempts read = max_attempts (row_job r) /\ job_kind read = job_kind (row_job r) /\
    (0 <= attempts read < max_attempts read)%Z.

Definition sched_inv (s : Sys) : Prop := protocol_inv (tables s) /\ seen_ok s.

(** ** Every step is a protocol step *)

Definition refines (db db' : Db W) : Prop := db' = db \/ protocol_step db db'.

Lemma insert_job_frame rt tenant request :
  tx_rel core_frame (insert_job_on_connection (W := W) (job_of_request rt tenant request)).
Proof.
  intros db u db' Hc. unfold insert_job_on_connection in Hc. tx_step Hc. tx_step Hm.
  tx_step Hc. tx_step Hm. destruct (jobs db1 !! _) eqn:E; [by tx_step Hc|].
  case_match; tx_step Hc. constructor; try done. simpl in *. split.
  - intros id r Hr. exists r. rewrite lookup_insert_ne by congruence. auto.
  - intros id r'. destruct (decide (id = new_uuid rt 0)) as [->|].
    + rewrite lookup_insert_eq. intros [= <-] _. left. split; [done|]. split; [done|].
      split; [done|]. simpl. lia.
    + rewrite lookup_insert_ne by done. naive_solver.
Qed.

Lemma settled_read db key f :
  fence_read_settled db key -> worker_drain_lease_fences db !! key = Some f -> fence_settled db key f.
Proof.
  intros (l & f' & Hl & Hf' & Hs) Hf l' [Hl' Ha] (E1 & E2 & E3). simplify_eq.
  destruct Hs as [?|[?|[?|?]]]; congruence.
Qed.

Lemma run_tx_refines {A} (m : Tx W A) db :
  (forall a db', m db = Ok (a, db') -> refines db db') -> refines db (run_tx m db).2.
Proof.
  intros Hm. unfold run_tx. destruct (m db) as [[a db']|] eqn:E; [by eapply Hm | by left].
Qed.

Lemma frame_refines {A} (m : Tx W A) db : tx_rel core_frame m -> refines db (run_tx m db).2.
Proof. intros Hm. right. apply ps_effect. by apply (run_tx_rel core_frame). Qed.

Lemma claim_refines rt worker read job secs op s :
  sched_inv s -> read ∈ seen s -> from_snapshot read job ->
  refines (tables s) (try_claim_job rt worker job secs op (tables s)).2.
Proof.
  intros [I Hseen] Hin (Hid & Hk & Ha & Hmax). unfold try_claim_job.
  destruct (negb _); [by left|].
  destruct (try_claim_tx _ _ _ _ _ _) as [[[lease|] db']|e] eqn:E; [|by left|].
  - simpl. right. eapply try_claim_refines in E; [apply E|].
    intros r Hr. destruct (Hseen _ Hin) as (r' & Hr' & Hm & _ & Hlt). rewrite Hid in Hr.
    simplify_eq. lia.
  - case_match; [|by left].
    pose proof (quarantine_refines rt job (tables s)) as Q.
    destruct (quarantine_invalid_sterile_resident_job rt job (tables s)) as [[u|e'] db'];
      right; by apply ps_effect.
Qed.

Lemma drain_worker_refines rt tenant w request db : refines db (drain_worker rt tenant w request db).2.
Proof.
  destruct request as [request|]; [|apply legacy_drain_refines]. unfold drain_worker.
  pose proof (run_tx_refines (drain_tx rt tenant w request) db) as R.
  destruct (run_tx _ db) as [[receipt|e] db'] eqn:E; simpl in *; apply R;
    intros; by eapply drain_refines.
Qed.

Lemma cancel_operation_refines rt tenant id db : refines db (cancel_operation rt tenant id db).2.
Proof.
  unfold cancel_operation. destruct (tenant_operation _ _ _) as [job|]; [|by left].
  destruct (negb _); [by left|]. destruct (negb _); [by left|].
  pose proof (frame_refines (cancel_operation_tx rt job) db (cancel_operation_frame _ _)) as R.
  by destruct (run_tx _ db) as [[]].
Qed.

Lemma renew_refines rt db_now lease secs db :
  lease_snapshot db lease -> refines db (renew_lease rt db_now lease secs db).2.
Proof.
  intros Hs. unfold renew_lease.
  pose proof (run_tx_refines (renew_lease_tx rt db_now lease secs) db) as R.
  destruct (run_tx _ db) as [[u|e] db'] eqn:E; simpl in *.
  - case_match; apply R; intros; right; by eapply renew_lease_refines.
  - apply R; intros; right; by eapply renew_lease_refines.
Qed.

Lemma terminalize_core rt job (db : Db W) :
  core_frame db (terminalize_invalid_sterile_resident_job_before_filtering rt job db).2.
Proof.
  unfold terminalize_invalid_sterile_resident_job_before_filtering.
  case_match; [reflexivity|]. case_match; [reflexivity|]. case_match; [|reflexivity].
  pose proof (quarantine_refines rt job db) as Q.
  by destruct (quarantine_invalid_sterile_resident_job rt job db) as [[u|e'] db'].
Qed.

Lemma sched_step_refines s s' :
  sched_inv s -> sched_step s s' -> refines (tables s) (tables s').
Proof.
  intros Hinv Hs. destruct Hs; cbn [tables with_tables]; try (by left).
  - by eapply claim_refines.
  - right. apply ps_effect, terminalize_core.
  - by apply renew_refines.
  - unfold complete_lease_in_transaction. case_match; [|by left].
    apply run_tx_refines. intros. eapply complete_lease_refines; [apply Hinv | done].
  - apply run_tx_refines. intros. eapply fail_lease_refines; [apply Hinv | done].
  - apply run_tx_refines. intros. eapply expire_lease_refines; [apply Hinv | done].
  - apply drain_worker_refines.
  - apply register_refines, Hinv.
  - apply heartbeat_refines.
  - right. apply liveness_refines.
  - apply settle_refines. intros f. by apply settled_read.
  - right. apply retire_refines.
  - right. apply ps_effect. by apply retire_queued_refines.
  - apply store_placement_refines.
  - apply cancel_operation_refines.
  - apply run_tx_refines. intros. right. by eapply cancel_sandbox_work_refines.
  - apply frame_refines, dead_snapshot_frame.
  - apply frame_refines, insert_job_frame.
  - right. by apply ps_effect.
Qed.

(** ** The invariant holds in every reachable state *)

Lemma seen_ok_step db db' sn :
  seen_ok (mkSys db sn) -> refines db db' -> seen_ok (mkSys db' sn).
Proof.
  intros Hs [->|Hp] read Hin; [by apply Hs|].
  destruct (Hs read Hin) as (r & Hr & Hm & Hk & Ha). simpl in *.
  destruct (protocol_step_job _ _ _ _ Hp Hr) as (r' & Hr' & Hk' & Hm').
  exists r'. split; [done|]. split; [congruence|]. split; [congruence|done].
Qed.

Lemma sched_step_inv s s' : sched_inv s -> sched_step s s' -> sched_inv s'.
Proof.
  intros Hinv Hs. pose proof (sched_step_refines _ _ Hinv Hs) as Hr.
  destruct Hinv as [I Hseen]. split.
  - destruct Hr as [->|Hp]; [done | by eapply protocol_step_inv].
  - destruct Hs as [[db sn] id r Hj Hq| | | | | | | | | | | | | | | | | | |];
      try (destruct s as [db sn]; by eapply seen_ok_step).
    intros read Hin. simpl in *. apply elem_of_cons in Hin as [->|Hin]; [|by apply Hseen].
    exists r. rewrite (inv_keyed _ I _ _ Hj). destruct (inv_attempts _ I _ _ Hj) as [Ha Hlt].
    specialize (Hlt Hq). split; [done|]. split; [done|]. split; [done|]. lia.
Qed.

Lemma initial_inv s : initial s -> sched_inv s.
Proof.
  intros (Hj & Hl & Hr & Hs). split.
  - apply protocol_inv_split. rewrite Hj, Hl. split; [by intros ? ? ?|]. split.
    + split; [|split; [|split]]; by intros ? ? ?.
    + split.
      * intros sid w d (r & Hlook & _). by rewrite Hr in Hlook.
      * intros sid w d lid l (r & Hlook & _). by rewrite Hr in Hlook.
  - intros read Hin. rewrite Hs in Hin. by apply not_elem_of_nil in Hin.
Qed.

Lemma steps_inv s s' : sched_inv s -> rtc sched_step s s' -> sched_inv s'.
Proof. intros I Hr. induction Hr; [done|]. eauto using sched_step_inv. Qed.

Lemma sched_reachable_inv s : reachable s -> sched_inv s.
Proof. intros (s0 & Hi & Hr). by eapply steps_inv; [apply initial_inv|]. Qed.

(** C5. The scheduler implements the lease protocol.  From any state the
    scheduler reaches, whatever handlers and sweepers then commit, in any order
    and on whatever stale reads, changes jobs, leases and drains only along the
    nine transitions of the abstract protocol. *)
Theorem scheduler_refines_protocol s s' :
  reachable s -> rtc sched_step s s' -> rtc protocol_step (tables s) (tables s').
Proof.
  intros Hr%sched_reachable_inv Hs. induction Hs as [s|s s1 s2 Hstep _ IH]; [done|].
  specialize (IH (sched_step_inv _ _ Hr Hstep)).
  destruct (sched_step_refines _ _ Hr Hstep) as [<-|Hp]; [done | by eapply rtc_l].
Qed.

(** C3. At most one worker holds a job.  In every reachable state, under any
    interleaving of claims from stale scans, renewals, completions, failures,
    expiries, drains, cancellations and sweeps, a job is [leased] exactly
    when some active lease names it, two active leases never name the same
    job, and the attempt of an active lease is the job's current attempt. *)
Theorem leased_iff_one_active_lease s id r :
  reachable s -> jobs (tables s) !! id = Some r ->
  (job_status (row_job r) = JobStatus.Leased <->
     exists lid l, active_lease (tables s) lid l /\ lr_job_id l = id) /\
  (forall lid l lid' l', active_lease (tables s) lid l -> active_lease (tables s) lid' l' ->
     lr_job_id l = id -> lr_job_id l' = id ->
     lid = lid' /\ lr_attempt l = attempts (row_job r)).
Proof.
  intros Hr Hj. destruct (sched_reachable_inv _ Hr) as [I _]. split; [split|].
  - by apply inv_leased.
  - intros (lid & l & Ha & <-). destruct (inv_active _ I _ _ Ha) as (r' & Hr' & Hs & _). congruence.
  - intros lid l lid' l' Ha Ha' Hl Hl'. split.
    + apply (inv_unique _ I _ _ _ _ Ha Ha'). congruence.
    + destruct (inv_active _ I _ _ Ha) as (r' & Hr' & _ & Hat). congruence.
Qed.

(** Attempts are bounded.  In every reachable state a job has used at
    most its maximum number of attempts, a queued job has at least one left,
    and the attempt number of an active lease lies between one and the
    maximum: no requeue, retry or stale claim pushes a job past its limit. *)
Theorem attempts_never_exceed_maximum s id r :
  reachable s -> jobs (tables s) !! id = Some r ->
  (0 <= attempts (row_job r) <= max_attempts (row_job r))%Z /\
  (job_status (row_job r) = JobStatus.Queued ->
     (attempts (row_job r) < max_attempts (row_job r))%Z) /\
  (forall lid l, active_lease (tables s) lid l -> lr_job_id l = id ->
     (lr_attempt l <= max_attempts (row_job r))%Z).
Proof.
  intros Hr Hj. destruct (sched_reachable_inv _ Hr) as [I _].
  destruct (inv_attempts _ I _ _ Hj) as [Ha Hq]. split; [done|]. split.
  - intros Hs. apply Hq. by apply bool_decide_eq_true.
  - intros lid l Hal Hid. destruct (inv_active _ I _ _ Hal) as (r' & Hr' & _ & Hat).
    rewrite Hid in Hr'. simplify_eq. lia.
Qed.

Lemma sched_step_lease s s' lid l :
  sched_inv s -> sched_step s s' -> job_leases (tables s) !! lid = Some l ->
  exists l', job_leases (tables s') !! lid = Some l' /\ same_identity l l' /\
    (is_active l = false -> l' = l).
Proof.
  intros Hinv Hs Hl. destruct (sched_step_refines _ _ Hinv Hs) as [->|Hp].
  - by exists l.
  - by eapply protocol_step_lease; [apply Hinv | ..].
Qed.

Lemma ended_lease_frozen s s' lid l :
  sched_inv s -> rtc sched_step s s' -> job_leases (tables s) !! lid = Some l ->
  is_active l = false -> job_leases (tables s') !! lid = Some l.
Proof.
  intros Hinv Hr. induction Hr as [|s1 s2 s3 H12 _ IH]; [done|]. intros Hl Ha.
  destruct (sched_step_lease _ _ _ _ Hinv H12 Hl) as (l' & Hl' & _ & Hf).
  rewrite (Hf Ha) in Hl'. apply IH; [by eapply sched_step_inv | done..].
Qed.

(** An ended lease is final.  Once a lease is completed, failed or
    expired, its row never changes again in any continuation: not its
    outcome, not its completion evidence, not its expiry. *)
Theorem ended_lease_is_final s s' lid l :
  reachable s -> rtc sched_step s s' -> job_leases (tables s) !! lid = Some l ->
  lr_status l <> LeaseStatus.Active -> job_leases (tables s') !! lid = Some l.
Proof.
  intros Hr Hs Hl Hst. eapply ended_lease_frozen; [by apply sched_reachable_inv | done..|].
  by apply bool_decide_eq_false.
Qed.

(** A drain closes admission and caps every lease.  While a worker has
    an open drain receipt it accepts no claim: every lease active for it in
    the next state was already active; and each of its active leases is
    captured by an unresolved fence and expires no later than the drain's
    hard deadline, whatever renewals were attempted. *)
Theorem drain_closes_admission s s' sid w d :
  reachable s -> open_receipt (tables s) sid w d -> sched_step s s' ->
  (forall lid l', active_lease (tables s') lid l' -> lr_worker_id l' = w ->
     exists l, active_lease (tables s) lid l /\ lr_worker_id l = w) /\
  (forall lid l, active_lease (tables s) lid l -> lr_worker_id l = w ->
     captured (tables s) sid lid l d /\ (lr_expires_at l <= d)%Z).
Proof.
  intros Hr Ho Hs. pose proof (sched_reachable_inv _ Hr) as Hinv. destruct Hinv as [I Hseen]. split.
  2:{ intros lid l Ha Hw. by eapply inv_drain_captured. }
  intros lid l' [Hl' Ha] Hw. destruct (job_leases (tables s) !! lid) as [l|] eqn:E.
  - destruct (sched_step_lease _ _ _ _ (conj I Hseen) Hs E) as (l2 & Hl2 & (_ & Hwid & _) & Hf).
    simplify_eq. exists l. split; [split; [done|] | congruence].
    destruct (is_active l) eqn:Eact; [done|]. rewrite (Hf eq_refl) in Ha. congruence.
  - exfalso. destruct (sched_step_refines _ _ (conj I Hseen) Hs) as [Heq|Hp]; [congruence|].
    destruct (protocol_step_new_lease _ _ _ _ Hp E Hl') as (wr & Hwr & Hacc).
    rewrite Hw in Hwr. destruct (inv_drain_closed _ I _ _ _ Ho) as (wr' & Hwr' & Hno). congruence.
Qed.
End Scheduler.
