(* ===== verification/LeaseProperties.v ===== *)
(** * What a lease guarantees

    Consequences of the scheduler's invariant for the parties that use
    leases: late outcomes are inert, completion can be retried, renewal and
    expiry never race into double execution, sweeps and drains finish, and a
    worker is never given more than its capacity. *)

From S2P Require Import Prelude CoreTypes Json Store Leases Workers Queue Protocol.
From S2P Require Import Refinement Scheduler.
From stdpp Require Import sorting fin_maps.

Section LeaseProperties.
Context {W : Type} `{UuidLib} `{SerdeLib} `{JobEffects W} `{!JobEffectsLaws W}.
Implicit Type db : Db W.

(** ** Durations *)

Lemma effective_lease_seconds_bounds requested :
  (MIN_LEASE_SECONDS <= effective_lease_seconds requested <= MAX_LEASE_SECONDS)%Z.
Proof.
  unfold effective_lease_seconds, MIN_LEASE_SECONDS, MAX_LEASE_SECONDS, DEFAULT_LEASE_SECONDS.
  destruct requested; lia.
Qed.

(** Lease durations are clamped.  Whatever [u64] a worker asks for, the
    granted lease ends between one second and one hour after it was granted,
    and a renewal that succeeds ends after the present and at most one hour
    ahead: no request yields a lease that is already expired or unbounded. *)
Theorem lease_durations_are_clamped rt worker job db_now lease requested db :
  (utc_now rt + seconds 1 <= expires_at (granted_lease rt worker job requested)
     <= utc_now rt + seconds 3600)%Z /\
  forall u db', renew_lease_tx rt db_now lease requested db = Ok (u, db') ->
    exists l', job_leases db' !! lease_id lease = Some l' /\
      (utc_now rt < lr_expires_at l' <= utc_now rt + seconds 3600)%Z.
Proof.
  pose proof (effective_lease_seconds_bounds requested) as [Hmin Hmax].
  unfold MIN_LEASE_SECONDS, MAX_LEASE_SECONDS in *. split; [simpl; unfold seconds; lia|].
  intros u db' Hr. apply renew_lease_ok, extend_lease_ok in Hr as (l & e & _ & _ & _ & -> & He & _).
  simpl. rewrite lookup_insert_eq. eexists. split; [done|]. simpl. unfold seconds in *. lia.
Qed.

(** ** Late outcomes *)

Lemma late_complete rt id res fp db l lease db' :
  job_leases db !! id = Some l -> is_active l = false ->
  complete_lease_tx rt id res fp db = Ok (lease, db') -> db' = db.
Proof.
  intros Hl Ha Hc. unfold complete_lease_tx in Hc.
  tx_step Hc. apply fetch_lease_ok in Hm as (-> & l0 & r0 & Hl0 & Hr0 & ->).
  tx_step Hc. tx_reads. tx_step Hc. apply fetch_lease_ok in Hm0 as (-> & l1 & r & Hl1 & Hr & ->).
  simplify_eq. case_bool_decide as Hst.
  { tx_step Hc. tx_step Hm0. repeat case_match; tx_step Hc; done. }
  tx_step Hc. tx_reads. destruct a0; [by tx_step Hc|].
  case_bool_decide as Hact; simpl in Hc; [|by tx_step Hc].
  exfalso. simpl in Hact. unfold is_active in Ha. by apply bool_decide_eq_false in Ha.
Qed.

Lemma late_fail rt id retry e db l lease db' :
  job_leases db !! id = Some l -> is_active l = false ->
  fail_lease_tx rt id retry e db = Ok (lease, db') -> db' = db.
Proof.
  intros Hl Ha Hc. unfold fail_lease_tx in Hc.
  tx_step Hc. apply fetch_lease_ok in Hm as (-> & l0 & r0 & Hl0 & Hr0 & ->).
  tx_step Hc. tx_reads. tx_step Hc. apply fetch_lease_ok in Hm0 as (-> & l1 & r & Hl1 & Hr & ->).
  simplify_eq. case_bool_decide as Hst; [by tx_step Hc|].
  case_bool_decide as Hact; simpl in Hc; [|by tx_step Hc].
  exfalso. simpl in Hact. unfold is_active in Ha. by apply bool_decide_eq_false in Ha.
Qed.

(** An expiry that is not due, or no longer active, changes nothing. *)
Lemma undue_expire rt id now db u db' :
  (forall l, active_lease db id l -> (now < lr_expires_at l)%Z) ->
  expire_lease_tx rt id now db = Ok (u, db') -> db' = db.
Proof.
  intros Hnd Hc. unfold expire_lease_tx in Hc.
  tx_step Hc. apply fetch_lease_ok in Hm as (-> & l0 & r0 & Hl0 & Hr0 & ->).
  tx_step Hc. tx_reads. tx_step Hc.
  apply expire_active_ok in Hm0 as [(-> & -> & _)|(-> & l & Ha & Hdue & ->)]; simpl in Hc.
  - by tx_step Hc.
  - specialize (Hnd _ Ha). lia.
Qed.

Lemma run_tx_unchanged {A} (m : Tx W A) db :
  (forall a db', m db = Ok (a, db') -> db' = db) -> (run_tx m db).2 = db.
Proof. intros Hm. unfold run_tx. destruct (m db) as [[a db']|] eqn:E; [by eapply Hm | done]. Qed.

(** Late outcomes are inert.  Once a lease has ended, a completion, a
    failure, an expiry or a renewal that still arrives for it changes no
    table at all: not the job, which may by then be leased to another worker,
    and none of the rows its side effects would have written. *)
Theorem ended_lease_ignores_late_outcomes rt id res retry e now db_now lease secs db l :
  job_leases db !! id = Some l -> lr_status l <> LeaseStatus.Active -> lease_id lease = id ->
  (complete_lease_in_transaction rt id res db).2 = db /\
  (fail_lease_in_transaction rt id retry e db).2 = db /\
  (expire_lease_if_still_active rt id now db).2 = db /\
  (renew_lease rt db_now lease secs db).2 = db.
Proof.
  intros Hl Hst Hid.
  assert (Ha : is_active l = false) by (by apply bool_decide_eq_false).
  split; [|split; [|split]].
  - unfold complete_lease_in_transaction. case_match; [|done].
    apply run_tx_unchanged. intros. by eapply late_complete.
  - apply run_tx_unchanged. intros. by eapply late_fail.
  - apply run_tx_unchanged. intros. eapply undue_expire; [|done].
    intros l' [Hl' Ha']. congruence.
  - unfold renew_lease.
    pose proof (run_tx_unchanged (renew_lease_tx rt db_now lease secs) db) as Hu.
    destruct (run_tx _ db) as [o db']. simpl in Hu. rewrite Hu; [destruct o; [case_match|]; done|].
    intros a db2 Hr. apply renew_lease_ok, extend_lease_ok in Hr as (l' & e' & [Hl' Ha'] & _).
    congruence.
Qed.

(** ** Completion can be retried *)

(** What the first successful completion of an active lease stores. *)
Lemma complete_active_stores rt id res fp db l lease db' :
  active_lease db id l -> complete_lease_tx rt id res fp db = Ok (lease, db') ->
  job_leases db' !! id = Some (lease_set_completed (utc_now rt) fp l) /\
  lease_status lease = LeaseStatus.Completed /\ is_Some (workers db !! lr_worker_id l).
Proof.
  intros [Hl Ha] Hc. unfold complete_lease_tx in Hc.
  assert (Hact : lr_status l = LeaseStatus.Active) by (by apply bool_decide_eq_true in Ha).
  tx_step Hc. apply fetch_lease_ok in Hm as (-> & l0 & r0 & Hl0 & Hr0 & ->).
  tx_step Hc. assert (Hw : is_Some (workers db !! lr_worker_id l)).
  { simplify_eq. unfold lock_worker_for_lease_terminalization_on_connection, tx_bind, tx_get in Hm.
    simpl in Hm. by destruct (workers db !! lr_worker_id l). }
  tx_reads. tx_step Hc. apply fetch_lease_ok in Hm0 as (-> & l1 & r & Hl1 & Hr & ->).
  simplify_eq. rewrite bool_decide_eq_false_2 in Hc by (simpl; congruence).
  tx_step Hc. tx_reads.
  assert (a0 = false) as ->.
  { unfold expired_clean_stop_replay in Hm0.
    rewrite (bool_decide_eq_false_2 (lease_status _ = LeaseStatus.Expired)) in Hm0
      by (simpl; congruence). simpl in Hm0. by tx_step Hm0. }
  rewrite (bool_decide_eq_true_2 (lease_status _ = LeaseStatus.Active)) in Hc by done. simpl in Hc.
  tx_step Hc. apply complete_active_ok in Hm1 as (l2 & [Hl2 _] & ->). simplify_eq.
  tx_step Hc. apply (effect_core _ (apply_completed_frame _ _ _)) in Hm1 as [L1 _ _ _ _].
  tx_step Hc. assert (L2 : job_leases db0 = job_leases db1).
  { unfold update_job_status_on_connection, tx_bind, tx_get, tx_modify in Hm1. by simplify_eq/=. }
  tx_step Hc. apply slo_frame in Hm2 as [L3 _ _ _ _]. tx_step Hc. apply resolve_fences_ok in Hm2.
  tx_step Hc. subst. simpl. split; [|done]. rewrite L3, L2, L1. simpl. by rewrite lookup_insert_eq.
Qed.

Lemma steps_worker adm s s' w :
  sched_inv s -> rtc (sched_step adm) s s' ->
  is_Some (workers (tables s) !! w) -> is_Some (workers (tables s') !! w).
Proof.
  intros I Hr. induction Hr as [|s1 s2 s3 H12 _ IH]; [done|]. intros Hw.
  apply IH; [by eapply sched_step_inv|].
  destruct (sched_step_refines _ _ _ I H12) as [->|Hp]; [done|]. by eapply protocol_step_worker.
Qed.

(** Completing an already completed lease compares fingerprints only. *)
Lemma complete_completed rt id res fp db l r :
  job_leases db !! id = Some l -> lr_status l = LeaseStatus.Completed ->
  jobs db !! lr_job_id l = Some r -> is_Some (workers db !! lr_worker_id l) ->
  complete_lease_tx rt id res fp db =
  match lr_completion_fingerprint l with
  | Some stored =>
      if String.eqb stored fp then Ok (row_to_lease_with_job id l (row_job r), db)
      else Err (bad_request "lease is already completed with a different result")
  | None => Err (conflict_code "completion_replay_unavailable"
                   "completed lease predates persisted completion evidence")
  end.
Proof.
  intros Hl Hst Hr [wr Hw].
  assert (Hf : fetch_lease_on_connection id db = Ok (row_to_lease_with_job id l (row_job r), db)).
  { unfold fetch_lease_on_connection, tx_bind, tx_get, tx_lift, fetch_lease, lease_with_job.
    rewrite Hl. simpl. by rewrite Hr. }
  unfold complete_lease_tx, tx_bind at 1. rewrite Hf.
  unfold lock_worker_for_lease_terminalization_on_connection, tx_bind, tx_get. simpl.
  rewrite Hw. simpl. rewrite Hf, bool_decide_eq_true_2 by done. rewrite Hl. simpl.
  destruct (lr_completion_fingerprint l); [|done]. by destruct (String.eqb _ _).
Qed.

(** A completion can be retried safely.  After a worker's completion of
    its active lease has succeeded, repeating the same result in any later
    state answers with the completed lease and changes nothing; a result with
    another fingerprint is rejected and changes nothing either.  So a worker
    that lost the response may resend it for as long as it likes. *)
Theorem completion_replay_is_idempotent adm s s' rt rt' id l res res' fp fp' lease db1 :
  reachable adm s -> active_lease (tables s) id l ->
  completion_result_fingerprint res = Ok fp -> completion_result_fingerprint res' = Ok fp' ->
  complete_lease_in_transaction rt id res (tables s) = (Ok lease, db1) ->
  rtc (sched_step adm) (with_tables db1 s) s' ->
  (exists lease', complete_lease_in_transaction rt' id res (tables s') = (Ok lease', tables s') /\
     lease_id lease' = id /\ lease_status lease' = LeaseStatus.Completed) /\
  (fp' <> fp -> complete_lease_in_transaction rt' id res' (tables s') =
     (Err (bad_request "lease is already completed with a different result"), tables s')).
Proof.
  intros Hreach Ha Hfp Hfp' Hc Hs. pose proof (sched_reachable_inv _ _ Hreach) as I.
  assert (I1 : sched_inv (with_tables db1 s)).
  { eapply (sched_step_inv adm); [exact I|].
    replace db1 with (complete_lease_in_transaction rt id res (tables s)).2 by (by rewrite Hc).
    apply st_complete. }
  assert (Hstored : complete_lease_tx rt id res fp (tables s) = Ok (lease, db1)).
  { unfold complete_lease_in_transaction, run_tx in Hc. rewrite Hfp in Hc.
    destruct (complete_lease_tx _ _ _ _ _) as [[? ?]|]; by simplify_eq. }
  pose proof (complete_active_stores _ _ _ _ _ _ _ _ Ha Hstored) as (Hrow & _ & Hw).
  assert (Hrow' : job_leases (tables s') !! id = Some (lease_set_completed (utc_now rt) fp l)).
  { by eapply (ended_lease_frozen adm (with_tables db1 s) s'). }
  assert (Hw1 : is_Some (workers (tables s') !! lr_worker_id l)).
  { eapply (steps_worker adm (with_tables db1 s)); [done|done|].
    destruct (complete_lease_refines _ _ _ _ _ _ _ (proj1 I) Hstored) as [->|Hp]; [done|].
    by eapply protocol_step_worker. }
  destruct (inv_lease_job _ (proj1 (steps_inv _ _ _ I1 Hs)) _ _ Hrow') as [r Hr].
  unfold complete_lease_in_transaction, run_tx. rewrite Hfp, Hfp'.
  rewrite !(complete_completed rt' id _ _ (tables s') _ r Hrow' eq_refl Hr Hw1). simpl. split.
  - rewrite String.eqb_refl. eauto.
  - intros Hne. destruct (String.eqb_spec fp fp'); [congruence | done].
Qed.

(** ** Expiry and renewal *)

(** Expiry acts exactly when it is due.  Sweeping a lease at an instant
    before its current expiry changes nothing, so a renewal that commits
    between the sweep's scan and its update defeats the sweep; a sweep of a
    due active lease that succeeds leaves the lease expired and its job no
    longer leased, and dead (or, for a stopped resident, succeeded) if its
    attempts are used up. *)
Theorem expiry_acts_exactly_when_due rt id now db l db' :
  protocol_inv db -> active_lease db id l ->
  ((now < lr_expires_at l)%Z -> (expire_lease_if_still_active rt id now db).2 = db) /\
  ((lr_expires_at l <= now)%Z -> expire_lease_if_still_active rt id now db = (Ok tt, db') ->
     exists l' r r', job_leases db' !! id = Some l' /\ lr_status l' = LeaseStatus.Expired /\
       jobs db !! lr_job_id l = Some r /\ jobs db' !! lr_job_id l = Some r' /\
       expired_job_outcome (row_job r) (row_job r')).
Proof.
  intros I Ha. split.
  - intros Hlt. apply run_tx_unchanged. intros. eapply undue_expire; [|done].
    intros l' [Hl' _]. destruct Ha as [Hl _]. by simplify_eq.
  - intros Hdue He. unfold expire_lease_if_still_active, run_tx in He.
    destruct (expire_lease_tx _ _ _ _) as [[u db1]|] eqn:E; simplify_eq.
    destruct (expire_lease_spec _ _ _ _ _ _ I E) as [[_ Hnd]|(_ & l2 & [Hl2 _] & _ & HL & r & r' & ? & ? & ?)].
    + specialize (Hnd _ Ha). lia.
    + destruct Ha as [Hl _]. simplify_eq. exists (lease_set_terminal LeaseStatus.Expired now (Some "lease expired") l), r, r'.
      rewrite HL, lookup_insert_eq. done.
Qed.

(** ** Sweeps finish *)

(** A successful expiry leaves no lease newly active and its own not due. *)
Lemma expire_one_leases rt id now db db' :
  protocol_inv db -> expire_lease_if_still_active rt id now db = (Ok tt, db') ->
  protocol_inv db' /\
  (forall lid l, active_lease db' lid l -> active_lease db lid l) /\
  (forall l, active_lease db' id l -> (now < lr_expires_at l)%Z).
Proof.
  intros I He. unfold expire_lease_if_still_active, run_tx in He.
  destruct (expire_lease_tx _ _ _ _) as [[u db1]|] eqn:E; simplify_eq.
  destruct (expire_lease_spec _ _ _ _ _ _ I E) as [[-> Hnd]|(Hp & l & Ha & _ & HL & _)]; [done|].
  split; [by eapply protocol_step_inv|]. split.
  - intros lid l' [Hl' Ha']. rewrite HL in Hl'. destruct (decide (lid = id)) as [->|].
    + rewrite lookup_insert_eq in Hl'. by simplify_eq.
    + by rewrite lookup_insert_ne in Hl'.
  - intros l' [Hl' Ha']. rewrite HL, lookup_insert_eq in Hl'. by simplify_eq.
Qed.

Lemma expire_each_leases rts ids now db db' :
  protocol_inv db -> expire_each rts ids now db = (Ok tt, db') ->
  protocol_inv db' /\
  (forall lid l, active_lease db' lid l -> active_lease db lid l) /\
  (forall lid l, lid ∈ ids -> active_lease db' lid l -> (now < lr_expires_at l)%Z).
Proof.
  revert rts db. induction ids as [|id ids IH]; intros rts db I He; simpl in He.
  - simplify_eq. split; [done|]. split; [done|]. intros lid l Hin. by apply not_elem_of_nil in Hin.
  - destruct (expire_lease_if_still_active (rts 0) id now db) as [[[]|e] db1] eqn:E; [|done].
    destruct (expire_one_leases _ _ _ _ _ I E) as (I1 & Hmono & Hid).
    destruct (IH _ _ I1 He) as (I2 & Hmono2 & Hids). split; [done|]. split; [eauto|].
    intros lid l Hin Ha. apply elem_of_cons in Hin as [->|Hin]; [apply Hid; by apply Hmono2 | eauto].
Qed.

(** The scan finds every due lease that fits one batch. *)
Definition due_count (db : Db W) (now : Z) : nat :=
  length (List.filter (fun kl => lease_is_due now kl.2) (map_to_list (job_leases db))).

Lemma due_leases_complete db now lid l :
  due_count db now <= LEASE_EXPIRY_BATCH_SIZE -> active_lease db lid l ->
  (lr_expires_at l <= now)%Z -> lid ∈ due_leases db now.
Proof.
  intros Hn [Hl Ha] Hd. unfold due_leases, due_count in *.
  rewrite take_ge by (by rewrite merge_sort_Permutation).
  apply list_elem_of_fmap. exists (lid, l). split; [done|].
  rewrite merge_sort_Permutation. apply list_elem_of_In, List.filter_In. split.
  - by apply list_elem_of_In, elem_of_map_to_list.
  - unfold lease_is_due. simpl. rewrite Ha. by apply Z.leb_le.
Qed.

(** The expiry sweep and the drain deadline finish their work.  When at
    most one batch of leases is due, a sweep that runs without error leaves
    no active lease past its expiry; and when it runs at or after the hard
    deadline of a worker's open drain, that worker holds no active lease at
    all afterwards. *)
Theorem sweep_clears_due_and_drained_leases rts now db db' :
  protocol_inv db -> due_count db now <= LEASE_EXPIRY_BATCH_SIZE ->
  expire_due_leases rts now db = (Ok tt, db') ->
  (forall lid l, active_lease db' lid l -> (now < lr_expires_at l)%Z) /\
  (forall sid w d, open_receipt db sid w d -> (d <= now)%Z ->
     forall lid l, active_lease db' lid l -> lr_worker_id l <> w).
Proof.
  intros I Hn He. destruct (expire_each_leases _ _ _ _ _ I He) as (I' & Hmono & Hids).
  assert (Hclear : forall lid l, active_lease db' lid l -> (now < lr_expires_at l)%Z).
  { intros lid l Ha. destruct (Z.lt_ge_cases now (lr_expires_at l)); [done|].
    eapply Hids; [|done]. eapply due_leases_complete; [done | by apply Hmono | done]. }
  split; [done|]. intros sid w d Ho Hd lid l Ha Hw.
  destruct (inv_drain_captured _ I _ _ _ _ _ Ho (Hmono _ _ Ha) Hw) as [_ Hexp].
  specialize (Hclear _ _ Ha). lia.
Qed.

(** ** Capacity *)

Lemma occupies_slot_mono db db' w lid l' :
  protocol_inv db -> protocol_step db db' -> job_leases db' !! lid = Some l' ->
  is_Some (job_leases db !! lid) -> occupies_slot db' w l' = true ->
  exists l, job_leases db !! lid = Some l /\ occupies_slot db w l = true.
Proof.
  intros I Hp Hl' [l Hl] Ho. exists l. split; [done|].
  destruct (protocol_step_lease _ _ _ _ I Hp Hl) as (l2 & Hl2 & (Hj & Hw & _) & Hf). simplify_eq.
  unfold occupies_slot in *. bool_to_prop.
  destruct (inv_lease_job _ I _ _ Hl) as [r Hr].
  destruct (protocol_step_job _ _ _ _ Hp Hr) as (r' & Hr' & Hk & _).
  rewrite Hr. rewrite Hj, Hr' in H3. rewrite <- Hk, H3, andb_true_r.
  apply andb_true_iff. split; [apply bool_decide_eq_true; congruence|].
  destruct (is_active l) eqn:E; [done|]. rewrite (Hf eq_refl) in H4. congruence.
Qed.

(** The leases a step adds for worker [w]: none, or the one named. *)
Definition adds_at_most (db db' : Db W) (w : Uuid) (o : option Uuid) : Prop :=
  forall k l', job_leases db' !! k = Some l' -> lr_worker_id l' = w ->
    is_Some (job_leases db !! k) \/ o = Some k.

Lemma slot_count_step db db' w o :
  protocol_inv db -> protocol_step db db' -> adds_at_most db db' w o ->
  slot_count db' w <= slot_count db w + match o with Some _ => 1 | None => 0 end.
Proof.
  intros I Hp Hadd. unfold slot_count. rewrite <- !size_dom.
  set (A := dom (filter (fun kl => occupies_slot db' w kl.2 = true) (job_leases db'))).
  set (B := dom (filter (fun kl => occupies_slot db w kl.2 = true) (job_leases db))).
  assert (Hsub : forall k, k ∈ A -> k ∈ B \/ o = Some k).
  { intros k Hk. apply elem_of_dom in Hk as [l' Hk]. apply map_lookup_filter_Some in Hk as [Hl' Ho].
    assert (Hw : lr_worker_id l' = w) by (unfold occupies_slot in Ho; by bool_to_prop).
    destruct (Hadd _ _ Hl' Hw) as [Hs|Hs]; [left|by right].
    destruct (occupies_slot_mono _ _ _ _ _ I Hp Hl' Hs Ho) as (l & Hl & Hol).
    apply elem_of_dom. exists l. by apply map_lookup_filter_Some. }
  destruct o as [lid|].
  - assert (HA : A ⊆ B ∪ {[lid]}) by (intros k Hk; destruct (Hsub k Hk); set_solver).
    apply subseteq_size in HA. pose proof (size_union_alt B {[lid]}) as Hu.
    pose proof (subseteq_size ({[lid]} ∖ B) {[lid]} ltac:(set_solver)) as H1'.
    rewrite size_singleton in H1'. lia.
  - rewrite Nat.add_0_r. apply subseteq_size. intros k Hk. by destruct (Hsub k Hk).
Qed.

(** Only a claim adds a lease. *)
Definition no_new_leases (db db' : Db W) : Prop :=
  forall lid, is_Some (job_leases db' !! lid) -> is_Some (job_leases db !! lid).

#[local] Instance no_new_leases_preorder : PreOrder no_new_leases.
Proof. split; [by intros db lid | intros db1 db2 db3 H12 H23 lid Hl; eauto]. Qed.

Lemma core_no_new db db' : core_frame db db' -> no_new_leases db db'.
Proof. intros [HL _ _ _ _] lid. by rewrite HL. Qed.

Lemma frame_no_new {A} (m : Tx W A) : tx_rel core_frame m -> tx_rel no_new_leases m.
Proof. intros Hm db a db' E. by eapply core_no_new, Hm. Qed.

Lemma reads_no_new {A} (m : Tx W A) : reads_only m -> tx_rel no_new_leases m.
Proof. intros Hm db a db' E. apply Hm in E as ->. reflexivity. Qed.

Lemma update_row_no_new id guard f (db : Db W) b m :
  update_row id guard f (job_leases db) = (b, m) -> no_new_leases db (set_job_leases m db).
Proof.
  intros E lid. simpl. pose proof (lookup_update_row id guard f (job_leases db) lid) as Hl.
  rewrite E in Hl. simpl in Hl. rewrite Hl. by rewrite fmap_is_Some.
Qed.

Lemma modify_no_new f (Hf : forall db, job_leases (f db) = job_leases db) :
  tx_rel no_new_leases (tx_modify (W := W) f).
Proof. apply tx_rel_modify. intros db lid. by rewrite Hf. Qed.

Lemma job_status_no_new id st e now :
  tx_rel no_new_leases (update_job_status_on_connection (W := W) id st e now).
Proof.
  intros db u db' Hu. unfold update_job_status_on_connection in Hu.
  tx_step Hu. tx_step Hm. tx_step Hu. by intros lid.
Qed.

Lemma resolve_no_new lease o now :
  tx_rel no_new_leases (resolve_captured_worker_drain_fence_on_connection (W := W) lease o now).
Proof. intros db u db' Hu. apply resolve_fences_ok in Hu. subst. by intros lid. Qed.

Lemma complete_active_no_new id at_ fp :
  tx_rel no_new_leases (complete_active_lease_on_connection (W := W) id at_ fp).
Proof.
  intros db u db' Hu. unfold complete_active_lease_on_connection in Hu. tx_step Hu. tx_step Hm.
  destruct (update_row _ _ _ _) as [[] m] eqn:E; tx_step Hu. by eapply update_row_no_new.
Qed.

Lemma fail_active_no_new id at_ e :
  tx_rel no_new_leases (fail_active_lease_on_connection (W := W) id at_ e).
Proof.
  intros db u db' Hu. unfold fail_active_lease_on_connection in Hu. tx_step Hu. tx_step Hm.
  destruct (update_row _ _ _ _) as [[] m] eqn:E; tx_step Hu. by eapply update_row_no_new.
Qed.

Lemma expire_active_no_new id at_ e :
  tx_rel no_new_leases (expire_active_lease_on_connection (W := W) id at_ e).
Proof.
  intros db b db' Hu. unfold expire_active_lease_on_connection in Hu. tx_step Hu. tx_step Hm.
  destruct (update_row _ _ _ _) as [c m] eqn:E. tx_step Hu. tx_step Hm. tx_step Hu.
  by eapply update_row_no_new.
Qed.

Ltac no_new :=
  repeat lazymatch goal with
  | |- tx_rel _ (tx_bind _ _) => apply tx_rel_bind; [apply _ | | intro]
  | |- tx_rel _ (tx_ret _) => apply tx_rel_ret; apply _
  | |- tx_rel _ (tx_throw _) => apply tx_rel_throw
  | |- tx_rel _ (if _ then _ else _) => apply tx_rel_if
  | |- tx_rel _ (match _ with _ => _ end) => case_match
  | |- _ => first
    [ apply complete_active_no_new | apply fail_active_no_new | apply expire_active_no_new
    | apply job_status_no_new | apply resolve_no_new
    | apply frame_no_new, slo_frame
    | apply frame_no_new, effect_core, apply_completed_frame
    | apply frame_no_new, effect_core, apply_retryable_frame
    | apply frame_no_new, effect_core, apply_failed_frame
    | apply reads_no_new; solve [auto with sbw]
    | apply tx_rel_get; apply _ | apply tx_rel_lift; apply _ ]
  end.

Lemma complete_no_new rt id res fp : tx_rel no_new_leases (complete_lease_tx (W := W) rt id res fp).
Proof. unfold complete_lease_tx. no_new. Qed.

Lemma fail_no_new rt id retry e : tx_rel no_new_leases (fail_lease_tx (W := W) rt id retry e).
Proof. unfold fail_lease_tx. no_new. Qed.

Lemma expire_no_new rt id now : tx_rel no_new_leases (expire_lease_tx (W := W) rt id now).
Proof. unfold expire_lease_tx. no_new. Qed.

Lemma renew_no_new rt n lease secs : tx_rel no_new_leases (renew_lease_tx (W := W) rt n lease secs).
Proof.
  intros db u db' Hr. apply renew_lease_ok, extend_lease_ok in Hr as (l & e & [Hl _] & _ & _ & -> & _).
  intros lid. simpl. destruct (decide (lid = lease_id lease)) as [->|].
  - by rewrite Hl.
  - by rewrite lookup_insert_ne.
Qed.

Lemma drain_no_new rt tenant w request : tx_rel no_new_leases (drain_tx (W := W) rt tenant w request).
Proof.
  intros db u db' Hr. apply drain_refines in Hr as Hd. destruct Hd as [->|Hp]; [reflexivity|].
  unfold drain_tx in Hr. tx_step Hr. tx_step Hm. destruct (is_some _); [|done].
  tx_step Hr. apply fetch_receipt_reads in Hr as ->.
  repeat (case_match; try done); try (tx_step Hm; try done); try reflexivity.
  intros lid. simpl. rewrite cap_leases_lookup, fmap_is_Some. done.
Qed.

Lemma stop_no_new now tenant sid :
  tx_rel no_new_leases (cancel_sandbox_work_on_connection (W := W) now tenant sid).
Proof.
  unfold cancel_sandbox_work_on_connection.
  apply tx_rel_bind; [apply _ | by apply modify_no_new |]. intros _. apply tx_rel_modify.
  intros db lid. simpl. by rewrite lookup_update_rows, fmap_is_Some.
Qed.

Lemma run_no_new {A} (m : Tx W A) db : tx_rel no_new_leases m -> no_new_leases db (run_tx m db).2.
Proof. intros Hm. by apply (run_tx_rel no_new_leases). Qed.

Lemma drain_worker_no_new rt tenant w request db :
  no_new_leases db (drain_worker rt tenant w request db).2.
Proof.
  destruct request as [request|]; [|by intros lid]. unfold drain_worker.
  pose proof (run_no_new _ db (drain_no_new rt tenant w request)) as R.
  by destruct (run_tx _ db) as [[]].
Qed.

Lemma register_no_new rt tenant request hash db :
  no_new_leases db (register_worker rt tenant request hash db).2.
Proof.
  unfold register_worker, insert_worker. repeat (case_match; try (by intros lid)); simplify_eq; by intros lid.
Qed.

Lemma heartbeat_no_new rt id request db :
  no_new_leases db (heartbeat_worker rt id request db).2.
Proof.
  unfold heartbeat_worker, insert_worker_heartbeat.
  repeat (case_match; try (by intros lid)); simplify_eq; by intros lid.
Qed.

(** A step that adds a lease is a granted claim. *)
Lemma step_adds admissible s s' :
  sched_step admissible s s' ->
  no_new_leases (tables s) (tables s') \/
  exists rt worker read job secs op lease,
    read ∈ seen s /\ from_snapshot read job /\ admissible worker /\
    try_claim_tx rt worker job secs op (tables s) = Ok (Some lease, tables s').
Proof.
  intros Hs. destruct Hs; cbn [tables with_tables]; try (by left; intros lid).
  - unfold try_claim_job. destruct (negb _); [by left|].
    destruct (try_claim_tx _ _ _ _ _ _) as [[[lease|] db']|e] eqn:E; [|by left|].
    + right. by exists rt, worker, read, job, secs, op, lease.
    + left. case_match; [|by intros lid]. apply core_no_new.
      pose proof (quarantine_refines rt job (tables s)) as Q.
      by destruct (quarantine_invalid_sterile_resident_job rt job (tables s)) as [[u|e'] db'].
  - left. apply core_no_new, terminalize_core.
  - left. unfold renew_lease. pose proof (run_no_new (renew_lease_tx rt db_now lease secs) (tables s)
      (renew_no_new _ _ _ _)) as R.
    destruct (run_tx _ _) as [[u|e] db']; simpl in *; [by case_match | done].
  - left. unfold complete_lease_in_transaction. case_match; [|by intros lid].
    apply run_no_new, complete_no_new.
  - left. apply run_no_new, fail_no_new.
  - left. apply run_no_new, expire_no_new.
  - left. apply drain_worker_no_new.
  - left. apply register_no_new.
  - left. apply heartbeat_no_new.
  - left. unfold retire_queued_job. destruct (update_row _ _ _ _). by intros lid.
  - left. unfold store_refreshed_placement. destruct (update_row _ _ _ _). by intros lid.
  - left. unfold cancel_operation. destruct (tenant_operation _ _ _) as [job|]; [|by intros lid].
    destruct (negb _); [by intros lid|]. destruct (negb _); [by intros lid|].
    pose proof (run_no_new _ (tables s) (frame_no_new _ (cancel_operation_frame rt job))) as R.
    by destruct (run_tx _ (tables s)) as [[]].
  - left. apply run_no_new, stop_no_new.
  - left. apply run_no_new, frame_no_new. apply insert_job_frame.
  - left. by apply core_no_new.
Qed.

Definition within_capacity (w : Uuid) (limit : nat) (worker : Worker) : Prop :=
  worker_id worker = w -> (max_concurrent_jobs worker <= Z.of_nat limit)%Z.

Lemma slots_step w limit s s' :
  sched_inv s -> sched_step (within_capacity w limit) s s' ->
  slot_count (tables s) w <= limit -> slot_count (tables s') w <= limit.
Proof.
  intros Hinv Hs Hle. destruct (sched_step_refines _ _ _ Hinv Hs) as [->|Hp]; [done|].
  destruct (step_adds _ _ _ Hs) as [Hno|(rt & worker & read & job & secs & op & lease & Hin & Hfrom & Hcap & Hc)].
  - pose proof (slot_count_step _ _ w None (proj1 Hinv) Hp) as Hc. simpl in Hc.
    rewrite Nat.add_0_r in Hc. etrans; [apply Hc | done]. intros k l' Hl' _. left. eauto.
  - eapply try_claim_refines in Hc as (_ & _ & Hfresh & (l & Hw & HL) & Hslots).
    2:{ intros r Hr. destruct Hinv as [_ Hseen]. destruct Hfrom as (Hid & _ & Ha & Hmax).
        destruct (Hseen _ Hin) as (r' & Hr' & Hm & _ & Hlt). rewrite Hid in Hr. simplify_eq. lia. }
    destruct (decide (worker_id worker = w)) as [E|E].
    + pose proof (slot_count_step _ _ w (Some (lease_id lease)) (proj1 Hinv) Hp) as Hc. simpl in Hc.
      rewrite E in Hslots. specialize (Hcap E).
      assert (slot_count (tables s') w <= slot_count (tables s) w + 1); [apply Hc | lia].
      intros k l'. rewrite HL. destruct (decide (k = lease_id lease)) as [->|]; [by right|].
      rewrite lookup_insert_ne by done. left. eauto.
    + pose proof (slot_count_step _ _ w None (proj1 Hinv) Hp) as Hc. simpl in Hc.
      rewrite Nat.add_0_r in Hc. etrans; [apply Hc | done].
      intros k l'. rewrite HL. destruct (decide (k = lease_id lease)) as [->|].
      * rewrite lookup_insert_eq. intros [= <-] ?. congruence.
      * rewrite lookup_insert_ne by done. left. eauto.
Qed.

(** Workers are not oversubscribed.  When every row a claim reads for a
    worker advertises at most [limit] slots, the worker never holds more than
    [limit] active leases of the kinds that occupy a slot, however its
    concurrent claims interleave: the count is taken in the claim's own
    transaction, under the worker's row lock. *)
Theorem worker_slots_bounded w limit s :
  reachable (within_capacity w limit) s -> slot_count (tables s) w <= limit.
Proof.
  intros (s0 & Hi & Hr). assert (H0' : slot_count (tables s0) w <= limit).
  { destruct Hi as (_ & HL & _). unfold slot_count. rewrite HL, map_filter_empty, map_size_empty. lia. }
  pose proof (initial_inv _ Hi) as Hinv. clear Hi. induction Hr as [|s1 s2 s3 H12 _ IH]; [done|].
  apply IH; [by eapply slots_step | by eapply sched_step_inv].
Qed.
End LeaseProperties.
