(* ===== verification/Pagination.v ===== *)
(** * Keyset pagination

    List endpoints order their rows by [(created_at, id)] and hand out pages
    of at most [limit] rows with an opaque cursor, the key of the last row.
    The theorems say what a client that follows the cursors sees, also when
    rows come and go between its requests.

    Source: [sandboxwich-api/src/pagination.rs]. *)

From S2P Require Import Prelude Store.
From stdpp Require Import sorting.

Definition DEFAULT_PAGE_LIMIT : Z := 100.
Definition MAX_PAGE_LIMIT : Z := 200.
Definition PAGE_CURSOR_SEP : Ascii.ascii := Ascii.ascii_of_N 124.

Record PageParams : Type := mkPageParams {
  page_limit : option Z;
  page_before : option string;
  page_after : option string
}.

Inductive PageDirection : Set :=
| After
| Before.

Record PageCursor : Type := mkPageCursor {
  cursor_created_at : string;
  cursor_id : string
}.

#[export] Instance PageCursor_eq_dec : EqDecision PageCursor.
Proof. solve_decision. Defined.

(** The base64 and UTF-8 codecs, as the cursor uses them. *)
Class CursorCodec : Type := {
  base64_encode : string -> string;
  base64_decode : string -> option string;
  from_utf8 : string -> option string
}.

(** [text.split_once(c)]. *)
Fixpoint split_once (c : Ascii.ascii) (s : string) : option (string * string) :=
  match s with
  | EmptyString => None
  | String a s' =>
      if Ascii.eqb a c then Some (EmptyString, s')
      else '(x, y) ← split_once c s'; Some (String a x, y)
  end.

Definition invalid_cursor : ApiError := bad_request "invalid pagination cursor".

Section Cursor.
Context `{CursorCodec}.

Definition encode (c : PageCursor) : string :=
  base64_encode (cursor_created_at c ++ String PAGE_CURSOR_SEP (cursor_id c)).

Definition decode (raw : string) : result PageCursor ApiError :=
  match base64_decode raw with
  | None => Err invalid_cursor
  | Some bytes =>
      match from_utf8 bytes with
      | None => Err invalid_cursor
      | Some text =>
          match split_once PAGE_CURSOR_SEP text with
          | None => Err invalid_cursor
          | Some (created_at, id) => Ok (mkPageCursor created_at id)
          end
      end
  end.

Definition resolve_page_limit (limit : option Z) : result Z ApiError :=
  match limit with
  | None => Ok DEFAULT_PAGE_LIMIT
  | Some value =>
      if (value =? 0)%Z then Err (bad_request "limit must be greater than 0")
      else Ok (Z.min value MAX_PAGE_LIMIT)
  end.

Definition resolve_page_cursor (params : PageParams) :
    result (option (PageDirection * PageCursor)) ApiError :=
  match page_before params, page_after params with
  | Some _, Some _ => Err (bad_request "only one of before or after may be set")
  | Some raw, None => let? c := decode raw in Ok (Some (Before, c))
  | None, Some raw => let? c := decode raw in Ok (Some (After, c))
  | None, None => Ok None
  end.
End Cursor.

(** ** The order of rows *)

(** [a < b] on text columns. *)
Definition text_lt (a b : string) : bool := negb (String.leb b a).

Definition key_ltb (a b : PageCursor) : bool :=
  text_lt (cursor_created_at a) (cursor_created_at b)
  || (String.eqb (cursor_created_at a) (cursor_created_at b) && text_lt (cursor_id a) (cursor_id b)).

(** [order by created_at asc, id asc]. *)
Definition key_le (a b : PageCursor) : Prop := key_ltb b a = false.

#[export] Instance key_le_dec : RelDecision key_le.
Proof. intros a b. unfold key_le. apply _. Defined.

(** ** A page *)

Section Page.
Context `{CursorCodec} {R T : Type} (row_key : R -> PageCursor)
  (row_map : R -> result (PageCursor * T) ApiError).

Definition row_le (a b : R) : Prop := key_le (row_key a) (row_key b).
Definition row_ge (a b : R) : Prop := key_le (row_key b) (row_key a).

#[local] Instance row_le_dec : RelDecision row_le.
Proof. intros a b. unfold row_le. apply _. Defined.
#[local] Instance row_ge_dec : RelDecision row_ge.
Proof. intros a b. unfold row_ge. apply _. Defined.

(** The rows a query fetches: [rows] are those the base query matches. *)
Definition fetch_rows (rows : list R) (limit : Z) (cursor : option (PageDirection * PageCursor)) :
    list R :=
  let fetch_limit := Z.to_nat (limit + 1) in
  match cursor with
  | None => take fetch_limit (merge_sort row_le rows)
  | Some (After, c) =>
      take fetch_limit (merge_sort row_le (List.filter (fun r => key_ltb c (row_key r)) rows))
  | Some (Before, c) =>
      take fetch_limit (merge_sort row_ge (List.filter (fun r => key_ltb (row_key r) c) rows))
  end.

Fixpoint map_rows (rows : list R) : result (list (PageCursor * T)) ApiError :=
  match rows with
  | [] => Ok []
  | r :: rest => let? x := row_map r in let? xs := map_rows rest in Ok (x :: xs)
  end.

Definition is_before (cursor : option (PageDirection * PageCursor)) : bool :=
  match cursor with Some (Before, _) => true | _ => false end.

(** [fetch_keyset_page_from_pool]. *)
Definition fetch_keyset_page (rows : list R) (limit : Z)
    (cursor : option (PageDirection * PageCursor)) : result (list T * option string) ApiError :=
  let fetched := fetch_rows rows limit cursor in
  let has_more := (limit <? Z.of_nat (length fetched))%Z in
  let? keyed := map_rows (take (Z.to_nat limit) fetched) in
  let keyed_items := if is_before cursor then reverse keyed else keyed in
  let next_cursor :=
    match last keyed_items with
    | Some (c, _) => if is_before cursor || has_more then Some (encode c) else None
    | None => None
    end in
  Ok (keyed_items.*2, next_cursor).

(** A client that starts without a cursor and then passes back each
    [next_cursor] as [after]; request number [n] finds [tables n]. *)
Fixpoint follow (fuel : nat) (tables : nat -> list R) (limit : Z) (after : option string) :
    result (list T * bool) ApiError :=
  match fuel with
  | O => Ok ([], false)
  | S fuel' =>
      let? cursor := resolve_page_cursor (mkPageParams (Some limit) None after) in
      let? page := fetch_keyset_page (tables 0) limit cursor in
      match page.2 with
      | None => Ok (page.1, true)
      | Some next =>
          let? rest := follow fuel' (fun n => tables (S n)) limit (Some next) in
          Ok (page.1 ++ rest.1, rest.2)
      end
  end.
End Page.

(** ** Lemmas *)

Lemma text_lt_spec a b : text_lt a b = true <-> ~ String.le b a.
Proof. unfold text_lt, String.le. rewrite negb_true_iff. destruct (String.leb b a); naive_solver. Qed.

Lemma text_lt_false a b : text_lt a b = false <-> String.le b a.
Proof. unfold text_lt, String.le. rewrite negb_false_iff. destruct (String.leb b a); naive_solver. Qed.

Lemma key_ltb_spec a b : key_ltb a b = true <->
  ~ String.le (cursor_created_at b) (cursor_created_at a) \/
  cursor_created_at a = cursor_created_at b /\ ~ String.le (cursor_id b) (cursor_id a).
Proof.
  unfold key_ltb. by rewrite orb_true_iff, andb_true_iff, !text_lt_spec, String.eqb_eq.
Qed.

Lemma key_ltb_irrefl a : key_ltb a a = false.
Proof.
  apply not_true_is_false. rewrite key_ltb_spec. intros [Hn|[_ Hn]]; apply Hn; reflexivity.
Qed.

Lemma key_ltb_trans a b c : key_ltb a b = true -> key_ltb b c = true -> key_ltb a c = true.
Proof.
  rewrite !key_ltb_spec. intros [H1|[E1 H1]] [H2|[E2 H2]].
  - left. intros Hle. destruct (total String.le (cursor_created_at b) (cursor_created_at c)) as [H|H]; [|done].
    apply H1. by etrans.
  - left. by rewrite <- E2.
  - left. by rewrite E1.
  - right. split; [congruence|]. intros Hle.
    destruct (total String.le (cursor_id b) (cursor_id c)) as [H|H]; [|done]. apply H1. by etrans.
Qed.

Lemma key_le_antisym a b : key_le a b -> key_le b a -> a = b.
Proof.
  intros H1%not_true_iff_false H2%not_true_iff_false. rewrite key_ltb_spec in H1, H2.
  assert (E : cursor_created_at a = cursor_created_at b).
  { apply (anti_symm String.le); apply dec_stable; naive_solver. }
  assert (E' : cursor_id a = cursor_id b).
  { apply (anti_symm String.le); apply dec_stable; naive_solver. }
  destruct a, b; simpl in *; congruence.
Qed.

#[export] Instance key_le_trans : Transitive key_le.
Proof.
  intros a b c Hab Hbc. unfold key_le in *. apply not_true_is_false. intros Hca.
  destruct (key_ltb c b) eqn:Ecb; [done|]. destruct (decide (b = c)) as [->|Hne]; [congruence|].
  destruct (key_ltb b c) eqn:Ebc.
  - rewrite (key_ltb_trans b c a) in Hab; done.
  - destruct Hne. by apply key_le_antisym.
Qed.

#[export] Instance key_le_total : Total key_le.
Proof.
  intros a b. unfold key_le. destruct (key_ltb b a) eqn:E; [|by left]. right.
  apply not_true_is_false. intros E'. pose proof (key_ltb_trans _ _ _ E E') as Hc.
  by rewrite key_ltb_irrefl in Hc.
Qed.

Lemma key_lt_le a b : key_ltb a b = true <-> key_le a b /\ a <> b.
Proof.
  split.
  - intros E. split; [|intros ->; by rewrite key_ltb_irrefl in E].
    unfold key_le. apply not_true_is_false. intros E'. pose proof (key_ltb_trans _ _ _ E E') as Hc.
    by rewrite key_ltb_irrefl in Hc.
  - intros [Hle Hne]. destruct (key_ltb a b) eqn:E; [done|]. destruct Hne. by apply key_le_antisym.
Qed.

(** *** Cursors *)

Fixpoint has_char (c : Ascii.ascii) (s : string) : bool :=
  match s with
  | EmptyString => false
  | String a s' => Ascii.eqb a c || has_char c s'
  end.

Lemma split_once_append c a b : has_char c a = false -> split_once c (a ++ String c b) = Some (a, b).
Proof.
  induction a as [|x a IH]; intros Ha.
  - change (split_once c (String c b) = Some (EmptyString, b)). simpl. by rewrite Ascii.eqb_refl.
  - change (split_once c (String x (a ++ String c b)) = Some (String x a, b)). simpl in *.
    bool_to_prop. destruct (Ascii.eqb x c); [done|]. by rewrite IH.
Qed.

(** What the code relies on of its codecs. *)
Class CursorCodecLaws `{CursorCodec} : Prop := {
  base64_round_trip s : base64_decode (base64_encode s) = Some s
}.

Section Follow.
Context `{CursorCodecLaws} {R T : Type} (row_key : R -> PageCursor) (item : R -> T).

(** A timestamp holds no separator, and what the columns hold is UTF-8. *)
Definition plain_cursor (c : PageCursor) : Prop :=
  has_char PAGE_CURSOR_SEP (cursor_created_at c) = false /\
  let text := (cursor_created_at c ++ String PAGE_CURSOR_SEP (cursor_id c))%string in from_utf8 text = Some text.

Lemma decode_encode c : plain_cursor c -> decode (encode c) = Ok c.
Proof.
  intros [Hc Htext]. unfold decode, encode. cbn zeta in Htext.
  rewrite base64_round_trip, Htext, split_once_append by done. by destruct c.
Qed.

#[local] Instance le_dec : RelDecision (row_le row_key).
Proof. intros a b. unfold row_le. apply _. Defined.
#[local] Instance le_trans : Transitive (row_le row_key).
Proof. intros a b c. unfold row_le. apply transitivity. Qed.
#[local] Instance le_total : Total (row_le row_key).
Proof. intros a b. unfold row_le. apply (total key_le). Qed.

Let row_map (r : R) : result (PageCursor * T) ApiError := Ok (row_key r, item r).

Lemma map_rows_ok rows : map_rows row_map rows = Ok ((fun r => (row_key r, item r)) <$> rows).
Proof. induction rows as [|r rows IH]; [done|]. simpl. by rewrite IH. Qed.

(** The rows after an optional cursor, in order. *)
Definition above (c : option PageCursor) (r : R) : bool :=
  match c with Some c => key_ltb c (row_key r) | None => true end.

Definition remaining (rows : list R) (c : option PageCursor) : list R :=
  merge_sort (row_le row_key) (List.filter (above c) rows).

Lemma remaining_elem rows c r : r ∈ remaining rows c <-> r ∈ rows /\ above c r = true.
Proof.
  unfold remaining. by rewrite merge_sort_Permutation, list_elem_of_In, List.filter_In, <- list_elem_of_In.
Qed.

Lemma filter_keys_nodup (p : R -> bool) rows : NoDup (row_key <$> rows) ->
  NoDup (row_key <$> List.filter p rows).
Proof.
  induction rows as [|r rows IH]; [done|]. intros [Hni Hnd]%NoDup_cons. simpl.
  destruct (p r); [|by apply IH]. apply NoDup_cons. split; [|by apply IH].
  intros Hin. apply Hni. apply list_elem_of_fmap in Hin as (x & E & Hx).
  apply list_elem_of_fmap. exists x. split; [done|].
  apply list_elem_of_In, List.filter_In in Hx as [Hx _]. by apply list_elem_of_In.
Qed.

(** Distinct keys in order are strictly increasing. *)
Lemma remaining_sorted rows c : NoDup (row_key <$> rows) ->
  StronglySorted (fun a b => key_ltb (row_key a) (row_key b) = true) (remaining rows c).
Proof.
  intros Hnd. unfold remaining. set (l := List.filter _ _).
  assert (Hk : NoDup (row_key <$> merge_sort (row_le row_key) l)).
  { rewrite merge_sort_Permutation. by apply filter_keys_nodup. }
  pose proof (StronglySorted_merge_sort (row_le row_key) l) as Hs. revert Hk Hs.
  generalize (merge_sort (row_le row_key) l) as k. clear. intros k Hk Hs.
  induction Hs as [|a k Hs IH Ha]; [constructor|]. apply NoDup_cons in Hk as [Hni Hk].
  constructor; [by apply IH|]. rewrite Forall_forall in *. intros b Hb. apply key_lt_le.
  split; [by apply Ha|]. intros E. apply Hni. rewrite E. by apply list_elem_of_fmap_2.
Qed.

Lemma remaining_NoDup rows c : NoDup (row_key <$> rows) -> NoDup (remaining rows c).
Proof.
  intros Hnd. unfold remaining. rewrite merge_sort_Permutation.
  by apply (NoDup_fmap_1 row_key), filter_keys_nodup.
Qed.

Lemma resolve_after limit c : match c with Some c => plain_cursor c | None => True end ->
  resolve_page_cursor (mkPageParams (Some limit) None (encode <$> c)) =
  Ok ((fun k => (After, k)) <$> c).
Proof.
  intros Hc. destruct c as [c|]; [|done]. unfold resolve_page_cursor. simpl. by rewrite decode_encode.
Qed.

(** One request: the first [limit] remaining rows, and a cursor to the last
    of them when there are more. *)
Lemma page_spec rows limit c :
  (1 <= limit)%Z ->
  let page := take (Z.to_nat limit) (remaining rows c) in
  fetch_keyset_page row_key row_map rows limit ((fun k => (After, k)) <$> c) =
    Ok (item <$> page,
        if (limit <? Z.of_nat (length (remaining rows c)))%Z
        then (encode ∘ row_key) <$> last page else None).
Proof.
  intros Hlim. unfold fetch_keyset_page.
  replace (fetch_rows row_key rows limit ((fun k => (After, k)) <$> c))
    with (take (Z.to_nat (limit + 1)) (remaining rows c)).
  2:{ unfold remaining, above. destruct c as [c|]; simpl; [done|].
      f_equal. f_equal. induction rows as [|r rows IH]; [done|]. simpl. by rewrite IH at 1. }
  rewrite take_take, map_rows_ok. replace (Z.to_nat limit `min` Z.to_nat (limit + 1)) with (Z.to_nat limit) by lia.
  replace (is_before ((fun k => (After, k)) <$> c)) with false by (by destruct c). cbn [result_bind orb].
  rewrite <- list_fmap_compose. rewrite length_take, fmap_last.
  replace (limit <? Z.of_nat (Z.to_nat (limit + 1) `min` length (remaining rows c)))%Z
    with (limit <? Z.of_nat (length (remaining rows c)))%Z
    by (destruct (Z.ltb_spec limit (Z.of_nat (length (remaining rows c))));
        destruct (Z.ltb_spec limit (Z.of_nat (Z.to_nat (limit + 1) `min` length (remaining rows c)))); lia).
  f_equal. f_equal. destruct (last _); simpl; [|by case_match]. done.
Qed.

(** The cut a page makes: it is an initial segment of the remaining rows, and
    a cursor to its last row [l] separates it from the rest. *)
Lemma page_cut rows limit c :
  (1 <= limit)%Z -> NoDup (row_key <$> rows) ->
  let page := take (Z.to_nat limit) (remaining rows c) in
  StronglySorted (fun a b => key_ltb (row_key a) (row_key b) = true) page /\
  (forall r, r ∈ page -> above c r = true /\ r ∈ rows) /\
  (limit < Z.of_nat (length (remaining rows c)) ->
     exists l, last page = Some l /\ l ∈ page /\
       (forall r, r ∈ page -> key_le (row_key r) (row_key l)) /\
       forall r, r ∈ rows -> above c r = true -> key_ltb (row_key l) (row_key r) = false -> r ∈ page)%Z /\
  (Z.of_nat (length (remaining rows c)) <= limit ->
     forall r, r ∈ rows -> above c r = true -> r ∈ page)%Z.
Proof.
  intros Hlim Hnd page. pose proof (remaining_sorted rows c Hnd) as Hs.
  pose proof (take_drop (Z.to_nat limit) (remaining rows c)) as Hsplit. fold page in Hsplit.
  set (post := drop (Z.to_nat limit) (remaining rows c)) in Hsplit.
  rewrite <- Hsplit in Hs. apply StronglySorted_app in Hs as (Hcross & Hsp & _).
  assert (Hmem : forall r, r ∈ page \/ r ∈ post <-> r ∈ rows /\ above c r = true).
  { intros r. by rewrite <- remaining_elem, <- Hsplit, elem_of_app. }
  split; [done|]. split; [naive_solver|]. split.
  - intros Hmore. destruct (last page) as [l|] eqn:El.
    2:{ apply last_None in El. apply (f_equal length) in El. unfold page in El.
        rewrite length_take in El. simpl in El. lia. }
    apply last_Some in El as [pre Hpre].
    assert (Hl : l ∈ page) by (rewrite Hpre; apply elem_of_app; right; by apply list_elem_of_singleton).
    exists l. split; [done|]. split; [done|]. split.
    + rewrite Hpre in Hsp |- *. apply StronglySorted_app in Hsp as (Hx & _). intros r [Hr|Hr]%elem_of_app.
      * apply key_lt_le, Hx; [done|]. by apply list_elem_of_singleton.
      * apply list_elem_of_singleton in Hr as ->. apply key_ltb_irrefl.
    + intros r Hr Hab Ek. destruct (proj2 (Hmem r)) as [?|Hpost]; [done..|].
      rewrite (Hcross l r) in Ek; done.
  - intros Hlast r Hr Hab. destruct (proj2 (Hmem r)) as [?|Hpost]; [done..|].
    unfold post in Hpost. rewrite drop_ge in Hpost by lia. by apply not_elem_of_nil in Hpost.
Qed.

(** What is visited from a cursor on, when the tables may change between
    requests. *)
Lemma follow_visits fuel tables limit c :
  (1 <= limit)%Z -> (forall n, NoDup (row_key <$> tables n)) ->
  (forall n r, r ∈ tables n -> plain_cursor (row_key r)) ->
  match c with Some c => plain_cursor c | None => True end ->
  exists visited finished,
    follow row_key row_map fuel tables limit (encode <$> c) = Ok (item <$> visited, finished) /\
    StronglySorted (fun a b => key_ltb (row_key a) (row_key b) = true) visited /\
    (forall r, r ∈ visited -> above c r = true /\ exists n, r ∈ tables n) /\
    (finished = true -> forall r, (forall n, r ∈ tables n) -> above c r = true -> r ∈ visited).
Proof.
  intros Hlim. revert tables c. induction fuel as [|fuel IH]; intros tables c Hnd Hplain Hc.
  { exists [], false. split; [done|]. split; [constructor|]. split; [by intros r ?%not_elem_of_nil|done]. }
  cbn [follow]. rewrite resolve_after by done. cbn [result_bind]. rewrite page_spec by done.
  cbn [result_bind fst snd].
  destruct (page_cut (tables 0) limit c Hlim (Hnd 0)) as (Hsp & Hpage & Hmore & Hdone).
  set (page := take _ _) in *.
  destruct (Z.ltb_spec limit (Z.of_nat (length (remaining (tables 0) c)))) as [Hlt|Hge].
  2:{ exists page, true. split; [done|]. split; [done|]. split; [naive_solver|]. naive_solver. }
  destruct (Hmore Hlt) as (l & El & Hl & Hle & Hcut). rewrite El.
  destruct (IH (fun n => tables (S n)) (Some (row_key l))) as (rest & fin & Hf & Hss & Hin & Hall);
    [auto | eauto | by apply (Hplain 0), Hpage |].
  cbn [fmap option_fmap option_map compose] in *. rewrite Hf. cbn [result_bind fst snd].
  exists (page ++ rest), fin. rewrite fmap_app. split; [done|]. split_and!.
  - apply StronglySorted_app. split; [|done]. intros a b Ha Hb. destruct (Hin b Hb) as [Hb' _].
    destruct (decide (row_key a = row_key l)) as [->|Hne]; [done|].
    eapply key_ltb_trans; [|exact Hb']. apply key_lt_le. auto.
  - intros r [Hr|Hr]%elem_of_app; [destruct (Hpage r Hr); eauto|].
    destruct (Hin r Hr) as [Ha (n & Hn)], (Hpage l Hl) as [Hlc _]. split; [|eauto].
    destruct c as [c|]; [|done]. simpl in *. by eapply key_ltb_trans.
  - intros Hfin r Hr Hab. apply elem_of_app. destruct (key_ltb (row_key l) (row_key r)) eqn:Ek.
    + right. by apply Hall.
    + left. by apply Hcut.
Qed.

(** Each request over an unchanging table consumes a row at least. *)
Lemma follow_finishes fuel rows limit c :
  (1 <= limit)%Z -> NoDup (row_key <$> rows) -> (forall r, r ∈ rows -> plain_cursor (row_key r)) ->
  match c with Some c => plain_cursor c | None => True end ->
  length (remaining rows c) < fuel ->
  exists items, follow row_key row_map fuel (fun _ => rows) limit (encode <$> c) = Ok (items, true).
Proof.
  intros Hlim Hnd Hplain. revert c. induction fuel as [|fuel IH]; intros c Hc Hfuel; [lia|].
  cbn [follow]. rewrite resolve_after by done. cbn [result_bind]. rewrite page_spec by done.
  cbn [result_bind fst snd]. destruct (page_cut rows limit c Hlim Hnd) as (_ & Hpage & Hmore & _).
  set (page := take _ _) in *.
  destruct (Z.ltb_spec limit (Z.of_nat (length (remaining rows c)))) as [Hlt|Hge]; [|eauto].
  destruct (Hmore Hlt) as (l & El & Hl & Hle & Hcut). rewrite El. cbn [fmap option_fmap option_map compose].
  destruct (IH (Some (row_key l))) as [items Hf]; [by apply Hplain, Hpage| |].
  { enough (length (remaining rows (Some (row_key l))) < length (remaining rows c)) by lia.
    assert (Hsub : l :: remaining rows (Some (row_key l)) ⊆+ remaining rows c).
    { apply NoDup_submseteq.
      - apply NoDup_cons. split; [|by apply remaining_NoDup].
        rewrite remaining_elem. simpl. rewrite key_ltb_irrefl. naive_solver.
      - intros r. rewrite elem_of_cons, !remaining_elem. intros [->|[Hr Hab]]; [by apply and_comm, Hpage|].
        split; [done|]. destruct (Hpage l Hl) as [Hlc _]. destruct c as [c|]; [|done].
        simpl in *. by eapply key_ltb_trans. }
    apply submseteq_length in Hsub. simpl in Hsub. lia. }
  cbn [fmap option_fmap option_map] in Hf. rewrite Hf. simpl. eauto.
Qed.

(** Following the cursors of a list endpoint visits every row exactly
    once.  However the table changes between the requests, the client never
    gets an error, sees keys in strictly increasing order (so no row twice),
    sees only rows that some request found, and when it reaches the last page
    has seen every row that was there throughout.  Over an unchanging table
    it reaches the last page after at most one request per row plus one. *)
Theorem following_cursors_visits_every_row tables limit fuel :
  (1 <= limit)%Z -> (forall n, NoDup (row_key <$> tables n)) ->
  (forall n r, r ∈ tables n -> plain_cursor (row_key r)) ->
  (exists visited finished,
     follow row_key (fun r => Ok (row_key r, item r)) fuel tables limit None =
       Ok (item <$> visited, finished) /\
     StronglySorted (fun a b => key_ltb (row_key a) (row_key b) = true) visited /\
     (forall r, r ∈ visited -> exists n, r ∈ tables n) /\
     (finished = true -> forall r, (forall n, r ∈ tables n) -> r ∈ visited)) /\
  (length (tables 0) < fuel ->
   exists items, follow row_key (fun r => Ok (row_key r, item r)) fuel (fun _ => tables 0) limit None =
     Ok (items, true)).
Proof.
  intros Hlim Hnd Hplain. split.
  - destruct (follow_visits fuel tables limit None Hlim Hnd Hplain I) as (v & f & Hf & Hs & Hin & Hall).
    exists v, f. split; [exact Hf|]. naive_solver.
  - intros Hfuel. apply (follow_finishes fuel (tables 0) limit None Hlim (Hnd 0) (Hplain 0) I).
    unfold remaining. rewrite merge_sort_Permutation.
    pose proof (List.filter_length_le (above None) (tables 0)). lia.
Qed.
End Follow.

(** ** A worked example *)

#[export] Instance plain_codec : CursorCodec := {|
  base64_encode s := s; base64_decode s := Some s; from_utf8 s := Some s
|}.

#[export] Instance plain_codec_laws : CursorCodecLaws.
Proof. by split. Qed.

Definition three_rows : list PageCursor :=
  [mkPageCursor "2026-01-02" "b"; mkPageCursor "2026-01-01" "z"; mkPageCursor "2026-01-02" "a"].

(** Three rows in pages of two. *)
Lemma following_cursors_visits_every_row_witness :
  exists items, follow id (fun r => Ok (r, cursor_id r)) 4 (fun _ => three_rows) 2 None =
    Ok (items, true) /\ items = ["z"; "a"; "b"].
Proof.
  destruct (following_cursors_visits_every_row id cursor_id (fun _ => three_rows) 2 4) as [_ Hfin].
  - vm_compute. discriminate.
  - intros _. apply (bool_decide_unpack _). vm_compute. exact I.
  - intros _ r Hr. repeat (apply elem_of_cons in Hr as [->|Hr]; [split; reflexivity|]).
    by apply not_elem_of_nil in Hr.
  - destruct (Hfin ltac:(simpl; lia)) as [items E]. exists items. split; [exact E|].
    vm_compute in E. injection E as <-. reflexivity.
Defined.
