(* ===== verification/Limits.v ===== *)
(** * Tenant limits

    Each tenant with a policy has two counters, one for requests and one for
    mutations, over fixed windows that start with the first request after the
    previous window ended.  A request is admitted by one conditional upsert;
    a sweep deletes expired counters.

    Source: [sandboxwich-api/src/limits.rs]. *)

From S2P Require Import Prelude Store.

Inductive CounterKind : Set :=
| CountRequest
| CountMutation.

#[export] Instance CounterKind_eq_dec : EqDecision CounterKind.
Proof. solve_decision. Defined.
#[export] Instance CounterKind_countable : Countable CounterKind.
Proof.
  refine (inj_countable' (fun k => match k with CountRequest => true | CountMutation => false end)
    (fun b : bool => if b then CountRequest else CountMutation) _). by intros [].
Defined.

Definition counter_kind_as_str (k : CounterKind) : string :=
  match k with CountRequest => "request" | CountMutation => "mutation" end.

(** A row of [tenant_limit_policies]; the tenant is its key. *)
Record TenantLimitPolicy : Type := mkTenantLimitPolicy {
  request_limit : Z;
  mutation_limit : Z;
  window_seconds : Z
}.

Record CounterRow : Type := mkCounterRow {
  counter_used : Z;
  window_started_at : Z;
  window_expires_at : Z
}.

Abbreviation Counters := (gmap (string * CounterKind) CounterRow).

(** ** Consuming *)

(** The conditional upsert of [consume]: [None] when no row is returned. *)
Definition upsert_counter (key : string * CounterKind) (limit window now : Z) (m : Counters) :
    option Counters :=
  let expires := (now + seconds window)%Z in
  match m !! key with
  | None => Some (<[key := mkCounterRow 1 now expires]> m)
  | Some row =>
      let expired := (window_expires_at row <=? now)%Z in
      if expired || (counter_used row <? limit)%Z then
        Some (<[key := mkCounterRow (if expired then 1 else counter_used row + 1)
                         (if expired then now else window_started_at row)
                         (if expired then expires else window_expires_at row)]> m)
      else None
  end%Z.

(** [counter_retry_after]: [(expires - now).num_seconds().max(0) + 1]. *)
Definition counter_retry_after (key : string * CounterKind) (now : Z) (m : Counters) : option Z :=
  row ← m !! key;
  Some (Z.max (Z.quot (window_expires_at row - now) 1000000000) 0 + 1)%Z.

Record Rejection : Type := mkRejection {
  rejection_code : string;
  rejection_message : string;
  retry_after : Z
}.

(** [consume]; [retry_now] is the clock when the retry hint is computed. *)
Definition consume (tenant : string) (kind : CounterKind) (limit window now retry_now : Z)
    (m : Counters) : option Rejection * Counters :=
  match upsert_counter (tenant, kind) limit window now m with
  | Some m' => (None, m')
  | None =>
      let retry := default 1%Z (counter_retry_after (tenant, kind) retry_now m) in
      let r := match kind with
               | CountRequest =>
                   mkRejection "tenant_rate_limit_exceeded" "tenant request rate limit exceeded" retry
               | CountMutation =>
                   mkRejection "tenant_mutation_quota_exceeded" "tenant mutation quota exceeded" retry
               end in
      (Some r, m)
  end.

(** [enforce_tenant_limits] for an authenticated request: a rejection, or the
    request goes on.  Each counter reads the clock anew. *)
Definition enforce_tenant_limits (tenant : string) (policy : option TenantLimitPolicy)
    (is_operator is_mutating : bool) (now mutation_now retry_now : Z) (m : Counters) :
    option Rejection * Counters :=
  if is_operator then (None, m)
  else
    match policy with
    | None => (None, m)
    | Some p =>
        match consume tenant CountRequest (request_limit p) (window_seconds p) now retry_now m with
        | (Some r, m') => (Some r, m')
        | (None, m') =>
            if is_mutating
            then consume tenant CountMutation (mutation_limit p) (window_seconds p) mutation_now retry_now m'
            else (None, m')
        end
    end.

(** [put_tenant_limit_policy]: no limit is zero. *)
Definition put_tenant_limit_policy (tenant : string) (input : TenantLimitPolicy)
    (policies : gmap string TenantLimitPolicy) :
    result TenantLimitPolicy ApiError * gmap string TenantLimitPolicy :=
  if trim_is_empty tenant || (request_limit input =? 0)%Z || (mutation_limit input =? 0)%Z
     || (window_seconds input =? 0)%Z
  then (Err (bad_request "tenant and all tenant limit values must be non-zero"), policies)
  else (Ok input, <[tenant := input]> policies).

(** ** The sweep *)

Definition LIMIT_COUNTER_BATCH : nat := N.to_nat 1000.

Definition counter_expiry_le (a b : (string * CounterKind) * CounterRow) : Prop :=
  (window_expires_at a.2 <= window_expires_at b.2)%Z.

#[export] Instance counter_expiry_le_dec : RelDecision counter_expiry_le.
Proof. intros a b. unfold counter_expiry_le. apply _. Defined.

(** [expire_tenant_limit_counters]; ties in [order by window_expires_at] are
    broken by the order of the table. *)
Definition expire_tenant_limit_counters (now : Z) (m : Counters) : Counters :=
  let due := take LIMIT_COUNTER_BATCH
               (merge_sort counter_expiry_le
                  (List.filter (fun kr => (window_expires_at kr.2 <=? now)%Z) (map_to_list m))) in
  foldr (fun kr m => delete kr.1 m) m due.

(** ** Traces *)

Inductive LimitEvent : Type :=
| Consume (tenant : string) (kind : CounterKind)
| SweepCounters.

(** The policy in force for each counter. *)
Definition Policy : Type := string * CounterKind -> Z * Z.

Definition limit_step (policy : Policy) (now : Z) (e : LimitEvent) (m : Counters) : bool * Counters :=
  match e with
  | Consume tenant kind =>
      let '(limit, window) := policy (tenant, kind) in
      match consume tenant kind limit window now now m with
      | (None, m') => (true, m')
      | (Some _, m') => (false, m')
      end
  | SweepCounters => (false, expire_tenant_limit_counters now m)
  end.

(** The times at which requests of [key] are admitted. *)
Fixpoint admitted (policy : Policy) (key : string * CounterKind) (trace : list (Z * LimitEvent))
    (m : Counters) : list Z :=
  match trace with
  | [] => []
  | (now, e) :: rest =>
      let '(ok, m') := limit_step policy now e m in
      let later := admitted policy key rest m' in
      match e with
      | Consume tenant kind => if ok && bool_decide ((tenant, kind) = key) then now :: later else later
      | SweepCounters => later
      end
  end.

Definition between (a b : Z) (times : list Z) : Z :=
  Z.of_nat (length (List.filter (fun t => (a <=? t)%Z && (t <? b)%Z) times)).

(** The table after a trace. *)
Fixpoint run_limits (policy : Policy) (trace : list (Z * LimitEvent)) (m : Counters) : Counters :=
  match trace with
  | [] => m
  | (now, e) :: rest => run_limits policy rest (limit_step policy now e m).2
  end.

(** ** Lemmas *)

Lemma between_app a b l k : between a b (l ++ k) = (between a b l + between a b k)%Z.
Proof. unfold between. rewrite List.filter_app, length_app. lia. Qed.

Lemma between_one a b t : between a b [t] = if (a <=? t)%Z && (t <? b)%Z then 1%Z else 0%Z.
Proof. unfold between. simpl. by case_match. Qed.

Lemma between_nonneg a b l : (0 <= between a b l)%Z.
Proof. unfold between. lia. Qed.

(** Counting is additive in the interval and monotone in it. *)
Lemma between_split a c b l : (a <= c <= b)%Z -> between a b l = (between a c l + between c b l)%Z.
Proof.
  intros Hc. induction l as [|t l IH]; [done|].
  change (t :: l) with ([t] ++ l). rewrite !between_app, !between_one, IH.
  destruct (Z.leb_spec a t), (Z.leb_spec c t), (Z.ltb_spec t b), (Z.ltb_spec t c); simpl; lia.
Qed.

Lemma between_mono a b a' b' l : (a' <= a)%Z -> (b <= b')%Z -> (between a b l <= between a' b' l)%Z.
Proof.
  intros Ha Hb. induction l as [|t l IH]; [done|].
  change (t :: l) with ([t] ++ l). rewrite !between_app, !between_one.
  destruct (Z.leb_spec a t), (Z.leb_spec a' t), (Z.ltb_spec t b), (Z.ltb_spec t b'); simpl; lia.
Qed.

Lemma between_none a b l : (forall t, t ∈ l -> (t < a)%Z) -> between a b l = 0%Z.
Proof.
  induction l as [|t l IH]; intros Hl; [done|].
  change (t :: l) with ([t] ++ l). rewrite between_app, between_one, IH by (intros; apply Hl; by right).
  specialize (Hl t ltac:(left)). destruct (Z.leb_spec a t); simpl; lia.
Qed.

Lemma sweep_lookup now m key :
  expire_tenant_limit_counters now m !! key = m !! key \/
  (expire_tenant_limit_counters now m !! key = None /\
   exists row, m !! key = Some row /\ (window_expires_at row <= now)%Z).
Proof.
  unfold expire_tenant_limit_counters. set (due := take _ _).
  assert (Hdue : forall kr, kr ∈ due -> m !! kr.1 = Some kr.2 /\ (window_expires_at kr.2 <= now)%Z).
  { intros [k row] Hin. unfold due in Hin.
    apply elem_of_take in Hin as (i & Hin & _). apply list_elem_of_lookup_2 in Hin.
    rewrite merge_sort_Permutation, list_elem_of_In, List.filter_In, <- list_elem_of_In, elem_of_map_to_list in Hin.
    simpl in *. destruct Hin as [? ?%Z.leb_le]. done. }
  induction due as [|[k row] due IH]; [by left|]. simpl.
  destruct (decide (k = key)) as [->|Hne].
  - right. rewrite lookup_delete_eq. split; [done|]. exists row. apply (Hdue (key, row)). left.
  - rewrite lookup_delete_ne by done. apply IH. intros kr Hkr. apply Hdue. by right.
Qed.

Section Window.
Context (L W : Z) (HL : (1 <= L)%Z) (HW : (0 < W)%Z).

(** The state of one counter after admissions [A]: [s] starts the current or
    last window, [u] of the admissions fall in it, and no stretch of a
    window's length holds more than two windows' worth. *)
Definition counter_inv (row : option CounterRow) (A : list Z) (now : Z) : Prop :=
  exists s u,
    (row = Some (mkCounterRow u s (s + W)) /\ (s <= now)%Z \/ row = None /\ (s + W <= now)%Z) /\
    (forall t, t ∈ A -> (t < s + W)%Z /\ (t <= now)%Z) /\
    between s (s + W) A = u /\ (u <= L)%Z /\
    (forall t, (s - W < t)%Z -> (between t s A <= L)%Z) /\
    (forall t, (between t (t + W) A <= 2 * L)%Z).

Lemma counter_inv_init now : counter_inv None [] now.
Proof using HL. exists (now - W)%Z, 0%Z. split; [right; split; [done|lia]|]. split; [by intros t ?%not_elem_of_nil|].
  split; [done|]. split; [lia|]. split; intros; unfold between; simpl; lia. Qed.

Lemma counter_inv_later row A now now' : (now <= now')%Z -> counter_inv row A now -> counter_inv row A now'.
Proof.
  intros Hle (s & u & Hrow & Hin & Hrest). exists s, u. split; [|split; [|done]].
  - destruct Hrow as [[? ?]|[? ?]]; [left; split; [done|lia]|right; split; [done|lia]].
  - intros t Ht. specialize (Hin t Ht). lia.
Qed.

(** A new window opens at [now]. *)
Lemma counter_inv_open row A now :
  counter_inv row A now -> (forall r, row = Some r -> (window_expires_at r <= now)%Z) ->
  counter_inv (Some (mkCounterRow 1 now (now + W))) (A ++ [now]) now.
Proof using HL HW.
  intros (s & u & Hrow & Hin & Hu & HuL & HQ & HP) Hexp.
  assert (Hs : (s + W <= now)%Z) by (destruct Hrow as [[-> _]|[_ ?]]; [by apply (Hexp _ eq_refl)|done]).
  assert (Hnone : forall b, between now b A = 0%Z)
    by (intros b; apply between_none; intros t Ht; specialize (Hin t Ht); lia).
  assert (HQ' : forall t, (now - W < t)%Z -> (between t now A <= L)%Z).
  { intros t Ht. destruct (Z.le_gt_cases t now).
    - pose proof (between_mono t now s now A). pose proof (between_split s (s + W) now A).
      assert (between (s + W) now A = 0%Z) by (apply between_none; intros x Hx; specialize (Hin x Hx); lia). lia.
    - unfold between. rewrite (List.filter_ext _ (fun _ => false)); [|intros x; destruct (Z.leb_spec t x), (Z.ltb_spec x now); simpl; lia].
      rewrite List.filter_false. simpl. lia. }
  exists now, 1%Z. split; [left; split; [done|lia]|]. split.
  { intros t [Ht|Ht]%elem_of_app; [specialize (Hin t Ht); lia|]. apply list_elem_of_singleton in Ht. lia. }
  split; [rewrite between_app, between_one, Hnone; destruct (Z.leb_spec now now), (Z.ltb_spec now (now + W)); simpl; lia|].
  split; [lia|]. split; intros t; rewrite between_app, between_one.
  - intros Ht. specialize (HQ' t Ht). destruct (Z.leb_spec t now), (Z.ltb_spec now now); simpl; lia.
  - specialize (HP t). destruct (Z.leb_spec t now), (Z.ltb_spec now (t + W)); simpl; try lia.
    rewrite (between_split t now (t + W)), Hnone by lia. specialize (HQ' t). lia.
Qed.

(** One more request in the open window. *)
Lemma counter_inv_more r A now :
  counter_inv (Some r) A now -> (now < window_expires_at r)%Z -> (counter_used r < L)%Z ->
  counter_inv (Some (mkCounterRow (counter_used r + 1) (window_started_at r) (window_expires_at r)))
    (A ++ [now]) now.
Proof using HL HW.
  intros (s & u & Hrow & Hin & Hu & HuL & HQ & HP) Hlive Hused.
  destruct Hrow as [[[= ->] Hst]|[? _]]; [|done]. simpl in *. exists s, (u + 1)%Z. split; [by left|]. split.
  { intros t [Ht|Ht]%elem_of_app; [by apply Hin|]. apply list_elem_of_singleton in Ht. lia. }
  split; [rewrite between_app, between_one, Hu; destruct (Z.leb_spec s now), (Z.ltb_spec now (s + W)); simpl; lia|].
  split; [lia|]. split; intros t; rewrite between_app, between_one.
  - intros Ht. specialize (HQ t Ht). destruct (Z.leb_spec t now), (Z.ltb_spec now s); simpl; lia.
  - specialize (HP t). destruct (Z.leb_spec t now), (Z.ltb_spec now (t + W)); simpl; try lia.
    destruct (Z.le_gt_cases t s).
    + rewrite (between_split t s (t + W)) by lia. specialize (HQ t ltac:(lia)).
      pose proof (between_mono s (t + W) s (s + W) A). lia.
    + pose proof (between_mono t (t + W) s (t + W) A) as Hmono.
      rewrite (between_split s (s + W) (t + W)) in Hmono by lia.
      assert (between (s + W) (t + W) A = 0%Z) by (apply between_none; intros x Hx; specialize (Hin x Hx); lia). lia.
Qed.
End Window.

(** *** Along a trace *)

Section Trace.
Context (policy : Policy) (key : string * CounterKind) (L w : Z)
  (Hpolicy : policy key = (L, w)) (HL : (1 <= L)%Z) (Hw : (1 <= w)%Z).

Definition admits (now : Z) (e : LimitEvent) (m : Counters) : list Z :=
  match e with
  | Consume tenant kind =>
      if (limit_step policy now e m).1 && bool_decide ((tenant, kind) = key) then [now] else []
  | SweepCounters => []
  end.

Lemma admitted_cons now e rest m :
  admitted policy key ((now, e) :: rest) m =
  admits now e m ++ admitted policy key rest (limit_step policy now e m).2.
Proof.
  simpl. unfold admits. destruct (limit_step policy now e m) as [ok m']. simpl. destruct e; [|done].
  by destruct (ok && _).
Qed.

Lemma upsert_other k limit window now m m' :
  k <> key -> upsert_counter k limit window now m = Some m' -> m' !! key = m !! key.
Proof.
  unfold upsert_counter. intros Hne Hu. repeat case_match; simplify_eq; by rewrite lookup_insert_ne.
Qed.

Lemma step_inv now0 now e m A :
  (now0 <= now)%Z -> counter_inv L (seconds w) (m !! key) A now0 ->
  counter_inv L (seconds w) ((limit_step policy now e m).2 !! key) (A ++ admits now e m) now.
Proof using Hpolicy HL Hw.
  intros Hle Hinv. apply (counter_inv_later _ _ _ _ _ now Hle) in Hinv.
  assert (HW : (0 < seconds w)%Z) by (unfold seconds; lia).
  unfold admits. destruct e as [tenant kind|]; simpl.
  2:{ rewrite app_nil_r. destruct (sweep_lookup now m key) as [->|(-> & row & Hrow & Hexp)]; [done|].
      rewrite Hrow in Hinv. destruct Hinv as (s & u & [[[= ->] _]|[? _]] & Hrest); [|done].
      exists s, u. split; [by right|done]. }
  destruct (decide ((tenant, kind) = key)) as [Hk|Hne].
  - rewrite Hk, Hpolicy. unfold consume. rewrite Hk. unfold upsert_counter.
    destruct (m !! key) as [row|] eqn:Erow; simpl.
    + destruct (Z.leb_spec (window_expires_at row) now) as [Hexp|Hlive]; simpl.
      * rewrite lookup_insert_eq, bool_decide_eq_true_2 by done.
        eapply counter_inv_open; [done..|]. by intros ? [= <-].
      * destruct (Z.ltb_spec (counter_used row) L) as [Hless|Hfull]; simpl.
        -- rewrite lookup_insert_eq, bool_decide_eq_true_2 by done. by apply counter_inv_more.
        -- by rewrite app_nil_r, Erow.
    + rewrite lookup_insert_eq, bool_decide_eq_true_2 by done.
      by eapply counter_inv_open.
  - rewrite bool_decide_eq_false_2, andb_false_r, app_nil_r by done.
    destruct (policy (tenant, kind)) as [limit window]. unfold consume.
    destruct (upsert_counter _ _ _ _ _) as [m'|] eqn:Eu; simpl; [|done].
    by rewrite (upsert_other _ _ _ _ _ _ Hne Eu).
Qed.

(** Events in the order of time, from [now0] on. *)
Fixpoint ordered (now0 : Z) (trace : list (Z * LimitEvent)) : Prop :=
  match trace with
  | [] => True
  | (now, _) :: rest => (now0 <= now)%Z /\ ordered now rest
  end.

Fixpoint end_time (now0 : Z) (trace : list (Z * LimitEvent)) : Z :=
  match trace with [] => now0 | (now, _) :: rest => end_time now rest end.

Lemma trace_inv trace m A now0 :
  ordered now0 trace -> counter_inv L (seconds w) (m !! key) A now0 ->
  counter_inv L (seconds w) (run_limits policy trace m !! key)
    (A ++ admitted policy key trace m) (end_time now0 trace).
Proof using Hpolicy HL Hw.
  revert m A now0. induction trace as [|[now e] trace IH]; intros m A now0 Hord Hinv.
  { simpl. by rewrite app_nil_r. }
  rewrite admitted_cons, app_assoc. destruct Hord as [Hle Hord]. simpl.
  apply IH; [done|]. by eapply step_inv.
Qed.

(** The rate limit holds and is not over-strict.  Along any trace of
    requests of any tenants and sweeps, in the order of time: no stretch as
    long as the window admits more than twice the limit; a request is only
    rejected when the full limit was admitted within the window's length
    before it; and a client that waits the advertised number of seconds is
    admitted if nobody used the quota meanwhile. *)
Theorem rate_limit_is_exact trace t0 t now retry_now :
  ordered t0 trace -> (end_time t0 trace <= now)%Z ->
  let m := run_limits policy trace ∅ in
  let window := seconds w in
  (between t (t + window) (admitted policy key trace ∅) <= 2 * L)%Z /\
  (forall r m', consume key.1 key.2 L w now retry_now m = (Some r, m') ->
     m' = m /\
     (L <= between (now - window + 1) (now + 1) (admitted policy key trace ∅))%Z /\
     forall later, (retry_now + seconds (retry_after r) <= later)%Z ->
       exists m'', consume key.1 key.2 L w later later m' = (None, m'')).
Proof using Hpolicy HL Hw.
  intros Hord Hend m window.
  pose proof (trace_inv trace ∅ [] t0 Hord) as Hinv. rewrite lookup_empty in Hinv.
  specialize (Hinv (counter_inv_init _ _ HL t0)). simpl in Hinv.
  apply (counter_inv_later _ _ _ _ _ now Hend) in Hinv.
  destruct Hinv as (s & u & Hrow & Hin & Hu & HuL & _ & HP). split; [by apply HP|].
  intros r m' Hc. unfold consume in Hc. destruct key as [tenant kind]. simpl in Hc.
  destruct (upsert_counter _ _ _ _ _) as [m1|] eqn:Eu; [done|]. injection Hc as Hr <-.
  unfold upsert_counter in Eu. destruct (m !! (tenant, kind)) as [row|] eqn:Em; [|done].
  fold m in Hrow. rewrite Em in Hrow. destruct Hrow as [[[= ->] Hst]|[? _]]; [|done]. simpl in Eu.
  destruct (Z.leb_spec (s + seconds w) now) as [|Hlive]; [done|].
  destruct (Z.ltb_spec u L) as [|Hfull]; [done|].
  split; [done|]. split.
  - pose proof (between_mono s (now + 1) (now - window + 1) (now + 1) (admitted policy (tenant, kind) trace ∅)).
    rewrite (between_split s (now + 1) (s + seconds w)) in Hu by lia.
    rewrite (between_none (now + 1)) in Hu by (intros x Hx; specialize (Hin x Hx); lia).
    unfold window in *. lia.
  - intros later Hlater. unfold consume, upsert_counter. cbn [fst snd]. rewrite Em. simpl.
    replace (s + seconds w <=? later)%Z with true; [simpl; eauto|]. symmetry. apply Z.leb_le.
    unfold counter_retry_after in Hr. rewrite Em in Hr. simpl in Hr.
    assert (Hra : retry_after r = (Z.max (Z.quot (s + seconds w - retry_now) 1000000000) 0 + 1)%Z)
      by (destruct kind; by subst r).
    rewrite Hra in Hlater. unfold seconds at 1 in Hlater.
    pose proof (Z.quot_rem' (s + seconds w - retry_now) 1000000000).
    pose proof (Z.rem_bound_abs (s + seconds w - retry_now) 1000000000). lia.
Qed.
End Trace.

(** ** A worked example *)

Definition two_per_ten : Policy := fun _ => (2, 10)%Z.
Definition burst : list (Z * LimitEvent) :=
  [(seconds 0, Consume "t" CountRequest); (seconds 1, Consume "u" CountRequest);
   (seconds 2, Consume "t" CountRequest); (seconds 3, SweepCounters)].

(** A third request at second 4 is rejected for seven seconds. *)
Lemma rate_limit_is_exact_witness :
  exists r m', consume "t" CountRequest 2 10 (seconds 4) (seconds 4)
      (run_limits two_per_ten burst ∅) = (Some r, m') /\ retry_after r = 7%Z /\
    (2 <= between (seconds 4 - seconds 10 + 1) (seconds 4 + 1)
            (admitted two_per_ten ("t", CountRequest) burst ∅))%Z.
Proof.
  assert (E : consume "t" CountRequest 2 10 (seconds 4) (seconds 4) (run_limits two_per_ten burst ∅) =
    (Some (mkRejection "tenant_rate_limit_exceeded" "tenant request rate limit exceeded" 7),
     run_limits two_per_ten burst ∅)) by (vm_compute; reflexivity).
  do 2 eexists. split; [exact E|]. split; [reflexivity|].
  refine (proj1 (proj2 (proj2 (rate_limit_is_exact two_per_ten ("t", CountRequest) 2 10 eq_refl
    ltac:(lia) ltac:(lia) burst 0 0 (seconds 4) (seconds 4) _ _) _ _ E))).
  - vm_compute. repeat split; discriminate.
  - vm_compute. discriminate.
Defined.
