(* ===== verification/World.v ===== *)
(** * The rest of the database

    The tables the outcomes of jobs write: sandboxes and their events,
    commands and their output, snapshots, files, runtime resources, managed
    homes, instruction reads and the sterile pool's memberships.  They are
    the world component of [Db].  The foreign keys and the lifecycle trigger
    of the schema are part of the writes: a row that references a missing
    sandbox or snapshot, or an illegal state change, fails the statement.

    Sources: [sandboxwich-core/src/lib.rs], [sandboxwich-api/migrations],
    [handlers/sandboxes.rs], [handlers/commands.rs] and [rows.rs]. *)

From S2P Require Import Prelude CoreTypes Json Store Leases SandboxLifecycle.
From stdpp Require Import sorting.

(** ** Rows *)

Record Sandbox : Type := mkSandbox {
  sb_id : Uuid;
  sb_tenant_id : string;
  sb_name : string;
  sb_state : SandboxState;
  sb_template : string;
  sb_memory_limit : MemoryLimit;
  sb_network_egress : NetworkEgress;
  sb_workspace_mode : WorkspaceMode;
  sb_runtime_profile : SandboxRuntimeProfile;
  sb_execution_class : ExecutionClass;
  sb_created_at : Z;
  sb_updated_at : Z;
  sb_ttl_seconds : option Z;
  sb_max_lifetime_seconds : option Z;
  sb_idle_ttl_seconds : option Z;
  sb_last_activity_at : option Z;
  sb_parent_snapshot_id : option Uuid
}.

Record SandboxEvent : Type := mkSandboxEvent {
  ev_sandbox_id : Uuid;
  ev_kind : SandboxEventKind;
  ev_data : Json;
  ev_created_at : Z
}.

(** A row of [commands], with the output accounting kept beside it. *)
Record CommandRow : Type := mkCommandRow {
  cmd_sandbox_id : Uuid;
  cmd_status : CommandStatus;
  cmd_argv : list string;
  cmd_cwd : option string;
  cmd_exit_code : option Z;
  cmd_stdout : string;
  cmd_stderr : string;
  cmd_created_at : Z;
  cmd_finished_at : option Z;
  output_chunk_count : Z;
  output_byte_count : Z;
  stdout_output_sequence : Z;
  stderr_output_sequence : Z
}.

(** A row of [command_output_chunks]. *)
Record CommandOutputChunk : Type := mkCommandOutputChunk {
  chunk_id : Uuid;
  chunk_command_id : Uuid;
  chunk_stream : CommandOutputStream;
  chunk_sequence : Z;
  chunk_text : string;
  chunk_annotations : list Json;
  chunk_created_at : Z
}.

Record SnapshotRow : Type := mkSnapshotRow {
  sn_sandbox_id : Uuid;
  sn_status : SnapshotStatus;
  sn_label : string;
  sn_inventory : Json;
  sn_provider_metadata : Json;
  sn_runtime_image : option string;
  sn_provision_spec : option SandboxProvisionSpec;
  sn_created_at : Z;
  sn_ready_at : option Z;
  sn_expires_at : option Z;
  sn_error : option string
}.

Record RestoreSourceRow : Type := mkRestoreSourceRow {
  rs_tenant_id : string;
  rs_source_sandbox_id : Uuid;
  rs_status : SnapshotStatus;
  rs_expires_at : option Z
}.

Record SandboxFile : Type := mkSandboxFile {
  file_sandbox_id : Uuid;
  file_path : string;
  file_size_bytes : Z;
  file_mime_type : option string;
  file_created_at : Z;
  file_updated_at : Z
}.

Record RuntimeResource : Type := mkRuntimeResource {
  rr_sandbox_id : Uuid;
  rr_snapshot_id : option Uuid;
  rr_provider : string;
  rr_resource_kind : RuntimeResourceKind;
  rr_purpose : RuntimeResourcePurpose;
  rr_resource_name : string;
  rr_namespace : string;
  rr_status : RuntimeResourceStatus;
  rr_cluster : option string;
  rr_storage_class : option string;
  rr_snapshot_class : option string;
  rr_storage_size : option string;
  rr_runtime_image : option string;
  rr_service_port : option Z;
  rr_target_port : option string;
  rr_source_snapshot_id : option Uuid;
  rr_created_at : Z;
  rr_updated_at : Z;
  rr_observed_at : option Z;
  rr_last_reconciled_at : option Z;
  rr_ready_at : option Z;
  rr_deleted_at : option Z;
  rr_error : option string
}.

Record HomeRow : Type := mkHomeRow {
  home_tenant_id : string;
  home_state : HomeState;
  home_created_at : Z;
  home_updated_at : Z;
  home_error : option string
}.

Inductive InstructionReadState : Set :=
| ReadPending
| ReadCompleted
| ReadUnavailable
| ReadFailed.

#[global] Instance InstructionReadState_eq_dec : EqDecision InstructionReadState.
Proof. solve_decision. Defined.

(** The columns of [apex_instruction_reads] job outcomes use. *)
Record InstructionReadRow : Type := mkInstructionReadRow {
  ir_job_id : Uuid;
  ir_request_id : Uuid;
  ir_lease_id : option Uuid;
  ir_lease_attempt : Z;
  ir_provider_apply_id : Uuid;
  ir_observed_sha256 : option string;
  ir_observed_byte_count : option Z;
  ir_state : InstructionReadState;
  ir_completed_at : option Z
}.

Inductive MembershipState : Set :=
| MemberProvisioning
| MemberReady
| MemberLeased
| MemberStopping
| MemberCleanupPending
| MemberDestroyed
| MemberQuarantined.

#[global] Instance MembershipState_eq_dec : EqDecision MembershipState.
Proof. solve_decision. Defined.

Record MembershipRow : Type := mkMembershipRow {
  mb_tenant_id : string;
  mb_state : MembershipState;
  mb_worker_id : option Uuid;
  mb_provision_job_id : Uuid;
  mb_stop_job_id : option Uuid;
  mb_release : SterileCellReleaseTrustClassV1;
  mb_candidate_agent_image : string;
  mb_candidate_maestro_image : string;
  mb_candidate_service_name : string;
  mb_candidate_pod_name : option string;
  mb_candidate_pod_uid : option string;
  mb_ready_ttl_seconds : Z;
  mb_expiry_spread_seconds : Z;
  mb_cell_expires_at : option Z;
  mb_lease_id : option Uuid;
  mb_generation : option Z;
  mb_requested_disposition : option SterileCellDisposition;
  mb_quarantine_reason : option string;
  mb_provider_absent : bool;
  mb_created_at : Z;
  mb_updated_at : Z
}.

(** A row of [provisioning_operation_resources]. *)
Record StageResourceRow : Type := mkStageResourceRow {
  str_sandbox_id : Uuid;
  str_stage : string;
  str_resource_kind : RuntimeResourceKind;
  str_resource_namespace : string;
  str_resource_name : string;
  str_resource_uid : string;
  str_observed_generation : option Z;
  str_updated_at : Z
}.

(** A row of [provisioning_operations]. *)
Record ProvisioningOperationRow : Type := mkProvisioningOperationRow {
  po_lease_id : Uuid;
  po_lease_attempt : Z;
  po_stage : string;
  po_stage_index : Z;
  po_resource_kind : option RuntimeResourceKind;
  po_resource_namespace : option string;
  po_resource_name : option string;
  po_resource_uid : option string;
  po_observed_generation : option Z;
  po_attempt_count : Z;
  po_last_error_class : option ProvisioningErrorClass;
  po_last_error_code : option string;
  po_last_error : option string;
  po_updated_at : Z
}.

(** A row of [provisioning_stage_observations]; its key is the lease and the
    stage. *)
Record StageObservationRow : Type := mkStageObservationRow {
  so_sandbox_id : Uuid;
  so_tenant_id : string;
  so_workspace_mode : string;
  so_stage_index : Z;
  so_lease_attempt : Z;
  so_error_class : option ProvisioningErrorClass;
  so_started_at : Z;
  so_observed_at : Z
}.

(** A row of [guest_health]. *)
Record GuestHealth : Type := mkGuestHealth {
  gh_status : GuestStatus;
  gh_last_probe_at : Z;
  gh_agent_version : option string;
  gh_checks : Json;
  gh_message : option string
}.

(** The columns of [guest_tokens] and [desktop_access_credentials] that decide
    whether a credential is live, and for whom: the holder is the worker of a
    guest token and the session of a desktop credential. *)
Record CredentialRow : Type := mkCredentialRow {
  cr_tenant_id : string;
  cr_holder_id : Uuid;
  cr_sandbox_id : Uuid;
  cr_token_hash : string;
  cr_expires_at : Z;
  cr_revoked_at : option Z;
  cr_created_at : Z
}.

(** A row of [sterile_cell_claims], by tenant and claim: the digest of the
    request, and either the lease it was answered with or the diagnosis. *)
Record CellClaimRow : Type := mkCellClaimRow {
  cc_request_sha256 : string;
  cc_cell_id : option Uuid;
  cc_lease_id : option Uuid;
  cc_created_at : Z;
  cc_no_lease_reason : option string;
  cc_claimability_evidence : option string
}.

(** A row of [resident_bootstrap_handoffs], by resident process: the sealed
    copy of a bootstrap. *)
Record HandoffRow : Type := mkHandoffRow {
  hf_sandbox_id : Uuid;
  hf_tenant_id : string;
  hf_generation : Z;
  hf_sha256 : string;
  hf_byte_count : Z;
  hf_target_file : string;
  hf_mode : Z;
  hf_key_id : string;
  hf_nonce : string;
  hf_ciphertext : string;
  hf_created_at : Z;
  hf_expires_at : Z
}.

(** A row of [resident_placement_attestations]: the placement fence an
    attestation was issued under, the digest of its token and its redemption. *)
Record AttestationRow : Type := mkAttestationRow {
  at_tenant_id : string;
  at_sandbox_id : Uuid;
  at_process_id : Uuid;
  at_generation : Z;
  at_lease_id : Uuid;
  at_lease_attempt : Z;
  at_job_id : Uuid;
  at_worker_id : Uuid;
  at_placement_generation : Z;
  at_provider_pod_name : option string;
  at_provider_pod_uid : option string;
  at_provider_mode : string;
  at_runtime_image : string;
  at_isolation_version : Z;
  at_token_sha256 : string;
  at_issued_at : Z;
  at_expires_at : Z;
  at_lease_expires_at : Z;
  at_consumed_at : option Z;
  at_redeem_idempotency_key : option Uuid;
  at_updated_at : Z
}.

(** A row of [maestro_activation_validations], by tenant and activation. *)
Record ActivationValidationRow : Type := mkActivationValidationRow {
  av_sandbox_id : Uuid;
  av_tuple_sha256 : string;
  av_binding_json : string;
  av_validated_at : Z
}.

(** A row of [cleanup_runs]. *)
Record CleanupRun : Type := mkCleanupRun {
  cl_status : CleanupRunStatus;
  cl_started_at : Z;
  cl_finished_at : option Z;
  cl_expired_snapshots : Z;
  cl_archived_sandboxes_deleted : Z;
  cl_archived_sandboxes_skipped : Z;
  cl_runtime_resources_deleted : Z;
  cl_error : option string
}.

(** A row of [runtime_resource_tombstones]: the columns of a resource and
    [tombstoned_at]. *)
Record Tombstone : Type := mkTombstone {
  ts_resource : RuntimeResource;
  ts_tombstoned_at : Z
}.

Record World : Type := mkWorld {
  sandboxes : gmap Uuid Sandbox;
  sandbox_network_egress_rules : list (Uuid * NetworkAllowRule);
  sandbox_secret_bindings : list (Uuid * SandboxSecretMount);
  sandbox_events : list (Uuid * SandboxEvent);
  commands : gmap Uuid CommandRow;
  command_output_chunks : list CommandOutputChunk;
  snapshots : gmap Uuid SnapshotRow;
  snapshot_restore_sources : gmap Uuid RestoreSourceRow;
  sandbox_files : gmap Uuid SandboxFile;
  runtime_resources : gmap Uuid RuntimeResource;
  homes : gmap Uuid HomeRow;
  sandbox_home_mounts : gmap Uuid Uuid;
  apex_instruction_reads : gmap Uuid InstructionReadRow;
  sterile_pool_memberships : gmap Uuid MembershipRow;
  provisioning_operation_resources : list StageResourceRow;
  guest_tokens : gmap Uuid CredentialRow;
  desktop_access_credentials : gmap Uuid CredentialRow;
  provisioning_operations : gmap Uuid ProvisioningOperationRow;
  provisioning_stage_observations : gmap (Uuid * string) StageObservationRow;
  guest_health : gmap Uuid GuestHealth;
  sterile_cell_claims : gmap (string * Uuid) CellClaimRow;
  sidecar_bootstrap_block_rollups : gmap (string * string) Z;
  resident_bootstrap_handoffs : gmap Uuid HandoffRow;
  resident_placement_attestations : gmap Uuid AttestationRow;
  maestro_activation_validations : gmap (string * Uuid) ActivationValidationRow;
  runtime_resource_tombstones : gmap Uuid Tombstone;
  cleanup_runs : gmap Uuid CleanupRun
}.

Definition set_sandboxes (x : gmap Uuid Sandbox) (w : World) : World :=
  mkWorld x (sandbox_network_egress_rules w) (sandbox_secret_bindings w) (sandbox_events w)
    (commands w) (command_output_chunks w) (snapshots w) (snapshot_restore_sources w)
    (sandbox_files w) (runtime_resources w) (homes w) (sandbox_home_mounts w)
    (apex_instruction_reads w) (sterile_pool_memberships w)
    (provisioning_operation_resources w) (guest_tokens w) (desktop_access_credentials w)
    (provisioning_operations w) (provisioning_stage_observations w) (guest_health w)
    (sterile_cell_claims w) (sidecar_bootstrap_block_rollups w)
    (resident_bootstrap_handoffs w) (resident_placement_attestations w)
    (maestro_activation_validations w) (runtime_resource_tombstones w) (cleanup_runs w).
Definition set_sandbox_network_egress_rules (x : list (Uuid * NetworkAllowRule)) (w : World) : World :=
  mkWorld (sandboxes w) x (sandbox_secret_bindings w) (sandbox_events w) (commands w)
    (command_output_chunks w) (snapshots w) (snapshot_restore_sources w) (sandbox_files w)
    (runtime_resources w) (homes w) (sandbox_home_mounts w) (apex_instruction_reads w)
    (sterile_pool_memberships w) (provisioning_operation_resources w) (guest_tokens w)
    (desktop_access_credentials w) (provisioning_operations w)
    (provisioning_stage_observations w) (guest_health w) (sterile_cell_claims w)
    (sidecar_bootstrap_block_rollups w) (resident_bootstrap_handoffs w)
    (resident_placement_attestations w) (maestro_activation_validations w)
    (runtime_resource_tombstones w) (cleanup_runs w).
Definition set_sandbox_secret_bindings (x : list (Uuid * SandboxSecretMount)) (w : World) : World :=
  mkWorld (sandboxes w) (sandbox_network_egress_rules w) x (sandbox_events w) (commands w)
    (command_output_chunks w) (snapshots w) (snapshot_restore_sources w) (sandbox_files w)
    (runtime_resources w) (homes w) (sandbox_home_mounts w) (apex_instruction_reads w)
    (sterile_pool_memberships w) (provisioning_operation_resources w) (guest_tokens w)
    (desktop_access_credentials w) (provisioning_operations w)
    (provisioning_stage_observations w) (guest_health w) (sterile_cell_claims w)
    (sidecar_bootstrap_block_rollups w) (resident_bootstrap_handoffs w)
    (resident_placement_attestations w) (maestro_activation_validations w)
    (runtime_resource_tombstones w) (cleanup_runs w).
Definition set_sandbox_events (x : list (Uuid * SandboxEvent)) (w : World) : World :=
  mkWorld (sandboxes w) (sandbox_network_egress_rules w) (sandbox_secret_bindings w) x
    (commands w) (command_output_chunks w) (snapshots w) (snapshot_restore_sources w)
    (sandbox_files w) (runtime_resources w) (homes w) (sandbox_home_mounts w)
    (apex_instruction_reads w) (sterile_pool_memberships w)
    (provisioning_operation_resources w) (guest_tokens w) (desktop_access_credentials w)
    (provisioning_operations w) (provisioning_stage_observations w) (guest_health w)
    (sterile_cell_claims w) (sidecar_bootstrap_block_rollups w)
    (resident_bootstrap_handoffs w) (resident_placement_attestations w)
    (maestro_activation_validations w) (runtime_resource_tombstones w) (cleanup_runs w).
Definition set_commands (x : gmap Uuid CommandRow) (w : World) : World :=
  mkWorld (sandboxes w) (sandbox_network_egress_rules w) (sandbox_secret_bindings w)
    (sandbox_events w) x (command_output_chunks w) (snapshots w)
    (snapshot_restore_sources w) (sandbox_files w) (runtime_resources w) (homes w)
    (sandbox_home_mounts w) (apex_instruction_reads w) (sterile_pool_memberships w)
    (provisioning_operation_resources w) (guest_tokens w) (desktop_access_credentials w)
    (provisioning_operations w) (provisioning_stage_observations w) (guest_health w)
    (sterile_cell_claims w) (sidecar_bootstrap_block_rollups w)
    (resident_bootstrap_handoffs w) (resident_placement_attestations w)
    (maestro_activation_validations w) (runtime_resource_tombstones w) (cleanup_runs w).
Definition set_command_output_chunks (x : list CommandOutputChunk) (w : World) : World :=
  mkWorld (sandboxes w) (sandbox_network_egress_rules w) (sandbox_secret_bindings w)
    (sandbox_events w) (commands w) x (snapshots w) (snapshot_restore_sources w)
    (sandbox_files w) (runtime_resources w) (homes w) (sandbox_home_mounts w)
    (apex_instruction_reads w) (sterile_pool_memberships w)
    (provisioning_operation_resources w) (guest_tokens w) (desktop_access_credentials w)
    (provisioning_operations w) (provisioning_stage_observations w) (guest_health w)
    (sterile_cell_claims w) (sidecar_bootstrap_block_rollups w)
    (resident_bootstrap_handoffs w) (resident_placement_attestations w)
    (maestro_activation_validations w) (runtime_resource_tombstones w) (cleanup_runs w).
Definition set_snapshots (x : gmap Uuid SnapshotRow) (w : World) : World :=
  mkWorld (sandboxes w) (sandbox_network_egress_rules w) (sandbox_secret_bindings w)
    (sandbox_events w) (commands w) (command_output_chunks w) x (snapshot_restore_sources w)
    (sandbox_files w) (runtime_resources w) (homes w) (sandbox_home_mounts w)
    (apex_instruction_reads w) (sterile_pool_memberships w)
    (provisioning_operation_resources w) (guest_tokens w) (desktop_access_credentials w)
    (provisioning_operations w) (provisioning_stage_observations w) (guest_health w)
    (sterile_cell_claims w) (sidecar_bootstrap_block_rollups w)
    (resident_bootstrap_handoffs w) (resident_placement_attestations w)
    (maestro_activation_validations w) (runtime_resource_tombstones w) (cleanup_runs w).
Definition set_snapshot_restore_sources (x : gmap Uuid RestoreSourceRow) (w : World) : World :=
  mkWorld (sandboxes w) (sandbox_network_egress_rules w) (sandbox_secret_bindings w)
    (sandbox_events w) (commands w) (command_output_chunks w) (snapshots w) x
    (sandbox_files w) (runtime_resources w) (homes w) (sandbox_home_mounts w)
    (apex_instruction_reads w) (sterile_pool_memberships w)
    (provisioning_operation_resources w) (guest_tokens w) (desktop_access_credentials w)
    (provisioning_operations w) (provisioning_stage_observations w) (guest_health w)
    (sterile_cell_claims w) (sidecar_bootstrap_block_rollups w)
    (resident_bootstrap_handoffs w) (resident_placement_attestations w)
    (maestro_activation_validations w) (runtime_resource_tombstones w) (cleanup_runs w).
Definition set_sandbox_files (x : gmap Uuid SandboxFile) (w : World) : World :=
  mkWorld (sandboxes w) (sandbox_network_egress_rules w) (sandbox_secret_bindings w)
    (sandbox_events w) (commands w) (command_output_chunks w) (snapshots w)
    (snapshot_restore_sources w) x (runtime_resources w) (homes w) (sandbox_home_mounts w)
    (apex_instruction_reads w) (sterile_pool_memberships w)
    (provisioning_operation_resources w) (guest_tokens w) (desktop_access_credentials w)
    (provisioning_operations w) (provisioning_stage_observations w) (guest_health w)
    (sterile_cell_claims w) (sidecar_bootstrap_block_rollups w)
    (resident_bootstrap_handoffs w) (resident_placement_attestations w)
    (maestro_activation_validations w) (runtime_resource_tombstones w) (cleanup_runs w).
Definition set_runtime_resources (x : gmap Uuid RuntimeResource) (w : World) : World :=
  mkWorld (sandboxes w) (sandbox_network_egress_rules w) (sandbox_secret_bindings w)
    (sandbox_events w) (commands w) (command_output_chunks w) (snapshots w)
    (snapshot_restore_sources w) (sandbox_files w) x (homes w) (sandbox_home_mounts w)
    (apex_instruction_reads w) (sterile_pool_memberships w)
    (provisioning_operation_resources w) (guest_tokens w) (desktop_access_credentials w)
    (provisioning_operations w) (provisioning_stage_observations w) (guest_health w)
    (sterile_cell_claims w) (sidecar_bootstrap_block_rollups w)
    (resident_bootstrap_handoffs w) (resident_placement_attestations w)
    (maestro_activation_validations w) (runtime_resource_tombstones w) (cleanup_runs w).
Definition set_homes (x : gmap Uuid HomeRow) (w : World) : World :=
  mkWorld (sandboxes w) (sandbox_network_egress_rules w) (sandbox_secret_bindings w)
    (sandbox_events w) (commands w) (command_output_chunks w) (snapshots w)
    (snapshot_restore_sources w) (sandbox_files w) (runtime_resources w) x
    (sandbox_home_mounts w) (apex_instruction_reads w) (sterile_pool_memberships w)
    (provisioning_operation_resources w) (guest_tokens w) (desktop_access_credentials w)
    (provisioning_operations w) (provisioning_stage_observations w) (guest_health w)
    (sterile_cell_claims w) (sidecar_bootstrap_block_rollups w)
    (resident_bootstrap_handoffs w) (resident_placement_attestations w)
    (maestro_activation_validations w) (runtime_resource_tombstones w) (cleanup_runs w).
Definition set_sandbox_home_mounts (x : gmap Uuid Uuid) (w : World) : World :=
  mkWorld (sandboxes w) (sandbox_network_egress_rules w) (sandbox_secret_bindings w)
    (sandbox_events w) (commands w) (command_output_chunks w) (snapshots w)
    (snapshot_restore_sources w) (sandbox_files w) (runtime_resources w) (homes w) x
    (apex_instruction_reads w) (sterile_pool_memberships w)
    (provisioning_operation_resources w) (guest_tokens w) (desktop_access_credentials w)
    (provisioning_operations w) (provisioning_stage_observations w) (guest_health w)
    (sterile_cell_claims w) (sidecar_bootstrap_block_rollups w)
    (resident_bootstrap_handoffs w) (resident_placement_attestations w)
    (maestro_activation_validations w) (runtime_resource_tombstones w) (cleanup_runs w).
Definition set_apex_instruction_reads (x : gmap Uuid InstructionReadRow) (w : World) : World :=
  mkWorld (sandboxes w) (sandbox_network_egress_rules w) (sandbox_secret_bindings w)
    (sandbox_events w) (commands w) (command_output_chunks w) (snapshots w)
    (snapshot_restore_sources w) (sandbox_files w) (runtime_resources w) (homes w)
    (sandbox_home_mounts w) x (sterile_pool_memberships w)
    (provisioning_operation_resources w) (guest_tokens w) (desktop_access_credentials w)
    (provisioning_operations w) (provisioning_stage_observations w) (guest_health w)
    (sterile_cell_claims w) (sidecar_bootstrap_block_rollups w)
    (resident_bootstrap_handoffs w) (resident_placement_attestations w)
    (maestro_activation_validations w) (runtime_resource_tombstones w) (cleanup_runs w).
Definition set_sterile_pool_memberships (x : gmap Uuid MembershipRow) (w : World) : World :=
  mkWorld (sandboxes w) (sandbox_network_egress_rules w) (sandbox_secret_bindings w)
    (sandbox_events w) (commands w) (command_output_chunks w) (snapshots w)
    (snapshot_restore_sources w) (sandbox_files w) (runtime_resources w) (homes w)
    (sandbox_home_mounts w) (apex_instruction_reads w) x
    (provisioning_operation_resources w) (guest_tokens w) (desktop_access_credentials w)
    (provisioning_operations w) (provisioning_stage_observations w) (guest_health w)
    (sterile_cell_claims w) (sidecar_bootstrap_block_rollups w)
    (resident_bootstrap_handoffs w) (resident_placement_attestations w)
    (maestro_activation_validations w) (runtime_resource_tombstones w) (cleanup_runs w).
Definition set_provisioning_operation_resources (x : list StageResourceRow) (w : World) : World :=
  mkWorld (sandboxes w) (sandbox_network_egress_rules w) (sandbox_secret_bindings w)
    (sandbox_events w) (commands w) (command_output_chunks w) (snapshots w)
    (snapshot_restore_sources w) (sandbox_files w) (runtime_resources w) (homes w)
    (sandbox_home_mounts w) (apex_instruction_reads w) (sterile_pool_memberships w) x
    (guest_tokens w) (desktop_access_credentials w) (provisioning_operations w)
    (provisioning_stage_observations w) (guest_health w) (sterile_cell_claims w)
    (sidecar_bootstrap_block_rollups w) (resident_bootstrap_handoffs w)
    (resident_placement_attestations w) (maestro_activation_validations w)
    (runtime_resource_tombstones w) (cleanup_runs w).
Definition set_guest_tokens (x : gmap Uuid CredentialRow) (w : World) : World :=
  mkWorld (sandboxes w) (sandbox_network_egress_rules w) (sandbox_secret_bindings w)
    (sandbox_events w) (commands w) (command_output_chunks w) (snapshots w)
    (snapshot_restore_sources w) (sandbox_files w) (runtime_resources w) (homes w)
    (sandbox_home_mounts w) (apex_instruction_reads w) (sterile_pool_memberships w)
    (provisioning_operation_resources w) x (desktop_access_credentials w)
    (provisioning_operations w) (provisioning_stage_observations w) (guest_health w)
    (sterile_cell_claims w) (sidecar_bootstrap_block_rollups w)
    (resident_bootstrap_handoffs w) (resident_placement_attestations w)
    (maestro_activation_validations w) (runtime_resource_tombstones w) (cleanup_runs w).
Definition set_desktop_access_credentials (x : gmap Uuid CredentialRow) (w : World) : World :=
  mkWorld (sandboxes w) (sandbox_network_egress_rules w) (sandbox_secret_bindings w)
    (sandbox_events w) (commands w) (command_output_chunks w) (snapshots w)
    (snapshot_restore_sources w) (sandbox_files w) (runtime_resources w) (homes w)
    (sandbox_home_mounts w) (apex_instruction_reads w) (sterile_pool_memberships w)
    (provisioning_operation_resources w) (guest_tokens w) x (provisioning_operations w)
    (provisioning_stage_observations w) (guest_health w) (sterile_cell_claims w)
    (sidecar_bootstrap_block_rollups w) (resident_bootstrap_handoffs w)
    (resident_placement_attestations w) (maestro_activation_validations w)
    (runtime_resource_tombstones w) (cleanup_runs w).
Definition set_provisioning_operations (x : gmap Uuid ProvisioningOperationRow) (w : World) : World :=
  mkWorld (sandboxes w) (sandbox_network_egress_rules w) (sandbox_secret_bindings w)
    (sandbox_events w) (commands w) (command_output_chunks w) (snapshots w)
    (snapshot_restore_sources w) (sandbox_files w) (runtime_resources w) (homes w)
    (sandbox_home_mounts w) (apex_instruction_reads w) (sterile_pool_memberships w)
    (provisioning_operation_resources w) (guest_tokens w) (desktop_access_credentials w) x
    (provisioning_stage_observations w) (guest_health w) (sterile_cell_claims w)
    (sidecar_bootstrap_block_rollups w) (resident_bootstrap_handoffs w)
    (resident_placement_attestations w) (maestro_activation_validations w)
    (runtime_resource_tombstones w) (cleanup_runs w).
Definition set_provisioning_stage_observations (x : gmap (Uuid * string) StageObservationRow) (w : World) : World :=
  mkWorld (sandboxes w) (sandbox_network_egress_rules w) (sandbox_secret_bindings w)
    (sandbox_events w) (commands w) (command_output_chunks w) (snapshots w)
    (snapshot_restore_sources w) (sandbox_files w) (runtime_resources w) (homes w)
    (sandbox_home_mounts w) (apex_instruction_reads w) (sterile_pool_memberships w)
    (provisioning_operation_resources w) (guest_tokens w) (desktop_access_credentials w)
    (provisioning_operations w) x (guest_health w) (sterile_cell_claims w)
    (sidecar_bootstrap_block_rollups w) (resident_bootstrap_handoffs w)
    (resident_placement_attestations w) (maestro_activation_validations w)
    (runtime_resource_tombstones w) (cleanup_runs w).
Definition set_guest_health (x : gmap Uuid GuestHealth) (w : World) : World :=
  mkWorld (sandboxes w) (sandbox_network_egress_rules w) (sandbox_secret_bindings w)
    (sandbox_events w) (commands w) (command_output_chunks w) (snapshots w)
    (snapshot_restore_sources w) (sandbox_files w) (runtime_resources w) (homes w)
    (sandbox_home_mounts w) (apex_instruction_reads w) (sterile_pool_memberships w)
    (provisioning_operation_resources w) (guest_tokens w) (desktop_access_credentials w)
    (provisioning_operations w) (provisioning_stage_observations w) x
    (sterile_cell_claims w) (sidecar_bootstrap_block_rollups w)
    (resident_bootstrap_handoffs w) (resident_placement_attestations w)
    (maestro_activation_validations w) (runtime_resource_tombstones w) (cleanup_runs w).
Definition set_sterile_cell_claims (x : gmap (string * Uuid) CellClaimRow) (w : World) : World :=
  mkWorld (sandboxes w) (sandbox_network_egress_rules w) (sandbox_secret_bindings w)
    (sandbox_events w) (commands w) (command_output_chunks w) (snapshots w)
    (snapshot_restore_sources w) (sandbox_files w) (runtime_resources w) (homes w)
    (sandbox_home_mounts w) (apex_instruction_reads w) (sterile_pool_memberships w)
    (provisioning_operation_resources w) (guest_tokens w) (desktop_access_credentials w)
    (provisioning_operations w) (provisioning_stage_observations w) (guest_health w) x
    (sidecar_bootstrap_block_rollups w) (resident_bootstrap_handoffs w)
    (resident_placement_attestations w) (maestro_activation_validations w)
    (runtime_resource_tombstones w) (cleanup_runs w).
Definition set_sidecar_bootstrap_block_rollups (x : gmap (string * string) Z) (w : World) : World :=
  mkWorld (sandboxes w) (sandbox_network_egress_rules w) (sandbox_secret_bindings w)
    (sandbox_events w) (commands w) (command_output_chunks w) (snapshots w)
    (snapshot_restore_sources w) (sandbox_files w) (runtime_resources w) (homes w)
    (sandbox_home_mounts w) (apex_instruction_reads w) (sterile_pool_memberships w)
    (provisioning_operation_resources w) (guest_tokens w) (desktop_access_credentials w)
    (provisioning_operations w) (provisioning_stage_observations w) (guest_health w)
    (sterile_cell_claims w) x (resident_bootstrap_handoffs w)
    (resident_placement_attestations w) (maestro_activation_validations w)
    (runtime_resource_tombstones w) (cleanup_runs w).
Definition set_resident_bootstrap_handoffs (x : gmap Uuid HandoffRow) (w : World) : World :=
  mkWorld (sandboxes w) (sandbox_network_egress_rules w) (sandbox_secret_bindings w)
    (sandbox_events w) (commands w) (command_output_chunks w) (snapshots w)
    (snapshot_restore_sources w) (sandbox_files w) (runtime_resources w) (homes w)
    (sandbox_home_mounts w) (apex_instruction_reads w) (sterile_pool_memberships w)
    (provisioning_operation_resources w) (guest_tokens w) (desktop_access_credentials w)
    (provisioning_operations w) (provisioning_stage_observations w) (guest_health w)
    (sterile_cell_claims w) (sidecar_bootstrap_block_rollups w) x
    (resident_placement_attestations w) (maestro_activation_validations w)
    (runtime_resource_tombstones w) (cleanup_runs w).
Definition set_resident_placement_attestations (x : gmap Uuid AttestationRow) (w : World) : World :=
  mkWorld (sandboxes w) (sandbox_network_egress_rules w) (sandbox_secret_bindings w)
    (sandbox_events w) (commands w) (command_output_chunks w) (snapshots w)
    (snapshot_restore_sources w) (sandbox_files w) (runtime_resources w) (homes w)
    (sandbox_home_mounts w) (apex_instruction_reads w) (sterile_pool_memberships w)
    (provisioning_operation_resources w) (guest_tokens w) (desktop_access_credentials w)
    (provisioning_operations w) (provisioning_stage_observations w) (guest_health w)
    (sterile_cell_claims w) (sidecar_bootstrap_block_rollups w)
    (resident_bootstrap_handoffs w) x (maestro_activation_validations w)
    (runtime_resource_tombstones w) (cleanup_runs w).
Definition set_maestro_activation_validations (x : gmap (string * Uuid) ActivationValidationRow) (w : World) : World :=
  mkWorld (sandboxes w) (sandbox_network_egress_rules w) (sandbox_secret_bindings w)
    (sandbox_events w) (commands w) (command_output_chunks w) (snapshots w)
    (snapshot_restore_sources w) (sandbox_files w) (runtime_resources w) (homes w)
    (sandbox_home_mounts w) (apex_instruction_reads w) (sterile_pool_memberships w)
    (provisioning_operation_resources w) (guest_tokens w) (desktop_access_credentials w)
    (provisioning_operations w) (provisioning_stage_observations w) (guest_health w)
    (sterile_cell_claims w) (sidecar_bootstrap_block_rollups w)
    (resident_bootstrap_handoffs w) (resident_placement_attestations w) x
    (runtime_resource_tombstones w) (cleanup_runs w).
Definition set_runtime_resource_tombstones (x : gmap Uuid Tombstone) (w : World) : World :=
  mkWorld (sandboxes w) (sandbox_network_egress_rules w) (sandbox_secret_bindings w)
    (sandbox_events w) (commands w) (command_output_chunks w) (snapshots w)
    (snapshot_restore_sources w) (sandbox_files w) (runtime_resources w) (homes w)
    (sandbox_home_mounts w) (apex_instruction_reads w) (sterile_pool_memberships w)
    (provisioning_operation_resources w) (guest_tokens w) (desktop_access_credentials w)
    (provisioning_operations w) (provisioning_stage_observations w) (guest_health w)
    (sterile_cell_claims w) (sidecar_bootstrap_block_rollups w)
    (resident_bootstrap_handoffs w) (resident_placement_attestations w)
    (maestro_activation_validations w) x (cleanup_runs w).
Definition set_cleanup_runs (x : gmap Uuid CleanupRun) (w : World) : World :=
  mkWorld (sandboxes w) (sandbox_network_egress_rules w) (sandbox_secret_bindings w)
    (sandbox_events w) (commands w) (command_output_chunks w) (snapshots w)
    (snapshot_restore_sources w) (sandbox_files w) (runtime_resources w) (homes w)
    (sandbox_home_mounts w) (apex_instruction_reads w) (sterile_pool_memberships w)
    (provisioning_operation_resources w) (guest_tokens w) (desktop_access_credentials w)
    (provisioning_operations w) (provisioning_stage_observations w) (guest_health w)
    (sterile_cell_claims w) (sidecar_bootstrap_block_rollups w)
    (resident_bootstrap_handoffs w) (resident_placement_attestations w)
    (maestro_activation_validations w) (runtime_resource_tombstones w) x.

Definition empty_world : World := mkWorld ∅ [] [] [] ∅ [] ∅ ∅ ∅ ∅ ∅ ∅ ∅ ∅ [] ∅ ∅ ∅ ∅ ∅ ∅ ∅ ∅ ∅ ∅ ∅ ∅.

(** ** Statements over the world *)

Definition get_world : Tx World World := let! db := tx_get in tx_ret (world db).
Definition modify_world (f : World -> World) : Tx World unit :=
  tx_modify (fun db => set_world (f (world db)) db).

Lemma get_world_ok db w db' : get_world db = Ok (w, db') -> w = world db /\ db' = db.
Proof. unfold get_world, tx_bind, tx_get, tx_ret. intros [= <- <-]. done. Qed.

Lemma modify_world_ok f db u db' : modify_world f db = Ok (u, db') -> db' = set_world (f (world db)) db.
Proof. unfold modify_world, tx_modify. by intros [= <- <-]. Qed.

(** Inverts the next statement over the world of a successful run. *)
Ltac world_step H :=
  lazymatch type of H with
  | get_world _ = Ok _ => apply get_world_ok in H as [? ?]; subst
  | modify_world _ _ = Ok _ => apply modify_world_ok in H; subst
  | tx_bind _ _ _ = Ok _ =>
      let a := fresh "a" in let db1 := fresh "db1" in let H1 := fresh "Hm" in
      apply tx_bind_ok in H as (a & db1 & H1 & H); world_step H1
  | _ => tx_step H
  end.

(** A foreign key that does not hold is neither a unique nor a check
    violation: the statement fails with a 500. *)
Definition foreign_key_error : ApiError := api_error_of_db_error OtherDbError.

(** A row that [fetch_one] does not find. *)
Definition row_not_found : ApiError := api_error_of_db_error OtherDbError.

Section World.
Context `{UuidLib}.

Definition json_uuid (u : Uuid) : Json := JString (uuid_to_string u).

(** [insert_event_on_connection]: [n] selects the event's identifier among
    those the request draws. *)
Definition insert_event_on_connection (rt : Runtime) (n : nat) (sandbox_id : Uuid)
    (kind : SandboxEventKind) (data : Json) : Tx World unit :=
  let! w := get_world in
  check! is_some (sandboxes w !! sandbox_id) else foreign_key_error in
  modify_world (set_sandbox_events
    (sandbox_events w ++
       [(new_uuid rt n, mkSandboxEvent sandbox_id kind data (utc_now rt))])).

(** [update sandboxes set state = .., updated_at = ..]. *)
Definition sandbox_set_state (state : SandboxState) (now : Z) (s : Sandbox) : Sandbox :=
  mkSandbox (sb_id s) (sb_tenant_id s) (sb_name s) state (sb_template s) (sb_memory_limit s)
    (sb_network_egress s) (sb_workspace_mode s) (sb_runtime_profile s) (sb_execution_class s)
    (sb_created_at s) now (sb_ttl_seconds s) (sb_max_lifetime_seconds s) (sb_idle_ttl_seconds s)
    (sb_last_activity_at s) (sb_parent_snapshot_id s).

(** [set_sandbox_state_on_connection]: a compare-and-swap on the state, under
    the trigger that vets every change of it. *)
Definition set_sandbox_state_on_connection (rt : Runtime) (n : nat) (sandbox_id : Uuid)
    (allowed_from : list SandboxState) (next_state : SandboxState) (event_data : Json) :
    Tx World bool :=
  let! w := get_world in
  match sandboxes w !! sandbox_id with
  | Some s =>
      if negb (contains allowed_from (sb_state s)) then tx_ret false
      else
        check! transition_guard_admits (as_db_str (sb_state s)) (as_db_str next_state)
          else api_error_of_db_error OtherDbError in
        let! _ := modify_world (set_sandboxes
          (<[sandbox_id := sandbox_set_state next_state (utc_now rt) s]> (sandboxes w))) in
        let! _ := insert_event_on_connection rt n sandbox_id SandboxEventKind.LifecycleChanged
                    event_data in
        tx_ret true
  | None => tx_ret false
  end.

(** [order by kind asc, value asc]. *)
Definition rule_le (a b : NetworkAllowRule) : Prop :=
  String.le (as_db_str (rule_kind a)) (as_db_str (rule_kind b)) /\
  (as_db_str (rule_kind a) = as_db_str (rule_kind b) -> String.le (rule_value a) (rule_value b)).

#[export] Instance rule_le_dec : RelDecision rule_le.
Proof.
  intros a b. unfold rule_le. apply and_dec; [apply _|].
  destruct (decide (as_db_str (rule_kind a) = as_db_str (rule_kind b))) as [E|E];
    [|left; intros; contradiction].
  destruct (decide (String.le (rule_value a) (rule_value b))) as [L|L];
    [left; intros; exact L | right; auto].
Defined.

Definition list_network_allow_rules (w : World) (sandbox_id : Uuid) : list NetworkAllowRule :=
  merge_sort rule_le
    (List.filter (fun r => bool_decide (r.1 = sandbox_id)) (sandbox_network_egress_rules w)).*2.

(** [hydrate_sandbox_network_egress_on_connection]. *)
Definition hydrate_sandbox_network_egress (w : World) (s : Sandbox) : Sandbox :=
  match sb_network_egress s with
  | Allowlist _ =>
      mkSandbox (sb_id s) (sb_tenant_id s) (sb_name s) (sb_state s) (sb_template s)
        (sb_memory_limit s) (Allowlist (list_network_allow_rules w (sb_id s)))
        (sb_workspace_mode s) (sb_runtime_profile s) (sb_execution_class s) (sb_created_at s)
        (sb_updated_at s) (sb_ttl_seconds s) (sb_max_lifetime_seconds s) (sb_idle_ttl_seconds s)
        (sb_last_activity_at s) (sb_parent_snapshot_id s)
  | DenyAll | AllowAll => s
  end.

(** [fetch_sandbox_on_connection]. *)
Definition fetch_sandbox (w : World) (sandbox_id : Uuid) : result Sandbox ApiError :=
  match sandboxes w !! sandbox_id with
  | Some s => Ok (hydrate_sandbox_network_egress w s)
  | None => Err (not_found "sandbox not found")
  end.

(** [ensure_sandbox_tenant_on_connection]. *)
Definition ensure_sandbox_tenant_on_connection (sandbox_id : Uuid) (tenant_id : string) :
    Tx World Sandbox :=
  let! w := get_world in
  let! s := tx_lift (fetch_sandbox w sandbox_id) in
  check! String.eqb (sb_tenant_id s) tenant_id else not_found "resource not found" in
  tx_ret s.

(** [NetworkEgress::rules]. *)
Definition rules (e : NetworkEgress) : list NetworkAllowRule :=
  match e with Allowlist rs => rs | DenyAll | AllowAll => [] end.

(** [order by name], in Rust ([sort_secret_mounts]). *)
Definition mount_name_le (a b : SandboxSecretMount) : Prop := String.le (mount_name a) (mount_name b).

#[export] Instance mount_name_le_dec : RelDecision mount_name_le.
Proof. intros a b. unfold mount_name_le. apply _. Defined.

Definition fetch_sandbox_secret_mounts (w : World) (sandbox_id : Uuid) : list SandboxSecretMount :=
  merge_sort mount_name_le
    (List.filter (fun r => bool_decide (r.1 = sandbox_id)) (sandbox_secret_bindings w)).*2.

(** ** What statements over the world leave alone *)

(** Statements over the world keep the scheduler's tables; the few that also
    write placements, residents or cells stay within the effect frame. *)
Definition world_only (db db' : Db World) : Prop := exists w, db' = set_world w db.

#[export] Instance world_only_preorder : PreOrder world_only.
Proof.
  split.
  - intros []. by eexists.
  - intros db1 db2 db3 [w ->] [w' ->]. by exists w'.
Qed.

Lemma world_only_effect db db' : world_only db db' -> effect_frame db db'.
Proof. intros [w ->]. constructor; [constructor|]; try done. split; eauto; naive_solver. Qed.

Lemma world_only_frame {A} (m : Tx World A) : tx_rel world_only m -> tx_rel effect_frame m.
Proof. intros Hm db a db' E. by eapply world_only_effect, Hm. Qed.

Lemma modify_world_only f : tx_rel world_only (modify_world f).
Proof. apply tx_rel_modify. intros db. by eexists. Qed.

Lemma get_world_only : tx_rel world_only get_world.
Proof. unfold get_world. intros db w db' E. simpl in E. unfold tx_bind, tx_get, tx_ret in E.
  simplify_eq. reflexivity. Qed.
End World.
