(* ===== verification/BootstrapHandoff.v ===== *)
(** * The shared handoff of resident bootstraps

    [sandboxwich-api/src/bootstrap_handoff.rs]: the publishing process seals a
    bootstrap under an operator-held key and writes the ciphertext beside the
    resident process's row; any process with the key can open it again.  The
    seal is bound to the resident's identity as associated data, and a row
    that cannot be used is an absent row.

    The cipher, the base64 alphabet, SHA-256 and the [serde] of the sealed
    payload are parameters ([HandoffLib]); what the code relies on is stated in
    [HandoffLaws]. *)

From S2P Require Import Prelude BootstrapStore CoreTypes Json Store Leases SandboxLifecycle World.
From stdpp Require Import pretty.

Abbreviation Bytes := (list N).

(** [SealedBootstrapPayload]. *)
Record SealedBootstrapPayload : Type := mkSealedPayload {
  sp_content : Bytes;
  sp_sterile_activation : option SterileResidentActivationV1
}.

(** XChaCha20-Poly1305, standard base64, SHA-256 in hexadecimal, and the
    derived [serde] of the payload. *)
Class HandoffLib : Type := {
  aead_encrypt : Bytes -> Bytes -> Bytes -> string -> option Bytes;
  aead_decrypt : Bytes -> Bytes -> Bytes -> string -> option Bytes;
  base64_encode : Bytes -> string;
  base64_decode : string -> option Bytes;
  sha256_hex_bytes : Bytes -> string;
  payload_to_vec : SealedBootstrapPayload -> option Bytes;
  payload_from_slice : Bytes -> option SealedBootstrapPayload
}.

(** The separator of the associated data. *)
Definition BAR : Ascii.ascii := Ascii.ascii_of_N 124.

(** The cipher opens what it sealed, and nothing under other associated data;
    base64 and [serde] read back what they wrote. *)
Class HandoffLaws `{HandoffLib} : Prop := {
  aead_opens key nonce msg aad c : aead_encrypt key nonce msg aad = Some c ->
    aead_decrypt key nonce c aad = Some msg;
  aead_binds key nonce nonce' msg aad aad' c m : aead_encrypt key nonce msg aad = Some c ->
    aead_decrypt key nonce' c aad' = Some m -> aad' = aad /\ m = msg;
  base64_round_trip b : base64_decode (base64_encode b) = Some b;
  payload_round_trip p b : payload_to_vec p = Some b -> payload_from_slice b = Some p;
  digest_lacks_bar b : BAR ∉ String.list_ascii_of_string (sha256_hex_bytes b)
}.

Definition NONCE_BYTES : nat := 24.

(** The configured tier: its key and retention. *)
Record SharedBootstrapHandoff : Type := mkSharedHandoff {
  handoff_key : Bytes;
  handoff_ttl : Z
}.

Section Handoff.
Context `{UuidLib} `{HandoffLib}.

Definition content_digest (content : Bytes) : string := sha256_hex_bytes content.

Definition KEY_ID_DOMAIN : Bytes := str_bytes "sandboxwich-resident-bootstrap-handoff-key-id/v1".

Definition key_id (key : Bytes) : string :=
  String.substring 0 16 (sha256_hex_bytes (KEY_ID_DOMAIN ++ key)).

Definition associated_data_of (version : string) (id sandbox_id : Uuid) (tenant : string) (generation : Z)
    (sha256 : string) : string :=
  "sandboxwich-resident-bootstrap-handoff/" ++ version ++ "|" ++ uuid_to_string id ++ "|"
    ++ uuid_to_string sandbox_id ++ "|" ++ tenant ++ "|" ++ pretty (Z.to_N generation) ++ "|" ++ sha256.

Definition associated_data (id sandbox_id : Uuid) (b : LiveResidentBootstrap) : string :=
  associated_data_of "v2" id sandbox_id (lb_tenant_id b) (lb_generation b) (lb_sha256 b).

Definition legacy_associated_data (id sandbox_id : Uuid) (b : LiveResidentBootstrap) : string :=
  associated_data_of "v1" id sandbox_id (lb_tenant_id b) (lb_generation b) (lb_sha256 b).

Definition open_payload (h : SharedBootstrapHandoff) (nonce ciphertext : Bytes) (id sandbox_id : Uuid)
    (b : LiveResidentBootstrap) : option SealedBootstrapPayload :=
  match aead_decrypt (handoff_key h) nonce ciphertext (associated_data id sandbox_id b) with
  | Some plaintext => payload_from_slice plaintext
  | None =>
      content ← aead_decrypt (handoff_key h) nonce ciphertext (legacy_associated_data id sandbox_id b);
      Some (mkSealedPayload content None)
  end.

(** What [put_resident_process] answers when sealing or writing fails. *)
Definition handoff_error : ApiError := internal "failed to record the resident bootstrap handoff".

Definition sealed_row (h : SharedBootstrapHandoff) (nonce : Bytes) (id sandbox_id : Uuid)
    (b : LiveResidentBootstrap) (now : Z) : option HandoffRow :=
  plaintext ← payload_to_vec (mkSealedPayload (lb_content b) (lb_sterile_activation b));
  ciphertext ← aead_encrypt (handoff_key h) nonce plaintext (associated_data id sandbox_id b);
  Some (mkHandoffRow sandbox_id (lb_tenant_id b) (u64_as_i64 (lb_generation b)) (lb_sha256 b)
          (Z.of_nat (length (lb_content b))) (lb_target_file b) (lb_mode b) (key_id (handoff_key h))
          (base64_encode nonce) (base64_encode ciphertext) now (now + handoff_ttl h)).

(** [nonce] is what the operating system's generator filled in.  The row
    references its resident process. *)
Definition publish_on_connection (h : SharedBootstrapHandoff) (nonce : Bytes) (id sandbox_id : Uuid)
    (b : LiveResidentBootstrap) (now : Z) : Tx World unit :=
  match sealed_row h nonce id sandbox_id b now with
  | None => tx_throw handoff_error
  | Some row =>
      let! db := tx_get in
      check! is_some (resident_processes db !! id) else handoff_error in
      check! is_none (resident_bootstrap_handoffs (world db) !! id) else handoff_error in
      modify_world (fun w => set_resident_bootstrap_handoffs
                               (<[id := row]> (resident_bootstrap_handoffs w)) w)
  end.

(** A resident without a sterile lease, or the live lease of the activation. *)
Definition activation_matches_durable_fence (db : Db World) (id sandbox_id : Uuid)
    (activation : option SterileResidentActivationV1) (now : Z) : bool :=
  match resident_processes db !! id with
  | None => false
  | Some rp =>
      match activation with
      | None => is_none (rp_sterile_lease_id rp)
      | Some a =>
          match rp_sterile_cell_id rp ≫= fun c => sterile_cells db !! c with
          | None => false
          | Some sc =>
              bool_decide (rp_sandbox_id rp = sandbox_id)
              && bool_decide (rp_sterile_cell_id rp = Some sandbox_id)
              && bool_decide (rp_sterile_lease_id rp = Some (sa_lease_id a))
              && bool_decide (rp_sterile_lease_generation rp = Some (u64_as_i64 (sa_generation a)))
              && bool_decide (cell_state sc = SterileCellState.Leased)
              && bool_decide (cell_lease_id sc = rp_sterile_lease_id rp)
              && bool_decide (Some (cell_generation sc) = rp_sterile_lease_generation rp)
              && bool_decide (cell_organization_id sc = Some (sa_organization_id a))
              && bool_decide (cell_workspace_id sc = Some (sa_workspace_id a))
              && bool_decide (cell_thread_id sc = Some (sa_thread_id a))
              && bool_decide (cell_runner_session_id sc = Some (sa_runner_session_id a))
              && bool_decide (cell_lease_attestation_sha256 sc
                              = Some (content_digest (str_bytes (sa_lease_attestation a))))
              && match cell_lease_expires_at sc with Some t => (now <? t)%Z | None => false end
          end
      end
  end.

(** The columns of a row as the bootstrap they describe, without its bytes. *)
Definition bootstrap_shell (row : HandoffRow) : LiveResidentBootstrap :=
  {| lb_tenant_id := hf_tenant_id row; lb_content := []; lb_sha256 := hf_sha256 row;
     lb_target_file := hf_target_file row; lb_mode := hf_mode row;
     lb_generation := hf_generation row; lb_sterile_activation := None |}.

Definition set_payload (p : SealedBootstrapPayload) (b : LiveResidentBootstrap) : LiveResidentBootstrap :=
  {| lb_tenant_id := lb_tenant_id b; lb_content := sp_content p; lb_sha256 := lb_sha256 b;
     lb_target_file := lb_target_file b; lb_mode := lb_mode b; lb_generation := lb_generation b;
     lb_sterile_activation := sp_sterile_activation p |}.

(** Every unusable row is [None]; the clock is read again for the fence. *)
Definition load (h : SharedBootstrapHandoff) (db : Db World) (id sandbox_id : Uuid) (now checked_at : Z) :
    option LiveResidentBootstrap :=
  row ← resident_bootstrap_handoffs (world db) !! id;
  if negb (bool_decide (hf_sandbox_id row = sandbox_id))
     || negb (String.eqb (hf_key_id row) (key_id (handoff_key h)))
     || (hf_expires_at row <=? now)%Z
  then None
  else if negb (in_u32 (hf_mode row)) || (hf_generation row <? 0)%Z then None
  else
    nonce ← base64_decode (hf_nonce row);
    if negb (Nat.eqb (length nonce) NONCE_BYTES) then None
    else
      ciphertext ← base64_decode (hf_ciphertext row);
      payload ← open_payload h nonce ciphertext id sandbox_id (bootstrap_shell row);
      let content := sp_content payload in
      if negb (Z.of_nat (length content) =? hf_byte_count row)%Z
         || negb (String.eqb (content_digest content) (hf_sha256 row))
      then None
      else if negb (activation_matches_durable_fence db id sandbox_id (sp_sterile_activation payload) checked_at)
      then None
      else Some (set_payload payload (bootstrap_shell row)).

Definition delete_handoff (id : Uuid) : Tx World unit :=
  modify_world (fun w => set_resident_bootstrap_handoffs (delete id (resident_bootstrap_handoffs w)) w).

Definition expire_due_bootstrap_handoffs (now : Z) : Tx World Z :=
  let! w := get_world in
  let due (_ : Uuid) (row : HandoffRow) := (hf_expires_at row <=? now)%Z in
  let! _ := modify_world (set_resident_bootstrap_handoffs
              (filter (fun kv => due kv.1 kv.2 = false) (resident_bootstrap_handoffs w))) in
  tx_ret (Z.of_nat (count_rows due (resident_bootstrap_handoffs w))).

(** [forget_shared]: without the tier there is nothing to delete. *)
Definition forget_shared (handoff : option SharedBootstrapHandoff) (id : Uuid) (db : Db World) : Db World :=
  match handoff with None => db | Some _ => (run_tx (delete_handoff id) db).2 end.
End Handoff.
