(* ===== verification/CommandOutput.v ===== *)
(** * Command output

    A command's output is a stream of numbered chunks per standard stream,
    with the counts, byte totals and last sequence numbers kept on the
    command row so that appends need not rescan it.  A worker streams chunks
    while it holds the lease; its completion then reports the whole output,
    which extends or replaces what was streamed.

    Sources: [handlers/commands.rs] and the command part of
    [handlers/leases.rs]. *)

From S2P Require Import Prelude CoreTypes Json Store Leases SandboxLifecycle World.

Definition MAX_COMMAND_OUTPUT_BYTES : Z := 4 * 1024 * 1024.
Definition MAX_COMMAND_OUTPUT_CHUNKS : Z := 4096.
Definition MAX_COMMAND_OUTPUT_CHUNK_BYTES : Z := 2 * 1024 * 1024.

Definition byte_len (s : string) : Z := Z.of_nat (String.length s).

(** [i64::saturating_add]. *)
Definition i64_saturating_add (a b : Z) : Z := Z.max i64_min (Z.min (a + b) i64_max).

Definition validate_command_output_bounds (existing_chunks existing_bytes new_chunk_bytes : Z) :
    result unit ApiError :=
  if (MAX_COMMAND_OUTPUT_CHUNK_BYTES <? new_chunk_bytes)%Z then
    Err (bad_request "command output chunk exceeds 2 MiB")
  else if (MAX_COMMAND_OUTPUT_CHUNKS <=? existing_chunks)%Z then
    Err (bad_request "command output exceeds 4096 chunks")
  else
    match try_i64 new_chunk_bytes with
    | None => Err (bad_request "command output chunk is too large")
    | Some bytes =>
        if (MAX_COMMAND_OUTPUT_BYTES <? i64_saturating_add existing_bytes bytes)%Z then
          Err (bad_request "command output exceeds 4 MiB")
        else Ok tt
    end.

(** ** Columns of [commands] *)

Definition stream_sequence (stream : CommandOutputStream) (c : CommandRow) : Z :=
  match stream with
  | CommandOutputStream.Stdout => stdout_output_sequence c
  | CommandOutputStream.Stderr => stderr_output_sequence c
  end.

(** [set output_chunk_count = output_chunk_count + 1, output_byte_count =
    output_byte_count + .., <stream>_output_sequence = .. + 1]. *)
Definition command_count_chunk (stream : CommandOutputStream) (bytes : Z) (c : CommandRow) : CommandRow :=
  mkCommandRow (cmd_sandbox_id c) (cmd_status c) (cmd_argv c) (cmd_cwd c) (cmd_exit_code c)
    (cmd_stdout c) (cmd_stderr c) (cmd_created_at c) (cmd_finished_at c)
    (output_chunk_count c + 1) (output_byte_count c + bytes)
    (match stream with
     | CommandOutputStream.Stdout => stdout_output_sequence c + 1
     | CommandOutputStream.Stderr => stdout_output_sequence c
     end)
    (match stream with
     | CommandOutputStream.Stdout => stderr_output_sequence c
     | CommandOutputStream.Stderr => stderr_output_sequence c + 1
     end).

(** [set <stream> = '', output_chunk_count = output_chunk_count - ..,
    output_byte_count = output_byte_count - .., <stream>_output_sequence = 0]. *)
Definition command_drop_stream (stream : CommandOutputStream) (chunks bytes : Z) (c : CommandRow) :
    CommandRow :=
  mkCommandRow (cmd_sandbox_id c) (cmd_status c) (cmd_argv c) (cmd_cwd c) (cmd_exit_code c)
    (match stream with CommandOutputStream.Stdout => "" | _ => cmd_stdout c end)
    (match stream with CommandOutputStream.Stderr => "" | _ => cmd_stderr c end)
    (cmd_created_at c) (cmd_finished_at c)
    (output_chunk_count c - chunks) (output_byte_count c - bytes)
    (match stream with CommandOutputStream.Stdout => 0 | _ => stdout_output_sequence c end)
    (match stream with CommandOutputStream.Stderr => 0 | _ => stderr_output_sequence c end).

(** [set status = 'queued', stdout = '', stderr = '', exit_code = null,
    finished_at = null, ..] with every counter zeroed. *)
Definition command_reset (c : CommandRow) : CommandRow :=
  mkCommandRow (cmd_sandbox_id c) CommandStatus.Queued (cmd_argv c) (cmd_cwd c) None "" ""
    (cmd_created_at c) None 0 0 0 0.

Definition command_set_status (status : CommandStatus) (c : CommandRow) : CommandRow :=
  mkCommandRow (cmd_sandbox_id c) status (cmd_argv c) (cmd_cwd c) (cmd_exit_code c)
    (cmd_stdout c) (cmd_stderr c) (cmd_created_at c) (cmd_finished_at c)
    (output_chunk_count c) (output_byte_count c) (stdout_output_sequence c)
    (stderr_output_sequence c).

(** [set status = .., exit_code = .., finished_at = ..]. *)
Definition command_set_finished (status : CommandStatus) (exit_code : option Z) (now : Z)
    (c : CommandRow) : CommandRow :=
  mkCommandRow (cmd_sandbox_id c) status (cmd_argv c) (cmd_cwd c) exit_code
    (cmd_stdout c) (cmd_stderr c) (cmd_created_at c) (Some now)
    (output_chunk_count c) (output_byte_count c) (stdout_output_sequence c)
    (stderr_output_sequence c).

(** ** Chunks *)

Definition of_command (command_id : Uuid) (k : CommandOutputChunk) : bool :=
  bool_decide (chunk_command_id k = command_id).
Definition of_stream (command_id : Uuid) (stream : CommandOutputStream) (k : CommandOutputChunk) :
    bool :=
  of_command command_id k && bool_decide (chunk_stream k = stream).
Definition at_sequence (command_id : Uuid) (stream : CommandOutputStream) (sequence : Z)
    (k : CommandOutputChunk) : bool :=
  of_stream command_id stream k && bool_decide (chunk_sequence k = sequence).

Definition sequence_le (a b : CommandOutputChunk) : Prop := (chunk_sequence a <= chunk_sequence b)%Z.

#[export] Instance sequence_le_dec : RelDecision sequence_le.
Proof. intros a b. unfold sequence_le. apply _. Defined.

(** [select chunk .. where command_id = .. and stream = .. order by sequence]. *)
Definition stream_chunks (w : World) (command_id : Uuid) (stream : CommandOutputStream) :
    list CommandOutputChunk :=
  merge_sort sequence_le (List.filter (of_stream command_id stream) (command_output_chunks w)).

Fixpoint concat_strings (l : list string) : string :=
  match l with
  | [] => ""
  | s :: l' => s ++ concat_strings l'
  end.

(** [command_output_for_stream_on_connection]. *)
Definition command_output_for_stream (w : World) (command_id : Uuid) (stream : CommandOutputStream) :
    string :=
  concat_strings (chunk_text <$> stream_chunks w command_id stream).

Definition total_bytes (l : list CommandOutputChunk) : Z :=
  fold_right (fun k acc => byte_len (chunk_text k) + acc)%Z 0%Z l.

(** ** Operations *)

Section Operations.
Context `{UuidLib}.

(** [last_sequence.checked_add(1)], converted to [u64] and back. *)
Definition next_sequence (last : Z) : result Z ApiError :=
  match try_i64 (last + 1) with
  | None => Err (internal "command output sequence overflow")
  | Some sequence =>
      if (sequence <? 0)%Z
      then Err (internal "database contains invalid command output sequence")
      else Ok sequence
  end.

(** [lock_command_output_for_append_on_connection], which every writer of
    output takes first. *)
Definition lock_command (command_id : Uuid) : Tx World CommandRow :=
  let! w := get_world in
  match commands w !! command_id with
  | Some c => tx_ret c
  | None => tx_throw (not_found "command not found")
  end.

Definition update_command (command_id : Uuid) (f : CommandRow -> CommandRow) (w : World) : World :=
  set_commands (alter f command_id (commands w)) w.

Definition append_command_output_chunk_on_connection (rt : Runtime) (n : nat)
    (command_id sandbox_id : Uuid) (stream : CommandOutputStream) (chunk : string)
    (annotations : list Json) : Tx World unit :=
  let! c := lock_command command_id in
  let! _ := tx_lift (validate_command_output_bounds (output_chunk_count c) (output_byte_count c)
                       (byte_len chunk)) in
  let! sequence := tx_lift (next_sequence (stream_sequence stream c)) in
  let! w := get_world in
  check! negb (existsb (at_sequence command_id stream sequence) (command_output_chunks w))
    else api_error_of_db_error UniqueViolation in
  let! _ := modify_world (fun w =>
    set_command_output_chunks
      (command_output_chunks w ++
         [mkCommandOutputChunk (new_uuid rt n) command_id stream sequence chunk annotations
            (utc_now rt)]) w) in
  let! _ := modify_world (update_command command_id (command_count_chunk stream (byte_len chunk))) in
  insert_event_on_connection rt (S n) sandbox_id SandboxEventKind.CommandOutput
    (JObject [("commandId", json_uuid command_id); ("stream", JString (as_db_str stream));
              ("sequence", JNumber (PosInt sequence))]).

Definition replace_command_output_stream_on_connection (command_id : Uuid)
    (stream : CommandOutputStream) : Tx World unit :=
  let! _ := lock_command command_id in
  let! w := get_world in
  let removed := List.filter (of_stream command_id stream) (command_output_chunks w) in
  let! _ := modify_world (fun w =>
    set_command_output_chunks
      (List.filter (fun k => negb (of_stream command_id stream k)) (command_output_chunks w)) w) in
  modify_world (update_command command_id
    (command_drop_stream stream (Z.of_nat (length removed)) (total_bytes removed))).

Definition reset_command_for_retry_on_connection (command_id : Uuid) : Tx World unit :=
  let! _ := lock_command command_id in
  let! _ := modify_world (fun w =>
    set_command_output_chunks
      (List.filter (fun k => negb (of_command command_id k)) (command_output_chunks w)) w) in
  modify_world (update_command command_id command_reset).

(** [chunk.strip_prefix(&current)]. *)
Fixpoint strip_prefix (p s : string) : option string :=
  match p, s with
  | EmptyString, _ => Some s
  | String a p', String b s' => if Ascii.eqb a b then strip_prefix p' s' else None
  | String _ _, EmptyString => None
  end.

(** [append_completion_output_on_connection]: the reported output extends
    what was streamed, or replaces it. *)
Definition append_completion_output_on_connection (rt : Runtime) (n : nat)
    (command_id sandbox_id : Uuid) (stream : CommandOutputStream) (chunk : string) : Tx World unit :=
  if String.eqb chunk "" then tx_ret tt
  else
    let! w := get_world in
    let current := command_output_for_stream w command_id stream in
    if String.eqb current chunk then tx_ret tt
    else
      match strip_prefix current chunk with
      | Some suffix =>
          if String.eqb suffix "" then tx_ret tt
          else append_command_output_chunk_on_connection rt n command_id sandbox_id stream suffix []
      | None =>
          let! _ := replace_command_output_stream_on_connection command_id stream in
          append_command_output_chunk_on_connection rt n command_id sandbox_id stream chunk []
      end.

(** [finish_command_from_lease_result_on_connection]. *)
Definition finish_command_from_lease_result_on_connection (rt : Runtime) (command_id : Uuid)
    (status : CommandStatus) (exit_code : option Z) : Tx World unit :=
  modify_world (update_command command_id (command_set_finished status exit_code (utc_now rt))).
End Operations.

(** ** The accounting invariant *)

Definition accounted (l : list CommandOutputChunk) (id : Uuid) (c : CommandRow) : Prop :=
  (forall s, (0 <= stream_sequence s c)%Z /\
     chunk_sequence <$> List.filter (of_stream id s) l = seqZ 1 (stream_sequence s c)) /\
  output_chunk_count c = Z.of_nat (length (List.filter (of_command id) l)) /\
  output_byte_count c = total_bytes (List.filter (of_command id) l) /\
  (output_chunk_count c <= MAX_COMMAND_OUTPUT_CHUNKS)%Z /\
  (output_byte_count c <= MAX_COMMAND_OUTPUT_BYTES)%Z.

Definition output_ok (w : World) : Prop :=
  (forall id c, commands w !! id = Some c -> accounted (command_output_chunks w) id c) /\
  (forall k, k ∈ command_output_chunks w -> is_Some (commands w !! chunk_command_id k)).

(** *** Filtering *)

Lemma filter_filter_disjoint {A} (p q : A -> bool) l :
  (forall x, p x = true -> q x = false) ->
  List.filter p (List.filter (fun x => negb (q x)) l) = List.filter p l.
Proof.
  intros Hd. induction l as [|x l IH]; simpl; [done|].
  destruct (q x) eqn:Eq; simpl; destruct (p x) eqn:Ep; rewrite ?IH; try done.
  apply Hd in Ep. congruence.
Qed.

Lemma filter_filter_absent {A} (p q : A -> bool) l :
  (forall x, p x = true -> q x = true) ->
  List.filter p (List.filter (fun x => negb (q x)) l) = [].
Proof.
  intros Hi. induction l as [|x l IH]; simpl; [done|].
  destruct (q x) eqn:Eq; simpl; [done|]. destruct (p x) eqn:Ep; [|done].
  apply Hi in Ep. congruence.
Qed.

Lemma total_bytes_app l k : total_bytes (l ++ k) = (total_bytes l + total_bytes k)%Z.
Proof. induction l; simpl; lia. Qed.

Lemma total_bytes_nonneg l : (0 <= total_bytes l)%Z.
Proof. induction l; simpl; unfold byte_len in *; lia. Qed.

Lemma filter_split (p q : CommandOutputChunk -> bool) l :
  (forall x, q x = true -> p x = true) ->
  length (List.filter p l) =
    length (List.filter q l) + length (List.filter p (List.filter (fun x => negb (q x)) l)) /\
  total_bytes (List.filter p l) =
    (total_bytes (List.filter q l) +
     total_bytes (List.filter p (List.filter (fun x => negb (q x)) l)))%Z.
Proof.
  intros Hi. induction l as [|x l [IH1 IH2]]; simpl; [done|].
  destruct (q x) eqn:Eq; simpl.
  - rewrite (Hi _ Eq). simpl. lia.
  - destruct (p x); simpl; lia.
Qed.

Lemma of_stream_command id s k : of_stream id s k = true -> of_command id k = true.
Proof. unfold of_stream. by intros [? ?]%andb_true_iff. Qed.

Lemma of_command_other id id' k : id <> id' -> of_command id k = true -> of_command id' k = false.
Proof.
  unfold of_command. intros Hne Hk%bool_decide_eq_true. apply bool_decide_eq_false. congruence.
Qed.

Lemma of_stream_other id id' s s' k :
  id <> id' \/ s <> s' -> of_stream id s k = true -> of_stream id' s' k = false.
Proof.
  unfold of_stream, of_command. intros Hne [H1%bool_decide_eq_true H2%bool_decide_eq_true]%andb_true_iff.
  apply andb_false_iff. destruct Hne; [left|right]; apply bool_decide_eq_false; congruence.
Qed.

(** *** Each write keeps the accounting *)

Lemma accounted_other l id c k :
  chunk_command_id k <> id -> accounted l id c -> accounted (l ++ [k]) id c.
Proof.
  intros Hne (Hs & Hrest).
  assert (Hk : of_command id k = false) by (by apply bool_decide_eq_false).
  assert (Hks : forall s, of_stream id s k = false) by (intros s; unfold of_stream; by rewrite Hk).
  unfold accounted. rewrite List.filter_app. simpl. rewrite Hk, app_nil_r. split; [|done].
  intros s. rewrite List.filter_app. simpl. rewrite Hks, app_nil_r. apply Hs.
Qed.

Lemma accounted_append l id c k :
  chunk_command_id k = id -> chunk_sequence k = (stream_sequence (chunk_stream k) c + 1)%Z ->
  (output_chunk_count c + 1 <= MAX_COMMAND_OUTPUT_CHUNKS)%Z ->
  (output_byte_count c + byte_len (chunk_text k) <= MAX_COMMAND_OUTPUT_BYTES)%Z ->
  accounted l id c ->
  accounted (l ++ [k]) id (command_count_chunk (chunk_stream k) (byte_len (chunk_text k)) c).
Proof.
  intros Hid Hseq Hc Hb (Hs & Hcount & Hbytes & _).
  assert (Hk : of_command id k = true) by (by apply bool_decide_eq_true).
  split; [|unfold accounted; rewrite !List.filter_app; simpl; rewrite Hk; simpl].
  - intros s. destruct (Hs s) as [Hpos Hmap]. rewrite List.filter_app. simpl.
    unfold of_stream. rewrite Hk. simpl. rewrite fmap_app.
    destruct (decide (chunk_stream k = s)) as [<-|Hne].
    + rewrite bool_decide_eq_true_2 by done. simpl. fold (of_stream id (chunk_stream k)).
      replace (stream_sequence (chunk_stream k) (command_count_chunk (chunk_stream k) _ c))
        with (stream_sequence (chunk_stream k) c + 1)%Z
        by (destruct (chunk_stream k); done).
      split; [lia|]. rewrite seqZ_app by lia. rewrite Hmap. f_equal. simpl.
      rewrite Hseq. unfold seqZ. simpl. f_equal. lia.
    + rewrite bool_decide_eq_false_2 by done. simpl. rewrite app_nil_r.
      replace (stream_sequence s (command_count_chunk (chunk_stream k) _ c))
        with (stream_sequence s c) by (destruct s, (chunk_stream k); done).
      by split.
  - rewrite length_app, total_bytes_app. simpl. lia.
Qed.

Lemma accounted_drop_other l id id' s c :
  id <> id' -> accounted l id c ->
  accounted (List.filter (fun k => negb (of_stream id' s k)) l) id c.
Proof.
  intros Hne (Hs & Hrest). unfold accounted. split.
  - intros s'. rewrite filter_filter_disjoint by (intros k; apply of_stream_other; by left).
    apply Hs.
  - rewrite filter_filter_disjoint; [done|]. intros k Hk.
    apply (of_command_other _ id') in Hk; [|done]. unfold of_stream. by rewrite Hk.
Qed.

Lemma accounted_drop l id s c :
  accounted l id c ->
  accounted (List.filter (fun k => negb (of_stream id s k)) l) id
    (command_drop_stream s (Z.of_nat (length (List.filter (of_stream id s) l)))
       (total_bytes (List.filter (of_stream id s) l)) c).
Proof.
  intros (Hs & Hcount & Hbytes & Hc & Hb).
  destruct (filter_split (of_command id) (of_stream id s) l (of_stream_command id s)) as [Hlen Htot].
  pose proof (total_bytes_nonneg (List.filter (of_stream id s) l)).
  split; [|simpl; lia]. intros s'. destruct (decide (s' = s)) as [->|Hne].
  - rewrite filter_filter_absent by done. by destruct s.
  - rewrite filter_filter_disjoint by (intros k; apply of_stream_other; by right).
    replace (stream_sequence s' (command_drop_stream s _ _ c)) with (stream_sequence s' c)
      by (destruct s, s'; done).
    apply Hs.
Qed.

Lemma accounted_forget_other l id id' c :
  id <> id' -> accounted l id c ->
  accounted (List.filter (fun k => negb (of_command id' k)) l) id c.
Proof.
  intros Hne (Hs & Hrest). unfold accounted. split.
  - intros s'. rewrite filter_filter_disjoint; [apply Hs|]. intros k Hk%of_stream_command.
    by eapply of_command_other.
  - rewrite filter_filter_disjoint; [done|]. intros k. by apply of_command_other.
Qed.

Lemma accounted_reset l id c :
  accounted (List.filter (fun k => negb (of_command id k)) l) id (command_reset c).
Proof.
  unfold accounted. rewrite !filter_filter_absent by done. simpl. split; [|split; [|split; [|]]]; try done.
  intros s. rewrite filter_filter_absent by apply of_stream_command. by destruct s.
Qed.

(** *** Reading a stream back *)

#[export] Instance sequence_le_trans : Transitive sequence_le.
Proof. intros a b c. unfold sequence_le. lia. Qed.
#[export] Instance sequence_le_total : Total sequence_le.
Proof. intros a b. unfold sequence_le. lia. Qed.

Lemma numbered_sorted l m n :
  chunk_sequence <$> l = seqZ m n -> StronglySorted sequence_le l.
Proof.
  revert m n. induction l as [|k l IH]; intros m n E; [constructor|].
  assert (Hn : (0 < n)%Z).
  { destruct (Z_lt_le_dec 0 n); [done|]. rewrite seqZ_nil in E by lia. done. }
  rewrite seqZ_cons in E by done. simpl in E. injection E as Hk Hl. constructor; [by eapply IH|].
  apply Forall_forall. intros k' Hin. unfold sequence_le.
  assert (chunk_sequence k' ∈ seqZ (Z.succ m) (Z.pred n)) as Hin'%elem_of_seqZ
    by (rewrite <- Hl; by apply list_elem_of_fmap_2).
  lia.
Qed.

Lemma stream_chunks_ok w id s :
  output_ok w ->
  stream_chunks w id s = List.filter (of_stream id s) (command_output_chunks w).
Proof.
  intros [Hacc Hown]. unfold stream_chunks. destruct (commands w !! id) as [c|] eqn:E.
  - destruct (Hacc _ _ E) as [Hs _]. destruct (Hs s) as [_ Hseq].
    apply (merge_sort_sorted _ chunk_sequence).
    + unfold sequence_le. lia.
    + by eapply numbered_sorted.
    + rewrite Hseq. apply NoDup_seqZ.
  - assert (Hnil : List.filter (of_stream id s) (command_output_chunks w) = []).
    { destruct (List.filter _ _) as [|k l] eqn:F; [done|]. exfalso.
      assert (Hin : In k (List.filter (of_stream id s) (command_output_chunks w)))
        by (rewrite F; by left).
      apply List.filter_In in Hin as [Hin Hk%of_stream_command%bool_decide_eq_true].
      apply list_elem_of_In, Hown in Hin. rewrite Hk, E in Hin. by destruct Hin. }
    by rewrite Hnil.
Qed.

Lemma concat_strings_app l k : concat_strings (l ++ k) = (concat_strings l ++ concat_strings k)%string.
Proof. induction l as [|s l IH]; simpl; [done|]. by rewrite IH, string_append_assoc. Qed.

Lemma lookup_update_command id f w id' :
  commands (update_command id f w) !! id' =
  (if decide (id' = id) then f <$> commands w !! id' else commands w !! id').
Proof.
  simpl. destruct (decide (id' = id)) as [->|Hne];
    [apply lookup_alter_eq | by rewrite lookup_alter_ne].
Qed.

Section OperationLemmas.
Context `{UuidLib}.

Lemma validate_bounds_ok chunks bytes new u :
  validate_command_output_bounds chunks bytes new = Ok u ->
  (new <= MAX_COMMAND_OUTPUT_CHUNK_BYTES)%Z /\ (chunks + 1 <= MAX_COMMAND_OUTPUT_CHUNKS)%Z /\
  (bytes + new <= MAX_COMMAND_OUTPUT_BYTES)%Z.
Proof.
  unfold validate_command_output_bounds.
  destruct (Z.ltb_spec MAX_COMMAND_OUTPUT_CHUNK_BYTES new); [done|].
  destruct (Z.leb_spec MAX_COMMAND_OUTPUT_CHUNKS chunks); [done|].
  destruct (try_i64 new) as [b|] eqn:E; [|done]. apply try_i64_some in E as [-> _].
  destruct (Z.ltb_spec MAX_COMMAND_OUTPUT_BYTES (i64_saturating_add bytes new)) as [|Hle]; [done|].
  intros _. unfold i64_saturating_add, i64_max, i64_min, MAX_COMMAND_OUTPUT_BYTES in *. lia.
Qed.

Lemma next_sequence_ok last sequence :
  next_sequence last = Ok sequence -> sequence = (last + 1)%Z /\ (0 <= sequence)%Z.
Proof.
  unfold next_sequence. destruct (try_i64 _) as [n|] eqn:E; [|done].
  apply try_i64_some in E as [-> _]. destruct (Z.ltb_spec (last + 1) 0); [done|].
  intros [= <-]. lia.
Qed.

Lemma lock_command_ok id db c db' :
  lock_command id db = Ok (c, db') -> db' = db /\ commands (world db) !! id = Some c.
Proof.
  unfold lock_command. intros Hl. world_step Hl.
  destruct (commands _ !! id) eqn:E; tx_step Hl. done.
Qed.

Lemma insert_event_ok rt n sb kind data db u db' :
  insert_event_on_connection rt n sb kind data db = Ok (u, db') ->
  is_Some (sandboxes (world db) !! sb) /\
  db' = set_world (set_sandbox_events (sandbox_events (world db) ++
          [(new_uuid rt n, mkSandboxEvent sb kind data (utc_now rt))]) (world db)) db.
Proof.
  unfold insert_event_on_connection. intros Hi. world_step Hi.
  destruct (sandboxes (world _) !! sb) as [s|] eqn:E; simpl in Hi; [|by tx_step Hi].
  world_step Hi. done.
Qed.

Lemma append_chunk_ok rt n id sb s text ann db u db' :
  append_command_output_chunk_on_connection rt n id sb s text ann db = Ok (u, db') ->
  exists c k, commands (world db) !! id = Some c /\
    chunk_command_id k = id /\ chunk_stream k = s /\ chunk_text k = text /\
    chunk_sequence k = (stream_sequence s c + 1)%Z /\
    (output_chunk_count c + 1 <= MAX_COMMAND_OUTPUT_CHUNKS)%Z /\
    (output_byte_count c + byte_len text <= MAX_COMMAND_OUTPUT_BYTES)%Z /\
    command_output_chunks (world db') = command_output_chunks (world db) ++ [k] /\
    commands (world db') = alter (command_count_chunk s (byte_len text)) id (commands (world db)).
Proof.
  unfold append_command_output_chunk_on_connection. intros Ha.
  tx_step Ha. apply lock_command_ok in Hm as [-> Hc].
  tx_step Ha. tx_step Hm. apply validate_bounds_ok in H0 as (_ & Hcount & Hbytes).
  tx_step Ha. tx_step Hm. apply next_sequence_ok in H0 as [-> _].
  world_step Ha. destruct (existsb _ _); simpl in Ha; [by tx_step Ha|].
  world_step Ha. world_step Ha. apply insert_event_ok in Ha as [_ ->]. simpl.
  eexists _, _. split; [exact Hc|]. split_and!; try reflexivity; try done.
Qed.

Lemma replace_stream_ok id s db u db' :
  replace_command_output_stream_on_connection id s db = Ok (u, db') ->
  let l := command_output_chunks (world db) in
  is_Some (commands (world db) !! id) /\
  command_output_chunks (world db') = List.filter (fun k => negb (of_stream id s k)) l /\
  commands (world db') =
    alter (command_drop_stream s (Z.of_nat (length (List.filter (of_stream id s) l)))
             (total_bytes (List.filter (of_stream id s) l))) id (commands (world db)).
Proof.
  unfold replace_command_output_stream_on_connection. intros Hr.
  tx_step Hr. apply lock_command_ok in Hm as [-> Hc].
  world_step Hr. cbv zeta in Hr. world_step Hr. world_step Hr. simpl. eauto.
Qed.

Lemma reset_command_ok id db u db' :
  reset_command_for_retry_on_connection id db = Ok (u, db') ->
  is_Some (commands (world db) !! id) /\
  command_output_chunks (world db') =
    List.filter (fun k => negb (of_command id k)) (command_output_chunks (world db)) /\
  commands (world db') = alter command_reset id (commands (world db)).
Proof.
  unfold reset_command_for_retry_on_connection. intros Hr.
  tx_step Hr. apply lock_command_ok in Hm as [-> Hc].
  world_step Hr. world_step Hr. simpl. eauto.
Qed.

(** *** The invariant across operations *)

Lemma output_ok_alter w id f l :
  (forall c, commands w !! id = Some c -> accounted l id (f c)) ->
  (forall id' c, id' <> id -> commands w !! id' = Some c -> accounted l id' c) ->
  (forall k, k ∈ l -> is_Some (commands w !! chunk_command_id k)) ->
  forall w', command_output_chunks w' = l -> commands w' = alter f id (commands w) -> output_ok w'.
Proof.
  intros Hid Hother Hown w' Hl Hc. split.
  - rewrite Hl, Hc. intros id' c. destruct (decide (id' = id)) as [->|Hne].
    + rewrite lookup_alter_eq, fmap_Some. intros (c0 & Hc0 & ->). auto.
    + rewrite lookup_alter_ne by done. auto.
  - rewrite Hl, Hc. intros k Hk. destruct (decide (chunk_command_id k = id)) as [E|Hne].
    + rewrite E, lookup_alter_eq, fmap_is_Some, <- E. auto.
    + rewrite lookup_alter_ne by done. auto.
Qed.

Lemma append_chunk_preserves rt n id sb s text ann db u db' :
  output_ok (world db) ->
  append_command_output_chunk_on_connection rt n id sb s text ann db = Ok (u, db') ->
  output_ok (world db').
Proof.
  intros [Hacc Hown] Ha.
  apply append_chunk_ok in Ha as (c & k & Hc & Hid & <- & <- & Hseq & Hcount & Hbytes & Hl & Hcs).
  eapply (output_ok_alter (world db)); [..|exact Hl|exact Hcs].
  - intros c' Hc'. simplify_eq. by apply accounted_append; [..|apply Hacc].
  - intros id' c' Hne Hc'. apply accounted_other; [congruence | by apply Hacc].
  - intros k' [Hk|Hk]%elem_of_app; [auto|]. apply list_elem_of_singleton in Hk as ->.
    rewrite Hid. eauto.
Qed.

Lemma replace_stream_preserves id s db u db' :
  output_ok (world db) ->
  replace_command_output_stream_on_connection id s db = Ok (u, db') -> output_ok (world db').
Proof.
  intros [Hacc Hown] Hr. apply replace_stream_ok in Hr as (_ & Hl & Hcs).
  eapply (output_ok_alter (world db)); [..|exact Hl|exact Hcs].
  - intros c Hc. by apply accounted_drop, Hacc.
  - intros id' c Hne Hc. by apply accounted_drop_other; [|apply Hacc].
  - intros k Hk. apply Hown. apply list_elem_of_In, List.filter_In in Hk as [Hk _].
    by apply list_elem_of_In.
Qed.

Lemma reset_command_preserves id db u db' :
  output_ok (world db) ->
  reset_command_for_retry_on_connection id db = Ok (u, db') -> output_ok (world db').
Proof.
  intros [Hacc Hown] Hr. apply reset_command_ok in Hr as (_ & Hl & Hcs).
  eapply (output_ok_alter (world db)); [..|exact Hl|exact Hcs].
  - intros c Hc. apply accounted_reset.
  - intros id' c Hne Hc. by apply accounted_forget_other; [|apply Hacc].
  - intros k Hk. apply Hown. apply list_elem_of_In, List.filter_In in Hk as [Hk _].
    by apply list_elem_of_In.
Qed.

Lemma append_chunk_output rt n id sb s text ann db u db' :
  output_ok (world db) ->
  append_command_output_chunk_on_connection rt n id sb s text ann db = Ok (u, db') ->
  forall id' s', command_output_for_stream (world db') id' s' =
    if decide (id' = id /\ s' = s)
    then (command_output_for_stream (world db) id' s' ++ text)%string
    else command_output_for_stream (world db) id' s'.
Proof.
  intros Hok Ha id' s'. pose proof (append_chunk_preserves _ _ _ _ _ _ _ _ _ _ Hok Ha) as Hok'.
  apply append_chunk_ok in Ha as (c & k & Hc & Hid & Hs & Ht & _ & _ & _ & Hl & _).
  unfold command_output_for_stream. rewrite !stream_chunks_ok, Hl, List.filter_app by done.
  rewrite fmap_app, concat_strings_app. simpl.
  unfold of_stream at 2, of_command. rewrite Hid, Hs. destruct (decide (id' = id /\ s' = s)) as [[-> ->]|Hne].
  - rewrite !bool_decide_eq_true_2 by done. simpl. by rewrite Ht, string_append_nil.
  - assert (E : bool_decide (id = id') && bool_decide (s = s') = false).
    { apply andb_false_iff. rewrite !bool_decide_eq_false. destruct (decide (id = id')); [|by left].
      right. intros ->. by apply Hne. }
    rewrite E. simpl. apply string_append_nil.
Qed.

(** *** When an append is admitted *)

Lemma stream_le_count l id c s :
  accounted l id c -> (0 <= stream_sequence s c <= output_chunk_count c)%Z.
Proof.
  intros (Hs & Hcount & _). destruct (Hs s) as [Hpos Hseq]. split; [done|].
  apply (f_equal length) in Hseq. rewrite length_fmap, length_seqZ in Hseq.
  destruct (filter_split (of_command id) (of_stream id s) l (of_stream_command id s)) as [Hlen _].
  lia.
Qed.

Lemma next_sequence_fresh l id c s :
  accounted l id c -> existsb (at_sequence id s (stream_sequence s c + 1)) l = false.
Proof.
  intros (Hs & _). destruct (Hs s) as [Hpos Hseq]. apply not_true_is_false.
  intros (k & Hin & Hk)%existsb_exists. apply andb_true_iff in Hk as [Hk Hq%bool_decide_eq_true].
  assert (Hk' : In k (List.filter (of_stream id s) l)) by (by apply List.filter_In).
  apply list_elem_of_In, (list_elem_of_fmap_2 chunk_sequence) in Hk'.
  rewrite Hseq in Hk'. apply elem_of_seqZ in Hk'. lia.
Qed.

Lemma validate_bounds_accepts chunks bytes new :
  (0 <= new <= MAX_COMMAND_OUTPUT_CHUNK_BYTES)%Z -> (chunks + 1 <= MAX_COMMAND_OUTPUT_CHUNKS)%Z ->
  (bytes + new <= MAX_COMMAND_OUTPUT_BYTES)%Z ->
  validate_command_output_bounds chunks bytes new = Ok tt.
Proof.
  unfold validate_command_output_bounds, MAX_COMMAND_OUTPUT_CHUNK_BYTES, MAX_COMMAND_OUTPUT_CHUNKS,
    MAX_COMMAND_OUTPUT_BYTES. intros Hn Hc Hb.
  rewrite (proj2 (Z.ltb_ge _ _)), (proj2 (Z.leb_gt _ _)) by lia.
  replace (try_i64 new) with (Some new).
  - rewrite (proj2 (Z.ltb_ge _ _)); [done|]. unfold i64_saturating_add, i64_max, i64_min. lia.
  - unfold try_i64, in_i64, i64_max, i64_min.
    rewrite !(proj2 (Z.leb_le _ _)) by lia. done.
Qed.

Lemma next_sequence_accepts last :
  (0 <= last <= MAX_COMMAND_OUTPUT_CHUNKS)%Z -> next_sequence last = Ok (last + 1)%Z.
Proof.
  unfold MAX_COMMAND_OUTPUT_CHUNKS. intros Hl. unfold next_sequence, try_i64, in_i64, i64_max, i64_min.
  rewrite !(proj2 (Z.leb_le _ _)) by lia. simpl. by rewrite (proj2 (Z.ltb_ge _ _)) by lia.
Qed.

Lemma append_chunk_succeeds rt n id sb s text ann db c :
  output_ok (world db) -> commands (world db) !! id = Some c ->
  is_Some (sandboxes (world db) !! sb) ->
  (byte_len text <= MAX_COMMAND_OUTPUT_CHUNK_BYTES)%Z ->
  (output_chunk_count c + 1 <= MAX_COMMAND_OUTPUT_CHUNKS)%Z ->
  (output_byte_count c + byte_len text <= MAX_COMMAND_OUTPUT_BYTES)%Z ->
  exists db', append_command_output_chunk_on_connection rt n id sb s text ann db = Ok (tt, db').
Proof.
  intros [Hacc _] Hc [sbx Hsb] Hlen Hcount Hbytes. specialize (Hacc _ _ Hc).
  pose proof (stream_le_count _ _ _ s Hacc).
  unfold append_command_output_chunk_on_connection, lock_command, get_world, tx_bind, tx_get, tx_ret.
  rewrite Hc. simpl. rewrite validate_bounds_accepts by (unfold byte_len in *; lia). simpl.
  rewrite next_sequence_accepts by lia. simpl.
  rewrite next_sequence_fresh by done. simpl.
  unfold insert_event_on_connection, get_world, tx_bind, tx_get, tx_ret. simpl. rewrite Hsb.
  simpl. eauto.
Qed.

Lemma strip_prefix_some p s t : strip_prefix p s = Some t -> s = (p ++ t)%string.
Proof.
  revert s. induction p as [|a p IH]; intros s; simpl; [by intros [= ->]|].
  destruct s as [|b s]; [done|]. destruct (Ascii.eqb_spec a b) as [->|]; [|done].
  intros E%IH. subst. done.
Qed.
End OperationLemmas.

(** ** The reported output is the stored output *)

Section Completion.
Context `{UuidLib}.

Lemma replace_stream_output id s db u db' :
  output_ok (world db) ->
  replace_command_output_stream_on_connection id s db = Ok (u, db') ->
  forall id' s', command_output_for_stream (world db') id' s' =
    if decide (id' = id /\ s' = s) then "" else command_output_for_stream (world db) id' s'.
Proof.
  intros Hok Hr id' s'. pose proof (replace_stream_preserves _ _ _ _ _ Hok Hr) as Hok'.
  apply replace_stream_ok in Hr as (_ & Hl & _).
  unfold command_output_for_stream. rewrite !stream_chunks_ok, Hl by done.
  destruct (decide (id' = id /\ s' = s)) as [[-> ->]|Hne].
  - by rewrite filter_filter_absent.
  - rewrite filter_filter_disjoint; [done|]. intros k. apply of_stream_other.
    destruct (decide (id' = id)); [right | by left]. intros ->. by apply Hne.
Qed.

Lemma completion_output_ok rt n id sb s text db u db' :
  output_ok (world db) ->
  append_completion_output_on_connection rt n id sb s text db = Ok (u, db') ->
  output_ok (world db') /\
  forall id' s', command_output_for_stream (world db') id' s' =
    if decide (id' = id /\ s' = s /\ text <> "") then text
    else command_output_for_stream (world db) id' s'.
Proof.
  intros Hok Ha. unfold append_completion_output_on_connection in Ha.
  destruct (String.eqb_spec text "") as [->|Hne].
  { tx_step Ha. split; [done|]. intros id' s'. rewrite decide_False by naive_solver. done. }
  world_step Ha. cbv zeta in Ha.
  destruct (String.eqb_spec (command_output_for_stream (world db) id s) text) as [Hcur|Hcur].
  { tx_step Ha. split; [done|]. intros id' s'. case_decide; naive_solver. }
  destruct (strip_prefix _ _) as [suffix|] eqn:Ep.
  - apply strip_prefix_some in Ep as Ht. destruct (String.eqb_spec suffix "") as [->|].
    { by rewrite string_append_nil in Ht. }
    split; [by eapply append_chunk_preserves|]. intros id' s'.
    rewrite (append_chunk_output _ _ _ _ _ _ _ _ _ _ Hok Ha). repeat case_decide; naive_solver.
  - tx_step Ha. pose proof (replace_stream_preserves _ _ _ _ _ Hok Hm) as Hok1.
    split; [by eapply append_chunk_preserves|]. intros id' s'.
    rewrite (append_chunk_output _ _ _ _ _ _ _ _ _ _ Hok1 Ha).
    rewrite (replace_stream_output _ _ _ _ _ Hok Hm). repeat case_decide; naive_solver.
Qed.

Lemma replace_stream_succeeds id s db c :
  commands (world db) !! id = Some c ->
  exists db', replace_command_output_stream_on_connection id s db = Ok (tt, db') /\
    sandboxes (world db') = sandboxes (world db).
Proof.
  intros Hc. unfold replace_command_output_stream_on_connection, lock_command, get_world, tx_bind,
    tx_get, tx_ret. rewrite Hc. simpl. eauto.
Qed.

(** A completed command's output is exactly what the worker reported.
    When the completion's output for a stream is stored without error, the
    stream reads back as the reported text (an empty report leaves it as
    streamed), every other stream of every command is untouched, and the
    counters still match the chunks; and it is stored whenever it is at most
    2 MiB and leaves the command within 4096 chunks and 4 MiB. *)
Theorem completion_output_is_exact rt n id sb s text db c :
  output_ok (world db) -> commands (world db) !! id = Some c ->
  (forall u db', append_completion_output_on_connection rt n id sb s text db = Ok (u, db') ->
     output_ok (world db') /\
     (text <> "" -> command_output_for_stream (world db') id s = text) /\
     (text = "" -> db' = db) /\
     forall id' s', (id', s') <> (id, s) ->
       command_output_for_stream (world db') id' s' = command_output_for_stream (world db) id' s') /\
  (is_Some (sandboxes (world db) !! sb) ->
   (byte_len text <= MAX_COMMAND_OUTPUT_CHUNK_BYTES)%Z ->
   (output_chunk_count c + 1 <= MAX_COMMAND_OUTPUT_CHUNKS)%Z ->
   (output_byte_count c + byte_len text <= MAX_COMMAND_OUTPUT_BYTES)%Z ->
   exists db', append_completion_output_on_connection rt n id sb s text db = Ok (tt, db')).
Proof.
  intros Hok Hc. split.
  - intros u db' Ha. destruct (completion_output_ok _ _ _ _ _ _ _ _ _ Hok Ha) as [Hok' Hout].
    split; [done|]. split; [|split].
    + intros Hne. rewrite Hout. by rewrite decide_True.
    + intros ->. by unfold append_completion_output_on_connection in Ha; simpl in Ha; tx_step Ha.
    + intros id' s' Hne. rewrite Hout. rewrite decide_False; [done|naive_solver].
  - intros Hsb Hlen Hcount Hbytes. unfold append_completion_output_on_connection.
    destruct (String.eqb text ""); [eexists; reflexivity|].
    unfold get_world, tx_bind at 1 2, tx_get, tx_ret. simpl.
    destruct (String.eqb _ text); [eexists; reflexivity|].
    destruct (strip_prefix _ _) as [suffix|] eqn:Ep.
    + apply strip_prefix_some in Ep. destruct (String.eqb suffix ""); [eexists; reflexivity|].
      assert (byte_len suffix <= byte_len text)%Z.
      { rewrite Ep. unfold byte_len. rewrite string_length_append. lia. }
      eapply append_chunk_succeeds; eauto; lia.
    + destruct (replace_stream_succeeds id s db c Hc) as (db1 & Hr & Hs1).
      unfold tx_bind. rewrite Hr. pose proof (replace_stream_preserves _ _ _ _ _ Hok Hr) as Hok1.
      apply replace_stream_ok in Hr as (_ & _ & Hcs).
      eapply append_chunk_succeeds; [done | by rewrite Hcs, lookup_alter_eq, Hc | by rewrite Hs1 | done |..];
        simpl; pose proof (total_bytes_nonneg (List.filter (of_stream id s)
          (command_output_chunks (world db)))); lia.
Qed.
End Completion.
