(* ===== verification/Scopes.v ===== *)
(** * Credential scopes

    The per-resource checks of [auth.rs]: what a request that has been
    authenticated as a tenant, an operator, a worker or a sandbox's guest may
    touch.  [Authz] decides which routes a principal may call; the functions
    here decide, inside the handlers, whether the worker, lease or sandbox
    named in the request belongs to that principal.  The theorems say that a
    guest credential reaches nothing beyond its own sandbox, and that the two
    processes that run beside each other in a sandbox cannot act on each
    other's leases. *)

From S2P Require Import Prelude Authz CoreTypes Json Store Leases World.

(** ** The request's context: [state.rs] *)

Record TenantContext : Type := mkTenantContext {
  ctx_tenant_id : string;
  ctx_principal : Principal
}.

Definition ctx_worker_id (ctx : TenantContext) : option Uuid :=
  match ctx_principal ctx with
  | PrincipalWorker worker_id | PrincipalGuest worker_id _ => Some worker_id
  | PrincipalTenant | PrincipalOperator => None
  end.

Definition guest_sandbox_id (ctx : TenantContext) : option Uuid :=
  match ctx_principal ctx with
  | PrincipalGuest _ sandbox_id => Some sandbox_id
  | PrincipalTenant | PrincipalOperator | PrincipalWorker _ => None
  end.

(** The resident process names: [sandboxwich-core/src/lib.rs]. *)
Definition ORB_EXECUTOR_RESIDENT_PROCESS_NAME : string := "orb-executor".
Definition MAESTRO_HOSTED_RUNNER_RESIDENT_PROCESS_NAME : string := "maestro-hosted-runner".
Definition ORB_SIDECAR_RESIDENT_PROCESS_NAME : string := "orb-sidecar".

Section Scopes.
Context `{UuidLib}.

(** [where id = text]: the stored identifier is text. *)
Definition find_by_text {A} (text : string) (m : gmap Uuid A) : option (Uuid * A) :=
  find (fun kv => String.eqb (uuid_to_string kv.1) text) (map_to_list m).

Definition ensure_tenant (resource_tenant_id : string) (ctx : TenantContext) : result unit ApiError :=
  if String.eqb resource_tenant_id (ctx_tenant_id ctx) then Ok tt
  else Err (not_found "resource not found").

Definition ensure_worker_scope (ctx : TenantContext) (id : Uuid) : result unit ApiError :=
  match ctx_worker_id ctx with
  | Some bound => if bool_decide (bound = id) then Ok tt else Err (not_found "resource not found")
  | None =>
      Err (unauthorized
        "this route requires a worker-scoped token; tenant-wide tokens are not accepted")
  end.

Definition ensure_worker_tenant {W} (db : Db W) (id : Uuid) (ctx : TenantContext) :
    result Worker ApiError :=
  match workers db !! id with
  | None => Err (not_found "worker not found")
  | Some row =>
      let? _ := ensure_tenant (worker_tenant_id (row_worker row)) ctx in
      Ok (row_worker row)
  end.

Definition ensure_job_tenant (job : Job) (ctx : TenantContext) : result unit ApiError :=
  ensure_tenant (job_tenant_id job) ctx.

Definition ensure_lease_tenant {W} (db : Db W) (id : Uuid) (ctx : TenantContext) :
    result JobLease ApiError :=
  let? lease := fetch_lease db id in
  let? _ := ensure_job_tenant (lease_job lease) ctx in
  Ok lease.

(** [ensure_sandbox_tenant]: a pool member is hidden from tenants. *)
Definition ensure_sandbox_tenant (db : Db World) (id : Uuid) (ctx : TenantContext) :
    result Sandbox ApiError :=
  let? sandbox := fetch_sandbox (world db) id in
  let? _ := ensure_tenant (sb_tenant_id sandbox) ctx in
  if is_some (sterile_pool_memberships (world db) !! id) then Err (not_found "resource not found")
  else Ok sandbox.

Definition is_guest_executable (kind : JobKind) : bool :=
  bool_decide (kind = JobKind.RunCommand) || bool_decide (kind = JobKind.RunResidentProcess).

Definition is_worker_principal (p : Principal) : bool :=
  match p with PrincipalWorker _ => true | _ => false end.
Definition is_guest_principal (p : Principal) : bool :=
  match p with PrincipalGuest _ _ => true | _ => false end.

(** Which credential runs a resident process: the worker the sidecar and
    Maestro, the guest the executor and a Maestro activated in its own sterile
    cell. *)
Definition owns_role (ctx : TenantContext) (row : ResidentRow) : bool :=
  let name := rp_name row in
  let principal := ctx_principal ctx in
  ((String.eqb name ORB_SIDECAR_RESIDENT_PROCESS_NAME && is_worker_principal principal)
   || (String.eqb name MAESTRO_HOSTED_RUNNER_RESIDENT_PROCESS_NAME && is_worker_principal principal)
   || (String.eqb name ORB_EXECUTOR_RESIDENT_PROCESS_NAME && is_guest_principal principal)
   || (String.eqb name MAESTRO_HOSTED_RUNNER_RESIDENT_PROCESS_NAME && is_guest_principal principal
       && uuid_text_is (rp_sterile_cell_id row) (uuid_to_string (rp_sandbox_id row))))
  && match guest_sandbox_id ctx with
     | Some sandbox_id => bool_decide (sandbox_id = rp_sandbox_id row)
     | None => true
     end.

Definition ensure_resident_role {W} (db : Db W) (lease : JobLease) (ctx : TenantContext) :
    result unit ApiError :=
  let job := lease_job lease in
  let hidden := Err (not_found "resource not found") in
  match get_str (job_payload job) "residentProcessId" with
  | None => hidden
  | Some process_id =>
      match find_by_text process_id (resident_processes db) with
      | None => hidden
      | Some (_, row) =>
          if negb (String.eqb (rp_tenant_id row) (job_tenant_id job))
             || negb (job_matches_sandbox job (rp_sandbox_id row))
          then hidden
          else if negb (owns_role ctx row) then hidden else Ok tt
      end
  end.

Definition ensure_lease_worker_scope {W} (db : Db W) (id : Uuid) (ctx : TenantContext) :
    result JobLease ApiError :=
  let? lease := ensure_lease_tenant db id ctx in
  let? _ := ensure_worker_scope ctx (lease_worker_id lease) in
  let job := lease_job lease in
  let outside :=
    match guest_sandbox_id ctx with
    | Some sandbox_id =>
        negb (is_guest_executable (job_kind job)) || negb (job_matches_sandbox job sandbox_id)
    | None => false
    end in
  if outside then Err (not_found "resource not found")
  else if bool_decide (job_kind job = JobKind.RunResidentProcess)
  then let? _ := ensure_resident_role db lease ctx in Ok lease
  else Ok lease.

Definition worker_owns_sandbox {W} (db : Db W) (worker : Uuid) (sandbox_id : Uuid) : bool :=
  match sandbox_placements db !! sandbox_id with
  | Some p => bool_decide (placement_worker_id p = worker)
  | None => false
  end.

(** [ensure_resident_lease_scope]: the caller holds the active lease that
    fences the process. *)
Definition ensure_resident_lease_scope {W} (db : Db W) (now : Z) (process_id : Uuid)
    (process : ResidentRow) (id : Uuid) (ctx : TenantContext) : result JobLease ApiError :=
  if negb (bool_decide (rp_active_lease_id process = Some id))
  then Err (conflict_code "resident_process_generation_conflict"
              "resident request does not match the active lease")
  else
    let? lease := ensure_lease_worker_scope db id ctx in
    let job := lease_job lease in
    if negb (bool_decide (lease_status lease = LeaseStatus.Active))
       || (expires_at lease <=? now)%Z
       || negb (bool_decide (job_kind job = JobKind.RunResidentProcess))
       || negb (bool_decide ((get_str (job_payload job) "residentProcessId" ≫= uuid_parse_str)
                             = Some process_id))
       || negb (job_matches_sandbox job (rp_sandbox_id process))
       || negb (worker_owns_sandbox db (lease_worker_id lease) (rp_sandbox_id process))
    then Err (not_found "active resident-process lease not found")
    else Ok lease.

(** [ensure_sandbox_worker_scope]. *)
Definition ensure_sandbox_worker_scope (db : Db World) (id : Uuid) (ctx : TenantContext) :
    result Sandbox ApiError :=
  let? sandbox := fetch_sandbox (world db) id in
  let? _ := ensure_tenant (sb_tenant_id sandbox) ctx in
  match guest_sandbox_id ctx with
  | Some bound => if bool_decide (bound = id) then Ok sandbox else Err (not_found "resource not found")
  | None =>
      match ctx_worker_id ctx with
      | None =>
          Err (unauthorized
            "this route requires a worker-scoped token; tenant-wide tokens are not accepted")
      | Some worker =>
          if worker_owns_sandbox db worker id then Ok sandbox
          else Err (not_found "resource not found")
      end
  end.
End Scopes.

(** ** What a scope lets through *)

Section ScopeProofs.
Context `{UuidLib}.

Lemma bind_ok {A B E} (r : result A E) (k : A -> result B E) b :
  result_bind r k = Ok b -> exists a, r = Ok a /\ k a = Ok b.
Proof. destruct r; [by eexists | done]. Qed.

Lemma ensure_tenant_spec t ctx u : ensure_tenant t ctx = Ok u <-> t = ctx_tenant_id ctx.
Proof.
  unfold ensure_tenant. destruct u. destruct (String.eqb_spec t (ctx_tenant_id ctx)); naive_solver.
Qed.

Lemma ensure_worker_scope_spec ctx id u :
  ensure_worker_scope ctx id = Ok u <-> ctx_worker_id ctx = Some id.
Proof.
  unfold ensure_worker_scope. destruct u. destruct (ctx_worker_id ctx) as [bound|]; [|naive_solver].
  case_bool_decide; naive_solver.
Qed.

(** The resident process a lease is for, as the tables record it. *)
Definition runs_process {W} (db : Db W) (lease : JobLease) (row : ResidentRow) : Prop :=
  exists text pid, get_str (job_payload (lease_job lease)) "residentProcessId" = Some text /\
    find_by_text text (resident_processes db) = Some (pid, row) /\
    rp_tenant_id row = job_tenant_id (lease_job lease) /\
    job_matches_sandbox (lease_job lease) (rp_sandbox_id row) = true.

Lemma resident_role_spec {W} (db : Db W) lease ctx :
  ensure_resident_role db lease ctx = Ok tt <->
  exists row, runs_process db lease row /\ owns_role ctx row = true.
Proof.
  unfold ensure_resident_role, runs_process. split.
  - destruct (get_str _ _) as [text|] eqn:Et; [|done].
    destruct (find_by_text text _) as [[pid row]|] eqn:Ef; [|done].
    destruct (_ || _) eqn:Eo; [done|]. destruct (owns_role ctx row) eqn:Er; [|done]. intros _.
    apply orb_false_iff in Eo as [E1 E2]. rewrite negb_false_iff in E1, E2.
    apply String.eqb_eq in E1. exists row. split; [|done]. by exists text, pid.
  - intros (row & (text & pid & -> & -> & Ht & Hm) & ->). by rewrite Ht, String.eqb_refl, Hm.
Qed.

Lemma lease_scope_spec {W} (db : Db W) id ctx lease :
  ensure_lease_worker_scope db id ctx = Ok lease <->
  fetch_lease db id = Ok lease /\ job_tenant_id (lease_job lease) = ctx_tenant_id ctx /\
  ctx_worker_id ctx = Some (lease_worker_id lease) /\
  (forall sb, guest_sandbox_id ctx = Some sb ->
     is_guest_executable (job_kind (lease_job lease)) = true /\
     job_matches_sandbox (lease_job lease) sb = true) /\
  (job_kind (lease_job lease) = JobKind.RunResidentProcess ->
     exists row, runs_process db lease row /\ owns_role ctx row = true).
Proof.
  unfold ensure_lease_worker_scope, ensure_lease_tenant, ensure_job_tenant.
  destruct (fetch_lease db id) as [lease0|]; [|naive_solver]. cbn [result_bind].
  destruct (ensure_tenant _ _) as [[]|] eqn:Et; cbn [result_bind].
  2:{ split; [done|]. intros ([= <-] & Ht & _). apply (ensure_tenant_spec _ _ tt) in Ht. congruence. }
  apply ensure_tenant_spec in Et.
  destruct (ensure_worker_scope _ _) as [[]|] eqn:Ew; cbn [result_bind].
  2:{ split; [done|]. intros ([= <-] & _ & Hw & _). apply (ensure_worker_scope_spec _ _ tt) in Hw.
      congruence. }
  apply ensure_worker_scope_spec in Ew.
  assert (Hg : (match guest_sandbox_id ctx with
    | Some sandbox_id => negb (is_guest_executable (job_kind (lease_job lease0)))
                         || negb (job_matches_sandbox (lease_job lease0) sandbox_id)
    | None => false end = false) <-> (forall sb, guest_sandbox_id ctx = Some sb ->
      is_guest_executable (job_kind (lease_job lease0)) = true /\
      job_matches_sandbox (lease_job lease0) sb = true)).
  { destruct (guest_sandbox_id ctx) as [sb|]; [|naive_solver].
    rewrite orb_false_iff, !negb_false_iff. naive_solver. }
  destruct (match guest_sandbox_id ctx with Some _ => _ | None => _ end) eqn:Eg.
  { split; [done|]. intros ([= <-] & _ & _ & Hs & _). by discriminate (proj2 Hg Hs). }
  case_bool_decide as Ek.
  - split.
    + intros (u & Hrole & [= <-])%bind_ok. destruct u. apply resident_role_spec in Hrole.
      split; [done|]. split; [done|]. split; [done|]. split; [exact (proj1 Hg eq_refl) | done].
    + intros ([= <-] & _ & _ & _ & Hrole). apply Hrole, resident_role_spec in Ek. by rewrite Ek.
  - split; [|by intros ([= <-] & _)]. intros [= <-].
    split; [done|]. split; [done|]. split; [done|]. split; [exact (proj1 Hg eq_refl) | done].
Qed.

(** C34. Scopes confine credentials.  A guest credential is let through only to
    guest-executable leases of its own worker, tenant and sandbox, to resident
    processes of its own sandbox that are its own to run (the executor, or a
    Maestro activated in this very sandbox's sterile cell), and to its own
    sandbox's row.  A resident lease that both a worker and a guest may act on
    is such a Maestro's: neither can touch the other's sidecar or executor. *)
Theorem scopes_confine_credentials (db : Db World) tenant worker sb :
  let guest := mkTenantContext tenant (PrincipalGuest worker sb) in
  (forall id lease, ensure_lease_worker_scope db id guest = Ok lease ->
     lease_worker_id lease = worker /\ job_tenant_id (lease_job lease) = tenant /\
     is_guest_executable (job_kind (lease_job lease)) = true /\
     job_matches_sandbox (lease_job lease) sb = true /\
     (job_kind (lease_job lease) = JobKind.RunResidentProcess -> exists row,
        runs_process db lease row /\ rp_sandbox_id row = sb /\
        (rp_name row = ORB_EXECUTOR_RESIDENT_PROCESS_NAME \/
         (rp_name row = MAESTRO_HOSTED_RUNNER_RESIDENT_PROCESS_NAME /\
          uuid_text_is (rp_sterile_cell_id row) (uuid_to_string sb) = true)))) /\
  (forall id s, ensure_sandbox_worker_scope db id guest = Ok s -> id = sb) /\
  (forall id lease lease' w, ensure_lease_worker_scope db id guest = Ok lease ->
     ensure_lease_worker_scope db id (mkTenantContext tenant (PrincipalWorker w)) = Ok lease' ->
     job_kind (lease_job lease) = JobKind.RunResidentProcess -> exists row,
       runs_process db lease row /\ rp_name row = MAESTRO_HOSTED_RUNNER_RESIDENT_PROCESS_NAME /\
       uuid_text_is (rp_sterile_cell_id row) (uuid_to_string sb) = true).
Proof.
  intros guest.
  assert (Hrole : forall row, owns_role guest row = true -> rp_sandbox_id row = sb /\
    (rp_name row = ORB_EXECUTOR_RESIDENT_PROCESS_NAME \/
     (rp_name row = MAESTRO_HOSTED_RUNNER_RESIDENT_PROCESS_NAME /\
      uuid_text_is (rp_sterile_cell_id row) (uuid_to_string sb) = true))).
  { intros row. unfold owns_role. cbn [ctx_principal guest guest_sandbox_id is_worker_principal
      is_guest_principal]. rewrite !andb_false_r, !andb_true_r. cbn [orb].
    intros [Ho Hsb%bool_decide_eq_true]%andb_true_iff. split; [done|]. rewrite Hsb.
    apply orb_true_iff in Ho as [Ho|Ho]; [left; by apply String.eqb_eq | right].
    apply andb_true_iff in Ho as [Hn Hc]. by apply String.eqb_eq in Hn. }
  split_and!.
  - intros id lease (_ & Ht & [= Hw] & Hg & Hr)%lease_scope_spec.
    destruct (Hg sb eq_refl) as [Hk Hm]. split_and!; auto.
    intros Hk'. destruct (Hr Hk') as (row & Hrun & Ho). exists row. split; [done|]. by apply Hrole.
  - intros id s. unfold ensure_sandbox_worker_scope. intros (s0 & _ & Hs)%bind_ok.
    apply bind_ok in Hs as (u & _ & Hs). cbn [guest_sandbox_id ctx_principal guest] in Hs.
    case_bool_decide; congruence.
  - intros id lease lease' w (Hf & _ & _ & _ & Hr)%lease_scope_spec (Hf' & _ & _ & _ & Hr')%lease_scope_spec Hk.
    assert (lease' = lease) as -> by congruence.
    destruct (Hr Hk) as (row & Hrun & [Hsb Hn]%Hrole). destruct (Hr' Hk) as (row' & Hrun' & Ho').
    assert (row' = row) as -> by (destruct Hrun as (? & ? & ? & ? & _), Hrun' as (? & ? & ? & ? & _); congruence).
    exists row. split; [done|]. destruct Hn as [Hn|?]; [|done]. exfalso. unfold owns_role in Ho'.
    rewrite Hn in Ho'. by cbv in Ho'.
Qed.
End ScopeProofs.
