(* ===== verification/AgentSupervisor.v ===== *)
(** * The guest agent's supervisor of resident processes

    [sandboxwich-agent/src/resident_process_supervisor.rs]: a daemon runs its
    resident processes as tasks of a [JoinSet] and keeps, for each task, which
    lease, job and process it serves.  The set of tasks is a map from task
    identifiers to tasks, running or ended; steps of the runtime (a task ends)
    interleave with the calls of the daemon. *)

From S2P Require Import Prelude CoreTypes Json Store Leases Scopes.

Open Scope nat_scope.

(** ** What a task serves *)

Record ResidentProcessTaskMetadata : Type := mkTaskMetadata {
  tm_lease_id : Uuid;
  tm_job_id : Uuid;
  tm_process_id : Uuid;
  tm_name : string;
  tm_generation : Z
}.

Inductive MetadataError : Type :=
| ProcessIdMissing
| ProcessIdInvalid
| GenerationMissing.

Section Metadata.
Context `{UuidLib}.

Definition from_lease (lease : JobLease) : result ResidentProcessTaskMetadata MetadataError :=
  let payload := job_payload (lease_job lease) in
  match get payload "residentProcessId" with
  | None => Err ProcessIdMissing
  | Some value =>
      match as_str value ≫= uuid_parse_str with
      | None => Err ProcessIdInvalid
      | Some process_id =>
          match get_u64 payload "generation" with
          | None => Err GenerationMissing
          | Some generation =>
              Ok (mkTaskMetadata (lease_id lease) (lease_job_id lease) process_id
                    (default ORB_EXECUTOR_RESIDENT_PROCESS_NAME (get_str payload "name")) generation)
          end
      end
  end.
End Metadata.

(** ** The supervisor *)

(** How a task ended: the value of its future, a panic, or its abortion. *)
Inductive TaskEnd : Type :=
| Returned (outcome : result unit string)
| Panicked (message : string)
| Aborted.

(** [JoinSet]: a task runs until it has an end. *)
Abbreviation JoinSet := (gmap nat (option TaskEnd)).

Inductive ResidentProcessTaskCompletion : Type :=
| CompletionFinished (metadata : ResidentProcessTaskMetadata) (outcome : result unit string)
| CompletionPanicked (metadata : ResidentProcessTaskMetadata) (message : string)
| CompletionCancelled (metadata : ResidentProcessTaskMetadata).

Definition completion_metadata (c : ResidentProcessTaskCompletion) : ResidentProcessTaskMetadata :=
  match c with
  | CompletionFinished m _ | CompletionPanicked m _ | CompletionCancelled m => m
  end.

Definition into_failure (c : ResidentProcessTaskCompletion) : option (ResidentProcessTaskMetadata * string * bool) :=
  match c with
  | CompletionFinished _ (Ok _) => None
  | CompletionFinished m (Err error) => Some (m, error, false)
  | CompletionPanicked m error => Some (m, ("resident-process task panicked: " ++ error)%string, false)
  | CompletionCancelled m => Some (m, "resident-process task was cancelled during daemon shutdown", true)
  end.

Record ResidentProcessSupervisor : Type := mkSupervisor {
  sv_tasks : JoinSet;
  sv_metadata : gmap nat ResidentProcessTaskMetadata;
  sv_max_active : nat
}.

Definition supervisor_new (max_active : nat) : ResidentProcessSupervisor := mkSupervisor ∅ ∅ (Nat.max max_active 1).

Definition active_len (s : ResidentProcessSupervisor) : nat := size (sv_metadata s).

Definition is_full (s : ResidentProcessSupervisor) : bool := sv_max_active s <=? active_len s.

(** The runtime names the task with an identifier no live task has. *)
Definition spawn (task_id : nat) (metadata : ResidentProcessTaskMetadata) (s : ResidentProcessSupervisor) :
    result ResidentProcessSupervisor string :=
  if is_full s then Err "resident-process supervisor is at its task limit"
  else Ok (mkSupervisor (<[task_id := None]> (sv_tasks s)) (<[task_id := metadata]> (sv_metadata s)) (sv_max_active s)).

(** [remove_metadata]: [None] is its panic. *)
Definition remove_metadata (task_id : nat) (s : ResidentProcessSupervisor) :
    option (ResidentProcessTaskMetadata * ResidentProcessSupervisor) :=
  metadata ← sv_metadata s !! task_id;
  Some (metadata, mkSupervisor (sv_tasks s) (delete task_id (sv_metadata s)) (sv_max_active s)).

Definition completion (task_id : nat) (ended : TaskEnd) (s : ResidentProcessSupervisor) :
    option (ResidentProcessTaskCompletion * ResidentProcessSupervisor) :=
  '(metadata, s) ← remove_metadata task_id s;
  Some (match ended with
        | Returned outcome => CompletionFinished metadata outcome
        | Aborted => CompletionCancelled metadata
        | Panicked message => CompletionPanicked metadata message
        end, s).

(** The ended tasks, in some order: the one [JoinSet] hands out is any of
    them. *)
Definition ended_tasks (s : ResidentProcessSupervisor) : list (nat * TaskEnd) :=
  omap (fun kt => (fun e => (kt.1, e)) <$> kt.2) (map_to_list (sv_tasks s)).

(** Joining a task that ended takes it out of the set. *)
Definition join (task_id : nat) (s : ResidentProcessSupervisor) :
    option (TaskEnd * ResidentProcessSupervisor) :=
  match sv_tasks s !! task_id with
  | Some (Some ended) => Some (ended, mkSupervisor (delete task_id (sv_tasks s)) (sv_metadata s) (sv_max_active s))
  | _ => None
  end.

Inductive Reaped : Type :=
| NothingEnded
| ReapPanicked
| ReapedOne (c : ResidentProcessTaskCompletion) (s : ResidentProcessSupervisor).

(** [try_reap]; [pick] is the runtime's choice among the ended tasks. *)
Definition try_reap (pick : list (nat * TaskEnd) -> option nat) (s : ResidentProcessSupervisor) : Reaped :=
  match pick (ended_tasks s) ≫= (fun id => (fun r => (id, r)) <$> join id s) with
  | None => NothingEnded
  | Some (id, (ended, s)) =>
      match completion id ended s with
      | Some (c, s) => ReapedOne c s
      | None => ReapPanicked
      end
  end.

(** [abort_all]: a running task ends as aborted; one that ended first keeps
    its end. *)
Definition abort_all (s : ResidentProcessSupervisor) : ResidentProcessSupervisor :=
  mkSupervisor ((fun t => Some (default Aborted t)) <$> sv_tasks s) (sv_metadata s) (sv_max_active s).

(** Joining every task of a list, in its order. *)
Fixpoint drain (ids : list nat) (s : ResidentProcessSupervisor) :
    option (list ResidentProcessTaskCompletion * ResidentProcessSupervisor) :=
  match ids with
  | [] => Some ([], s)
  | id :: ids =>
      '(ended, s) ← join id s;
      '(c, s) ← completion id ended s;
      '(cs, s) ← drain ids s;
      Some (c :: cs, s)
  end.

(** [shutdown]: [order] is the order in which the aborted tasks end. *)
Definition shutdown (order : list nat -> list nat) (s : ResidentProcessSupervisor) :
    option (list ResidentProcessTaskCompletion * ResidentProcessSupervisor) :=
  let s := abort_all s in
  drain (order (map_to_list (sv_tasks s)).*1) s.

(** ** The supervisor as it runs *)

Inductive supervisor_step : ResidentProcessSupervisor -> ResidentProcessSupervisor -> Prop :=
| step_spawn id m s s' : sv_tasks s !! id = None -> spawn id m s = Ok s' -> supervisor_step s s'
| step_task_ends id e s : sv_tasks s !! id = Some None ->
    supervisor_step s (mkSupervisor (<[id := Some e]> (sv_tasks s)) (sv_metadata s) (sv_max_active s))
| step_reap pick c s s' : try_reap pick s = ReapedOne c s' -> supervisor_step s s'.

Definition supervisor_inv (s : ResidentProcessSupervisor) : Prop :=
  dom (sv_tasks s) = dom (sv_metadata s) /\ size (sv_metadata s) <= sv_max_active s /\ 1 <= sv_max_active s.

Lemma new_inv n : supervisor_inv (supervisor_new n).
Proof. unfold supervisor_inv, supervisor_new; simpl. rewrite !dom_empty_L, map_size_empty. split_and!; [done|lia..]. Qed.

Lemma metadata_of_task s id t : supervisor_inv s -> sv_tasks s !! id = Some t ->
  exists m, sv_metadata s !! id = Some m.
Proof.
  intros [Hd _] Ht. apply elem_of_dom_2 in Ht. rewrite Hd in Ht. by apply elem_of_dom in Ht as [m Hm]; eauto.
Qed.

(** A task that is joined still has its metadata. *)
Lemma join_completes s id e s1 : supervisor_inv s -> join id s = Some (e, s1) ->
  exists m c, sv_metadata s !! id = Some m /\ completion_metadata c = m /\
    completion id e s1
    = Some (c, mkSupervisor (delete id (sv_tasks s)) (delete id (sv_metadata s)) (sv_max_active s)) /\
    supervisor_inv (mkSupervisor (delete id (sv_tasks s)) (delete id (sv_metadata s)) (sv_max_active s)).
Proof.
  intros Hi Hj. unfold join in Hj. destruct (sv_tasks s !! id) as [[e'|]|] eqn:Et; try done. injection Hj as -> <-.
  destruct (metadata_of_task s id _ Hi Et) as [m Hm]. exists m.
  exists (match e with
          | Returned outcome => CompletionFinished m outcome
          | Aborted => CompletionCancelled m
          | Panicked message => CompletionPanicked m message
          end).
  split_and!; [done|by destruct e|unfold completion, remove_metadata; simpl; by rewrite Hm|].
  destruct Hi as (Hd & Hs & Hm1). split_and!; simpl; [by rewrite !dom_delete_L, Hd| |done].
  pose proof (map_size_delete_Some id (sv_metadata s) ltac:(eauto)) as E. lia.
Qed.

Lemma reap_inv pick s : supervisor_inv s ->
  match try_reap pick s with
  | NothingEnded => True
  | ReapPanicked => False
  | ReapedOne c s' => supervisor_inv s' /\ exists id, sv_metadata s !! id = Some (completion_metadata c) /\
      sv_metadata s' = delete id (sv_metadata s) /\ sv_tasks s' = delete id (sv_tasks s)
  end.
Proof.
  intros Hi. unfold try_reap. destruct (pick (ended_tasks s)) as [id|]; simpl; [|done].
  destruct (join id s) as [[e s1]|] eqn:Ej; simpl; [|done].
  destruct (join_completes s id e s1 Hi Ej) as (m & c & Hm & Hc & -> & Hi').
  split; [done|]. exists id. by rewrite Hc.
Qed.

Lemma supervisor_step_inv s s' : supervisor_inv s -> supervisor_step s s' -> supervisor_inv s'.
Proof.
  intros Hi Hs. destruct Hs as [id m s s' Hn Hs|id e s Hr|pick c s s' Hr].
  - unfold spawn in Hs. destruct (is_full s) eqn:Ef; [done|]. injection Hs as <-.
    destruct Hi as (Hd & Hs & Hm). unfold is_full, active_len in Ef. apply Nat.leb_gt in Ef.
    split_and!; simpl; [by rewrite !dom_insert_L, Hd| |done].
    rewrite map_size_insert_None; [lia|]. apply not_elem_of_dom. rewrite <- Hd. by apply not_elem_of_dom.
  - destruct Hi as (Hd & Hs & Hm). split_and!; simpl; try done.
    rewrite <- Hd. apply dom_insert_lookup_L. eauto.
  - pose proof (reap_inv pick s Hi) as H. rewrite Hr in H. by destruct H.
Qed.

Lemma drain_all ids : forall s, supervisor_inv s -> NoDup ids ->
  (forall id, id ∈ ids <-> exists e, sv_tasks s !! id = Some (Some e)) ->
  (forall id t, sv_tasks s !! id = Some t -> is_Some t) ->
  exists cs, drain ids s = Some (cs, mkSupervisor ∅ ∅ (sv_max_active s)) /\
    completion_metadata <$> cs ≡ₚ (map_to_list (sv_metadata s)).*2.
Proof.
  induction ids as [|id ids IH]; intros s Hi Hd Hids Hall.
  - assert (Ht : sv_tasks s = ∅).
    { apply map_empty. intros id. destruct (sv_tasks s !! id) as [t|] eqn:E; [|done].
      destruct (Hall _ _ E) as [e ->]. exfalso. by apply (not_elem_of_nil id), Hids; eauto. }
    destruct Hi as (Hdom & _ & _). rewrite Ht, dom_empty_L in Hdom. symmetry in Hdom. apply dom_empty_iff_L in Hdom.
    exists []. simpl. rewrite Hdom, map_to_list_empty. destruct s as [t m x]; simpl in *. by subst.
  - apply NoDup_cons in Hd as [Hn Hd].
    destruct (proj1 (Hids id)) as [e He]; [by left|].
    assert (Ej : join id s = Some (e, mkSupervisor (delete id (sv_tasks s)) (sv_metadata s) (sv_max_active s)))
      by (unfold join; by rewrite He).
    destruct (join_completes s id e _ Hi Ej) as (m & c & Hm & Hc & Ec & Hi').
    cbn [drain]. rewrite Ej. cbn [mbind option_bind]. rewrite Ec. cbn [mbind option_bind].
    destruct (IH _ Hi' Hd) as (cs & Ecs & Hp).
    + intros id'. simpl. split.
      * intros Hin. rewrite lookup_delete_ne by (intros ->; done). apply Hids. by right.
      * intros [e' He']. apply lookup_delete_Some in He' as [Hne He'].
        assert (Hin : id' ∈ id :: ids) by (apply Hids; eauto). set_solver.
    + intros id' t. simpl. intros Ht. apply lookup_delete_Some in Ht as [_ Ht]. eauto.
    + simpl in Ecs. rewrite Ecs. exists (c :: cs). split; [done|]. simpl in *. rewrite Hp, Hc.
      symmetry. pose proof (map_to_list_delete (sv_metadata s) id m Hm) as Hl.
      by rewrite <- (fmap_Permutation snd _ _ Hl).
Qed.

Lemma supervised_inv max s : rtc supervisor_step (supervisor_new max) s ->
  supervisor_inv s /\ sv_max_active s = Nat.max max 1.
Proof.
  intros Hr. remember (supervisor_new max) as s0 eqn:E0.
  assert (H0 : supervisor_inv s0 /\ sv_max_active s0 = Nat.max max 1) by (subst; split; [apply new_inv|done]).
  clear E0. induction Hr as [s|s s1 s2 Hs _ IH]; [done|]. apply IH. destruct H0 as [Hi Hm].
  split; [by eapply supervisor_step_inv|].
  destruct Hs as [id m s s' _ Hs|id e s _|pick c s s' Hr'].
  - unfold spawn in Hs. destruct (is_full s); [done|]. by injection Hs as <-.
  - done.
  - unfold try_reap, completion, remove_metadata, join in Hr'. simpl in Hr'.
    destruct (pick (ended_tasks s)) as [id|]; simpl in Hr'; [|done].
    destruct (sv_tasks s !! id) as [[e|]|]; simpl in Hr'; try done.
    destruct (sv_metadata s !! id); simpl in Hr'; [|done]. by injection Hr' as _ <-.
Qed.

Lemma shutdown_inv order s : supervisor_inv s -> (forall l, order l ≡ₚ l) ->
  exists cs, shutdown order s = Some (cs, mkSupervisor ∅ ∅ (sv_max_active s)) /\
    completion_metadata <$> cs ≡ₚ (map_to_list (sv_metadata s)).*2.
Proof.
  intros Hi Ho. unfold shutdown. set (s1 := abort_all s).
  assert (Hi1 : supervisor_inv s1).
  { destruct Hi as (Hd & Hs & Hm). split_and!; simpl; [by rewrite dom_fmap_L|done..]. }
  assert (Hall : forall id t, sv_tasks s1 !! id = Some t -> is_Some t).
  { intros id t Ht. simpl in Ht. apply lookup_fmap_Some in Ht as (t0 & <- & _). eauto. }
  destruct (drain_all (order (map_to_list (sv_tasks s1)).*1) s1 Hi1) as (cs & E & Hp).
  - rewrite Ho. apply NoDup_fst_map_to_list.
  - intros id. rewrite Ho. split.
    + intros Hin. apply list_elem_of_fmap in Hin as ([id' t] & -> & Hin). apply elem_of_map_to_list in Hin.
      destruct (Hall _ _ Hin) as [e ->]. simpl. eauto.
    + intros [e He]. apply list_elem_of_fmap. exists (id, Some e). split; [done|]. by apply elem_of_map_to_list.
  - exact Hall.
  - exists cs. done.
Qed.

(** C29. Every resident task is accounted for.  However tasks are spawned, end
    and are reaped, a daemon never runs more than its limit; reaping never
    panics, and a completion carries the lease, job and process its task was
    spawned for; and a shutdown, in whatever order the tasks end, reports each
    task that is left exactly once and leaves none. *)
Theorem resident_tasks_are_accounted max s :
  rtc supervisor_step (supervisor_new max) s ->
  active_len s <= Nat.max max 1 /\ size (sv_tasks s) = active_len s /\
  (forall pick, match try_reap pick s with
                | NothingEnded => True
                | ReapPanicked => False
                | ReapedOne c s' => exists id, sv_metadata s !! id = Some (completion_metadata c) /\
                    sv_metadata s' = delete id (sv_metadata s) /\ sv_tasks s' = delete id (sv_tasks s)
                end) /\
  (forall order, (forall l, order l ≡ₚ l) ->
     exists cs, shutdown order s = Some (cs, mkSupervisor ∅ ∅ (sv_max_active s)) /\
       completion_metadata <$> cs ≡ₚ (map_to_list (sv_metadata s)).*2).
Proof.
  intros Hr. destruct (supervised_inv max s Hr) as [Hi Hm]. split_and!.
  - destruct Hi as (_ & Hs & _). unfold active_len. lia.
  - destruct Hi as (Hd & _ & _). unfold active_len. by rewrite <- !size_dom, Hd.
  - intros pick. pose proof (reap_inv pick s Hi) as H. destruct (try_reap pick s); [done|done|]. by destruct H.
  - intros order Ho. by apply shutdown_inv.
Qed.

(** ** A daemon with two tasks *)

Definition task_metadata (n : N) : ResidentProcessTaskMetadata := mkTaskMetadata n (n + 100)%N (n + 200)%N "orb-executor" 1.

Definition two_tasks : ResidentProcessSupervisor :=
  mkSupervisor {[7%nat := Some (Panicked "boom"); 3%nat := None]}
    {[7%nat := task_metadata 2; 3%nat := task_metadata 1]} 2.

Lemma two_tasks_reachable : rtc supervisor_step (supervisor_new 2) two_tasks.
Proof.
  eapply rtc_l; [apply (step_spawn 3 (task_metadata 1)); vm_compute; reflexivity|].
  eapply rtc_l; [apply (step_spawn 7 (task_metadata 2)); vm_compute; reflexivity|].
  eapply rtc_l; [apply (step_task_ends 7 (Panicked "boom")); vm_compute; reflexivity|].
  replace two_tasks with (mkSupervisor (<[7%nat := Some (Panicked "boom")]> (<[7%nat := None]> (<[3%nat := None]> ∅)))
    (<[7%nat := task_metadata 2]> (<[3%nat := task_metadata 1]> ∅)) 2) by (vm_compute; reflexivity).
  apply rtc_refl.
Qed.

Example the_panic_is_reaped :
  match try_reap (fun l => fst <$> head l) two_tasks with
  | ReapedOne c s => into_failure c = Some (task_metadata 2, "resident-process task panicked: boom", false)
                     /\ active_len s = 1
  | _ => False
  end.
Proof. vm_compute. done. Qed.

Lemma resident_tasks_are_accounted_witness :
  exists cs, shutdown (fun l => l) two_tasks = Some (cs, mkSupervisor ∅ ∅ 2) /\
    completion_metadata <$> cs ≡ₚ (map_to_list (sv_metadata two_tasks)).*2.
Proof.
  destruct (resident_tasks_are_accounted 2 two_tasks two_tasks_reachable) as (_ & _ & _ & H).
  exact (H (fun l => l) (fun l => Permutation_refl l)).
Defined.
