(* ===== verification/Placement.v ===== *)
(** * Authoritative placement

    The part of [handlers/jobs.rs] that aligns the placement fields of a job
    (the runtime image, the provision spec and the execution class) with the
    live sandbox before the job is created or claimed.  Tenants write job
    payloads; providers act on the provision spec in them.  The theorem says
    that whatever a payload claimed, the spec a job leaves with is the one the
    control plane's own tables determine.

    [load_sandbox_placement_inputs] reads through a cache shared by the
    candidates of one claim; the cache is part of the state here. *)

From S2P Require Import Prelude CoreTypes Json Store Leases Queue World.
From stdpp Require Import sorting.

Record PlacementCacheEntry : Type := mkPlacementCacheEntry {
  pe_sandbox : Sandbox;
  pe_secret_mounts : list SandboxSecretMount;
  pe_expected_provision_spec : Json;
  pe_provider_preference : option ProviderPreference;
  pe_provider_external_id : option string;
  pe_provider_routing_scope : option string;
  pe_sterile_pool_candidate : option SterilePoolCandidateV1
}.

Definition PlacementEnrichmentCache : Type := gmap Uuid PlacementCacheEntry.

Definition internal_serde : ApiError := internal "serialization failed".

Section Placement.
Context `{UuidLib} `{SerdeLib}.

(** ** Reading the control plane's tables *)

(** [select .. from runtime_resources where sandbox_id = .. and snapshot_id is
    null and provider = 'cloudflare' order by updated_at desc limit 1]. *)
Definition newer_first (a b : RuntimeResource) : Prop := (rr_updated_at b <= rr_updated_at a)%Z.

#[local] Instance newer_first_dec : RelDecision newer_first.
Proof. intros a b. unfold newer_first. apply _. Defined.

Definition cloudflare_identity (w : World) (sandbox_id : Uuid) : option RuntimeResource :=
  head (merge_sort newer_first
    (List.filter (fun r => bool_decide (rr_sandbox_id r = sandbox_id)
                           && is_none (rr_snapshot_id r)
                           && String.eqb (rr_provider r) "cloudflare")
       (map_to_list (runtime_resources w)).*2)).

Definition persisted_provider (provider : string) : result ProviderPreference ApiError :=
  let lower := to_ascii_lowercase provider in
  if String.eqb lower "agent_sandbox" then Ok ProviderPreference.AgentSandbox
  else if String.eqb lower "cloudflare" then Ok ProviderPreference.Cloudflare
  else if String.eqb lower "kubernetes" then Ok ProviderPreference.Kubernetes
  else Err (internal ("unsupported persisted sandbox placement provider: " ++ lower)).

Definition sterile_pool_candidate_of (sandbox_id : Uuid) (m : MembershipRow) :
    SterilePoolCandidateV1 :=
  mkSterilePoolCandidate sandbox_id (mb_release m) (mb_candidate_agent_image m)
    (mb_candidate_maestro_image m) (mb_candidate_service_name m) None None.

(** The spec the control plane writes for a sandbox. *)
Definition placement_spec (s : Sandbox) (mounts : list SandboxSecretMount)
    (preference : ProviderPreference) (external_id routing_scope : option string)
    (candidate : option SterilePoolCandidateV1) : SandboxProvisionSpec :=
  mkSandboxProvisionSpec (sb_memory_limit s) (sb_network_egress s) (sb_workspace_mode s)
    (sb_runtime_profile s) (sb_execution_class s) preference (Some (sb_tenant_id s)) external_id
    routing_scope mounts candidate.

Definition placement_inputs (db : Db World) (sandbox_id : Uuid) :
    result PlacementCacheEntry ApiError :=
  let w := world db in
  let? sandbox := fetch_sandbox w sandbox_id in
  let mounts := fetch_sandbox_secret_mounts w (sb_id sandbox) in
  let identity := cloudflare_identity w sandbox_id in
  let external_id := rr_resource_name <$> identity in
  let routing_scope := rr_namespace <$> identity in
  let? preference :=
    match sandbox_placements db !! sandbox_id with
    | Some p => let? q := persisted_provider (placement_provider p) in Ok (Some q)
    | None => Ok None
    end in
  let candidate := sterile_pool_candidate_of sandbox_id <$> sterile_pool_memberships w !! sandbox_id in
  Ok (mkPlacementCacheEntry sandbox mounts
        (provision_spec_to_value
           (placement_spec sandbox mounts (default ProviderPreference.Any preference) external_id
              routing_scope candidate))
        preference external_id routing_scope candidate).

(** The cache keeps what was read, also when the job then turns out to be
    unusable. *)
Definition load_sandbox_placement_inputs (db : Db World) (sandbox_id : Uuid)
    (cache : PlacementEnrichmentCache) :
    result PlacementCacheEntry ApiError * PlacementEnrichmentCache :=
  match cache !! sandbox_id with
  | Some entry => (Ok entry, cache)
  | None =>
      match placement_inputs db sandbox_id with
      | Ok entry => (Ok entry, <[sandbox_id := entry]> cache)
      | Err e => (Err e, cache)
      end
  end.

(** ** Comparing and repairing a job *)

Definition set_spec_preference (p : ProviderPreference) (s : SandboxProvisionSpec) :
    SandboxProvisionSpec :=
  mkSandboxProvisionSpec (memory_limit s) (network_egress s) (workspace_mode s) (runtime_profile s)
    (execution_class s) p (spec_tenant_id s) (provider_external_id s) (provider_routing_scope s)
    (secret_mounts s) (sterile_pool_candidate s).

Definition set_spec_candidate (c : option SterilePoolCandidateV1) (s : SandboxProvisionSpec) :
    SandboxProvisionSpec :=
  mkSandboxProvisionSpec (memory_limit s) (network_egress s) (workspace_mode s) (runtime_profile s)
    (execution_class s) (provider_preference s) (spec_tenant_id s) (provider_external_id s)
    (provider_routing_scope s) (secret_mounts s) c.

Definition job_spec (job : Job) : option SandboxProvisionSpec :=
  get (job_payload job) "provisionSpec" ≫= provision_spec_from_value.

Definition placement_matches_sandbox (job : Job) (entry : PlacementCacheEntry) : bool :=
  if negb (bool_decide (required_execution_class job = sb_execution_class (pe_sandbox entry)))
  then false
  else
    match get_str (job_payload job) "runtimeImage" with
    | None => false
    | Some image =>
        if negb (String.eqb image (sb_template (pe_sandbox entry))) then false
        else
          match job_spec job with
          | None => false
          | Some actual =>
              match provision_spec_from_value (pe_expected_provision_spec entry) with
              | None => false
              | Some expected =>
                  let expected :=
                    if is_none (pe_provider_preference entry)
                    then set_spec_preference (provider_preference actual) expected
                    else expected in
                  bool_decide (provision_spec_to_value expected = provision_spec_to_value actual)
              end
          end
    end.

(** [add_provision_spec_to_payload_with_identity]. *)
Definition add_provision_spec_to_payload_with_identity (payload : Json) (s : Sandbox)
    (mounts : list SandboxSecretMount) (preference : ProviderPreference)
    (external_id routing_scope : option string) : result (list (string * Json)) ApiError :=
  match as_object payload with
  | None => Err (bad_request "job payload must be an object")
  | Some entries =>
      Ok (object_insert "provisionSpec"
            (provision_spec_to_value (placement_spec s mounts preference external_id routing_scope None))
            (object_insert "runtimeImage" (JString (sb_template s)) entries))
  end.

(** [apply_sandbox_placement]: the flag tells whether the job was changed. *)
Definition apply_sandbox_placement (job : Job) (entry : PlacementCacheEntry) :
    result (bool * Json * ExecutionClass) ApiError :=
  if placement_matches_sandbox job entry
  then Ok (false, job_payload job, required_execution_class job)
  else
    let requested :=
      match job_spec job with
      | Some spec => provider_preference spec
      | None => ProviderPreference.Any
      end in
    let preference := default requested (pe_provider_preference entry) in
    let? payload := add_provision_spec_to_payload_with_identity (job_payload job) (pe_sandbox entry)
                      (pe_secret_mounts entry) preference (pe_provider_external_id entry)
                      (pe_provider_routing_scope entry) in
    match entry_lookup "provisionSpec" payload with
    | None => Err (internal "job provisionSpec is missing")
    | Some value =>
        match provision_spec_from_value value with
        | None => Err internal_serde
        | Some spec =>
            Ok (true,
                JObject (object_insert "provisionSpec"
                  (provision_spec_to_value
                     (set_spec_candidate (pe_sterile_pool_candidate entry) spec)) payload),
                sb_execution_class (pe_sandbox entry))
        end
    end.

(** The sandbox a job is placed by. *)
Definition placement_sandbox_id (job : Job) : result Uuid ApiError :=
  match job_kind job with
  | JobKind.ForkSandbox => child_sandbox_id_from_job job
  | _ => sandbox_id_from_job job
  end.

Definition enrich_job_payload_with_provision_spec_cached (db : Db World) (job : Job)
    (cache : PlacementEnrichmentCache) :
    result (bool * Json * ExecutionClass) ApiError * PlacementEnrichmentCache :=
  match job_kind job with
  | JobKind.DeleteHome => (Ok (false, job_payload job, required_execution_class job), cache)
  | _ =>
      match placement_sandbox_id job with
      | Err e => (Err e, cache)
      | Ok id =>
          let '(entry, cache') := load_sandbox_placement_inputs db id cache in
          (let? entry := entry in apply_sandbox_placement job entry, cache')
      end
  end.
End Placement.

(** ** What the repair guarantees *)

(** [serde_json] reads back the specs it writes. *)
Class SerdeLaws `{SerdeLib} : Prop := {
  provision_spec_round_trip spec : provision_spec_from_value (provision_spec_to_value spec) = Some spec
}.

Lemma entry_lookup_insert k v es : entry_lookup k (object_insert k v es) = Some v.
Proof.
  induction es as [|[k' v'] es IH]; simpl; [by rewrite String.eqb_refl|].
  destruct (String.eqb k k') eqn:E; simpl; rewrite E; [done | exact IH].
Qed.

Lemma entry_lookup_insert_ne k k' v es :
  k <> k' -> entry_lookup k (object_insert k' v es) = entry_lookup k es.
Proof.
  intros Hne. induction es as [|[k1 v1] es IH]; simpl.
  - by rewrite (proj2 (String.eqb_neq k k') Hne).
  - destruct (String.eqb k' k1) eqn:E; simpl.
    + apply String.eqb_eq in E as <-. by rewrite (proj2 (String.eqb_neq k k') Hne).
    + by destruct (String.eqb k k1).
Qed.

Section PlacementProofs.
Context `{UuidLib} `{SerdeLaws}.

(** An entry as [load_sandbox_placement_inputs] builds it. *)
Definition entry_ok (e : PlacementCacheEntry) : Prop :=
  pe_expected_provision_spec e = provision_spec_to_value
    (placement_spec (pe_sandbox e) (pe_secret_mounts e)
       (default ProviderPreference.Any (pe_provider_preference e)) (pe_provider_external_id e)
       (pe_provider_routing_scope e) (pe_sterile_pool_candidate e)).

(** The preference a job leaves with: the placement's, or what it asked for. *)
Definition placed_preference (job : Job) (e : PlacementCacheEntry) : ProviderPreference :=
  default (match job_spec job with
           | Some spec => provider_preference spec
           | None => ProviderPreference.Any
           end) (pe_provider_preference e).

Definition entry_spec (job : Job) (e : PlacementCacheEntry) : SandboxProvisionSpec :=
  placement_spec (pe_sandbox e) (pe_secret_mounts e) (placed_preference job e)
    (pe_provider_external_id e) (pe_provider_routing_scope e) (pe_sterile_pool_candidate e).

Lemma spec_to_value_inj a b : provision_spec_to_value a = provision_spec_to_value b -> a = b.
Proof.
  intros E. apply (f_equal provision_spec_from_value) in E.
  rewrite !provision_spec_round_trip in E. congruence.
Qed.

Lemma placement_matches_spec job e :
  entry_ok e ->
  placement_matches_sandbox job e = true <->
  required_execution_class job = sb_execution_class (pe_sandbox e) /\
  get_str (job_payload job) "runtimeImage" = Some (sb_template (pe_sandbox e)) /\
  job_spec job = Some (entry_spec job e).
Proof.
  intros Hok. unfold placement_matches_sandbox. case_bool_decide as Ec; simpl; [|naive_solver].
  destruct (get_str _ _) as [image|]; [|naive_solver].
  destruct (String.eqb_spec image (sb_template (pe_sandbox e))) as [->|Hi]; simpl; [|naive_solver].
  unfold entry_spec, placed_preference. destruct (job_spec job) as [actual|] eqn:Ej; [|naive_solver].
  rewrite Hok, provision_spec_round_trip, bool_decide_eq_true.
  destruct (pe_provider_preference e) as [p|]; simpl; split.
  - intros E%spec_to_value_inj. by rewrite <- E.
  - by intros (_ & _ & [= ->]).
  - intros E%spec_to_value_inj. split; [done|]. split; [done|]. by rewrite <- E at 1.
  - intros (_ & _ & [= E]). f_equal. by rewrite E at 2.
Qed.

(** The job with the placement that was computed for it. *)
Definition placed_job (job : Job) (payload : Json) (class : ExecutionClass) : Job :=
  job_set_placement payload class (updated_at job) job.

Definition other_keys_kept (payload payload' : Json) : Prop :=
  forall k, k <> "runtimeImage" -> k <> "provisionSpec" -> get payload' k = get payload k.

Lemma apply_placement_ok job e changed payload class :
  entry_ok e -> apply_sandbox_placement job e = Ok (changed, payload, class) ->
  class = sb_execution_class (pe_sandbox e) /\
  get_str payload "runtimeImage" = Some (sb_template (pe_sandbox e)) /\
  job_spec (placed_job job payload class) = Some (entry_spec job e) /\
  other_keys_kept (job_payload job) payload.
Proof.
  intros Hok. unfold apply_sandbox_placement.
  destruct (placement_matches_sandbox job e) eqn:Em.
  { intros [= <- <- <-]. by apply placement_matches_spec in Em as (Hc & Hi & Hs). }
  unfold add_provision_spec_to_payload_with_identity.
  destruct (as_object (job_payload job)) as [es|] eqn:Eo; [|done]. cbn [result_bind].
  rewrite entry_lookup_insert, provision_spec_round_trip. intros [= <- <- <-].
  destruct (job_payload job) as [| | | | |es'] eqn:Ep; try done. injection Eo as ->.
  split; [done|]. split; [|split].
  - unfold get_str, get. rewrite !entry_lookup_insert_ne, entry_lookup_insert by done. done.
  - unfold job_spec, placed_job, get. cbn [job_payload job_set_placement].
    rewrite entry_lookup_insert. cbn [mbind option_bind]. by rewrite provision_spec_round_trip.
  - intros k Hi Hs. unfold get. by rewrite !entry_lookup_insert_ne.
Qed.

Lemma entry_spec_placed job e payload class :
  job_spec (placed_job job payload class) = Some (entry_spec job e) ->
  entry_spec (placed_job job payload class) e = entry_spec job e.
Proof.
  intros E. unfold entry_spec at 1, placed_preference. rewrite E. simpl.
  by destruct (pe_provider_preference e) eqn:Ep; unfold entry_spec, placed_preference; rewrite Ep.
Qed.

Lemma placement_inputs_ok db id e : placement_inputs db id = Ok e -> entry_ok e.
Proof.
  unfold placement_inputs. destruct (fetch_sandbox _ _) as [s|]; [|done]. cbn [result_bind].
  destruct (sandbox_placements db !! id) as [p|]; [destruct (persisted_provider _) as [q|]; [|done]|];
    by intros [= <-].
Qed.

(** Everything cached is what the tables say. *)
Definition cache_ok (db : Db World) (cache : PlacementEnrichmentCache) : Prop :=
  map_Forall (fun id e => placement_inputs db id = Ok e) cache.

Lemma load_ok db id cache e cache' :
  cache_ok db cache -> load_sandbox_placement_inputs db id cache = (Ok e, cache') ->
  placement_inputs db id = Ok e /\ cache_ok db cache' /\ cache' !! id = Some e.
Proof.
  intros Hc. unfold load_sandbox_placement_inputs. destruct (cache !! id) as [e'|] eqn:El.
  - intros [= <- <-]. split; [by apply Hc | done].
  - destruct (placement_inputs db id) as [e'|] eqn:Ep; [|done]. intros [= <- <-].
    split; [done|]. split; [by apply map_Forall_insert_2 | apply (lookup_insert_eq (M := gmap Uuid))].
Qed.

Lemma load_cached db id cache e :
  cache !! id = Some e -> load_sandbox_placement_inputs db id cache = (Ok e, cache).
Proof. unfold load_sandbox_placement_inputs. by intros ->. Qed.

Lemma placed_sandbox_id job payload class :
  other_keys_kept (job_payload job) payload ->
  placement_sandbox_id (placed_job job payload class) = placement_sandbox_id job.
Proof.
  intros Hk. unfold placement_sandbox_id, placed_job, child_sandbox_id_from_job, sandbox_id_from_job,
    uuid_from_job_payload, get_str. cbn [job_kind job_payload job_set_placement].
  by rewrite !Hk.
Qed.

Lemma enrich_unfold db job cache :
  job_kind job <> JobKind.DeleteHome ->
  enrich_job_payload_with_provision_spec_cached db job cache =
  match placement_sandbox_id job with
  | Err e => (Err e, cache)
  | Ok id => let '(entry, cache') := load_sandbox_placement_inputs db id cache in
             (let? entry := entry in apply_sandbox_placement job entry, cache')
  end.
Proof. intros Hk. unfold enrich_job_payload_with_provision_spec_cached. by destruct (job_kind job). Qed.

Lemma enrich_ok db job cache changed payload class cache' :
  cache_ok db cache -> job_kind job <> JobKind.DeleteHome ->
  enrich_job_payload_with_provision_spec_cached db job cache = (Ok (changed, payload, class), cache') ->
  exists id e, placement_sandbox_id job = Ok id /\ placement_inputs db id = Ok e /\
    class = sb_execution_class (pe_sandbox e) /\
    get_str payload "runtimeImage" = Some (sb_template (pe_sandbox e)) /\
    job_spec (placed_job job payload class) = Some (entry_spec job e) /\
    other_keys_kept (job_payload job) payload /\ cache_ok db cache' /\ cache' !! id = Some e.
Proof.
  intros Hc Hk He. rewrite enrich_unfold in He by done.
  destruct (placement_sandbox_id job) as [id|] eqn:Hid; [|done].
  destruct (load_sandbox_placement_inputs db id cache) as [[e|] c1] eqn:El; [|done].
  cbn [result_bind] in He. injection He as Ha <-.
  destruct (load_ok _ _ _ _ _ Hc El) as (Hin & Hc' & Hl').
  destruct (apply_placement_ok _ _ _ _ _ (placement_inputs_ok _ _ _ Hin) Ha) as (-> & Hi & Hs & Hkeys).
  exists id, e. by split_and!.
Qed.

(** Placement is authoritative.  Whatever a job's payload claims, enrichment
    leaves it with the image, execution class and provision spec that the
    control plane's tables determine for its sandbox: limits, egress, profile,
    tenant, secret mounts, provider identity and pool candidacy; only the
    provider preference is the job's own, and only for a sandbox that has no
    placement yet.  The rest of the payload is untouched, and enriching again
    changes nothing. *)
Theorem placement_is_authoritative db job cache changed payload class cache' :
  cache_ok db cache -> job_kind job <> JobKind.DeleteHome ->
  enrich_job_payload_with_provision_spec_cached db job cache = (Ok (changed, payload, class), cache') ->
  exists id e, placement_sandbox_id job = Ok id /\ placement_inputs db id = Ok e /\
    class = sb_execution_class (pe_sandbox e) /\
    get_str payload "runtimeImage" = Some (sb_template (pe_sandbox e)) /\
    job_spec (placed_job job payload class) = Some (entry_spec job e) /\
    other_keys_kept (job_payload job) payload /\ cache_ok db cache' /\
    enrich_job_payload_with_provision_spec_cached db (placed_job job payload class) cache' =
      (Ok (false, payload, class), cache').
Proof.
  intros Hc Hk He.
  destruct (enrich_ok _ _ _ _ _ _ _ Hc Hk He) as (id & e & Hid & Hin & -> & Hi & Hs & Hkeys & Hc' & Hl').
  exists id, e. split_and!; try done. pose proof (placement_inputs_ok _ _ _ Hin) as Hok.
  rewrite enrich_unfold, placed_sandbox_id, Hid, (load_cached _ _ _ _ Hl') by done.
  cbn [result_bind]. unfold apply_sandbox_placement.
  rewrite (proj2 (placement_matches_spec _ _ Hok)); [done|].
  split; [done|]. split; [done|]. by rewrite entry_spec_placed.
Qed.
End PlacementProofs.
