(* ===== verification/Claim.v ===== *)
(** * The claim handler

    [claim_lease] of [handlers/leases.rs]: a worker, or the guest of one
    sandbox, asks for a job.  The handler replays an earlier claim of the same
    operation, scans the queue for candidates in priority order, checks each
    against the worker and the request, repairs its placement and tries to
    take it; with [wait_ms] it polls until a deadline.

    One pass over the candidates is a function on the tables.  What other
    requests do between the passes of a long poll is an arbitrary function;
    what they do inside a pass is covered by [Scheduler], since every
    statement that a pass executes is one of its steps ([claim_is_scheduled]). *)

From S2P Require Import Prelude Authz CoreTypes Json Store Leases Workers Queue Protocol Refinement.
From S2P Require Import Scheduler World Scopes Placement.
From stdpp Require Import sorting.

(** ** Requests and constants *)

Record ClaimLeaseRequest : Type := mkClaimLeaseRequest {
  claim_lease_seconds : option Z;
  claim_sandbox_id : option Uuid;
  claim_kinds : option (list JobKind);
  claim_wait_ms : option Z
}.

Definition CLAIM_SCAN_BUDGET : nat := 200.
Definition MAX_CLAIM_WAIT_MS : Z := 5000.
Definition CLAIM_WAIT_SLICE_MS : Z := 50.

Definition PROVIDER_ISOLATED_RESIDENT_PROCESS_VERSION_LABEL : string :=
  "provider_isolated_resident_process_version".
Definition PROVIDER_ISOLATED_RESIDENT_PROCESS_VERSION_LABEL_VALUE : string := "2".
Definition PROVIDER_ISOLATED_RESIDENT_PROCESS_VERSION_V1 : Z := 1.
Definition PROVIDER_ISOLATED_RESIDENT_PROCESS_VERSION : Z := 2.
Definition MAESTRO_HOSTED_RUNNER_IMAGE_LABEL : string := "maestro_hosted_runner_image".
Definition PROVIDER_SECRET_DELIVERY_LABEL : string := "provider_secret_delivery".
Definition PROVIDER_SECRET_DELIVERY_LABEL_VALUE : string := "csi_secret_provider_class".
Definition GUEST_AGENT_CAPABILITY_REPORT_CHECK : string := "agentCapabilities".
Definition GUEST_AGENT_CAPABILITY_PROTOCOL_VERSION : Z := 1.
Definition UID_ISOLATED_RESIDENT_PROCESS_CAPABILITY_VERSION : Z := 1.

(** ** Worker and job predicates *)

Definition worker_execution_classes (caps : list WorkerCapability) : list ExecutionClass :=
  [ExecutionClass.DevelopmentContainer]
  ++ (if bool_decide (WorkerCapability.SandboxedContainer ∈ caps)
      then [ExecutionClass.SandboxedContainer] else [])
  ++ (if bool_decide (WorkerCapability.VirtualMachine ∈ caps)
      then [ExecutionClass.VirtualMachine] else []).

Definition execution_capability (class : ExecutionClass) : WorkerCapability :=
  match class with
  | ExecutionClass.DevelopmentContainer => WorkerCapability.ProvisionSandbox
  | ExecutionClass.SandboxedContainer => WorkerCapability.SandboxedContainer
  | ExecutionClass.VirtualMachine => WorkerCapability.VirtualMachine
  end.

Definition worker_supports_execution_class (worker : Worker) (class : ExecutionClass) : bool :=
  bool_decide (class = ExecutionClass.DevelopmentContainer)
  || bool_decide (execution_capability class ∈ capabilities worker).

Definition memory_bytes (limit : MemoryLimit) : Z :=
  match limit with
  | MemoryLimit.OneG => Z.shiftl 1 30
  | MemoryLimit.FourG => Z.shiftl 4 30
  | MemoryLimit.SixteenG => Z.shiftl 16 30
  | MemoryLimit.SixtyFourG => Z.shiftl 64 30
  end.

Definition can_schedule_memory (envelope : WorkerResourceEnvelope) (limit : MemoryLimit) : bool :=
  match max_memory_bytes envelope with
  | Some ceiling => (memory_bytes limit <=? ceiling)%Z
  | None => false
  end.

(** [serde_json::from_value::<MemoryLimit>]: the limit's text. *)
Definition memory_limit_from_value (v : Json) : option MemoryLimit :=
  match as_str v with
  | Some text => match parse_db_str text with Ok limit => Some limit | Err _ => None end
  | None => None
  end.

Definition worker_can_schedule_job_memory (worker : Worker) (job : Job) : bool :=
  match resource_envelope worker with
  | None => true
  | Some envelope =>
      if negb (bool_decide (job_kind job = JobKind.ProvisionSandbox)
               || bool_decide (job_kind job = JobKind.ResumeSandbox)
               || bool_decide (job_kind job = JobKind.ForkSandbox))
      then true
      else
        match (get (job_payload job) "provisionSpec" ≫= (fun spec => get spec "memory_limit"))
                ≫= memory_limit_from_value with
        | None => true
        | Some limit => can_schedule_memory envelope limit
        end
  end.

(** The capability report of the guest agent. *)
Inductive GuestAgentCapabilityStatus : Set :=
| CapabilityOk
| CapabilityUnavailable.

#[global] Instance GuestAgentCapabilityStatus_eq_dec : EqDecision GuestAgentCapabilityStatus.
Proof. solve_decision. Defined.

Record GuestAgentCapability : Type := mkGuestAgentCapability {
  capability_status : GuestAgentCapabilityStatus;
  capability_version : Z
}.

Record GuestAgentCapabilityReport : Type := mkGuestAgentCapabilityReport {
  protocol_version : Z;
  uid_isolated_resident_process : option GuestAgentCapability
}.

(** The durable projection of a sterile activation a job carries. *)
Record SterileResidentActivationFenceV1 : Type := mkActivationFence {
  activation_cell_id : Uuid;
  activation_lease_id : Uuid;
  activation_generation : Z
}.

(** The derived [serde] readers of these types. *)
Class ClaimSerdeLib : Type := {
  capability_report_from_value : Json -> option GuestAgentCapabilityReport;
  activation_fence_from_value : Json -> option SterileResidentActivationFenceV1;
  sandbox_id_from_value : Json -> option Uuid
}.

Section Claim.
Context `{UuidLib} `{SerdeLib} `{ClaimSerdeLib} `{JobEffects World}.

(** [GuestAgentCapabilityReport::from_health_checks]: other protocol versions
    are no report. *)
Definition from_health_checks (checks : Json) : option GuestAgentCapabilityReport :=
  match get checks GUEST_AGENT_CAPABILITY_REPORT_CHECK ≫= capability_report_from_value with
  | Some report =>
      if (protocol_version report =? GUEST_AGENT_CAPABILITY_PROTOCOL_VERSION)%Z then Some report
      else None
  | None => None
  end.

Definition supports_uid_isolated_resident_process (report : GuestAgentCapabilityReport) : bool :=
  (protocol_version report =? GUEST_AGENT_CAPABILITY_PROTOCOL_VERSION)%Z
  && match uid_isolated_resident_process report with
     | Some capability =>
         bool_decide (capability_status capability = CapabilityOk)
         && (capability_version capability =? UID_ISOLATED_RESIDENT_PROCESS_CAPABILITY_VERSION)%Z
     | None => false
     end.

Definition guest_supports_uid_isolated_resident_process (checks : Json) : bool :=
  match from_health_checks checks with
  | Some report => supports_uid_isolated_resident_process report
  | None => false
  end.

(** [authoritative_placement]: a spec with all its placement fields, and the
    image. *)
Definition has_placement_fields (spec : list (string * Json)) : bool :=
  forallb (fun field => is_some (entry_lookup field spec))
    ["memory_limit"; "network_egress"; "workspace_mode"; "runtime_profile"].

Definition authoritative_placement (job : Job) : option (SandboxProvisionSpec * string) :=
  match get (job_payload job) "provisionSpec" ≫= as_object with
  | None => None
  | Some fields =>
      if negb (has_placement_fields fields) then None
      else
        match job_spec job with
        | None => None
        | Some spec =>
            match get_str (job_payload job) "runtimeImage" with
            | Some image => if String.eqb image "" then None else Some (spec, image)
            | None => None
            end
        end
  end.

Definition worker_supports_runtime_profile (worker : Worker) (job : Job) : bool :=
  if bool_decide (job_kind job = JobKind.DeleteHome) then true
  else
    match authoritative_placement job with
    | None => false
    | Some (spec, requested_image) =>
        if negb (bool_decide (runtime_profile spec = SandboxRuntimeProfile.ApexTrustedSupervisorV1))
        then true
        else bool_decide (WorkerCapability.ApexTrustedSupervisorV1 ∈ capabilities worker)
             && bool_decide (labels worker !! "runtime_image" = Some requested_image)
    end.

Definition worker_supports_secret_delivery (worker : Worker) (job : Job) : bool :=
  match authoritative_placement job with
  | None => true
  | Some (spec, _) =>
      match secret_mounts spec with
      | [] => true
      | _ => bool_decide (labels worker !! PROVIDER_SECRET_DELIVERY_LABEL
                          = Some PROVIDER_SECRET_DELIVERY_LABEL_VALUE)
      end
  end.

(** ** The scan *)

(** The sandbox placement clause of the candidate query. *)
Definition placement_admits (worker : Worker) (db : Db World) (row : JobRow) : bool :=
  let kind := job_kind (row_job row) in
  bool_decide (kind = JobKind.ProvisionSandbox) || bool_decide (kind = JobKind.RunPrompt)
  || bool_decide (kind = JobKind.DeleteHome)
  || match (match ref_sandbox_id (row_references row) with
            | Some s => Some s
            | None => ref_parent_sandbox_id (row_references row)
            end) ≫= (fun s => sandbox_placements db !! s) with
     | None => false
     | Some p =>
         bool_decide (placement_worker_id p = worker_id worker)
         || (negb (bool_decide (kind = JobKind.ApexTaskInstructions))
             && String.eqb (placement_provider p) (worker_provider worker)
             && match placement_cluster p with
                | None => true
                | Some cluster => String.eqb cluster (default "" (labels worker !! "cluster"))
                end)
     end.

Definition references_sandbox (sandbox_id : Uuid) (row : JobRow) : bool :=
  bool_decide (ref_sandbox_id (row_references row) = Some sandbox_id)
  || bool_decide (ref_parent_sandbox_id (row_references row) = Some sandbox_id)
  || bool_decide (ref_child_sandbox_id (row_references row) = Some sandbox_id).

Definition is_candidate (worker : Worker) (request : ClaimLeaseRequest)
    (requested_job_id : option Uuid) (now : Z) (db : Db World) (row : JobRow) : bool :=
  let job := row_job row in
  String.eqb (job_tenant_id job) (worker_tenant_id worker)
  && is_queued row && (scheduled_at job <=? now)%Z
  && bool_decide (required_capability job ∈ capabilities worker)
  && bool_decide (required_execution_class job ∈ worker_execution_classes (capabilities worker))
  && placement_admits worker db row
  && match requested_job_id with Some id => bool_decide (job_id job = id) | None => true end
  && match claim_sandbox_id request with Some s => references_sandbox s row | None => true end
  && match claim_kinds request with
     | Some kinds => bool_decide (job_kind job ∈ kinds)
     | None => true
     end.

(** [order by priority desc, scheduled_at asc, created_at asc, id asc]. *)
Definition claim_key (j : Job) : Z * Z * Z * Z :=
  (- priority j, scheduled_at j, created_at j, Z.of_N (job_id j))%Z.

Definition key4_leb (a b : Z * Z * Z * Z) : bool :=
  let '(a1, a2, a3, a4) := a in
  let '(b1, b2, b3, b4) := b in
  (a1 <? b1)%Z || ((a1 =? b1)%Z && ((a2 <? b2)%Z || ((a2 =? b2)%Z && ((a3 <? b3)%Z ||
    ((a3 =? b3)%Z && (a4 <=? b4)%Z))))).

Definition claimed_before (a b : Job) : Prop := key4_leb (claim_key a) (claim_key b) = true.

#[local] Instance claimed_before_dec : RelDecision claimed_before.
Proof. intros a b. unfold claimed_before. apply _. Defined.

Definition claim_candidates (worker : Worker) (request : ClaimLeaseRequest)
    (requested_job_id : option Uuid) (now : Z) (db : Db World) : list Job :=
  take CLAIM_SCAN_BUDGET (merge_sort claimed_before
    (row_job <$> List.filter (is_candidate worker request requested_job_id now db)
                   (map_to_list (jobs db)).*2)).

(** ** Resident processes *)

(** [exact_sterile_candidate_resident_job]: is the sandbox a pool member, and
    is the job the one activation its lease allows? *)
Definition saturate_i64 (n : Z) : Z := default i64_max (try_i64 n).

Definition exact_member (job : Job) (sandbox_id : Uuid) (fence : SterileResidentActivationFenceV1)
    (process_id : string) (process_generation : Z) (db : Db World) : bool :=
  match sterile_pool_memberships (world db) !! sandbox_id, sterile_cells db !! sandbox_id with
  | Some p, Some c =>
      String.eqb (mb_tenant_id p) (job_tenant_id job)
      && bool_decide (mb_state p = MemberLeased)
      && bool_decide (mb_lease_id p = Some (activation_lease_id fence))
      && bool_decide (mb_generation p = Some (saturate_i64 (activation_generation fence)))
      && is_some (mb_candidate_pod_name p) && is_some (mb_candidate_pod_uid p)
      && bool_decide (cell_state c = SterileCellState.Leased)
      && bool_decide (cell_lease_id c = mb_lease_id p) && is_some (cell_lease_id c)
      && bool_decide (Some (cell_generation c) = mb_generation p)
      && uuid_text_is (cell_activated_resident_process_id c) process_id
      && bool_decide (cell_activated_resident_generation c = Some (saturate_i64 process_generation))
  | _, _ => false
  end.

Definition exact_sterile_candidate_resident_job (db : Db World) (job : Job) (sandbox_id : Uuid) :
    bool * bool :=
  let has_membership := is_some (sterile_pool_memberships (world db) !! sandbox_id) in
  match get (job_payload job) "sterileActivation" ≫= activation_fence_from_value,
        get_str (job_payload job) "residentProcessId", get_u64 (job_payload job) "generation" with
  | Some fence, Some process_id, Some process_generation =>
      (has_membership,
       bool_decide (activation_cell_id fence = sandbox_id)
       && exact_member job sandbox_id fence process_id process_generation db)
  | _, _, _ => (has_membership, false)
  end.

Definition supported_provider_isolation_version (version : Z) : bool :=
  (version =? PROVIDER_ISOLATED_RESIDENT_PROCESS_VERSION_V1)%Z
  || (version =? PROVIDER_ISOLATED_RESIDENT_PROCESS_VERSION)%Z.

(** [executor_sidecar_is_ready_for_claim]: no sidecar, or a running one. *)
Definition executor_sidecar_is_ready_for_claim (now : Z) (db : Db World) (sandbox_id : Uuid)
    (tenant_id : string) : bool :=
  match find (fun kv => bool_decide (rp_sandbox_id kv.2 = sandbox_id)
                        && String.eqb (rp_name kv.2) ORB_SIDECAR_RESIDENT_PROCESS_NAME)
          (map_to_list (resident_processes db)) with
  | None => true
  | Some (_, rp) =>
      String.eqb (rp_tenant_id rp) tenant_id
      && match try_u32 (rp_provider_isolation_version rp) with
         | Some version => supported_provider_isolation_version version
         | None => false
         end
      && bool_decide (rp_desired_state rp = ResidentProcessDesiredState.Running)
      && bool_decide (rp_observed_state rp = ResidentProcessObservedState.Running)
      && match rp_active_lease_id rp ≫= (fun l => job_leases db !! l) with
         | Some l => is_active l && (now <? lr_expires_at l)%Z
         | None => false
         end
  end.

Definition contains_sha256 (image : string) : bool := is_some (String.index 0 "@sha256:" image).

(** [select 1 from resident_processes where id = .. and desired_state =
    'running']. *)
Definition process_desired_running (db : Db World) (process_id : string) : bool :=
  existsb (fun kv => String.eqb (uuid_to_string kv.1) process_id
                     && bool_decide (rp_desired_state kv.2 = ResidentProcessDesiredState.Running))
    (map_to_list (resident_processes db)).

(** The checks of a [run_resident_process] candidate; a gated job whose fence
    has gone stale is terminalized on the way. *)
Definition resident_is_claimable (rt : Runtime) (ctx : TenantContext) (worker : Worker)
    (guest_ok : bool) (job : Job) (db : Db World) : result bool ApiError * Db World :=
  match get (job_payload job) "sandboxId" ≫= sandbox_id_from_value with
  | None => (Ok false, db)
  | Some sandbox_id =>
      let name := get_str (job_payload job) "name" in
      let is_maestro := bool_decide (name = Some MAESTRO_HOSTED_RUNNER_RESIDENT_PROCESS_NAME) in
      let '(is_pool_candidate, exact) := exact_sterile_candidate_resident_job db job sandbox_id in
      if is_pool_candidate && is_maestro && negb exact then
        match terminalize_invalid_sterile_resident_job_before_filtering rt job db with
        | (Ok _, db') => (Ok false, db')
        | (Err e, db') => (Err e, db')
        end
      else if is_pool_candidate && negb is_maestro then (Ok false, db)
      else
        let provider_isolated :=
          bool_decide (name = Some ORB_SIDECAR_RESIDENT_PROCESS_NAME) || (is_maestro && negb exact) in
        (Ok (negb (Bool.eqb provider_isolated (is_some (guest_sandbox_id ctx)))
             && worker_owns_sandbox db (worker_id worker) sandbox_id
             && (negb provider_isolated
                 || bool_decide (labels worker !! PROVIDER_ISOLATED_RESIDENT_PROCESS_VERSION_LABEL
                                 = Some PROVIDER_ISOLATED_RESIDENT_PROCESS_VERSION_LABEL_VALUE))
             && (negb is_maestro
                 || match labels worker !! MAESTRO_HOSTED_RUNNER_IMAGE_LABEL with
                    | Some image => contains_sha256 image
                    | None => false
                    end)
             && guest_ok
             && (provider_isolated || exact
                 || executor_sidecar_is_ready_for_claim (utc_now rt) db sandbox_id (job_tenant_id job))
             && match get_str (job_payload job) "residentProcessId" with
                | Some process_id => process_desired_running db process_id
                | None => false
                end), db)
  end.

(** ** One candidate *)

(** The checks of the typed job, after its placement was repaired. *)
Definition job_fits (worker : Worker) (request : ClaimLeaseRequest) (job : Job) : bool :=
  worker_matches_provider_preference (worker_provider worker) (job_provider_preference job)
  && worker_supports_runtime_profile worker job
  && worker_supports_execution_class worker (required_execution_class job)
  && worker_supports_secret_delivery worker job
  && worker_can_schedule_job_memory worker job
  && match claim_sandbox_id request with Some s => job_matches_sandbox job s | None => true end
  && match claim_kinds request with
     | Some kinds => bool_decide (job_kind job ∈ kinds)
     | None => true
     end.

Definition resident_gate (rt : Runtime) (ctx : TenantContext) (worker : Worker) (guest_ok : bool)
    (job : Job) (db : Db World) : result bool ApiError * Db World :=
  if bool_decide (job_kind job = JobKind.RunResidentProcess)
  then resident_is_claimable rt ctx worker guest_ok job db
  else (Ok true, db).

Definition claim_candidate (rt : Runtime) (ctx : TenantContext) (worker : Worker)
    (request : ClaimLeaseRequest) (operation_id : option Uuid) (guest_ok : bool) (job : Job)
    (cache : PlacementEnrichmentCache) (db : Db World) :
    result (option JobLease) ApiError * PlacementEnrichmentCache * Db World :=
  match terminalize_invalid_sterile_resident_job_before_filtering rt job db with
  | (Err e, db1) => (Err e, cache, db1)
  | (Ok true, db1) => (Ok None, cache, db1)
  | (Ok false, db1) =>
      if negb (bool_decide (required_capability job ∈ capabilities worker))
      then (Ok None, cache, db1)
      else
        let cache' := (enrich_job_payload_with_provision_spec_cached db1 job cache).2 in
        match authoritatively_refresh_job_placement_cached rt
                (fun j => (enrich_job_payload_with_provision_spec_cached db1 j cache).1) job db1 with
        | (Err e, db2) => (Err e, cache', db2)
        | (Ok (false, _), db2) => (Ok None, cache', db2)
        | (Ok (true, job'), db2) =>
            if negb (job_fits worker request job') then (Ok None, cache', db2)
            else
              match resident_gate rt ctx worker guest_ok job' db2 with
              | (Err e, db3) => (Err e, cache', db3)
              | (Ok false, db3) => (Ok None, cache', db3)
              | (Ok true, db3) =>
                  let '(claimed, db4) :=
                    try_claim_job rt worker job' (claim_lease_seconds request) operation_id db3 in
                  (claimed, cache', db4)
              end
        end
  end.

(** The first candidate that can be taken is; an error ends the pass. *)
Fixpoint claim_pass (rts : nat -> Runtime) (ctx : TenantContext) (worker : Worker)
    (request : ClaimLeaseRequest) (operation_id : option Uuid) (guest_ok : bool)
    (candidates : list Job) (cache : PlacementEnrichmentCache) (db : Db World) :
    result (option JobLease) ApiError * Db World :=
  match candidates with
  | [] => (Ok None, db)
  | job :: rest =>
      match claim_candidate (rts (List.length rest)) ctx worker request operation_id guest_ok job
              cache db with
      | (Ok None, cache', db') =>
          claim_pass rts ctx worker request operation_id guest_ok rest cache' db'
      | (Ok (Some lease), _, db') => (Ok (Some lease), db')
      | (Err e, _, db') => (Err e, db')
      end
  end.

(** ** The handler without waiting *)

(** A request header: absent, not text, or text. *)
Definition Header : Type := option (option string).

Definition uuid_header (invalid not_uuid : string) (header : Header) : result (option Uuid) ApiError :=
  match header with
  | None => Ok None
  | Some None => Err (bad_request invalid)
  | Some (Some text) =>
      match uuid_parse_str text with
      | Some u => Ok (Some u)
      | None => Err (bad_request not_uuid)
      end
  end.

Definition guest_request_is_scoped (ctx : TenantContext) (request : ClaimLeaseRequest) : bool :=
  match guest_sandbox_id ctx with
  | None => true
  | Some sandbox_id =>
      bool_decide (claim_sandbox_id request = Some sandbox_id)
      && match claim_kinds request with
         | None | Some [] => false
         | Some kinds => forallb is_guest_executable kinds
         end
  end.

(** [fetch_claim_operation]. *)
Definition fetch_claim_operation (db : Db World) (worker operation : Uuid) :
    result (option JobLease) ApiError :=
  match lease_claim_operations db !! (worker, operation) with
  | None => Ok None
  | Some (lease, _) => let? lease := fetch_lease db lease in Ok (Some lease)
  end.

(** The answer of the handler, or an empty queue, on which it may wait. *)
Inductive ClaimOutcome : Type :=
| Answered (lease : option JobLease)
| NothingClaimed.

Record ClaimCall : Type := mkClaimCall {
  call_worker_id : Uuid;
  call_idempotency_key : Header;
  call_job_id : Header;
  call_request : ClaimLeaseRequest
}.

Definition read_tx {A} (m : Tx World A) (db : Db World) : result A ApiError :=
  match m db with Ok (a, _) => Ok a | Err e => Err e end.

Definition guest_is_capable (ctx : TenantContext) (db : Db World) : bool :=
  match guest_sandbox_id ctx with
  | None => true
  | Some sandbox_id =>
      match guest_health (world db) !! sandbox_id with
      | Some health => guest_supports_uid_isolated_resident_process (gh_checks health)
      | None => false
      end
  end.

(** The part before the scan: an early answer, or the worker, the operation
    and the requested job. *)
Definition claim_preamble (ctx : TenantContext) (call : ClaimCall) (db : Db World) :
    result (option JobLease + Worker * option Uuid * option Uuid) ApiError :=
  let? _ := ensure_worker_scope ctx (call_worker_id call) in
  if negb (guest_request_is_scoped ctx (call_request call)) then
    Err (bad_request
      "guest lease claims must specify their own sandbox_id and only guest-executable kinds")
  else
    let? worker := ensure_worker_tenant db (call_worker_id call) ctx in
    let? operation := uuid_header "invalid idempotency-key" "idempotency-key must be a UUID"
                        (call_idempotency_key call) in
    let? job := uuid_header "invalid x-sandboxwich-job-id" "x-sandboxwich-job-id must be a UUID"
                  (call_job_id call) in
    let? replayed := match operation with
                     | Some op => fetch_claim_operation db (call_worker_id call) op
                     | None => Ok None
                     end in
    match replayed with
    | Some lease =>
        let? lease := ensure_lease_worker_scope db (lease_id lease) ctx in
        Ok (inl (Some lease))
    | None =>
        match capabilities worker with
        | [] => Ok (inl None)
        | _ =>
            let? active := read_tx (active_lease_count_for_worker_on_connection (worker_id worker)) db in
            if (max_concurrent_jobs worker <=? active)%Z then Ok (inl None)
            else match claim_kinds (call_request call) with
                 | Some [] => Ok (inl None)
                 | _ => Ok (inr (worker, operation, job))
                 end
        end
    end.

Definition claim_once (now : Z) (rts : nat -> Runtime) (ctx : TenantContext) (call : ClaimCall)
    (db : Db World) : result ClaimOutcome ApiError * Db World :=
  match claim_preamble ctx call db with
  | Err e => (Err e, db)
  | Ok (inl answer) => (Ok (Answered answer), db)
  | Ok (inr (worker, operation, job)) =>
      let request := call_request call in
      match claim_pass rts ctx worker request operation (guest_is_capable ctx db)
              (claim_candidates worker request job now db) ∅ db with
      | (Err e, db') => (Err e, db')
      | (Ok (Some lease), db') => (Ok (Answered (Some lease)), db')
      | (Ok None, db') => (Ok NothingClaimed, db')
      end
  end.

(** ** The long poll *)

(** What the loop meets: the monotonic clock in milliseconds when the deadline
    is set and at each turn, what other requests commit while it sleeps, and
    the clock and identifiers of each retry. *)
Record PollEnv : Type := mkPollEnv {
  poll_start : Z;
  poll_clock : nat -> Z;
  poll_others : nat -> Db World -> Db World;
  poll_now : nat -> Z;
  poll_runtime : nat -> nat -> Runtime
}.

(** The clock does not run backward, and [sleep] sleeps at least as long as it
    is asked to. *)
Definition sleeps_long_enough (env : PollEnv) (deadline : Z) : Prop :=
  (poll_start env <= poll_clock env 0)%Z /\
  forall turn, (poll_clock env turn < deadline)%Z ->
    (poll_clock env turn + Z.min (deadline - poll_clock env turn) CLAIM_WAIT_SLICE_MS
     <= poll_clock env (S turn))%Z.

Fixpoint claim_poll (fuel turn : nat) (env : PollEnv) (deadline : Z) (ctx : TenantContext)
    (worker : Worker) (call : ClaimCall) (db : Db World) :
    option (result (option JobLease) ApiError * Db World) :=
  match fuel with
  | O => None
  | S fuel' =>
      if (deadline - poll_clock env turn <=? 0)%Z then Some (Ok None, db)
      else
        let db := poll_others env turn db in
        match read_tx (active_lease_count_for_worker_on_connection (worker_id worker)) db with
        | Err e => Some (Err e, db)
        | Ok active =>
            if (max_concurrent_jobs worker <=? active)%Z
            then claim_poll fuel' (S turn) env deadline ctx worker call db
            else
              match claim_once (poll_now env turn) (poll_runtime env turn) ctx call db with
              | (Err e, db') => Some (Err e, db')
              | (Ok (Answered (Some lease)), db') => Some (Ok (Some lease), db')
              | (Ok _, db') => claim_poll fuel' (S turn) env deadline ctx worker call db'
              end
        end
  end.

Definition effective_wait_ms (request : ClaimLeaseRequest) : Z :=
  Z.min (default 0%Z (claim_wait_ms request)) MAX_CLAIM_WAIT_MS.

Definition claim_lease (fuel : nat) (now : Z) (rts : nat -> Runtime) (env : PollEnv)
    (ctx : TenantContext) (call : ClaimCall) (db : Db World) :
    option (result (option JobLease) ApiError * Db World) :=
  match claim_once now rts ctx call db with
  | (Err e, db') => Some (Err e, db')
  | (Ok (Answered lease), db') => Some (Ok lease, db')
  | (Ok NothingClaimed, db') =>
      let wait_ms := effective_wait_ms (call_request call) in
      if (wait_ms =? 0)%Z then Some (Ok None, db')
      else
        match ensure_worker_tenant db (call_worker_id call) ctx with
        | Err e => Some (Err e, db')
        | Ok worker => claim_poll fuel 0 env (poll_start env + wait_ms)%Z ctx worker call db'
        end
  end.
End Claim.
