(* ===== verification/ClaimProofs.v ===== *)
(** * What the claim handler guarantees

    A fresh lease goes to the worker that asked, for a job that the scan found
    and that fits the worker and the request, with the placement that the
    tables determine; a guest gets nothing beyond its sandbox.  Every statement
    of a pass is a step of the scheduler, so the lease protocol's guarantees
    hold for the real handler.  A long poll ends. *)

From S2P Require Import Prelude Authz CoreTypes Json Store Leases Workers Queue Protocol Refinement.
From S2P Require Import Scheduler World Scopes Placement Claim.
From stdpp Require Import sorting.

(** ** What a pass leaves alone *)

(** The inputs of placement. *)
Definition keeps_inputs (db db' : Db World) : Prop :=
  world db' = world db /\ sandbox_placements db' = sandbox_placements db.

#[export] Instance keeps_inputs_preorder : PreOrder keeps_inputs.
Proof. split; [done|]. intros a b c [? ?] [? ?]. split; congruence. Qed.

Section ClaimProofs.
Context `{UuidLib} `{SerdeLib} `{ClaimSerdeLib} `{JobEffects World} `{!JobEffectsLaws World}.

Lemma placement_inputs_keeps db db' id :
  keeps_inputs db db' -> placement_inputs db' id = placement_inputs db id.
Proof. intros [Hw Hp]. unfold placement_inputs. by rewrite Hw, Hp. Qed.

Lemma cache_ok_keeps db db' cache : keeps_inputs db db' -> cache_ok db' cache <-> cache_ok db cache.
Proof.
  intros Hk. unfold cache_ok, map_Forall. split; intros Hc id e He; specialize (Hc id e He).
  - by rewrite <- (placement_inputs_keeps _ _ id Hk).
  - by rewrite (placement_inputs_keeps _ _ id Hk).
Qed.

Lemma quarantine_keeps rt job (db : Db World) :
  keeps_inputs db (quarantine_invalid_sterile_resident_job rt job db).2.
Proof.
  unfold quarantine_invalid_sterile_resident_job. destruct (_ ≫= _) as [cell|]; [|reflexivity].
  destruct (resident_process_id_from_job job); [|reflexivity].
  unfold run_tx, quarantine_tx, tx_bind, tx_get. destruct (update_row _ _ _ _) as [[] m]; by split.
Qed.

Lemma terminalize_keeps rt job (db : Db World) :
  keeps_inputs db (terminalize_invalid_sterile_resident_job_before_filtering rt job db).2.
Proof.
  unfold terminalize_invalid_sterile_resident_job_before_filtering.
  destruct (_ || _); [reflexivity|]. destruct (recheck_sterile_resident_activation_on_connection _ _ _);
    [reflexivity|]. destruct (String.eqb _ _); [|reflexivity].
  pose proof (quarantine_keeps rt job db) as Q.
  by destruct (quarantine_invalid_sterile_resident_job rt job db) as [[]].
Qed.

Lemma refresh_keeps rt enrich job (db : Db World) :
  keeps_inputs db (authoritatively_refresh_job_placement_cached rt enrich job db).2.
Proof.
  unfold authoritatively_refresh_job_placement_cached. case_bool_decide; [reflexivity|].
  destruct (result_bind _ _) as [[[changed payload] class]|e].
  - destruct changed; simpl; [|reflexivity]. unfold store_refreshed_placement.
    by destruct (update_row _ _ _ _).
  - destruct (negb _); simpl; [reflexivity|]. unfold retire_queued_job. by destruct (update_row _ _ _ _).
Qed.

Lemma gate_keeps rt ctx worker guest_ok job db :
  keeps_inputs db (resident_gate rt ctx worker guest_ok job db).2.
Proof.
  unfold resident_gate, resident_is_claimable. case_bool_decide; [|reflexivity].
  destruct (_ ≫= _) as [sb|]; [|reflexivity].
  destruct (exact_sterile_candidate_resident_job db job sb) as [pool exact].
  destruct (_ && _ && _).
  - pose proof (terminalize_keeps rt job db) as T.
    by destruct (terminalize_invalid_sterile_resident_job_before_filtering rt job db) as [[]].
  - destruct (_ && _); reflexivity.
Qed.

(** A claim that grants nothing leaves the inputs alone; one that does grants
    exactly [granted_lease]. *)
Lemma try_claim_outcome rt worker job secs op (db : Db World) r db' :
  try_claim_job rt worker job secs op db = (r, db') ->
  match r with
  | Ok (Some lease) =>
      lease = granted_lease rt worker job secs /\
      try_claim_tx rt worker job secs op db = Ok (Some lease, db')
  | _ => keeps_inputs db db'
  end.
Proof.
  unfold try_claim_job. destruct (negb _); [by intros [= <- <-]|].
  destruct (try_claim_tx rt worker job secs op db) as [[[lease|] db1]|e] eqn:Et.
  - intros [= <- <-]. split; [|done]. unfold try_claim_tx in Et. tx_step Et.
    destruct a; [|by tx_step Et]. simpl in Et. tx_step Et. destruct a; [|by tx_step Et]. simpl in Et.
    tx_step Et. destruct (_ <=? _)%Z; [by tx_step Et|]. tx_step Et. tx_step Et. tx_step Hm3.
    destruct (update_row _ _ _ _) as [[] m]; [|by tx_step Et]. cbn [negb] in Et.
    do 6 tx_step Et. by injection Et as <- _.
  - by intros [= <- <-].
  - destruct (String.eqb _ _); [|by intros [= <- <-]].
    pose proof (quarantine_keeps rt job db) as Q.
    destruct (quarantine_invalid_sterile_resident_job rt job db) as [[] ?]; by intros [= <- <-].
Qed.

(** ** A fresh grant *)

Lemma placed_same job : placed_job job (job_payload job) (required_execution_class job) = job.
Proof. by destruct job. Qed.

Lemma enrich_unchanged db job cache payload class :
  (enrich_job_payload_with_provision_spec_cached db job cache).1 = Ok (false, payload, class) ->
  payload = job_payload job /\ class = required_execution_class job.
Proof.
  assert (forall e, apply_sandbox_placement job e = Ok (false, payload, class) ->
    payload = job_payload job /\ class = required_execution_class job) as Ha.
  { intros e. unfold apply_sandbox_placement. destruct (placement_matches_sandbox job e).
    - by intros [= <- <-].
    - destruct (add_provision_spec_to_payload_with_identity _ _ _ _ _ _) as [p|]; [|done].
      cbn [result_bind]. destruct (entry_lookup _ p) as [v|]; [|done].
      by destruct (provision_spec_from_value v). }
  unfold enrich_job_payload_with_provision_spec_cached.
  destruct (job_kind job); try (by intros [= <- <-]);
    (destruct (placement_sandbox_id job) as [id|]; [|done]);
    destruct (load_sandbox_placement_inputs db id cache) as [[e|] c]; try done; apply Ha.
Qed.

Lemma refresh_ok rt db0 cache job (db : Db World) job' db' :
  authoritatively_refresh_job_placement_cached rt
    (fun j => (enrich_job_payload_with_provision_spec_cached db0 j cache).1) job db = (Ok (true, job'), db') ->
  exists payload class, job' = placed_job job payload class /\
    (job_kind job <> JobKind.DeleteHome -> exists changed,
       (enrich_job_payload_with_provision_spec_cached db0 job cache).1 = Ok (changed, payload, class)).
Proof.
  unfold authoritatively_refresh_job_placement_cached. case_bool_decide as Ek.
  { intros [= <- <-]. exists (job_payload job), (required_execution_class job).
    by rewrite placed_same. }
  destruct (validate_authoritative_placement_reference job); cbn [result_bind];
    [|destruct (negb _); discriminate].
  destruct (enrich_job_payload_with_provision_spec_cached db0 job cache).1
    as [[[changed payload] class]|e] eqn:Ee; [|destruct (negb _); discriminate].
  intros E. exists payload, class. split; [|intros _; by exists changed].
  destruct changed; simpl in E.
  - unfold store_refreshed_placement in E. destruct (update_row _ _ _ _) as [u m]. by injection E.
  - injection E as <- <-. destruct (enrich_unchanged _ _ _ _ _ Ee) as [-> ->]. by rewrite placed_same.
Qed.

(** [lease] grants [job], with the placement the tables of [db] determine, to a
    worker and a request it fits. *)
Definition fresh_grant (db : Db World) (rt : Runtime) (ctx : TenantContext) (worker : Worker)
    (request : ClaimLeaseRequest) (job : Job) (lease : JobLease) : Prop :=
  exists payload class,
    lease = granted_lease rt worker (placed_job job payload class) (claim_lease_seconds request) /\
    job_fits worker request (placed_job job payload class) = true /\
    required_capability job ∈ capabilities worker /\
    (job_kind job = JobKind.RunResidentProcess ->
       (get_str payload "name" = Some ORB_SIDECAR_RESIDENT_PROCESS_NAME -> guest_sandbox_id ctx = None) /\
       (get_str payload "name" = Some ORB_EXECUTOR_RESIDENT_PROCESS_NAME ->
          is_Some (guest_sandbox_id ctx))) /\
    (job_kind job <> JobKind.DeleteHome -> exists id e,
       placement_sandbox_id job = Ok id /\ placement_inputs db id = Ok e /\
       class = sb_execution_class (pe_sandbox e) /\
       get_str payload "runtimeImage" = Some (sb_template (pe_sandbox e)) /\
       job_spec (placed_job job payload class) = Some (entry_spec job e)).

Lemma enrich_cache_ok db job cache :
  cache_ok db cache -> cache_ok db (enrich_job_payload_with_provision_spec_cached db job cache).2.
Proof.
  intros Hc. unfold enrich_job_payload_with_provision_spec_cached.
  destruct (job_kind job); try done; (destruct (placement_sandbox_id job) as [id|]; [|done]);
    unfold load_sandbox_placement_inputs; (destruct (cache !! id); [done|]);
    (destruct (placement_inputs db id) eqn:E; [|done]); by apply map_Forall_insert_2.
Qed.

Lemma gate_roles rt ctx worker guest_ok job db db' :
  resident_gate rt ctx worker guest_ok job db = (Ok true, db') ->
  job_kind job = JobKind.RunResidentProcess ->
  (get_str (job_payload job) "name" = Some ORB_SIDECAR_RESIDENT_PROCESS_NAME ->
     guest_sandbox_id ctx = None) /\
  (get_str (job_payload job) "name" = Some ORB_EXECUTOR_RESIDENT_PROCESS_NAME ->
     is_Some (guest_sandbox_id ctx)).
Proof.
  unfold resident_gate, resident_is_claimable. intros Hg Hk. rewrite bool_decide_eq_true_2 in Hg by done.
  destruct (_ ≫= sandbox_id_from_value) as [sb|]; [|done].
  destruct (exact_sterile_candidate_resident_job db job sb) as [pool exact].
  split; intros Hn; rewrite Hn in Hg; simpl in Hg; rewrite ?andb_false_r, ?andb_true_r in Hg;
    (destruct pool; [done|]); simpl in Hg; injection Hg as Hg _;
    destruct (guest_sandbox_id ctx); simpl in Hg; eauto; done.
Qed.
End ClaimProofs.

Section ClaimGrants.
Context `{UuidLib} `{SerdeLib} `{!SerdeLaws} `{ClaimSerdeLib} `{JobEffects World} `{!JobEffectsLaws World}.

Lemma claim_candidate_outcome rt ctx worker request op guest_ok job cache db r cache' db' :
  cache_ok db cache ->
  claim_candidate rt ctx worker request op guest_ok job cache db = (r, cache', db') ->
  match r with
  | Ok (Some lease) => fresh_grant db rt ctx worker request job lease
  | _ => keeps_inputs db db' /\ cache_ok db cache'
  end.
Proof.
  intros Hc. unfold claim_candidate.
  pose proof (terminalize_keeps rt job db) as K1.
  destruct (terminalize_invalid_sterile_resident_job_before_filtering rt job db) as [[[]|e] db1];
    simpl in K1; [by intros [= <- <- <-] | | by intros [= <- <- <-]].
  case_bool_decide as Ecap; cbn [negb]; [|by intros [= <- <- <-]].
  pose proof (proj2 (cache_ok_keeps _ _ cache K1) Hc) as Hc1.
  pose proof (proj1 (cache_ok_keeps _ _ _ K1) (enrich_cache_ok _ job _ Hc1)) as Hc2.
  pose proof (refresh_keeps rt (fun j => (enrich_job_payload_with_provision_spec_cached db1 j cache).1)
    job db1) as K2.
  destruct (authoritatively_refresh_job_placement_cached _ _ _ _) as [[[[] job']|e] db2] eqn:Er;
    simpl in K2; [| by intros [= <- <- <-]; split; [by etrans|] | by intros [= <- <- <-]; split; [by etrans|]].
  destruct (job_fits worker request job') eqn:Ef; cbn [negb];
    [|intros [= <- <- <-]; split; [by etrans | done]].
  pose proof (gate_keeps rt ctx worker guest_ok job' db2) as K3.
  destruct (resident_gate rt ctx worker guest_ok job' db2) as [[[]|e] db3] eqn:Eg; simpl in K3;
    [| by intros [= <- <- <-]; split; [do 2 (etrans; [done|]) |] | by intros [= <- <- <-]; split; [do 2 (etrans; [done|])|]].
  destruct (try_claim_job rt worker job' _ op db3) as [claimed db4] eqn:Et.
  apply try_claim_outcome in Et. intros [= <- <- <-].
  destruct claimed as [[lease|]|e]; [|split; [do 3 (etrans; [done|]); done | done]..].
  destruct Et as [-> _]. destruct (refresh_ok _ _ _ _ _ _ _ Er) as (payload & class & -> & Hp).
  exists payload, class. split; [done|]. split; [done|]. split; [done|].
  split; [intros Hk; exact (gate_roles _ _ _ _ _ _ _ Eg Hk)|].
  intros Hk. destruct (Hp Hk) as (changed & Hen).
  destruct (enrich_job_payload_with_provision_spec_cached db1 job cache) as [r1 c1] eqn:Een.
  simpl in Hen. subst r1.
  destruct (enrich_ok _ _ _ _ _ _ _ Hc1 Hk Een) as (id & e & Hid & Hin & Hcl & Hi & Hs & _).
  exists id, e. by rewrite <- (placement_inputs_keeps _ _ id K1).
Qed.

Lemma fresh_grant_keeps db db' rt ctx worker request job lease :
  keeps_inputs db db' -> fresh_grant db' rt ctx worker request job lease ->
  fresh_grant db rt ctx worker request job lease.
Proof.
  intros K (payload & class & Hl & Hf & Hcap & Hr & Hp). exists payload, class.
  split; [done|]. split; [done|]. split; [done|]. split; [done|]. intros Hk.
  destruct (Hp Hk) as (id & e & Hid & Hin & Hrest). exists id, e.
  by rewrite <- (placement_inputs_keeps _ _ id K).
Qed.

Lemma claim_pass_some rts ctx worker request op guest_ok candidates cache db lease db' :
  cache_ok db cache ->
  claim_pass rts ctx worker request op guest_ok candidates cache db = (Ok (Some lease), db') ->
  exists rt job, job ∈ candidates /\ fresh_grant db rt ctx worker request job lease.
Proof.
  revert cache db. induction candidates as [|job rest IH]; intros cache db Hc; simpl; [done|].
  destruct (claim_candidate _ _ _ _ _ _ _ _ _) as [[r cache1] db1] eqn:Ec.
  apply claim_candidate_outcome in Ec; [|done]. destruct r as [[lease1|]|e]; [| |done].
  - intros [= -> ->]. exists (rts (List.length rest)), job. split; [by left | done].
  - destruct Ec as [K Hc1]. intros Hp.
    apply IH in Hp as (rt & job1 & Hin & Hg); [|by apply cache_ok_keeps with db].
    exists rt, job1. split; [by right | by eapply fresh_grant_keeps].
Qed.

Lemma elem_of_claim_candidates worker request requested now db job :
  job ∈ claim_candidates worker request requested now db ->
  exists id row, jobs db !! id = Some row /\ row_job row = job /\
    is_candidate worker request requested now db row = true.
Proof.
  unfold claim_candidates. intros Hin%elem_of_take. destruct Hin as (i & Hin & _).
  apply list_elem_of_lookup_2 in Hin. rewrite merge_sort_Permutation in Hin.
  apply list_elem_of_fmap in Hin as (row & -> & Hin). apply list_elem_of_In, filter_In in Hin as [Hin Hc].
  apply list_elem_of_In, list_elem_of_fmap in Hin as ([id row'] & -> & Hin).
  apply elem_of_map_to_list in Hin. by exists id, row'.
Qed.

(** What the preamble established when it goes on to scan. *)
(** The identifier that a header carries, if it carries one. *)
Definition header_uuid (header : Header) : option Uuid :=
  match header with Some (Some text) => uuid_parse_str text | _ => None end.

Lemma uuid_header_ok invalid not_uuid header u :
  uuid_header invalid not_uuid header = Ok u -> u = header_uuid header.
Proof. destruct header as [[text|]|]; simpl; [|done|congruence]. destruct (uuid_parse_str text); congruence. Qed.

Lemma preamble_scans ctx call db worker operation job :
  claim_preamble ctx call db = Ok (inr (worker, operation, job)) ->
  ctx_worker_id ctx = Some (call_worker_id call) /\
  guest_request_is_scoped ctx (call_request call) = true /\
  ensure_worker_tenant db (call_worker_id call) ctx = Ok worker /\ job = header_uuid (call_job_id call).
Proof.
  unfold claim_preamble. intros (u & Hs & Hp)%bind_ok. apply ensure_worker_scope_spec in Hs.
  destruct (guest_request_is_scoped ctx (call_request call)); [|done]. cbn [negb] in Hp.
  apply bind_ok in Hp as (w & Hw & Hp). apply bind_ok in Hp as (op & _ & Hp).
  apply bind_ok in Hp as (j & Hj%uuid_header_ok & Hp). apply bind_ok in Hp as (rp & _ & Hp).
  destruct rp as [l|]; [by apply bind_ok in Hp as (? & _ & ?)|].
  destruct (capabilities w) eqn:Ecap; [done|]. apply bind_ok in Hp as (n & _ & Hp).
  destruct (_ <=? _)%Z; [done|]. assert (w = worker /\ j = job) as [-> ->] by
    (destruct (claim_kinds (call_request call)) as [[]|]; split; congruence). done.
Qed.

Lemma preamble_replays ctx call db lease :
  claim_preamble ctx call db = Ok (inl (Some lease)) ->
  exists op id at_, header_uuid (call_idempotency_key call) = Some op /\
    lease_claim_operations db !! (call_worker_id call, op) = Some (id, at_) /\
    ensure_lease_worker_scope db id ctx = Ok lease /\ ctx_worker_id ctx = Some (call_worker_id call).
Proof.
  unfold claim_preamble. intros (u & Hs & Hp)%bind_ok. apply ensure_worker_scope_spec in Hs.
  destruct (guest_request_is_scoped ctx (call_request call)); [|done]. cbn [negb] in Hp.
  apply bind_ok in Hp as (w & Hw & Hp). apply bind_ok in Hp as (op & Hop%uuid_header_ok & Hp).
  apply bind_ok in Hp as (j & _ & Hp). apply bind_ok in Hp as (rp & Hrp & Hp).
  destruct rp as [l|].
  - destruct op as [op|]; [|done]. unfold fetch_claim_operation in Hrp.
    destruct (lease_claim_operations db !! _) as [[id at_]|] eqn:Eo; [|done].
    apply bind_ok in Hrp as (l1 & Hf & [= <-]). apply bind_ok in Hp as (l2 & Hscope & [= <-]).
    exists op, id, at_. split_and!; try done.
    assert (lease_id l1 = id) as <-; [|done]. unfold fetch_lease, lease_with_job in Hf.
    destruct (job_leases db !! id) as [lr|]; [|done]. simpl in Hf.
    destruct (jobs db !! lr_job_id lr); [|done]. by injection Hf as <-.
  - destruct (capabilities w); [done|]. apply bind_ok in Hp as (n & _ & Hp).
    destruct (_ <=? _)%Z; [done|]. by destruct (claim_kinds (call_request call)) as [[]|].
Qed.

Definition workers_keyed (db : Db World) : Prop :=
  forall id row, workers db !! id = Some row -> worker_id (row_worker row) = id.

(** The job that the scan of a call found: queued and due, of the worker's
    tenant, capability and class, where the worker may run it, and the job,
    sandbox and kinds that the call asked for. *)
Record was_asked_for (now : Z) (db : Db World) (worker : Worker) (call : ClaimCall) (job : Job) : Prop := {
  wa_queued : job_status job = JobStatus.Queued;
  wa_due : (scheduled_at job <= now)%Z;
  wa_tenant : job_tenant_id job = worker_tenant_id worker;
  wa_capability : required_capability job ∈ capabilities worker;
  wa_class : required_execution_class job ∈ worker_execution_classes (capabilities worker);
  wa_job : forall u, header_uuid (call_job_id call) = Some u -> job_id job = u;
  wa_kinds : forall kinds, claim_kinds (call_request call) = Some kinds -> job_kind job ∈ kinds;
  wa_row : exists id row, jobs db !! id = Some row /\ row_job row = job /\
    placement_admits worker db row = true /\
    (forall s, claim_sandbox_id (call_request call) = Some s -> references_sandbox s row = true)
}.

Lemma candidate_asked_for now db worker call id row :
  jobs db !! id = Some row ->
  is_candidate worker (call_request call) (header_uuid (call_job_id call)) now db row = true ->
  was_asked_for now db worker call (row_job row).
Proof.
  intros Hrow. unfold is_candidate. rewrite !andb_true_iff.
  intros ((((((((Ht & Hq) & Hd) & Hc) & Hx) & Hp) & Hj) & Hs) & Hk).
  apply String.eqb_eq in Ht. apply bool_decide_eq_true in Hq, Hc, Hx. apply Z.leb_le in Hd.
  constructor; try done.
  - intros u Hu. rewrite Hu in Hj. by apply bool_decide_eq_true in Hj.
  - intros kinds Hkinds. rewrite Hkinds in Hk. by apply bool_decide_eq_true in Hk.
  - exists id, row. split_and!; [done..|]. intros s Hsb. by rewrite Hsb in Hs.
Qed.

Lemma guest_filters ctx request worker job sb :
  guest_request_is_scoped ctx request = true -> guest_sandbox_id ctx = Some sb ->
  job_fits worker request job = true ->
  is_guest_executable (job_kind job) = true /\ job_matches_sandbox job sb = true.
Proof.
  unfold guest_request_is_scoped, job_fits. intros Hs Hg Hf. rewrite Hg in Hs.
  apply andb_true_iff in Hs as [Hsb%bool_decide_eq_true Hk]. rewrite Hsb in Hf.
  destruct (claim_kinds request) as [kinds|]; [|done].
  apply andb_true_iff in Hf as [Hf Hkind%bool_decide_eq_true]. apply andb_true_iff in Hf as [_ Hm].
  split; [|done]. destruct kinds as [|k kinds]; [done|].
  rewrite forallb_forall in Hk. by apply Hk, list_elem_of_In.
Qed.

(** C4. Claims are eligible.  A lease that a claim returns is the caller's: its
    worker is the caller, its job of the caller's tenant, and for a guest the job
    is guest-executable and of the guest's own sandbox.  It is a replay, of the
    lease recorded for this worker under the idempotency key of the request, and
    then nothing is written; or it is fresh.  A fresh one is for a job that was
    queued and due, that the job header, the sandbox and the kinds of the request
    select, that the worker has the capability for and that fits the worker's
    provider, profile, execution class, secret delivery and memory, and whose
    provision spec is the one the tables determine; a guest is never granted a
    sidecar, nor a worker an executor. *)
Theorem claims_are_eligible now rts ctx call db lease db' :
  workers_keyed db ->
  claim_once now rts ctx call db = (Ok (Answered (Some lease)), db') ->
  lease_worker_id lease = call_worker_id call /\
  job_tenant_id (lease_job lease) = ctx_tenant_id ctx /\
  (forall sb, guest_sandbox_id ctx = Some sb ->
     is_guest_executable (job_kind (lease_job lease)) = true /\
     job_matches_sandbox (lease_job lease) sb = true) /\
  ((db' = db /\ exists op id at_, header_uuid (call_idempotency_key call) = Some op /\
      lease_claim_operations db !! (call_worker_id call, op) = Some (id, at_) /\
      fetch_lease db id = Ok lease) \/
   (exists rt worker job, ensure_worker_tenant db (call_worker_id call) ctx = Ok worker /\
      was_asked_for now db worker call job /\
      fresh_grant db rt ctx worker (call_request call) job lease)).
Proof.
  intros Hkeyed. unfold claim_once. destruct (claim_preamble ctx call db) as [[answer|[[worker op] j]]|e] eqn:Ep;
    [| |done].
  - intros [= -> ->]. apply preamble_replays in Ep as (op & id & at_ & Hkey & Ho & Hs & Hw).
    apply lease_scope_spec in Hs as (Hf & Ht & Hw' & Hg & _).
    split; [congruence|]. split; [done|]. split; [done|]. left. split; [done|]. by exists op, id, at_.
  - destruct (claim_pass _ _ _ _ _ _ _ _ _) as [[[l|]|e] db1] eqn:Epass; [|done..]. intros [= -> ->].
    apply preamble_scans in Ep as (Hw & Hg & Hwt & ->). pose proof Hwt as Hwt'.
    unfold ensure_worker_tenant in Hwt'. destruct (workers db !! call_worker_id call) as [row|] eqn:Er; [|done].
    apply bind_ok in Hwt' as (u & Ht%ensure_tenant_spec & [= <-]).
    apply claim_pass_some in Epass as (rt & job & Hin & Hfresh); [|by intros ? ? ?].
    apply elem_of_claim_candidates in Hin as (jid & jrow & Hj & <- & Hcand).
    pose proof Hfresh as (payload & class & -> & Hfits & _). split; [exact (Hkeyed _ _ Er)|].
    split; [|split].
    + cbn. rewrite <- Ht. unfold is_candidate in Hcand. do 8 apply andb_true_iff in Hcand as [Hcand _].
      by apply String.eqb_eq.
    + intros sb Hsb. exact (guest_filters _ _ _ _ _ Hg Hsb Hfits).
    + right. exists rt, (row_worker row), (row_job jrow). split; [done|]. split; [|done].
      by eapply candidate_asked_for.
Qed.

(** ** The long poll ends *)

Lemma claim_poll_ends n turn env deadline ctx worker call db :
  sleeps_long_enough env deadline ->
  (deadline - poll_clock env turn <= CLAIM_WAIT_SLICE_MS * Z.of_nat n)%Z ->
  is_Some (claim_poll (S n) turn env deadline ctx worker call db).
Proof.
  intros [Hstart Hsleep]. revert turn db. induction n as [|n IH]; intros turn db Hle.
  - simpl. destruct (Z.leb_spec (deadline - poll_clock env turn) 0); [by eexists | lia].
  - cbn [claim_poll]. destruct (Z.leb_spec (deadline - poll_clock env turn) 0); [by eexists|].
    assert (deadline - poll_clock env (S turn) <= CLAIM_WAIT_SLICE_MS * Z.of_nat n)%Z as Hnext.
    { specialize (Hsleep turn). unfold CLAIM_WAIT_SLICE_MS in *. lia. }
    destruct (read_tx _ _) as [active|]; [|by eexists].
    destruct (_ <=? _)%Z; [by apply IH|].
    destruct (claim_once _ _ _ _ _) as [[[[l|]|]|e] db1]; try (by eexists); by apply IH.
Qed.

(** The turns a long poll can take. *)
Definition MAX_POLL_TURNS : nat := 101.

(** A claim ends.  Whatever other requests do meanwhile, a claim returns
    within a hundred turns of sleeping and retrying, as long as the clock does
    not run backward and sleeping takes at least the time asked for. *)
Theorem claim_terminates now rts env ctx call db :
  sleeps_long_enough env (poll_start env + effective_wait_ms (call_request call)) ->
  is_Some (claim_lease MAX_POLL_TURNS now rts env ctx call db).
Proof.
  intros Hs. unfold claim_lease. destruct (claim_once now rts ctx call db) as [[[l|]|e] db1];
    try (by eexists). destruct (_ =? _)%Z; [by eexists|].
  destruct (ensure_worker_tenant _ _ _) as [worker|]; [|by eexists].
  apply (claim_poll_ends 100); [done|]. destruct Hs as [Hstart _].
  unfold effective_wait_ms, MAX_CLAIM_WAIT_MS, CLAIM_WAIT_SLICE_MS in *. lia.
Qed.
End ClaimGrants.

(** ** Every statement of a pass is a scheduler step *)

Section ClaimRefines.
Context `{UuidLib} `{SerdeLib} `{ClaimSerdeLib} `{JobEffects World} `{!JobEffectsLaws World}.

(** Any worker row may claim. *)
Definition every_worker (w : Worker) : Prop := True.

Abbreviation steps db sn db' := (rtc (sched_step every_worker) (mkSys db sn) (mkSys db' sn)).

Lemma step_one (db db' : Db World) sn : sched_step every_worker (mkSys db sn) (mkSys db' sn) -> steps db sn db'.
Proof. apply rtc_once. Qed.

Lemma terminalize_steps rt job (db : Db World) sn :
  steps db sn (terminalize_invalid_sterile_resident_job_before_filtering rt job db).2.
Proof. apply step_one, (st_terminalize every_worker (mkSys db sn)). Qed.

Lemma refresh_steps rt enrich job (db : Db World) sn :
  steps db sn (authoritatively_refresh_job_placement_cached rt enrich job db).2.
Proof.
  unfold authoritatively_refresh_job_placement_cached. case_bool_decide; [done|].
  destruct (result_bind _ _) as [[[changed payload] class]|e].
  - destruct changed; simpl; [|done].
    pose proof (st_placement every_worker (mkSys db sn) (job_id job) payload class (utc_now rt)) as S.
    destruct (store_refreshed_placement _ _ _ _ _). by apply step_one.
  - destruct (negb _); simpl; [done|]. apply step_one.
    by apply (st_retire_queued every_worker (mkSys db sn)).
Qed.

Lemma gate_steps rt ctx worker guest_ok job db sn :
  steps db sn (resident_gate rt ctx worker guest_ok job db).2.
Proof.
  unfold resident_gate, resident_is_claimable. case_bool_decide; [|done].
  destruct (_ ≫= _) as [sb|]; [|done].
  destruct (exact_sterile_candidate_resident_job db job sb) as [pool exact].
  destruct (_ && _ && _); [|by destruct (_ && _)].
  pose proof (terminalize_steps rt job db sn) as T.
  by destruct (terminalize_invalid_sterile_resident_job_before_filtering rt job db) as [[]].
Qed.

Lemma claim_candidate_steps rt ctx worker request op guest_ok job cache db sn :
  job ∈ sn -> steps db sn (claim_candidate rt ctx worker request op guest_ok job cache db).2.
Proof.
  intros Hin. unfold claim_candidate. pose proof (terminalize_steps rt job db sn) as T.
  destruct (terminalize_invalid_sterile_resident_job_before_filtering rt job db) as [[[]|e] db1];
    simpl in T; [done| |done].
  case_bool_decide; simpl; [|done].
  pose proof (refresh_steps rt (fun j => (enrich_job_payload_with_provision_spec_cached db1 j cache).1)
    job db1 sn) as R.
  destruct (authoritatively_refresh_job_placement_cached _ _ _ _) as [[[[] job']|e] db2] eqn:Er;
    simpl in R; [|by etrans..].
  destruct (job_fits worker request job'); simpl; [|by etrans].
  pose proof (gate_steps rt ctx worker guest_ok job' db2 sn) as G.
  destruct (resident_gate rt ctx worker guest_ok job' db2) as [[[]|e] db3]; simpl in G;
    [| by do 2 (etrans; [done|]) ..].
  pose proof (st_claim every_worker (mkSys db3 sn) rt worker job job' (claim_lease_seconds request) op) as C.
  destruct (try_claim_job rt worker job' _ op db3) as [claimed db4] eqn:Et.
  cbn [tables] in C. rewrite Et in C. simpl in *.
  do 3 (etrans; [done|]). apply step_one, C; [done| |done].
  destruct (refresh_ok _ _ _ _ _ _ _ Er) as (payload & class & -> & _). done.
Qed.

Lemma claim_pass_steps rts ctx worker request op guest_ok candidates cache db sn :
  (forall job, job ∈ candidates -> job ∈ sn) ->
  steps db sn (claim_pass rts ctx worker request op guest_ok candidates cache db).2.
Proof.
  revert cache db. induction candidates as [|job rest IH]; intros cache db Hin; simpl; [done|].
  pose proof (claim_candidate_steps (rts (List.length rest)) ctx worker request op guest_ok job cache db sn
    (Hin job ltac:(by left))) as C.
  destruct (claim_candidate _ _ _ _ _ _ _ _ _) as [[[[l|]|e] cache1] db1]; simpl in *; [done| |done].
  etrans; [done|]. apply IH. intros j Hj. apply Hin. by right.
Qed.

(** Reading the candidates is reading rows the scheduler may scan. *)
Lemma scan_steps (db : Db World) sn candidates :
  (forall job, job ∈ candidates -> exists id row, jobs db !! id = Some row /\ row_job row = job /\
     is_queued row = true) ->
  rtc (sched_step every_worker) (mkSys db sn) (mkSys db (candidates ++ sn)).
Proof.
  induction candidates as [|job rest IH]; intros Hall; simpl; [done|].
  etrans; [apply IH; intros j Hj; apply Hall; by right|]. apply rtc_once.
  destruct (Hall job ltac:(by left)) as (id & row & Hrow & <- & Hq).
  by apply (st_scan every_worker (mkSys db (rest ++ sn)) id row).
Qed.

(** The claim handler is scheduled.  Whatever a claim answers, what it did to
    the tables is a sequence of scheduler steps: scans of queued rows, at most
    one grant, terminalized or retired queued jobs and repaired placements.  So
    from a state the scheduler reaches it leads to one the scheduler reaches,
    with all that holds there. *)
Theorem claim_is_scheduled now rts ctx call (db : Db World) sn :
  reachable every_worker (mkSys db sn) ->
  exists sn', rtc (sched_step every_worker) (mkSys db sn) (mkSys (claim_once now rts ctx call db).2 sn') /\
    reachable every_worker (mkSys (claim_once now rts ctx call db).2 sn').
Proof.
  intros (s0 & Hi & Hr).
  assert (exists sn', rtc (sched_step every_worker) (mkSys db sn)
            (mkSys (claim_once now rts ctx call db).2 sn')) as (sn' & Hsteps).
  { unfold claim_once. destruct (claim_preamble ctx call db) as [[answer|[[worker op] j]]|e];
      [by exists sn | | by exists sn].
    set (candidates := claim_candidates _ _ _ _ _). exists (candidates ++ sn).
    pose proof (claim_pass_steps rts ctx worker (call_request call) op (guest_is_capable ctx db)
      candidates ∅ db (candidates ++ sn) ltac:(intros job ?; by apply elem_of_app; left)) as P.
    destruct (claim_pass _ _ _ _ _ _ _ _ _) as [[[l|]|e] db1]; simpl in *;
      (etrans; [|exact P]); apply scan_steps; intros job Hin;
      apply elem_of_claim_candidates in Hin as (id & row & Hrow & Hjob & Hc);
      exists id, row; split_and!; try done; unfold is_candidate in Hc;
      do 7 apply andb_true_iff in Hc as [Hc _]; by apply andb_true_iff in Hc as [_ Hc]. }
  exists sn'. split; [done|]. exists s0. split; [done|]. by etrans.
Qed.

(** ** A malformed activation *)

(** A malformed activation stops the queue.  A resident job whose payload
    has a sterile activation but no process identifier, when it is the first
    candidate of a claim, turns the claim into an error and leaves the tables as
    they are; so every claim that meets it fails the same way, however many
    claimable jobs stand behind it. *)
Theorem malformed_activation_stops_claims now rts ctx call (db : Db World) worker operation requested job rest :
  claim_preamble ctx call db = Ok (inr (worker, operation, requested)) ->
  claim_candidates worker (call_request call) requested now db = job :: rest ->
  job_kind job = JobKind.RunResidentProcess ->
  is_some (get (job_payload job) "sterileActivation") = true ->
  get_str (job_payload job) "residentProcessId" = None ->
  claim_once now rts ctx call db = (Err (bad_request "residentProcessId is required"), db).
Proof.
  intros Hp Hc Hk Ha Hid. unfold claim_once. rewrite Hp, Hc. cbn [claim_pass]. unfold claim_candidate.
  unfold terminalize_invalid_sterile_resident_job_before_filtering.
  rewrite bool_decide_eq_true_2 by done. cbn [negb orb].
  destruct (get (job_payload job) "sterileActivation") eqn:Eg; [|done]. cbn [is_none].
  unfold recheck_sterile_resident_activation_on_connection. rewrite bool_decide_eq_true_2 by done.
  cbn [negb]. unfold tx_bind, tx_lift, resident_process_id_from_job. by rewrite Hid.
Qed.
End ClaimRefines.
