(* ===== verification/Provisioning.v ===== *)
(** * Provisioning progress

    [update_provisioning_stage_in_transaction] of [handlers/leases.rs]: the
    worker that holds the lease of a [provision_sandbox] job reports the stage
    it has reached and the provider resource it has observed there.  One row
    of [provisioning_operations] per sandbox keeps the progress, the rows of
    [provisioning_operation_resources] the identities observed at each stage
    and [provisioning_stage_observations] the first report of each stage by
    each lease.

    Reports are fenced by the lease: its attempt number orders the retries of
    a job, and a job can take the row over from another one only when that
    one's lease has ended.  The theorems say what every accepted report did
    to the row, when an observed identity can change, and that a report can be
    repeated. *)

From S2P Require Import Prelude CoreTypes Json Store Leases SandboxLifecycle World.

(** ** Data: [sandboxwich-core/src/lib.rs] *)

Definition ordinal (stage : ProvisioningStage) : Z :=
  match stage with
  | ProvisioningStage.WorkspacePlanned => 0
  | ProvisioningStage.WorkspaceReady => 1
  | ProvisioningStage.NetworkPolicyReady => 2
  | ProvisioningStage.CredentialsReady => 3
  | ProvisioningStage.PodReady => 4
  | ProvisioningStage.ServiceReady => 5
  | ProvisioningStage.SandboxReady => 6
  end.

Record ProvisioningStageUpdateRequest : Type := mkStageUpdateRequest {
  up_stage : ProvisioningStage;
  up_resource_kind : option RuntimeResourceKind;
  up_resource_namespace : option string;
  up_resource_name : option string;
  up_resource_uid : option string;
  up_observed_generation : option Z;
  up_attempt_count : Z;
  up_last_error_class : option ProvisioningErrorClass;
  up_last_error_code : option string;
  up_last_error : option string
}.

Record ProvisioningOperation : Type := mkProvisioningOperation {
  op_sandbox_id : Uuid;
  op_lease_id : Uuid;
  op_lease_attempt : Z;
  op_stage : ProvisioningStage;
  op_resource_kind : option RuntimeResourceKind;
  op_resource_namespace : option string;
  op_resource_name : option string;
  op_resource_uid : option string;
  op_observed_generation : option Z;
  op_attempt_count : Z;
  op_last_error_class : option ProvisioningErrorClass;
  op_last_error_code : option string;
  op_last_error : option string;
  op_updated_at : Z
}.

(** The four parts of a resource's identity, when the request names one. *)
Record ResourceIdentity : Type := mkResourceIdentity {
  ri_kind : RuntimeResourceKind;
  ri_namespace : string;
  ri_name : string;
  ri_uid : string
}.

Definition resource_identity (request : ProvisioningStageUpdateRequest) : option ResourceIdentity :=
  match up_resource_kind request, up_resource_namespace request, up_resource_name request,
        up_resource_uid request with
  | Some kind, Some namespace, Some name, Some uid =>
      Some (mkResourceIdentity kind namespace name uid)
  | _, _, _, _ => None
  end.

(** ** The checks before the transaction *)

Definition identity_field_count (request : ProvisioningStageUpdateRequest) : nat :=
  List.length (List.filter id
    [is_some (up_resource_kind request); is_some (up_resource_namespace request);
     is_some (up_resource_name request); is_some (up_resource_uid request)]).

Definition validate_stage_update (request : ProvisioningStageUpdateRequest) :
    result unit ApiError :=
  if (up_attempt_count request <? 1)%Z then Err (bad_request "attempt_count must be positive")
  else if match up_last_error request with
          | Some error => (2048 <? Z.of_nat (String.length error))%Z
          | None => false
          end
  then Err (bad_request "last_error must not exceed 2048 bytes")
  else if negb (identity_field_count request =? 0)%nat && negb (identity_field_count request =? 4)%nat
  then Err (bad_request "resource identity requires kind, namespace, name, and uid")
  else Ok tt.

(** ** Reading *)

Definition operation_fenced (message : string) : ApiError :=
  conflict_code "provisioning_operation_fenced" message.

Definition provisioning_operation_from_row (sandbox_id : Uuid) (row : ProvisioningOperationRow) :
    result ProvisioningOperation ApiError :=
  match parse_db_str (po_stage row) with
  | Err _ => Err (internal "invalid ProvisioningStage in the database")
  | Ok stage =>
      Ok (mkProvisioningOperation sandbox_id (po_lease_id row) (po_lease_attempt row) stage
            (po_resource_kind row) (po_resource_namespace row) (po_resource_name row)
            (po_resource_uid row) (po_observed_generation row) (po_attempt_count row)
            (po_last_error_class row) (po_last_error_code row) (po_last_error row)
            (po_updated_at row))
  end.

(** [where sandbox_id = .. and stage = .. and resource_kind = .. and
    resource_namespace = .. and resource_name = ..]: the primary key. *)
Definition is_stage_resource (sandbox_id : Uuid) (stage : ProvisioningStage)
    (ri : ResourceIdentity) (r : StageResourceRow) : bool :=
  bool_decide (str_sandbox_id r = sandbox_id) && bool_decide (str_stage r = as_db_str stage)
  && bool_decide (str_resource_kind r = ri_kind ri)
  && bool_decide (str_resource_namespace r = ri_namespace ri)
  && bool_decide (str_resource_name r = ri_name ri).

Definition stage_resource (w : World) (sandbox_id : Uuid) (stage : ProvisioningStage)
    (ri : ResourceIdentity) : option StageResourceRow :=
  find (is_stage_resource sandbox_id stage ri) (provisioning_operation_resources w).

(** [stored_uid != resource_uid || stored_generation != request.observed_generation]. *)
Definition identity_differs (request : ProvisioningStageUpdateRequest) (ri : ResourceIdentity)
    (r : StageResourceRow) : bool :=
  negb (bool_decide (str_resource_uid r = ri_uid ri))
  || negb (bool_decide (str_observed_generation r = up_observed_generation request)).

(** [status = 'active' and expires_at > now]. *)
Definition lease_is_live (now : Z) (l : LeaseRow) : bool :=
  is_active l && (now <? lr_expires_at l)%Z.

(** [select 1 from job_leases where id = .. and status = 'active' and
    attempt = .. and expires_at > ..]. *)
Definition holds_live_lease (leases : gmap Uuid LeaseRow) (id : Uuid) (attempt now : Z) : bool :=
  match leases !! id with
  | Some l => lease_is_live now l && (lr_attempt l =? attempt)%Z
  | None => false
  end.

(** ** The decision on the existing row *)

Inductive StageDecision : Type :=
| AlreadyRecorded (op : ProvisioningOperation)
| RecordStage (replace_existing_operation rotate_resource_identity : bool).

Section Provisioning.
Context `{UuidLib}.

(** The first half: may this lease speak for the row?  [true] when another
    job's row is to be replaced. *)
Definition check_ownership (now : Z) (lease : JobLease) (row : ProvisioningOperationRow)
    (existing : LeaseRow) : result bool ApiError :=
  if bool_decide (po_lease_id row = lease_id lease) then Ok false
  else if lease_is_live now existing
  then Err (operation_fenced "another active lease owns this provisioning operation")
  else if bool_decide (lr_job_id existing = job_id (lease_job lease))
  then if (lease_attempt lease <=? po_lease_attempt row)%Z
       then Err (operation_fenced "retry takeover requires a strictly newer lease attempt")
       else Ok false
  else Ok true.

(** [lease.attempt == existing_attempt && request.stage.ordinal() ==
    existing_stage_index]. *)
Definition same_position (lease : JobLease) (request : ProvisioningStageUpdateRequest)
    (row : ProvisioningOperationRow) : bool :=
  (lease_attempt lease =? po_lease_attempt row)%Z
  && (ordinal (up_stage request) =? po_stage_index row)%Z.

(** The second half, for a row that is kept. *)
Definition check_progress (lease : JobLease) (sandbox_id : Uuid)
    (request : ProvisioningStageUpdateRequest) (w : World) (row : ProvisioningOperationRow) :
    result StageDecision ApiError :=
  if (lease_attempt lease <? po_lease_attempt row)%Z
  then Err (operation_fenced "a newer lease attempt owns this provisioning operation")
  else if (lease_attempt lease =? po_lease_attempt row)%Z
          && (ordinal (up_stage request) <? po_stage_index row)%Z
  then Err (conflict_code "provisioning_stage_regression"
              "provisioning stage cannot move backward")
  else
    match resource_identity request with
    | Some ri =>
        match stage_resource w sandbox_id (up_stage request) ri with
        | Some stored =>
            let differs := identity_differs request ri stored in
            if differs && (lease_attempt lease <=? po_lease_attempt row)%Z
            then Err (conflict_code "provisioning_resource_identity_conflict"
                        "durable resource identity cannot change within a stage")
            else if same_position lease request row
            then let? op := provisioning_operation_from_row sandbox_id row in
                 Ok (AlreadyRecorded op)
            else Ok (RecordStage false differs)
        | None => Ok (RecordStage false false)
        end
    | None =>
        if same_position lease request row
           && bool_decide (po_last_error_class row = up_last_error_class request)
           && bool_decide (po_last_error_code row = up_last_error_code request)
           && bool_decide (po_last_error row = up_last_error request)
        then let? op := provisioning_operation_from_row sandbox_id row in
             Ok (AlreadyRecorded op)
        else Ok (RecordStage false false)
    end.

Definition check_existing (now : Z) (lease : JobLease) (sandbox_id : Uuid)
    (request : ProvisioningStageUpdateRequest) (db : Db World) : result StageDecision ApiError :=
  match provisioning_operations (world db) !! sandbox_id with
  | None => Ok (RecordStage false false)
  | Some row =>
      match job_leases db !! po_lease_id row with
      | None => Err row_not_found
      | Some existing =>
          let? replace := check_ownership now lease row existing in
          if replace : bool then Ok (RecordStage true false)
          else check_progress lease sandbox_id request (world db) row
      end
  end.

(** ** Writing *)

(** [delete from provisioning_operations where sandbox_id = .. and not exists
    (a live lease of the row)]; the resources of the row go with it. *)
Definition delete_operation (sandbox_id : Uuid) (now : Z) : Tx World unit :=
  let! db := tx_get in
  let w := world db in
  let deletable :=
    match provisioning_operations w !! sandbox_id with
    | Some row =>
        match job_leases db !! po_lease_id row with
        | Some l => negb (lease_is_live now l)
        | None => true
        end
    | None => false
    end in
  check! deletable
    else operation_fenced "another active lease owns this provisioning operation" in
  modify_world (fun w =>
    set_provisioning_operation_resources
      (List.filter (fun r => negb (bool_decide (str_sandbox_id r = sandbox_id)))
         (provisioning_operation_resources w))
      (set_provisioning_operations (delete sandbox_id (provisioning_operations w)) w)).

Definition requested_operation (now : Z) (lease : JobLease)
    (request : ProvisioningStageUpdateRequest) : ProvisioningOperationRow :=
  mkProvisioningOperationRow (lease_id lease) (lease_attempt lease) (as_db_str (up_stage request))
    (ordinal (up_stage request)) (up_resource_kind request) (up_resource_namespace request)
    (up_resource_name request) (up_resource_uid request) (up_observed_generation request)
    (up_attempt_count request) (up_last_error_class request) (up_last_error_code request)
    (up_last_error request) now.

(** The [case] expressions of [on conflict (sandbox_id) do update]. *)
Definition merge_operation (old excluded : ProvisioningOperationRow) : ProvisioningOperationRow :=
  let keep {A} (column : ProvisioningOperationRow -> A) : A :=
    if (po_stage_index old <=? po_stage_index excluded)%Z then column excluded else column old in
  mkProvisioningOperationRow (keep po_lease_id) (keep po_lease_attempt)
    (if (po_stage_index old <? po_stage_index excluded)%Z then po_stage excluded else po_stage old)
    (if (po_stage_index old <? po_stage_index excluded)%Z then po_stage_index excluded
     else po_stage_index old)
    (keep po_resource_kind) (keep po_resource_namespace) (keep po_resource_name)
    (keep po_resource_uid) (keep po_observed_generation) (keep po_attempt_count)
    (keep po_last_error_class) (keep po_last_error_code) (keep po_last_error) (keep po_updated_at).

(** [where lease_attempt < excluded.lease_attempt or (.. = .. and stage_index
    <= excluded.stage_index)]. *)
Definition may_merge (old excluded : ProvisioningOperationRow) : bool :=
  (po_lease_attempt old <? po_lease_attempt excluded)%Z
  || ((po_lease_attempt old =? po_lease_attempt excluded)%Z
      && (po_stage_index old <=? po_stage_index excluded)%Z).

Definition upsert_operation (sandbox_id : Uuid) (lease : JobLease) (now : Z)
    (request : ProvisioningStageUpdateRequest) : Tx World unit :=
  let! db := tx_get in
  let excluded := requested_operation now lease request in
  let existing := provisioning_operations (world db) !! sandbox_id in
  check! holds_live_lease (job_leases db) (lease_id lease) (lease_attempt lease) now
         && match existing with Some old => may_merge old excluded | None => true end
    else operation_fenced "provisioning operation changed concurrently" in
  modify_world (fun w =>
    set_provisioning_operations
      (<[sandbox_id := match existing with
                       | Some old => merge_operation old excluded
                       | None => excluded
                       end]> (provisioning_operations w)) w).

(** [insert into provisioning_stage_observations .. on conflict (lease_id,
    stage) do update set error_class = .. where excluded.error_class is not
    null]. *)
Definition observe (sandbox_id : Uuid) (lease : JobLease) (now : Z)
    (request : ProvisioningStageUpdateRequest)
    (m : gmap (Uuid * string) StageObservationRow) : gmap (Uuid * string) StageObservationRow :=
  let job := lease_job lease in
  let key := (lease_id lease, as_db_str (up_stage request)) in
  let workspace_mode :=
    default "persistent" ((get (job_payload job) "provisionSpec")
                            ≫= (fun spec => get_str spec "workspace_mode")) in
  match m !! key with
  | None =>
      <[key := mkStageObservationRow sandbox_id (job_tenant_id job) workspace_mode
                 (ordinal (up_stage request)) (lease_attempt lease)
                 (up_last_error_class request) (scheduled_at job) now]> m
  | Some o =>
      match up_last_error_class request with
      | None => m
      | Some class =>
          <[key := mkStageObservationRow (so_sandbox_id o) (so_tenant_id o) (so_workspace_mode o)
                     (so_stage_index o) (so_lease_attempt o) (Some class) (so_started_at o)
                     (so_observed_at o)]> m
      end
  end.

Definition observe_stage (sandbox_id : Uuid) (lease : JobLease) (now : Z)
    (request : ProvisioningStageUpdateRequest) : Tx World unit :=
  modify_world (fun w =>
    set_provisioning_stage_observations
      (observe sandbox_id lease now request (provisioning_stage_observations w)) w).

Definition resource_set_identity (request : ProvisioningStageUpdateRequest)
    (ri : ResourceIdentity) (now : Z) (r : StageResourceRow) : StageResourceRow :=
  mkStageResourceRow (str_sandbox_id r) (str_stage r) (str_resource_kind r)
    (str_resource_namespace r) (str_resource_name r) (ri_uid ri)
    (up_observed_generation request) now.

(** The insert of the observed identity, [on conflict do update] when the
    identity is to be rotated and [do nothing] otherwise, and the read that
    verifies it. *)
Definition store_resource (sandbox_id : Uuid) (now : Z) (rotate : bool)
    (request : ProvisioningStageUpdateRequest) (ri : ResourceIdentity) : Tx World unit :=
  let stage := up_stage request in
  let! _ := modify_world (fun w =>
    set_provisioning_operation_resources
      (match stage_resource w sandbox_id stage ri with
       | None =>
           provisioning_operation_resources w ++
             [mkStageResourceRow sandbox_id (as_db_str stage) (ri_kind ri) (ri_namespace ri)
                (ri_name ri) (ri_uid ri) (up_observed_generation request) now]
       | Some _ =>
           if rotate
           then (fun r => if is_stage_resource sandbox_id stage ri r
                          then resource_set_identity request ri now r else r)
                  <$> provisioning_operation_resources w
           else provisioning_operation_resources w
       end) w) in
  let! w := get_world in
  match stage_resource w sandbox_id stage ri with
  | None => tx_throw row_not_found
  | Some stored =>
      check! negb (identity_differs request ri stored)
        else conflict_code "provisioning_resource_identity_conflict"
               "durable resource identity changed concurrently" in
      tx_ret tt
  end.

(** ** The transaction *)

Definition record_stage (sandbox_id : Uuid) (lease : JobLease) (now : Z)
    (request : ProvisioningStageUpdateRequest) (replace rotate : bool) :
    Tx World ProvisioningOperation :=
  let! _ := if replace then delete_operation sandbox_id now else tx_ret tt in
  let! _ := upsert_operation sandbox_id lease now request in
  let! _ := observe_stage sandbox_id lease now request in
  let! _ := match resource_identity request with
            | Some ri => store_resource sandbox_id now rotate request ri
            | None => tx_ret tt
            end in
  let! w := get_world in
  match provisioning_operations w !! sandbox_id with
  | None => tx_throw row_not_found
  | Some row => tx_lift (provisioning_operation_from_row sandbox_id row)
  end.

Definition update_provisioning_stage_tx (rt : Runtime) (id : Uuid)
    (request : ProvisioningStageUpdateRequest) : Tx World ProvisioningOperation :=
  let! lease := fetch_lease_on_connection id in
  let now := utc_now rt in
  check! bool_decide (lease_status lease = LeaseStatus.Active) && (now <? expires_at lease)%Z
    else conflict_code "lease_not_active" "provisioning progress requires an active lease" in
  check! bool_decide (job_kind (lease_job lease) = JobKind.ProvisionSandbox)
    else bad_request "provisioning progress requires a provision_sandbox lease" in
  check! (up_attempt_count request =? lease_attempt lease)%Z
    else operation_fenced "request attempt does not match the active lease attempt" in
  let! sandbox_id := tx_lift (sandbox_id_from_job (lease_job lease)) in
  let! db := tx_get in
  let! sandbox := tx_lift (fetch_sandbox (world db) sandbox_id) in
  check! contains PROVISION_COMPLETED_LEGAL_FROM (sb_state sandbox)
    else conflict_code "provisioning_sandbox_stopped"
           "provisioning progress is no longer accepted after sandbox stop" in
  let! decision := tx_lift (check_existing now lease sandbox_id request db) in
  match decision with
  | AlreadyRecorded op => tx_ret op
  | RecordStage replace rotate => record_stage sandbox_id lease now request replace rotate
  end.

Definition update_provisioning_stage_in_transaction (rt : Runtime) (id : Uuid)
    (request : ProvisioningStageUpdateRequest) (db : Db World) :
    result ProvisioningOperation ApiError * Db World :=
  match validate_stage_update request with
  | Err e => (Err e, db)
  | Ok _ => run_tx (update_provisioning_stage_tx rt id request) db
  end.
End Provisioning.

(** ** What a recorded report writes *)

(** The tables after progress was written: everything else is as it was. *)
Definition with_progress (ops : gmap Uuid ProvisioningOperationRow)
    (observations : gmap (Uuid * string) StageObservationRow)
    (resources : list StageResourceRow) (db : Db World) : Db World :=
  set_world (set_provisioning_operations ops
    (set_provisioning_stage_observations observations
      (set_provisioning_operation_resources resources (world db)))) db.

(** The resource rows the report starts from. *)
Definition kept_resources (replace : bool) (sandbox_id : Uuid) (rs : list StageResourceRow) :
    list StageResourceRow :=
  if replace then List.filter (fun r => negb (bool_decide (str_sandbox_id r = sandbox_id))) rs
  else rs.

(** What the resource rows say of one key. *)
Definition find_resource (rs : list StageResourceRow) (sandbox_id : Uuid)
    (stage : ProvisioningStage) (ri : ResourceIdentity) : option StageResourceRow :=
  find (is_stage_resource sandbox_id stage ri) rs.

(** Two identities that share the columns of the primary key. *)
Definition same_key (a b : ResourceIdentity) : Prop :=
  ri_kind a = ri_kind b /\ ri_namespace a = ri_namespace b /\ ri_name a = ri_name b.

(** [rs'] is [rs] with the identity of one key stored; [rs] may have held an
    identity under it only if that is to be rotated. *)
Definition identity_stored (rs rs' : list StageResourceRow) (sandbox_id : Uuid)
    (request : ProvisioningStageUpdateRequest) (ri : ResourceIdentity) (rotate : bool) : Prop :=
  (exists r, find_resource rs' sandbox_id (up_stage request) ri = Some r /\
     str_resource_uid r = ri_uid ri /\ str_observed_generation r = up_observed_generation request /\
     (rotate = false -> forall r0, find_resource rs sandbox_id (up_stage request) ri = Some r0 -> r = r0)) /\
  (forall sb stage key, ~ (sb = sandbox_id /\ stage = up_stage request /\ same_key key ri) ->
     find_resource rs' sb stage key = find_resource rs sb stage key).

Section ProvisioningProofs.
Context `{UuidLib}.

Lemma is_stage_resource_spec sb stage ri r :
  is_stage_resource sb stage ri r = true <->
  str_sandbox_id r = sb /\ str_stage r = as_db_str stage /\ str_resource_kind r = ri_kind ri /\
  str_resource_namespace r = ri_namespace ri /\ str_resource_name r = ri_name ri.
Proof. unfold is_stage_resource. rewrite !andb_true_iff, !bool_decide_eq_true. tauto. Qed.

Lemma as_db_str_inj (a b : ProvisioningStage) : as_db_str a = as_db_str b -> a = b.
Proof. destruct a, b; simpl; congruence. Qed.

(** A row answers to one key only. *)
Lemma is_stage_resource_key sb sb' stage stage' ri ri' r :
  is_stage_resource sb stage ri r = true -> is_stage_resource sb' stage' ri' r = true ->
  sb' = sb /\ stage' = stage /\ same_key ri' ri.
Proof.
  rewrite !is_stage_resource_spec. intros (<- & Hs & Hk & Hn & Hm) (<- & Hs' & Hk' & Hn' & Hm').
  split; [done|]. split; [apply as_db_str_inj; congruence|]. unfold same_key. split_and!; congruence.
Qed.

Lemma identity_differs_false request ri r :
  identity_differs request ri r = false <->
  str_resource_uid r = ri_uid ri /\ str_observed_generation r = up_observed_generation request.
Proof.
  unfold identity_differs. rewrite orb_false_iff, !negb_false_iff, !bool_decide_eq_true. done.
Qed.

Lemma find_app {A} (p : A -> bool) l1 l2 :
  find p (l1 ++ l2) = match find p l1 with Some a => Some a | None => find p l2 end.
Proof. induction l1 as [|a l1 IH]; simpl; [done|]. by destruct (p a). Qed.

(** Rewriting rows in place does not move what another predicate finds, and
    keeps the rows of the predicate itself. *)
Lemma find_rewrite {A} (p q : A -> bool) (f : A -> A) l :
  (forall a, q (if p a then f a else a) = q a) ->
  find q ((fun a => if p a then f a else a) <$> l) = (fun a => if p a then f a else a) <$> find q l.
Proof.
  intros Hq. induction l as [|a l IH]; simpl; [done|]. rewrite Hq. by destruct (q a).
Qed.

Lemma set_identity_key sb stage ri request ri' now r :
  is_stage_resource sb stage ri (resource_set_identity request ri' now r) =
  is_stage_resource sb stage ri r.
Proof. done. Qed.

Lemma store_resource_ok sb now rotate request ri db u db' :
  store_resource sb now rotate request ri db = Ok (u, db') ->
  exists rs', db' = set_world (set_provisioning_operation_resources rs' (world db)) db /\
    identity_stored (provisioning_operation_resources (world db)) rs' sb request ri rotate.
Proof.
  unfold store_resource. set (f := fun r => if is_stage_resource _ _ _ r then _ else r).
  intros Hm. apply tx_bind_ok in Hm as (u1 & db1 & H1 & Hm). apply tx_bind_ok in Hm as (w & db2 & H2 & Hm).
  unfold get_world, tx_bind, tx_get, tx_ret in H2. injection H2 as <- <-.
  injection H1 as <- <-. cbn [world set_world] in Hm.
  destruct (stage_resource (set_provisioning_operation_resources _ _) _ _ _) as [stored|] eqn:Es in Hm; [|done].
  destruct (identity_differs request ri stored) eqn:Ed; [done|]. injection Hm as <- <-.
  apply identity_differs_false in Ed as [Eu Eg].
  eexists. split; [reflexivity|]. unfold stage_resource in Es.
  cbn [provisioning_operation_resources set_provisioning_operation_resources] in Es. split.
  - exists stored. split; [exact Es|]. split; [done|]. split; [done|]. intros -> r0 Hr0.
    unfold stage_resource, find_resource in *. rewrite Hr0 in Es. congruence.
  - clear Es. intros sb' stage' key Hne. unfold find_resource, stage_resource.
    destruct (find (is_stage_resource sb _ ri) (provisioning_operation_resources (world db))).
    + destruct rotate; [|done]. unfold f. rewrite find_rewrite.
      * destruct (find (is_stage_resource sb' stage' key) _) as [r|] eqn:Er; [|done]. simpl.
        destruct (is_stage_resource sb (up_stage request) ri r) eqn:Ek; [|done].
        apply find_some in Er as [_ Er]. by destruct Hne; eapply is_stage_resource_key.
      * intros a. by destruct (is_stage_resource sb _ ri a).
    + rewrite find_app. destruct (find _ _); [done|]. simpl.
      destruct (is_stage_resource sb' stage' key _) eqn:Ek; [|done].
      exfalso. apply Hne. eapply is_stage_resource_key; [|exact Ek].
      apply is_stage_resource_spec. done.
Qed.

(** The row a report leaves for its sandbox. *)
Definition next_operation (replace : bool) (old : option ProvisioningOperationRow)
    (excluded : ProvisioningOperationRow) : ProvisioningOperationRow :=
  match (if replace then None else old) with
  | Some row => merge_operation row excluded
  | None => excluded
  end.

Definition may_record (now : Z) (db : Db World) (replace : bool)
    (old : option ProvisioningOperationRow) (excluded : ProvisioningOperationRow) : Prop :=
  match old with
  | Some row =>
      if replace
      then forall l, job_leases db !! po_lease_id row = Some l -> lease_is_live now l = false
      else may_merge row excluded = true
  | None => replace = false
  end.

Lemma delete_operation_ok sb now db u db' :
  delete_operation sb now db = Ok (u, db') ->
  exists row, provisioning_operations (world db) !! sb = Some row /\
    (forall l, job_leases db !! po_lease_id row = Some l -> lease_is_live now l = false) /\
    db' = with_progress (delete sb (provisioning_operations (world db)))
            (provisioning_stage_observations (world db))
            (kept_resources true sb (provisioning_operation_resources (world db))) db.
Proof.
  unfold delete_operation. intros Hm. tx_step Hm. tx_step Hm0.
  destruct (provisioning_operations _ !! sb) as [row|] eqn:Er; [|done].
  exists row. split; [done|]. destruct (job_leases _ !! _) as [l|].
  - destruct (lease_is_live now l) eqn:El; [done|]. injection Hm as <- <-. split; [|done].
    by intros ? [= <-].
  - by injection Hm as <- <-.
Qed.

Lemma upsert_operation_ok sb lease now request db u db' :
  upsert_operation sb lease now request db = Ok (u, db') ->
  let excluded := requested_operation now lease request in
  let old := provisioning_operations (world db) !! sb in
  holds_live_lease (job_leases db) (lease_id lease) (lease_attempt lease) now = true /\
  may_record now db false old excluded /\
  db' = with_progress (<[sb := next_operation false old excluded]> (provisioning_operations (world db)))
          (provisioning_stage_observations (world db)) (provisioning_operation_resources (world db)) db.
Proof.
  unfold upsert_operation. intros Hm. tx_step Hm. tx_step Hm0.
  destruct (holds_live_lease _ _ _ _); [|done]. simpl in Hm.
  destruct (provisioning_operations _ !! sb) as [old|]; [destruct (may_merge _ _) eqn:Em|];
    [|done|]; by injection Hm as <- <-.
Qed.

(** What [record_stage] did, in one statement. *)
Definition stage_recorded (sb : Uuid) (lease : JobLease) (now : Z)
    (request : ProvisioningStageUpdateRequest) (replace rotate : bool) (db : Db World)
    (op : ProvisioningOperation) (db' : Db World) : Prop :=
  let excluded := requested_operation now lease request in
  let old := provisioning_operations (world db) !! sb in
  let kept := kept_resources replace sb (provisioning_operation_resources (world db)) in
  holds_live_lease (job_leases db) (lease_id lease) (lease_attempt lease) now = true /\
  may_record now db replace old excluded /\
  provisioning_operation_from_row sb (next_operation replace old excluded) = Ok op /\
  exists rs',
    db' = with_progress (<[sb := next_operation replace old excluded]> (provisioning_operations (world db)))
            (observe sb lease now request (provisioning_stage_observations (world db))) rs' db /\
    match resource_identity request with
    | Some ri => identity_stored kept rs' sb request ri rotate
    | None => rs' = kept
    end.

Lemma record_kept_ok sb lease now request rotate db op db' :
  record_stage sb lease now request false rotate db = Ok (op, db') ->
  stage_recorded sb lease now request false rotate db op db'.
Proof.
  unfold record_stage. intros Hm. tx_step Hm. tx_step Hm0.
  apply tx_bind_ok in Hm as (u2 & db2 & H2 & Hm). apply upsert_operation_ok in H2 as (Hl & Hr & ->).
  apply tx_bind_ok in Hm as (u3 & db3 & H3 & Hm). apply modify_world_ok in H3 as ->.
  apply tx_bind_ok in Hm as (u4 & db4 & H4 & Hm).
  split; [done|]. split; [done|].
  assert (exists rs', db4 = with_progress
      (<[sb := next_operation false (provisioning_operations (world db1) !! sb)
                 (requested_operation now lease request)]> (provisioning_operations (world db1)))
      (observe sb lease now request (provisioning_stage_observations (world db1))) rs' db1 /\
    match resource_identity request with
    | Some ri => identity_stored (provisioning_operation_resources (world db1)) rs' sb request ri rotate
    | None => rs' = provisioning_operation_resources (world db1)
    end) as (rs' & -> & Hrs).
  { destruct (resource_identity request) as [ri|].
    - apply store_resource_ok in H4 as (rs' & -> & Hrs). by exists rs'.
    - injection H4 as <- <-. eexists. by split. }
  tx_step Hm. apply get_world_ok in Hm0 as [-> ->].
  cbn [world set_world with_progress provisioning_operations set_provisioning_operations] in Hm.
  rewrite lookup_insert_eq in Hm. apply tx_lift_ok in Hm as [Hop ->].
  split; [done|]. by exists rs'.
Qed.

Lemma record_stage_ok sb lease now request replace rotate db op db' :
  record_stage sb lease now request replace rotate db = Ok (op, db') ->
  stage_recorded sb lease now request replace rotate db op db'.
Proof.
  destruct replace; [|apply record_kept_ok]. intros Hm.
  apply tx_bind_ok in Hm as (u & db1 & Hd & Hm).
  apply delete_operation_ok in Hd as (row & Hrow & Hdead & ->).
  assert (record_stage sb lease now request false rotate (with_progress
            (delete sb (provisioning_operations (world db)))
            (provisioning_stage_observations (world db))
            (kept_resources true sb (provisioning_operation_resources (world db))) db)
          = Ok (op, db')) as Hk by exact Hm.
  apply record_kept_ok in Hk as (Hl & _ & Hop & rs' & -> & Hrs). unfold next_operation in *.
  cbn [world set_world with_progress provisioning_operations set_provisioning_operations] in *.
  rewrite lookup_delete_eq in *. split; [done|]. rewrite Hrow. split; [done|].
  split; [done|]. exists rs'. split; [|done]. simpl. by rewrite insert_delete_eq.
Qed.

(** ** What the stored progress satisfies *)

(** A row names its stage consistently and a lease of the attempt it
    records. *)
Definition operation_ok (db : Db World) (row : ProvisioningOperationRow) : Prop :=
  (exists stage, po_stage row = as_db_str stage /\ po_stage_index row = ordinal stage) /\
  exists l, job_leases db !! po_lease_id row = Some l /\ lr_attempt l = po_lease_attempt row.

Definition progress_ok (db : Db World) : Prop :=
  map_Forall (fun _ row => operation_ok db row) (provisioning_operations (world db)).

(** The lease a report speaks for: live, of a provision job for [sb], at the
    attempt the report names. *)
Definition reports_for (now : Z) (db : Db World) (id : Uuid)
    (request : ProvisioningStageUpdateRequest) (sb : Uuid) (lease : JobLease) : Prop :=
  exists l r s, lease = row_to_lease_with_job id l (row_job r) /\
    job_leases db !! id = Some l /\ jobs db !! lr_job_id l = Some r /\
    lease_is_live now l = true /\ job_kind (row_job r) = JobKind.ProvisionSandbox /\
    lr_attempt l = up_attempt_count request /\ sandbox_id_from_job (row_job r) = Ok sb /\
    sandboxes (world db) !! sb = Some s /\ contains PROVISION_COMPLETED_LEGAL_FROM (sb_state s) = true.

Lemma hydrate_state w s : sb_state (hydrate_sandbox_network_egress w s) = sb_state s.
Proof. unfold hydrate_sandbox_network_egress. by destruct (sb_network_egress s). Qed.

Lemma fetch_sandbox_ok w sb s :
  fetch_sandbox w sb = Ok s -> exists s0, sandboxes w !! sb = Some s0 /\ sb_state s = sb_state s0.
Proof.
  unfold fetch_sandbox. destruct (sandboxes w !! sb) as [s0|]; [|done]. intros [= <-].
  exists s0. by rewrite hydrate_state.
Qed.

(** The transaction up to its decision. *)
Lemma update_stage_ok rt id request db op db' :
  update_provisioning_stage_tx rt id request db = Ok (op, db') ->
  exists sb lease decision, reports_for (utc_now rt) db id request sb lease /\
    check_existing (utc_now rt) lease sb request db = Ok decision /\
    match decision with
    | AlreadyRecorded op0 => op = op0 /\ db' = db
    | RecordStage replace rotate =>
        stage_recorded sb lease (utc_now rt) request replace rotate db op db'
    end.
Proof.
  unfold update_provisioning_stage_tx, fetch_lease_on_connection, fetch_lease, lease_with_job.
  intros Hm. tx_step Hm. tx_step Hm0. tx_step Hm1. tx_step Hm0.
  destruct (job_leases _ !! id) as [l|] eqn:Hl; [|done]. simpl in *.
  destruct (jobs _ !! lr_job_id l) as [r|] eqn:Hr; [|done]. simplify_eq/=.
  destruct (bool_decide _ && _) eqn:Elive; [|done].
  destruct (bool_decide (job_kind _ = _)) eqn:Ek; [|done].
  destruct (_ =? _)%Z eqn:Ea; [|done].
  tx_step Hm. tx_step Hm0. tx_step Hm. tx_step Hm0. tx_step Hm. tx_step Hm0.
  destruct (bool_decide _ || _) eqn:Es; [|done].
  change (contains PROVISION_COMPLETED_LEGAL_FROM (sb_state a0) = true) in Es.
  tx_step Hm. apply tx_lift_ok in Hm0 as [Hd ->].
  apply fetch_sandbox_ok in H1 as (s & Hs & Est). rewrite Est in Es. bool_to_prop.
  eexists a, _, _. split; [|split; [exact Hd|]].
  - exists l, r, s. split_and!; auto. unfold lease_is_live, is_active.
    by rewrite bool_decide_eq_true_2, (proj2 (Z.ltb_lt _ _)).
  - destruct a1; [by injection Hm as <- <- | by apply record_stage_ok].
Qed.

(** ** The decision *)

Lemma check_progress_ok lease sb request w row d :
  check_progress lease sb request w row = Ok d ->
  (po_lease_attempt row <= lease_attempt lease)%Z /\
  (po_lease_attempt row = lease_attempt lease -> (po_stage_index row <= ordinal (up_stage request))%Z) /\
  match d with
  | AlreadyRecorded op =>
      same_position lease request row = true /\ provisioning_operation_from_row sb row = Ok op /\
      (forall ri, resource_identity request = Some ri ->
         exists stored, stage_resource w sb (up_stage request) ri = Some stored /\
           identity_differs request ri stored = false)
  | RecordStage replace rotate =>
      replace = false /\ (rotate = true -> (po_lease_attempt row < lease_attempt lease)%Z)
  end.
Proof.
  unfold check_progress. destruct (Z.ltb_spec (lease_attempt lease) (po_lease_attempt row)); [done|].
  destruct (_ && _) eqn:Er; [done|]. intros Hd. split; [lia|]. split.
  { intros E. rewrite E, Z.eqb_refl in Er. simpl in Er. by apply Z.ltb_ge in Er. }
  destruct (resource_identity request) as [ri|].
  - destruct (stage_resource w sb (up_stage request) ri) as [stored|] eqn:Est; [|injection Hd as <-; by split].
    destruct (identity_differs request ri stored) eqn:Ei; cbn [andb] in Hd.
    + destruct (Z.leb_spec (lease_attempt lease) (po_lease_attempt row)); [done|].
      destruct (same_position lease request row) eqn:Ep.
      * unfold same_position in Ep. bool_to_prop. lia.
      * injection Hd as <-. split; [done|]. lia.
    + destruct (same_position lease request row).
      * destruct (provisioning_operation_from_row sb row) as [op|]; [|done]. injection Hd as <-.
        split; [done|]. split; [done|]. intros ? [= <-]. by exists stored.
      * injection Hd as <-. by split.
  - destruct (same_position lease request row && _ && _ && _) eqn:Ep; [|injection Hd as <-; by split].
    destruct (provisioning_operation_from_row sb row) as [op|]; [|done]. injection Hd as <-.
    bool_to_prop. split; [|split; [done|by intros ?]]. unfold same_position in *. bool_to_prop.
    by rewrite !andb_true_iff, !Z.eqb_eq.
Qed.

(** How the lease stands to a row it may rewrite. *)
Definition continues (now : Z) (lease : JobLease) (row : ProvisioningOperationRow)
    (existing : LeaseRow) : Prop :=
  po_lease_id row = lease_id lease \/
  (lr_job_id existing = job_id (lease_job lease) /\ lease_is_live now existing = false /\
   (po_lease_attempt row < lease_attempt lease)%Z).

Definition supersedes (now : Z) (lease : JobLease) (row : ProvisioningOperationRow)
    (existing : LeaseRow) : Prop :=
  po_lease_id row <> lease_id lease /\ lr_job_id existing <> job_id (lease_job lease) /\
  lease_is_live now existing = false.

Lemma check_existing_ok now lease sb request db d row :
  check_existing now lease sb request db = Ok d ->
  provisioning_operations (world db) !! sb = Some row ->
  exists existing, job_leases db !! po_lease_id row = Some existing /\
    ((continues now lease row existing /\ check_progress lease sb request (world db) row = Ok d) \/
     (supersedes now lease row existing /\ d = RecordStage true false)).
Proof.
  unfold check_existing. intros Hc Hrow. rewrite Hrow in Hc.
  destruct (job_leases db !! po_lease_id row) as [existing|]; [|done]. exists existing.
  split; [done|]. unfold check_ownership in Hc. case_bool_decide as Eid; simpl in Hc.
  { left. split; [by left | done]. }
  destruct (lease_is_live now existing) eqn:El; [done|]. case_bool_decide as Ej; simpl in Hc.
  - destruct (Z.leb_spec (lease_attempt lease) (po_lease_attempt row)); simpl in Hc; [done|].
    left. split; [right; auto | done].
  - right. split; [done|]. by injection Hc as <-.
Qed.

Lemma ordinal_inj a b : ordinal a = ordinal b -> a = b.
Proof. by destruct a, b. Qed.

Lemma merge_behind old excluded :
  (po_stage_index excluded < po_stage_index old)%Z -> merge_operation old excluded = old.
Proof.
  intros Hlt. unfold merge_operation.
  rewrite (proj2 (Z.leb_gt _ _)), (proj2 (Z.ltb_ge _ _)) by lia. by destruct old.
Qed.

(** At the stage of the row or beyond, the report's row is what is left, with
    the text of its own stage. *)
Lemma merge_reached old excluded stage :
  po_stage old = as_db_str stage -> po_stage_index old = ordinal stage ->
  forall stage', po_stage excluded = as_db_str stage' -> po_stage_index excluded = ordinal stage' ->
  (po_stage_index old <= po_stage_index excluded)%Z -> merge_operation old excluded = excluded.
Proof.
  intros Es Ei stage' Es' Ei' Hle. unfold merge_operation. rewrite (proj2 (Z.leb_le _ _)) by lia.
  destruct (Z.ltb_spec (po_stage_index old) (po_stage_index excluded)) as [|Hge];
    [by destruct excluded|].
  assert (stage' = stage) as -> by (apply ordinal_inj; lia).
  rewrite Es, Ei, <- Es', <- Ei'. by destruct excluded.
Qed.

Lemma next_operation_cases db replace sb lease now request :
  progress_ok db ->
  let old := provisioning_operations (world db) !! sb in
  let excluded := requested_operation now lease request in
  (next_operation replace old excluded = excluded /\
   forall row, replace = false -> old = Some row -> (po_stage_index row <= ordinal (up_stage request))%Z) \/
  (exists row, replace = false /\ old = Some row /\ next_operation replace old excluded = row /\
     (ordinal (up_stage request) < po_stage_index row)%Z).
Proof.
  intros Hok old excluded. unfold next_operation. destruct replace; [left; by split|].
  subst old. destruct (provisioning_operations (world db) !! sb) as [row|] eqn:Hrow; [|left; by split].
  destruct (Hok _ _ Hrow) as [(stage & Es & Ei) _].
  destruct (Z.le_gt_cases (po_stage_index row) (po_stage_index excluded)) as [Hle|Hlt].
  - left. split; [by eapply merge_reached|]. by intros ? _ [= <-].
  - right. exists row. split; [done|]. split; [done|]. split; [by apply merge_behind | done].
Qed.

(** ** Theorems *)

Lemma with_progress_ok ops obs rs db :
  map_Forall (fun _ row => operation_ok db row) ops -> progress_ok (with_progress ops obs rs db).
Proof. done. Qed.

Lemma reporting_lease_row now db id request sb lease :
  reports_for now db id request sb lease ->
  lease_id lease = id /\
  exists l, job_leases db !! id = Some l /\ lr_attempt l = lease_attempt lease /\
    lease_is_live now l = true.
Proof. intros (l & r & s & -> & Hl & _ & Hlive & _). split; [done|]. by exists l. Qed.

Lemma requested_ok now db id request sb lease :
  reports_for now db id request sb lease -> operation_ok db (requested_operation now lease request).
Proof.
  intros Hr. apply reporting_lease_row in Hr as (Hid & l & Hl & Ha & _). split.
  - by exists (up_stage request).
  - exists l. simpl. by rewrite Hid.
Qed.

Lemma validated_update rt id request db op db' :
  update_provisioning_stage_in_transaction rt id request db = (Ok op, db') ->
  validate_stage_update request = Ok tt /\ update_provisioning_stage_tx rt id request db = Ok (op, db').
Proof.
  unfold update_provisioning_stage_in_transaction, run_tx.
  destruct (validate_stage_update request) as [[]|]; [|done].
  destruct (update_provisioning_stage_tx rt id request db) as [[]|]; [|done]. by intros [= <- <-].
Qed.

(** The row that a decision leaves, against the row it found. *)
Lemma decision_progress now lease id sb request db d row :
  reports_for now db id request sb lease -> progress_ok db ->
  check_existing now lease sb request db = Ok d ->
  provisioning_operations (world db) !! sb = Some row ->
  let row' := match d with
              | AlreadyRecorded _ => row
              | RecordStage replace _ =>
                  next_operation replace (Some row) (requested_operation now lease request)
              end in
  exists existing, job_leases db !! po_lease_id row = Some existing /\
    ((continues now lease row existing /\ (po_stage_index row <= po_stage_index row')%Z /\
      (po_lease_attempt row <= po_lease_attempt row')%Z /\ (row' = row \/ po_lease_id row' = id)) \/
     (supersedes now lease row existing /\ row' = requested_operation now lease request)).
Proof.
  intros Hr Hok Hc Hrow. destruct (reporting_lease_row _ _ _ _ _ _ Hr) as (Hid & _).
  destruct (check_existing_ok _ _ _ _ _ _ _ Hc Hrow) as (existing & Hex & [[Hcont Hp]|[Hsup ->]]);
    exists existing; (split; [done|]); [left | by right].
  split; [done|]. apply check_progress_ok in Hp as (Ha & Hst & Hd).
  destruct d as [op0|replace rotate]; [split_and!; auto; lia|]. destruct Hd as [-> _].
  pose proof (next_operation_cases db false sb lease now request Hok) as Hn. rewrite Hrow in Hn.
  destruct Hn as [[-> Hle]|(row0 & _ & [= <-] & -> & _)]; [|split_and!; auto; lia].
  simpl. split_and!; auto.
Qed.

(** Progress is fenced by the lease.  A stage report is accepted only from
    a live lease of a provision job, at the lease's attempt, for a sandbox that
    is not being stopped; it leaves in the sandbox's row the report's stage or a
    later one.  A row that another job left behind is replaced, and only once
    that job's lease is no longer live; otherwise the row continues: its stage
    and attempt never go back, and it changes hands only to the reporting lease.
    Rows of other sandboxes and all other tables stay as they are, and rows stay
    consistent. *)
Theorem stage_reports_are_fenced rt id request db op db' :
  progress_ok db ->
  update_provisioning_stage_in_transaction rt id request db = (Ok op, db') ->
  exists sb lease row' obs rs,
    reports_for (utc_now rt) db id request sb lease /\
    provisioning_operation_from_row sb row' = Ok op /\
    db' = with_progress (<[sb := row']> (provisioning_operations (world db))) obs rs db /\
    progress_ok db' /\ (ordinal (up_stage request) <= po_stage_index row')%Z /\
    forall row, provisioning_operations (world db) !! sb = Some row ->
      exists existing, job_leases db !! po_lease_id row = Some existing /\
        ((continues (utc_now rt) lease row existing /\ (po_stage_index row <= po_stage_index row')%Z /\
          (po_lease_attempt row <= po_lease_attempt row')%Z /\ (row' = row \/ po_lease_id row' = id)) \/
         (supersedes (utc_now rt) lease row existing /\
          row' = requested_operation (utc_now rt) lease request)).
Proof.
  intros Hok Hu. apply validated_update in Hu as [_ Hu].
  apply update_stage_ok in Hu as (sb & lease & d & Hr & Hc & Hd).
  pose proof (fun row => decision_progress _ _ _ _ _ _ _ row Hr Hok Hc) as Hp.
  destruct d as [op0|replace rotate].
  - destruct Hd as [-> ->]. destruct (provisioning_operations (world db) !! sb) as [row|] eqn:Hrow;
      [|unfold check_existing in Hc; by rewrite Hrow in Hc].
    destruct (check_existing_ok _ _ _ _ _ _ _ Hc Hrow) as (ex & _ & [[_ Hq]|[_ [=]]]).
    apply check_progress_ok in Hq as (_ & _ & Hsame & Hop & _).
    exists sb, lease, row, (provisioning_stage_observations (world db)),
      (provisioning_operation_resources (world db)). split_and!; auto.
    + rewrite insert_id by done. by destruct db as [? ? ? ? ? ? ? ? ? ? ? []].
    + unfold same_position in Hsame. bool_to_prop. lia.
    + intros row0 Hrow0. rewrite Hrow in Hrow0. injection Hrow0 as <-. by apply Hp.
  - destruct Hd as (_ & _ & Hop & rs' & -> & _).
    pose proof (next_operation_cases db replace sb lease (utc_now rt) request Hok) as Hn.
    eexists sb, lease, _, _, _. split; [exact Hr|]. split; [exact Hop|]. split; [reflexivity|].
    split; [|split].
    + apply with_progress_ok, map_Forall_insert_2; [|done].
      destruct Hn as [[-> _]|(row & _ & Hrow & -> & _)]; [by eapply requested_ok | by eapply Hok].
    + destruct Hn as [[-> _]|(row & _ & Hrow & -> & Hlt)]; simpl; lia.
    + intros row Hrow. rewrite Hrow. by apply Hp.
Qed.

Lemma find_resource_key rs sb stage a b :
  same_key a b -> find_resource rs sb stage a = find_resource rs sb stage b.
Proof. unfold find_resource, is_stage_resource. by intros (-> & -> & ->). Qed.

Lemma kept_resources_other replace sb sb' stage key rs :
  sb' <> sb -> find_resource (kept_resources replace sb rs) sb' stage key = find_resource rs sb' stage key.
Proof.
  intros Hne. destruct replace; [|done]. simpl. induction rs as [|r rs IH]; simpl; [done|].
  unfold find_resource in *. simpl. case_bool_decide as E; simpl; rewrite IH; [|done].
  destruct (is_stage_resource sb' stage key r) eqn:Ek; [|done].
  apply is_stage_resource_spec in Ek as [? _]. congruence.
Qed.

(** An identity under another key, or under the same key without rotation,
    stays. *)
Lemma identity_stored_keeps rs rs' sb request ri rotate sb' stage key r :
  identity_stored rs rs' sb request ri rotate -> find_resource rs sb' stage key = Some r ->
  find_resource rs' sb' stage key = Some r \/ (sb' = sb /\ rotate = true).
Proof.
  intros [(r' & Hr' & _ & _ & Hsame) Hother] Hr.
  destruct (decide (sb' = sb /\ stage = up_stage request /\ ri_kind key = ri_kind ri /\
                    ri_namespace key = ri_namespace ri /\ ri_name key = ri_name ri)) as [(-> & -> & Hk)|Hne].
  - destruct rotate; [by right|]. left.
    rewrite (find_resource_key _ _ _ key ri Hk) in Hr.
    rewrite (find_resource_key _ _ _ key ri Hk), Hr'. f_equal. by apply Hsame.
  - left. by rewrite Hother.
Qed.

(** Observed identities are fenced.  After an accepted report that names a
    provider resource, the stored identity is the report's.  An identity that was
    stored before is still there, unless the report is for the same sandbox and
    either comes from a newer attempt than the sandbox's row records or takes the
    row over from another job whose lease is no longer live. *)
Theorem observed_identity_is_fenced rt id request db op db' :
  update_provisioning_stage_in_transaction rt id request db = (Ok op, db') ->
  exists sb lease, reports_for (utc_now rt) db id request sb lease /\
    (forall ri, resource_identity request = Some ri -> exists r,
       find_resource (provisioning_operation_resources (world db')) sb (up_stage request) ri = Some r /\
       str_resource_uid r = ri_uid ri /\ str_observed_generation r = up_observed_generation request) /\
    forall sb' stage key r,
      find_resource (provisioning_operation_resources (world db)) sb' stage key = Some r ->
      find_resource (provisioning_operation_resources (world db')) sb' stage key = Some r \/
      (sb' = sb /\ exists row existing, provisioning_operations (world db) !! sb = Some row /\
         job_leases db !! po_lease_id row = Some existing /\
         ((po_lease_attempt row < lease_attempt lease)%Z \/ supersedes (utc_now rt) lease row existing)).
Proof.
  intros Hu. apply validated_update in Hu as [_ Hu].
  apply update_stage_ok in Hu as (sb & lease & d & Hr & Hc & Hd). exists sb, lease. split; [done|].
  assert (Hfence : forall replace rotate, d = RecordStage replace rotate ->
    replace = true \/ rotate = true ->
    exists row existing, provisioning_operations (world db) !! sb = Some row /\
      job_leases db !! po_lease_id row = Some existing /\
      ((po_lease_attempt row < lease_attempt lease)%Z \/ supersedes (utc_now rt) lease row existing)).
  { intros replace rotate -> Hrr. destruct (provisioning_operations (world db) !! sb) as [row|] eqn:Hrow.
    - destruct (check_existing_ok _ _ _ _ _ _ _ Hc Hrow) as (ex & Hex & [[_ Hq]|[Hs _]]);
        exists row, ex; (split; [done|]); (split; [done|]); [|by right].
      apply check_progress_ok in Hq as (_ & _ & -> & Hq). left. destruct Hrr as [|]; [done|auto].
    - unfold check_existing in Hc. rewrite Hrow in Hc. injection Hc as <- <-. by destruct Hrr. }
  destruct d as [op0|replace rotate].
  - destruct Hd as [-> ->]. split; [|by left]. intros ri Hri.
    destruct (provisioning_operations (world db) !! sb) as [row|] eqn:Hrow;
      [|unfold check_existing in Hc; by rewrite Hrow in Hc].
    destruct (check_existing_ok _ _ _ _ _ _ _ Hc Hrow) as (ex & _ & [[_ Hq]|[_ [=]]]).
    apply check_progress_ok in Hq as (_ & _ & _ & _ & Hq).
    destruct (Hq _ Hri) as (stored & Hs & Hdiff%identity_differs_false). by exists stored.
  - destruct Hd as (_ & _ & _ & rs' & -> & Hrs). simpl. split.
    + intros ri Hri. rewrite Hri in Hrs. destruct Hrs as [(r & Hf & Hu & Hg & _) _]. by exists r.
    + intros sb' stage key r Hf. destruct (decide (sb' = sb /\ replace = true)) as [[-> ->]|Hne].
      * right. split; [done|]. eapply Hfence; [done | by left].
      * assert (Hk : find_resource (kept_resources replace sb
          (provisioning_operation_resources (world db))) sb' stage key = Some r).
        { destruct (decide (sb' = sb)); [|by rewrite kept_resources_other].
          destruct replace; [naive_solver | done]. }
        destruct (resource_identity request) as [ri|]; [|rewrite Hrs; by left].
        destruct (identity_stored_keeps _ _ _ _ _ _ _ _ _ _ Hrs Hk) as [|[-> ->]]; [by left|].
        right. split; [done|]. eapply Hfence; [done | by right].
Qed.

(** ** Repeating a report *)

Lemma update_stage_runs rt id request sb lease db :
  reports_for (utc_now rt) db id request sb lease ->
  update_provisioning_stage_tx rt id request db =
  match check_existing (utc_now rt) lease sb request db with
  | Err e => Err e
  | Ok (AlreadyRecorded op) => Ok (op, db)
  | Ok (RecordStage replace rotate) =>
      record_stage sb lease (utc_now rt) request replace rotate db
  end.
Proof.
  intros (l & r & s & -> & Hl & Hr & Hlive & Hk & Ha & Hsb & Hs & Hst).
  unfold update_provisioning_stage_tx, fetch_lease_on_connection, fetch_lease, lease_with_job,
    tx_bind, tx_get. rewrite Hl. cbn [mbind option_bind]. rewrite Hr. cbn [mbind option_bind tx_lift].
  cbn [lease_status expires_at lease_job lease_attempt row_to_lease_with_job].
  unfold lease_is_live, is_active in Hlive. rewrite Hlive, (bool_decide_eq_true_2 _ Hk), Ha, Z.eqb_refl.
  unfold tx_lift. rewrite Hsb. unfold fetch_sandbox. rewrite Hs, hydrate_state, Hst.
  by destruct (check_existing _ _ _ _ _) as [[|]|].
Qed.

Lemma set_progress_same db :
  with_progress (provisioning_operations (world db)) (provisioning_stage_observations (world db))
    (provisioning_operation_resources (world db)) db = db.
Proof. by destruct db as [? ? ? ? ? ? ? ? ? ? ? []]. Qed.

Lemma upsert_noop sb lease now request db row :
  holds_live_lease (job_leases db) (lease_id lease) (lease_attempt lease) now = true ->
  provisioning_operations (world db) !! sb = Some row ->
  (po_lease_attempt row < lease_attempt lease)%Z ->
  (ordinal (up_stage request) < po_stage_index row)%Z ->
  upsert_operation sb lease now request db = Ok (tt, db).
Proof.
  intros Hl Hrow Ha Hlt. unfold upsert_operation, tx_bind, tx_get. rewrite Hl, Hrow.
  unfold may_merge. rewrite (proj2 (Z.ltb_lt _ _)) by done. cbn [andb orb].
  rewrite merge_behind by done. unfold modify_world, tx_modify. rewrite insert_id by done.
  exact (f_equal (fun db => Ok (tt, db)) (set_progress_same db)).
Qed.

Lemma observe_twice sb lease now now' request m :
  observe sb lease now' request (observe sb lease now request m) = observe sb lease now request m.
Proof.
  set (m' := observe sb lease now request m). unfold observe at 1.
  set (key := (lease_id lease, as_db_str (up_stage request))).
  assert (exists o, m' !! key = Some o /\
    (forall class, up_last_error_class request = Some class -> so_error_class o = Some class))
    as (o & Ho & Hclass).
  { unfold m', observe. fold key. destruct (m !! key) as [o|] eqn:Em.
    - destruct (up_last_error_class request) as [class|].
      + eexists. rewrite lookup_insert_eq. by split.
      + exists o. by split.
    - eexists. rewrite lookup_insert_eq. by split. }
  rewrite Ho. destruct (up_last_error_class request) as [class|]; [|done].
  apply insert_id. rewrite Ho, <- (Hclass class eq_refl). by destruct o.
Qed.

Lemma observe_noop sb lease now request db :
  observe sb lease now request (provisioning_stage_observations (world db)) =
    provisioning_stage_observations (world db) ->
  observe_stage sb lease now request db = Ok (tt, db).
Proof.
  intros E. unfold observe_stage, modify_world, tx_modify. rewrite E.
  exact (f_equal (fun db => Ok (tt, db)) (set_progress_same db)).
Qed.

Lemma store_noop sb now request ri db stored :
  stage_resource (world db) sb (up_stage request) ri = Some stored ->
  identity_differs request ri stored = false ->
  store_resource sb now false request ri db = Ok (tt, db).
Proof.
  intros Hs Hd. unfold store_resource, tx_bind, modify_world, tx_modify, get_world, tx_bind, tx_get, tx_ret.
  rewrite Hs. pose proof (set_progress_same db) as E.
  assert (set_world (set_provisioning_operation_resources
            (provisioning_operation_resources (world db)) (world db)) db = db) as -> by exact E.
  by rewrite Hs, Hd.
Qed.

(** A report behind the row's stage, once recorded, changes nothing more. *)
Lemma record_noop sb lease now request db row op :
  holds_live_lease (job_leases db) (lease_id lease) (lease_attempt lease) now = true ->
  provisioning_operations (world db) !! sb = Some row ->
  (po_lease_attempt row < lease_attempt lease)%Z ->
  (ordinal (up_stage request) < po_stage_index row)%Z ->
  observe sb lease now request (provisioning_stage_observations (world db)) =
    provisioning_stage_observations (world db) ->
  (forall ri, resource_identity request = Some ri -> exists stored,
     stage_resource (world db) sb (up_stage request) ri = Some stored /\
     identity_differs request ri stored = false) ->
  provisioning_operation_from_row sb row = Ok op ->
  record_stage sb lease now request false false db = Ok (op, db).
Proof.
  intros Hl Hrow Ha Hlt Hobs Hid Hop. unfold record_stage.
  unfold tx_bind at 1. cbn [tx_ret]. unfold tx_bind at 1. erewrite upsert_noop by done.
  unfold tx_bind at 1. rewrite observe_noop by done. unfold tx_bind at 1.
  assert (match resource_identity request with
          | Some ri => store_resource sb now false request ri
          | None => tx_ret tt
          end db = Ok (tt, db)) as ->.
  { destruct (resource_identity request) as [ri|]; [|done].
    destruct (Hid ri eq_refl) as (stored & Hs & Hd). by eapply store_noop. }
  unfold tx_bind, get_world, tx_bind, tx_get, tx_ret. rewrite Hrow. unfold tx_lift. by rewrite Hop.
Qed.

Lemma check_progress_recorded now lease sb request w op :
  provisioning_operation_from_row sb (requested_operation now lease request) = Ok op ->
  (forall ri, resource_identity request = Some ri -> exists stored,
     stage_resource w sb (up_stage request) ri = Some stored /\
     identity_differs request ri stored = false) ->
  check_progress lease sb request w (requested_operation now lease request) = Ok (AlreadyRecorded op).
Proof.
  intros Hop Hid. unfold check_progress, same_position.
  cbn [po_lease_attempt po_stage_index po_last_error_class po_last_error_code po_last_error
       requested_operation].
  rewrite !Z.ltb_irrefl, !Z.eqb_refl. cbn [andb].
  destruct (resource_identity request) as [ri|].
  - destruct (Hid ri eq_refl) as (stored & -> & ->). cbn [andb]. rewrite Hop. done.
  - rewrite !bool_decide_eq_true_2 by done. cbn [andb]. by rewrite Hop.
Qed.

Lemma reports_later now now' id request sb lease ops obs rs db :
  reports_for now db id request sb lease ->
  (forall l, job_leases db !! id = Some l -> lease_is_live now' l = true) ->
  reports_for now' (with_progress ops obs rs db) id request sb lease.
Proof.
  intros (l & r & s & He & Hl & Hr & _ & Hrest) Hlive. exists l, r, s. split_and!; auto; apply Hrest.
Qed.

Lemma check_existing_own now lease sb request db row :
  progress_ok db -> provisioning_operations (world db) !! sb = Some row ->
  po_lease_id row = lease_id lease ->
  check_existing now lease sb request db = check_progress lease sb request (world db) row.
Proof.
  intros Hok Hrow Hid. unfold check_existing. rewrite Hrow.
  destruct (Hok _ _ Hrow) as (_ & l & -> & _). unfold check_ownership.
  by rewrite bool_decide_eq_true_2.
Qed.

Lemma check_existing_behind now lease sb request db row existing :
  provisioning_operations (world db) !! sb = Some row ->
  job_leases db !! po_lease_id row = Some existing -> po_lease_id row <> lease_id lease ->
  lr_job_id existing = job_id (lease_job lease) -> lease_is_live now existing = false ->
  (po_lease_attempt row < lease_attempt lease)%Z ->
  (forall ri, resource_identity request = Some ri -> exists stored,
     stage_resource (world db) sb (up_stage request) ri = Some stored /\
     identity_differs request ri stored = false) ->
  check_existing now lease sb request db = Ok (RecordStage false false).
Proof.
  intros Hrow Hex Hid Hjob Hdead Ha Hst. unfold check_existing, check_ownership.
  rewrite Hrow, Hex, bool_decide_eq_false_2, Hdead, bool_decide_eq_true_2 by done.
  rewrite (proj2 (Z.leb_gt _ _)) by done. cbn [result_bind]. unfold check_progress, same_position.
  rewrite (proj2 (Z.ltb_ge _ _)), (proj2 (Z.eqb_neq _ _)) by lia. cbn [andb].
  destruct (resource_identity request) as [ri|]; [|done].
  destruct (Hst ri eq_refl) as (stored & -> & ->). done.
Qed.

Lemma dead_later now now' l :
  (now <= now')%Z -> lease_is_live now l = false -> lease_is_live now' l = false.
Proof.
  unfold lease_is_live. intros Hle. destruct (is_active l); [|done]. simpl.
  rewrite !Z.ltb_ge. lia.
Qed.

Lemma stored_identity kept rs' sb request rotate :
  match resource_identity request with
  | Some ri => identity_stored kept rs' sb request ri rotate
  | None => rs' = kept
  end ->
  forall ri, resource_identity request = Some ri -> exists stored,
    find_resource rs' sb (up_stage request) ri = Some stored /\ identity_differs request ri stored = false.
Proof.
  intros Hrs ri Hri. rewrite Hri in Hrs. destruct Hrs as [(r & Hf & Hu & Hg & _) _].
  exists r. split; [done|]. by apply identity_differs_false.
Qed.

Lemma repeat_already now now' id request sb lease db op :
  reports_for now db id request sb lease -> progress_ok db ->
  check_existing now lease sb request db = Ok (AlreadyRecorded op) ->
  check_existing now' lease sb request db = Ok (AlreadyRecorded op).
Proof.
  intros Hr Hok Hc. destruct (provisioning_operations (world db) !! sb) as [row|] eqn:Hrow;
    [|unfold check_existing in Hc; by rewrite Hrow in Hc].
  destruct (check_existing_ok _ _ _ _ _ _ _ Hc Hrow) as (ex & _ & [[Hcont Hq]|[_ [=]]]).
  pose proof (check_progress_ok _ _ _ _ _ _ Hq) as (_ & _ & Hsame & _).
  assert (po_lease_id row = lease_id lease) as Hown.
  { destruct Hcont as [|(_ & _ & ?)]; [done|]. unfold same_position in Hsame. bool_to_prop. lia. }
  by erewrite check_existing_own.
Qed.

(** A row the report does not reach belongs to an older attempt of its job. *)
Lemma behind_continues now id request sb lease db row rotate :
  reports_for now db id request sb lease -> progress_ok db ->
  provisioning_operations (world db) !! sb = Some row ->
  check_existing now lease sb request db = Ok (RecordStage false rotate) ->
  (ordinal (up_stage request) < po_stage_index row)%Z ->
  exists existing, job_leases db !! po_lease_id row = Some existing /\
    po_lease_id row <> lease_id lease /\ lr_job_id existing = job_id (lease_job lease) /\
    lease_is_live now existing = false /\ (po_lease_attempt row < lease_attempt lease)%Z.
Proof.
  intros Hr Hok Hrow Hc Hlt. destruct (reporting_lease_row _ _ _ _ _ _ Hr) as (Hid & l & Hl & Hla & _).
  destruct (check_existing_ok _ _ _ _ _ _ _ Hc Hrow) as (ex & Hex & [[Hcont Hq]|[_ [=]]]).
  apply check_progress_ok in Hq as (Ha & Hst & _).
  destruct (decide (po_lease_attempt row = lease_attempt lease)) as [E|Hne]; [specialize (Hst E); lia|].
  destruct (Hok _ _ Hrow) as (_ & l0 & Hl0 & Hla0).
  assert (po_lease_id row <> lease_id lease) as Hother by (intros E; rewrite Hid in E; congruence).
  exists ex. destruct Hcont as [|(Hj & Hdead & Hlt')]; [done|]. auto.
Qed.

Lemma repeat_recorded now now' id request sb lease replace rotate db op db' :
  reports_for now db id request sb lease -> progress_ok db -> (now <= now')%Z ->
  holds_live_lease (job_leases db) (lease_id lease) (lease_attempt lease) now' = true ->
  check_existing now lease sb request db = Ok (RecordStage replace rotate) ->
  stage_recorded sb lease now request replace rotate db op db' ->
  match check_existing now' lease sb request db' with
  | Err e => Err e
  | Ok (AlreadyRecorded op) => Ok (op, db')
  | Ok (RecordStage replace rotate) => record_stage sb lease now' request replace rotate db'
  end = Ok (op, db').
Proof.
  intros Hr Hok Hnow Hlive Hc (_ & Hm & Hop & rs' & -> & Hst).
  pose proof (stored_identity _ _ _ _ _ Hst) as Hrs.
  destruct (next_operation_cases db replace sb lease now request Hok) as [[E _]|(row & -> & Hrow & E & Hlt)];
    rewrite E in Hop; rewrite E.
  - erewrite check_existing_own; [| |by apply lookup_insert_eq | done].
    + erewrite check_progress_recorded by done. done.
    + apply with_progress_ok, map_Forall_insert_2; [by eapply requested_ok | done].
  - rewrite insert_id by done.
    destruct (behind_continues _ _ _ _ _ _ _ _ Hr Hok Hrow Hc Hlt) as (ex & Hex & Hne & Hj & Hdead & Ha).
    erewrite check_existing_behind; [| by apply Hrow | by apply Hex | done | done
      | by eapply dead_later | done | done].
    eapply record_noop; [done | by apply Hrow | done | done | apply observe_twice | done | done].
Qed.

(** A report can be repeated.  Sent again while its lease is live, an
    accepted report is accepted again, answers with the same operation and
    changes no table. *)
Theorem stage_report_can_be_repeated rt rt' id request db op db' :
  progress_ok db ->
  update_provisioning_stage_in_transaction rt id request db = (Ok op, db') ->
  (utc_now rt <= utc_now rt')%Z ->
  (forall l, job_leases db !! id = Some l -> lease_is_live (utc_now rt') l = true) ->
  update_provisioning_stage_in_transaction rt' id request db' = (Ok op, db').
Proof.
  intros Hok Hu Hnow Hlive. apply validated_update in Hu as [Hv Hu].
  unfold update_provisioning_stage_in_transaction, run_tx. rewrite Hv.
  apply update_stage_ok in Hu as (sb & lease & d & Hr & Hc & Hd).
  destruct (reporting_lease_row _ _ _ _ _ _ Hr) as (Hid & l & Hl & Hla & _).
  pose proof (fun ops obs rs => reports_later _ _ _ _ _ _ ops obs rs _ Hr Hlive) as Hr'.
  destruct d as [op0|replace rotate].
  - destruct Hd as [-> ->]. assert (reports_for (utc_now rt') db id request sb lease) as Hr1
      by (rewrite <- (set_progress_same db); apply Hr').
    erewrite update_stage_runs by exact Hr1. by rewrite (repeat_already _ _ _ _ _ _ _ _ Hr Hok Hc).
  - pose proof Hd as (_ & _ & _ & rs' & Edb & _).
    assert (reports_for (utc_now rt') db' id request sb lease) as Hr1 by (rewrite Edb; apply Hr').
    erewrite update_stage_runs by exact Hr1.
    assert (holds_live_lease (job_leases db) (lease_id lease) (lease_attempt lease) (utc_now rt') = true)
      as Hholds by (unfold holds_live_lease; by rewrite Hid, Hl, Hlive, Hla, Z.eqb_refl).
    by rewrite (repeat_recorded _ _ _ _ _ _ _ _ _ _ _ Hr Hok Hnow Hholds Hc Hd).
Qed.

(** ** Reports behind the row *)

Lemma store_resource_succeeds sb now rotate request ri db :
  (forall stored, stage_resource (world db) sb (up_stage request) ri = Some stored ->
     rotate = true \/ identity_differs request ri stored = false) ->
  exists db', store_resource sb now rotate request ri db = Ok (tt, db') /\
    provisioning_operations (world db') = provisioning_operations (world db).
Proof.
  intros Hs. unfold store_resource, tx_bind, modify_world, tx_modify, get_world, tx_bind, tx_get, tx_ret.
  set (rs' := match stage_resource (world db) sb (up_stage request) ri with
              | Some _ => _ | None => _ end).
  assert (exists stored, find_resource rs' sb (up_stage request) ri = Some stored /\
            identity_differs request ri stored = false) as (stored & Hf & Hd).
  { subst rs'. unfold stage_resource in *. unfold find_resource.
    destruct (find _ (provisioning_operation_resources (world db))) as [stored|] eqn:Ef.
    - destruct rotate.
      + rewrite find_rewrite by (intros a; by destruct (is_stage_resource _ _ _ a) eqn:Ea).
        rewrite Ef. cbn [fmap option_fmap option_map]. rewrite (proj2 (find_some _ _ Ef)).
        eexists. split; [reflexivity|]. by apply identity_differs_false.
      + exists stored. split; [done|]. by destruct (Hs _ eq_refl).
    - rewrite find_app, Ef. cbn [find].
      assert (forall r, is_stage_resource sb (up_stage request) ri r = true ->
        (if is_stage_resource sb (up_stage request) ri r then Some r else None) = Some r) as Hif
        by (intros r ->; done).
      rewrite Hif by by apply is_stage_resource_spec.
      eexists. split; [reflexivity|]. by apply identity_differs_false. }
  unfold stage_resource at 1. cbn [world set_world provisioning_operation_resources
    set_provisioning_operation_resources].
  unfold find_resource in Hf. rewrite Hf, Hd. eexists. split; reflexivity.
Qed.

(** The decision on a report that a newer attempt makes below the row's stage. *)
Lemma check_existing_unfenced now lease sb request db row existing :
  provisioning_operations (world db) !! sb = Some row ->
  job_leases db !! po_lease_id row = Some existing -> po_lease_id row <> lease_id lease ->
  lr_job_id existing = job_id (lease_job lease) -> lease_is_live now existing = false ->
  (po_lease_attempt row < lease_attempt lease)%Z ->
  exists rotate, check_existing now lease sb request db = Ok (RecordStage false rotate) /\
    forall ri stored, resource_identity request = Some ri ->
      stage_resource (world db) sb (up_stage request) ri = Some stored ->
      rotate = true \/ identity_differs request ri stored = false.
Proof.
  intros Hrow Hex Hne Hj Hdead Ha. unfold check_existing, check_ownership.
  rewrite Hrow, Hex, Hdead, bool_decide_eq_false_2, bool_decide_eq_true_2 by congruence.
  rewrite (proj2 (Z.leb_gt _ _)) by done. cbn [result_bind]. unfold check_progress, same_position.
  rewrite (proj2 (Z.ltb_ge _ _)), (proj2 (Z.eqb_neq _ _)) by lia. cbn [andb].
  destruct (resource_identity request) as [ri|]; [|by exists false].
  destruct (stage_resource (world db) sb (up_stage request) ri) as [stored|] eqn:Est.
  - exists (identity_differs request ri stored). rewrite (proj2 (Z.leb_gt _ _)), andb_false_r by done.
    split; [done|]. intros ? ? [= <-]. rewrite Est. intros [= <-].
    destruct (identity_differs request ri stored); auto.
  - exists false. split; [done|]. intros ? ? [= <-]. by rewrite Est.
Qed.

(** A retry that has not reached the stage its predecessor recorded is not
    fenced: every well-formed report it makes there is accepted, whatever
    resource identity or error it carries, and none of it enters the row, which
    keeps naming the ended lease. *)
Theorem reports_behind_are_accepted rt id request sb lease db row existing :
  reports_for (utc_now rt) db id request sb lease -> validate_stage_update request = Ok tt ->
  progress_ok db -> provisioning_operations (world db) !! sb = Some row ->
  job_leases db !! po_lease_id row = Some existing -> po_lease_id row <> id ->
  lr_job_id existing = job_id (lease_job lease) -> lease_is_live (utc_now rt) existing = false ->
  (po_lease_attempt row < lease_attempt lease)%Z ->
  (ordinal (up_stage request) < po_stage_index row)%Z ->
  exists op db', update_provisioning_stage_in_transaction rt id request db = (Ok op, db') /\
    provisioning_operation_from_row sb row = Ok op /\
    provisioning_operations (world db') = provisioning_operations (world db).
Proof.
  intros Hr Hv Hok Hrow Hex Hne Hj Hdead Ha Hlt.
  destruct (reporting_lease_row _ _ _ _ _ _ Hr) as (Hid & l & Hl & Hla & Hlive). rewrite <- Hid in Hne.
  destruct (Hok _ _ Hrow) as [(stage & Es & Ei) _].
  assert (exists op, provisioning_operation_from_row sb row = Ok op) as [op Hop].
  { unfold provisioning_operation_from_row. rewrite Es, parse_as_db_str. by eexists. }
  destruct (check_existing_unfenced (utc_now rt) lease sb request db row existing)
    as (rotate & Hc & Hrot); [done..|].
  unfold update_provisioning_stage_in_transaction, run_tx. rewrite Hv.
  erewrite update_stage_runs by exact Hr. rewrite Hc. unfold record_stage.
  unfold tx_bind at 1. cbn [tx_ret]. unfold tx_bind at 1. erewrite upsert_noop; [|..|done];
    [| unfold holds_live_lease; by rewrite Hid, Hl, Hlive, Hla, Z.eqb_refl | done | done].
  unfold tx_bind at 1. unfold observe_stage at 1, modify_world at 1, tx_modify at 1. cbn [world].
  set (db1 := set_world _ db).
  assert (exists db2, match resource_identity request with
    | Some ri => store_resource sb (utc_now rt) rotate request ri | None => tx_ret tt end db1 = Ok (tt, db2) /\
    provisioning_operations (world db2) = provisioning_operations (world db)) as (db2 & E2 & Eops).
  { destruct (resource_identity request) as [ri|]; [|by exists db1].
    destruct (store_resource_succeeds sb (utc_now rt) rotate request ri db1) as (db2 & E2 & Eops).
    - intros stored Hst. by eapply Hrot.
    - by exists db2. }
  unfold tx_bind at 1. rewrite E2. unfold tx_bind, get_world, tx_bind, tx_get, tx_ret.
  rewrite Eops, Hrow. unfold tx_lift. rewrite Hop. by exists op, db2.
Qed.
End ProvisioningProofs.
