(* ===== verification/RuntimeResources.v ===== *)
(** * Runtime resources

    What a provider reports to have created for a sandbox (pods, volumes,
    services, ...), recorded under the resource's provider identity.  A
    reported batch is upserted row by row; a stop or a resume retires the
    rows of the runtime generation that went away.

    Source: [sandboxwich-api/src/reconcile.rs]. *)

From S2P Require Import Prelude CoreTypes Json Store Leases SandboxLifecycle World CommandOutput.

(** ** Operations *)

Definition is_torn_down (status : RuntimeResourceStatus) : bool :=
  match status with
  | RuntimeResourceStatus.Deleted | RuntimeResourceStatus.Destroyed => true
  | _ => false
  end.

Definition deleted_at_for_runtime_resource (status : RuntimeResourceStatus) (now : Z) : option Z :=
  if is_torn_down status then Some now else None.

Definition validate_provider_runtime_resource (r : ProviderRuntimeResource) : result unit ApiError :=
  if trim_is_empty (prr_provider r) then Err (bad_request "runtime resource provider is required")
  else if trim_is_empty (prr_namespace r) then
    Err (bad_request "runtime resource namespace is required")
  else if match prr_cluster r with Some c => trim_is_empty c | None => false end then
    Err (bad_request "runtime resource cluster cannot be empty")
  else if trim_is_empty (prr_resource_name r) then
    Err (bad_request "runtime resource name is required")
  else if bool_decide (prr_service_port r = Some 0%Z) then
    Err (bad_request "runtime resource service_port must be greater than 0")
  else Ok tt.

(** The identity lookup of [fetch_runtime_resource_id_on_connection]. *)
Definition has_provider_identity (r : ProviderRuntimeResource) (row : RuntimeResource) : bool :=
  String.eqb (rr_provider row) (prr_provider r)
  && bool_decide (rr_resource_kind row = prr_resource_kind r)
  && String.eqb (rr_namespace row) (prr_namespace r)
  && bool_decide (rr_cluster row = prr_cluster r)
  && String.eqb (rr_resource_name row) (prr_resource_name r).

Definition fetch_runtime_resource_id (w : World) (r : ProviderRuntimeResource) : option Uuid :=
  fst <$> find (fun kr => has_provider_identity r kr.2) (map_to_list (runtime_resources w)).

(** The unique index [idx_runtime_resources_identity], on
    [coalesce(cluster, '')]. *)
Definition clashes_identity (r : ProviderRuntimeResource) (row : RuntimeResource) : bool :=
  String.eqb (rr_provider row) (prr_provider r)
  && bool_decide (rr_resource_kind row = prr_resource_kind r)
  && String.eqb (rr_namespace row) (prr_namespace r)
  && String.eqb (default "" (rr_cluster row)) (default "" (prr_cluster r))
  && String.eqb (rr_resource_name row) (prr_resource_name r).

Definition snapshot_exists (w : World) (o : option Uuid) : bool :=
  match o with None => true | Some s => is_some (snapshots w !! s) end.

(** The foreign keys of [runtime_resources]. *)
Definition resource_references_hold (w : World) (r : ProviderRuntimeResource) : bool :=
  is_some (sandboxes w !! prr_sandbox_id r)
  && snapshot_exists w (prr_snapshot_id r) && snapshot_exists w (prr_source_snapshot_id r).

(** The row an insert writes; an update keeps [created_at] and, when the
    caller passes none, [last_reconciled_at]. *)
Definition resource_row (r : ProviderRuntimeResource) (created_at now : Z)
    (observed_at last_reconciled_at : option Z) : RuntimeResource :=
  mkRuntimeResource (prr_sandbox_id r) (prr_snapshot_id r) (prr_provider r) (prr_resource_kind r)
    (prr_purpose r) (prr_resource_name r) (prr_namespace r) (prr_status r) (prr_cluster r)
    (prr_storage_class r) (prr_snapshot_class r) (prr_storage_size r) (prr_runtime_image r)
    (prr_service_port r) (prr_target_port r) (prr_source_snapshot_id r) created_at now observed_at
    last_reconciled_at (prr_ready_at r) (deleted_at_for_runtime_resource (prr_status r) now)
    (prr_error r).

(** [insert_runtime_resource_from_provider_on_connection]: [on conflict do
    nothing]. *)
Definition insert_runtime_resource_from_provider_on_connection (rt : Runtime) (n : nat)
    (r : ProviderRuntimeResource) (observed_at last_reconciled_at : option Z) : Tx World bool :=
  let! w := get_world in
  if is_some (runtime_resources w !! new_uuid rt n)
     || existsb (fun kr => clashes_identity r kr.2) (map_to_list (runtime_resources w))
  then tx_ret false
  else
    check! resource_references_hold w r else foreign_key_error in
    let! _ := modify_world (set_runtime_resources
      (<[new_uuid rt n := resource_row r (utc_now rt) (utc_now rt) observed_at last_reconciled_at]>
         (runtime_resources w))) in
    tx_ret true.

(** [update_runtime_resource_from_provider_on_connection]. *)
Definition update_runtime_resource_from_provider_on_connection (rt : Runtime) (id : Uuid)
    (existing : RuntimeResource) (r : ProviderRuntimeResource)
    (observed_at last_reconciled_at : option Z) : Tx World unit :=
  let! w := get_world in
  check! resource_references_hold w r else foreign_key_error in
  modify_world (set_runtime_resources
    (<[id := resource_row r (rr_created_at existing) (utc_now rt) observed_at
               (match last_reconciled_at with
                | Some t => Some t
                | None => rr_last_reconciled_at existing
                end)]> (runtime_resources w))).

(** A torn-down resource has released its name, so the same sandbox may
    recreate it from another source snapshot; nothing else changes
    association. *)
Definition association_matches (existing : RuntimeResource) (r : ProviderRuntimeResource) : bool :=
  let restored_by_same_sandbox :=
    bool_decide (rr_sandbox_id existing = prr_sandbox_id r)
    && bool_decide (rr_snapshot_id existing = prr_snapshot_id r)
    && is_torn_down (rr_status existing) in
  bool_decide (rr_sandbox_id existing = prr_sandbox_id r)
  && bool_decide (rr_snapshot_id existing = prr_snapshot_id r)
  && (restored_by_same_sandbox
      || bool_decide (rr_source_snapshot_id existing = prr_source_snapshot_id r)).

Definition update_existing_runtime_resource (rt : Runtime) (id : Uuid)
    (r : ProviderRuntimeResource) (observed_at last_reconciled_at : option Z)
    (tenant_id : option string) : Tx World unit :=
  let! w := get_world in
  match runtime_resources w !! id with
  | None => tx_throw (not_found "runtime resource not found")
  | Some existing =>
      check! association_matches existing r
        else bad_request "runtime resource provider identity belongs to a different association" in
      let! _ := match tenant_id with
                | Some t =>
                    let! _ := ensure_sandbox_tenant_on_connection (rr_sandbox_id existing) t in
                    tx_ret tt
                | None => tx_ret tt
                end in
      update_runtime_resource_from_provider_on_connection rt id existing r observed_at
        last_reconciled_at
  end.

Definition upsert_provider_runtime_resource_on_connection (rt : Runtime) (n : nat)
    (r : ProviderRuntimeResource) (observed_at last_reconciled_at : option Z)
    (tenant_id : option string) : Tx World unit :=
  let! _ := tx_lift (validate_provider_runtime_resource r) in
  let! _ := match tenant_id with
            | Some t =>
                let! _ := ensure_sandbox_tenant_on_connection (prr_sandbox_id r) t in tx_ret tt
            | None => tx_ret tt
            end in
  let! w := get_world in
  match fetch_runtime_resource_id w r with
  | Some id =>
      update_existing_runtime_resource rt id r observed_at last_reconciled_at tenant_id
  | None =>
      let! inserted := insert_runtime_resource_from_provider_on_connection rt n r observed_at
                         last_reconciled_at in
      if inserted then tx_ret tt
      else
        let! w := get_world in
        match fetch_runtime_resource_id w r with
        | None => tx_throw (internal "conflicting runtime resource disappeared")
        | Some id =>
            update_existing_runtime_resource rt id r observed_at last_reconciled_at tenant_id
        end
  end.

Fixpoint upsert_each (rt : Runtime) (n : nat) (resources : list ProviderRuntimeResource) :
    Tx World unit :=
  match resources with
  | [] => tx_ret tt
  | r :: rest =>
      let! _ := upsert_provider_runtime_resource_on_connection rt n r (Some (utc_now rt)) None
                  None in
      upsert_each rt (S n) rest
  end.

(** [upsert_provider_runtime_resources_on_connection]: one sandbox per
    batch, its tenant checked once. *)
Definition upsert_provider_runtime_resources_on_connection (rt : Runtime) (n : nat)
    (resources : list ProviderRuntimeResource) (tenant_id : string) : Tx World unit :=
  match resources with
  | [] => tx_ret tt
  | first :: _ =>
      if existsb (fun r => negb (bool_decide (prr_sandbox_id r = prr_sandbox_id first))) resources
      then tx_throw (bad_request "runtime resource batch must belong to a single sandbox")
      else
        let! _ := ensure_sandbox_tenant_on_connection (prr_sandbox_id first) tenant_id in
        upsert_each rt n resources
  end.

(** ** Retiring a generation *)

Inductive RuntimeResourceGeneration : Set :=
| AllGenerations
| RuntimeOnly.

Definition in_generation (g : RuntimeResourceGeneration) (row : RuntimeResource) : bool :=
  match g with
  | AllGenerations => true
  | RuntimeOnly =>
      is_none (rr_snapshot_id row)
      && negb (bool_decide (rr_purpose row = RuntimeResourcePurpose.Snapshot))
  end.

Definition resource_set_destroyed (deleted_at : Z) (error : string) (row : RuntimeResource) :
    RuntimeResource :=
  mkRuntimeResource (rr_sandbox_id row) (rr_snapshot_id row) (rr_provider row)
    (rr_resource_kind row) (rr_purpose row) (rr_resource_name row) (rr_namespace row)
    RuntimeResourceStatus.Destroyed (rr_cluster row) (rr_storage_class row)
    (rr_snapshot_class row) (rr_storage_size row) (rr_runtime_image row) (rr_service_port row)
    (rr_target_port row) (rr_source_snapshot_id row) (rr_created_at row) deleted_at
    (rr_observed_at row) (Some deleted_at) (rr_ready_at row) (Some deleted_at) (Some error).

Definition is_live_resource_of (sandbox_id : Uuid) (g : RuntimeResourceGeneration)
    (row : RuntimeResource) : bool :=
  bool_decide (rr_sandbox_id row = sandbox_id) && negb (is_torn_down (rr_status row))
  && in_generation g row.

(** [mark_runtime_resources_deleted_for_sandbox_on_connection]; the rows it
    reads back afterwards are for its callers' reports. *)
Definition mark_runtime_resources_deleted_for_sandbox_on_connection (sandbox_id : Uuid)
    (g : RuntimeResourceGeneration) (deleted_at : Z) (error : string) : Tx World unit :=
  modify_world (fun w =>
    set_runtime_resources
      (update_rows (fun _ => is_live_resource_of sandbox_id g)
         (resource_set_destroyed deleted_at error) (runtime_resources w)) w).

(** ** Lemmas *)

(** One row per provider identity. *)
Definition same_resource (a b : RuntimeResource) : Prop :=
  rr_provider a = rr_provider b /\ rr_resource_kind a = rr_resource_kind b /\
  rr_namespace a = rr_namespace b /\ default "" (rr_cluster a) = default "" (rr_cluster b) /\
  rr_resource_name a = rr_resource_name b.

#[export] Instance same_resource_equiv : Equivalence same_resource.
Proof.
  split.
  - intros a. done.
  - intros a b (?&?&?&?&?). split_and!; congruence.
  - intros a b c (?&?&?&?&?) (?&?&?&?&?). split_and!; congruence.
Qed.

Definition resources_unique (w : World) : Prop :=
  forall id id' a b, runtime_resources w !! id = Some a -> runtime_resources w !! id' = Some b ->
    same_resource a b -> id = id'.

(** A row keeps its sandbox and snapshot; a live one also its source. *)
Definition keeps_owner (a b : RuntimeResource) : Prop :=
  rr_sandbox_id b = rr_sandbox_id a /\ rr_snapshot_id b = rr_snapshot_id a.

Definition keeps_lineage (a b : RuntimeResource) : Prop :=
  keeps_owner a b /\
  (is_torn_down (rr_status a) = false -> rr_source_snapshot_id b = rr_source_snapshot_id a).

Definition resources_evolve (R : relation RuntimeResource) (w w' : World) : Prop :=
  (forall id a, runtime_resources w !! id = Some a ->
     exists b, runtime_resources w' !! id = Some b /\ R a b) /\
  (resources_unique w -> resources_unique w').

#[export] Instance resources_evolve_refl R `{!Reflexive R} : Reflexive (resources_evolve R).
Proof. intros w. split; eauto. Qed.

#[export] Instance keeps_owner_preorder : PreOrder keeps_owner.
Proof.
  split; [done|]. intros a b c [] []. split; congruence.
Qed.

#[export] Instance keeps_lineage_refl : Reflexive keeps_lineage.
Proof. done. Qed.

Lemma evolve_owner w w' : resources_evolve keeps_lineage w w' -> resources_evolve keeps_owner w w'.
Proof. intros [He Hu]. split; [|done]. intros id a Ha. destruct (He _ _ Ha) as (b & Hb & [? _]). eauto. Qed.

#[export] Instance resources_evolve_trans R `{!Transitive R} : Transitive (resources_evolve R).
Proof.
  intros w1 w2 w3 [H12 U12] [H23 U23]. split; [|auto]. intros id a Ha.
  destruct (H12 _ _ Ha) as (b & Hb & Rab). destruct (H23 _ _ Hb) as (c & Hc & Rbc). eauto.
Qed.

Lemma fetch_resource_ok w r id :
  fetch_runtime_resource_id w r = Some id ->
  exists row, runtime_resources w !! id = Some row /\ has_provider_identity r row = true.
Proof.
  unfold fetch_runtime_resource_id. destruct (find _ _) as [[id' row]|] eqn:E; [|done].
  simpl. intros [= ->]. apply find_some in E as [Hin Hid].
  exists row. split; [|done]. by apply elem_of_map_to_list, list_elem_of_In.
Qed.

Lemma identity_row_same r row created now obs rec :
  has_provider_identity r row = true -> same_resource (resource_row r created now obs rec) row.
Proof.
  unfold has_provider_identity, same_resource. intros Hid. bool_to_prop. simpl.
  split_and!; congruence.
Qed.

Lemma clash_of_same r created now obs rec row :
  same_resource (resource_row r created now obs rec) row -> clashes_identity r row = true.
Proof.
  intros (H1 & H2 & H3 & H4 & H5). simpl in *. unfold clashes_identity.
  rewrite <- H1, <- H3, <- H4, <- H5, <- H2, !String.eqb_refl.
  by rewrite bool_decide_eq_true_2.
Qed.

Lemma hydrate_tenant w s : sb_tenant_id (hydrate_sandbox_network_egress w s) = sb_tenant_id s.
Proof. unfold hydrate_sandbox_network_egress. by destruct (sb_network_egress s). Qed.

Lemma ensure_tenant_ok sb t db s db' :
  ensure_sandbox_tenant_on_connection sb t db = Ok (s, db') ->
  db' = db /\ exists s0, sandboxes (world db) !! sb = Some s0 /\ sb_tenant_id s0 = t.
Proof.
  unfold ensure_sandbox_tenant_on_connection. intros He. world_step He.
  tx_step He. tx_step Hm. unfold fetch_sandbox in *.
  destruct (sandboxes _ !! sb) as [s0|] eqn:E; simplify_eq. rewrite hydrate_tenant in He.
  destruct (String.eqb_spec (sb_tenant_id s0) t); tx_step He. eauto.
Qed.

Lemma optional_tenant_ok sb (o : option string) db u db' :
  match o with
  | Some t => let! _ := ensure_sandbox_tenant_on_connection sb t in tx_ret tt
  | None => tx_ret tt
  end db = Ok (u, db') -> db' = db.
Proof.
  destruct o; intros He; [|by tx_step He]. tx_step He. apply ensure_tenant_ok in Hm as [-> _].
  by tx_step He.
Qed.

Lemma update_existing_ok rt id r obs rec t db u db' row :
  runtime_resources (world db) !! id = Some row -> has_provider_identity r row = true ->
  update_existing_runtime_resource rt id r obs rec t db = Ok (u, db') ->
  resources_evolve keeps_lineage (world db) (world db').
Proof.
  intros Hrow Hid Hu. unfold update_existing_runtime_resource in Hu. world_step Hu.
  rewrite Hrow in Hu. destruct (association_matches row r) eqn:Ha; [|by tx_step Hu].
  tx_step Hu. apply optional_tenant_ok in Hm as ->.
  unfold update_runtime_resource_from_provider_on_connection in Hu. world_step Hu.
  destruct (resource_references_hold _ _); [|by tx_step Hu]. world_step Hu. simpl.
  unfold association_matches in Ha. apply andb_true_iff in Ha as [Ha Hsrc].
  apply andb_true_iff in Ha as [Hsb%bool_decide_eq_true Hsn%bool_decide_eq_true].
  split; simpl.
  - intros k x Hk. destruct (decide (k = id)) as [->|Hne];
      [|rewrite lookup_insert_ne by done; by exists x].
    rewrite lookup_insert_eq. simplify_eq. eexists. split; [done|]. split; [by split|].
    intros Hlive. simpl. rewrite Hlive, andb_false_r in Hsrc. simpl in Hsrc.
    by apply bool_decide_eq_true in Hsrc.
  - intros Hun k k' x y. cbn [runtime_resources set_runtime_resources]. pose proof (identity_row_same r row (rr_created_at row) (utc_now rt) obs
      (match rec with Some t => Some t | None => rr_last_reconciled_at row end) Hid) as Hsame.
    destruct (decide (k = id)) as [->|]; destruct (decide (k' = id)) as [->|]; [done|..];
      rewrite ?lookup_insert_eq, ?lookup_insert_ne by done; intros Hx Hy Hs; simplify_eq.
    + eapply Hun; [exact Hrow | exact Hy |]. by rewrite <- Hsame.
    + eapply Hun; [exact Hx | exact Hrow |]. by rewrite <- Hsame.
    + by eapply Hun.
Qed.

Lemma insert_resource_ok rt n r obs rec db b db' :
  insert_runtime_resource_from_provider_on_connection rt n r obs rec db = Ok (b, db') ->
  resources_evolve keeps_lineage (world db) (world db') /\ (b = false -> db' = db).
Proof.
  unfold insert_runtime_resource_from_provider_on_connection. intros Hi. world_step Hi.
  destruct (is_some _ || existsb _ _) eqn:Ec; [tx_step Hi; split; [reflexivity|done]|].
  apply orb_false_iff in Ec as [Hfresh Hclash].
  destruct (resource_references_hold _ _); [|by tx_step Hi]. world_step Hi. tx_step Hi.
  split; [|done]. assert (Hnone : runtime_resources (world db) !! new_uuid rt n = None)
    by (by destruct (runtime_resources (world db) !! new_uuid rt n)).
  split; simpl.
  - intros k x Hk. rewrite lookup_insert_ne by congruence. by exists x.
  - intros Hun k k' x y. cbn [runtime_resources set_runtime_resources]. assert (Hno : forall k' b, runtime_resources (world db) !! k' = Some b ->
      clashes_identity r b = false).
    { intros k0 b0 Hb0. apply not_true_is_false. intros Hc.
      assert (existsb (fun kr => clashes_identity r kr.2) (map_to_list (runtime_resources (world db))) = true);
        [|congruence]. apply existsb_exists. exists (k0, b0). split; [|done].
      by apply list_elem_of_In, elem_of_map_to_list. }
    destruct (decide (k = new_uuid rt n)) as [->|]; destruct (decide (k' = new_uuid rt n)) as [->|];
      [done|..]; rewrite ?lookup_insert_eq, ?lookup_insert_ne by done; intros Hx Hy Hs; simplify_eq.
    + apply clash_of_same in Hs. rewrite (Hno _ _ Hy) in Hs. done.
    + symmetry in Hs. apply clash_of_same in Hs. rewrite (Hno _ _ Hx) in Hs. done.
    + by eapply Hun.
Qed.

Lemma upsert_resource_ok rt n r obs rec t db u db' :
  upsert_provider_runtime_resource_on_connection rt n r obs rec t db = Ok (u, db') ->
  resources_evolve keeps_lineage (world db) (world db').
Proof.
  intros Hu. unfold upsert_provider_runtime_resource_on_connection in Hu.
  tx_step Hu. tx_step Hm. tx_step Hu. apply optional_tenant_ok in Hm as ->.
  world_step Hu. destruct (fetch_runtime_resource_id _ r) as [id|] eqn:Ef.
  - apply fetch_resource_ok in Ef as (row & Hrow & Hid). by eapply update_existing_ok.
  - tx_step Hu. apply insert_resource_ok in Hm as [He Hsame].
    destruct a1; [tx_step Hu; done|]. rewrite (Hsame eq_refl) in Hu. world_step Hu.
    rewrite Ef in Hu. by tx_step Hu.
Qed.

Lemma upsert_each_ok rt n rs db u db' :
  upsert_each rt n rs db = Ok (u, db') -> resources_evolve keeps_owner (world db) (world db').
Proof.
  revert n db. induction rs as [|r rs IH]; intros n db Hu; simpl in Hu.
  - tx_step Hu. reflexivity.
  - tx_step Hu. apply upsert_resource_ok, evolve_owner in Hm. etrans; [exact Hm | by eapply IH].
Qed.

(** A provider resource never changes hands.  Upserting one reported
    resource keeps every recorded row with its sandbox and its snapshot, and
    a live row also with the snapshot it was cloned from: a report for
    another association is rejected.  A whole batch keeps sandboxes and
    snapshots too, and neither ever records one provider identity twice. *)
Theorem resource_ownership_is_stable rt n r rs tenant t obs rec db u db' :
  (upsert_provider_runtime_resource_on_connection rt n r obs rec t db = Ok (u, db') ->
     resources_evolve keeps_lineage (world db) (world db')) /\
  (upsert_provider_runtime_resources_on_connection rt n rs tenant db = Ok (u, db') ->
     resources_evolve keeps_owner (world db) (world db')).
Proof.
  split; [apply upsert_resource_ok|].
  intros Hu. unfold upsert_provider_runtime_resources_on_connection in Hu.
  destruct rs as [|r0 rs]; [tx_step Hu; reflexivity|].
  destruct (existsb _ _); [by tx_step Hu|]. tx_step Hu. apply ensure_tenant_ok in Hm as [-> _].
  by eapply upsert_each_ok.
Qed.
