(* ===== verification/Snapshots.v ===== *)
(** * Snapshots and the forks that wait on them

    A snapshot's status is kept on its row and on the durable restore source
    that outlives it.  A forked sandbox waits in [planning] until its parent
    snapshot is ready, when its fork job is queued, or has failed, when it
    fails with it.

    Sources: [handlers/snapshots.rs], [handlers/sandboxes.rs]
    ([fork_capability]). *)

From S2P Require Import Prelude CoreTypes Json Store Leases SandboxLifecycle World CommandOutput.
From S2P Require Import RuntimeResources.

(** [update snapshots set status = .., error = ..]. *)
Definition snapshot_set_status (status : SnapshotStatus) (error : option string) (r : SnapshotRow) :
    SnapshotRow :=
  mkSnapshotRow (sn_sandbox_id r) status (sn_label r) (sn_inventory r) (sn_provider_metadata r)
    (sn_runtime_image r) (sn_provision_spec r) (sn_created_at r) (sn_ready_at r)
    (sn_expires_at r) error.

Definition snapshot_set_ready (inventory metadata : Json) (now : Z) (r : SnapshotRow) : SnapshotRow :=
  mkSnapshotRow (sn_sandbox_id r) SnapshotStatus.Ready (sn_label r) inventory metadata
    (sn_runtime_image r) (sn_provision_spec r) (sn_created_at r) (Some now) (sn_expires_at r) None.

Definition restore_source_set_status (status : SnapshotStatus) (r : RestoreSourceRow) :
    RestoreSourceRow :=
  mkRestoreSourceRow (rs_tenant_id r) (rs_source_sandbox_id r) status (rs_expires_at r).

Definition update_restore_source (snapshot_id : Uuid) (status : SnapshotStatus) (w : World) : World :=
  set_snapshot_restore_sources
    (alter (restore_source_set_status status) snapshot_id (snapshot_restore_sources w)) w.

Section Snapshots.
Context `{UuidLib} `{SerdeLib}.

Definition update_snapshot_status_on_connection (snapshot_id : Uuid) (status : SnapshotStatus)
    (error : option string) : Tx World unit :=
  let! w := get_world in
  match snapshots w !! snapshot_id with
  | None => tx_throw (not_found "snapshot not found")
  | Some r =>
      let! _ := modify_world (set_snapshots
        (<[snapshot_id := snapshot_set_status status error r]> (snapshots w))) in
      modify_world (update_restore_source snapshot_id status)
  end.

(** [fail_pending_snapshot_on_connection]: whether a pending snapshot was
    failed. *)
Definition fail_pending_snapshot_on_connection (snapshot_id : Uuid) (error : string) :
    Tx World bool :=
  let! w := get_world in
  let '(affected, m) :=
    update_row snapshot_id (fun r => bool_decide (sn_status r = SnapshotStatus.Pending))
      (snapshot_set_status SnapshotStatus.Failed (Some error)) (snapshots w) in
  if affected then
    let! _ := modify_world (set_snapshots m) in
    let! _ := modify_world (update_restore_source snapshot_id SnapshotStatus.Failed) in
    tx_ret true
  else tx_ret false.

(** [order by created_at asc, id asc]. *)
Definition sandbox_age_le (a b : Uuid * Sandbox) : Prop :=
  (sb_created_at a.2 < sb_created_at b.2)%Z \/
  (sb_created_at a.2 = sb_created_at b.2 /\ (a.1 <= b.1)%N).

#[export] Instance sandbox_age_le_dec : RelDecision sandbox_age_le.
Proof. intros a b. unfold sandbox_age_le. apply _. Defined.

(** The children waiting on a snapshot: [parent_snapshot_id = .. and state =
    'planning']. *)
Definition waits_on (snapshot_id : Uuid) (s : Sandbox) : bool :=
  bool_decide (sb_parent_snapshot_id s = Some snapshot_id)
  && bool_decide (sb_state s = SandboxState.Planning).

Definition waiting_children (w : World) (snapshot_id : Uuid) : list (Uuid * Sandbox) :=
  merge_sort sandbox_age_le
    (List.filter (fun ks => waits_on snapshot_id ks.2) (map_to_list (sandboxes w))).

Fixpoint fail_children (rt : Runtime) (n : nat) (snapshot_id : Uuid) (reason error : string)
    (children : list (Uuid * Sandbox)) : Tx World unit :=
  match children with
  | [] => tx_ret tt
  | (child, _) :: rest =>
      let! _ := set_sandbox_state_on_connection rt n child SNAPSHOT_FAILED_CHILD_LEGAL_FROM
                  SandboxState.Error
                  (JObject [("state", JString (as_db_str SandboxState.Error));
                            ("reason", JString reason);
                            ("parentSnapshotId", json_uuid snapshot_id);
                            ("error", JString error)]) in
      fail_children rt (S n) snapshot_id reason error rest
  end.

Definition fail_sandboxes_waiting_on_snapshot_on_connection (rt : Runtime) (n : nat)
    (snapshot_id : Uuid) (reason error : string) : Tx World unit :=
  let! w := get_world in
  fail_children rt n snapshot_id reason error (waiting_children w snapshot_id).

(** [fork_capability]. *)
Definition fork_capability (profile : SandboxRuntimeProfile) (egress : NetworkEgress) :
    WorkerCapability :=
  if bool_decide (profile = SandboxRuntimeProfile.ApexTrustedSupervisorV1) then
    WorkerCapability.ApexTrustedSupervisorV1
  else if existsb (fun r => bool_decide (rule_kind r = NetworkAllowRuleKind.Host)) (rules egress)
  then WorkerCapability.FqdnEgress
  else WorkerCapability.Snapshot.

(** The specification a fork job carries: the child's own fields over
    [SandboxProvisionSpec::default()]. *)
Definition fork_provision_spec (child : Sandbox) : SandboxProvisionSpec :=
  mkSandboxProvisionSpec (sb_memory_limit child) (sb_network_egress child)
    (sb_workspace_mode child) (sb_runtime_profile child) (sb_execution_class child)
    ProviderPreference.Any None None None [] None.

Definition fork_job (rt : Runtime) (n : nat) (snapshot_id parent_sandbox_id : Uuid) (child : Sandbox) :
    Job :=
  let now := utc_now rt in
  mkJob (new_uuid rt n) (sb_tenant_id child) JobKind.ForkSandbox JobStatus.Queued
    (JObject [("parentSandboxId", json_uuid parent_sandbox_id);
              ("childSandboxId", json_uuid (sb_id child));
              ("snapshotId", json_uuid snapshot_id);
              ("runtimeImage", JString (sb_template child));
              ("provisionSpec", provision_spec_to_value (fork_provision_spec child))])
    (fork_capability (sb_runtime_profile child) (sb_network_egress child))
    (sb_execution_class child) 0 0 3 now now now None.

Fixpoint queue_children (rt : Runtime) (n : nat) (snapshot_id parent_sandbox_id : Uuid) (w : World)
    (children : list (Uuid * Sandbox)) : Tx World unit :=
  match children with
  | [] => tx_ret tt
  | (id, row) :: rest =>
      let child := hydrate_sandbox_network_egress w row in
      let! _ := insert_job_on_connection (fork_job rt n snapshot_id parent_sandbox_id child) in
      let! _ := insert_event_on_connection rt (S n) (sb_id child) SandboxEventKind.LifecycleChanged
                  (JObject [("state", JString (as_db_str (sb_state child)));
                            ("reason", JString "fork_snapshot_ready");
                            ("parentSandboxId", json_uuid parent_sandbox_id);
                            ("parentSnapshotId", json_uuid snapshot_id)]) in
      queue_children rt (S (S n)) snapshot_id parent_sandbox_id w rest
  end.

Definition queue_forks_waiting_on_snapshot_on_connection (rt : Runtime) (n : nat)
    (snapshot_id parent_sandbox_id : Uuid) : Tx World unit :=
  let! w := get_world in
  queue_children rt n snapshot_id parent_sandbox_id w (waiting_children w snapshot_id).

(** [mark_snapshot_ready_from_provider_handle_on_connection]. *)
Definition mark_snapshot_ready_from_provider_handle_on_connection (rt : Runtime) (n : nat)
    (sandbox_id : Uuid) (tenant_id : string) (handle : ProviderSnapshotHandle) : Tx World unit :=
  let snapshot_id := snapshot_handle_snapshot_id handle in
  let! _ := upsert_provider_runtime_resources_on_connection rt n (snapshot_handle_resources handle)
              tenant_id in
  let! w := get_world in
  match snapshots w !! snapshot_id with
  | None => tx_throw (not_found "snapshot not found")
  | Some r =>
      let inventory :=
        if bool_decide (sn_inventory r = JObject []) then
          JObject [("sandboxId", json_uuid sandbox_id); ("snapshotId", json_uuid snapshot_id);
                   ("provider", JString (snapshot_handle_provider handle))]
        else sn_inventory r in
      let! _ := modify_world (fun w => set_snapshots
        (<[snapshot_id := snapshot_set_ready inventory (snapshot_handle_metadata handle)
                            (utc_now rt) r]> (snapshots w)) w) in
      let! _ := modify_world (update_restore_source snapshot_id SnapshotStatus.Ready) in
      queue_forks_waiting_on_snapshot_on_connection rt n snapshot_id sandbox_id
  end.
End Snapshots.

(** ** Lemmas *)

Section SnapshotLemmas.
Context `{UuidLib} `{SerdeLib}.

(** What [set_sandbox_state_on_connection] did. *)
Lemma set_state_ok rt n id from next data db b db' :
  set_sandbox_state_on_connection rt n id from next data db = Ok (b, db') ->
  world_only db db' /\
  ((b = false /\ db' = db) \/
   (b = true /\ exists s, sandboxes (world db) !! id = Some s /\ sb_state s ∈ from /\
      can_transition_to (sb_state s) next = true /\
      world db' =
        set_sandbox_events
          (sandbox_events (world db) ++
             [(new_uuid rt n, mkSandboxEvent id SandboxEventKind.LifecycleChanged data (utc_now rt))])
          (set_sandboxes (<[id := sandbox_set_state next (utc_now rt) s]> (sandboxes (world db)))
             (world db)))).
Proof.
  unfold set_sandbox_state_on_connection. intros Hs. world_step Hs.
  destruct (sandboxes _ !! id) as [s|] eqn:E; [|tx_step Hs; split; [reflexivity|by left]].
  destruct (contains from (sb_state s)) eqn:Ec; simpl in Hs;
    [|tx_step Hs; split; [reflexivity|by left]].
  destruct (transition_guard_admits _ _) eqn:Eg; [|by tx_step Hs].
  world_step Hs. tx_step Hs. apply insert_event_ok in Hm as [_ ->]. tx_step Hs.
  split; [by eexists|]. right. split; [done|]. exists s. split; [done|].
  split; [by apply contains_spec|]. split; [|done].
  by apply guard_admits_states.
Qed.

(** From a legal state of an existing sandbox the swap always happens. *)
Lemma set_state_succeeds rt n id from next data db s :
  sandboxes (world db) !! id = Some s -> sb_state s ∈ from ->
  can_transition_to (sb_state s) next = true ->
  exists db', set_sandbox_state_on_connection rt n id from next data db = Ok (true, db').
Proof.
  intros Hs Hin Hcan. unfold set_sandbox_state_on_connection, get_world, tx_bind, tx_get, tx_ret.
  rewrite Hs, (proj2 (contains_spec _ _) Hin). cbn [negb].
  rewrite (proj2 (guard_admits_states _ _) Hcan).
  unfold insert_event_on_connection, get_world, tx_bind, tx_get, tx_ret. simpl.
  rewrite lookup_insert_eq. simpl. eauto.
Qed.

Lemma waiting_children_spec w snapshot_id id s :
  (id, s) ∈ waiting_children w snapshot_id <->
  sandboxes w !! id = Some s /\ waits_on snapshot_id s = true.
Proof.
  unfold waiting_children. rewrite merge_sort_Permutation, list_elem_of_In, List.filter_In.
  by rewrite <- list_elem_of_In, elem_of_map_to_list.
Qed.

Lemma waiting_children_NoDup w snapshot_id : NoDup (waiting_children w snapshot_id).*1.
Proof.
  unfold waiting_children. rewrite merge_sort_Permutation.
  pose proof (NoDup_fst_map_to_list (sandboxes w)) as Hnd. revert Hnd.
  generalize (map_to_list (sandboxes w)) as l. intros l. induction l as [|[k x] l IH]; simpl; [done|].
  intros [Hni Hnd]%NoDup_cons. destruct (waits_on _ _); simpl; [|by apply IH].
  apply NoDup_cons. split; [|by apply IH]. intros Hin. apply Hni.
  apply list_elem_of_fmap in Hin as ([k' x'] & -> & Hin).
  apply list_elem_of_In, List.filter_In in Hin as [Hin _].
  apply list_elem_of_fmap. exists (k', x'). split; [done|]. by apply list_elem_of_In.
Qed.

Lemma fail_children_ok rt n snapshot_id reason error children db :
  NoDup children.*1 ->
  (forall id s, (id, s) ∈ children ->
     sandboxes (world db) !! id = Some s /\ sb_state s = SandboxState.Planning) ->
  exists db', fail_children rt n snapshot_id reason error children db = Ok (tt, db') /\
    forall id, sandboxes (world db') !! id =
      match sandboxes (world db) !! id with
      | Some s => if bool_decide (id ∈ children.*1)
                  then Some (sandbox_set_state SandboxState.Error (utc_now rt) s) else Some s
      | None => None
      end.
Proof.
  revert n db. induction children as [|[id s] rest IH]; intros n db Hnd Hw.
  - exists db. split; [done|]. intros id. by destruct (sandboxes _ !! id).
  - apply NoDup_cons in Hnd as [Hni Hnd]. destruct (Hw id s) as [Hs Hpl]; [left|].
    edestruct (set_state_succeeds rt n id SNAPSHOT_FAILED_CHILD_LEGAL_FROM SandboxState.Error)
      as [db1 H1]; [exact Hs | rewrite Hpl; left | by rewrite Hpl |].
    apply set_state_ok in H1 as Hok. destruct Hok as [_ [[? _]|(_ & s' & Hs' & _ & _ & Hw')]]; [done|].
    simplify_eq. assert (Hsb := f_equal sandboxes Hw'). cbn [sandboxes set_sandbox_events set_sandboxes] in Hsb. destruct (IH (S n) db1 Hnd) as (db' & Hrest & Hlook).
    { intros id' x Hx. assert (id' <> id).
      { intros ->. apply Hni. apply list_elem_of_fmap. by exists (id, x). }
      rewrite Hsb, lookup_insert_ne by done. apply Hw. by right. }
    exists db'. split.
    { simpl. unfold tx_bind. by rewrite H1. }
    intros k. rewrite Hlook, Hsb. destruct (decide (k = id)) as [->|Hne].
    + rewrite lookup_insert_eq, Hs, bool_decide_eq_false_2 by done.
      rewrite bool_decide_eq_true_2; [done | left].
    + rewrite lookup_insert_ne by done. destruct (sandboxes (world db) !! k); [|done].
      by rewrite (bool_decide_ext (k ∈ ((id, s) :: rest).*1) (k ∈ rest.*1)) by set_solver.
Qed.

(** A failed snapshot fails exactly the forks waiting on it.  The
    operation always succeeds; afterwards every sandbox that was planning on
    the snapshot is in [error] and every other sandbox is unchanged. *)
Theorem failed_snapshot_fails_waiting_forks rt n snapshot_id reason error db :
  exists db',
    fail_sandboxes_waiting_on_snapshot_on_connection rt n snapshot_id reason error db = Ok (tt, db') /\
    forall id s, sandboxes (world db) !! id = Some s ->
      sandboxes (world db') !! id =
      Some (if bool_decide (sb_parent_snapshot_id s = Some snapshot_id /\
                            sb_state s = SandboxState.Planning)
            then sandbox_set_state SandboxState.Error (utc_now rt) s else s).
Proof.
  unfold fail_sandboxes_waiting_on_snapshot_on_connection, get_world, tx_bind, tx_get, tx_ret.
  destruct (fail_children_ok rt n snapshot_id reason error (waiting_children (world db) snapshot_id) db)
    as (db' & Hf & Hlook).
  - apply waiting_children_NoDup.
  - intros id s [Hs Hw]%waiting_children_spec. split; [done|].
    unfold waits_on in Hw. by bool_to_prop.
  - exists db'. split; [done|]. intros id s Hs. rewrite Hlook, Hs.
    assert (Hin : id ∈ (waiting_children (world db) snapshot_id).*1 <->
                  sb_parent_snapshot_id s = Some snapshot_id /\ sb_state s = SandboxState.Planning).
    { rewrite list_elem_of_fmap. split.
      - intros ([k x] & -> & [Hx Hw]%waiting_children_spec). simpl in Hs. simplify_eq.
        unfold waits_on in Hw. by bool_to_prop.
      - intros Hw. exists (id, s). split; [done|]. apply waiting_children_spec. split; [done|].
        unfold waits_on. by rewrite !bool_decide_eq_true_2 by naive_solver. }
    rewrite (bool_decide_ext _ _ Hin). by case_bool_decide.
Qed.
End SnapshotLemmas.
