(* ===== verification/SterilePool.v ===== *)
(** * The sterile pool's part in job outcomes

    A pool member is a sandbox provisioned ahead of demand.  Its provision
    job admits it as a ready cell with an expiry staggered against its
    cohort; its stop job retires cell and membership together under the
    fence the job carries; a failed job quarantines it.  The check
    constraints of the two tables are part of the writes.

    Source: [sandboxwich-api/src/sterile_pool.rs] and the migrations of
    [sterile_cells] and [sterile_pool_memberships]. *)

From S2P Require Import Prelude CoreTypes Json Store Leases SandboxLifecycle World CommandOutput.

Definition POOL_JOB_MARKER : string := "sterilePool".

(** ** Check constraints *)

Definition is_ge (o : option Z) (n : Z) : bool :=
  match o with Some g => (n <=? g)%Z | None => false end.

(** The fence of a member that is being torn down: never leased and
    quarantined, or leased. *)
Definition teardown_fence (m : MembershipRow) : bool :=
  (bool_decide (mb_generation m = Some 1%Z) && is_none (mb_lease_id m)
   && bool_decide (mb_requested_disposition m = Some SterileCellDisposition.Quarantined))
  || (is_ge (mb_generation m) 2 && is_some (mb_lease_id m)).

Definition membership_check (m : MembershipRow) : bool :=
  match mb_state m with
  | MemberProvisioning =>
      is_none (mb_worker_id m) && is_none (mb_lease_id m) && is_none (mb_generation m)
      && is_none (mb_candidate_pod_name m) && is_none (mb_candidate_pod_uid m)
      && is_none (mb_cell_expires_at m)
  | MemberReady =>
      is_some (mb_worker_id m) && is_none (mb_lease_id m)
      && bool_decide (mb_generation m = Some 1%Z)
      && is_some (mb_candidate_pod_name m) && is_some (mb_candidate_pod_uid m)
      && is_some (mb_cell_expires_at m)
  | MemberLeased =>
      is_some (mb_worker_id m) && is_some (mb_lease_id m) && is_ge (mb_generation m) 2
      && is_some (mb_candidate_pod_name m) && is_some (mb_candidate_pod_uid m)
  | MemberStopping =>
      is_some (mb_worker_id m) && is_some (mb_stop_job_id m) && is_ge (mb_generation m) 1
      && is_some (mb_requested_disposition m) && teardown_fence m
  | MemberCleanupPending =>
      is_some (mb_worker_id m) && is_ge (mb_generation m) 1
      && is_some (mb_requested_disposition m) && teardown_fence m
  | MemberDestroyed | MemberQuarantined => true
  end.

Definition cell_check (c : SterileCellRow) : bool :=
  match cell_state c with
  | SterileCellState.Ready =>
      bool_decide (cell_generation c = 1%Z) && negb (cell_ever_tenant_exposed c)
      && is_some (cell_tenant_id c) && is_none (cell_lease_id c) && is_none (cell_disposition c)
  | SterileCellState.Leased =>
      (2 <=? cell_generation c)%Z && cell_ever_tenant_exposed c && is_some (cell_tenant_id c)
      && is_some (cell_organization_id c) && is_some (cell_workspace_id c)
      && is_some (cell_thread_id c) && is_some (cell_runner_session_id c)
      && is_some (cell_lease_id c) && is_some (cell_lease_attestation_sha256 c)
      && is_some (cell_lease_expires_at c) && is_none (cell_disposition c)
  | SterileCellState.Destroyed | SterileCellState.Quarantined => true
  end.

(** ** Admission *)

(** [i64::saturating_mul(2)]. *)
Definition i64_double (n : Z) : Z := Z.max i64_min (Z.min (2 * n) i64_max).

(** [staggered_ready_expiry]; the membership's check keeps the time to live
    positive, so the clamp's bounds are ordered. *)
Definition staggered_ready_expiry (now ready_ttl_seconds expiry_spread_seconds : Z)
    (latest_ready_peer_expiry : option Z) : Z :=
  let floor := (now + seconds ready_ttl_seconds)%Z in
  if (expiry_spread_seconds <=? 0)%Z then floor
  else
    match latest_ready_peer_expiry with
    | None => floor
    | Some peer =>
        let ceiling := (now + seconds (i64_double ready_ttl_seconds))%Z in
        Z.max floor (Z.min (peer + seconds expiry_spread_seconds) ceiling)
    end.

(** A live ready peer of the admitted member's own cohort. *)
Definition is_cohort_peer (sandbox_id : Uuid) (admitted : MembershipRow) (kp : Uuid * MembershipRow) :
    bool :=
  let peer := kp.2 in
  negb (bool_decide (kp.1 = sandbox_id)) && bool_decide (mb_state peer = MemberReady)
  && is_some (mb_cell_expires_at peer) && String.eqb (mb_tenant_id peer) (mb_tenant_id admitted)
  && bool_decide (mb_release peer = mb_release admitted)
  && String.eqb (mb_candidate_agent_image peer) (mb_candidate_agent_image admitted)
  && String.eqb (mb_candidate_maestro_image peer) (mb_candidate_maestro_image admitted).

(** [select max(peer.cell_expires_at)]. *)
Definition latest_peer_expiry (w : World) (sandbox_id : Uuid) (admitted : MembershipRow) : option Z :=
  fold_right (fun kp acc =>
      match mb_cell_expires_at kp.2, acc with
      | Some t, Some u => Some (Z.max t u)
      | Some t, None => Some t
      | None, _ => acc
      end) None
    (List.filter (is_cohort_peer sandbox_id admitted) (map_to_list (sterile_pool_memberships w))).

Definition is_provisioning_for (job_id : Uuid) (m : MembershipRow) : bool :=
  bool_decide (mb_provision_job_id m = job_id) && bool_decide (mb_state m = MemberProvisioning).

Definition membership_set_ready (worker : Uuid) (pod_name pod_uid : string) (expires now : Z)
    (m : MembershipRow) : MembershipRow :=
  mkMembershipRow (mb_tenant_id m) MemberReady (Some worker) (mb_provision_job_id m)
    (mb_stop_job_id m) (mb_release m) (mb_candidate_agent_image m) (mb_candidate_maestro_image m)
    (mb_candidate_service_name m) (Some pod_name) (Some pod_uid) (mb_ready_ttl_seconds m)
    (mb_expiry_spread_seconds m) (Some expires) (mb_lease_id m) (Some 1%Z)
    (mb_requested_disposition m) (mb_quarantine_reason m) (mb_provider_absent m)
    (mb_created_at m) now.

Definition membership_set_state (state : MembershipState) (reason : option string) (now : Z)
    (m : MembershipRow) : MembershipRow :=
  mkMembershipRow (mb_tenant_id m) state (mb_worker_id m) (mb_provision_job_id m)
    (mb_stop_job_id m) (mb_release m) (mb_candidate_agent_image m) (mb_candidate_maestro_image m)
    (mb_candidate_service_name m) (mb_candidate_pod_name m) (mb_candidate_pod_uid m)
    (mb_ready_ttl_seconds m) (mb_expiry_spread_seconds m) (mb_cell_expires_at m) (mb_lease_id m)
    (mb_generation m) (mb_requested_disposition m) reason (mb_provider_absent m)
    (mb_created_at m) now.

(** [state = 'cleanup_pending', requested_disposition =
    coalesce(requested_disposition, 'quarantined'), ..]. *)
Definition membership_set_cleanup_pending (clear_stop_job : bool) (reason : string) (now : Z)
    (m : MembershipRow) : MembershipRow :=
  mkMembershipRow (mb_tenant_id m) MemberCleanupPending (mb_worker_id m) (mb_provision_job_id m)
    (if clear_stop_job then None else mb_stop_job_id m) (mb_release m)
    (mb_candidate_agent_image m) (mb_candidate_maestro_image m) (mb_candidate_service_name m)
    (mb_candidate_pod_name m) (mb_candidate_pod_uid m) (mb_ready_ttl_seconds m)
    (mb_expiry_spread_seconds m) (mb_cell_expires_at m) (mb_lease_id m) (mb_generation m)
    (Some (default SterileCellDisposition.Quarantined (mb_requested_disposition m)))
    (Some reason) (mb_provider_absent m) (mb_created_at m) now.

(** [state = .., provider_absent = 1, ..]. *)
Definition membership_set_retired (state : MembershipState) (now : Z) (m : MembershipRow) :
    MembershipRow :=
  mkMembershipRow (mb_tenant_id m) state (mb_worker_id m) (mb_provision_job_id m)
    (mb_stop_job_id m) (mb_release m) (mb_candidate_agent_image m) (mb_candidate_maestro_image m)
    (mb_candidate_service_name m) (mb_candidate_pod_name m) (mb_candidate_pod_uid m)
    (mb_ready_ttl_seconds m) (mb_expiry_spread_seconds m) (mb_cell_expires_at m) (mb_lease_id m)
    (mb_generation m) (mb_requested_disposition m) (mb_quarantine_reason m) true
    (mb_created_at m) now.

Section Pool.
Context `{UuidLib}.

(** An update of a membership under its check constraint. *)
Definition update_membership (sandbox_id : Uuid) (guard : MembershipRow -> bool)
    (f : MembershipRow -> MembershipRow) : Tx World bool :=
  let! w := get_world in
  match sterile_pool_memberships w !! sandbox_id with
  | Some m =>
      if guard m then
        check! membership_check (f m) else api_error_of_db_error CheckViolation in
        let! _ := modify_world (set_sterile_pool_memberships
          (<[sandbox_id := f m]> (sterile_pool_memberships w))) in
        tx_ret true
      else tx_ret false
  | None => tx_ret false
  end.

(** An update of a cell under its check constraint. *)
Definition update_cell (cell_id : Uuid) (guard : SterileCellRow -> bool)
    (f : SterileCellRow -> SterileCellRow) : Tx World bool :=
  let! db := tx_get in
  match sterile_cells db !! cell_id with
  | Some c =>
      if guard c then
        check! cell_check (f c) else api_error_of_db_error CheckViolation in
        let! _ := tx_modify (set_sterile_cells (<[cell_id := f c]> (sterile_cells db))) in
        tx_ret true
      else tx_ret false
  | None => tx_ret false
  end.

Definition is_pod_identity (sandbox_id : Uuid) (r : StageResourceRow) : bool :=
  bool_decide (str_sandbox_id r = sandbox_id) && String.eqb (str_stage r) "pod_ready"
  && bool_decide (str_resource_kind r = RuntimeResourceKind.Pod)
  && String.eqb (str_resource_name r) ("sandboxwich-" ++ uuid_to_string sandbox_id).

Definition ready_cell (worker : Uuid) (sandbox_id : Uuid) (m : MembershipRow) (expires now : Z) :
    SterileCellRow :=
  mkSterileCellRow worker (uuid_to_string sandbox_id) SterileCellState.Ready 1 (mb_release m)
    (Some (mb_tenant_id m)) None None None None None None None expires None false now None None now
    None None.

(** [insert into sterile_cells .. on conflict (id) do nothing]: the other
    unique key still conflicts. *)
Definition insert_ready_cell (worker sandbox_id : Uuid) (m : MembershipRow) (expires now : Z) :
    Tx World bool :=
  let! db := tx_get in
  let cell := ready_cell worker sandbox_id m expires now in
  if is_some (sterile_cells db !! sandbox_id) then tx_ret false
  else if existsb (fun kc => bool_decide (cell_worker_id kc.2 = worker)
                             && String.eqb (cell_provider_cell_id kc.2)
                                  (cell_provider_cell_id cell)) (map_to_list (sterile_cells db))
  then tx_throw (api_error_of_db_error UniqueViolation)
  else
    check! is_some (workers db !! worker) else foreign_key_error in
    check! cell_check cell else api_error_of_db_error CheckViolation in
    let! _ := tx_modify (set_sterile_cells (<[sandbox_id := cell]> (sterile_cells db))) in
    tx_ret true.

(** The admission proper, once the job is known to be a pool job. *)
Definition admit_member (rt : Runtime) (job : Job) (sandbox_id worker : Uuid) (m : MembershipRow)
    (pod : StageResourceRow) : Tx World unit :=
  let! w := get_world in
  let now := utc_now rt in
  let expires := staggered_ready_expiry now (mb_ready_ttl_seconds m) (mb_expiry_spread_seconds m)
                   (latest_peer_expiry w sandbox_id m) in
  let! inserted := insert_ready_cell worker sandbox_id m expires now in
  check! inserted else conflict "sterile pool provision completion is stale or ambiguous" in
  let! updated := update_membership sandbox_id (is_provisioning_for (job_id job))
                    (membership_set_ready worker (str_resource_name pod) (str_resource_uid pod)
                       expires now) in
  check! updated else conflict "sterile pool admission fence changed" in
  tx_ret tt.

Definition admit_provisioned_cell_on_connection (rt : Runtime) (job : Job) : Tx World unit :=
  if is_none (get (job_payload job) POOL_JOB_MARKER) then tx_ret tt
  else
    let! sandbox_id := tx_lift (sandbox_id_from_job job) in
    let! db := tx_get in
    match sandbox_placements db !! sandbox_id with
    | None => tx_throw row_not_found
    | Some placement =>
        match sterile_pool_memberships (world db) !! sandbox_id with
        | None => tx_throw row_not_found
        | Some m =>
            if negb (is_provisioning_for (job_id job) m) then tx_throw row_not_found
            else
              match find (is_pod_identity sandbox_id)
                      (provisioning_operation_resources (world db)) with
              | None =>
                  tx_throw (conflict
                    "sterile pool candidate completion is missing its exact Pod identity")
              | Some pod =>
                  if trim_is_empty (str_resource_uid pod) then
                    tx_throw (conflict
                      "sterile pool candidate completion reported an empty Pod UID")
                  else admit_member rt job sandbox_id (placement_worker_id placement) m pod
              end
        end
    end.

(** ** Quarantine *)

(** [quarantine_pool_cell_record_on_connection]. *)
Definition quarantine_pool_cell_record_on_connection (rt : Runtime) (cell_id : Uuid) :
    Tx World unit :=
  let! _ := update_cell cell_id
              (fun c => bool_decide (cell_state c = SterileCellState.Ready)
                        || bool_decide (cell_state c = SterileCellState.Leased))
              (cell_set_quarantined (utc_now rt)) in
  tx_ret tt.

Definition is_open_member (m : MembershipRow) : bool :=
  negb (bool_decide (mb_state m = MemberDestroyed))
  && negb (bool_decide (mb_state m = MemberQuarantined)).

Definition mark_pool_cleanup_pending_on_connection (rt : Runtime) (cell_id : Uuid) (reason : string)
    (clear_stop_job : bool) : Tx World unit :=
  let! _ := quarantine_pool_cell_record_on_connection rt cell_id in
  let! _ := update_membership cell_id is_open_member
              (membership_set_cleanup_pending clear_stop_job reason (utc_now rt)) in
  tx_ret tt.

Definition quarantine_pool_cell_on_connection (rt : Runtime) (cell_id : Uuid) (reason : string) :
    Tx World unit :=
  let! _ := quarantine_pool_cell_record_on_connection rt cell_id in
  let! _ := update_membership cell_id is_open_member
              (membership_set_state MemberQuarantined (Some reason) (utc_now rt)) in
  tx_ret tt.

Definition quarantine_failed_pool_job_on_connection (rt : Runtime) (job : Job) (error : string) :
    Tx World unit :=
  if is_none (get (job_payload job) POOL_JOB_MARKER) then tx_ret tt
  else
    let! cell_id := tx_lift (sandbox_id_from_job job) in
    if bool_decide (job_kind job = JobKind.StopSandbox)
    then mark_pool_cleanup_pending_on_connection rt cell_id error false
    else quarantine_pool_cell_on_connection rt cell_id error.

(** ** Retirement *)

Definition json_error : ApiError := internal "json persistence failed".

(** [serde_json::from_value] of an identifier and of a disposition. *)
Definition uuid_from_value (v : Json) : result Uuid ApiError :=
  match as_str v ≫= uuid_parse_str with Some u => Ok u | None => Err json_error end.

Definition disposition_from_value (v : Json) : result SterileCellDisposition ApiError :=
  match as_str v with
  | Some s => match parse_db_str s with Ok d => Ok d | Err _ => Err json_error end
  | None => Err json_error
  end.

(** The fence a pool stop carries. *)
Record PoolStopFence : Type := mkPoolStopFence {
  stop_cell_id : Uuid;
  stop_lease_id : option Uuid;
  stop_generation : Z;
  stop_disposition : SterileCellDisposition
}.

Definition field_or (v : Json) (key missing : string) : result Json ApiError :=
  match get v key with Some x => Ok x | None => Err (internal missing) end.

Definition parse_pool_stop_fence (fence : Json) : result PoolStopFence ApiError :=
  let? cell := field_or fence "cellId" "pool stop is missing cellId" in
  let? cell_id := uuid_from_value cell in
  let? lease_id :=
    match get fence "leaseId" with
    | None | Some JNull => Ok None
    | Some v => let? u := uuid_from_value v in Ok (Some u)
    end in
  match get_u64 fence "generation" with
  | None => Err (internal "pool stop is missing generation")
  | Some generation =>
      let? d := field_or fence "disposition" "pool stop is missing disposition" in
      let? disposition := disposition_from_value d in
      let? g := match try_i64 generation with
                | Some g => Ok g
                | None => Err (internal "generation exceeds database range")
                end in
      Ok (mkPoolStopFence cell_id lease_id g disposition)
  end.

Definition member_matches_stop (f : PoolStopFence) (m : MembershipRow) : bool :=
  (bool_decide (mb_state m = MemberStopping) || bool_decide (mb_state m = MemberCleanupPending))
  && bool_decide (mb_lease_id m = stop_lease_id f)
  && bool_decide (mb_generation m = Some (stop_generation f))
  && bool_decide (mb_requested_disposition m = Some (stop_disposition f)).

Definition cell_matches_stop (f : PoolStopFence) (c : SterileCellRow) : bool :=
  bool_decide (cell_lease_id c = stop_lease_id f)
  && bool_decide (cell_generation c = stop_generation f)
  && (bool_decide (cell_state c = match stop_lease_id f with
                                  | Some _ => SterileCellState.Leased
                                  | None => SterileCellState.Ready
                                  end)
      || bool_decide (cell_state c = SterileCellState.Destroyed)
      || bool_decide (cell_state c = SterileCellState.Quarantined)).

Definition state_of_disposition (d : SterileCellDisposition) : SterileCellState :=
  match d with
  | SterileCellDisposition.Destroyed => SterileCellState.Destroyed
  | SterileCellDisposition.Quarantined => SterileCellState.Quarantined
  end.

Definition member_state_of_disposition (d : SterileCellDisposition) : MembershipState :=
  match d with
  | SterileCellDisposition.Destroyed => MemberDestroyed
  | SterileCellDisposition.Quarantined => MemberQuarantined
  end.

(** The retirement proper, for a cell that matches the fence: a quarantined
    cell stays quarantined whatever was requested. *)
Definition retire_pool_cell (rt : Runtime) (f : PoolStopFence) (c : SterileCellRow) : Tx World unit :=
  let now := utc_now rt in
  let pending := mark_pool_cleanup_pending_on_connection rt (stop_cell_id f) in
  if bool_decide (cell_state c = SterileCellState.Destroyed)
     && negb (bool_decide (cell_disposition c = Some (stop_disposition f)))
  then pending "provider_stop_terminal_disposition_mismatch" true
  else
    let terminal :=
      if bool_decide (cell_state c = SterileCellState.Quarantined)
      then SterileCellDisposition.Quarantined else stop_disposition f in
    let! updated := update_cell (stop_cell_id f) (cell_matches_stop f)
                      (cell_set_terminal (state_of_disposition terminal) terminal now) in
    if negb updated then pending "provider_stop_completion_fence_mismatch" true
    else
      let! member := update_membership (stop_cell_id f) (member_matches_stop f)
                       (membership_set_retired (member_state_of_disposition terminal) now) in
      if member then tx_ret tt else pending "provider_stop_membership_fence_mismatch" true.

Definition complete_pool_stop_on_connection (rt : Runtime) (job : Job) : Tx World unit :=
  match get (job_payload job) POOL_JOB_MARKER with
  | None => tx_ret tt
  | Some fence =>
      if negb (bool_decide (job_kind job = JobKind.StopSandbox)) then tx_ret tt
      else
        let! f := tx_lift (parse_pool_stop_fence fence) in
        let! db := tx_get in
        let pending := mark_pool_cleanup_pending_on_connection rt (stop_cell_id f) in
        match sterile_pool_memberships (world db) !! stop_cell_id f with
        | Some m =>
            if negb (member_matches_stop f m)
            then pending "provider_stop_completion_fence_mismatch" true
            else
              match sterile_cells db !! stop_cell_id f with
              | Some c =>
                  if negb (cell_matches_stop f c)
                  then pending "provider_stop_cell_fence_mismatch" true
                  else retire_pool_cell rt f c
              | None => pending "provider_stop_cell_fence_mismatch" true
              end
        | None => pending "provider_stop_completion_fence_mismatch" true
        end
  end.
End Pool.
