(* ===== verification/PoolController.v ===== *)
(** * The sterile pool's controller

    [sandboxwich-api/src/sterile_pool.rs], the part that runs outside job
    outcomes: the periodic reconciliation that folds claims into memberships,
    retires expired and unhealthy members, retries teardowns and creates new
    members up to the configured target, and the release of a leased member.

    Every transaction here starts by writing the controller's lock row, which
    serializes it with the others; the row itself carries no information and
    is not part of the tables. *)

From S2P Require Import Prelude CoreTypes Json Store Leases SandboxLifecycle World CommandOutput.
From S2P Require Import SterilePool.
From stdpp Require Import sorting.

(** ** Configuration and constants *)

Record SterilePoolConfig : Type := mkSterilePoolConfig {
  pool_target : Z;
  pool_ready_floor : Z;
  pool_max_provisioning : Z;
  pool_tenant_id : string;
  pool_release : SterileCellReleaseTrustClassV1;
  pool_sandbox_profile : SandboxRuntimeProfile;
  pool_template : string;
  pool_agent_image : string;
  pool_maestro_image : string;
  pool_ready_ttl_secs : Z
}.

Definition GUEST_HEALTH_READY_GRACE : Z := 30.
Definition GUEST_HEALTH_PROBE_STALE : Z := 60.

(** At most this many rows are handled per query: [limit 100]. *)
Definition POOL_BATCH : nat := 100.

Definition expiry_spread_seconds_of (ready_ttl_secs target : Z) : Z :=
  (default i64_max (try_i64 ready_ttl_secs) / Z.max target 1)%Z.

Definition pool_execution_class (class : SterileCellRuntimeClass) : ExecutionClass :=
  match class with
  | SterileCellRuntimeClass.KataMicrovm => ExecutionClass.VirtualMachine
  | SterileCellRuntimeClass.GvisorLowerRisk => ExecutionClass.SandboxedContainer
  end.

(** [serde_json::to_value] of a release: the derived field names. *)
Definition release_to_value (r : SterileCellReleaseTrustClassV1) : Json :=
  JObject [("release_set_id", JString (release_set_id r));
           ("runtime_class", JString (as_db_str (release_runtime_class r)));
           ("policy_digest", JString (release_policy_digest r));
           ("signature", JString (release_signature r))].

(** ** Membership columns the controller rewrites *)

Definition membership_set_leased (lease_id : option Uuid) (generation : option Z) (now : Z)
    (m : MembershipRow) : MembershipRow :=
  mkMembershipRow (mb_tenant_id m) MemberLeased (mb_worker_id m) (mb_provision_job_id m)
    (mb_stop_job_id m) (mb_release m) (mb_candidate_agent_image m) (mb_candidate_maestro_image m)
    (mb_candidate_service_name m) (mb_candidate_pod_name m) (mb_candidate_pod_uid m)
    (mb_ready_ttl_seconds m) (mb_expiry_spread_seconds m) (mb_cell_expires_at m) lease_id
    generation (mb_requested_disposition m) (mb_quarantine_reason m) (mb_provider_absent m)
    (mb_created_at m) now.

(** [state = 'stopping', stop_job_id = .., ..]; the disposition, the reason and
    the generation change where the statement names them. *)
Definition membership_set_stopping (stop_job : Uuid) (generation : option Z)
    (disposition : option SterileCellDisposition) (reason : option string) (now : Z)
    (m : MembershipRow) : MembershipRow :=
  mkMembershipRow (mb_tenant_id m) MemberStopping (mb_worker_id m) (mb_provision_job_id m)
    (Some stop_job) (mb_release m) (mb_candidate_agent_image m) (mb_candidate_maestro_image m)
    (mb_candidate_service_name m) (mb_candidate_pod_name m) (mb_candidate_pod_uid m)
    (mb_ready_ttl_seconds m) (mb_expiry_spread_seconds m) (mb_cell_expires_at m) (mb_lease_id m)
    (from_option Some (mb_generation m) generation)
    (from_option Some (mb_requested_disposition m) disposition)
    (from_option Some (mb_quarantine_reason m) reason) (mb_provider_absent m)
    (mb_created_at m) now.

Definition membership_set_reason (reason : string) (now : Z) (m : MembershipRow) : MembershipRow :=
  membership_set_state (mb_state m) (Some reason) now m.

Definition member_is (state : MembershipState) (m : MembershipRow) : bool :=
  bool_decide (mb_state m = state).

(** [order by key asc, sandbox_id asc]. *)
Definition by_key_then_id (key : MembershipRow -> Z) (a b : Uuid * MembershipRow) : Prop :=
  (key a.2 < key b.2)%Z \/ (key a.2 = key b.2 /\ (a.1 <= b.1)%N).

#[export] Instance by_key_then_id_dec key : RelDecision (by_key_then_id key).
Proof. intros a b. unfold by_key_then_id. apply _. Defined.

Definition select_members (key : MembershipRow -> Z) (guard : Uuid -> MembershipRow -> bool)
    (w : World) : list (Uuid * MembershipRow) :=
  take POOL_BATCH (merge_sort (by_key_then_id key)
    (List.filter (fun km => guard km.1 km.2) (map_to_list (sterile_pool_memberships w)))).

Section Controller.
Context `{UuidLib} `{SerdeLib}.

(** ** Creating members *)

(** [insert_sandbox_on_connection]. *)
Definition insert_sandbox_on_connection (s : Sandbox) : Tx World unit :=
  let! w := get_world in
  check! is_none (sandboxes w !! sb_id s) else api_error_of_db_error UniqueViolation in
  modify_world (set_sandboxes (<[sb_id s := s]> (sandboxes w))).

Definition sterile_maestro_candidate_service_name (cell_id : Uuid) : string :=
  "sandboxwich-mc-" ++ uuid_to_string cell_id.

Definition pool_sandbox (config : SterilePoolConfig) (sandbox_id : Uuid) (now : Z) : Sandbox :=
  mkSandbox sandbox_id (pool_tenant_id config)
    ("sterile-pool-" ++ String.substring 0 12 (uuid_to_string sandbox_id)) SandboxState.Planning
    (pool_template config) MemoryLimit.OneG DenyAll WorkspaceMode.Persistent
    (pool_sandbox_profile config)
    (pool_execution_class (release_runtime_class (pool_release config))) now now None None None
    None None.

Definition pool_provision_spec (config : SterilePoolConfig) (s : Sandbox) : SandboxProvisionSpec :=
  mkSandboxProvisionSpec (sb_memory_limit s) (sb_network_egress s) (sb_workspace_mode s)
    (sb_runtime_profile s) (sb_execution_class s) ProviderPreference.Kubernetes
    (Some (pool_tenant_id config)) None None []
    (Some (mkSterilePoolCandidate (sb_id s) (pool_release config) (pool_agent_image config)
             (pool_maestro_image config) (sterile_maestro_candidate_service_name (sb_id s))
             None None)).

Definition pool_provision_job (config : SterilePoolConfig) (job_id : Uuid) (s : Sandbox) (now : Z) :
    Job :=
  mkJob job_id (pool_tenant_id config) JobKind.ProvisionSandbox JobStatus.Queued
    (JObject [("sandboxId", json_uuid (sb_id s)); ("runtimeImage", JString (sb_template s));
              ("provisionSpec", provision_spec_to_value (pool_provision_spec config s));
              (POOL_JOB_MARKER,
               JObject [("cellId", json_uuid (sb_id s)); ("providerCellId", json_uuid (sb_id s));
                        ("release", release_to_value (pool_release config));
                        ("readyTtlSeconds", JNumber (PosInt (pool_ready_ttl_secs config)))])])
    WorkerCapability.ProvisionSandbox (sb_execution_class s) 50 0 3 now now now None.

Definition pool_member (config : SterilePoolConfig) (sandbox_id job_id : Uuid) (ttl now : Z) :
    MembershipRow :=
  mkMembershipRow (pool_tenant_id config) MemberProvisioning None job_id None (pool_release config)
    (pool_agent_image config) (pool_maestro_image config)
    (sterile_maestro_candidate_service_name sandbox_id) None None ttl
    (expiry_spread_seconds_of (pool_ready_ttl_secs config) (pool_target config)) None None None
    None None false now now.

(** The insert of the membership, with its primary key, its unique columns and
    its check. *)
Definition insert_membership (sandbox_id : Uuid) (m : MembershipRow) : Tx World unit :=
  let! w := get_world in
  check! is_none (sterile_pool_memberships w !! sandbox_id)
    else api_error_of_db_error UniqueViolation in
  check! forallb (fun km => negb (bool_decide (mb_provision_job_id km.2 = mb_provision_job_id m)))
           (map_to_list (sterile_pool_memberships w))
    else api_error_of_db_error UniqueViolation in
  check! membership_check m && (0 <? mb_ready_ttl_seconds m)%Z
    else api_error_of_db_error CheckViolation in
  modify_world (set_sterile_pool_memberships
    (<[sandbox_id := m]> (sterile_pool_memberships w))).

Definition insert_pool_member_on_connection (rt : Runtime) (n : nat) (config : SterilePoolConfig) :
    Tx World unit :=
  let now := utc_now rt in
  let sandbox_id := new_uuid rt n in
  let job_id := new_uuid rt (S n) in
  let sandbox := pool_sandbox config sandbox_id now in
  let! _ := insert_sandbox_on_connection sandbox in
  let! _ := insert_job_on_connection (pool_provision_job config job_id sandbox now) in
  match try_i64 (pool_ready_ttl_secs config) with
  | None => tx_throw (internal "sterile pool ready TTL exceeds range")
  | Some ttl => insert_membership sandbox_id (pool_member config sandbox_id job_id ttl now)
  end.

Fixpoint insert_pool_members (rt : Runtime) (n : nat) (config : SterilePoolConfig) (count : nat) :
    Tx World unit :=
  match count with
  | O => tx_ret tt
  | S count' =>
      let! _ := insert_pool_member_on_connection rt n config in
      insert_pool_members rt (2 + n) config count'
  end.

(** ** Teardown jobs *)

(** The stop job of a member; the fence is what [complete_pool_stop_on_connection]
    checks when it completes. *)
Definition pool_stop_job (job_id sandbox_id : Uuid) (s : Sandbox) (provision_spec : Json)
    (fence : list (string * Json)) (now : Z) : Job :=
  mkJob job_id (sb_tenant_id s) JobKind.StopSandbox JobStatus.Queued
    (JObject [("sandboxId", json_uuid sandbox_id); ("deleteGkeFqdnPolicy", JBool true);
              ("provisionSpec", provision_spec); (POOL_JOB_MARKER, JObject fence)])
    WorkerCapability.ProvisionSandbox (sb_execution_class s) 1000 0 1 now now now None.

Definition pool_fence (cell_id : Uuid) (lease_id : option Uuid) (generation : Z)
    (disposition : SterileCellDisposition) : list (string * Json) :=
  [("cellId", json_uuid cell_id); ("providerCellId", json_uuid cell_id);
   ("leaseId", from_option json_uuid JNull lease_id); ("generation", JNumber (PosInt generation));
   ("disposition", JString (as_db_str disposition))].

(** The provider specification of the job that provisioned the member. *)
Definition provision_spec_of_job (lost : string) (job_id : Uuid) (db : Db World) :
    result Json ApiError :=
  match jobs db !! job_id with
  | None => Err row_not_found
  | Some row =>
      match get (job_payload (row_job row)) "provisionSpec" with
      | Some spec => Ok spec
      | None => Err (internal lost)
      end
  end.

Definition archiving_event (reason : string) : Json :=
  JObject [("state", JString (as_db_str SandboxState.Archiving)); ("reason", JString reason)].

(** [u64::try_from] of the stored generation. *)
Definition u64_generation (message : string) (generation : Z) : result Z ApiError :=
  if (0 <=? generation)%Z then Ok generation else Err (internal message).

(** *** Retried teardowns *)

Definition job_gave_up (db : Db World) (job_id : Uuid) : bool :=
  match jobs db !! job_id with
  | Some row => bool_decide (job_status (row_job row) = JobStatus.Failed)
                || bool_decide (job_status (row_job row) = JobStatus.Dead)
  | None => false
  end.

Definition needs_cleanup_retry (db : Db World) (_ : Uuid) (m : MembershipRow) : bool :=
  member_is MemberCleanupPending m
  && match mb_stop_job_id m with Some j => job_gave_up db j | None => true end.

Definition enqueue_cleanup_stop (rt : Runtime) (n : nat) (sandbox_id : Uuid) (m : MembershipRow) :
    Tx World unit :=
  let now := utc_now rt in
  match mb_generation m, mb_requested_disposition m with
  | Some generation, Some disposition =>
      let! db := tx_get in
      let! spec := tx_lift (provision_spec_of_job
        "sterile pool provision job lost its provider specification" (mb_provision_job_id m) db) in
      let! sandbox := tx_lift (fetch_sandbox (world db) sandbox_id) in
      let! _ := set_sandbox_state_on_connection rt n sandbox_id STOP_LEGAL_FROM
                  SandboxState.Archiving (archiving_event "sterile_pool_cleanup_retry") in
      let! g := tx_lift (u64_generation "generation is outside the valid range" generation) in
      let stop_id := new_uuid rt (S n) in
      let! _ := insert_job_on_connection
        (pool_stop_job stop_id sandbox_id sandbox spec
           (pool_fence sandbox_id (mb_lease_id m) g disposition
            ++ [("reason", JString "cleanup_retry")]) now) in
      let! updated := update_membership sandbox_id (member_is MemberCleanupPending)
                        (membership_set_stopping stop_id None None None now) in
      if updated then tx_ret tt
      else tx_modify (fun db => set_jobs (delete stop_id (jobs db)) db)
  | _, _ => tx_throw (api_error_of_db_error OtherDbError)
  end.

(** One teardown after the other; each draws its own identifiers. *)
Fixpoint for_each_member (f : nat -> Uuid -> MembershipRow -> Tx World unit) (n : nat)
    (members : list (Uuid * MembershipRow)) : Tx World unit :=
  match members with
  | [] => tx_ret tt
  | (id, m) :: rest => let! _ := f n id m in for_each_member f (2 + n) rest
  end.

Definition enqueue_cleanup_pending_stops_on_connection (rt : Runtime) (n : nat) : Tx World unit :=
  let! db := tx_get in
  for_each_member (enqueue_cleanup_stop rt) n
    (select_members mb_updated_at (needs_cleanup_retry db) (world db)).

(** *** Expired and unhealthy ready members *)

Definition is_healthy (w : World) (stale_cutoff : Z) (sandbox_id : Uuid) : bool :=
  match guest_health w !! sandbox_id with
  | Some g => bool_decide (gh_status g = GuestStatus.Ready) && (stale_cutoff <? gh_last_probe_at g)%Z
  | None => false
  end.

Definition ready_expired (now : Z) (m : MembershipRow) (c : SterileCellRow) : bool :=
  match mb_cell_expires_at m with Some t => (t <=? now)%Z | None => false end
  || bool_decide (cell_state c = SterileCellState.Quarantined).

(** The health clause of the query; the grace counts from the membership's
    last change. *)
Definition ready_unhealthy (now : Z) (w : World) (sandbox_id : Uuid) (m : MembershipRow) : bool :=
  (mb_updated_at m <=? now - seconds GUEST_HEALTH_READY_GRACE)%Z
  && negb (is_healthy w (now - seconds GUEST_HEALTH_PROBE_STALE) sandbox_id).

Definition must_leave_ready (now : Z) (db : Db World) (sandbox_id : Uuid) (m : MembershipRow) : bool :=
  member_is MemberReady m && is_some (jobs db !! mb_provision_job_id m)
  && match sterile_cells db !! sandbox_id with
     | Some c => ready_expired now m c || ready_unhealthy now (world db) sandbox_id m
     | None => false
     end.

Definition ready_stop_reason (now : Z) (db : Db World) (sandbox_id : Uuid) (m : MembershipRow) : string :=
  match sterile_cells db !! sandbox_id with
  | Some c => if ready_expired now m c then "ready_ttl_expired" else "guest_health_unready"
  | None => "guest_health_unready"
  end.

Definition archive_reason (stop_reason : string) : string :=
  if String.eqb stop_reason "guest_health_unready" then "sterile_pool_guest_health_unready"
  else "sterile_pool_ready_expired".

(** [read] is the state of the tables the query saw. *)
Definition enqueue_ready_stop (rt : Runtime) (read : Db World) (n : nat) (sandbox_id : Uuid)
    (m : MembershipRow) : Tx World unit :=
  let now := utc_now rt in
  let reason := ready_stop_reason now read sandbox_id m in
  match mb_worker_id m with
  | None => tx_throw (api_error_of_db_error OtherDbError)
  | Some worker =>
      let! spec := tx_lift (provision_spec_of_job
        "pool provision job lost provider specification" (mb_provision_job_id m) read) in
      let! db := tx_get in
      let! sandbox := tx_lift (fetch_sandbox (world db) sandbox_id) in
      let! moved := set_sandbox_state_on_connection rt n sandbox_id STOP_LEGAL_FROM
                      SandboxState.Archiving (archiving_event (archive_reason reason)) in
      check! moved else conflict "expired sterile pool sandbox changed before teardown" in
      let stop_id := new_uuid rt (S n) in
      let! _ := insert_job_on_connection
        (pool_stop_job stop_id sandbox_id sandbox spec
           (pool_fence sandbox_id None 1 SterileCellDisposition.Quarantined
            ++ [("reason", JString reason)]) now) in
      let! updated := update_membership sandbox_id
        (fun m => bool_decide (mb_worker_id m = Some worker) && member_is MemberReady m
                  && bool_decide (mb_generation m = Some 1%Z))
        (membership_set_stopping stop_id (Some 1%Z) (Some SterileCellDisposition.Quarantined)
           (Some reason) now) in
      check! updated else conflict "expired sterile pool cell changed during teardown" in
      tx_ret tt
  end.

Definition cell_expiry_key (m : MembershipRow) : Z := default 0%Z (mb_cell_expires_at m).

Definition enqueue_expired_ready_stops_on_connection (rt : Runtime) (n : nat) : Tx World unit :=
  let! db := tx_get in
  for_each_member (enqueue_ready_stop rt db) n
    (select_members cell_expiry_key (must_leave_ready (utc_now rt) db) (world db)).

(** *** Leased members *)

Definition stop_already_requested (lease_id : Uuid) (generation : Z)
    (disposition : SterileCellDisposition) (m : MembershipRow) : bool :=
  member_is MemberStopping m && bool_decide (mb_lease_id m = Some lease_id)
  && bool_decide (mb_generation m = try_i64 generation)
  && bool_decide (mb_requested_disposition m = Some disposition).

Definition member_holds_lease (worker lease_id : Uuid) (generation : Z) (m : MembershipRow) : bool :=
  member_is MemberLeased m && bool_decide (mb_worker_id m = Some worker)
  && bool_decide (mb_lease_id m = Some lease_id)
  && bool_decide (mb_generation m = try_i64 generation).

(** [exists (select 1 from sterile_cells c where .. c.lease_expires_at > now)]. *)
Definition cell_lease_is_live (lease_id : Uuid) (generation now : Z) (c : SterileCellRow) : bool :=
  bool_decide (cell_state c = SterileCellState.Leased)
  && bool_decide (cell_lease_id c = Some lease_id) && (cell_generation c =? generation)%Z
  && match cell_lease_expires_at c with Some t => (now <? t)%Z | None => false end.

(** Once the stop is queued, the sandbox leaves service; a sandbox that cannot
    is recorded as ambiguous and its cell is quarantined. *)
Definition archive_released_sandbox (rt : Runtime) (n : nat) (cell_id stop_id : Uuid) : Tx World unit :=
  let! moved := set_sandbox_state_on_connection rt n cell_id STOP_LEGAL_FROM SandboxState.Archiving
                  (archiving_event "sterile_pool_released") in
  if moved then tx_ret tt
  else
    let! _ := quarantine_pool_cell_record_on_connection rt cell_id in
    let! _ := update_membership cell_id
      (fun m => member_is MemberStopping m && bool_decide (mb_stop_job_id m = Some stop_id))
      (membership_set_reason "sandbox_stop_state_ambiguous" (utc_now rt)) in
    tx_ret tt.

(** The stop proper.  The commit keeps what was written before a conflict, so
    the refusals are values here: [Err] rolls back, a refused stop does not. *)
Inductive PoolStop : Type :=
| StopQueued
| NotPoolMember
| StopRefused (e : ApiError).

Definition queue_pool_stop (rt : Runtime) (n : nat) (worker cell_id lease_id : Uuid)
    (generation : Z) (disposition : SterileCellDisposition) (require_live_lease : bool)
    (m : MembershipRow) : Tx World PoolStop :=
  let now := utc_now rt in
  let! db := tx_get in
  let! spec := tx_lift (provision_spec_of_job
    "sterile pool provision job lost its provider specification" (mb_provision_job_id m) db) in
  let! sandbox := tx_lift (fetch_sandbox (world db) cell_id) in
  let stop_id := new_uuid rt (S n) in
  match try_i64 generation with
  | None => tx_throw (bad_request "generation too large")
  | Some g =>
      let! g' := tx_lift (u64_generation "generation is outside the valid range" g) in
      let! _ := insert_job_on_connection
        (pool_stop_job stop_id (sb_id sandbox) sandbox spec
           (pool_fence cell_id (Some lease_id) g' disposition) now) in
      let live := negb require_live_lease
                  || match sterile_cells db !! cell_id with
                     | Some c => cell_lease_is_live lease_id g now c
                     | None => false
                     end in
      let! updated := update_membership cell_id
        (fun m => member_holds_lease worker lease_id g m && live)
        (membership_set_stopping stop_id None (Some disposition) None now) in
      if updated then
        let! _ := archive_released_sandbox rt n cell_id stop_id in
        tx_ret StopQueued
      else
        let! _ := tx_modify (fun db => set_jobs (delete stop_id (jobs db)) db) in
        let! w := get_world in
        if match sterile_pool_memberships w !! cell_id with
           | Some m => stop_already_requested lease_id g disposition m
           | None => false
           end
        then tx_ret StopQueued
        else
          let! _ := quarantine_pool_cell_record_on_connection rt cell_id in
          tx_ret (StopRefused (conflict "sterile pool cleanup fence changed; cell was quarantined"))
  end.

Definition enqueue_pool_stop_with_policy_on_connection (rt : Runtime) (n : nat)
    (worker cell_id lease_id : Uuid) (generation : Z) (disposition : SterileCellDisposition)
    (require_live_lease : bool) : Tx World PoolStop :=
  let! w := get_world in
  match sterile_pool_memberships w !! cell_id with
  | None => tx_ret NotPoolMember
  | Some m =>
      if stop_already_requested lease_id generation disposition m then tx_ret StopQueued
      else if negb (member_holds_lease worker lease_id generation m) then
        let! _ := mark_pool_cleanup_pending_on_connection rt cell_id "cleanup_fence_mismatch" true in
        tx_ret (StopRefused (conflict "sterile-cell cleanup fence is ambiguous; cell was quarantined"))
      else queue_pool_stop rt n worker cell_id lease_id generation disposition require_live_lease m
  end.

(** The release handlers commit a refused stop: the quarantine is kept. *)
Definition enqueue_pool_stop_on_connection (rt : Runtime) (worker cell_id lease_id : Uuid)
    (generation : Z) (disposition : SterileCellDisposition) : Tx World PoolStop :=
  enqueue_pool_stop_with_policy_on_connection rt 0 worker cell_id lease_id generation disposition true.

Definition must_leave_leased (now : Z) (db : Db World) (sandbox_id : Uuid) (m : MembershipRow) : bool :=
  member_is MemberLeased m
  && match sterile_cells db !! sandbox_id with
     | Some c => bool_decide (cell_state c = SterileCellState.Quarantined)
                 || (cell_expires_at c <=? now)%Z
                 || match cell_lease_expires_at c with Some t => (t <=? now)%Z | None => false end
     | None => false
     end.

Definition enqueue_leased_stop (rt : Runtime) (n : nat) (cell_id : Uuid) (m : MembershipRow) :
    Tx World unit :=
  match mb_worker_id m, mb_lease_id m, mb_generation m with
  | Some worker, Some lease_id, Some generation =>
      let! g := tx_lift (u64_generation "pool generation is outside the valid range" generation) in
      let! stopped := enqueue_pool_stop_with_policy_on_connection rt n worker cell_id lease_id g
                        SterileCellDisposition.Quarantined false in
      match stopped with StopRefused e => tx_throw e | _ => tx_ret tt end
  | _, _, _ => tx_throw (api_error_of_db_error OtherDbError)
  end.

Definition enqueue_expired_leased_stops_on_connection (rt : Runtime) (n : nat) : Tx World unit :=
  let! db := tx_get in
  for_each_member (enqueue_leased_stop rt) n
    (select_members mb_updated_at (must_leave_leased (utc_now rt) db) (world db)).

(** ** Reconciliation *)

(** The first identifiers each part draws: a part handles at most
    [POOL_BATCH] members with two identifiers each. *)
Definition CLEANUP_IDS : nat := 0.
Definition READY_IDS : nat := 2 * POOL_BATCH.
Definition LEASED_IDS : nat := 4 * POOL_BATCH.
Definition CREATE_IDS : nat := 6 * POOL_BATCH.

Definition reconcile_cleanup_tx (rt : Runtime) : Tx World unit :=
  let! _ := enqueue_cleanup_pending_stops_on_connection rt CLEANUP_IDS in
  let! _ := enqueue_expired_ready_stops_on_connection rt READY_IDS in
  enqueue_expired_leased_stops_on_connection rt LEASED_IDS.

Definition reconcile_sterile_pool_cleanup (rt : Runtime) (db : Db World) :
    result unit ApiError * Db World :=
  run_tx (reconcile_cleanup_tx rt) db.

Definition cell_in_state (db : Db World) (state : SterileCellState) (sandbox_id : Uuid) : bool :=
  match sterile_cells db !! sandbox_id with
  | Some c => bool_decide (cell_state c = state)
  | None => false
  end.

(** The set-oriented updates: every new row is checked. *)
Definition update_memberships (guard : Uuid -> MembershipRow -> bool)
    (f : Uuid -> MembershipRow -> MembershipRow) : Tx World unit :=
  let! w := get_world in
  let ms := sterile_pool_memberships w in
  check! forallb (fun km => negb (guard km.1 km.2) || membership_check (f km.1 km.2)) (map_to_list ms)
    else api_error_of_db_error CheckViolation in
  modify_world (set_sterile_pool_memberships
    (map_imap (fun id m => Some (if guard id m then f id m else m)) ms)).

(** Claims are committed by another request path: fold them in. *)
Definition lease_sync (now : Z) : Tx World unit :=
  let! db := tx_get in
  update_memberships
    (fun id m => member_is MemberReady m && cell_in_state db SterileCellState.Leased id)
    (fun id m => membership_set_leased (sterile_cells db !! id ≫= cell_lease_id)
                   (cell_generation <$> sterile_cells db !! id) now m).

Definition quarantine_sync (now : Z) : Tx World unit :=
  let! db := tx_get in
  update_memberships
    (fun id m => member_is MemberProvisioning m && cell_in_state db SterileCellState.Quarantined id)
    (fun id m => membership_set_state MemberQuarantined (Some "cell_terminalized_outside_pool") now m).

(** The members of the configured tuple. *)
Definition in_pool (config : SterilePoolConfig) (m : MembershipRow) : bool :=
  String.eqb (mb_tenant_id m) (pool_tenant_id config)
  && bool_decide (mb_release m = pool_release config)
  && String.eqb (mb_candidate_agent_image m) (pool_agent_image config)
  && String.eqb (mb_candidate_maestro_image m) (pool_maestro_image config).

Definition is_live_member (m : MembershipRow) : bool :=
  member_is MemberProvisioning m || member_is MemberReady m || member_is MemberLeased m
  || member_is MemberStopping m || member_is MemberCleanupPending m.

Definition count_members (guard : MembershipRow -> bool) (w : World) : Z :=
  Z.of_nat (length (List.filter (fun km => guard km.2) (map_to_list (sterile_pool_memberships w)))).

Definition live_count (config : SterilePoolConfig) (w : World) : Z :=
  count_members (fun m => in_pool config m && is_live_member m) w.

Definition provisioning_count (config : SterilePoolConfig) (w : World) : Z :=
  count_members (fun m => in_pool config m && member_is MemberProvisioning m) w.

Definition members_to_create (config : SterilePoolConfig) (w : World) : Z :=
  Z.min (Z.max (pool_target config - live_count config w) 0)
        (Z.max (pool_max_provisioning config - provisioning_count config w) 0).

Definition reconcile_tx (rt : Runtime) (config : SterilePoolConfig) : Tx World Z :=
  let now := utc_now rt in
  let! _ := enqueue_cleanup_pending_stops_on_connection rt CLEANUP_IDS in
  let! _ := lease_sync now in
  let! _ := quarantine_sync now in
  let! _ := enqueue_expired_ready_stops_on_connection rt READY_IDS in
  let! _ := enqueue_expired_leased_stops_on_connection rt LEASED_IDS in
  let! w := get_world in
  let to_create := members_to_create config w in
  let! _ := insert_pool_members rt CREATE_IDS config (Z.to_nat to_create) in
  tx_ret to_create.

Definition reconcile_sterile_pool (rt : Runtime) (config : SterilePoolConfig) (db : Db World) :
    result Z ApiError * Db World :=
  run_tx (reconcile_tx rt config) db.

(** [record_pool_claim_on_connection]: the membership of a claimed cell, when
    it has one, must still be ready. *)
Definition record_pool_claim_on_connection (rt : Runtime) (cell_id lease_id : Uuid) (generation : Z) :
    Tx World unit :=
  match try_i64 generation with
  | None => tx_throw (bad_request "generation too large")
  | Some g =>
      let! updated := update_membership cell_id
        (fun m => member_is MemberReady m && bool_decide (mb_generation m = Some 1%Z))
        (membership_set_leased (Some lease_id) (Some g) (utc_now rt)) in
      let! w := get_world in
      check! updated || is_none (sterile_pool_memberships w !! cell_id)
        else conflict "sterile pool claim membership fence changed" in
      tx_ret tt
  end.
End Controller.
