(* ===== verification/SterileCells.v ===== *)
(** * Sterile cells: the handlers

    [sandboxwich-api/src/handlers/sterile_cells.rs].  A worker prepares a cell
    for a signed release; a tenant claims a ready cell under a claim
    identifier and gets a lease with an attestation; the lease is validated,
    released, destroyed or swept, and the cell is never leased again.

    A handler that runs statement by statement is written with one definition
    per statement, so that the steps of other requests can come between them
    ([SterileCellProofs]). *)

From S2P Require Import Prelude CoreTypes Json Store Leases SandboxLifecycle World CommandOutput.
From S2P Require Import Authz Scopes SterilePool PoolController.
From stdpp Require Import sorting pretty.

(** ** Data: [sandboxwich-core/src/lib.rs] *)

Record SterileCellV1 : Type := mkSterileCell {
  sc_cell_id : Uuid;
  sc_worker_id : Uuid;
  sc_provider_cell_id : string;
  sc_state : SterileCellState;
  sc_generation : Z;
  sc_release : SterileCellReleaseTrustClassV1;
  sc_expires_at : Z;
  sc_disposition : option SterileCellDisposition
}.

Record SterileCellLeaseV1 : Type := mkCellLease {
  cl_lease_id : Uuid;
  cl_cell_id : Uuid;
  cl_generation : Z;
  cl_release : SterileCellReleaseTrustClassV1;
  cl_organization_id : string;
  cl_workspace_id : string;
  cl_thread_id : string;
  cl_runner_session_id : string;
  cl_expires_at : Z
}.

Record SterileCellClaimLocatorV1 : Type := mkClaimLocator {
  lo_claim_id : Uuid;
  lo_lease_id : Uuid;
  lo_generation : Z;
  lo_expires_at : Z
}.

Record SterileCellLeaseStatusV1 : Type := mkLeaseStatus {
  ls_lease_id : Uuid;
  ls_cell_id : Uuid;
  ls_generation : Z;
  ls_state : SterileCellState;
  ls_disposition : option SterileCellDisposition;
  ls_provider_absent : bool;
  ls_cleanup_pending : bool
}.

Record PrepareSterileCellRequestV1 : Type := mkPrepareRequest {
  pr_cell_id : Uuid;
  pr_release : SterileCellReleaseTrustClassV1;
  pr_provider_cell_id : string;
  pr_expires_at : Z
}.

Record ClaimSterileCellRequestV1 : Type := mkCellClaimRequest {
  cq_claim_id : option Uuid;
  cq_release : SterileCellReleaseTrustClassV1;
  cq_organization_id : string;
  cq_workspace_id : string;
  cq_thread_id : string;
  cq_runner_session_id : string;
  cq_lease_seconds : option Z
}.

(** The binding a validation or a release presents. *)
Record LeaseFence : Type := mkLeaseFence {
  lf_attestation : string;
  lf_generation : Z;
  lf_organization_id : string;
  lf_workspace_id : string;
  lf_thread_id : string;
  lf_runner_session_id : string
}.

Record DestroySterileCellRequestV1 : Type := mkDestroyRequest {
  dr_lease_id : Uuid;
  dr_generation : Z;
  dr_disposition : SterileCellDisposition
}.

Record SterileCellClaimabilityEvidenceV1 : Type := mkEvidence {
  evi_pool_ready_cells : Z;
  evi_ready_cells : Z;
  evi_unhealthy_pool_ready_cells : Z;
  evi_claimable_cells : Z;
  evi_protected_ready_cells : Z;
  evi_leased_cells : Z;
  evi_mismatched_active_cells : Z
}.

Record NoLeaseDiagnosis : Type := mkDiagnosis {
  nl_reason : SterileCellNoLeaseReasonV1;
  nl_claimability : SterileCellClaimabilityEvidenceV1
}.

Inductive ClaimAttempt : Type :=
| CellClaimed (lease : SterileCellLeaseV1) (token : string)
| ClaimContended
| ClaimEmpty (diagnosis : option NoLeaseDiagnosis)
| ClaimNoLongerLive.

(** The configuration the handlers read from [AppState]. *)
Record CellSettings : Type := mkCellSettings {
  sterile_cell_signing_key : option string;
  sterile_pool_settings : option SterilePoolConfig
}.

(** HMAC-SHA256 and SHA-256 in URL-safe base64, RFC 3339 timestamps, and the
    derived [serde] of the evidence. *)
Class CellLib : Type := {
  hmac_base64 : string -> string -> string;
  sha256_base64 : string -> string;
  to_rfc3339 : Z -> string;
  evidence_to_string : SterileCellClaimabilityEvidenceV1 -> option string;
  evidence_from_str : string -> option SterileCellClaimabilityEvidenceV1
}.

Definition DEFAULT_CELL_LEASE_SECONDS : Z := 120.
Definition MAX_CELL_LEASE_SECONDS : Z := 300.
Definition RELEASE_SIGNATURE_PREFIX : string := "swrs1_".
Definition LEASE_ATTESTATION_PREFIX : string := "swla1_".

(** ** Validation *)

Definition is_identifier_byte (b : N) : bool :=
  is_ascii_alphanumeric b || existsb (N.eqb b) (str_bytes "-_.:/").

Definition valid_identifier (value : string) : bool :=
  negb (trim_is_empty value) && (Z.of_nat (String.length value) <=? 256)%Z
  && forallb is_identifier_byte (str_bytes value).

Definition is_digest_byte (b : N) : bool := is_ascii_digit b || ((97 <=? b) && (b <=? 102))%N.

(** The fields of a hashed text, separated by a zero byte. *)
Definition NUL : string := String Ascii.zero EmptyString.

Definition nul_joined (fields : list string) : string := String.concat NUL fields.

Definition u64_text (n : Z) : string := pretty (Z.to_N n).

Section Cells.
Context `{UuidLib} `{SerdeLib} `{CellLib}.

Definition require_enabled (settings : CellSettings) : result string ApiError :=
  match sterile_cell_signing_key settings with
  | Some key => Ok key
  | None => Err (not_found "resource not found")
  end.

Definition release_material (r : SterileCellReleaseTrustClassV1) : string :=
  nul_joined ["sandboxwich-sterile-release-v1"; release_set_id r;
              as_db_str (release_runtime_class r); to_ascii_lowercase (release_policy_digest r)].

Definition validate_release (key : string) (r : SterileCellReleaseTrustClassV1) : result unit ApiError :=
  if negb (valid_identifier (release_set_id r))
     || negb (Z.of_nat (String.length (release_policy_digest r)) =? 64)%Z
     || negb (forallb is_digest_byte (str_bytes (release_policy_digest r)))
  then Err (bad_request "release_set_id or policy_digest is invalid")
  else if negb (String.eqb (RELEASE_SIGNATURE_PREFIX ++ hmac_base64 key (release_material r))
                  (release_signature r))
  then Err (forbidden "sterile-cell release trust class signature is invalid")
  else Ok tt.

Definition validate_binding (value field : string) : result unit ApiError :=
  if valid_identifier value then Ok tt else Err (bad_request (field ++ " is invalid")).

Definition lease_material (l : SterileCellLeaseV1) : string :=
  nul_joined ["sandboxwich-sterile-lease-v1"; uuid_to_string (cl_lease_id l);
              uuid_to_string (cl_cell_id l); u64_text (cl_generation l);
              release_set_id (cl_release l); as_db_str (release_runtime_class (cl_release l));
              release_policy_digest (cl_release l); cl_organization_id l; cl_workspace_id l;
              cl_thread_id l; cl_runner_session_id l; to_rfc3339 (cl_expires_at l);
              release_signature (cl_release l)].

Definition lease_token (key : string) (l : SterileCellLeaseV1) : string :=
  LEASE_ATTESTATION_PREFIX ++ hmac_base64 key (lease_material l).

Definition claim_material (q : ClaimSterileCellRequestV1) : string :=
  nul_joined ["sandboxwich-sterile-claim-v1"; release_set_id (cq_release q);
              as_db_str (release_runtime_class (cq_release q));
              release_policy_digest (cq_release q); release_signature (cq_release q);
              cq_organization_id q; cq_workspace_id q; cq_thread_id q; cq_runner_session_id q;
              from_option u64_text "none" (cq_lease_seconds q)].

Definition claim_request_digest (q : ClaimSterileCellRequestV1) : string :=
  sha256_base64 (claim_material q).

(** [hash_worker_token] of an attestation. *)
Definition hash_attestation (token : string) : string := sha256_hex token.

Definition matching_pool_config (settings : CellSettings) (ctx : TenantContext)
    (q : ClaimSterileCellRequestV1) : option SterilePoolConfig :=
  match sterile_pool_settings settings with
  | Some config =>
      if String.eqb (pool_tenant_id config) (ctx_tenant_id ctx)
         && bool_decide (pool_release config = cq_release q)
      then Some config else None
  | None => None
  end.

(** ** Rows *)

Definition cell_from_row (id : Uuid) (c : SterileCellRow) : result SterileCellV1 ApiError :=
  let? generation := u64_generation "invalid sterile-cell generation" (cell_generation c) in
  Ok (mkSterileCell id (cell_worker_id c) (cell_provider_cell_id c) (cell_state c) generation
        (cell_release c) (cell_expires_at c) (cell_disposition c)).

(** A column that is null where the handler reads a value. *)
Definition null_column : ApiError := api_error_of_db_error OtherDbError.

Definition lease_from_row (id : Uuid) (c : SterileCellRow) : result SterileCellLeaseV1 ApiError :=
  match cell_lease_id c with
  | None => Err null_column
  | Some lease_id =>
      let? generation := u64_generation "invalid sterile-cell generation" (cell_generation c) in
      match cell_organization_id c, cell_workspace_id c, cell_thread_id c,
            cell_runner_session_id c, cell_lease_expires_at c with
      | Some organization, Some workspace, Some thread, Some session, Some expires =>
          Ok (mkCellLease lease_id id generation (cell_release c) organization workspace thread
                session expires)
      | _, _, _, _, _ => Err null_column
      end
  end.

Definition fetch_cell (db : Db World) (id : Uuid) : result SterileCellV1 ApiError :=
  match sterile_cells db !! id with
  | Some c => cell_from_row id c
  | None => Err (not_found "resource not found")
  end.

Definition cell_of_worker (worker : Uuid) (tenant : string) (c : SterileCellRow) : bool :=
  bool_decide (cell_worker_id c = worker) && bool_decide (cell_tenant_id c = Some tenant).

Definition fetch_worker_cell (db : Db World) (worker id : Uuid) (tenant : string) :
    result SterileCellV1 ApiError :=
  match sterile_cells db !! id with
  | Some c => if cell_of_worker worker tenant c then cell_from_row id c
              else Err (not_found "resource not found")
  | None => Err (not_found "resource not found")
  end.

(** ** Preparing and retiring *)

Definition required_cell_capability (class : SterileCellRuntimeClass) : WorkerCapability :=
  match class with
  | SterileCellRuntimeClass.KataMicrovm => WorkerCapability.VirtualMachine
  | SterileCellRuntimeClass.GvisorLowerRisk => WorkerCapability.SandboxedContainer
  end.

Definition set_policy_digest (digest : string) (r : SterileCellReleaseTrustClassV1) :
    SterileCellReleaseTrustClassV1 :=
  mkReleaseTrustClass (release_set_id r) (release_runtime_class r) digest (release_signature r).

Definition stored_release (r : SterileCellReleaseTrustClassV1) : SterileCellReleaseTrustClassV1 :=
  set_policy_digest (to_ascii_lowercase (release_policy_digest r)) r.

Definition prepared_cell (q : PrepareSterileCellRequestV1) (worker : Uuid) (tenant : string) (now : Z) :
    SterileCellRow :=
  mkSterileCellRow worker (pr_provider_cell_id q) SterileCellState.Ready 1
    (stored_release (pr_release q)) (Some tenant) None None None None None None None
    (pr_expires_at q) None false now None None now None None.

(** The insert, with the keys of the table. *)
Definition insert_cell (id : Uuid) (c : SterileCellRow) : Tx World unit :=
  let! db := tx_get in
  check! is_none (sterile_cells db !! id) else api_error_of_db_error UniqueViolation in
  check! forallb (fun kc => negb (bool_decide (cell_worker_id kc.2 = cell_worker_id c)
                                  && String.eqb (cell_provider_cell_id kc.2) (cell_provider_cell_id c)))
           (map_to_list (sterile_cells db))
    else api_error_of_db_error UniqueViolation in
  check! is_some (workers db !! cell_worker_id c) else foreign_key_error in
  check! cell_check c else api_error_of_db_error CheckViolation in
  tx_modify (fun db => set_sterile_cells (<[id := c]> (sterile_cells db)) db).

Definition prepare_sterile_cell (rt : Runtime) (settings : CellSettings) (ctx : TenantContext)
    (worker_id : Uuid) (q : PrepareSterileCellRequestV1) (db : Db World) :
    result SterileCellV1 ApiError * Db World :=
  let checks :=
    let? key := require_enabled settings in
    let? _ := ensure_worker_scope ctx worker_id in
    let? worker := ensure_worker_tenant db worker_id ctx in
    let? _ := validate_release key (pr_release q) in
    if (pr_expires_at q <=? utc_now rt)%Z
    then Err (bad_request "sterile-cell expiry must be in the future")
    else
      let? _ := validate_binding (pr_provider_cell_id q) "provider_cell_id" in
      if bool_decide (required_cell_capability (release_runtime_class (pr_release q))
                      ∈ capabilities worker)
      then Ok worker
      else Err (forbidden "worker does not advertise the signed sterile-cell runtime class") in
  match checks with
  | Err e => (Err e, db)
  | Ok worker =>
      match run_tx (insert_cell (pr_cell_id q)
                      (prepared_cell q worker_id (worker_tenant_id worker) (utc_now rt))) db with
      | (Ok _, db') => (fetch_cell db' (pr_cell_id q), db')
      | (Err e, db') => (Err e, db')
      end
  end.

Definition is_retirable (worker : Uuid) (tenant : string) (c : SterileCellRow) : bool :=
  cell_of_worker worker tenant c && bool_decide (cell_state c = SterileCellState.Ready)
  && (cell_generation c =? 1)%Z && negb (cell_ever_tenant_exposed c).

Definition retire_update (rt : Runtime) (worker id : Uuid) (tenant : string) : Tx World bool :=
  update_cell id (is_retirable worker tenant) (cell_set_quarantined (utc_now rt)).

Definition retire_ready_sterile_cell (rt : Runtime) (settings : CellSettings) (ctx : TenantContext)
    (worker_id id : Uuid) (generation : Z) (db : Db World) :
    result SterileCellV1 ApiError * Db World :=
  let checks :=
    let? _ := require_enabled settings in
    let? _ := ensure_worker_scope ctx worker_id in
    let? _ := ensure_worker_tenant db worker_id ctx in
    fetch_worker_cell db worker_id id (ctx_tenant_id ctx) in
  match checks with
  | Err e => (Err e, db)
  | Ok current =>
      if bool_decide (sc_state current = SterileCellState.Quarantined)
         && (sc_generation current =? 1)%Z && (generation =? 1)%Z
         && bool_decide (sc_disposition current = Some SterileCellDisposition.Quarantined)
      then (Ok current, db)
      else if negb (generation =? 1)%Z || negb (sc_generation current =? 1)%Z
              || negb (bool_decide (sc_state current = SterileCellState.Ready))
      then (Err (conflict "only a ready generation-1 sterile cell can be retired"), db)
      else
        match run_tx (retire_update rt worker_id id (ctx_tenant_id ctx)) db with
        | (Ok true, db') => (fetch_worker_cell db' worker_id id (ctx_tenant_id ctx), db')
        | (Ok false, db') =>
            (Err (conflict "sterile-cell state changed before ready-cell retirement"), db')
        | (Err e, db') => (Err e, db')
        end
  end.

(** ** Diagnosing an empty claim *)

Definition count_cells (guard : Uuid -> SterileCellRow -> bool) (db : Db World) : Z :=
  Z.of_nat (length (List.filter (fun kc => guard kc.1 kc.2) (map_to_list (sterile_cells db)))).

(** The release columns of the query's parameters. *)
Definition of_release (q : ClaimSterileCellRequestV1) (c : SterileCellRow) : bool :=
  bool_decide (cell_release c = stored_release (cq_release q)).

Definition of_tenant (ctx : TenantContext) (c : SterileCellRow) : bool :=
  bool_decide (cell_tenant_id c = Some (ctx_tenant_id ctx)).

Definition cell_is (state : SterileCellState) (c : SterileCellRow) : bool :=
  bool_decide (cell_state c = state).

Definition is_eligible (ctx : TenantContext) (q : ClaimSterileCellRequestV1) (lease_expires_at : Z)
    (c : SterileCellRow) : bool :=
  of_tenant ctx c && cell_is SterileCellState.Ready c && of_release q c
  && (lease_expires_at <? cell_expires_at c)%Z.

(** The ready members that share a member's tuple. *)
Definition ready_reserve (w : World) (m : MembershipRow) : Z :=
  count_members (fun r =>
    String.eqb (mb_tenant_id r) (mb_tenant_id m) && bool_decide (mb_release r = mb_release m)
    && String.eqb (mb_candidate_agent_image r) (mb_candidate_agent_image m)
    && String.eqb (mb_candidate_maestro_image r) (mb_candidate_maestro_image m)
    && member_is MemberReady r) w.

Definition runs_images (config : SterilePoolConfig) (m : MembershipRow) : bool :=
  String.eqb (mb_candidate_agent_image m) (pool_agent_image config)
  && String.eqb (mb_candidate_maestro_image m) (pool_maestro_image config).

Definition at_floor (config : SterilePoolConfig) (w : World) (m : MembershipRow) : bool :=
  (ready_reserve w m <=? pool_ready_floor config)%Z.

(** A ready cell that the diagnosis counts as held back. *)
Definition is_reserved_cell (config : SterilePoolConfig) (ctx : TenantContext)
    (q : ClaimSterileCellRequestV1) (lease_expires_at : Z) (w : World) (id : Uuid)
    (c : SterileCellRow) : bool :=
  is_eligible ctx q lease_expires_at c
  && match sterile_pool_memberships w !! id with
     | Some m => member_is MemberReady m && runs_images config m && at_floor config w m
     | None => false
     end.

Definition pool_ready (ctx : TenantContext) (q : ClaimSterileCellRequestV1) (m : MembershipRow) : bool :=
  String.eqb (mb_tenant_id m) (ctx_tenant_id ctx)
  && bool_decide (mb_release m = stored_release (cq_release q)) && member_is MemberReady m.

Definition count_pool (guard : Uuid -> MembershipRow -> bool) (w : World) : Z :=
  Z.of_nat (length (List.filter (fun km => guard km.1 km.2) (map_to_list (sterile_pool_memberships w)))).

Definition gather_evidence (now : Z) (settings : CellSettings) (ctx : TenantContext)
    (q : ClaimSterileCellRequestV1) (lease_expires_at : Z) (db : Db World) :
    result SterileCellClaimabilityEvidenceV1 ApiError :=
  let w := world db in
  let ready := count_cells (fun _ c => of_tenant ctx c && cell_is SterileCellState.Ready c
                                       && of_release q c) db in
  let leased := count_cells (fun _ c => of_tenant ctx c && cell_is SterileCellState.Leased c
                                        && of_release q c) db in
  let mismatched := count_cells (fun _ c => of_tenant ctx c
      && (cell_is SterileCellState.Ready c || cell_is SterileCellState.Leased c)
      && negb (of_release q c)) db in
  let eligible := count_cells (fun _ c => is_eligible ctx q lease_expires_at c) db in
  let pool := count_pool (fun _ m => pool_ready ctx q m) w in
  let unhealthy := count_pool (fun id m => pool_ready ctx q m && ready_unhealthy now w id m) w in
  let protected :=
    match matching_pool_config settings ctx q with
    | Some config => count_cells (is_reserved_cell config ctx q lease_expires_at w) db
    | None => 0%Z
    end in
  if (eligible <? protected)%Z
  then Err (internal "protected sterile-cell count exceeds ready capacity")
  else Ok (mkEvidence pool ready unhealthy (eligible - protected) protected leased mismatched).

Definition no_lease_reason (e : SterileCellClaimabilityEvidenceV1) : SterileCellNoLeaseReasonV1 :=
  if ((0 <? evi_protected_ready_cells e) && (evi_claimable_cells e =? 0))%Z
  then SterileCellNoLeaseReasonV1.ReadyFloorProtected
  else if ((evi_ready_cells e =? 0) && (0 <? evi_leased_cells e))%Z
  then SterileCellNoLeaseReasonV1.AlreadyLeased
  else if ((evi_ready_cells e =? 0) && (evi_leased_cells e =? 0) && (0 <? evi_mismatched_active_cells e))%Z
  then SterileCellNoLeaseReasonV1.ReleaseMismatch
  else if ((0 <? evi_pool_ready_cells e) && (evi_unhealthy_pool_ready_cells e =? evi_pool_ready_cells e)
           && (evi_claimable_cells e =? 0))%Z
  then SterileCellNoLeaseReasonV1.Unhealthy
  else if ((evi_ready_cells e =? 0) && (evi_leased_cells e =? 0) && (evi_pool_ready_cells e =? 0))%Z
  then SterileCellNoLeaseReasonV1.CapacityAbsent
  else SterileCellNoLeaseReasonV1.NotClaimable.

Definition diagnose_no_lease (now : Z) (settings : CellSettings) (ctx : TenantContext)
    (q : ClaimSterileCellRequestV1) (lease_expires_at : Z) (db : Db World) :
    result NoLeaseDiagnosis ApiError :=
  let? e := gather_evidence now settings ctx q lease_expires_at db in
  Ok (mkDiagnosis (no_lease_reason e) e).

(** ** Claiming *)

(** The diagnosis stored with an empty claim: both columns or none. *)
Definition stored_diagnosis (r : CellClaimRow) : result (option NoLeaseDiagnosis) ApiError :=
  match cc_no_lease_reason r, cc_claimability_evidence r with
  | Some reason, Some evidence =>
      match parse_db_str reason, evidence_from_str evidence with
      | Ok reason, Some evidence => Ok (Some (mkDiagnosis reason evidence))
      | Err _, _ => Err (internal "invalid SterileCellNoLeaseReasonV1 in the database")
      | _, None => Err json_error
      end
  | None, None => Ok None
  | _, _ => Err (internal "sterile-cell empty claim has incomplete diagnosis")
  end.

Definition recover_leased_claim (rt : Runtime) (key : string) (r : CellClaimRow) (id : Uuid)
    (c : SterileCellRow) : Tx World ClaimAttempt :=
  let! lease := tx_lift (lease_from_row id c) in
  match cc_lease_id r with
  | None => tx_throw null_column
  | Some claimed =>
      check! bool_decide (claimed = cl_lease_id lease)
        else internal "sterile-cell claim and lease locators do not match" in
      if negb (cell_is SterileCellState.Leased c) || (cl_expires_at lease <=? utc_now rt)%Z then
        let! _ := if cell_is SterileCellState.Leased c
                  then update_cell id (cell_is SterileCellState.Leased)
                         (cell_set_quarantined (utc_now rt))
                  else tx_ret false in
        tx_ret ClaimNoLongerLive
      else
        let token := lease_token key lease in
        match cell_lease_attestation_sha256 c with
        | None => tx_throw null_column
        | Some digest =>
            check! String.eqb digest (hash_attestation token)
              else conflict "live sterile-cell lease attestation cannot be regenerated" in
            tx_ret (CellClaimed lease token)
        end
  end.

Definition recover_claim (rt : Runtime) (key : string) (tenant : string) (claim_id : Uuid)
    (digest : string) : Tx World (option ClaimAttempt) :=
  let! db := tx_get in
  match sterile_cell_claims (world db) !! (tenant, claim_id) with
  | None => tx_ret None
  | Some r =>
      check! String.eqb (cc_request_sha256 r) digest
        else conflict "claim_id was already used for a different sterile-cell claim" in
      match cc_cell_id r with
      | None =>
          let! diagnosis := tx_lift (stored_diagnosis r) in
          tx_ret (Some (ClaimEmpty diagnosis))
      | Some id =>
          match sterile_cells db !! id with
          | None => tx_throw null_column
          | Some c =>
              let! attempt := recover_leased_claim rt key r id c in
              tx_ret (Some attempt)
          end
      end
  end.

(** [order by created_at asc, id asc limit 1]. *)
Definition older_cell (a b : Uuid * SterileCellRow) : Prop :=
  (cell_created_at a.2 < cell_created_at b.2)%Z
  \/ (cell_created_at a.2 = cell_created_at b.2 /\ (a.1 <= b.1)%N).

#[local] Instance older_cell_dec : RelDecision older_cell.
Proof. intros a b. unfold older_cell. apply _. Defined.

(** The reserve clause of the query. *)
Definition is_withheld (config : option SterilePoolConfig) (w : World) (id : Uuid) : bool :=
  match config, sterile_pool_memberships w !! id with
  | Some config, Some m => member_is MemberReady m && in_pool config m && at_floor config w m
  | _, _ => false
  end.

Definition claimable_cells (settings : CellSettings) (ctx : TenantContext)
    (q : ClaimSterileCellRequestV1) (lease_expires_at : Z) (db : Db World) :
    list (Uuid * SterileCellRow) :=
  List.filter (fun kc => is_eligible ctx q lease_expires_at kc.2
                         && negb (is_withheld (matching_pool_config settings ctx q) (world db) kc.1))
    (map_to_list (sterile_cells db)).

Definition select_cell (settings : CellSettings) (ctx : TenantContext)
    (q : ClaimSterileCellRequestV1) (lease_expires_at : Z) (db : Db World) :
    option (Uuid * SterileCellRow) :=
  head (merge_sort older_cell (claimable_cells settings ctx q lease_expires_at db)).

Definition claim_row_open (digest : string) (r : CellClaimRow) : bool :=
  String.eqb (cc_request_sha256 r) digest && is_none (cc_cell_id r) && is_none (cc_lease_id r).

Definition claim_set_diagnosis (reason evidence : string) (r : CellClaimRow) : CellClaimRow :=
  mkCellClaimRow (cc_request_sha256 r) (cc_cell_id r) (cc_lease_id r) (cc_created_at r)
    (Some reason) (Some evidence).

Definition claim_set_lease (id lease_id : Uuid) (r : CellClaimRow) : CellClaimRow :=
  mkCellClaimRow (cc_request_sha256 r) (Some id) (Some lease_id) (cc_created_at r)
    (cc_no_lease_reason r) (cc_claimability_evidence r).

(** The link of a claim, with the unique columns of the table. *)
Definition update_claim (tenant : string) (fence : Uuid * string) (f : CellClaimRow -> CellClaimRow) :
    Tx World bool :=
  let! w := get_world in
  let claims := sterile_cell_claims w in
  match claims !! (tenant, fence.1) with
  | Some r =>
      if claim_row_open fence.2 r then
        check! forallb (fun kr => bool_decide (kr.1 = (tenant, fence.1))
                  || negb ((is_some (cc_cell_id kr.2) && bool_decide (cc_cell_id kr.2 = cc_cell_id (f r)))
                           || (is_some (cc_lease_id kr.2)
                               && bool_decide (cc_lease_id kr.2 = cc_lease_id (f r)))))
                 (map_to_list claims)
          else api_error_of_db_error UniqueViolation in
        let! _ := modify_world (set_sterile_cell_claims (<[(tenant, fence.1) := f r]> claims)) in
        tx_ret true
      else tx_ret false
  | None => tx_ret false
  end.

(** [on conflict (tenant_id, claim_id) do nothing]. *)
Definition insert_claim (tenant : string) (fence : Uuid * string) (now : Z) : Tx World bool :=
  let! w := get_world in
  let claims := sterile_cell_claims w in
  if is_some (claims !! (tenant, fence.1)) then tx_ret false
  else
    let! _ := modify_world (set_sterile_cell_claims
      (<[(tenant, fence.1) := mkCellClaimRow fence.2 None None now None None]> claims)) in
    tx_ret true.

(** The columns a lease writes. *)
Definition cell_set_leased (l : SterileCellLeaseV1) (tenant digest : string) (now : Z)
    (c : SterileCellRow) : SterileCellRow :=
  mkSterileCellRow (cell_worker_id c) (cell_provider_cell_id c) SterileCellState.Leased
    (cl_generation l) (cell_release c) (Some tenant) (Some (cl_organization_id l))
    (Some (cl_workspace_id l)) (Some (cl_thread_id l)) (Some (cl_runner_session_id l))
    (Some (cl_lease_id l)) (Some digest) (Some (cl_expires_at l)) (cell_expires_at c)
    (cell_disposition c) true (cell_created_at c) (Some now) (cell_destroyed_at c) now
    (cell_activated_resident_process_id c) (cell_activated_resident_generation c).

Definition is_leasable (tenant : string) (generation : Z) (c : SterileCellRow) : bool :=
  bool_decide (cell_tenant_id c = Some tenant) && cell_is SterileCellState.Ready c
  && (cell_generation c =? generation)%Z && negb (cell_ever_tenant_exposed c).

(** A claim's transaction ends in a commit ([true]) or in a rollback that is
    still answered ([false]). *)
Definition committed (a : ClaimAttempt) : Tx World (ClaimAttempt * bool) := tx_ret (a, true).
Definition rolled_back (a : ClaimAttempt) : Tx World (ClaimAttempt * bool) := tx_ret (a, false).

(** No cell: the diagnosis is answered, and stored with the claim. *)
Definition answer_empty (rt : Runtime) (settings : CellSettings) (ctx : TenantContext)
    (q : ClaimSterileCellRequestV1) (lease_expires_at : Z) (fence : option (Uuid * string)) :
    Tx World (ClaimAttempt * bool) :=
  let! db := tx_get in
  let! diagnosis := tx_lift (diagnose_no_lease (utc_now rt) settings ctx q lease_expires_at db) in
  match fence with
  | None => committed (ClaimEmpty (Some diagnosis))
  | Some fence =>
      match evidence_to_string (nl_claimability diagnosis) with
      | None => tx_throw json_error
      | Some evidence =>
          let! stored := update_claim (ctx_tenant_id ctx) fence
                           (claim_set_diagnosis (as_db_str (nl_reason diagnosis)) evidence) in
          if stored then committed (ClaimEmpty (Some diagnosis)) else rolled_back ClaimContended
      end
  end.

Definition new_lease (rt : Runtime) (q : ClaimSterileCellRequestV1) (id : Uuid) (generation expires : Z) :
    SterileCellLeaseV1 :=
  mkCellLease (new_uuid rt 0) id generation (cq_release q) (cq_organization_id q)
    (cq_workspace_id q) (cq_thread_id q) (cq_runner_session_id q) expires.

(** [i64::try_from] of a generation that is bound to a statement. *)
Definition i64_generation (generation : Z) : result Z ApiError :=
  match try_i64 generation with
  | Some g => Ok g
  | None => Err (bad_request "generation too large")
  end.

Definition lease_cell (rt : Runtime) (key : string) (ctx : TenantContext)
    (q : ClaimSterileCellRequestV1) (lease_expires_at : Z) (fence : option (Uuid * string))
    (id : Uuid) (c : SterileCellRow) : Tx World (ClaimAttempt * bool) :=
  let now := utc_now rt in
  let expires := Z.min lease_expires_at (cell_expires_at c) in
  if (expires <=? now)%Z then
    let! _ := update_cell id (cell_is SterileCellState.Ready) (cell_set_quarantined now) in
    committed ClaimContended
  else
    let! g := tx_lift (u64_generation "invalid sterile-cell generation" (cell_generation c)) in
    check! (g <? u64_max)%Z else internal "sterile-cell generation overflow" in
    let lease := new_lease rt q id (g + 1) expires in
    let token := lease_token key lease in
    let! _ := tx_lift (i64_generation (g + 1)) in
    let! _ := tx_lift (i64_generation g) in
    let! updated := update_cell id (is_leasable (ctx_tenant_id ctx) g)
                      (cell_set_leased lease (ctx_tenant_id ctx) (hash_attestation token) now) in
    if negb updated then rolled_back ClaimContended
    else
      let! _ := record_pool_claim_on_connection rt id (cl_lease_id lease) (g + 1) in
      match fence with
      | None => committed (CellClaimed lease token)
      | Some fence =>
          let! linked := update_claim (ctx_tenant_id ctx) fence (claim_set_lease id (cl_lease_id lease)) in
          if linked then committed (CellClaimed lease token) else rolled_back ClaimContended
      end.

Definition claim_tx (rt : Runtime) (settings : CellSettings) (key : string) (ctx : TenantContext)
    (q : ClaimSterileCellRequestV1) (lease_expires_at : Z) : Tx World (ClaimAttempt * bool) :=
  let tenant := ctx_tenant_id ctx in
  let fence := (fun id => (id, claim_request_digest q)) <$> cq_claim_id q in
  let! recovered := match fence with
                    | Some (id, digest) => recover_claim rt key tenant id digest
                    | None => tx_ret None
                    end in
  match recovered with
  | Some attempt => committed attempt
  | None =>
      let! inserted := match fence with
                       | Some fence => insert_claim tenant fence (utc_now rt)
                       | None => tx_ret true
                       end in
      if negb inserted then rolled_back ClaimContended
      else
        let! db := tx_get in
        match select_cell settings ctx q lease_expires_at db with
        | None => answer_empty rt settings ctx q lease_expires_at fence
        | Some (id, c) => lease_cell rt key ctx q lease_expires_at fence id c
        end
  end.

(** A recovered claim whose lease has ended is committed and then refused. *)
Definition claim_cell_once (rt : Runtime) (settings : CellSettings) (key : string)
    (ctx : TenantContext) (q : ClaimSterileCellRequestV1) (lease_expires_at : Z) (db : Db World) :
    result ClaimAttempt ApiError * Db World :=
  match claim_tx rt settings key ctx q lease_expires_at db with
  | Err e => (Err e, db)
  | Ok ((ClaimNoLongerLive, _), db') =>
      (Err (conflict "claim_id refers to a sterile-cell lease that is no longer live"), db')
  | Ok ((attempt, true), db') => (Ok attempt, db')
  | Ok ((attempt, false), _) => (Ok attempt, db)
  end.

Record ClaimSterileCellResponseV1 : Type := mkCellClaimResponse {
  rs_lease : option SterileCellLeaseV1;
  rs_lease_attestation : option string;
  rs_no_lease_reason : option SterileCellNoLeaseReasonV1;
  rs_claimability : option SterileCellClaimabilityEvidenceV1
}.

Definition empty_claim_response (diagnosis : option NoLeaseDiagnosis) : ClaimSterileCellResponseV1 :=
  mkCellClaimResponse None None (nl_reason <$> diagnosis) (nl_claimability <$> diagnosis).

(** [for _ in 0..4]: between the attempts other requests commit. *)
Fixpoint claim_attempts (fuel : nat) (rts : nat -> Runtime) (others : nat -> Db World -> Db World)
    (settings : CellSettings) (key : string) (ctx : TenantContext) (q : ClaimSterileCellRequestV1)
    (lease_expires_at : Z) (db : Db World) :
    result (option ClaimSterileCellResponseV1) ApiError * Db World :=
  match fuel with
  | O => (Ok None, db)
  | S fuel' =>
      match claim_cell_once (rts fuel) settings key ctx q lease_expires_at (others fuel db) with
      | (Err e, db') => (Err e, db')
      | (Ok (CellClaimed lease token), db') =>
          (Ok (Some (mkCellClaimResponse (Some lease) (Some token) None None)), db')
      | (Ok (ClaimEmpty diagnosis), db') => (Ok (Some (empty_claim_response diagnosis)), db')
      | (Ok _, db') => claim_attempts fuel' rts others settings key ctx q lease_expires_at db'
      end
  end.

Definition claim_checks (settings : CellSettings) (q : ClaimSterileCellRequestV1) :
    result string ApiError :=
  let? key := require_enabled settings in
  let? _ := validate_release key (cq_release q) in
  let? _ := validate_binding (cq_organization_id q) "organization_id" in
  let? _ := validate_binding (cq_workspace_id q) "workspace_id" in
  let? _ := validate_binding (cq_thread_id q) "thread_id" in
  let? _ := validate_binding (cq_runner_session_id q) "runner_session_id" in
  Ok key.

Definition cell_lease_seconds (q : ClaimSterileCellRequestV1) : Z :=
  Z.min MAX_CELL_LEASE_SECONDS (Z.max 1 (default DEFAULT_CELL_LEASE_SECONDS (cq_lease_seconds q))).

Definition claim_sterile_cell (rts : nat -> Runtime) (others : nat -> Db World -> Db World)
    (settings : CellSettings) (ctx : TenantContext) (q : ClaimSterileCellRequestV1) (db : Db World) :
    result ClaimSterileCellResponseV1 ApiError * Db World :=
  match claim_checks settings q with
  | Err e => (Err e, db)
  | Ok key =>
      let expires := (utc_now (rts 5%nat) + seconds (cell_lease_seconds q))%Z in
      match claim_attempts 4 rts others settings key ctx q expires db with
      | (Err e, db') => (Err e, db')
      | (Ok (Some response), db') => (Ok response, db')
      | (Ok None, db') =>
          match cq_claim_id q with
          | Some _ =>
              (Err (conflict_code "sterile_cell_claim_contended"
                      "sterile-cell claim is contended; retry with the same claim_id"), db')
          | None =>
              match diagnose_no_lease (utc_now (rts 0%nat)) settings ctx q expires db' with
              | Err e => (Err e, db')
              | Ok d => (Ok (empty_claim_response (Some
                  (mkDiagnosis SterileCellNoLeaseReasonV1.ClaimContended (nl_claimability d)))), db')
              end
          end
      end
  end.

(** ** Validating, releasing, destroying *)

(** [quarantine_lease]. *)
Definition quarantine_lease (rt : Runtime) (id : Uuid) : Tx World unit :=
  quarantine_pool_cell_record_on_connection rt id.

Definition find_lease (tenant : string) (lease_id : Uuid) (db : Db World) : option (Uuid * SterileCellRow) :=
  find (fun kc => bool_decide (cell_lease_id kc.2 = Some lease_id)
                  && bool_decide (cell_tenant_id kc.2 = Some tenant)) (map_to_list (sterile_cells db)).

Definition lease_fence_matches (lease_id : Uuid) (f : LeaseFence) (digest : string) (l : SterileCellLeaseV1) :
    bool :=
  bool_decide (cl_lease_id l = lease_id) && (cl_generation l =? lf_generation f)%Z
  && String.eqb (cl_organization_id l) (lf_organization_id f)
  && String.eqb (cl_workspace_id l) (lf_workspace_id f)
  && String.eqb (cl_thread_id l) (lf_thread_id f)
  && String.eqb (cl_runner_session_id l) (lf_runner_session_id f)
  && String.eqb digest (hash_attestation (lf_attestation f)).

(** The read and its checks; [None] when the lease is no longer live. *)
Definition check_lease_fence (now : Z) (ctx : TenantContext) (lease_id : Uuid) (f : LeaseFence)
    (db : Db World) : result (Uuid * option (SterileCellLeaseV1 * Uuid)) ApiError :=
  match find_lease (ctx_tenant_id ctx) lease_id db with
  | None => Err (not_found "resource not found")
  | Some (id, c) =>
      let? lease := lease_from_row id c in
      match cell_lease_attestation_sha256 c with
      | None => Err null_column
      | Some digest =>
          if negb (lease_fence_matches lease_id f digest lease)
          then Err (conflict "sterile-cell lease attestation does not match the live lease fence")
          else if negb (cell_is SterileCellState.Leased c) || (cl_expires_at lease <=? now)%Z
          then Ok (id, None)
          else Ok (id, Some (lease, cell_worker_id c))
      end
  end.

Definition validate_live_lease_fence (rt : Runtime) (ctx : TenantContext) (lease_id : Uuid)
    (f : LeaseFence) (db : Db World) : result (SterileCellLeaseV1 * Uuid) ApiError * Db World :=
  match check_lease_fence (utc_now rt) ctx lease_id f db with
  | Err e => (Err e, db)
  | Ok (_, Some validated) => (Ok validated, db)
  | Ok (id, None) =>
      match run_tx (quarantine_lease rt id) db with
      | (Ok _, db') => (Err (conflict "sterile-cell lease is no longer live"), db')
      | (Err e, db') => (Err e, db')
      end
  end.

Definition validate_sterile_cell_lease (rt : Runtime) (settings : CellSettings) (ctx : TenantContext)
    (lease_id : Uuid) (f : LeaseFence) (db : Db World) : result SterileCellLeaseV1 ApiError * Db World :=
  match require_enabled settings with
  | Err e => (Err e, db)
  | Ok _ =>
      let '(validated, db') := validate_live_lease_fence rt ctx lease_id f db in
      (let? v := validated in Ok v.1, db')
  end.

(** The transaction of both release handlers. *)
Definition run_pool_stop (m : Tx World PoolStop) (db : Db World) : result unit ApiError * Db World :=
  match m db with
  | Ok (StopQueued, db') => (Ok tt, db')
  | Ok (NotPoolMember, _) => (Err (not_found "resource not found"), db)
  | Ok (StopRefused e, db') => (Err e, db')
  | Err e => (Err e, db)
  end.

Definition release_sterile_cell_lease (rt : Runtime) (settings : CellSettings) (ctx : TenantContext)
    (lease_id : Uuid) (f : LeaseFence) (disposition : SterileCellDisposition) (db : Db World) :
    result SterileCellLeaseStatusV1 ApiError * Db World :=
  match require_enabled settings with
  | Err e => (Err e, db)
  | Ok _ =>
      match validate_live_lease_fence rt ctx lease_id f db with
      | (Err e, db') => (Err e, db')
      | (Ok (lease, worker), db') =>
          let '(r, db'') := run_pool_stop (enqueue_pool_stop_on_connection rt worker (cl_cell_id lease)
                              lease_id (lf_generation f) disposition) db' in
          (let? _ := r in Ok (mkLeaseStatus lease_id (cl_cell_id lease) (lf_generation f)
                                SterileCellState.Leased None false false), db'')
      end
  end.

Definition release_sterile_pool_cell (rt : Runtime) (settings : CellSettings) (ctx : TenantContext)
    (worker_id id : Uuid) (q : DestroySterileCellRequestV1) (db : Db World) :
    result SterileCellV1 ApiError * Db World :=
  let checks :=
    let? _ := require_enabled settings in
    let? _ := ensure_worker_scope ctx worker_id in
    let? _ := ensure_worker_tenant db worker_id ctx in
    let? current := fetch_worker_cell db worker_id id (ctx_tenant_id ctx) in
    if bool_decide (sc_state current = SterileCellState.Leased) then Ok current
    else Err (conflict "only a live leased pool cell can be released") in
  match checks with
  | Err e => (Err e, db)
  | Ok current =>
      let '(r, db') := run_pool_stop (enqueue_pool_stop_on_connection rt worker_id id (dr_lease_id q)
                         (dr_generation q) (dr_disposition q)) db in
      (let? _ := r in Ok current, db')
  end.

Definition is_destroyable (worker : Uuid) (q : DestroySterileCellRequestV1) (g : Z)
    (c : SterileCellRow) : bool :=
  bool_decide (cell_worker_id c = worker) && cell_is SterileCellState.Leased c
  && (cell_generation c =? g)%Z && bool_decide (cell_lease_id c = Some (dr_lease_id q)).

Definition destroy_update (rt : Runtime) (worker id : Uuid) (q : DestroySterileCellRequestV1) (g : Z) :
    Tx World bool :=
  update_cell id (is_destroyable worker q g)
    (cell_set_terminal (state_of_disposition (dr_disposition q)) (dr_disposition q) (utc_now rt)).

(** A quarantine and the conflict that reports it. *)
Definition quarantine_and_refuse (rt : Runtime) (id : Uuid) (message : string) (db : Db World) :
    result SterileCellV1 ApiError * Db World :=
  match run_tx (quarantine_lease rt id) db with
  | (Ok _, db') => (Err (conflict message), db')
  | (Err e, db') => (Err e, db')
  end.

Definition destroy_checks (settings : CellSettings) (ctx : TenantContext) (worker_id id : Uuid)
    (db : Db World) : result (SterileCellV1 * option Uuid) ApiError :=
  let? _ := require_enabled settings in
  let? _ := ensure_worker_scope ctx worker_id in
  let? _ := ensure_worker_tenant db worker_id ctx in
  match sterile_cells db !! id with
  | None => Err (not_found "resource not found")
  | Some c =>
      if negb (bool_decide (cell_worker_id c = worker_id)) then Err (not_found "resource not found")
      else
        let? current := cell_from_row id c in
        if is_some (sterile_pool_memberships (world db) !! id)
        then Err (conflict "pool-created cells must be released before provider-confirmed destruction")
        else Ok (current, cell_lease_id c)
  end.

Definition destroy_sterile_cell (rt : Runtime) (settings : CellSettings) (ctx : TenantContext)
    (worker_id id : Uuid) (q : DestroySterileCellRequestV1) (db : Db World) :
    result SterileCellV1 ApiError * Db World :=
  match destroy_checks settings ctx worker_id id db with
  | Err e => (Err e, db)
  | Ok (current, lease) =>
      let same_fence := (sc_generation current =? dr_generation q)%Z
                        && bool_decide (lease = Some (dr_lease_id q)) in
      if bool_decide (sc_state current = SterileCellState.Destroyed)
         || bool_decide (sc_state current = SterileCellState.Quarantined)
      then
        if same_fence && bool_decide (sc_disposition current = Some (dr_disposition q))
        then (Ok current, db)
        else (Err (conflict "sterile-cell cleanup fence does not match the terminal cell"), db)
      else if negb (bool_decide (sc_state current = SterileCellState.Leased)) || negb same_fence
      then quarantine_and_refuse rt id "sterile-cell cleanup fence is ambiguous; cell was quarantined" db
      else
        match i64_generation (dr_generation q) with
        | Err e => (Err e, db)
        | Ok g =>
            match run_tx (destroy_update rt worker_id id q g) db with
            | (Err e, db') => (Err e, db')
            | (Ok true, db') => (fetch_cell db' id, db')
            | (Ok false, db') =>
                quarantine_and_refuse rt id "sterile-cell cleanup fence changed; cell was quarantined" db'
            end
        end
  end.

(** ** The sweep *)

(** [quarantine_expired_state]: the cells outside the pool. *)
Definition expired_outside_pool (w : World) (state : SterileCellState)
    (expiry : SterileCellRow -> option Z) (now : Z) (id : Uuid) (c : SterileCellRow) : bool :=
  cell_is state c && match expiry c with Some t => (t <=? now)%Z | None => false end
  && is_none (sterile_pool_memberships w !! id).

Definition quarantine_expired_state (state : SterileCellState) (expiry : SterileCellRow -> option Z)
    (now : Z) : Tx World Z :=
  let! db := tx_get in
  let guard := expired_outside_pool (world db) state expiry now in
  let! _ := tx_modify (set_sterile_cells
              (update_rows guard (cell_set_quarantined now) (sterile_cells db))) in
  tx_ret (count_cells guard db).

Definition quarantine_expired_sterile_cells (now : Z) : Tx World Z :=
  let! ready := quarantine_expired_state SterileCellState.Ready (fun c => Some (cell_expires_at c)) now in
  let! cell := quarantine_expired_state SterileCellState.Leased (fun c => Some (cell_expires_at c)) now in
  let! lease := quarantine_expired_state SterileCellState.Leased cell_lease_expires_at now in
  tx_ret (ready + cell + lease)%Z.

(** ** Reads *)

(** The claim a cell was leased under ([cell_id] is unique in the table). *)
Definition claim_of_cell (id : Uuid) (w : World) : option (string * Uuid) :=
  fst <$> find (fun kr => bool_decide (cc_cell_id kr.2 = Some id)) (map_to_list (sterile_cell_claims w)).

Definition claim_locator (claim_id : Uuid) (c : SterileCellRow) :
    result SterileCellClaimLocatorV1 ApiError :=
  match cell_lease_id c, cell_lease_expires_at c with
  | Some lease_id, Some expires_at =>
      let? generation := u64_generation "invalid sterile-cell generation" (cell_generation c) in
      Ok (mkClaimLocator claim_id lease_id generation expires_at)
  | _, _ => Err (internal "sterile-cell claim locator is incomplete")
  end.

Definition get_worker_sterile_cell (settings : CellSettings) (ctx : TenantContext) (worker_id id : Uuid)
    (db : Db World) : result (SterileCellV1 * option SterileCellClaimLocatorV1) ApiError :=
  let? _ := require_enabled settings in
  let? _ := ensure_worker_scope ctx worker_id in
  let? _ := ensure_worker_tenant db worker_id ctx in
  match sterile_cells db !! id with
  | None => Err (not_found "resource not found")
  | Some c =>
      if negb (cell_of_worker worker_id (ctx_tenant_id ctx) c) then Err (not_found "resource not found")
      else
        let? claim := match claim_of_cell id (world db) with
                      | Some (_, claim_id) => let? locator := claim_locator claim_id c in Ok (Some locator)
                      | None => Ok None
                      end in
        let? cell := cell_from_row id c in
        Ok (cell, claim)
  end.

Definition get_sterile_cell_lease_status (settings : CellSettings) (ctx : TenantContext) (lease_id : Uuid)
    (db : Db World) : result SterileCellLeaseStatusV1 ApiError :=
  let? _ := require_enabled settings in
  match find_lease (ctx_tenant_id ctx) lease_id db with
  | None => Err (not_found "resource not found")
  | Some (id, c) =>
      match sterile_pool_memberships (world db) !! id with
      | Some m =>
          if bool_decide (mb_lease_id m = Some lease_id) then
            let? generation := u64_generation "invalid sterile-cell generation" (cell_generation c) in
            Ok (mkLeaseStatus lease_id id generation (cell_state c) (cell_disposition c)
                  (mb_provider_absent m) (member_is MemberCleanupPending m))
          else Err (not_found "resource not found")
      | None => Err (not_found "resource not found")
      end
  end.
End Cells.
