(* ===== verification/Effects.v ===== *)
(** * What job outcomes do

    The five side-effect functions the lease transactions call, for every
    job kind: what claiming, completing, retrying, failing and cancelling a
    job does to sandboxes, commands, snapshots, files, residents, homes and
    the sterile pool.  They are the [JobEffects] instance of the control
    plane, and the interface the scheduler relies on is discharged for them.

    Sources: [handlers/leases.rs] ([apply_*_job_on_connection]),
    [handlers/operations.rs], [handlers/jobs.rs], [handlers/files.rs],
    [handlers/homes.rs]. *)

From S2P Require Import Prelude CoreTypes Json Store Leases SandboxLifecycle LifecycleContract.
From S2P Require Import World CommandOutput RuntimeResources Snapshots SterilePool.

(** ** Helpers *)

Section Effects.
Context `{UuidLib} `{SerdeLib}.

Definition json_int (z : Z) : Json := JNumber (if (0 <=? z)%Z then PosInt z else NegInt z).
Definition json_opt_int (o : option Z) : Json := match o with Some z => json_int z | None => JNull end.
Definition json_state (s : SandboxState) : Json := JString (as_db_str s).

Definition home_id_from_job (job : Job) : result Uuid ApiError :=
  match get_str (job_payload job) "homeId" with
  | None => Err (internal "home job is missing homeId")
  | Some value =>
      match uuid_parse_str value with
      | Some u => Ok u
      | None => Err (internal "home job has invalid homeId")
      end
  end.

(** A lowercase hexadecimal digit: [is_ascii_hexdigit && !is_ascii_uppercase]. *)
Definition is_lower_hex (a : Ascii.ascii) : bool :=
  let n := Ascii.N_of_ascii a in is_ascii_digit n || ((97 <=? n) && (n <=? 102))%N.

Definition materialization_digest_from_job (job : Job) : result string ApiError :=
  match get_str (job_payload job) "expectedSha256" with
  | None => Err (bad_request "materialization expectedSha256 is required")
  | Some value =>
      if negb (String.length value =? 64)%nat || negb (all_bytes is_lower_hex value)
      then Err (bad_request "materialization expectedSha256 is invalid")
      else Ok value
  end.

Definition materialization_destination_from_job (job : Job) :
    result MaterializeFileDestination ApiError :=
  match get (job_payload job) "destination" with
  | None => Err (bad_request "materialization destination is required")
  | Some v =>
      match destination_from_value v with
      | Some d => Ok d
      | None => Err (bad_request "materialization destination is invalid")
      end
  end.

(** *** Residents *)

Definition update_residents (guard : Uuid -> ResidentRow -> bool) (f : ResidentRow -> ResidentRow) :
    Tx World unit :=
  tx_modify (fun db => set_resident_processes (update_rows guard f (resident_processes db)) db).

Definition resident_set_exited (observed : ResidentProcessObservedState) (exit_code : option Z)
    (now : Z) (r : ResidentRow) : ResidentRow :=
  mkResidentRow (rp_sandbox_id r) (rp_tenant_id r) (rp_name r) (rp_generation r)
    (rp_desired_state r) observed None (rp_pid r) (Some now) exit_code None None None
    (rp_provider_pod_name r) (rp_provider_pod_uid r) now (rp_bootstrap_sha256 r)
    (rp_bootstrap_delivered_generation r) (rp_bootstrap_delivered_lease_id r)
    (rp_bootstrap_delivered_sha256 r) (rp_bootstrap_acknowledged_at r) (rp_sterile_cell_id r)
    (rp_sterile_lease_id r) (rp_sterile_lease_generation r)
    (rp_provider_isolation_version r) (rp_spec r) (rp_bootstrap_consumed_at r) (rp_started_at r)
    (rp_ready_at r) (rp_created_at r).

Definition resident_set_error (error : string) (now : Z) (r : ResidentRow) : ResidentRow :=
  let fields := provider_error_fields error in
  mkResidentRow (rp_sandbox_id r) (rp_tenant_id r) (rp_name r) (rp_generation r)
    (rp_desired_state r) (rp_observed_state r) (rp_active_lease_id r) (rp_pid r) (rp_exited_at r)
    (rp_exit_code r) fields.1 fields.2 (Some error)
    (rp_provider_pod_name r) (rp_provider_pod_uid r) now (rp_bootstrap_sha256 r)
    (rp_bootstrap_delivered_generation r) (rp_bootstrap_delivered_lease_id r)
    (rp_bootstrap_delivered_sha256 r) (rp_bootstrap_acknowledged_at r) (rp_sterile_cell_id r)
    (rp_sterile_lease_id r) (rp_sterile_lease_generation r)
    (rp_provider_isolation_version r) (rp_spec r) (rp_bootstrap_consumed_at r) (rp_started_at r)
    (rp_ready_at r) (rp_created_at r).

Definition resident_set_failed (error : string) (now : Z) (r : ResidentRow) : ResidentRow :=
  let fields := provider_error_fields error in
  mkResidentRow (rp_sandbox_id r) (rp_tenant_id r) (rp_name r) (rp_generation r)
    (rp_desired_state r) ResidentProcessObservedState.Failed None None (rp_exited_at r)
    None fields.1 fields.2 (Some error)
    (rp_provider_pod_name r) (rp_provider_pod_uid r) now (rp_bootstrap_sha256 r)
    (rp_bootstrap_delivered_generation r) (rp_bootstrap_delivered_lease_id r)
    (rp_bootstrap_delivered_sha256 r) (rp_bootstrap_acknowledged_at r) (rp_sterile_cell_id r)
    (rp_sterile_lease_id r) (rp_sterile_lease_generation r)
    (rp_provider_isolation_version r) (rp_spec r) (rp_bootstrap_consumed_at r) (rp_started_at r)
    (rp_ready_at r) (rp_created_at r).

Definition job_generation (job : Job) : result Z ApiError :=
  match get_u64 (job_payload job) "generation" with
  | Some g => Ok g
  | None => Err missing_generation
  end.

Definition resident_generation_i64 (generation : Z) : result Z ApiError :=
  i64_or (internal "resident process generation exceeds database range") generation.

(** *** Files and homes *)

Definition file_of (w : World) (sandbox_id file_id : Uuid) : option SandboxFile :=
  f ← sandbox_files w !! file_id;
  if bool_decide (file_sandbox_id f = sandbox_id) then Some f else None.

Definition fetch_sandbox_file_metadata (w : World) (sandbox_id file_id : Uuid) :
    result SandboxFile ApiError :=
  match file_of w sandbox_id file_id with
  | Some f => Ok f
  | None => Err (not_found "file not found")
  end.

Definition delete_sandbox_file_on_connection (sandbox_id file_id : Uuid) : Tx World unit :=
  let! w := get_world in
  check! is_some (file_of w sandbox_id file_id) else not_found "sandbox file not found" in
  modify_world (set_sandbox_files (delete file_id (sandbox_files w))).

Definition delete_sandbox_file_if_present_on_connection (sandbox_id file_id : Uuid) : Tx World unit :=
  let! w := get_world in
  if is_some (file_of w sandbox_id file_id)
  then modify_world (set_sandbox_files (delete file_id (sandbox_files w)))
  else tx_ret tt.

Definition home_set_delete_failed (error : string) (now : Z) (h : HomeRow) : HomeRow :=
  mkHomeRow (home_tenant_id h) HomeState.DeleteFailed (home_created_at h) now (Some error).

Definition mark_home_delete_failed_on_connection (rt : Runtime) (home_id : Uuid) (error : string) :
    Tx World unit :=
  modify_world (fun w => set_homes
    (update_row home_id (fun h => bool_decide (home_state h = HomeState.Deleting))
       (home_set_delete_failed error (utc_now rt)) (homes w)).2 w).

(** [delete from homes where .. and state = 'deleting'], restricted by the
    foreign key of [sandbox_home_mounts]. *)
Definition delete_home (home_id : Uuid) (tenant_id : string) : Tx World unit :=
  let! w := get_world in
  check! match homes w !! home_id with
         | Some h => String.eqb (home_tenant_id h) tenant_id
                     && bool_decide (home_state h = HomeState.Deleting)
         | None => false
         end
    else conflict_code "home_delete_conflict" "managed home changed before deletion completed" in
  check! negb (existsb (fun km => bool_decide (km.2 = home_id)) (map_to_list (sandbox_home_mounts w)))
    else foreign_key_error in
  modify_world (set_homes (delete home_id (homes w))).

(** *** Teardown of a late provision *)

Definition ARCHIVED_RUNTIME_CLEANUP_MARKER : string := "archivedRuntimeCleanup".

(** [add_provision_spec_to_payload]. *)
Definition sandbox_provision_spec (s : Sandbox) (mounts : list SandboxSecretMount) :
    SandboxProvisionSpec :=
  mkSandboxProvisionSpec (sb_memory_limit s) (sb_network_egress s) (sb_workspace_mode s)
    (sb_runtime_profile s) (sb_execution_class s) ProviderPreference.Any (Some (sb_tenant_id s))
    None None mounts None.

Definition add_provision_spec_to_payload (s : Sandbox) (mounts : list SandboxSecretMount)
    (payload : Json) : result Json ApiError :=
  match as_object payload with
  | None => Err (bad_request "job payload must be an object")
  | Some es =>
      Ok (JObject (object_insert "provisionSpec"
                     (provision_spec_to_value (sandbox_provision_spec s mounts))
                     (object_insert "runtimeImage" (JString (sb_template s)) es)))
  end.

(** [insert_job_on_connection_if_absent]. *)
Definition insert_job_on_connection_if_absent (job : Job) : Tx World bool :=
  let! references := tx_lift (job_references job) in
  let! db := tx_get in
  let row := mkJobRow job references None None in
  if is_some (jobs db !! job_id job) || violates_stop_index row (jobs db) then tx_ret false
  else
    let! _ := tx_modify (set_jobs (<[job_id job := row]> (jobs db))) in
    tx_ret true.

Definition cleanup_payload (w : World) (s : Sandbox) (source : Json) (reason : string) :
    result Json ApiError :=
  let base := [("sandboxId", json_uuid (sb_id s)); ("deleteGkeFqdnPolicy", JBool true);
               (ARCHIVED_RUNTIME_CLEANUP_MARKER, JBool true); ("cleanupReason", JString reason)] in
  match get source "provisionSpec" with
  | Some (JObject spec) =>
      let with_spec := object_insert "provisionSpec" (JObject spec) base in
      Ok (JObject (match get source "runtimeImage" with
                   | Some image => object_insert "runtimeImage" image with_spec
                   | None => with_spec
                   end))
  | _ => add_provision_spec_to_payload s (fetch_sandbox_secret_mounts w (sb_id s)) (JObject base)
  end.

(** [enqueue_archived_runtime_cleanup_on_connection]. *)
Definition enqueue_archived_runtime_cleanup_on_connection (rt : Runtime) (n : nat) (s : Sandbox)
    (source : Json) (reason : string) : Tx World bool :=
  let! db := tx_get in
  if existsb (fun kr => is_active_stop (sb_id s) kr.2) (map_to_list (jobs db)) then tx_ret false
  else
    let! payload := tx_lift (cleanup_payload (world db) s source reason) in
    let now := utc_now rt in
    insert_job_on_connection_if_absent
      (mkJob (new_uuid rt n) (sb_tenant_id s) JobKind.StopSandbox JobStatus.Queued payload
         WorkerCapability.ProvisionSandbox (sb_execution_class s) 1000 0 5 now now now None).

(** [validate_completed_runtime_resources]. *)
Definition validate_completed_runtime_resources (resources : list ProviderRuntimeResource)
    (sandbox_id : Uuid) (snapshot_id allowed_source : option Uuid) : result unit ApiError :=
  if existsb (fun r => negb (bool_decide (prr_sandbox_id r = sandbox_id))
                       || negb (bool_decide (prr_snapshot_id r = snapshot_id))
                       || match prr_source_snapshot_id r with
                          | Some s => negb (bool_decide (Some s = allowed_source))
                          | None => false
                          end) resources
  then Err (bad_request "runtime resource completion does not match job")
  else Ok tt.

(** [matches!(state, Archiving | Archived)]. *)
Definition is_archived_state (s : SandboxState) : bool :=
  match s with SandboxState.Archiving | SandboxState.Archived => true | _ => false end.

(** ** Completion: [apply_completed_job_on_connection], one arm per kind *)

Definition complete_resident (rt : Runtime) (job : Job) (process_id : Uuid) (generation : Z)
    (exit_code : option Z) : Tx World unit :=
  let! expected := tx_lift (resident_process_id_from_job job) in
  check! bool_decide (process_id = expected)
         && bool_decide (as_u64 (index (job_payload job) "generation") = Some generation)
    else bad_request "resident process completion does not match job" in
  let observed := if bool_decide (exit_code = Some 0%Z)
                  then ResidentProcessObservedState.Stopped
                  else ResidentProcessObservedState.Failed in
  let! db := tx_get in
  let '(affected, m) :=
    update_row process_id (fun r => bool_decide (rp_generation r = u64_as_i64 generation))
      (resident_set_exited observed exit_code (utc_now rt)) (resident_processes db) in
  check! affected
    else conflict_code "resident_process_generation_conflict"
           "resident process changed before completion" in
  tx_modify (set_resident_processes m).

Definition complete_command (rt : Runtime) (job : Job) (res : AgentCommandResult) : Tx World unit :=
  let! command_id := tx_lift (command_id_from_job job) in
  let! sandbox_id := tx_lift (sandbox_id_from_job job) in
  let exit_code := result_exit_code res in
  let status := if bool_decide (exit_code = Some 0%Z)
                then CommandStatus.Finished else CommandStatus.Failed in
  let! _ := append_completion_output_on_connection rt 0 command_id sandbox_id
              CommandOutputStream.Stdout (result_stdout res) in
  let! _ := append_completion_output_on_connection rt 2 command_id sandbox_id
              CommandOutputStream.Stderr (result_stderr res) in
  let! _ := finish_command_from_lease_result_on_connection rt command_id status exit_code in
  insert_event_on_connection rt 4 sandbox_id SandboxEventKind.CommandFinished
    (JObject [("commandId", json_uuid command_id); ("exitCode", json_opt_int exit_code);
              ("stdout", JString (result_stdout res)); ("stderr", JString (result_stderr res))]).

Definition materialization_mismatch : ApiError :=
  bad_request "materialization completion does not match job".

Definition complete_materialization (rt : Runtime) (job : Job) (receipt : MaterializeFileReceipt) :
    Tx World unit :=
  let! sandbox_id := tx_lift (sandbox_id_from_job job) in
  let! file_id := tx_lift (file_id_from_job job) in
  let! w := get_world in
  let! stored := tx_lift (fetch_sandbox_file_metadata w sandbox_id file_id) in
  check! bool_decide (receipt_sandbox_id receipt = sandbox_id)
         && bool_decide (receipt_file_id receipt = file_id) else materialization_mismatch in
  let! destination := tx_lift (materialization_destination_from_job job) in
  check! bool_decide (receipt_destination receipt = destination) else materialization_mismatch in
  let! digest := tx_lift (materialization_digest_from_job job) in
  check! String.eqb (receipt_sha256 receipt) digest
         && String.eqb (receipt_destination_sha256 receipt) digest
         && bool_decide (receipt_size_bytes receipt = file_size_bytes stored)
    else materialization_mismatch in
  let! _ := delete_sandbox_file_on_connection sandbox_id file_id in
  insert_event_on_connection rt 0 sandbox_id SandboxEventKind.FileMaterialized
    (JObject [("materialized", JBool true); ("fileId", json_uuid file_id);
              ("destination", destination_to_value (receipt_destination receipt));
              ("sha256", JString (receipt_sha256 receipt));
              ("destinationSha256", JString (receipt_destination_sha256 receipt));
              ("sizeBytes", json_int (receipt_size_bytes receipt));
              ("cleanupOwner", JString "control_plane")]).

Definition complete_instructions (job : Job) (request_id sandbox_id lease_id : Uuid)
    (lease_attempt : Z) (provider_apply_id : Uuid) (sha256 : string) (byte_count : Z)
    (output_unavailable : bool) : Tx World unit :=
  let! expected := tx_lift (sandbox_id_from_job job) in
  check! bool_decide (sandbox_id = expected)
         && bool_decide (get_str (job_payload job) "requestId" = Some (uuid_to_string request_id))
         && bool_decide (get_str (job_payload job) "providerApplyId" =
                         Some (uuid_to_string provider_apply_id))
         && bool_decide (get_str (job_payload job) "expectedSha256" = Some sha256)
         && bool_decide (get_u64 (job_payload job) "expectedByteCount" = Some byte_count)
    else bad_request "instruction completion does not match job lineage" in
  let! w := get_world in
  match find (fun kr => bool_decide (ir_request_id kr.2 = request_id))
          (map_to_list (apex_instruction_reads w)) with
  | None => tx_throw (bad_request "instruction read authority is missing")
  | Some (_, row) =>
      check! bool_decide (ir_lease_id row = Some lease_id)
             && bool_decide (ir_lease_attempt row = lease_attempt)
             && bool_decide (ir_provider_apply_id row = provider_apply_id)
             && bool_decide (ir_observed_sha256 row = Some sha256)
             && bool_decide (ir_observed_byte_count row = Some byte_count)
             && eqb (bool_decide (ir_state row = ReadUnavailable)) output_unavailable
             && (bool_decide (ir_state row = ReadCompleted)
                 || bool_decide (ir_state row = ReadUnavailable))
        else bad_request "instruction completion does not match callback authority" in
      tx_ret tt
  end.

Definition complete_snapshot (rt : Runtime) (job : Job) (handle : ProviderSnapshotHandle) :
    Tx World unit :=
  let! snapshot_id := tx_lift (snapshot_id_from_job job) in
  check! bool_decide (snapshot_handle_snapshot_id handle = snapshot_id)
    else bad_request "snapshot completion result does not match job snapshot" in
  let! sandbox_id := tx_lift (sandbox_id_from_job job) in
  let! _ := tx_lift (validate_completed_runtime_resources (snapshot_handle_resources handle)
                       sandbox_id (Some snapshot_id) None) in
  mark_snapshot_ready_from_provider_handle_on_connection rt 0 sandbox_id (job_tenant_id job) handle.

Definition complete_prompt (rt : Runtime) (job : Job) (output : string) : Tx World unit :=
  let! sandbox_id := tx_lift (sandbox_id_from_job job) in
  let! prompt_event_id := tx_lift (prompt_event_id_from_job job) in
  insert_event_on_connection rt 0 sandbox_id SandboxEventKind.PromptFinished
    (JObject [("promptEventId", json_uuid prompt_event_id); ("output", JString output)]).

Definition complete_fork (rt : Runtime) (job : Job) (handle : ProviderForkHandle) : Tx World unit :=
  let! parent_id := tx_lift (parent_sandbox_id_from_job job) in
  let! child_id := tx_lift (child_sandbox_id_from_job job) in
  let! snapshot_id := tx_lift (snapshot_id_from_job job) in
  check! bool_decide (fork_handle_parent_sandbox_id handle = parent_id)
         && bool_decide (fork_handle_child_sandbox_id handle = child_id)
         && bool_decide (fork_handle_snapshot_id handle = snapshot_id)
    else bad_request "fork completion result does not match job payload" in
  let! _ := tx_lift (validate_completed_runtime_resources (fork_handle_resources handle) child_id
                       None (Some snapshot_id)) in
  let! _ := upsert_provider_runtime_resources_on_connection rt 1 (fork_handle_resources handle)
              (job_tenant_id job) in
  let! _ := set_sandbox_state_on_connection rt 0 child_id FORK_COMPLETED_LEGAL_FROM
              SandboxState.Ready
              (JObject [("state", json_state SandboxState.Ready); ("reason", JString "fork_ready");
                        ("parentSnapshotId", json_uuid snapshot_id)]) in
  tx_ret tt.

(** The provider has created resources but the swap lost to a stop: their
    teardown is queued in the same transaction. *)
Definition reclaim_late_provision (rt : Runtime) (job : Job) (sandbox_id : Uuid) : Tx World unit :=
  let! w := get_world in
  match fetch_sandbox w sandbox_id with
  | Ok current =>
      if is_archived_state (sb_state current) then
        let! _ := enqueue_archived_runtime_cleanup_on_connection rt 1 current (job_payload job)
                    "late_provision_completion" in
        tx_ret tt
      else tx_ret tt
  | Err _ => tx_ret tt
  end.

Definition complete_provision (rt : Runtime) (job : Job) (handle : ProviderSandboxHandle) :
    Tx World unit :=
  let! sandbox_id := tx_lift (sandbox_id_from_job job) in
  check! bool_decide (sandbox_handle_sandbox_id handle = sandbox_id)
    else bad_request "provision completion result does not match job sandbox" in
  let! _ := tx_lift (validate_completed_runtime_resources (sandbox_handle_resources handle)
                       sandbox_id None None) in
  let! _ := upsert_provider_runtime_resources_on_connection rt 1 (sandbox_handle_resources handle)
              (job_tenant_id job) in
  let! transitioned :=
    set_sandbox_state_on_connection rt 0 sandbox_id PROVISION_COMPLETED_LEGAL_FROM
      SandboxState.Ready
      (JObject [("state", json_state SandboxState.Ready); ("reason", JString "provision_ready");
                ("provider", JString (sandbox_handle_provider handle))]) in
  if transitioned then admit_provisioned_cell_on_connection rt job
  else if match sandbox_handle_resources handle with [] => true | _ => false end then tx_ret tt
  else reclaim_late_provision rt job sandbox_id.

Definition complete_stop (rt : Runtime) (job : Job) (sandbox_id : Uuid)
    (custody_receipt : option Json) : Tx World unit :=
  let! expected := tx_lift (sandbox_id_from_job job) in
  check! bool_decide (sandbox_id = expected)
    else bad_request "stop completion result does not match job sandbox" in
  let! transitioned :=
    set_sandbox_state_on_connection rt 0 sandbox_id STOP_COMPLETED_LEGAL_FROM
      SandboxState.Archived
      (JObject [("state", json_state SandboxState.Archived); ("reason", JString "stop_completed");
                ("custodyReceipt", default JNull custody_receipt)]) in
  let! w := get_world in
  let retire :=
    transitioned
    || match fetch_sandbox w sandbox_id with
       | Ok current => is_archived_state (sb_state current)
       | Err _ => false
       end in
  let! _ :=
    if retire then
      mark_runtime_resources_deleted_for_sandbox_on_connection sandbox_id RuntimeOnly (utc_now rt)
        "provider-confirmed sandbox stop"
    else tx_ret tt in
  let! _ := complete_pool_stop_on_connection rt job in
  modify_world (fun w => set_sandbox_home_mounts (delete sandbox_id (sandbox_home_mounts w)) w).

Definition complete_resume (rt : Runtime) (job : Job) (handle : ProviderResumeHandle) :
    Tx World unit :=
  let! sandbox_id := tx_lift (sandbox_id_from_job job) in
  let! snapshot_id := tx_lift (snapshot_id_from_job job) in
  check! bool_decide (resume_handle_sandbox_id handle = sandbox_id)
         && bool_decide (resume_handle_snapshot_id handle = snapshot_id)
    else bad_request "resume completion result does not match job payload" in
  let! _ := tx_lift (validate_completed_runtime_resources (resume_handle_resources handle)
                       sandbox_id None (Some snapshot_id)) in
  let! _ := mark_runtime_resources_deleted_for_sandbox_on_connection sandbox_id RuntimeOnly
              (utc_now rt) "superseded by snapshot-backed resume" in
  let! _ := upsert_provider_runtime_resources_on_connection rt 1 (resume_handle_resources handle)
              (job_tenant_id job) in
  let! _ := set_sandbox_state_on_connection rt 0 sandbox_id RESUME_COMPLETED_LEGAL_FROM
              SandboxState.Ready
              (JObject [("state", json_state SandboxState.Ready); ("reason", JString "resume_ready");
                        ("restoredFromSnapshotId", json_uuid snapshot_id);
                        ("provider", JString (resume_handle_provider handle))]) in
  tx_ret tt.

Definition complete_home_deletion (job : Job) (home_id : Uuid) : Tx World unit :=
  let! expected := tx_lift (home_id_from_job job) in
  check! bool_decide (home_id = expected)
    else bad_request "delete-home completion result does not match job home" in
  delete_home home_id (job_tenant_id job).

Definition apply_completed (rt : Runtime) (job : Job) (res : WorkerJobResult) : Tx World unit :=
  match job_kind job, res with
  | JobKind.RunResidentProcess, ResultRunResidentProcess p g e => complete_resident rt job p g e
  | JobKind.RunCommand, ResultRunCommand r => complete_command rt job r
  | JobKind.MaterializeFile, ResultMaterializeFile r => complete_materialization rt job r
  | JobKind.ApexTaskInstructions, ResultApexTaskInstructions a b c d e f g h =>
      complete_instructions job a b c d e f g h
  | JobKind.CreateSnapshot, ResultCreateSnapshot h => complete_snapshot rt job h
  | JobKind.RunPrompt, ResultRunPrompt o => complete_prompt rt job o
  | JobKind.ForkSandbox, ResultForkSandbox h => complete_fork rt job h
  | JobKind.ProvisionSandbox, ResultProvisionSandbox h => complete_provision rt job h
  | JobKind.StopSandbox, ResultStopSandbox _ s r => complete_stop rt job s r
  | JobKind.ResumeSandbox, ResultResumeSandbox h => complete_resume rt job h
  | JobKind.DeleteHome, ResultDeleteHome _ h => complete_home_deletion job h
  | _, _ => tx_throw (bad_request "completion result kind does not match job kind")
  end.

(** ** Claim: [apply_claimed_job_on_connection] *)

Definition apply_claimed (rt : Runtime) (job : Job) : Tx World unit :=
  match job_kind job with
  | JobKind.RunCommand =>
      let! command_id := tx_lift (command_id_from_job job) in
      let! sandbox_id := tx_lift (sandbox_id_from_job job) in
      let! _ := modify_world (update_command command_id (command_set_status CommandStatus.Running)) in
      insert_event_on_connection rt 1 sandbox_id SandboxEventKind.CommandStarted
        (JObject [("commandId", json_uuid command_id)])
  | JobKind.CreateSnapshot =>
      let! snapshot_id := tx_lift (snapshot_id_from_job job) in
      update_snapshot_status_on_connection snapshot_id SnapshotStatus.Pending None
  | JobKind.RunPrompt =>
      let! sandbox_id := tx_lift (sandbox_id_from_job job) in
      let! prompt_event_id := tx_lift (prompt_event_id_from_job job) in
      insert_event_on_connection rt 1 sandbox_id SandboxEventKind.PromptStarted
        (JObject [("promptEventId", json_uuid prompt_event_id)])
  | JobKind.ForkSandbox =>
      let! child_id := tx_lift (child_sandbox_id_from_job job) in
      let! snapshot_id := tx_lift (snapshot_id_from_job job) in
      let! _ := set_sandbox_state_on_connection rt 1 child_id FORK_CLAIMED_LEGAL_FROM
                  SandboxState.Provisioning
                  (JObject [("state", json_state SandboxState.Provisioning);
                            ("reason", JString "fork_provisioning");
                            ("parentSnapshotId", json_uuid snapshot_id)]) in
      tx_ret tt
  | JobKind.ProvisionSandbox | JobKind.StopSandbox | JobKind.ResumeSandbox
  | JobKind.RunResidentProcess | JobKind.MaterializeFile | JobKind.ApexTaskInstructions
  | JobKind.DeleteHome => tx_ret tt
  end.

(** ** Retry: [apply_retryable_job_on_connection] *)

Definition apply_retryable (rt : Runtime) (job : Job) (error : string) : Tx World unit :=
  match job_kind job with
  | JobKind.RunCommand =>
      let! command_id := tx_lift (command_id_from_job job) in
      let! sandbox_id := tx_lift (sandbox_id_from_job job) in
      let! _ := reset_command_for_retry_on_connection command_id in
      insert_event_on_connection rt 0 sandbox_id SandboxEventKind.CommandQueued
        (JObject [("commandId", json_uuid command_id); ("reason", JString "retry");
                  ("error", JString error)])
  | JobKind.CreateSnapshot =>
      let! snapshot_id := tx_lift (snapshot_id_from_job job) in
      update_snapshot_status_on_connection snapshot_id SnapshotStatus.Pending (Some error)
  | JobKind.RunPrompt =>
      let! sandbox_id := tx_lift (sandbox_id_from_job job) in
      let! prompt_event_id := tx_lift (prompt_event_id_from_job job) in
      insert_event_on_connection rt 0 sandbox_id SandboxEventKind.PromptQueued
        (JObject [("promptEventId", json_uuid prompt_event_id); ("reason", JString "retry");
                  ("error", JString error)])
  | JobKind.ForkSandbox =>
      let! child_id := tx_lift (child_sandbox_id_from_job job) in
      let! snapshot_id := tx_lift (snapshot_id_from_job job) in
      let! _ := set_sandbox_state_on_connection rt 0 child_id FORK_RETRIED_LEGAL_FROM
                  SandboxState.Planning
                  (JObject [("state", json_state SandboxState.Planning);
                            ("reason", JString "fork_retry");
                            ("parentSnapshotId", json_uuid snapshot_id);
                            ("error", JString error)]) in
      tx_ret tt
  | JobKind.ResumeSandbox =>
      let! sandbox_id := tx_lift (sandbox_id_from_job job) in
      let! snapshot_id := tx_lift (snapshot_id_from_job job) in
      insert_event_on_connection rt 0 sandbox_id SandboxEventKind.LifecycleChanged
        (JObject [("state", json_state SandboxState.Provisioning);
                  ("reason", JString "resume_retry");
                  ("restoredFromSnapshotId", json_uuid snapshot_id); ("error", JString error)])
  | JobKind.RunResidentProcess =>
      let! process_id := tx_lift (resident_process_id_from_job job) in
      let! generation := tx_lift (job_generation job) in
      let! g := tx_lift (resident_generation_i64 generation) in
      update_residents
        (fun id r => bool_decide (id = process_id) && bool_decide (rp_generation r = g)
                     && bool_decide (rp_desired_state r = ResidentProcessDesiredState.Running))
        (resident_set_error error (utc_now rt))
  | JobKind.ProvisionSandbox | JobKind.StopSandbox | JobKind.MaterializeFile
  | JobKind.ApexTaskInstructions | JobKind.DeleteHome => tx_ret tt
  end.

(** ** Failure: [apply_failed_job_on_connection] *)

Definition fail_command (rt : Runtime) (job : Job) (error : string) : Tx World unit :=
  let! command_id := tx_lift (command_id_from_job job) in
  let! sandbox_id := tx_lift (sandbox_id_from_job job) in
  let! _ := append_command_output_chunk_on_connection rt 0 command_id sandbox_id
              CommandOutputStream.Stderr error [] in
  let! _ := finish_command_from_lease_result_on_connection rt command_id CommandStatus.Failed None in
  insert_event_on_connection rt 2 sandbox_id SandboxEventKind.CommandFinished
    (JObject [("commandId", json_uuid command_id); ("exitCode", JNull); ("stderr", JString error)]).

Definition fail_resident (rt : Runtime) (job : Job) (error : string) : Tx World unit :=
  match get_str (job_payload job) "residentProcessId" with
  | None => tx_throw (internal "resident process job is missing its id")
  | Some process_text =>
      let! generation := tx_lift (job_generation job) in
      let! g := tx_lift (resident_generation_i64 generation) in
      update_residents
        (fun id r => String.eqb (uuid_to_string id) process_text
                     && bool_decide (rp_generation r = g)
                     && negb (bool_decide (rp_observed_state r = ResidentProcessObservedState.Stopped)))
        (resident_set_failed error (utc_now rt))
  end.

Definition fail_lifecycle (rt : Runtime) (sandbox_id : Uuid) (from : list SandboxState)
    (next : SandboxState) (reason : string) (lineage : list (string * Json)) (error : string) :
    Tx World unit :=
  let! _ := set_sandbox_state_on_connection rt 0 sandbox_id from next
              (JObject ([("state", json_state next); ("reason", JString reason)] ++ lineage ++
                        [("error", JString error)])) in
  tx_ret tt.

Definition instruction_set_failed (now : Z) (r : InstructionReadRow) : InstructionReadRow :=
  mkInstructionReadRow (ir_job_id r) (ir_request_id r) (ir_lease_id r) (ir_lease_attempt r)
    (ir_provider_apply_id r) (ir_observed_sha256 r) (ir_observed_byte_count r) ReadFailed (Some now).

Definition apply_failed (rt : Runtime) (job : Job) (error : string) : Tx World unit :=
  match job_kind job with
  | JobKind.RunCommand => fail_command rt job error
  | JobKind.CreateSnapshot =>
      let! snapshot_id := tx_lift (snapshot_id_from_job job) in
      let! _ := update_snapshot_status_on_connection snapshot_id SnapshotStatus.Failed (Some error) in
      fail_sandboxes_waiting_on_snapshot_on_connection rt 0 snapshot_id "snapshot_failed" error
  | JobKind.RunPrompt =>
      let! sandbox_id := tx_lift (sandbox_id_from_job job) in
      let! prompt_event_id := tx_lift (prompt_event_id_from_job job) in
      insert_event_on_connection rt 0 sandbox_id SandboxEventKind.PromptFinished
        (JObject [("promptEventId", json_uuid prompt_event_id); ("error", JString error)])
  | JobKind.ForkSandbox =>
      let! child_id := tx_lift (child_sandbox_id_from_job job) in
      let! snapshot_id := tx_lift (snapshot_id_from_job job) in
      fail_lifecycle rt child_id FORK_FAILED_LEGAL_FROM SandboxState.Error "fork_failed"
        [("parentSnapshotId", json_uuid snapshot_id)] error
  | JobKind.RunResidentProcess => fail_resident rt job error
  | JobKind.ResumeSandbox =>
      let! sandbox_id := tx_lift (sandbox_id_from_job job) in
      let! snapshot_id := tx_lift (snapshot_id_from_job job) in
      fail_lifecycle rt sandbox_id RESUME_FAILED_LEGAL_FROM SandboxState.Archived "resume_failed"
        [("restoredFromSnapshotId", json_uuid snapshot_id)] error
  | JobKind.ProvisionSandbox =>
      let! _ := quarantine_failed_pool_job_on_connection rt job error in
      let! sandbox_id := tx_lift (sandbox_id_from_job job) in
      fail_lifecycle rt sandbox_id PROVISION_FAILED_LEGAL_FROM SandboxState.Error
        "provision_failed" [] error
  | JobKind.StopSandbox => quarantine_failed_pool_job_on_connection rt job error
  | JobKind.DeleteHome =>
      let! home_id := tx_lift (home_id_from_job job) in
      mark_home_delete_failed_on_connection rt home_id error
  | JobKind.MaterializeFile =>
      let! sandbox_id := tx_lift (sandbox_id_from_job job) in
      let! file_id := tx_lift (file_id_from_job job) in
      delete_sandbox_file_if_present_on_connection sandbox_id file_id
  | JobKind.ApexTaskInstructions =>
      modify_world (fun w => set_apex_instruction_reads
        (update_rows (fun _ r => bool_decide (ir_job_id r = job_id job)
                                 && bool_decide (ir_state r = ReadPending))
           (instruction_set_failed (utc_now rt)) (apex_instruction_reads w)) w)
  end.

(** ** Cancellation: the per-kind part of [cancel_operation] *)

Definition cancel_snapshot (rt : Runtime) (job : Job) : Tx World unit :=
  let! snapshot_id := tx_lift (snapshot_id_from_job job) in
  let! failed := fail_pending_snapshot_on_connection snapshot_id "snapshot operation cancelled" in
  if negb failed then tx_ret tt
  else
    let! sandbox_id := tx_lift (sandbox_id_from_job job) in
    let! _ := fail_sandboxes_waiting_on_snapshot_on_connection rt 1 snapshot_id
                "snapshot_operation_cancelled" "snapshot operation cancelled" in
    insert_event_on_connection rt 0 sandbox_id SandboxEventKind.LifecycleChanged
      (JObject [("reason", JString "snapshot_operation_cancelled");
                ("snapshotId", json_uuid snapshot_id);
                ("snapshotStatus", JString (as_db_str SnapshotStatus.Failed))]).

(** [update commands set status = 'failed', finished_at = .. where id = ..
    and status = 'queued']. *)
Definition command_set_cancelled (now : Z) (c : CommandRow) : CommandRow :=
  if bool_decide (cmd_status c = CommandStatus.Queued)
  then command_set_finished CommandStatus.Failed (cmd_exit_code c) now c else c.

Definition apply_cancelled (rt : Runtime) (job : Job) : Tx World unit :=
  match job_kind job with
  | JobKind.RunCommand =>
      let! command_id := tx_lift (command_id_from_job job) in
      modify_world (update_command command_id (command_set_cancelled (utc_now rt)))
  | JobKind.MaterializeFile =>
      let! sandbox_id := tx_lift (sandbox_id_from_job job) in
      let! file_id := tx_lift (file_id_from_job job) in
      delete_sandbox_file_if_present_on_connection sandbox_id file_id
  | JobKind.CreateSnapshot => cancel_snapshot rt job
  | _ => tx_ret tt
  end.

#[export] Instance control_plane_effects : JobEffects World := {|
  apply_claimed_job_on_connection := apply_claimed;
  apply_completed_job_on_connection := apply_completed;
  apply_retryable_job_on_connection := apply_retryable;
  apply_failed_job_on_connection := apply_failed;
  apply_cancelled_job_on_connection := apply_cancelled
|}.
End Effects.
