(* ===== verification/Commands.v ===== *)
(** * Commands: from the request to the guest

    [queue_command] of [handlers/commands.rs] stores a command and queues the
    job that runs it; the guest's daemon claims the job and reads the command
    back from the job's payload ([agent_request_from_payload] and
    [handle_lease] of [sandboxwich-agent/src/main.rs]).  Between the two the
    scheduler may rewrite the payload's placement.  What reaches the guest is
    what was asked for. *)

From S2P Require Import Prelude Text CoreTypes Json Store Leases World CommandOutput Scopes Placement Effects.

Open Scope Z_scope.

(** Standard base64: [general_purpose::STANDARD]. *)
Class Base64Lib : Type := {
  std_base64_encode : Bytes -> string;
  std_base64_decode : string -> option Bytes
}.

Definition bytes_ok (b : Bytes) : Prop := Forall (fun x => (x < 256)%N) b.

Class Base64Laws `{Base64Lib} : Prop := {
  std_base64_round_trip b : bytes_ok b -> std_base64_decode (std_base64_encode b) = Some b;
  std_base64_length b : bytes_ok b ->
    Z.of_nat (String.length (std_base64_encode b)) = (Z.of_nat (length b) + 2) / 3 * 4
}.

(** ** The data: [sandboxwich-core/src/lib.rs] *)

Definition DEFAULT_COMMAND_TIMEOUT_SECS : Z := 300.
Definition MAX_COMMAND_TIMEOUT_SECS : Z := 3600.
Definition MAX_COMMAND_STDIN_BYTES : Z := 1024 * 1024.
Definition MAX_COMMAND_STDIN_BASE64_BYTES : Z := (MAX_COMMAND_STDIN_BYTES + 2) / 3 * 4.

(** A [BTreeMap<String, String>] is the list of its entries, in order. *)
Abbreviation Env := (list (string * string)).

Fixpoint btree_insert (k v : string) (m : Env) : Env :=
  match m with
  | [] => [(k, v)]
  | (k', v') :: rest =>
      if String.eqb k k' then (k, v) :: rest
      else if String.leb k k' then (k, v) :: m
      else (k', v') :: btree_insert k v rest
  end.

Record CommandRequest : Type := mkCommandRequest {
  cq_argv : list string;
  cq_cwd : option string;
  cq_env : Env;
  cq_stdin : option Bytes;
  cq_timeout_secs : option Z
}.

Record AgentCommandRequest : Type := mkAgentCommandRequest {
  ac_argv : list string;
  ac_cwd : option string;
  ac_env : Env;
  ac_stdin : option Bytes;
  ac_timeout_secs : option Z
}.

Inductive CommandExecutionRequestError : Type :=
| StdinTooLarge
| EnvironmentContainsNul.

Definition validate_command_input (stdin : option Bytes) (env : Env) : result unit CommandExecutionRequestError :=
  if match stdin with Some b => MAX_COMMAND_STDIN_BYTES <? Z.of_nat (length b) | None => false end
  then Err StdinTooLarge
  else if existsb (fun kv => contains_nul kv.1 || contains_nul kv.2) env
  then Err EnvironmentContainsNul
  else Ok tt.

Definition validate_agent_command_request (q : AgentCommandRequest) : result unit CommandExecutionRequestError :=
  validate_command_input (ac_stdin q) (ac_env q).

(** ** Queueing: [queue_command] *)

Definition effective_command_timeout_secs (requested : option Z) : Z :=
  match requested with
  | Some value => Z.min (Z.max value 1) MAX_COMMAND_TIMEOUT_SECS
  | None => DEFAULT_COMMAND_TIMEOUT_SECS
  end.

Definition json_string (o : option string) : Json := match o with Some s => JString s | None => JNull end.

Section Queueing.
Context `{UuidLib} `{SerdeLib} `{Base64Lib}.

Definition encode_command_stdin_base64 (stdin : Bytes) : string := std_base64_encode stdin.

Definition command_input_error (e : CommandExecutionRequestError) : ApiError :=
  match e with
  | StdinTooLarge => payload_too_large "command_stdin_too_large" "command stdin exceeds 1048576 bytes"
  | EnvironmentContainsNul =>
      bad_request
        "command_environment_contains_nul: command environment keys and values cannot contain NUL"
  end.

(** The spec the payload is built with, before the placement is added. *)
Definition command_provision_spec (s : Sandbox) : SandboxProvisionSpec :=
  mkSandboxProvisionSpec (sb_memory_limit s) (sb_network_egress s) (sb_workspace_mode s)
    (sb_runtime_profile s) (sb_execution_class s) ProviderPreference.Any None None None [] None.

Definition command_payload (sandbox_id : Uuid) (s : Sandbox) (command_id : Uuid) (q : CommandRequest) :
    list (string * Json) :=
  [("sandboxId", json_uuid sandbox_id); ("commandId", json_uuid command_id);
   ("argv", JArray (JString <$> cq_argv q)); ("cwd", json_string (cq_cwd q));
   ("env", JObject ((fun kv => (kv.1, JString kv.2)) <$> cq_env q));
   ("stdin", json_string (encode_command_stdin_base64 <$> cq_stdin q));
   ("timeoutSecs", JNumber (PosInt (effective_command_timeout_secs (cq_timeout_secs q))));
   ("provisionSpec", provision_spec_to_value (command_provision_spec s))].

Definition queued_command (rt : Runtime) (sandbox_id : Uuid) (q : CommandRequest) : CommandRow :=
  mkCommandRow sandbox_id CommandStatus.Queued (cq_argv q) (cq_cwd q) None "" "" (utc_now rt) None 0 0 0 0.

Definition command_job (rt : Runtime) (s : Sandbox) (payload : Json) : Job :=
  let now := utc_now rt in
  mkJob (new_uuid rt 1) (sb_tenant_id s) JobKind.RunCommand JobStatus.Queued payload WorkerCapability.RunCommand
    (sb_execution_class s) 0 0 3 now now now None.

(** What the handler decides before its transaction, on what it read. *)
Definition plan_command (rt : Runtime) (ctx : TenantContext) (seen : Db World) (sandbox_id : Uuid)
    (q : CommandRequest) : result (CommandRow * Job) ApiError :=
  guard! negb (is_nil (cq_argv q)) else bad_request "argv must contain at least one item" in
  match validate_command_input (cq_stdin q) (cq_env q) with
  | Err e => Err (command_input_error e)
  | Ok _ =>
      let? s := ensure_sandbox_tenant seen sandbox_id ctx in
      let? payload := add_provision_spec_to_payload s (fetch_sandbox_secret_mounts (world seen) (sb_id s))
                        (JObject (command_payload sandbox_id s (new_uuid rt 0) q)) in
      Ok (queued_command rt sandbox_id q, command_job rt s payload)
  end.

Definition insert_command_on_connection (id : Uuid) (c : CommandRow) : Tx World unit :=
  let! w := get_world in
  check! is_none (commands w !! id) else api_error_of_db_error UniqueViolation in
  check! is_some (sandboxes w !! cmd_sandbox_id c) else foreign_key_error in
  modify_world (set_commands (<[id := c]> (commands w))).

Definition queue_command (rt : Runtime) (ctx : TenantContext) (seen : Db World) (sandbox_id : Uuid)
    (q : CommandRequest) (db : Db World) : result (Uuid * Job) ApiError * Db World :=
  match plan_command rt ctx seen sandbox_id q with
  | Err e => (Err e, db)
  | Ok (command, job) =>
      run_tx
        (let! _ := insert_command_on_connection (new_uuid rt 0) command in
         let! _ := insert_job_on_connection job in
         let! _ := insert_event_on_connection rt 2 sandbox_id SandboxEventKind.CommandQueued
                     (JObject [("commandId", json_uuid (new_uuid rt 0));
                               ("argv", JArray (JString <$> cmd_argv command))]) in
         tx_ret (new_uuid rt 0, job)) db
  end.

(** ** Reading the payload in the guest *)

Inductive PayloadError : Type :=
| MissingArgv
| InvalidArgv
| InvalidCwd
| InvalidEnv
| StdinExceedsLimit
| InvalidStdin
| InvalidRequest (error : CommandExecutionRequestError).

(** [serde_json::from_value] at the types the payload holds. *)
Definition vec_string_from_value (v : Json) : option (list string) :=
  match v with JArray values => mapM as_str values | _ => None end.

Definition env_from_value (v : Json) : option Env :=
  match v with
  | JObject es =>
      strings ← mapM (fun kv => (fun s => (kv.1, s)) <$> as_str kv.2) es;
      Some (foldl (fun m kv => btree_insert kv.1 kv.2 m) [] strings)
  | _ => None
  end.

(** [serde_bounded_optional_base64_bytes::deserialize]: the length is checked
    before and after decoding. *)
Definition bounded_stdin_from_value (v : Json) : result (option Bytes) PayloadError :=
  match v with
  | JNull => Ok None
  | JString encoded =>
      guard! Z.of_nat (String.length encoded) <=? MAX_COMMAND_STDIN_BASE64_BYTES else StdinExceedsLimit in
      match std_base64_decode encoded with
      | None => Err InvalidStdin
      | Some decoded =>
          guard! Z.of_nat (length decoded) <=? MAX_COMMAND_STDIN_BYTES else StdinExceedsLimit in
          Ok (Some decoded)
      end
  | _ => Err InvalidStdin
  end.

Definition agent_request_from_payload (payload : Json) : result AgentCommandRequest PayloadError :=
  match get payload "argv" with
  | None => Err MissingArgv
  | Some argv =>
      match vec_string_from_value argv with
      | None => Err InvalidArgv
      | Some argv =>
          let? cwd := match get payload "cwd" with
                      | None | Some JNull => Ok None
                      | Some (JString cwd) => Ok (Some cwd)
                      | Some _ => Err InvalidCwd
                      end in
          let? env := match get payload "env" with
                      | None => Ok []
                      | Some v => match env_from_value v with Some env => Ok env | None => Err InvalidEnv end
                      end in
          let? stdin := match get payload "stdin" with
                        | None => Ok None
                        | Some v => bounded_stdin_from_value v
                        end in
          let request := mkAgentCommandRequest argv cwd env stdin (get_u64 payload "timeoutSecs") in
          match validate_agent_command_request request with
          | Ok _ => Ok request
          | Err e => Err (InvalidRequest e)
          end
      end
  end.

(** ** Handling the lease: [handle_lease] *)

Inductive LeaseScopeViolation : Type :=
| WrongKind (kind : JobKind)
| WrongSandbox (job_sandbox_id : Uuid).

(** A missing or malformed [sandboxId] is not a violation. *)
Definition job_payload_sandbox_id (payload : Json) : option Uuid := get_str payload "sandboxId" ≫= uuid_parse_str.

Definition lease_scope_violation (job : Job) (sandbox_id : Uuid) : option LeaseScopeViolation :=
  if negb (bool_decide (job_kind job = JobKind.RunCommand) || bool_decide (job_kind job = JobKind.RunResidentProcess))
  then Some (WrongKind (job_kind job))
  else match job_payload_sandbox_id (job_payload job) with
       | None => None
       | Some id => if bool_decide (id = sandbox_id) then None else Some (WrongSandbox id)
       end.

Definition guest_claim_kinds (include_resident_processes sterile_pool_candidate : bool) : list JobKind :=
  if sterile_pool_candidate then (if include_resident_processes then [JobKind.RunResidentProcess] else [])
  else JobKind.RunCommand :: (if include_resident_processes then [JobKind.RunResidentProcess] else []).

(** What the daemon does about a lease: hand it back to be claimed again, let
    the resident supervisor run it, give up before running (the lease is left
    to expire), or run the command and report. *)
Inductive LeaseHandling (Result Error : Type) : Type :=
| HandBack (violation : LeaseScopeViolation)
| RunResident
| NotRun (error : PayloadError)
| ReportComplete (request : AgentCommandRequest) (r : Result)
| ReportFailed (request : AgentCommandRequest) (error : Error).
#[global] Arguments HandBack {Result Error} violation.
#[global] Arguments RunResident {Result Error}.
#[global] Arguments NotRun {Result Error} error.
#[global] Arguments ReportComplete {Result Error} request r.
#[global] Arguments ReportFailed {Result Error} request error.

Definition handle_lease {Result Error} (execute : AgentCommandRequest -> result Result Error)
    (sandbox_id : Uuid) (job : Job) : LeaseHandling Result Error :=
  match lease_scope_violation job sandbox_id with
  | Some violation => HandBack violation
  | None =>
      if bool_decide (job_kind job = JobKind.RunResidentProcess) then RunResident
      else match agent_request_from_payload (job_payload job) with
           | Err e => NotRun e
           | Ok request =>
               match execute request with
               | Ok r => ReportComplete request r
               | Err e => ReportFailed request e
               end
           end
  end.
End Queueing.

(** ** What reaches the guest *)

(** The keys of a [BTreeMap] are in order, without repetition. *)
Definition env_ok (env : Env) : Prop := StronglySorted (fun a b => String.leb b.1 a.1 = false) env.

Lemma btree_insert_last k v m : Forall (fun a : string * string => String.leb k a.1 = false) m ->
  btree_insert k v m = m ++ [(k, v)].
Proof.
  induction 1 as [|[k' v'] m Hk Hm IH]; [done|]. simpl in *.
  destruct (String.eqb_spec k k') as [->|Hne].
  - destruct (String.leb_total k' k'); congruence.
  - by rewrite Hk, IH.
Qed.

Lemma env_rebuilt env acc : env_ok (acc ++ env) ->
  foldl (fun m kv => btree_insert kv.1 kv.2 m) acc env = acc ++ env.
Proof.
  revert acc. induction env as [|[k v] env IH]; intros acc He; simpl; [by rewrite app_nil_r|].
  rewrite btree_insert_last.
  - rewrite IH; by rewrite <- app_assoc.
  - unfold env_ok in He. clear IH. induction acc as [|a acc IHa]; [constructor|].
    apply StronglySorted_inv in He as [He Ha]. constructor; [|by apply IHa].
    rewrite Forall_app, Forall_cons in Ha. by destruct Ha as (_ & Ha & _).
Qed.

Lemma mapM_strings (l : list string) : mapM as_str (JString <$> l) = Some l.
Proof. by apply mapM_fmap_Some. Qed.

Lemma mapM_env (env : Env) :
  mapM (fun kv => (fun s => (kv.1, s)) <$> as_str kv.2) ((fun kv => (kv.1, JString kv.2)) <$> env) = Some env.
Proof. apply mapM_fmap_Some. by intros []. Qed.

Section CommandProofs.
Context `{UuidLib} `{SerdeLib} `{Base64Laws}.

Lemma env_round_trip env : env_ok env ->
  env_from_value (JObject ((fun kv => (kv.1, JString kv.2)) <$> env)) = Some env.
Proof.
  intros He. unfold env_from_value. rewrite mapM_env. simpl. by rewrite (env_rebuilt env []).
Qed.

Lemma stdin_round_trip stdin :
  (forall b, stdin = Some b -> bytes_ok b) ->
  (forall b, stdin = Some b -> Z.of_nat (length b) <= MAX_COMMAND_STDIN_BYTES) ->
  bounded_stdin_from_value (json_string (encode_command_stdin_base64 <$> stdin)) = Ok stdin.
Proof.
  intros Hok Hb. destruct stdin as [b|]; [|done]. specialize (Hb b eq_refl). specialize (Hok b eq_refl). simpl.
  unfold encode_command_stdin_base64. rewrite std_base64_round_trip, std_base64_length by done.
  rewrite (proj2 (Z.leb_le ((Z.of_nat (length b) + 2) / 3 * 4) _)).
  - by rewrite (proj2 (Z.leb_le _ _)).
  - unfold MAX_COMMAND_STDIN_BASE64_BYTES. apply Z.mul_le_mono_nonneg_r; [lia|]. apply Z.div_le_mono; lia.
Qed.

(** The entries the guest reads are those of the command, whatever else the
    payload holds. *)
Definition reads_command (q : CommandRequest) (sandbox_id : Uuid) (payload : Json) : Prop :=
  get payload "sandboxId" = Some (json_uuid sandbox_id) /\
  get payload "argv" = Some (JArray (JString <$> cq_argv q)) /\
  get payload "cwd" = Some (json_string (cq_cwd q)) /\
  get payload "env" = Some (JObject ((fun kv => (kv.1, JString kv.2)) <$> cq_env q)) /\
  get payload "stdin" = Some (json_string (encode_command_stdin_base64 <$> cq_stdin q)) /\
  get payload "timeoutSecs" = Some (JNumber (PosInt (effective_command_timeout_secs (cq_timeout_secs q)))).

Definition placement_key (k : string) : Prop := k = "provisionSpec" \/ k = "runtimeImage".

Lemma reads_command_insert q sandbox_id k v es : placement_key k ->
  reads_command q sandbox_id (JObject es) -> reads_command q sandbox_id (JObject (object_insert k v es)).
Proof.
  intros Hk (R1 & R2 & R3 & R4 & R5 & R6). unfold reads_command, get in *.
  destruct Hk as [-> | ->]; by rewrite !entry_lookup_insert_ne by discriminate.
Qed.

Lemma reads_command_placed q sandbox_id s mounts payload payload' :
  reads_command q sandbox_id payload -> add_provision_spec_to_payload s mounts payload = Ok payload' ->
  reads_command q sandbox_id payload'.
Proof.
  unfold add_provision_spec_to_payload. destruct payload; try done. cbn [as_object]. intros Hr [= <-].
  apply reads_command_insert; [by left|]. apply reads_command_insert; [by right|done].
Qed.

(** The scheduler's rewriting of a payload leaves the command alone. *)
Lemma reads_command_enriched q sandbox_id job entry changed payload class :
  reads_command q sandbox_id (job_payload job) ->
  apply_sandbox_placement job entry = Ok (changed, payload, class) -> reads_command q sandbox_id payload.
Proof.
  intros Hr. unfold apply_sandbox_placement. destruct (placement_matches_sandbox job entry); [by intros [= <- <- <-]|].
  unfold add_provision_spec_to_payload_with_identity.
  destruct (job_payload job) as [| | | | |es] eqn:Ep; try done. cbn [as_object result_bind].
  destruct (entry_lookup _ _); [|done]. destruct (provision_spec_from_value _); [|done]. intros [= <- <- <-].
  do 3 (apply reads_command_insert; [unfold placement_key; auto|]). done.
Qed.

(** The request is a value of its Rust type: an ordered map and bytes. *)
Definition request_ok (q : CommandRequest) : Prop :=
  env_ok (cq_env q) /\ forall b, cq_stdin q = Some b -> bytes_ok b.

Definition agent_request_of (q : CommandRequest) : AgentCommandRequest :=
  mkAgentCommandRequest (cq_argv q) (cq_cwd q) (cq_env q) (cq_stdin q)
    (Some (effective_command_timeout_secs (cq_timeout_secs q))).

Lemma agent_reads_command q sandbox_id payload :
  request_ok q -> validate_command_input (cq_stdin q) (cq_env q) = Ok tt ->
  reads_command q sandbox_id payload -> agent_request_from_payload payload = Ok (agent_request_of q).
Proof.
  intros He Hv (R1 & R2 & R3 & R4 & R5 & R6). unfold agent_request_from_payload, get_u64.
  rewrite R2, R3, R4, R5, R6. simpl vec_string_from_value. rewrite mapM_strings.
  rewrite env_round_trip by apply He. rewrite stdin_round_trip; [|apply He|].
  - destruct (cq_cwd q) as [cwd|] eqn:Ec; simpl; unfold validate_agent_command_request; simpl; rewrite Hv;
      unfold agent_request_of; by rewrite Ec.
  - intros b Hb. unfold validate_command_input in Hv. rewrite Hb in Hv.
    destruct (Z.ltb_spec MAX_COMMAND_STDIN_BYTES (Z.of_nat (length b))); [done|lia].
Qed.

Lemma handled_as_asked {R E} (execute : AgentCommandRequest -> result R E) q sandbox_id job :
  uuid_parse_str (uuid_to_string sandbox_id) = Some sandbox_id ->
  request_ok q -> validate_command_input (cq_stdin q) (cq_env q) = Ok tt ->
  job_kind job = JobKind.RunCommand -> reads_command q sandbox_id (job_payload job) ->
  handle_lease execute sandbox_id job
  = match execute (agent_request_of q) with
    | Ok r => ReportComplete (agent_request_of q) r
    | Err e => ReportFailed (agent_request_of q) e
    end.
Proof.
  intros Hu He Hv Hk Hr. unfold handle_lease, lease_scope_violation, job_payload_sandbox_id, get_str.
  rewrite Hk. rewrite (proj1 Hr). simpl. rewrite Hu. simpl. rewrite bool_decide_true by done.
  by rewrite (agent_reads_command q sandbox_id).
Qed.

Lemma plan_command_ok rt ctx seen sandbox_id q command job :
  plan_command rt ctx seen sandbox_id q = Ok (command, job) ->
  validate_command_input (cq_stdin q) (cq_env q) = Ok tt /\ command = queued_command rt sandbox_id q /\
  job_kind job = JobKind.RunCommand /\ reads_command q sandbox_id (job_payload job).
Proof.
  unfold plan_command. destruct (negb (is_nil (cq_argv q))); [|done].
  destruct (validate_command_input _ _) as [[]|] eqn:Ev; [|done].
  intros (s & _ & Hp)%result_bind_ok. apply result_bind_ok in Hp as (payload & Hp & [= <- <-]).
  split_and!; try done. eapply reads_command_placed; [|exact Hp]. by split_and!.
Qed.

Lemma insert_command_ok id c (db : Db World) u db' :
  insert_command_on_connection id c db = Ok (u, db') ->
  db' = set_world (set_commands (<[id := c]> (commands (world db))) (world db)) db.
Proof.
  unfold insert_command_on_connection. intros Hi. world_step Hi.
  destruct (is_none (commands (world _) !! id)); [|done].
  destruct (is_some (sandboxes (world _) !! cmd_sandbox_id c)); [|done]. world_step Hi. done.
Qed.

Lemma insert_job_row job (db : Db World) u db' : insert_job_on_connection job db = Ok (u, db') ->
  exists refs, db' = set_jobs (<[job_id job := mkJobRow job refs None None]> (jobs db)) db.
Proof.
  unfold insert_job_on_connection. intros Hi. apply tx_bind_ok in Hi as (refs & db1 & Hl & Hi).
  apply tx_lift_ok in Hl as [_ ->]. tx_step Hi. tx_step Hm.
  destruct (jobs _ !! job_id job); [done|]. destruct (violates_stop_index _ _); [done|].
  tx_step Hi. by eexists.
Qed.

(** The tables once a command is queued: the command, its job, and an event with the
    identifier and the arguments of the command. *)
Definition with_queued_command (rt : Runtime) (sandbox_id : Uuid) (q : CommandRequest) (row : JobRow) (db : Db World) :
    Db World :=
  set_jobs (<[job_id (row_job row) := row]> (jobs db))
    (set_world
       (set_sandbox_events
          (sandbox_events (world db) ++
             [(new_uuid rt 2, mkSandboxEvent sandbox_id SandboxEventKind.CommandQueued
                 (JObject [("commandId", json_uuid (new_uuid rt 0)); ("argv", JArray (JString <$> cq_argv q))]) (utc_now rt))])
          (set_commands (<[new_uuid rt 0 := queued_command rt sandbox_id q]> (commands (world db))) (world db))) db).

Lemma queue_command_ok rt ctx seen sandbox_id q (db : Db World) id job db' :
  queue_command rt ctx seen sandbox_id q db = (Ok (id, job), db') ->
  plan_command rt ctx seen sandbox_id q = Ok (queued_command rt sandbox_id q, job) /\ id = new_uuid rt 0 /\
  exists refs, db' = with_queued_command rt sandbox_id q (mkJobRow job refs None None) db.
Proof.
  unfold queue_command. destruct (plan_command rt ctx seen sandbox_id q) as [[command job0]|] eqn:Ep; [|done].
  intros Hq%run_tx_ok. pose proof (plan_command_ok _ _ _ _ _ _ _ Ep) as (_ & -> & _ & _).
  apply tx_bind_ok in Hq as (u1 & db1 & Q1 & Hq). apply tx_bind_ok in Hq as (u2 & db2 & Q2 & Hq).
  apply tx_bind_ok in Hq as (u3 & db3 & Q3 & Hq). injection Hq as <- <- <-.
  apply insert_command_ok in Q1 as ->. apply insert_job_row in Q2 as (refs & ->).
  apply insert_event_ok in Q3 as [_ ->]. split_and!; try done. by exists refs.
Qed.

(** C15. A command reaches the guest as it was asked for.  When a request is
    accepted, the command, a job for it and an event are stored, and nothing else is
    written: of the request the command has the arguments and the directory, the
    event the arguments, and only the job's payload the rest.  The guest's daemon that
    claims the job runs the arguments, directory, environment and input of the
    request, bounded by the effective time limit, and reports the outcome; also
    when the scheduler has rewritten the placement in the job's payload since. *)
Theorem queued_command_runs_as_asked rt ctx seen sandbox_id q (db : Db World) id job db' :
  uuid_parse_str (uuid_to_string sandbox_id) = Some sandbox_id -> request_ok q ->
  queue_command rt ctx seen sandbox_id q db = (Ok (id, job), db') ->
  id = new_uuid rt 0 /\
  (exists refs, db' = with_queued_command rt sandbox_id q (mkJobRow job refs None None) db) /\
  forall (R E : Type) (execute : AgentCommandRequest -> result R E),
    let outcome := match execute (agent_request_of q) with
                   | Ok r => ReportComplete (agent_request_of q) r
                   | Err e => ReportFailed (agent_request_of q) e
                   end in
    handle_lease execute sandbox_id job = outcome /\
    forall entry changed payload class now,
      apply_sandbox_placement job entry = Ok (changed, payload, class) ->
      handle_lease execute sandbox_id (job_set_placement payload class now job) = outcome.
Proof.
  intros Hu He Hq. apply queue_command_ok in Hq as (Hp & -> & refs & ->).
  apply plan_command_ok in Hp as (Hv & _ & Hk & Hr). split_and!.
  - done.
  - by exists refs.
  - intros R E execute. simpl. split; [by apply (handled_as_asked execute q)|].
    intros entry changed payload class now Ha. apply (handled_as_asked execute q); try done.
    simpl. by eapply reads_command_enriched.
Qed.

(** A refused request changes nothing. *)
Lemma refused_command rt ctx seen sandbox_id q (db : Db World) e db' :
  queue_command rt ctx seen sandbox_id q db = (Err e, db') -> db' = db.
Proof.
  unfold queue_command, run_tx. intros Hq. repeat case_match; by simplify_eq.
Qed.
End CommandProofs.
