(* ===== verification/EffectProofs.v ===== *)
(** * What every job outcome respects

    One preorder collects what any side effect of a job may do to the
    tables: it stays within the frame the scheduler assumes, keeps the
    accounting of command output, moves sandboxes only along the lifecycle
    and never out of [archived], and only ever withdraws cells of the sterile
    pool.  Each statement is shown to respect it once; the five effect
    functions are compositions of those statements. *)

From S2P Require Import Prelude CoreTypes Json Store Leases Protocol SandboxLifecycle.
From S2P Require Import LifecycleContract World CommandOutput RuntimeResources Snapshots SterilePool.
From S2P Require Import Effects.

(** ** The relation *)

(** The lifecycle edges effects take: all but the two that requests take, into
    [archiving] and out of [archived]. *)
Definition effect_edge (a b : SandboxState) : bool :=
  can_transition_to a b && negb (bool_decide (a = SandboxState.Archived))
  && negb (bool_decide (b = SandboxState.Archiving)).

Definition same_but_state (s s' : Sandbox) : Prop :=
  s' = sandbox_set_state (sb_state s') (sb_updated_at s') s.

Definition sandbox_moved (s s' : Sandbox) : Prop :=
  same_but_state s s' /\ rtc (fun a b => effect_edge a b = true) (sb_state s) (sb_state s').

(** No sandbox appears or disappears, and each one that changes follows the
    lifecycle. *)
Definition sandboxes_move (m m' : gmap Uuid Sandbox) : Prop :=
  forall id, option_Forall2 sandbox_moved (m !! id) (m' !! id).

Definition is_usable (c : SterileCellRow) : bool :=
  bool_decide (cell_state c = SterileCellState.Ready)
  || bool_decide (cell_state c = SterileCellState.Leased).

Definition is_withdrawn (m : MembershipRow) : bool :=
  match mb_state m with
  | MemberCleanupPending | MemberDestroyed | MemberQuarantined => true
  | _ => false
  end.

(** A member that is withdrawn from the pool has no usable cell. *)
Definition pool_ok (members : gmap Uuid MembershipRow) (cells : gmap Uuid SterileCellRow) : Prop :=
  forall id m c, members !! id = Some m -> cells !! id = Some c ->
    is_withdrawn m = true -> is_usable c = false.

(** A cell that is still usable has not been touched; a quarantined one stays
    quarantined; a new usable one is sterile. *)
Definition cell_follows (c c' : SterileCellRow) : Prop :=
  (is_usable c' = true -> c' = c) /\
  (cell_state c = SterileCellState.Quarantined -> cell_state c' = SterileCellState.Quarantined).

Definition sterile (c : SterileCellRow) : Prop :=
  cell_state c = SterileCellState.Ready /\ cell_generation c = 1%Z /\
  cell_ever_tenant_exposed c = false /\ cell_lease_id c = None.

Definition cells_evolve (m m' : gmap Uuid SterileCellRow) : Prop :=
  (forall id c, m !! id = Some c -> exists c', m' !! id = Some c' /\ cell_follows c c') /\
  (forall id c', m' !! id = Some c' -> m !! id = None -> is_usable c' = true -> sterile c').

Record effect_rel (db db' : Db World) : Prop := mkEffectRel {
  er_frame : effect_frame db db';
  er_output : output_ok (world db) -> output_ok (world db');
  er_sandboxes : sandboxes_move (sandboxes (world db)) (sandboxes (world db'));
  er_cells : cells_evolve (sterile_cells db) (sterile_cells db');
  er_pool : pool_ok (sterile_pool_memberships (world db)) (sterile_cells db) ->
            pool_ok (sterile_pool_memberships (world db')) (sterile_cells db')
}.

#[export] Instance sandbox_moved_preorder : PreOrder sandbox_moved.
Proof.
  split.
  - intros []. split; [done|reflexivity].
  - intros s1 s2 s3 [H1 H2] [H3 H4]. split; [|by etrans].
    unfold same_but_state in *. rewrite H3, H1. by destruct s1.
Qed.

#[export] Instance sandboxes_move_preorder : PreOrder sandboxes_move.
Proof.
  split.
  - intros m id. destruct (m !! id); constructor. reflexivity.
  - intros m1 m2 m3 H1 H2 id. specialize (H1 id). specialize (H2 id).
    inversion H1; inversion H2; try congruence; constructor. simplify_eq. etrans; [eassumption|].
    by replace x0 with y in * by congruence.
Qed.

#[export] Instance cells_evolve_preorder : PreOrder cells_evolve.
Proof.
  split.
  - intros m. split; [|naive_solver]. intros id c Hc. exists c. by split; [|split].
  - intros m1 m2 m3 [H1 N1] [H2 N2]. split.
    + intros id c Hc. destruct (H1 _ _ Hc) as (c' & Hc' & Hu & Hq).
      destruct (H2 _ _ Hc') as (c'' & Hc'' & Hu' & Hq'). exists c''. split; [done|].
      split; [|auto]. intros Hus. specialize (Hu' Hus). subst c''. auto.
    + intros id c'' Hc'' Hnone Hus. destruct (m2 !! id) as [c'|] eqn:E; [|by eauto].
      destruct (H2 _ _ E) as (c3 & Hc3 & Hu & _). simplify_eq. rewrite Hu in * by done. eauto.
Qed.

#[export] Instance effect_rel_preorder : PreOrder effect_rel.
Proof.
  split.
  - intros db. by constructor.
  - intros db1 db2 db3 [] []. constructor; try (by etrans); auto.
Qed.

(** ** Statements *)

(** A statement that writes none of the tables the relation speaks of. *)
Definition quiet (w w' : World) : Prop :=
  sandboxes w' = sandboxes w /\ commands w' = commands w /\
  command_output_chunks w' = command_output_chunks w /\
  sterile_pool_memberships w' = sterile_pool_memberships w.

Lemma quiet_rel db w' : quiet (world db) w' -> effect_rel db (set_world w' db).
Proof.
  intros (Hs & Hc & Hk & Hm). constructor; simpl.
  - apply world_only_effect. by eexists.
  - unfold output_ok. by rewrite Hc, Hk.
  - by rewrite Hs.
  - reflexivity.
  - by rewrite Hm.
Qed.

Lemma modify_quiet f : (forall w, quiet w (f w)) -> tx_rel effect_rel (modify_world f).
Proof. intros Hf. apply tx_rel_modify. intros db. apply quiet_rel, Hf. Qed.

Lemma get_world_rel : tx_rel effect_rel get_world.
Proof. intros db w db' [_ ->]%get_world_ok. reflexivity. Qed.

Create HintDb effects.
#[export] Hint Resolve get_world_rel : effects.

(** Transactions built of statements that respect the relation. *)
Ltac effects_auto :=
  repeat match goal with
    | |- tx_rel _ (tx_ret _) => apply tx_rel_ret; apply _
    | |- tx_rel _ (tx_throw _) => apply tx_rel_throw
    | |- tx_rel _ tx_get => apply tx_rel_get; apply _
    | |- tx_rel _ (tx_lift _) => apply tx_rel_lift; apply _
    | |- tx_rel _ (tx_bind _ _) => apply tx_rel_bind; [apply _ | | intro]
    | |- tx_rel _ (if _ then _ else _) => apply tx_rel_if
    | |- tx_rel _ (match _ with _ => _ end) => case_match
    | |- _ => solve [eauto 2 with effects]
    | |- tx_rel _ (modify_world _) => apply modify_quiet; intro; done
    end.

(** *** Command output *)

(** Statements over commands and their output alone. *)
Definition beside_sandboxes (db db' : Db World) : Prop :=
  exists w, db' = set_world w db /\ sandboxes w = sandboxes (world db) /\
    sterile_pool_memberships w = sterile_pool_memberships (world db).

#[export] Instance beside_sandboxes_preorder : PreOrder beside_sandboxes.
Proof.
  split.
  - intros db. exists (world db). by destruct db.
  - intros db1 db2 db3 (w & -> & Hs & Hm) (w' & -> & Hs' & Hm'). exists w'.
    simpl in *. by rewrite Hs', Hm'.
Qed.

Lemma beside_sandboxes_rel {A} (m : Tx World A) :
  tx_rel beside_sandboxes m ->
  (forall db a db', output_ok (world db) -> m db = Ok (a, db') -> output_ok (world db')) ->
  tx_rel effect_rel m.
Proof.
  intros Hm Hok db a db' Hr. destruct (Hm _ _ _ Hr) as (w & Hw & Hs & Hmb). constructor.
  - rewrite Hw. apply world_only_effect. by eexists.
  - intros. by eapply Hok.
  - rewrite Hw. simpl. by rewrite Hs.
  - rewrite Hw. reflexivity.
  - rewrite Hw. simpl. by rewrite Hmb.
Qed.

Lemma modify_beside_sandboxes f :
  (forall w, sandboxes (f w) = sandboxes w /\
             sterile_pool_memberships (f w) = sterile_pool_memberships w) ->
  tx_rel beside_sandboxes (modify_world f).
Proof. intros Hf. apply tx_rel_modify. intros db. eexists. split; [done|]. apply Hf. Qed.

Lemma get_world_commands : tx_rel beside_sandboxes get_world.
Proof. intros db w db' [_ ->]%get_world_ok. reflexivity. Qed.

Ltac commands_auto :=
  repeat first
    [ done
    | apply get_world_commands
    | apply modify_beside_sandboxes; intro; done
    | apply tx_rel_ret; apply _
    | apply tx_rel_throw
    | apply tx_rel_lift; apply _
    | apply tx_rel_bind; [apply _ | | intro]
    | apply tx_rel_if
    | case_match ].

(** An update of a command that leaves its counters alone. *)
Definition keeps_counters (f : CommandRow -> CommandRow) : Prop :=
  forall c, (forall s, stream_sequence s (f c) = stream_sequence s c) /\
    output_chunk_count (f c) = output_chunk_count c /\ output_byte_count (f c) = output_byte_count c.

Lemma keeps_counters_output id f w : keeps_counters f -> output_ok w -> output_ok (update_command id f w).
Proof.
  intros Hf [Hacc Hown]. eapply (output_ok_alter w id f); [| |exact Hown|done|done].
  - intros c Hc. unfold accounted. destruct (Hf c) as (Hs & -> & ->).
    destruct (Hacc _ _ Hc) as (H1 & H2). split; [|done]. intros s. rewrite Hs. apply H1.
  - auto.
Qed.

Section Statements.
Context `{UuidLib} `{SerdeLib}.

Lemma insert_event_rel rt n sb kind data :
  tx_rel effect_rel (insert_event_on_connection rt n sb kind data).
Proof. intros db u db' [_ ->]%insert_event_ok. by apply quiet_rel. Qed.

Lemma append_chunk_rel rt n id sb s text ann :
  tx_rel effect_rel (append_command_output_chunk_on_connection rt n id sb s text ann).
Proof.
  apply beside_sandboxes_rel; [|intros; by eapply append_chunk_preserves].
  unfold append_command_output_chunk_on_connection, lock_command. commands_auto.
Qed.

Lemma replace_stream_rel id s : tx_rel effect_rel (replace_command_output_stream_on_connection id s).
Proof.
  apply beside_sandboxes_rel; [|intros; by eapply replace_stream_preserves].
  unfold replace_command_output_stream_on_connection, lock_command. commands_auto.
Qed.

Lemma reset_command_rel id : tx_rel effect_rel (reset_command_for_retry_on_connection id).
Proof.
  apply beside_sandboxes_rel; [|intros; by eapply reset_command_preserves].
  unfold reset_command_for_retry_on_connection, lock_command. commands_auto.
Qed.

Lemma update_command_rel id f :
  keeps_counters f -> tx_rel effect_rel (modify_world (update_command id f)).
Proof.
  intros Hf. apply beside_sandboxes_rel; [by apply modify_beside_sandboxes|].
  intros db u db' Hok ->%modify_world_ok. by apply keeps_counters_output.
Qed.

(** *** Sandboxes *)

Lemma set_state_rel rt n id from next data :
  forallb (fun a => negb (can_transition_to a next) || effect_edge a next) from = true ->
  tx_rel effect_rel (set_sandbox_state_on_connection rt n id from next data).
Proof.
  intros Hedge db b db' [[w ->] [[_ Heq]|(_ & s & Hs & Hin & Hcan & Hw)]]%set_state_ok;
    [by rewrite Heq|]. cbn [world set_world] in Hw. subst w.
  assert (He : effect_edge (sb_state s) next = true).
  { rewrite forallb_forall in Hedge. specialize (Hedge _ (proj1 (list_elem_of_In _ _) Hin)).
    by rewrite Hcan in Hedge. }
  constructor; try done.
  intros k. cbn [sandboxes set_sandbox_events set_sandboxes world set_world].
  destruct (decide (k = id)) as [->|Hne].
  - rewrite lookup_insert_eq, Hs. constructor. split; [by destruct s|]. by apply rtc_once.
  - rewrite lookup_insert_ne by done. destruct (sandboxes (world db) !! k); by constructor.
Qed.

(** *** Jobs *)

(** Adding a queued job with no attempt used. *)
Lemma insert_job_row_rel job refs (db : Db World) :
  job_status job = JobStatus.Queued -> attempts job = 0%Z -> (1 <= max_attempts job)%Z ->
  jobs db !! job_id job = None ->
  effect_rel db (set_jobs (<[job_id job := mkJobRow job refs None None]> (jobs db)) db).
Proof.
  intros Hq Ha Hmax Hnone. constructor; simpl; try done.
  constructor; [|done]. constructor; try done. simpl. split.
  - intros id r Hr. exists r. rewrite lookup_insert_ne by congruence. auto.
  - intros id r'. destruct (decide (id = job_id job)) as [->|Hne].
    + rewrite lookup_insert_eq. intros [= <-] _. left. unfold job_enqueued, is_queued. simpl.
      by rewrite bool_decide_eq_true_2.
    + rewrite lookup_insert_ne by done. naive_solver.
Qed.

Lemma insert_job_rel job :
  job_status job = JobStatus.Queued -> attempts job = 0%Z -> (1 <= max_attempts job)%Z ->
  tx_rel effect_rel (insert_job_on_connection job).
Proof.
  intros Hq Ha Hmax db u db' Hc. unfold insert_job_on_connection in Hc. tx_step Hc. tx_step Hm.
  tx_step Hc. tx_step Hm. destruct (jobs db1 !! _) eqn:E; [by tx_step Hc|].
  case_match; tx_step Hc. by apply insert_job_row_rel.
Qed.

Lemma insert_job_if_absent_rel job :
  job_status job = JobStatus.Queued -> attempts job = 0%Z -> (1 <= max_attempts job)%Z ->
  tx_rel effect_rel (insert_job_on_connection_if_absent job).
Proof.
  intros Hq Ha Hmax db u db' Hc. unfold insert_job_on_connection_if_absent in Hc.
  tx_step Hc. tx_step Hm. tx_step Hc. tx_step Hm.
  destruct (jobs db1 !! _) eqn:E; simpl in Hc; [tx_step Hc; reflexivity|].
  case_match; [tx_step Hc; reflexivity|]. tx_step Hc. tx_step Hm. tx_step Hc.
  by apply insert_job_row_rel.
Qed.

(** *** Residents *)

Lemma set_residents_rel m : tx_rel effect_rel (tx_modify (W := World) (set_resident_processes m)).
Proof. apply tx_rel_modify. intros db. by constructor. Qed.

Lemma update_residents_rel guard f : tx_rel effect_rel (update_residents guard f).
Proof. apply tx_rel_modify. intros db. by constructor. Qed.
End Statements.

#[export] Hint Resolve insert_event_rel append_chunk_rel replace_stream_rel reset_command_rel : effects.
#[export] Hint Resolve set_residents_rel update_residents_rel : effects.
#[export] Hint Extern 1 (tx_rel effect_rel (insert_job_on_connection _)) =>
  apply insert_job_rel; done : effects.
#[export] Hint Extern 1 (tx_rel effect_rel (insert_job_on_connection_if_absent _)) =>
  apply insert_job_if_absent_rel; done : effects.
#[export] Hint Extern 1 (tx_rel effect_rel (set_sandbox_state_on_connection _ _ _ _ _ _)) =>
  apply set_state_rel; reflexivity : effects.
#[export] Hint Extern 1 (tx_rel effect_rel (modify_world (update_command _ _))) =>
  apply update_command_rel; intro; done : effects.

(** *** Runtime resources and snapshots *)

Section Composites.
Context `{UuidLib} `{SerdeLib}.

Lemma ensure_tenant_rel sb t : tx_rel effect_rel (ensure_sandbox_tenant_on_connection sb t).
Proof. unfold ensure_sandbox_tenant_on_connection. effects_auto. Qed.
#[local] Hint Resolve ensure_tenant_rel : effects.

Lemma update_existing_rel rt id r obs rec t :
  tx_rel effect_rel (update_existing_runtime_resource rt id r obs rec t).
Proof.
  unfold update_existing_runtime_resource, update_runtime_resource_from_provider_on_connection.
  effects_auto.
Qed.
#[local] Hint Resolve update_existing_rel : effects.

Lemma upsert_each_rel rt n rs : tx_rel effect_rel (upsert_each rt n rs).
Proof.
  revert n. induction rs as [|r rs IH]; intros n; simpl; [effects_auto|].
  apply tx_rel_bind; [apply _| |auto].
  unfold upsert_provider_runtime_resource_on_connection,
    insert_runtime_resource_from_provider_on_connection. effects_auto.
Qed.
#[local] Hint Resolve upsert_each_rel : effects.

Lemma upsert_resources_rel rt n rs t :
  tx_rel effect_rel (upsert_provider_runtime_resources_on_connection rt n rs t).
Proof. unfold upsert_provider_runtime_resources_on_connection. effects_auto. Qed.

Lemma update_snapshot_rel id status e :
  tx_rel effect_rel (update_snapshot_status_on_connection id status e).
Proof. unfold update_snapshot_status_on_connection. effects_auto. Qed.

Lemma fail_pending_snapshot_rel id e : tx_rel effect_rel (fail_pending_snapshot_on_connection id e).
Proof. unfold fail_pending_snapshot_on_connection. effects_auto. Qed.

Lemma fail_children_rel rt n id reason e children :
  tx_rel effect_rel (fail_children rt n id reason e children).
Proof. revert n. induction children as [|[] ? IH]; intros n; simpl; effects_auto; apply IH. Qed.
#[local] Hint Resolve fail_children_rel : effects.

Lemma fail_waiting_rel rt n id reason e :
  tx_rel effect_rel (fail_sandboxes_waiting_on_snapshot_on_connection rt n id reason e).
Proof. unfold fail_sandboxes_waiting_on_snapshot_on_connection. effects_auto. Qed.

Lemma queue_children_rel rt n id parent w children :
  tx_rel effect_rel (queue_children rt n id parent w children).
Proof.
  revert n. induction children as [|[] ? IH]; intros n; simpl; effects_auto; apply IH.
Qed.
#[local] Hint Resolve queue_children_rel upsert_resources_rel : effects.

Lemma mark_snapshot_ready_rel rt n sb t h :
  tx_rel effect_rel (mark_snapshot_ready_from_provider_handle_on_connection rt n sb t h).
Proof.
  unfold mark_snapshot_ready_from_provider_handle_on_connection,
    queue_forks_waiting_on_snapshot_on_connection. effects_auto.
Qed.

Lemma enqueue_cleanup_rel rt n s source reason :
  tx_rel effect_rel (enqueue_archived_runtime_cleanup_on_connection rt n s source reason).
Proof.
  unfold enqueue_archived_runtime_cleanup_on_connection. effects_auto.
Qed.
End Composites.

#[export] Hint Resolve upsert_resources_rel update_snapshot_rel fail_pending_snapshot_rel
  fail_waiting_rel mark_snapshot_ready_rel enqueue_cleanup_rel : effects.

(** *** The sterile pool *)

Lemma terminal_unusable d now c : is_usable (cell_set_terminal (state_of_disposition d) d now c) = false.
Proof. by destruct d. Qed.

(** An unusable cell stays unusable. *)
Lemma unusable_stays (db db' : Db World) id :
  effect_rel db db' ->
  (exists c, sterile_cells db !! id = Some c /\ is_usable c = false) ->
  exists c, sterile_cells db' !! id = Some c /\ is_usable c = false.
Proof.
  intros [_ _ _ [Hc _] _] (c & Hc0 & Hu). destruct (Hc _ _ Hc0) as (c' & Hc' & Hf & _).
  exists c'. split; [done|]. destruct (is_usable c') eqn:E; [|done]. rewrite Hf in E by done. congruence.
Qed.

Section Pool.
Context `{UuidLib} `{SerdeLib}.

(** A cell is updated to a terminal state, keeping a quarantine. *)
Lemma update_cell_rel id guard d now db b db' :
  (forall c, sterile_cells db !! id = Some c -> guard c = true ->
     cell_state c = SterileCellState.Quarantined -> d = SterileCellDisposition.Quarantined) ->
  update_cell id guard (cell_set_terminal (state_of_disposition d) d now) db = Ok (b, db') ->
  effect_rel db db' /\ world db' = world db /\
  (b = true -> exists c, sterile_cells db' !! id = Some c /\ is_usable c = false) /\
  (b = false -> db' = db /\ forall c, sterile_cells db !! id = Some c -> guard c = false).
Proof.
  unfold update_cell. intros Hkeep Hc. tx_step Hc. tx_step Hm.
  destruct (sterile_cells db1 !! id) as [c|] eqn:E; [|tx_step Hc; naive_solver].
  destruct (guard c) eqn:Eg; [|tx_step Hc; naive_solver].
  set (c' := cell_set_terminal (state_of_disposition d) d now c) in Hc.
  destruct (cell_check c'); [|by tx_step Hc].
  tx_step Hc. tx_step Hm. tx_step Hc. unfold set_sterile_cells; simpl.
  assert (Hu : is_usable c' = false) by apply terminal_unusable.
  assert (Hf : cell_follows c c').
  { split; [congruence|]. intros Hq. unfold c'. by rewrite (Hkeep _ eq_refl Eg Hq). }
  split_and!; [|done|intros _; exists c'; by rewrite lookup_insert_eq|done].
  constructor; simpl; try done.
  - split.
    + intros k x Hx. destruct (decide (k = id)) as [->|].
      * exists c'. rewrite lookup_insert_eq. by simplify_eq.
      * exists x. rewrite lookup_insert_ne by done. split; [done|]. by split.
    + intros k x. destruct (decide (k = id)) as [->|]; [congruence|].
      rewrite lookup_insert_ne by done. congruence.
  - intros Hp k m x Hm Hx Hw. destruct (decide (k = id)) as [->|].
    + rewrite lookup_insert_eq in Hx. by simplify_eq.
    + rewrite lookup_insert_ne in Hx by done. eauto.
Qed.

(** A membership is updated; its cell is unusable where that withdraws it. *)
Lemma update_membership_rel id guard f db b db' :
  (forall m, is_withdrawn (f m) = true -> forall c, sterile_cells db !! id = Some c -> is_usable c = false) ->
  update_membership id guard f db = Ok (b, db') -> effect_rel db db'.
Proof.
  unfold update_membership. intros Hw Hc. world_step Hc.
  destruct (sterile_pool_memberships _ !! id) as [m|] eqn:E; [|by tx_step Hc].
  destruct (guard m); [|by tx_step Hc]. destruct (membership_check _); [|by tx_step Hc].
  world_step Hc. tx_step Hc. constructor; simpl; try done.
  intros Hp k x c Hx Hc Hwd. destruct (decide (k = id)) as [->|].
  - rewrite lookup_insert_eq in Hx. simplify_eq. eauto.
  - rewrite lookup_insert_ne in Hx by done. eauto.
Qed.

Lemma quarantine_record_ok rt id db u db' :
  quarantine_pool_cell_record_on_connection rt id db = Ok (u, db') ->
  effect_rel db db' /\ forall c, sterile_cells db' !! id = Some c -> is_usable c = false.
Proof.
  unfold quarantine_pool_cell_record_on_connection. intros Hq. tx_step Hq. tx_step Hq.
  apply (update_cell_rel id _ SterileCellDisposition.Quarantined) in Hm as (Hr & _ & Ht & Hf); [|done].
  split; [done|]. intros c Hc. destruct a.
  - destruct (Ht eq_refl) as (c' & Hc' & Hu). by simplify_eq.
  - destruct (Hf eq_refl) as [-> Hg]. by apply Hg.
Qed.

(** Withdrawing a member: its cell is quarantined first. *)
Lemma withdraw_rel rt id guard f :
  tx_rel effect_rel
    (let! _ := quarantine_pool_cell_record_on_connection rt id in
     let! _ := update_membership id guard f in tx_ret tt).
Proof.
  intros db u db' Hq. tx_step Hq. apply quarantine_record_ok in Hm as [Hr Hu].
  tx_step Hq. tx_step Hq. etrans; [exact Hr|]. eapply update_membership_rel; [|exact Hm]. eauto.
Qed.

Lemma mark_pending_rel rt id reason clear :
  tx_rel effect_rel (mark_pool_cleanup_pending_on_connection rt id reason clear).
Proof. apply withdraw_rel. Qed.

Lemma quarantine_cell_rel rt id reason :
  tx_rel effect_rel (quarantine_pool_cell_on_connection rt id reason).
Proof. apply withdraw_rel. Qed.

Lemma quarantine_failed_rel rt job e :
  tx_rel effect_rel (quarantine_failed_pool_job_on_connection rt job e).
Proof.
  unfold quarantine_failed_pool_job_on_connection. effects_auto;
    [apply mark_pending_rel | apply quarantine_cell_rel].
Qed.

Lemma retire_cell_rel rt f c db u db' :
  sterile_cells db !! stop_cell_id f = Some c -> retire_pool_cell rt f c db = Ok (u, db') ->
  effect_rel db db'.
Proof.
  unfold retire_pool_cell. intros Hc Hr. case_match; [by eapply mark_pending_rel|].
  set (d := if bool_decide _ then _ else _) in Hr. tx_step Hr.
  apply update_cell_rel in Hm as (Hrel & _ & Ht & _).
  2:{ intros c' Hc' _ Hq. simplify_eq. unfold d. by rewrite Hq. }
  etrans; [exact Hrel|]. destruct a; simpl in Hr; [|by eapply mark_pending_rel].
  tx_step Hr. apply update_membership_rel in Hm.
  2:{ intros m _ x Hx. destruct (Ht eq_refl) as (y & Hy & Hu). by simplify_eq. }
  etrans; [exact Hm|]. destruct a; [by tx_step Hr|by eapply mark_pending_rel].
Qed.

Lemma complete_stop_rel rt job : tx_rel effect_rel (complete_pool_stop_on_connection rt job).
Proof.
  unfold complete_pool_stop_on_connection. destruct (get _ _); [|effects_auto].
  apply tx_rel_if; [effects_auto|]. apply tx_rel_bind; [apply _|effects_auto|intros f].
  intros db u db' Hr. tx_step Hr. tx_step Hm.
  repeat case_match; try by eapply mark_pending_rel. by eapply retire_cell_rel.
Qed.

(** A successful admission: the member was provisioning for this job, had no
    cell, and now is ready together with a sterile cell of the same expiry. *)
Lemma admit_member_ok rt job sb worker m pod db u db' :
  admit_member rt job sb worker m pod db = Ok (u, db') ->
  let now := utc_now rt in
  let expires := staggered_ready_expiry now (mb_ready_ttl_seconds m) (mb_expiry_spread_seconds m)
                   (latest_peer_expiry (world db) sb m) in
  exists m0, sterile_pool_memberships (world db) !! sb = Some m0 /\
    is_provisioning_for (job_id job) m0 = true /\ sterile_cells db !! sb = None /\
    db' = set_world (set_sterile_pool_memberships
                       (<[sb := membership_set_ready worker (str_resource_name pod)
                                  (str_resource_uid pod) expires now m0]>
                          (sterile_pool_memberships (world db))) (world db))
            (set_sterile_cells (<[sb := ready_cell worker sb m expires now]> (sterile_cells db)) db).
Proof.
  unfold admit_member. intros Ha. world_step Ha. tx_step Ha.
  set (e := staggered_ready_expiry _ _ _ _) in *. unfold insert_ready_cell in Hm. tx_step Hm. tx_step Hm0.
  destruct (sterile_cells _ !! sb) as [c|] eqn:Ec; cbn [is_some] in Hm; [tx_step Hm; by tx_step Ha|].
  destruct (existsb _ _); [by tx_step Hm|]. destruct (is_some (workers _ !! _)); [|by tx_step Hm].
  tx_step Hm. tx_step Hm0. tx_step Hm. tx_step Ha. unfold update_membership in Hm. world_step Hm.
  cbn [world set_sterile_cells] in Hm.
  destruct (sterile_pool_memberships _ !! sb) as [m0|] eqn:Em; [|tx_step Hm; by tx_step Ha].
  destruct (is_provisioning_for _ m0) eqn:Ep; [|tx_step Hm; by tx_step Ha].
  destruct (membership_check _); [|by tx_step Hm]. world_step Hm. tx_step Hm. tx_step Ha. by exists m0.
Qed.

Lemma admit_member_rel rt job sb worker m pod :
  tx_rel effect_rel (admit_member rt job sb worker m pod).
Proof.
  intros db u db' (m0 & Hm & Hp & Hnone & ->)%admit_member_ok. constructor; simpl; try done.
  - split.
    + intros id c Hc. exists c. rewrite lookup_insert_ne by congruence. by split; [|split].
    + intros id c. destruct (decide (id = sb)) as [->|].
      * rewrite lookup_insert_eq. by intros [= <-].
      * rewrite lookup_insert_ne by done. congruence.
  - intros Hok id x c. destruct (decide (id = sb)) as [->|].
    + rewrite !lookup_insert_eq. by intros [= <-].
    + rewrite !lookup_insert_ne by done. apply Hok.
Qed.

Lemma admit_cell_rel rt job : tx_rel effect_rel (admit_provisioned_cell_on_connection rt job).
Proof. unfold admit_provisioned_cell_on_connection. effects_auto; apply admit_member_rel. Qed.
End Pool.

#[export] Hint Resolve quarantine_failed_rel complete_stop_rel admit_cell_rel : effects.

(** ** The five effects *)

Section Laws.
Context `{UuidLib} `{SerdeLib}.

Lemma completed_rel rt job res : tx_rel effect_rel (apply_completed rt job res).
Proof.
  unfold apply_completed, complete_resident, complete_command, complete_materialization,
    complete_instructions, complete_snapshot, complete_prompt, complete_fork, complete_provision,
    complete_stop, complete_resume, complete_home_deletion, append_completion_output_on_connection,
    finish_command_from_lease_result_on_connection, delete_sandbox_file_on_connection, delete_home,
    reclaim_late_provision, mark_runtime_resources_deleted_for_sandbox_on_connection.
  destruct (job_kind job); effects_auto.
Qed.

Lemma claimed_rel rt job : tx_rel effect_rel (apply_claimed rt job).
Proof. unfold apply_claimed. destruct (job_kind job); effects_auto. Qed.

Lemma retryable_rel rt job e : tx_rel effect_rel (apply_retryable rt job e).
Proof. unfold apply_retryable. destruct (job_kind job); effects_auto. Qed.

Lemma failed_rel rt job e : tx_rel effect_rel (apply_failed rt job e).
Proof.
  unfold apply_failed, fail_command, fail_resident, fail_lifecycle,
    finish_command_from_lease_result_on_connection, mark_home_delete_failed_on_connection,
    delete_sandbox_file_if_present_on_connection.
  destruct (job_kind job); effects_auto.
Qed.

Lemma cancelled_rel rt job : tx_rel effect_rel (apply_cancelled rt job).
Proof.
  unfold apply_cancelled, cancel_snapshot, delete_sandbox_file_if_present_on_connection.
  destruct (job_kind job); effects_auto.
  apply update_command_rel. intros c. unfold command_set_cancelled. by case_bool_decide.
Qed.

(** The control plane's effects satisfy what the scheduler assumes of them. *)
#[export] Instance control_plane_laws : JobEffectsLaws World.
Proof.
  constructor; intros; intros db u db' Hr; apply er_frame;
    [eapply claimed_rel | eapply completed_rel | eapply retryable_rel
    | eapply failed_rel | eapply cancelled_rel]; exact Hr.
Qed.

(** One run of any of the five effects. *)
Inductive effect_run (rt : Runtime) (job : Job) (db db' : Db World) : Prop :=
| run_claimed : apply_claimed rt job db = Ok (tt, db') -> effect_run rt job db db'
| run_completed res : apply_completed rt job res db = Ok (tt, db') -> effect_run rt job db db'
| run_retryable e : apply_retryable rt job e db = Ok (tt, db') -> effect_run rt job db db'
| run_failed e : apply_failed rt job e db = Ok (tt, db') -> effect_run rt job db db'
| run_cancelled : apply_cancelled rt job db = Ok (tt, db') -> effect_run rt job db db'.

Lemma effect_run_rel rt job db db' : effect_run rt job db db' -> effect_rel db db'.
Proof.
  intros []; [by eapply claimed_rel | by eapply completed_rel | by eapply retryable_rel
    | by eapply failed_rel | by eapply cancelled_rel].
Qed.

(** No job outcome breaks the accounting of command output: when every
    command's counters agree with its stored chunks, number them without gaps
    and stay within the limits before a claim, completion, retry, failure or
    cancellation, they do so afterwards. *)
Theorem effects_keep_output_accounting rt job db db' :
  effect_run rt job db db' -> output_ok (world db) -> output_ok (world db').
Proof. intros Hr. by apply er_output, (effect_run_rel rt job). Qed.

Lemma edges_from_archived s : rtc (fun a b => effect_edge a b = true) SandboxState.Archived s ->
  s = SandboxState.Archived.
Proof. intros Hr. inversion Hr as [|? y ? He _]; subst; [done|]. by destruct y. Qed.

Lemma edges_to_archiving s : rtc (fun a b => effect_edge a b = true) s SandboxState.Archiving ->
  s = SandboxState.Archiving.
Proof.
  intros Hr. apply rtc_inv_r in Hr as [->|(y & _ & He)]; [done|]. by destruct y.
Qed.

(** C36. Job outcomes move sandboxes only along the lifecycle.  Each sandbox
    is still there, changed in nothing but its state and timestamp, its new
    state reached through legal transitions; none is created.  In particular
    no outcome, however late, brings an archived sandbox back, and none
    starts archiving one. *)
Theorem effects_follow_lifecycle rt job db db' :
  effect_run rt job db db' ->
  (forall id s, sandboxes (world db) !! id = Some s ->
     exists s', sandboxes (world db') !! id = Some s' /\
       s' = sandbox_set_state (sb_state s') (sb_updated_at s') s /\
       rtc (fun a b => can_transition_to a b = true) (sb_state s) (sb_state s') /\
       (sb_state s = SandboxState.Archived -> sb_state s' = SandboxState.Archived) /\
       (sb_state s' = SandboxState.Archiving -> sb_state s = SandboxState.Archiving)) /\
  (forall id, sandboxes (world db) !! id = None -> sandboxes (world db') !! id = None).
Proof.
  intros Hm%effect_run_rel%er_sandboxes. split.
  - intros id s Hs. specialize (Hm id). rewrite Hs in Hm. inversion Hm as [s0 s' [Hsame Hrtc] E0 Heq|].
    subst s0. exists s'. split_and!; [done|done| | |].
    + eapply rtc_subrel; [|exact Hrtc]. unfold effect_edge. intros ? ? ?. by bool_to_prop.
    + intros E. rewrite E in Hrtc. by apply edges_from_archived.
    + intros E. rewrite E in Hrtc. by apply edges_to_archiving.
  - intros id Hn. specialize (Hm id). rewrite Hn in Hm. by inversion Hm.
Qed.

(** Job outcomes only ever withdraw cells of the sterile pool.  A cell
    that is usable afterwards either was there before, untouched, or is a
    fresh sterile one (first generation, never exposed, unleased); a
    quarantined cell stays quarantined; and a member that is pending cleanup,
    destroyed or quarantined never has a usable cell. *)
Theorem effects_only_withdraw_cells rt job db db' :
  effect_run rt job db db' ->
  (forall id c', sterile_cells db' !! id = Some c' -> is_usable c' = true ->
     sterile_cells db !! id = Some c' \/ (sterile_cells db !! id = None /\ sterile c')) /\
  (forall id c, sterile_cells db !! id = Some c -> cell_state c = SterileCellState.Quarantined ->
     exists c', sterile_cells db' !! id = Some c' /\ cell_state c' = SterileCellState.Quarantined) /\
  (pool_ok (sterile_pool_memberships (world db)) (sterile_cells db) ->
   pool_ok (sterile_pool_memberships (world db')) (sterile_cells db')).
Proof.
  intros [_ _ _ [Hc Hn] Hp]%effect_run_rel. split_and!; [| |done].
  - intros id c' Hc' Hu. destruct (sterile_cells db !! id) as [c|] eqn:E; [|by eauto].
    left. destruct (Hc _ _ E) as (x & Hx & Hf & _). simplify_eq. by rewrite Hf.
  - intros id c E Hq. destruct (Hc _ _ E) as (x & Hx & _ & Hf). eauto.
Qed.

(** ** Late provisions *)

Lemma upsert_resources_beside rt n rs t :
  tx_rel beside_sandboxes (upsert_provider_runtime_resources_on_connection rt n rs t).
Proof.
  unfold upsert_provider_runtime_resources_on_connection.
  destruct rs as [|r0 rs0]; [commands_auto|]. generalize (r0 :: rs0) as rs. intros rs.
  apply tx_rel_if; [commands_auto|]. apply tx_rel_bind; [apply _|commands_auto|intros _].
  revert n. induction rs as [|r rs IH]; intros n; simpl; [commands_auto|].
  apply tx_rel_bind; [apply _| |auto].
  unfold upsert_provider_runtime_resource_on_connection,
    insert_runtime_resource_from_provider_on_connection, update_existing_runtime_resource,
    update_runtime_resource_from_provider_on_connection, ensure_sandbox_tenant_on_connection.
  commands_auto.
Qed.

(** The teardown job names its sandbox. *)
Lemma cleanup_payload_sandbox w s source reason payload :
  cleanup_payload w s source reason = Ok payload ->
  get_str payload "sandboxId" = Some (uuid_to_string (sb_id s)).
Proof.
  unfold cleanup_payload, add_provision_spec_to_payload. cbn [as_object]. intros Hp.
  repeat case_match; simplify_eq; reflexivity.
Qed.

Lemma active_stop_exists sb (m : gmap Uuid JobRow) :
  existsb (fun kr => is_active_stop sb kr.2) (map_to_list m) = true ->
  exists id r, m !! id = Some r /\ is_active_stop sb r = true.
Proof.
  intros ([id r] & Hin & Ha)%existsb_exists. apply list_elem_of_In, elem_of_map_to_list in Hin. eauto.
Qed.

(** Queueing the teardown leaves an active one behind. *)
Lemma enqueue_cleanup_ok rt n s source reason db b db' :
  uuid_parse_str (uuid_to_string (sb_id s)) = Some (sb_id s) -> jobs db !! new_uuid rt n = None ->
  enqueue_archived_runtime_cleanup_on_connection rt n s source reason db = Ok (b, db') ->
  world db' = world db /\ exists id r, jobs db' !! id = Some r /\ is_active_stop (sb_id s) r = true.
Proof.
  intros Huuid Hfresh He. unfold enqueue_archived_runtime_cleanup_on_connection in He.
  tx_step He. tx_step Hm.
  destruct (existsb _ _) eqn:Ex; [tx_step He; split; [done|by apply active_stop_exists]|].
  tx_step He. apply tx_lift_ok in Hm as [Hp ->]. apply cleanup_payload_sandbox in Hp.
  unfold insert_job_on_connection_if_absent in He. tx_step He. apply tx_lift_ok in Hm as [Hrefs ->].
  assert (Hsb : ref_sandbox_id a0 = Some (sb_id s)).
  { revert Hrefs. unfold job_references, sandbox_id_from_job, uuid_from_job_payload, parse_uuid.
    cbn [job_kind job_payload]. rewrite Hp. cbn [mbind option_bind]. rewrite Huuid. simpl. by intros [= <-]. }
  tx_step He. tx_step Hm. cbn [job_id] in He. rewrite Hfresh in He. cbn [is_some orb] in He.
  destruct (violates_stop_index _ _) eqn:Ev.
  - unfold violates_stop_index in Ev. cbn [row_references] in Ev. rewrite Hsb in Ev.
    apply andb_true_iff in Ev as [_ Ev]. congruence.
  - tx_step He. unfold tx_modify in Hm. simplify_eq. tx_step He. split; [done|].
    do 2 eexists. split; [apply lookup_insert_eq|]. unfold is_active_stop. simpl.
    by rewrite !bool_decide_eq_true_2.
Qed.

(** Resources a provision reports after its sandbox was archived are
    always reclaimed.  When such a late completion is accepted, the sandbox
    stays as it was and a teardown job for it is queued or running. *)
Theorem late_provision_is_reclaimed rt job handle sb s db db' :
  uuid_parse_str (uuid_to_string sb) = Some sb -> jobs db !! new_uuid rt 1 = None ->
  job_kind job = JobKind.ProvisionSandbox -> sandbox_id_from_job job = Ok sb ->
  sandboxes (world db) !! sb = Some s -> sb_id s = sb -> is_archived_state (sb_state s) = true ->
  sandbox_handle_resources handle <> [] ->
  apply_completed rt job (ResultProvisionSandbox handle) db = Ok (tt, db') ->
  sandboxes (world db') !! sb = Some s /\
  exists id r, jobs db' !! id = Some r /\ is_active_stop sb r = true.
Proof.
  intros Huuid Hfresh Hk Hsb Hs Hid Harch Hres Ha. unfold apply_completed in Ha. rewrite Hk in Ha.
  unfold complete_provision in Ha. rewrite Hsb in Ha. tx_step Ha. apply tx_lift_ok in Hm as [[= <-] ->].
  destruct (bool_decide _); [|by tx_step Ha]. tx_step Ha. apply tx_lift_ok in Hm as [_ ->].
  tx_step Ha. apply upsert_resources_beside in Hm as (w & -> & Hw & _). rewrite <- Hw in Hs.
  tx_step Ha. apply set_state_ok in Hm as [_ [[-> ->]|(_ & s' & Hs' & Hin & _)]].
  2:{ cbn [world set_world] in Hs'. rewrite Hs in Hs'. injection Hs' as <-.
      apply contains_spec in Hin. by destruct (sb_state s). }
  cbn [andb] in Ha. destruct (sandbox_handle_resources handle) as [|res0 rest]; [done|].
  unfold reclaim_late_provision in Ha. world_step Ha. unfold fetch_sandbox in Ha.
  cbn [world set_world] in Ha. rewrite Hs in Ha.
  assert (Hst : forall x, sb_state (hydrate_sandbox_network_egress w x) = sb_state x /\
                  sb_id (hydrate_sandbox_network_egress w x) = sb_id x).
  { intros x. unfold hydrate_sandbox_network_egress. by destruct (sb_network_egress x). }
  rewrite (proj1 (Hst s)), Harch in Ha. tx_step Ha. tx_step Ha.
  apply enqueue_cleanup_ok in Hm as [Hw' Hact]; [|by rewrite (proj2 (Hst s)); simplify_eq|done].
  rewrite (proj2 (Hst s)) in Hact. rewrite Hw'. simplify_eq. done.
Qed.

(** ** Admission *)

Lemma latest_peer_bound w sb m k peer t :
  sterile_pool_memberships w !! k = Some peer -> is_cohort_peer sb m (k, peer) = true ->
  mb_cell_expires_at peer = Some t ->
  exists u, latest_peer_expiry w sb m = Some u /\ (t <= u)%Z.
Proof.
  intros Hk Hp Ht. unfold latest_peer_expiry.
  assert (Hin : (k, peer) ∈ List.filter (is_cohort_peer sb m) (map_to_list (sterile_pool_memberships w))).
  { by apply list_elem_of_In, List.filter_In; split; [apply list_elem_of_In, elem_of_map_to_list|]. }
  induction (List.filter _ _) as [|[k' p'] l IH]; [by apply not_elem_of_nil in Hin|]. simpl.
  apply elem_of_cons in Hin as [[= <- <-]|Hin].
  - rewrite Ht. case_match; eexists; (split; [done|lia]).
  - destruct (IH Hin) as (u & -> & Hu). case_match; eexists; (split; [done|lia]).
Qed.

Lemma staggered_bounds now ttl spread latest :
  (0 < ttl)%Z -> (2 * ttl <= i64_max)%Z ->
  let e := staggered_ready_expiry now ttl spread latest in
  (now + seconds ttl <= e <= now + seconds (2 * ttl))%Z /\
  ((0 < spread)%Z -> forall u, latest = Some u ->
     (u + seconds spread <= e)%Z \/ e = (now + seconds (2 * ttl))%Z).
Proof.
  intros Ht Hmax. unfold staggered_ready_expiry, i64_double, seconds.
  rewrite (Z.min_l (2 * ttl)) by lia. rewrite (Z.max_r i64_min) by (unfold i64_min; lia).
  destruct (Z.leb_spec spread 0); [split; [lia|intros; lia]|].
  destruct latest as [u|]; [|split; [lia|done]]. split; [lia|]. intros _ v [= <-]. lia.
Qed.

(** Admission into the sterile pool.  A completed pool provision makes
    the member ready and inserts its cell in the same step, with one expiry
    for both.  The cell lives between one and two times its configured time
    to live, and it expires at least the configured spread after every live
    ready cell of its cohort, unless the two-fold ceiling cuts that short. *)
Theorem admitted_cells_are_staggered rt job sb db db' :
  is_some (get (job_payload job) POOL_JOB_MARKER) = true -> sandbox_id_from_job job = Ok sb ->
  admit_provisioned_cell_on_connection rt job db = Ok (tt, db') ->
  exists m m' c,
    sterile_pool_memberships (world db) !! sb = Some m /\ mb_state m = MemberProvisioning /\
    sterile_pool_memberships (world db') !! sb = Some m' /\ mb_state m' = MemberReady /\
    sterile_cells db' !! sb = Some c /\ sterile c /\
    mb_cell_expires_at m' = Some (cell_expires_at c) /\
    ((0 < mb_ready_ttl_seconds m)%Z -> (2 * mb_ready_ttl_seconds m <= i64_max)%Z ->
     let ceiling := (utc_now rt + seconds (2 * mb_ready_ttl_seconds m))%Z in
     (utc_now rt + seconds (mb_ready_ttl_seconds m) <= cell_expires_at c <= ceiling)%Z /\
     forall k peer t, (0 < mb_expiry_spread_seconds m)%Z ->
       sterile_pool_memberships (world db) !! k = Some peer -> is_cohort_peer sb m (k, peer) = true ->
       mb_cell_expires_at peer = Some t ->
       (t + seconds (mb_expiry_spread_seconds m) <= cell_expires_at c)%Z \/
       cell_expires_at c = ceiling).
Proof.
  intros Hpool Hsb Ha. unfold admit_provisioned_cell_on_connection, is_none in Ha.
  rewrite Hpool, Hsb in Ha. cbn [negb] in Ha. tx_step Ha. apply tx_lift_ok in Hm as [[= <-] ->].
  tx_step Ha. tx_step Hm. destruct (sandbox_placements _ !! sb) as [pl|]; [|by tx_step Ha].
  destruct (sterile_pool_memberships _ !! sb) as [m|] eqn:Em; [|by tx_step Ha].
  destruct (is_provisioning_for _ m) eqn:Ep; cbn [negb] in Ha; [|by tx_step Ha].
  destruct (find _ _) as [pod|]; [|by tx_step Ha].
  destruct (trim_is_empty _); [by tx_step Ha|].
  apply admit_member_ok in Ha as (m0 & Hm0 & _ & _ & ->). simplify_eq.
  assert (Hst : mb_state m = MemberProvisioning) by (unfold is_provisioning_for in Ep; by bool_to_prop).
  do 3 eexists. split; [done|]. split; [exact Hst|]. split; [apply lookup_insert_eq|].
  split; [done|]. split; [apply lookup_insert_eq|]. split; [done|]. split; [done|].
  intros Httl Hmax. cbn [ready_cell cell_expires_at].
  destruct (staggered_bounds (utc_now rt) (mb_ready_ttl_seconds m) (mb_expiry_spread_seconds m)
              (latest_peer_expiry (world db1) sb m) Httl Hmax) as [Hb Hs].
  split; [exact Hb|]. intros k peer t Hspread Hk Hp Ht.
  destruct (latest_peer_bound _ _ _ _ _ _ Hk Hp Ht) as (u & Hu & Hle).
  destruct (Hs Hspread u Hu); [left; lia|by right].
Qed.
End Laws.
