(* ===== verification/SandboxStop.v ===== *)
(** * Stopping and reaping sandboxes

    A stop, requested by a user or by the sweep that reaps sandboxes past
    their lifetime, is one transaction: the sandbox starts archiving, its
    residents are told to stop, its queued work is cancelled and its running
    work fenced, its credentials are revoked and its teardown is queued.

    Sources: [handlers/sandboxes.rs] ([stop_sandbox_via_job]), [reap.rs]. *)

From S2P Require Import Prelude CoreTypes BootstrapStore Json Store Leases Queue SandboxLifecycle.
From S2P Require Import Protocol Refinement World CommandOutput RuntimeResources Snapshots Effects.
From S2P Require Import EffectProofs BootstrapHandoff.

(** ** The stop job *)

Section StopJob.
Context `{UuidLib} `{SerdeLib} (shared : option SharedBootstrapHandoff).

Definition gke_fqdn_policy_name (sandbox_id : Uuid) : string :=
  "sandboxwich-fqdn-egress-" ++ uuid_to_string sandbox_id.

(** [sandbox_has_gke_fqdn_policy]. *)
Definition sandbox_has_gke_fqdn_policy (w : World) (sandbox_id : Uuid) : bool :=
  existsb (fun kr =>
      bool_decide (rr_sandbox_id kr.2 = sandbox_id) && String.eqb (rr_provider kr.2) "kubernetes"
      && bool_decide (rr_resource_kind kr.2 = RuntimeResourceKind.NetworkPolicy)
      && String.eqb (rr_resource_name kr.2) (gke_fqdn_policy_name sandbox_id))
    (map_to_list (runtime_resources w)).

(** [RequestTrace::add_to_payload] and [AuthorizationContext::add_to_payload];
    the receipt's fields are the caller's. *)
Definition add_trace (trace : option string) (es : list (string * Json)) : list (string * Json) :=
  match trace with
  | Some t => if String.eqb t "" then es else object_insert "_traceparent" (JString t) es
  | None => es
  end.

Definition add_authorization (receipt : option Json) (es : list (string * Json)) :
    list (string * Json) :=
  match receipt with Some r => object_insert "_authorization" r es | None => es end.

(** [seen] is what the reads before the transaction saw. *)
Definition stop_payload (seen : World) (s : Sandbox) (trace : option string) (receipt : option Json) :
    result Json ApiError :=
  let base := [("sandboxId", json_uuid (sb_id s));
               ("deleteGkeFqdnPolicy", JBool (sandbox_has_gke_fqdn_policy seen (sb_id s)))] in
  add_provision_spec_to_payload s (fetch_sandbox_secret_mounts seen (sb_id s))
    (JObject (add_authorization receipt (add_trace trace base))).

Definition stop_job (rt : Runtime) (s : Sandbox) (payload : Json) : Job :=
  let now := utc_now rt in
  mkJob (new_uuid rt 0) (sb_tenant_id s) JobKind.StopSandbox JobStatus.Queued payload
    WorkerCapability.ProvisionSandbox (sb_execution_class s) 100 0 3 now now now None.

(** ** Residents and credentials *)

(** What the in-memory bootstrap store is told to forget after the commit. *)
Record BootstrapIdentity : Type := mkBootstrapIdentity {
  bi_process_id : Uuid;
  bi_generation : Z;
  bi_sha256 : string;
  bi_fence : option ResidentBootstrapFence
}.

Definition delivered_fence (r : ResidentRow) : result (option ResidentBootstrapFence) ApiError :=
  match rp_bootstrap_delivered_generation r, rp_bootstrap_delivered_lease_id r,
        rp_bootstrap_delivered_sha256 r with
  | Some g, Some l, Some h =>
      if (0 <=? g)%Z then Ok (Some (Build_ResidentBootstrapFence g l h))
      else Err (internal "database contains invalid delivered bootstrap generation")
  | None, None, None => Ok None
  | _, _, _ => Err (internal "database contains incomplete delivered bootstrap fence")
  end.

Definition bootstrap_identity (id : Uuid) (sha256 : string) (r : ResidentRow) :
    result BootstrapIdentity ApiError :=
  let? fence := delivered_fence r in
  if (0 <=? rp_generation r)%Z then Ok (mkBootstrapIdentity id (rp_generation r) sha256 fence)
  else Err (internal "database contains invalid resident generation").

Definition is_resident_of (s : Sandbox) (r : ResidentRow) : bool :=
  bool_decide (rp_sandbox_id r = sb_id s) && String.eqb (rp_tenant_id r) (sb_tenant_id s).

Fixpoint bootstrap_identities (s : Sandbox) (rows : list (Uuid * ResidentRow)) :
    result (list BootstrapIdentity) ApiError :=
  match rows with
  | [] => Ok []
  | (id, r) :: rest =>
      match rp_bootstrap_sha256 r with
      | Some sha256 =>
          if is_resident_of s r then
            let? i := bootstrap_identity id sha256 r in
            let? others := bootstrap_identities s rest in
            Ok (i :: others)
          else bootstrap_identities s rest
      | None => bootstrap_identities s rest
      end
  end.

(** [desired_state = 'stopped'], acknowledging a delivered bootstrap. *)
Definition resident_set_stopped (now : Z) (r : ResidentRow) : ResidentRow :=
  let delivered := is_some (rp_bootstrap_delivered_generation r)
                   && is_some (rp_bootstrap_delivered_lease_id r)
                   && is_some (rp_bootstrap_delivered_sha256 r) in
  mkResidentRow (rp_sandbox_id r) (rp_tenant_id r) (rp_name r) (rp_generation r)
    ResidentProcessDesiredState.Stopped (rp_observed_state r) (rp_active_lease_id r) (rp_pid r)
    (rp_exited_at r) (rp_exit_code r) (rp_last_error_class r) (rp_last_error_code r)
    (rp_last_error r) (rp_provider_pod_name r) (rp_provider_pod_uid r) now (rp_bootstrap_sha256 r)
    (rp_bootstrap_delivered_generation r) (rp_bootstrap_delivered_lease_id r)
    (rp_bootstrap_delivered_sha256 r)
    (if delivered then Some (default now (rp_bootstrap_acknowledged_at r))
     else rp_bootstrap_acknowledged_at r)
    (rp_sterile_cell_id r) (rp_sterile_lease_id r) (rp_sterile_lease_generation r)
    (rp_provider_isolation_version r) (rp_spec r) (rp_bootstrap_consumed_at r) (rp_started_at r)
    (rp_ready_at r) (rp_created_at r).

Definition is_live_credential_of (s : Sandbox) (r : CredentialRow) : bool :=
  String.eqb (cr_tenant_id r) (sb_tenant_id s) && bool_decide (cr_sandbox_id r = sb_id s)
  && is_none (cr_revoked_at r).

Definition credential_revoke (now : Z) (r : CredentialRow) : CredentialRow :=
  mkCredentialRow (cr_tenant_id r) (cr_holder_id r) (cr_sandbox_id r) (cr_token_hash r) (cr_expires_at r) (Some now)
    (cr_created_at r).

(** ** The transaction *)

Definition stop_sandbox_tx (rt : Runtime) (s : Sandbox) (event : Json) (job : Job) :
    Tx World (option (Job * list BootstrapIdentity)) :=
  let now := utc_now rt in
  let! transitioned := set_sandbox_state_on_connection rt 1 (sb_id s) STOP_LEGAL_FROM
                         SandboxState.Archiving event in
  if negb transitioned then tx_ret None
  else
    let! db := tx_get in
    let! identities := tx_lift (bootstrap_identities s (map_to_list (resident_processes db))) in
    let! _ := update_residents
                (fun _ r => is_resident_of s r
                            && bool_decide (rp_desired_state r = ResidentProcessDesiredState.Running))
                (resident_set_stopped now) in
    let! _ := cancel_sandbox_work_on_connection now (sb_tenant_id s) (sb_id s) in
    let! _ := insert_job_on_connection job in
    let! _ := modify_world (fun w => set_guest_tokens
                (update_rows (fun _ => is_live_credential_of s) (credential_revoke now)
                   (guest_tokens w)) w) in
    let! _ := modify_world (fun w => set_desktop_access_credentials
                (update_rows (fun _ => is_live_credential_of s) (credential_revoke now)
                   (desktop_access_credentials w)) w) in
    tx_ret (Some (job, identities)).

(** After the commit each stored bootstrap is reclaimed, and its row in the shared
    handoff is deleted; a deletion that fails is only logged. *)
Fixpoint reclaim_all (identities : list BootstrapIdentity) (db : Db World) (store : Inner) : Db World * Inner :=
  match identities with
  | [] => (db, store)
  | i :: rest =>
      reclaim_all rest (forget_shared shared (bi_process_id i) db)
        (reclaim store (bi_process_id i) (bi_generation i) (bi_sha256 i) (bi_fence i)).1
  end.

(** [stop_sandbox_via_job]: the tables and the bootstrap store afterwards. *)
Definition stop_sandbox_via_job (rt : Runtime) (seen : World) (s : Sandbox) (event : Json)
    (trace : option string) (receipt : option Json) (db : Db World) (store : Inner) :
    result (option Job) ApiError * Db World * Inner :=
  match stop_payload seen s trace receipt with
  | Err e => (Err e, db, store)
  | Ok payload =>
      match run_tx (stop_sandbox_tx rt s event (stop_job rt s payload)) db with
      | (Err e, db') => (Err e, db', store)
      | (Ok None, db') => (Ok None, db', store)
      | (Ok (Some (job, identities)), db') =>
          let '(db', store) := reclaim_all identities db' store in
          (Ok (Some job), db', store)
      end
  end.
End StopJob.

(** ** Reaping: [reap.rs] *)

Inductive ReapTrigger : Set :=
| MaxLifetime
| IdleTtl.

Definition reap_reason (t : ReapTrigger) : string :=
  match t with MaxLifetime => "reaped_max_lifetime" | IdleTtl => "reaped_idle_ttl" end.

(** The latest instant the time library represents. *)
Class ChronoLib : Type := { MAX_UTC : Z }.

Section Reap.
Context `{ChronoLib}.

(** [anchor + chrono::Duration::seconds(n)]: [None] is its panic, for a
    duration over [i64::MAX] milliseconds or a sum past the last instant. *)
Definition datetime_add_seconds (anchor n : Z) : option Z :=
  if (n * 1000 <=? i64_max)%Z && (anchor + seconds n <=? MAX_UTC)%Z then Some (anchor + seconds n)%Z
  else None.

(** [deadline_from]. *)
Definition deadline_from (anchor ttl_seconds : Z) : option Z :=
  datetime_add_seconds anchor (default i64_max (try_i64 ttl_seconds)).

(** [max_lifetime_expired] and [idle_ttl_expired] compute the same. *)
Definition deadline_expired (anchor ttl_seconds now : Z) : option (option Z) :=
  deadline ← deadline_from anchor ttl_seconds;
  Some (if (deadline <=? now)%Z then Some deadline else None).

Definition resolve_last_activity (updated_at : Z) (last_command_at last_activity_at : option Z) : Z :=
  Z.max updated_at (Z.max (default updated_at last_command_at) (default updated_at last_activity_at)).

(** One lifetime's check; the outer [None] is a panic. *)
Definition trigger_expired (t : ReapTrigger) (anchor : Z) (ttl_seconds : option Z) (now : Z) :
    option (option (ReapTrigger * Z)) :=
  match ttl_seconds with
  | None => Some None
  | Some ttl => (fun deadline : option Z => pair t <$> deadline) <$> deadline_expired anchor ttl now
  end.

(** [expired_deadline]: the maximum lifetime is checked first. *)
Definition expired_deadline (s : Sandbox) (last_command_at : option Z) (now : Z) :
    option (option (ReapTrigger * Z)) :=
  match trigger_expired MaxLifetime (sb_created_at s) (sb_max_lifetime_seconds s) now with
  | Some None =>
      trigger_expired IdleTtl
        (resolve_last_activity (sb_updated_at s) last_command_at (sb_last_activity_at s))
        (sb_idle_ttl_seconds s) now
  | decided => decided
  end.

Inductive CandidateOutcome : Type :=
| NotDue
| Reaped (trigger : ReapTrigger) (deadline : Z)
| Skipped
| ReapFailed.

Section Sweep.
Context `{UuidLib} `{SerdeLib} (datetime_to_value : Z -> Json) (shared : option SharedBootstrapHandoff).

Definition reap_event (trigger : ReapTrigger) (deadline : Z) : Json :=
  JObject [("state", json_state SandboxState.Archiving); ("reason", JString (reap_reason trigger));
           ("deadline", datetime_to_value deadline); ("triggeredBy", JString "expiry_sweeper")].

(** [attempt_reap_candidate]; [None] is a panic. *)
Definition attempt_reap_candidate (rt : Runtime) (s : Sandbox) (last_command_at : option Z) (now : Z)
    (db : Db World) (store : Inner) : option (CandidateOutcome * Db World * Inner) :=
  match expired_deadline s last_command_at now with
  | None => None
  | Some None => Some (NotDue, db, store)
  | Some (Some (trigger, deadline)) =>
      let s := hydrate_sandbox_network_egress (world db) s in
      Some match stop_sandbox_via_job shared rt (world db) s (reap_event trigger deadline) None None db store with
           | (Ok (Some _), db', store') => (Reaped trigger deadline, db', store')
           | (Ok None, db', store') => (Skipped, db', store')
           | (Err _, db', store') => (ReapFailed, db', store')
           end
  end.

Definition REAP_CANDIDATE_BATCH_SIZE : nat := 100.

Definition is_reapable (s : Sandbox) : bool :=
  contains STOP_LEGAL_FROM (sb_state s)
  && (is_some (sb_max_lifetime_seconds s) || is_some (sb_idle_ttl_seconds s)).

(** [select max(c.created_at) from commands c where c.sandbox_id = s.id]. *)
Definition last_command_at (w : World) (sandbox_id : Uuid) : option Z :=
  fold_right (fun kc acc =>
      if bool_decide (cmd_sandbox_id kc.2 = sandbox_id)
      then Some (match acc with Some t => Z.max (cmd_created_at kc.2) t | None => cmd_created_at kc.2 end)
      else acc) None (map_to_list (commands w)).

Definition reap_candidates (w : World) : list (Uuid * Sandbox) :=
  take REAP_CANDIDATE_BATCH_SIZE
    (merge_sort sandbox_age_le (List.filter (fun ks => is_reapable ks.2) (map_to_list (sandboxes w)))).

Fixpoint reap_each (rts : nat -> Runtime) (seen : World) (candidates : list (Uuid * Sandbox)) (now : Z)
    (db : Db World) (store : Inner) : option (list (Uuid * CandidateOutcome) * Db World * Inner) :=
  match candidates with
  | [] => Some ([], db, store)
  | (id, s) :: rest =>
      match attempt_reap_candidate (rts 0) s (last_command_at seen id) now db store with
      | None => None
      | Some (outcome, db1, store1) =>
          match reap_each (fun n => rts (S n)) seen rest now db1 store1 with
          | None => None
          | Some (outcomes, db2, store2) => Some ((id, outcome) :: outcomes, db2, store2)
          end
      end
  end.

(** [reap_expired_active_sandboxes]. *)
Definition reap_expired_active_sandboxes (rts : nat -> Runtime) (now : Z) (db : Db World)
    (store : Inner) : option (list (Uuid * CandidateOutcome) * Db World * Inner) :=
  reap_each rts (world db) (reap_candidates (world db)) now db store.
End Sweep.
End Reap.

(** ** Lemmas *)

Section StopLemmas.
Context `{UuidLib} `{SerdeLib} (shared : option SharedBootstrapHandoff).

Lemma stop_legal_can_archive st : st ∈ STOP_LEGAL_FROM -> can_transition_to st SandboxState.Archiving = true.
Proof. intros Hin%contains_spec. by destruct st. Qed.

Lemma cancel_work_ok now tenant sb (db : Db World) u db' :
  cancel_sandbox_work_on_connection now tenant sb db = Ok (u, db') ->
  db' = set_job_leases
          (update_rows (fun _ => stop_cancels_lease tenant sb
             (set_jobs (update_rows (fun _ => stop_cancels_job tenant sb)
                          (row_set_cancelled now "sandbox_stopped") (jobs db)) db))
             (lease_set_cancel now "sandbox_stopped") (job_leases db))
          (set_jobs (update_rows (fun _ => stop_cancels_job tenant sb)
                       (row_set_cancelled now "sandbox_stopped") (jobs db)) db).
Proof. unfold cancel_sandbox_work_on_connection. intros Hc. tx_step Hc. tx_step Hm. by tx_step Hc. Qed.

Lemma insert_job_ok (job : Job) (db : Db World) u db' :
  insert_job_on_connection job db = Ok (u, db') ->
  exists refs, job_references job = Ok refs /\ jobs db !! job_id job = None /\
    violates_stop_index (mkJobRow job refs None None) (jobs db) = false /\
    db' = set_jobs (<[job_id job := mkJobRow job refs None None]> (jobs db)) db.
Proof.
  unfold insert_job_on_connection. intros Hi. tx_step Hi. apply tx_lift_ok in Hm as [Hrefs ->].
  tx_step Hi. tx_step Hm. destruct (jobs _ !! _) eqn:Ej; [by tx_step Hi|].
  destruct (violates_stop_index _ _) eqn:Ev; [by tx_step Hi|]. tx_step Hi. eauto.
Qed.

(** What the transaction did, table by table. *)
Lemma stop_tx_some rt s event job db j ids db' :
  stop_sandbox_tx rt s event job db = Ok (Some (j, ids), db') ->
  j = job /\ bootstrap_identities s (map_to_list (resident_processes db)) = Ok ids /\
  exists s0 refs,
    sandboxes (world db) !! sb_id s = Some s0 /\ sb_state s0 ∈ STOP_LEGAL_FROM /\
    sandboxes (world db') =
      <[sb_id s := sandbox_set_state SandboxState.Archiving (utc_now rt) s0]> (sandboxes (world db)) /\
    job_references job = Ok refs /\
    let cancelled := update_rows (fun _ => stop_cancels_job (sb_tenant_id s) (sb_id s))
                       (row_set_cancelled (utc_now rt) "sandbox_stopped") (jobs db) in
    cancelled !! job_id job = None /\
    violates_stop_index (mkJobRow job refs None None) cancelled = false /\
    jobs db' = <[job_id job := mkJobRow job refs None None]> cancelled /\
    (exists db0 : Db World, jobs db0 = cancelled /\
       job_leases db' = update_rows (fun _ => stop_cancels_lease (sb_tenant_id s) (sb_id s) db0)
                          (lease_set_cancel (utc_now rt) "sandbox_stopped") (job_leases db)) /\
    resident_processes db' =
      update_rows (fun _ r => is_resident_of s r
                              && bool_decide (rp_desired_state r = ResidentProcessDesiredState.Running))
        (resident_set_stopped (utc_now rt)) (resident_processes db) /\
    guest_tokens (world db') =
      update_rows (fun _ => is_live_credential_of s) (credential_revoke (utc_now rt))
        (guest_tokens (world db)) /\
    desktop_access_credentials (world db') =
      update_rows (fun _ => is_live_credential_of s) (credential_revoke (utc_now rt))
        (desktop_access_credentials (world db)).
Proof.
  unfold stop_sandbox_tx. intros Hs. tx_step Hs.
  apply set_state_ok in Hm as [[w ->] [[-> _]|(-> & s0 & Hs0 & Hin & _ & Hw)]];
    [by tx_step Hs|]. cbn [world set_world] in Hw. subst w. cbn [negb] in Hs.
  tx_step Hs. tx_step Hm. tx_step Hs. apply tx_lift_ok in Hm as [Hids ->].
  tx_step Hs. unfold update_residents in Hm. unfold tx_modify in Hm. injection Hm as _ <-.
  tx_step Hs. apply cancel_work_ok in Hm as ->.
  tx_step Hs. apply insert_job_ok in Hm as (refs & Hrefs & Hfresh & Hidx & ->).
  tx_step Hs. apply modify_world_ok in Hm as ->. tx_step Hs. apply modify_world_ok in Hm as ->.
  unfold tx_ret in Hs. injection Hs as <- <- <-. split; [done|]. split; [exact Hids|]. exists s0, refs.
  split_and!; try done. eexists. split; [|reflexivity]. done.
Qed.

Lemma stop_payload_sandbox seen s trace receipt payload :
  stop_payload seen s trace receipt = Ok payload ->
  get_str payload "sandboxId" = Some (uuid_to_string (sb_id s)).
Proof.
  unfold stop_payload, add_provision_spec_to_payload, add_authorization, add_trace. cbn [as_object].
  intros Hp. repeat case_match; simplify_eq; reflexivity.
Qed.

Lemma stop_job_references rt s payload refs :
  uuid_parse_str (uuid_to_string (sb_id s)) = Some (sb_id s) ->
  get_str payload "sandboxId" = Some (uuid_to_string (sb_id s)) ->
  job_references (stop_job rt s payload) = Ok refs -> ref_sandbox_id refs = Some (sb_id s).
Proof.
  intros Hu Hp. unfold job_references, sandbox_id_from_job, uuid_from_job_payload, parse_uuid.
  cbn [job_kind job_payload stop_job]. rewrite Hp, Hu. simpl. by intros [= <-].
Qed.

(** A stop that did not happen found the sandbox past stopping. *)
Lemma stop_tx_none rt s event job db db' :
  stop_sandbox_tx rt s event job db = Ok (None, db') ->
  db' = db /\ forall s0, sandboxes (world db) !! sb_id s = Some s0 -> sb_state s0 ∉ STOP_LEGAL_FROM.
Proof.
  unfold stop_sandbox_tx. intros Hs. tx_step Hs. pose proof Hm as Hset.
  apply set_state_ok in Hm as [_ [[-> ->]|(-> & _)]].
  - tx_step Hs. split; [done|]. intros s0 Hs0 Hin.
    edestruct (set_state_succeeds rt 1 (sb_id s) STOP_LEGAL_FROM SandboxState.Archiving event)
      as [db1 E]; [exact Hs0 | exact Hin | by apply stop_legal_can_archive |].
    rewrite E in Hset. done.
  - exfalso. cbn [negb] in Hs. repeat (tx_step Hs).
Qed.

Lemma world_frame (db : Db World) w : core_frame db (set_world w db).
Proof. by constructor. Qed.

Lemma residents_frame (db : Db World) m : core_frame db (set_resident_processes m db).
Proof. by constructor. Qed.

(** To the scheduler a stop is a side effect, an adjustment of live leases
    and the creation of a job. *)
Lemma stop_tx_refines rt s event payload (db : Db World) r db' :
  stop_sandbox_tx rt s event (stop_job rt s payload) db = Ok (r, db') -> rtc protocol_step db db'.
Proof.
  unfold stop_sandbox_tx. intros Hs. tx_step Hs.
  apply set_state_ok in Hm as [[w ->] _]. eapply rtc_l; [apply ps_effect, (world_frame db w)|].
  destruct (negb a); [by tx_step Hs|].
  tx_step Hs. tx_step Hm. tx_step Hs. apply tx_lift_ok in Hm as [_ ->].
  tx_step Hs. unfold update_residents, tx_modify in Hm. injection Hm as _ <-.
  eapply rtc_l; [apply ps_effect, residents_frame|].
  tx_step Hs. eapply rtc_l; [by eapply cancel_sandbox_work_refines|].
  tx_step Hs. eapply rtc_l; [by eapply ps_effect, (insert_job_rel (stop_job rt s payload))|].
  tx_step Hs. apply modify_world_ok in Hm1 as ->. tx_step Hs. apply modify_world_ok in Hm1 as ->.
  tx_step Hs. eapply rtc_l; [apply ps_effect, world_frame|]. apply rtc_once, ps_effect, world_frame.
Qed.

Lemma protocol_steps_inv (db db' : Db World) :
  rtc protocol_step db db' -> protocol_inv db -> protocol_inv db'.
Proof. induction 1; [done|]. intros. eauto using protocol_step_inv. Qed.

(** The cancelled queue holds no queued work of the sandbox but teardown and
    provision. *)
Lemma cancelled_queue s now (m : gmap Uuid JobRow) id r :
  update_rows (fun _ => stop_cancels_job (sb_tenant_id s) (sb_id s))
    (row_set_cancelled now "sandbox_stopped") m !! id = Some r ->
  job_tenant_id (row_job r) = sb_tenant_id s -> references_sandbox (sb_id s) (row_references r) = true ->
  is_queued r = true ->
  job_kind (row_job r) = JobKind.StopSandbox \/ job_kind (row_job r) = JobKind.ProvisionSandbox.
Proof.
  rewrite lookup_update_rows, fmap_Some. intros (r0 & Hr0 & ->) Ht Href Hq.
  destruct (stop_cancels_job _ _ r0) eqn:Ec; [by vm_compute in Hq|].
  unfold stop_cancels_job in Ec. rewrite Hq, Href, (proj2 (String.eqb_eq _ _) Ht) in Ec.
  destruct (decide (job_kind (row_job r0) = JobKind.StopSandbox)); [by left|].
  destruct (decide (job_kind (row_job r0) = JobKind.ProvisionSandbox)); [by right|].
  rewrite !bool_decide_eq_false_2 in Ec by done. done.
Qed.

(** The teardown just queued is the sandbox's only active one. *)
Lemma only_active_stop job refs (m : gmap Uuid JobRow) sb id r :
  violates_stop_index (mkJobRow job refs None None) m = false ->
  ref_sandbox_id refs = Some sb -> is_active_stop sb (mkJobRow job refs None None) = true ->
  <[job_id job := mkJobRow job refs None None]> m !! id = Some r -> is_active_stop sb r = true ->
  id = job_id job.
Proof.
  intros Hv Hsb Hact Hr Hstop. destruct (decide (id = job_id job)) as [|Hne]; [done|]. exfalso.
  rewrite lookup_insert_ne in Hr by done. unfold violates_stop_index in Hv. cbn [row_references] in Hv.
  rewrite Hsb, Hact in Hv. cbn [andb] in Hv. apply not_true_iff_false in Hv. apply Hv, existsb_exists.
  exists (id, r). split; [|done]. by apply list_elem_of_In, elem_of_map_to_list.
Qed.

Lemma revoked_all s now (m : gmap Uuid CredentialRow) id c :
  update_rows (fun _ => is_live_credential_of s) (credential_revoke now) m !! id = Some c ->
  cr_tenant_id c = sb_tenant_id s -> cr_sandbox_id c = sb_id s -> is_Some (cr_revoked_at c).
Proof.
  rewrite lookup_update_rows, fmap_Some. intros (c0 & Hc0 & ->) Ht Hs.
  destruct (is_live_credential_of s c0) eqn:Ec; [by eexists|].
  unfold is_live_credential_of in Ec. rewrite (proj2 (String.eqb_eq _ _) Ht), bool_decide_eq_true_2 in Ec by done.
  unfold is_none, is_some in Ec. by destruct (cr_revoked_at c0).
Qed.

(** Running leases on the sandbox's jobs are asked to cancel. *)
Lemma fenced_lease s now (db db0 : Db World) id l r :
  jobs db0 = update_rows (fun _ => stop_cancels_job (sb_tenant_id s) (sb_id s))
               (row_set_cancelled now "sandbox_stopped") (jobs db) ->
  update_rows (fun _ => stop_cancels_lease (sb_tenant_id s) (sb_id s) db0)
    (lease_set_cancel now "sandbox_stopped") (job_leases db) !! id = Some l ->
  is_active l = true -> jobs db !! lr_job_id l = Some r ->
  job_tenant_id (row_job r) = sb_tenant_id s -> references_sandbox (sb_id s) (row_references r) = true ->
  is_Some (lr_cancel_requested_at l).
Proof.
  intros Hdb0. rewrite lookup_update_rows, fmap_Some. intros (l0 & Hl0 & ->) Ha Hr Ht Href.
  destruct (stop_cancels_lease _ _ _ l0) eqn:Ec; [by eexists|].
  unfold stop_cancels_lease in Ec. rewrite Ha, Hdb0, lookup_update_rows, Hr in Ec. simpl in Ec.
  assert (Hkeep : forall b : bool, let r' := if b then row_set_cancelled now "sandbox_stopped" r else r in
            job_tenant_id (row_job r') = job_tenant_id (row_job r) /\ row_references r' = row_references r)
    by by intros [].
  destruct (Hkeep (stop_cancels_job (sb_tenant_id s) (sb_id s) r)) as [E1 E2].
  rewrite E1, E2, Href, (proj2 (String.eqb_eq _ _) Ht) in Ec.
  unfold is_none, is_some in Ec. by destruct (lr_cancel_requested_at l0).
Qed.

(** The identities are those of the sandbox's residents with a bootstrap. *)
Lemma identities_complete s rows ids id r sha256 :
  bootstrap_identities s rows = Ok ids -> (id, r) ∈ rows -> is_resident_of s r = true ->
  rp_bootstrap_sha256 r = Some sha256 -> id ∈ bi_process_id <$> ids.
Proof.
  revert ids. induction rows as [|[k x] rows IH]; intros ids Hids; [by intros ?%not_elem_of_nil|].
  intros [[= <- <-]|Hin]%elem_of_cons Hof Hsha; cbn [bootstrap_identities] in Hids.
  - rewrite Hsha, Hof in Hids. apply result_bind_ok in Hids as (i & Hi & (rest & _ & [= <-])%result_bind_ok).
    unfold bootstrap_identity in Hi. apply result_bind_ok in Hi as (f & _ & Hi). destruct (_ <=? _)%Z; [|done].
    injection Hi as <-. by left.
  - destruct (rp_bootstrap_sha256 x); [|by eapply IH]. destruct (is_resident_of s x); [|by eapply IH].
    apply result_bind_ok in Hids as (i & Hi & (rest & Hrest & [= <-])%result_bind_ok). right. by eapply IH.
Qed.

(** Reclaiming writes nothing but the shared handoff, from which it deletes the
    rows of the identities. *)
Lemma reclaim_all_ok ids (db : Db World) store :
  exists m, (reclaim_all shared ids db store).1 = set_world (set_resident_bootstrap_handoffs m (world db)) db /\
    (is_some shared = true -> forall id, id ∈ bi_process_id <$> ids -> m !! id = None) /\
    (forall id, id ∉ bi_process_id <$> ids -> m !! id = resident_bootstrap_handoffs (world db) !! id).
Proof.
  revert db store. induction ids as [|i ids IH]; intros db store.
  { exists (resident_bootstrap_handoffs (world db)). split_and!; [by destruct db as [? ? ? ? ? ? ? ? ? ? ? []]| |done].
    by intros _ id ?%not_elem_of_nil. }
  cbn [reclaim_all]. unfold forget_shared. destruct shared as [h|].
  - destruct (IH (set_world (set_resident_bootstrap_handoffs (delete (bi_process_id i) (resident_bootstrap_handoffs (world db)))
      (world db)) db) (reclaim store (bi_process_id i) (bi_generation i) (bi_sha256 i) (bi_fence i)).1) as (m & E & Hgone & Hkept).
    exists m. split_and!; [exact E| |].
    + intros _ id. cbn [fmap list_fmap]. destruct (decide (id ∈ bi_process_id <$> ids)) as [Hin|Hni]; [by intros _; apply Hgone|].
      intros [->|?]%elem_of_cons; [|done]. rewrite Hkept by done. apply lookup_delete_eq.
    + intros id. cbn [fmap list_fmap]. intros [Hne Hni]%not_elem_of_cons. rewrite Hkept by done. by apply lookup_delete_ne.
  - destruct (IH db (reclaim store (bi_process_id i) (bi_generation i) (bi_sha256 i) (bi_fence i)).1) as (m & E & _ & Hkept).
    exists m. split_and!; [exact E|done|]. intros id. cbn [fmap list_fmap]. intros [_ Hni]%not_elem_of_cons. by apply Hkept.
Qed.

End StopLemmas.

(** ** The sweep *)

Section ReapLemmas.
Context `{ChronoLib} `{UuidLib} `{SerdeLib} (datetime_to_value : Z -> Json) (shared : option SharedBootstrapHandoff).

(** The latest of the instants that count as activity. *)
Definition last_activity (s : Sandbox) (last_command : option Z) : Z :=
  foldr Z.max (sb_updated_at s)
    (match last_command with Some t => [t] | None => [] end ++
     match sb_last_activity_at s with Some t => [t] | None => [] end).

Lemma resolve_last_activity_spec s lc :
  resolve_last_activity (sb_updated_at s) lc (sb_last_activity_at s) = last_activity s lc.
Proof.
  unfold resolve_last_activity, last_activity.
  destruct lc, (sb_last_activity_at s); simpl; lia.
Qed.

(** The deadline a trigger sets, by the documentation of the two lifetimes. *)
Definition deadline_of (s : Sandbox) (last_command : option Z) (t : ReapTrigger) : option Z :=
  match t with
  | MaxLifetime => (fun ttl => sb_created_at s + seconds ttl)%Z <$> sb_max_lifetime_seconds s
  | IdleTtl =>
      (fun ttl => last_activity s last_command + seconds ttl)%Z <$> sb_idle_ttl_seconds s
  end.

(** The lifetimes are durations of the time library, and the deadlines are
    instants of it. *)
Definition lifetimes_representable (s : Sandbox) (last_command : option Z) : Prop :=
  (forall ttl, sb_max_lifetime_seconds s = Some ttl \/ sb_idle_ttl_seconds s = Some ttl ->
     (0 <= ttl)%Z /\ (ttl * 1000 <= i64_max)%Z) /\
  (forall t d, deadline_of s last_command t = Some d -> (d <= MAX_UTC)%Z).

Lemma deadline_expired_spec anchor ttl now :
  (0 <= ttl)%Z -> (ttl * 1000 <= i64_max)%Z -> (anchor + seconds ttl <= MAX_UTC)%Z ->
  deadline_expired anchor ttl now =
    Some (if (anchor + seconds ttl <=? now)%Z then Some (anchor + seconds ttl)%Z else None).
Proof.
  intros Hge Hms Hmax. unfold deadline_expired, deadline_from.
  replace (try_i64 ttl) with (Some ttl).
  2:{ unfold try_i64, in_i64. rewrite !(proj2 (Z.leb_le _ _)); [done|unfold i64_max in *; lia|
      unfold i64_min in *; lia]. }
  change (default i64_max (Some ttl)) with ttl. unfold datetime_add_seconds.
  by rewrite (proj2 (Z.leb_le _ _) Hms), (proj2 (Z.leb_le _ _) Hmax).
Qed.

Lemma trigger_expired_spec t anchor ttl now :
  (forall n, ttl = Some n -> (0 <= n)%Z /\ (n * 1000 <= i64_max)%Z /\ (anchor + seconds n <= MAX_UTC)%Z) ->
  trigger_expired t anchor ttl now =
    Some (n ← ttl; if (anchor + seconds n <=? now)%Z then Some (t, (anchor + seconds n)%Z) else None).
Proof.
  intros Hn. destruct ttl as [n|]; [|done]. destruct (Hn n eq_refl) as (Hge & Hms & Hmax).
  cbn [trigger_expired]. rewrite deadline_expired_spec by done. simpl. by destruct (_ <=? now)%Z.
Qed.

(** Representable lifetimes never panic, and exactly those past due fire. *)
Lemma expired_deadline_spec s lc now :
  lifetimes_representable s lc ->
  exists r, expired_deadline s lc now = Some r /\
    match r with
    | None => forall t d, deadline_of s lc t = Some d -> (now < d)%Z
    | Some (t, d) => deadline_of s lc t = Some d /\ (d <= now)%Z
    end.
Proof.
  intros [Httl Hd]. unfold expired_deadline. rewrite resolve_last_activity_spec, trigger_expired_spec.
  2:{ intros n E. destruct (Httl n) as [? ?]; [by left|]. split_and!; [done..|].
      apply (Hd MaxLifetime). by simpl; rewrite E. }
  rewrite (trigger_expired_spec IdleTtl).
  2:{ intros n E. destruct (Httl n) as [? ?]; [by right|]. split_and!; [done..|].
      apply (Hd IdleTtl). by simpl; rewrite E. }
  unfold deadline_of. clear Httl Hd.
  destruct (sb_max_lifetime_seconds s) as [n|]; simpl;
    [destruct (Z.leb_spec (sb_created_at s + seconds n) now); [by eexists|]|];
    (destruct (sb_idle_ttl_seconds s) as [k|]; simpl;
      [destruct (Z.leb_spec (last_activity s lc + seconds k) now); [by eexists|]|]);
    eexists; (split; [done|]); by intros [] d; simpl; intros [= <-].
Qed.

Lemma stop_via_job_outcome rt seen s event trace receipt db store :
  match stop_sandbox_via_job shared rt seen s event trace receipt db store with
  | (Ok (Some job), db', _) =>
      job_kind job = JobKind.StopSandbox /\ job_status job = JobStatus.Queued /\
      (row_job <$> jobs db' !! job_id job) = Some job /\
      exists s0, sandboxes (world db) !! sb_id s = Some s0 /\ sb_state s0 ∈ STOP_LEGAL_FROM /\
        sandboxes (world db') =
          <[sb_id s := sandbox_set_state SandboxState.Archiving (utc_now rt) s0]> (sandboxes (world db))
  | (Ok None, db', store') =>
      db' = db /\ store' = store /\
      forall s0, sandboxes (world db) !! sb_id s = Some s0 -> sb_state s0 ∉ STOP_LEGAL_FROM
  | (Err _, db', store') => db' = db /\ store' = store
  end.
Proof.
  unfold stop_sandbox_via_job. destruct (stop_payload _ _ _ _) as [payload|] eqn:Ep; [|done].
  unfold run_tx. destruct (stop_sandbox_tx _ _ _ _ db) as [[[[j ids]|] db']|e] eqn:Es; [| |done].
  - destruct (reclaim_all_ok shared ids db' store) as (handoffs & Edb & _).
    destruct (reclaim_all shared ids db' store) as [db2 store2]. simpl in Edb. subst db2. cbn.
    apply stop_tx_some in Es as (-> & _ & s0 & refs & Hs0 & Hin & Hsb & _ & _ & _ & Hjobs & _).
    rewrite Hjobs, lookup_insert_eq. split_and!; [done..|]. by exists s0.
  - by apply stop_tx_none in Es as [-> ?].
Qed.

Lemma hydrate_id w s : sb_id (hydrate_sandbox_network_egress w s) = sb_id s.
Proof. unfold hydrate_sandbox_network_egress. by destruct (sb_network_egress s). Qed.

(** Reaping one sandbox is exact.  With lifetimes the time library can
    represent, the sweep decides that a sandbox is due exactly when its
    creation plus its maximum lifetime, or its last activity plus its idle
    lifetime, is not after the present.  A sandbox that is not due is left
    alone; one that is reaped goes from a stoppable state to archiving with
    its teardown queued, and no other sandbox changes; one whose stop another
    actor won, or whose stop failed, is left as it is. *)
Theorem reaping_is_exact rt s lc now db store :
  lifetimes_representable s lc ->
  match attempt_reap_candidate datetime_to_value shared rt s lc now db store with
  | None => False
  | Some (NotDue, db', store') =>
      (forall t d, deadline_of s lc t = Some d -> (now < d)%Z) /\ db' = db /\ store' = store
  | Some (Reaped t d, db', _) =>
      deadline_of s lc t = Some d /\ (d <= now)%Z /\
      (exists s0, sandboxes (world db) !! sb_id s = Some s0 /\ sb_state s0 ∈ STOP_LEGAL_FROM /\
         sandboxes (world db') =
           <[sb_id s := sandbox_set_state SandboxState.Archiving (utc_now rt) s0]>
             (sandboxes (world db))) /\
      (exists r, jobs db' !! new_uuid rt 0 = Some r /\
         job_kind (row_job r) = JobKind.StopSandbox /\ job_status (row_job r) = JobStatus.Queued)
  | Some (Skipped, db', store') =>
      (exists t d, deadline_of s lc t = Some d /\ (d <= now)%Z) /\ db' = db /\ store' = store /\
      forall s0, sandboxes (world db) !! sb_id s = Some s0 -> sb_state s0 ∉ STOP_LEGAL_FROM
  | Some (ReapFailed, db', store') =>
      (exists t d, deadline_of s lc t = Some d /\ (d <= now)%Z) /\ db' = db /\ store' = store
  end.
Proof.
  intros Hrep. unfold attempt_reap_candidate.
  destruct (expired_deadline_spec s lc now Hrep) as ([[t d]|] & -> & Hr); [|done].
  pose proof (stop_via_job_outcome rt (world db) (hydrate_sandbox_network_egress (world db) s)
    (reap_event datetime_to_value t d) None None db store) as Hstop.
  rewrite hydrate_id in Hstop.
  destruct (stop_sandbox_via_job _ _ _ _ _ _ _ _ _) as [[[[job|]|e] db'] store'] eqn:Es.
  - destruct Hstop as (Hk & Hq & Hj & Hsb). destruct Hr as [Hd Hle].
    split_and!; [done|done|exact Hsb|]. apply fmap_Some in Hj as (r & Hr' & ->).
    exists r. split_and!; [|done|done]. rewrite <- Hr'. f_equal.
    unfold stop_sandbox_via_job, run_tx in Es. destruct (stop_payload _ _ _ _); [|done].
    destruct (stop_sandbox_tx _ _ _ _ db) as [[[[j ids]|] db1]|] eqn:Et; simplify_eq.
    destruct (reclaim_all _ _ _ _); simplify_eq.
    apply stop_tx_some in Et as [-> _]. done.
  - destruct Hstop as (-> & -> & ?). split_and!; [by exists t, d|done..].
  - destruct Hstop as [-> ->]. split_and!; [by exists t, d|done..].
Qed.

(** What a sweep may have made of a candidate [s]; [final] is its row when
    the sweep ends. *)
Definition candidate_handled (s : Sandbox) (lc : option Z) (now : Z) (o : CandidateOutcome)
    (final : option Sandbox) : Prop :=
  match o with
  | NotDue => (forall t d, deadline_of s lc t = Some d -> (now < d)%Z) /\ final = Some s
  | Reaped t d =>
      deadline_of s lc t = Some d /\ (d <= now)%Z /\
      exists at_, final = Some (sandbox_set_state SandboxState.Archiving at_ s)
  | Skipped => False
  | ReapFailed => (exists t d, deadline_of s lc t = Some d /\ (d <= now)%Z) /\ final = Some s
  end.

(** A candidate whose row is as the sweep read it. *)
Lemma attempt_reap_fresh rt s lc now db store :
  lifetimes_representable s lc -> sandboxes (world db) !! sb_id s = Some s ->
  is_reapable s = true ->
  exists o db' store',
    attempt_reap_candidate datetime_to_value shared rt s lc now db store = Some (o, db', store') /\
    candidate_handled s lc now o (sandboxes (world db') !! sb_id s) /\
    (forall id, id <> sb_id s -> sandboxes (world db') !! id = sandboxes (world db) !! id).
Proof.
  intros Hrep Hs Hreap. unfold attempt_reap_candidate.
  destruct (expired_deadline_spec s lc now Hrep) as ([[t d]|] & -> & Hr);
    [|by exists NotDue, db, store].
  pose proof (stop_via_job_outcome rt (world db) (hydrate_sandbox_network_egress (world db) s)
    (reap_event datetime_to_value t d) None None db store) as Hstop.
  rewrite hydrate_id in Hstop.
  destruct (stop_sandbox_via_job _ _ _ _ _ _ _ _ _) as [[[[job|]|e] db'] store'].
  - destruct Hstop as (_ & _ & _ & s0 & Hs0 & _ & Hsb). rewrite Hs in Hs0. injection Hs0 as <-.
    eexists (Reaped t d), db', store'. split; [done|]. rewrite Hsb. split.
    + rewrite lookup_insert_eq. destruct Hr. simpl. eauto.
    + intros id Hne. by rewrite lookup_insert_ne by done.
  - exfalso. destruct Hstop as (_ & _ & Hno). apply (Hno s Hs), contains_spec.
    by apply andb_true_iff in Hreap as [? _].
  - destruct Hstop as [-> ->]. exists ReapFailed, db, store. simpl. eauto 10.
Qed.

Lemma reap_each_spec rts seen candidates now db store :
  NoDup candidates.*1 ->
  (forall id s, (id, s) ∈ candidates ->
     sb_id s = id /\ sandboxes (world db) !! id = Some s /\ is_reapable s = true /\
     lifetimes_representable s (last_command_at seen id)) ->
  exists outcomes db' store',
    reap_each datetime_to_value shared rts seen candidates now db store = Some (outcomes, db', store') /\
    (forall id, id ∉ candidates.*1 -> sandboxes (world db') !! id = sandboxes (world db) !! id) /\
    (forall id s, (id, s) ∈ candidates -> exists o, (id, o) ∈ outcomes /\
       candidate_handled s (last_command_at seen id) now o (sandboxes (world db') !! id)).
Proof.
  revert rts db store. induction candidates as [|[id s] rest IH]; intros rts db store Hnd Hall.
  { exists [], db, store. split_and!; [done..|]. by intros ?? ?%not_elem_of_nil. }
  cbn [fmap list_fmap fst] in Hnd. apply NoDup_cons in Hnd as [Hfresh Hnd].
  destruct (Hall id s) as (<- & Hs & Hreap & Hrep); [by left|].
  destruct (attempt_reap_fresh (rts 0) s _ now db store Hrep Hs Hreap)
    as (o & db1 & store1 & Eo & Hhandled & Hframe).
  assert (Hrest : forall id' s', (id', s') ∈ rest -> id' <> sb_id s).
  { intros id' s' Hin ->. apply Hfresh. by apply (list_elem_of_fmap_2 fst _ (sb_id s, s')). }
  destruct (IH (fun n => rts (S n)) db1 store1 Hnd) as (outs & db2 & store2 & Er & Hout & Hin').
  { intros id' s' Hin. destruct (Hall id' s') as (? & ? & ? & ?); [by right|].
    split_and!; try done. by rewrite Hframe by (by eapply Hrest). }
  cbn [reap_each]. rewrite Eo, Er. eexists _, _, _. split; [done|]. split.
  - intros id' Hnin. cbn [fmap list_fmap fst] in Hnin. apply not_elem_of_cons in Hnin as [??].
    by rewrite Hout, Hframe.
  - intros id' s' [[= -> ->]|Hin]%elem_of_cons.
    + exists o. split; [by left|]. by rewrite Hout.
    + destruct (Hin' _ _ Hin) as (o' & ? & ?). exists o'. split; [by right|done].
Qed.

Definition reapable_sandboxes (w : World) : list (Uuid * Sandbox) :=
  List.filter (fun ks => is_reapable ks.2) (map_to_list (sandboxes w)).

Lemma elem_of_reapable w id s :
  (id, s) ∈ reapable_sandboxes w <-> sandboxes w !! id = Some s /\ is_reapable s = true.
Proof.
  unfold reapable_sandboxes.
  by rewrite list_elem_of_In, List.filter_In, <- list_elem_of_In, elem_of_map_to_list.
Qed.

Lemma elem_of_reap_candidates w id s :
  (id, s) ∈ reap_candidates w -> (id, s) ∈ reapable_sandboxes w.
Proof.
  intros (i & Hin & _)%elem_of_take. apply list_elem_of_lookup_2 in Hin.
  by rewrite merge_sort_Permutation in Hin.
Qed.

(** Few enough candidates are all looked at. *)
Lemma all_reap_candidates w id s :
  length (reapable_sandboxes w) <= REAP_CANDIDATE_BATCH_SIZE ->
  (id, s) ∈ reapable_sandboxes w -> (id, s) ∈ reap_candidates w.
Proof.
  intros Hlen Hin. unfold reap_candidates. fold (reapable_sandboxes w).
  rewrite take_ge by (by rewrite merge_sort_Permutation). by rewrite merge_sort_Permutation.
Qed.

Lemma reap_candidates_nodup w : NoDup (reap_candidates w).*1.
Proof.
  unfold reap_candidates. fold (reapable_sandboxes w).
  eapply sublist_NoDup; [|apply fmap_sublist, sublist_take]. rewrite merge_sort_Permutation.
  eapply sublist_NoDup; [apply (NoDup_fst_map_to_list (sandboxes w))|]. apply fmap_sublist.
  unfold reapable_sandboxes.
  induction (map_to_list (sandboxes w)) as [|x l IH]; [done|]. simpl.
  destruct (is_reapable x.2); by constructor.
Qed.

(** One sweep deals with every overdue sandbox of a fleet that fits in a
    batch.  When at most a hundred sandboxes are live and have a lifetime,
    and their deadlines are instants of the time library, the sweep ends;
    each of those sandboxes that is past a deadline is archiving afterwards
    unless its stop failed, and every other sandbox of the fleet is exactly
    as it was. *)
Theorem sweep_reaps_every_overdue_sandbox rts now db store :
  (forall id s, sandboxes (world db) !! id = Some s ->
     sb_id s = id /\ lifetimes_representable s (last_command_at (world db) id)) ->
  length (reapable_sandboxes (world db)) <= REAP_CANDIDATE_BATCH_SIZE ->
  exists outcomes db' store',
    reap_expired_active_sandboxes datetime_to_value shared rts now db store = Some (outcomes, db', store') /\
    forall id s, sandboxes (world db) !! id = Some s ->
      (is_reapable s = false -> sandboxes (world db') !! id = Some s) /\
      (is_reapable s = true -> exists o, (id, o) ∈ outcomes /\
         candidate_handled s (last_command_at (world db) id) now o (sandboxes (world db') !! id)).
Proof.
  intros Hrow Hlen. unfold reap_expired_active_sandboxes.
  destruct (reap_each_spec rts (world db) (reap_candidates (world db)) now db store)
    as (outcomes & db' & store' & E & Hout & Hin); [apply reap_candidates_nodup| |].
  { intros id s Hc%elem_of_reap_candidates%elem_of_reapable. destruct Hc as [Hs Hreap].
    destruct (Hrow id s Hs) as [? ?]. done. }
  exists outcomes, db', store'. split; [done|]. intros id s Hs. split; intros Hreap.
  - rewrite Hout; [done|]. intros ([id' s'] & -> & Hc)%list_elem_of_fmap.
    apply elem_of_reap_candidates, elem_of_reapable in Hc as [Hs' Hr']. simpl in Hs, Hs'.
    rewrite Hs in Hs'. injection Hs' as <-. by rewrite Hreap in Hr'.
  - by apply Hin, all_reap_candidates, elem_of_reapable.
Qed.

(** A sweep whose candidates are all not due does nothing. *)
Lemma reap_each_idle rts seen candidates now db store :
  (forall id s, (id, s) ∈ candidates ->
     expired_deadline s (last_command_at seen id) now = Some None) ->
  reap_each datetime_to_value shared rts seen candidates now db store =
    Some ((fun ks => (ks.1, NotDue)) <$> candidates, db, store).
Proof.
  revert rts. induction candidates as [|[id s] rest IH]; intros rts Hall; [done|].
  cbn [reap_each]. unfold attempt_reap_candidate. rewrite (Hall id s) by by left.
  rewrite IH; [done|]. intros id' s' Hin. apply Hall. by right.
Qed.

(** A candidate whose deadline cannot be computed ends the sweep, and the
    task that runs it. *)
Lemma reap_each_panics rts seen candidates id s now db store :
  (id, s) ∈ candidates -> expired_deadline s (last_command_at seen id) now = None ->
  reap_each datetime_to_value shared rts seen candidates now db store = None.
Proof.
  intros Hin Hnone. revert rts db store. induction candidates as [|[id' s'] l IH];
    [by apply not_elem_of_nil in Hin|]. intros rts db store. cbn [reap_each].
  apply elem_of_cons in Hin as [[= <- <-]|Hin].
  - unfold attempt_reap_candidate. by rewrite Hnone.
  - destruct (attempt_reap_candidate _ _ _ _ _ _ _ _) as [[[o db1] store1]|]; [|done].
    by rewrite IH.
Qed.
End ReapLemmas.
