(* ===== verification/Cleanup.v ===== *)
(** * Retention and repair of archived sandboxes

    An operator's cleanup run ends the queued snapshots of archived
    sandboxes, expires snapshots, retires the resources of expired snapshots
    and deletes archived sandboxes whose retention has passed; a background
    loop queues the teardown of archived sandboxes that still have provider
    resources.  All of them work row by row, each row in a transaction of its
    own, over lists read beforehand: between two of their statements any
    other request may commit.

    Sources: [sandboxwich-api/src/cleanup.rs], [util.rs], [reconcile.rs] and
    [handlers/snapshots.rs]. *)

From S2P Require Import Prelude CoreTypes Json Store Leases SandboxLifecycle Queue World CommandOutput.
From S2P Require Import RuntimeResources Snapshots Effects SandboxStop.
From stdpp Require Import sorting relations.

(** ** Sweeps

    A sweep is a sequence of statements and transactions on the pool.  The
    [n]-th of them runs on the tables as [others n] left them, with the clock
    and identifiers of [rts n].  An error keeps what was committed; [None] is
    a panic. *)

Definition Sweep (A : Type) : Type := nat * Db World -> option (result A ApiError * (nat * Db World)).

Definition sweep_ret {A} (a : A) : Sweep A := fun st => Some (Ok a, st).
Definition sweep_throw {A} (e : ApiError) : Sweep A := fun st => Some (Err e, st).
Definition sweep_panic {A} : Sweep A := fun _ => None.

Definition sweep_bind {A B} (m : Sweep A) (k : A -> Sweep B) : Sweep B :=
  fun st => match m st with
            | None => None
            | Some (Err e, st') => Some (Err e, st')
            | Some (Ok a, st') => k a st'
            end.

(** [match m.await { Ok(..) => .., Err(..) => .. }]. *)
Definition sweep_catch {A} (m : Sweep A) : Sweep (result A ApiError) :=
  fun st => match m st with
            | None => None
            | Some (r, st') => Some (Ok r, st')
            end.

Definition sweep_lift {A} (r : option (result A ApiError)) : Sweep A :=
  match r with
  | None => sweep_panic
  | Some (Ok a) => sweep_ret a
  | Some (Err e) => sweep_throw e
  end.

Notation "'let*' x ':=' m 'in' k" := (sweep_bind m (fun x => k))
  (at level 10, x pattern, m at level 100, k at level 200) : rust_scope.

(** ** Retention: [util.rs] *)

Section Retention.
Context `{ChronoLib}.

(** [expires_at_from_ttl]: an error above [i64], a panic past the last
    instant. *)
Definition expires_at_from_ttl (now : Z) (ttl_seconds : option Z) : option (result (option Z) ApiError) :=
  match ttl_seconds with
  | None => Some (Ok None)
  | Some ttl =>
      match try_i64 ttl with
      | None => Some (Err (bad_request "ttl_seconds is too large"))
      | Some n => (fun t => Ok (Some t)) <$> datetime_add_seconds now n
      end
  end.
End Retention.

Definition count_to_i64 (count : Z) : result Z ApiError :=
  match try_i64 count with
  | Some n => Ok n
  | None => Err (internal "cleanup count is too large")
  end.

(** ** References *)

(** [status in ('pending', 'ready')]. *)
Definition is_restorable_status (s : SnapshotStatus) : bool :=
  match s with SnapshotStatus.Pending | SnapshotStatus.Ready => true | _ => false end.

(** A sandbox forked from one of its snapshots. *)
Definition has_child (w : World) (sandbox_id : Uuid) : bool :=
  existsb (fun kn =>
      bool_decide (sn_sandbox_id kn.2 = sandbox_id)
      && existsb (fun ks => bool_decide (sb_parent_snapshot_id ks.2 = Some kn.1))
           (map_to_list (sandboxes w)))
    (map_to_list (snapshots w)).

(** A restore source that can still be forked. *)
Definition is_live_source (sandbox_id : Uuid) (now : Z) (r : RestoreSourceRow) : bool :=
  bool_decide (rs_source_sandbox_id r = sandbox_id) && is_restorable_status (rs_status r)
  && match rs_expires_at r with None => true | Some t => (now <? t)%Z end.

(** [sandbox_snapshot_is_referenced_on_connection]. *)
Definition sandbox_snapshot_is_referenced (w : World) (sandbox_id : Uuid) (now : Z) : bool :=
  has_child w sandbox_id
  || existsb (fun kr => is_live_source sandbox_id now kr.2) (map_to_list (snapshot_restore_sources w)).

(** ** Resources of a sandbox: [reconcile.rs] *)

(** [order by provider, namespace, resource_kind, purpose, resource_name]. *)
Definition resource_columns (r : RuntimeResource) : list string :=
  [rr_provider r; rr_namespace r; as_db_str (rr_resource_kind r); as_db_str (rr_purpose r);
   rr_resource_name r].

Fixpoint columns_leb (a b : list string) : bool :=
  match a, b with
  | [], _ => true
  | _, [] => false
  | x :: a', y :: b' => if String.eqb x y then columns_leb a' b' else bool_decide (String.le x y)
  end.

Definition resource_columns_le (a b : Uuid * RuntimeResource) : Prop :=
  columns_leb (resource_columns a.2) (resource_columns b.2) = true.
#[export] Instance resource_columns_le_dec : RelDecision resource_columns_le.
Proof. intros a b. unfold resource_columns_le. apply _. Defined.

(** [list_runtime_resources_for_sandbox_on_connection]. *)
Definition list_runtime_resources_for_sandbox (w : World) (sandbox_id : Uuid) :
    list (Uuid * RuntimeResource) :=
  merge_sort resource_columns_le
    (List.filter (fun kr => bool_decide (rr_sandbox_id kr.2 = sandbox_id))
       (map_to_list (runtime_resources w))).

(** [order by updated_at asc, id asc]. *)
Definition resource_age_le (a b : Uuid * RuntimeResource) : Prop :=
  (rr_updated_at a.2 < rr_updated_at b.2)%Z \/
  (rr_updated_at a.2 = rr_updated_at b.2 /\ (a.1 <= b.1)%N).
#[export] Instance resource_age_le_dec : RelDecision resource_age_le.
Proof. intros a b. unfold resource_age_le. apply _. Defined.

(** The rows that [mark_runtime_resources_deleted_for_sandbox_on_connection]
    reads back. *)
Definition was_retired (sandbox_id : Uuid) (g : RuntimeResourceGeneration) (deleted_at : Z)
    (row : RuntimeResource) : bool :=
  bool_decide (rr_sandbox_id row = sandbox_id)
  && bool_decide (rr_status row = RuntimeResourceStatus.Destroyed)
  && bool_decide (rr_deleted_at row = Some deleted_at) && in_generation g row.

Definition retire_and_list (sandbox_id : Uuid) (g : RuntimeResourceGeneration) (deleted_at : Z)
    (error : string) : Tx World (list (Uuid * RuntimeResource)) :=
  let! before := get_world in
  let! _ := mark_runtime_resources_deleted_for_sandbox_on_connection sandbox_id g deleted_at error in
  if negb (existsb (fun kr => is_live_resource_of sandbox_id g kr.2)
             (map_to_list (runtime_resources before)))
  then tx_ret []
  else
    let! w := get_world in
    tx_ret (merge_sort resource_age_le
              (List.filter (fun kr => was_retired sandbox_id g deleted_at kr.2)
                 (map_to_list (runtime_resources w)))).

(** The [on conflict] clause of a tombstone: only these columns change. *)
Definition tombstone_refresh (new old : RuntimeResource) : RuntimeResource :=
  mkRuntimeResource (rr_sandbox_id old) (rr_snapshot_id old) (rr_provider old)
    (rr_resource_kind old) (rr_purpose old) (rr_resource_name old) (rr_namespace old)
    (rr_status new) (rr_cluster old) (rr_storage_class old) (rr_snapshot_class old)
    (rr_storage_size old) (rr_runtime_image old) (rr_service_port old) (rr_target_port old)
    (rr_source_snapshot_id old) (rr_created_at old) (rr_updated_at new) (rr_observed_at old)
    (rr_last_reconciled_at new) (rr_ready_at old) (rr_deleted_at new) (rr_error new).

(** [insert_runtime_resource_tombstone_on_connection]. *)
Definition insert_tombstone (id : Uuid) (r : RuntimeResource) (now : Z) (w : World) : World :=
  set_runtime_resource_tombstones
    (<[id := mkTombstone match runtime_resource_tombstones w !! id with
                         | None => r
                         | Some old => tombstone_refresh r (ts_resource old)
                         end now]> (runtime_resource_tombstones w)) w.

Fixpoint insert_tombstones (resources : list (Uuid * RuntimeResource)) (now : Z) : Tx World unit :=
  match resources with
  | [] => tx_ret tt
  | (id, r) :: rest =>
      let! _ := modify_world (insert_tombstone id r now) in
      insert_tombstones rest now
  end.

(** ** Deleting a sandbox

    [delete from sandboxes] with the foreign keys of the schema: rows of
    tables declared [on delete cascade] go with the row they reference, a
    resource elsewhere that names a deleted snapshot as its source forgets
    it, and a pool membership ([on delete restrict]) refuses the deletion. *)

Definition resource_forget_source (gone : Uuid -> bool) (r : RuntimeResource) : RuntimeResource :=
  mkRuntimeResource (rr_sandbox_id r) (rr_snapshot_id r) (rr_provider r) (rr_resource_kind r)
    (rr_purpose r) (rr_resource_name r) (rr_namespace r) (rr_status r) (rr_cluster r)
    (rr_storage_class r) (rr_snapshot_class r) (rr_storage_size r) (rr_runtime_image r)
    (rr_service_port r) (rr_target_port r)
    match rr_source_snapshot_id r with
    | Some s => if gone s then None else Some s
    | None => None
    end
    (rr_created_at r) (rr_updated_at r) (rr_observed_at r) (rr_last_reconciled_at r) (rr_ready_at r)
    (rr_deleted_at r) (rr_error r).

(** Whether a key names a row that satisfies [p]. *)
Definition row_is {K A} `{Countable K} (m : gmap K A) (p : A -> bool) (k : K) : bool :=
  match m !! k with Some r => p r | None => false end.

(** [delete ... where p]. *)
Definition delete_rows {K A} `{Countable K} (p : K -> A -> bool) (m : gmap K A) : gmap K A :=
  map_imap (fun k r => if p k r then None else Some r) m.

Definition cascade_world (id : Uuid) (process_gone : Uuid -> bool) (w : World) : World :=
  let command_gone := row_is (commands w) (fun c => bool_decide (cmd_sandbox_id c = id)) in
  let snapshot_gone := row_is (snapshots w) (fun r => bool_decide (sn_sandbox_id r = id)) in
  let resource_gone (r : RuntimeResource) :=
    bool_decide (rr_sandbox_id r = id)
    || match rr_snapshot_id r with Some s => snapshot_gone s | None => false end in
  mkWorld
    (delete id (sandboxes w))
    (List.filter (fun r => negb (bool_decide (r.1 = id))) (sandbox_network_egress_rules w))
    (List.filter (fun r => negb (bool_decide (r.1 = id))) (sandbox_secret_bindings w))
    (List.filter (fun e => negb (bool_decide (ev_sandbox_id e.2 = id))) (sandbox_events w))
    (delete_rows (fun _ c => bool_decide (cmd_sandbox_id c = id)) (commands w))
    (List.filter (fun k => negb (command_gone (chunk_command_id k))) (command_output_chunks w))
    (delete_rows (fun _ r => bool_decide (sn_sandbox_id r = id)) (snapshots w))
    (snapshot_restore_sources w)
    (delete_rows (fun _ f => bool_decide (file_sandbox_id f = id)) (sandbox_files w))
    (resource_forget_source snapshot_gone <$> delete_rows (fun _ => resource_gone) (runtime_resources w))
    (homes w)
    (delete id (sandbox_home_mounts w))
    (apex_instruction_reads w)
    (sterile_pool_memberships w)
    (List.filter (fun r => negb (bool_decide (str_sandbox_id r = id))) (provisioning_operation_resources w))
    (delete_rows (fun _ c => bool_decide (cr_sandbox_id c = id)) (guest_tokens w))
    (delete_rows (fun _ c => bool_decide (cr_sandbox_id c = id)) (desktop_access_credentials w))
    (delete id (provisioning_operations w))
    (provisioning_stage_observations w)
    (delete id (guest_health w))
    (sterile_cell_claims w)
    (sidecar_bootstrap_block_rollups w)
    (delete_rows (fun p _ => process_gone p) (resident_bootstrap_handoffs w))
    (delete_rows (fun _ a => bool_decide (at_sandbox_id a = id) || process_gone (at_process_id a))
       (resident_placement_attestations w))
    (delete_rows (fun _ v => bool_decide (av_sandbox_id v = id)) (maestro_activation_validations w))
    (runtime_resource_tombstones w)
    (cleanup_runs w).

Definition cascade (id : Uuid) (db : Db World) : Db World :=
  let process_gone := row_is (resident_processes db) (fun p => bool_decide (rp_sandbox_id p = id)) in
  set_sandbox_placements (delete id (sandbox_placements db))
    (set_resident_processes (delete_rows (fun _ p => bool_decide (rp_sandbox_id p = id)) (resident_processes db))
       (set_world (cascade_world id process_gone (world db)) db)).

(** [delete from sandboxes where id = .. and state = 'archived'], and whether
    a row was affected. *)
Definition delete_archived (id : Uuid) : Tx World bool :=
  let! db := tx_get in
  match sandboxes (world db) !! id with
  | Some s =>
      if negb (bool_decide (sb_state s = SandboxState.Archived)) then tx_ret false
      else
        check! is_none (sterile_pool_memberships (world db) !! id) else foreign_key_error in
        let! _ := tx_modify (cascade id) in
        tx_ret true
  | None => tx_ret false
  end.

Inductive CleanupOutcome : Type :=
| CleanupDeleted (resources : list (Uuid * RuntimeResource))
| CleanupReferenced
| CleanupNotFound.

(** Retires the resources of a sandbox and writes the tombstones of all of
    them, those that were torn down earlier included. *)
Definition bury_resources (id : Uuid) (now : Z) : Tx World (list (Uuid * RuntimeResource)) :=
  let! w := get_world in
  let deleted := List.filter (fun kr => is_torn_down (rr_status kr.2)) (list_runtime_resources_for_sandbox w id) in
  let! newly := retire_and_list id AllGenerations now "archived sandbox deleted during cleanup" in
  let! _ := insert_tombstones (deleted ++ newly) now in
  tx_ret (deleted ++ newly).

(** The transaction of one sandbox.  [Referenced] and [NotFound] roll back:
    here they are what [cleanup_commits] says not to keep. *)
Definition cleanup_archived_tx (rt : Runtime) (id : Uuid) (now : Z) : Tx World CleanupOutcome :=
  let! resources := bury_resources id now in
  let! w := get_world in
  if sandbox_snapshot_is_referenced w id (utc_now rt) then tx_ret CleanupReferenced
  else
    let! affected := delete_archived id in
    tx_ret (if (affected : bool) then CleanupDeleted resources else CleanupNotFound).

Definition cleanup_commits (o : CleanupOutcome) : bool :=
  match o with CleanupDeleted _ => true | _ => false end.

(** ** The archived sandboxes *)

Definition ARCHIVED_SANDBOX_CLEANUP_BATCH_SIZE : nat := 100.

(** [order by updated_at asc, id asc]. *)
Definition sandbox_idle_le (a b : Uuid * Sandbox) : Prop :=
  (sb_updated_at a.2 < sb_updated_at b.2)%Z \/
  (sb_updated_at a.2 = sb_updated_at b.2 /\ (a.1 <= b.1)%N).
#[export] Instance sandbox_idle_le_dec : RelDecision sandbox_idle_le.
Proof. intros a b. unfold sandbox_idle_le. apply _. Defined.

Definition is_retained (s : Sandbox) : bool :=
  bool_decide (sb_state s = SandboxState.Archived) && is_some (sb_ttl_seconds s).

Definition archived_batch (w : World) : list (Uuid * Sandbox) :=
  take ARCHIVED_SANDBOX_CLEANUP_BATCH_SIZE
    (merge_sort sandbox_idle_le (List.filter (fun ks => is_retained ks.2) (map_to_list (sandboxes w)))).

Record ArchivedSandboxCleanupResult : Type := mkArchivedCleanup {
  ac_deleted : list (Uuid * Sandbox);
  ac_skipped : list (Uuid * Sandbox);
  ac_runtime_resources_deleted : list (Uuid * RuntimeResource)
}.

Definition archived_none : ArchivedSandboxCleanupResult := mkArchivedCleanup [] [] [].

Section Sweeps.
Context `{UuidLib} `{SerdeLib} `{ChronoLib} (rts : nat -> Runtime) (others : nat -> Db World -> Db World).

(** A read on the pool. *)
Definition pool_read {A} (f : Runtime -> Db World -> A) : Sweep A :=
  fun '(n, db) => let db := others n db in Some (Ok (f (rts n) db), (S n, db)).

(** A transaction on the pool whose result says whether it is committed. *)
Definition pool_tx_if {A} (commits : A -> bool) (m : Runtime -> Tx World A) : Sweep A :=
  fun '(n, db) =>
    let db := others n db in
    Some match m (rts n) db with
         | Ok (a, db') => (Ok a, (S n, if commits a then db' else db))
         | Err e => (Err e, (S n, db))
         end.

Definition pool_tx {A} (m : Runtime -> Tx World A) : Sweep A := pool_tx_if (fun _ => true) m.

Definition is_due (expires_at : option Z) (now : Z) : bool :=
  match expires_at with Some t => (t <=? now)%Z | None => true end.

Fixpoint cleanup_each (rows : list (Uuid * Sandbox)) (now : Z) : Sweep ArchivedSandboxCleanupResult :=
  match rows with
  | [] => sweep_ret archived_none
  | (id, s) :: rest =>
      let* expires_at := sweep_lift (expires_at_from_ttl (sb_updated_at s) (sb_ttl_seconds s)) in
      if negb (is_due expires_at now) then cleanup_each rest now
      else
        let* referenced := pool_read (fun rt db => sandbox_snapshot_is_referenced (world db) id (utc_now rt)) in
        if (referenced : bool) then
          let* r := cleanup_each rest now in
          sweep_ret (mkArchivedCleanup (ac_deleted r) ((id, s) :: ac_skipped r)
                       (ac_runtime_resources_deleted r))
        else
          let* outcome := pool_tx_if cleanup_commits (fun rt => cleanup_archived_tx rt id now) in
          let* r := cleanup_each rest now in
          sweep_ret
            match outcome with
            | CleanupDeleted resources =>
                mkArchivedCleanup ((id, s) :: ac_deleted r) (ac_skipped r)
                  (resources ++ ac_runtime_resources_deleted r)
            | CleanupReferenced =>
                mkArchivedCleanup (ac_deleted r) ((id, s) :: ac_skipped r) (ac_runtime_resources_deleted r)
            | CleanupNotFound => r
            end
  end.

(** [cleanup_archived_sandboxes]. *)
Definition cleanup_archived_sandboxes : Sweep ArchivedSandboxCleanupResult :=
  let* (rows, now) := pool_read (fun rt db => (archived_batch (world db), utc_now rt)) in
  cleanup_each rows now.

(** ** Snapshots: [handlers/snapshots.rs] *)

(** The rows [expire_due_snapshots] reads, [order by expires_at asc, id asc]. *)
Definition snapshot_expiry_le (a b : Uuid * SnapshotRow) : Prop :=
  (default 0%Z (sn_expires_at a.2) < default 0%Z (sn_expires_at b.2))%Z \/
  (default 0%Z (sn_expires_at a.2) = default 0%Z (sn_expires_at b.2) /\ (a.1 <= b.1)%N).
#[local] Instance snapshot_expiry_le_dec : RelDecision snapshot_expiry_le.
Proof. intros a b. unfold snapshot_expiry_le. apply _. Defined.

Definition is_expirable (r : SnapshotRow) : bool :=
  is_restorable_status (sn_status r) && is_some (sn_expires_at r).

Definition expirable_snapshots (w : World) : list (Uuid * SnapshotRow) :=
  merge_sort snapshot_expiry_le
    (List.filter (fun kr => is_expirable kr.2) (map_to_list (snapshots w))).

(** The guard of [expire_active_snapshot_on_connection]. *)
Definition snapshot_is_due (now : Z) (r : SnapshotRow) : bool :=
  is_restorable_status (sn_status r)
  && match sn_expires_at r with Some t => (t <=? now)%Z | None => false end.

Definition expire_active_snapshot_on_connection (snapshot_id : Uuid) (now : Z) : Tx World bool :=
  let! w := get_world in
  let '(affected, m) :=
    update_row snapshot_id (snapshot_is_due now) (snapshot_set_status SnapshotStatus.Expired None)
      (snapshots w) in
  if affected then
    let! _ := modify_world (set_snapshots m) in
    let! _ := modify_world (update_restore_source snapshot_id SnapshotStatus.Expired) in
    tx_ret true
  else tx_ret false.

(** [fetch_snapshot_on_connection]. *)
Definition fetch_snapshot (w : World) (snapshot_id : Uuid) : result SnapshotRow ApiError :=
  match snapshots w !! snapshot_id with
  | Some r => Ok r
  | None => Err (not_found "snapshot not found")
  end.

(** The transaction of one due snapshot. *)
Definition expire_snapshot_tx (rt : Runtime) (snapshot_id : Uuid) (now : Z) :
    Tx World (option (Uuid * SnapshotRow)) :=
  let! won := expire_active_snapshot_on_connection snapshot_id now in
  if negb won then tx_ret None
  else
    let! _ := dead_queued_snapshot_jobs_on_connection snapshot_id "snapshot expired" (utc_now rt) in
    let! _ := fail_sandboxes_waiting_on_snapshot_on_connection rt 1 snapshot_id "snapshot_expired"
                "snapshot expired" in
    let! w := get_world in
    let! expired := tx_lift (fetch_snapshot w snapshot_id) in
    let! _ := insert_event_on_connection rt 0 (sn_sandbox_id expired) SandboxEventKind.LifecycleChanged
                (JObject [("reason", JString "snapshot_expired");
                          ("snapshotId", json_uuid snapshot_id);
                          ("snapshotStatus", JString (as_db_str (sn_status expired)))]) in
    tx_ret (Some (snapshot_id, expired)).

Fixpoint expire_snapshots_each (rows : list (Uuid * SnapshotRow)) (now : Z) : Sweep (list (Uuid * SnapshotRow)) :=
  match rows with
  | [] => sweep_ret []
  | (id, r) :: rest =>
      match sn_expires_at r with
      | None => expire_snapshots_each rest now
      | Some expires_at =>
          if (now <? expires_at)%Z then expire_snapshots_each rest now
          else
            let* expired := pool_tx (fun rt => expire_snapshot_tx rt id now) in
            let* more := expire_snapshots_each rest now in
            sweep_ret (match expired with Some e => e :: more | None => more end)
      end
  end.

(** [expire_due_snapshots]. *)
Definition expire_due_snapshots : Sweep (list (Uuid * SnapshotRow)) :=
  let* (rows, now) := pool_read (fun rt db => (expirable_snapshots (world db), utc_now rt)) in
  expire_snapshots_each rows now.

(** *** Queued snapshot jobs of archived sandboxes *)

Definition ARCHIVED_SNAPSHOT_JOB_TERMINALIZATION_BATCH_SIZE : nat := 100.

(** [order by jobs.created_at asc, jobs.id asc]. *)
Definition job_age_le (a b : Uuid * (Job * Uuid * Uuid)) : Prop :=
  (created_at a.2.1.1 < created_at b.2.1.1)%Z \/
  (created_at a.2.1.1 = created_at b.2.1.1 /\ (a.1 <= b.1)%N).
#[local] Instance job_age_le_dec : RelDecision job_age_le.
Proof. intros a b. unfold job_age_le. apply _. Defined.

(** A queued snapshot job joined with its snapshot and the sandbox of that,
    when the sandbox is being torn down: the job, the snapshot's identifier
    and the sandbox's. *)
Definition stranded_snapshot_job (db : Db World) (kr : Uuid * JobRow) :
    option (Uuid * (Job * Uuid * Uuid)) :=
  let '(id, row) := kr in
  if bool_decide (job_kind (row_job row) = JobKind.CreateSnapshot) && is_queued row then
    snapshot_id ← ref_snapshot_id (row_references row);
    snapshot ← snapshots (world db) !! snapshot_id;
    source ← sandboxes (world db) !! sn_sandbox_id snapshot;
    if is_archived_state (sb_state source)
    then Some (id, (row_job row, snapshot_id, sn_sandbox_id snapshot)) else None
  else None.

Definition stranded_snapshot_jobs (db : Db World) : list (Uuid * (Job * Uuid * Uuid)) :=
  take ARCHIVED_SNAPSHOT_JOB_TERMINALIZATION_BATCH_SIZE
    (merge_sort job_age_le (omap (stranded_snapshot_job db) (map_to_list (jobs db)))).

(** [payload.pointer("/operation/kind")] names a fork: an intended restore. *)
Definition is_fork_operation (payload : Json) : bool :=
  bool_decide (get_str (index payload "operation") "kind" = Some "fork_sandbox").

Definition terminalize_tx (rt : Runtime) (snapshot_id sandbox_id : Uuid) : Tx World nat :=
  let error := "snapshot source sandbox archived before claim" in
  let! ended := dead_queued_snapshot_jobs_on_connection snapshot_id error (utc_now rt) in
  if bool_decide (ended = 0) then tx_ret 0
  else
    let! failed := fail_pending_snapshot_on_connection snapshot_id error in
    let! _ := if (failed : bool)
              then fail_sandboxes_waiting_on_snapshot_on_connection rt 1 snapshot_id
                     "snapshot_source_sandbox_archived" error
              else tx_ret tt in
    let! w := get_world in
    let! snapshot := tx_lift (fetch_snapshot w snapshot_id) in
    let! _ := insert_event_on_connection rt 0 sandbox_id SandboxEventKind.LifecycleChanged
                (JObject [("reason", JString "snapshot_job_terminalized_source_archived");
                          ("snapshotId", json_uuid snapshot_id);
                          ("snapshotStatus", JString (as_db_str (sn_status snapshot)));
                          ("jobCount", JNumber (PosInt (Z.of_nat ended)))]) in
    tx_ret ended.

Fixpoint terminalize_each (rows : list (Uuid * (Job * Uuid * Uuid))) : Sweep nat :=
  match rows with
  | [] => sweep_ret 0
  | (_, (job, snapshot_id, sandbox_id)) :: rest =>
      if is_fork_operation (job_payload job) then terminalize_each rest
      else
        let* ended := pool_tx (fun rt => terminalize_tx rt snapshot_id sandbox_id) in
        let* more := terminalize_each rest in
        sweep_ret (ended + more)
  end.

(** [terminalize_queued_snapshot_jobs_for_archived_sandboxes]. *)
Definition terminalize_queued_snapshot_jobs_for_archived_sandboxes : Sweep nat :=
  let* rows := pool_read (fun _ db => stranded_snapshot_jobs db) in
  terminalize_each rows.

(** *** Resources of expired snapshots *)

Definition resource_set_deleted (deleted_at : Z) (error : string) (row : RuntimeResource) :
    RuntimeResource :=
  mkRuntimeResource (rr_sandbox_id row) (rr_snapshot_id row) (rr_provider row)
    (rr_resource_kind row) (rr_purpose row) (rr_resource_name row) (rr_namespace row)
    RuntimeResourceStatus.Deleted (rr_cluster row) (rr_storage_class row)
    (rr_snapshot_class row) (rr_storage_size row) (rr_runtime_image row) (rr_service_port row)
    (rr_target_port row) (rr_source_snapshot_id row) (rr_created_at row) deleted_at
    (rr_observed_at row) (Some deleted_at) (rr_ready_at row) (Some deleted_at) (Some error).

(** [mark_runtime_resource_deleted]: an update and a read of the row, each on
    the pool. *)
Definition mark_runtime_resource_deleted (id : Uuid) (error : string) : Sweep (Uuid * RuntimeResource) :=
  let* _ := pool_tx (fun rt =>
    let! w := get_world in
    match runtime_resources w !! id with
    | None => tx_throw (not_found "runtime resource not found")
    | Some r =>
        modify_world (set_runtime_resources
          (<[id := resource_set_deleted (utc_now rt) error r]> (runtime_resources w)))
    end) in
  let* row := pool_read (fun _ db => runtime_resources (world db) !! id) in
  match row with
  | None => sweep_throw (not_found "runtime resource not found")
  | Some r => sweep_ret (id, r)
  end.

Definition is_expired_snapshot_resource (w : World) (r : RuntimeResource) : bool :=
  negb (is_torn_down (rr_status r))
  && match rr_snapshot_id r with
     | Some s => row_is (snapshots w) (fun n => bool_decide (sn_status n = SnapshotStatus.Expired)) s
     | None => false
     end.

Definition expired_snapshot_resources (w : World) : list (Uuid * RuntimeResource) :=
  merge_sort resource_age_le
    (List.filter (fun kr => is_expired_snapshot_resource w kr.2) (map_to_list (runtime_resources w))).

Fixpoint mark_each_deleted (rows : list (Uuid * RuntimeResource)) : Sweep (list (Uuid * RuntimeResource)) :=
  match rows with
  | [] => sweep_ret []
  | (id, _) :: rest =>
      let* r := mark_runtime_resource_deleted id "snapshot expired during cleanup" in
      let* more := mark_each_deleted rest in
      sweep_ret (r :: more)
  end.

(** [cleanup_runtime_resources_for_expired_snapshots]. *)
Definition cleanup_runtime_resources_for_expired_snapshots : Sweep (list (Uuid * RuntimeResource)) :=
  let* rows := pool_read (fun _ db => expired_snapshot_resources (world db)) in
  mark_each_deleted rows.

(** ** The cleanup run *)

(** [format!("{error:?}")] of an error. *)
Context (error_debug : ApiError -> string).

(** [insert_cleanup_run]. *)
Definition insert_cleanup_run (id : Uuid) (run : CleanupRun) : Tx World unit :=
  let! _ := tx_lift (count_to_i64 (cl_expired_snapshots run)) in
  let! _ := tx_lift (count_to_i64 (cl_archived_sandboxes_deleted run)) in
  let! _ := tx_lift (count_to_i64 (cl_archived_sandboxes_skipped run)) in
  let! _ := tx_lift (count_to_i64 (cl_runtime_resources_deleted run)) in
  let! w := get_world in
  check! is_none (cleanup_runs w !! id) else api_error_of_db_error UniqueViolation in
  modify_world (set_cleanup_runs (<[id := run]> (cleanup_runs w))).

(** [set status, finished_at, the counts and error]: [started_at] stays. *)
Definition cleanup_run_update (new old : CleanupRun) : CleanupRun :=
  mkCleanupRun (cl_status new) (cl_started_at old) (cl_finished_at new) (cl_expired_snapshots new)
    (cl_archived_sandboxes_deleted new) (cl_archived_sandboxes_skipped new)
    (cl_runtime_resources_deleted new) (cl_error new).

(** [update_cleanup_run]. *)
Definition update_cleanup_run (id : Uuid) (run : CleanupRun) : Tx World unit :=
  let! _ := tx_lift (count_to_i64 (cl_expired_snapshots run)) in
  let! _ := tx_lift (count_to_i64 (cl_archived_sandboxes_deleted run)) in
  let! _ := tx_lift (count_to_i64 (cl_archived_sandboxes_skipped run)) in
  let! _ := tx_lift (count_to_i64 (cl_runtime_resources_deleted run)) in
  let! w := get_world in
  match cleanup_runs w !! id with
  | None => tx_throw (not_found "cleanup run not found")
  | Some old => modify_world (set_cleanup_runs (<[id := cleanup_run_update run old]> (cleanup_runs w)))
  end.

Record CleanupControllerReport : Type := mkCleanupReport {
  cr_run : CleanupRun;
  cr_expired : list (Uuid * SnapshotRow);
  cr_archived : ArchivedSandboxCleanupResult;
  cr_resources_deleted : list (Uuid * RuntimeResource)
}.

Definition running_cleanup (started_at : Z) : CleanupRun :=
  mkCleanupRun CleanupRunStatus.Running started_at None 0 0 0 0 None.

(** [mark_cleanup_run_failed]; an error of its own is only logged. *)
Definition mark_cleanup_run_failed (id : Uuid) (started_at expired runtime : Z) (error : ApiError) :
    Sweep unit :=
  let* _ := sweep_catch (pool_tx (fun rt => update_cleanup_run id
              (mkCleanupRun CleanupRunStatus.Failed started_at (Some (utc_now rt)) expired 0 0 runtime
                 (Some (error_debug error))))) in
  sweep_ret tt.

(** A stage of the run: its error fails the run with the counts so far. *)
Definition cleanup_stage {A} (id : Uuid) (started_at expired runtime : Z) (m : Sweep A) : Sweep A :=
  let* r := sweep_catch m in
  match r with
  | Ok a => sweep_ret a
  | Err e =>
      let* _ := mark_cleanup_run_failed id started_at expired runtime e in
      sweep_throw e
  end.

(** [run_cleanup_controller]. *)
Definition run_cleanup_controller : Sweep CleanupControllerReport :=
  let* (id, started_at) := pool_tx (fun rt =>
    let! _ := insert_cleanup_run (new_uuid rt 0) (running_cleanup (utc_now rt)) in
    tx_ret (new_uuid rt 0, utc_now rt)) in
  let* _ := cleanup_stage id started_at 0 0 terminalize_queued_snapshot_jobs_for_archived_sandboxes in
  let* expired := cleanup_stage id started_at 0 0 expire_due_snapshots in
  let expired_count := Z.of_nat (length expired) in
  let* resources := cleanup_stage id started_at expired_count 0
                      cleanup_runtime_resources_for_expired_snapshots in
  let* archived := cleanup_stage id started_at expired_count (Z.of_nat (length resources))
                     cleanup_archived_sandboxes in
  let resources := resources ++ ac_runtime_resources_deleted archived in
  let* run := pool_tx (fun rt =>
    let run := mkCleanupRun CleanupRunStatus.Succeeded started_at (Some (utc_now rt)) expired_count
                 (Z.of_nat (length (ac_deleted archived))) (Z.of_nat (length (ac_skipped archived)))
                 (Z.of_nat (length resources)) None in
    let! _ := update_cleanup_run id run in
    tx_ret run) in
  sweep_ret (mkCleanupReport run expired archived resources).

(** ** Repair: [reconcile_archived_runtime_resources] *)

Definition ARCHIVED_RUNTIME_RECONCILIATION_BATCH_SIZE : nat := 100.

Definition has_active_stop (db : Db World) (sandbox_id : Uuid) : bool :=
  existsb (fun kr => is_active_stop sandbox_id kr.2) (map_to_list (jobs db)).

(** A failed [stop_sandbox] of the sandbox. *)
Definition is_failed_stop (sandbox_id : Uuid) (row : JobRow) : bool :=
  bool_decide (ref_sandbox_id (row_references row) = Some sandbox_id)
  && bool_decide (job_kind (row_job row) = JobKind.StopSandbox)
  && bool_decide (job_status (row_job row) = JobStatus.Failed).

Definition has_live_runtime (w : World) (sandbox_id : Uuid) : bool :=
  existsb (fun kr => is_live_resource_of sandbox_id RuntimeOnly kr.2) (map_to_list (runtime_resources w)).

(** The [where] clause of the candidates. *)
Definition is_stranded (db : Db World) (id : Uuid) (s : Sandbox) : bool :=
  (bool_decide (sb_state s = SandboxState.Archived) && has_live_runtime (world db) id
   || bool_decide (sb_state s = SandboxState.Archiving)
      && existsb (fun kr => is_failed_stop id kr.2) (map_to_list (jobs db)))
  && negb (has_active_stop db id).

Definition by_id (a b : Uuid) : Prop := (a <= b)%N.
#[local] Instance by_id_dec : RelDecision by_id.
Proof. intros a b. unfold by_id. apply _. Defined.

Definition stranded_sandboxes (db : Db World) : list Uuid :=
  take ARCHIVED_RUNTIME_RECONCILIATION_BATCH_SIZE
    (merge_sort by_id
       (List.filter (fun ks => is_stranded db ks.1 ks.2) (map_to_list (sandboxes (world db)))).*1).

(** The transaction of one candidate: whether a teardown was queued. *)
Definition repair_tx (rt : Runtime) (id : Uuid) : Tx World bool :=
  let! w := get_world in
  match fetch_sandbox w id with
  | Err _ => tx_ret false
  | Ok s =>
      if negb (is_archived_state (sb_state s)) then tx_ret false
      else if bool_decide (sb_state s = SandboxState.Archived) && negb (has_live_runtime w id) then
        tx_ret false
      else
        enqueue_archived_runtime_cleanup_on_connection rt 0 s JNull
          (if bool_decide (sb_state s = SandboxState.Archiving) then "failed_stop_reconciliation"
           else "archived_runtime_reconciliation")
  end.

Fixpoint repair_each (rows : list Uuid) : Sweep nat :=
  match rows with
  | [] => sweep_ret 0
  | id :: rest =>
      let* queued := sweep_catch (pool_tx (fun rt => repair_tx rt id)) in
      let* more := repair_each rest in
      sweep_ret (match queued with Ok true => S more | _ => more end)
  end.

Definition reconcile_archived_runtime_resources : Sweep nat :=
  let* rows := pool_read (fun _ db => stranded_sandboxes db) in
  repair_each rows.
End Sweeps.
