(* ===== verification/CleanupProofs.v ===== *)
(** * What retention and repair promise

    A sandbox is deleted only when its retention has passed since it was last
    changed, when it is archived and nothing can be restored from it at the
    moment of the deletion, whatever other requests do meanwhile; deleting it
    leaves no row that names it, and tombstones of all its resources.  A run
    that nothing interferes with deletes every sandbox that is due.  The
    repair loop queues one teardown per stranded sandbox. *)

From S2P Require Import Prelude CoreTypes Json Store Leases SandboxLifecycle Queue World CommandOutput.
From S2P Require Import RuntimeResources Snapshots Effects EffectProofs SandboxStop Cleanup.
From stdpp Require Import sorting relations.

(** ** Rows that are deleted *)

Lemma lookup_delete_rows {K A} `{Countable K} (p : K -> A -> bool) (m : gmap K A) k r :
  delete_rows p m !! k = Some r <-> m !! k = Some r /\ p k r = false.
Proof.
  unfold delete_rows. rewrite map_lookup_imap. destruct (m !! k) as [x|]; simpl.
  - destruct (p k x) eqn:E; split; [done | intros [[= <-] ?]; congruence | by intros [= <-] |].
    by intros [[= <-] _].
  - split; [done | by intros []].
Qed.

Lemma elem_of_filter_bool {A} (p : A -> bool) (l : list A) x :
  x ∈ List.filter p l <-> x ∈ l /\ p x = true.
Proof. rewrite !list_elem_of_In. apply filter_In. Qed.

Lemma existsb_map {K A} `{Countable K} (p : K * A -> bool) (m : gmap K A) :
  existsb p (map_to_list m) = true <-> exists k r, m !! k = Some r /\ p (k, r) = true.
Proof.
  rewrite existsb_exists. split.
  - intros ([k r] & Hin & Hp). apply list_elem_of_In, elem_of_map_to_list in Hin. eauto.
  - intros (k & r & Hr & Hp). exists (k, r). split; [|done].
    by apply list_elem_of_In, elem_of_map_to_list.
Qed.

(** No row of any table names the sandbox. *)
Record unmentioned (id : Uuid) (db : Db World) : Prop := {
  un_sandbox : sandboxes (world db) !! id = None;
  un_rules : forall r, r ∈ sandbox_network_egress_rules (world db) -> r.1 <> id;
  un_secrets : forall r, r ∈ sandbox_secret_bindings (world db) -> r.1 <> id;
  un_events : forall e, e ∈ sandbox_events (world db) -> ev_sandbox_id e.2 <> id;
  un_commands : forall k c, commands (world db) !! k = Some c -> cmd_sandbox_id c <> id;
  un_snapshots : forall k r, snapshots (world db) !! k = Some r -> sn_sandbox_id r <> id;
  un_files : forall k f, sandbox_files (world db) !! k = Some f -> file_sandbox_id f <> id;
  un_resources : forall k r, runtime_resources (world db) !! k = Some r -> rr_sandbox_id r <> id;
  un_mounts : sandbox_home_mounts (world db) !! id = None;
  un_stage_resources :
    forall r, r ∈ provisioning_operation_resources (world db) -> str_sandbox_id r <> id;
  un_guest_tokens : forall k c, guest_tokens (world db) !! k = Some c -> cr_sandbox_id c <> id;
  un_desktop : forall k c, desktop_access_credentials (world db) !! k = Some c -> cr_sandbox_id c <> id;
  un_operations : provisioning_operations (world db) !! id = None;
  un_health : guest_health (world db) !! id = None;
  un_attestations :
    forall k a, resident_placement_attestations (world db) !! k = Some a -> at_sandbox_id a <> id;
  un_validations :
    forall k v, maestro_activation_validations (world db) !! k = Some v -> av_sandbox_id v <> id;
  un_residents : forall k p, resident_processes db !! k = Some p -> rp_sandbox_id p <> id;
  un_placement : sandbox_placements db !! id = None
}.

(** What belongs to other sandboxes stays. *)
Record kept_beside (id : Uuid) (a b : Db World) : Prop := {
  kb_sandboxes : sandboxes (world b) = delete id (sandboxes (world a));
  kb_jobs : jobs b = jobs a;
  kb_leases : job_leases b = job_leases a;
  kb_sources : snapshot_restore_sources (world b) = snapshot_restore_sources (world a);
  kb_members : sterile_pool_memberships (world b) = sterile_pool_memberships (world a);
  kb_events : forall e, e ∈ sandbox_events (world a) -> ev_sandbox_id e.2 <> id -> e ∈ sandbox_events (world b);
  kb_commands : forall k c, commands (world a) !! k = Some c -> cmd_sandbox_id c <> id ->
    commands (world b) !! k = Some c;
  kb_chunks : forall k, k ∈ command_output_chunks (world a) ->
    (forall c, commands (world a) !! chunk_command_id k = Some c -> cmd_sandbox_id c <> id) ->
    k ∈ command_output_chunks (world b);
  kb_snapshots : forall k r, snapshots (world a) !! k = Some r -> sn_sandbox_id r <> id ->
    snapshots (world b) !! k = Some r;
  kb_snapshots_only : forall k r, snapshots (world b) !! k = Some r -> snapshots (world a) !! k = Some r;
  kb_residents : forall k p, resident_processes a !! k = Some p -> rp_sandbox_id p <> id ->
    resident_processes b !! k = Some p
}.

(** Clears a goal about a filtered table. *)
Ltac by_delete_rows :=
  repeat first
    [ progress intros
    | match goal with
      | H : delete_rows _ _ !! _ = Some _ |- _ => apply lookup_delete_rows in H as [? ?]
      | H : _ ∈ List.filter _ _ |- _ => apply elem_of_filter_bool in H as [? ?]
      | H : negb _ = true |- _ => apply negb_true_iff in H
      | H : bool_decide _ = false |- _ => apply bool_decide_eq_false in H
      | H : _ || _ = false |- _ => apply orb_false_iff in H as [? ?]
      | |- delete_rows _ _ !! _ = Some _ => apply lookup_delete_rows; split
      | |- _ ∈ List.filter _ _ => apply elem_of_filter_bool; split
      | |- negb _ = true => apply negb_true_iff
      | |- bool_decide _ = false => apply bool_decide_eq_false
      | |- delete ?i _ !! ?i = None => apply lookup_delete_eq
      end
    | assumption ].

Lemma cascade_unmentioned id db : unmentioned id (cascade id db).
Proof.
  constructor; simpl; try solve [by_delete_rows].
  intros k r. rewrite lookup_fmap, fmap_Some. intros (r0 & Hr & ->). by_delete_rows.
Qed.

Lemma cascade_kept id db : kept_beside id db (cascade id db).
Proof.
  constructor; simpl; try solve [done | by_delete_rows].
  intros k Hk Hc. apply elem_of_filter_bool. split; [done|]. apply negb_true_iff. unfold row_is.
  destruct (commands (world db) !! chunk_command_id k) as [c|]; [|done].
  apply bool_decide_eq_false. by apply Hc.
Qed.

(** ** Burying the resources of a sandbox *)

Definition torn (ts : Tombstone) : Prop := is_torn_down (rr_status (ts_resource ts)) = true.

Lemma insert_tombstones_ok now rs (db : Db World) :
  (forall k r, (k, r) ∈ rs -> is_torn_down (rr_status r) = true) ->
  exists m, insert_tombstones rs now db = Ok (tt, set_world (set_runtime_resource_tombstones m (world db)) db) /\
    (forall k, k ∈ rs.*1 -> exists ts, m !! k = Some ts /\ torn ts /\ ts_tombstoned_at ts = now) /\
    (forall k, k ∉ rs.*1 -> m !! k = runtime_resource_tombstones (world db) !! k).
Proof.
  revert db. induction rs as [|[k r] rs IH]; intros db Hrs; simpl.
  - exists (runtime_resource_tombstones (world db)). split; [by destruct db as [? ? ? ? ? ? ? ? ? ? ? []]|].
    split; [by intros k ?%not_elem_of_nil | done].
  - destruct (IH (set_world (insert_tombstone k r now (world db)) db)) as (m & Hm & Hin & Hout).
    { intros k' r' Hk. apply (Hrs k' r'). by right. }
    exists m. unfold tx_bind, modify_world, tx_modify. split; [by rewrite Hm|]. simpl in *.
    assert (Hr : is_torn_down (rr_status r) = true) by (apply (Hrs k); by left).
    split.
    + intros k'. rewrite elem_of_cons. destruct (decide (k' ∈ rs.*1)) as [Hi|Hi]; [auto|].
      intros [->|?]; [|done]. rewrite (Hout _ Hi), lookup_insert_eq. eexists. split; [done|].
      split; [|done]. unfold torn. simpl.
      by destruct (runtime_resource_tombstones (world db) !! k).
    + intros k' Hni. rewrite not_elem_of_cons in Hni. destruct Hni as [Hne Hi].
      rewrite (Hout _ Hi). by rewrite lookup_insert_ne.
Qed.

Lemma elem_of_merge_sort {A} (R : relation A) `{!RelDecision R} (l : list A) x : x ∈ merge_sort R l <-> x ∈ l.
Proof. by rewrite merge_sort_Permutation. Qed.

(** No resource of the sandbox has the identifier [k]. *)
Definition not_of (id : Uuid) (m : gmap Uuid RuntimeResource) (k : Uuid) : Prop :=
  forall r, m !! k = Some r -> rr_sandbox_id r <> id.

Lemma retire_rows_ok id now error (m : gmap Uuid RuntimeResource) k r :
  update_rows (fun _ => is_live_resource_of id AllGenerations) (resource_set_destroyed now error) m !! k = Some r ->
  exists r0, m !! k = Some r0 /\ rr_sandbox_id r0 = rr_sandbox_id r /\ (rr_sandbox_id r0 <> id -> r = r0).
Proof.
  rewrite lookup_update_rows, fmap_Some. intros (r0 & Hr & ->). exists r0. split; [done|].
  unfold is_live_resource_of. case_bool_decide; simpl; [by case_match|done].
Qed.

Lemma retire_and_list_ok id now error (db : Db World) :
  exists rs m, retire_and_list id AllGenerations now error db =
      Ok (rs, set_world (set_runtime_resources m (world db)) db) /\
    (forall k r, (k, r) ∈ rs -> is_torn_down (rr_status r) = true) /\
    (forall k r, runtime_resources (world db) !! k = Some r -> rr_sandbox_id r = id ->
       is_torn_down (rr_status r) = false -> k ∈ rs.*1) /\
    (forall k, not_of id (runtime_resources (world db)) k -> m !! k = runtime_resources (world db) !! k /\ k ∉ rs.*1).
Proof.
  assert (Hframe : forall k, not_of id (runtime_resources (world db)) k ->
    update_rows (fun _ => is_live_resource_of id AllGenerations) (resource_set_destroyed now error)
      (runtime_resources (world db)) !! k = runtime_resources (world db) !! k).
  { intros k Hk. rewrite lookup_update_rows. destruct (runtime_resources (world db) !! k) as [r|] eqn:Er; [|done]. simpl.
    unfold is_live_resource_of. rewrite bool_decide_eq_false_2 by (by apply Hk). done. }
  unfold retire_and_list, mark_runtime_resources_deleted_for_sandbox_on_connection, get_world, modify_world,
    tx_bind, tx_get, tx_ret, tx_modify. simpl.
  destruct (existsb _ _) eqn:Ex; simpl; do 2 eexists; (split; [reflexivity|]); split_and!.
  - intros k r. rewrite elem_of_merge_sort, elem_of_filter_bool. intros [_ Hr]. simpl in Hr.
    unfold was_retired in Hr. rewrite !andb_true_iff, !bool_decide_eq_true in Hr.
    destruct Hr as [[[_ ->] _] _]. done.
  - intros k r Hr Hid Hlive. apply list_elem_of_fmap. exists (k, resource_set_destroyed now error r).
    split; [done|]. apply elem_of_merge_sort, elem_of_filter_bool. split.
    + apply elem_of_map_to_list. rewrite lookup_update_rows, Hr. simpl. unfold is_live_resource_of.
      by rewrite bool_decide_eq_true_2, Hlive.
    + unfold was_retired. simpl. by rewrite !bool_decide_eq_true_2.
  - intros k Hk. split; [by apply Hframe|]. intros ([k' r] & -> & Hin)%list_elem_of_fmap.
    apply elem_of_merge_sort, elem_of_filter_bool in Hin as [Hin Hr]. apply elem_of_map_to_list in Hin. simpl in *.
    apply retire_rows_ok in Hin as (r0 & Hr0 & Hid & _). unfold was_retired in Hr.
    rewrite !andb_true_iff, !bool_decide_eq_true in Hr. destruct Hr as [[[Hr _] _] _]. apply (Hk r0 Hr0). congruence.
  - by intros k r ?%not_elem_of_nil.
  - intros k r Hr Hid Hlive. exfalso. revert Ex. apply not_false_iff_true, existsb_map.
    exists k, r. split; [done|]. unfold is_live_resource_of. simpl.
    by rewrite bool_decide_eq_true_2, Hlive.
  - intros k Hk. split; [by apply Hframe|apply not_elem_of_nil].
Qed.

(** Burying writes only resources and tombstones, and leaves a tombstone for
    every resource of the sandbox. *)
Lemma bury_ok id now (db : Db World) :
  exists rs m t,
    bury_resources id now db =
      Ok (rs, set_world (set_runtime_resource_tombstones t (set_runtime_resources m (world db))) db) /\
    (forall k r, runtime_resources (world db) !! k = Some r -> rr_sandbox_id r = id ->
       exists ts, t !! k = Some ts /\ torn ts /\ ts_tombstoned_at ts = now) /\
    (forall k, not_of id (runtime_resources (world db)) k ->
       m !! k = runtime_resources (world db) !! k /\ t !! k = runtime_resource_tombstones (world db) !! k).
Proof.
  destruct (retire_and_list_ok id now "archived sandbox deleted during cleanup" db)
    as (newly & m & Hret & Htorn & Hlive & Hframe).
  set (deleted := List.filter (fun kr => is_torn_down (rr_status kr.2))
                    (list_runtime_resources_for_sandbox (world db) id)).
  destruct (insert_tombstones_ok now (deleted ++ newly) (set_world (set_runtime_resources m (world db)) db))
    as (t & Ht & Hin & Hout).
  { intros k r. rewrite elem_of_app. intros [Hd|Hn]; [|by eapply Htorn].
    by apply elem_of_filter_bool in Hd as [_ ?]. }
  exists (deleted ++ newly), m, t. split_and!.
  - unfold bury_resources. unfold tx_bind at 1, get_world at 1, tx_bind at 1, tx_get, tx_ret at 1.
    fold deleted. unfold tx_bind at 1. rewrite Hret. unfold tx_bind. by rewrite Ht.
  - intros k r Hr Hid. apply Hin. rewrite fmap_app, elem_of_app.
    destruct (is_torn_down (rr_status r)) eqn:Et; [left | right; by eapply Hlive].
    apply list_elem_of_fmap. exists (k, r). split; [done|]. apply elem_of_filter_bool. split; [|done].
    apply elem_of_merge_sort, elem_of_filter_bool. split; [by apply elem_of_map_to_list|].
    simpl. by apply bool_decide_eq_true.
  - intros k Hk. destruct (Hframe k Hk) as [-> Hn]. split; [done|]. apply Hout. rewrite fmap_app, elem_of_app.
    intros [([k' r] & -> & Hd)%list_elem_of_fmap|?]; [|done].
    apply elem_of_filter_bool in Hd as [Hd _]. apply elem_of_merge_sort, elem_of_filter_bool in Hd as [Hd Hid].
    apply elem_of_map_to_list in Hd. apply bool_decide_eq_true in Hid. by apply (Hk r).
Qed.

(** ** The transaction that deletes *)

(** A sandbox deleted at [now], on the tables [a]: it was archived there,
    nothing could be restored from it, and no pool holds it.  The deletion of the
    row, with what references it, is all that happens besides the burial of the
    sandbox's own resources. *)
Record removed (rt : Runtime) (id : Uuid) (now : Z) (a b : Db World) : Prop := {
  rm_archived : exists s, sandboxes (world a) !! id = Some s /\ sb_state s = SandboxState.Archived;
  rm_unreferenced : sandbox_snapshot_is_referenced (world a) id (utc_now rt) = false;
  rm_unpooled : sterile_pool_memberships (world a) !! id = None;
  rm_unmentioned : unmentioned id b;
  rm_kept : kept_beside id a b;
  rm_tombstones : forall k r, runtime_resources (world a) !! k = Some r -> rr_sandbox_id r = id ->
    exists ts, runtime_resource_tombstones (world b) !! k = Some ts /\ torn ts /\ ts_tombstoned_at ts = now;
  rm_only : exists m t,
    b = cascade id (set_world (set_runtime_resource_tombstones t (set_runtime_resources m (world a))) a) /\
    (forall k, not_of id (runtime_resources (world a)) k ->
       m !! k = runtime_resources (world a) !! k /\ t !! k = runtime_resource_tombstones (world a) !! k)
}.

Lemma cleanup_tx_deleted rt id now (a : Db World) rs b :
  cleanup_archived_tx rt id now a = Ok (CleanupDeleted rs, b) -> removed rt id now a b.
Proof.
  intros Hc. destruct (bury_ok id now a) as (rs' & m & t & Hb & Hts & Hframe).
  unfold cleanup_archived_tx in Hc. unfold tx_bind at 1 in Hc. rewrite Hb in Hc. world_step Hc.
  destruct (sandbox_snapshot_is_referenced _ _ _) eqn:Eref; [by tx_step Hc|].
  tx_step Hc. tx_step Hc. destruct a0; simplify_eq.
  unfold delete_archived in Hm. tx_step Hm. tx_step Hm0. cbn in Hm.
  destruct (sandboxes (world a) !! id) as [s|] eqn:Es; [|by tx_step Hm].
  destruct (bool_decide (sb_state s = _)) eqn:Est; [|by tx_step Hm]. simpl in Hm.
  destruct (is_none _) eqn:Emem; [|by tx_step Hm]. tx_step Hm. unfold tx_modify in Hm0. simplify_eq.
  tx_step Hm. constructor.
  - exists s. by apply bool_decide_eq_true in Est.
  - exact Eref.
  - by destruct (sterile_pool_memberships (world a) !! id).
  - apply cascade_unmentioned.
  - destruct (cascade_kept id (set_world (set_runtime_resource_tombstones t
      (set_runtime_resources m (world a))) a)). by constructor.
  - exact Hts.
  - exists m, t. by split.
Qed.

Lemma cleanup_tx_referenced rt id now (a : Db World) :
  sandbox_snapshot_is_referenced (world a) id (utc_now rt) = true ->
  exists b, cleanup_archived_tx rt id now a = Ok (CleanupReferenced, b).
Proof.
  intros Href. destruct (bury_ok id now a) as (rs & m & t & Hb & _).
  unfold cleanup_archived_tx. unfold tx_bind at 1. rewrite Hb.
  unfold tx_bind at 1, get_world, tx_bind at 1, tx_get, tx_ret at 1. cbn [world set_world].
  change (sandbox_snapshot_is_referenced _ id (utc_now rt)) with
    (sandbox_snapshot_is_referenced (world a) id (utc_now rt)).
  rewrite Href. by eexists.
Qed.

Lemma cleanup_tx_succeeds rt id now (a : Db World) s :
  sandboxes (world a) !! id = Some s -> sb_state s = SandboxState.Archived ->
  sterile_pool_memberships (world a) !! id = None ->
  sandbox_snapshot_is_referenced (world a) id (utc_now rt) = false ->
  exists rs b, cleanup_archived_tx rt id now a = Ok (CleanupDeleted rs, b).
Proof.
  intros Hs Hst Hmem Href. destruct (bury_ok id now a) as (rs & m & t & Hb & _).
  unfold cleanup_archived_tx. unfold tx_bind at 1. rewrite Hb.
  unfold tx_bind at 1, get_world, tx_bind at 1, tx_get, tx_ret at 1. cbn [world set_world].
  change (sandbox_snapshot_is_referenced _ id (utc_now rt)) with
    (sandbox_snapshot_is_referenced (world a) id (utc_now rt)).
  rewrite Href. unfold tx_bind at 1, delete_archived, tx_bind at 1, tx_get. cbn.
  rewrite Hs, bool_decide_eq_true_2 by done. simpl. rewrite Hmem. simpl. by do 2 eexists.
Qed.

(** ** Sweeps among other requests

    [within others P m]: the tables a sweep ends with are reached from those
    it starts with by what other requests do between its statements and by
    commits that satisfy [P]. *)

Definition sweep_commit (others : nat -> Db World -> Db World) (P : relation (Db World)) : relation (Db World) :=
  fun a b => (exists n, b = others n a) \/ P a b.

Definition within (others : nat -> Db World -> Db World) (P : relation (Db World)) {A} (m : Sweep A) : Prop :=
  forall n db r n' db', m (n, db) = Some (r, (n', db')) -> rtc (sweep_commit others P) db db'.

Section Within.
Context (others : nat -> Db World -> Db World) (rts : nat -> Runtime) (P : relation (Db World)).

Lemma within_ret {A} (a : A) : within others P (sweep_ret a).
Proof. intros n db r n' db' [= <- <- <-]. reflexivity. Qed.

Lemma within_throw {A} e : within others P (sweep_throw (A := A) e).
Proof. intros n db r n' db' [= <- <- <-]. reflexivity. Qed.

Lemma within_lift {A} (r : option (result A ApiError)) : within others P (sweep_lift r).
Proof. destruct r as [[a|e]|]; [apply within_ret | apply within_throw | done]. Qed.

Lemma within_bind {A B} (m : Sweep A) (k : A -> Sweep B) :
  within others P m -> (forall a, within others P (k a)) -> within others P (sweep_bind m k).
Proof.
  intros Hm Hk n db r n' db'. unfold sweep_bind.
  destruct (m (n, db)) as [[[a|e] [n1 db1]]|] eqn:E; [| |done]; intros He.
  - etrans; [by eapply Hm | by eapply Hk].
  - simplify_eq. by eapply Hm.
Qed.

Lemma within_bind_ret {A B} (a : A) (k : A -> Sweep B) :
  within others P (k a) -> within others P (sweep_bind (sweep_ret a) k).
Proof. intros Hk n db r n' db' Hr. exact (Hk n db r n' db' Hr). Qed.

Lemma within_catch {A} (m : Sweep A) : within others P m -> within others P (sweep_catch m).
Proof.
  intros Hm n db r n' db'. unfold sweep_catch.
  destruct (m (n, db)) as [[r0 [n1 db1]]|] eqn:E; [|done]. intros [= <- <- <-]. by eapply Hm.
Qed.

Lemma within_read {A} (f : Runtime -> Db World -> A) : within others P (pool_read rts others f).
Proof. intros n db r n' db' [= <- <- <-]. apply rtc_once. left. eauto. Qed.

Lemma within_tx_if {A} (commits : A -> bool) (m : Runtime -> Tx World A) :
  (forall n db a db', m (rts n) db = Ok (a, db') -> commits a = true -> P db db') ->
  within others P (pool_tx_if rts others commits m).
Proof.
  intros HP n db r n' db' Hr. unfold pool_tx_if in Hr. injection Hr as Hr.
  eapply rtc_l; [left; by exists n|].
  destruct (m (rts n) (others n db)) as [[a db1]|e] eqn:E; simplify_eq; [|reflexivity].
  destruct (commits a) eqn:Ec; [|reflexivity]. apply rtc_once. right. by eapply HP.
Qed.
End Within.

Lemma within_mono others (P Q : relation (Db World)) {A} (m : Sweep A) :
  (forall a b, P a b -> Q a b) -> within others P m -> within others Q m.
Proof.
  intros HPQ Hm n db r n' db' Hr. eapply rtc_subrel, Hm; [|exact Hr].
  intros a b [?|?]; [by left | right; auto].
Qed.

(** Walks through a sweep. *)
Ltac within_auto :=
  repeat match goal with
    | |- within _ _ (sweep_bind _ _) => apply within_bind; [|intro]
    | |- within _ _ (sweep_catch _) => apply within_catch
    | |- within _ _ (sweep_ret _) => apply within_ret
    | |- within _ _ (sweep_throw _) => apply within_throw
    | |- within _ _ (sweep_lift _) => apply within_lift
    | |- within _ _ (pool_read _ _ _) => apply within_read
    | |- within _ _ (if _ then _ else _) => case_match
    | |- within _ _ (match _ with _ => _ end) => case_match
    end.

Section Retain.
Context `{UuidLib} `{SerdeLib} `{ChronoLib} (rts : nat -> Runtime) (others : nat -> Db World -> Db World).

(** The retention of a sandbox, counted from its last change, has passed. *)
Definition overdue (s : Sandbox) (now : Z) : Prop :=
  exists ttl, sb_ttl_seconds s = Some ttl /\ (sb_updated_at s + seconds ttl <= now)%Z.

Lemma expires_at_due s e now :
  is_retained s = true -> expires_at_from_ttl (sb_updated_at s) (sb_ttl_seconds s) = Some (Ok e) ->
  is_due e now = true <-> overdue s now.
Proof.
  unfold is_retained, overdue. rewrite andb_true_iff. intros [_ Hr].
  destruct (sb_ttl_seconds s) as [ttl|]; [|done]. simpl. destruct (try_i64 ttl) as [m|] eqn:Et; [|done].
  apply try_i64_some in Et as [-> _]. unfold datetime_add_seconds. destruct (_ && _); [|done].
  intros [= <-]. simpl. rewrite Z.leb_le. split; [eauto | by intros (? & [= <-] & ?)].
Qed.

(** A deletion by the sweep that read [rows] at [now]. *)
Definition retention_removal (rows : list (Uuid * Sandbox)) (now : Z) (a b : Db World) : Prop :=
  exists n id s, (id, s) ∈ rows /\ sb_state s = SandboxState.Archived /\ overdue s now /\
    removed (rts n) id now a b.

Lemma cleanup_each_within rows0 rows now :
  (forall ks, ks ∈ rows -> ks ∈ rows0 /\ is_retained ks.2 = true) ->
  within others (retention_removal rows0 now) (cleanup_each rts others rows now).
Proof.
  induction rows as [|[id s] rows IH]; intros Hrows; simpl; [within_auto|].
  destruct (Hrows (id, s)) as [Hin Hret]; [by left|].
  assert (Hrest : within others (retention_removal rows0 now) (cleanup_each rts others rows now)).
  { apply IH. intros ks Hks. apply Hrows. by right. }
  destruct (expires_at_from_ttl _ _) as [[e|e]|] eqn:Ee; [| |by intros ? ? ? ? ? [=]]; simpl.
  2:{ intros ? ? ? ? ? [= <- <- <-]. reflexivity. }
  apply within_bind_ret. destruct (is_due e now) eqn:Hdue; [|done]. simpl.
  apply (expires_at_due s e now Hret Ee) in Hdue.
  apply within_bind; [apply within_read|]. intros [].
  - apply within_bind; [done | intro; apply within_ret].
  - apply within_bind; [|intro; apply within_bind; [done | intro; apply within_ret]].
    apply within_tx_if. intros n db [] db' Hc Hcom; try done. exists n, id, s.
    apply cleanup_tx_deleted in Hc. unfold is_retained in Hret.
    apply andb_true_iff in Hret as [Hst _]. by apply bool_decide_eq_true in Hst.
Qed.

Lemma oversized_never_expires t ttl e :
  (i64_max < ttl * 1000)%Z -> expires_at_from_ttl t (Some ttl) <> Some (Ok e).
Proof.
  intros Hbig. simpl. destruct (try_i64 ttl) as [m|] eqn:Et; [|done].
  apply try_i64_some in Et as [-> _]. unfold datetime_add_seconds.
  by replace (ttl * 1000 <=? i64_max)%Z with false by lia.
Qed.

Definition merge_archived (a b : ArchivedSandboxCleanupResult) : ArchivedSandboxCleanupResult :=
  mkArchivedCleanup (ac_deleted a ++ ac_deleted b) (ac_skipped a ++ ac_skipped b)
    (ac_runtime_resources_deleted a ++ ac_runtime_resources_deleted b).

Lemma cleanup_each_app pre post now st :
  cleanup_each rts others (pre ++ post) now st =
  sweep_bind (cleanup_each rts others pre now) (fun r =>
    sweep_bind (cleanup_each rts others post now) (fun r' => sweep_ret (merge_archived r r'))) st.
Proof.
  revert st. induction pre as [|[id s] pre IH]; intros st.
  { unfold sweep_bind, sweep_ret. simpl. unfold sweep_ret.
    destruct (cleanup_each rts others post now st) as [[[[] |] ?]|]; reflexivity. }
  simpl. destruct (expires_at_from_ttl _ _) as [[e|e]|]; [|reflexivity..].
  unfold sweep_bind, sweep_lift, sweep_ret. destruct (negb _); [apply IH|].
  destruct (pool_read _ _ _ st) as [[[[]|] st1]|]; [| |reflexivity..].
  - rewrite IH. unfold sweep_bind, sweep_ret.
    destruct (cleanup_each rts others pre now st1) as [[[r|] st2]|]; [|reflexivity..].
    destruct (cleanup_each rts others post now st2) as [[[r'|] st3]|]; reflexivity.
  - destruct (pool_tx_if _ _ _ _ st1) as [[[o|] st2]|]; [|reflexivity..].
    rewrite IH. unfold sweep_bind, sweep_ret.
    destruct (cleanup_each rts others pre now st2) as [[[r|] st3]|]; [|reflexivity..].
    destruct (cleanup_each rts others post now st3) as [[[r'|] st4]|]; [|reflexivity..].
    destruct o; [|reflexivity..]. unfold merge_archived. simpl. by rewrite app_assoc.
Qed.

Lemma cleanup_each_stops pre id s ttl post now n db r n' db' :
  (forall ks, ks ∈ pre -> is_retained ks.2 = true) ->
  sb_ttl_seconds s = Some ttl -> (i64_max < ttl * 1000)%Z ->
  cleanup_each rts others (pre ++ (id, s) :: post) now (n, db) = Some (r, (n', db')) ->
  (exists e, r = Err e) /\ rtc (sweep_commit others (retention_removal pre now)) db db'.
Proof.
  intros Hrows Httl Hbig. rewrite cleanup_each_app. unfold sweep_bind at 1.
  destruct (cleanup_each rts others pre now (n, db)) as [[r1 [n1 db1]]|] eqn:E; [|done].
  apply (cleanup_each_within pre pre now) in E; [|eauto]. destruct r1 as [r1|e].
  2:{ intros [= <- <- <-]. eauto. }
  simpl. rewrite Httl. destruct (expires_at_from_ttl _ _) as [[x|x]|] eqn:Ex; [| |done].
  - by apply oversized_never_expires in Ex.
  - intros [= <- <- <-]. eauto.
Qed.

Lemma elem_of_archived_batch w ks : ks ∈ archived_batch w ->
  sandboxes w !! ks.1 = Some ks.2 /\ is_retained ks.2 = true.
Proof.
  unfold archived_batch. intros Hin%elem_of_take. destruct Hin as (i & Hi & _).
  apply list_elem_of_lookup_2, elem_of_merge_sort, elem_of_filter_bool in Hi as [Hm Hr].
  destruct ks as [id s]. by apply elem_of_map_to_list in Hm.
Qed.

Lemma retention_within (n : nat) (db : Db World) r n' db' :
  cleanup_archived_sandboxes rts others (n, db) = Some (r, (n', db')) ->
  rtc (sweep_commit others (retention_removal (archived_batch (world (others n db))) (utc_now (rts n))))
    (others n db) db'.
Proof.
  intros Hc. unfold cleanup_archived_sandboxes, sweep_bind, pool_read in Hc. cbn in Hc.
  eapply cleanup_each_within; [|exact Hc]. intros ks Hks. split; [done|].
  by apply elem_of_archived_batch in Hks as [_ ?].
Qed.

(** *** The other stages *)

(** Every row stays, and none is added; each follows [R]. *)
Definition rows_stay {A} (R : relation A) (m m' : gmap Uuid A) : Prop :=
  forall k, option_Forall2 R (m !! k) (m' !! k).

#[local] Instance rows_stay_preorder {A} (R : relation A) `{!PreOrder R} : PreOrder (rows_stay R).
Proof.
  split; [intros m k; reflexivity|]. intros m1 m2 m3 Hab Hbc k. etrans; [apply Hab|apply Hbc].
Qed.

Lemma rows_stay_insert {A} (R : relation A) `{!PreOrder R} (m : gmap Uuid A) k x y :
  m !! k = Some x -> R x y -> rows_stay R m (<[k := y]> m).
Proof.
  intros Hk HR k'. destruct (decide (k' = k)) as [->|Hne]; [rewrite Hk, lookup_insert_eq; by constructor|].
  rewrite lookup_insert_ne by done. reflexivity.
Qed.

Definition snapshot_follows (r r' : SnapshotRow) : Prop :=
  r' = r \/ exists status e, r' = snapshot_set_status status e r.
Definition source_follows (r r' : RestoreSourceRow) : Prop :=
  r' = r \/ exists status, r' = restore_source_set_status status r.
Definition resource_follows (r r' : RuntimeResource) : Prop :=
  r' = r \/ exists t e, r' = resource_set_deleted t e r.

(** A job stays as it is, but for a queued snapshot job, which may die. *)
Definition job_follows (r r' : JobRow) : Prop :=
  r' = r \/ job_kind (row_job r) = JobKind.CreateSnapshot /\ is_queued r = true /\
    exists e t, r' = row_set_job (job_set_status JobStatus.Dead e t) r.

#[local] Instance snapshot_follows_preorder : PreOrder snapshot_follows.
Proof. split; [by left|]. intros a b c [->|(s & e & ->)] [->|(s' & e' & ->)]; [by left|right; eauto..]. Qed.
#[local] Instance source_follows_preorder : PreOrder source_follows.
Proof. split; [by left|]. intros a b c [->|(s & ->)] [->|(s' & ->)]; [by left|right; eauto..]. Qed.
#[local] Instance resource_follows_preorder : PreOrder resource_follows.
Proof. split; [by left|]. intros a b c [->|(s & e & ->)] [->|(s' & e' & ->)]; [by left|right; eauto..]. Qed.
#[local] Instance job_follows_preorder : PreOrder job_follows.
Proof.
  split; [by left|].
  intros a b c [->|(Hk & Hq & e & t & ->)] [->|(Hk' & Hq' & e' & t' & ->)]; [by left|right; eauto 6|right; eauto 6|done].
Qed.

(** [a] with the tables the stages write as they are in [b]. *)
Definition with_stage_tables (a b : Db World) : Db World :=
  set_jobs (jobs b)
    (set_world
       (set_sandboxes (sandboxes (world b))
          (set_sandbox_events (sandbox_events (world b))
             (set_snapshots (snapshots (world b))
                (set_snapshot_restore_sources (snapshot_restore_sources (world b))
                   (set_runtime_resources (runtime_resources (world b))
                      (set_cleanup_runs (cleanup_runs (world b)) (world a))))))) a).

(** What the stages before the deletions may do: no sandbox appears or disappears,
    each keeps to the lifecycle and an archived one stays as it is; snapshots and
    their restore sources change their status; resources are marked deleted;
    queued snapshot jobs die; events are added; and no other table is written. *)
Record moves (a b : Db World) : Prop := {
  mv_sandboxes : sandboxes_move (sandboxes (world a)) (sandboxes (world b));
  mv_snapshots : rows_stay snapshot_follows (snapshots (world a)) (snapshots (world b));
  mv_sources : rows_stay source_follows (snapshot_restore_sources (world a)) (snapshot_restore_sources (world b));
  mv_resources : rows_stay resource_follows (runtime_resources (world a)) (runtime_resources (world b));
  mv_jobs : rows_stay job_follows (jobs a) (jobs b);
  mv_events : sandbox_events (world a) `prefix_of` sandbox_events (world b);
  mv_runs : dom (cleanup_runs (world a)) ⊆ dom (cleanup_runs (world b));
  mv_rest : b = with_stage_tables a b
}.

#[local] Instance moves_preorder : PreOrder moves.
Proof.
  split.
  - intros a. constructor; try reflexivity. by destruct a as [? ? ? ? ? ? ? ? ? ? ? []].
  - intros a b c [] []. constructor; try (by etrans). rewrite mv_rest1, mv_rest0. reflexivity.
Qed.

(** A statement that writes nothing but the bookkeeping of the run. *)
Definition bookkeeping (a b : Db World) : Prop :=
  exists id run, b = set_world (set_cleanup_runs (<[id := run]> (cleanup_runs (world a))) (world a)) a.

Lemma bookkeeping_moves a b : bookkeeping a b -> moves a b.
Proof.
  intros (id & run & ->). constructor; simpl; try reflexivity. rewrite dom_insert_L. set_solver.
Qed.

Lemma set_sources_moves a id status : moves a (set_world (update_restore_source id status (world a)) a).
Proof.
  constructor; simpl; try reflexivity. intros k. destruct (decide (k = id)) as [->|Hne].
  - rewrite lookup_alter_eq. destruct (snapshot_restore_sources (world a) !! id); constructor. right. eauto.
  - rewrite lookup_alter_ne by done. reflexivity.
Qed.

Lemma set_snapshots_moves (a : Db World) id r status e :
  snapshots (world a) !! id = Some r ->
  moves a (set_world (set_snapshots (<[id := snapshot_set_status status e r]> (snapshots (world a))) (world a)) a).
Proof.
  intros Hr. constructor; simpl; try reflexivity. eapply rows_stay_insert; [apply _|exact Hr|right; eauto].
Qed.

Lemma set_resources_moves (a : Db World) id r t e :
  runtime_resources (world a) !! id = Some r ->
  moves a (set_world (set_runtime_resources (<[id := resource_set_deleted t e r]> (runtime_resources (world a))) (world a)) a).
Proof.
  intros Hr. constructor; simpl; try reflexivity. eapply rows_stay_insert; [apply _|exact Hr|right; eauto].
Qed.

Lemma insert_event_moves rt n sb kind data : tx_rel moves (insert_event_on_connection rt n sb kind data).
Proof.
  intros db u db' [_ ->]%insert_event_ok. constructor; simpl; try reflexivity. by apply prefix_app_r.
Qed.

Lemma dead_queued_moves sid e now : tx_rel moves (dead_queued_snapshot_jobs_on_connection (W := World) sid e now).
Proof.
  intros db k db' Hc. unfold dead_queued_snapshot_jobs_on_connection in Hc. repeat tx_step Hc. tx_step Hm. tx_step Hm0.
  constructor; simpl; try reflexivity.
  - intros j. rewrite lookup_update_rows. destruct (jobs _ !! j) as [r|]; simpl; [|constructor]. constructor.
    destruct (is_queued_snapshot_job sid r) eqn:Eq; [right|by left]. unfold is_queued_snapshot_job in Eq.
    rewrite !andb_true_iff, bool_decide_eq_true in Eq. destruct Eq as [[? ?] _]. eauto.
  - match goal with |- set_jobs _ ?d = _ => by destruct d as [? ? ? ? ? ? ? ? ? ? ? []] end.
Qed.

Lemma get_world_moves : tx_rel moves get_world.
Proof. intros db w db' [_ ->]%get_world_ok. reflexivity. Qed.

(** A snapshot is moved along together with its restore source. *)
Lemma update_snapshot_moves id guard status e :
  tx_rel moves (let! w := get_world in
    let '(affected, m) := update_row id guard (snapshot_set_status status e) (snapshots w) in
    if affected then
      let! _ := modify_world (set_snapshots m) in
      let! _ := modify_world (update_restore_source id status) in
      tx_ret true
    else tx_ret false).
Proof.
  intros db b db' Hc. world_step Hc. destruct (update_row _ _ _ _) as [affected m] eqn:Eu.
  destruct affected; [|tx_step Hc; reflexivity]. apply update_row_true in Eu as (r & Hr & _ & ->).
  world_step Hc. world_step Hc. tx_step Hc. etrans; [by apply set_snapshots_moves|]. apply set_sources_moves.
Qed.

Lemma set_state_moves rt n id from next data :
  forallb (fun a => negb (can_transition_to a next) || effect_edge a next) from = true ->
  tx_rel moves (set_sandbox_state_on_connection rt n id from next data).
Proof.
  intros Hedge db b db' Hs. pose proof (er_sandboxes _ _ (set_state_rel rt n id from next data Hedge _ _ _ Hs)) as Hmove.
  apply set_state_ok in Hs as [[w ->] [[_ ->]|(_ & s & _ & _ & _ & Hw)]]; [reflexivity|]. cbn [world set_world] in Hw. subst w.
  constructor; [exact Hmove|reflexivity|reflexivity|reflexivity|reflexivity|by apply prefix_app_r|reflexivity|reflexivity].
Qed.

Lemma fail_waiting_moves rt n id reason e :
  tx_rel moves (fail_sandboxes_waiting_on_snapshot_on_connection rt n id reason e).
Proof.
  unfold fail_sandboxes_waiting_on_snapshot_on_connection.
  apply tx_rel_bind; [apply _|apply get_world_moves|]. intros w. generalize (waiting_children w id) as children.
  intros children. revert n. induction children as [|[child c] rest IH]; intros n; simpl; [apply tx_rel_ret; apply _|].
  apply tx_rel_bind; [apply _|by apply set_state_moves|]. intros _. apply IH.
Qed.

Ltac moves_auto :=
  repeat match goal with
    | |- tx_rel _ (tx_ret _) => apply tx_rel_ret; apply _
    | |- tx_rel _ (tx_throw _) => apply tx_rel_throw
    | |- tx_rel _ (tx_lift _) => apply tx_rel_lift; apply _
    | |- tx_rel _ (fail_pending_snapshot_on_connection _ _) => apply update_snapshot_moves
    | |- tx_rel _ (expire_active_snapshot_on_connection _ _) => apply update_snapshot_moves
    | |- tx_rel _ get_world => apply get_world_moves
    | |- tx_rel _ (tx_bind _ _) => apply tx_rel_bind; [apply _ | | intro]
    | |- tx_rel _ (dead_queued_snapshot_jobs_on_connection _ _ _) => apply dead_queued_moves
    | |- tx_rel _ (fail_sandboxes_waiting_on_snapshot_on_connection _ _ _ _ _) => apply fail_waiting_moves
    | |- tx_rel _ (insert_event_on_connection _ _ _ _ _) => apply insert_event_moves
    | |- tx_rel _ (if _ then _ else _) => apply tx_rel_if
    | |- tx_rel _ (match _ with _ => _ end) => case_match
    end.

Lemma insert_run_keeps id run : tx_rel bookkeeping (insert_cleanup_run id run).
Proof.
  intros db u db' Hc. unfold insert_cleanup_run in Hc. do 5 world_step Hc.
  destruct (is_none _); [|by tx_step Hc]. world_step Hc. by do 2 eexists.
Qed.

Lemma update_run_keeps id run : tx_rel bookkeeping (update_cleanup_run id run).
Proof.
  intros db u db' Hc. unfold update_cleanup_run in Hc. do 5 world_step Hc.
  destruct (cleanup_runs _ !! id); [|by tx_step Hc]. world_step Hc. by do 2 eexists.
Qed.

Lemma within_moves {A} (m : Runtime -> Tx World A) :
  (forall rt, tx_rel moves (m rt)) -> within others moves (pool_tx rts others m).
Proof. intros Hm. apply within_tx_if. intros n db a db' Hr _. by eapply Hm. Qed.

Lemma expire_tx_moves rt id now : tx_rel moves (expire_snapshot_tx rt id now).
Proof. unfold expire_snapshot_tx. moves_auto. Qed.

Lemma terminalize_tx_moves rt snapshot_id sandbox_id : tx_rel moves (terminalize_tx rt snapshot_id sandbox_id).
Proof. unfold terminalize_tx. moves_auto. Qed.

Lemma expire_within : within others moves (expire_due_snapshots rts others).
Proof.
  unfold expire_due_snapshots. within_auto. generalize l as rows. clear.
  induction rows as [|[id r] rows IH]; simpl; within_auto; try done.
  apply within_moves. intros rt. apply expire_tx_moves.
Qed.

Lemma terminalize_within :
  within others moves (terminalize_queued_snapshot_jobs_for_archived_sandboxes rts others).
Proof.
  unfold terminalize_queued_snapshot_jobs_for_archived_sandboxes. within_auto. generalize a as rows. clear.
  induction rows as [|[id [[job s] sb]] rows IH]; simpl; within_auto; try done.
  apply within_moves. intros rt. apply terminalize_tx_moves.
Qed.

Lemma resources_within : within others moves (cleanup_runtime_resources_for_expired_snapshots rts others).
Proof.
  unfold cleanup_runtime_resources_for_expired_snapshots. within_auto. generalize a as rows. clear.
  induction rows as [|[id r] rows IH]; simpl; unfold mark_runtime_resource_deleted; within_auto; try done.
  apply within_moves. intros rt db u db' Hc. world_step Hc.
  destruct (runtime_resources _ !! id) as [r'|] eqn:Er; [|by tx_step Hc]. world_step Hc. by apply set_resources_moves.
Qed.

(** *** The whole run *)

(** First only moves; then, from the tables [c] on which the archived
    sandboxes are read, deletions of those, and the bookkeeping of the run. *)
Definition two_phased {A} (m : Sweep A) : Prop :=
  forall n db r n' db', m (n, db) = Some (r, (n', db')) ->
    exists k c, rtc (sweep_commit others moves) db c /\
      rtc (sweep_commit others (fun a b => bookkeeping a b \/
             retention_removal (archived_batch (world c)) (utc_now (rts k)) a b)) c db'.

Lemma two_phased_moves {A} (m : Sweep A) : within others moves m -> two_phased m.
Proof. intros Hm n db r n' db' Hr. exists 0, db'. split; [by eapply Hm | reflexivity]. Qed.

Lemma two_phased_then {A B} (m : Sweep A) (k : A -> Sweep B) :
  within others moves m -> (forall a, two_phased (k a)) -> two_phased (sweep_bind m k).
Proof.
  intros Hm Hk n db r n' db'. unfold sweep_bind.
  destruct (m (n, db)) as [[[a|e] [n1 db1]]|] eqn:E; [| |done]; intros He.
  - destruct (Hk a _ _ _ _ _ He) as (i & c & Hc & Hd). exists i, c. split; [|done].
    etrans; [by eapply Hm | done].
  - simplify_eq. by eapply (two_phased_moves m Hm).
Qed.

Lemma two_phased_after {A B} (m : Sweep A) (k : A -> Sweep B) :
  two_phased m -> (forall a, within others bookkeeping (k a)) -> two_phased (sweep_bind m k).
Proof.
  intros Hm Hk n db r n' db'. unfold sweep_bind.
  destruct (m (n, db)) as [[[a|e] [n1 db1]]|] eqn:E; [| |done]; intros He.
  - destruct (Hm _ _ _ _ _ E) as (i & c & Hc & Hd). exists i, c. split; [done|].
    etrans; [exact Hd|]. eapply rtc_subrel, Hk; [|exact He].
    intros x y [?|?]; [by left | right; by left].
  - simplify_eq. by eapply Hm.
Qed.

Lemma two_phased_catch {A} (m : Sweep A) : two_phased m -> two_phased (sweep_catch m).
Proof.
  intros Hm n db r n' db'. unfold sweep_catch.
  destruct (m (n, db)) as [[r0 [n1 db1]]|] eqn:E; [|done]. intros [= <- <- <-]. by eapply Hm.
Qed.

Lemma archived_two_phased : two_phased (cleanup_archived_sandboxes rts others).
Proof.
  intros n db r n' db' Hr. exists n, (others n db). split; [apply rtc_once; left; eauto|].
  eapply rtc_subrel, retention_within; [|exact Hr]. intros x y [?|?]; [by left | right; by right].
Qed.

Lemma mark_failed_within dbg id t x y e : within others bookkeeping (mark_cleanup_run_failed rts others dbg id t x y e).
Proof.
  unfold mark_cleanup_run_failed. within_auto. apply within_tx_if. intros n db a db' Hc _. by eapply update_run_keeps.
Qed.

Lemma stage_within {A} dbg id t x y (m : Sweep A) :
  within others moves m -> within others moves (cleanup_stage rts others dbg id t x y m).
Proof. intros Hm. unfold cleanup_stage. within_auto; [done|].
  eapply within_mono; [|apply mark_failed_within]. apply bookkeeping_moves.
Qed.

Lemma stage_two_phased {A} dbg id t x y (m : Sweep A) :
  two_phased m -> two_phased (cleanup_stage rts others dbg id t x y m).
Proof.
  intros Hm. unfold cleanup_stage. apply two_phased_after; [by apply two_phased_catch|].
  intros []; within_auto. apply mark_failed_within.
Qed.


(** *** A run that nothing interferes with *)

(** References only go away: with time, and with the sandboxes deleted. *)
Lemma referenced_shrinks (a b : World) id t t' :
  (t <= t')%Z ->
  (forall k s, sandboxes b !! k = Some s -> sandboxes a !! k = Some s) ->
  (forall k r, snapshots b !! k = Some r -> snapshots a !! k = Some r) ->
  snapshot_restore_sources b = snapshot_restore_sources a ->
  sandbox_snapshot_is_referenced b id t' = true -> sandbox_snapshot_is_referenced a id t = true.
Proof.
  intros Ht Hsb Hsn Hrs. unfold sandbox_snapshot_is_referenced, has_child.
  rewrite !orb_true_iff, !existsb_map. intros [(k & r & Hr & Hp)|(k & r & Hr & Hp)]; [left | right].
  - exists k, r. split; [auto|]. revert Hp. rewrite !andb_true_iff, !existsb_map.
    intros (Hid & k' & s & Hs & Hc). split; [done|]. exists k', s. auto.
  - exists k, r. split; [by rewrite <- Hrs|]. revert Hp. unfold is_live_source. simpl.
    rewrite !andb_true_iff. intros [[? ?] ?]. repeat split; [done..|].
    destruct (rs_expires_at r); [lia|done].
Qed.

Lemma removed_shrinks rt id0 now a b id t t' :
  removed rt id0 now a b -> (t <= t')%Z ->
  sandbox_snapshot_is_referenced (world a) id t = false ->
  sandbox_snapshot_is_referenced (world b) id t' = false.
Proof.
  intros [? ? ? ? [] ? ?] Ht Ha. apply not_true_iff_false. intros Hb.
  apply (referenced_shrinks (world a) (world b) id t t') in Hb; [congruence|done| |done|done].
  intros k s. rewrite kb_sandboxes0, lookup_delete_Some. tauto.
Qed.

(** What a sandbox needs for the sweep not to stop at it. *)
Definition sweepable (db : Db World) (id : Uuid) (s : Sandbox) : Prop :=
  (exists e, expires_at_from_ttl (sb_updated_at s) (sb_ttl_seconds s) = Some (Ok e)) /\
  sterile_pool_memberships (world db) !! id = None.

(** The sandboxes a sweep over [rows] leaves, and its report. *)
Definition swept (rows : list (Uuid * Sandbox)) (now : Z) (db db' : Db World)
    (r : ArchivedSandboxCleanupResult) : Prop :=
  (forall id s, (id, s) ∈ rows -> overdue s now ->
     sandbox_snapshot_is_referenced (world db) id now = false -> sandboxes (world db') !! id = None) /\
  (forall id s, sandboxes (world db) !! id = Some s ->
     (id, s) ∈ rows /\ overdue s now /\ sandboxes (world db') !! id = None /\ (id, s) ∈ ac_deleted r \/
     sandboxes (world db') !! id = Some s /\ (id, s) ∉ ac_deleted r) /\
  (forall id, sandboxes (world db) !! id = None ->
     sandboxes (world db') !! id = None /\ id ∉ (ac_deleted r).*1).

Lemma swept_skip id s rows now db db' r :
  ~ overdue s now \/ sandbox_snapshot_is_referenced (world db) id now = true ->
  swept rows now db db' r -> swept ((id, s) :: rows) now db db' r.
Proof.
  intros Hskip (H2 & H3 & H4). split_and!; [|intros k x Hx; destruct (H3 _ _ Hx) as [(?&?)|?]; [left|by right]|done].
  - intros k x [[= -> ->]|Hin]%elem_of_cons; [|by eauto]. intros Ho Hr. destruct Hskip; [done|congruence].
  - split; [by right|done].
Qed.

Lemma swept_delete rt id s rows now db b db' r rs :
  removed rt id now db b -> sandboxes (world db) !! id = Some s -> overdue s now ->
  swept rows now b db' r ->
  swept ((id, s) :: rows) now db db'
    (mkArchivedCleanup ((id, s) :: ac_deleted r) (ac_skipped r) (rs ++ ac_runtime_resources_deleted r)).
Proof.
  intros Hrm Hs Ho (H2 & H3 & H4).
  pose proof (kb_sandboxes _ _ _ (rm_kept _ _ _ _ _ Hrm)) as Hdel.
  assert (Hid : sandboxes (world db') !! id = None /\ id ∉ (ac_deleted r).*1).
  { apply H4. by rewrite Hdel, lookup_delete_eq. }
  split_and!; simpl.
  - intros k x [[= -> ->]|Hin]%elem_of_cons; [intros _ _; apply Hid|]. intros Hox Hr.
    eapply H2; [done..|]. by eapply removed_shrinks.
  - intros k x Hx. destruct (decide (k = id)) as [->|Hne].
    + left. simplify_eq. split_and!; [by left | done | apply Hid | by left].
    + destruct (H3 k x) as [(?&?&?&?)|[? Hni]]; [by rewrite Hdel, lookup_delete_ne| |].
      * left. split_and!; [by right | done | done | by right].
      * right. split; [done|]. rewrite not_elem_of_cons. split; [congruence|done].
  - intros k Hk. destruct (decide (k = id)) as [->|Hne]; [congruence|].
    destruct (H4 k) as [? Hni]; [by rewrite Hdel, lookup_delete_ne|]. split; [done|].
    rewrite not_elem_of_cons. done.
Qed.

Definition calm (n : nat) (db : Db World) : Db World := db.

Lemma cleanup_each_calm rows now n db :
  NoDup rows.*1 -> (forall m, (now <= utc_now (rts m))%Z) ->
  (forall id s, (id, s) ∈ rows -> sandboxes (world db) !! id = Some s /\ is_retained s = true /\ sweepable db id s) ->
  exists r n' db', cleanup_each rts calm rows now (n, db) = Some (Ok r, (n', db')) /\ swept rows now db db' r.
Proof.
  clear others. intros Hnd Hclock. revert n db.
  induction rows as [|[id s] rows IH]; intros n db Hrows; simpl.
  { do 3 eexists. split; [reflexivity|]. split_and!.
    - by intros ? ? ?%not_elem_of_nil.
    - intros k x Hx. right. split; [done|apply not_elem_of_nil].
    - intros k Hk. split; [done|apply not_elem_of_nil]. }
  apply NoDup_cons in Hnd as [Hni Hnd]. specialize (IH Hnd).
  destruct (Hrows id s) as (Hs & Hret & [e He] & Hmem); [by left|].
  rewrite He. unfold sweep_bind at 1, sweep_lift, sweep_ret at 1.
  pose proof (expires_at_due s e now Hret He) as Hdue.
  assert (Hrest : forall x y, (x, y) ∈ rows -> (x, y) ∈ (id, s) :: rows) by (intros; by right).
  destruct (is_due e now); simpl.
  2:{ destruct (IH n db) as (r & n' & db' & Hr & Hsw); [eauto|]. exists r, n', db'. split; [exact Hr|].
      apply swept_skip; [left|done]. intros ?%Hdue. done. }
  assert (Ho : overdue s now) by by apply Hdue.
  assert (Hskip : forall m, sandbox_snapshot_is_referenced (world db) id (utc_now (rts m)) = true ->
    sandbox_snapshot_is_referenced (world db) id now = true).
  { intros m. by apply referenced_shrinks. }
  unfold sweep_bind at 1, pool_read. unfold calm at 1.
  destruct (sandbox_snapshot_is_referenced (world db) id (utc_now (rts n))) eqn:E1.
  { destruct (IH (S n) db) as (r & n' & db' & Hr & Hsw); [eauto|]. do 3 eexists. split.
    - unfold sweep_bind, sweep_ret. change (calm n db) with db. by rewrite Hr.
    - apply swept_skip; [right; by eapply Hskip | exact Hsw]. }
  unfold sweep_bind at 1, pool_tx_if. change (calm (S n) (calm n db)) with db.
  destruct (sandbox_snapshot_is_referenced (world db) id (utc_now (rts (S n)))) eqn:E2.
  { destruct (IH (S (S n)) db) as (r & n' & db' & Hr & Hsw); [eauto|].
    destruct (cleanup_tx_referenced (rts (S n)) id now db E2) as [b Hb]. rewrite Hb. do 3 eexists. split.
    - unfold sweep_bind, sweep_ret. simpl. by rewrite Hr.
    - apply swept_skip; [right; by eapply Hskip | exact Hsw]. }
  assert (Hst : sb_state s = SandboxState.Archived).
  { unfold is_retained in Hret. apply andb_true_iff in Hret as [Hst _]. by apply bool_decide_eq_true in Hst. }
  destruct (cleanup_tx_succeeds (rts (S n)) id now db s Hs Hst Hmem E2) as (rs & b & Hb).
  rewrite Hb. apply cleanup_tx_deleted in Hb as Hrm.
  destruct (IH (S (S n)) b) as (r & n' & db' & Hr & Hsw).
  { intros k x Hk. destruct (Hrows k x) as (Hx & Hrx & Hex & Hmx); [by right|].
    assert (k <> id) by (intros ->; apply Hni, list_elem_of_fmap; by exists (id, x)).
    destruct Hrm as [_ _ _ _ [] _ _]. rewrite kb_sandboxes0, lookup_delete_ne by done.
    split_and!; [done..|]. split; [done|]. by rewrite kb_members0. }
  do 3 eexists. split.
  - unfold sweep_bind, sweep_ret. simpl. by rewrite Hr.
  - by eapply swept_delete.
Qed.

Definition retained_sandboxes (w : World) : list (Uuid * Sandbox) :=
  List.filter (fun ks => is_retained ks.2) (map_to_list (sandboxes w)).

Lemma archived_batch_NoDup w : NoDup (archived_batch w).*1.
Proof.
  unfold archived_batch. eapply sublist_NoDup; [|apply fmap_sublist, sublist_take].
  rewrite merge_sort_Permutation. eapply sublist_NoDup; [apply (NoDup_fst_map_to_list (sandboxes w))|].
  apply fmap_sublist. induction (map_to_list (sandboxes w)) as [|x l IH]; [done|]. simpl.
  destruct (is_retained x.2); by constructor.
Qed.

Lemma archived_batch_all w id s :
  length (retained_sandboxes w) <= ARCHIVED_SANDBOX_CLEANUP_BATCH_SIZE ->
  sandboxes w !! id = Some s -> is_retained s = true -> (id, s) ∈ archived_batch w.
Proof.
  intros Hlen Hs Hr. unfold archived_batch. fold (retained_sandboxes w).
  rewrite take_ge by (by rewrite merge_sort_Permutation).
  apply elem_of_merge_sort, elem_of_filter_bool. split; [by apply elem_of_map_to_list | done].
Qed.


(** C26. One oversized retention ends cleanup for everyone.  [ttl_seconds] is
    stored as requested; when the batch that a cleanup reads contains a
    sandbox whose retention is more milliseconds than fit 64 bits, the
    cleanup ends in an error or a panic, whatever happens meanwhile, and
    deletes none of the sandboxes behind it in the batch. *)
Theorem oversized_retention_stops_cleanup n db pre id s ttl post r n' db' :
  archived_batch (world (others n db)) = pre ++ (id, s) :: post ->
  sb_ttl_seconds s = Some ttl -> (i64_max < ttl * 1000)%Z ->
  cleanup_archived_sandboxes rts others (n, db) = Some (r, (n', db')) ->
  (exists e, r = Err e) /\
  rtc (sweep_commit others (retention_removal pre (utc_now (rts n)))) (others n db) db'.
Proof.
  intros Hb Httl Hbig Hc.
  change (cleanup_each rts others (archived_batch (world (others n db))) (utc_now (rts n))
    (S n, others n db) = Some (r, (n', db'))) in Hc.
  assert (Hrows : forall ks, ks ∈ pre -> is_retained ks.2 = true).
  { intros ks Hks. assert (ks ∈ archived_batch (world (others n db))) as [_ ?]%elem_of_archived_batch;
      [|done]. rewrite Hb. apply elem_of_app. by left. }
  rewrite Hb in Hc. by eapply cleanup_each_stops.
Qed.
End Retain.

(** ** The repair loop *)

Section Repair.
Context `{UuidLib} `{SerdeLib} (rts : nat -> Runtime).

(** Queueing a teardown where there is none. *)
Lemma enqueue_cleanup_queues rt n s reason (db : Db World) :
  uuid_parse_str (uuid_to_string (sb_id s)) = Some (sb_id s) -> jobs db !! new_uuid rt n = None ->
  has_active_stop db (sb_id s) = false ->
  exists row, enqueue_archived_runtime_cleanup_on_connection rt n s JNull reason db =
      Ok (true, set_jobs (<[new_uuid rt n := row]> (jobs db)) db) /\
    ref_sandbox_id (row_references row) = Some (sb_id s) /\
    job_kind (row_job row) = JobKind.StopSandbox /\ job_status (row_job row) = JobStatus.Queued.
Proof.
  intros Huuid Hfresh Hno. unfold enqueue_archived_runtime_cleanup_on_connection.
  unfold tx_bind at 1, tx_get at 1. unfold has_active_stop in Hno. rewrite Hno.
  destruct (cleanup_payload (world db) s JNull reason) as [payload|e] eqn:Ep; [|done].
  apply cleanup_payload_sandbox in Ep as Hsb. unfold tx_bind at 1, tx_lift at 1.
  unfold insert_job_on_connection_if_absent, job_references, sandbox_id_from_job, uuid_from_job_payload,
    parse_uuid. cbn [job_kind job_payload]. rewrite Hsb, Huuid. cbn [result_bind].
  unfold tx_bind at 1, tx_lift at 1. unfold tx_bind at 1, tx_get at 1. cbn [job_id]. rewrite Hfresh.
  unfold violates_stop_index. cbn [row_references ref_sandbox_id is_some orb]. rewrite Hno, andb_false_r.
  eexists. split; [reflexivity|]. done.
Qed.

(** A candidate of the loop, as the tables hold it. *)
Definition repairable (db : Db World) (id : Uuid) : Prop :=
  exists s, sandboxes (world db) !! id = Some s /\ sb_id s = id /\ is_stranded db id s = true /\
    uuid_parse_str (uuid_to_string id) = Some id.

Lemma hydrated_state w s : sb_state (hydrate_sandbox_network_egress w s) = sb_state s.
Proof. unfold hydrate_sandbox_network_egress. by destruct (sb_network_egress s). Qed.

Lemma repair_tx_queues rt (db : Db World) id :
  repairable db id -> jobs db !! new_uuid rt 0 = None ->
  exists row, repair_tx rt id db = Ok (true, set_jobs (<[new_uuid rt 0 := row]> (jobs db)) db) /\
    ref_sandbox_id (row_references row) = Some id /\
    job_kind (row_job row) = JobKind.StopSandbox /\ job_status (row_job row) = JobStatus.Queued.
Proof.
  intros (s & Hs & Hid & Hst & Huuid) Hfresh. unfold repair_tx.
  unfold tx_bind at 1, get_world, tx_bind, tx_get, tx_ret. unfold fetch_sandbox. rewrite Hs, hydrated_state.
  unfold is_stranded in Hst. apply andb_true_iff in Hst as [Hst Hno%negb_true_iff].
  pose proof (hydrate_id (world db) s) as Hh. rewrite Hid in Hh.
  destruct (enqueue_cleanup_queues rt 0 (hydrate_sandbox_network_egress (world db) s)
    (if bool_decide (sb_state s = SandboxState.Archiving) then "failed_stop_reconciliation"
     else "archived_runtime_reconciliation") db) as (row & He & Hrow);
    [by rewrite Hh | done | by rewrite Hh|].
  rewrite Hh in Hrow. exists row. split; [|done].
  apply orb_true_iff in Hst as [[Ha Hl]%andb_true_iff|[Ha _]%andb_true_iff];
    apply bool_decide_eq_true in Ha; rewrite Ha in *; simpl; [rewrite Hl|]; exact He.
Qed.

(** What the loop adds to the jobs: one queued teardown per row. *)
Record queued_for (rows : list Uuid) (db db' : Db World) : Prop := {
  qf_world : world db' = world db;
  qf_old : forall j r, jobs db !! j = Some r -> jobs db' !! j = Some r;
  qf_new : forall j r, jobs db' !! j = Some r -> jobs db !! j = None ->
    exists id, id ∈ rows /\ is_active_stop id r = true /\ job_status (row_job r) = JobStatus.Queued;
  qf_each : forall id, id ∈ rows -> exists j r, jobs db !! j = None /\ jobs db' !! j = Some r /\
    is_active_stop id r = true;
  qf_once : forall id j r j' r', jobs db !! j = None -> jobs db !! j' = None ->
    jobs db' !! j = Some r -> jobs db' !! j' = Some r' ->
    is_active_stop id r = true -> is_active_stop id r' = true -> j = j'
}.

Lemma active_stop_of id id' r : is_active_stop id r = true -> is_active_stop id' r = true -> id = id'.
Proof.
  unfold is_active_stop. rewrite !andb_true_iff, !bool_decide_eq_true. intros [[E _] _] [[E' _] _]. congruence.
Qed.

Lemma active_stop_row id row :
  ref_sandbox_id (row_references row) = Some id -> job_kind (row_job row) = JobKind.StopSandbox ->
  job_status (row_job row) = JobStatus.Queued -> is_active_stop id row = true.
Proof.
  intros Href Hk Hq. unfold is_active_stop. rewrite Href, Hk, Hq.
  by rewrite (bool_decide_eq_true_2 (Some id = Some id)).
Qed.

(** A teardown of one sandbox strands no other. *)
Lemma repairable_other (db : Db World) j row id id' :
  jobs db !! j = None -> ref_sandbox_id (row_references row) = Some id -> id' <> id ->
  repairable db id' -> repairable (set_jobs (<[j := row]> (jobs db)) db) id'.
Proof.
  intros Hj Href Hne (s & Hs & Hid & Hst & Huuid). exists s. split_and!; try done.
  unfold is_stranded, has_active_stop in *. cbn [world set_jobs jobs].
  apply andb_true_iff in Hst as [Hst Hno]. apply andb_true_iff. split.
  - apply orb_true_iff in Hst as [Hst|Hst]; apply orb_true_iff; [by left | right].
    apply andb_true_iff in Hst as [Ha Hf]. apply andb_true_iff. split; [done|].
    rewrite existsb_map in *. destruct Hf as (k & r & Hr & Hf). exists k, r. split; [|done].
    rewrite lookup_insert_ne; congruence.
  - apply negb_true_iff, not_true_iff_false. rewrite existsb_map. intros (k & r & Hr & Ha).
    apply negb_true_iff, not_true_iff_false in Hno. apply Hno, existsb_map.
    destruct (decide (k = j)) as [->|Hkj].
    + rewrite lookup_insert_eq in Hr. simplify_eq. unfold is_active_stop in Ha. simpl in Ha.
      rewrite Href in Ha. rewrite bool_decide_eq_false_2 in Ha by congruence. done.
    + rewrite lookup_insert_ne in Hr by done. eauto.
Qed.

Lemma queued_for_cons id rows (db db' : Db World) j row :
  jobs db !! j = None -> ref_sandbox_id (row_references row) = Some id ->
  job_kind (row_job row) = JobKind.StopSandbox -> job_status (row_job row) = JobStatus.Queued ->
  id ∉ rows -> queued_for rows (set_jobs (<[j := row]> (jobs db)) db) db' -> queued_for (id :: rows) db db'.
Proof.
  intros Hj Href Hk Hq Hni [Hw Hold Hnew Heach Honce]. cbn [world set_jobs jobs] in *.
  pose proof (active_stop_row id row Href Hk Hq) as Hact.
  assert (Hjrow : jobs db' !! j = Some row) by apply Hold, lookup_insert_eq.
  assert (Hfirst : forall k r, jobs db !! k = None -> jobs db' !! k = Some r ->
    is_active_stop id r = true -> k = j).
  { intros k r Hn Hr Ha. destruct (decide (k = j)) as [|Hkj]; [done|].
    destruct (Hnew k r Hr) as (x & Hx & Hax & _); [by rewrite lookup_insert_ne|].
    by rewrite (active_stop_of _ _ _ Ha Hax) in Hni. }
  constructor; [done| | | |].
  - intros k r Hr. apply Hold. rewrite lookup_insert_ne; congruence.
  - intros k r Hr Hn. destruct (decide (k = j)) as [->|Hkj].
    + rewrite Hjrow in Hr. simplify_eq. exists id. split; [by left|done].
    + destruct (Hnew k r Hr) as (id' & ? & ?); [by rewrite lookup_insert_ne|].
      exists id'. split; [by right|done].
  - intros x [->|Hx]%elem_of_cons.
    + by exists j, row.
    + destruct (Heach x Hx) as (k & r & Hn & Hr & Ha). exists k, r.
      apply lookup_insert_None in Hn as [Hn _]. done.
  - intros x k r k' r' Hn Hn' Hr Hr' Ha Ha'.
    destruct (decide (k = j)) as [->|Hkj]; [|destruct (decide (k' = j)) as [->|Hkj']].
    + rewrite Hjrow in Hr. simplify_eq. rewrite (active_stop_of _ _ _ Ha Hact) in Ha'.
      symmetry. by eapply Hfirst.
    + rewrite Hjrow in Hr'. simplify_eq. rewrite (active_stop_of _ _ _ Ha' Hact) in Ha. by eapply Hfirst.
    + eapply (Honce x); [| |done..]; by rewrite lookup_insert_ne.
Qed.

(** The identifiers the loop draws are fresh and distinct. *)
Definition fresh_from (n : nat) (db : Db World) : Prop :=
  (forall m, n <= m -> jobs db !! new_uuid (rts m) 0 = None) /\
  (forall m m', n <= m -> m < m' -> new_uuid (rts m) 0 <> new_uuid (rts m') 0).

Lemma repair_each_queues rows n (db : Db World) :
  NoDup rows -> (forall id, id ∈ rows -> repairable db id) -> fresh_from n db ->
  exists n' db', repair_each rts calm rows (n, db) = Some (Ok (length rows), (n', db')) /\
    queued_for rows db db'.
Proof.
  revert n db. induction rows as [|id rows IH]; intros n db Hnd Hrows [Hf Hd]; simpl.
  { exists n, db. split; [reflexivity|]. constructor; [done|done|congruence|by intros ? ?%not_elem_of_nil|congruence]. }
  apply NoDup_cons in Hnd as [Hni Hnd].
  destruct (repair_tx_queues (rts n) db id) as (row & Hr & Href & Hk & Hq); [apply Hrows; by left | by apply Hf |].
  set (db1 := set_jobs (<[new_uuid (rts n) 0 := row]> (jobs db)) db) in *.
  destruct (IH (S n) db1 Hnd) as (n' & db' & He & Hqf).
  { intros x Hx. eapply (repairable_other db _ row id x); [by apply Hf | done | congruence |].
    apply Hrows. by right. }
  { split; [|intros m m' ? ?; apply Hd; lia]. intros m Hm. simpl. rewrite lookup_insert_ne; [apply Hf; lia|].
    apply Hd; lia. }
  exists n', db'. split.
  - unfold sweep_bind at 1, sweep_catch, pool_tx, pool_tx_if. unfold calm at 1 2. rewrite Hr.
    unfold sweep_bind. by rewrite He.
  - eapply queued_for_cons; [by apply Hf | done..].
Qed.

Definition all_stranded (db : Db World) : list Uuid :=
  (List.filter (fun ks => is_stranded db ks.1 ks.2) (map_to_list (sandboxes (world db)))).*1.

Lemma elem_of_all_stranded db id :
  id ∈ all_stranded db <-> exists s, sandboxes (world db) !! id = Some s /\ is_stranded db id s = true.
Proof.
  unfold all_stranded. rewrite list_elem_of_fmap. split.
  - intros ([k s] & -> & Hin). apply elem_of_filter_bool in Hin as [Hin Hst].
    apply elem_of_map_to_list in Hin. eauto.
  - intros (s & Hs & Hst). exists (id, s). split; [done|]. apply elem_of_filter_bool. split; [|done].
    by apply elem_of_map_to_list.
Qed.

Lemma all_stranded_NoDup db : NoDup (all_stranded db).
Proof.
  unfold all_stranded. eapply sublist_NoDup; [apply (NoDup_fst_map_to_list (sandboxes (world db)))|].
  apply fmap_sublist. induction (map_to_list (sandboxes (world db))) as [|x l IH]; [done|]. simpl.
  destruct (is_stranded db x.1 x.2); by constructor.
Qed.

(** Queueing teardowns for all that is stranded leaves nothing stranded. *)
Lemma queued_for_settles rows (db db' : Db World) :
  (forall id, id ∈ all_stranded db -> id ∈ rows) -> queued_for rows db db' -> all_stranded db' = [].
Proof.
  intros Hrows [Hw Hold Hnew Heach _]. apply elem_of_nil_inv. intros id (s & Hs & Hst)%elem_of_all_stranded.
  rewrite Hw in Hs. unfold is_stranded in Hst. apply andb_true_iff in Hst as [Hst Hno%negb_true_iff].
  apply not_true_iff_false in Hno. unfold has_active_stop in Hno. rewrite existsb_map in Hno.
  assert (Hin : id ∉ rows).
  { intros Hin. destruct (Heach id Hin) as (j & r & _ & Hr & Ha). apply Hno. eauto. }
  apply Hin, Hrows, elem_of_all_stranded. exists s. split; [done|]. unfold is_stranded.
  apply andb_true_iff. split.
  - rewrite Hw in Hst. apply orb_true_iff in Hst as [?|[Ha Hf]%andb_true_iff]; apply orb_true_iff; [by left|].
    right. apply andb_true_iff. split; [done|]. rewrite existsb_map in *. destruct Hf as (k & r & Hr & Hf).
    destruct (jobs db !! k) as [r0|] eqn:E.
    + exists k, r0. specialize (Hold k r0 E). simplify_eq. done.
    + destruct (Hnew k r Hr E) as (? & _ & _ & Hq). unfold is_failed_stop in Hf. simpl in Hf.
      rewrite Hq, !andb_true_iff in Hf. by destruct Hf.
  - apply negb_true_iff, not_true_iff_false. unfold has_active_stop. rewrite existsb_map.
    intros (k & r & Hr & Ha). apply Hno. eauto.
Qed.

End Repair.
