(* ===== verification/RuntimeInventory.v ===== *)
(** * The runtime-resource inventory

    A reconciler asks the control plane which resources of a cluster's
    namespace it still expects: the live sandboxes, the resources their
    provisioning recorded with the time they expire, and the leases under which
    resident processes run.  This file models the handler and the worker that
    collects its pages, and shows that the collected inventory is the whole of
    what the tables hold.

    Sources: [runtime_resource_inventory] of
    [sandboxwich-api/src/handlers/workers.rs], [fetch_runtime_resource_inventory]
    and [validate_reconciliation_inventory_scope] of
    [sandboxwich-worker/src/main.rs].  The queries of one request see one state
    of the tables. *)

From S2P Require Import Prelude CoreTypes Json Store Leases Workers Pagination World Scopes SandboxStop.
From stdpp Require Import sorting.

(** The text of an instant as the database stores it. *)
Class TimeTextLib : Type := { time_text : Z -> string }.

Record RuntimeResourceInventoryQuery : Type := mkInventoryQuery {
  iq_namespace : string;
  iq_limit : option Z;
  iq_before : option string;
  iq_after : option string;
  iq_sandbox_after : option string;
  iq_include_resources : option bool;
  iq_include_sandbox_ids : option bool
}.

Record RuntimeResourceInventoryItem : Type := mkInventoryItem {
  ii_sandbox_id : Uuid;
  ii_resource_kind : RuntimeResourceKind;
  ii_namespace : string;
  ii_name : string;
  ii_uid : string;
  ii_expires_at : option Z;
  ii_cleanup_deadline : option Z
}.

Record RuntimeResourceInventoryResponse : Type := mkInventoryResponse {
  in_provider : string;
  in_cluster : option string;
  in_namespace : string;
  in_sandbox_ids : list Uuid;
  in_complete : bool;
  in_resources : list RuntimeResourceInventoryItem;
  in_active_resident_lease_ids : list Uuid;
  in_sandbox_next_cursor : option string;
  in_next_cursor : option string
}.

(** ** The handler *)

(** A row of the joined tables. *)
Record InventoryRow : Type := mkInventoryRow {
  iw_resource : StageResourceRow;
  iw_worker_id : Uuid;
  iw_sandbox : Sandbox
}.

Definition id_le {A} (a b : Uuid * A) : Prop := (a.1 <= b.1)%N.
#[export] Instance id_le_dec {A} : RelDecision (@id_le A).
Proof. intros a b. unfold id_le. apply _. Defined.

Section Handler.
Context `{UuidLib} `{ChronoLib} `{CursorCodec} `{TimeTextLib}.

Definition not_archived (state : SandboxState) : bool := negb (bool_decide (state = SandboxState.Archived)).

(** [state not in ('archiving', 'archived')]. *)
Definition is_live_state (state : SandboxState) : bool :=
  negb (bool_decide (state = SandboxState.Archiving)) && not_archived state.

(** The join of resources, operations, leases and sandboxes; each resource has
    one operation and each operation one lease. *)
Definition inventory_join (db : Db World) : list InventoryRow :=
  omap (fun r =>
    po ← provisioning_operations (world db) !! str_sandbox_id r;
    jl ← job_leases db !! po_lease_id po;
    s ← sandboxes (world db) !! str_sandbox_id r;
    Some (mkInventoryRow r (lr_worker_id jl) s)) (provisioning_operation_resources (world db)).

Definition is_live_row (namespace : string) (row : InventoryRow) : bool :=
  String.eqb (str_resource_namespace (iw_resource row)) namespace && is_live_state (sb_state (iw_sandbox row)).

(** An active lease of a resident process, for a worker of the list. *)
Definition is_resident_lease (db : Db World) (scope : list Uuid) (l : LeaseRow) : bool :=
  bool_decide (lr_worker_id l ∈ scope) && bool_decide (lr_status l = LeaseStatus.Active)
  && match jobs db !! lr_job_id l with
     | Some j => bool_decide (job_kind (row_job j) = JobKind.RunResidentProcess)
     | None => false
     end.

Definition in_scope (db : Db World) (provider namespace : string) (self id : Uuid) (w : WorkerRow) : bool :=
  String.eqb (worker_provider (row_worker w)) provider
  && (bool_decide (id = self)
      || existsb (fun row => bool_decide (iw_worker_id row = id) && is_live_row namespace row) (inventory_join db)
      || existsb (fun kl => is_resident_lease db [id] kl.2) (map_to_list (job_leases db))).

Definition scope_rows (db : Db World) (provider namespace : string) (self : Uuid) : list (Uuid * WorkerRow) :=
  take 201 (merge_sort id_le
    (List.filter (fun kw => in_scope db provider namespace self kw.1 kw.2) (map_to_list (workers db)))).

Definition scope_worker_ids (cluster : option string) (rows : list (Uuid * WorkerRow)) : list Uuid :=
  take 200 (List.filter (fun kw => bool_decide (labels (row_worker kw.2) !! "cluster" = cluster)) rows).*1.

Definition resident_lease_rows (db : Db World) (scope : list Uuid) : list (Uuid * LeaseRow) :=
  take 201 (merge_sort id_le
    (List.filter (fun kl => is_resident_lease db scope kl.2) (map_to_list (job_leases db)))).

Definition sandbox_rows (db : Db World) : list (Uuid * Sandbox) :=
  List.filter (fun ks => not_archived (sb_state ks.2)) (map_to_list (sandboxes (world db))).

Definition sandbox_key (ks : Uuid * Sandbox) : PageCursor :=
  mkPageCursor (time_text (sb_created_at ks.2)) (uuid_to_string ks.1).

Definition inventory_rows (db : Db World) (scope : list Uuid) (namespace : string) : list InventoryRow :=
  List.filter (fun row => bool_decide (iw_worker_id row ∈ scope) && is_live_row namespace row) (inventory_join db).

Definition resource_key (row : InventoryRow) : PageCursor :=
  mkPageCursor (time_text (str_updated_at (iw_resource row))) (str_resource_uid (iw_resource row)).

(** The item of a row; [None] is the panic of the addition. *)
Definition inventory_item (row : InventoryRow) : option RuntimeResourceInventoryItem :=
  let s := iw_sandbox row in
  expires_at ← match sb_ttl_seconds s with
               | None => Some None
               | Some ttl => Some <$> datetime_add_seconds (sb_created_at s) ttl
               end;
  let cleanup_deadline := if is_live_state (sb_state s) then None else Some (sb_updated_at s) in
  let r := iw_resource row in
  Some (mkInventoryItem (str_sandbox_id r) (str_resource_kind r) (str_resource_namespace r)
          (str_resource_name r) (str_resource_uid r) expires_at cleanup_deadline).

(** What the handler checks before it reads. *)
Definition inventory_checks (db : Db World) (ctx : TenantContext) (self : Uuid) (q : RuntimeResourceInventoryQuery) :
    result (Worker * Z * option (PageDirection * PageCursor) * option (PageDirection * PageCursor)) ApiError :=
  let? _ := ensure_worker_scope ctx self in
  let? worker := ensure_worker_tenant db self ctx in
  if trim_is_empty (iq_namespace q) then Err (bad_request "runtime resource namespace is required")
  else
    let? limit := resolve_page_limit (iq_limit q) in
    let? cursor := if default true (iq_include_resources q)
                   then resolve_page_cursor (mkPageParams (iq_limit q) (iq_before q) (iq_after q)) else Ok None in
    let? sandbox_cursor := if default true (iq_include_sandbox_ids q)
                           then resolve_page_cursor (mkPageParams (iq_limit q) None (iq_sandbox_after q)) else Ok None in
    Ok (worker, limit, cursor, sandbox_cursor).

Definition runtime_resource_inventory (db : Db World) (ctx : TenantContext) (self : Uuid)
    (q : RuntimeResourceInventoryQuery) : option (result RuntimeResourceInventoryResponse ApiError) :=
  match inventory_checks db ctx self q with
  | Err e => Some (Err e)
  | Ok (worker, limit, cursor, sandbox_cursor) =>
      let cluster := labels worker !! "cluster" in
      let rows := scope_rows db (worker_provider worker) (iq_namespace q) self in
      let scope := scope_worker_ids cluster rows in
      if match scope with [] => true | _ => false end then Some (Err (not_found "resource not found"))
      else
        match (if default true (iq_include_sandbox_ids q)
               then fetch_keyset_page sandbox_key (fun ks => Ok (sandbox_key ks, ks.1)) (sandbox_rows db) limit sandbox_cursor
               else Ok ([], None)),
              (if default true (iq_include_resources q)
               then fetch_keyset_page resource_key (fun r => Ok (resource_key r, inventory_item r))
                      (inventory_rows db scope (iq_namespace q)) limit cursor
               else Ok ([], None)) with
        | Err e, _ => Some (Err e)
        | _, Err e => Some (Err e)
        | Ok (sandbox_ids, sandbox_next_cursor), Ok (items, next_cursor) =>
            let leases := (resident_lease_rows db scope).*1 in
            let complete := (Nat.leb (length rows) 200) && (Nat.leb (length leases) 200)
                            && match sandbox_next_cursor with None => true | Some _ => false end in
            resources ← mapM id items;
            Some (Ok (mkInventoryResponse (worker_provider worker) cluster (iq_namespace q) sandbox_ids complete
                        resources (take 200 leases) sandbox_next_cursor next_cursor))
        end
  end.
End Handler.

(** ** Collecting the pages: [fetch_runtime_resource_inventory] *)

Inductive FetchError : Set :=
| RequestFailed
| ResourcesExceeded
| SandboxesExceeded.

(** What has been collected; the order of the two sets does not matter. *)
Record Collected : Type := mkCollected {
  co_scope : option (string * option string * string);
  co_complete : bool;
  co_resources : list RuntimeResourceInventoryItem;
  co_sandbox_ids : gset Uuid;
  co_lease_ids : gset Uuid
}.

Section Fetch.
Context (ask : nat -> RuntimeResourceInventoryQuery -> option RuntimeResourceInventoryResponse)
  (namespace : string) (max_scanned : nat).

Definition page_scope (page : RuntimeResourceInventoryResponse) : string * option string * string :=
  (in_provider page, in_cluster page, in_namespace page).

(** [get_or_insert_with]. *)
Definition scope_of (c : Collected) (page : RuntimeResourceInventoryResponse) :
    option (string * option string * string) :=
  match co_scope c with Some scope => Some scope | None => Some (page_scope page) end.

Definition resources_query (page_limit : nat) (after : option string) : RuntimeResourceInventoryQuery :=
  mkInventoryQuery namespace (Some (Z.of_nat page_limit)) None after None None (Some false).

Definition sandboxes_query (page_limit : nat) (after : option string) : RuntimeResourceInventoryQuery :=
  mkInventoryQuery namespace (Some (Z.of_nat page_limit)) None None after (Some false) None.

(** The first loop; [n] counts the requests.  A page that brings nothing and
    names a next one would repeat for good: [None] is running out of fuel. *)
Fixpoint resource_pages (fuel n : nat) (cursor : option string) (c : Collected) :
    option (result (option string * Collected * nat) FetchError) :=
  if (max_scanned <=? length (co_resources c))%nat then Some (Ok (cursor, c, n))
  else match fuel with
  | O => None
  | S fuel =>
      match ask n (resources_query (Nat.min (max_scanned - length (co_resources c)) 200) cursor) with
      | None => Some (Err RequestFailed)
      | Some page =>
          let c := mkCollected (scope_of c page) (co_complete c && in_complete page)
                     (co_resources c ++ in_resources page) (co_sandbox_ids c)
                     (co_lease_ids c ∪ list_to_set (in_active_resident_lease_ids page)) in
          match in_next_cursor page with
          | None => Some (Ok (None, c, S n))
          | Some after => resource_pages fuel (S n) (Some after) c
          end
      end
  end.

(** The second loop: the page counts towards completeness when it is the last. *)
Fixpoint sandbox_pages (fuel n : nat) (cursor : option string) (c : Collected) :
    option (result (option string * Collected) FetchError) :=
  if (max_scanned <=? size (co_sandbox_ids c))%nat then Some (Ok (cursor, c))
  else match fuel with
  | O => None
  | S fuel =>
      match ask n (sandboxes_query (Nat.min (max_scanned - size (co_sandbox_ids c)) 200) cursor) with
      | None => Some (Err RequestFailed)
      | Some page =>
          let last := match in_sandbox_next_cursor page with None => true | Some _ => false end in
          let c := mkCollected (scope_of c page) (if last then co_complete c && in_complete page else co_complete c)
                     (co_resources c) (co_sandbox_ids c ∪ list_to_set (in_sandbox_ids page))
                     (co_lease_ids c ∪ list_to_set (in_active_resident_lease_ids page)) in
          match in_sandbox_next_cursor page with
          | None => Some (Ok (None, c))
          | Some after => sandbox_pages fuel (S n) (Some after) c
          end
      end
  end.

Definition collected_start : Collected := mkCollected None true [] ∅ ∅.

Definition collected_response (c : Collected) : RuntimeResourceInventoryResponse :=
  let '(provider, cluster, ns) := default ("kubernetes", None, namespace) (co_scope c) in
  mkInventoryResponse provider cluster ns (elements (co_sandbox_ids c)) (co_complete c) (co_resources c)
    (elements (co_lease_ids c)) None None.

Definition fetch_runtime_resource_inventory (fuel : nat) :
    option (result RuntimeResourceInventoryResponse FetchError) :=
  resources ← resource_pages fuel 0 None collected_start;
  match resources with
  | Err e => Some (Err e)
  | Ok (Some _, _, _) => Some (Err ResourcesExceeded)
  | Ok (None, c, n) =>
      pages ← sandbox_pages fuel n None c;
      Some match pages with
           | Err e => Err e
           | Ok (Some _, _) => Err SandboxesExceeded
           | Ok (None, c) => Ok (collected_response c)
           end
  end.
End Fetch.

(** [validate_reconciliation_inventory_scope]. *)
Definition validate_reconciliation_inventory_scope (inventory : RuntimeResourceInventoryResponse)
    (expected_cluster expected_namespace : string) : bool :=
  String.eqb (in_provider inventory) "kubernetes"
  && bool_decide (in_cluster inventory = Some expected_cluster)
  && String.eqb (in_namespace inventory) expected_namespace
  && in_complete inventory
  && match in_next_cursor inventory with None => true | Some _ => false end.

(** ** The pages of an unchanging table *)

Section Paging.
Context `{CursorCodecLaws} {R T : Type} (row_key : R -> PageCursor) (item : R -> T).

Let before (a b : R) : Prop := key_ltb (row_key a) (row_key b) = true.

Lemma strictly_sorted_eq l k :
  StronglySorted before l -> StronglySorted before k -> NoDup l -> NoDup k ->
  (forall x, x ∈ l <-> x ∈ k) -> l = k.
Proof.
  intros Hl Hk Nl Nk He. apply (StronglySorted_unique_strong before); [|done|done|by apply NoDup_Permutation].
  intros a b _ _ Hab Hba. pose proof (key_ltb_trans _ _ _ Hab Hba) as Hc. by rewrite key_ltb_irrefl in Hc.
Qed.

(** The rows after the last one of a page are the rest. *)
Lemma remaining_next rows c n l :
  NoDup (row_key <$> rows) -> last (take n (remaining row_key rows c)) = Some l ->
  remaining row_key rows (Some (row_key l)) = drop n (remaining row_key rows c).
Proof.
  intros Hnd Hlast. pose proof (remaining_sorted row_key rows c Hnd) as Hs.
  pose proof (remaining_NoDup row_key rows c Hnd) as Hn.
  assert (Hsplit : remaining row_key rows c = take n (remaining row_key rows c) ++ drop n (remaining row_key rows c))
    by (by rewrite take_drop).
  apply last_Some in Hlast as [pre Hpre]. rewrite Hpre in Hsplit.
  set (post := drop n (remaining row_key rows c)) in *.
  rewrite Hsplit in Hs, Hn. apply StronglySorted_app in Hs as (Hcross & Hs1 & Hs2).
  apply NoDup_app in Hn as (_ & _ & Hn2).
  apply strictly_sorted_eq; [by apply remaining_sorted|done|by apply remaining_NoDup|done|].
  assert (Hin : forall r, r ∈ remaining row_key rows c <-> r ∈ pre ++ [l] \/ r ∈ post)
    by (intros r; rewrite Hsplit; apply elem_of_app).
  assert (Hll : l ∈ pre ++ [l]) by (apply elem_of_app; right; by apply list_elem_of_singleton).
  intros r. rewrite remaining_elem. simpl. split.
  - intros [Hr Hk]. assert (Hrem : r ∈ remaining row_key rows c).
    { apply remaining_elem. split; [done|]. destruct c as [c|]; [|done]. simpl.
      assert (Hl : l ∈ remaining row_key rows (Some c)) by (apply Hin; by left).
      apply remaining_elem in Hl as [_ Hl]. by eapply key_ltb_trans. }
    apply Hin in Hrem as [Hrem|]; [|done]. exfalso.
    apply elem_of_app in Hrem as [Hrem| ->%list_elem_of_singleton]; [|by rewrite key_ltb_irrefl in Hk].
    apply StronglySorted_app in Hs1 as (Hc1 & _). pose proof (Hc1 r l Hrem ltac:(by apply list_elem_of_singleton)) as Hb.
    pose proof (key_ltb_trans _ _ _ Hk Hb) as Hc. by rewrite key_ltb_irrefl in Hc.
  - intros Hr. split; [|by apply Hcross].
    assert (Hrem : r ∈ remaining row_key rows c) by (apply Hin; by right). by apply remaining_elem in Hrem as [? _].
Qed.

(** A page and its cursor, from any cursor on. *)
Lemma paging_step rows limit c :
  (1 <= limit)%Z -> NoDup (row_key <$> rows) ->
  (forall r, r ∈ rows -> plain_cursor (row_key r)) -> match c with Some k => plain_cursor k | None => True end ->
  exists next,
    fetch_keyset_page row_key (fun r => Ok (row_key r, item r)) rows limit ((fun k => (After, k)) <$> c) =
      Ok (item <$> take (Z.to_nat limit) (remaining row_key rows c), encode <$> next) /\
    match next with
    | None => (length (remaining row_key rows c) <= Z.to_nat limit)%nat
    | Some k => (Z.to_nat limit < length (remaining row_key rows c))%nat /\ plain_cursor k /\
                remaining row_key rows (Some k) = drop (Z.to_nat limit) (remaining row_key rows c)
    end.
Proof.
  intros Hl Hnd Hp Hc. rewrite page_spec by done.
  destruct (Z.ltb_spec limit (Z.of_nat (length (remaining row_key rows c)))) as [Hlt|Hge].
  2:{ exists None. split; [done|]. simpl. lia. }
  destruct (last (take (Z.to_nat limit) (remaining row_key rows c))) as [l|] eqn:El.
  2:{ apply last_None in El. apply (f_equal length) in El. rewrite length_take in El. simpl in El. lia. }
  exists (Some (row_key l)). split; [done|]. split_and!; [lia| |by apply remaining_next].
  apply Hp. apply last_Some in El as [pre Hpre].
  assert (Hin : l ∈ take (Z.to_nat limit) (remaining row_key rows c))
    by (rewrite Hpre; apply elem_of_app; right; by apply list_elem_of_singleton).
  apply elem_of_take in Hin as (i & Hi & _). apply list_elem_of_lookup_2 in Hi. by apply remaining_elem in Hi as [? _].
Qed.

Lemma remaining_all rows : remaining row_key rows None ≡ₚ rows.
Proof.
  unfold remaining. rewrite merge_sort_Permutation. induction rows as [|r rows IH]; [done|]. simpl. by rewrite IH.
Qed.
End Paging.

(** ** The collected inventory is the whole one *)

Section Whole.
Context `{UuidLib} `{ChronoLib} `{CursorCodecLaws} `{TimeTextLib}.
Context (db : Db World) (ctx : TenantContext) (self : Uuid) (namespace : string) (worker : Worker).

(** The service over tables that do not change while the pages are collected. *)
Definition serve (q : RuntimeResourceInventoryQuery) : option RuntimeResourceInventoryResponse :=
  match runtime_resource_inventory db ctx self q with Some (Ok r) => Some r | _ => None end.

Definition worker_scope : list Uuid :=
  scope_worker_ids (labels worker !! "cluster") (scope_rows db (worker_provider worker) namespace self).

Definition expected_rows : list InventoryRow := inventory_rows db worker_scope namespace.

(** The request is authorized, the workers and leases in scope fit the handler's
    limits, and the keys of the pages are what the tables' columns hold. *)
Record inventory_readable : Prop := {
  io_scope : ensure_worker_scope ctx self = Ok tt;
  io_worker : ensure_worker_tenant db self ctx = Ok worker;
  io_namespace : trim_is_empty namespace = false;
  io_workers : length (scope_rows db (worker_provider worker) namespace self) <= 200;
  io_leases : length (resident_lease_rows db worker_scope) <= 200;
  io_sandbox_keys : NoDup (sandbox_key <$> sandbox_rows db);
  io_sandbox_plain : forall ks, ks ∈ sandbox_rows db -> plain_cursor (sandbox_key ks);
  io_resource_keys : NoDup (resource_key <$> expected_rows);
  io_resource_plain : forall row, row ∈ expected_rows -> plain_cursor (resource_key row);
  io_items : forall row, row ∈ expected_rows -> is_Some (inventory_item row)
}.

Context (Hok : inventory_readable).

Lemma self_in_scope : self ∈ worker_scope.
Proof.
  destruct Hok as [_ Hw _ Hlen _ _ _ _ _ _].
  unfold ensure_worker_tenant in Hw. destruct (workers db !! self) as [row|] eqn:Er; [|done].
  assert (Hrow : row_worker row = worker) by (apply result_bind_ok in Hw as (u & _ & Hw); by injection Hw).
  unfold worker_scope, scope_worker_ids, scope_rows in *.
  set (sorted := merge_sort _ _) in *.
  assert (Hin : (self, row) ∈ sorted).
  { unfold sorted. rewrite merge_sort_Permutation. apply list_elem_of_In, filter_In. split.
    - apply list_elem_of_In, elem_of_map_to_list, Er.
    - simpl. unfold in_scope. by rewrite Hrow, String.eqb_refl, bool_decide_true. }
  rewrite length_take in Hlen. assert (Hs : length sorted <= 200) by lia.
  rewrite (take_ge sorted) by lia. rewrite take_ge.
  2:{ rewrite length_fmap. etrans; [apply List.filter_length_le|done]. }
  apply list_elem_of_fmap. exists (self, row). split; [done|].
  apply list_elem_of_In, filter_In. split; [by apply list_elem_of_In|]. simpl. by rewrite Hrow, bool_decide_true.
Qed.

Lemma mapM_items (rows : list InventoryRow) : (forall row, row ∈ rows -> is_Some (inventory_item row)) ->
  mapM id (inventory_item <$> rows) = Some (omap inventory_item rows).
Proof.
  induction rows as [|r rows IH]; intros Hall; [done|].
  destruct (Hall r ltac:(by left)) as [x Ex]. cbn [fmap list_fmap mapM omap list_omap]. rewrite Ex. simpl.
  by rewrite IH by (intros; apply Hall; by right).
Qed.

Lemma length_omap_items (rows : list InventoryRow) : (forall row, row ∈ rows -> is_Some (inventory_item row)) ->
  length (omap inventory_item rows) = length rows.
Proof.
  induction rows as [|r rows IH]; intros Hall; [done|].
  destruct (Hall r ltac:(by left)) as [x Ex]. cbn [omap list_omap]. rewrite Ex. simpl.
  by rewrite IH by (intros; apply Hall; by right).
Qed.

Definition scope_leases : list Uuid := (resident_lease_rows db worker_scope).*1.

(** One page of either kind. *)
Lemma serve_resources limit c :
  (1 <= limit <= 200)%nat -> match c with Some k => plain_cursor k | None => True end ->
  let rest := remaining resource_key expected_rows c in
  exists next,
    serve (resources_query namespace limit (encode <$> c)) =
      Some (mkInventoryResponse (worker_provider worker) (labels worker !! "cluster") namespace [] true
              (omap inventory_item (take limit rest)) scope_leases None (encode <$> next)) /\
    match next with
    | None => (length rest <= limit)%nat
    | Some k => (limit < length rest)%nat /\ plain_cursor k /\
                remaining resource_key expected_rows (Some k) = drop limit rest
    end.
Proof.
  intros Hl Hc rest. pose proof self_in_scope as Hself. destruct Hok as [Hs Hw Hn Hlw Hll _ _ Hnd Hp Hi].
  destruct (paging_step resource_key inventory_item expected_rows (Z.of_nat limit) c ltac:(lia) Hnd Hp Hc)
    as (next & Hpage & Hnext). rewrite Nat2Z.id in Hpage, Hnext.
  exists next. split; [|done].
  unfold serve, runtime_resource_inventory, inventory_checks, resources_query.
  rewrite Hs, Hw. cbn [result_bind iq_namespace iq_limit iq_include_resources iq_include_sandbox_ids iq_before iq_after
    iq_sandbox_after default]. change (id true) with true. change (id false) with false. rewrite Hn.
  unfold resolve_page_limit. destruct (Z.eqb_spec (Z.of_nat limit) 0) as [|_]; [lia|].
  cbn [result_bind]. rewrite Z.min_l by (unfold MAX_PAGE_LIMIT; lia). rewrite resolve_after by done. cbn [result_bind].
  fold worker_scope. destruct worker_scope as [|w0 ws] eqn:Ews; [by apply not_elem_of_nil in Hself|].
  rewrite <- Ews in *. fold expected_rows. rewrite Hpage. cbn iota beta.
  fold rest. rewrite mapM_items.
  2:{ intros row Hrow. apply elem_of_take in Hrow as (i & Hrow & _). apply list_elem_of_lookup_2 in Hrow.
      apply remaining_elem in Hrow as [? _]. by apply Hi. }
  cbn [mbind option_bind]. rewrite !length_fmap, (proj2 (Nat.leb_le _ _) Hlw), (proj2 (Nat.leb_le _ _) Hll), (take_ge (resident_lease_rows db worker_scope).*1)
    by (by rewrite length_fmap). done.
Qed.

Lemma serve_sandboxes limit c :
  (1 <= limit <= 200)%nat -> match c with Some k => plain_cursor k | None => True end ->
  let rest := remaining sandbox_key (sandbox_rows db) c in
  exists next,
    serve (sandboxes_query namespace limit (encode <$> c)) =
      Some (mkInventoryResponse (worker_provider worker) (labels worker !! "cluster") namespace
              (take limit rest).*1 (match next with None => true | Some _ => false end) [] scope_leases
              (encode <$> next) None) /\
    match next with
    | None => (length rest <= limit)%nat
    | Some k => (limit < length rest)%nat /\ plain_cursor k /\
                remaining sandbox_key (sandbox_rows db) (Some k) = drop limit rest
    end.
Proof.
  intros Hl Hc rest. pose proof self_in_scope as Hself. destruct Hok as [Hs Hw Hn Hlw Hll Hnd Hp _ _ _].
  destruct (paging_step sandbox_key fst (sandbox_rows db) (Z.of_nat limit) c ltac:(lia) Hnd Hp Hc)
    as (next & Hpage & Hnext). rewrite Nat2Z.id in Hpage, Hnext.
  exists next. split; [|done].
  unfold serve, runtime_resource_inventory, inventory_checks, sandboxes_query.
  rewrite Hs, Hw. cbn [result_bind iq_namespace iq_limit iq_include_resources iq_include_sandbox_ids iq_before iq_after
    iq_sandbox_after default]. change (id true) with true. change (id false) with false. rewrite Hn.
  unfold resolve_page_limit. destruct (Z.eqb_spec (Z.of_nat limit) 0) as [|_]; [lia|].
  cbn [result_bind]. rewrite Z.min_l by (unfold MAX_PAGE_LIMIT; lia). rewrite resolve_after by done. cbn [result_bind].
  fold worker_scope. destruct worker_scope as [|w0 ws] eqn:Ews; [by apply not_elem_of_nil in Hself|].
  rewrite <- Ews in *. rewrite Hpage. cbn iota beta. cbn [mapM mbind option_bind].
  rewrite !length_fmap, (proj2 (Nat.leb_le _ _) Hlw), (proj2 (Nat.leb_le _ _) Hll), (take_ge (resident_lease_rows db worker_scope).*1)
    by (by rewrite length_fmap). by destruct next.
Qed.

Definition own_scope : string * option string * string :=
  (worker_provider worker, labels worker !! "cluster", namespace).

Lemma scope_of_own c page :
  default own_scope (co_scope c) = own_scope -> page_scope page = own_scope -> scope_of c page = Some own_scope.
Proof. unfold scope_of. destruct (co_scope c); simpl; congruence. Qed.

(** The loop reaches the last page with all that is left, or stops because that
    is too much. *)
Lemma resource_pages_all max fuel n cur c :
  let rest := remaining resource_key expected_rows cur in
  match cur with Some k => plain_cursor k | None => True end ->
  default own_scope (co_scope c) = own_scope ->
  (length (co_resources c) < max \/ is_Some cur /\ rest <> [])%nat -> (length rest < fuel)%nat ->
  exists next c' n', resource_pages (fun _ => serve) namespace max fuel n (encode <$> cur) c = Some (Ok (next, c', n')) /\
    if (length (co_resources c) + length rest <=? max)%nat
    then next = None /\ c' = mkCollected (Some own_scope) (co_complete c) (co_resources c ++ omap inventory_item rest)
                               (co_sandbox_ids c) (co_lease_ids c ∪ list_to_set scope_leases)
    else is_Some next.
Proof.
  revert n cur c. induction fuel as [|fuel IH]; intros n cur c rest Hcur Hscope Hlt Hfuel; [lia|].
  cbn [resource_pages]. destruct (Nat.leb_spec max (length (co_resources c))) as [Hge|Hroom].
  { destruct Hlt as [|[[k ->] Hrest]]; [lia|]. do 3 eexists. split; [done|].
    destruct (Nat.leb_spec (length (co_resources c) + length rest) max); [|done].
    destruct rest; [done|simpl in *; lia]. }
  set (limit := Nat.min (max - length (co_resources c)) 200).
  destruct (serve_resources limit cur ltac:(lia) Hcur) as (next & Hs & Hnext). fold rest in Hs, Hnext.
  rewrite Hs. cbn [in_complete in_resources in_active_resident_lease_ids in_next_cursor].
  rewrite andb_true_r, scope_of_own by done.
  destruct next as [k|]; cbn [fmap option_fmap option_map].
  - destruct Hnext as (Hmore & Hk & Hrest).
    assert (Hlen : length (omap inventory_item (take limit rest)) = limit).
    { rewrite length_omap_items, length_take; [lia|]. intros row Hrow.
      apply elem_of_take in Hrow as (i & Hrow & _). apply list_elem_of_lookup_2 in Hrow.
      apply remaining_elem in Hrow as [? _]. by apply (io_items Hok). }
    edestruct (IH (S n) (Some k)) as (next & c' & n' & E & Hc'); [done| | | |].
    4:{ exists next, c', n'. cbn [fmap option_fmap option_map] in E. rewrite E. split; [done|]. revert Hc'.
        cbn [co_complete co_resources co_sandbox_ids co_lease_ids]. rewrite Hrest, length_app, Hlen, length_drop.
        replace (length (co_resources c) + limit + (length rest - limit))%nat
          with (length (co_resources c) + length rest)%nat by lia.
        destruct (_ <=? max)%nat; [|done]. intros [-> ->]. split; [done|]. f_equal.
        - by rewrite <- app_assoc, <- omap_app, take_drop.
        - set_solver. }
    + done.
    + right. split; [done|]. rewrite Hrest. intros E. apply (f_equal length) in E. rewrite length_drop in E. simpl in E. lia.
    + rewrite Hrest, length_drop. lia.
  - do 3 eexists. split; [done|]. destruct (Nat.leb_spec (length (co_resources c) + length rest) max); [|lia].
    by rewrite take_ge.
Qed.

Lemma sandbox_pages_all max fuel n cur c :
  let rest := remaining sandbox_key (sandbox_rows db) cur in
  match cur with Some k => plain_cursor k | None => True end ->
  default own_scope (co_scope c) = own_scope ->
  NoDup rest.*1 -> co_sandbox_ids c ## list_to_set rest.*1 ->
  (size (co_sandbox_ids c) < max \/ is_Some cur /\ rest <> [])%nat -> (length rest < fuel)%nat ->
  exists next c', sandbox_pages (fun _ => serve) namespace max fuel n (encode <$> cur) c = Some (Ok (next, c')) /\
    if (size (co_sandbox_ids c) + length rest <=? max)%nat
    then next = None /\ c' = mkCollected (Some own_scope) (co_complete c) (co_resources c)
                               (co_sandbox_ids c ∪ list_to_set rest.*1) (co_lease_ids c ∪ list_to_set scope_leases)
    else is_Some next.
Proof.
  revert n cur c. induction fuel as [|fuel IH]; intros n cur c rest Hcur Hscope Hnd Hdisj Hlt Hfuel; [lia|].
  cbn [sandbox_pages]. destruct (Nat.leb_spec max (size (co_sandbox_ids c))) as [Hge|Hroom].
  { destruct Hlt as [|[[k ->] Hrest]]; [lia|]. do 2 eexists. split; [done|].
    destruct (Nat.leb_spec (size (co_sandbox_ids c) + length rest) max); [|done].
    destruct rest; [done|simpl in *; lia]. }
  set (limit := Nat.min (max - size (co_sandbox_ids c)) 200).
  destruct (serve_sandboxes limit cur ltac:(lia) Hcur) as (next & Hs & Hnext). fold rest in Hs, Hnext.
  rewrite Hs. cbn [in_complete in_sandbox_ids in_active_resident_lease_ids in_sandbox_next_cursor].
  rewrite scope_of_own by done. destruct next as [k|]; cbn [fmap option_fmap option_map].
  2:{ do 2 eexists. split; [done|]. destruct (Nat.leb_spec (size (co_sandbox_ids c) + length rest) max); [|lia].
      by rewrite andb_true_r, take_ge. }
  destruct Hnext as (Hmore & Hk & Hrest).
  assert (Hsplit : rest.*1 = (take limit rest).*1 ++ (drop limit rest).*1) by (by rewrite <- fmap_app, take_drop).
  rewrite Hsplit in Hnd, Hdisj. apply NoDup_app in Hnd as (Hnd1 & Hnd2 & Hnd3). rewrite list_to_set_app in Hdisj.
  assert (Hsize : size (co_sandbox_ids c ∪ list_to_set (take limit rest).*1) = (size (co_sandbox_ids c) + limit)%nat).
  { rewrite size_union by set_solver. rewrite size_list_to_set by done. rewrite length_fmap, length_take. lia. }
  edestruct (IH (S n) (Some k)) as (next & c' & E & Hc'); [done|..].
  6:{ exists next, c'. cbn [fmap option_fmap option_map] in E. rewrite E. split; [done|]. revert Hc'.
      cbn [co_complete co_resources co_sandbox_ids co_lease_ids]. rewrite Hrest, Hsize, length_drop.
      replace (size (co_sandbox_ids c) + limit + (length rest - limit))%nat
        with (size (co_sandbox_ids c) + length rest)%nat by lia.
      destruct (_ <=? max)%nat; [|done]. intros [-> ->]. split; [done|]. f_equal; [|set_solver].
      rewrite Hsplit, list_to_set_app_L. set_solver. }
  - done.
  - by rewrite Hrest.
  - cbn [co_sandbox_ids]. rewrite Hrest. apply disjoint_union_l. split; [set_solver|]. intros x.
    rewrite !elem_of_list_to_set. apply Hnd2.
  - right. split; [done|]. rewrite Hrest. intros E. apply (f_equal length) in E. rewrite length_drop in E. simpl in E. lia.
  - rewrite Hrest, length_drop. lia.
Qed.

Lemma elem_of_expected item :
  item ∈ omap inventory_item (remaining resource_key expected_rows None) <->
  exists row, row ∈ expected_rows /\ inventory_item row = Some item.
Proof.
  rewrite list_elem_of_omap. split; intros (row & Hin & E); exists row; (split; [|done]); revert Hin;
    rewrite (remaining_all resource_key); done.
Qed.

Lemma elem_of_sandbox_rows id : id ∈ (sandbox_rows db).*1 <->
  exists s, sandboxes (world db) !! id = Some s /\ sb_state s <> SandboxState.Archived.
Proof.
  unfold sandbox_rows, not_archived. rewrite list_elem_of_fmap. split.
  - intros ([i s] & -> & Hin). apply list_elem_of_In, filter_In in Hin as [Hin Hs]. exists s. simpl in *.
    apply list_elem_of_In, elem_of_map_to_list in Hin. split; [done|]. by apply negb_true_iff, bool_decide_eq_false in Hs.
  - intros (s & Hl & Hs). exists (id, s). split; [done|]. apply list_elem_of_In, filter_In. split.
    + by apply list_elem_of_In, elem_of_map_to_list.
    + simpl. by rewrite bool_decide_false.
Qed.

Lemma sandbox_rows_NoDup : NoDup (sandbox_rows db).*1.
Proof.
  unfold sandbox_rows. pose proof (NoDup_fst_map_to_list (sandboxes (world db))) as Hn. revert Hn.
  generalize (map_to_list (sandboxes (world db))). intros l. induction l as [|[i s] l IH]; [done|]. simpl.
  intros [Hi Hl]%NoDup_cons. destruct (not_archived (sb_state s)); simpl; [|by apply IH].
  apply NoDup_cons. split; [|by apply IH]. intros Hin. apply Hi. apply list_elem_of_fmap in Hin as ([j t] & -> & Hin).
  apply list_elem_of_In, filter_In in Hin as [Hin _]. apply list_elem_of_fmap. exists (j, t). by rewrite list_elem_of_In.
Qed.

(** The inventory that is collected. *)
Definition whole_inventory (inv : RuntimeResourceInventoryResponse) : Prop :=
  in_provider inv = worker_provider worker /\ in_cluster inv = labels worker !! "cluster" /\ in_namespace inv = namespace /\
  in_complete inv = true /\ in_next_cursor inv = None /\
  (forall item, item ∈ in_resources inv <-> exists row, row ∈ expected_rows /\ inventory_item row = Some item) /\
  (forall id, id ∈ in_sandbox_ids inv <->
     exists s, sandboxes (world db) !! id = Some s /\ sb_state s <> SandboxState.Archived) /\
  (forall id, id ∈ in_active_resident_lease_ids inv <->
     exists l, job_leases db !! id = Some l /\ is_resident_lease db worker_scope l = true).

Lemma elem_of_scope_leases id : id ∈ scope_leases <->
  exists l, job_leases db !! id = Some l /\ is_resident_lease db worker_scope l = true.
Proof.
  unfold scope_leases, resident_lease_rows. pose proof (io_leases Hok) as Hl. unfold resident_lease_rows in Hl.
  set (sorted := merge_sort _ _) in *. rewrite length_take in Hl. rewrite take_ge by lia.
  assert (Hin : forall kl, kl ∈ sorted <-> job_leases db !! kl.1 = Some kl.2 /\ is_resident_lease db worker_scope kl.2 = true).
  { intros [k l]. unfold sorted. rewrite merge_sort_Permutation, list_elem_of_In, filter_In, <- list_elem_of_In.
    by rewrite elem_of_map_to_list. }
  rewrite list_elem_of_fmap. split.
  - intros ([k l] & -> & Hkl). apply Hin in Hkl. by exists l.
  - intros (l & Hkl). exists (id, l). split; [done|]. by apply Hin.
Qed.

(** The pages together are what the tables hold, or the run stops because that is
    more than it may scan. *)
Lemma fetched_inventory max fuel :
  (1 <= max)%nat -> (length expected_rows < fuel)%nat -> (length (sandbox_rows db) < fuel)%nat ->
  exists answer, fetch_runtime_resource_inventory (fun _ => serve) namespace max fuel = Some answer /\
    if (length expected_rows <=? max)%nat && (length (sandbox_rows db) <=? max)%nat
    then exists inv, answer = Ok inv /\ whole_inventory inv
    else exists e, answer = Err e.
Proof.
  intros Hm Hfr Hfs.
  assert (Lr : length (remaining resource_key expected_rows None) = length expected_rows)
    by (by rewrite (remaining_all resource_key)).
  assert (Ls : length (remaining sandbox_key (sandbox_rows db) None) = length (sandbox_rows db))
    by (by rewrite (remaining_all sandbox_key)).
  unfold fetch_runtime_resource_inventory.
  destruct (resource_pages_all max fuel 0 None collected_start) as (next & c & n & E & Hc);
    [done|done|left; simpl; lia|lia|].
  cbn [fmap option_fmap option_map] in E. rewrite E. cbn [mbind option_bind].
  cbn [co_resources collected_start length] in Hc. rewrite Lr, Nat.add_0_l in Hc.
  destruct (length expected_rows <=? max)%nat; [|destruct Hc as [k ->]; eexists; split; [done|]; by eexists].
  destruct Hc as [-> ->]. cbn [andb].
  edestruct (sandbox_pages_all max fuel n None) as (next & c & E2 & Hc); cycle 6.
  { cbn [fmap option_fmap option_map] in E2. rewrite E2. cbn [mbind option_bind].
    cbn [co_sandbox_ids collected_start] in Hc. rewrite size_empty, Ls, Nat.add_0_l in Hc.
    eexists. split; [done|].
    destruct (length (sandbox_rows db) <=? max)%nat; [|destruct Hc as [k ->]; by eexists].
    destruct Hc as [-> ->]. eexists. split; [done|]. unfold collected_response, whole_inventory, own_scope.
    cbn -[elements list_to_set union omap remaining]. split_and!; [done..| | |].
    + intros item. simpl. by rewrite elem_of_expected.
    + intros id. rewrite <- elem_of_sandbox_rows, elem_of_elements, (left_id_L ∅ (∪)), elem_of_list_to_set.
      by rewrite (remaining_all sandbox_key).
    + intros id. rewrite <- elem_of_scope_leases. set_solver. }
  - done.
  - done.
  - rewrite (remaining_all sandbox_key). apply sandbox_rows_NoDup.
  - set_solver.
  - left. cbn [co_sandbox_ids collected_start]. rewrite size_empty. lia.
  - lia.
Qed.
End Whole.
