(* ===== verification/WorkerReconcile.v ===== *)
(** * Orphan reconciliation

    A reconciler lists what a cluster's namespace holds, compares it with the
    inventory of the control plane and deletes what it takes for orphaned or
    expired; before that it recreates supervisor Pods of sterile cells that have
    ended.  This file models a pass whole: the rows that [kubectl] prints, the
    classification of each resource, the supervisors that are revived, and the
    deletions with their limits.

    Source: [sandboxwich-worker/src/provider.rs].  What the cluster and the clock
    answer and whether the run is cancelled is an argument; so is the rendering of
    a supervisor's manifest. *)

From S2P Require Import Prelude Text CoreTypes Json Store Leases World Pagination Scopes SandboxStop RuntimeInventory.

Definition WORKSPACE_CLAIM_NAME_PREFIX : string := "sandboxwich-pvc-".
Definition STERILE_SUPERVISOR_POD_PREFIX : string := "sandboxwich-supervisor-".
Definition GUEST_TOKEN_SECRET_NAME_PREFIX : string := "sandboxwich-guest-token-".
Definition STERILE_ACTIVATION_CLIENT_SECRET_PREFIX : string := "sandboxwich-activation-client-".
Definition UNBOUND_WORKSPACE_CLAIM_REAP_AFTER_MINUTES : Z := 60.

(** [chrono::Duration::minutes(n)]. *)
Definition minutes (n : Z) : Z := (n * 60 * 1000000000)%Z.

Inductive PodLifecyclePhase : Set :=
| Terminal
| Live.
#[export] Instance PodLifecyclePhase_eq_dec : EqDecision PodLifecyclePhase.
Proof. solve_decision. Defined.

Definition pod_phase_parse (phase : string) : PodLifecyclePhase :=
  if String.eqb phase "Failed" || String.eqb phase "Succeeded" then Terminal else Live.

Module VolumeClaimPhase.
Inductive VolumeClaimPhase : Set :=
| Pending
| Bound
| Other.
#[global] Instance VolumeClaimPhase_eq_dec : EqDecision VolumeClaimPhase.
Proof. solve_decision. Defined.
End VolumeClaimPhase.
Abbreviation VolumeClaimPhase := VolumeClaimPhase.VolumeClaimPhase.

Definition claim_phase_parse (phase : string) : VolumeClaimPhase :=
  if String.eqb phase "Pending" then VolumeClaimPhase.Pending
  else if String.eqb phase "Bound" then VolumeClaimPhase.Bound
  else VolumeClaimPhase.Other.

Record ExpectedKubernetesResource : Type := mkExpectedResource {
  ex_sandbox_id : Uuid;
  ex_resource_kind : RuntimeResourceKind;
  ex_namespace : string;
  ex_name : string;
  ex_uid : string;
  ex_expires_at : option Z
}.

Record ObservedKubernetesResource : Type := mkObservedResource {
  ob_sandbox_id : option Uuid;
  ob_resource_kind : RuntimeResourceKind;
  ob_namespace : string;
  ob_name : string;
  ob_uid : string;
  ob_resident_lease_id : option Uuid;
  ob_created_at : option Z;
  ob_volume_claim_phase : option VolumeClaimPhase;
  ob_pod_phase : option PodLifecyclePhase
}.

Record ReconciliationInventory : Type := mkReconciliationInventory {
  rc_sandbox_ids : gset Uuid;
  rc_resources : list ExpectedKubernetesResource;
  rc_active_resident_lease_ids : gset Uuid
}.

Module ReconciliationClassification.
Inductive ReconciliationClassification : Set :=
| Expected
| Missing
| Orphaned
| Expired
| Indeterminate.
#[global] Instance ReconciliationClassification_eq_dec : EqDecision ReconciliationClassification.
Proof. solve_decision. Defined.
End ReconciliationClassification.
Abbreviation ReconciliationClassification := ReconciliationClassification.ReconciliationClassification.

Record ReconciliationDecision : Type := mkDecision {
  dc_classification : ReconciliationClassification;
  dc_resource : option ObservedKubernetesResource;
  dc_delete_allowed : bool
}.

Record ReconciliationLimits : Type := mkLimits {
  max_scanned : nat;
  max_deleted : nat;
  max_elapsed : Z
}.

Record ReconciliationOutcome : Type := mkOutcome {
  oc_decisions : list ReconciliationDecision;
  oc_deleted : nat;
  oc_apply : bool;
  oc_supervisor_revivals : nat
}.

(** ** Reading the cluster *)

(** [DateTime::parse_from_rfc3339]. *)
Class Rfc3339Lib : Type := { parse_from_rfc3339 : string -> option Z }.

Inductive RowError : Type :=
| WrongFieldCount (row fields : nat)
| OmittedField (field : string)
| InvalidCreationTimestamp
| UnsupportedKind (kind : string).

Definition runtime_resource_kind_for_kubernetes_kind (kind : string) : result RuntimeResourceKind RowError :=
  if String.eqb kind "SandboxClaim" then Ok RuntimeResourceKind.SandboxClaim
  else if String.eqb kind "Sandbox" then Ok RuntimeResourceKind.Sandbox
  else if String.eqb kind "PersistentVolumeClaim" then Ok RuntimeResourceKind.PersistentVolumeClaim
  else if String.eqb kind "NetworkPolicy" || String.eqb kind "FQDNNetworkPolicy" then Ok RuntimeResourceKind.NetworkPolicy
  else if String.eqb kind "Secret" then Ok RuntimeResourceKind.Secret
  else if String.eqb kind "Pod" then Ok RuntimeResourceKind.Pod
  else if String.eqb kind "Service" then Ok RuntimeResourceKind.Service
  else Err (UnsupportedKind kind).

Definition reconciliation_optional_field (value : string) : option string :=
  if String.eqb value "<none>" then None else Some value.

Definition required_field (value field : string) : result string RowError :=
  if String.eqb value "<none>" then Err (OmittedField field) else Ok value.

(** [str::lines]: a carriage return before a newline belongs to the line's end,
    and an empty text after the last newline is no line. *)
Definition text_lines (t : Text) : list Text :=
  match reverse (split_char 10 t) with
  | [] => []
  | rest :: ended =>
      ((fun line => default line (strip_suffix [13%N] line)) <$> reverse ended)
      ++ (if is_nil rest then [] else [rest])
  end.

Section Rows.
Context `{UuidLib} `{Rfc3339Lib}.

Definition parse_row (index : nat) (line : Text) : result ObservedKubernetesResource RowError :=
  match string_of_chars <$> split_whitespace line with
  | [kind; sandbox; namespace; name; uid; lease; created; phase] =>
      let? created_at := match reconciliation_optional_field created with
                         | None => Ok None
                         | Some value => match parse_from_rfc3339 value with
                                         | Some at_ => Ok (Some at_)
                                         | None => Err InvalidCreationTimestamp
                                         end
                         end in
      let? resource_kind := runtime_resource_kind_for_kubernetes_kind kind in
      let? namespace := required_field namespace "namespace" in
      let? name := required_field name "name" in
      let? uid := required_field uid "uid" in
      Ok (mkObservedResource (reconciliation_optional_field sandbox ≫= uuid_parse_str) resource_kind namespace name uid
            (reconciliation_optional_field lease ≫= uuid_parse_str) created_at
            (if String.eqb kind "PersistentVolumeClaim"
             then claim_phase_parse <$> reconciliation_optional_field phase else None)
            (if String.eqb kind "Pod" then pod_phase_parse <$> reconciliation_optional_field phase else None))
  | fields => Err (WrongFieldCount (S index) (length fields))
  end.

Definition parse_reconciliation_resource_rows (output : Text) : result (list ObservedKubernetesResource) RowError :=
  result_all (fun il => parse_row il.1 il.2)
    (imap pair (List.filter (fun line => negb (is_nil (text_trim line))) (text_lines output))).

Inductive DiscoveryError : Type :=
| KubectlFailed
| MalformedRow (e : RowError)
| ExceededMaxScanned.

(** The listings, one per kind; [None] is a command that failed. *)
Fixpoint discover_kinds (max_scanned : nat) (outputs : list (option Text)) (resources : list ObservedKubernetesResource) :
    result (list ObservedKubernetesResource) DiscoveryError :=
  match outputs with
  | [] => Ok resources
  | None :: _ => Err KubectlFailed
  | Some output :: outputs =>
      match parse_reconciliation_resource_rows output with
      | Err e => Err (MalformedRow e)
      | Ok rows =>
          let resources := resources ++ rows in
          if (max_scanned <? length resources)%nat then Err ExceededMaxScanned
          else discover_kinds max_scanned outputs resources
      end
  end.

Definition discover_reconciliation_resources (max_scanned : nat) (outputs : list (option Text)) :
    result (list ObservedKubernetesResource) DiscoveryError :=
  discover_kinds max_scanned outputs [].
End Rows.

(** ** Classification *)

Definition is_reapable_unbound_workspace_claim (resource : ObservedKubernetesResource) (now : Z) : bool :=
  bool_decide (ob_resource_kind resource = RuntimeResourceKind.PersistentVolumeClaim)
  && starts_with WORKSPACE_CLAIM_NAME_PREFIX (ob_name resource)
  && bool_decide (ob_volume_claim_phase resource = Some VolumeClaimPhase.Pending)
  && match ob_created_at resource with
     | Some created_at => (minutes UNBOUND_WORKSPACE_CLAIM_REAP_AFTER_MINUTES <=? now - created_at)%Z
     | None => false
     end.

(** The coordinates of an expected and an observed resource agree. *)
Definition same_coordinates (resource : ObservedKubernetesResource) (expected : ExpectedKubernetesResource) : bool :=
  bool_decide (Some (ex_sandbox_id expected) = ob_sandbox_id resource)
  && bool_decide (ex_resource_kind expected = ob_resource_kind resource)
  && String.eqb (ex_namespace expected) (ob_namespace resource)
  && String.eqb (ex_name expected) (ob_name resource).

Definition coordinate_match (inventory : ReconciliationInventory) (resource : ObservedKubernetesResource) :
    option ExpectedKubernetesResource :=
  List.find (same_coordinates resource) (rc_resources inventory).

(** The [match] on the sandbox's label. *)
Definition classify_labelled (inventory : ReconciliationInventory) (expired : gmap Uuid Z) (now : Z)
    (resource : ObservedKubernetesResource) : ReconciliationClassification :=
  match ob_sandbox_id resource with
  | None => ReconciliationClassification.Indeterminate
  | Some sandbox_id =>
      match ob_resident_lease_id resource with
      | Some lease =>
          if bool_decide (lease ∈ rc_active_resident_lease_ids inventory) then ReconciliationClassification.Expected
          else match ob_created_at resource with
               | Some created_at =>
                   if (minutes 5 <=? now - created_at)%Z then ReconciliationClassification.Orphaned
                   else ReconciliationClassification.Indeterminate
               | None => ReconciliationClassification.Indeterminate
               end
      | None =>
          let matched := coordinate_match inventory resource in
          if match matched with Some e => negb (String.eqb (ex_uid e) (ob_uid resource)) | None => false end
          then ReconciliationClassification.Indeterminate
          else if match expired !! sandbox_id with Some at_ => (at_ <=? now)%Z | None => false end
          then ReconciliationClassification.Expired
          else if is_some matched then ReconciliationClassification.Expected
          else if bool_decide (sandbox_id ∈ rc_sandbox_ids inventory) then ReconciliationClassification.Indeterminate
          else ReconciliationClassification.Orphaned
      end
  end.

Definition classify_observed (inventory : ReconciliationInventory) (expired : gmap Uuid Z) (now : Z)
    (resource : ObservedKubernetesResource) : ReconciliationDecision :=
  let classification := classify_labelled inventory expired now resource in
  let classification :=
    if bool_decide (classification = ReconciliationClassification.Indeterminate)
       && is_none (coordinate_match inventory resource)
       && is_reapable_unbound_workspace_claim resource now
    then ReconciliationClassification.Orphaned else classification in
  mkDecision classification (Some resource)
    (match classification with
     | ReconciliationClassification.Orphaned | ReconciliationClassification.Expired => true
     | _ => false
     end).

Definition is_observed (observed : list ObservedKubernetesResource) (expected : ExpectedKubernetesResource) : bool :=
  existsb (fun resource => same_coordinates resource expected && String.eqb (ob_uid resource) (ex_uid expected)) observed.

Definition missing_decision : ReconciliationDecision := mkDecision ReconciliationClassification.Missing None false.

Definition classify_reconciliation (inventory : ReconciliationInventory) (observed : list ObservedKubernetesResource)
    (expired : gmap Uuid Z) (now : Z) : list ReconciliationDecision :=
  (classify_observed inventory expired now <$> observed)
  ++ ((fun _ => missing_decision) <$> List.filter (fun e => negb (is_observed observed e)) (rc_resources inventory)).

Definition plan_orphan_reconciliation (inventory : option ReconciliationInventory)
    (observed : list ObservedKubernetesResource) (expired : gmap Uuid Z) (now : Z) : list ReconciliationDecision :=
  match inventory with
  | Some inventory => classify_reconciliation inventory observed expired now
  | None => (fun resource => mkDecision ReconciliationClassification.Indeterminate (Some resource) false) <$> observed
  end.

(** ** Supervisors to revive *)

Record SupervisorRevival : Type := mkRevival {
  sr_supervisor : ObservedKubernetesResource;
  sr_tenant_pod : ObservedKubernetesResource
}.

Section Revivals.
Context `{UuidLib}.

Definition live_resource (observed : list ObservedKubernetesResource) (kind : RuntimeResourceKind) (sandbox_id : Uuid)
    (name : string) : option ObservedKubernetesResource :=
  List.find (fun resource => bool_decide (ob_resource_kind resource = kind)
                             && bool_decide (ob_sandbox_id resource = Some sandbox_id)
                             && String.eqb (ob_name resource) name) observed.

Definition plan_revival (inventory : ReconciliationInventory) (observed : list ObservedKubernetesResource)
    (supervisor : ObservedKubernetesResource) : option SupervisorRevival :=
  if negb (bool_decide (ob_resource_kind supervisor = RuntimeResourceKind.Pod))
     || negb (starts_with STERILE_SUPERVISOR_POD_PREFIX (ob_name supervisor))
     || negb (bool_decide (ob_pod_phase supervisor = Some Terminal))
  then None
  else
    sandbox_id ← ob_sandbox_id supervisor;
    if negb (bool_decide (sandbox_id ∈ rc_sandbox_ids inventory)) then None
    else if negb (existsb (fun expected => bool_decide (ex_sandbox_id expected = sandbox_id)
                                          && bool_decide (ex_resource_kind expected = RuntimeResourceKind.Pod)
                                          && String.eqb (ex_name expected) (ob_name supervisor)) (rc_resources inventory))
    then None
    else
      tenant_pod ← live_resource observed RuntimeResourceKind.Pod sandbox_id ("sandboxwich-" ++ uuid_to_string sandbox_id);
      if negb (bool_decide (ob_pod_phase tenant_pod = Some Live)) then None
      else
        _ ← live_resource observed RuntimeResourceKind.Secret sandbox_id
              (GUEST_TOKEN_SECRET_NAME_PREFIX ++ uuid_to_string sandbox_id);
        _ ← live_resource observed RuntimeResourceKind.Secret sandbox_id
              (STERILE_ACTIVATION_CLIENT_SECRET_PREFIX ++ uuid_to_string sandbox_id);
        Some (mkRevival supervisor tenant_pod).

Definition plan_supervisor_revivals (inventory : ReconciliationInventory) (observed : list ObservedKubernetesResource) :
    list SupervisorRevival :=
  omap (plan_revival inventory observed) observed.
End Revivals.

(** ** Deleting *)

(** The path of the request; volume snapshots are out of scope. *)
Definition kubernetes_delete_path (resource : ObservedKubernetesResource) : option string :=
  let named prefix plural := (prefix ++ "/namespaces/" ++ ob_namespace resource ++ "/" ++ plural ++ "/" ++ ob_name resource)%string in
  match ob_resource_kind resource with
  | RuntimeResourceKind.Pod => Some (named "/api/v1" "pods")
  | RuntimeResourceKind.SandboxClaim => Some (named "/apis/extensions.agents.x-k8s.io/v1alpha1" "sandboxclaims")
  | RuntimeResourceKind.Sandbox => Some (named "/apis/agents.x-k8s.io/v1alpha1" "sandboxes")
  | RuntimeResourceKind.PersistentVolumeClaim => Some (named "/api/v1" "persistentvolumeclaims")
  | RuntimeResourceKind.Service => Some (named "/api/v1" "services")
  | RuntimeResourceKind.Secret => Some (named "/api/v1" "secrets")
  | RuntimeResourceKind.NetworkPolicy =>
      if starts_with "sandboxwich-fqdn-egress-" (ob_name resource)
      then Some (named "/apis/networking.gke.io/v1alpha1" "fqdnnetworkpolicies")
      else Some (named "/apis/networking.k8s.io/v1" "networkpolicies")
  | RuntimeResourceKind.VolumeSnapshot => None
  end.

Definition kubernetes_delete_options (resource : ObservedKubernetesResource) : Json :=
  JObject [("apiVersion", JString "v1"); ("kind", JString "DeleteOptions");
           ("preconditions", JObject [("uid", JString (ob_uid resource))]);
           ("propagationPolicy",
            JString (if bool_decide (ob_resource_kind resource = RuntimeResourceKind.SandboxClaim)
                     then "Foreground" else "Background"))].

(** What a pass does to the cluster. *)
Inductive Effect (Manifest : Type) : Type :=
| DeleteRequest (path : string) (options : Json)
| ApplyRequest (manifest : Manifest).
Arguments DeleteRequest {Manifest} path options.
Arguments ApplyRequest {Manifest} manifest.

(** [delete_reconciled_resource]: the request, when one is sent, and whether the
    resource is gone; [status] is the answer, [None] when there is none. *)
Definition delete_reconciled_resource {M} (own_credentials cancelled : bool) (status : option Z)
    (resource : ObservedKubernetesResource) : list (Effect M) * bool :=
  if negb own_credentials || cancelled then ([], false)
  else match kubernetes_delete_path resource with
       | None => ([], false)
       | Some path =>
           ([DeleteRequest path (kubernetes_delete_options resource)],
            match status with
            | Some code => (200 <=? code)%Z && (code <? 300)%Z || (code =? 404)%Z
            | None => false
            end)
       end.

(** ** Reviving: [revive_terminated_supervisor] *)

Section Pass.
Context `{UuidLib} {Manifest : Type}.

Definition as_array (v : Json) : list Json := match v with JArray vs => vs | _ => [] end.

Definition has_name (name : string) (v : Json) : bool := bool_decide (get_str v "name" = Some name).

(** An environment variable of the container [sandboxwich-supervisor]. *)
Definition env_value (pod : Json) (key : string) : option string :=
  container ← List.find (has_name "sandboxwich-supervisor") (as_array (index (index pod "spec") "containers"));
  variable ← List.find (has_name key) (as_array (index container "env"));
  get_str variable "value".

(** The answers around one revival: the Pod as the n-th read finds it ([None]
    when reading fails), whether the run is cancelled when it is about to delete
    (0) and at the n-th poll after that, whether the deletion and the application succeed; and the manifest that is rendered
    from the marker, when it can be. *)
Record RevivalScript : Type := mkRevivalScript {
  rv_read : nat -> option (option Json);
  rv_cancelled : nat -> bool;
  rv_delete_status : option Z;
  rv_applies : bool;
  rv_render : Uuid -> Uuid -> string -> string -> string -> option Manifest
}.

(** Waiting for the object to disappear, once a second: whether it did. *)
Fixpoint wait_gone (script : RevivalScript) (polls n : nat) : bool * nat :=
  match polls with
  | O => (false, n)
  | S polls =>
      if rv_cancelled script n then (false, n)
      else match rv_read script n with
           | None => (false, S n)
           | Some None => (true, S n)
           | Some (Some _) => wait_gone script polls (S n)
           end
  end.

(** The manifest of the replacement, when the ended Pod is the one observed and
    its environment names the sandbox. *)
Definition revival_manifest (script : RevivalScript) (revival : SupervisorRevival) : option Manifest :=
  let supervisor := sr_supervisor revival in
  read ← rv_read script 0;
  pod ← read;
  if negb (bool_decide (get_str (index pod "metadata") "uid" = Some (ob_uid supervisor))) then None
  else
    sandbox_id ← ob_sandbox_id supervisor;
    labelled ← env_value pod "SANDBOXWICH_SANDBOX_ID";
    if negb (String.eqb labelled (uuid_to_string sandbox_id)) then None
    else
      worker_id ← env_value pod "SANDBOXWICH_WORKER_ID" ≫= uuid_parse_str;
      marker ← env_value pod "SANDBOXWICH_STERILE_POOL_CANDIDATE_V1";
      rv_render script sandbox_id worker_id marker (ob_name (sr_tenant_pod revival)) (ob_uid (sr_tenant_pod revival)).

Definition revive_terminated_supervisor (own_credentials : bool) (script : RevivalScript) (revival : SupervisorRevival) :
    list (Effect Manifest) * bool :=
  match revival_manifest script revival with
  | None => ([], false)
  | Some manifest =>
      let '(effects, deleted) := delete_reconciled_resource own_credentials (rv_cancelled script 0) (rv_delete_status script) (sr_supervisor revival) in
      if negb deleted then (effects, false)
      else
        let '(gone, n) := wait_gone script 30 1 in
        if negb gone then (effects, false)
        else
          let effects := effects ++ [ApplyRequest manifest] in
          if negb (rv_applies script) then (effects, false)
          else (effects, match rv_read script n with Some (Some _) => true | _ => false end)
  end.

(** The revivals in turn; [stop] says whether the run is cancelled or out of time
    before the n-th. *)
Fixpoint revive_all (own_credentials : bool) (stop : nat -> bool) (scripts : nat -> RevivalScript) (n : nat)
    (revivals : list SupervisorRevival) : list (Effect Manifest) * nat :=
  match revivals with
  | [] => ([], 0)
  | revival :: revivals =>
      if stop n then ([], 0)
      else
        let '(effects, ok) := revive_terminated_supervisor own_credentials (scripts n) revival in
        let '(rest, revived) := revive_all own_credentials stop scripts (S n) revivals in
        (effects ++ rest, (if ok then S revived else revived))
  end.

(** ** The pass: [reconcile_orphans_with_delete] *)

(** The answers around the deletions: readings of the clock and of the cluster, and
    whether the run is cancelled when it is about to send the n-th. *)
Record PassScript : Type := mkPassScript {
  ps_own_credentials : bool;
  ps_stop_reviving : nat -> bool;
  ps_revivals : nat -> RevivalScript;
  ps_now : Z;
  ps_elapsed : nat -> Z;
  ps_cancelled : nat -> bool;
  ps_status : nat -> option Z
}.

(** The deletions in turn, [deleted] so far and after [clock] readings; the
    number is [None] when one fails. *)
Fixpoint delete_allowed_resources (script : PassScript) (limits : ReconciliationLimits) (deleted clock : nat)
    (decisions : list ReconciliationDecision) : list (Effect Manifest) * option nat :=
  match decisions with
  | [] => ([], Some deleted)
  | decision :: decisions =>
      if (max_deleted limits <=? deleted)%nat || (max_elapsed limits <=? ps_elapsed script clock)%Z then ([], Some deleted)
      else match dc_resource decision with
           | Some resource =>
               if dc_delete_allowed decision then
                 if (Z.max 0 (max_elapsed limits - ps_elapsed script (S clock)) =? 0)%Z then ([], Some deleted)
                 else
                   let '(effects, ok) := delete_reconciled_resource (ps_own_credentials script) (ps_cancelled script deleted)
                                         (ps_status script deleted) resource in
                   if negb ok then (effects, None)
                   else
                     let '(rest, count) := delete_allowed_resources script limits (S deleted) (S (S clock)) decisions in
                     (effects ++ rest, count)
               else delete_allowed_resources script limits deleted (S clock) decisions
           | None => delete_allowed_resources script limits deleted (S clock) decisions
           end
  end.

Definition expected_resource (item : RuntimeResourceInventoryItem) : ExpectedKubernetesResource :=
  mkExpectedResource (ii_sandbox_id item) (ii_resource_kind item) (ii_namespace item) (ii_name item) (ii_uid item)
    (match ii_cleanup_deadline item with Some at_ => Some at_ | None => ii_expires_at item end).

(** The inventory, unless it is not of this worker's scope. *)
Definition scoped_inventory (cluster namespace : string) (response : RuntimeResourceInventoryResponse) :
    option ReconciliationInventory :=
  if negb (String.eqb (in_provider response) "kubernetes")
     || negb (String.eqb (in_namespace response) namespace)
     || negb (bool_decide (in_cluster response = Some cluster))
     || negb (in_complete response) || is_some (in_next_cursor response)
  then None
  else Some (mkReconciliationInventory (list_to_set (in_sandbox_ids response))
               (expected_resource <$> in_resources response) (list_to_set (in_active_resident_lease_ids response))).

(** When each sandbox expires: of several resources the last one counts. *)
Definition expired_sandboxes (resources : list ExpectedKubernetesResource) : gmap Uuid Z :=
  fold_left (fun m r => match ex_expires_at r with Some at_ => <[ex_sandbox_id r := at_]> m | None => m end) resources ∅.

Definition reconcile_orphans_with_delete (cluster namespace : string)
    (inventory : option RuntimeResourceInventoryResponse)
    (discovered : result (list ObservedKubernetesResource) DiscoveryError)
    (limits : ReconciliationLimits) (apply : bool) (script : PassScript) :
    list (Effect Manifest) * option ReconciliationOutcome :=
  match discovered with
  | Err _ =>
      ([], Some (mkOutcome ((fun _ => mkDecision ReconciliationClassification.Indeterminate None false)
                             <$> default [] (in_resources <$> inventory)) 0 apply 0))
  | Ok observed =>
      let inventory := inventory ≫= scoped_inventory cluster namespace in
      let expired := default ∅ ((fun i => expired_sandboxes (rc_resources i)) <$> inventory) in
      let '(revive_effects, revived) :=
        match inventory with
        | None => ([], 0)
        | Some inventory =>
            let revivals := plan_supervisor_revivals inventory observed in
            if apply then revive_all (ps_own_credentials script) (ps_stop_reviving script) (ps_revivals script) 0 revivals
            else ([], length revivals)
        end in
      let decisions := take (max_scanned limits) (plan_orphan_reconciliation inventory observed expired (ps_now script)) in
      let '(delete_effects, deleted) :=
        if apply then delete_allowed_resources script limits 0 0 decisions else ([], Some 0) in
      (revive_effects ++ delete_effects,
       deleted ← deleted; Some (mkOutcome decisions deleted apply revived))
  end.
End Pass.

(** ** A run: [reconcile_once] *)

Section Run.
Context `{UuidLib} `{Rfc3339Lib} {Manifest : Type}.
Context (ask : nat -> RuntimeResourceInventoryQuery -> option RuntimeResourceInventoryResponse).

(** The inventory is collected and checked, then the cluster is listed.  [None] is
    a run that does not end; without an outcome it ends in an error. *)
Definition reconcile_once (cluster namespace : string) (fuel : nat) (outputs : list (option Text))
    (limits : ReconciliationLimits) (apply : bool) (script : PassScript) :
    option (list (Effect Manifest) * option ReconciliationOutcome) :=
  fetched ← fetch_runtime_resource_inventory ask namespace (max_scanned limits) fuel;
  Some match fetched with
       | Err _ => ([], None)
       | Ok inventory =>
           if validate_reconciliation_inventory_scope inventory cluster namespace
           then reconcile_orphans_with_delete cluster namespace (Some inventory)
                  (discover_reconciliation_resources (max_scanned limits) outputs) limits apply script
           else ([], None)
       end.
End Run.

(** ** What is deleted *)

(** No expected resource has the coordinates of the observed one. *)
Definition unexpected (inventory : ReconciliationInventory) (resource : ObservedKubernetesResource) : Prop :=
  forall e, e ∈ rc_resources inventory -> same_coordinates resource e = false.

(** The grounds on which a resource may be deleted. *)
Inductive deletable (inventory : ReconciliationInventory) (now : Z) (resource : ObservedKubernetesResource) : Prop :=
| EndedResident sandbox lease created_at :
    ob_sandbox_id resource = Some sandbox -> ob_resident_lease_id resource = Some lease ->
    lease ∉ rc_active_resident_lease_ids inventory ->
    ob_created_at resource = Some created_at -> (minutes 5 <= now - created_at)%Z -> deletable inventory now resource
| ExpiredSandbox sandbox at_ :
    ob_sandbox_id resource = Some sandbox -> ob_resident_lease_id resource = None ->
    match coordinate_match inventory resource with Some e => ex_uid e = ob_uid resource | None => True end ->
    expired_sandboxes (rc_resources inventory) !! sandbox = Some at_ -> (at_ <= now)%Z -> deletable inventory now resource
| UnknownSandbox sandbox :
    ob_sandbox_id resource = Some sandbox -> ob_resident_lease_id resource = None ->
    unexpected inventory resource -> sandbox ∉ rc_sandbox_ids inventory -> deletable inventory now resource
| NeverBound :
    (forall lease, is_Some (ob_sandbox_id resource) -> ob_resident_lease_id resource = Some lease ->
       lease ∉ rc_active_resident_lease_ids inventory) ->
    unexpected inventory resource -> is_reapable_unbound_workspace_claim resource now = true ->
    deletable inventory now resource.

Lemma unexpected_spec inventory resource :
  coordinate_match inventory resource = None <-> unexpected inventory resource.
Proof.
  unfold coordinate_match, unexpected. split.
  - intros Hf e He. apply (List.find_none _ _ Hf). by apply list_elem_of_In.
  - intros Hu. destruct (List.find _ _) as [e|] eqn:Ef; [|done]. apply List.find_some in Ef as [He Ht].
    by rewrite Hu in Ht by (by apply list_elem_of_In).
Qed.

Lemma classify_sound inventory now resource :
  dc_delete_allowed (classify_observed inventory (expired_sandboxes (rc_resources inventory)) now resource) = true ->
  deletable inventory now resource.
Proof.
  unfold classify_observed. cbn [dc_delete_allowed]. set (expired := expired_sandboxes _).
  destruct (bool_decide (classify_labelled inventory expired now resource = _)
    && is_none (coordinate_match inventory resource) && is_reapable_unbound_workspace_claim resource now) eqn:Eb.
  + intros _. apply andb_prop in Eb as [[Ec Em]%andb_prop Er]. apply bool_decide_eq_true in Ec.
    destruct (coordinate_match inventory resource) eqn:Ecm; [done|]. apply unexpected_spec in Ecm.
    apply NeverBound; [|done|done]. intros lease [s Hs] Hl Hin. unfold classify_labelled in Ec.
    rewrite Hs, Hl, bool_decide_true in Ec by done. done.
  + clear Eb. unfold classify_labelled. destruct (ob_sandbox_id resource) as [sandbox|] eqn:Es; [|done].
    destruct (ob_resident_lease_id resource) as [lease|] eqn:El.
    * case_bool_decide as Hin; [done|]. destruct (ob_created_at resource) as [created|] eqn:Et; [|done].
      destruct (Z.leb_spec (minutes 5) (now - created)) as [Hle|]; [|done]. intros _. by eapply EndedResident.
    * destruct (coordinate_match inventory resource) as [e|] eqn:Em.
      -- destruct (String.eqb_spec (ex_uid e) (ob_uid resource)) as [Eu|]; [|done]. cbn [negb].
         destruct (expired !! sandbox) as [at_|] eqn:Ex; [|done].
         destruct (Z.leb_spec at_ now); [|done]. intros _. eapply ExpiredSandbox; eauto. by rewrite Em.
      -- destruct (expired !! sandbox) as [at_|] eqn:Ex; [destruct (Z.leb_spec at_ now)|].
         ++ intros _. eapply ExpiredSandbox; eauto. by rewrite Em.
         ++ simpl. case_bool_decide; [done|]. intros _. apply unexpected_spec in Em. by eapply UnknownSandbox.
         ++ simpl. case_bool_decide; [done|]. intros _. apply unexpected_spec in Em. by eapply UnknownSandbox.
Qed.

Lemma classify_complete inventory now resource :
  deletable inventory now resource ->
  dc_delete_allowed (classify_observed inventory (expired_sandboxes (rc_resources inventory)) now resource) = true.
Proof.
  unfold classify_observed. cbn [dc_delete_allowed]. set (expired := expired_sandboxes _).
  intros Hd. destruct Hd as [sandbox lease created Es El Hin Et Hle|sandbox at_ Es El Hm Ex Hle|sandbox Es El Hu Hin|Hl Hu Hr].
  + assert (Hc : classify_labelled inventory expired now resource = ReconciliationClassification.Orphaned).
    { unfold classify_labelled. rewrite Es, El, bool_decide_false, Et by done. by rewrite (proj2 (Z.leb_le _ _) Hle). }
    by rewrite Hc.
  + assert (Hc : classify_labelled inventory expired now resource = ReconciliationClassification.Expired).
    { unfold classify_labelled. fold expired in Ex. rewrite Es, El, Ex, (proj2 (Z.leb_le _ _) Hle).
      destruct (coordinate_match inventory resource) as [e|]; [|done]. by rewrite Hm, String.eqb_refl. }
    by rewrite Hc.
  + apply unexpected_spec in Hu.
    assert (Hc : classify_labelled inventory expired now resource = ReconciliationClassification.Orphaned \/
                 classify_labelled inventory expired now resource = ReconciliationClassification.Expired).
    { unfold classify_labelled. rewrite Es, El, Hu. cbn [is_some]. rewrite bool_decide_false by done.
      destruct (expired !! sandbox) as [at_|]; [destruct (at_ <=? now)%Z|]; auto. }
    by destruct Hc as [-> | ->].
  + apply unexpected_spec in Hu. rewrite Hr, Hu. cbn [is_none is_some negb]. rewrite !andb_true_r.
    case_bool_decide as Hc; [done|]. unfold classify_labelled in *.
    destruct (ob_sandbox_id resource) as [sandbox|]; [|done].
    destruct (ob_resident_lease_id resource) as [lease|].
    * rewrite bool_decide_false in * by (by apply Hl). destruct (ob_created_at resource); [|done].
      by destruct (minutes 5 <=? now - z)%Z.
    * rewrite Hu in *. destruct (match expired !! sandbox with Some _ => _ | None => _ end); [done|]. simpl in *.
      by case_bool_decide.
Qed.

Lemma classify_spec inventory now resource :
  dc_delete_allowed (classify_observed inventory (expired_sandboxes (rc_resources inventory)) now resource) = true <->
  deletable inventory now resource.
Proof. split; [apply classify_sound|apply classify_complete]. Qed.

(** ** What a pass sends *)

Section Sent.
Context `{UuidLib} {Manifest : Type}.
Implicit Types (e : Effect Manifest) (script : @PassScript Manifest).

Lemma delete_sends cred cancelled status r e :
  e ∈ (delete_reconciled_resource cred cancelled status r).1 ->
  exists path, kubernetes_delete_path r = Some path /\ e = DeleteRequest path (kubernetes_delete_options r).
Proof.
  unfold delete_reconciled_resource. destruct (negb cred || cancelled); [by intros ?%not_elem_of_nil|].
  destruct (kubernetes_delete_path r) as [path|]; [|by intros ?%not_elem_of_nil].
  intros ->%list_elem_of_singleton. by exists path.
Qed.

Lemma deletes_are_allowed script limits deleted clock ds e :
  e ∈ (delete_allowed_resources script limits deleted clock ds).1 ->
  exists d r path, d ∈ ds /\ dc_resource d = Some r /\ dc_delete_allowed d = true /\
    kubernetes_delete_path r = Some path /\ e = DeleteRequest path (kubernetes_delete_options r).
Proof.
  revert deleted clock. induction ds as [|d ds IH]; intros deleted clock; cbn [delete_allowed_resources];
    [by intros ?%not_elem_of_nil|].
  destruct (_ || _); [by intros ?%not_elem_of_nil|].
  assert (Hlater : forall deleted clock, e ∈ (delete_allowed_resources script limits deleted clock ds).1 ->
    exists d' r path, d' ∈ d :: ds /\ dc_resource d' = Some r /\ dc_delete_allowed d' = true /\
      kubernetes_delete_path r = Some path /\ e = DeleteRequest path (kubernetes_delete_options r)).
  { intros dl cl Hin. apply IH in Hin as (d' & r & path & Hd & Hrest). exists d', r, path. split; [by right|done]. }
  destruct (dc_resource d) as [r|] eqn:Er; [|apply Hlater].
  destruct (dc_delete_allowed d) eqn:Ea; [|apply Hlater].
  destruct (_ =? 0)%Z; [by intros ?%not_elem_of_nil|].
  pose proof (delete_sends (ps_own_credentials script) (ps_cancelled script deleted) (ps_status script deleted) r e) as Hsend.
  destruct (delete_reconciled_resource _ _ _ _) as [effects ok]. simpl in Hsend.
  assert (Hnow : e ∈ effects -> exists d' r path, d' ∈ d :: ds /\ dc_resource d' = Some r /\
    dc_delete_allowed d' = true /\ kubernetes_delete_path r = Some path /\ e = DeleteRequest path (kubernetes_delete_options r)).
  { intros (path & Hp & ->)%Hsend. exists d, r, path. split_and!; [by left|done..]. }
  destruct ok; cbn [negb]; [|exact Hnow].
  specialize (Hlater (S deleted) (S (S clock))). destruct (delete_allowed_resources _ _ _ _ _) as [rest count].
  intros [Hin|Hin]%elem_of_app; auto.
Qed.

Lemma deletes_are_bounded script limits deleted clock ds :
  (length (delete_allowed_resources script limits deleted clock ds).1 <= max_deleted limits - deleted)%nat.
Proof.
  revert deleted clock. induction ds as [|d ds IH]; intros deleted clock; cbn [delete_allowed_resources]; [simpl; lia|].
  destruct (Nat.leb_spec (max_deleted limits) deleted) as [|Hlt]; [simpl; lia|]. cbn [orb].
  destruct (_ <=? _)%Z; [simpl; lia|].
  destruct (dc_resource d) as [r|]; [|apply IH]. destruct (dc_delete_allowed d); [|apply IH].
  destruct (_ =? 0)%Z; [simpl; lia|].
  unfold delete_reconciled_resource. destruct (negb _ || _); [simpl; lia|].
  destruct (kubernetes_delete_path r); [|simpl; lia].
  destruct (match ps_status script deleted with Some _ => _ | None => _ end); cbn [negb]; [|simpl; lia].
  specialize (IH (S deleted) (S (S clock))). destruct (delete_allowed_resources _ _ _ _ _) as [rest count].
  simpl in *. lia.
Qed.

Lemma revival_sends cred stop scripts n revivals path options :
  DeleteRequest path options ∈ (revive_all (Manifest := Manifest) cred stop scripts n revivals).1 ->
  exists revival, revival ∈ revivals /\ kubernetes_delete_path (sr_supervisor revival) = Some path /\
    options = kubernetes_delete_options (sr_supervisor revival).
Proof.
  revert n. induction revivals as [|v vs IH]; intros n; cbn [revive_all]; [by intros ?%not_elem_of_nil|].
  destruct (stop n); [by intros ?%not_elem_of_nil|].
  assert (Hone : DeleteRequest path options ∈ (revive_terminated_supervisor cred (scripts n) v).1 ->
    kubernetes_delete_path (sr_supervisor v) = Some path /\ options = kubernetes_delete_options (sr_supervisor v)).
  { unfold revive_terminated_supervisor. destruct (revival_manifest _ _) as [m|]; [|by intros ?%not_elem_of_nil].
    pose proof (delete_sends cred (rv_cancelled (scripts n) 0) (rv_delete_status (scripts n)) (sr_supervisor v) (DeleteRequest path options)) as Hs.
    destruct (delete_reconciled_resource _ _ _ _) as [effects ok]. simpl in Hs.
    assert (Hd : DeleteRequest path options ∈ effects -> kubernetes_delete_path (sr_supervisor v) = Some path /\
      options = kubernetes_delete_options (sr_supervisor v)) by (intros (p & ? & [= -> ->])%Hs; done).
    destruct ok; cbn [negb]; [|done]. destruct (wait_gone _ _ _) as [[] k]; cbn [negb]; [|done].
    destruct (rv_applies (scripts n)); cbn [negb fst];
      (intros [Hin|Hin]%elem_of_app; [auto|by apply list_elem_of_singleton in Hin]). }
  destruct (revive_terminated_supervisor _ _ _) as [effects ok]. simpl in Hone.
  specialize (IH (S n)). destruct (revive_all _ _ _ _ _) as [rest count]. simpl in *.
  intros [Hin|Hin]%elem_of_app.
  - exists v. split; [by left|auto].
  - destruct (IH Hin) as (w & Hw & Hrest). exists w. split; [by right|done].
Qed.

Lemma plan_revival_ok inventory observed r v :
  plan_revival inventory observed r = Some v ->
  sr_supervisor v = r /\ ob_resource_kind r = RuntimeResourceKind.Pod /\
  starts_with STERILE_SUPERVISOR_POD_PREFIX (ob_name r) = true /\ ob_pod_phase r = Some Terminal /\
  exists sandbox, ob_sandbox_id r = Some sandbox /\ sandbox ∈ rc_sandbox_ids inventory /\
    live_resource observed RuntimeResourceKind.Pod sandbox ("sandboxwich-" ++ uuid_to_string sandbox) = Some (sr_tenant_pod v) /\
    ob_pod_phase (sr_tenant_pod v) = Some Live.
Proof.
  unfold plan_revival. case_bool_decide as Hk; [|done]. cbn [negb orb].
  destruct (starts_with _ _); [|done]. cbn [negb orb]. case_bool_decide as Hp; [|done]. cbn [negb].
  destruct (ob_sandbox_id r) as [sandbox|]; [|done]. cbn [mbind option_bind].
  case_bool_decide as Hin; [|done]. cbn [negb]. destruct (existsb _ _); [|done]. cbn [negb].
  destruct (live_resource observed RuntimeResourceKind.Pod _ _) as [tenant|] eqn:El; [|done]. cbn [mbind option_bind].
  case_bool_decide as Ht; [|done]. cbn [negb].
  intros (a & _ & (b & _ & [= <-])%bind_Some)%bind_Some. cbn [sr_supervisor sr_tenant_pod].
  split_and!; try done. exists sandbox. by split_and!.
Qed.

(** The request [e] deletes the observed resource [r], fenced by its identifier. *)
Definition deletion_of (r : ObservedKubernetesResource) e : Prop :=
  exists path, kubernetes_delete_path r = Some path /\ e = DeleteRequest path (kubernetes_delete_options r).

(** What a pass sends, in terms of the inventory it works with: nothing, or the
    requests of the revivals and then those of the deletions, within the limit. *)
Lemma pass_sends cluster namespace response discovered limits apply script :
  let effects := (reconcile_orphans_with_delete cluster namespace (Some response) discovered limits apply script).1 in
  effects = [] \/
  apply = true /\ exists observed inventory reviving deleting, discovered = Ok observed /\
    scoped_inventory cluster namespace response = Some inventory /\ effects = reviving ++ deleting /\
    (forall e, e ∈ reviving -> (exists m, e = ApplyRequest m) \/
       exists r, r ∈ observed /\ deletion_of r e /\ is_Some (plan_revival inventory observed r)) /\
    (forall e, e ∈ deleting -> exists r, r ∈ observed /\ deletion_of r e /\ deletable inventory (ps_now script) r) /\
    (length deleting <= max_deleted limits)%nat.
Proof.
  unfold reconcile_orphans_with_delete. destruct discovered as [observed|]; [|by left].
  cbn [mbind option_bind].
  destruct (scoped_inventory cluster namespace response) as [inventory|] eqn:Es; cbn [fmap option_fmap option_map default].
  2:{ left. set (ds := take _ _).
      assert (Hno : forall e, e ∈ (if apply then delete_allowed_resources script limits 0 0 ds else ([], Some 0)).1 -> False).
      { intros e. destruct apply; [|by intros ?%not_elem_of_nil].
        intros (d & r & p & Hd & _ & Ha & _)%deletes_are_allowed. apply elem_of_take in Hd as (i & Hd & _).
        apply list_elem_of_lookup_2, list_elem_of_fmap in Hd as (x & -> & _). done. }
      destruct (if apply then _ else _) as [[|e effects] count]; [done|]. exfalso. apply (Hno e). by left. }
  destruct apply; [|by left]. right. split; [done|].
  pose proof (revival_sends (ps_own_credentials script) (ps_stop_reviving script) (ps_revivals script) 0
    (plan_supervisor_revivals inventory observed)) as Hrev.
  destruct (revive_all _ _ _ _ _) as [reviving revived]. set (ds := take _ _).
  pose proof (deletes_are_bounded script limits 0 0 ds) as Hb.
  pose proof (fun e => deletes_are_allowed script limits 0 0 ds e) as Hdel.
  destruct (delete_allowed_resources _ _ _ _ _) as [deleting count]. simpl in Hrev, Hdel, Hb.
  exists observed, inventory, reviving, deleting. split_and!; [done|done|done| | |lia].
  - intros [path options|m] Hin; [right|left; by exists m].
    apply Hrev in Hin as (v & Hv & Hp & ->). apply list_elem_of_omap in Hv as (r & Hr & Ev).
    pose proof (plan_revival_ok _ _ _ _ Ev) as [<- _]. exists (sr_supervisor v).
    split_and!; [done|by exists path|by eexists].
  - intros e Hin. apply Hdel in Hin as (d & r & p & Hd & Er & Ha & Hp & ->). unfold ds in Hd.
    apply elem_of_take in Hd as (i & Hd & _). apply list_elem_of_lookup_2 in Hd.
    unfold plan_orphan_reconciliation, classify_reconciliation in Hd. apply elem_of_app in Hd as [Hd|Hd].
    + apply list_elem_of_fmap in Hd as (x & -> & Hx). injection Er as <-. exists x.
      split_and!; [done|by exists p|by apply classify_spec].
    + by apply list_elem_of_fmap in Hd as (x & -> & _).
Qed.

(** Where each request of a pass comes from. *)
Lemma pass_origin cluster namespace response inventory observed limits apply script :
  scoped_inventory cluster namespace response = Some inventory ->
  forall e, e ∈ (reconcile_orphans_with_delete cluster namespace (Some response) (Ok observed) limits apply script).1 ->
    (exists m, e = ApplyRequest m) \/
    exists r, r ∈ observed /\ deletion_of r e /\
      (is_Some (plan_revival inventory observed r) \/ deletable inventory (ps_now script) r).
Proof.
  intros Hsc e.
  destruct (pass_sends cluster namespace response (Ok observed) limits apply script)
    as [->|(_ & obs & inv & rv & dl & [= <-] & Hsc' & -> & Hrv & Hdl & _)]; [by intros ?%not_elem_of_nil|].
  rewrite Hsc in Hsc'. injection Hsc' as <-.
  intros [[?|(r & ? & ? & ?)]%Hrv|(r & ? & ? & ?)%Hdl]%elem_of_app; eauto 10.
Qed.

(** A cluster that answers, within the limits. *)
Record cooperative script (limits : ReconciliationLimits) : Prop := {
  cp_credentials : ps_own_credentials script = true;
  cp_cancelled n : ps_cancelled script n = false;
  cp_status n : ps_status script n = Some 200%Z;
  cp_elapsed n : (0 <= ps_elapsed script n < max_elapsed limits)%Z
}.

(** Then every allowed deletion is sent. *)
Lemma cooperative_deletes script limits deleted clock ds :
  cooperative script limits -> (deleted + length (List.filter dc_delete_allowed ds) <= max_deleted limits)%nat ->
  (forall d r, d ∈ ds -> dc_resource d = Some r -> is_Some (kubernetes_delete_path r)) ->
  is_Some (delete_allowed_resources script limits deleted clock ds).2 /\
  forall d r path, d ∈ ds -> dc_resource d = Some r -> dc_delete_allowed d = true -> kubernetes_delete_path r = Some path ->
    DeleteRequest path (kubernetes_delete_options r) ∈ (delete_allowed_resources script limits deleted clock ds).1.
Proof.
  intros [Hcred Hcan Hstatus Hel]. revert deleted clock. induction ds as [|d0 ds IH]; intros deleted clock Hlen Hpaths.
  { split; [by eexists|]. by intros d r path ?%not_elem_of_nil. }
  assert (Hrest : forall d r, d ∈ ds -> dc_resource d = Some r -> is_Some (kubernetes_delete_path r))
    by (intros d r Hd; apply Hpaths; by right).
  cbn [delete_allowed_resources]. destruct (Nat.leb_spec (max_deleted limits) deleted) as [Hfull|Hroom].
  { split; [by eexists|]. intros d r path Hd Er Ha. exfalso.
    assert (Hin : In d (List.filter dc_delete_allowed (d0 :: ds))) by (apply filter_In; by rewrite <- list_elem_of_In).
    destruct (List.filter dc_delete_allowed (d0 :: ds)); [done|]. simpl in Hlen. lia. }
  cbn [orb]. destruct (Z.leb_spec (max_elapsed limits) (ps_elapsed script clock)) as [Hle|_]; [specialize (Hel clock); lia|].
  cbn [List.filter] in Hlen.
  destruct (dc_resource d0) as [r0|] eqn:Er0; [destruct (dc_delete_allowed d0) eqn:Ea0|].
  - destruct (Z.eqb_spec (Z.max 0 (max_elapsed limits - ps_elapsed script (S clock))) 0) as [E|_];
      [specialize (Hel (S clock)); lia|].
    destruct (Hpaths d0 r0 ltac:(by left) Er0) as [p0 Hp0].
    unfold delete_reconciled_resource. rewrite Hcred, Hcan, Hp0, Hstatus. cbn [negb orb]. simpl.
    destruct (IH (S deleted) (S (S clock)) ltac:(simpl in Hlen; lia) Hrest) as [Hn Hin].
    destruct (delete_allowed_resources _ _ _ _ _) as [rest count]. split; [done|].
    intros d r path [->|Hd]%elem_of_cons Er Ha Hp; [simplify_eq; by left|]. right. by apply (Hin d).
  - destruct (IH deleted (S clock) Hlen Hrest) as [Hn Hin]. split; [done|].
    intros d r path [->|Hd]%elem_of_cons Er Ha Hp; [congruence|]. by apply (Hin d).
  - destruct (IH deleted (S clock) ltac:(destruct (dc_delete_allowed d0); simpl in Hlen; lia) Hrest) as [Hn Hin]. split; [done|].
    intros d r path [->|Hd]%elem_of_cons Er Ha Hp; [congruence|]. by apply (Hin d).
Qed.
End Sent.

(** ** Against the tables *)

Section Tables.
Context `{UuidLib} `{ChronoLib} `{CursorCodecLaws} `{TimeTextLib} `{Rfc3339Lib} {Manifest : Type}.
Context (db : Db World) (ctx : TenantContext) (self : Uuid) (namespace : string) (worker : Worker).

Lemma expired_lookup rs sandbox at_ :
  expired_sandboxes rs !! sandbox = Some at_ ->
  exists r, r ∈ rs /\ ex_sandbox_id r = sandbox /\ ex_expires_at r = Some at_.
Proof.
  unfold expired_sandboxes.
  assert (Hgen : forall (m : gmap Uuid Z), fold_left (fun m r => match ex_expires_at r with
      Some at_ => <[ex_sandbox_id r := at_]> m | None => m end) rs m !! sandbox = Some at_ ->
    m !! sandbox = Some at_ \/ exists r, r ∈ rs /\ ex_sandbox_id r = sandbox /\ ex_expires_at r = Some at_).
  { induction rs as [|r rs IH]; intros m; [by left|]. cbn [fold_left]. intros Hl. apply IH in Hl as [Hl|(r' & Hr & Hrest)].
    - destruct (ex_expires_at r) as [t|] eqn:Et; [|by left]. destruct (decide (ex_sandbox_id r = sandbox)) as [<-|Hne].
      + rewrite lookup_insert_eq in Hl. injection Hl as ->. right. exists r. split; [by left|done].
      + rewrite lookup_insert_ne in Hl by done. by left.
    - right. exists r'. split; [by right|done]. }
  intros [Hl|Hr]%Hgen; [by rewrite lookup_empty in Hl|done].
Qed.

Lemma expired_lookup_some rs r at_ :
  r ∈ rs -> ex_expires_at r = Some at_ -> is_Some (expired_sandboxes rs !! ex_sandbox_id r).
Proof.
  unfold expired_sandboxes. generalize (∅ : gmap Uuid Z).
  assert (Hkeep : forall rs (m : gmap Uuid Z) k, is_Some (m !! k) -> is_Some (fold_left (fun m r =>
    match ex_expires_at r with Some at_ => <[ex_sandbox_id r := at_]> m | None => m end) rs m !! k)).
  { clear. intros rs. induction rs as [|r rs IH]; intros m k Hk; [done|]. cbn [fold_left]. apply IH.
    destruct (ex_expires_at r); [|done]. apply lookup_insert_is_Some'. by right. }
  induction rs as [|r0 rs IH]; intros m Hr Ht; [by apply not_elem_of_nil in Hr|]. cbn [fold_left].
  apply elem_of_cons in Hr as [<-|Hr]; [|by apply IH].
  apply Hkeep. rewrite Ht, lookup_insert_eq. by eexists.
Qed.

Lemma expected_row_ok row :
  row ∈ expected_rows db self namespace worker ->
  sandboxes (world db) !! str_sandbox_id (iw_resource row) = Some (iw_sandbox row) /\
  is_live_state (sb_state (iw_sandbox row)) = true.
Proof.
  unfold expected_rows, inventory_rows. intros Hr. apply list_elem_of_In, filter_In in Hr as [Hr Hl].
  apply andb_prop in Hl as [_ Hl]. unfold is_live_row in Hl. apply andb_prop in Hl as [_ Hl]. split; [|done].
  apply list_elem_of_In, list_elem_of_omap in Hr as (r & _ & Hr).
  apply bind_Some in Hr as (po & _ & Hr). apply bind_Some in Hr as (jl & _ & Hr).
  apply bind_Some in Hr as (s & Hs & [= <-]). done.
Qed.

(** The item of a live row: it expires when its retention has passed, counted
    from the sandbox's creation. *)
Lemma live_item row item :
  row ∈ expected_rows db self namespace worker -> inventory_item row = Some item ->
  let r := iw_resource row in
  let e := expected_resource item in
  ex_sandbox_id e = str_sandbox_id r /\ ex_resource_kind e = str_resource_kind r /\
  ex_namespace e = str_resource_namespace r /\ ex_name e = str_resource_name r /\ ex_uid e = str_resource_uid r /\
  ex_expires_at e = (fun ttl => (sb_created_at (iw_sandbox row) + seconds ttl)%Z) <$> sb_ttl_seconds (iw_sandbox row).
Proof.
  intros Hr Hi r e. apply expected_row_ok in Hr as [_ Hl]. unfold inventory_item in Hi. rewrite Hl in Hi.
  apply bind_Some in Hi as (expires & He & [= <-]). split_and!; try done. simpl.
  destruct (sb_ttl_seconds (iw_sandbox row)) as [ttl|]; [|by injection He as <-].
  unfold datetime_add_seconds in He. destruct (_ && _); [|done]. by injection He as <-.
Qed.
(** The grounds of a deletion, as the tables have them. *)
Inductive grounds (now : Z) (r : ObservedKubernetesResource) : Prop :=
| ProcessEnded lease created_at :
    ob_resident_lease_id r = Some lease ->
    (forall l, job_leases db !! lease = Some l ->
       is_resident_lease db (worker_scope db self namespace worker) l = false) ->
    ob_created_at r = Some created_at -> (minutes 5 <= now - created_at)%Z -> grounds now r
| RetentionPassed sandbox s row ttl :
    ob_sandbox_id r = Some sandbox -> ob_resident_lease_id r = None ->
    sandboxes (world db) !! sandbox = Some s -> is_live_state (sb_state s) = true ->
    row ∈ expected_rows db self namespace worker -> str_sandbox_id (iw_resource row) = sandbox ->
    sb_ttl_seconds s = Some ttl -> (sb_created_at s + seconds ttl <= now)%Z -> grounds now r
| SandboxGone sandbox :
    ob_sandbox_id r = Some sandbox -> ob_resident_lease_id r = None ->
    (forall s, sandboxes (world db) !! sandbox = Some s -> sb_state s = SandboxState.Archived) -> grounds now r
| ClaimNeverBound :
    is_reapable_unbound_workspace_claim r now = true -> grounds now r.

Definition inventory_of (inv : RuntimeResourceInventoryResponse) : ReconciliationInventory :=
  mkReconciliationInventory (list_to_set (in_sandbox_ids inv)) (expected_resource <$> in_resources inv)
    (list_to_set (in_active_resident_lease_ids inv)).

Lemma scoped_inventory_ok cluster inv inventory :
  scoped_inventory cluster namespace inv = Some inventory -> inventory = inventory_of inv.
Proof. unfold scoped_inventory. destruct (_ || _); [done|]. by intros [= <-]. Qed.

Lemma validated_is_scoped cluster inv :
  validate_reconciliation_inventory_scope inv cluster namespace = true ->
  scoped_inventory cluster namespace inv = Some (inventory_of inv).
Proof.
  unfold validate_reconciliation_inventory_scope, scoped_inventory.
  intros [[[[Hp Hc]%andb_prop Hn]%andb_prop Hco]%andb_prop Hx]%andb_prop.
  rewrite Hp, Hc, Hn, Hco. by destruct (in_next_cursor inv).
Qed.

Section Whole.
Context (inv : RuntimeResourceInventoryResponse) (Hinv : whole_inventory db self namespace worker inv).

Lemma expected_iff e : e ∈ rc_resources (inventory_of inv) <->
  exists row item, row ∈ expected_rows db self namespace worker /\ inventory_item row = Some item /\ e = expected_resource item.
Proof.
  destruct Hinv as (_ & _ & _ & _ & _ & Hi & _). simpl. rewrite list_elem_of_fmap. split.
  - intros (item & -> & Hin). apply Hi in Hin as (row & Hr & E). by exists row, item.
  - intros (row & item & Hr & E & ->). exists item. split; [done|]. apply Hi. by exists row.
Qed.

Lemma deletable_grounds now r : deletable (inventory_of inv) now r -> grounds now r.
Proof.
  destruct Hinv as (_ & _ & _ & _ & _ & Hi & Hs & Hl).
  intros [sandbox lease created Es El Hin Et Hle|sandbox at_ Es El _ Ex Hle|sandbox Es El Hu Hin|_ _ Hr].
  - eapply ProcessEnded; eauto. intros l Hlk. apply not_true_iff_false. intros Ht. apply Hin.
    simpl. apply elem_of_list_to_set, Hl. by exists l.
  - apply expired_lookup in Ex as (e & He & Esb & Ee). apply expected_iff in He as (row & item & Hr & Hit & ->).
    pose proof (live_item row item Hr Hit) as (E1 & _ & _ & _ & _ & E6). rewrite E6 in Ee.
    destruct (sb_ttl_seconds (iw_sandbox row)) as [ttl|] eqn:Ettl; [|done]. injection Ee as <-.
    destruct (expected_row_ok row Hr) as [Hlk Hlive]. rewrite <- E1, Esb in Hlk.
    eapply RetentionPassed; eauto. congruence.
  - eapply SandboxGone; eauto. intros s Hlk. destruct (decide (sb_state s = SandboxState.Archived)) as [|Hne]; [done|].
    exfalso. apply Hin. simpl. apply elem_of_list_to_set, Hs. by exists s.
  - by apply ClaimNeverBound.
Qed.
End Whole.

(** An ended supervisor of a sandbox that is still known, beside its live Pod. *)
Definition ended_supervisor (observed : list ObservedKubernetesResource) (r : ObservedKubernetesResource) : Prop :=
  ob_resource_kind r = RuntimeResourceKind.Pod /\ starts_with STERILE_SUPERVISOR_POD_PREFIX (ob_name r) = true /\
  ob_pod_phase r = Some Terminal /\
  exists sandbox s tenant, ob_sandbox_id r = Some sandbox /\ sandboxes (world db) !! sandbox = Some s /\
    sb_state s <> SandboxState.Archived /\
    live_resource observed RuntimeResourceKind.Pod sandbox ("sandboxwich-" ++ uuid_to_string sandbox) = Some tenant /\
    ob_pod_phase tenant = Some Live.

Lemma planned_is_ended inv observed r :
  whole_inventory db self namespace worker inv -> is_Some (plan_revival (inventory_of inv) observed r) ->
  ended_supervisor observed r.
Proof.
  intros (_ & _ & _ & _ & _ & _ & Hs & _) [v Hv].
  apply plan_revival_ok in Hv as (_ & Hk & Hpre & Hph & sandbox & Es & Hin & Ht & Htl).
  split_and!; try done. simpl in Hin. apply elem_of_list_to_set, Hs in Hin as (s & Hlk & Hst).
  exists sandbox, s, (sr_tenant_pod v). by split_and!.
Qed.

(** C12. What the reconciler deletes.  When the worker may read the inventory, whose
    workers and resident leases in scope fit the handler's limits of two hundred and
    whose rows can be read and paged, a run against the control plane ends, whatever
    the cluster holds and answers, and sends nothing unless applying is enabled, and then
    it sends the requests of its revivals followed by those of its deletions.
    Reviving deletes nothing but ended supervisors of known sandboxes whose Pod is
    live.  The deletions are at most [max_deleted], and each is of a resource the
    run observed, fenced by that resource's identifier, on one of the stated
    grounds in the tables the inventory was collected from: the resident process it
    served has ended, its live sandbox's retention has passed, its sandbox is
    archived or unknown, or it is a workspace claim that was not bound for an hour. *)
Theorem reconciler_deletes_only cluster fuel outputs limits apply (script : @PassScript Manifest) :
  inventory_readable db ctx self namespace worker ->
  (1 <= max_scanned limits)%nat ->
  (length (expected_rows db self namespace worker) < fuel)%nat -> (length (sandbox_rows db) < fuel)%nat ->
  exists effects outcome,
    reconcile_once (fun _ => serve db ctx self) cluster namespace fuel outputs limits apply script = Some (effects, outcome) /\
    (effects = [] \/
     apply = true /\ exists observed reviving deleting,
       discover_reconciliation_resources (max_scanned limits) outputs = Ok observed /\ effects = reviving ++ deleting /\
       (forall e, e ∈ reviving -> (exists m, e = ApplyRequest m) \/
          exists r, r ∈ observed /\ deletion_of r e /\ ended_supervisor observed r) /\
       (forall e, e ∈ deleting -> exists r, r ∈ observed /\ deletion_of r e /\ grounds (ps_now script) r) /\
       (length deleting <= max_deleted limits)%nat).
Proof.
  intros Hok Hm Hfr Hfs. unfold reconcile_once.
  destruct (fetched_inventory db ctx self namespace worker Hok (max_scanned limits) fuel Hm Hfr Hfs) as (answer & E & Hans).
  rewrite E. cbn [mbind option_bind]. clear E.
  destruct answer as [inv|]; [|do 2 eexists; split; [done|by left]].
  destruct (validate_reconciliation_inventory_scope inv cluster namespace) eqn:Ev; [|do 2 eexists; split; [done|by left]].
  assert (Hinv : whole_inventory db self namespace worker inv).
  { destruct ((_ <=? _)%nat && _); [by destruct Hans as (inv' & [= <-] & Hinv)|by destruct Hans as [e [=]]]. }
  pose proof (pass_sends cluster namespace inv (discover_reconciliation_resources (max_scanned limits) outputs) limits apply
    script) as Hp.
  destruct (reconcile_orphans_with_delete _ _ _ _ _ _ _) as [effects outcome]. exists effects, outcome. split; [done|].
  destruct Hp as [He|(Ha & observed & inventory & reviving & deleting & Hd & Hsc & Ee & Hr & Hdel & Hb)]; [by left|right].
  apply scoped_inventory_ok in Hsc as ->. split; [done|]. exists observed, reviving, deleting. split_and!; try done.
  - intros e [?|(r & Hin & Ho & Hv)]%Hr; [by left|right]. exists r. split_and!; [done|done|by eapply planned_is_ended].
  - intros e (r & Hin & Ho & Hg)%Hdel. exists r. split_and!; [done|done|by eapply deletable_grounds].
Qed.

(** ** Within the limits *)

Lemma kind_has_path kind k r :
  runtime_resource_kind_for_kubernetes_kind kind = Ok k -> ob_resource_kind r = k -> is_Some (kubernetes_delete_path r).
Proof.
  unfold runtime_resource_kind_for_kubernetes_kind, kubernetes_delete_path. intros Hk ->.
  repeat (destruct (_ || _) in Hk || destruct (String.eqb _ _) in Hk; try (injection Hk as <-; try by eexists)); try done.
  all: destruct (starts_with _ _); by eexists.
Qed.

Lemma parsed_has_path index line r : parse_row index line = Ok r -> is_Some (kubernetes_delete_path r).
Proof.
  unfold parse_row. destruct (string_of_chars <$> split_whitespace line) as [|f0 [|f1 [|f2 [|f3 [|f4 [|f5 [|f6 [|f7 [|]]]]]]]]]; try done.
  intros (created & _ & (k & Hk & (ns & _ & (nm & _ & (u & _ & [= <-])%result_bind_ok)%result_bind_ok)%result_bind_ok)%result_bind_ok)%result_bind_ok.
  by eapply kind_has_path.
Qed.

Lemma result_all_elem {A B E} (f : A -> result B E) l ys y :
  result_all f l = Ok ys -> y ∈ ys -> exists x, x ∈ l /\ f x = Ok y.
Proof.
  revert ys. induction l as [|x l IH]; intros ys; cbn [result_all]; [intros [= <-] Hy; by apply not_elem_of_nil in Hy|].
  intros (z & Hz & (zs & Hzs & [= <-])%result_bind_ok)%result_bind_ok [->|Hy]%elem_of_cons; [exists x; split; [by left|done]|].
  destruct (IH zs Hzs Hy) as (x' & Hx' & Hf). exists x'. split; [by right|done].
Qed.

Lemma discovered_ok limit outputs observed :
  discover_reconciliation_resources limit outputs = Ok observed ->
  (length observed <= limit)%nat /\ forall r, r ∈ observed -> is_Some (kubernetes_delete_path r).
Proof.
  unfold discover_reconciliation_resources.
  assert (Hgen : forall acc, (length acc <= limit)%nat -> (forall r, r ∈ acc -> is_Some (kubernetes_delete_path r)) ->
    discover_kinds limit outputs acc = Ok observed ->
    (length observed <= limit)%nat /\ forall r, r ∈ observed -> is_Some (kubernetes_delete_path r)).
  { induction outputs as [|[o|] outputs IH]; intros acc Hl Hp; cbn [discover_kinds]; [by intros [= <-]| |done].
    destruct (parse_reconciliation_resource_rows o) as [rows|] eqn:Er; [|done].
    destruct (Nat.ltb_spec limit (length (acc ++ rows))); [done|]. apply IH; [done|].
    intros r [Hr|Hr]%elem_of_app; [by apply Hp|].
    destruct (result_all_elem _ _ _ _ Er Hr) as (il & _ & Hil). by eapply parsed_has_path. }
  apply Hgen; [simpl; lia|]. by intros r ?%not_elem_of_nil.
Qed.

(** A run that reaches its end: the inventory and the listing fit its limits, and
    the cluster answers. *)
Record run_within (cluster : string) (fuel : nat) (outputs : list (option Text)) (limits : ReconciliationLimits)
    (observed : list ObservedKubernetesResource) (script : @PassScript Manifest) : Prop := {
  rw_readable : inventory_readable db ctx self namespace worker;
  rw_provider : worker_provider worker = "kubernetes";
  rw_cluster : labels worker !! "cluster" = Some cluster;
  rw_some : (1 <= max_scanned limits)%nat;
  rw_fuel : (length (expected_rows db self namespace worker) < fuel)%nat /\ (length (sandbox_rows db) < fuel)%nat;
  rw_rows : (length (expected_rows db self namespace worker) <= max_scanned limits)%nat;
  rw_sandboxes : (length (sandbox_rows db) <= max_scanned limits)%nat;
  rw_observed : discover_reconciliation_resources (max_scanned limits) outputs = Ok observed;
  rw_deleted : (length observed <= max_deleted limits)%nat;
  rw_cooperative : cooperative script limits
}.

(** What it decides of each resource, and that it does what it decides. *)
Lemma run_decides cluster fuel outputs limits observed (script : @PassScript Manifest) :
  run_within cluster fuel outputs limits observed script ->
  exists inv effects o, whole_inventory db self namespace worker inv /\
    reconcile_once (fun _ => serve db ctx self) cluster namespace fuel outputs limits true script = Some (effects, Some o) /\
    (forall e, e ∈ effects -> (exists m, e = ApplyRequest m) \/
       exists r, r ∈ observed /\ deletion_of r e /\
         (is_Some (plan_revival (inventory_of inv) observed r) \/ deletable (inventory_of inv) (ps_now script) r)) /\
    forall r, r ∈ observed ->
      let d := classify_observed (inventory_of inv) (expired_sandboxes (rc_resources (inventory_of inv))) (ps_now script) r in
      d ∈ oc_decisions o /\
      (dc_delete_allowed d = true -> exists path, kubernetes_delete_path r = Some path /\
         DeleteRequest path (kubernetes_delete_options r) ∈ effects).
Proof.
  intros [Hok Hk Hc Hm [Hfr Hfs] Hsr Hss Hd Hdel Hcoop]. unfold reconcile_once.
  destruct (fetched_inventory db ctx self namespace worker Hok (max_scanned limits) fuel Hm Hfr Hfs) as (answer & E & Hans).
  rewrite (proj2 (Nat.leb_le _ _) Hsr), (proj2 (Nat.leb_le _ _) Hss) in Hans. destruct Hans as (inv & -> & Hinv).
  rewrite E. cbn [mbind option_bind]. exists inv.
  assert (Hv : validate_reconciliation_inventory_scope inv cluster namespace = true).
  { destruct Hinv as (Ep & Ec & En & Eco & Ex & _). unfold validate_reconciliation_inventory_scope.
    by rewrite Ep, Ec, En, Eco, Ex, Hk, Hc, !String.eqb_refl, bool_decide_true. }
  rewrite Hv. apply validated_is_scoped in Hv. rewrite Hd. destruct (discovered_ok _ _ _ Hd) as [Hlen Hpaths].
  pose proof (pass_origin cluster namespace inv (inventory_of inv) observed limits true script Hv) as Hp. revert Hp.
  unfold reconcile_orphans_with_delete. cbn [mbind option_bind]. rewrite Hv. cbn [fmap option_fmap option_map default].
  change (id (expired_sandboxes (rc_resources (inventory_of inv)))) with (expired_sandboxes (rc_resources (inventory_of inv))).
  destruct (revive_all _ _ _ _ _) as [reviving revived]. set (ds := take _ _).
  set (f := classify_observed (inventory_of inv) (expired_sandboxes (rc_resources (inventory_of inv))) (ps_now script)).
  assert (Hplan : exists es, ds = (f <$> observed) ++ ((fun _ : ExpectedKubernetesResource => missing_decision) <$> es)).
  { unfold ds, plan_orphan_reconciliation, classify_reconciliation. fold f. rewrite take_app, take_ge by (by rewrite length_fmap).
    eexists. f_equal. by rewrite <- fmap_take. }
  destruct Hplan as [es Hds].
  destruct (cooperative_deletes script limits 0 0 ds Hcoop) as [[count Hcount] Hall].
  - rewrite Hds, List.filter_app, length_app.
    assert (Hnone : List.filter dc_delete_allowed ((fun _ : ExpectedKubernetesResource => missing_decision) <$> es) = []) by (clear; by induction es).
    rewrite Hnone. pose proof (List.filter_length_le dc_delete_allowed (f <$> observed)) as Hle.
    rewrite length_fmap in Hle. simpl. lia.
  - intros d r Hin Er. rewrite Hds in Hin. apply elem_of_app in Hin as [Hin|Hin].
    + apply list_elem_of_fmap in Hin as (x & -> & Hx). injection Er as <-. by apply Hpaths.
    + by apply list_elem_of_fmap in Hin as (x & -> & _).
  - destruct (delete_allowed_resources script limits 0 0 ds) as [deleting count']. simpl in Hcount, Hall. subst count'.
    intros Hsent.
    exists (reviving ++ deleting), (mkOutcome ds count true revived). split; [exact Hinv|]. split; [reflexivity|]. split.
    { exact Hsent. }
    intros r Hr. cbn [oc_decisions]. set (d := f r).
    assert (Hin : d ∈ ds) by (rewrite Hds; apply elem_of_app; left; by apply list_elem_of_fmap_2).
    split; [done|]. intros Ha. destruct (Hpaths r Hr) as [path Hp]. exists path. split; [done|].
    apply elem_of_app. right. by apply (Hall d r path).
Qed.

(** The observed resource is the one a row records. *)
Definition observes (r : ObservedKubernetesResource) (row : InventoryRow) : Prop :=
  ob_sandbox_id r = Some (str_sandbox_id (iw_resource row)) /\ ob_resource_kind r = str_resource_kind (iw_resource row) /\
  ob_namespace r = str_resource_namespace (iw_resource row) /\ ob_name r = str_resource_name (iw_resource row).

Lemma observes_item r row item :
  row ∈ expected_rows db self namespace worker -> inventory_item row = Some item ->
  same_coordinates r (expected_resource item) = true <-> observes r row.
Proof.
  intros Hr Hi. destruct (live_item row item Hr Hi) as (E1 & E2 & E3 & E4 & _). unfold same_coordinates, observes.
  rewrite E1, E2, E3, E4, !andb_true_iff, !bool_decide_eq_true, !String.eqb_eq. naive_solver.
Qed.

(** The retention of the sandbox of a recorded resource decides when it expires. *)
Lemma expiry_of_live inv row :
  inventory_readable db ctx self namespace worker -> whole_inventory db self namespace worker inv ->
  row ∈ expected_rows db self namespace worker ->
  expired_sandboxes (rc_resources (inventory_of inv)) !! str_sandbox_id (iw_resource row)
  = (fun ttl => (sb_created_at (iw_sandbox row) + seconds ttl)%Z) <$> sb_ttl_seconds (iw_sandbox row).
Proof.
  intros Hok Hinv Hr. destruct (io_items db ctx self namespace worker Hok row Hr) as [item Hi].
  destruct (live_item row item Hr Hi) as (E1 & _ & _ & _ & _ & E6). destruct (expected_row_ok row Hr) as [Hlk _].
  assert (Hsame : forall at_, expired_sandboxes (rc_resources (inventory_of inv)) !! str_sandbox_id (iw_resource row) = Some at_ ->
    (fun ttl => (sb_created_at (iw_sandbox row) + seconds ttl)%Z) <$> sb_ttl_seconds (iw_sandbox row) = Some at_).
  { intros at_ Hx. apply expired_lookup in Hx as (e & He & Es & Ee).
    apply (expected_iff inv Hinv) in He as (row' & item' & Hr' & Hi' & ->).
    destruct (live_item row' item' Hr' Hi') as (F1 & _ & _ & _ & _ & F6). destruct (expected_row_ok row' Hr') as [Hlk' _].
    rewrite <- F1, Es, Hlk in Hlk'. injection Hlk' as Esb. by rewrite Esb, <- F6. }
  destruct (expired_sandboxes _ !! _) as [at_|] eqn:Ex; [by rewrite (Hsame at_ eq_refl)|].
  destruct (sb_ttl_seconds (iw_sandbox row)) as [ttl|]; [|done].
  destruct (expired_lookup_some (rc_resources (inventory_of inv)) (expected_resource item) (sb_created_at (iw_sandbox row) + seconds ttl)%Z)
    as [x Hx]; [apply (expected_iff inv Hinv); by exists row, item|exact E6|]. rewrite E1 in Hx. congruence.
Qed.

(** For a recorded resource the retention is the only ground. *)
Lemma retention_is_ground inv now row r :
  inventory_readable db ctx self namespace worker -> whole_inventory db self namespace worker inv ->
  row ∈ expected_rows db self namespace worker -> observes r row ->
  ob_uid r = str_resource_uid (iw_resource row) -> ob_resident_lease_id r = None ->
  (forall row', row' ∈ expected_rows db self namespace worker -> observes r row' ->
     str_resource_uid (iw_resource row') = str_resource_uid (iw_resource row)) ->
  deletable (inventory_of inv) now r <->
  exists ttl, sb_ttl_seconds (iw_sandbox row) = Some ttl /\ (sb_created_at (iw_sandbox row) + seconds ttl <= now)%Z.
Proof.
  intros Hok Hinv Hrow Ho Hu Hl Honce.
  destruct (io_items db ctx self namespace worker Hok row Hrow) as [item Hi].
  assert (He : expected_resource item ∈ rc_resources (inventory_of inv)) by (apply (expected_iff inv Hinv); by exists row, item).
  assert (Hm : exists e, coordinate_match (inventory_of inv) r = Some e /\ ex_uid e = ob_uid r).
  { unfold coordinate_match. destruct (List.find _ _) as [e|] eqn:Ef.
    - exists e. split; [done|]. apply List.find_some in Ef as [Hin' Hsame]. apply list_elem_of_In in Hin'.
      apply (expected_iff inv Hinv) in Hin' as (row' & item' & Hr' & Hi' & ->).
      apply (observes_item r row' item' Hr' Hi') in Hsame. rewrite Hu, <- (Honce row' Hr' Hsame).
      by destruct (live_item row' item' Hr' Hi') as (_ & _ & _ & _ & -> & _).
    - apply List.find_none with (x := expected_resource item) in Ef; [|by apply list_elem_of_In].
      by rewrite (proj2 (observes_item r row item Hrow Hi) Ho) in Ef. }
  destruct Hm as (e & Hm & Hue).
  pose proof (expiry_of_live inv row Hok Hinv Hrow) as Hex. destruct Ho as [Hsb _]. split.
  - intros [sandbox lease created _ El|sandbox at_ Es _ _ Ex Hle|sandbox _ _ Hun|_ Hun]; [congruence| | |].
    + rewrite Hsb in Es. injection Es as <-. rewrite Hex in Ex.
      destruct (sb_ttl_seconds (iw_sandbox row)) as [ttl|]; [|done]. injection Ex as <-. by exists ttl.
    + apply unexpected_spec in Hun. congruence.
    + apply unexpected_spec in Hun. congruence.
  - intros (ttl & Ettl & Hle). eapply ExpiredSandbox; [exact Hsb|exact Hl|by rewrite Hm|by rewrite Hex, Ettl|done].
Qed.

(** C25. The retention of a live sandbox ends its resources.  In a run that applies
    its decisions and reaches its end ([run_within]: the inventory and the listing
    fit the limits and the cluster answers), a resource that the tables record for
    a sandbox that is neither archived nor being archived, that the cluster has
    under the recorded identifier, that is neither the Pod of a resident process
    nor an ended Pod, and that the cluster lists once, is sent a deletion exactly
    when the sandbox has a [ttl_seconds] and that much time has passed since the
    sandbox was created, whatever the sandbox is doing. *)
Theorem retention_ends_live_sandboxes cluster fuel outputs limits observed (script : @PassScript Manifest) row r :
  run_within cluster fuel outputs limits observed script ->
  row ∈ expected_rows db self namespace worker -> r ∈ observed -> observes r row ->
  ob_uid r = str_resource_uid (iw_resource row) -> ob_resident_lease_id r = None -> ob_pod_phase r <> Some Terminal ->
  (forall row', row' ∈ expected_rows db self namespace worker -> observes r row' ->
     str_resource_uid (iw_resource row') = str_resource_uid (iw_resource row)) ->
  (forall r', r' ∈ observed -> kubernetes_delete_path r' = kubernetes_delete_path r -> r' = r) ->
  exists effects o,
    reconcile_once (fun _ => serve db ctx self) cluster namespace fuel outputs limits true script = Some (effects, Some o) /\
    is_live_state (sb_state (iw_sandbox row)) = true /\
    ((exists e, e ∈ effects /\ deletion_of r e) <->
       exists ttl, sb_ttl_seconds (iw_sandbox row) = Some ttl /\ (sb_created_at (iw_sandbox row) + seconds ttl <= ps_now script)%Z).
Proof.
  intros Hrun Hrow Hr Ho Hu Hl Hph Honce Hlisted. pose proof (rw_readable _ _ _ _ _ _ Hrun) as Hok.
  destruct (run_decides _ _ _ _ _ _ Hrun) as (inv & effects & o & Hinv & Hrun' & Hsent & Hdec).
  destruct (Hdec r Hr) as [_ Hdel]. rewrite classify_spec in Hdel. exists effects, o. split; [exact Hrun'|].
  destruct (expected_row_ok row Hrow) as [_ Hlive]. split; [done|].
  transitivity (deletable (inventory_of inv) (ps_now script) r); [|by eapply retention_is_ground].
  split; [|intros (path & Hp & Hin)%Hdel; eexists; split; [exact Hin|by exists path]].
  intros (e & Hin & path & Hp & ->). apply Hsent in Hin as [[m [=]]|(r' & Hr' & (p' & Hp' & [= <- _]) & Hg)].
  assert (r' = r) as -> by (apply Hlisted; [done|congruence]). destruct Hg as [[v Hv]|Hg]; [|done].
  by apply plan_revival_ok in Hv as (_ & _ & _ & Ht & _).
Qed.

(** A sandbox that is created while a run is under way is taken for an orphan.
    The inventory is collected before the cluster is listed, and an unknown
    sandbox has no minimum age: a resource of a sandbox the tables did not hold
    when the inventory was collected is deleted, however young it is. *)
Theorem young_sandbox_is_deleted cluster fuel outputs limits observed (script : @PassScript Manifest) sandbox r :
  run_within cluster fuel outputs limits observed script ->
  sandboxes (world db) !! sandbox = None -> r ∈ observed -> ob_sandbox_id r = Some sandbox -> ob_resident_lease_id r = None ->
  exists effects o path,
    reconcile_once (fun _ => serve db ctx self) cluster namespace fuel outputs limits true script = Some (effects, Some o) /\
    kubernetes_delete_path r = Some path /\ DeleteRequest path (kubernetes_delete_options r) ∈ effects.
Proof.
  intros Hrun Hnone Hr Hsb Hl. destruct (run_decides _ _ _ _ _ _ Hrun) as (inv & effects & o & Hinv & Hrun' & _ & Hdec).
  destruct (Hdec r Hr) as [_ Hdel]. exists effects, o.
  destruct Hdel as (path & Hp & Hin); [|by exists path].
  apply classify_spec. eapply UnknownSandbox; [exact Hsb|exact Hl| |].
  - intros e He. apply (expected_iff inv Hinv) in He as (row & item & Hrow & Hi & ->). apply not_true_iff_false. intros Ht.
    apply (observes_item r row item Hrow Hi) in Ht as [Hs _]. rewrite Hsb in Hs. injection Hs as ->.
    destruct (expected_row_ok row Hrow) as [Hlk _]. congruence.
  - simpl. destruct Hinv as (_ & _ & _ & _ & _ & _ & Hs & _). rewrite elem_of_list_to_set, Hs.
    intros (s & Hlk & _). congruence.
Qed.
End Tables.
