(* ===== verification/GuestTokens.v ===== *)
(** * Guest tokens

    [handlers/workers.rs]: a worker mints a token for the daemon of a sandbox
    it hosts, and the daemon refreshes it ([mint_guest_token],
    [refresh_guest_token], [issue_guest_token]).  The tokens are the rows that
    [Authz] resolves credentials from.  Issuing a token revokes the others of
    the sandbox; what that means for a daemon whose heartbeat goes on with the
    token it started with is drawn from [AgentControl]. *)

From S2P Require Import Prelude Text Authz CoreTypes Json Store Leases World Scopes SandboxStop AgentControl.

Open Scope Z_scope.

(** The digest of a token, as the handlers store it and as the middleware
    computes it, is SHA-256 in hexadecimal. *)
Class TokenHashLaws `{SerdeLib} `{AuthzLib} : Prop := {
  token_hash_text token : txt (sha256_hex token) = hash_worker_token (txt token)
}.

Record GuestTokenResponse : Type := mkGuestTokenResponse {
  gr_token : string;
  gr_tenant_id : string;
  gr_worker_id : Uuid;
  gr_sandbox_id : Uuid;
  gr_expires_at : Z
}.

(** ** Issuing *)

Section Issue.
Context `{UuidLib} `{SerdeLib} `{ChronoLib}.

Definition guest_token_revoked (message : string) : ApiError :=
  mkApiError UNAUTHORIZED "guest_token_revoked" message None.

Definition sandbox_state_debug (s : SandboxState) : string :=
  match s with
  | SandboxState.Planning => "Planning" | SandboxState.Provisioning => "Provisioning"
  | SandboxState.Ready => "Ready" | SandboxState.Running => "Running" | SandboxState.Idle => "Idle"
  | SandboxState.Archiving => "Archiving" | SandboxState.Archived => "Archived" | SandboxState.Error => "Error"
  end.

Definition active_for_refresh (s : SandboxState) : bool :=
  match s with
  | SandboxState.Ready | SandboxState.Provisioning | SandboxState.Running | SandboxState.Idle => true
  | _ => false
  end.

(** [revalidate_guest_token_lifecycle], on what the pool reads; [None] is the
    panic of the addition.  The lifetime is an [i64] column, so the cast to
    [i64] keeps it. *)
Definition revalidate_guest_token_lifecycle (seen : Db World) (tenant_id : string) (worker_id sandbox_id : Uuid)
    (now : Z) : option (result unit ApiError) :=
  match fetch_sandbox (world seen) sandbox_id with
  | Err e => Some (Err e)
  | Ok sandbox =>
      if negb (String.eqb (sb_tenant_id sandbox) tenant_id)
      then Some (Err (guest_token_revoked "guest token sandbox is no longer authorized"))
      else if negb (active_for_refresh (sb_state sandbox))
      then Some (Err (guest_token_revoked
             ("sandbox is not active for guest token refresh (state=" ++ sandbox_state_debug (sb_state sandbox) ++ ")")%string))
      else
        elapsed ← match sb_max_lifetime_seconds sandbox with
                  | None => Some false
                  | Some lifetime =>
                      deadline ← datetime_add_seconds (sb_created_at sandbox) lifetime;
                      Some (deadline <=? now)
                  end;
        Some (if (elapsed : bool) then Err (guest_token_revoked "sandbox hard lifetime has elapsed")
              else match sandbox_placements seen !! sandbox_id with
                   | None => Err (guest_token_revoked "sandbox has no active placement")
                   | Some p =>
                       if bool_decide (placement_worker_id p = worker_id) then Ok tt
                       else Err (guest_token_revoked "sandbox placement no longer matches this guest token")
                   end)
  end.

Definition live_guest_token_of (tenant_id : string) (sandbox_id : Uuid) (r : CredentialRow) : bool :=
  String.eqb (cr_tenant_id r) tenant_id && bool_decide (cr_sandbox_id r = sandbox_id) && is_none (cr_revoked_at r).

(** [insert into guest_tokens]: the digest is unique, the worker and the
    sandbox exist. *)
Definition insert_guest_token (id : Uuid) (row : CredentialRow) : Tx World unit :=
  let! db := tx_get in
  check! is_none (guest_tokens (world db) !! id)
         && forallb (fun kr => negb (bool_decide (txt (cr_token_hash kr.2) = txt (cr_token_hash row))))
              (map_to_list (guest_tokens (world db)))
    else api_error_of_db_error UniqueViolation in
  check! is_some (workers db !! cr_holder_id row) && is_some (sandboxes (world db) !! cr_sandbox_id row)
    else foreign_key_error in
  modify_world (set_guest_tokens (<[id := row]> (guest_tokens (world db)))).

Definition issue_guest_token_tx (rt : Runtime) (token tenant_id : string) (worker_id sandbox_id : Uuid)
    (expires_at : Z) : Tx World unit :=
  let now := utc_now rt in
  let! _ := modify_world (fun w => set_guest_tokens
              (update_rows (fun _ => live_guest_token_of tenant_id sandbox_id) (credential_revoke now)
                 (guest_tokens w)) w) in
  insert_guest_token (new_uuid rt 0)
    (mkCredentialRow tenant_id worker_id sandbox_id (sha256_hex token) expires_at None now).

(** [issue_guest_token]; [token] is what [generate_guest_token] makes. *)
Definition issue_guest_token (rt : Runtime) (token : string) (seen : Db World) (tenant_id : string)
    (worker_id sandbox_id : Uuid) (ttl_seconds : option Z) (revalidate_lifecycle : bool) (db : Db World) :
    option (result GuestTokenResponse ApiError * Db World) :=
  let ttl := default 3600 ttl_seconds in
  if negb ((1 <=? ttl) && (ttl <=? 86400))
  then Some (Err (bad_request "guest token ttl_seconds must be between 1 and 86400"), db)
  else
    checked ← (if revalidate_lifecycle
               then revalidate_guest_token_lifecycle seen tenant_id worker_id sandbox_id (utc_now rt)
               else Some (Ok tt));
    Some (match checked with
          | Err e => (Err e, db)
          | Ok _ =>
              let expires_at := utc_now rt + seconds ttl in
              match run_tx (issue_guest_token_tx rt token tenant_id worker_id sandbox_id expires_at) db with
              | (Err e, db') => (Err e, db')
              | (Ok _, db') => (Ok (mkGuestTokenResponse token tenant_id worker_id sandbox_id expires_at), db')
              end
          end).

Definition mint_guest_token (rt : Runtime) (token : string) (ctx : TenantContext) (seen : Db World)
    (worker_id sandbox_id : Uuid) (ttl_seconds : option Z) (db : Db World) :
    option (result GuestTokenResponse ApiError * Db World) :=
  match (let? _ := ensure_worker_scope ctx worker_id in ensure_sandbox_worker_scope seen sandbox_id ctx) with
  | Err e => Some (Err e, db)
  | Ok _ => issue_guest_token rt token seen (ctx_tenant_id ctx) worker_id sandbox_id ttl_seconds false db
  end.

Definition refresh_guest_token (rt : Runtime) (token : string) (ctx : TenantContext) (seen : Db World)
    (sandbox_id : Uuid) (ttl_seconds : option Z) (db : Db World) :
    option (result GuestTokenResponse ApiError * Db World) :=
  match guest_sandbox_id ctx with
  | None => Some (Err (unauthorized "guest token refresh requires a guest bearer token"), db)
  | Some bound =>
      if negb (bool_decide (bound = sandbox_id))
      then Some (Err (unauthorized "guest token is not bound to this sandbox"), db)
      else match ctx_worker_id ctx with
           | None => Some (Err (unauthorized "guest token refresh requires a guest bearer token"), db)
           | Some worker_id =>
               issue_guest_token rt token seen (ctx_tenant_id ctx) worker_id sandbox_id ttl_seconds true db
           end
  end.
End Issue.

(** ** The rows the middleware resolves *)

Definition auth_row (r : CredentialRow) : GuestTokenRow :=
  mkGuestTokenRow (txt (cr_token_hash r)) (txt (cr_tenant_id r)) (cr_holder_id r) (cr_sandbox_id r)
    (cr_expires_at r) (cr_revoked_at r).

(** The middleware at an instant: its settings, and the tokens of the tables. *)
Definition auth_at (s : AuthState) (db : Db World) (now : Z) : AuthState :=
  mkAuthState (as_config s) (as_default_tenant s) (auth_row <$> (map_to_list (guest_tokens (world db))).*2)
    (as_worker_tokens s) now false.

(** The unique index on the digests. *)
Definition tokens_unique (db : Db World) : Prop :=
  forall i j a b, guest_tokens (world db) !! i = Some a -> guest_tokens (world db) !! j = Some b ->
    txt (cr_token_hash a) = txt (cr_token_hash b) -> i = j.

Section Resolve.
Context `{UuidLib} `{TokenHashLaws} `{ChronoLib}.

(** A token resolves to its row's holder, exactly while that row is live. *)
Lemma resolve_unique s (db : Db World) now token id r : tokens_unique db ->
  guest_tokens (world db) !! id = Some r -> txt (cr_token_hash r) = hash_worker_token (txt token) ->
  resolve_guest_token (auth_at s db now) (txt token)
  = Ok (if is_none (cr_revoked_at r) && (now <? cr_expires_at r)
        then Some (txt (cr_tenant_id r), cr_holder_id r, cr_sandbox_id r) else None).
Proof.
  intros Hu Hr Hh. unfold resolve_guest_token. cbn [as_lookup_fails auth_at as_guest_tokens as_now].
  destruct (List.find _ _) as [row|] eqn:Ef.
  - apply find_some in Ef as [Hin Hrow]. apply andb_true_iff in Hrow as [Hrow%bool_decide_eq_true Hn]. apply list_elem_of_In in Hin.
    apply list_elem_of_fmap in Hin as (r' & -> & Hin). apply list_elem_of_fmap in Hin as ([j r0] & -> & Hin).
    apply elem_of_map_to_list in Hin. simpl in *.
    assert (j = id) as -> by (eapply Hu; eauto; congruence). rewrite Hr in Hin. injection Hin as <-.
    rewrite Hn. cbn [andb]. destruct (Z.leb_spec (cr_expires_at r) now), (Z.ltb_spec now (cr_expires_at r)); try lia; done.
  - destruct (is_none (cr_revoked_at r)) eqn:En; [|done]. exfalso.
    assert (Hin : In (auth_row r) (auth_row <$> (map_to_list (guest_tokens (world db))).*2)).
    { apply list_elem_of_In, list_elem_of_fmap_2, list_elem_of_fmap. exists (id, r). split; [done|].
      by apply elem_of_map_to_list. }
    apply (find_none _ _ Ef) in Hin. simpl in Hin. rewrite bool_decide_true, En in Hin by done. done.
Qed.

(** What issuing leaves in the table. *)
Lemma issue_tx_ok rt token tenant worker sandbox expires (db : Db World) u db' :
  issue_guest_token_tx rt token tenant worker sandbox expires db = Ok (u, db') ->
  let row := mkCredentialRow tenant worker sandbox (sha256_hex token) expires None (utc_now rt) in
  let revoked := update_rows (fun _ => live_guest_token_of tenant sandbox) (credential_revoke (utc_now rt))
                   (guest_tokens (world db)) in
  guest_tokens (world db') = <[new_uuid rt 0 := row]> revoked /\ revoked !! new_uuid rt 0 = None /\
  (forall id r, revoked !! id = Some r -> txt (cr_token_hash r) <> txt (sha256_hex token)).
Proof.
  intros Hi row revoked. unfold issue_guest_token_tx in Hi. apply tx_bind_ok in Hi as (u1 & db1 & Hm & Hi).
  apply modify_world_ok in Hm as ->. unfold insert_guest_token in Hi. tx_step Hi. tx_step Hm.
  fold revoked in Hi. destruct (is_none (revoked !! new_uuid rt 0) && _) eqn:Ec; [|done].
  apply andb_true_iff in Ec as [En Ef]. destruct (_ && _) in Hi; [|done]. apply modify_world_ok in Hi as ->.
  simpl. fold revoked. split_and!; [done|by destruct (revoked !! _)|].
  intros id r Hr Hh. rewrite forallb_forall in Ef. specialize (Ef (id, r)). simpl in Ef.
  rewrite bool_decide_true in Ef by done. discriminate Ef.
  by apply list_elem_of_In, elem_of_map_to_list.
Qed.

Lemma revoke_hash now r : cr_token_hash (credential_revoke now r) = cr_token_hash r.
Proof. done. Qed.

Lemma revoked_lookup now tenant sandbox (m : gmap Uuid CredentialRow) id r :
  update_rows (fun _ => live_guest_token_of tenant sandbox) (credential_revoke now) m !! id = Some r ->
  exists r0, m !! id = Some r0 /\ cr_token_hash r = cr_token_hash r0 /\
    r = if live_guest_token_of tenant sandbox r0 then credential_revoke now r0 else r0.
Proof.
  rewrite lookup_update_rows. intros (r0 & Hr & ->)%fmap_Some. exists r0. split; [done|].
  by destruct (live_guest_token_of tenant sandbox r0).
Qed.

Lemma issue_keeps_unique rt token tenant worker sandbox expires (db : Db World) u db' : tokens_unique db ->
  issue_guest_token_tx rt token tenant worker sandbox expires db = Ok (u, db') -> tokens_unique db'.
Proof.
  intros Hu Hi. apply issue_tx_ok in Hi as (Hg & Hn & Hf). intros i j a b. rewrite Hg.
  rewrite !lookup_insert_Some. intros [[<- <-]|[Hi Ha]] [[<- <-]|[Hj Hb]] Hh; try done.
  - by apply Hf in Hb.
  - by apply Hf in Ha.
  - apply revoked_lookup in Ha as (a0 & Ha & Ea & _). apply revoked_lookup in Hb as (b0 & Hb & Eb & _).
    eapply Hu; eauto. by rewrite <- Ea, <- Eb.
Qed.

Lemma guest_issue_ok rt token seen tenant worker sandbox ttl revalidate (db : Db World) resp db' :
  issue_guest_token rt token seen tenant worker sandbox ttl revalidate db = Some (Ok resp, db') ->
  resp = mkGuestTokenResponse token tenant worker sandbox (utc_now rt + seconds (default 3600 ttl)) /\
  1 <= default 3600 ttl <= 86400 /\
  (revalidate = true ->
     revalidate_guest_token_lifecycle seen tenant worker sandbox (utc_now rt) = Some (Ok tt)) /\
  exists u, issue_guest_token_tx rt token tenant worker sandbox (utc_now rt + seconds (default 3600 ttl)) db = Ok (u, db').
Proof.
  unfold issue_guest_token. set (n := default 3600 ttl).
  destruct ((1 <=? n) && (n <=? 86400)) eqn:Er; [|done]. cbn [negb]. intros (c & Hc & Hi)%bind_Some.
  destruct c as [[]|]; [|done]. injection Hi as Hi.
  destruct (run_tx _ db) as [[u|] db1] eqn:Et; [|done]. injection Hi as <- <-. apply run_tx_ok in Et.
  split_and!; [done|lia|lia| |eauto]. by intros ->.
Qed.

(** The row of an old token of the sandbox is revoked by issuing. *)
Lemma old_token_revoked rt token tenant worker sandbox expires (db : Db World) u db' id r :
  issue_guest_token_tx rt token tenant worker sandbox expires db = Ok (u, db') ->
  guest_tokens (world db) !! id = Some r -> cr_tenant_id r = tenant -> cr_sandbox_id r = sandbox ->
  exists r', guest_tokens (world db') !! id = Some r' /\ cr_token_hash r' = cr_token_hash r /\
    is_Some (cr_revoked_at r').
Proof.
  intros Hi Hr Ht Hs. apply issue_tx_ok in Hi as (Hg & Hn & _).
  assert (Hlk : update_rows (fun _ => live_guest_token_of tenant sandbox) (credential_revoke (utc_now rt))
            (guest_tokens (world db)) !! id
          = Some (if live_guest_token_of tenant sandbox r then credential_revoke (utc_now rt) r else r))
    by (by rewrite lookup_update_rows, Hr).
  eexists. rewrite Hg, lookup_insert_ne by (intros <-; congruence). split; [exact Hlk|].
  unfold live_guest_token_of. rewrite Ht, Hs, String.eqb_refl, bool_decide_true by done. simpl.
  destruct (cr_revoked_at r) eqn:E; simpl; [by rewrite E|]. simpl. eauto.
Qed.

Lemma old_token_refused s rt token tenant worker sandbox expires (db : Db World) u db' id r old now :
  tokens_unique db -> issue_guest_token_tx rt token tenant worker sandbox expires db = Ok (u, db') ->
  guest_tokens (world db) !! id = Some r -> cr_tenant_id r = tenant -> cr_sandbox_id r = sandbox ->
  txt (cr_token_hash r) = hash_worker_token (txt old) ->
  resolve_guest_token (auth_at s db' now) (txt old) = Ok None.
Proof.
  intros Hu Hi Hr Ht Hs Hh. pose proof (issue_keeps_unique _ _ _ _ _ _ _ _ _ Hu Hi) as Hu'.
  destruct (old_token_revoked _ _ _ _ _ _ _ _ _ _ _ Hi Hr Ht Hs) as (r' & Hr' & Eh & x & Hx).
  rewrite (resolve_unique s db' now old id r' Hu' Hr') by (by rewrite Eh). by rewrite Hx.
Qed.

(** C18. Issuing a token makes it the sandbox's only key.  A mint or a refresh
    that succeeds is for at most a day; from then on the new token is accepted,
    as the worker's guest of that sandbox, exactly until it expires; every other
    token issued for the sandbox is refused; and the tokens of other sandboxes
    and tenants are accepted as before. *)
Theorem issued_token_is_the_only_key rt token seen tenant worker sandbox ttl revalidate (db : Db World) resp db' :
  tokens_unique db ->
  issue_guest_token rt token seen tenant worker sandbox ttl revalidate db = Some (Ok resp, db') ->
  tokens_unique db' /\ gr_token resp = token /\
  utc_now rt < gr_expires_at resp <= utc_now rt + seconds 86400 /\
  forall s now,
    resolve_guest_token (auth_at s db' now) (txt token)
    = Ok (if now <? gr_expires_at resp then Some (txt tenant, worker, sandbox) else None) /\
    forall id r other, guest_tokens (world db) !! id = Some r ->
      txt (cr_token_hash r) = hash_worker_token (txt other) ->
      resolve_guest_token (auth_at s db' now) (txt other)
      = if bool_decide (cr_tenant_id r = tenant /\ cr_sandbox_id r = sandbox) then Ok None
        else resolve_guest_token (auth_at s db now) (txt other).
Proof.
  intros Hu Hi. apply guest_issue_ok in Hi as (-> & Hn & _ & u & Hi). simpl.
  pose proof (issue_keeps_unique _ _ _ _ _ _ _ _ _ Hu Hi) as Hu'.
  pose proof (issue_tx_ok _ _ _ _ _ _ _ _ _ Hi) as (Hg & Hf & _). unfold seconds.
  split_and!; [done|done|lia|lia|]. intros s now. split.
  - erewrite resolve_unique; [|done|rewrite Hg; apply lookup_insert_eq|simpl; apply token_hash_text]. done.
  - intros id r other Hr Hh. case_bool_decide as Hd; [destruct Hd as [Hd1 Hd2]; exact (old_token_refused s rt token tenant worker sandbox _ db u db' id r other now Hu Hi Hr Hd1 Hd2 Hh)|].
    rewrite (resolve_unique s db now other id r Hu Hr Hh). eapply resolve_unique; [done| |done].
    rewrite Hg, lookup_insert_ne.
    + rewrite lookup_update_rows, Hr. simpl. f_equal. unfold live_guest_token_of.
      destruct (String.eqb_spec (cr_tenant_id r) tenant); [|done].
      rewrite bool_decide_false by (intros ?; by apply Hd). done.
    + intros <-. rewrite lookup_update_rows, Hr in Hf. done.
Qed.

(** ** The heartbeat after a refresh *)

(** The answer to a health report, as far as the middleware decides it. *)
Definition health_answer (s : AuthState) (db : Db World) (request : RequestHead) (now : Z) : result unit Refusal :=
  let? _ := authenticate (auth_at s db now) request in Ok tt.

(** A request that carries a guest token. *)
Definition carries (request : RequestHead) (token : string) : Prop :=
  bearer_token request = Some (txt token) /\ text_starts_with (txt GUEST_TOKEN_PREFIX) (txt token) = true /\
  existsb (fun p => is_path p (req_path request)) PROBE_PATHS = false.

Lemma authenticate_guest s request token : carries request token ->
  authenticate s request
  = let? found := resolve_guest_token s (txt token) in
    match found with
    | Some (tenant, worker, sandbox) => Ok (tenant, PrincipalGuest worker sandbox, false)
    | None => Err (mkRefusal 401 "valid guest bearer token is required")
    end.
Proof.
  intros (Hb & Hp & Hn). unfold authenticate. rewrite Hn, Hb. unfold keep. by rewrite Hp.
Qed.

Lemma failures_end_heartbeat {E} threshold (outcomes : list (result unit E)) :
  0 <= threshold <= u32_max -> Forall (fun o => is_ok o = false) outcomes ->
  (Z.to_nat (Z.max threshold 1) <= length outcomes)%nat ->
  heartbeat_loop threshold outcomes = inl (Z.to_nat (Z.max threshold 1)).
Proof.
  intros Ht Hall Hl. pose proof (heartbeats_spec outcomes _ (budget_new_ok _ Ht)) as Hs.
  assert (Hst : forall m c, (m <= length outcomes)%nat -> streak c (take m outcomes) = c + Z.of_nat m).
  { clear -Hall. induction outcomes as [|o os IH]; intros m c Hm; destruct m as [|m]; simpl in *; try lia.
    apply Forall_cons in Hall as [Ho Hall]. rewrite Ho, IH by (done || lia). lia. }
  unfold heartbeat_loop. destruct (heartbeats _ outcomes) as [n|b']; cbn [consecutive_failures budget_new
    max_consecutive_failures] in Hs; destruct Hs as (H1' & H2' & H3').
  - rewrite Hst in H2' by done. f_equal. lia.
  - specialize (H3' _ Hl). rewrite Hst in H3' by done. lia.
Qed.

(** A refresh ends the heartbeat.  The daemon refreshes its token while its
    heartbeat goes on with the token it was started with.  As soon as the refresh
    succeeds that token is refused, so the heartbeat's posts all fail, and after
    as many as the threshold allows the loop ends (and the daemon with it) -
    although the refreshed token is good until it expires. *)
Theorem refresh_ends_heartbeat s rt token ctx seen worker sandbox ttl (db : Db World) resp db' id r old request request' :
  tokens_unique db ->
  ctx_principal ctx = PrincipalGuest worker sandbox ->
  guest_tokens (world db) !! id = Some r -> cr_tenant_id r = ctx_tenant_id ctx -> cr_sandbox_id r = sandbox ->
  txt (cr_token_hash r) = hash_worker_token (txt old) ->
  carries request old -> carries request' token ->
  refresh_guest_token rt token ctx seen sandbox ttl db = Some (Ok resp, db') ->
  (forall threshold times, 0 <= threshold <= u32_max -> (Z.to_nat (Z.max threshold 1) <= length times)%nat ->
     heartbeat_loop threshold (health_answer s db' request <$> times) = inl (Z.to_nat (Z.max threshold 1))) /\
  (forall now, now < gr_expires_at resp -> health_answer s db' request' now = Ok tt).
Proof.
  intros Hu Hp Hr Ht Hs Hh Hc Hc'. unfold refresh_guest_token, guest_sandbox_id, ctx_worker_id. rewrite Hp.
  rewrite bool_decide_true by done. cbn [negb]. intros (-> & _ & _ & u & Hi)%guest_issue_ok. split.
  - intros threshold times Hth Hl. apply failures_end_heartbeat; [done| |by rewrite length_fmap].
    apply Forall_fmap, Forall_forall. intros now _. simpl. unfold health_answer.
    rewrite (authenticate_guest _ _ _ Hc). erewrite old_token_refused; [|exact Hu|exact Hi|exact Hr|done..]. done.
  - intros now Hn. unfold health_answer. rewrite (authenticate_guest _ _ _ Hc').
    pose proof (issue_keeps_unique _ _ _ _ _ _ _ _ _ Hu Hi) as Hu'.
    pose proof (issue_tx_ok _ _ _ _ _ _ _ _ _ Hi) as (Hg & _ & _).
    erewrite resolve_unique; [|done|rewrite Hg; apply lookup_insert_eq|simpl; apply token_hash_text].
    simpl in *. by rewrite (proj2 (Z.ltb_lt _ _)).
Qed.
End Resolve.
