(* ===== verification/ResidentContract.v ===== *)
(** * The resident-process contract

    What [put_resident_process] admits: [validate_resident_process_request] of
    [sandboxwich-core/src/lib.rs], and the exact shape of the Maestro hosted
    runner (entry point, bootstrap path, bounded environment, model and
    rendezvous bindings) that
    [sandboxwich-api/src/handlers/resident_processes.rs] requires. *)

From S2P Require Import Prelude Text CompilerCache BootstrapStore CoreTypes Json Store Leases Scopes.

(** ** Requests *)

Record ResidentProcessBootstrap : Type := mkResidentBootstrap {
  rb_content : list N;
  rb_target_file : string;
  rb_mode : Z
}.

(** The environment is a [BTreeMap]: its entries sorted by key. *)
Abbreviation Env := (list (string * string)).

Record ResidentProcessRequest : Type := mkResidentRequest {
  rq_argv : list string;
  rq_cwd : option string;
  rq_env : Env;
  rq_restart_policy : ResidentProcessRestartPolicy;
  rq_expected_generation : Z;
  rq_replace_terminal : bool;
  rq_bootstrap : option ResidentProcessBootstrap;
  rq_sterile_activation : option SterileResidentActivationV1
}.

Definition env_get (env : Env) (key : string) : option string :=
  snd <$> find (fun kv => String.eqb kv.1 key) env.

Fixpoint env_insert (key value : string) (env : Env) : Env :=
  match env with
  | [] => [(key, value)]
  | (k, v) :: rest =>
      match String.compare key k with
      | Lt => (key, value) :: env
      | Eq => (key, value) :: rest
      | Gt => (k, v) :: env_insert key value rest
      end
  end.

Inductive ResidentProcessRequestError : Type :=
| EmptyArgv
| ArgvContainsNul
| EnvironmentContainsNul
| CwdMustBeAbsolute
| BootstrapTooLarge
| BootstrapPathOutsideAllowedRoot
| InvalidBootstrapMode
| InvalidSterileActivationAttestation.

Definition request_error_text (e : ResidentProcessRequestError) : string :=
  match e with
  | EmptyArgv => "resident process argv must not be empty"
  | ArgvContainsNul => "resident process argv contains NUL"
  | EnvironmentContainsNul => "resident process environment contains NUL"
  | CwdMustBeAbsolute => "resident process cwd must be absolute"
  | BootstrapTooLarge => "resident process bootstrap exceeds 64 KiB"
  | BootstrapPathOutsideAllowedRoot => "resident process bootstrap path is outside the allowed root"
  | InvalidBootstrapMode => "resident process bootstrap mode must be between 0400 and 0700"
  | InvalidSterileActivationAttestation =>
      "sterile resident activation attestation is empty or exceeds 1024 bytes"
  end.

Definition MAX_RESIDENT_PROCESS_BOOTSTRAP_BYTES : Z := 64 * 1024.
Definition RESIDENT_PROCESS_BOOTSTRAP_PREFIX : string := "/run/sandboxwich/bootstrap".

(** [0o400] and [0o700]. *)
Definition MODE_0400 : Z := 256.
Definition MODE_0700 : Z := 448.

#[export] Instance component_eq_dec : EqDecision Component.
Proof. solve_decision. Defined.

(** [Path::starts_with]: component by component. *)
Definition path_starts_with (path root : string) : bool :=
  let r := components (chars root) in
  bool_decide (take (length r) (components (chars path)) = r).

Definition path_is_absolute (path : string) : bool := is_absolute (chars path).

Definition has_parent_dir (path : string) : bool :=
  existsb (fun c => bool_decide (c = ParentDir)) (components (chars path)).

Definition validate_bootstrap (b : ResidentProcessBootstrap) : result unit ResidentProcessRequestError :=
  if (MAX_RESIDENT_PROCESS_BOOTSTRAP_BYTES <? Z.of_nat (length (rb_content b)))%Z
  then Err BootstrapTooLarge
  else if negb (path_is_absolute (rb_target_file b))
          || negb (path_starts_with (rb_target_file b) RESIDENT_PROCESS_BOOTSTRAP_PREFIX)
          || has_parent_dir (rb_target_file b)
  then Err BootstrapPathOutsideAllowedRoot
  else if negb ((MODE_0400 <=? rb_mode b) && (rb_mode b <=? MODE_0700))%Z
  then Err InvalidBootstrapMode
  else Ok tt.

Definition validate_activation (a : SterileResidentActivationV1) : result unit ResidentProcessRequestError :=
  let n := Z.of_nat (String.length (sa_lease_attestation a)) in
  if ((n =? 0) || (1024 <? n) || (sa_generation a =? 0))%Z
  then Err InvalidSterileActivationAttestation else Ok tt.

(** A check of an optional field. *)
Definition check_option {A E} (f : A -> result unit E) (o : option A) : result unit E :=
  match o with Some a => f a | None => Ok tt end.

Definition validate_resident_process_request (q : ResidentProcessRequest) :
    result unit ResidentProcessRequestError :=
  if is_nil (rq_argv q) then Err EmptyArgv
  else if existsb contains_nul (rq_argv q) then Err ArgvContainsNul
  else if existsb (fun kv => contains_nul kv.1 || contains_nul kv.2) (rq_env q)
  then Err EnvironmentContainsNul
  else if match rq_cwd q with Some cwd => negb (path_is_absolute cwd) | None => false end
  then Err CwdMustBeAbsolute
  else
    let? _ := check_option validate_bootstrap (rq_bootstrap q) in
    check_option validate_activation (rq_sterile_activation q).

Definition is_supported_resident_process_name (name : string) : bool :=
  String.eqb name ORB_EXECUTOR_RESIDENT_PROCESS_NAME || String.eqb name ORB_SIDECAR_RESIDENT_PROCESS_NAME
  || String.eqb name MAESTRO_HOSTED_RUNNER_RESIDENT_PROCESS_NAME.

(** The two residents that run in a pod of their own. *)
Definition is_provider_isolated_name (name : string) : bool :=
  String.eqb name ORB_SIDECAR_RESIDENT_PROCESS_NAME
  || String.eqb name MAESTRO_HOSTED_RUNNER_RESIDENT_PROCESS_NAME.

(** ** The Maestro hosted runner *)

Definition MAESTRO_HOSTED_RUNNER_WORKSPACE_ROOT : string := "/workspace".
Definition MAESTRO_HOSTED_RUNNER_TOKEN_FILE : string := "/var/run/secrets/evalops.dev/identity/token".
Definition MAESTRO_HOSTED_RUNNER_IDENTITY_CA_FILE : string := "/var/run/secrets/evalops.dev/identity/ca.crt".
Definition MAESTRO_HOSTED_RUNNER_IDENTITY_EXCHANGE_URL : string :=
  "https://identity-service.evalops.svc.cluster.local:8080/internal/v1/kubernetes-workload-certificates/exchange".
Definition MAESTRO_HOSTED_RUNNER_GATEWAY_TOKEN_FILE : string :=
  "/run/sandboxwich/bootstrap/evalops-access-token".
Definition MAESTRO_RESIDENT_CONTRACT_REVISION_V2 : string := "maestro-resident-model-ready-v2".
Definition MAESTRO_RESIDENT_CONTRACT_REVISION_V3 : string := "maestro-resident-model-ready-v3".

Definition MAESTRO_ARGV : list string :=
  ["/usr/local/bin/maestro"; "hosted-runner"; "--listen"; "0.0.0.0:8443"].

Definition REQUIRED_ENV : list string :=
  ["MAESTRO_KUBERNETES_TOKEN_FILE"; "MAESTRO_IDENTITY_EXCHANGE_URL"; "MAESTRO_IDENTITY_TLS_CA_FILE";
   "MAESTRO_ORGANIZATION_ID"; "MAESTRO_WORKSPACE_ID"; "MAESTRO_SANDBOX_ID"; "MAESTRO_RUNNER_SESSION_ID";
   "MAESTRO_EVALOPS_ACCESS_TOKEN_FILE"; "MAESTRO_EVALOPS_BASE_URL"; "MAESTRO_EVALOPS_ORG_ID";
   "MAESTRO_EVALOPS_WORKSPACE_ID"; "MAESTRO_EVALOPS_PROVIDER"; "MAESTRO_EVALOPS_ENVIRONMENT";
   "MAESTRO_EVALOPS_CREDENTIAL_NAME"; "MAESTRO_DEFAULT_MODEL"; "MAESTRO_LLM_GATEWAY_URL";
   "MAESTRO_LLM_GATEWAY_ORG_ID"].

Definition MANAGED_GATEWAY_ENV : list string :=
  ["MAESTRO_EVALOPS_BASE_URL"; "MAESTRO_EVALOPS_ORG_ID"; "MAESTRO_EVALOPS_WORKSPACE_ID";
   "MAESTRO_EVALOPS_PROVIDER"; "MAESTRO_EVALOPS_ENVIRONMENT"; "MAESTRO_EVALOPS_CREDENTIAL_NAME";
   "MAESTRO_MODEL"; "MAESTRO_DEFAULT_MODEL"; "MAESTRO_RESIDENT_CONTRACT_REVISION";
   "MAESTRO_LLM_GATEWAY_URL"; "MAESTRO_LLM_GATEWAY_ORG_ID"; "MAESTRO_RENDEZVOUS_ACTIVATION_ID";
   "MAESTRO_RENDEZVOUS_NONCE"; "MAESTRO_PLATFORM_TOOL_GRANT_ED25519_PUBLIC_KEYS"].

Definition MAX_ENV_VALUE_BYTES : Z := 512.

(** URL-safe base64 without padding. *)
Class Base64UrlLib : Type := {
  base64url_encode : list N -> string;
  base64url_decode : string -> option (list N)
}.

(** [strip_prefix]. *)
Definition text_after (prefix value : string) : option string :=
  if String.prefix prefix value
  then Some (String.substring (String.length prefix) (String.length value - String.length prefix) value)
  else None.

Definition is_qualified_maestro_model (model : string) : bool :=
  match text_after "evalops/" model with
  | Some name => negb (String.eqb name "") && String.eqb (trim name) name
  | None => false
  end.

Section Maestro.
Context `{UuidLib} `{Base64UrlLib}.

Definition canonical_activation_id (text : string) : bool :=
  match uuid_parse_str text with
  | Some u => negb (u =? 0)%N && String.eqb (uuid_to_string u) text
  | None => false
  end.

Definition canonical_nonce (text : string) : bool :=
  match base64url_decode text with
  | Some bytes => Nat.eqb (length bytes) 32 && String.eqb (base64url_encode bytes) text
  | None => false
  end.

Definition valid_maestro_rendezvous_bindings (env : Env) : bool :=
  let activation := (env_get env "MAESTRO_RENDEZVOUS_ACTIVATION_ID", env_get env "MAESTRO_RENDEZVOUS_NONCE") in
  match env_get env "MAESTRO_RESIDENT_CONTRACT_REVISION" with
  | Some revision =>
      if String.eqb revision MAESTRO_RESIDENT_CONTRACT_REVISION_V2
      then match activation with (None, None) => true | _ => false end
      else if String.eqb revision MAESTRO_RESIDENT_CONTRACT_REVISION_V3
      then match activation with
           | (Some id, Some nonce) => canonical_activation_id id && canonical_nonce nonce
           | _ => false
           end
      else false
  | None => false
  end.

Definition env_is (env : Env) (key value : string) : bool := bool_decide (env_get env key = Some value).

Definition contains_key (env : Env) (key : string) : bool := is_some (env_get env key).

Definition env_entry_ok (kv : string * string) : bool :=
  (existsb (String.eqb kv.1) REQUIRED_ENV || existsb (String.eqb kv.1) MANAGED_GATEWAY_ENV)
  && negb (String.eqb kv.2 "") && (Z.of_nat (String.length kv.2) <=? MAX_ENV_VALUE_BYTES)%Z
  && negb (existsb is_control (chars kv.2)).

Definition models_agree (env : Env) : bool :=
  match env_get env "MAESTRO_MODEL", env_get env "MAESTRO_DEFAULT_MODEL" with
  | Some model, Some default_model => String.eqb model default_model && is_qualified_maestro_model model
  | _, _ => false
  end.

Definition maestro_env_ok (env : Env) (sandbox_id : Uuid) : bool :=
  forallb env_entry_ok env && forallb (contains_key env) REQUIRED_ENV
  && env_is env "MAESTRO_KUBERNETES_TOKEN_FILE" MAESTRO_HOSTED_RUNNER_TOKEN_FILE
  && env_is env "MAESTRO_IDENTITY_EXCHANGE_URL" MAESTRO_HOSTED_RUNNER_IDENTITY_EXCHANGE_URL
  && env_is env "MAESTRO_IDENTITY_TLS_CA_FILE" MAESTRO_HOSTED_RUNNER_IDENTITY_CA_FILE
  && env_is env "MAESTRO_EVALOPS_ACCESS_TOKEN_FILE" MAESTRO_HOSTED_RUNNER_GATEWAY_TOKEN_FILE
  && negb (contains_key env "MAESTRO_EVALOPS_ACCESS_TOKEN")
  && negb (contains_key env "MAESTRO_LLM_GATEWAY_TOKEN")
  && models_agree env && valid_maestro_rendezvous_bindings env
  && bool_decide ((env_get env "MAESTRO_SANDBOX_ID" ≫= uuid_parse_str) = Some sandbox_id).

Definition check_maestro_bootstrap (q : ResidentProcessRequest) : result unit ApiError :=
  match rq_bootstrap q with
  | Some b =>
      if is_nil (rb_content b)
         || negb (String.eqb (rb_target_file b) MAESTRO_HOSTED_RUNNER_GATEWAY_TOKEN_FILE)
         || negb (rb_mode b =? MODE_0400)%Z
      then Err (bad_request_code "maestro_bootstrap_path_invalid"
                  "maestro-hosted-runner requires the fixed managed gateway bootstrap path")
      else Ok tt
  | None =>
      if is_none (rq_sterile_activation q)
      then Err (bad_request_code "maestro_bootstrap_required"
                  "maestro-hosted-runner requires the managed gateway bootstrap")
      else Ok tt
  end.

Definition check_maestro_contract (q : ResidentProcessRequest) (sandbox_id : Uuid) : result unit ApiError :=
  let? _ := check_maestro_bootstrap q in
  if negb (bool_decide (rq_argv q = MAESTRO_ARGV))
  then Err (bad_request_code "maestro_entrypoint_invalid"
              "maestro-hosted-runner requires the fixed mTLS entrypoint")
  else if negb (maestro_env_ok (rq_env q) sandbox_id)
  then Err (bad_request_code "maestro_env_bindings_invalid"
              "maestro-hosted-runner requires exact bounded workload identity bindings")
  else Ok tt.

(** Everything [put_resident_process] checks before it reads a table. *)
Definition check_request (activation_enabled : bool) (name : string) (sandbox_id : Uuid)
    (q : ResidentProcessRequest) : result unit ApiError :=
  let? _ := match validate_resident_process_request q with
            | Ok u => Ok u
            | Err e => Err (bad_request (request_error_text e))
            end in
  if is_some (rq_sterile_activation q) && negb activation_enabled
  then Err (not_found "sterile resident activation is not enabled")
  else if is_some (rq_sterile_activation q)
          && negb (String.eqb name MAESTRO_HOSTED_RUNNER_RESIDENT_PROCESS_NAME)
  then Err (bad_request_code "sterile_activation_resident_invalid"
              "sterile activation is restricted to the purpose-created Maestro resident")
  else if negb (is_supported_resident_process_name name)
  then Err (bad_request "the resident-process contract supports only orb-executor, orb-sidecar, and maestro-hosted-runner")
  else if String.eqb name ORB_SIDECAR_RESIDENT_PROCESS_NAME
          && match rq_bootstrap q with Some b => is_nil (rb_content b) | None => true end
  then Err (bad_request "orb-sidecar requires a non-empty bootstrap credential")
  else if String.eqb name MAESTRO_HOSTED_RUNNER_RESIDENT_PROCESS_NAME
  then check_maestro_contract q sandbox_id
  else Ok tt.
End Maestro.
