(* ===== verification/AgentPaths.v ===== *)
(** * The guest agent's paths

    [sandboxwich-agent/src/main.rs]: the paths of file operations are kept
    below the workspace ([normalize_workspace_relative], [open_workspace]),
    and the file a resident process is bootstrapped with below its own root
    ([prepare_resident_bootstrap_file],
    [continue_candidate_bootstrap_validation]).  A path is its components;
    where it leads is what they resolve to one by one. *)

From S2P Require Import Prelude Text CompilerCache CompilerCacheProofs CoreTypes ResidentContract.

Open Scope nat_scope.

(** ** The workspace *)

Inductive PathError : Type :=
| ParentComponent
| NotRelative
| EmptyPath
| OutsideWorkspace.

(** [normalize_workspace_relative]: the parts of the normalized path. *)
Fixpoint normalize_components (cs : list Component) : result (list Text) PathError :=
  match cs with
  | [] => Ok []
  | c :: cs =>
      match c with
      | NormalComponent part => let? rest := normalize_components cs in Ok (part :: rest)
      | CurDir => normalize_components cs
      | ParentDir => Err ParentComponent
      | RootDir => Err NotRelative
      end
  end.

Definition normalize_workspace_relative (cs : list Component) : result (list Text) PathError :=
  let? parts := normalize_components cs in
  if is_nil parts then Err EmptyPath else Ok parts.

(** [Path::strip_prefix]: the components after the prefix. *)
Definition strip_components (prefix cs : list Component) : option (list Component) :=
  if bool_decide (take (length prefix) cs = prefix) then Some (drop (length prefix) cs) else None.

(** [open_workspace]: the path below the directory that is opened. *)
Definition open_workspace (workspace_root requested : Text) : result (list Text) PathError :=
  let cs := components requested in
  let? relative := if is_absolute requested
                   then match strip_components (components workspace_root) cs with
                        | Some rest => Ok rest
                        | None => Err OutsideWorkspace
                        end
                   else Ok cs in
  normalize_workspace_relative relative.

(** ** The bootstrap file *)

Record BootstrapFile : Type := mkBootstrapFile {
  bf_content : Bytes;
  bf_target_file : string;
  bf_mode : Z
}.

Definition MAX_STERILE_BUNDLE_BYTES : Z := 1024 * 1024.

Inductive BootstrapFileError : Type :=
| ActivationOnlyWithData
| OutsideBootstrapRoot
| ExceedsHandoffBound.

(** [prepare_resident_bootstrap_file], up to the file it creates: [None] when
    there is none. *)
Definition prepare_resident_bootstrap_file (b : BootstrapFile) (bootstrap_root : string) :
    result (option string) BootstrapFileError :=
  if String.eqb (bf_target_file b) "" then
    if is_nil (bf_content b) && (bf_mode b =? 0)%Z then Ok None else Err ActivationOnlyWithData
  else if path_starts_with (bf_target_file b) bootstrap_root then Ok (Some (bf_target_file b))
  else Err OutsideBootstrapRoot.

Definition continue_candidate_bootstrap_validation (b : BootstrapFile) : result unit BootstrapFileError :=
  if (MAX_STERILE_BUNDLE_BYTES <? Z.of_nat (length (bf_content b)))%Z then Err ExceedsHandoffBound
  else if String.eqb (bf_target_file b) "" then
    if is_nil (bf_content b) && (bf_mode b =? 0)%Z then Ok tt else Err ActivationOnlyWithData
  else if path_starts_with (bf_target_file b) RESIDENT_PROCESS_BOOTSTRAP_PREFIX then Ok tt
  else Err OutsideBootstrapRoot.

(** ** Where a path leads *)

Definition walk (at_ : list Text) (c : Component) : list Text :=
  match c with
  | RootDir => []
  | CurDir => at_
  | ParentDir => removelast at_
  | NormalComponent part => at_ ++ [part]
  end.

Definition resolve (at_ : list Text) (cs : list Component) : list Text := foldl walk at_ cs.

(** Components that go down. *)
Definition descends (c : Component) : Prop := match c with NormalComponent _ | CurDir => True | _ => False end.

Definition normal (c : Component) : option Text := match c with NormalComponent p => Some p | _ => None end.

Lemma normalize_ok cs parts : normalize_components cs = Ok parts <-> parts = omap normal cs /\ Forall descends cs.
Proof.
  revert parts. induction cs as [|c cs IH]; intros parts.
  { simpl. split; [by intros [= <-]|by intros [-> _]]. }
  rewrite Forall_cons. destruct c; csimpl; [naive_solver|rewrite IH; naive_solver|naive_solver|].
  rewrite result_bind_ok. split.
  - intros (rest & Hr & [= <-]). apply IH in Hr as [-> Hf]. done.
  - intros [-> [_ Hf]]. exists (omap normal cs). split; [by apply IH|done].
Qed.

Lemma resolve_down at_ cs : Forall descends cs -> resolve at_ cs = at_ ++ omap normal cs.
Proof.
  intros Hc. revert at_. induction Hc as [|c cs Hc _ IH]; intros at_; csimpl; [by rewrite app_nil_r|].
  destruct c as [| | |part]; [done|exact (IH at_)|done|].
  change (resolve (at_ ++ [part]) cs = at_ ++ part :: omap normal cs). rewrite IH. by rewrite <- app_assoc.
Qed.

Lemma resolve_app at_ cs cs' : resolve at_ (cs ++ cs') = resolve (resolve at_ cs) cs'.
Proof. unfold resolve. apply foldl_app. Qed.

Lemma pieces_good first pieces : Forall (fun t => 47%N ∉ t) pieces ->
  Forall good_part (omap normal (piece_components first pieces)).
Proof.
  intros HF. revert first. induction HF as [|p pieces Hp HF IH]; intros first; simpl; [constructor|].
  rewrite omap_app. apply Forall_app. split; [|apply IH].
  destruct p as [|x p]; [constructor|]. cbn [is_nil].
  case_bool_decide as E1; [destruct first; constructor|]. case_bool_decide as E2; [constructor|].
  constructor; [by constructor|constructor].
Qed.

Lemma components_good path : Forall good_part (omap normal (components path)).
Proof.
  unfold components. rewrite omap_app. apply Forall_app. split.
  - destruct (is_absolute path); constructor.
  - apply pieces_good, split_char_no_sep.
Qed.

Lemma strip_components_ok prefix cs rest : strip_components prefix cs = Some rest -> cs = prefix ++ rest.
Proof.
  unfold strip_components. case_bool_decide as E; [|done]. intros [= <-].
  rewrite <- (take_drop (length prefix) cs) at 1. by f_equal.
Qed.

(** C30. File operations stay in the workspace.  A path that is accepted is
    opened as a descent of proper names below the workspace root (not the root
    itself), and that is where the requested path leads: from the root when it is
    relative, and outright when it is absolute; and every path without [..] that
    leads below the root by names alone is accepted. *)
Theorem workspace_paths_are_confined root requested parts :
  let from := resolve [] (components root) in
  open_workspace root requested = Ok parts <->
  parts <> [] /\ Forall good_part parts /\
  exists rest, components requested = (if is_absolute requested then components root else []) ++ rest /\
    Forall descends rest /\ parts = omap normal rest /\
    resolve (if is_absolute requested then [] else from) (components requested) = from ++ parts.
Proof.
  intros from. unfold open_workspace, normalize_workspace_relative. rewrite result_bind_ok. split.
  - intros (rest & Hr & Hp). apply result_bind_ok in Hp as (ps & Hn & Hp).
    destruct (is_nil ps) eqn:En; [done|]. injection Hp as ->. apply normalize_ok in Hn as [Hps Hd].
    assert (Hc : components requested = (if is_absolute requested then components root else []) ++ rest).
    { destruct (is_absolute requested); [|by injection Hr as <-].
      destruct (strip_components _ _) eqn:Es; [|done]. injection Hr as ->. by apply strip_components_ok. }
    split_and!; [by intros ->| |exists rest; split_and!; try done].
    + pose proof (components_good requested) as Hg. rewrite Hc, omap_app, Forall_app in Hg. rewrite Hps. by destruct Hg.
    + rewrite Hc. destruct (is_absolute requested); [rewrite resolve_app|]; by rewrite resolve_down, Hps.
  - intros (Hne & _ & rest & Hc & Hd & Hps & _). exists rest. split.
    + destruct (is_absolute requested); [|by rewrite Hc]. unfold strip_components.
      rewrite Hc, bool_decide_true by (by rewrite take_app_length). by rewrite drop_app_length.
    + rewrite (proj2 (normalize_ok rest parts)) by done. simpl. by destruct parts.
Qed.

(** ** The bootstrap file is where the service admitted it *)

Definition bootstrap_root : list Text := [txt "run"; txt "sandboxwich"; txt "bootstrap"].

Lemma root_components : components (chars RESIDENT_PROCESS_BOOTSTRAP_PREFIX) = RootDir :: (NormalComponent <$> bootstrap_root).
Proof. vm_compute. reflexivity. Qed.

Lemma pieces_no_root first pieces : RootDir ∉ piece_components first pieces.
Proof.
  revert first. induction pieces as [|p pieces IH]; intros first; simpl; [apply not_elem_of_nil|].
  rewrite elem_of_app. intros [Hin|Hin]; [|by apply (IH false)].
  destruct (is_nil p); [by apply not_elem_of_nil in Hin|].
  repeat case_bool_decide; try destruct first; set_solver.
Qed.

Lemma below_root_no_root path rest :
  components path = RootDir :: rest -> RootDir ∉ rest.
Proof.
  unfold components. destruct (is_absolute path); simpl; intros E.
  - injection E as <-. apply pieces_no_root.
  - exfalso. apply (pieces_no_root true (split_char 47 path)). rewrite E. by left.
Qed.

(** Without [..] what starts with the root leads below it. *)
Lemma starts_with_leads path : path_starts_with path RESIDENT_PROCESS_BOOTSTRAP_PREFIX = true ->
  has_parent_dir path = false -> exists rest, resolve [] (components (chars path)) = bootstrap_root ++ rest.
Proof.
  unfold path_starts_with, has_parent_dir. rewrite root_components. intros E%bool_decide_eq_true Hp.
  set (cs := components (chars path)) in *. set (root := RootDir :: (NormalComponent <$> bootstrap_root)) in *.
  assert (Hcs : cs = root ++ drop (length root) cs) by (rewrite <- (take_drop (length root) cs) at 1; by f_equal).
  set (tl := drop (length root) cs) in *.
  assert (Hd : Forall descends tl).
  { apply Forall_forall. intros c Hc. destruct c; try done.
    - exfalso. apply (below_root_no_root (chars path) ((NormalComponent <$> bootstrap_root) ++ tl)); [exact Hcs|].
      apply elem_of_app. by right.
    - exfalso. apply not_true_iff_false in Hp. apply Hp, existsb_exists. exists ParentDir. split; [|done].
      apply list_elem_of_In. rewrite Hcs. apply elem_of_app. by right. }
  exists (omap normal tl). rewrite Hcs, resolve_app, resolve_down by done. done.
Qed.

(** The guest's own check of a bootstrap path is not enough.  A target that
    the service admits leads below the bootstrap root, and the guest accepts it.
    But the guest's check (and the launcher's) also accepts a path through [..]
    that leads anywhere else. *)
Theorem bootstrap_target_is_confined_by_service b :
  validate_bootstrap b = Ok tt ->
  (exists rest, resolve [] (components (chars (rb_target_file b))) = bootstrap_root ++ rest) /\
  prepare_resident_bootstrap_file (mkBootstrapFile (rb_content b) (rb_target_file b) (rb_mode b))
    RESIDENT_PROCESS_BOOTSTRAP_PREFIX = Ok (Some (rb_target_file b)) /\
  exists escaping,
    prepare_resident_bootstrap_file escaping RESIDENT_PROCESS_BOOTSTRAP_PREFIX = Ok (Some (bf_target_file escaping)) /\
    continue_candidate_bootstrap_validation escaping = Ok tt /\
    resolve [] (components (chars (bf_target_file escaping))) = [txt "etc"; txt "profile"].
Proof.
  unfold validate_bootstrap. destruct (_ <? _)%Z; [done|].
  destruct (path_starts_with (rb_target_file b) RESIDENT_PROCESS_BOOTSTRAP_PREFIX) eqn:Es;
    [|by rewrite orb_true_r].
  destruct (has_parent_dir (rb_target_file b)) eqn:Ep; [by rewrite !orb_true_r|]. intros _.
  split_and!; [by apply starts_with_leads| |].
  - unfold prepare_resident_bootstrap_file. simpl bf_target_file. rewrite Es.
    destruct (String.eqb_spec (rb_target_file b) "") as [E|]; [|done]. by rewrite E in Es.
  - exists (mkBootstrapFile [] "/run/sandboxwich/bootstrap/../../../etc/profile" 256).
    split_and!; vm_compute; reflexivity.
Qed.

Lemma bootstrap_target_is_confined_by_service_witness :
  exists rest, resolve [] (components (chars "/run/sandboxwich/bootstrap/token")) = bootstrap_root ++ rest.
Proof.
  destruct (bootstrap_target_is_confined_by_service (mkResidentBootstrap [] "/run/sandboxwich/bootstrap/token" 256))
    as [H _]; [vm_compute; reflexivity|exact H].
Defined.
