(* ===== verification/AgentLauncher.v ===== *)
(** * The launcher of a sterile cell

    [sandboxwich-agent/src/main.rs]: the launcher waits in the workload's
    container for one activation, which the control side sends over a mutually
    authenticated channel, and runs it.  Requests, the task that runs an
    activation and status reads interleave; they share one state behind a
    mutex, so a step is what one of them does under it. *)

From S2P Require Import Prelude Text CoreTypes Json Store Claim BootstrapStore AgentResident AgentPaths.

Open Scope Z_scope.

Record SterileActivationRequestV1 : Type := mkActivationRequest {
  ar_version : Z;
  ar_candidate : SterilePoolCandidateV1;
  ar_fence : SterileResidentActivationFenceV1;
  ar_validated_expires_at : Z;
  ar_argv : list string;
  ar_cwd : option string;
  ar_env : list (string * string);
  ar_bootstrap : BootstrapFile;
  ar_bootstrap_activation : option SterileResidentActivationV1
}.

(** The launcher's environment: the marker of its candidate, when it is set
    and well formed, and its pod. *)
Record LauncherEnv : Type := mkLauncherEnv {
  le_marker : option SterilePoolCandidateV1;
  le_pod_name : option string;
  le_pod_uid : option string
}.

#[export] Instance release_eq_dec : EqDecision SterileCellReleaseTrustClassV1.
Proof. solve_decision. Defined.

Definition validate_sterile_activation_request (env : LauncherEnv) (now : Z) (q : SterileActivationRequestV1) : bool :=
  let c := ar_candidate q in
  (ar_version q =? 1) && (now <? ar_validated_expires_at q)
  && bool_decide (activation_cell_id (ar_fence q) = candidate_cell_id c)
  && is_none (ar_bootstrap_activation q)
  && match le_marker env with
     | None => false
     | Some m =>
         bool_decide (candidate_cell_id m = candidate_cell_id c)
         && bool_decide (candidate_release m = candidate_release c)
         && String.eqb (candidate_agent_image m) (candidate_agent_image c)
         && String.eqb (candidate_maestro_image m) (candidate_maestro_image c)
         && String.eqb (candidate_service_name m) (candidate_service_name c)
     end
  && bool_decide (le_pod_name env = candidate_pod_name c) && bool_decide (le_pod_uid env = candidate_pod_uid c)
  && is_ok (continue_candidate_bootstrap_validation (ar_bootstrap q)).

(** The encoding of a request and its digest. *)
Class LauncherLib : Type := {
  encode_activation : SterileActivationRequestV1 -> option Bytes;
  activation_digest : Bytes -> Bytes
}.

Inductive SterileLauncherActivationState : Type :=
| LauncherWaiting
| LauncherAccepted (request_digest : Bytes) (status : SterileLauncherStatusV1).

Definition accepted_status : SterileLauncherStatusV1 := mkLauncherStatus PhaseAccepted None None None.

Inductive LauncherRefusal : Type :=
| InvalidActivation
| ActivationTooLarge
| ConflictingActivation.

(** [register_sterile_activation]: whether the activation is new, and the
    status. *)
Definition register_sterile_activation (request_digest : Bytes) (s : SterileLauncherActivationState) :
    result (bool * SterileLauncherStatusV1) LauncherRefusal * SterileLauncherActivationState :=
  match s with
  | LauncherWaiting => (Ok (true, accepted_status), LauncherAccepted request_digest accepted_status)
  | LauncherAccepted existing status =>
      if bool_decide (existing = request_digest) then (Ok (false, status), s) else (Err ConflictingActivation, s)
  end.

Section Launcher.
Context `{LauncherLib}.

(** [accept_sterile_activation]: the answer and the activation it starts. *)
Definition accept_sterile_activation (env : LauncherEnv) (now : Z) (q : SterileActivationRequestV1)
    (s : SterileLauncherActivationState) :
    result (bool * SterileLauncherStatusV1) LauncherRefusal * SterileLauncherActivationState *
    option SterileActivationRequestV1 :=
  if negb (validate_sterile_activation_request env now q) then (Err InvalidActivation, s, None)
  else match encode_activation q with
       | None => (Err InvalidActivation, s, None)
       | Some encoded =>
           if MAX_STERILE_BUNDLE_BYTES <? Z.of_nat (length encoded) then (Err ActivationTooLarge, s, None)
           else match register_sterile_activation (activation_digest encoded) s with
                | (Ok (true, status), s') => (Ok (true, status), s', Some q)
                | (r, s') => (r, s', None)
                end
       end.
End Launcher.

Definition set_sterile_launcher_status (status : SterileLauncherStatusV1) (s : SterileLauncherActivationState) :
    SterileLauncherActivationState :=
  match s with
  | LauncherWaiting => LauncherWaiting
  | LauncherAccepted digest _ => LauncherAccepted digest status
  end.

(** [get_sterile_launcher_status]: 404 before an activation. *)
Definition get_sterile_launcher_status (s : SterileLauncherActivationState) : option SterileLauncherStatusV1 :=
  match s with LauncherWaiting => None | LauncherAccepted _ status => Some status end.

(** ** The launcher as it runs

    The task of an activation ([run_sterile_activation]) prepares the
    bootstrap file, spawns the process, waits for it, and ends either way. *)
Inductive ActivationTask : Type :=
| TaskStarted (q : SterileActivationRequestV1)
| TaskRunning (q : SterileActivationRequestV1) (pid : option Z)
| TaskEnded.

Record LauncherSystem : Type := mkLauncherSystem {
  ly_state : SterileLauncherActivationState;
  ly_tasks : list ActivationTask;
  (** Every activation whose process was spawned. *)
  ly_spawned : list SterileActivationRequestV1
}.

Definition launcher_start : LauncherSystem := mkLauncherSystem LauncherWaiting [] [].

Definition launcher_failed : SterileLauncherStatusV1 :=
  mkLauncherStatus PhaseTerminal None None (Some "sterile launcher failed").

(** Whether the process can be spawned at all. *)
Definition may_spawn (q : SterileActivationRequestV1) : bool :=
  is_ok (prepare_resident_bootstrap_file (ar_bootstrap q) "/run/sandboxwich/bootstrap") && negb (is_nil (ar_argv q)).

Inductive launcher_step `{LauncherLib} (env : LauncherEnv) : LauncherSystem -> LauncherSystem -> Prop :=
| launcher_put now q r s' started y :
    accept_sterile_activation env now q (ly_state y) = (r, s', started) ->
    launcher_step env y
      (mkLauncherSystem s' (ly_tasks y ++ match started with Some q => [TaskStarted q] | None => [] end) (ly_spawned y))
| launcher_spawns i q pid y : ly_tasks y !! i = Some (TaskStarted q) -> may_spawn q = true ->
    launcher_step env y
      (mkLauncherSystem (set_sterile_launcher_status (mkLauncherStatus PhaseRunning pid None None) (ly_state y))
         (<[i := TaskRunning q pid]> (ly_tasks y)) (ly_spawned y ++ [q]))
| launcher_spawn_fails i q y : ly_tasks y !! i = Some (TaskStarted q) ->
    launcher_step env y
      (mkLauncherSystem (set_sterile_launcher_status launcher_failed (ly_state y)) (<[i := TaskEnded]> (ly_tasks y))
         (ly_spawned y))
| launcher_exits i q pid code y : ly_tasks y !! i = Some (TaskRunning q pid) ->
    launcher_step env y
      (mkLauncherSystem (set_sterile_launcher_status (mkLauncherStatus PhaseTerminal None code None) (ly_state y))
         (<[i := TaskEnded]> (ly_tasks y)) (ly_spawned y))
| launcher_wait_fails i q pid y : ly_tasks y !! i = Some (TaskRunning q pid) ->
    launcher_step env y
      (mkLauncherSystem (set_sterile_launcher_status launcher_failed (ly_state y)) (<[i := TaskEnded]> (ly_tasks y))
         (ly_spawned y)).

Section LauncherProofs.
Context `{LauncherLib}.

Definition task_phase (t : ActivationTask) : SterileLauncherPhaseV1 :=
  match t with TaskStarted _ => PhaseAccepted | TaskRunning _ _ => PhaseRunning | TaskEnded => PhaseTerminal end.

(** The activation that a digest stands for was valid when it came. *)
Definition admitted (env : LauncherEnv) (digest : Bytes) (q : SterileActivationRequestV1) : Prop :=
  exists now encoded, validate_sterile_activation_request env now q = true /\ encode_activation q = Some encoded /\
    Z.of_nat (length encoded) <= MAX_STERILE_BUNDLE_BYTES /\ activation_digest encoded = digest.

Definition task_of (t : ActivationTask) : option SterileActivationRequestV1 :=
  match t with TaskStarted q | TaskRunning q _ => Some q | TaskEnded => None end.

(** One task at most, in the phase of the status, and nothing else ever
    spawned. *)
Definition launcher_inv (env : LauncherEnv) (y : LauncherSystem) : Prop :=
  match ly_state y with
  | LauncherWaiting => ly_tasks y = [] /\ ly_spawned y = []
  | LauncherAccepted digest status =>
      exists t, ly_tasks y = [t] /\ ls_phase status = task_phase t /\
        (forall q, task_of t = Some q -> admitted env digest q) /\
        match t with
        | TaskStarted _ => ly_spawned y = []
        | TaskRunning q _ => ly_spawned y = [q]
        | TaskEnded => length (ly_spawned y) <= 1
        end /\ Forall (admitted env digest) (ly_spawned y)
  end%nat.

Lemma single_lookup {A} (t : A) i x : [t] !! i = Some x -> i = 0%nat /\ x = t.
Proof. destruct i as [|i]; [by intros [= <-]|done]. Qed.

Lemma launcher_step_inv env y y' : launcher_inv env y -> launcher_step env y y' -> launcher_inv env y'.
Proof.
  intros Hi Hs. destruct Hs as [now q r s' started y Ha|i q pid y Ht Hm|i q y Ht|i q pid code y Ht|i q pid y Ht];
    unfold launcher_inv in *; cbn [ly_state ly_tasks ly_spawned].
  { unfold accept_sterile_activation in Ha.
    destruct (validate_sterile_activation_request env now q) eqn:Ev;
      [|injection Ha as <- <- <-; by rewrite app_nil_r].
    cbn [negb] in Ha. destruct (encode_activation q) as [encoded|] eqn:Ee;
      [|injection Ha as <- <- <-; by rewrite app_nil_r].
    destruct (Z.ltb_spec MAX_STERILE_BUNDLE_BYTES (Z.of_nat (length encoded))) as [Hl|Hl];
      [injection Ha as <- <- <-; by rewrite app_nil_r|].
    destruct (ly_state y) as [|digest status] eqn:Es; simpl in Ha.
    - injection Ha as <- <- <-. destruct Hi as [-> ->]. exists (TaskStarted q). split_and!; try done.
      intros q' [= <-]. by exists now, encoded.
    - case_bool_decide; injection Ha as <- <- <-; by rewrite app_nil_r. }
  all: destruct (ly_state y) as [|digest status]; [by destruct Hi as [Hi _]; rewrite Hi in Ht|].
  all: destruct Hi as (t & Etasks & Hph & Hadm & Hsp & Hall).
  all: rewrite Etasks in *; apply single_lookup in Ht as [-> <-]; simpl.
  - exists (TaskRunning q pid). rewrite Hsp in *. split_and!; try done; simpl.
    constructor; [by apply Hadm|done].
  - exists TaskEnded. rewrite Hsp in *. split_and!; try done; simpl; lia.
  - exists TaskEnded. rewrite Hsp in *. split_and!; try done; simpl; lia.
  - exists TaskEnded. rewrite Hsp in *. split_and!; try done; simpl; lia.
Qed.

Lemma launcher_reachable_inv env y : rtc (launcher_step env) launcher_start y -> launcher_inv env y.
Proof.
  intros Hr. assert (H0 : launcher_inv env launcher_start) by done. revert H0.
  induction Hr as [|y y1 y2 Hs _ IH]; [done|]. intros Hi. by apply IH, (launcher_step_inv env y).
Qed.

Definition phase_rank (p : SterileLauncherPhaseV1) : nat :=
  match p with PhaseAccepted => 0 | PhaseRunning => 1 | PhaseTerminal => 2 end.

Definition digest_of (s : SterileLauncherActivationState) : option Bytes :=
  match s with LauncherWaiting => None | LauncherAccepted d _ => Some d end.

(** What was accepted stays, and its status only moves forward. *)
Definition advances (s s' : SterileLauncherActivationState) : Prop :=
  match s with
  | LauncherWaiting => True
  | LauncherAccepted d status =>
      exists status', s' = LauncherAccepted d status' /\ (phase_rank (ls_phase status) <= phase_rank (ls_phase status'))%nat /\
        (ls_phase status = PhaseTerminal -> status' = status)
  end.

Lemma step_advances env y y' : launcher_inv env y -> launcher_step env y y' -> advances (ly_state y) (ly_state y').
Proof.
  intros Hi Hs. destruct Hs as [now q r s' started y Ha|i q pid y Ht Hm|i q y Ht|i q pid code y Ht|i q pid y Ht];
    unfold launcher_inv, advances in *; cbn [ly_state].
  { destruct (ly_state y) as [|digest status] eqn:Es; [done|]. unfold accept_sterile_activation in Ha.
    assert (s' = LauncherAccepted digest status) as ->.
    { destruct (negb _); [by injection Ha|]. destruct (encode_activation q); [|by injection Ha].
      destruct (_ <? _); [by injection Ha|]. simpl in Ha. case_bool_decide; by injection Ha. }
    by exists status. }
  all: destruct (ly_state y) as [|digest status]; [done|].
  all: destruct Hi as (t & Etasks & Hph & _); rewrite Etasks in Ht; apply single_lookup in Ht as [_ <-].
  all: eexists; split; [done|]; rewrite Hph; simpl; split; [lia|done].
Qed.

(** C21. A launcher runs one activation.  Whatever requests arrive and however
    the process behaves, only one activation is ever spawned, and it was valid for
    this launcher's candidate and pod when it came; once an activation is
    accepted it stays, its status moves from accepted over running to terminal and
    then no more, the same request is answered with that status and any other is
    refused. *)
Theorem launcher_runs_one_activation env y y' :
  rtc (launcher_step env) launcher_start y -> rtc (launcher_step env) y y' ->
  (length (ly_spawned y') <= 1)%nat /\ advances (ly_state y) (ly_state y') /\
  forall digest status, ly_state y = LauncherAccepted digest status ->
    Forall (admitted env digest) (ly_spawned y') /\
    forall request, (register_sterile_activation request (ly_state y')).1
      = if bool_decide (digest = request)
        then Ok (false, default accepted_status (get_sterile_launcher_status (ly_state y')))
        else Err ConflictingActivation.
Proof.
  intros Hr Hr'. pose proof (launcher_reachable_inv env y Hr) as Hi.
  assert (Hi' : launcher_inv env y') by (apply launcher_reachable_inv; by etrans).
  assert (Ha : advances (ly_state y) (ly_state y')).
  { clear Hr Hi'. induction Hr' as [y|y y1 y2 Hs _ IH].
    - unfold advances. destruct (ly_state y); [done|]. by eexists.
    - pose proof (step_advances env y y1 Hi Hs) as A1. specialize (IH (launcher_step_inv _ _ _ Hi Hs)).
      unfold advances in *. destruct (ly_state y) as [|d st]; [done|]. destruct A1 as (st1 & E1 & R1 & T1).
      rewrite E1 in IH. destruct IH as (st2 & E2 & R2 & T2). exists st2. split_and!; [done|lia|].
      intros Ht. specialize (T1 Ht). subst st1. by apply T2. }
  split_and!; [|done|].
  - unfold launcher_inv in Hi'. destruct (ly_state y') as [|d st]; [destruct Hi' as [_ ->]; simpl; lia|].
    destruct Hi' as (t & _ & _ & _ & Hs & _). destruct t; [rewrite Hs; simpl; lia|rewrite Hs; simpl; lia|done].
  - intros digest status E. rewrite E in Ha. destruct Ha as (status' & E' & _ & _).
    unfold launcher_inv in Hi'. rewrite E' in *. destruct Hi' as (t & _ & _ & _ & _ & Hall). split; [done|].
    intros request. simpl. by case_bool_decide.
Qed.
End LauncherProofs.

(** ** A launcher that is activated once *)

#[local] Instance argv_encoding : LauncherLib := {|
  encode_activation q := Some (str_bytes (String.concat " " (ar_argv q)));
  activation_digest b := b
|}.

Definition sample_candidate : SterilePoolCandidateV1 :=
  mkSterilePoolCandidate 7%N (mkReleaseTrustClass "release" SterileCellRuntimeClass.KataMicrovm "digest" "signature")
    "agent" "maestro" "service" (Some "pod") (Some "uid").

Definition sample_launcher_env : LauncherEnv := mkLauncherEnv (Some sample_candidate) (Some "pod") (Some "uid").

Definition sample_activation_request : SterileActivationRequestV1 :=
  mkActivationRequest 1 sample_candidate (mkActivationFence 7%N 9%N 1) 100 ["maestro"; "serve"] None []
    (mkBootstrapFile [] "" 0) None.

Definition accepted_system : LauncherSystem :=
  mkLauncherSystem (LauncherAccepted (str_bytes "maestro serve") accepted_status)
    [TaskStarted sample_activation_request] [].

Definition ended_system : LauncherSystem :=
  mkLauncherSystem (LauncherAccepted (str_bytes "maestro serve") (mkLauncherStatus PhaseTerminal None (Some 0) None))
    [TaskEnded] [sample_activation_request].

Lemma accepted_reachable : rtc (launcher_step sample_launcher_env) launcher_start accepted_system.
Proof.
  apply rtc_once.
  apply (launcher_put sample_launcher_env 5 sample_activation_request (Ok (true, accepted_status))
           (LauncherAccepted (str_bytes "maestro serve") accepted_status) (Some sample_activation_request) launcher_start).
  vm_compute. reflexivity.
Qed.

Lemma ended_reachable : rtc (launcher_step sample_launcher_env) accepted_system ended_system.
Proof.
  eapply rtc_l; [apply (launcher_spawns _ 0 sample_activation_request (Some 12)); vm_compute; reflexivity|].
  apply rtc_once.
  apply (launcher_exits sample_launcher_env 0 sample_activation_request (Some 12) (Some 0)
           (mkLauncherSystem (LauncherAccepted (str_bytes "maestro serve") (mkLauncherStatus PhaseRunning (Some 12) None None))
              [TaskRunning sample_activation_request (Some 12)] [sample_activation_request])).
  reflexivity.
Qed.

Lemma launcher_runs_one_activation_witness :
  (register_sterile_activation (str_bytes "maestro stop") (ly_state ended_system)).1 = Err ConflictingActivation.
Proof.
  destruct (launcher_runs_one_activation sample_launcher_env accepted_system ended_system accepted_reachable ended_reachable)
    as (_ & _ & H).
  destruct (H (str_bytes "maestro serve") accepted_status eq_refl) as [_ H1].
  exact (H1 (str_bytes "maestro stop")).
Defined.
