(* ===== verification/ResidentAttestations.v ===== *)
(** * Placement attestations and the Maestro binding

    [sandboxwich-api/src/handlers/resident_attestations.rs].  A sidecar proves
    where it runs with a token derived from its placement fence (process,
    generation, lease, job, worker, placement).  The token is issued with the
    bootstrap, redeemed once under an idempotency key, and both redemption and
    validation compare the recorded fence with the live rows.  The Maestro
    hosted runner has no token: its connection binding is read from the live
    rows, and its workload identity is validated against them. *)

From S2P Require Import Prelude Text BootstrapStore CoreTypes LifecycleContract Json Store Leases SandboxLifecycle World.
From S2P Require Import Authz Scopes Claim SterilePool PoolController SterileCells ResidentContract.
From stdpp Require Import pretty.

(** The two libraries the handlers print with: the URI type's path segments
    and the unhyphenated form of an identifier. *)
Class AttestationLib : Type := {
  spiffe_uri : list string -> string;
  uuid_simple : Uuid -> string
}.

Definition ATTESTATION_VERSION : Z := 2.
Definition ATTESTATION_TTL_SECONDS : Z := 300.
Definition MAESTRO_HOSTED_RUNNER_CONTAINER_PORT : Z := 8443.
Definition MAESTRO_HOSTED_RUNNER_SERVICE_ACCOUNT : string := "maestro-workload".
Definition PROVIDER_ISOLATED_RESIDENT_PROCESS_IMAGE_LABEL : string :=
  "provider_isolated_resident_process_image".

Record PlacementFence : Type := mkPlacementFence {
  pf_lease_attempt : Z;
  pf_job_id : Uuid;
  pf_worker_id : Uuid;
  pf_placement_generation : Z;
  pf_provider_mode : string;
  pf_runtime_image : string;
  pf_isolation_version : Z;
  pf_lease_expires_at : Z;
  pf_provider_pod_name : option string;
  pf_provider_pod_uid : option string
}.

Record AttestationRecord : Type := mkAttestationRecord {
  rec_id : Uuid;
  rec_tenant_id : string;
  rec_sandbox_id : Uuid;
  rec_process_id : Uuid;
  rec_generation : Z;
  rec_lease_id : Uuid;
  rec_fence : PlacementFence;
  rec_issued_at : Z;
  rec_expires_at : Z;
  rec_token_sha256 : string;
  rec_consumed_at : option Z;
  rec_redeem_idempotency_key : option Uuid
}.

Record ResidentPlacementClaims : Type := mkPlacementClaims {
  pc_version : Z;
  pc_attestation_id : Uuid;
  pc_tenant_id : string;
  pc_sandbox_id : Uuid;
  pc_process_id : Uuid;
  pc_process_generation : Z;
  pc_lease_id : Uuid;
  pc_lease_attempt : Z;
  pc_job_id : Uuid;
  pc_worker_id : Uuid;
  pc_placement_generation : Z;
  pc_provider_pod_uid : string;
  pc_provider_mode : string;
  pc_runtime_image : string;
  pc_isolation_version : Z;
  pc_issued_at : Z;
  pc_attestation_expires_at : Z;
  pc_lease_expires_at : Z
}.

(** ** Errors *)

Definition unavailable : ApiError :=
  mkApiError NOT_FOUND (reason_as_str PlacementAttestationNotFound) "placement attestation was not found" None.

Definition not_live (message : string) : ApiError :=
  conflict_code (reason_as_str PlacementAttestationNotLive) message.

Definition placement_pending : ApiError :=
  conflict_code (reason_as_str PlacementAttestationPending)
    "Maestro hosted runner placement is still being materialized".

Definition maestro_workload_stale_generation : ApiError :=
  conflict_code (reason_as_str MaestroWorkloadStaleGeneration)
    "Maestro workload placement generation is stale".

Definition is_terminal_state (s : ResidentProcessObservedState) : bool :=
  match s with
  | ResidentProcessObservedState.Failed | ResidentProcessObservedState.Lost
  | ResidentProcessObservedState.Stopped => true
  | _ => false
  end.

(** The contract violations that keep their own reason. *)
Definition contract_reasons : list (LifecycleReasonCode * StatusCode) :=
  [(KubernetesContractInvalid, UNPROCESSABLE_ENTITY); (ResourceContractConflict, UNPROCESSABLE_ENTITY);
   (ResourceIdentityConflict, UNPROCESSABLE_ENTITY); (PodUnschedulable, SERVICE_UNAVAILABLE)].

Definition security_reasons : list (LifecycleReasonCode * StatusCode) :=
  [(KubernetesPolicyDenied, FORBIDDEN); (RuntimeClassBoundaryUnverified, FORBIDDEN)].

Definition reason_in (code : option string) (reasons : list (LifecycleReasonCode * StatusCode)) :
    option (LifecycleReasonCode * StatusCode) :=
  find (fun rs => bool_decide (code = Some (reason_as_str rs.1))) reasons.

(** Why a resident cannot be connected to yet, or any more. *)
Definition resident_not_ready_error (observed : ResidentProcessObservedState)
    (class : option ProvisioningErrorClass) (code last_error : option string) : ApiError :=
  let message := default "resident process has not reported a provider error" last_error in
  let answer (r : LifecycleReasonCode) (s : StatusCode) := mkApiError s (reason_as_str r) message None in
  let capacity := bool_decide (class = Some ProvisioningErrorClass.RetryableCapacity)
                  || bool_decide (code = Some (reason_as_str WorkspaceCapacityPending)) in
  if negb (is_terminal_state observed) then
    if capacity then answer WorkspaceCapacityPending SERVICE_UNAVAILABLE
    else if is_some last_error || is_some class || is_some code
    then answer ResidentMaterializationPending SERVICE_UNAVAILABLE
    else placement_pending
  else if capacity then answer WorkspaceCapacityExhausted SERVICE_UNAVAILABLE
  else if bool_decide (code = Some (reason_as_str IdentityExchangeFailed))
  then answer IdentityExchangeFailed BAD_GATEWAY
  else
    let kept :=
      match class with
      | Some ProvisioningErrorClass.TerminalSecurity => reason_in code security_reasons
      | Some ProvisioningErrorClass.TerminalContract => reason_in code contract_reasons
      | _ => None
      end in
    match kept with
    | Some (r, s) => answer r s
    | None => answer ResidentMaterializationFailed BAD_GATEWAY
    end.

Definition maestro_identity_observation_is_eligible (observed : ResidentProcessObservedState) : bool :=
  match observed with
  | ResidentProcessObservedState.Starting | ResidentProcessObservedState.Running => true
  | _ => false
  end.

(** ** Digests, labels and numbers *)

(** What follows the last occurrence of [p]: [rsplit_once(p)?.1]. *)
Fixpoint rsplit_after (p t : Text) : option Text :=
  match t with
  | [] => Text.strip_prefix p []
  | _ :: rest => match rsplit_after p rest with Some r => Some r | None => Text.strip_prefix p t end
  end.

Definition image_digest (image : string) : option Text := rsplit_after (txt "@sha256:") (chars image).

Definition is_ascii_hexdigit (b : N) : bool :=
  (is_ascii_digit b || (65 <=? b) && (b <=? 70) || (97 <=? b) && (b <=? 102))%N.

Definition is_hex64 (hex : N -> bool) (digest : Text) : bool :=
  Nat.eqb (length (into_bytes digest)) 64 && forallb hex (into_bytes digest).

Definition digest_pinned_image (image : string) : option string :=
  digest ← image_digest image;
  if is_hex64 is_digest_byte digest then Some ("sha256:" ++ string_of_chars digest)%string else None.

Definition parse_u64 (value : Z) (field : string) : result Z ApiError :=
  if (0 <=? value)%Z then Ok value else Err (internal ("database contains invalid " ++ field)%string).

Definition label (labels : gmap string string) (name : string) : result string ApiError :=
  match labels !! name with
  | Some value =>
      if trim_is_empty value then Err (internal ("worker is missing required " ++ name ++ " label")%string)
      else Ok value
  | None => Err (internal ("worker is missing required " ++ name ++ " label")%string)
  end.

(** [value.parse::<u64>().ok()]. *)
Definition parse_u64_text (value : string) : option Z :=
  Z.of_N <$> parse_unsigned (Z.to_N u64_max) (chars value).

(** [i64::try_from(generation)] of a request. *)
Definition generation_i64 (generation : Z) : result Z ApiError :=
  match try_i64 generation with Some g => Ok g | None => Err (bad_request "generation is too large") end.

(** [timestamp()]: whole seconds. *)
Definition timestamp (t : Z) : Z := (t / seconds 1)%Z.

Section Attestations.
Context `{UuidLib} `{SerdeLib} `{CellLib} `{AttestationLib}.

(** ** The placement fence *)

Definition is_placed_name (name : string) : bool :=
  String.eqb name ORB_SIDECAR_RESIDENT_PROCESS_NAME
  || String.eqb name MAESTRO_HOSTED_RUNNER_RESIDENT_PROCESS_NAME.

(** The joined row: process, its active lease, the lease's job and worker, and
    the sandbox's placement. *)
Definition placement_row (db : Db World) (tenant : string) (process_id : Uuid) (g : Z) (lease_id : Uuid) :
    option (ResidentRow * LeaseRow * Job * PlacementRow * Worker) :=
  rp ← resident_processes db !! process_id;
  if String.eqb (rp_tenant_id rp) tenant && (rp_generation rp =? g)%Z
     && bool_decide (rp_active_lease_id rp = Some lease_id) && is_placed_name (rp_name rp)
  then
    jl ← job_leases db !! lease_id;
    j ← jobs db !! lr_job_id jl;
    sp ← sandbox_placements db !! rp_sandbox_id rp;
    w ← workers db !! lr_worker_id jl;
    Some (rp, jl, row_job j, sp, row_worker w)
  else None.

Definition runtime_image_label (name : string) : string :=
  if String.eqb name MAESTRO_HOSTED_RUNNER_RESIDENT_PROCESS_NAME
  then MAESTRO_HOSTED_RUNNER_IMAGE_LABEL else PROVIDER_ISOLATED_RESIDENT_PROCESS_IMAGE_LABEL.

(** The lease's job runs this generation of the process. *)
Definition job_runs (j : Job) (process_id : Uuid) (generation : Z) : bool :=
  bool_decide (job_kind j = JobKind.RunResidentProcess)
  && bool_decide (get_str (job_payload j) "residentProcessId" = Some (uuid_to_string process_id))
  && bool_decide (get_u64 (job_payload j) "generation" = Some generation).

Definition placement_fence_on (now : Z) (db : Db World) (tenant : string) (process_id : Uuid) (generation : Z)
    (lease_id : Uuid) : result PlacementFence ApiError :=
  let? g := generation_i64 generation in
  match placement_row db tenant process_id g lease_id with
  | None => Err (not_live "resident placement fence is no longer active")
  | Some (rp, jl, j, sp, w) =>
      if negb (is_active jl) || negb (bool_decide (lr_worker_id jl = placement_worker_id sp))
         || (lr_expires_at jl <=? now)%Z
      then Err (not_live "resident placement lease is no longer active")
      else if negb (job_runs j process_id generation)
      then Err (not_live "resident placement lease does not match the current process generation")
      else
        let? mode := label (labels w) "provider_mode" in
        guard! String.eqb mode "apply" else not_live "resident placement is not provider-applied" in
        let? image := label (labels w) (runtime_image_label (rp_name rp)) in
        guard! contains_sha256 image else not_live "resident sidecar image is not digest-pinned" in
        let? version := parse_u64 (rp_provider_isolation_version rp) "provider isolation version" in
        let version := (version mod 2 ^ 32)%Z in
        guard! (version =? PROVIDER_ISOLATED_RESIDENT_PROCESS_VERSION)%Z
          else not_live "resident placement does not use provider isolation v2" in
        let? attempt := parse_u64 (lr_attempt jl) "lease attempt" in
        let? placed := parse_u64 (placement_generation sp) "placement generation" in
        Ok (mkPlacementFence attempt (lr_job_id jl) (lr_worker_id jl) placed mode image version
              (lr_expires_at jl) (rp_provider_pod_name rp) (rp_provider_pod_uid rp))
  end.

(** ** Tokens and records *)

Definition z_text (n : Z) : string := pretty (Z.to_N n).

Definition token_canonical (r : AttestationRecord) : string :=
  let f := rec_fence r in
  nul_joined [z_text ATTESTATION_VERSION; uuid_to_string (rec_id r); rec_tenant_id r;
              uuid_to_string (rec_sandbox_id r); uuid_to_string (rec_process_id r);
              z_text (rec_generation r); uuid_to_string (rec_lease_id r); z_text (pf_lease_attempt f);
              uuid_to_string (pf_job_id f); uuid_to_string (pf_worker_id f);
              z_text (pf_placement_generation f); pf_provider_mode f; pf_runtime_image f;
              z_text (pf_isolation_version f); to_rfc3339 (rec_issued_at r)].

Definition TOKEN_PREFIX : string := "swpa2_".

Definition token_for (key : string) (r : AttestationRecord) : string :=
  TOKEN_PREFIX ++ hmac_base64 key
    ("sandboxwich-resident-placement-attestation-v2" ++ NUL ++ token_canonical r)%string.

Definition token_digest (token : string) : string := sha256_hex token.

Definition record_from_row (id : Uuid) (a : AttestationRow) : result AttestationRecord ApiError :=
  let? generation := parse_u64 (at_generation a) "resident process generation" in
  let? attempt := parse_u64 (at_lease_attempt a) "lease attempt" in
  let? placed := parse_u64 (at_placement_generation a) "placement generation" in
  match try_u32 (at_isolation_version a) with
  | None => Err (internal "invalid provider isolation version")
  | Some version =>
      Ok (mkAttestationRecord id (at_tenant_id a) (at_sandbox_id a) (at_process_id a) generation
            (at_lease_id a)
            (mkPlacementFence attempt (at_job_id a) (at_worker_id a) placed (at_provider_mode a)
               (at_runtime_image a) version (at_lease_expires_at a) (at_provider_pod_name a)
               (at_provider_pod_uid a))
            (at_issued_at a) (at_expires_at a) (at_token_sha256 a) (at_consumed_at a)
            (at_redeem_idempotency_key a))
  end.

Definition row_of_record (now : Z) (digest : string) (r : AttestationRecord) : AttestationRow :=
  let f := rec_fence r in
  mkAttestationRow (rec_tenant_id r) (rec_sandbox_id r) (rec_process_id r) (rec_generation r)
    (rec_lease_id r) (pf_lease_attempt f) (pf_job_id f) (pf_worker_id f) (pf_placement_generation f)
    (pf_provider_pod_name f) (pf_provider_pod_uid f) (pf_provider_mode f) (pf_runtime_image f)
    (pf_isolation_version f) digest (rec_issued_at r) (rec_expires_at r) (pf_lease_expires_at f)
    None None now.

Definition attestation_rows (db : Db World) : list (Uuid * AttestationRow) :=
  map_to_list (resident_placement_attestations (world db)).

(** The row under the unique key (process, generation, lease). *)
Definition is_exact_row (process_id : Uuid) (g : Z) (lease_id : Uuid) (ka : Uuid * AttestationRow) : bool :=
  bool_decide (at_process_id ka.2 = process_id) && (at_generation ka.2 =? g)%Z
  && bool_decide (at_lease_id ka.2 = lease_id).

Definition exact_row (db : Db World) (process_id : Uuid) (g : Z) (lease_id : Uuid) :
    option (Uuid * AttestationRow) :=
  find (is_exact_row process_id g lease_id) (attestation_rows db).

Definition find_exact_record (db : Db World) (process_id : Uuid) (generation : Z) (lease_id : Uuid) :
    result AttestationRecord ApiError :=
  let? g := generation_i64 generation in
  match exact_row db process_id g lease_id with
  | Some (id, a) => record_from_row id a
  | None => Err row_not_found
  end.

(** The rows an attestation references. *)
Definition attestation_refers (db : Db World) (a : AttestationRow) : bool :=
  is_some (sandboxes (world db) !! at_sandbox_id a) && is_some (resident_processes db !! at_process_id a)
  && is_some (job_leases db !! at_lease_id a) && is_some (jobs db !! at_job_id a)
  && is_some (workers db !! at_worker_id a).

(** [insert .. on conflict (process, generation, lease) do nothing]. *)
Definition insert_attestation (id : Uuid) (a : AttestationRow) : Tx World unit :=
  let! db := tx_get in
  if is_some (exact_row db (at_process_id a) (at_generation a) (at_lease_id a)) then tx_ret tt
  else
    check! is_none (resident_placement_attestations (world db) !! id)
           && negb (existsb (fun ka => String.eqb (at_token_sha256 ka.2) (at_token_sha256 a))
                      (attestation_rows db))
      else api_error_of_db_error UniqueViolation in
    check! attestation_refers db a else foreign_key_error in
    modify_world (fun w => set_resident_placement_attestations
                             (<[id := a]> (resident_placement_attestations w)) w).

Definition candidate_record (rt : Runtime) (tenant : string) (sandbox_id process_id : Uuid) (generation : Z)
    (lease_id : Uuid) (f : PlacementFence) (expires : Z) : AttestationRecord :=
  mkAttestationRecord (new_uuid rt 0) tenant sandbox_id process_id generation lease_id f (utc_now rt)
    expires "" None None.

(** The answer for the row that is there: this request's, or an earlier one's. *)
Definition issued_token (key : string) (process_id : Uuid) (generation : Z) (lease_id : Uuid) (db : Db World) :
    result (option string) ApiError :=
  let? r := find_exact_record db process_id generation lease_id in
  let token := token_for key r in
  if String.eqb (token_digest token) (rec_token_sha256 r) then Ok (Some token)
  else Err (internal "placement attestation derivation key does not match the persisted record").

Definition issue_resident_placement_attestation (rt : Runtime) (key : option string) (tenant : string)
    (sandbox_id process_id : Uuid) (generation : Z) (lease_id : Uuid) (db : Db World) :
    result (option string) ApiError * Db World :=
  match key with
  | None => (Ok None, db)
  | Some key =>
      match placement_fence_on (utc_now rt) db tenant process_id generation lease_id with
      | Err e => (Err e, db)
      | Ok fence =>
          let expires := Z.min (utc_now rt + seconds ATTESTATION_TTL_SECONDS) (pf_lease_expires_at fence) in
          if (expires <=? utc_now rt)%Z
          then (Err (not_live "resident placement lease expires too soon"), db)
          else
            let r := candidate_record rt tenant sandbox_id process_id generation lease_id fence expires in
            let row := row_of_record (utc_now rt) (token_digest (token_for key r)) r in
            match run_tx (insert_attestation (rec_id r) row) db with
            | (Err e, db') => (Err e, db')
            | (Ok _, db') => (issued_token key process_id generation lease_id db', db')
            end
      end
  end.

(** ** The provider's pod *)

Definition bounded_pod_text (s : string) : bool :=
  negb (String.eqb s "") && (Z.of_nat (String.length s) <=? 253)%Z && negb (existsb is_whitespace (chars s)).

(** A pod identity is set once: [coalesce], where it is null or the same. *)
Definition same_or_null (old : option string) (new : string) : bool :=
  match old with Some o => String.eqb o new | None => true end.

Definition resident_set_pod (pod_name pod_uid : string) (now : Z) (r : ResidentRow) : ResidentRow :=
  mkResidentRow (rp_sandbox_id r) (rp_tenant_id r) (rp_name r) (rp_generation r) (rp_desired_state r)
    (rp_observed_state r) (rp_active_lease_id r) (rp_pid r) (rp_exited_at r) (rp_exit_code r)
    (rp_last_error_class r) (rp_last_error_code r) (rp_last_error r)
    (Some (default pod_name (rp_provider_pod_name r))) (Some (default pod_uid (rp_provider_pod_uid r)))
    now (rp_bootstrap_sha256 r) (rp_bootstrap_delivered_generation r)
    (rp_bootstrap_delivered_lease_id r) (rp_bootstrap_delivered_sha256 r)
    (rp_bootstrap_acknowledged_at r) (rp_sterile_cell_id r) (rp_sterile_lease_id r)
    (rp_sterile_lease_generation r) (rp_provider_isolation_version r) (rp_spec r)
    (rp_bootstrap_consumed_at r) (rp_started_at r) (rp_ready_at r) (rp_created_at r).

Definition pod_fits (pod_name pod_uid : string) (name uid : option string) : bool :=
  same_or_null name pod_name && same_or_null uid pod_uid.

Definition attestation_set_pod (pod_name pod_uid : string) (now : Z) (a : AttestationRow) : AttestationRow :=
  mkAttestationRow (at_tenant_id a) (at_sandbox_id a) (at_process_id a) (at_generation a) (at_lease_id a)
    (at_lease_attempt a) (at_job_id a) (at_worker_id a) (at_placement_generation a)
    (Some (default pod_name (at_provider_pod_name a))) (Some (default pod_uid (at_provider_pod_uid a)))
    (at_provider_mode a) (at_runtime_image a) (at_isolation_version a) (at_token_sha256 a)
    (at_issued_at a) (at_expires_at a) (at_lease_expires_at a) (at_consumed_at a)
    (at_redeem_idempotency_key a) now.

Definition update_resident (id : Uuid) (guard : ResidentRow -> bool) (f : ResidentRow -> ResidentRow) :
    Tx World bool :=
  let! db := tx_get in
  let '(updated, rows) := update_row id guard f (resident_processes db) in
  let! _ := tx_modify (set_resident_processes rows) in
  tx_ret updated.

(** The attestation of the fence, when it is this pod's or nobody's. *)
Definition attestation_takes_pod (tenant : string) (process_id : Uuid) (g : Z) (lease_id : Uuid)
    (pod_name pod_uid : string) (id : Uuid) (a : AttestationRow) : bool :=
  String.eqb (at_tenant_id a) tenant && is_exact_row process_id g lease_id (id, a)
  && pod_fits pod_name pod_uid (at_provider_pod_name a) (at_provider_pod_uid a).

Definition record_process_pod (now : Z) (tenant : string) (process_id : Uuid) (g : Z) (lease_id : Uuid)
    (pod_name pod_uid : string) : Tx World unit :=
  let! matched := update_resident process_id
    (fun r => String.eqb (rp_tenant_id r) tenant && (rp_generation r =? g)%Z
              && bool_decide (rp_active_lease_id r = Some lease_id)
              && pod_fits pod_name pod_uid (rp_provider_pod_name r) (rp_provider_pod_uid r))
    (resident_set_pod pod_name pod_uid now) in
  check! matched else not_live "provider Pod identity does not match the active placement fence" in
  tx_ret tt.

(** How many rows the statement changed. *)
Definition record_attestation_pod (now : Z) (tenant : string) (process_id : Uuid) (g : Z) (lease_id : Uuid)
    (pod_name pod_uid : string) : Tx World nat :=
  let! db := tx_get in
  let takes := attestation_takes_pod tenant process_id g lease_id pod_name pod_uid in
  let! _ := modify_world (fun w => set_resident_placement_attestations
    (update_rows takes (attestation_set_pod pod_name pod_uid now) (resident_placement_attestations w)) w) in
  tx_ret (length (List.filter (fun ka => takes ka.1 ka.2) (attestation_rows db))).

(** Two statements, each committed on its own. *)
Definition record_provider_pod_identity (rt : Runtime) (tenant : string) (process_id : Uuid) (generation : Z)
    (lease_id : Uuid) (pod_name pod_uid : string) (db : Db World) : result unit ApiError * Db World :=
  if negb (bounded_pod_text pod_name && bounded_pod_text pod_uid)
  then (Err (bad_request "provider Pod name and UID must be non-empty bounded identifiers"), db)
  else
    match generation_i64 generation with
    | Err e => (Err e, db)
    | Ok g =>
        match run_tx (record_process_pod (utc_now rt) tenant process_id g lease_id pod_name pod_uid) db with
        | (Err e, db) => (Err e, db)
        | (Ok _, db) =>
            match run_tx (record_attestation_pod (utc_now rt) tenant process_id g lease_id pod_name pod_uid) db with
            | (Err e, db) => (Err e, db)
            | (Ok changed, db) =>
                (if Nat.leb changed 1 then Ok tt
                 else Err (not_live "provider Pod identity does not match the issued placement fence"), db)
            end
        end
    end.

(** ** Redeeming and validating *)

Definition fetch_record_for_token (db : Db World) (tenant token : string) : result AttestationRecord ApiError :=
  match find (fun ka => String.eqb (at_tenant_id ka.2) tenant
                        && String.eqb (at_token_sha256 ka.2) (token_digest token)) (attestation_rows db) with
  | Some (id, a) => record_from_row id a
  | None => Err unavailable
  end.

Definition fetch_record_by_id (db : Db World) (tenant : string) (id : Uuid) : result AttestationRecord ApiError :=
  match resident_placement_attestations (world db) !! id with
  | Some a => if String.eqb (at_tenant_id a) tenant then record_from_row id a else Err unavailable
  | None => Err unavailable
  end.

(** The fence fields a record keeps; the attempt and the deadline are read
    afresh. *)
Definition same_fence (live recorded : PlacementFence) : bool :=
  bool_decide (pf_job_id live = pf_job_id recorded) && bool_decide (pf_worker_id live = pf_worker_id recorded)
  && (pf_placement_generation live =? pf_placement_generation recorded)%Z
  && String.eqb (pf_provider_mode live) (pf_provider_mode recorded)
  && String.eqb (pf_runtime_image live) (pf_runtime_image recorded)
  && (pf_isolation_version live =? pf_isolation_version recorded)%Z.

Definition non_empty (o : option string) : option string :=
  s ← o; if String.eqb s "" then None else Some s.

Definition live_claims (now : Z) (db : Db World) (r : AttestationRecord) :
    result ResidentPlacementClaims ApiError :=
  let? live := placement_fence_on now db (rec_tenant_id r) (rec_process_id r) (rec_generation r)
                 (rec_lease_id r) in
  guard! same_fence live (rec_fence r) else not_live "resident placement fence has changed" in
  match resident_processes db !! rec_process_id r with
  | Some rp =>
      guard! String.eqb (rp_tenant_id rp) (rec_tenant_id r)
             && match resident_placement_attestations (world db) !! rec_id r with
                | Some a => bool_decide (at_process_id a = rec_process_id r)
                | None => false
                end
        else unavailable in
      guard! bool_decide (rp_provider_pod_uid rp = pf_provider_pod_uid (rec_fence r))
        else not_live "resident provider Pod identity has changed" in
      match non_empty (rp_provider_pod_uid rp) with
      | None => Err (not_live "resident placement has no authoritative provider Pod UID")
      | Some pod_uid =>
          guard! bool_decide (rp_desired_state rp = ResidentProcessDesiredState.Running)
                 && bool_decide (rp_observed_state rp = ResidentProcessObservedState.Running)
            else not_live "resident sidecar is not running" in
          Ok (mkPlacementClaims ATTESTATION_VERSION (rec_id r) (rec_tenant_id r) (rec_sandbox_id r)
                (rec_process_id r) (rec_generation r) (rec_lease_id r) (pf_lease_attempt live)
                (pf_job_id live) (pf_worker_id live) (pf_placement_generation live) pod_uid
                (pf_provider_mode live) (pf_runtime_image live) (pf_isolation_version live)
                (rec_issued_at r) (rec_expires_at r) (pf_lease_expires_at live))
      end
  | None => Err unavailable
  end.

(** The consume statement's own check of the live rows. *)
Definition fence_is_live (now : Z) (db : Db World) (a : AttestationRow) : bool :=
  match resident_processes db !! at_process_id a with
  | Some rp =>
      String.eqb (rp_tenant_id rp) (at_tenant_id a) && (rp_generation rp =? at_generation a)%Z
      && bool_decide (rp_active_lease_id rp = Some (at_lease_id a))
      && bool_decide (rp_desired_state rp = ResidentProcessDesiredState.Running)
      && bool_decide (rp_observed_state rp = ResidentProcessObservedState.Running)
      && is_some (at_provider_pod_uid a)
      && bool_decide (rp_provider_pod_uid rp = at_provider_pod_uid a)
      && match job_leases db !! at_lease_id a with
         | Some jl => is_active jl && (now <? lr_expires_at jl)%Z
                      && bool_decide (lr_job_id jl = at_job_id a)
                      && bool_decide (lr_worker_id jl = at_worker_id a)
         | None => false
         end
      && match sandbox_placements db !! rp_sandbox_id rp with
         | Some sp => bool_decide (placement_worker_id sp = at_worker_id a)
                      && (placement_generation sp =? at_placement_generation a)%Z
         | None => false
         end
  | None => false
  end.

Definition may_redeem (now : Z) (db : Db World) (tenant : string) (a : AttestationRow) : bool :=
  String.eqb (at_tenant_id a) tenant && is_none (at_consumed_at a) && (now <? at_expires_at a)%Z
  && fence_is_live now db a.

Definition attestation_set_redeemed (now : Z) (key : Uuid) (a : AttestationRow) : AttestationRow :=
  mkAttestationRow (at_tenant_id a) (at_sandbox_id a) (at_process_id a) (at_generation a) (at_lease_id a)
    (at_lease_attempt a) (at_job_id a) (at_worker_id a) (at_placement_generation a)
    (at_provider_pod_name a) (at_provider_pod_uid a) (at_provider_mode a) (at_runtime_image a)
    (at_isolation_version a) (at_token_sha256 a) (at_issued_at a) (at_expires_at a)
    (at_lease_expires_at a) (Some now) (Some key) now.

(** Another attestation of the tenant was redeemed under the key. *)
Definition key_is_taken (db : Db World) (tenant : string) (id key : Uuid) : bool :=
  existsb (fun ka => negb (bool_decide (ka.1 = id)) && String.eqb (at_tenant_id ka.2) tenant
                     && bool_decide (at_redeem_idempotency_key ka.2 = Some key)) (attestation_rows db).

Definition consume_attestation (now : Z) (tenant : string) (id key : Uuid) : Tx World bool :=
  let! db := tx_get in
  let '(updated, rows) := update_row id (may_redeem now db tenant) (attestation_set_redeemed now key)
                            (resident_placement_attestations (world db)) in
  check! negb (updated && key_is_taken db tenant id key) else api_error_of_db_error UniqueViolation in
  let! _ := modify_world (set_resident_placement_attestations rows) in
  tx_ret updated.

Record RedeemRequest : Type := mkRedeemRequest {
  rdm_token : string;
  rdm_idempotency_key : Uuid
}.

Definition well_formed_token (token : string) : bool :=
  (Z.of_nat (String.length token) <=? 512)%Z && String.prefix TOKEN_PREFIX token.

(** What is checked before the token is consumed. *)
Definition redeem_checks (now : Z) (key : option string) (tenant : string) (q : RedeemRequest) (db : Db World) :
    result AttestationRecord ApiError :=
  guard! well_formed_token (rdm_token q) else unavailable in
  match key with
  | None => Err (internal "placement attestation validation is not configured")
  | Some key =>
      let? r := fetch_record_for_token db tenant (rdm_token q) in
      guard! (now <? rec_expires_at r)%Z && String.eqb (token_for key r) (rdm_token q) else unavailable in
      let? _ := live_claims now db r in
      Ok r
  end.

(** The consumption: replayed for the same key, refused for another one, and
    settled by the stored key when the statement changed nothing. *)
Definition settle_redemption (now : Z) (tenant : string) (q : RedeemRequest) (r : AttestationRecord)
    (db : Db World) : result unit ApiError * Db World :=
  match rec_consumed_at r with
  | Some _ =>
      (if bool_decide (rec_redeem_idempotency_key r = Some (rdm_idempotency_key q)) then Ok tt
       else Err unavailable, db)
  | None =>
      match run_tx (consume_attestation now tenant (rec_id r) (rdm_idempotency_key q)) db with
      | (Err e, db) => (Err e, db)
      | (Ok true, db) => (Ok tt, db)
      | (Ok false, db) =>
          (let? raced := fetch_record_by_id db tenant (rec_id r) in
           if bool_decide (rec_redeem_idempotency_key raced = Some (rdm_idempotency_key q)) then Ok tt
           else Err unavailable, db)
      end
  end.

Definition redeem_resident_placement_attestation (rt : Runtime) (key : option string) (ctx : TenantContext)
    (q : RedeemRequest) (db : Db World) : result ResidentPlacementClaims ApiError * Db World :=
  let now := utc_now rt in
  match redeem_checks now key (ctx_tenant_id ctx) q db with
  | Err e => (Err e, db)
  | Ok r =>
      match settle_redemption now (ctx_tenant_id ctx) q r db with
      | (Err e, db) => (Err e, db)
      | (Ok _, db) => (live_claims now db r, db)
      end
  end.

Definition validate_resident_placement_attestation (now : Z) (ctx : TenantContext) (id : Uuid) (db : Db World) :
    result ResidentPlacementClaims ApiError :=
  let? r := fetch_record_by_id db (ctx_tenant_id ctx) id in
  guard! is_some (rec_consumed_at r) else unavailable in
  live_claims now db r.

(** ** The Maestro hosted runner's binding *)

(** [maestro_hosted_runner_service_name] of [sandboxwich-core/src/lib.rs]. *)
Definition maestro_hosted_runner_service_name (process_id : Uuid) (generation : Z) (lease_id : Uuid) : string :=
  let lease := uuid_simple lease_id in
  "sw-msvc-" ++ String.substring 0 12 (uuid_simple process_id) ++ "-g" ++ z_text generation ++ "-"
    ++ String.substring (String.length lease - 12) 12 lease.

(** The process, its cell and the cell's pool membership. *)
Definition sterile_rows (db : Db World) (process_id : Uuid) :
    option (ResidentRow * Uuid * SterileCellRow * MembershipRow) :=
  rp ← resident_processes db !! process_id;
  cell_id ← rp_sterile_cell_id rp;
  c ← sterile_cells db !! cell_id;
  p ← sterile_pool_memberships (world db) !! cell_id;
  Some (rp, cell_id, c, p).

Definition activated_by (process_id : Uuid) (rp : ResidentRow) (c : SterileCellRow) : bool :=
  bool_decide (cell_activated_resident_process_id c = Some process_id)
  && bool_decide (cell_activated_resident_generation c = Some (rp_generation rp)).

Definition i64_or_max (n : Z) : Z := default i64_max (try_i64 n).

(** The service of an activated cell is the one its membership made. *)
Definition resident_service_name (db : Db World) (process_id : Uuid) (generation : Z) (lease_id : Uuid) : string :=
  let generated := maestro_hosted_runner_service_name process_id generation lease_id in
  match sterile_rows db process_id with
  | Some (rp, _, c, p) =>
      if (rp_generation rp =? i64_or_max generation)%Z && bool_decide (rp_active_lease_id rp = Some lease_id)
         && member_is MemberLeased p && activated_by process_id rp c
      then mb_candidate_service_name p else generated
  | None => generated
  end.

(** Process, cell, lease, pod and release of a sterile resident agree. *)
Definition sterile_authority_agrees (now : Z) (tenant : string) (process_id : Uuid) (g : Z) (lease_id : Uuid)
    (sterile_lease : Uuid) (sterile_generation : Z) (rp : ResidentRow) (cell_id : Uuid) (c : SterileCellRow)
    (p : MembershipRow) : bool :=
  String.eqb (rp_tenant_id rp) tenant && bool_decide (rp_sandbox_id rp = cell_id)
  && (rp_generation rp =? g)%Z && bool_decide (rp_active_lease_id rp = Some lease_id)
  && bool_decide (rp_sterile_lease_id rp = Some sterile_lease)
  && bool_decide (rp_sterile_lease_generation rp = Some sterile_generation)
  && String.eqb (cell_provider_cell_id c) (uuid_to_string cell_id)
  && bool_decide (cell_tenant_id c = Some (rp_tenant_id rp))
  && String.eqb (mb_tenant_id p) (rp_tenant_id rp)
  && cell_is SterileCellState.Leased c && member_is MemberLeased p
  && bool_decide (cell_lease_id c = Some sterile_lease) && bool_decide (mb_lease_id p = Some sterile_lease)
  && (cell_generation c =? sterile_generation)%Z && bool_decide (mb_generation p = Some (cell_generation c))
  && activated_by process_id rp c
  && is_some (rp_provider_pod_name rp) && bool_decide (rp_provider_pod_name rp = mb_candidate_pod_name p)
  && is_some (rp_provider_pod_uid rp) && bool_decide (rp_provider_pod_uid rp = mb_candidate_pod_uid p)
  && bool_decide (cell_release c = mb_release p)
  && match cell_lease_expires_at c with Some t => (now <? t)%Z | None => false end.

(** The agent image of a sterile resident, from its cell's membership; a
    resident without a cell has none, an incomplete or stale binding is not
    live. *)
Definition sterile_agent_image_digest_on (now : Z) (db : Db World) (tenant : string) (process_id : Uuid)
    (generation : Z) (lease_id : Uuid) (cell_id : option Uuid) (sterile_lease : option Uuid)
    (sterile_generation : option Z) : result (option string) ApiError :=
  match cell_id, sterile_lease, sterile_generation with
  | None, None, None => Ok None
  | Some cell, Some lease, Some cell_generation =>
      let? g := match try_i64 generation with
                | Some g => Ok g
                | None => Err (internal "resident generation exceeds database range")
                end in
      match sterile_rows db process_id with
      | Some (rp, id, c, p) =>
          if bool_decide (id = cell)
             && sterile_authority_agrees now tenant process_id g lease_id lease cell_generation rp id c p
          then match digest_pinned_image (mb_candidate_agent_image p) with
               | Some digest => Ok (Some digest)
               | None => Err (not_live "Maestro sterile agent image is not digest-pinned")
               end
          else Err (not_live "Maestro sterile cell image binding is stale")
      | None => Err (not_live "Maestro sterile cell image binding is stale")
      end
  | _, _, _ => Err (not_live "Maestro sterile resident binding is incomplete")
  end.

Record MaestroBinding : Type := mkMaestroBinding {
  mbd_organization_id : string;
  mbd_workspace_id : string;
  mbd_sandbox_id : Uuid;
  mbd_pod_uid : Uuid;
  mbd_placement_generation : Z;
  mbd_runner_session_id : string;
  mbd_runtime_image : string;
  mbd_agent_image_digest : option string;
  mbd_service_namespace : string;
  mbd_service_name : string;
  mbd_service_host : string;
  mbd_service_port : Z;
  mbd_expected_server_uri_san : string;
  mbd_resident_process_generation : Z;
  mbd_lease_id : Uuid;
  mbd_lease_attempt : Z;
  mbd_lease_expires_at_epoch_seconds : Z;
  mbd_worker_id : Uuid
}.

Definition maestro_expected_server_uri_san (organization workspace : string) (sandbox_id pod_uid : Uuid)
    (placed : Z) (session image service : string) (generation : Z) (lease_id : Uuid) (f : PlacementFence) :
    result string ApiError :=
  match image_digest image with
  | Some digest =>
      if is_hex64 is_ascii_hexdigit digest then
        Ok (spiffe_uri ["maestro"; "v1"; "organizations"; organization; "workspaces"; workspace;
              "sandboxes"; uuid_to_string sandbox_id; "pods"; uuid_to_string pod_uid;
              "generations"; z_text placed; "sessions"; session; "images"; string_of_chars digest;
              "services"; service; "ports"; z_text MAESTRO_HOSTED_RUNNER_CONTAINER_PORT;
              "resident-process-generations"; z_text generation; "leases"; uuid_to_string lease_id;
              "attempts"; z_text (pf_lease_attempt f); "workers"; uuid_to_string (pf_worker_id f)])
      else Err (not_live "Maestro runtime image digest is invalid")
  | None => Err (not_live "Maestro runtime image digest is invalid")
  end.

Definition is_maestro_of (sandbox_id : Uuid) (tenant : string) (kr : Uuid * ResidentRow) : bool :=
  bool_decide (rp_sandbox_id kr.2 = sandbox_id) && String.eqb (rp_tenant_id kr.2) tenant
  && String.eqb (rp_name kr.2) MAESTRO_HOSTED_RUNNER_RESIDENT_PROCESS_NAME.

(** The process with the worker its sandbox is placed on. *)
Definition maestro_row (db : Db World) (tenant : string) (sandbox_id : Uuid) :
    option (Uuid * ResidentRow * Worker) :=
  '(id, rp) ← find (is_maestro_of sandbox_id tenant) (map_to_list (resident_processes db));
  sp ← sandbox_placements db !! sandbox_id;
  w ← workers db !! placement_worker_id sp;
  Some (id, rp, row_worker w).

(** A binding is published while the runner starts, unless it has reported an
    error. *)
Definition maestro_observation_ok (rp : ResidentRow) : result unit ApiError :=
  let observed := rp_observed_state rp in
  let eligible := maestro_identity_observation_is_eligible observed in
  if (negb eligible || bool_decide (observed = ResidentProcessObservedState.Starting))
     && (negb eligible || is_some (rp_last_error_class rp) || is_some (rp_last_error_code rp)
         || is_some (rp_last_error rp))
  then Err (resident_not_ready_error observed (rp_last_error_class rp) (rp_last_error_code rp) (rp_last_error rp))
  else Ok tt.

(** A non-blank environment entry. *)
Definition env_binding (env : Env) (key what : string) : result string ApiError :=
  match env_get env key with
  | Some v => if trim_is_empty v then Err (not_live ("Maestro " ++ what ++ " binding is invalid")%string) else Ok v
  | None => Err (not_live ("Maestro " ++ what ++ " binding is invalid")%string)
  end.

Definition pod_uuid (uid : option string) : option Uuid := uid ≫= uuid_parse_str.

Definition authoritative_maestro_connection_binding (now : Z) (db : Db World) (tenant : string)
    (sandbox_id : Uuid) : result MaestroBinding ApiError :=
  match maestro_row db tenant sandbox_id with
  | None => Err (not_found "Maestro hosted runner not found")
  | Some (process_id, rp, w) =>
      guard! bool_decide (rp_desired_state rp = ResidentProcessDesiredState.Running)
        else not_live "Maestro hosted runner is not running" in
      let? _ := maestro_observation_ok rp in
      let? generation := parse_u64 (rp_generation rp) "resident generation" in
      match rp_active_lease_id rp, pod_uuid (rp_provider_pod_uid rp) with
      | None, _ => Err (not_live "Maestro hosted runner has no active lease")
      | _, None => Err (not_live "Maestro placement has no authoritative Pod UID")
      | Some lease_id, Some pod_uid =>
          let env := rsp_env (rp_spec rp) in
          let? organization := env_binding env "MAESTRO_ORGANIZATION_ID" "organization" in
          let? workspace := env_binding env "MAESTRO_WORKSPACE_ID" "workspace" in
          let? session := env_binding env "MAESTRO_RUNNER_SESSION_ID" "runner session" in
          guard! bool_decide ((env_get env "MAESTRO_SANDBOX_ID" ≫= uuid_parse_str) = Some sandbox_id)
            else not_live "Maestro sandbox binding is invalid" in
          let? fence := placement_fence_on now db tenant process_id generation lease_id in
          guard! bool_decide ((env_get env "MAESTRO_PLACEMENT_GENERATION" ≫= parse_u64_text)
                              = Some (pf_placement_generation fence))
            else not_live "Maestro placement generation binding is stale" in
          guard! bool_decide (pod_uuid (pf_provider_pod_uid fence) = Some pod_uid)
            else not_live "Maestro provider Pod binding is stale" in
          let? agent := sterile_agent_image_digest_on now db tenant process_id generation lease_id
                          (rp_sterile_cell_id rp) (rp_sterile_lease_id rp) (rp_sterile_lease_generation rp) in
          let? namespace := label (labels w) "sandbox_namespace" in
          let service := resident_service_name db process_id generation lease_id in
          let? uri := maestro_expected_server_uri_san organization workspace sandbox_id pod_uid
                        (pf_placement_generation fence) session (pf_runtime_image fence) service
                        generation lease_id fence in
          Ok (mkMaestroBinding organization workspace sandbox_id pod_uid (pf_placement_generation fence)
                session (pf_runtime_image fence) agent namespace service
                (service ++ "." ++ namespace ++ ".svc.cluster.local")%string
                MAESTRO_HOSTED_RUNNER_CONTAINER_PORT uri generation lease_id (pf_lease_attempt fence)
                (timestamp (pf_lease_expires_at fence)) (pf_worker_id fence))
      end
  end.

Definition get_maestro_connection_binding (now : Z) (ctx : TenantContext) (sandbox_id : Uuid) (db : Db World) :
    result MaestroBinding ApiError :=
  authoritative_maestro_connection_binding now db (ctx_tenant_id ctx) sandbox_id.

(** ** The workload identity *)

Record ValidateMaestroWorkloadIdentityRequest : Type := mkWorkloadRequest {
  wi_organization_id : string;
  wi_workspace_id : string;
  wi_sandbox_id : Uuid;
  wi_pod_uid : Uuid;
  wi_generation : Z;
  wi_runner_session_id : string
}.

Record MaestroWorkloadIdentityResponse : Type := mkWorkloadIdentity {
  mi_organization_id : string;
  mi_workspace_id : string;
  mi_sandbox_id : Uuid;
  mi_pod_name : string;
  mi_pod_uid : Uuid;
  mi_generation : Z;
  mi_runner_session_id : string;
  mi_runtime_image : string;
  mi_service_account_namespace : string;
  mi_service_account_name : string;
  mi_service_name : string;
  mi_service_port : Z;
  mi_resident_process_generation : Z;
  mi_lease_id : Uuid;
  mi_lease_attempt : Z;
  mi_lease_expires_at_epoch_seconds : Z;
  mi_worker_id : Uuid
}.

Definition validate_maestro_canonical_binding (q : ValidateMaestroWorkloadIdentityRequest) (env : Env)
    (provider_pod_uid : Uuid) : result unit ApiError :=
  guard! bool_decide ((env_get env "MAESTRO_PLACEMENT_GENERATION" ≫= parse_u64_text) = Some (wi_generation q))
    else maestro_workload_stale_generation in
  guard! bool_decide (env_get env "MAESTRO_ORGANIZATION_ID" = Some (wi_organization_id q))
         && bool_decide (env_get env "MAESTRO_WORKSPACE_ID" = Some (wi_workspace_id q))
         && bool_decide ((env_get env "MAESTRO_SANDBOX_ID" ≫= uuid_parse_str) = Some (wi_sandbox_id q))
         && bool_decide (env_get env "MAESTRO_RUNNER_SESSION_ID" = Some (wi_runner_session_id q))
         && bool_decide (provider_pod_uid = wi_pod_uid q)
    else not_live "Maestro workload request does not match its canonical binding" in
  Ok tt.

(** The process with its lease's worker; no tenant is given. *)
Definition workload_row (db : Db World) (sandbox_id : Uuid) : option (Uuid * ResidentRow * Uuid * Worker) :=
  '(id, rp) ← find (fun kr => bool_decide (rp_sandbox_id kr.2 = sandbox_id)
                              && String.eqb (rp_name kr.2) MAESTRO_HOSTED_RUNNER_RESIDENT_PROCESS_NAME)
                (map_to_list (resident_processes db));
  lease_id ← rp_active_lease_id rp;
  jl ← job_leases db !! lease_id;
  w ← workers db !! lr_worker_id jl;
  Some (id, rp, lease_id, row_worker w).

Definition workload_request_blank (q : ValidateMaestroWorkloadIdentityRequest) : bool :=
  trim_is_empty (wi_organization_id q) || trim_is_empty (wi_workspace_id q)
  || trim_is_empty (wi_runner_session_id q) || (wi_generation q =? 0)%Z.

Definition validate_maestro_workload_identity_inner (now : Z) (q : ValidateMaestroWorkloadIdentityRequest)
    (db : Db World) : result MaestroWorkloadIdentityResponse ApiError :=
  guard! negb (workload_request_blank q) else unavailable in
  match workload_row db (wi_sandbox_id q) with
  | None => Err unavailable
  | Some (process_id, rp, lease_id, w) =>
      guard! bool_decide (rp_desired_state rp = ResidentProcessDesiredState.Running)
             && maestro_identity_observation_is_eligible (rp_observed_state rp)
        else not_live "Maestro hosted runner is not running" in
      let? generation := parse_u64 (rp_generation rp) "resident generation" in
      match non_empty (rp_provider_pod_name rp), pod_uuid (rp_provider_pod_uid rp) with
      | None, _ => Err (not_live "Maestro placement has no observed Pod name")
      | _, None => Err (not_live "Maestro placement has no authoritative Pod UID")
      | Some pod_name, Some pod_uid =>
          let? _ := validate_maestro_canonical_binding q (rsp_env (rp_spec rp)) pod_uid in
          let? fence := placement_fence_on now db (rp_tenant_id rp) process_id generation lease_id in
          guard! (pf_placement_generation fence =? wi_generation q)%Z else maestro_workload_stale_generation in
          guard! bool_decide (pod_uuid (pf_provider_pod_uid fence) = Some (wi_pod_uid q))
                 && bool_decide (pf_provider_pod_name fence = Some pod_name)
            else not_live "Maestro placement fence changed" in
          let? namespace := label (labels w) "sandbox_namespace" in
          let service := resident_service_name db process_id generation lease_id in
          Ok (mkWorkloadIdentity (wi_organization_id q) (wi_workspace_id q) (wi_sandbox_id q) pod_name
                pod_uid (wi_generation q) (wi_runner_session_id q) (pf_runtime_image fence) namespace
                MAESTRO_HOSTED_RUNNER_SERVICE_ACCOUNT service MAESTRO_HOSTED_RUNNER_CONTAINER_PORT
                generation lease_id (pf_lease_attempt fence) (timestamp (pf_lease_expires_at fence))
                (pf_worker_id fence))
      end
  end.
End Attestations.
