(* ===== verification/AttestationProofs.v ===== *)
(** * Placement attestations: every interleaving

    The statements that write [resident_placement_attestations] as the steps
    of a machine.  Its state records, beside the tables, the identifiers ever
    issued and the key each attestation was redeemed under: a row disappears
    with its process or its lease, and what it was redeemed for must not be
    forgotten.  A redemption is three moments (its checks, the settling of the
    consumption, the answer), with steps of other requests between them. *)

From S2P Require Import Prelude Text BootstrapStore CoreTypes LifecycleContract Json Store Leases SandboxLifecycle World.
From S2P Require Import Authz Scopes Claim SterilePool PoolController SterileCells ResidentContract ResidentAttestations.

Record AState : Type := mkAState {
  as_db : Db World;
  as_issued : gset Uuid;
  as_redeemed : gmap Uuid Uuid
}.

Abbreviation attestations db := (resident_placement_attestations (world db)).

(** A transaction that is not one of the handlers': rows may disappear, none
    appears, and no redemption changes. *)
Definition attestations_kept (db db' : Db World) : Prop :=
  forall id a', attestations db' !! id = Some a' ->
    exists a, attestations db !! id = Some a /\
      at_consumed_at a' = at_consumed_at a /\ at_redeem_idempotency_key a' = at_redeem_idempotency_key a.

Section AttestationMachine.
Context `{UuidLib} `{SerdeLib} `{CellLib} `{AttestationLib}.

(** What the consume statement records. *)
Definition note_redemption (id key : Uuid) (outcome : result bool ApiError) (m : gmap Uuid Uuid) : gmap Uuid Uuid :=
  match outcome with Ok true => <[id := key]> m | _ => m end.

Inductive attestation_step : AState -> AState -> Prop :=
| as_issue s rt key tenant sandbox_id process_id generation lease_id :
    new_uuid rt 0 ∉ as_issued s ->
    attestation_step s
      (mkAState (issue_resident_placement_attestation rt key tenant sandbox_id process_id generation lease_id
                   (as_db s)).2 ({[new_uuid rt 0]} ∪ as_issued s) (as_redeemed s))
| as_consume s now tenant id key :
    let out := run_tx (consume_attestation now tenant id key) (as_db s) in
    attestation_step s (mkAState out.2 (as_issued s) (note_redemption id key out.1 (as_redeemed s)))
| as_pod s now tenant process_id g lease_id pod_name pod_uid :
    attestation_step s
      (mkAState (run_tx (record_attestation_pod now tenant process_id g lease_id pod_name pod_uid) (as_db s)).2
         (as_issued s) (as_redeemed s))
| as_other s db' : attestations_kept (as_db s) db' ->
    attestation_step s (mkAState db' (as_issued s) (as_redeemed s)).

Definition attestation_reachable (s : AState) : Prop :=
  exists db0, attestations db0 = ∅ /\ rtc attestation_step (mkAState db0 ∅ ∅) s.

(** What the record says of a row: unredeemed, or redeemed under its key. *)
Definition row_recorded (redeemed : gmap Uuid Uuid) (id : Uuid) (a : AttestationRow) : Prop :=
  (at_consumed_at a = None -> redeemed !! id = None) /\ redeemed !! id = at_redeem_idempotency_key a /\
  (at_redeem_idempotency_key a = None -> at_consumed_at a = None).

Record attestation_inv (s : AState) : Prop := {
  ai_issued : dom (attestations (as_db s)) ⊆ as_issued s;
  ai_redeemed : dom (as_redeemed s) ⊆ as_issued s;
  ai_rows : map_Forall (row_recorded (as_redeemed s)) (attestations (as_db s))
}.

(** *** The statements *)

Lemma kept_inv s db' : attestations_kept (as_db s) db' -> attestation_inv s ->
  attestation_inv (mkAState db' (as_issued s) (as_redeemed s)).
Proof.
  intros Hk [Hi Hr Hw]. split; simpl; [|done|].
  - intros id [a' Ha]%elem_of_dom. destruct (Hk _ _ Ha) as (a & Ha0 & _). apply Hi, elem_of_dom. by exists a.
  - intros id a' Ha. destruct (Hk _ _ Ha) as (a & Ha0 & Hc & Hkey). apply Hw in Ha0. unfold row_recorded in *.
    by rewrite Hc, Hkey.
Qed.

Lemma pod_kept now tenant p g l n u : tx_rel attestations_kept (record_attestation_pod now tenant p g l n u).
Proof.
  intros db c db' Hc. unfold record_attestation_pod in Hc. tx_step Hc. tx_step Hm. world_step Hc. tx_step Hc.
  intros id a'. simpl. rewrite lookup_update_rows. destruct (attestations db1 !! id) as [a0|]; [|done].
  intros [= <-]. exists a0. split; [done|]. by case_match.
Qed.

Lemma insert_attestation_ok id a db u db' : insert_attestation id a db = Ok (u, db') ->
  db' = db \/ attestations db !! id = None /\ attestations db' = <[id := a]> (attestations db).
Proof.
  unfold insert_attestation. intros Hc. tx_step Hc. tx_step Hm. case_match; [tx_step Hc; by left|].
  case_match eqn:E; [|by tx_step Hc]. apply andb_true_iff in E as [E _]. case_match; [|by tx_step Hc].
  world_step Hc. right. simpl. split; [|done]. by destruct (attestations db1 !! id).
Qed.

Lemma issue_ok rt key tenant sb p g l db :
  let db' := (issue_resident_placement_attestation rt key tenant sb p g l db).2 in
  db' = db \/ exists a, at_consumed_at a = None /\ at_redeem_idempotency_key a = None /\
    attestations db !! new_uuid rt 0 = None /\ attestations db' = <[new_uuid rt 0 := a]> (attestations db).
Proof.
  unfold issue_resident_placement_attestation. destruct key as [k|]; [|by left].
  destruct (placement_fence_on _ _ _ _ _ _) as [f|]; [|by left]. case_match; [by left|]. cbv zeta.
  unfold run_tx. destruct (insert_attestation _ _ db) as [[u db']|] eqn:E; [|by left].
  apply insert_attestation_ok in E as [->|[Hn He]]; [by left|]. right. eexists. by split_and!; cycle 3; [exact He|..].
Qed.

Lemma consume_attestation_ok now tenant id key db b db' :
  consume_attestation now tenant id key db = Ok (b, db') ->
  if b then exists a, attestations db !! id = Some a /\ at_consumed_at a = None /\
    attestations db' = <[id := attestation_set_redeemed now key a]> (attestations db)
  else attestations db' = attestations db.
Proof.
  unfold consume_attestation. intros Hc. tx_step Hc. tx_step Hm. destruct (update_row _ _ _ _) as [u m] eqn:E.
  case_match; [|by tx_step Hc]. world_step Hc. tx_step Hc. destruct b.
  - apply update_row_true in E as (row & Hrow & Hg & ->). exists row. split_and!; [done| |done].
    unfold may_redeem in Hg. rewrite !andb_true_iff in Hg. destruct Hg as (((_ & Hn) & _) & _). by destruct (at_consumed_at row).
  - by apply update_row_false in E as ->.
Qed.

Lemma step_inv_attestations s s' : attestation_step s s' -> attestation_inv s -> attestation_inv s'.
Proof.
  intros [s0 rt key tenant sb p g l Hn|s0 now tenant id key out|s0 now tenant p g l n u|s0 db' Hk] Hi.
  - destruct (issue_ok rt key tenant sb p g l (as_db s0)) as [Heq|(a & Hc & Hk & Hnone & He)];
      destruct Hi as [Hd Hr Hw].
    + rewrite Heq. split; simpl; [set_solver | set_solver | done].
    + split; simpl; [rewrite He, dom_insert_L; set_solver | set_solver |]. rewrite He. apply map_Forall_insert_2; [|done].
      assert (Hnr : as_redeemed s0 !! new_uuid rt 0 = None) by (apply not_elem_of_dom; set_solver).
      unfold row_recorded. by rewrite Hc, Hk, Hnr.
  - unfold out. clear out. unfold run_tx. destruct (consume_attestation now tenant id key (as_db s0)) as [[b db']|] eqn:E;
      simpl; [|by destruct s0]. apply consume_attestation_ok in E. destruct Hi as [Hd Hr Hw]. destruct b.
    + destruct E as (a & Ha & Hc & He). assert (Hid : id ∈ as_issued s0) by (apply Hd, elem_of_dom; by exists a).
      split; simpl; [rewrite He, dom_insert_L; set_solver | rewrite dom_insert_L; set_solver |]. rewrite He.
      intros id' a'. unfold row_recorded. destruct (decide (id' = id)) as [->|Hne].
      * rewrite !lookup_insert_eq. by intros [= <-].
      * rewrite !lookup_insert_ne by done. apply Hw.
    + split; simpl; rewrite ?E; done.
  - apply kept_inv; [|done]. unfold run_tx.
    destruct (record_attestation_pod _ _ _ _ _ _ _ _) as [[c db']|] eqn:E; simpl; [by eapply pod_kept|].
    intros id a Ha. by exists a.
  - by apply kept_inv.
Qed.

Lemma step_grows s s' : attestation_step s s' -> attestation_inv s -> as_redeemed s ⊆ as_redeemed s'.
Proof.
  intros [| s0 now tenant id key out | |] Hi; try done. simpl. unfold out, run_tx.
  destruct (consume_attestation now tenant id key (as_db s0)) as [[b db']|] eqn:E; simpl; [|done].
  destruct b; [|done]. apply consume_attestation_ok in E as (a & Ha & Hc & _).
  apply insert_subseteq. apply (ai_rows _ Hi id a Ha), Hc.
Qed.

Lemma steps_inv_grow s s' : rtc attestation_step s s' -> attestation_inv s ->
  attestation_inv s' /\ as_redeemed s ⊆ as_redeemed s'.
Proof.
  induction 1 as [|x y z Hxy _ IH]; [done|]. intros Hi. destruct IH as [Hz Hg]; [by eapply step_inv_attestations|].
  split; [done|]. etrans; [by eapply step_grows | done].
Qed.

Lemma attestation_reachable_inv s : attestation_reachable s -> attestation_inv s.
Proof.
  intros (db0 & He & Hs). apply steps_inv_grow in Hs as [? _]; [done|].
  split; simpl; rewrite ?He; [by rewrite dom_empty_L | by rewrite dom_empty_L | apply map_Forall_empty].
Qed.

(** *** Redemptions *)

(** The state a redemption leaves when its consumption is settled. *)
Definition after_settle (now : Z) (tenant : string) (q : RedeemRequest) (r : AttestationRecord) (s : AState) : AState :=
  match rec_consumed_at r with
  | Some _ => s
  | None =>
      let out := run_tx (consume_attestation now tenant (rec_id r) (rdm_idempotency_key q)) (as_db s) in
      mkAState out.2 (as_issued s) (note_redemption (rec_id r) (rdm_idempotency_key q) out.1 (as_redeemed s))
  end.

Lemma after_settle_db now tenant q r s :
  as_db (after_settle now tenant q r s) = (settle_redemption now tenant q r (as_db s)).2.
Proof.
  unfold after_settle, settle_redemption. destruct (rec_consumed_at r); [by case_bool_decide|]. simpl.
  by destruct (run_tx _ _) as [[[]|] db].
Qed.

Lemma after_settle_steps now tenant q r s : rtc attestation_step s (after_settle now tenant q r s).
Proof. unfold after_settle. destruct (rec_consumed_at r); [done|]. apply rtc_once. by constructor. Qed.

Lemma record_from_row_ok id a r : record_from_row id a = Ok r ->
  rec_id r = id /\ rec_consumed_at r = at_consumed_at a /\ rec_redeem_idempotency_key r = at_redeem_idempotency_key a /\
  rec_tenant_id r = at_tenant_id a.
Proof.
  unfold record_from_row. intros (? & _ & Hr)%bind_ok. apply bind_ok in Hr as (? & _ & Hr).
  apply bind_ok in Hr as (? & _ & Hr). case_match; [|done]. by injection Hr as <-.
Qed.

Lemma redeem_checks_row now key tenant q db r : redeem_checks now key tenant q db = Ok r ->
  exists a, attestations db !! rec_id r = Some a /\ rec_consumed_at r = at_consumed_at a /\
    rec_redeem_idempotency_key r = at_redeem_idempotency_key a.
Proof.
  unfold redeem_checks. case_match; [|done]. destruct key as [k|]; [|done]. intros (r0 & Hr & Hc)%bind_ok.
  case_match; [|done]. apply bind_ok in Hc as (? & _ & [= <-]). unfold fetch_record_for_token in Hr.
  destruct (find _ _) as [[id a]|] eqn:E; [|done]. apply find_some in E as [Hin _].
  apply list_elem_of_In, elem_of_map_to_list in Hin. apply record_from_row_ok in Hr as (<- & ? & ? & _). by exists a.
Qed.

Lemma fetch_by_id_row db tenant id r : fetch_record_by_id db tenant id = Ok r ->
  exists a, attestations db !! id = Some a /\ rec_redeem_idempotency_key r = at_redeem_idempotency_key a.
Proof.
  unfold fetch_record_by_id. destruct (attestations db !! id) as [a|]; [|done]. case_match; [|done].
  intros (_ & _ & ? & _)%record_from_row_ok. by exists a.
Qed.

(** A settled redemption is on record under its key. *)
Lemma settled_recorded now now' key tenant q r s0 s1 :
  attestation_inv s0 -> redeem_checks now key tenant q (as_db s0) = Ok r -> rtc attestation_step s0 s1 ->
  (settle_redemption now' tenant q r (as_db s1)).1 = Ok tt ->
  as_redeemed (after_settle now' tenant q r s1) !! rec_id r = Some (rdm_idempotency_key q).
Proof.
  intros Hi Hk Hs Hok. destruct (steps_inv_grow _ _ Hs Hi) as [Hi1 Hg].
  destruct (redeem_checks_row _ _ _ _ _ _ Hk) as (a & Ha & Hc & Hkey). apply (ai_rows _ Hi) in Ha as (_ & Hrec & _).
  destruct (steps_inv_grow _ _ (after_settle_steps now' tenant q r s1) Hi1) as [Hi2 _].
  pose proof (after_settle_db now' tenant q r s1) as Hdb. unfold settle_redemption in Hok, Hdb.
  unfold after_settle in *. destruct (rec_consumed_at r) eqn:Er.
  - simpl in Hok. case_bool_decide as Hkk; [|done]. eapply lookup_weaken; [|exact Hg]. by rewrite Hrec, <-Hkey.
  - destruct (run_tx _ _) as [[[]|e] db] eqn:Er'; simpl in *; [by rewrite lookup_insert_eq| |done].
    apply bind_ok in Hok as (raced & Hf & Hb). case_bool_decide as Hkk; [|done].
    apply fetch_by_id_row in Hf as (a' & Ha' & Hkey'). apply (ai_rows _ Hi2) in Ha' as (_ & Hrec' & _). simpl in Hrec'.
    by rewrite Hrec', <-Hkey'.
Qed.

(** C7. A placement proof is redeemed for one idempotency key: when two
    redemptions of the same attestation succeed, the second settled any time
    after the first, each with steps of other requests between its checks and
    its settling, they carry the same key; also when rows have disappeared in
    the meantime. *)
Theorem proof_redeemed_for_one_key s0 s1 t0 t1 n0 n1 n2 n3 key key' tenant tenant' q q' r r' :
  attestation_reachable s0 -> redeem_checks n0 key tenant q (as_db s0) = Ok r -> rtc attestation_step s0 s1 ->
  (settle_redemption n1 tenant q r (as_db s1)).1 = Ok tt ->
  attestation_reachable t0 -> redeem_checks n2 key' tenant' q' (as_db t0) = Ok r' -> rtc attestation_step t0 t1 ->
  (settle_redemption n3 tenant' q' r' (as_db t1)).1 = Ok tt ->
  rtc attestation_step (after_settle n1 tenant q r s1) t1 ->
  rec_id r' = rec_id r -> rdm_idempotency_key q' = rdm_idempotency_key q.
Proof.
  intros Hs%attestation_reachable_inv Hk Hs1 Hok Ht%attestation_reachable_inv Hk' Ht1 Hok' Hst Hid.
  pose proof (settled_recorded _ _ _ _ _ _ _ _ Hs Hk Hs1 Hok) as H1'.
  pose proof (settled_recorded _ _ _ _ _ _ _ _ Ht Hk' Ht1 Hok') as H2'.
  assert (Hinv : attestation_inv (after_settle n1 tenant q r s1)).
  { eapply steps_inv_grow; [|exact Hs]. etrans; [exact Hs1 | apply after_settle_steps]. }
  assert (Hgrow : as_redeemed (after_settle n1 tenant q r s1) ⊆ as_redeemed (after_settle n3 tenant' q' r' t1)).
  { eapply steps_inv_grow; [|exact Hinv]. etrans; [exact Hst | apply after_settle_steps]. }
  rewrite Hid in H2'. eapply lookup_weaken in H1'; [|exact Hgrow]. congruence.
Qed.
End AttestationMachine.
