(* ===== verification/MaestroActivations.v ===== *)
(** * Maestro activations

    [sandboxwich-api/src/handlers/maestro_activations.rs].  A platform presents
    an activation (an identifier and the tuple of the live connection binding,
    or only the identity part of it) and gets a durable proof that the tuple
    was live.  The identifier is a replay fence: it stays bound to the digest
    of the tuple it was first accepted with. *)

From S2P Require Import Prelude Text BootstrapStore CoreTypes LifecycleContract Json Store Leases SandboxLifecycle World.
From S2P Require Import Authz Scopes Claim SterilePool PoolController SterileCells ResidentContract ResidentAttestations.
From stdpp Require Import pretty.

Definition BINDING_MISMATCH : string := "maestro_activation_binding_mismatch".
Definition IDENTITY_MISMATCH : string := "maestro_activation_identity_mismatch".
Definition REPLAY_MISMATCH : string := "maestro_activation_replay_mismatch".
Definition STALE_GENERATION : string := "maestro_activation_stale_generation".
Definition EXPIRED_LEASE : string := "maestro_activation_lease_expired".
Definition NOT_LIVE : string := "maestro_activation_not_live".
Definition PROOF_DIGEST_PREFIX : string := "sha256:v1:".

(** ** Requests and responses *)

Record ActivationRequest : Type := mkActivationRequest {
  act_activation_id : Uuid;
  act_organization_id : string;
  act_workspace_id : string;
  act_sandbox_id : Uuid;
  act_pod_uid : Uuid;
  act_placement_generation : Z;
  act_runner_session_id : string;
  act_runtime_image : string;
  act_service_namespace : string;
  act_service_name : string;
  act_service_host : string;
  act_service_port : Z;
  act_expected_server_uri_san : string;
  act_resident_process_generation : Z;
  act_lease_id : Uuid;
  act_lease_attempt : Z;
  act_lease_expires_at_epoch_seconds : Z;
  act_worker_id : Uuid
}.

Record IdentityRequest : Type := mkIdentityRequest {
  idr_activation_id : Uuid;
  idr_organization_id : string;
  idr_workspace_id : string;
  idr_sandbox_id : Uuid;
  idr_pod_uid : Uuid;
  idr_placement_generation : Z;
  idr_runner_session_id : string;
  idr_runtime_image_digest : string;
  idr_service_name : string;
  idr_service_port : Z;
  idr_resident_process_generation : Z;
  idr_lease_id : Uuid;
  idr_lease_attempt : Z;
  idr_worker_id : Uuid
}.

Record ActivationProofTupleV1 : Type := mkProofTuple {
  pt_resident_process_id : Uuid;
  pt_resident_process_generation : Z;
  pt_lease_id : Uuid;
  pt_lease_attempt : Z;
  pt_job_id : Uuid;
  pt_worker_id : Uuid;
  pt_placement_generation : Z;
  pt_provider_pod_uid : Uuid;
  pt_runtime_image : string
}.

Record ActivationAuthority : Type := mkActivationAuthority {
  aa_resident_process_id : Uuid;
  aa_job_id : Uuid
}.

Record ActivationProof : Type := mkActivationProof {
  ap_activation_id : Uuid;
  ap_resident_process_id : Uuid;
  ap_job_id : Uuid;
  ap_tuple_digest : string;
  ap_authority_revision : string;
  ap_tuple_sha256 : string;
  ap_validated_at : Z;
  ap_replayed : bool
}.

(** The derived [serde] of the two tuples. *)
Class ActivationLib : Type := {
  activation_to_vec : ActivationRequest -> string;
  proof_tuple_to_vec : ActivationProofTupleV1 -> string
}.

Section Activations.
Context `{UuidLib} `{SerdeLib} `{CellLib} `{AttestationLib} `{ActivationLib}.

(** ** Digests *)

Definition set_activation_id (id : Uuid) (q : ActivationRequest) : ActivationRequest :=
  mkActivationRequest id (act_organization_id q) (act_workspace_id q) (act_sandbox_id q) (act_pod_uid q)
    (act_placement_generation q) (act_runner_session_id q) (act_runtime_image q)
    (act_service_namespace q) (act_service_name q) (act_service_host q) (act_service_port q)
    (act_expected_server_uri_san q) (act_resident_process_generation q) (act_lease_id q)
    (act_lease_attempt q) (act_lease_expires_at_epoch_seconds q) (act_worker_id q).

(** The activation's own identifier is not part of the digest. *)
Definition tuple_sha256 (q : ActivationRequest) : string :=
  sha256_hex ("sandboxwich-maestro-activation-v1" ++ NUL ++ activation_to_vec (set_activation_id 0%N q)).

Definition digest_proof_tuple (t : ActivationProofTupleV1) : string :=
  PROOF_DIGEST_PREFIX
  ++ sha256_hex ("sandboxwich-maestro-activation-proof-v1" ++ NUL ++ proof_tuple_to_vec t).

Definition proof_tuple_digest (live : MaestroBinding) (a : ActivationAuthority) : string :=
  digest_proof_tuple
    (mkProofTuple (aa_resident_process_id a) (mbd_resident_process_generation live) (mbd_lease_id live)
       (mbd_lease_attempt live) (aa_job_id a) (mbd_worker_id live) (mbd_placement_generation live)
       (mbd_pod_uid live) (mbd_runtime_image live)).

Definition authority_revision (live : MaestroBinding) : string :=
  "maestro-authority:v1:" ++ z_text (mbd_placement_generation live) ++ ":"
    ++ z_text (mbd_resident_process_generation live) ++ ":" ++ z_text (mbd_lease_attempt live).

Definition validation_response (q : ActivationRequest) (live : MaestroBinding) (a : ActivationAuthority)
    (digest : string) (validated_at : Z) (replayed : bool) : ActivationProof :=
  mkActivationProof (act_activation_id q) (aa_resident_process_id a) (aa_job_id a)
    (proof_tuple_digest live a) (authority_revision live) digest validated_at replayed.

(** ** Comparing with the live binding *)

Definition binding_matches (q : ActivationRequest) (live : MaestroBinding) : bool :=
  String.eqb (act_organization_id q) (mbd_organization_id live)
  && String.eqb (act_workspace_id q) (mbd_workspace_id live)
  && bool_decide (act_sandbox_id q = mbd_sandbox_id live)
  && bool_decide (act_pod_uid q = mbd_pod_uid live)
  && (act_placement_generation q =? mbd_placement_generation live)%Z
  && String.eqb (act_runner_session_id q) (mbd_runner_session_id live)
  && String.eqb (act_runtime_image q) (mbd_runtime_image live)
  && String.eqb (act_service_namespace q) (mbd_service_namespace live)
  && String.eqb (act_service_name q) (mbd_service_name live)
  && String.eqb (act_service_host q) (mbd_service_host live)
  && (act_service_port q =? mbd_service_port live)%Z
  && String.eqb (act_expected_server_uri_san q) (mbd_expected_server_uri_san live)
  && (act_resident_process_generation q =? mbd_resident_process_generation live)%Z
  && bool_decide (act_lease_id q = mbd_lease_id live)
  && (act_lease_attempt q =? mbd_lease_attempt live)%Z
  && (act_lease_expires_at_epoch_seconds q =? mbd_lease_expires_at_epoch_seconds live)%Z
  && bool_decide (act_worker_id q = mbd_worker_id live).

Definition valid_digest (value : Text) : bool := is_hex64 is_digest_byte value.

Definition runtime_image_digest (image : string) : option Text :=
  digest ← image_digest image; if valid_digest digest then Some digest else None.

(** Everything of the binding but the service's host and namespace, the URI
    and the lease's deadline. *)
Definition identity_matches (q : IdentityRequest) (live : MaestroBinding) : bool :=
  match runtime_image_digest (mbd_runtime_image live) with
  | None => false
  | Some digest =>
      String.eqb (idr_organization_id q) (mbd_organization_id live)
      && String.eqb (idr_workspace_id q) (mbd_workspace_id live)
      && bool_decide (idr_sandbox_id q = mbd_sandbox_id live)
      && bool_decide (idr_pod_uid q = mbd_pod_uid live)
      && (idr_placement_generation q =? mbd_placement_generation live)%Z
      && String.eqb (idr_runner_session_id q) (mbd_runner_session_id live)
      && Text.eq_ignore_ascii_case (chars (idr_runtime_image_digest q)) digest
      && String.eqb (idr_service_name q) (mbd_service_name live)
      && (idr_service_port q =? mbd_service_port live)%Z
      && (idr_resident_process_generation q =? mbd_resident_process_generation live)%Z
      && bool_decide (idr_lease_id q = mbd_lease_id live)
      && (idr_lease_attempt q =? mbd_lease_attempt live)%Z
      && bool_decide (idr_worker_id q = mbd_worker_id live)
  end.

Definition validation_request_from_binding (id : Uuid) (live : MaestroBinding) : ActivationRequest :=
  mkActivationRequest id (mbd_organization_id live) (mbd_workspace_id live) (mbd_sandbox_id live)
    (mbd_pod_uid live) (mbd_placement_generation live) (mbd_runner_session_id live)
    (mbd_runtime_image live) (mbd_service_namespace live) (mbd_service_name live)
    (mbd_service_host live) (mbd_service_port live) (mbd_expected_server_uri_san live)
    (mbd_resident_process_generation live) (mbd_lease_id live) (mbd_lease_attempt live)
    (mbd_lease_expires_at_epoch_seconds live) (mbd_worker_id live).

(** [StatusCode::is_server_error]. *)
Definition is_server_error (s : StatusCode) : bool :=
  match s with
  | INTERNAL_SERVER_ERROR | NOT_IMPLEMENTED | BAD_GATEWAY | SERVICE_UNAVAILABLE => true
  | _ => false
  end.

Definition message_contains (e : ApiError) (part : string) : bool :=
  contains_text (txt part) (chars (err_message e)).

Definition classify_live_error (e : ApiError) : ApiError :=
  if is_server_error (err_status e) then e
  else if message_contains e "lease is no longer active" || message_contains e "lease expires too soon"
  then conflict_code EXPIRED_LEASE "Maestro activation lease is expired"
  else if message_contains e "generation" || message_contains e "Pod binding is stale"
          || message_contains e "process generation"
  then conflict_code STALE_GENERATION "Maestro activation generation is stale"
  else if bool_decide (err_status e = NOT_FOUND)
  then mkApiError NOT_FOUND NOT_LIVE "Maestro activation authority was not found" None
  else conflict_code NOT_LIVE "Maestro activation tuple is not live".

(** ** The transaction *)

(** [lock_activation_sources]: the no-op writes change no row; they fail when
    there is no process or no placement to lock. *)
Definition lock_activation_sources (tenant : string) (sandbox_id : Uuid) : Tx World unit :=
  let! db := tx_get in
  check! Nat.eqb (length (List.filter (is_maestro_of sandbox_id tenant)
                            (map_to_list (resident_processes db)))) 1
    else mkApiError NOT_FOUND NOT_LIVE "Maestro activation authority was not found" None in
  check! is_some (sandbox_placements db !! sandbox_id)
    else conflict_code NOT_LIVE "Maestro activation placement is not live" in
  tx_ret tt.

Definition load_existing_validation (tenant : string) (activation_id : Uuid) :
    Tx World (option ActivationValidationRow) :=
  let! w := get_world in
  tx_ret (maestro_activation_validations w !! (tenant, activation_id)).

Definition live_binding (now : Z) (tenant : string) (sandbox_id : Uuid) : Tx World MaestroBinding :=
  let! db := tx_get in
  tx_lift (match authoritative_maestro_connection_binding now db tenant sandbox_id with
           | Ok live => Ok live
           | Err e => Err (classify_live_error e)
           end).

(** The process and job behind the lease the tuple names. *)
Definition activation_authority (db : Db World) (tenant : string) (q : ActivationRequest) :
    result ActivationAuthority ApiError :=
  match find (fun kr => is_maestro_of (act_sandbox_id q) tenant kr
                        && bool_decide (rp_active_lease_id kr.2 = Some (act_lease_id q)))
          (map_to_list (resident_processes db)) with
  | Some (id, _) =>
      match job_leases db !! act_lease_id q with
      | Some jl => Ok (mkActivationAuthority id (lr_job_id jl))
      | None => Err row_not_found
      end
  | None => Err row_not_found
  end.

Definition insert_validation (tenant : string) (q : ActivationRequest) (digest : string) (now : Z) :
    Tx World unit :=
  let! w := get_world in
  let key := (tenant, act_activation_id q) in
  check! is_none (maestro_activation_validations w !! key) else api_error_of_db_error UniqueViolation in
  check! Nat.eqb (String.length digest) 64 else api_error_of_db_error OtherDbError in
  check! is_some (sandboxes w !! act_sandbox_id q) else foreign_key_error in
  modify_world (set_maestro_activation_validations
    (<[key := mkActivationValidationRow (act_sandbox_id q) digest (activation_to_vec q) now]>
       (maestro_activation_validations w))).

Definition finish_maestro_activation_validation (now : Z) (tenant : string) (q : ActivationRequest)
    (live : MaestroBinding) (digest : string) (existing : option ActivationValidationRow) :
    Tx World ActivationProof :=
  check! (timestamp now <? mbd_lease_expires_at_epoch_seconds live)%Z
    else conflict_code EXPIRED_LEASE "Maestro activation lease is expired" in
  let! db := tx_get in
  let! authority := tx_lift (activation_authority db tenant q) in
  match existing with
  | Some row => tx_ret (validation_response q live authority digest (av_validated_at row) true)
  | None =>
      let! _ := insert_validation tenant q digest now in
      tx_ret (validation_response q live authority digest now false)
  end.

Definition replay_mismatch : ApiError :=
  conflict_code REPLAY_MISMATCH "Maestro activation ID was already used for different tuple material".

(** The identifier was accepted with other material. *)
Definition used_for_another (existing : option ActivationValidationRow) (digest : string) : bool :=
  match existing with Some row => negb (String.eqb (av_tuple_sha256 row) digest) | None => false end.

Definition generations_differ (placed process attempt : Z) (live : MaestroBinding) : bool :=
  negb (placed =? mbd_placement_generation live)%Z
  || negb (process =? mbd_resident_process_generation live)%Z
  || negb (attempt =? mbd_lease_attempt live)%Z.

Definition validate_maestro_activation_tx (now : Z) (tenant : string) (q : ActivationRequest) :
    Tx World ActivationProof :=
  let digest := tuple_sha256 q in
  let! _ := lock_activation_sources tenant (act_sandbox_id q) in
  let! existing := load_existing_validation tenant (act_activation_id q) in
  check! negb (used_for_another existing digest) else replay_mismatch in
  let! live := live_binding now tenant (act_sandbox_id q) in
  check! binding_matches q live
    else conflict_code (if generations_differ (act_placement_generation q) (act_resident_process_generation q)
                             (act_lease_attempt q) live then STALE_GENERATION else BINDING_MISMATCH)
           "Maestro activation tuple does not exactly match live authority" in
  finish_maestro_activation_validation now tenant q live digest existing.

Definition path_mismatch : ApiError :=
  conflict_code BINDING_MISMATCH "Maestro activation sandbox does not match the request path".

Definition validate_maestro_activation_inner (rt : Runtime) (tenant : string) (path_sandbox_id : Uuid)
    (q : ActivationRequest) (db : Db World) : result ActivationProof ApiError * Db World :=
  if negb (bool_decide (act_sandbox_id q = path_sandbox_id)) then (Err path_mismatch, db)
  else run_tx (validate_maestro_activation_tx (utc_now rt) tenant q) db.

Definition validate_identity_tx (now : Z) (tenant : string) (q : IdentityRequest) :
    Tx World (MaestroBinding * ActivationProof) :=
  let! _ := lock_activation_sources tenant (idr_sandbox_id q) in
  let! live := live_binding now tenant (idr_sandbox_id q) in
  let! existing := load_existing_validation tenant (idr_activation_id q) in
  check! identity_matches q live
    else conflict_code (if is_some existing then REPLAY_MISMATCH
                        else if generations_differ (idr_placement_generation q)
                                  (idr_resident_process_generation q) (idr_lease_attempt q) live
                        then STALE_GENERATION else IDENTITY_MISMATCH)
           "Maestro activation identity does not exactly match live authority" in
  let request := validation_request_from_binding (idr_activation_id q) live in
  let digest := tuple_sha256 request in
  check! negb (used_for_another existing digest) else replay_mismatch in
  let! proof := finish_maestro_activation_validation now tenant request live digest existing in
  tx_ret (live, proof).

Definition validate_maestro_activation_identity_inner (rt : Runtime) (tenant : string)
    (path_sandbox_id : Uuid) (q : IdentityRequest) (db : Db World) :
    result (MaestroBinding * ActivationProof) ApiError * Db World :=
  if negb (bool_decide (idr_sandbox_id q = path_sandbox_id)) then (Err path_mismatch, db)
  else if negb (valid_digest (chars (idr_runtime_image_digest q)))
  then (Err (conflict_code IDENTITY_MISMATCH "Maestro activation runtime image digest is invalid"), db)
  else run_tx (validate_identity_tx (utc_now rt) tenant q) db.

(** The outcome and reason each request is counted under. *)
Definition metric_reason (code : string) : string :=
  if String.eqb code BINDING_MISMATCH || String.eqb code IDENTITY_MISMATCH then "binding_mismatch"
  else if String.eqb code REPLAY_MISMATCH then "replay_mismatch"
  else if String.eqb code STALE_GENERATION then "stale_generation"
  else if String.eqb code EXPIRED_LEASE then "expired_lease"
  else if String.eqb code NOT_LIVE then "not_live"
  else if String.eqb code "not_found" then "not_found"
  else if String.eqb code "bad_request" then "invalid_request"
  else "internal".

Definition activation_metric (r : result ActivationProof ApiError) : string * string :=
  match r with
  | Ok p => ("accepted", if ap_replayed p then "replayed" else "validated")
  | Err e => if is_server_error (err_status e) then ("error", "internal")
             else ("rejected", metric_reason (err_code e))
  end.
End Activations.
