(* ===== verification/MaestroProofs.v ===== *)
(** * Maestro activations: the replay fence

    An activation identifier stays bound to the tuple it was first accepted
    with; a proof is given only for the live binding; and what the fence does
    to a repeated identity request when the lease has been renewed. *)

From S2P Require Import Prelude Text BootstrapStore CoreTypes LifecycleContract Json Store Leases SandboxLifecycle World.
From S2P Require Import Authz Scopes Claim SterilePool PoolController SterileCells ResidentContract ResidentAttestations.
From S2P Require Import MaestroActivations Cleanup CleanupProofs.
From stdpp Require Import relations.

Abbreviation validations db := (maestro_activation_validations (world db)).

(** Transactions that keep every validation; all of the program are, except
    the deletion of a sandbox. *)
Definition validations_kept (db db' : Db World) : Prop :=
  forall k v, validations db !! k = Some v -> validations db' !! k = Some v.

#[export] Instance validations_kept_preorder : PreOrder validations_kept.
Proof. split; [by intros ? ? ? | intros ? ? ? V1 V2 k v Hv; by apply V2, V1]. Qed.

(** What happens between two requests under an activation: transactions that
    keep the validations, and deletions of sandboxes other than the one the
    validation of the activation names. *)
Inductive activity (k : string * Uuid) : relation (Db World) :=
| activity_keeps a b : validations_kept a b -> activity k a b
| activity_deletes a id :
    (forall row, validations a !! k = Some row -> av_sandbox_id row <> id) -> activity k a (cascade id a).

Lemma activity_row k a b row :
  rtc (activity k) a b -> validations a !! k = Some row -> validations b !! k = Some row.
Proof.
  intros Hab. induction Hab as [|a b c Hstep _ IH]; [done|]. intros Hrow. apply IH.
  destruct Hstep as [a b Hk|a id Hne]; [by apply Hk|]. simpl. apply lookup_delete_rows. split; [done|].
  apply bool_decide_eq_false. by apply Hne.
Qed.

Lemma cascade_frees_activation k db row :
  validations db !! k = Some row -> validations (cascade (av_sandbox_id row) db) !! k = None.
Proof.
  intros Hrow. simpl. destruct (delete_rows _ _ !! k) as [v|] eqn:E; [|done].
  apply lookup_delete_rows in E as [E Hne]. rewrite Hrow in E. injection E as <-.
  by apply bool_decide_eq_false in Hne.
Qed.

Section ActivationProofs.
Context `{UuidLib} `{SerdeLib} `{CellLib} `{AttestationLib} `{ActivationLib}.

(** The part both endpoints share. *)
Lemma finish_ok now tenant q live digest existing db p db' :
  existing = validations db !! (tenant, act_activation_id q) ->
  finish_maestro_activation_validation now tenant q live digest existing db = Ok (p, db') ->
  ap_activation_id p = act_activation_id q /\ ap_tuple_sha256 p = digest /\ validations_kept db db' /\
  (timestamp now < mbd_lease_expires_at_epoch_seconds live)%Z /\
  match existing with
  | Some row => ap_replayed p = true /\ ap_validated_at p = av_validated_at row /\ db' = db
  | None => ap_replayed p = false /\ ap_validated_at p = now /\
      exists row, validations db' !! (tenant, act_activation_id q) = Some row /\
        av_tuple_sha256 row = digest /\ av_validated_at row = now
  end.
Proof.
  intros He Hc. unfold finish_maestro_activation_validation in Hc. case_match eqn:Et; [|by tx_step Hc].
  apply Z.ltb_lt in Et. apply tx_bind_ok in Hc as (d0 & db1 & [= <- <-] & Hc).
  apply tx_bind_ok in Hc as (au & db2 & Hl & Hc). apply tx_lift_ok in Hl as [_ ->]. destruct existing as [row|].
  - tx_step Hc. by split_and!.
  - apply tx_bind_ok in Hc as (u & db3 & Hi & Hc). tx_step Hc. unfold insert_validation in Hi. world_step Hi.
    repeat (case_match; [|by tx_step Hi]). world_step Hi. split_and!; try done; simpl.
    + intros k v Hv. simpl. rewrite lookup_insert_ne; [done|]. intros <-. congruence.
    + eexists. by rewrite lookup_insert_eq.
Qed.

Lemma lock_ok tenant sb db u db' : lock_activation_sources tenant sb db = Ok (u, db') -> db' = db.
Proof.
  intros Hc. unfold lock_activation_sources in Hc. tx_step Hc. tx_step Hm. repeat (case_match; [|by tx_step Hc]).
  by tx_step Hc.
Qed.

Lemma load_existing_ok tenant id db existing db' : load_existing_validation tenant id db = Ok (existing, db') ->
  db' = db /\ existing = validations db !! (tenant, id).
Proof. intros Hc. unfold load_existing_validation in Hc. world_step Hc. by tx_step Hc. Qed.

Lemma live_binding_ok now tenant sb db live db' : live_binding now tenant sb db = Ok (live, db') ->
  db' = db /\ authoritative_maestro_connection_binding now db tenant sb = Ok live.
Proof.
  intros Hc. unfold live_binding in Hc. tx_step Hc. tx_step Hm. apply tx_lift_ok in Hc as [Hc ->].
  destruct (authoritative_maestro_connection_binding _ _ _ _) as [l|]; [|done]. by injection Hc as ->.
Qed.

(** What is stored and answered by an accepted request of either kind. *)
Record accepted (now : Z) (tenant : string) (id : Uuid) (digest : string) (db : Db World) (p : ActivationProof)
    (db' : Db World) : Prop := {
  ac_id : ap_activation_id p = id;
  ac_digest : ap_tuple_sha256 p = digest;
  ac_kept : validations_kept db db';
  ac_row : exists row, validations db' !! (tenant, id) = Some row /\
    av_tuple_sha256 row = digest /\ av_validated_at row = ap_validated_at p;
  ac_replayed : ap_replayed p = is_some (validations db !! (tenant, id));
  ac_before : forall row, validations db !! (tenant, id) = Some row -> av_tuple_sha256 row = digest
}.

Lemma finish_accepted now tenant q live digest existing db p db' :
  existing = validations db !! (tenant, act_activation_id q) ->
  used_for_another existing digest = false ->
  finish_maestro_activation_validation now tenant q live digest existing db = Ok (p, db') ->
  accepted now tenant (act_activation_id q) digest db p db' /\
  (timestamp now < mbd_lease_expires_at_epoch_seconds live)%Z.
Proof.
  intros He Hu Hc. destruct (finish_ok _ _ _ _ _ _ _ _ _ He Hc) as (Hid & Hd & Hk & Ht & Hrest). split; [|done].
  destruct existing as [row|].
  - destruct Hrest as (Hr & Hv & ->). simpl in Hu. apply negb_false_iff, String.eqb_eq in Hu.
    constructor; try done; [exists row; by rewrite <-He | by rewrite <-He | intros row' Hrow; congruence].
  - destruct Hrest as (Hr & Hv & row & Hrow & Hrd & Hrv).
    constructor; try done; [exists row; by rewrite Hv | by rewrite <-He | intros row' Hrow'; congruence].
Qed.

Lemma tuple_accepted rt tenant path q db p db' :
  validate_maestro_activation_inner rt tenant path q db = (Ok p, db') ->
  accepted (utc_now rt) tenant (act_activation_id q) (tuple_sha256 q) db p db' /\ act_sandbox_id q = path /\
  exists live, authoritative_maestro_connection_binding (utc_now rt) db tenant path = Ok live /\
    binding_matches q live = true /\ (timestamp (utc_now rt) < mbd_lease_expires_at_epoch_seconds live)%Z.
Proof.
  unfold validate_maestro_activation_inner. case_bool_decide as Hp; [|done]. simpl. subst path. intros Hc%run_tx_ok.
  unfold validate_maestro_activation_tx in Hc. apply tx_bind_ok in Hc as (u & d1 & Hl & Hc). apply lock_ok in Hl as ->.
  apply tx_bind_ok in Hc as (ex & d2 & Hx & Hc). apply load_existing_ok in Hx as [-> He].
  case_match eqn:Eu; [|by tx_step Hc]. apply negb_true_iff in Eu.
  apply tx_bind_ok in Hc as (live & d3 & Hv & Hc). apply live_binding_ok in Hv as [-> Hv].
  case_match eqn:Eb; [|by tx_step Hc]. destruct (finish_accepted _ _ _ _ _ _ _ _ _ He Eu Hc). split_and!; [done|done|].
  by exists live.
Qed.

Lemma identity_accepted rt tenant path q db live p db' :
  validate_maestro_activation_identity_inner rt tenant path q db = (Ok (live, p), db') ->
  accepted (utc_now rt) tenant (idr_activation_id q)
    (tuple_sha256 (validation_request_from_binding (idr_activation_id q) live)) db p db' /\
  idr_sandbox_id q = path /\ authoritative_maestro_connection_binding (utc_now rt) db tenant path = Ok live /\
  identity_matches q live = true /\ (timestamp (utc_now rt) < mbd_lease_expires_at_epoch_seconds live)%Z.
Proof.
  unfold validate_maestro_activation_identity_inner. case_bool_decide as Hp; [|done]. simpl. subst path.
  case_match; [done|]. intros Hc%run_tx_ok. unfold validate_identity_tx in Hc.
  apply tx_bind_ok in Hc as (u & d1 & Hl & Hc). apply lock_ok in Hl as ->.
  apply tx_bind_ok in Hc as (live' & d3 & Hv & Hc). apply live_binding_ok in Hv as [-> Hv].
  apply tx_bind_ok in Hc as (ex & d2 & Hx & Hc). apply load_existing_ok in Hx as [-> He].
  case_match eqn:Eb; [|by tx_step Hc]. case_match eqn:Eu; [|by tx_step Hc]. apply negb_true_iff in Eu.
  apply tx_bind_ok in Hc as (p' & d4 & Hf & Hc). unfold tx_ret in Hc. injection Hc as <- <- <-.
  destruct (finish_accepted _ _ (validation_request_from_binding (idr_activation_id q) live') _ _ _ _ _ _ He Eu Hf).
  by split_and!.
Qed.

(** The two kinds of request, and what each one presents. *)
Inductive ActivationCall : Type :=
| CallTuple (q : ActivationRequest)
| CallIdentity (q : IdentityRequest).

Definition call_activation (c : ActivationCall) : Uuid :=
  match c with CallTuple q => act_activation_id q | CallIdentity q => idr_activation_id q end.

Definition answers (rt : Runtime) (tenant : string) (path : Uuid) (c : ActivationCall) (db : Db World)
    (p : ActivationProof) (db' : Db World) : Prop :=
  match c with
  | CallTuple q => validate_maestro_activation_inner rt tenant path q db = (Ok p, db')
  | CallIdentity q => exists live, validate_maestro_activation_identity_inner rt tenant path q db = (Ok (live, p), db')
  end.

Lemma answers_accepted rt tenant path c db p db' :
  answers rt tenant path c db p db' ->
  exists digest, accepted (utc_now rt) tenant (call_activation c) digest db p db'.
Proof.
  destruct c as [q|q]; [intros [Ha _]%tuple_accepted; eauto|]. intros (live & [Ha _]%identity_accepted). eauto.
Qed.

(** C9. An activation identifier is bound to one tuple while the sandbox of
    its validation exists: two requests of a tenant that are answered with a
    proof under the same identifier, through either endpoint, with any
    transactions in between that keep the validations and any deletions of
    other sandboxes, are answered with the same tuple digest and the same
    validation time, and the second proof is marked as a replay.  Deleting the
    sandbox that the validation names frees the identifier. *)
Theorem activation_is_bound rt rt' tenant path path' c c' db p db1 db2 p' db3 :
  answers rt tenant path c db p db1 -> rtc (activity (tenant, call_activation c)) db1 db2 ->
  answers rt' tenant path' c' db2 p' db3 -> call_activation c' = call_activation c ->
  (ap_tuple_sha256 p' = ap_tuple_sha256 p /\ ap_validated_at p' = ap_validated_at p /\ ap_replayed p' = true) /\
  exists row, validations db2 !! (tenant, call_activation c) = Some row /\
    validations (cascade (av_sandbox_id row) db2) !! (tenant, call_activation c) = None.
Proof.
  intros (d & A)%answers_accepted Hk (d' & A')%answers_accepted Hid. rewrite Hid in A'.
  destruct (ac_row _ _ _ _ _ _ _ A) as (row & Hrow & Hd & Hv). apply (activity_row _ _ _ _ Hk) in Hrow.
  pose proof (ac_before _ _ _ _ _ _ _ A' _ Hrow) as Hb. pose proof (ac_kept _ _ _ _ _ _ _ A' _ _ Hrow) as Hrow'.
  destruct (ac_row _ _ _ _ _ _ _ A') as (row' & Hrow2 & _ & Hv'). rewrite Hrow' in Hrow2. injection Hrow2 as <-.
  rewrite (ac_digest _ _ _ _ _ _ _ A), (ac_digest _ _ _ _ _ _ _ A'), (ac_replayed _ _ _ _ _ _ _ A'), Hrow.
  split; [split_and!; congruence || done|]. exists row. split; [done|]. by apply cascade_frees_activation.
Qed.

(** A proof is given for the live binding: the tuple presented, or the
    identity part of it, is what the resident, placement and lease rows say at
    that moment, and the lease has not expired. *)
Theorem proof_is_of_live_binding rt tenant path c db p db' :
  answers rt tenant path c db p db' ->
  exists live, authoritative_maestro_connection_binding (utc_now rt) db tenant path = Ok live /\
    (timestamp (utc_now rt) < mbd_lease_expires_at_epoch_seconds live)%Z /\
    match c with
    | CallTuple q => binding_matches q live = true
    | CallIdentity q => identity_matches q live = true
    end.
Proof.
  destruct c as [q|q].
  - intros (_ & _ & live & Hl & Hb & Ht)%tuple_accepted. by exists live.
  - intros (live & (_ & _ & Hl & Hb & Ht)%identity_accepted). by exists live.
Qed.

(** A repeated identity request is refused once the lease has been
    renewed: the request is the one that was accepted, it still matches the
    live binding field by field, but the stored digest covers the lease's
    deadline, and the answer is a replay mismatch. *)
Theorem identity_replay_lost_on_renewal rt rt' tenant path q db live p db1 db2 live' :
  validate_maestro_activation_identity_inner rt tenant path q db = (Ok (live, p), db1) ->
  validations_kept db1 db2 ->
  is_Some (sandbox_placements db2 !! path) ->
  length (List.filter (is_maestro_of path tenant) (map_to_list (resident_processes db2))) = 1%nat ->
  authoritative_maestro_connection_binding (utc_now rt') db2 tenant path = Ok live' ->
  identity_matches q live' = true ->
  tuple_sha256 (validation_request_from_binding (idr_activation_id q) live')
    <> tuple_sha256 (validation_request_from_binding (idr_activation_id q) live) ->
  validate_maestro_activation_identity_inner rt' tenant path q db2 = (Err replay_mismatch, db2).
Proof.
  intros Hq Hk [pl Hpl] Hone Hlive Hm Hne. destruct (identity_accepted _ _ _ _ _ _ _ _ Hq) as (A & Hp & _).
  destruct (ac_row _ _ _ _ _ _ _ A) as (row & Hrow & Hd & _). apply Hk in Hrow.
  unfold validate_maestro_activation_identity_inner in *. rewrite Hp, bool_decide_eq_true_2 in * by done. simpl in *.
  destruct (negb (valid_digest _)); [done|]. unfold run_tx, validate_identity_tx, lock_activation_sources, live_binding,
    load_existing_validation, get_world, tx_bind, tx_lift, tx_get, tx_ret. rewrite Hp, Hone, Hpl. cbn [Nat.eqb is_some].
  rewrite Hlive. simpl.  rewrite Hrow, Hm. simpl. rewrite Hd. destruct (String.eqb_spec (tuple_sha256 (validation_request_from_binding (idr_activation_id q) live))
    (tuple_sha256 (validation_request_from_binding (idr_activation_id q) live'))); [congruence|]. done.
Qed.
End ActivationProofs.
