(* ===== verification/HandoffProofs.v ===== *)
(** * The shared handoff: what is sealed is what is opened

    A bootstrap that was published is recovered unchanged by every process
    with the key while its row lasts, and a ciphertext opens only for the
    resident it was sealed for, wherever the row is moved and whatever its
    columns are changed to. *)

From S2P Require Import Prelude BootstrapStore CoreTypes Json Store Leases SandboxLifecycle World BootstrapHandoff.
From stdpp Require Import pretty.

(** ** Texts between bars *)

Definition lacks_bar (s : string) : Prop := BAR ∉ String.list_ascii_of_string s.

Lemma list_ascii_app (a b : string) :
  String.list_ascii_of_string (a ++ b) = String.list_ascii_of_string a ++ String.list_ascii_of_string b.
Proof. induction a as [|c a IH]; [done|]. simpl. by rewrite IH. Qed.

Lemma list_ascii_inj (a b : string) :
  String.list_ascii_of_string a = String.list_ascii_of_string b -> a = b.
Proof.
  intros He. rewrite <-(String.string_of_list_ascii_of_string a), He.
  apply String.string_of_list_ascii_of_string.
Qed.

(** The first and the last separator cut a list in one way. *)
Lemma cut_first {A} (c : A) x1 y1 x2 y2 :
  c ∉ x1 -> c ∉ x2 -> x1 ++ c :: y1 = x2 ++ c :: y2 -> x1 = x2 /\ y1 = y2.
Proof.
  revert x2. induction x1 as [|a x1 IH]; intros [|b x2] H1 H2 He; simpl in He; [by simplify_eq | | |]; injection He as Hc He; subst.
  - by apply not_elem_of_cons in H2 as [[] _].
  - by apply not_elem_of_cons in H1 as [[] _].
  - apply not_elem_of_cons in H1 as [_ H1]. apply not_elem_of_cons in H2 as [_ H2].
    by destruct (IH x2 H1 H2 He) as [-> ->].
Qed.

Lemma cut_last {A} (c : A) x1 y1 x2 y2 :
  c ∉ y1 -> c ∉ y2 -> x1 ++ c :: y1 = x2 ++ c :: y2 -> x1 = x2 /\ y1 = y2.
Proof.
  intros H1 H2 He. apply (f_equal reverse) in He. rewrite !reverse_app, !reverse_cons, <-!app_assoc in He. simpl in He.
  apply cut_first in He as [Hy%(inj reverse) Hx%(inj reverse)]; rewrite ?elem_of_reverse; done.
Qed.

Lemma cut_bar_first a b a' b' :
  lacks_bar a -> lacks_bar a' -> (a ++ "|" ++ b = a' ++ "|" ++ b')%string -> a = a' /\ b = b'.
Proof.
  intros Ha Ha' He. apply (f_equal String.list_ascii_of_string) in He. rewrite !list_ascii_app in He. simpl in He.
  apply cut_first in He as [? ?]; [|done|done]. split; by apply list_ascii_inj.
Qed.

Lemma cut_bar_last a b a' b' :
  lacks_bar b -> lacks_bar b' -> (a ++ "|" ++ b = a' ++ "|" ++ b')%string -> a = a' /\ b = b'.
Proof.
  intros Hb Hb' He. apply (f_equal String.list_ascii_of_string) in He. rewrite !list_ascii_app in He. simpl in He.
  apply cut_last in He as [? ?]; [|done|done]. split; by apply list_ascii_inj.
Qed.

Lemma pretty_char_not_bar n : pretty_N_char n <> BAR.
Proof. unfold pretty_N_char. by repeat case_match. Qed.

Lemma pretty_go_lacks_bar m : forall s, lacks_bar s -> lacks_bar (pretty_N_go m s).
Proof.
  induction (N.lt_wf_0 m) as [m _ IH]. intros s Hs.
  destruct (decide (m = 0%N)) as [->|]; [by rewrite pretty_N_go_0|].
  rewrite pretty_N_go_step by lia. apply IH; [apply N.div_lt; lia|].
  unfold lacks_bar in *. simpl. apply not_elem_of_cons. split; [|done].
  intros He. by eapply pretty_char_not_bar.
Qed.

Lemma pretty_N_lacks_bar (n : N) : lacks_bar (pretty n).
Proof.
  unfold pretty, pretty_N. destruct (decide (n = 0%N)).
  - unfold lacks_bar. simpl. apply not_elem_of_cons. split; [done | apply not_elem_of_nil].
  - apply pretty_go_lacks_bar. apply not_elem_of_nil.
Qed.

(** ** Binding *)

(** Identifiers print without a bar, and differently. *)
Class UuidTextLaws `{UuidLib} : Prop := {
  uuid_text_inj u v : uuid_to_string u = uuid_to_string v -> u = v;
  uuid_text_lacks_bar u : lacks_bar (uuid_to_string u)
}.

Section Binding.
Context `{UuidTextLaws} `{HandoffLaws}.

(** The associated data determines its fields. *)
Lemma associated_data_inj v v' id sb t g d id' sb' t' g' d' :
  lacks_bar v -> lacks_bar v' -> lacks_bar d -> lacks_bar d' -> (0 <= g)%Z -> (0 <= g')%Z ->
  associated_data_of v id sb t g d = associated_data_of v' id' sb' t' g' d' ->
  v = v' /\ id = id' /\ sb = sb' /\ t = t' /\ g = g' /\ d = d'.
Proof.
  intros Hv Hv' Hd Hd' Hg Hg' He. unfold associated_data_of in He.
  apply (f_equal String.list_ascii_of_string) in He. rewrite !list_ascii_app in He. apply app_inv_head in He.
  rewrite <-!list_ascii_app in He. apply list_ascii_inj in He.
  apply cut_bar_first in He as [-> He]; [|done|done].
  apply cut_bar_first in He as [Hid He]; [|apply uuid_text_lacks_bar|apply uuid_text_lacks_bar].
  apply cut_bar_first in He as [Hsb He]; [|apply uuid_text_lacks_bar|apply uuid_text_lacks_bar].
  assert (Hre : forall a b c : string, (a ++ "|" ++ b ++ "|" ++ c = (a ++ "|" ++ b) ++ "|" ++ c)%string)
    by (intros; by rewrite !string_append_assoc).
  rewrite !Hre in He. apply cut_bar_last in He as [He ->]; [|done|done]. apply cut_bar_last in He as [-> Hg2]; [|apply pretty_N_lacks_bar|apply pretty_N_lacks_bar].
  apply uuid_text_inj in Hid, Hsb. apply (inj pretty) in Hg2. split_and!; try done. lia.
Qed.

Lemma digest_lacks b : lacks_bar (content_digest b).
Proof. apply digest_lacks_bar. Qed.

(** A bootstrap as [put_resident_process] builds it. *)
Record sealable (b : LiveResidentBootstrap) : Prop := {
  sl_digest : lb_sha256 b = content_digest (lb_content b);
  sl_generation : (0 <= lb_generation b <= i64_max)%Z;
  sl_mode : in_u32 (lb_mode b) = true
}.

Lemma sealed_row_inv h nonce id sandbox b now row :
  sealed_row h nonce id sandbox b now = Some row ->
  exists plain c, payload_to_vec (mkSealedPayload (lb_content b) (lb_sterile_activation b)) = Some plain /\
    aead_encrypt (handoff_key h) nonce plain (associated_data id sandbox b) = Some c /\
    row = mkHandoffRow sandbox (lb_tenant_id b) (u64_as_i64 (lb_generation b)) (lb_sha256 b)
            (Z.of_nat (length (lb_content b))) (lb_target_file b) (lb_mode b) (key_id (handoff_key h))
            (base64_encode nonce) (base64_encode c) now (now + handoff_ttl h).
Proof.
  unfold sealed_row. intros (plain & Hp & (c & Hc & [= <-])%bind_Some)%bind_Some. by exists plain, c.
Qed.

Lemma u64_as_i64_small n : (n <= i64_max)%Z -> u64_as_i64 n = n.
Proof. intros Hn. unfold u64_as_i64. apply Z.leb_le in Hn. by rewrite Hn. Qed.

(** C11. What was published is recovered.  A process with the key that reads the
    row before it expires, while the resident's fence still holds, gets the
    bootstrap that was sealed: its bytes, target, mode, generation, digest and
    activation. *)
Theorem published_bootstrap_is_recovered h nonce id sandbox b now row db t t' :
  length nonce = NONCE_BYTES -> sealable b ->
  sealed_row h nonce id sandbox b now = Some row ->
  resident_bootstrap_handoffs (world db) !! id = Some row ->
  (t < now + handoff_ttl h)%Z ->
  activation_matches_durable_fence db id sandbox (lb_sterile_activation b) t' = true ->
  load h db id sandbox t t' = Some b.
Proof.
  intros Hn [Hd Hg Hm] Hrow Hl Ht Ha. apply sealed_row_inv in Hrow as (plain & c & Hp & Hc & ->).
  unfold load. rewrite Hl. cbn [mbind option_bind hf_sandbox_id hf_key_id hf_expires_at hf_mode hf_generation hf_nonce
    hf_ciphertext hf_byte_count hf_sha256].
  rewrite bool_decide_eq_true_2, String.eqb_refl by done.
  destruct (Z.leb_spec (now + handoff_ttl h) t); [lia|]. simpl negb. cbn [orb].
  rewrite Hm, u64_as_i64_small by lia. destruct (Z.ltb_spec (lb_generation b) 0); [lia|]. cbn [negb orb].
  rewrite (base64_round_trip nonce). simpl mbind. rewrite Hn, Nat.eqb_refl. cbn [negb].
  rewrite (base64_round_trip c). cbn [mbind option_bind].
  unfold open_payload, bootstrap_shell, associated_data in *. simpl in *. rewrite ?u64_as_i64_small by lia.
  rewrite (aead_opens _ _ _ _ _ Hc), (payload_round_trip _ _ Hp). simpl.
  rewrite Z.eqb_refl, <-Hd, String.eqb_refl, Ha. simpl. by destruct b.
Qed.

(** C14. A seal is bound to one resident: wherever a ciphertext is stored and
    whatever the columns beside it say, opening it yields a bootstrap only
    for the process, the sandbox, the tenant, the generation and the digest it
    was sealed for, and then its own bytes. *)
Theorem sealed_bootstrap_is_bound h nonce id sandbox b now row db id' sandbox' b' row' t t' :
  sealable b -> sealed_row h nonce id sandbox b now = Some row ->
  resident_bootstrap_handoffs (world db) !! id' = Some row' -> hf_ciphertext row' = hf_ciphertext row ->
  load h db id' sandbox' t t' = Some b' ->
  id' = id /\ sandbox' = sandbox /\ lb_tenant_id b' = lb_tenant_id b /\
  lb_generation b' = lb_generation b /\ lb_sha256 b' = lb_sha256 b /\ lb_content b' = lb_content b /\
  lb_sterile_activation b' = lb_sterile_activation b.
Proof.
  intros [Hd Hg Hm] Hrow Hl Hct Hload. apply sealed_row_inv in Hrow as (plain & c & Hp & Hc & ->). simpl in Hct.
  unfold load in Hload. rewrite Hl in Hload. cbn [mbind option_bind] in Hload.
  destruct (_ || _ || _) eqn:E1; [done|]. destruct (negb (in_u32 _) || _) eqn:E2; [done|].
  apply orb_false_iff in E2 as [_ Hg']. apply Z.ltb_ge in Hg'.
  apply bind_Some in Hload as (n' & _ & Hload). destruct (negb (_ =? _)%nat); [done|].
  apply bind_Some in Hload as (c' & Hc' & Hload). rewrite Hct, base64_round_trip in Hc'. injection Hc' as <-.
  apply bind_Some in Hload as (p & Ho & Hload).
  match type of Hload with (if ?c then _ else _) = _ => destruct c eqn:E3 end; [done|]. apply orb_false_iff in E3 as [_ E3%negb_false_iff%String.eqb_eq].
  match type of Hload with (if ?c then _ else _) = _ => destruct c end; [done|]. injection Hload as <-. simpl.
  assert (Hds : lacks_bar (hf_sha256 row')) by (rewrite <-E3; apply digest_lacks).
  assert (Hdb : lacks_bar (lb_sha256 b)) by (rewrite Hd; apply digest_lacks).
  assert (Hv2 : lacks_bar "v2") by (vm_compute; set_solver). assert (Hv1 : lacks_bar "v1") by (vm_compute; set_solver).
  unfold open_payload in Ho. destruct (aead_decrypt _ n' c (associated_data _ _ _)) as [m|] eqn:Ed.
  - destruct (aead_binds _ _ _ _ _ _ _ _ Hc Ed) as [Haad ->]. rewrite (payload_round_trip _ _ Hp) in Ho.
    injection Ho as <-. unfold associated_data, bootstrap_shell in Haad. simpl in Haad.
    apply associated_data_inj in Haad as (_ & -> & -> & -> & -> & ->); try done; lia.
  - apply bind_Some in Ho as (m & Hdec & _). destruct (aead_binds _ _ _ _ _ _ _ _ Hc Hdec) as [Haad _].
    unfold associated_data, legacy_associated_data, bootstrap_shell in Haad. simpl in Haad.
    apply associated_data_inj in Haad as (? & _); try done; lia.
Qed.
End Binding.
