(* ===== verification/ResidentProcesses.v ===== *)
(** * Resident processes: the handlers

    [sandboxwich-api/src/handlers/resident_processes.rs].  A resident process
    is a long-running workload of a sandbox with a desired and an observed
    state and a generation.  Its bootstrap credential is held in memory
    ([BootstrapStore]) and, sealed, in a shared table ([BootstrapHandoff]); it
    is read once under a fence; the executor's credential is withheld until the
    sandbox's sidecar runs under a live lease; a process of a sterile cell is
    admitted under the cell's lease, once.

    A handler is written with one definition per statement or transaction, so
    that the steps of other requests can come between them
    ([ResidentProofs]). *)

From S2P Require Import Prelude BootstrapStore CoreTypes LifecycleContract Json Store Leases SandboxLifecycle World.
From S2P Require Import CommandOutput Authz Scopes Claim SterilePool PoolController SterileCells Effects.
From S2P Require Import ResidentContract ResidentAttestations BootstrapHandoff.
From stdpp Require Import pretty.

(** ** State and settings *)

(** The tables and this process's bootstraps. *)
Record ResidentState : Type := mkResidentState {
  rst_db : Db World;
  rst_store : Inner
}.

Record ResidentSettings : Type := mkResidentSettings {
  sterile_resident_activation_enabled : bool;
  placement_attestation_derivation_key : option string;
  shared_handoff : option SharedBootstrapHandoff
}.

Definition service_unavailable (code message : string) : ApiError :=
  mkApiError SERVICE_UNAVAILABLE code message None.
Definition gone (message : string) : ApiError :=
  mkApiError GONE "resident_bootstrap_unavailable" message None.
Definition generation_conflict (message : string) : ApiError :=
  conflict_code "resident_process_generation_conflict" message.
Definition bootstrap_fence_mismatch (message : string) : ApiError :=
  conflict_code "resident_bootstrap_fence_mismatch" message.

(** ** Sterile activation *)

Definition set_activated (process_id : Uuid) (generation : Z) (c : SterileCellRow) : SterileCellRow :=
  mkSterileCellRow (cell_worker_id c) (cell_provider_cell_id c) (cell_state c) (cell_generation c)
    (cell_release c) (cell_tenant_id c) (cell_organization_id c) (cell_workspace_id c)
    (cell_thread_id c) (cell_runner_session_id c) (cell_lease_id c)
    (cell_lease_attestation_sha256 c) (cell_lease_expires_at c) (cell_expires_at c)
    (cell_disposition c) (cell_ever_tenant_exposed c) (cell_created_at c) (cell_leased_at c)
    (cell_destroyed_at c) (cell_updated_at c) (Some process_id) (Some generation).

(** [exists (select 1 from sterile_pool_memberships p where ..)]. *)
Definition member_backs_cell (w : World) (id : Uuid) (c : SterileCellRow) : bool :=
  match sterile_pool_memberships w !! id with
  | Some p =>
      bool_decide (Some (mb_tenant_id p) = cell_tenant_id c) && member_is MemberLeased p
      && is_some (mb_lease_id p) && bool_decide (mb_lease_id p = cell_lease_id c)
      && bool_decide (mb_generation p = Some (cell_generation c))
      && bool_decide (mb_release p = cell_release c)
  | None => false
  end.

Section Residents.
Context `{UuidLib} `{SerdeLib} `{CellLib} `{AttestationLib} `{HandoffLib} `{Base64UrlLib}.

(** The lease columns both statements compare. *)
Definition activation_matches (w : World) (now : Z) (tenant : string) (sandbox_id : Uuid)
    (generation : Z) (a : SterileResidentActivationV1) (c : SterileCellRow) : bool :=
  bool_decide (cell_tenant_id c = Some tenant) && cell_is SterileCellState.Leased c
  && bool_decide (cell_lease_id c = Some (sa_lease_id a)) && (cell_generation c =? generation)%Z
  && bool_decide (cell_organization_id c = Some (sa_organization_id a))
  && bool_decide (cell_workspace_id c = Some (sa_workspace_id a))
  && bool_decide (cell_thread_id c = Some (sa_thread_id a))
  && bool_decide (cell_runner_session_id c = Some (sa_runner_session_id a))
  && bool_decide (cell_lease_attestation_sha256 c = Some (hash_attestation (sa_lease_attestation a)))
  && match cell_lease_expires_at c with Some t => (now <? t)%Z | None => false end
  && member_backs_cell w sandbox_id c.

Definition resident_i64 (resident_generation : Z) : result Z ApiError :=
  match try_i64 resident_generation with
  | Some r => Ok r
  | None => Err (internal "resident generation exceeds database range")
  end.

Definition activation_i64 (a : SterileResidentActivationV1) : result Z ApiError :=
  match try_i64 (sa_generation a) with
  | Some g => Ok g
  | None => Err (bad_request "sterile activation generation exceeds database range")
  end.

Definition activation_invalid (message : string) : ApiError :=
  conflict_code "sterile_resident_activation_invalid" message.

(** The unique index on [activated_resident_process_id]. *)
Definition activated_elsewhere (sandbox_id process_id : Uuid) (db : Db World) : bool :=
  existsb (fun kc => negb (bool_decide (kc.1 = sandbox_id))
                     && bool_decide (cell_activated_resident_process_id kc.2 = Some process_id))
    (map_to_list (sterile_cells db)).

(** A cell is activated once: the statement requires that it is not yet. *)
Definition fence_sterile_resident_activation_on_connection (rt : Runtime) (tenant : string)
    (sandbox_id process_id : Uuid) (resident_generation : Z) (a : SterileResidentActivationV1) :
    Tx World unit :=
  let! r := tx_lift (resident_i64 resident_generation) in
  let! g := tx_lift (activation_i64 a) in
  let! w := get_world in
  let! matched := update_cell sandbox_id
    (fun c => activation_matches w (utc_now rt) tenant sandbox_id g a c
              && is_none (cell_activated_resident_process_id c)
              && is_none (cell_activated_resident_generation c))
    (set_activated process_id r) in
  check! matched else activation_invalid
    "sterile resident activation does not match one exact live leased cell" in
  let! db := tx_get in
  check! negb (activated_elsewhere sandbox_id process_id db)
    else api_error_of_db_error UniqueViolation in
  tx_ret tt.

Definition validate_sterile_resident_activation_replay (now : Z) (db : Db World) (tenant : string)
    (sandbox_id process_id : Uuid) (resident_generation : Z) (a : SterileResidentActivationV1) :
    result unit ApiError :=
  let? g := activation_i64 a in
  let? r := resident_i64 resident_generation in
  if match sterile_cells db !! sandbox_id with
     | Some c => activation_matches (world db) now tenant sandbox_id g a c
                 && bool_decide (cell_activated_resident_process_id c = Some process_id)
                 && bool_decide (cell_activated_resident_generation c = Some r)
     | None => false
     end
  then Ok tt
  else Err (activation_invalid "sterile resident activation does not match the bound live leased cell").

(** [fetch_exact_leased_pool_sandbox] of [sterile_pool.rs]. *)
Definition fetch_exact_leased_pool_sandbox (db : Db World) (tenant : string) (sandbox_id lease_id : Uuid)
    (generation : Z) : result Sandbox ApiError :=
  let? g := i64_generation generation in
  if match sterile_pool_memberships (world db) !! sandbox_id with
     | Some m => String.eqb (mb_tenant_id m) tenant && member_is MemberLeased m
                 && bool_decide (mb_lease_id m = Some lease_id) && bool_decide (mb_generation m = Some g)
     | None => false
     end
  then fetch_sandbox (world db) sandbox_id
  else Err (not_found "resource not found").

(** ** Reading rows *)

Definition all_in (range : Z -> bool) (o : option Z) : bool :=
  match o with Some n => range n | None => true end.

Definition in_i32 (n : Z) : bool := ((- 2 ^ 31 <=? n) && (n <? 2 ^ 31))%Z.

(** [row_to_resident_process]: the numeric columns are re-checked. *)
Definition row_to_resident_process (r : ResidentRow) : result ResidentRow ApiError :=
  if negb (all_in (Z.leb 0) (rsp_bootstrap_byte_count (rp_spec r)))
  then Err (internal "database contains invalid bootstrap byte count")
  else if negb (all_in in_u32 (rsp_bootstrap_mode (rp_spec r)))
  then Err (internal "database contains invalid bootstrap mode")
  else if negb (all_in (Z.leb 0) (rp_sterile_lease_generation r))
  then Err (internal "database contains invalid sterile lease generation")
  else if negb (0 <=? rp_generation r)%Z
  then Err (internal "database contains invalid resident generation")
  else if negb (all_in in_u32 (rp_pid r)) then Err (internal "database contains invalid resident pid")
  else if negb (all_in in_i32 (rp_exit_code r))
  then Err (internal "database contains invalid resident exit code")
  else Ok r.

Definition is_named (sandbox_id : Uuid) (name : string) (kr : Uuid * ResidentRow) : bool :=
  bool_decide (rp_sandbox_id kr.2 = sandbox_id) && String.eqb (rp_name kr.2) name.

(** The row under the unique key (sandbox, name). *)
Definition find_named (db : Db World) (sandbox_id : Uuid) (name : string) : option (Uuid * ResidentRow) :=
  find (is_named sandbox_id name) (map_to_list (resident_processes db)).

Definition fetch_named_resident_process (db : Db World) (sandbox_id : Uuid) (name : string) :
    result (Uuid * ResidentRow) ApiError :=
  match find_named db sandbox_id name with
  | None => Err (not_found "resident process not found")
  | Some (id, r) => let? r := row_to_resident_process r in Ok (id, r)
  end.

Definition fetch_resident_process_by_id (db : Db World) (id : Uuid) : result ResidentRow ApiError :=
  match resident_processes db !! id with
  | None => Err (not_found "resident process not found")
  | Some r => row_to_resident_process r
  end.

Definition provider_isolation_version (db : Db World) (id : Uuid) : result Z ApiError :=
  match resident_processes db !! id with
  | None => Err row_not_found
  | Some r =>
      match try_u32 (rp_provider_isolation_version r) with
      | Some v => Ok v
      | None => Err (internal "database contains invalid provider isolation version")
      end
  end.

Definition ensure_resident_owner_role (process : ResidentRow) (ctx : TenantContext) : result unit ApiError :=
  let owns :=
    match ctx_principal ctx with
    | PrincipalWorker _ => is_provider_isolated_name (rp_name process)
    | PrincipalGuest _ sandbox_id =>
        bool_decide (sandbox_id = rp_sandbox_id process)
        && (String.eqb (rp_name process) ORB_EXECUTOR_RESIDENT_PROCESS_NAME
            || String.eqb (rp_name process) MAESTRO_HOSTED_RUNNER_RESIDENT_PROCESS_NAME
               && bool_decide (rp_sterile_cell_id process = Some sandbox_id))
    | _ => false
    end in
  if owns then Ok tt
  else Err (unauthorized "resident process credential does not own this process role").

Definition delivered_bootstrap_fence (db : Db World) (id : Uuid) :
    result (option ResidentBootstrapFence) ApiError :=
  match resident_processes db !! id with
  | None => Ok None
  | Some r =>
      match rp_bootstrap_delivered_generation r, rp_bootstrap_delivered_lease_id r,
            rp_bootstrap_delivered_sha256 r with
      | Some generation, Some lease_id, Some sha256 =>
          if (generation <? 0)%Z
          then Err (internal "database contains invalid delivered bootstrap generation")
          else Ok (Some {| bf_generation := generation; bf_lease_id := lease_id; bf_sha256 := sha256 |})
      | None, None, None => Ok None
      | _, _, _ => Err (internal "database contains incomplete delivered bootstrap fence")
      end
  end.

(** ** The sidecar gate *)

Inductive SidecarBootstrapBlockReason : Type := NotRunning | NoActiveLease | InactiveLease | ExpiredLease.

Definition block_reason_str (r : SidecarBootstrapBlockReason) : string :=
  match r with
  | NotRunning => "not_running"
  | NoActiveLease => "no_active_lease"
  | InactiveLease => "inactive_lease"
  | ExpiredLease => "expired_lease"
  end.

(** The event and the durable counter of a refusal, both or neither. *)
Definition record_block (rt : Runtime) (sidecar : ResidentRow) (reason : SidecarBootstrapBlockReason) :
    Tx World unit :=
  let! _ := insert_event_on_connection rt 0 (rp_sandbox_id sidecar) SandboxEventKind.LifecycleChanged
    (JObject [("eventType", JString "sidecar_bootstrap_blocked");
              ("reason", JString (block_reason_str reason));
              ("processName", JString ORB_SIDECAR_RESIDENT_PROCESS_NAME);
              ("generation", JNumber (PosInt (rp_generation sidecar)))]) in
  let key := (rp_tenant_id sidecar, block_reason_str reason) in
  modify_world (fun w => set_sidecar_bootstrap_block_rollups
    (<[key := (default 0 (sidecar_bootstrap_block_rollups w !! key) + 1)%Z]>
       (sidecar_bootstrap_block_rollups w)) w).

(** The refusal is answered whether or not its telemetry could be stored. *)
Definition block_executor_bootstrap (rt : Runtime) (sidecar : ResidentRow)
    (reason : SidecarBootstrapBlockReason) (message : string) (db : Db World) :
    result unit ApiError * Db World :=
  (Err (service_unavailable "resident_sidecar_unavailable" message),
   (run_tx (record_block rt sidecar reason) db).2).

(** Why the sidecar's lease does not back it. *)
Definition lease_block_reason (now : Z) (db : Db World) (lease_id : Uuid) : option SidecarBootstrapBlockReason :=
  match job_leases db !! lease_id with
  | None => Some InactiveLease
  | Some l =>
      if negb (is_active l) then Some InactiveLease
      else if (lr_expires_at l <=? now)%Z then Some ExpiredLease
      else None
  end.

(** [{:?}] of an observed state. *)
Definition observed_debug (s : ResidentProcessObservedState) : string :=
  match s with
  | ResidentProcessObservedState.Pending => "Pending"
  | ResidentProcessObservedState.Starting => "Starting"
  | ResidentProcessObservedState.Running => "Running"
  | ResidentProcessObservedState.Stopped => "Stopped"
  | ResidentProcessObservedState.Failed => "Failed"
  | ResidentProcessObservedState.Lost => "Lost"
  end.

Definition block_message (sandbox_id : Uuid) (what : string) : string :=
  ("sandbox " ++ uuid_to_string sandbox_id ++ " " ++ what
   ++ "; refusing to hand out the orb-executor bootstrap credential")%string.

Definition ensure_sidecar_ready_if_required (rt : Runtime) (sandbox_id : Uuid) (tenant name : string)
    (db : Db World) : result unit ApiError * Db World :=
  if negb (String.eqb name ORB_EXECUTOR_RESIDENT_PROCESS_NAME) then (Ok tt, db)
  else
    match fetch_named_resident_process db sandbox_id ORB_SIDECAR_RESIDENT_PROCESS_NAME with
    | Err e => if bool_decide (err_status e = NOT_FOUND) then (Ok tt, db) else (Err e, db)
    | Ok (id, sidecar) =>
        if negb (String.eqb (rp_tenant_id sidecar) tenant) then (Ok tt, db)
        else
          let block := block_executor_bootstrap rt sidecar in
          match provider_isolation_version db id with
          | Err e => (Err e, db)
          | Ok version =>
              if negb (supported_provider_isolation_version version)
              then block NotRunning (block_message sandbox_id "has an orb-sidecar resident process that was not admitted under a supported provider-isolation contract") db
              else if negb (bool_decide (rp_desired_state sidecar = ResidentProcessDesiredState.Running))
              then block NotRunning (block_message sandbox_id "requires an orb-sidecar resident process but it no longer desires Running") db
              else if negb (bool_decide (rp_observed_state sidecar = ResidentProcessObservedState.Running))
              then block NotRunning (block_message sandbox_id ("requires an orb-sidecar resident process but it is "
                       ++ observed_debug (rp_observed_state sidecar) ++ ", not running")) db
              else
                match rp_active_lease_id sidecar with
                | None => block NoActiveLease (block_message sandbox_id "requires an orb-sidecar resident process but its running observation has no active lease") db
                | Some lease_id =>
                    match lease_block_reason (utc_now rt) db lease_id with
                    | Some reason => block reason (block_message sandbox_id "requires an orb-sidecar resident process but its running observation is not backed by a live lease") db
                    | None => (Ok tt, db)
                    end
                end
          end
    end.

(** ** Delivering a bootstrap *)

Definition is_sidecar_of (sandbox_id : Uuid) (tenant : string) (r : ResidentRow) : bool :=
  bool_decide (rp_sandbox_id r = sandbox_id) && String.eqb (rp_tenant_id r) tenant
  && String.eqb (rp_name r) ORB_SIDECAR_RESIDENT_PROCESS_NAME.

(** A configured sidecar that runs under a live lease. *)
Definition is_ready_sidecar (now : Z) (db : Db World) (sandbox_id : Uuid) (tenant : string) (r : ResidentRow) :
    bool :=
  is_sidecar_of sandbox_id tenant r
  && supported_provider_isolation_version (rp_provider_isolation_version r)
  && bool_decide (rp_desired_state r = ResidentProcessDesiredState.Running)
  && bool_decide (rp_observed_state r = ResidentProcessObservedState.Running)
  && match rp_active_lease_id r ≫= (fun l => job_leases db !! l) with
     | Some l => is_active l && (now <? lr_expires_at l)%Z
     | None => false
     end.

(** The gate as the consume statement evaluates it. *)
Definition sidecar_clause (now : Z) (db : Db World) (sandbox_id : Uuid) (tenant name : string) : bool :=
  let rows := map_to_list (resident_processes db) in
  negb (String.eqb name ORB_EXECUTOR_RESIDENT_PROCESS_NAME)
  || negb (existsb (fun kr => is_sidecar_of sandbox_id tenant kr.2) rows)
  || existsb (fun kr => is_ready_sidecar now db sandbox_id tenant kr.2) rows.

Definition delivered_under (f : ResidentBootstrapFence) (r : ResidentRow) : bool :=
  bool_decide (rp_bootstrap_delivered_generation r = Some (u64_as_i64 (bf_generation f)))
  && bool_decide (rp_bootstrap_delivered_lease_id r = Some (bf_lease_id f))
  && bool_decide (rp_bootstrap_delivered_sha256 r = Some (bf_sha256 f)).

(** The fence of the row itself. *)
Definition row_fence_matches (f : ResidentBootstrapFence) (r : ResidentRow) : bool :=
  (rp_generation r =? u64_as_i64 (bf_generation f))%Z
  && bool_decide (rp_active_lease_id r = Some (bf_lease_id f))
  && bool_decide (rp_bootstrap_sha256 r = Some (bf_sha256 f)).

Definition may_consume (now : Z) (db : Db World) (tenant : string) (sandbox_id : Uuid)
    (f : ResidentBootstrapFence) (r : ResidentRow) : bool :=
  String.eqb (rp_tenant_id r) tenant && bool_decide (rp_sandbox_id r = sandbox_id)
  && row_fence_matches f r && is_none (rp_bootstrap_acknowledged_at r)
  && (is_none (rp_bootstrap_consumed_at r) || delivered_under f r)
  && sidecar_clause now db (rp_sandbox_id r) (rp_tenant_id r) (rp_name r).

(** [bootstrap_consumed_at = coalesce(.., now)] and the delivered fence. *)
Definition resident_set_consumed (f : ResidentBootstrapFence) (now : Z) (r : ResidentRow) : ResidentRow :=
  mkResidentRow (rp_sandbox_id r) (rp_tenant_id r) (rp_name r) (rp_generation r) (rp_desired_state r)
    (rp_observed_state r) (rp_active_lease_id r) (rp_pid r) (rp_exited_at r) (rp_exit_code r)
    (rp_last_error_class r) (rp_last_error_code r) (rp_last_error r) (rp_provider_pod_name r)
    (rp_provider_pod_uid r) (rp_updated_at r) (rp_bootstrap_sha256 r)
    (Some (u64_as_i64 (bf_generation f))) (Some (bf_lease_id f)) (Some (bf_sha256 f))
    (rp_bootstrap_acknowledged_at r) (rp_sterile_cell_id r) (rp_sterile_lease_id r)
    (rp_sterile_lease_generation r) (rp_provider_isolation_version r) (rp_spec r)
    (Some (default now (rp_bootstrap_consumed_at r))) (rp_started_at r) (rp_ready_at r) (rp_created_at r).

Definition consume_bootstrap (now : Z) (tenant : string) (sandbox_id id : Uuid) (f : ResidentBootstrapFence) :
    Tx World bool :=
  let! db := tx_get in
  update_resident id (may_consume now db tenant sandbox_id f) (resident_set_consumed f now).

Record ResidentProcessBootstrapReadRequest : Type := mkReadRequest {
  rr_generation : Z;
  rr_lease_id : Uuid;
  rr_expected_sha256 : string
}.

Definition read_fence (q : ResidentProcessBootstrapReadRequest) : ResidentBootstrapFence :=
  {| bf_generation := rr_generation q; bf_lease_id := rr_lease_id q; bf_sha256 := rr_expected_sha256 q |}.

Definition delivery_error (e : ResidentBootstrapDeliveryError) : ApiError :=
  match e with
  | Unavailable => gone "resident bootstrap is unavailable or already acknowledged"
  | DeliveryInFlight =>
      conflict_code "resident_bootstrap_delivery_in_flight" "resident bootstrap delivery is already in flight"
  | FenceMismatch => bootstrap_fence_mismatch "resident bootstrap was delivered under a different lease fence"
  end.

(** [begin_bootstrap_delivery]: the store, then the shared tier. *)
Definition begin_bootstrap_delivery (now : Z) (settings : ResidentSettings) (id : Uuid) (process : ResidentRow)
    (f : ResidentBootstrapFence) (st : ResidentState) :
    result ResidentBootstrapDelivery ApiError * ResidentState :=
  let '(store, started) := begin_delivery (rst_store st) id f in
  let st := mkResidentState (rst_db st) store in
  match started with
  | Ok d => (Ok d, st)
  | Err Unavailable =>
      match shared_handoff settings ≫= (fun h => load h (rst_db st) id (rp_sandbox_id process) now now) with
      | None => (Err (delivery_error Unavailable), st)
      | Some b =>
          match delivered_bootstrap_fence (rst_db st) id with
          | Err e => (Err e, st)
          | Ok delivered =>
              match rehydrate store id b delivered with
              | Err _ => (Err (service_unavailable "resident_bootstrap_capacity"
                                 "resident bootstrap capacity is exhausted"), st)
              | Ok store' =>
                  let '(store'', again) := begin_delivery store' id f in
                  let st := mkResidentState (rst_db st) store'' in
                  match again with Ok d => (Ok d, st) | Err e => (Err (delivery_error e), st) end
              end
          end
      end
  | Err e => (Err (delivery_error e), st)
  end.

(** Why the consume statement matched no row. *)
Definition refuse_read (rt : Runtime) (q : ResidentProcessBootstrapReadRequest) (id : Uuid)
    (sandbox_id : Uuid) (db : Db World) : ApiError * Db World :=
  match resident_processes db !! id with
  | None => (not_found "resident process not found", db)
  | Some row =>
      if is_some (rp_bootstrap_acknowledged_at row)
      then (gone "resident bootstrap is unavailable or already acknowledged", db)
      else
        match row_to_resident_process row with
        | Err e => (e, db)
        | Ok current =>
            if negb (rp_generation current =? rr_generation q)%Z
               || negb (bool_decide (rp_active_lease_id current = Some (rr_lease_id q)))
               || negb (bool_decide (rp_bootstrap_sha256 current = Some (rr_expected_sha256 q)))
            then (bootstrap_fence_mismatch "resident bootstrap request does not match the active lease", db)
            else if is_some (rp_bootstrap_delivered_generation row) && negb (delivered_under (read_fence q) row)
            then (bootstrap_fence_mismatch "resident bootstrap was delivered under a different lease fence", db)
            else
              match ensure_sidecar_ready_if_required rt sandbox_id (rp_tenant_id current) (rp_name current) db with
              | (Err e, db') => (e, db')
              | (Ok _, db') => (gone "resident bootstrap is unavailable or already consumed", db')
              end
        end
  end.

(** The checks before a delivery starts. *)
Definition read_checks (now : Z) (ctx : TenantContext) (id : Uuid) (q : ResidentProcessBootstrapReadRequest)
    (db : Db World) : result ResidentRow ApiError :=
  let? process := fetch_resident_process_by_id db id in
  if negb (String.eqb (rp_tenant_id process) (ctx_tenant_id ctx))
  then Err (not_found "resident process not found")
  else
    let? _ := ensure_resident_owner_role process ctx in
    let? _ := ensure_resident_lease_scope db now id process (rr_lease_id q) ctx in
    Ok process.

(** A sidecar admitted under provider isolation v2 gets a placement
    attestation with its bootstrap. *)
Definition needs_attestation (db : Db World) (id : Uuid) (process : ResidentRow) : result bool ApiError :=
  if String.eqb (rp_name process) ORB_SIDECAR_RESIDENT_PROCESS_NAME
  then let? v := provider_isolation_version db id in Ok (v =? PROVIDER_ISOLATED_RESIDENT_PROCESS_VERSION)%Z
  else Ok false.

Definition attestation_outcome (rt : Runtime) (settings : ResidentSettings) (ctx : TenantContext) (id : Uuid)
    (process : ResidentRow) (q : ResidentProcessBootstrapReadRequest) (db : Db World) :
    result (option string) ApiError * Db World :=
  match needs_attestation db id process with
  | Err e => (Err e, db)
  | Ok true =>
      issue_resident_placement_attestation rt (placement_attestation_derivation_key settings)
        (ctx_tenant_id ctx) (rp_sandbox_id process) id (rr_generation q) (rr_lease_id q) db
  | Ok false => (Ok None, db)
  end.

(** Leaving the handler drops the delivery. *)
Definition abandon (st : ResidentState) (db : Db World) (d : ResidentBootstrapDelivery) : ResidentState :=
  mkResidentState db (drop_delivery (rst_store st) d).

Definition fence_of_delivery_differs (q : ResidentProcessBootstrapReadRequest) (d : ResidentBootstrapDelivery) :
    bool :=
  match del_bootstrap d with
  | Some b => negb (lb_generation b =? rr_generation q)%Z || negb (String.eqb (lb_sha256 b) (rr_expected_sha256 q))
  | None => true
  end.

Definition read_resident_process_bootstrap (rt : Runtime) (settings : ResidentSettings) (ctx : TenantContext) (id : Uuid)
    (q : ResidentProcessBootstrapReadRequest) (st : ResidentState) :
    result (LiveResidentBootstrap * option string) ApiError * ResidentState :=
  let now := utc_now rt in
  match read_checks now ctx id q (rst_db st) with
  | Err e => (Err e, st)
  | Ok process =>
      match begin_bootstrap_delivery now settings id process (read_fence q) st with
      | (Err e, st) => (Err e, st)
      | (Ok d, st) =>
          if fence_of_delivery_differs q d
          then (Err (bootstrap_fence_mismatch "resident bootstrap cache does not match the active generation"),
                abandon st (rst_db st) d)
          else
            match run_tx (consume_bootstrap now (ctx_tenant_id ctx) (rp_sandbox_id process) id (read_fence q))
                    (rst_db st) with
            | (Err e, db) => (Err e, abandon st db d)
            | (Ok false, db) =>
                let '(e, db) := refuse_read rt q id (rp_sandbox_id process) db in
                (Err e, abandon st db d)
            | (Ok true, db) =>
                match attestation_outcome rt settings ctx id process q db with
                | (Err e, db) => (Err e, abandon st db d)
                | (Ok attestation, db) =>
                    match mark_delivered (rst_store st) d with
                    | Some (store, Ok b) => (Ok (b, attestation), mkResidentState db store)
                    | Some (store, Err _) =>
                        (Err (gone "resident bootstrap was acknowledged while delivery was in flight"),
                         mkResidentState db store)
                    | None => (Err (internal "panic"), mkResidentState db (rst_store st))
                    end
                end
            end
      end
  end.

(** ** Admission *)

Definition MAESTRO_HOSTED_RUNNER_JOB_PRIORITY : Z := 100.

Inductive ProviderIsolatedPlacement : Type :=
| PlacementPending
| PlacementUnsupported
| PlacementSupported (generation : Z) (agent_sandbox : bool).

Definition placed_worker_supports_provider_isolated_resident_process (db : Db World) (sandbox_id : Uuid)
    (tenant name : string) : result ProviderIsolatedPlacement ApiError :=
  match sandbox_placements db !! sandbox_id with
  | None => Ok PlacementPending
  | Some p =>
      match workers db !! placement_worker_id p with
      | None => Ok PlacementPending
      | Some row =>
          let w := row_worker row in
          if negb (String.eqb (worker_tenant_id w) tenant) then Ok PlacementPending
          else
            let version_supported :=
              bool_decide (labels w !! PROVIDER_ISOLATED_RESIDENT_PROCESS_VERSION_LABEL
                           = Some PROVIDER_ISOLATED_RESIDENT_PROCESS_VERSION_LABEL_VALUE) in
            let image_label :=
              if String.eqb name MAESTRO_HOSTED_RUNNER_RESIDENT_PROCESS_NAME
              then MAESTRO_HOSTED_RUNNER_IMAGE_LABEL else PROVIDER_ISOLATED_RESIDENT_PROCESS_IMAGE_LABEL in
            let image_is_pinned :=
              match labels w !! image_label with Some image => contains_sha256 image | None => false end in
            if negb version_supported || negb image_is_pinned then Ok PlacementUnsupported
            else if (placement_generation p <=? 0)%Z
            then Err (internal "sandbox placement generation is invalid")
            else Ok (PlacementSupported (placement_generation p)
                       (String.eqb (worker_provider w) "agent_sandbox"))
      end
  end.

(** The volume that holds the workspace: the sandbox's home, when it has one. *)
Definition authoritative_workspace_claim_name (db : Db World) (sandbox_id : Uuid) : string :=
  match sandbox_home_mounts (world db) !! sandbox_id with
  | Some home_id => "sandboxwich-home-" ++ uuid_to_string home_id
  | None => "sandboxwich-pvc-" ++ uuid_to_string sandbox_id
  end.

Definition workspace_claim (db : Db World) (name : string) (sandbox : Sandbox) :
    result (option string) ApiError :=
  if String.eqb name MAESTRO_HOSTED_RUNNER_RESIDENT_PROCESS_NAME then
    match sb_workspace_mode sandbox with
    | WorkspaceMode.Persistent => Ok (Some (authoritative_workspace_claim_name db (sb_id sandbox)))
    | WorkspaceMode.GenericEphemeral => Ok None
    | _ => Err (bad_request_code "maestro_workspace_mode_invalid"
                  "maestro-hosted-runner requires workspace_mode=persistent or generic_ephemeral")
    end
  else Ok None.

Definition provider_placement (db : Db World) (name : string) (sandbox : Sandbox) : result (option Z) ApiError :=
  if negb (is_provider_isolated_name name) then Ok None
  else
    let? placement := placed_worker_supports_provider_isolated_resident_process db (sb_id sandbox)
                        (sb_tenant_id sandbox) name in
    match placement with
    | PlacementPending => Err (service_unavailable "resident_sidecar_placement_pending"
        "the resident sidecar is waiting for the sandbox to receive a worker placement")
    | PlacementUnsupported => Err (service_unavailable "resident_sidecar_worker_unsupported"
        "the resident sidecar requires its placed worker to advertise the matching digest-pinned provider-isolated v2 runtime")
    | PlacementSupported generation agent_sandbox =>
        if bool_decide (sb_workspace_mode sandbox = WorkspaceMode.GenericEphemeral) && negb agent_sandbox
        then Err (bad_request_code "maestro_generic_ephemeral_provider_mismatch"
                    "generic_ephemeral Maestro workspaces require an Agent Sandbox placement")
        else Ok (Some generation)
    end.

(** The request as it is stored: a Maestro runner gets its fixed root and the
    placement's generation. *)
Definition effective_request (name : string) (placement : option Z) (q : ResidentProcessRequest) :
    ResidentProcessRequest :=
  if String.eqb name MAESTRO_HOSTED_RUNNER_RESIDENT_PROCESS_NAME then
    mkResidentRequest (rq_argv q) (Some MAESTRO_HOSTED_RUNNER_WORKSPACE_ROOT)
      (env_insert "MAESTRO_PLACEMENT_GENERATION" (pretty (Z.to_N (default 0%Z placement)))
         (env_insert "MAESTRO_WORKSPACE_ROOT" MAESTRO_HOSTED_RUNNER_WORKSPACE_ROOT (rq_env q)))
      (rq_restart_policy q) (rq_expected_generation q) (rq_replace_terminal q) (rq_bootstrap q)
      (rq_sterile_activation q)
  else q.

Definition bootstrap_digest (q : ResidentProcessRequest) : option string :=
  match rq_bootstrap q, rq_sterile_activation q with
  | Some b, _ => Some (content_digest (rb_content b))
  | None, Some _ => Some (content_digest [])
  | None, None => None
  end.

Definition request_spec (q : ResidentProcessRequest) : ResidentSpec :=
  mkResidentSpec (rq_argv q) (rq_cwd q) (rq_env q)
    ((fun b => Z.of_nat (length (rb_content b))) <$> rq_bootstrap q) (rb_target_file <$> rq_bootstrap q)
    (rb_mode <$> rq_bootstrap q) (rq_restart_policy q).

Definition same_spec (current : ResidentRow) (q : ResidentProcessRequest) (digest : option string) : bool :=
  let s := rp_spec current in
  bool_decide (rsp_argv s = rq_argv q) && bool_decide (rsp_cwd s = rq_cwd q)
  && bool_decide (rsp_env s = rq_env q) && bool_decide (rsp_restart_policy s = rq_restart_policy q)
  && bool_decide (rp_bootstrap_sha256 current = digest)
  && bool_decide (rsp_bootstrap_target_file s = rb_target_file <$> rq_bootstrap q)
  && bool_decide (rsp_bootstrap_mode s = rb_mode <$> rq_bootstrap q)
  && bool_decide (rp_sterile_lease_id current = sa_lease_id <$> rq_sterile_activation q)
  && bool_decide (rp_sterile_lease_generation current = sa_generation <$> rq_sterile_activation q)
  && bool_decide (rp_sterile_cell_id current = (fun _ => rp_sandbox_id current) <$> rq_sterile_activation q).

Definition is_terminal_observed (s : ResidentProcessObservedState) : bool :=
  match s with
  | ResidentProcessObservedState.Failed | ResidentProcessObservedState.Stopped
  | ResidentProcessObservedState.Lost => true
  | _ => false
  end.

(** What the existing row means for the request. *)
Inductive PutAdmission : Type :=
| Replay (id : Uuid) (current : ResidentRow)
| Replace (id : Uuid) (current : ResidentRow)
| Create.

Definition is_exact_replay (q : ResidentProcessRequest) (current : ResidentRow) : bool :=
  (rq_expected_generation q =? rp_generation current)%Z
  || rq_replace_terminal q && (rq_expected_generation q <? u64_max)%Z
     && (rq_expected_generation q + 1 =? rp_generation current)%Z.

Definition admit_against (now : Z) (db : Db World) (name : string) (q : ResidentProcessRequest)
    (digest : option string) (id : Uuid) (current : ResidentRow) : result PutAdmission ApiError :=
  let? _ :=
    if is_provider_isolated_name name then
      let? v := provider_isolation_version db id in
      if supported_provider_isolation_version v then Ok tt
      else Err (conflict_code "resident_sidecar_isolation_upgrade_required"
                  "the existing orb-sidecar predates supported provider isolation and cannot be reused")
    else Ok tt in
  if same_spec current q digest && is_exact_replay q current then
    let? _ := match rq_sterile_activation q with
              | Some a => validate_sterile_resident_activation_replay now db (rp_tenant_id current)
                            (rp_sandbox_id current) id (rp_generation current) a
              | None => Ok tt
              end in
    Ok (Replay id current)
  else if negb (rq_expected_generation q =? rp_generation current)%Z
  then Err (generation_conflict "resident process generation changed")
  else if negb (rq_replace_terminal q)
  then Err (conflict_code "resident_process_spec_conflict"
              "resident process already exists with a different specification")
  else if is_some (rp_active_lease_id current) || negb (is_terminal_observed (rp_observed_state current))
  then Err (conflict_code "resident_process_replacement_not_terminal"
              "resident process replacement requires a terminal process with no active lease")
  else if is_some (rp_sterile_cell_id current) || is_some (rq_sterile_activation q)
  then Err (conflict_code "sterile_resident_replacement_unsupported"
              "sterile resident activation cannot be replaced in place")
  else Ok (Replace id current).

(** Any failure to read the row counts as its absence. *)
Definition admit_put (now : Z) (db : Db World) (sandbox_id : Uuid) (name : string)
    (q : ResidentProcessRequest) (digest : option string) : result PutAdmission ApiError :=
  match fetch_named_resident_process db sandbox_id name with
  | Ok (id, current) => admit_against now db name q digest id current
  | Err _ =>
      if rq_replace_terminal q
      then Err (conflict_code "resident_process_replacement_target_missing"
                  "terminal replacement requires an existing resident process")
      else if negb (rq_expected_generation q =? 0)%Z
      then Err (generation_conflict "new resident process requires expectedGeneration=0")
      else Ok Create
  end.
End Residents.
