(* ===== verification/ResidentHandlers.v ===== *)
(** * Resident processes: admission, stop and observation

    The handlers of [sandboxwich-api/src/handlers/resident_processes.rs] that
    write a resident process: [put_resident_process] (a new process, or the
    next generation of a terminal one, with its job, its bootstrap reservation
    and its sealed copy), [stop_resident_process] and
    [observe_resident_process].  Reading the bootstrap is in
    [ResidentProcesses]. *)

From S2P Require Import Prelude Text BootstrapStore CoreTypes LifecycleContract Json Store Leases SandboxLifecycle World.
From S2P Require Import CommandOutput Authz Scopes Claim SterilePool PoolController SterileCells Effects.
From S2P Require Import ResidentContract ResidentAttestations BootstrapHandoff ResidentProcesses.

Section ResidentHandlers.
Context `{UuidLib} `{SerdeLib} `{CellLib} `{AttestationLib} `{HandoffLib} `{Base64UrlLib}.

(** ** Admission *)

(** What the request asks for, once everything is checked. *)
Record PutPlan : Type := mkPutPlan {
  plan_id : Uuid;
  plan_generation : Z;
  plan_row : ResidentRow;
  plan_job : Job;
  plan_replaces : option Z;
  plan_bootstrap : option LiveResidentBootstrap;
  plan_activation : option SterileResidentActivationV1
}.

Inductive PutDecision : Type :=
| PutReplay (id : Uuid) (current : ResidentRow)
| PutPlanned (plan : PutPlan).

(** The row as inserted: [process] of the handler, with the columns it leaves
    null. *)
Definition new_resident_row (sandbox : Sandbox) (name : string) (q : ResidentProcessRequest)
    (digest : option string) (generation created now : Z) : ResidentRow :=
  let activation := rq_sterile_activation q in
  mkResidentRow (sb_id sandbox) (sb_tenant_id sandbox) name (u64_as_i64 generation)
    ResidentProcessDesiredState.Running ResidentProcessObservedState.Pending None None None None None None
    None None None now digest None None None None
    ((fun _ => sb_id sandbox) <$> activation) (sa_lease_id <$> activation)
    ((fun a => u64_as_i64 (sa_generation a)) <$> activation)
    (if is_provider_isolated_name name then PROVIDER_ISOLATED_RESIDENT_PROCESS_VERSION else 0%Z)
    (request_spec q) None None None created.

Definition json_text (o : option string) : Json := match o with Some s => JString s | None => JNull end.

Definition resident_payload (sandbox_id id : Uuid) (name : string) (generation : Z)
    (q : ResidentProcessRequest) (digest : option string) : list (string * Json) :=
  [("sandboxId", json_uuid sandbox_id); ("residentProcessId", json_uuid id); ("name", JString name);
   ("generation", JNumber (PosInt generation)); ("argv", JArray (JString <$> rq_argv q));
   ("cwd", json_text (rq_cwd q)); ("env", JObject ((fun kv => (kv.1, JString kv.2)) <$> rq_env q));
   ("restartPolicy", JString (as_db_str (rq_restart_policy q)));
   ("bootstrapSha256", json_text digest);
   ("operation", JObject [("kind", JString "run_resident_process"); ("resourceId", json_uuid id)])].

Definition activation_payload (sandbox_id : Uuid) (a : SterileResidentActivationV1) : Json :=
  JObject [("cellId", json_uuid sandbox_id); ("leaseId", json_uuid (sa_lease_id a));
           ("generation", JNumber (PosInt (sa_generation a)))].

(** The job's payload: the process, the activation of its cell, the sandbox's
    provision spec and the workspace volume. *)
Definition resident_job_payload (db : Db World) (sandbox : Sandbox) (id : Uuid) (name : string)
    (generation : Z) (q : ResidentProcessRequest) (digest claim : option string) : result Json ApiError :=
  let base := resident_payload (sb_id sandbox) id name generation q digest in
  let with_activation :=
    match rq_sterile_activation q with
    | Some a => object_insert "sterileActivation" (activation_payload (sb_id sandbox) a) base
    | None => base
    end in
  let? payload := add_provision_spec_to_payload sandbox (fetch_sandbox_secret_mounts (world db) (sb_id sandbox))
                    (JObject with_activation) in
  match claim, as_object payload with
  | Some volume, Some es => Ok (JObject (object_insert "workspaceClaimName" (JString volume) es))
  | _, _ => Ok payload
  end.

Definition resident_job (rt : Runtime) (sandbox : Sandbox) (name : string) (payload : Json) : Job :=
  let now := utc_now rt in
  mkJob (new_uuid rt 1) (sb_tenant_id sandbox) JobKind.RunResidentProcess JobStatus.Queued payload
    WorkerCapability.RunCommand (sb_execution_class sandbox)
    (if String.eqb name MAESTRO_HOSTED_RUNNER_RESIDENT_PROCESS_NAME then MAESTRO_HOSTED_RUNNER_JOB_PRIORITY else 0%Z)
    0 3 now now now None.

(** The bootstrap to hold; an activation without one is held with no bytes. *)
Definition live_bootstrap (tenant : string) (q : ResidentProcessRequest) (digest : option string)
    (generation : Z) : option LiveResidentBootstrap :=
  let activation := rq_sterile_activation q in
  match rq_bootstrap q, activation with
  | Some b, _ => Some {| lb_tenant_id := tenant; lb_content := rb_content b; lb_sha256 := default "" digest;
                         lb_target_file := rb_target_file b; lb_mode := rb_mode b;
                         lb_generation := generation; lb_sterile_activation := activation |}
  | None, Some a => Some {| lb_tenant_id := tenant; lb_content := []; lb_sha256 := default "" digest;
                            lb_target_file := ""; lb_mode := 0%Z;
                            lb_generation := generation; lb_sterile_activation := Some a |}
  | None, None => None
  end.

(** Identifier, generation, creation time and the generation replaced. *)
Definition next_identity (rt : Runtime) (admission : PutAdmission) : result (Uuid * Z * Z * option Z) ApiError :=
  match admission with
  | Replace id current =>
      if (u64_max <? rp_generation current + 1)%Z
      then Err (generation_conflict "resident process generation cannot advance")
      else Ok (id, (rp_generation current + 1)%Z, rp_created_at current, Some (rp_generation current))
  | _ => Ok (new_uuid rt 0, 1%Z, utc_now rt, None)
  end.

Definition plan_put (rt : Runtime) (db : Db World) (sandbox : Sandbox) (name : string)
    (q : ResidentProcessRequest) (digest claim : option string) (admission : PutAdmission) :
    result PutPlan ApiError :=
  let? (id, generation, created, replaced) := next_identity rt admission in
  let? payload := resident_job_payload db sandbox id name generation q digest claim in
  Ok (mkPutPlan id generation (new_resident_row sandbox name q digest generation created (utc_now rt))
        (resident_job rt sandbox name payload) replaced
        (live_bootstrap (sb_tenant_id sandbox) q digest generation) (rq_sterile_activation q)).

(** Everything before a slot is reserved. *)
Definition decide_put (rt : Runtime) (settings : ResidentSettings) (ctx : TenantContext) (sandbox_id : Uuid)
    (name : string) (q : ResidentProcessRequest) (db : Db World) : result PutDecision ApiError :=
  let? _ := check_request (sterile_resident_activation_enabled settings) name sandbox_id q in
  let? sandbox := match rq_sterile_activation q with
                  | Some a => fetch_exact_leased_pool_sandbox db (ctx_tenant_id ctx) sandbox_id
                                (sa_lease_id a) (sa_generation a)
                  | None => ensure_sandbox_tenant db sandbox_id ctx
                  end in
  let? claim := workspace_claim db name sandbox in
  let? placement := provider_placement db name sandbox in
  let q := effective_request name placement q in
  let digest := bootstrap_digest q in
  let? admission := admit_put (utc_now rt) db sandbox_id name q digest in
  match admission with
  | Replay id current => Ok (PutReplay id current)
  | _ => let? plan := plan_put rt db sandbox name q digest claim admission in Ok (PutPlanned plan)
  end.

(** ** The reservation *)

Definition reserve_error (e : ResidentBootstrapReserveError) : ApiError :=
  match e with
  | StaleGeneration => generation_conflict "resident process generation changed"
  | Capacity => service_unavailable "resident_bootstrap_capacity" "resident bootstrap capacity is exhausted"
  end.

(** An activation's empty bootstrap is never a replacement. *)
Definition reserve_plan (plan : PutPlan) (has_bootstrap : bool) (store : Inner) :
    result (Inner * option ResidentBootstrapReservation) ApiError :=
  match plan_bootstrap plan with
  | None => Ok (store, None)
  | Some b =>
      let reserved :=
        match plan_replaces plan with
        | Some generation => if has_bootstrap then reserve_replacement store b (plan_id plan) generation
                             else reserve store b
        | None => reserve store b
        end in
      match reserved with
      | Ok (store', r) => Ok (store', Some r)
      | Err e => Err (reserve_error e)
      end
  end.

(** ** The transaction *)

(** The next generation of a terminal process: its specification and its
    bootstrap are replaced, everything observed is cleared. *)
Definition resident_set_replaced (row r : ResidentRow) : ResidentRow :=
  mkResidentRow (rp_sandbox_id r) (rp_tenant_id r) (rp_name r) (rp_generation row)
    ResidentProcessDesiredState.Running ResidentProcessObservedState.Pending None None None None None None
    None None None (rp_updated_at row) (rp_bootstrap_sha256 row) None None None None
    (rp_sterile_cell_id r) (rp_sterile_lease_id r) (rp_sterile_lease_generation r)
    (rp_provider_isolation_version r) (rp_spec row) None None None (rp_created_at r).

Definition may_replace (tenant : string) (generation : Z) (r : ResidentRow) : bool :=
  String.eqb (rp_tenant_id r) tenant && (rp_generation r =? u64_as_i64 generation)%Z
  && is_none (rp_active_lease_id r) && is_terminal_observed (rp_observed_state r).

Definition replace_resident (id : Uuid) (row : ResidentRow) (generation : Z) : Tx World unit :=
  let! replaced := update_resident id (may_replace (rp_tenant_id row) generation) (resident_set_replaced row) in
  check! replaced else generation_conflict "resident process changed before terminal replacement" in
  delete_handoff id.

(** The primary key, (sandbox, name) and the sterile lease are unique. *)
Definition resident_conflicts (id : Uuid) (row : ResidentRow) (db : Db World) : bool :=
  is_some (resident_processes db !! id)
  || is_some (find_named db (rp_sandbox_id row) (rp_name row))
  || is_some (rp_sterile_lease_id row)
     && existsb (fun kr => bool_decide (rp_sterile_lease_id kr.2 = rp_sterile_lease_id row))
          (map_to_list (resident_processes db)).

Definition resident_refers (row : ResidentRow) (db : Db World) : bool :=
  is_some (sandboxes (world db) !! rp_sandbox_id row)
  && match rp_sterile_cell_id row with Some c => is_some (sterile_cells db !! c) | None => true end.

Definition insert_resident (id : Uuid) (row : ResidentRow) : Tx World unit :=
  let! db := tx_get in
  check! negb (resident_conflicts id row db) else api_error_of_db_error UniqueViolation in
  check! resident_refers row db else foreign_key_error in
  tx_modify (set_resident_processes (<[id := row]> (resident_processes db))).

Definition put_transaction (rt : Runtime) (settings : ResidentSettings) (nonce : list N) (plan : PutPlan) :
    Tx World unit :=
  let row := plan_row plan in
  let! _ := match plan_activation plan with
            | Some a => fence_sterile_resident_activation_on_connection rt (rp_tenant_id row)
                          (rp_sandbox_id row) (plan_id plan) (plan_generation plan) a
            | None => tx_ret tt
            end in
  let! _ := match plan_replaces plan with
            | Some generation => replace_resident (plan_id plan) row generation
            | None => insert_resident (plan_id plan) row
            end in
  let! _ := insert_job_on_connection (plan_job plan) in
  match shared_handoff settings, plan_bootstrap plan with
  | Some h, Some b => publish_on_connection h nonce (plan_id plan) (rp_sandbox_id row) b (utc_now rt)
  | _, _ => tx_ret tt
  end.

(** ** Publication *)

(** A bootstrap that cannot be published is dropped; the answer does not
    change.  [None] is a panic. *)
Definition publish_plan (plan : PutPlan) (reservation : option ResidentBootstrapReservation) (store : Inner) :
    option Inner :=
  match reservation, plan_replaces plan with
  | Some r, Some generation => fst <$> publish_replacement store r (plan_id plan) generation
  | Some r, None => fst <$> publish store r (plan_id plan)
  | None, Some generation => Some (discard_generation store (plan_id plan) generation).1
  | None, None => Some store
  end.

Definition abandon_plan (reservation : option ResidentBootstrapReservation) (store : Inner) : option Inner :=
  match reservation with Some r => drop_reservation store r | None => Some store end.

Definition with_store (st : ResidentState) (store : option Inner) : ResidentState :=
  mkResidentState (rst_db st) (default (rst_store st) store).

(** [put_resident_process]: [200] for a replay, [202] with the job otherwise. *)
Definition put_resident_process (rt : Runtime) (settings : ResidentSettings) (ctx : TenantContext)
    (nonce : list N) (sandbox_id : Uuid) (name : string) (q : ResidentProcessRequest) (st : ResidentState) :
    result (Uuid * ResidentRow * option Uuid) ApiError * ResidentState :=
  match decide_put rt settings ctx sandbox_id name q (rst_db st) with
  | Err e => (Err e, st)
  | Ok (PutReplay id current) => (Ok (id, current, None), st)
  | Ok (PutPlanned plan) =>
      match reserve_plan plan (is_some (rq_bootstrap q)) (rst_store st) with
      | Err e => (Err e, st)
      | Ok (store, reservation) =>
          match run_tx (put_transaction rt settings nonce plan) (rst_db st) with
          | (Err e, db) => (Err e, with_store (mkResidentState db store) (abandon_plan reservation store))
          | (Ok _, db) =>
              (Ok (plan_id plan, plan_row plan, Some (job_id (plan_job plan))),
               with_store (mkResidentState db store) (publish_plan plan reservation store))
          end
      end
  end.

(** ** Reading and stopping *)

Definition get_resident_process (ctx : TenantContext) (sandbox_id : Uuid) (name : string) (db : Db World) :
    result (Uuid * ResidentRow) ApiError :=
  let? _ := ensure_sandbox_tenant db sandbox_id ctx in
  let? (id, process) := fetch_named_resident_process db sandbox_id name in
  guard! String.eqb (rp_tenant_id process) (ctx_tenant_id ctx) else not_found "resident process not found" in
  Ok (id, process).

(** The process's job that no worker has claimed yet. *)
Definition is_queued_run (tenant : string) (id : Uuid) (kr : Uuid * JobRow) : bool :=
  let j := row_job kr.2 in
  String.eqb (job_tenant_id j) tenant && bool_decide (job_kind j = JobKind.RunResidentProcess)
  && bool_decide (job_status j = JobStatus.Queued)
  && bool_decide (get_str (job_payload j) "residentProcessId" = Some (uuid_to_string id)).

Definition complete_queued_run (now : Z) (tenant : string) (id : Uuid) : Tx World bool :=
  let! db := tx_get in
  match find (is_queued_run tenant id) (map_to_list (jobs db)) with
  | None => tx_ret false
  | Some (j, _) =>
      let '(updated, rows) :=
        update_row j (fun r => bool_decide (job_status (row_job r) = JobStatus.Queued))
          (fun r => mkJobRow (job_set_status JobStatus.Succeeded None now (row_job r)) (row_references r)
                      (row_cancel_requested_at r) (row_cancel_reason r)) (jobs db) in
      let! _ := tx_modify (set_jobs rows) in
      tx_ret updated
  end.

(** Stopping acknowledges a delivered bootstrap: it is not handed out again. *)
Definition resident_set_stopping (before_claim : bool) (now : Z) (r : ResidentRow) : ResidentRow :=
  let delivered := is_some (rp_bootstrap_delivered_generation r)
                   && is_some (rp_bootstrap_delivered_lease_id r)
                   && is_some (rp_bootstrap_delivered_sha256 r) in
  mkResidentRow (rp_sandbox_id r) (rp_tenant_id r) (rp_name r) (rp_generation r)
    ResidentProcessDesiredState.Stopped
    (if before_claim then ResidentProcessObservedState.Stopped else rp_observed_state r)
    (rp_active_lease_id r) (rp_pid r) (rp_exited_at r)
    (if before_claim then Some 0%Z else rp_exit_code r)
    (rp_last_error_class r) (rp_last_error_code r) (rp_last_error r) (rp_provider_pod_name r)
    (rp_provider_pod_uid r) now (rp_bootstrap_sha256 r) (rp_bootstrap_delivered_generation r)
    (rp_bootstrap_delivered_lease_id r) (rp_bootstrap_delivered_sha256 r)
    (if delivered then Some (default now (rp_bootstrap_acknowledged_at r)) else rp_bootstrap_acknowledged_at r)
    (rp_sterile_cell_id r) (rp_sterile_lease_id r) (rp_sterile_lease_generation r)
    (rp_provider_isolation_version r) (rp_spec r) (rp_bootstrap_consumed_at r) (rp_started_at r)
    (rp_ready_at r) (rp_created_at r).

Definition stop_transaction (now : Z) (tenant : string) (id : Uuid) : Tx World unit :=
  let! before_claim := complete_queued_run now tenant id in
  let! _ := update_resident id (fun r => String.eqb (rp_tenant_id r) tenant)
              (resident_set_stopping before_claim now) in
  tx_ret tt.

Definition reclaim_and_forget (settings : ResidentSettings) (id : Uuid) (generation : Z) (sha256 : string)
    (fence : option ResidentBootstrapFence) (st : ResidentState) : ResidentState :=
  mkResidentState (forget_shared (shared_handoff settings) id (rst_db st))
    (reclaim (rst_store st) id generation sha256 fence).1.

Definition stop_resident_process (rt : Runtime) (settings : ResidentSettings) (ctx : TenantContext)
    (sandbox_id : Uuid) (name : string) (st : ResidentState) :
    result (Uuid * ResidentRow) ApiError * ResidentState :=
  let db := rst_db st in
  let prepared :=
    let? _ := ensure_sandbox_tenant db sandbox_id ctx in
    let? (id, process) := fetch_named_resident_process db sandbox_id name in
    let? fence := delivered_bootstrap_fence db id in
    Ok (id, process, fence) in
  match prepared with
  | Err e => (Err e, st)
  | Ok (id, process, fence) =>
      match run_tx (stop_transaction (utc_now rt) (ctx_tenant_id ctx) id) db with
      | (Err e, db) => (Err e, mkResidentState db (rst_store st))
      | (Ok _, db) =>
          let st := mkResidentState db (rst_store st) in
          let st := match rp_bootstrap_sha256 process with
                    | Some sha256 => reclaim_and_forget settings id (rp_generation process) sha256 fence st
                    | None => st
                    end in
          (get_resident_process ctx sandbox_id name (rst_db st), st)
      end
  end.

(** ** Activity: [activity.rs] *)

Definition ACTIVITY_BUMP_THROTTLE_SECONDS : Z := 60.

Definition sandbox_set_activity (now : Z) (s : Sandbox) : Sandbox :=
  mkSandbox (sb_id s) (sb_tenant_id s) (sb_name s) (sb_state s) (sb_template s) (sb_memory_limit s)
    (sb_network_egress s) (sb_workspace_mode s) (sb_runtime_profile s) (sb_execution_class s)
    (sb_created_at s) (sb_updated_at s) (sb_ttl_seconds s) (sb_max_lifetime_seconds s)
    (sb_idle_ttl_seconds s) (Some now) (sb_parent_snapshot_id s).

(** At most one write a minute. *)
Definition bump_sandbox_activity (sandbox_id : Uuid) (now : Z) : Tx World unit :=
  let! w := get_world in
  let boundary := (now - seconds ACTIVITY_BUMP_THROTTLE_SECONDS)%Z in
  modify_world (set_sandboxes
    (update_row sandbox_id
       (fun s => match sb_last_activity_at s with Some t => (t <? boundary)%Z | None => true end)
       (sandbox_set_activity now) (sandboxes w)).2).

(** ** Observation *)

Record ResidentProcessObservationRequest : Type := mkObservationRequest {
  ob_generation : Z;
  ob_lease_id : Uuid;
  ob_observed_state : ResidentProcessObservedState;
  ob_pid : option Z;
  ob_exit_code : option Z;
  ob_error_code : option string;
  ob_error_message : option string;
  ob_provider_pod_name : option string;
  ob_provider_pod_uid : option string
}.

Definition is_live_observed (s : ResidentProcessObservedState) : bool :=
  match s with
  | ResidentProcessObservedState.Starting | ResidentProcessObservedState.Running => true
  | _ => false
  end.

(** A repeated [stopped] report of a stopped process, whose job succeeded. *)
Definition is_stop_replay (q : ResidentProcessObservationRequest) (process : ResidentRow) : bool :=
  bool_decide (ob_observed_state q = ResidentProcessObservedState.Stopped)
  && bool_decide (rp_desired_state process = ResidentProcessDesiredState.Stopped)
  && bool_decide (rp_observed_state process = ResidentProcessObservedState.Stopped)
  && (rp_generation process =? ob_generation q)%Z && is_none (rp_active_lease_id process).

Definition lease_ran (lease : JobLease) (id : Uuid) (generation : Z) : bool :=
  let j := lease_job lease in
  bool_decide (job_kind j = JobKind.RunResidentProcess)
  && bool_decide ((get_str (job_payload j) "residentProcessId" ≫= uuid_parse_str) = Some id)
  && bool_decide (get_u64 (job_payload j) "generation" = Some generation)
  && bool_decide (job_status j = JobStatus.Succeeded).

(** The candidate pod of the leased cell the process activated. *)
Definition is_candidate_pod (db : Db World) (cell_id : Uuid) (tenant : string) (id : Uuid) (generation : Z)
    (pod_name pod_uid : string) : bool :=
  match sterile_pool_memberships (world db) !! cell_id, sterile_cells db !! cell_id with
  | Some p, Some c =>
      String.eqb (mb_tenant_id p) tenant && member_is MemberLeased p
      && bool_decide (cell_activated_resident_process_id c = Some id)
      && bool_decide (cell_activated_resident_generation c = Some (i64_or_max generation))
      && bool_decide (mb_candidate_pod_name p = Some pod_name)
      && bool_decide (mb_candidate_pod_uid p = Some pod_uid)
  | _, _ => false
  end.

(** A process in a pod of its own reports the pod while it is alive. *)
Definition record_observed_pod (rt : Runtime) (ctx : TenantContext) (id : Uuid) (process : ResidentRow)
    (q : ResidentProcessObservationRequest) (db : Db World) : result unit ApiError * Db World :=
  if negb (is_provider_isolated_name (rp_name process)) then (Ok tt, db)
  else
    match provider_isolation_version db id with
    | Err e => (Err e, db)
    | Ok version =>
        if negb (version =? PROVIDER_ISOLATED_RESIDENT_PROCESS_VERSION)%Z
           || negb (is_live_observed (ob_observed_state q)) then (Ok tt, db)
        else
          match ob_provider_pod_name q, ob_provider_pod_uid q with
          | None, _ => (Err (bad_request "provider-isolated sidecar observation requires providerPodName"), db)
          | _, None => (Err (bad_request "provider-isolated sidecar observation requires providerPodUid"), db)
          | Some pod_name, Some pod_uid =>
              if match rp_sterile_cell_id process with
                 | Some cell_id => negb (is_candidate_pod db cell_id (ctx_tenant_id ctx) id (ob_generation q)
                                           pod_name pod_uid)
                 | None => false
                 end
              then (Err (conflict_code "sterile_candidate_pod_identity_mismatch"
                           "resident observation does not match the bound sterile candidate Pod"), db)
              else record_provider_pod_identity rt (ctx_tenant_id ctx) id (ob_generation q) (ob_lease_id q)
                     pod_name pod_uid db
          end
    end.

(** The states that end the bootstrap's life once it was delivered. *)
Definition acknowledges (s : ResidentProcessObservedState) : bool :=
  negb (bool_decide (s = ResidentProcessObservedState.Pending)).

Definition resident_set_observed (q : ResidentProcessObservationRequest) (now : Z) (r : ResidentRow) :
    ResidentRow :=
  let s := ob_observed_state q in
  let acknowledged :=
    acknowledges s && is_some (rp_bootstrap_consumed_at r)
    && bool_decide (rp_bootstrap_delivered_generation r = Some (u64_as_i64 (ob_generation q)))
    && bool_decide (rp_bootstrap_delivered_lease_id r = Some (ob_lease_id q))
    && is_some (rp_bootstrap_sha256 r)
    && bool_decide (rp_bootstrap_delivered_sha256 r = rp_bootstrap_sha256 r) in
  let started := if is_live_observed s then Some now else None in
  let ready := if bool_decide (s = ResidentProcessObservedState.Running) then Some now else None in
  let exited := if is_terminal_observed s then Some now else None in
  mkResidentRow (rp_sandbox_id r) (rp_tenant_id r) (rp_name r) (rp_generation r) (rp_desired_state r) s
    (rp_active_lease_id r) (ob_pid q) exited (ob_exit_code q)
    (provisioning_error_class_for_code (ob_error_code q)) (ob_error_code q)
    (match ob_error_message q with Some m => Some m | None => ob_error_code q end)
    (rp_provider_pod_name r) (rp_provider_pod_uid r) now (rp_bootstrap_sha256 r)
    (rp_bootstrap_delivered_generation r) (rp_bootstrap_delivered_lease_id r)
    (rp_bootstrap_delivered_sha256 r)
    (if acknowledged then Some (default now (rp_bootstrap_acknowledged_at r)) else rp_bootstrap_acknowledged_at r)
    (rp_sterile_cell_id r) (rp_sterile_lease_id r) (rp_sterile_lease_generation r)
    (rp_provider_isolation_version r) (rp_spec r) (rp_bootstrap_consumed_at r)
    (match rp_started_at r with Some t => Some t | None => started end)
    (match rp_ready_at r with Some t => Some t | None => ready end) (rp_created_at r).

Definition apply_observation (now : Z) (id : Uuid) (q : ResidentProcessObservationRequest) : Tx World unit :=
  let! applied := update_resident id
    (fun r => (rp_generation r =? u64_as_i64 (ob_generation q))%Z
              && bool_decide (rp_active_lease_id r = Some (ob_lease_id q)))
    (resident_set_observed q now) in
  check! applied else generation_conflict "resident process changed while applying observation" in
  tx_ret tt.

(** The event of a failure, stored or not. *)
Definition failure_event (rt : Runtime) (process : ResidentRow) (q : ResidentProcessObservationRequest)
    (db : Db World) : Db World :=
  let failed := match ob_observed_state q with
                | ResidentProcessObservedState.Failed | ResidentProcessObservedState.Lost => true
                | _ => false
                end in
  if failed && negb (bool_decide (rp_observed_state process = ob_observed_state q))
  then (run_tx (insert_event_on_connection rt 0 (rp_sandbox_id process) SandboxEventKind.LifecycleChanged
                  (JObject [("eventType", JString "resident_process_terminal_failure");
                            ("processName", JString (rp_name process));
                            ("generation", JNumber (PosInt (ob_generation q)));
                            ("observedState", JString (as_db_str (ob_observed_state q)))])) db).2
  else db.

Definition observation_fence (q : ResidentProcessObservationRequest) (sha256 : string) : ResidentBootstrapFence :=
  {| bf_generation := ob_generation q; bf_lease_id := ob_lease_id q; bf_sha256 := sha256 |}.

(** The bootstrap after an observation: reclaimed when the process is over,
    forgotten once its delivery is acknowledged. *)
Definition settle_bootstrap (settings : ResidentSettings) (id : Uuid) (process : ResidentRow)
    (q : ResidentProcessObservationRequest) (st : ResidentState) : ResidentState :=
  match rp_bootstrap_sha256 process with
  | Some sha256 =>
      if negb (acknowledges (ob_observed_state q)) then st
      else
        let fence := observation_fence q sha256 in
        let st := if is_terminal_observed (ob_observed_state q)
                  then reclaim_and_forget settings id (ob_generation q) sha256 (Some fence) st else st in
        let acknowledged := match resident_processes (rst_db st) !! id with
                            | Some r => is_some (rp_bootstrap_acknowledged_at r)
                            | None => false
                            end in
        if acknowledged
        then mkResidentState (forget_shared (shared_handoff settings) id (rst_db st))
               (acknowledge (rst_store st) id fence).1
        else st
  | None => st
  end.

(** What precedes the writes; [Ok None] answers a replay. *)
Definition observation_checks (now : Z) (ctx : TenantContext) (id : Uuid)
    (q : ResidentProcessObservationRequest) (db : Db World) : result (ResidentRow * bool) ApiError :=
  guard! match ob_error_message q with
         | Some m => (Z.of_nat (String.length m) <=? 1024)%Z
         | None => true
         end else bad_request "resident process error message exceeds 1024 bytes" in
  let? process := fetch_resident_process_by_id db id in
  guard! String.eqb (rp_tenant_id process) (ctx_tenant_id ctx) else not_found "resident process not found" in
  let? _ := ensure_resident_owner_role process ctx in
  let? replayed :=
    if is_stop_replay q process
    then let? lease := ensure_lease_worker_scope db (ob_lease_id q) ctx in
         Ok (lease_ran lease id (ob_generation q))
    else Ok false in
  if replayed then Ok (process, true)
  else
    let? _ := ensure_resident_lease_scope db now id process (ob_lease_id q) ctx in
    guard! (rp_generation process =? ob_generation q)%Z
           && bool_decide (rp_active_lease_id process = Some (ob_lease_id q))
      else generation_conflict "resident observation does not match the active lease" in
    Ok (process, false).

Definition observe_resident_process (rt : Runtime) (settings : ResidentSettings) (ctx : TenantContext)
    (id : Uuid) (q : ResidentProcessObservationRequest) (st : ResidentState) :
    result ResidentRow ApiError * ResidentState :=
  let now := utc_now rt in
  match observation_checks now ctx id q (rst_db st) with
  | Err e => (Err e, st)
  | Ok (process, true) => (Ok process, st)
  | Ok (process, false) =>
      match record_observed_pod rt ctx id process q (rst_db st) with
      | (Err e, db) => (Err e, mkResidentState db (rst_store st))
      | (Ok _, db) =>
          match run_tx (apply_observation now id q) db with
          | (Err e, db) => (Err e, mkResidentState db (rst_store st))
          | (Ok _, db) =>
              let st := settle_bootstrap settings id process q
                          (mkResidentState (failure_event rt process q db) (rst_store st)) in
              let st := mkResidentState (run_tx (bump_sandbox_activity (rp_sandbox_id process) now) (rst_db st)).2
                          (rst_store st) in
              (fetch_resident_process_by_id (rst_db st) id, st)
          end
      end
  end.
End ResidentHandlers.
