(* ===== verification/ResidentProofs.v ===== *)
(** * Resident processes: every interleaving

    The writes of [resident_processes] as the steps of one machine: the
    admission transaction (decided on an earlier state), the consume statement
    of a bootstrap read, stop, observation, pod identity, and the statements
    of the scheduler, the job outcomes and the sandbox teardown.  The theorems
    say to whom a bootstrap credential is handed: one lease of a generation,
    never after it was acknowledged, and the executor's only while the
    sandbox's sidecar runs under a live lease. *)

From S2P Require Import Prelude Text BootstrapStore CoreTypes LifecycleContract Json Store Leases SandboxLifecycle World.
From S2P Require Import CommandOutput Authz Scopes Claim SterilePool PoolController SterileCells Effects SandboxStop.
From S2P Require Import ResidentContract ResidentAttestations BootstrapHandoff ResidentProcesses ResidentHandlers.

(** ** How a row evolves *)

(** Generations grow; the one after the last representable one is negative and
    is never replaced. *)
Definition rank (g : Z) : Z := if (g <? 0)%Z then 2 ^ 63 else g.

(** A process keeps its sandbox, its tenant and its name. *)
Definition same_identity (r r' : ResidentRow) : Prop :=
  rp_sandbox_id r' = rp_sandbox_id r /\ rp_tenant_id r' = rp_tenant_id r /\ rp_name r' = rp_name r.

(** The generation and the delivery columns stay; an acknowledgement stays. *)
Record delivery_kept (r r' : ResidentRow) : Prop := {
  dk_generation : rp_generation r' = rp_generation r;
  dk_consumed : rp_bootstrap_consumed_at r' = rp_bootstrap_consumed_at r;
  dk_delivered_generation : rp_bootstrap_delivered_generation r' = rp_bootstrap_delivered_generation r;
  dk_delivered_lease : rp_bootstrap_delivered_lease_id r' = rp_bootstrap_delivered_lease_id r;
  dk_delivered_sha : rp_bootstrap_delivered_sha256 r' = rp_bootstrap_delivered_sha256 r;
  dk_acknowledged : is_Some (rp_bootstrap_acknowledged_at r) -> is_Some (rp_bootstrap_acknowledged_at r');
  dk_identity : same_identity r r';
  dk_spec : rp_spec r' = rp_spec r
}.

(** Within a generation a delivery and an acknowledgement are for good. *)
Record same_generation (r r' : ResidentRow) : Prop := {
  sg_generation : rp_generation r' = rp_generation r;
  sg_consumed : is_Some (rp_bootstrap_consumed_at r) ->
    is_Some (rp_bootstrap_consumed_at r') /\
    rp_bootstrap_delivered_generation r' = rp_bootstrap_delivered_generation r /\
    rp_bootstrap_delivered_lease_id r' = rp_bootstrap_delivered_lease_id r /\
    rp_bootstrap_delivered_sha256 r' = rp_bootstrap_delivered_sha256 r;
  sg_acknowledged : is_Some (rp_bootstrap_acknowledged_at r) -> is_Some (rp_bootstrap_acknowledged_at r')
}.

Definition row_evolves (r r' : ResidentRow) : Prop :=
  same_identity r r' /\
  (same_generation r r' \/ (rank (rp_generation r) < rank (rp_generation r'))%Z).

#[export] Instance same_identity_preorder : PreOrder same_identity.
Proof. split; [done | intros ? ? ? (? & ? & ?) (? & ? & ?); split_and!; congruence]. Qed.

#[export] Instance row_evolves_preorder : PreOrder row_evolves.
Proof.
  split.
  - intros r. split; [done|]. left. constructor; [done | by auto | done].
  - intros r1 r2 r3 [I1 V1] [I2 V2]. split; [by etrans|]. destruct V1 as [V1|V1], V2 as [V2|V2].
    + left. destruct V1 as [G1 C1 A1], V2 as [G2 C2 A2]. constructor; [congruence | | auto].
      intros Hc. destruct (C1 Hc) as (Hc2 & D1 & D2 & D3). destruct (C2 Hc2) as (? & -> & -> & ->). done.
    + right. by rewrite <-(sg_generation _ _ V1).
    + right. by rewrite (sg_generation _ _ V2).
    + right. lia.
Qed.

Lemma kept_evolves r r' : delivery_kept r r' -> row_evolves r r'.
Proof.
  intros [Hg Hc D1 D2 D3 Ha Hi _]. split; [done|]. left. constructor; rewrite ?Hg, ?Hc, ?D1, ?D2, ?D3; auto.
Qed.

(** ** The machine

    A state is the tables and the process identifiers ever used: identifiers
    are version-7 UUIDs, and a process can disappear with its sandbox. *)

Definition RState : Type := Db World * gset Uuid.

(** A transaction that is not one of the handlers': rows may disappear, none
    appears, and no delivery changes. *)
Definition residents_kept (db db' : Db World) : Prop :=
  forall id r', resident_processes db' !! id = Some r' ->
    exists r, resident_processes db !! id = Some r /\ delivery_kept r r'.

Section Machine.
Context `{UuidLib} `{SerdeLib} `{CellLib} `{AttestationLib} `{HandoffLib} `{Base64UrlLib}.

(** The generation column is a 64-bit integer. *)
Definition generation_width (db : Db World) : Prop :=
  map_Forall (fun _ r => (rp_generation r <= i64_max)%Z) (resident_processes db).

Inductive resident_step (settings : ResidentSettings) : RState -> RState -> Prop :=
| rs_put db0 db used rt ctx nonce sandbox_id name q plan :
    decide_put rt settings ctx sandbox_id name q db0 = Ok (PutPlanned plan) -> generation_width db0 ->
    new_uuid rt 0 ∉ used ->
    resident_step settings (db, used)
      ((run_tx (put_transaction rt settings nonce plan) db).2, {[new_uuid rt 0]} ∪ used)
| rs_consume db used now tenant sandbox_id id f :
    resident_step settings (db, used) ((run_tx (consume_bootstrap now tenant sandbox_id id f) db).2, used)
| rs_stop db used now tenant id :
    resident_step settings (db, used) ((run_tx (stop_transaction now tenant id) db).2, used)
| rs_pod db used now tenant id g lease_id pod_name pod_uid :
    resident_step settings (db, used)
      ((run_tx (record_process_pod now tenant id g lease_id pod_name pod_uid) db).2, used)
| rs_observe db used now id q :
    resident_step settings (db, used) ((run_tx (apply_observation now id q) db).2, used)
| rs_other db db' used : residents_kept db db' -> resident_step settings (db, used) (db', used).

(** *** The other writers: the scheduler, job outcomes and teardown *)

Lemma update_row_kept db id guard f m :
  (forall r, delivery_kept r (f r)) -> m = (update_row id guard f (resident_processes db)).2 ->
  residents_kept db (set_resident_processes m db).
Proof.
  intros Hf -> id' r'. simpl. rewrite lookup_update_row. destruct (resident_processes db !! id') as [r|]; [|done].
  intros [= <-]. exists r. split; [done|]. case_match; [apply Hf | by constructor].
Qed.

Lemma update_residents_kept guard f : (forall r, delivery_kept r (f r)) ->
  tx_rel residents_kept (update_residents guard f).
Proof.
  intros Hf. apply tx_rel_modify. intros db id r'. simpl. rewrite lookup_update_rows.
  destruct (resident_processes db !! id) as [r|]; [|done]. intros [= <-]. exists r. split; [done|].
  case_match; [apply Hf | by constructor].
Qed.

Lemma start_resident_kept lease now : tx_rel residents_kept (start_resident_process (W := World) lease now).
Proof.
  intros db u db' Hc. unfold start_resident_process in Hc.
  destruct (negb _); [tx_step Hc; intros id r' Hr; exists r'; split; [done|by constructor]|].
  destruct (as_u64 _) as [g|]; [|by tx_step Hc]. tx_step Hc. apply tx_lift_ok in Hm as [_ ->]. tx_step Hc. tx_step Hm.
  destruct (update_row _ _ _ _) as [b m] eqn:E. destruct b; [|by tx_step Hc]. tx_step Hc.
  eapply update_row_kept; [|by rewrite E]. intros r. by constructor.
Qed.

Lemma complete_resident_kept rt job id g code : tx_rel residents_kept (complete_resident rt job id g code).
Proof.
  intros db u db' Hc. unfold complete_resident in Hc. tx_step Hc. apply tx_lift_ok in Hm as [_ ->].
  case_match; [|by tx_step Hc]. tx_step Hc. tx_step Hm. destruct (update_row _ _ _ _) as [b m] eqn:E.
  destruct b; [|by tx_step Hc]. tx_step Hc. eapply update_row_kept; [|by rewrite E]. intros r. by constructor.
Qed.

Lemma setters_kept error now r :
  delivery_kept r (resident_set_error error now r) /\ delivery_kept r (resident_set_failed error now r) /\
  delivery_kept r (resident_set_stopped now r) /\ delivery_kept r (resident_set_failed_before_claim now r).
Proof.
  split_and!; constructor; try done. cbn. intros Ha. case_match; [by eexists | done].
Qed.

(** *** What an admission plans *)

Lemma row_to_resident_ok r r' : row_to_resident_process r = Ok r' -> r' = r /\ (0 <= rp_generation r)%Z.
Proof.
  unfold row_to_resident_process. repeat (case_match; [done|]). intros [= <-]. split; [done|].
  repeat match goal with E : negb _ = false |- _ => apply negb_false_iff in E end. lia.
Qed.

Lemma find_named_some db sandbox_id name id r :
  find_named db sandbox_id name = Some (id, r) ->
  resident_processes db !! id = Some r /\ rp_sandbox_id r = sandbox_id /\ rp_name r = name.
Proof.
  unfold find_named. intros [Hin Hn]%find_some. apply list_elem_of_In, elem_of_map_to_list in Hin.
  unfold is_named in Hn. apply andb_true_iff in Hn as [?%bool_decide_eq_true ?%String.eqb_eq]. done.
Qed.

Lemma fetch_named_ok db sandbox_id name id r :
  fetch_named_resident_process db sandbox_id name = Ok (id, r) ->
  find_named db sandbox_id name = Some (id, r) /\ (0 <= rp_generation r)%Z.
Proof.
  unfold fetch_named_resident_process. destruct (find_named db sandbox_id name) as [[id' r']|]; [|done].
  intros (r1 & Hr & [= <- <-])%bind_ok. by apply row_to_resident_ok in Hr as [-> ?].
Qed.

Lemma admit_replace now db sandbox_id name q digest id current :
  admit_put now db sandbox_id name q digest = Ok (Replace id current) ->
  resident_processes db !! id = Some current /\ (0 <= rp_generation current)%Z.
Proof.
  unfold admit_put. destruct (fetch_named_resident_process db sandbox_id name) as [[id' r]|] eqn:E;
    [|by repeat case_match].
  unfold admit_against. intros (? & _ & Ha)%bind_ok. repeat (case_match; try done).
  - apply bind_ok in Ha as (? & _ & [=]).
  - simplify_eq. apply fetch_named_ok in E as [Hn Hg]. apply find_named_some in Hn as (? & _ & _). done.
Qed.

(** The identifier is new, or the next generation of a process is planned. *)
Lemma decide_put_plan rt settings ctx sandbox_id name q db plan :
  decide_put rt settings ctx sandbox_id name q db = Ok (PutPlanned plan) ->
  match plan_replaces plan with
  | None => plan_id plan = new_uuid rt 0
  | Some g => exists r, resident_processes db !! plan_id plan = Some r /\ rp_generation r = g /\ (0 <= g)%Z /\
      rp_generation (plan_row plan) = u64_as_i64 (g + 1)
  end.
Proof.
  unfold decide_put. intros (? & _ & Hd)%bind_ok. apply bind_ok in Hd as (s & _ & Hd).
  apply bind_ok in Hd as (claim & _ & Hd). apply bind_ok in Hd as (pl & _ & Hd).
  apply bind_ok in Hd as (adm & Ha & Hd). destruct adm as [|id current|]; [done| |].
  - apply bind_ok in Hd as (plan' & Hp & [= ->]). unfold plan_put in Hp.
    apply bind_ok in Hp as ([[[id' g'] created] replaced] & Hn & Hp). unfold next_identity in Hn.
    case_match; [done|]. simplify_eq. apply bind_ok in Hp as (payload & _ & [= <-]). simpl.
    apply admit_replace in Ha as [Hr Hg]. by exists current.
  - apply bind_ok in Hd as (plan' & Hp & [= ->]). unfold plan_put in Hp. simpl in Hp.
    by apply bind_ok in Hp as (payload & _ & [= <-]).
Qed.

(** *** Each step *)

Definition residents_evolve (s s' : RState) : Prop :=
  s.2 ⊆ s'.2 /\
  forall id r', id ∈ s.2 -> resident_processes s'.1 !! id = Some r' ->
    exists r, resident_processes s.1 !! id = Some r /\ row_evolves r r'.

#[export] Instance residents_evolve_preorder : PreOrder residents_evolve.
Proof.
  split.
  - intros s. split; [done|]. intros id r' _ Hr. exists r'. by split.
  - intros s1 s2 s3 [U1 E1] [U2 E2]. split; [set_solver|]. intros id r' Hid Hr.
    destruct (E2 id r' (U1 _ Hid) Hr) as (r2 & Hr2 & V2). destruct (E1 id r2 Hid Hr2) as (r1 & Hr1 & V1).
    exists r1. split; [done|]. by etrans.
Qed.

(** Every identifier in the table has been used. *)
Definition ids_used (s : RState) : Prop := dom (resident_processes s.1) ⊆ s.2.

(** The rows that were there evolve, and none is added. *)
Definition rows_evolve (db db' : Db World) : Prop :=
  forall id r', resident_processes db' !! id = Some r' ->
    exists r, resident_processes db !! id = Some r /\ row_evolves r r'.

#[export] Instance rows_evolve_preorder : PreOrder rows_evolve.
Proof.
  split.
  - intros db id r' Hr. exists r'. by split.
  - intros d1 d2 d3 H1' H2' id r' Hr. destruct (H2' _ _ Hr) as (r2 & Hr2 & E2).
    destruct (H1' _ _ Hr2) as (r1 & Hr1 & E1). exists r1. split; [done|]. by etrans.
Qed.

Lemma same_residents_evolve db db' : resident_processes db' = resident_processes db -> rows_evolve db db'.
Proof. intros He id r' Hr. exists r'. rewrite He in Hr. by split. Qed.

Lemma update_resident_evolves id guard f :
  (forall r, guard r = true -> row_evolves r (f r)) -> tx_rel rows_evolve (update_resident id guard f).
Proof.
  intros Hf db b db' Hc. unfold update_resident in Hc. tx_step Hc. tx_step Hm.
  destruct (update_row id guard f (resident_processes db1)) as [u m] eqn:E. tx_step Hc. tx_step Hm. tx_step Hc.
  intros id' r'. simpl. replace m with (update_row id guard f (resident_processes db1)).2 by by rewrite E.
  rewrite lookup_update_row. destruct (resident_processes db1 !! id') as [r|]; [|done]. intros [= <-].
  exists r. split; [done|]. case_match eqn:Eg; [|done]. apply andb_true_iff in Eg as [_ Eg]. by apply Hf.
Qed.

(** Statements that do not write the table. *)
Definition same_residents (db db' : Db World) : Prop := resident_processes db' = resident_processes db.

#[export] Instance same_residents_preorder : PreOrder same_residents.
Proof. split; [done | intros ? ? ? E1 E2; unfold same_residents in *; congruence]. Qed.

Lemma same_residents_modify f : tx_rel same_residents (modify_world f).
Proof. apply tx_rel_modify. done. Qed.

Lemma same_residents_get : tx_rel same_residents get_world.
Proof. intros db w db' [_ ->]%get_world_ok. done. Qed.

Lemma same_residents_cell id guard f : tx_rel same_residents (update_cell id guard f).
Proof. unfold update_cell. tx_rel_auto. by apply tx_rel_modify. Qed.

Lemma same_residents_job job : tx_rel same_residents (insert_job_on_connection job).
Proof. unfold insert_job_on_connection. tx_rel_auto. by apply tx_rel_modify. Qed.

Lemma same_residents_fence rt tenant sb id g a :
  tx_rel same_residents (fence_sterile_resident_activation_on_connection rt tenant sb id g a).
Proof.
  unfold fence_sterile_resident_activation_on_connection.
  tx_rel_auto. all: first [apply same_residents_cell | by apply tx_rel_modify].
Qed.

Lemma same_residents_publish h nonce id sb b now : tx_rel same_residents (publish_on_connection h nonce id sb b now).
Proof. unfold publish_on_connection. tx_rel_auto. apply same_residents_modify. Qed.

Lemma same_residents_run now tenant id : tx_rel same_residents (complete_queued_run now tenant id).
Proof. unfold complete_queued_run. tx_rel_auto. by apply tx_rel_modify. Qed.

(** The rows evolve, but for one that may be added. *)
Definition rows_evolve_but (x : Uuid) (db db' : Db World) : Prop :=
  forall id r', id <> x -> resident_processes db' !! id = Some r' ->
    exists r, resident_processes db !! id = Some r /\ row_evolves r r'.

#[export] Instance rows_evolve_but_preorder x : PreOrder (rows_evolve_but x).
Proof.
  split.
  - intros db id r' _ Hr. exists r'. by split.
  - intros d1 d2 d3 V1 V2 id r' Hx Hr. destruct (V2 _ _ Hx Hr) as (r2 & Hr2 & E2).
    destruct (V1 _ _ Hx Hr2) as (r1 & Hr1 & E1). exists r1. split; [done|]. by etrans.
Qed.

Lemma rows_evolve_weaken x db db' : rows_evolve db db' -> rows_evolve_but x db db'.
Proof. intros Hv id r' _. apply Hv. Qed.

Lemma tx_rel_weaken {A} (R R' : relation (Db World)) (m : Tx World A) :
  (forall db db', R db db' -> R' db db') -> tx_rel R m -> tx_rel R' m.
Proof. intros Hi Hm db a db' Hc. apply Hi. by eapply Hm. Qed.

Lemma same_residents_but x {A} (m : Tx World A) : tx_rel same_residents m -> tx_rel (rows_evolve_but x) m.
Proof. apply tx_rel_weaken. intros. apply rows_evolve_weaken. by apply same_residents_evolve. Qed.

Lemma same_residents_rows {A} (m : Tx World A) : tx_rel same_residents m -> tx_rel rows_evolve m.
Proof. apply tx_rel_weaken. intros. by apply same_residents_evolve. Qed.

Lemma consumed_evolves now db tenant sb f r :
  may_consume now db tenant sb f r = true -> row_evolves r (resident_set_consumed f now r).
Proof.
  intros Hm. split; [done|]. left. constructor; simpl; [done | | done]. intros Hc. split; [by eexists|].
  unfold may_consume in Hm. rewrite !andb_true_iff, orb_true_iff in Hm. destruct Hm as ((_ & [Hn|Hd]) & _).
  - destruct Hc as [t Ht]. by rewrite Ht in Hn.
  - unfold delivered_under in Hd. rewrite !andb_true_iff, !bool_decide_eq_true in Hd. naive_solver.
Qed.

Ltac tx_bind_rel := apply tx_rel_bind; [apply _ | | intro].

Ltac acknowledged_stays := constructor; try done; cbn; intros Ha; case_match; [by eexists | done].

Lemma consume_rows now tenant sb id f : tx_rel rows_evolve (consume_bootstrap now tenant sb id f).
Proof.
  unfold consume_bootstrap. tx_bind_rel; [apply tx_rel_get; apply _|]. apply update_resident_evolves. intros.
  by eapply consumed_evolves.
Qed.

Lemma stop_rows now tenant id : tx_rel rows_evolve (stop_transaction now tenant id).
Proof.
  unfold stop_transaction. tx_bind_rel; [apply same_residents_rows, same_residents_run|].
  tx_bind_rel; [|apply tx_rel_ret; apply _]. apply update_resident_evolves. intros r _. apply kept_evolves.
  acknowledged_stays.
Qed.

Lemma pod_rows now tenant id g lease n u : tx_rel rows_evolve (record_process_pod now tenant id g lease n u).
Proof.
  unfold record_process_pod. tx_bind_rel; [|apply tx_rel_if; [apply tx_rel_ret; apply _ | apply tx_rel_throw]].
  apply update_resident_evolves. intros r _. apply kept_evolves. by constructor.
Qed.

Lemma observe_rows now id q : tx_rel rows_evolve (apply_observation now id q).
Proof.
  unfold apply_observation. tx_bind_rel; [|apply tx_rel_if; [apply tx_rel_ret; apply _ | apply tx_rel_throw]].
  apply update_resident_evolves. intros r _. apply kept_evolves. acknowledged_stays.
Qed.

Lemma replaced_evolves tenant g row r :
  (0 <= g <= i64_max)%Z -> rp_generation row = u64_as_i64 (g + 1) -> may_replace tenant g r = true ->
  row_evolves r (resident_set_replaced row r).
Proof.
  intros Hg Hrow Hm. split; [done|]. right. unfold may_replace in Hm. rewrite !andb_true_iff, Z.eqb_eq in Hm.
  destruct Hm as (((_ & Hr) & _) & _). cbn. rewrite Hrow, Hr. unfold rank, u64_as_i64, i64_max in *.
  repeat case_match; lia.
Qed.

Lemma replace_rows id row g :
  (0 <= g <= i64_max)%Z -> rp_generation row = u64_as_i64 (g + 1) -> tx_rel rows_evolve (replace_resident id row g).
Proof.
  intros Hg Hrow. unfold replace_resident. tx_bind_rel.
  - apply update_resident_evolves. intros r Hr. by eapply replaced_evolves.
  - apply tx_rel_if; [apply same_residents_rows, same_residents_modify | apply tx_rel_throw].
Qed.

Lemma insert_resident_rows id row : tx_rel (rows_evolve_but id) (insert_resident id row).
Proof.
  unfold insert_resident. intros db u db' Hc. tx_step Hc. tx_step Hm. repeat (case_match; [|by tx_step Hc]).
  tx_step Hc. intros id' r' Hne. simpl. rewrite lookup_insert_ne by done. intros Hr. exists r'. by split.
Qed.

Lemma put_rows rt settings nonce ctx sb name q db0 plan :
  decide_put rt settings ctx sb name q db0 = Ok (PutPlanned plan) -> generation_width db0 ->
  tx_rel (rows_evolve_but (new_uuid rt 0)) (put_transaction rt settings nonce plan).
Proof.
  intros Hd Hw. unfold put_transaction. tx_bind_rel.
  - case_match; [apply same_residents_but, same_residents_fence | apply tx_rel_ret; apply _].
  - tx_bind_rel.
    + apply decide_put_plan in Hd. destruct (plan_replaces plan) as [g|].
      * destruct Hd as (r & Hr & Hrg & Hg & Hrow). apply Hw in Hr. simpl in Hr. subst g.
        eapply tx_rel_weaken; [|apply replace_rows; [split; done | done]]. intros. by apply rows_evolve_weaken.
      * rewrite Hd. apply insert_resident_rows.
    + tx_bind_rel; [apply same_residents_but, same_residents_job|].
      repeat case_match; try (apply tx_rel_ret; apply _). apply same_residents_but, same_residents_publish.
Qed.

Lemma rows_step_evolves db db' used used' :
  used ⊆ used' -> rows_evolve db db' -> residents_evolve (db, used) (db', used').
Proof. intros Hu Hv. split; [done|]. intros id r' _ Hr. by apply Hv. Qed.

Lemma step_evolves settings s s' : resident_step settings s s' -> residents_evolve s s'.
Proof.
  intros [db0 db used rt ctx nonce sb name q plan Hd Hw Hn| | | | |db db' used Hk];
    try (apply rows_step_evolves; [done|]; apply run_tx_rel; [apply _|];
         eauto using consume_rows, stop_rows, pod_rows, observe_rows).
  - split; [set_solver|]. intros id r' Hid Hr. simpl in *.
    assert (Hne : id <> new_uuid rt 0) by set_solver.
    eapply (run_tx_rel (rows_evolve_but (new_uuid rt 0)) (put_transaction rt settings nonce plan) db);
      [by eapply put_rows | done | done].
  - apply rows_step_evolves; [done|]. intros id r' Hr. destruct (Hk _ _ Hr) as (r & ? & ?%kept_evolves). eauto.
Qed.

(** *** Invariants *)

(** The unique key (sandbox, name). *)
Definition named_once (db : Db World) : Prop :=
  forall id id' r r', resident_processes db !! id = Some r -> resident_processes db !! id' = Some r' ->
    rp_sandbox_id r' = rp_sandbox_id r -> rp_name r' = rp_name r -> id' = id.

Record resident_inv (s : RState) : Prop := {
  ri_used : ids_used s;
  ri_named : named_once s.1
}.

Lemma rows_evolve_named db db' : rows_evolve db db' -> named_once db -> named_once db'.
Proof.
  intros Hv Hn id id' r r' Hr Hr' Hs Hm. destruct (Hv _ _ Hr) as (x & Hx & (S1 & _ & N1) & _).
  destruct (Hv _ _ Hr') as (y & Hy & (S2 & _ & N2) & _). eapply Hn; [done | done | congruence | congruence].
Qed.

Lemma rows_evolve_inv db db' used : rows_evolve db db' -> resident_inv (db, used) -> resident_inv (db', used).
Proof.
  intros Hv [Hu Hn]. split; [|by eapply rows_evolve_named]. intros id [r' Hr]%elem_of_dom.
  destruct (Hv _ _ Hr) as (r & Hr0 & _). apply Hu, elem_of_dom. by exists r.
Qed.

Lemma find_named_none db sandbox_id name id r :
  find_named db sandbox_id name = None -> resident_processes db !! id = Some r ->
  rp_sandbox_id r = sandbox_id -> rp_name r = name -> False.
Proof.
  intros Hf Hr Hs Hm. unfold find_named in Hf. eapply find_none in Hf; [|by apply list_elem_of_In, elem_of_map_to_list].
  unfold is_named in Hf. simpl in Hf. by rewrite bool_decide_eq_true_2, Hm, String.eqb_refl in Hf.
Qed.

Lemma insert_resident_named id row db u db' :
  insert_resident id row db = Ok (u, db') -> named_once db -> named_once db'.
Proof.
  unfold insert_resident. intros Hc Hn. tx_step Hc. tx_step Hm. case_match eqn:Ec; [|by tx_step Hc].
  case_match; [|by tx_step Hc]. tx_step Hc. apply negb_true_iff in Ec. unfold resident_conflicts in Ec.
  apply orb_false_iff in Ec as [Ec _]. apply orb_false_iff in Ec as [_ Ec].
  assert (Hf : find_named db1 (rp_sandbox_id row) (rp_name row) = None) by by destruct (find_named _ _ _).
  intros i i' r r'. simpl. destruct (decide (i = id)) as [->|Hi], (decide (i' = id)) as [->|Hi'];
    rewrite ?lookup_insert_eq, ?lookup_insert_ne by done; try done.
  - intros [= <-] Hr' Hs Hm. by destruct (find_named_none _ _ _ _ _ Hf Hr').
  - intros Hr [= <-] Hs Hm. by destruct (find_named_none _ _ _ _ _ Hf Hr).
  - intros. by eapply Hn.
Qed.

Lemma run_tx_cases {A} (m : Tx World A) db (P : Db World -> Prop) :
  P db -> (forall a db', m db = Ok (a, db') -> P db') -> P (run_tx m db).2.
Proof. intros H1' H2'. unfold run_tx. destruct (m db) as [[a db']|] eqn:E; simpl; eauto. Qed.

Lemma put_named rt settings nonce plan db u db' :
  (forall g, plan_replaces plan = Some g ->
     (0 <= g <= i64_max)%Z /\ rp_generation (plan_row plan) = u64_as_i64 (g + 1)) ->
  put_transaction rt settings nonce plan db = Ok (u, db') -> named_once db -> named_once db'.
Proof.
  intros Hp Hc Hn. unfold put_transaction in Hc. tx_step Hc. tx_step Hc. tx_step Hc.
  assert (Hsame : forall d d', same_residents d d' -> named_once d -> named_once d').
  { intros d d' He. apply rows_evolve_named. by apply same_residents_evolve. }
  assert (N1 : named_once db1).
  { eapply Hsame; [|exact Hn]. destruct (plan_activation plan); [by eapply same_residents_fence | by tx_step Hm]. }
  assert (N2 : named_once db0).
  { destruct (plan_replaces plan) as [g|]; [|by eapply insert_resident_named].
    destruct (Hp g eq_refl). eapply rows_evolve_named; [|exact N1]. by eapply replace_rows. }
  assert (N3 : named_once db2) by (eapply Hsame; [by eapply same_residents_job | done]).
  eapply Hsame; [|exact N3]. destruct (shared_handoff settings); [|by tx_step Hc].
  destruct (plan_bootstrap plan); [by eapply same_residents_publish | by tx_step Hc].
Qed.

Lemma resident_step_inv settings s s' : resident_step settings s s' -> resident_inv s -> resident_inv s'.
Proof.
  intros [db0 db used rt ctx nonce sb name q plan Hd Hw Hn| | | | |db db' used Hk];
    try (apply rows_evolve_inv; apply run_tx_rel; [apply _|];
         eauto using consume_rows, stop_rows, pod_rows, observe_rows).
  - intros [Hu Hnm]. split; simpl in *.
    + intros id [r' Hr]%elem_of_dom. simpl in *. destruct (decide (id = new_uuid rt 0)) as [->|Hne]; [set_solver|].
      destruct (run_tx_rel (rows_evolve_but (new_uuid rt 0)) (put_transaction rt settings nonce plan) db
                  (put_rows _ _ nonce _ _ _ _ _ _ Hd Hw) id r' Hne Hr) as (r & Hr0 & _).
      apply elem_of_union_r, (Hu id), elem_of_dom. by exists r.
    + apply run_tx_cases; [done|]. intros a db' Hc. eapply put_named; [|done|done]. intros g Hg.
      apply decide_put_plan in Hd. rewrite Hg in Hd. destruct Hd as (r & Hr & <- & ? & ?). apply Hw in Hr. done.
  - apply rows_evolve_inv. intros id r' Hr. destruct (Hk _ _ Hr) as (r & ? & ?%kept_evolves). eauto.
Qed.

(** Every interleaving of the steps, from a table with no process. *)
Definition resident_reachable (settings : ResidentSettings) (s : RState) : Prop :=
  exists db0, resident_processes db0 = ∅ /\ rtc (resident_step settings) (db0, ∅) s.

Lemma steps_evolve settings s s' : rtc (resident_step settings) s s' -> residents_evolve s s'.
Proof. induction 1; [done|]. etrans; [by eapply step_evolves|done]. Qed.

Lemma resident_reachable_inv settings s : resident_reachable settings s -> resident_inv s.
Proof.
  intros (db0 & He & Hs). assert (Hi : resident_inv (db0, ∅)).
  { split; [by unfold ids_used; simpl; rewrite He, dom_empty_L|]. intros ? ? ? ? Hr. simpl in Hr. by rewrite He in Hr. }
  revert Hi. clear He. induction Hs; eauto using resident_step_inv.
Qed.

Lemma consume_ok now tenant sb id f db db' :
  consume_bootstrap now tenant sb id f db = Ok (true, db') ->
  exists r, resident_processes db !! id = Some r /\ may_consume now db tenant sb f r = true /\
    resident_processes db' = <[id := resident_set_consumed f now r]> (resident_processes db).
Proof.
  unfold consume_bootstrap, update_resident. intros Hc. tx_step Hc. tx_step Hm. tx_step Hc. tx_step Hm.
  destruct (update_row _ _ _ _) as [b m] eqn:E. tx_step Hc. tx_step Hm. tx_step Hc.
  apply update_row_true in E as (r & Hr & Hg & ->). by exists r.
Qed.

Lemma may_consume_spec now db tenant sb f r :
  may_consume now db tenant sb f r = true <->
  rp_tenant_id r = tenant /\ rp_sandbox_id r = sb /\ rp_generation r = u64_as_i64 (bf_generation f) /\
  rp_active_lease_id r = Some (bf_lease_id f) /\ rp_bootstrap_sha256 r = Some (bf_sha256 f) /\
  rp_bootstrap_acknowledged_at r = None /\ (rp_bootstrap_consumed_at r = None \/ delivered_under f r = true) /\
  sidecar_clause now db (rp_sandbox_id r) (rp_tenant_id r) (rp_name r) = true.
Proof.
  unfold may_consume, row_fence_matches. rewrite !andb_true_iff, orb_true_iff, String.eqb_eq, Z.eqb_eq.
  rewrite !bool_decide_eq_true.
  assert (Hnone : forall (o : option Z), is_none o = true <-> o = None) by by intros []. rewrite !Hnone. tauto.
Qed.

(** *** Stored specifications *)

Definition bootstrap_path_ok (path : string) : Prop :=
  path_is_absolute path = true /\ path_starts_with path RESIDENT_PROCESS_BOOTSTRAP_PREFIX = true /\
  has_parent_dir path = false.

(** What a stored specification satisfies, whoever asked for it. *)
Record spec_wf (s : ResidentSpec) : Prop := {
  sw_argv : rsp_argv s <> [];
  sw_cwd : forall cwd, rsp_cwd s = Some cwd -> path_is_absolute cwd = true;
  sw_path : forall path, rsp_bootstrap_target_file s = Some path -> bootstrap_path_ok path;
  sw_mode : forall m, rsp_bootstrap_mode s = Some m -> (MODE_0400 <= m <= MODE_0700)%Z;
  sw_bytes : forall n, rsp_bootstrap_byte_count s = Some n -> (0 <= n <= MAX_RESIDENT_PROCESS_BOOTSTRAP_BYTES)%Z
}.

Definition row_wf (r : ResidentRow) : Prop :=
  is_supported_resident_process_name (rp_name r) = true /\ spec_wf (rp_spec r).

Lemma request_spec_wf q : validate_resident_process_request q = Ok tt -> spec_wf (request_spec q).
Proof.
  unfold validate_resident_process_request. destruct (is_nil (rq_argv q)) eqn:Ea; [done|].
  repeat (case_match; [done|]). intros (u & Hb & _)%bind_ok. unfold check_option in Hb.
  constructor; simpl.
  - by destruct (rq_argv q).
  - intros cwd Hc. match goal with E : match rq_cwd q with _ => _ end = false |- _ => rewrite Hc in E; by apply negb_false_iff in E end.
  - intros path Hp. destruct (rq_bootstrap q) as [b|]; [|done]. simpl in Hp. simplify_eq. unfold validate_bootstrap in Hb.
    case_match; [done|]. case_match eqn:Ep; [done|]. rewrite !orb_false_iff, !negb_false_iff in Ep. by destruct Ep as ((?&?)&?).
  - intros m Hp. destruct (rq_bootstrap q) as [b|]; [|done]. simpl in Hp. simplify_eq. unfold validate_bootstrap in Hb.
    do 2 (case_match; [done|]). case_match eqn:Ep; [done|]. rewrite negb_false_iff, andb_true_iff, !Z.leb_le in Ep. lia.
  - intros n Hp. destruct (rq_bootstrap q) as [b|]; [|done]. simpl in Hp. simplify_eq. unfold validate_bootstrap in Hb.
    case_match eqn:Ep; [done|]. apply Z.ltb_ge in Ep. lia.
Qed.

Lemma effective_spec_wf name placement q : spec_wf (request_spec q) -> spec_wf (request_spec (effective_request name placement q)).
Proof.
  intros [Ha Hc Hp Hm Hb]. unfold effective_request. case_match; [|by constructor].
  constructor; simpl in *; try done. intros cwd [= <-]. by vm_compute.
Qed.

Lemma check_request_ok enabled name sb q u : check_request enabled name sb q = Ok u ->
  validate_resident_process_request q = Ok tt /\ is_supported_resident_process_name name = true.
Proof.
  unfold check_request. intros ([] & Hv & Hc)%bind_ok. destruct (validate_resident_process_request q) as [[]|]; [|done].
  split; [done|]. do 2 (case_match; [done|]). case_match eqn:En; [done|]. by apply negb_false_iff in En.
Qed.

Lemma decide_put_row_wf rt settings ctx sb name q db plan :
  decide_put rt settings ctx sb name q db = Ok (PutPlanned plan) -> row_wf (plan_row plan).
Proof.
  unfold decide_put. intros (u & Hk & Hd)%bind_ok. apply check_request_ok in Hk as [Hv Hn].
  apply request_spec_wf in Hv. apply bind_ok in Hd as (s & _ & Hd).
  apply bind_ok in Hd as (claim & _ & Hd). apply bind_ok in Hd as (pl & _ & Hd).
  apply bind_ok in Hd as (adm & _ & Hd). apply (effective_spec_wf name pl) in Hv.
  destruct adm; try done; apply bind_ok in Hd as (plan' & Hp & [= ->]); unfold plan_put in Hp;
    apply bind_ok in Hp as ([[[id' g'] created] replaced] & _ & Hp); apply bind_ok in Hp as (payload & _ & [= <-]); by split.
Qed.

Definition rows_wf (db : Db World) : Prop := map_Forall (fun _ => row_wf) (resident_processes db).

Definition wf_kept (db db' : Db World) : Prop := rows_wf db -> rows_wf db'.

#[export] Instance wf_kept_preorder : PreOrder wf_kept.
Proof. split; [by intros ? ? | intros ? ? ? V1 V2 Hw; by apply V2, V1]. Qed.

Lemma same_residents_wf {A} (m : Tx World A) : tx_rel same_residents m -> tx_rel wf_kept m.
Proof. apply tx_rel_weaken. intros db db' He Hw. unfold rows_wf. by rewrite He. Qed.

Lemma update_resident_wf id guard f : (forall r, row_wf r -> row_wf (f r)) -> tx_rel wf_kept (update_resident id guard f).
Proof.
  intros Hf db b db' Hc Hw. unfold update_resident in Hc. tx_step Hc. tx_step Hm.
  destruct (update_row id guard f (resident_processes db1)) as [u m] eqn:E. tx_step Hc. tx_step Hm. tx_step Hc.
  intros id' r'. simpl. replace m with (update_row id guard f (resident_processes db1)).2 by by rewrite E.
  rewrite lookup_update_row. destruct (resident_processes db1 !! id') as [r|] eqn:Er; [|done]. intros [= <-].
  apply Hw in Er. case_match; auto.
Qed.


Lemma put_wf rt settings nonce plan : row_wf (plan_row plan) -> tx_rel wf_kept (put_transaction rt settings nonce plan).
Proof.
  intros Hp. unfold put_transaction. tx_bind_rel.
  { destruct (plan_activation plan); [apply same_residents_wf, same_residents_fence | apply tx_rel_ret; apply _]. }
  tx_bind_rel.
  { destruct (plan_replaces plan) as [g|].
    - unfold replace_resident. tx_bind_rel; [|apply tx_rel_if; [apply same_residents_wf, same_residents_modify | apply tx_rel_throw]].
      apply update_resident_wf. intros r [Hn _]. split; [done | apply Hp].
    - intros db u db' Hc Hw. unfold insert_resident in Hc. tx_step Hc. tx_step Hm.
      repeat (case_match; [|by tx_step Hc]). tx_step Hc. by apply map_Forall_insert_2. }
  tx_bind_rel; [apply same_residents_wf, same_residents_job|].
  destruct (shared_handoff settings); [|apply tx_rel_ret; apply _].
  destruct (plan_bootstrap plan); [apply same_residents_wf, same_residents_publish | apply tx_rel_ret; apply _].
Qed.

Lemma step_wf settings s s' : resident_step settings s s' -> rows_wf s.1 -> rows_wf s'.1.
Proof.
  intros [db0 db used rt ctx nonce sb name q plan Hd Hw Hn|db used now tenant sb id f|db used now tenant id
         |db used now tenant id g lease pn pu|db used now id q|db db' used Hk]; simpl.
  - apply (run_tx_rel wf_kept). apply put_wf. by eapply decide_put_row_wf.
  - apply (run_tx_rel wf_kept). unfold consume_bootstrap. tx_bind_rel; [apply tx_rel_get; apply _|].
    apply update_resident_wf. by intros r.
  - apply (run_tx_rel wf_kept). unfold stop_transaction. tx_bind_rel; [apply same_residents_wf, same_residents_run|].
    tx_bind_rel; [|apply tx_rel_ret; apply _]. apply update_resident_wf. by intros r.
  - apply (run_tx_rel wf_kept). unfold record_process_pod.
    tx_bind_rel; [|apply tx_rel_if; [apply tx_rel_ret; apply _ | apply tx_rel_throw]]. apply update_resident_wf. by intros r.
  - apply (run_tx_rel wf_kept). unfold apply_observation.
    tx_bind_rel; [|apply tx_rel_if; [apply tx_rel_ret; apply _ | apply tx_rel_throw]]. apply update_resident_wf. by intros r.
  - intros Hw id r' Hr. destruct (Hk _ _ Hr) as (r & Hr0 & Hd). apply Hw in Hr0 as [Hn Hs]. destruct Hd.
    destruct dk_identity0 as (_ & _ & Hnm). split; [by rewrite Hnm | congruence].
Qed.

(** *** The handlers are sequences of steps *)

Lemma delivery_kept_refl r : delivery_kept r r.
Proof. by constructor. Qed.

Lemma same_residents_step settings db db' used :
  same_residents db db' -> resident_step settings (db, used) (db', used).
Proof.
  intros He. apply rs_other. intros id r' Hr. exists r'. rewrite He in Hr. split; [done | apply delivery_kept_refl].
Qed.

Lemma same_residents_tx {A} (m : Tx World A) db : tx_rel same_residents m -> same_residents db (run_tx m db).2.
Proof. intros Hm. by apply run_tx_rel; [apply _|]. Qed.

Lemma forget_shared_same h id db : same_residents db (forget_shared h id db).
Proof. unfold forget_shared. destruct h; [|done]. apply same_residents_tx, same_residents_modify. Qed.

Lemma same_residents_event rt n sb kind data : tx_rel same_residents (insert_event_on_connection rt n sb kind data).
Proof.
  unfold insert_event_on_connection. tx_bind_rel; [apply same_residents_get|].
  apply tx_rel_if; [apply same_residents_modify | apply tx_rel_throw].
Qed.

Lemma put_steps settings rt ctx nonce sb name q st used :
  new_uuid rt 0 ∉ used -> generation_width (rst_db st) ->
  exists used', used' ⊆ {[new_uuid rt 0]} ∪ used /\
    rtc (resident_step settings) (rst_db st, used)
      (rst_db (put_resident_process rt settings ctx nonce sb name q st).2, used').
Proof.
  intros Hn Hw. unfold put_resident_process. destruct (decide_put _ _ _ _ _ _ _) as [[id r|plan]|] eqn:Ed;
    try (exists used; split; [set_solver | done]).
  destruct (reserve_plan _ _ _) as [[store res]|]; [|exists used; split; [set_solver | done]].
  exists ({[new_uuid rt 0]} ∪ used). split; [done|]. apply rtc_once.
  pose proof (rs_put settings (rst_db st) (rst_db st) used rt ctx nonce sb name q plan Ed Hw Hn) as Hs.
  by destruct (run_tx _ _) as [[]].
Qed.

Lemma stop_steps settings rt ctx sb name st used :
  rtc (resident_step settings) (rst_db st, used) (rst_db (stop_resident_process rt settings ctx sb name st).2, used).
Proof.
  unfold stop_resident_process. destruct (result_bind _ _) as [[[id process] fence]|]; [|done].
  eapply rtc_l; [apply (rs_stop settings (rst_db st) used (utc_now rt) (ctx_tenant_id ctx) id)|].
  destruct (run_tx _ _) as [[u|e] db]; simpl; [|done]. destruct (rp_bootstrap_sha256 process); [|done].
  apply rtc_once, same_residents_step. apply forget_shared_same.
Qed.

Lemma block_same rt sidecar reason db : same_residents db (run_tx (record_block rt sidecar reason) db).2.
Proof.
  apply same_residents_tx. unfold record_block.
  tx_bind_rel; [apply same_residents_event | apply same_residents_modify].
Qed.

Lemma sidecar_check_same rt sb tenant name db :
  same_residents db (ensure_sidecar_ready_if_required rt sb tenant name db).2.
Proof.
  unfold ensure_sidecar_ready_if_required. repeat case_match; simpl; try done; apply block_same.
Qed.

Lemma refuse_read_same rt q id sb db : same_residents db (refuse_read rt q id sb db).2.
Proof.
  unfold refuse_read. repeat (case_match; simpl; try done).
  all: match goal with E : ensure_sidecar_ready_if_required ?rt ?a ?b ?c ?d = (_, ?x) |- same_residents _ ?x =>
         replace x with (ensure_sidecar_ready_if_required rt a b c d).2 by (by rewrite E) end; apply sidecar_check_same.
Qed.

Lemma attestation_outcome_same rt settings ctx id process q db :
  same_residents db (attestation_outcome rt settings ctx id process q db).2.
Proof.
  unfold attestation_outcome. destruct (needs_attestation _ _ _) as [[]|]; simpl; try done.
  unfold issue_resident_placement_attestation. destruct (placement_attestation_derivation_key settings); [|done].
  destruct (placement_fence_on _ _ _ _ _ _); [|done]. case_match; [done|].
  match goal with |- same_residents _ (match run_tx ?m db with _ => _ end).2 =>
    enough (Hs : same_residents db (run_tx m db).2) by (by destruct (run_tx m db) as [[]]) end.
  apply same_residents_tx. unfold insert_attestation. tx_bind_rel; [apply tx_rel_get; apply _|].
  repeat (apply tx_rel_if; [try (apply tx_rel_ret; apply _) | try apply tx_rel_throw]). apply same_residents_modify.
Qed.

Lemma read_steps settings rt ctx id q st used :
  rtc (resident_step settings) (rst_db st, used)
    (rst_db (read_resident_process_bootstrap rt settings ctx id q st).2, used).
Proof.
  unfold read_resident_process_bootstrap. destruct (read_checks _ _ _ _ _) as [process|]; [|done].
  destruct (begin_bootstrap_delivery _ _ _ _ _ _) as [started st1] eqn:Eb.
  assert (Hdb : rst_db st1 = rst_db st).
  { unfold begin_bootstrap_delivery in Eb. destruct (begin_delivery _ _ _). repeat (case_match; simplify_eq/=; try done). }
  destruct started as [d|]; simpl; [|by rewrite Hdb]. case_match; simpl; [by rewrite Hdb|].
  rewrite Hdb. eapply rtc_l; [apply (rs_consume settings (rst_db st) used (utc_now rt) (ctx_tenant_id ctx)
                                  (rp_sandbox_id process) id (read_fence q))|].
  destruct (run_tx _ _) as [[[]|] db]; simpl; [| |done].
  - pose proof (attestation_outcome_same rt settings ctx id process q db) as Ha.
    destruct (attestation_outcome _ _ _ _ _ _ db) as [[att|] db']; simpl in *;
      [|by apply rtc_once, same_residents_step].
    destruct (mark_delivered _ _) as [[store []]|]; by apply rtc_once, same_residents_step.
  - pose proof (refuse_read_same rt q id (rp_sandbox_id process) db) as Ha.
    destruct (refuse_read _ _ _ _ db) as [e db']; simpl in *. by apply rtc_once, same_residents_step.
Qed.

Lemma pod_identity_steps settings rt tenant id g lease n u db used :
  rtc (resident_step settings) (db, used)
    ((record_provider_pod_identity rt tenant id g lease n u db).2, used).
Proof.
  unfold record_provider_pod_identity. case_match; [done|]. destruct (generation_i64 g) as [g'|]; [|done].
  eapply rtc_l; [apply (rs_pod settings db used (utc_now rt) tenant id g' lease n u)|].
  destruct (run_tx (record_process_pod _ _ _ _ _ _ _) db) as [[v|e] db1]; simpl; [|done].
  assert (Hs : same_residents db1 (run_tx (record_attestation_pod (utc_now rt) tenant id g' lease n u) db1).2).
  { apply same_residents_tx. unfold record_attestation_pod. tx_bind_rel; [apply tx_rel_get; apply _|].
    tx_bind_rel; [apply same_residents_modify | apply tx_rel_ret; apply _]. }
  destruct (run_tx _ db1) as [[c|e] db2]; by apply rtc_once, same_residents_step.
Qed.

Lemma observed_pod_steps settings rt ctx id process q db used :
  rtc (resident_step settings) (db, used) ((record_observed_pod rt ctx id process q db).2, used).
Proof.
  unfold record_observed_pod. case_match; [done|]. destruct (provider_isolation_version db id); [|done].
  case_match; [done|]. destruct (ob_provider_pod_name q), (ob_provider_pod_uid q); try done.
  match goal with |- context [if ?c then _ else _] => destruct c end; [done | apply pod_identity_steps].
Qed.

Lemma failure_event_same rt process q db : same_residents db (failure_event rt process q db).
Proof. unfold failure_event. case_match; [|done]. apply same_residents_tx, same_residents_event. Qed.

Lemma settle_same settings id process q st : same_residents (rst_db st) (rst_db (settle_bootstrap settings id process q st)).
Proof.
  unfold settle_bootstrap, reclaim_and_forget. destruct (rp_bootstrap_sha256 process); [|done]. case_match; [done|].
  destruct (is_terminal_observed _); case_match; simpl; try done; try apply forget_shared_same.
  etrans; apply forget_shared_same.
Qed.

Lemma observe_steps settings rt ctx id q st used :
  rtc (resident_step settings) (rst_db st, used)
    (rst_db (observe_resident_process rt settings ctx id q st).2, used).
Proof.
  unfold observe_resident_process. destruct (observation_checks _ _ _ _ _) as [[process []]|]; try done.
  etrans; [apply (observed_pod_steps settings rt ctx id process q)|].
  destruct (record_observed_pod _ _ _ _ _ _) as [[u|e] db]; simpl; [|done].
  eapply rtc_l; [apply (rs_observe settings db used (utc_now rt) id q)|].
  destruct (run_tx (apply_observation _ _ _) db) as [[v|e] db1]; simpl; [|done].
  apply rtc_once, same_residents_step. etrans; [apply (failure_event_same rt process q)|].
  etrans; [apply (settle_same settings id process q (mkResidentState (failure_event rt process q db1) (rst_store st)))|].
  done.
Qed.
End Machine.
