(* ===== verification/ResidentTheorems.v ===== *)
(** * Resident processes: the theorems

    What the handlers of [resident_processes.rs] guarantee about a bootstrap
    credential, a stored specification and the sidecar gate, for every
    interleaving of the steps of [ResidentProofs]. *)

From S2P Require Import Prelude Text BootstrapStore CoreTypes LifecycleContract Json Store Leases SandboxLifecycle World.
From S2P Require Import CommandOutput Authz Scopes Claim SterilePool PoolController SterileCells Effects SandboxStop.
From S2P Require Import ResidentContract ResidentAttestations BootstrapHandoff ResidentProcesses ResidentHandlers.
From S2P Require Import ResidentProofs.

Section Theorems.
Context `{UuidLib} `{SerdeLib} `{CellLib} `{AttestationLib} `{HandoffLib} `{Base64UrlLib}.

(** A row that was delivered, later. *)
Lemma consumed_later settings s s' now tenant sb id f db1 :
  resident_inv s -> consume_bootstrap now tenant sb id f s.1 = Ok (true, db1) ->
  rtc (resident_step settings) (db1, s.2) s' ->
  forall r', resident_processes s'.1 !! id = Some r' -> rp_generation r' = u64_as_i64 (bf_generation f) ->
    is_Some (rp_bootstrap_consumed_at r') /\ delivered_under f r' = true.
Proof.
  intros [Hu _] (r & Hr & Hm & Hdb)%consume_ok Hs r' Hr' Hg.
  apply may_consume_spec in Hm as (_ & _ & Hrg & _).
  assert (Hid : id ∈ s.2) by (apply (Hu id), elem_of_dom; by exists r).
  destruct (steps_evolve _ _ _ Hs) as [_ Hv]. destruct (Hv id r' Hid Hr') as (r1 & Hr1 & _ & Hev). simpl in Hr1.
  rewrite Hdb, lookup_insert_eq in Hr1. injection Hr1 as <-. destruct Hev as [Hsg|Hlt].
  - destruct (sg_consumed _ _ Hsg ltac:(by eexists)) as (Hc & D1 & D2 & D3). split; [done|].
    unfold delivered_under. rewrite D1, D2, D3. simpl. by rewrite !bool_decide_eq_true_2.
  - simpl in Hlt. rewrite Hrg, Hg in Hlt. lia.
Qed.

(** C2. The bootstrap credential of a generation goes to one lease: when the
    consume statements of two reads of a process match, the second one any
    time after the first and with any steps of other requests in between, and
    both name the same generation, they name the same lease and the same
    digest. *)
Theorem bootstrap_has_one_holder settings s s' now now' tenant tenant' sb sb' id f f' db1 db2 :
  resident_reachable settings s ->
  consume_bootstrap now tenant sb id f s.1 = Ok (true, db1) ->
  rtc (resident_step settings) (db1, s.2) s' ->
  consume_bootstrap now' tenant' sb' id f' s'.1 = Ok (true, db2) ->
  bf_generation f' = bf_generation f -> f' = f.
Proof.
  intros Hi%resident_reachable_inv Hc Hs (r' & Hr' & Hm & _)%consume_ok Hg.
  apply may_consume_spec in Hm as (_ & _ & Hrg & _ & _ & _ & Hd & _). rewrite Hg in Hrg.
  destruct (consumed_later _ _ _ _ _ _ _ _ _ Hi Hc Hs r' Hr' Hrg) as [[t Ht] Hf].
  destruct Hd as [Hd|Hd]; [congruence|]. unfold delivered_under in Hf, Hd.
  rewrite !andb_true_iff, !bool_decide_eq_true in Hf, Hd. destruct f, f'; simpl in *. naive_solver.
Qed.

(** C23. An acknowledged credential is never handed out again: once a process
    has acknowledged the bootstrap of a generation, no later consume statement
    for that generation matches, whatever happened in between. *)
Theorem acknowledged_bootstrap_is_gone settings s s' id r now tenant sb f db' :
  resident_reachable settings s -> resident_processes s.1 !! id = Some r ->
  is_Some (rp_bootstrap_acknowledged_at r) -> rtc (resident_step settings) s s' ->
  u64_as_i64 (bf_generation f) = rp_generation r ->
  consume_bootstrap now tenant sb id f s'.1 <> Ok (true, db').
Proof.
  intros [Hu _]%resident_reachable_inv Hr Ha Hs Hg (r' & Hr' & Hm & _)%consume_ok.
  apply may_consume_spec in Hm as (_ & _ & Hrg & _ & _ & Hn & _).
  assert (Hid : id ∈ s.2) by (apply (Hu id), elem_of_dom; by exists r).
  destruct (steps_evolve _ _ _ Hs) as [_ Hv]. destruct (Hv id r' Hid Hr') as (r1 & Hr1 & _ & Hev).
  simplify_eq. destruct Hev as [Hsg|Hlt]; [|rewrite Hrg, Hg in Hlt; lia].
  destruct (sg_acknowledged _ _ Hsg Ha) as [t Ht]. congruence.
Qed.

(** C24. Every stored specification is well formed: in every reachable state
    the process has a supported name, a non-empty argument list, an absolute
    working directory, and a bootstrap file that lies below
    [/run/sandboxwich/bootstrap] with no parent component, with a mode between
    0400 and 0700 and at most 64 KiB. *)
Theorem stored_specs_well_formed settings s id r :
  resident_reachable settings s -> resident_processes s.1 !! id = Some r -> row_wf r.
Proof.
  intros (db0 & He & Hs). assert (Hw : rows_wf db0) by (unfold rows_wf; rewrite He; apply map_Forall_empty).
  intros Hr. assert (Hall : rows_wf s.1); [|by apply (Hall id)].
  change db0 with (db0, (∅ : gset Uuid)).1 in Hw. revert Hw. generalize (db0, (∅ : gset Uuid)), Hs. clear.
  intros s0 Hs. induction Hs; eauto using step_wf.
Qed.

(** *** The sidecar gate *)

Lemma existsb_named db sb name (P : Uuid * ResidentRow -> bool) :
  named_once db -> (forall kr, P kr = true -> is_named sb name kr = true) ->
  existsb P (map_to_list (resident_processes db)) =
  match find_named db sb name with Some kr => P kr | None => false end.
Proof.
  intros Hn HP. apply eq_true_iff_eq. rewrite existsb_exists. split.
  - intros ([id r] & Hin & Hp). pose proof (HP _ Hp) as Hnm. destruct (find_named db sb name) as [[id' r']|] eqn:E.
    + apply find_named_some in E as (Hr' & Hs' & Hm'). apply list_elem_of_In, elem_of_map_to_list in Hin.
      unfold is_named in Hnm. apply andb_true_iff in Hnm as [Hs%bool_decide_eq_true Hm%String.eqb_eq]. simpl in Hs, Hm.
      assert (id = id') as -> by (eapply Hn; [exact Hr' | exact Hin | congruence | congruence]). by simplify_eq.
    + eapply find_none in E; [|exact Hin]. congruence.
  - destruct (find_named db sb name) as [[id r]|] eqn:E; [|done]. intros Hp. exists (id, r). split; [|done].
    apply find_named_some in E as (Hr & _). by apply list_elem_of_In, elem_of_map_to_list.
Qed.

(** The lease part of the gate. *)
Definition sidecar_lease_is_live (now : Z) (db : Db World) (lease : option Uuid) : bool :=
  match lease ≫= (fun l => job_leases db !! l) with
  | Some l => is_active l && (now <? lr_expires_at l)%Z
  | None => false
  end.

Lemma lease_block_none now db l : lease_block_reason now db l = None <-> sidecar_lease_is_live now db (Some l) = true.
Proof.
  unfold lease_block_reason, sidecar_lease_is_live. simpl. destruct (job_leases db !! l) as [row|]; [|done].
  destruct (is_active row); simpl; [|done]. destruct (Z.leb_spec (lr_expires_at row) now), (Z.ltb_spec now (lr_expires_at row));
    try done; lia.
Qed.

(** What the three gates ask of a sidecar of the tenant. *)
Definition sidecar_ready (now : Z) (db : Db World) (r : ResidentRow) : bool :=
  supported_provider_isolation_version (rp_provider_isolation_version r)
  && bool_decide (rp_desired_state r = ResidentProcessDesiredState.Running)
  && bool_decide (rp_observed_state r = ResidentProcessObservedState.Running)
  && sidecar_lease_is_live now db (rp_active_lease_id r).

(** The gate, by the row it is about. *)
Definition gate (now : Z) (db : Db World) (sb : Uuid) : bool :=
  match find_named db sb ORB_SIDECAR_RESIDENT_PROCESS_NAME with
  | Some kr => sidecar_ready now db kr.2
  | None => true
  end.

(** The sandbox's sidecar, if any, is the tenant's and readable. *)
Definition sidecar_is_ours (db : Db World) (sb : Uuid) (tenant : string) : Prop :=
  forall id r, find_named db sb ORB_SIDECAR_RESIDENT_PROCESS_NAME = Some (id, r) ->
    rp_tenant_id r = tenant /\ row_to_resident_process r = Ok r /\
    try_u32 (rp_provider_isolation_version r) = Some (rp_provider_isolation_version r).

Lemma clause_is_gate now db sb tenant :
  named_once db -> sidecar_is_ours db sb tenant ->
  sidecar_clause now db sb tenant ORB_EXECUTOR_RESIDENT_PROCESS_NAME = gate now db sb.
Proof.
  intros Hn Ho. unfold sidecar_clause, gate. rewrite String.eqb_refl. cbn [negb orb].
  rewrite !(existsb_named db sb ORB_SIDECAR_RESIDENT_PROCESS_NAME) by
    (done || (intros kr; unfold is_ready_sidecar, is_sidecar_of, is_named; rewrite !andb_true_iff; tauto)).
  destruct (find_named db sb _) as [[id r]|] eqn:E; [|done]. destruct (Ho _ _ E) as (Ht & _ & _).
  apply find_named_some in E as (_ & Hs & Hm). unfold is_ready_sidecar, is_sidecar_of, sidecar_ready, sidecar_lease_is_live. simpl.
  rewrite Hm, bool_decide_eq_true_2 by done. rewrite (proj2 (String.eqb_eq _ _) Ht), String.eqb_refl. done.
Qed.

Lemma claim_gate_is_gate now db sb tenant :
  sidecar_is_ours db sb tenant -> executor_sidecar_is_ready_for_claim now db sb tenant = gate now db sb.
Proof.
  intros Ho. unfold executor_sidecar_is_ready_for_claim, gate. unfold find_named, is_named in *.
  destruct (find _ _) as [[id r]|] eqn:E; [|done]. destruct (Ho _ _ E) as (Ht & _ & Hv).
  by rewrite (proj2 (String.eqb_eq _ _) Ht), Hv.
Qed.

Lemma read_gate_is_gate rt db sb tenant :
  sidecar_is_ours db sb tenant ->
  (ensure_sidecar_ready_if_required rt sb tenant ORB_EXECUTOR_RESIDENT_PROCESS_NAME db).1 = Ok tt <->
  gate (utc_now rt) db sb = true.
Proof.
  intros Ho. unfold ensure_sidecar_ready_if_required, gate, fetch_named_resident_process.
  rewrite String.eqb_refl. cbn [negb]. destruct (find_named db sb _) as [[id r]|] eqn:E; [|done].
  destruct (Ho _ _ E) as (Ht & Hrow & Hv). rewrite Hrow. cbn [result_bind].
  rewrite (proj2 (String.eqb_eq _ _) Ht). cbn [negb]. unfold provider_isolation_version.
  apply find_named_some in E as (Hr & _ & _). rewrite Hr, Hv. unfold sidecar_ready. cbn [snd].
  destruct (supported_provider_isolation_version _); cbn [negb andb]; [|done].
  destruct (bool_decide (rp_desired_state r = _)); cbn [negb andb]; [|done].
  destruct (bool_decide (rp_observed_state r = _)); cbn [negb andb]; [|done].
  destruct (rp_active_lease_id r) as [l|]; [|done]. rewrite <-lease_block_none. by destruct (lease_block_reason _ _ _).
Qed.

(** C10. The three places that withhold the executor until its sidecar is
    ready agree: the claim of the executor's job, the statement that consumes
    its bootstrap and the check that explains a refusal give the same answer
    on every reachable state, for a sandbox whose sidecar row, if it has one,
    is of the tenant and readable, with an isolation version of 32 bits. *)
Theorem sidecar_gates_agree settings s rt sb tenant :
  resident_reachable settings s -> sidecar_is_ours s.1 sb tenant ->
  sidecar_clause (utc_now rt) s.1 sb tenant ORB_EXECUTOR_RESIDENT_PROCESS_NAME
  = executor_sidecar_is_ready_for_claim (utc_now rt) s.1 sb tenant /\
  ((ensure_sidecar_ready_if_required rt sb tenant ORB_EXECUTOR_RESIDENT_PROCESS_NAME s.1).1 = Ok tt <->
   sidecar_clause (utc_now rt) s.1 sb tenant ORB_EXECUTOR_RESIDENT_PROCESS_NAME = true).
Proof.
  intros [_ Hn]%resident_reachable_inv Ho. rewrite clause_is_gate, claim_gate_is_gate, read_gate_is_gate by done. done.
Qed.

(** *** Reading *)

Lemma begin_delivery_db now settings id process f st r st' :
  begin_bootstrap_delivery now settings id process f st = (r, st') -> rst_db st' = rst_db st.
Proof.
  unfold begin_bootstrap_delivery. destruct (begin_delivery _ _ _) as [store res].
  intros Hb. repeat (case_match; try (simplify_eq/=; done)).
Qed.

Lemma mark_delivered_ok store d store' b : mark_delivered store d = Some (store', Ok b) -> del_bootstrap d = Some b.
Proof.
  unfold mark_delivered. destruct (del_bootstrap d) as [b'|]; [|done]. destruct (exact_delivery store d) as [[]|]; naive_solver.
Qed.

Lemma owner_role_ok process ctx u : ensure_resident_owner_role process ctx = Ok u ->
  (exists w, ctx_principal ctx = PrincipalWorker w) \/
  (exists w, ctx_principal ctx = PrincipalGuest w (rp_sandbox_id process)).
Proof.
  unfold ensure_resident_owner_role. destruct (ctx_principal ctx) as [| |w|w sb]; try done; [by left; exists w|].
  case_match eqn:E; [|done]. apply andb_true_iff in E as [->%bool_decide_eq_true _]. right. by exists w.
Qed.

(** A credential is read by the worker or the guest of the sandbox, under
    the active and unexpired lease of the current generation of the process:
    the bytes returned are those of the digest the row records, they were not
    acknowledged before, the executor's are returned only while the sidecar
    gate is open, and the row then names the lease the bytes went to. *)
Theorem read_credential_is_current rt settings ctx id q st b att st' :
  read_resident_process_bootstrap rt settings ctx id q st = (Ok (b, att), st') ->
  exists r lease, resident_processes (rst_db st) !! id = Some r /\ rp_tenant_id r = ctx_tenant_id ctx /\
    ((exists w, ctx_principal ctx = PrincipalWorker w) \/
     (exists w, ctx_principal ctx = PrincipalGuest w (rp_sandbox_id r))) /\
    rp_generation r = u64_as_i64 (rr_generation q) /\ rp_active_lease_id r = Some (rr_lease_id q) /\
    ensure_resident_lease_scope (rst_db st) (utc_now rt) id r (rr_lease_id q) ctx = Ok lease /\
    lb_generation b = rr_generation q /\ lb_sha256 b = rr_expected_sha256 q /\
    rp_bootstrap_sha256 r = Some (lb_sha256 b) /\ rp_bootstrap_acknowledged_at r = None /\
    sidecar_clause (utc_now rt) (rst_db st) (rp_sandbox_id r) (rp_tenant_id r) (rp_name r) = true /\
    exists db, run_tx (consume_bootstrap (utc_now rt) (ctx_tenant_id ctx) (rp_sandbox_id r) id (read_fence q))
                 (rst_db st) = (Ok true, db) /\
      resident_processes db !! id = Some (resident_set_consumed (read_fence q) (utc_now rt) r).
Proof.
  unfold read_resident_process_bootstrap. destruct (read_checks _ _ _ _ _) as [process|] eqn:Ek; [|done].
  destruct (begin_bootstrap_delivery _ _ _ _ _ _) as [started st1] eqn:Eb. apply begin_delivery_db in Eb.
  destruct started as [d|]; [|done]. destruct (fence_of_delivery_differs q d) eqn:Ed; [done|].
  rewrite Eb. destruct (run_tx _ (rst_db st)) as [consumed db] eqn:Ec. destruct consumed as [[]|]; try done;
    [|by destruct (refuse_read _ _ _ _ _)].
  destruct (attestation_outcome _ _ _ _ _ _ _) as [[att'|] db'] eqn:Ea; [|done].
  destruct (mark_delivered _ _) as [[store' [b'|]]|] eqn:Em; try done. intros [= -> -> _].
  apply mark_delivered_ok in Em. unfold fence_of_delivery_differs in Ed. rewrite Em in Ed.
  apply orb_false_iff in Ed as [Eg%negb_false_iff%Z.eqb_eq Es%negb_false_iff%String.eqb_eq].
  unfold read_checks in Ek. apply bind_ok in Ek as (p & Hp & Ek). unfold fetch_resident_process_by_id in Hp.
  destruct (resident_processes _ !! id) as [r|] eqn:Er; [|done]. apply row_to_resident_ok in Hp as [-> _].
  case_match eqn:Et; [done|]. apply negb_false_iff, String.eqb_eq in Et.
  apply bind_ok in Ek as (u & Ho & Ek). apply bind_ok in Ek as (lease & Hl & [= <-]).
  assert (Hc : consume_bootstrap (utc_now rt) (ctx_tenant_id ctx) (rp_sandbox_id r) id (read_fence q) (rst_db st) = Ok (true, db)).
  { unfold run_tx in Ec. destruct (consume_bootstrap _ _ _ _ _ _) as [[]|]; naive_solver. }
  apply consume_ok in Hc as (r1 & Hr1 & Hm & Hdb). simplify_eq. apply may_consume_spec in Hm as (_ & _ & Hg & Hal & Hsha & Hack & _ & Hgate).
  exists r, lease. split_and!; try done; [by eapply owner_role_ok | by rewrite Es |].
  exists db. split; [done|]. by rewrite Hdb, lookup_insert_eq.
Qed.
End Theorems.
