(* ===== verification/SterileCellProofs.v ===== *)
(** * Sterile cells: what holds under every interleaving

    The requests and sweeps that write cells, memberships and claims, as the
    steps of one machine: a handler's transaction is a step, a handler without
    one is a step per statement, and everything else the system does is a step
    that leaves the three tables alone.  Each step moves a cell, a membership
    and a claim along the relations below, so the theorems hold for every
    order in which requests commit. *)

From S2P Require Import Prelude CoreTypes Json Store Leases SandboxLifecycle World CommandOutput.
From S2P Require Import Authz Scopes SterilePool PoolController SterileCells ResidentProcesses.
From stdpp Require Import sorting.

(** ** How a row may change *)

Definition state_rank (s : SterileCellState) : nat :=
  match s with
  | SterileCellState.Ready => 0
  | SterileCellState.Leased => 1
  | SterileCellState.Destroyed | SterileCellState.Quarantined => 2
  end.

(** What a lease writes into a cell. *)
Definition lease_binding (c : SterileCellRow) :=
  (cell_tenant_id c, cell_lease_id c, cell_generation c, cell_organization_id c,
   cell_workspace_id c, cell_thread_id c, cell_runner_session_id c,
   cell_lease_attestation_sha256 c, cell_lease_expires_at c, cell_ever_tenant_exposed c).

(** What never changes. *)
Definition cell_identity (c : SterileCellRow) :=
  (cell_worker_id c, cell_provider_cell_id c, cell_release c, cell_tenant_id c, cell_expires_at c,
   cell_created_at c).

(** A cell goes from ready to leased to a terminal state, and its binding is
    written at most once, on leaving [ready]. *)
Record cell_evolves (c c' : SterileCellRow) : Prop := {
  ce_identity : cell_identity c' = cell_identity c;
  ce_rank : (state_rank (cell_state c) <= state_rank (cell_state c'))%nat;
  ce_binding : lease_binding c' = lease_binding c \/
    (cell_state c = SterileCellState.Ready /\ cell_ever_tenant_exposed c = false /\
     cell_ever_tenant_exposed c' = true)
}.

#[export] Instance cell_evolves_preorder : PreOrder cell_evolves.
Proof.
  split.
  - intros c. constructor; auto.
  - intros c1 c2 c3 [I1 R1 B1] [I2 R2 B2]. constructor; [congruence | lia |].
    destruct B1 as [B1|(S1 & F1 & T1)], B2 as [B2|(S2 & F2 & T2)].
    + left. congruence.
    + right. unfold lease_binding in B1. rewrite S2 in R1. destruct (cell_state c1) eqn:E; simpl in R1; try lia.
      split; [done|]. split; congruence.
    + right. unfold lease_binding in B2. split; [done|]. split; [done | congruence].
    + congruence.
Qed.

Definition is_terminal_member (m : MembershipRow) : bool := negb (is_live_member m).

(** A membership keeps its tuple, never becomes live or provisioning again,
    and becomes ready from provisioning only. *)
Record member_moves (m m' : MembershipRow) : Prop := {
  mm_tuple : (mb_tenant_id m', mb_release m', mb_candidate_agent_image m', mb_candidate_maestro_image m')
             = (mb_tenant_id m, mb_release m, mb_candidate_agent_image m, mb_candidate_maestro_image m);
  mm_live : is_live_member m' = true -> is_live_member m = true;
  mm_provisioning : mb_state m' = MemberProvisioning -> mb_state m = MemberProvisioning
}.

#[export] Instance member_moves_preorder : PreOrder member_moves.
Proof.
  split.
  - by intros m; constructor.
  - intros m1 m2 m3 [T1 L1 P1] [T2 L2 P2]. constructor; [congruence | auto | auto].
Qed.

(** A table whose rows persist and change along a relation. *)
Definition rows_follow `{Countable K} {A} (R : relation A) (m m' : gmap K A) : Prop :=
  forall k x, m !! k = Some x -> exists y, m' !! k = Some y /\ R x y.

#[export] Instance rows_follow_preorder `{Countable K} {A} (R : relation A) `{!PreOrder R} :
  PreOrder (rows_follow (K := K) R).
Proof.
  split.
  - intros m k x Hx. exists x. split; [done | reflexivity].
  - intros m1 m2 m3 H1 H2 k x Hx. destruct (H1 _ _ Hx) as (y & Hy & Rxy).
    destruct (H2 _ _ Hy) as (z & Hz & Ryz). exists z. split; [done | by etrans].
Qed.

Lemma rows_follow_insert `{Countable K} {A} (R : relation A) `{!PreOrder R} (m : gmap K A) k y :
  (forall x, m !! k = Some x -> R x y) -> rows_follow R m (<[k := y]> m).
Proof.
  intros HR k' x Hx. destruct (decide (k = k')) as [->|].
  - exists y. rewrite lookup_insert_eq. auto.
  - exists x. rewrite lookup_insert_ne by done. split; [done | reflexivity].
Qed.

(** A ready member has the cell it was admitted with. *)
Definition ready_ok (db : Db World) : Prop :=
  forall id m, sterile_pool_memberships (world db) !! id = Some m -> mb_state m = MemberReady ->
    exists c, sterile_cells db !! id = Some c /\ cell_release c = mb_release m /\
      cell_tenant_id c = Some (mb_tenant_id m).

Record pool_rel (db db' : Db World) : Prop := {
  pl_cells : rows_follow cell_evolves (sterile_cells db) (sterile_cells db');
  pl_members : rows_follow member_moves (sterile_pool_memberships (world db))
                 (sterile_pool_memberships (world db'));
  pl_ready : ready_ok db -> ready_ok db'
}.

#[export] Instance pool_rel_preorder : PreOrder pool_rel.
Proof.
  split.
  - intros db. constructor; try reflexivity. auto.
  - intros db1 db2 db3 [] []. constructor; try (by etrans). auto.
Qed.

(** Writes beside the three tables. *)
Definition beside_pool (db db' : Db World) : Prop :=
  sterile_cells db' = sterile_cells db /\
  sterile_pool_memberships (world db') = sterile_pool_memberships (world db) /\
  sterile_cell_claims (world db') = sterile_cell_claims (world db).

#[export] Instance beside_pool_preorder : PreOrder beside_pool.
Proof. split; [by intros ? | intros ? ? ? (?&?&?) (?&?&?); split_and!; congruence]. Qed.

Lemma beside_pool_rel db db' : beside_pool db db' -> pool_rel db db'.
Proof.
  intros (Hc & Hm & _). constructor; rewrite ?Hc, ?Hm; try reflexivity.
  unfold ready_ok. by rewrite Hc, Hm.
Qed.

(** A preorder over the tables that allows every write beside the pool. *)
Class PoolRelation (R : relation (Db World)) : Prop := {
  pool_relation_preorder :: PreOrder R;
  pool_relation_beside db db' : beside_pool db db' -> R db db'
}.

#[export] Instance beside_pool_relation : PoolRelation beside_pool.
Proof. split; [apply _ | done]. Qed.

#[export] Instance pool_rel_relation : PoolRelation pool_rel.
Proof. split; [apply _ | apply beside_pool_rel]. Qed.

Section BaseStatements.
Context (R : relation (Db World)) `{!PoolRelation R}.

Lemma get_world_pool : tx_rel R get_world.
Proof. intros db w db' [_ ->]%get_world_ok. reflexivity. Qed.

Lemma modify_beside f :
  (forall w, sterile_pool_memberships (f w) = sterile_pool_memberships w /\
             sterile_cell_claims (f w) = sterile_cell_claims w) -> tx_rel R (modify_world f).
Proof.
  intros Hf. apply tx_rel_modify. intros db. apply pool_relation_beside.
  destruct (Hf (world db)). by split_and!.
Qed.

Lemma modify_tables_beside f : (forall db, beside_pool db (f db)) -> tx_rel R (tx_modify f).
Proof. intros Hf. apply tx_rel_modify. intros db. apply pool_relation_beside, Hf. Qed.

End BaseStatements.

Create HintDb pool.

Ltac pool_auto :=
  repeat match goal with
    | |- tx_rel _ (tx_ret _) => apply tx_rel_ret; apply _
    | |- tx_rel _ (committed _) => apply tx_rel_ret; apply _
    | |- tx_rel _ (rolled_back _) => apply tx_rel_ret; apply _
    | |- tx_rel _ (tx_throw _) => apply tx_rel_throw
    | |- tx_rel _ tx_get => apply tx_rel_get; apply _
    | |- tx_rel _ get_world => apply get_world_pool
    | |- tx_rel _ (tx_lift _) => apply tx_rel_lift; apply _
    | |- tx_rel _ (tx_bind _ _) => apply tx_rel_bind; [apply _ | | intro]
    | |- tx_rel _ (if _ then _ else _) => apply tx_rel_if
    | |- tx_rel _ (match _ with _ => _ end) => case_match
    | |- _ => solve [eauto 3 with pool typeclass_instances]
    | |- tx_rel _ (modify_world _) => apply (modify_beside _); intro; split; reflexivity
    | |- tx_rel _ (tx_modify _) => apply (modify_tables_beside _); intro; split_and!; reflexivity
    end.

Section Beside.
Context (R : relation (Db World)) `{!PoolRelation R} `{UuidLib} `{SerdeLib}.

Lemma insert_event_pool rt n sb kind data : tx_rel R (insert_event_on_connection rt n sb kind data).
Proof. unfold insert_event_on_connection. pool_auto.
Qed.

Lemma set_state_pool rt n id from next data :
  tx_rel R (set_sandbox_state_on_connection rt n id from next data).
Proof. unfold set_sandbox_state_on_connection. pool_auto. apply insert_event_pool. Qed.

Lemma insert_job_pool job : tx_rel R (insert_job_on_connection job).
Proof. unfold insert_job_on_connection. pool_auto. Qed.

Lemma insert_sandbox_pool s : tx_rel R (insert_sandbox_on_connection s).
Proof. unfold insert_sandbox_on_connection. pool_auto. Qed.
End Beside.

#[export] Hint Resolve insert_event_pool set_state_pool insert_job_pool insert_sandbox_pool : pool.

(** ** Statements over the three tables *)

(** Nothing joins the pool. *)
Definition pool_shrinks (db db' : Db World) : Prop :=
  pool_rel db db' /\
  forall id, sterile_pool_memberships (world db) !! id = None ->
             sterile_pool_memberships (world db') !! id = None.

#[export] Instance pool_shrinks_relation : PoolRelation pool_shrinks.
Proof.
  split; [split|].
  - intros db. by split; [reflexivity|].
  - intros db1 db2 db3 [R1 D1] [R2 D2]. split; [by etrans | auto].
  - intros db db' Hb. split; [by apply beside_pool_rel|]. destruct Hb as (_ & -> & _). done.
Qed.

(** .. and no claim is written. *)
Definition pool_evolves (db db' : Db World) : Prop :=
  pool_shrinks db db' /\ sterile_cell_claims (world db') = sterile_cell_claims (world db).

#[export] Instance pool_evolves_relation : PoolRelation pool_evolves.
Proof.
  split; [split|].
  - intros db. by split; [reflexivity|].
  - intros db1 db2 db3 [R1 D1] [R2 D2]. split; [by etrans | congruence].
  - intros db db' Hb. split; [by apply pool_relation_beside | apply Hb].
Qed.

Lemma tx_rel_impl {W A} (R S : relation (Db W)) (m : Tx W A) :
  (forall db db', R db db' -> S db db') -> tx_rel R m -> tx_rel S m.
Proof. intros HRS Hm db a db' E. eapply HRS, Hm, E. Qed.

Lemma evolves_shrinks {A} (m : Tx World A) : tx_rel pool_evolves m -> tx_rel pool_shrinks m.
Proof. apply tx_rel_impl. by intros db db' [Hr _]. Qed.

(** A membership that is rewritten neither becomes ready nor changes tuple. *)
Definition member_ages (m m' : MembershipRow) : Prop :=
  member_moves m m' /\ (mb_state m' = MemberReady -> mb_state m = MemberReady).

#[export] Instance member_ages_preorder : PreOrder member_ages.
Proof. split; [by intros m; split; [reflexivity|] | intros ? ? ? [? ?] [? ?]; split; [by etrans | auto]]. Qed.

Lemma rows_follow_mono `{Countable K} {A} (R S : relation A) (m m' : gmap K A) :
  (forall x y, R x y -> S x y) -> rows_follow R m m' -> rows_follow S m m'.
Proof. intros HRS Hm k x Hx. destruct (Hm _ _ Hx) as (y & Hy & Hr). eauto. Qed.

(** The tables after cells evolved and memberships aged. *)
Lemma tables_evolve db db' :
  rows_follow cell_evolves (sterile_cells db) (sterile_cells db') ->
  rows_follow member_ages (sterile_pool_memberships (world db)) (sterile_pool_memberships (world db')) ->
  (forall id, sterile_pool_memberships (world db) !! id = None ->
              sterile_pool_memberships (world db') !! id = None) ->
  sterile_cell_claims (world db') = sterile_cell_claims (world db) -> pool_evolves db db'.
Proof.
  intros Hc Hm Hd Hk. split; [split|]; [|done|done]. constructor; [done | |].
  - eapply rows_follow_mono; [|exact Hm]. by intros ? ? [? _].
  - intros Hok id m' Hm' Hs. destruct (sterile_pool_memberships (world db) !! id) as [m|] eqn:E.
    2:{ rewrite Hd in Hm' by done. done. }
    destruct (Hm _ _ E) as (m2 & Hm2 & [Ht Hr]). simplify_eq.
    destruct (Hok _ _ E (Hr Hs)) as (c & Hc0 & Hrel & Hten). destruct (Hc _ _ Hc0) as (c' & Hc' & [Hi _ _]).
    exists c'. unfold cell_identity in Hi. destruct Ht as [Ht _ _]. simplify_eq. split_and!; congruence.
Qed.

(** Only cells, or only memberships, were written. *)
Lemma cells_only_evolve db db' :
  rows_follow cell_evolves (sterile_cells db) (sterile_cells db') ->
  world db' = world db -> pool_evolves db db'.
Proof. intros Hc Hw. apply tables_evolve; rewrite ?Hw; auto. reflexivity. Qed.

Lemma members_only_evolve db db' :
  rows_follow member_ages (sterile_pool_memberships (world db)) (sterile_pool_memberships (world db')) ->
  (forall id, sterile_pool_memberships (world db) !! id = None ->
              sterile_pool_memberships (world db') !! id = None) ->
  sterile_cells db' = sterile_cells db ->
  sterile_cell_claims (world db') = sterile_cell_claims (world db) -> pool_evolves db db'.
Proof. intros Hm Hd Hc Hk. apply tables_evolve; rewrite ?Hc; auto. reflexivity. Qed.

Section Statements.

Lemma update_cell_evolves id guard f :
  (forall c, guard c = true -> cell_evolves c (f c)) -> tx_rel pool_evolves (update_cell id guard f).
Proof.
  intros Hf db b db' Hc. unfold update_cell in Hc. tx_step Hc. tx_step Hm.
  destruct (sterile_cells _ !! id) as [c|] eqn:E; [|tx_step Hc; reflexivity].
  destruct (guard c) eqn:Eg; [|tx_step Hc; reflexivity].
  destruct (cell_check (f c)); [|by tx_step Hc]. tx_step Hc. tx_step Hm. tx_step Hc.
  apply cells_only_evolve; [|reflexivity].
  apply rows_follow_insert; [apply _|]. intros x Hx. simplify_eq. auto.
Qed.

Lemma update_membership_evolves id guard f :
  (forall m, guard m = true -> member_ages m (f m)) ->
  tx_rel pool_evolves (update_membership id guard f).
Proof.
  intros Hf db b db' Hc. unfold update_membership in Hc. world_step Hc.
  destruct (sterile_pool_memberships _ !! id) as [m|] eqn:E; [|tx_step Hc; reflexivity].
  destruct (guard m) eqn:Eg; [|tx_step Hc; reflexivity].
  destruct (membership_check (f m)); [|by tx_step Hc]. world_step Hc. tx_step Hc.
  apply members_only_evolve; [| |reflexivity..]; simpl.
  - apply rows_follow_insert; [apply _|]. intros x Hx. simplify_eq. auto.
  - intros k Hk. rewrite lookup_insert_ne; [done | congruence].
Qed.

Lemma update_memberships_evolves guard f :
  (forall id m, guard id m = true -> member_ages m (f id m)) ->
  tx_rel pool_evolves (update_memberships guard f).
Proof.
  intros Hf db b db' Hc. unfold update_memberships in Hc. world_step Hc.
  destruct (forallb _ _); [|by tx_step Hc]. world_step Hc.
  apply members_only_evolve; [| |reflexivity..]; simpl.
  - intros k m Hm. rewrite map_lookup_imap, Hm. simpl. eexists. split; [done|].
    destruct (guard k m) eqn:E; [auto | reflexivity].
  - intros k Hk. by rewrite map_lookup_imap, Hk.
Qed.

(** Adding a row under a key that has none. *)
Lemma rows_follow_new `{Countable K} {A} (R : relation A) `{!PreOrder R} (m : gmap K A) k y :
  m !! k = None -> rows_follow R m (<[k := y]> m).
Proof. intros Hn. apply rows_follow_insert; [done|]. congruence. Qed.

Lemma insert_cell_evolves id c : tx_rel pool_evolves (insert_cell id c).
Proof.
  intros db u db' Hc. unfold insert_cell in Hc. tx_step Hc. tx_step Hm.
  destruct (sterile_cells _ !! id) eqn:E; [by tx_step Hc|]. simpl in Hc.
  repeat (case_match; [|by tx_step Hc]). tx_step Hc.
  apply cells_only_evolve; [|reflexivity].
  apply rows_follow_new; [apply _ | done].
Qed.

Lemma terminal_evolves d now c : cell_evolves c (cell_set_terminal (state_of_disposition d) d now c).
Proof. constructor; [done | destruct d, (cell_state c); simpl; lia | by left]. Qed.

Lemma quarantined_evolves now c : cell_evolves c (cell_set_quarantined now c).
Proof. apply (terminal_evolves SterileCellDisposition.Quarantined). Qed.

Lemma quarantine_record_evolves rt id :
  tx_rel pool_evolves (quarantine_pool_cell_record_on_connection rt id).
Proof.
  unfold quarantine_pool_cell_record_on_connection. pool_auto.
  apply update_cell_evolves. intros. apply quarantined_evolves.
Qed.

(** The claims move beside the other two tables. *)
Lemma set_claims_shrinks db claims :
  pool_shrinks db (set_world (set_sterile_cell_claims claims (world db)) db).
Proof. split; [|done]. by constructor. Qed.

Lemma update_claim_shrinks tenant fence f : tx_rel pool_shrinks (update_claim tenant fence f).
Proof.
  intros db b db' Hc. unfold update_claim in Hc. world_step Hc.
  destruct (sterile_cell_claims _ !! _) as [r|] eqn:E; [|tx_step Hc; reflexivity].
  destruct (claim_row_open _ r) eqn:Eo; [|tx_step Hc; reflexivity].
  destruct (forallb _ _); [|by tx_step Hc]. world_step Hc. tx_step Hc. apply set_claims_shrinks.
Qed.

Lemma insert_claim_shrinks tenant fence now : tx_rel pool_shrinks (insert_claim tenant fence now).
Proof.
  intros db b db' Hc. unfold insert_claim in Hc. world_step Hc.
  destruct (sterile_cell_claims _ !! _) as [r|] eqn:E; simpl in Hc; [tx_step Hc; reflexivity|].
  world_step Hc. tx_step Hc. apply set_claims_shrinks.
Qed.
End Statements.

#[export] Hint Resolve quarantine_record_evolves insert_cell_evolves insert_claim_shrinks update_claim_shrinks
  evolves_shrinks
  terminal_evolves quarantined_evolves : pool.

(** ** Every write moves the tables along *)

Lemma ages_terminal m m' :
  (mb_tenant_id m', mb_release m', mb_candidate_agent_image m', mb_candidate_maestro_image m')
    = (mb_tenant_id m, mb_release m, mb_candidate_agent_image m, mb_candidate_maestro_image m) ->
  (is_live_member m' = true -> is_live_member m = true) ->
  mb_state m' <> MemberProvisioning -> mb_state m' <> MemberReady -> member_ages m m'.
Proof. intros Ht Hl Hp Hr. split; [constructor|]; done. Qed.

Lemma open_is_live m : is_open_member m = is_live_member m.
Proof. unfold is_open_member, is_live_member, member_is. by destruct (mb_state m). Qed.

Lemma member_is_live s m : member_is s m = true -> is_live_member (membership_set_state s None 0 m) = true ->
  is_live_member m = true.
Proof. unfold is_live_member, member_is. simpl. intros ->%bool_decide_eq_true. done. Qed.

(** A row that is live may move to any later live state. *)
Ltac ages :=
  intros;
  apply ages_terminal;
  [ done
  | unfold member_matches_stop, member_holds_lease, is_provisioning_for, is_live_member, member_is in *;
    repeat match goal with
      | H : _ && _ = true |- _ => apply andb_true_iff in H as [? ?]
      | H : _ || _ = true |- _ => apply orb_true_iff in H as [?|?]
      | H : bool_decide (mb_state _ = _) = true |- _ => apply bool_decide_eq_true in H
      end; simpl; repeat match goal with H : mb_state _ = _ |- _ => rewrite H; clear H end; try done
  | done | done ].

Section Writes.
Context `{UuidLib} `{SerdeLib} `{CellLib}.

Lemma cleanup_pending_evolves rt id reason clear :
  tx_rel pool_evolves (mark_pool_cleanup_pending_on_connection rt id reason clear).
Proof.
  unfold mark_pool_cleanup_pending_on_connection. pool_auto.
  apply update_membership_evolves. intros m Hm. rewrite open_is_live in Hm. by apply ages_terminal.
Qed.

Lemma quarantine_pool_cell_evolves rt id reason :
  tx_rel pool_evolves (quarantine_pool_cell_on_connection rt id reason).
Proof.
  unfold quarantine_pool_cell_on_connection. pool_auto.
  apply update_membership_evolves. intros m Hm. rewrite open_is_live in Hm. by apply ages_terminal.
Qed.

Lemma failed_job_evolves rt job error :
  tx_rel pool_evolves (quarantine_failed_pool_job_on_connection rt job error).
Proof.
  unfold quarantine_failed_pool_job_on_connection. pool_auto;
    first [apply cleanup_pending_evolves | apply quarantine_pool_cell_evolves].
Qed.

Lemma retired_ages d f now m :
  member_matches_stop f m = true ->
  member_ages m (membership_set_retired (member_state_of_disposition d) now m).
Proof. destruct d; ages. Qed.

Hint Resolve cleanup_pending_evolves : pool.

Lemma retire_pool_cell_evolves rt f c : tx_rel pool_evolves (retire_pool_cell rt f c).
Proof.
  unfold retire_pool_cell. pool_auto.
  - apply update_cell_evolves. intros. apply terminal_evolves.
  - apply update_membership_evolves. intros m Hm. by eapply retired_ages.
Qed.

Hint Resolve retire_pool_cell_evolves : pool.

Lemma complete_pool_stop_evolves rt job : tx_rel pool_evolves (complete_pool_stop_on_connection rt job).
Proof. unfold complete_pool_stop_on_connection. pool_auto. Qed.

(** ** Teardowns *)

Lemma stopping_ages stop g d reason now m :
  is_live_member m = true -> member_ages m (membership_set_stopping stop g d reason now m).
Proof. intros Hl. by apply ages_terminal. Qed.

Lemma enqueue_cleanup_stop_evolves rt n id m : tx_rel pool_evolves (enqueue_cleanup_stop rt n id m).
Proof.
  unfold enqueue_cleanup_stop. pool_auto. apply update_membership_evolves.
  intros m' Hm. apply stopping_ages. unfold is_live_member. by rewrite Hm, !orb_true_r.
Qed.

Lemma enqueue_ready_stop_evolves rt read n id m : tx_rel pool_evolves (enqueue_ready_stop rt read n id m).
Proof.
  unfold enqueue_ready_stop. pool_auto. apply update_membership_evolves.
  intros m' [[_ Hm]%andb_true_iff _]%andb_true_iff. apply stopping_ages.
  unfold is_live_member. by rewrite Hm, !orb_true_r.
Qed.

Lemma archive_released_evolves rt n id stop : tx_rel pool_evolves (archive_released_sandbox rt n id stop).
Proof.
  unfold archive_released_sandbox. pool_auto. apply update_membership_evolves.
  intros m [Hm _]%andb_true_iff. apply bool_decide_eq_true in Hm. unfold membership_set_reason. rewrite Hm.
  apply ages_terminal; try done. unfold is_live_member, member_is. by rewrite Hm.
Qed.

Lemma holds_lease_live worker lease g m : member_holds_lease worker lease g m = true -> is_live_member m = true.
Proof.
  unfold member_holds_lease. intros [[[Hm _]%andb_true_iff _]%andb_true_iff _]%andb_true_iff.
  unfold is_live_member. by rewrite Hm, !orb_true_r.
Qed.

Hint Resolve archive_released_evolves : pool.

Lemma queue_pool_stop_evolves rt n worker id lease g d live m :
  tx_rel pool_evolves (queue_pool_stop rt n worker id lease g d live m).
Proof.
  unfold queue_pool_stop. pool_auto. apply update_membership_evolves.
  intros m' [Hm _]%andb_true_iff. by eapply stopping_ages, holds_lease_live.
Qed.

Hint Resolve queue_pool_stop_evolves : pool.

Lemma enqueue_pool_stop_evolves rt n worker id lease g d live :
  tx_rel pool_evolves (enqueue_pool_stop_with_policy_on_connection rt n worker id lease g d live).
Proof. unfold enqueue_pool_stop_with_policy_on_connection. pool_auto. Qed.

Hint Resolve enqueue_pool_stop_evolves : pool.

Lemma enqueue_leased_stop_evolves rt n id m : tx_rel pool_evolves (enqueue_leased_stop rt n id m).
Proof. unfold enqueue_leased_stop. pool_auto. Qed.

Lemma for_each_member_evolves f n ms :
  (forall n id m, tx_rel pool_evolves (f n id m)) -> tx_rel pool_evolves (for_each_member f n ms).
Proof. intros Hf. revert n. induction ms as [|[id m] ms IH]; intros n; simpl; pool_auto; auto. Qed.

Lemma teardowns_evolve rt n1 n2 n3 :
  tx_rel pool_evolves (enqueue_cleanup_pending_stops_on_connection rt n1) /\
  tx_rel pool_evolves (enqueue_expired_ready_stops_on_connection rt n2) /\
  tx_rel pool_evolves (enqueue_expired_leased_stops_on_connection rt n3).
Proof.
  split_and!; apply tx_rel_bind; [apply _ | pool_auto | | apply _ | pool_auto | | apply _ | pool_auto | ];
    intros; apply for_each_member_evolves; intros.
  - apply enqueue_cleanup_stop_evolves.
  - apply enqueue_ready_stop_evolves.
  - apply enqueue_leased_stop_evolves.
Qed.

Lemma reconcile_cleanup_evolves rt : tx_rel pool_evolves (reconcile_cleanup_tx rt).
Proof.
  destruct (teardowns_evolve rt CLEANUP_IDS READY_IDS LEASED_IDS) as (Hc & Hr & Hl).
  unfold reconcile_cleanup_tx. pool_auto; assumption.
Qed.

Lemma lease_sync_evolves now : tx_rel pool_evolves (lease_sync now).
Proof.
  unfold lease_sync. pool_auto. apply update_memberships_evolves.
  intros id m [Hm _]%andb_true_iff. apply ages_terminal; try done.
  unfold is_live_member. by rewrite Hm, !orb_true_r.
Qed.

Lemma quarantine_sync_evolves now : tx_rel pool_evolves (quarantine_sync now).
Proof. unfold quarantine_sync. pool_auto. apply update_memberships_evolves. intros. by apply ages_terminal. Qed.

(** ** Admission *)

Lemma ready_cell_facts worker id m expires now :
  let c := ready_cell worker id m expires now in
  cell_release c = mb_release m /\ cell_tenant_id c = Some (mb_tenant_id m).
Proof. done. Qed.

Lemma admit_evolves db id m c m' :
  sterile_cells db !! id = None -> sterile_pool_memberships (world db) !! id = Some m ->
  mb_state m = MemberProvisioning -> mb_state m' = MemberReady -> member_moves m m' ->
  cell_release c = mb_release m -> cell_tenant_id c = Some (mb_tenant_id m) ->
  pool_evolves db
    (set_world (set_sterile_pool_memberships (<[id := m']> (sterile_pool_memberships (world db))) (world db))
       (set_sterile_cells (<[id := c]> (sterile_cells db)) db)).
Proof.
  intros Hc Hm Hs Hs' Hmm Hr Ht. split; [split|done].
  - constructor; simpl.
    + by apply rows_follow_new; [apply _|].
    + apply rows_follow_insert; [apply _|]. intros x Hx. by simplify_eq.
    + intros Hok k y Hy Hst. simpl in *. destruct Hmm as [Htu _ _]. destruct (decide (id = k)) as [<-|Hne].
      * rewrite lookup_insert_eq in Hy. simplify_eq. exists c. rewrite lookup_insert_eq.
        split_and!; congruence.
      * rewrite lookup_insert_ne in Hy by done. destruct (Hok _ _ Hy Hst) as (c0 & Hc0 & Hrest).
        exists c0. by rewrite lookup_insert_ne.
  - intros k Hk. simpl. rewrite lookup_insert_ne; [done | congruence].
Qed.

Lemma admit_member_evolves rt job id worker m pod db u db' :
  sterile_pool_memberships (world db) !! id = Some m ->
  admit_member rt job id worker m pod db = Ok (u, db') -> pool_evolves db db'.
Proof.
  intros Hm Hc. unfold admit_member in Hc. world_step Hc.
  apply tx_bind_ok in Hc as (ins & db1 & Hi & Hc). destruct ins; [|by tx_step Hc].
  unfold insert_ready_cell in Hi. tx_step Hi. tx_step Hm0.
  destruct (sterile_cells _ !! id) eqn:Ec; simpl in Hi; [by tx_step Hi|].
  repeat (case_match; [by tx_step Hi|] || (case_match; [|by tx_step Hi])). tx_step Hi. tx_step Hm0. tx_step Hi.
  apply tx_bind_ok in Hc as (up & db2 & Hu & Hc). destruct up; [|by tx_step Hc]. tx_step Hc.
  unfold update_membership in Hu. world_step Hu. simpl in Hu. rewrite Hm in Hu.
  destruct (is_provisioning_for _ m) eqn:Ep; [|by tx_step Hu].
  destruct (membership_check _); [|by tx_step Hu]. world_step Hu. tx_step Hu.
  apply andb_true_iff in Ep as [_ Ep]. apply bool_decide_eq_true in Ep.
  eapply admit_evolves; try done. split; try done. intros _. unfold is_live_member, member_is. by rewrite Ep.
Qed.

Lemma admit_provisioned_cell_evolves rt job :
  tx_rel pool_evolves (admit_provisioned_cell_on_connection rt job).
Proof.
  intros db u db' Hc. unfold admit_provisioned_cell_on_connection in Hc.
  destruct (is_none _); [tx_step Hc; reflexivity|]. tx_step Hc. tx_step Hm. tx_step Hc. tx_step Hm.
  repeat (case_match; try by tx_step Hc). by eapply admit_member_evolves.
Qed.

(** ** The claim *)

Lemma leased_evolves l tenant digest g now c :
  is_leasable tenant g c = true -> cell_evolves c (cell_set_leased l tenant digest now c).
Proof.
  unfold is_leasable, cell_is. rewrite !andb_true_iff. intros [[[Ht Hs] _] He].
  apply bool_decide_eq_true in Ht, Hs. apply negb_true_iff in He.
  constructor; [unfold cell_identity; simpl; congruence | rewrite Hs; simpl; lia | right; done].
Qed.

Lemma record_pool_claim_evolves rt id lease g :
  tx_rel pool_evolves (record_pool_claim_on_connection rt id lease g).
Proof.
  unfold record_pool_claim_on_connection. pool_auto. apply update_membership_evolves.
  intros m [Hm _]%andb_true_iff. apply ages_terminal; try done.
  unfold is_live_member. by rewrite Hm, !orb_true_r.
Qed.

Lemma recover_leased_claim_evolves rt key r id c : tx_rel pool_evolves (recover_leased_claim rt key r id c).
Proof.
  unfold recover_leased_claim. pool_auto. apply update_cell_evolves. intros. apply quarantined_evolves.
Qed.

Hint Resolve recover_leased_claim_evolves record_pool_claim_evolves : pool.

Lemma recover_claim_evolves rt key tenant id digest :
  tx_rel pool_evolves (recover_claim rt key tenant id digest).
Proof. unfold recover_claim. pool_auto. Qed.

Lemma answer_empty_shrinks rt settings ctx q expires fence :
  tx_rel pool_shrinks (answer_empty rt settings ctx q expires fence).
Proof. unfold answer_empty. pool_auto. Qed.

Lemma lease_cell_shrinks rt key ctx q expires fence id c :
  tx_rel pool_shrinks (lease_cell rt key ctx q expires fence id c).
Proof.
  unfold lease_cell. pool_auto; apply evolves_shrinks, update_cell_evolves.
  - intros. apply quarantined_evolves.
  - intros c0 Hc0. by eapply leased_evolves.
Qed.

Hint Resolve recover_claim_evolves answer_empty_shrinks lease_cell_shrinks : pool.

Lemma claim_tx_shrinks rt settings key ctx q expires :
  tx_rel pool_shrinks (claim_tx rt settings key ctx q expires).
Proof. unfold claim_tx. pool_auto. Qed.

Lemma claim_cell_once_shrinks rt settings key ctx q expires db :
  pool_shrinks db (claim_cell_once rt settings key ctx q expires db).2.
Proof.
  unfold claim_cell_once. destruct (claim_tx _ _ _ _ _ _ _) as [[[a b] db']|] eqn:E; simpl; [|reflexivity].
  apply claim_tx_shrinks in E. destruct a, b; simpl; done || reflexivity.
Qed.

(** ** Sweeps and the worker's requests *)

Lemma rows_follow_update_rows `{Countable K} {A} (R : relation A) `{!PreOrder R} guard f (m : gmap K A) :
  (forall k x, guard k x = true -> R x (f x)) -> rows_follow R m (update_rows guard f m).
Proof.
  intros Hf k x Hx. rewrite lookup_update_rows, Hx. simpl. eexists. split; [done|].
  destruct (guard k x) eqn:E; [by eapply Hf | reflexivity].
Qed.

Lemma quarantine_expired_state_evolves state expiry now :
  tx_rel pool_evolves (quarantine_expired_state state expiry now).
Proof.
  intros db n db' Hc. unfold quarantine_expired_state in Hc. tx_step Hc. tx_step Hm. tx_step Hc. tx_step Hm.
  tx_step Hc. apply cells_only_evolve; [|done]. apply rows_follow_update_rows; [apply _|].
  intros. apply quarantined_evolves.
Qed.

Hint Resolve quarantine_expired_state_evolves : pool.

Lemma quarantine_expired_evolves now : tx_rel pool_evolves (quarantine_expired_sterile_cells now).
Proof. unfold quarantine_expired_sterile_cells. pool_auto. Qed.

Lemma retire_update_evolves rt worker id tenant : tx_rel pool_evolves (retire_update rt worker id tenant).
Proof. apply update_cell_evolves. intros. apply quarantined_evolves. Qed.

Lemma destroy_update_evolves rt worker id q g : tx_rel pool_evolves (destroy_update rt worker id q g).
Proof. apply update_cell_evolves. intros. apply terminal_evolves. Qed.

Lemma run_pool_stop_evolves m db : tx_rel pool_evolves m -> pool_evolves db (run_pool_stop m db).2.
Proof.
  intros Hm. unfold run_pool_stop. destruct (m db) as [[r db']|] eqn:E; [|reflexivity].
  apply Hm in E. destruct r; simpl; done || reflexivity.
Qed.

Lemma terminalize_evolves rt job process cell :
  tx_rel pool_evolves (quarantine_tx (W := World) rt job process cell).
Proof.
  intros db u db' Hc. unfold quarantine_tx in Hc. tx_step Hc. tx_step Hm.
  destruct (update_row _ _ _ _) as [b m]. destruct b; [|tx_step Hc; reflexivity]. tx_step Hc.
  apply cells_only_evolve; [|done]. simpl. apply rows_follow_update_rows; [apply _|].
  intros. apply quarantined_evolves.
Qed.

Lemma activation_evolves rt tenant sandbox process g a :
  tx_rel pool_evolves (fence_sterile_resident_activation_on_connection rt tenant sandbox process g a).
Proof.
  unfold fence_sterile_resident_activation_on_connection. pool_auto. apply update_cell_evolves.
  intros c _. by constructor; [| | left].
Qed.
End Writes.

(** ** The size of the pool *)

Definition count_of (p : MembershipRow -> bool) (db : Db World) : nat :=
  count_rows (fun _ m => p m) (sterile_pool_memberships (world db)).

Lemma count_members_rows p db : count_members p (world db) = Z.of_nat (count_of p db).
Proof. reflexivity. Qed.

Definition in_pool_live (config : SterilePoolConfig) (m : MembershipRow) : bool :=
  in_pool config m && is_live_member m.

Definition in_pool_provisioning (config : SterilePoolConfig) (m : MembershipRow) : bool :=
  in_pool config m && member_is MemberProvisioning m.

Lemma in_pool_moves config m m' : member_moves m m' -> in_pool config m' = in_pool config m.
Proof. intros [Ht _ _]. unfold in_pool. by simplify_eq/=; repeat match goal with H : _ = _ |- _ => rewrite H end. Qed.

(** Members only leave: neither count grows. *)
Lemma count_shrinks p db db' :
  (forall m m', member_moves m m' -> p m' = true -> p m = true) ->
  pool_shrinks db db' -> (count_of p db' <= count_of p db)%nat.
Proof.
  intros Hp [[_ Hm _] Hd]. apply count_rows_mono. intros k m' Hm' Hpm.
  destruct (sterile_pool_memberships (world db) !! k) as [m|] eqn:E.
  - destruct (Hm _ _ E) as (m2 & Hm2 & Hmm). simplify_eq. eauto.
  - by rewrite Hd in Hm'.
Qed.

Lemma live_moves config m m' :
  member_moves m m' -> in_pool_live config m' = true -> in_pool_live config m = true.
Proof.
  intros Hm. unfold in_pool_live. rewrite (in_pool_moves _ _ _ Hm), !andb_true_iff.
  intros [? ?]. split; [done | by apply Hm].
Qed.

Lemma provisioning_moves config m m' :
  member_moves m m' -> in_pool_provisioning config m' = true -> in_pool_provisioning config m = true.
Proof.
  intros Hm. unfold in_pool_provisioning, member_is. rewrite (in_pool_moves _ _ _ Hm), !andb_true_iff, !bool_decide_eq_true.
  intros [? ?]. split; [done | by apply Hm].
Qed.

(** A new member. *)
Record member_joins (config : SterilePoolConfig) (k : nat) (db db' : Db World) : Prop := {
  mj_live : count_of (in_pool_live config) db' = (count_of (in_pool_live config) db + k)%nat;
  mj_provisioning :
    count_of (in_pool_provisioning config) db' = (count_of (in_pool_provisioning config) db + k)%nat;
  mj_rel : pool_rel db db';
  mj_claims : sterile_cell_claims (world db') = sterile_cell_claims (world db)
}.

Lemma joins_trans config k1 k2 db1 db2 db3 :
  member_joins config k1 db1 db2 -> member_joins config k2 db2 db3 -> member_joins config (k1 + k2) db1 db3.
Proof. intros [] []. constructor; [lia | lia | by etrans | congruence]. Qed.

Lemma beside_joins config db db' : beside_pool db db' -> member_joins config 0 db db'.
Proof.
  intros Hb. constructor; [| |by apply beside_pool_rel | apply Hb]; unfold count_of;
    destruct Hb as (_ & -> & _); lia.
Qed.

Section Creation.
Context `{UuidLib} `{SerdeLib}.

Lemma insert_membership_joins config id m db u db' :
  mb_state m = MemberProvisioning -> in_pool config m = true ->
  insert_membership id m db = Ok (u, db') -> member_joins config 1 db db'.
Proof.
  intros Hs Hp Hc. unfold insert_membership in Hc. world_step Hc.
  destruct (sterile_pool_memberships _ !! id) eqn:E; [by tx_step Hc|]. simpl in Hc.
  repeat (case_match; [|by tx_step Hc]). world_step Hc.
  assert (in_pool_live config m = true /\ in_pool_provisioning config m = true) as [Hl Hpr].
  { unfold in_pool_live, in_pool_provisioning, is_live_member, member_is. by rewrite Hp, Hs. }
  constructor; unfold count_of; simpl; rewrite ?count_rows_new, ?Hl, ?Hpr by done; simpl; try lia; try done.
  constructor; simpl; [reflexivity | by apply rows_follow_new; [apply _|] |].
  intros Hok k m' Hm' Hr. simpl in *. destruct (decide (id = k)) as [<-|].
  - rewrite lookup_insert_eq in Hm'. simplify_eq. congruence.
  - rewrite lookup_insert_ne in Hm' by done. by apply Hok.
Qed.

Lemma insert_pool_member_joins rt n config db u db' :
  insert_pool_member_on_connection rt n config db = Ok (u, db') -> member_joins config 1 db db'.
Proof.
  intros Hc. unfold insert_pool_member_on_connection in Hc.
  apply tx_bind_ok in Hc as (? & db1 & Hs1 & Hc). apply tx_bind_ok in Hc as (? & db2 & Hs2 & Hc).
  apply (insert_sandbox_pool beside_pool) in Hs1. apply (insert_job_pool beside_pool) in Hs2.
  destruct (try_i64 _) as [ttl|]; [|by tx_step Hc].
  apply (insert_membership_joins config) in Hc; [|done|].
  - apply (joins_trans _ 0 1 _ db2); [|done]. apply beside_joins. by etrans.
  - unfold in_pool. simpl. rewrite !String.eqb_refl. by rewrite bool_decide_eq_true_2.
Qed.

Lemma insert_pool_members_joins rt config k : forall n db u db',
  insert_pool_members rt n config k db = Ok (u, db') -> member_joins config k db db'.
Proof.
  induction k as [|k IH]; intros n db u db' Hc; simpl in Hc.
  - tx_step Hc. apply beside_joins. reflexivity.
  - apply tx_bind_ok in Hc as (? & db1 & Hs1 & Hc). apply insert_pool_member_joins in Hs1. apply IH in Hc.
    by apply (joins_trans _ 1 k _ db1).
Qed.
End Creation.
