(* ===== verification/SterileCellMachine.v ===== *)
(** * Sterile cells: every interleaving

    The writes of [SterileCells], [PoolController], [SterilePool] and
    [ResidentProcesses] as the steps of one machine, and what every sequence
    of steps guarantees: a cell serves one lease of one claim, a claim is
    answered once, the ready floor of the pool is respected and its size stays
    within the configured target. *)

From S2P Require Import Prelude CoreTypes Json Store Leases SandboxLifecycle World CommandOutput.
From S2P Require Import Authz Scopes SterilePool PoolController SterileCells ResidentProcesses SterileCellProofs.
From stdpp Require Import sorting.

Section Machine.
Context `{UuidLib} `{SerdeLib} `{CellLib}.

(** ** What a claim did *)

Definition claim_id_key (ctx : TenantContext) (q : ClaimSterileCellRequestV1) : option (string * Uuid) :=
  (fun id => (ctx_tenant_id ctx, id)) <$> cq_claim_id q.

Definition claim_fence (q : ClaimSterileCellRequestV1) : option (Uuid * string) :=
  (fun id => (id, claim_request_digest q)) <$> cq_claim_id q.

(** A cell that was ready is leased, with its attestation's digest, and the
    claim's row is linked to it. *)
Record leases_cell (rt : Runtime) (key : string) (ctx : TenantContext) (q : ClaimSterileCellRequestV1)
    (expires : Z) (db db' : Db World) (l : SterileCellLeaseV1) (c : SterileCellRow) : Prop := {
  lc_cell : sterile_cells db !! cl_cell_id l = Some c;
  lc_leasable : is_leasable (ctx_tenant_id ctx) (cell_generation c) c = true;
  lc_lease : l = new_lease rt q (cl_cell_id l) (cell_generation c + 1) (Z.min expires (cell_expires_at c));
  lc_live : (utc_now rt < cl_expires_at l)%Z;
  lc_generation : (0 <= cell_generation c)%Z;
  lc_cells : sterile_cells db' =
    <[cl_cell_id l := cell_set_leased l (ctx_tenant_id ctx) (hash_attestation (lease_token key l))
                        (utc_now rt) c]> (sterile_cells db)
}.

(** The claims table after an attempt that found no row of its own. *)
Definition claim_written (ctx : TenantContext) (q : ClaimSterileCellRequestV1) (db db' : Db World)
    (P : CellClaimRow -> Prop) : Prop :=
  match claim_id_key ctx q with
  | None => sterile_cell_claims (world db') = sterile_cell_claims (world db)
  | Some k =>
      exists r, P r /\ cc_request_sha256 r = claim_request_digest q /\
        sterile_cell_claims (world db') = <[k := r]> (sterile_cell_claims (world db))
  end.

Lemma update_claim_ok tenant fence f db b db' :
  update_claim tenant fence f db = Ok (b, db') ->
  sterile_cells db' = sterile_cells db /\
  sterile_pool_memberships (world db') = sterile_pool_memberships (world db) /\
  if b then exists r, sterile_cell_claims (world db) !! (tenant, fence.1) = Some r /\
    claim_row_open fence.2 r = true /\
    sterile_cell_claims (world db') = <[(tenant, fence.1) := f r]> (sterile_cell_claims (world db))
  else db' = db.
Proof.
  intros Hc. unfold update_claim in Hc. world_step Hc.
  destruct (sterile_cell_claims _ !! _) as [r|] eqn:E; [|by tx_step Hc].
  destruct (claim_row_open _ r) eqn:Eo; [|by tx_step Hc].
  destruct (forallb _ _); [|by tx_step Hc]. world_step Hc. tx_step Hc. split_and!; try done. by exists r.
Qed.

Lemma update_cell_ok id guard f db b db' :
  update_cell id guard f db = Ok (b, db') ->
  world db' = world db /\
  if b then exists c, sterile_cells db !! id = Some c /\ guard c = true /\
    sterile_cells db' = <[id := f c]> (sterile_cells db)
  else db' = db /\ forall c, sterile_cells db !! id = Some c -> guard c = false.
Proof.
  intros Hc. unfold update_cell in Hc. tx_step Hc. tx_step Hm.
  destruct (sterile_cells _ !! id) as [c|] eqn:E; [|by tx_step Hc].
  destruct (guard c) eqn:Eg; [|tx_step Hc; split_and!; [done|done|]; intros; by simplify_eq].
  destruct (cell_check (f c)); [|by tx_step Hc]. tx_step Hc. tx_step Hm. tx_step Hc. split; [done|]. by exists c.
Qed.

Lemma u64_generation_ok message g v : u64_generation message g = Ok v -> v = g /\ (0 <= g)%Z.
Proof. unfold u64_generation. destruct (0 <=? g)%Z eqn:E; [|done]. intros [= <-]. lia. Qed.

Lemma record_pool_claim_cells rt id lease g db u db' :
  record_pool_claim_on_connection rt id lease g db = Ok (u, db') ->
  sterile_cells db' = sterile_cells db /\ sterile_cell_claims (world db') = sterile_cell_claims (world db).
Proof.
  intros Hc. split; [|apply record_pool_claim_evolves in Hc; apply Hc].
  unfold record_pool_claim_on_connection in Hc. destruct (try_i64 g); [|by tx_step Hc].
  apply tx_bind_ok in Hc as (up & db1 & Hu & Hc). world_step Hc. case_match; [|by tx_step Hc]. tx_step Hc.
  unfold update_membership in Hu. world_step Hu. repeat (case_match; try by tx_step Hu).
  world_step Hu. by tx_step Hu.
Qed.

Definition claim_linked (ctx : TenantContext) (fence : option (Uuid * string)) (l : SterileCellLeaseV1)
    (db db' : Db World) : Prop :=
  match fence with
  | None => sterile_cell_claims (world db') = sterile_cell_claims (world db)
  | Some f => exists r, sterile_cell_claims (world db) !! (ctx_tenant_id ctx, f.1) = Some r /\
      sterile_cell_claims (world db') =
        <[(ctx_tenant_id ctx, f.1) := claim_set_lease (cl_cell_id l) (cl_lease_id l) r]>
          (sterile_cell_claims (world db))
  end.

Lemma lease_cell_ok rt key ctx q expires fence id c db a b db' :
  sterile_cells db !! id = Some c ->
  lease_cell rt key ctx q expires fence id c db = Ok ((a, b), db') ->
  match a with
  | CellClaimed l t =>
      b = true /\ t = lease_token key l /\ cl_cell_id l = id /\
      leases_cell rt key ctx q expires db db' l c /\ claim_linked ctx fence l db db'
  | ClaimContended =>
      b = false \/
      ((Z.min expires (cell_expires_at c) <= utc_now rt)%Z /\ world db' = world db /\
       (cell_state c = SterileCellState.Ready ->
        sterile_cells db' = <[id := cell_set_quarantined (utc_now rt) c]> (sterile_cells db)))
  | _ => False
  end.
Proof.
  intros Hid Hc. unfold lease_cell in Hc. destruct (Z.leb_spec (Z.min expires (cell_expires_at c)) (utc_now rt)).
  - apply tx_bind_ok in Hc as (up & db1 & Hu & Hc). unfold committed in Hc. tx_step Hc.
    apply update_cell_ok in Hu as [Hw Hu]. right. split_and!; [done | done |]. intros Hs.
    destruct up; [destruct Hu as (c1 & Hc1 & _ & ->); by simplify_eq|].
    destruct Hu as [_ Hg]. specialize (Hg _ Hid). unfold cell_is in Hg. by rewrite bool_decide_eq_true_2 in Hg.
  - apply tx_bind_ok in Hc as (g & db1 & Hg & Hc). apply tx_lift_ok in Hg as [Hg ->].
    apply u64_generation_ok in Hg as [-> Hg]. destruct (cell_generation c <? u64_max)%Z; [|by tx_step Hc].
    apply tx_bind_ok in Hc as (? & db2 & Hg2 & Hc). apply tx_lift_ok in Hg2 as [_ ->].
    apply tx_bind_ok in Hc as (? & db3 & Hg3 & Hc). apply tx_lift_ok in Hg3 as [_ ->].
    apply tx_bind_ok in Hc as (up & db4 & Hu & Hc). apply update_cell_ok in Hu as [Hw Hu].
    destruct up; simpl in Hc; [|unfold rolled_back in Hc; tx_step Hc; by left].
    destruct Hu as (c1 & Hc1 & Hl & Hcells). simplify_eq.
    apply tx_bind_ok in Hc as (? & db5 & Hr & Hc). apply record_pool_claim_cells in Hr as [Hr1 Hr2].
    set (l := new_lease rt q id (cell_generation c + 1) (Z.min expires (cell_expires_at c))) in *.
    assert (Hlc : sterile_cells db' = sterile_cells db5 -> leases_cell rt key ctx q expires db db' l c).
    { intros He. constructor; try done. by rewrite He, Hr1, Hcells. }
    destruct fence as [f|]; unfold committed, rolled_back in Hc.
    + apply tx_bind_ok in Hc as (lk & db6 & Hk & Hc). apply update_claim_ok in Hk as (Hk1 & _ & Hk3).
      destruct lk; [|tx_step Hc; by left]. tx_step Hc. split_and!; try done; [by apply Hlc|].
      destruct Hk3 as (r & Hr & _ & Hcl). exists r. by rewrite Hcl, <-Hw, <-Hr2.
    + tx_step Hc. split_and!; try done; [by apply Hlc|]. simpl. by rewrite Hr2, Hw.
Qed.

Lemma select_cell_some settings ctx q expires db id c :
  select_cell settings ctx q expires db = Some (id, c) ->
  sterile_cells db !! id = Some c /\ is_eligible ctx q expires c = true /\
  is_withheld (matching_pool_config settings ctx q) (world db) id = false.
Proof.
  unfold select_cell, claimable_cells. intros Hh. destruct (merge_sort _ _) as [|x xs] eqn:E; [done|].
  simpl in Hh. simplify_eq. assert (Hin : (id, c) ∈ (id, c) :: xs) by set_solver.
  rewrite <-E, merge_sort_Permutation in Hin. apply list_elem_of_In, List.filter_In in Hin as [Hin Hg].
  apply list_elem_of_In, elem_of_map_to_list in Hin. simpl in Hg.
  apply andb_true_iff in Hg as [He Hw]. by apply negb_true_iff in Hw.
Qed.

Lemma select_cell_none settings ctx q expires db :
  select_cell settings ctx q expires db = None <-> claimable_cells settings ctx q expires db = [].
Proof.
  unfold select_cell. split; intros Hc.
  - pose proof (merge_sort_Permutation older_cell (claimable_cells settings ctx q expires db)) as Hp.
    destruct (merge_sort _ _); [|done]. by apply Permutation_nil in Hp.
  - by rewrite Hc.
Qed.

Lemma eligible_ready ctx q expires c :
  is_eligible ctx q expires c = true ->
  cell_state c = SterileCellState.Ready /\ cell_tenant_id c = Some (ctx_tenant_id ctx) /\
  cell_release c = stored_release (cq_release q) /\ (expires < cell_expires_at c)%Z.
Proof.
  unfold is_eligible, of_tenant, cell_is, of_release. rewrite !andb_true_iff.
  intros [[[Ht Hs] Hr] He]. apply bool_decide_eq_true in Ht, Hs, Hr. split_and!; try done. lia.
Qed.

(** The three columns a claim's row records of its answer. *)
Definition answered_lease (l : SterileCellLeaseV1) (r : CellClaimRow) : Prop :=
  cc_cell_id r = Some (cl_cell_id l) /\ cc_lease_id r = Some (cl_lease_id l).

Definition answered_empty (d : NoLeaseDiagnosis) (r : CellClaimRow) : Prop :=
  cc_cell_id r = None /\ cc_no_lease_reason r = Some (as_db_str (nl_reason d)) /\
  exists e, evidence_to_string (nl_claimability d) = Some e /\ cc_claimability_evidence r = Some e.

Definition answered_nothing (r : CellClaimRow) : Prop :=
  cc_cell_id r = None /\ cc_no_lease_reason r = None /\ cc_claimability_evidence r = None.

Definition unclaimed (ctx : TenantContext) (q : ClaimSterileCellRequestV1) (db : Db World) : Prop :=
  match claim_id_key ctx q with None => True | Some k => sterile_cell_claims (world db) !! k = None end.

(** Every outcome of an attempt under a claim identifier not used before. *)
Definition fresh_outcome (rt : Runtime) (settings : CellSettings) (key : string) (ctx : TenantContext)
    (q : ClaimSterileCellRequestV1) (expires : Z) (db : Db World)
    (out : result ClaimAttempt ApiError * Db World) : Prop :=
  match out with
  | (Ok (CellClaimed l t), db') =>
      exists c, select_cell settings ctx q expires db = Some (cl_cell_id l, c) /\
        t = lease_token key l /\ leases_cell rt key ctx q expires db db' l c /\
        claim_written ctx q db db' (answered_lease l)
  | (Ok (ClaimEmpty d), db') =>
      exists dg, d = Some dg /\ select_cell settings ctx q expires db = None /\
        diagnose_no_lease (utc_now rt) settings ctx q expires db = Ok dg /\
        sterile_cells db' = sterile_cells db /\ claim_written ctx q db db' (answered_empty dg)
  | (Ok ClaimContended, db') =>
      db' = db \/
      exists id c, select_cell settings ctx q expires db = Some (id, c) /\ (expires <= utc_now rt)%Z /\
        sterile_cells db' = <[id := cell_set_quarantined (utc_now rt) c]> (sterile_cells db) /\
        claim_written ctx q db db' answered_nothing
  | (Ok ClaimNoLongerLive, _) => False
  | (Err _, db') => db' = db
  end.

Definition open_row (q : ClaimSterileCellRequestV1) (now : Z) : CellClaimRow :=
  mkCellClaimRow (claim_request_digest q) None None now None None.

(** The tables once the claim's row is inserted. *)
Definition claim_opened (ctx : TenantContext) (q : ClaimSterileCellRequestV1) (now : Z) (db : Db World) :
    Db World :=
  match claim_id_key ctx q with
  | None => db
  | Some k => set_world (set_sterile_cell_claims
                (<[k := open_row q now]> (sterile_cell_claims (world db))) (world db)) db
  end.

Lemma claim_opened_tables ctx q now db :
  sterile_cells (claim_opened ctx q now db) = sterile_cells db /\
  sterile_pool_memberships (world (claim_opened ctx q now db)) = sterile_pool_memberships (world db) /\
  guest_health (world (claim_opened ctx q now db)) = guest_health (world db).
Proof. unfold claim_opened. by destruct (claim_id_key ctx q). Qed.

Lemma diagnose_ext now settings ctx q expires db db' :
  sterile_cells db' = sterile_cells db ->
  sterile_pool_memberships (world db') = sterile_pool_memberships (world db) ->
  guest_health (world db') = guest_health (world db) ->
  diagnose_no_lease now settings ctx q expires db' = diagnose_no_lease now settings ctx q expires db.
Proof.
  intros Hc Hm Hg.
  unfold diagnose_no_lease, gather_evidence, count_cells, count_pool, ready_unhealthy, is_healthy, is_reserved_cell,
    at_floor, ready_reserve, count_members.
  by rewrite Hc, Hm, Hg.
Qed.

Lemma claim_tx_fresh rt settings key ctx q expires db :
  unclaimed ctx q db ->
  claim_tx rt settings key ctx q expires db =
    match select_cell settings ctx q expires db with
    | None => answer_empty rt settings ctx q expires (claim_fence q)
    | Some (id, c) => lease_cell rt key ctx q expires (claim_fence q) id c
    end (claim_opened ctx q (utc_now rt) db).
Proof.
  unfold unclaimed, claim_tx, claim_opened, claim_id_key, claim_fence.
  destruct (cq_claim_id q) as [id|]; simpl; intros Hk.
  - unfold recover_claim, insert_claim, get_world, tx_bind, tx_get, modify_world, tx_modify, tx_ret. simpl.
    rewrite Hk. simpl. rewrite Hk. simpl.
    match goal with |- context [select_cell settings ctx q expires ?d] =>
      change (select_cell settings ctx q expires d) with (select_cell settings ctx q expires db) end.
    by destruct (select_cell _ _ _ _ _) as [[]|].
  - by unfold tx_bind, tx_get, tx_ret.
Qed.

Lemma claim_written_opened ctx q now db db' P :
  claim_id_key ctx q = None \/ (exists k r, claim_id_key ctx q = Some k /\ P r /\
    cc_request_sha256 r = claim_request_digest q /\
    sterile_cell_claims (world db') = <[k := r]> (sterile_cell_claims (world (claim_opened ctx q now db)))) ->
  (claim_id_key ctx q = None -> sterile_cell_claims (world db') = sterile_cell_claims (world db)) ->
  claim_written ctx q db db' P.
Proof.
  intros Hk Hn. unfold claim_written. destruct Hk as [Hk|(k & r & Hk & HP & Hd & Hc)].
  - rewrite Hk. auto.
  - rewrite Hk. exists r. split_and!; try done. rewrite Hc. unfold claim_opened. rewrite Hk. simpl.
    by rewrite insert_insert_eq.
Qed.

Lemma answer_empty_ok rt settings ctx q expires db a b db' :
  answer_empty rt settings ctx q expires (claim_fence q) (claim_opened ctx q (utc_now rt) db) = Ok ((a, b), db') ->
  (a = ClaimContended /\ b = false) \/
  exists dg, a = ClaimEmpty (Some dg) /\ b = true /\
    diagnose_no_lease (utc_now rt) settings ctx q expires db = Ok dg /\
    sterile_cells db' = sterile_cells db /\ claim_written ctx q db db' (answered_empty dg).
Proof.
  intros Hc. unfold answer_empty in Hc. tx_step Hc. tx_step Hm.
  apply tx_bind_ok in Hc as (dg & db1 & Hd & Hc). apply tx_lift_ok in Hd as [Hd ->].
  destruct (claim_opened_tables ctx q (utc_now rt) db) as (Hcs & Hms & Hgs).
  rewrite (diagnose_ext _ _ _ _ _ _ _ Hcs Hms Hgs) in Hd.
  unfold claim_fence in Hc. destruct (cq_claim_id q) as [id|] eqn:Eq; simpl in Hc.
  - destruct (evidence_to_string _) as [e|] eqn:Ee; [|by tx_step Hc].
    apply tx_bind_ok in Hc as (st & db2 & Hu & Hc). apply update_claim_ok in Hu as (Hu1 & _ & Hu3).
    unfold committed, rolled_back in Hc. destruct st; tx_step Hc; [|by left].
    right. exists dg. split_and!; try done; [congruence|]. destruct Hu3 as (r & Hr & _ & Hcl). simpl in *.
    unfold claim_opened, claim_id_key in Hr. rewrite Eq in Hr. simpl in Hr. rewrite lookup_insert_eq in Hr. simplify_eq.
    eapply claim_written_opened; [|unfold claim_id_key; by rewrite Eq].
    right. do 2 eexists. split_and!; [unfold claim_id_key; by rewrite Eq | | | exact Hcl]; [|done].
    split_and!; try done. by exists e.
  - unfold committed in Hc. tx_step Hc. right. exists dg. split_and!; try done.
    unfold claim_written, claim_opened, claim_id_key. by rewrite Eq.
Qed.

Lemma lease_cell_fresh rt settings key ctx q expires id c db a b db' :
  select_cell settings ctx q expires db = Some (id, c) ->
  lease_cell rt key ctx q expires (claim_fence q) id c (claim_opened ctx q (utc_now rt) db) = Ok ((a, b), db') ->
  b = false \/ fresh_outcome rt settings key ctx q expires db (Ok a, db').
Proof.
  intros Hs Hc. destruct (select_cell_some _ _ _ _ _ _ _ Hs) as (Hid & He & _).
  destruct (eligible_ready _ _ _ _ He) as (Hst & _ & _ & Hexp).
  destruct (claim_opened_tables ctx q (utc_now rt) db) as (Hcs & Hms & _).
  apply lease_cell_ok in Hc; [|by rewrite Hcs]. destruct a as [l t| |d|]; [| |done|done].
  - right. destruct Hc as (_ & -> & Hl & [L1 L2 L3 L4 L5 L6] & Hk). exists c. subst id. split_and!; try done.
    + rewrite Hcs in L1, L6. by constructor.
    + unfold claim_linked, claim_fence in Hk.
      destruct (cq_claim_id q) as [cid|] eqn:Eq; simpl in Hk.
      * destruct Hk as (r & Hr & Hk). unfold claim_opened, claim_id_key in Hr. rewrite Eq in Hr. simpl in Hr.
        rewrite lookup_insert_eq in Hr. simplify_eq.
        eapply claim_written_opened; [|unfold claim_id_key; by rewrite Eq].
        right. do 2 eexists. split_and!; [unfold claim_id_key; by rewrite Eq | | | exact Hk]; done.
      * unfold claim_written, claim_id_key. rewrite Eq. simpl.
        by rewrite Hk; unfold claim_opened, claim_id_key; rewrite Eq.
  - destruct Hc as [->|(Hm & Hw & Hq)]; [by left|]. right. right. exists id, c. rewrite Hcs in Hq.
    split_and!; try done; [lia | auto |]. unfold claim_written. rewrite Hw. unfold claim_opened.
    destruct (claim_id_key ctx q); [|done]. simpl. eexists. split_and!; [| |done]; done.
Qed.

Lemma claim_fresh rt settings key ctx q expires db :
  unclaimed ctx q db ->
  fresh_outcome rt settings key ctx q expires db (claim_cell_once rt settings key ctx q expires db).
Proof.
  intros Hu. unfold claim_cell_once. rewrite (claim_tx_fresh _ _ _ _ _ _ _ Hu).
  destruct (select_cell settings ctx q expires db) as [[id c]|] eqn:Es.
  - destruct (lease_cell _ _ _ _ _ _ _ _ _) as [[[a b] db']|] eqn:E; [|done].
    pose proof (lease_cell_fresh _ _ _ _ _ _ _ _ _ _ _ _ Es E) as Hf.
    apply lease_cell_ok in E; [|by rewrite (proj1 (claim_opened_tables _ _ _ _)); eapply select_cell_some].
    destruct a, b; try done; try (by left); destruct Hf as [|Hf]; done || by destruct E.
  - destruct (answer_empty _ _ _ _ _ _ _) as [[[a b] db']|] eqn:E; [|done].
    apply answer_empty_ok in E as [[-> ->]|(dg & -> & -> & Hrest)]; [by left|]. by exists dg.
Qed.

(** ** The machine *)

(** Each constructor is a committed transaction or a statement of its own; the
    last one is everything the system does to other tables. *)
Inductive pool_step (settings : CellSettings) : Db World -> Db World -> Prop :=
| ps_prepare db rt worker tenant q :
    pool_step settings db
      (run_tx (insert_cell (pr_cell_id q) (prepared_cell q worker tenant (utc_now rt))) db).2
| ps_retire db rt worker id tenant : pool_step settings db (run_tx (retire_update rt worker id tenant) db).2
| ps_claim db rt key ctx q expires :
    pool_step settings db (claim_cell_once rt settings key ctx q expires db).2
| ps_quarantine db rt id : pool_step settings db (run_tx (quarantine_lease rt id) db).2
| ps_destroy db rt worker id q g : pool_step settings db (run_tx (destroy_update rt worker id q g) db).2
| ps_release db rt worker id lease g d :
    pool_step settings db
      (run_pool_stop (enqueue_pool_stop_on_connection rt worker id lease g d) db).2
| ps_sweep db state expiry now : pool_step settings db (run_tx (quarantine_expired_state state expiry now) db).2
| ps_cleanup db rt : pool_step settings db (reconcile_sterile_pool_cleanup rt db).2
| ps_reconcile db rt config :
    sterile_pool_settings settings = Some config ->
    pool_step settings db (reconcile_sterile_pool rt config db).2
| ps_admit db rt job : pool_step settings db (run_tx (admit_provisioned_cell_on_connection rt job) db).2
| ps_stopped db rt job : pool_step settings db (run_tx (complete_pool_stop_on_connection rt job) db).2
| ps_failed db rt job error :
    pool_step settings db (run_tx (quarantine_failed_pool_job_on_connection rt job error) db).2
| ps_terminalize db rt job process cell :
    pool_step settings db (run_tx (quarantine_tx rt job process cell) db).2
| ps_activate db rt tenant sandbox process g a :
    pool_step settings db
      (run_tx (fence_sterile_resident_activation_on_connection rt tenant sandbox process g a) db).2
| ps_beside db db' : beside_pool db db' -> pool_step settings db db'.

(** No cell, no member, no claim yet. *)
Definition pool_empty (db : Db World) : Prop :=
  sterile_cells db = ∅ /\ sterile_pool_memberships (world db) = ∅ /\ sterile_cell_claims (world db) = ∅.

Definition pool_reachable (settings : CellSettings) (db : Db World) : Prop :=
  exists db0, pool_empty db0 /\ rtc (pool_step settings) db0 db.

(** *** The reconciliation *)

Lemma reconcile_ok rt config db n db' :
  reconcile_tx rt config db = Ok (n, db') ->
  exists db1, pool_evolves db db1 /\ n = members_to_create config (world db1) /\
    member_joins config (Z.to_nat n) db1 db'.
Proof.
  destruct (teardowns_evolve rt CLEANUP_IDS READY_IDS LEASED_IDS) as (Hc & Hr & Hl).
  intros Ht. unfold reconcile_tx in Ht.
  apply tx_bind_ok in Ht as (? & d1 & T1 & Ht). apply tx_bind_ok in Ht as (? & d2 & T2 & Ht).
  apply tx_bind_ok in Ht as (? & d3 & T3 & Ht). apply tx_bind_ok in Ht as (? & d4 & T4 & Ht).
  apply tx_bind_ok in Ht as (? & d5 & T5 & Ht). world_step Ht.
  apply tx_bind_ok in Ht as (? & d6 & T6 & Ht). apply insert_pool_members_joins in T6. tx_step Ht.
  exists d5. split_and!; [|done|done].
  apply Hc in T1. apply lease_sync_evolves in T2. apply quarantine_sync_evolves in T3.
  apply Hr in T4. apply Hl in T5. do 4 (etrans; [eassumption|]). done.
Qed.

(** *** What every step keeps *)

Definition serving (db : Db World) (id : Uuid) : Prop :=
  exists c, sterile_cells db !! id = Some c /\ cell_state c <> SterileCellState.Ready.

Lemma serving_rel db db' id : pool_rel db db' -> serving db id -> serving db' id.
Proof.
  intros [Hc _ _] (c & Hl & Hs). destruct (Hc _ _ Hl) as (c' & Hl' & [_ Hr _]). exists c'. split; [done|].
  intros He. rewrite He in Hr. destruct (cell_state c); simpl in *; lia || done.
Qed.

(** A linked cell has left [ready], and only one claim is linked to it. *)
Definition links_ok (db : Db World) : Prop :=
  (forall k r id, sterile_cell_claims (world db) !! k = Some r -> cc_cell_id r = Some id -> serving db id) /\
  (forall k k' r r' id, sterile_cell_claims (world db) !! k = Some r ->
     sterile_cell_claims (world db) !! k' = Some r' ->
     cc_cell_id r = Some id -> cc_cell_id r' = Some id -> k = k').

(** A claim's row never changes, and no row is linked to a cell that has
    already left [ready]. *)
Record step_rel (db db' : Db World) : Prop := {
  sr_pool : pool_rel db db';
  sr_claims : sterile_cell_claims (world db) ⊆ sterile_cell_claims (world db');
  sr_links k r id : sterile_cell_claims (world db') !! k = Some r -> cc_cell_id r = Some id ->
    serving db id -> sterile_cell_claims (world db) !! k = Some r;
  sr_ok : links_ok db -> links_ok db'
}.

#[local] Instance step_rel_preorder : PreOrder step_rel.
Proof.
  split.
  - intros db. by constructor; [reflexivity | reflexivity| |].
  - intros d1 d2 d3 [P1 C1 L1 O1] [P2 C2 L2 O2]. constructor; [by etrans | by etrans| |auto].
    intros k r id Hk Hid Hs. eapply L1; [|done|done]. eapply L2; [done|done|]. by eapply serving_rel.
Qed.

Lemma same_claims_step db db' :
  pool_rel db db' -> sterile_cell_claims (world db') = sterile_cell_claims (world db) -> step_rel db db'.
Proof.
  intros Hp Hc. constructor; unfold links_ok; rewrite ?Hc; try done.
  intros [Hs Hu]. split; [|done]. intros. eapply serving_rel; [done|]. by eapply Hs.
Qed.

Lemma evolves_step db db' : pool_evolves db db' -> step_rel db db'.
Proof. intros [[Hr _] Hc]. by apply same_claims_step. Qed.

(** Writing the row of an unused claim identifier. *)
Lemma claim_written_step ctx q db db' P :
  pool_rel db db' -> unclaimed ctx q db -> claim_written ctx q db db' P ->
  (forall r id, P r -> cc_cell_id r = Some id -> ~ serving db id /\ serving db' id) -> step_rel db db'.
Proof.
  intros Hp Hu Hw Hr. unfold unclaimed, claim_written in *. destruct (claim_id_key ctx q) as [k|].
  - destruct Hw as (r & HP & _ & Hc). constructor; [done | rewrite Hc; by apply insert_subseteq | |].
    + intros k' r' id Hk Hid Hs. rewrite Hc in Hk. destruct (decide (k = k')) as [<-|Hne].
      * rewrite lookup_insert_eq in Hk. simplify_eq. by destruct (Hr _ _ HP Hid).
      * by rewrite lookup_insert_ne in Hk.
    + intros [Hs Hq]. unfold links_ok. rewrite Hc. split.
      * intros k' r' id [[<- <-]|[Hne Hk]]%lookup_insert_Some Hid; [by apply (Hr r)|].
        eapply serving_rel; [done|]. by eapply Hs.
      * intros k1 k2 r1 r2 id [[<- <-]|[Hne Hk]]%lookup_insert_Some [[<- <-]|[Hne' Hk']]%lookup_insert_Some
          Hi1 Hi2; [done | | | by eapply Hq].
        -- destruct (Hr _ _ HP Hi1) as [[] _]. by eapply Hs.
        -- destruct (Hr _ _ HP Hi2) as [[] _]. by eapply Hs.
  - by apply same_claims_step.
Qed.

(** A claim identifier that was used: the attempt is a recovery. *)
Lemma claim_tx_used rt settings key ctx q expires db k r :
  claim_id_key ctx q = Some k -> sterile_cell_claims (world db) !! k = Some r ->
  pool_evolves db (claim_cell_once rt settings key ctx q expires db).2.
Proof.
  intros Hk Hr. unfold claim_cell_once.
  destruct (claim_tx _ _ _ _ _ _ _) as [[[a b] db']|] eqn:E; simpl; [|reflexivity].
  unfold claim_tx, claim_id_key in *. destruct (cq_claim_id q) as [cid|]; [|done]. simpl in *. simplify_eq.
  apply tx_bind_ok in E as (rc & db1 & Hrec & E).
  pose proof (recover_claim_evolves _ _ _ _ _ _ _ _ Hrec) as Hev.
  unfold recover_claim in Hrec. tx_step Hrec. tx_step Hm. rewrite Hr in Hrec.
  assert (is_Some rc) as [a0 ->].
  { destruct (_ =? _)%string; [|by tx_step Hrec]. destruct (cc_cell_id r).
    - destruct (sterile_cells _ !! _); [|by tx_step Hrec]. apply tx_bind_ok in Hrec as (? & ? & _ & Hrec).
      tx_step Hrec. by eexists.
    - apply tx_bind_ok in Hrec as (? & ? & _ & Hrec). tx_step Hrec. by eexists. }
  unfold committed in E. tx_step E. destruct a; done.
Qed.

Lemma claim_step rt settings key ctx q expires db :
  step_rel db (claim_cell_once rt settings key ctx q expires db).2.
Proof.
  destruct (claim_id_key ctx q) as [k|] eqn:Ek; [destruct (sterile_cell_claims (world db) !! k) as [r|] eqn:Er|].
  1: by eapply evolves_step, claim_tx_used.
  all: assert (Hu : unclaimed ctx q db) by (unfold unclaimed; by rewrite Ek).
  all: pose proof (proj1 (claim_cell_once_shrinks rt settings key ctx q expires db)) as Hp.
  all: pose proof (claim_fresh rt settings key ctx q expires db Hu) as Hf.
  all: destruct (claim_cell_once _ _ _ _ _ _ _) as [[[l t| |d|]|e] db']; simpl in *; try done; try (subst; reflexivity).
  all: try (destruct Hf as [->|(id & c & _ & _ & _ & Hw)]; [reflexivity|];
            eapply claim_written_step; [done|done|done|]; by intros r' id' (-> & _)).
  all: try (destruct Hf as (dg & _ & _ & _ & _ & Hw);
            eapply claim_written_step; [done|done|done|]; by intros r' id' (-> & _)).
  all: destruct Hf as (c & Hs & _ & [_ _ _ _ _ Hcs] & Hw); eapply claim_written_step; [done|done|done|];
       intros r' id' [Hl _] Hid; rewrite Hl in Hid; injection Hid as <-; split;
       [ intros (c' & Hc' & Hn); destruct (select_cell_some _ _ _ _ _ _ _ Hs) as (Hc & He & _);
         simplify_eq; by destruct (eligible_ready _ _ _ _ He)
       | eexists; rewrite Hcs, lookup_insert_eq; split; [done|]; done ].
Qed.

(** A step evolves the tables, is a claim, or is a reconciliation that lets
    members join. *)
Lemma pool_step_cases settings db db' :
  pool_step settings db db' ->
  pool_evolves db db' \/
  (exists rt key ctx q e, db' = (claim_cell_once rt settings key ctx q e db).2) \/
  (exists config db1, sterile_pool_settings settings = Some config /\ pool_evolves db db1 /\
     member_joins config (Z.to_nat (members_to_create config (world db1))) db1 db').
Proof.
  destruct 1 as [| |db rt key ctx q e| | | | | |db rt config Hset| | | | | |].
  3: { right; left. by exists rt, key, ctx, q, e. }
  8: { unfold reconcile_sterile_pool, run_tx. destruct (reconcile_tx _ _ _) as [[n db']|] eqn:E; [|by left; reflexivity].
       apply reconcile_ok in E as (db1 & He & -> & Hj). right; right. by exists config, db1. }
  all: left.
  - apply (run_tx_rel pool_evolves), insert_cell_evolves.
  - apply (run_tx_rel pool_evolves), retire_update_evolves.
  - apply (run_tx_rel pool_evolves), quarantine_record_evolves.
  - apply (run_tx_rel pool_evolves), destroy_update_evolves.
  - apply run_pool_stop_evolves, enqueue_pool_stop_evolves.
  - apply (run_tx_rel pool_evolves), quarantine_expired_state_evolves.
  - apply (run_tx_rel pool_evolves), reconcile_cleanup_evolves.
  - apply (run_tx_rel pool_evolves), admit_provisioned_cell_evolves.
  - apply (run_tx_rel pool_evolves), complete_pool_stop_evolves.
  - apply (run_tx_rel pool_evolves), failed_job_evolves.
  - apply (run_tx_rel pool_evolves), terminalize_evolves.
  - apply (run_tx_rel pool_evolves), activation_evolves.
  - by apply pool_relation_beside.
Qed.

Lemma pool_step_rel settings db db' : pool_step settings db db' -> step_rel db db'.
Proof.
  intros [He|[(rt & key & ctx & q & e & ->)|(config & db1 & _ & He & [_ _ Hp Hk])]]%pool_step_cases.
  - by apply evolves_step.
  - apply claim_step.
  - etrans; [by apply evolves_step|]. by apply same_claims_step.
Qed.

Lemma pool_steps_rel settings db db' : rtc (pool_step settings) db db' -> step_rel db db'.
Proof. induction 1; [reflexivity|]. etrans; [by eapply pool_step_rel | done]. Qed.

(** ** A cell serves one claim *)

Lemma lower_hex_lowercase s : forallb is_digest_byte (str_bytes s) = true -> to_ascii_lowercase s = s.
Proof.
  induction s as [|a s IH]; simpl; [done|]. unfold str_bytes in *. simpl.
  rewrite andb_true_iff. intros [Ha Hs]. f_equal; [|auto].
  destruct a as [[] [] [] [] [] [] [] []]; vm_compute in Ha; discriminate || reflexivity.
Qed.

Lemma checked_release settings q key :
  claim_checks settings q = Ok key -> stored_release (cq_release q) = cq_release q.
Proof.
  unfold claim_checks. destruct (require_enabled settings) as [k|]; [|done]. cbn [result_bind].
  unfold validate_release. destruct (_ || _) eqn:E; [done|]. intros _.
  rewrite !orb_false_iff, !negb_false_iff in E. destruct E as [_ E].
  unfold stored_release, set_policy_digest. rewrite (lower_hex_lowercase _ E). by destruct (cq_release q).
Qed.

(** The tables hold the lease a claim was answered with. *)
Record holds_lease (key : string) (ctx : TenantContext) (q : ClaimSterileCellRequestV1)
    (l : SterileCellLeaseV1) (t : string) (db : Db World) : Prop := {
  hl_token : t = lease_token key l;
  hl_cell : exists c, sterile_cells db !! cl_cell_id l = Some c /\
    cell_state c <> SterileCellState.Ready /\ lease_from_row (cl_cell_id l) c = Ok l /\
    cell_lease_attestation_sha256 c = Some (hash_attestation t);
  hl_claim k : claim_id_key ctx q = Some k -> exists r, sterile_cell_claims (world db) !! k = Some r /\
    cc_request_sha256 r = claim_request_digest q /\ answered_lease l r
}.

Lemma lease_row_binding id c c' :
  cell_identity c' = cell_identity c -> lease_binding c' = lease_binding c ->
  lease_from_row id c' = lease_from_row id c.
Proof.
  unfold cell_identity, lease_binding, lease_from_row. intros Hi Hb. injection Hi as _ _ -> _ _ _.
  by injection Hb as _ -> -> -> -> -> -> _ -> _.
Qed.

(** A lease that is held stays as it was written. *)
Lemma holds_lease_rel key ctx q l t db db' :
  step_rel db db' -> holds_lease key ctx q l t db -> holds_lease key ctx q l t db'.
Proof.
  intros [[Hc _ _] Hk _ _] [Ht (c & Hl & Hn & Hr & Hd) Hcl]. constructor; [done| |].
  - destruct (Hc _ _ Hl) as (c' & Hl' & [Hi Hrk [Hb|[Hs _]]]); [|done].
    exists c'. split_and!; [done | | by rewrite (lease_row_binding _ _ _ Hi Hb) |].
    + intros He. rewrite He in Hrk. destruct (cell_state c); simpl in *; lia || done.
    + unfold lease_binding in Hb. by simplify_eq; congruence.
  - intros k Ek. destruct (Hcl k Ek) as (r & Hr' & Hrest). exists r. split; [|done].
    by eapply lookup_weaken.
Qed.

Lemma leases_cell_holds rt settings key ctx q expires db db' l c :
  claim_checks settings q = Ok key -> is_eligible ctx q expires c = true ->
  leases_cell rt key ctx q expires db db' l c -> claim_written ctx q db db' (answered_lease l) ->
  holds_lease key ctx q l (lease_token key l) db'.
Proof.
  intros Hq He [L1 L2 L3 L4 L5 L6] Hw. destruct (eligible_ready _ _ _ _ He) as (_ & _ & Hrel & _).
  rewrite (checked_release _ _ _ Hq) in Hrel. constructor; [done| |].
  - eexists. rewrite L6, lookup_insert_eq. split_and!; [done | done | | done].
    unfold lease_from_row. simpl. rewrite Hrel. rewrite L3. simpl.
    unfold u64_generation. destruct (Z.leb_spec 0 (cell_generation c + 1)); [done | lia].
  - intros k Hk. unfold claim_written in Hw. rewrite Hk in Hw. destruct Hw as (r & Ha & Hd & Hcl).
    exists r. by rewrite Hcl, lookup_insert_eq.
Qed.

Lemma lease_from_row_cell id c l :
  lease_from_row id c = Ok l -> cl_cell_id l = id /\ cell_lease_id c = Some (cl_lease_id l).
Proof.
  unfold lease_from_row. destruct (cell_lease_id c); [|done].
  destruct (u64_generation _ _); [|done]. cbn [result_bind].
  repeat (case_match; [|done]). intros [= <-]. done.
Qed.

(** The answer of a recovery, as a function of the row and its cell. *)
Definition recovered_answer (now : Z) (key : string) (r : CellClaimRow) (id : Uuid) (c : SterileCellRow) :
    result ClaimAttempt ApiError :=
  let? l := lease_from_row id c in
  match cc_lease_id r with
  | None => Err null_column
  | Some claimed =>
      if negb (bool_decide (claimed = cl_lease_id l))
      then Err (internal "sterile-cell claim and lease locators do not match")
      else if negb (cell_is SterileCellState.Leased c) || (cl_expires_at l <=? now)%Z
      then Err (conflict "claim_id refers to a sterile-cell lease that is no longer live")
      else
        match cell_lease_attestation_sha256 c with
        | None => Err null_column
        | Some digest =>
            if String.eqb digest (hash_attestation (lease_token key l))
            then Ok (CellClaimed l (lease_token key l))
            else Err (conflict "live sterile-cell lease attestation cannot be regenerated")
        end
  end.

Definition used_answer (now : Z) (key : string) (digest : string) (db : Db World) (r : CellClaimRow) :
    result ClaimAttempt ApiError :=
  if negb (String.eqb (cc_request_sha256 r) digest)
  then Err (conflict "claim_id was already used for a different sterile-cell claim")
  else
    match cc_cell_id r with
    | None => let? d := stored_diagnosis r in Ok (ClaimEmpty d)
    | Some id =>
        match sterile_cells db !! id with
        | None => Err null_column
        | Some c => recovered_answer now key r id c
        end
    end.

Lemma terminal_check d now c : cell_check (cell_set_terminal (state_of_disposition d) d now c) = true.
Proof. by destruct d. Qed.

(** A used claim identifier is answered from its row; only a lease found dead
    is written: its cell is quarantined. *)
Lemma claim_used rt settings key ctx q expires db k r :
  claim_id_key ctx q = Some k -> sterile_cell_claims (world db) !! k = Some r ->
  (claim_cell_once rt settings key ctx q expires db).1
    = used_answer (utc_now rt) key (claim_request_digest q) db r.
Proof.
  intros Hk Hr. unfold claim_id_key in Hk. destruct (cq_claim_id q) as [cid|] eqn:Eq; [|done]. simpl in Hk. simplify_eq.
  unfold claim_cell_once, claim_tx, used_answer. rewrite Eq. simpl.
  unfold recover_claim, tx_bind, tx_get. simpl. rewrite Hr.
  destruct (_ =? _)%string; [|done]. simpl. destruct (cc_cell_id r) as [id|].
  2:{ unfold tx_lift. destruct (stored_diagnosis r); done. }
  destruct (sterile_cells db !! id) as [c|] eqn:Ec; [|done].
  unfold recover_leased_claim, recovered_answer, tx_bind, tx_lift.
  destruct (lease_from_row id c) as [l|]; [|done]. cbn [result_bind]. destruct (cc_lease_id r); [|done].
  case_bool_decide; [|done]. simpl.
  destruct (negb _ || _); simpl.
  - destruct (cell_is SterileCellState.Leased c) eqn:El; [|done].
    unfold update_cell, tx_bind, tx_get. rewrite Ec, El.
    rewrite (terminal_check SterileCellDisposition.Quarantined). done.
  - destruct (cell_lease_attestation_sha256 c); [|done]. by destruct (_ =? _)%string.
Qed.

Lemma claim_used_same rt settings key ctx q expires db k r a db' :
  claim_id_key ctx q = Some k -> sterile_cell_claims (world db) !! k = Some r ->
  claim_cell_once rt settings key ctx q expires db = (Ok a, db') -> db' = db.
Proof.
  intros Hk Hr. unfold claim_id_key in Hk. destruct (cq_claim_id q) as [cid|] eqn:Eq; [|done]. simpl in Hk. simplify_eq.
  unfold claim_cell_once, claim_tx. rewrite Eq. simpl.
  unfold recover_claim, tx_bind, tx_get. simpl. rewrite Hr.
  destruct (_ =? _)%string; [|done]. simpl. destruct (cc_cell_id r) as [id|].
  2:{ unfold tx_lift. destruct (stored_diagnosis r); [|done]. simpl. congruence. }
  destruct (sterile_cells db !! id) as [c|] eqn:Ec; [|done].
  unfold recover_leased_claim, tx_bind, tx_lift.
  destruct (lease_from_row id c) as [l|]; [|done]. destruct (cc_lease_id r); [|done].
  case_bool_decide; [|done]. simpl. destruct (negb _ || _); simpl.
  - destruct (if cell_is _ c then _ else _) as [[]|]; done.
  - destruct (cell_lease_attestation_sha256 c); [|done]. destruct (_ =? _)%string; [|done]. simpl. congruence.
Qed.

Lemma used_claim_holds now key ctx q db k r l t :
  claim_id_key ctx q = Some k -> sterile_cell_claims (world db) !! k = Some r ->
  used_answer now key (claim_request_digest q) db r = Ok (CellClaimed l t) ->
  holds_lease key ctx q l t db /\ cc_cell_id r = Some (cl_cell_id l).
Proof.
  intros Ek Er Ha. unfold used_answer in Ha.
  destruct (String.eqb_spec (cc_request_sha256 r) (claim_request_digest q)) as [Hd|]; [|done].
  simpl in Ha. destruct (cc_cell_id r) as [id|] eqn:Eid; [|by destruct (stored_diagnosis r)].
  destruct (sterile_cells db !! id) as [c|] eqn:Ec; [|done]. unfold recovered_answer in Ha.
  destruct (lease_from_row id c) as [l'|] eqn:El; [|done]. cbn [result_bind] in Ha.
  destruct (cc_lease_id r) as [lid|] eqn:Elid; [|done]. case_bool_decide as Hlid; [|done]. simpl in Ha.
  destruct (cell_is SterileCellState.Leased c) eqn:Est; [|done]. destruct (_ <=? _)%Z; [done|]. simpl in Ha.
  destruct (cell_lease_attestation_sha256 c) as [dg|] eqn:Edg; [|done].
  destruct (String.eqb_spec dg (hash_attestation (lease_token key l'))); [|done]. simplify_eq.
  destruct (lease_from_row_cell _ _ _ El) as [<- _]. apply bool_decide_eq_true in Est.
  split; [|done]. constructor; [done | |].
  - exists c. split_and!; try done. by rewrite Est.
  - intros k' Hk'. simplify_eq. exists r. split_and!; try done.
Qed.

Lemma fresh_claim_holds rt settings key ctx q expires db l t db' :
  claim_checks settings q = Ok key -> unclaimed ctx q db ->
  claim_cell_once rt settings key ctx q expires db = (Ok (CellClaimed l t), db') ->
  holds_lease key ctx q l t db' /\ ~ serving db (cl_cell_id l).
Proof.
  intros Hq Hu Hc. pose proof (claim_fresh rt settings key ctx q expires db Hu) as Hf. rewrite Hc in Hf.
  destruct Hf as (c & Hs & -> & Hl & Hw). destruct (select_cell_some _ _ _ _ _ _ _ Hs) as (Hcl & He & _).
  split; [by eapply leases_cell_holds|]. intros (c' & Hc' & Hn). simplify_eq.
  by destruct (eligible_ready _ _ _ _ He).
Qed.

(** Whatever path answered, the tables hold the lease. *)
Lemma claimed_holds rt settings key ctx q expires db l t db' :
  claim_checks settings q = Ok key ->
  claim_cell_once rt settings key ctx q expires db = (Ok (CellClaimed l t), db') ->
  holds_lease key ctx q l t db' /\ (~ serving db (cl_cell_id l) \/ exists k r, claim_id_key ctx q = Some k /\
     sterile_cell_claims (world db) !! k = Some r /\ cc_cell_id r = Some (cl_cell_id l) /\ db' = db).
Proof.
  intros Hq Hc. destruct (claim_id_key ctx q) as [k|] eqn:Ek;
    [destruct (sterile_cell_claims (world db) !! k) as [r|] eqn:Er|].
  - pose proof (claim_used rt settings key ctx q expires db k r Ek Er) as Ha.
    pose proof (claim_used_same _ _ _ _ _ _ _ _ _ _ _ Ek Er Hc) as ->. rewrite Hc in Ha. symmetry in Ha.
    destruct (used_claim_holds _ _ _ _ _ _ _ _ _ Ek Er Ha) as [Hh Hid].
    split; [done|]. right. by exists k, r.
  - assert (Hu : unclaimed ctx q db) by (unfold unclaimed; by rewrite Ek).
    destruct (fresh_claim_holds _ _ _ _ _ _ _ _ _ _ Hq Hu Hc). auto.
  - assert (Hu : unclaimed ctx q db) by (unfold unclaimed; by rewrite Ek).
    destruct (fresh_claim_holds _ _ _ _ _ _ _ _ _ _ Hq Hu Hc). auto.
Qed.

Lemma reachable_links settings db : pool_reachable settings db -> links_ok db.
Proof.
  intros (db0 & (_ & _ & Hk) & Hs). apply pool_steps_rel in Hs as [_ _ _ Hok]. apply Hok.
  split; rewrite Hk; intros *; by rewrite lookup_empty.
Qed.

Lemma held_cell_serves key ctx q l t db : holds_lease key ctx q l t db -> serving db (cl_cell_id l).
Proof. intros [_ (c & Hc & Hn & _) _]. by exists c. Qed.

(** A row that links a held cell was there when the lease was answered, under
    the claim it answered. *)
Lemma link_is_own settings key rt ctx q e l t db1 db2 db3 k r :
  links_ok db1 -> claim_checks settings q = Ok key ->
  claim_cell_once rt settings key ctx q e db1 = (Ok (CellClaimed l t), db2) ->
  step_rel db2 db3 -> sterile_cell_claims (world db3) !! k = Some r ->
  cc_cell_id r = Some (cl_cell_id l) -> claim_id_key ctx q = Some k.
Proof.
  intros Hok Hq Hc Hs Hr Hid. destruct (claimed_holds _ _ _ _ _ _ _ _ _ _ Hq Hc) as [Hh Hw].
  pose proof (held_cell_serves _ _ _ _ _ _ Hh) as Hsv.
  pose proof (sr_links _ _ Hs _ _ _ Hr Hid Hsv) as Hr2.
  pose proof (claim_step rt settings key ctx q e db1) as Hcs. rewrite Hc in Hcs. simpl in Hcs.
  destruct (sr_ok _ _ Hcs Hok) as [_ Hun]. destruct (claim_id_key ctx q) as [k1|] eqn:Ek.
  - destruct (hl_claim _ _ _ _ _ _ Hh _ Ek) as (r1 & Hr1 & _ & Ha & _). f_equal. by eapply Hun.
  - destruct Hw as [Hns|(? & ? & ? & _)]; [|done]. destruct Hns. destruct Hok as [Hsv1 _].
    assert (Hu : unclaimed ctx q db1) by (unfold unclaimed; by rewrite Ek).
    pose proof (claim_fresh rt settings key ctx q e db1 Hu) as Hf. rewrite Hc in Hf.
    destruct Hf as (c & _ & _ & _ & Hcw). unfold claim_written in Hcw. rewrite Ek in Hcw.
    rewrite Hcw in Hr2. by eapply Hsv1.
Qed.

End Machine.
