(* ===== verification/SterileCellTheorems.v ===== *)
(** * Sterile cells: the theorems

    What every sequence of requests, sweeps and reconciliations guarantees of
    the cells, the claims and the pool; see [SterileCellMachine]. *)

From S2P Require Import Prelude CoreTypes Json Store Leases SandboxLifecycle World CommandOutput.
From S2P Require Import Authz Scopes SterilePool PoolController SterileCells ResidentProcesses SterileCellProofs.
From S2P Require Import SterileCellMachine.
From stdpp Require Import sorting.

Section Theorems.
Context `{UuidLib} `{SerdeLib} `{CellLib}.

(** ** One cell, one claim *)

(** C1. A cell serves one claim.  Two answers that name one cell, with any steps between them, are the same
    lease under the same claim. *)
Theorem cell_serves_one_claim settings key rt1 ctx1 q1 e1 l1 t1 db1 db2 rt2 ctx2 q2 e2 l2 t2 db3 db4 :
  pool_reachable settings db1 ->
  claim_checks settings q1 = Ok key -> claim_checks settings q2 = Ok key ->
  claim_cell_once rt1 settings key ctx1 q1 e1 db1 = (Ok (CellClaimed l1 t1), db2) ->
  rtc (pool_step settings) db2 db3 ->
  claim_cell_once rt2 settings key ctx2 q2 e2 db3 = (Ok (CellClaimed l2 t2), db4) ->
  cl_cell_id l1 = cl_cell_id l2 ->
  l1 = l2 /\ t1 = t2 /\ (exists k, claim_id_key ctx1 q1 = Some k /\ claim_id_key ctx2 q2 = Some k) /\
  claim_request_digest q1 = claim_request_digest q2.
Proof.
  intros Hr Hq1 Hq2 Hc1 Hs Hc2 Hid. pose proof (pool_steps_rel _ _ _ Hs) as Hsr.
  destruct (claimed_holds _ _ _ _ _ _ _ _ _ _ Hq1 Hc1) as [Hh1 _].
  destruct (claimed_holds _ _ _ _ _ _ _ _ _ _ Hq2 Hc2) as [Hh2 Hw2].
  pose proof (holds_lease_rel _ _ _ _ _ _ _ Hsr Hh1) as Hh3.
  destruct Hw2 as [Hns|(k2 & r2 & Hk2 & Hr2 & Hl2 & ->)].
  { destruct Hns. rewrite <-Hid. by eapply held_cell_serves. }
  rewrite <-Hid in Hl2.
  pose proof (link_is_own _ _ _ _ _ _ _ _ _ _ _ _ _ (reachable_links _ _ Hr) Hq1 Hc1 Hsr Hr2 Hl2) as Hk1.
  destruct (hl_claim _ _ _ _ _ _ Hh3 _ Hk1) as (r & Hra & Hd1 & _).
  destruct (hl_claim _ _ _ _ _ _ Hh2 _ Hk2) as (r' & Hrb & Hd2 & _).
  destruct (hl_cell _ _ _ _ _ _ Hh3) as (c & Hc & _ & Hl & _).
  destruct (hl_cell _ _ _ _ _ _ Hh2) as (c' & Hc' & _ & Hl' & _).
  rewrite Hid in Hc, Hl. assert (l1 = l2) as -> by (simplify_eq; congruence).
  split_and!; [done | | by exists k2 | congruence].
  by rewrite (hl_token _ _ _ _ _ _ Hh1), (hl_token _ _ _ _ _ _ Hh2).
Qed.
(** ** A claim identifier is answered once *)

Lemma replay_held rt settings key ctx q q' e l t db k :
  claim_id_key ctx q = Some k -> claim_id_key ctx q' = Some k -> holds_lease key ctx q l t db ->
  exists c, sterile_cells db !! cl_cell_id l = Some c /\
    (claim_cell_once rt settings key ctx q' e db).1 =
      if negb (String.eqb (claim_request_digest q) (claim_request_digest q'))
      then Err (conflict "claim_id was already used for a different sterile-cell claim")
      else if cell_is SterileCellState.Leased c && (utc_now rt <? cl_expires_at l)%Z
      then Ok (CellClaimed l t)
      else Err (conflict "claim_id refers to a sterile-cell lease that is no longer live").
Proof.
  intros Hk Hk' [-> (c & Hc & Hn & Hl & Hd) Hcl]. destruct (Hcl k Hk) as (r & Hr & Hdig & Hid & Hlid).
  exists c. split; [done|]. rewrite (claim_used _ _ _ _ _ _ _ _ _ Hk' Hr). unfold used_answer.
  rewrite Hdig, Hid. destruct (_ =? _)%string; [|done]. simpl. rewrite Hc. unfold recovered_answer.
  rewrite Hl. cbn [result_bind]. rewrite Hlid, bool_decide_eq_true_2 by done. simpl.
  rewrite Hd, String.eqb_refl. destruct (cell_is _ c); simpl; [|done].
  destruct (Z.leb_spec (cl_expires_at l) (utc_now rt)), (Z.ltb_spec (utc_now rt) (cl_expires_at l)); lia || done.
Qed.

(** C22. A claim identifier is answered once.  After a claim was answered with
    a lease, and whatever happened since, the same request is answered with
    the same lease and attestation while the cell is leased and the lease has
    not expired, and refused afterwards; another request under the identifier
    is refused. *)
Theorem claim_id_is_answered_once settings key rt1 ctx q e1 l t db1 db2 db3 rt2 q' e2 k :
  claim_checks settings q = Ok key -> claim_id_key ctx q = Some k -> claim_id_key ctx q' = Some k ->
  claim_cell_once rt1 settings key ctx q e1 db1 = (Ok (CellClaimed l t), db2) ->
  rtc (pool_step settings) db2 db3 ->
  exists c, sterile_cells db3 !! cl_cell_id l = Some c /\
    (claim_cell_once rt2 settings key ctx q' e2 db3).1 =
      if negb (String.eqb (claim_request_digest q) (claim_request_digest q'))
      then Err (conflict "claim_id was already used for a different sterile-cell claim")
      else if cell_is SterileCellState.Leased c && (utc_now rt2 <? cl_expires_at l)%Z
      then Ok (CellClaimed l t)
      else Err (conflict "claim_id refers to a sterile-cell lease that is no longer live").
Proof.
  intros Hq Hk Hk' Hc Hs. destruct (claimed_holds _ _ _ _ _ _ _ _ _ _ Hq Hc) as [Hh _].
  eapply replay_held; [exact Hk | exact Hk' |]. eapply holds_lease_rel; [by eapply pool_steps_rel | done].
Qed.

Lemma replay_row settings key rt ctx q e db db' k r a :
  rtc (pool_step settings) db db' -> claim_id_key ctx q = Some k ->
  sterile_cell_claims (world db) !! k = Some r ->
  (forall d, used_answer (utc_now rt) key (claim_request_digest q) d r = a) ->
  (claim_cell_once rt settings key ctx q e db').1 = a.
Proof.
  intros Hs Hk Hr Ha. apply pool_steps_rel in Hs as [_ Hcl _ _].
  rewrite (claim_used _ _ _ _ _ _ _ _ r Hk); [by apply Ha|]. by eapply lookup_weaken.
Qed.

(** An empty answer is final: once a claim found no cell, its identifier
    is answered with the same diagnosis for good, also after cells became
    ready. *)
Theorem empty_claim_is_final settings key rt1 ctx q e1 d db1 db2 db3 rt2 e2 k :
  (forall ev s, evidence_to_string ev = Some s -> evidence_from_str s = Some ev) ->
  claim_id_key ctx q = Some k -> sterile_cell_claims (world db1) !! k = None ->
  claim_cell_once rt1 settings key ctx q e1 db1 = (Ok (ClaimEmpty (Some d)), db2) ->
  rtc (pool_step settings) db2 db3 ->
  (claim_cell_once rt2 settings key ctx q e2 db3).1 = Ok (ClaimEmpty (Some d)).
Proof.
  intros Hrt Hk Hn Hc Hs. assert (Hu : unclaimed ctx q db1) by (unfold unclaimed; by rewrite Hk).
  pose proof (claim_fresh rt1 settings key ctx q e1 db1 Hu) as Hf. rewrite Hc in Hf.
  destruct Hf as (dg & [= <-] & _ & _ & _ & Hw). unfold claim_written in Hw. rewrite Hk in Hw.
  destruct Hw as (r & (Hid & Hre & ev & Hev & Hce) & Hdig & Hcl).
  eapply (replay_row _ _ _ _ _ _ _ _ _ r); [done | done | by rewrite Hcl, lookup_insert_eq |].
  intros d'. unfold used_answer. rewrite Hdig, String.eqb_refl, Hid. simpl.
  unfold stored_diagnosis. rewrite Hre, Hce, (Hrt _ _ Hev). by destruct d as [[] ?].
Qed.

(** ** A claim that waited too long *)

Lemma late_lease_cell rt key ctx q e fence id c db :
  sterile_cells db !! id = Some c -> cell_state c = SterileCellState.Ready ->
  (Z.min e (cell_expires_at c) <= utc_now rt)%Z ->
  lease_cell rt key ctx q e fence id c db =
    Ok ((ClaimContended, true),
        set_sterile_cells (<[id := cell_set_quarantined (utc_now rt) c]> (sterile_cells db)) db).
Proof.
  intros Hc Hs He. unfold lease_cell. apply Z.leb_le in He. rewrite He.
  unfold tx_bind at 1, update_cell, tx_bind at 1, tx_get. rewrite Hc. unfold cell_is. rewrite Hs. done.
Qed.

(** A claim whose lease time passed while it waited for the pool's lock
    takes a ready cell out of service although the cell itself has not
    expired, and leaves its own row open: the identifier is then answered with
    no lease and no reason, for good, whatever the pool holds. *)
Theorem late_claim_is_lost settings key rt1 ctx q e1 id c db1 db2 db3 rt2 e2 k :
  claim_id_key ctx q = Some k -> sterile_cell_claims (world db1) !! k = None ->
  select_cell settings ctx q e1 db1 = Some (id, c) -> (e1 <= utc_now rt1)%Z ->
  db2 = (claim_cell_once rt1 settings key ctx q e1 db1).2 ->
  rtc (pool_step settings) db2 db3 ->
  (e1 < cell_expires_at c)%Z /\
  sterile_cells db2 !! id = Some (cell_set_quarantined (utc_now rt1) c) /\
  (claim_cell_once rt2 settings key ctx q e2 db3).1 = Ok (ClaimEmpty None).
Proof.
  intros Hk Hn Hsel He -> Hs. assert (Hu : unclaimed ctx q db1) by (unfold unclaimed; by rewrite Hk).
  destruct (select_cell_some _ _ _ _ _ _ _ Hsel) as (Hc & Hel & _).
  destruct (eligible_ready _ _ _ _ Hel) as (Hst & _ & _ & Hexp).
  destruct (claim_opened_tables ctx q (utc_now rt1) db1) as (Hcs & _ & _).
  assert (Hres : claim_cell_once rt1 settings key ctx q e1 db1 =
    (Ok ClaimContended, set_sterile_cells (<[id := cell_set_quarantined (utc_now rt1) c]> (sterile_cells db1))
                          (claim_opened ctx q (utc_now rt1) db1))).
  { unfold claim_cell_once. rewrite (claim_tx_fresh _ _ _ _ _ _ _ Hu), Hsel.
    rewrite late_lease_cell; [by rewrite Hcs | by rewrite Hcs | done | lia]. }
  rewrite Hres in *. simpl in *. split_and!; [done | by rewrite lookup_insert_eq |].
  eapply (replay_row _ _ _ _ _ _ _ _ _ (open_row q (utc_now rt1))); [done | done | |].
  - simpl. unfold claim_opened. rewrite Hk. simpl. by rewrite lookup_insert_eq.
  - intros d'. unfold used_answer. simpl. by rewrite String.eqb_refl.
Qed.

(** ** The size of the pool *)

Definition pool_bounded (config : SterilePoolConfig) (db : Db World) : Prop :=
  (live_count config (world db) <= Z.max (pool_target config) 0)%Z /\
  (provisioning_count config (world db) <= Z.max (pool_max_provisioning config) 0)%Z.

Lemma pool_step_bounded settings config db db' :
  sterile_pool_settings settings = Some config -> pool_step settings db db' ->
  pool_bounded config db -> pool_bounded config db'.
Proof.
  intros Hset Hs. unfold pool_bounded, live_count, provisioning_count. rewrite !count_members_rows.
  assert (Hsh : forall d d', pool_shrinks d d' ->
    (count_of (in_pool_live config) d' <= count_of (in_pool_live config) d)%nat /\
    (count_of (in_pool_provisioning config) d' <= count_of (in_pool_provisioning config) d)%nat).
  { intros d d' Hd. split; eapply count_shrinks; try exact Hd; [apply live_moves | apply provisioning_moves]. }
  fold (in_pool_live config) (in_pool_provisioning config).
  destruct (pool_step_cases _ _ _ Hs)
    as [[Hp _]|[(rt & key & ctx & q & e & ->)|(config' & db1 & Hc' & [Hp _] & [Hl Hpr _ _])]].
  - destruct (Hsh _ _ Hp). lia.
  - destruct (Hsh _ _ (claim_cell_once_shrinks rt settings key ctx q e db)). lia.
  - rewrite Hset in Hc'. injection Hc' as <-. destruct (Hsh _ _ Hp).
    unfold members_to_create, live_count, provisioning_count in Hl, Hpr. rewrite !count_members_rows in Hl, Hpr.
    fold (in_pool_live config) (in_pool_provisioning config) in Hl, Hpr. lia.
Qed.

(** C6. The pool stays within its configuration: in every reachable state at
    most [target] members of the configured tuple are live and at most
    [max_provisioning] are provisioning. *)
Theorem pool_stays_within_target settings config db :
  sterile_pool_settings settings = Some config -> pool_reachable settings db ->
  (live_count config (world db) <= Z.max (pool_target config) 0)%Z /\
  (provisioning_count config (world db) <= Z.max (pool_max_provisioning config) 0)%Z.
Proof.
  intros Hset (db0 & (_ & Hm & _) & Hs). fold (pool_bounded config db).
  assert (Hb : pool_bounded config db0).
  { unfold pool_bounded, live_count, provisioning_count, count_members. rewrite Hm, map_to_list_empty. simpl. lia. }
  clear Hm. induction Hs; [done|]. apply IHHs. by eapply pool_step_bounded.
Qed.

(** ** The ready floor *)

(** The members a claim rewrites: at most the one of the selected cell. *)
Definition same_members (db db' : Db World) : Prop :=
  sterile_pool_memberships (world db') = sterile_pool_memberships (world db).

#[local] Instance same_members_relation : PoolRelation same_members.
Proof.
  split; [split|].
  - done.
  - intros ? ? ? Hm1 Hm2. unfold same_members in *. congruence.
  - by intros db db' (_ & Hm & _).
Qed.

Lemma update_cell_members id guard f : tx_rel same_members (update_cell id guard f).
Proof. intros db b db' Hc. apply update_cell_ok in Hc as [Hw _]. unfold same_members. by rewrite Hw. Qed.

Lemma update_claim_members tenant fence f : tx_rel same_members (update_claim tenant fence f).
Proof. intros db b db' Hc. by apply update_claim_ok in Hc as (_ & Hm & _). Qed.

Lemma insert_claim_members tenant fence now : tx_rel same_members (insert_claim tenant fence now).
Proof.
  intros db b db' Hc. unfold insert_claim in Hc. world_step Hc.
  destruct (is_some _); [by tx_step Hc|]. world_step Hc. by tx_step Hc.
Qed.

Hint Resolve update_cell_members update_claim_members insert_claim_members : pool.

Lemma recover_claim_members rt key tenant id digest : tx_rel same_members (recover_claim rt key tenant id digest).
Proof. unfold recover_claim, recover_leased_claim. pool_auto. Qed.

Lemma answer_empty_members rt settings ctx q e fence : tx_rel same_members (answer_empty rt settings ctx q e fence).
Proof. unfold answer_empty. pool_auto. Qed.

(** The membership a lease consumes. *)
Definition takes_member (id : Uuid) (db db' : Db World) : Prop :=
  same_members db db' \/
  exists m m', sterile_pool_memberships (world db) !! id = Some m /\ mb_state m = MemberReady /\
    mb_state m' = MemberLeased /\ sterile_pool_memberships (world db') = <[id := m']> (sterile_pool_memberships (world db)).

Lemma record_pool_claim_takes rt id lease g db u db' :
  record_pool_claim_on_connection rt id lease g db = Ok (u, db') -> takes_member id db db'.
Proof.
  intros Hc. unfold record_pool_claim_on_connection in Hc. destruct (try_i64 g) as [g'|]; [|by tx_step Hc].
  apply tx_bind_ok in Hc as (up & db1 & Hu & Hc). world_step Hc. case_match; [|by tx_step Hc]. tx_step Hc.
  unfold update_membership in Hu. world_step Hu.
  destruct (sterile_pool_memberships (world db) !! id) as [m|] eqn:Em; [|tx_step Hu; by left].
  destruct (member_is MemberReady m && _) eqn:Eg; [|tx_step Hu; by left].
  destruct (membership_check _); [|by tx_step Hu]. world_step Hu. tx_step Hu.
  right. apply andb_true_iff in Eg as [Eg _]. apply bool_decide_eq_true in Eg. by exists m, (membership_set_leased (Some lease) (Some g') (utc_now rt) m).
Qed.

Lemma same_takes id db1 db2 db3 :
  same_members db1 db2 -> takes_member id db2 db3 -> takes_member id db1 db3.
Proof.
  unfold takes_member, same_members. intros He [Hs|(m & m' & Hm & Hr)]; [left; congruence|].
  right. exists m, m'. by rewrite <-He.
Qed.

Lemma takes_same id db1 db2 db3 :
  takes_member id db1 db2 -> same_members db2 db3 -> takes_member id db1 db3.
Proof.
  unfold takes_member, same_members. intros [Hs|(m & m' & Hm & Hr & Hl & Hc)] He; [left; congruence|].
  right. exists m, m'. by rewrite He.
Qed.

Lemma lease_cell_takes rt key ctx q e fence id c db a db' :
  lease_cell rt key ctx q e fence id c db = Ok (a, db') -> takes_member id db db'.
Proof.
  intros Hc. unfold lease_cell, committed, rolled_back in Hc. destruct (_ <=? _)%Z.
  { apply tx_bind_ok in Hc as (? & db1 & Hu & Hc). apply update_cell_members in Hu. tx_step Hc. by left. }
  apply tx_bind_ok in Hc as (g & db1 & Hg & Hc). apply tx_lift_ok in Hg as [_ ->].
  destruct (_ <? _)%Z; [|by tx_step Hc].
  apply tx_bind_ok in Hc as (? & db2 & Hg2 & Hc). apply tx_lift_ok in Hg2 as [_ ->].
  apply tx_bind_ok in Hc as (? & db3 & Hg3 & Hc). apply tx_lift_ok in Hg3 as [_ ->].
  apply tx_bind_ok in Hc as (up & db4 & Hu & Hc). apply update_cell_members in Hu.
  destruct up; simpl in Hc; [|tx_step Hc; by left].
  apply tx_bind_ok in Hc as (? & db5 & Hr & Hc). apply record_pool_claim_takes in Hr.
  eapply same_takes; [exact Hu|]. eapply takes_same; [exact Hr|].
  destruct fence as [f|]; [|by tx_step Hc].
  apply tx_bind_ok in Hc as (lk & db6 & Hk & Hc). apply update_claim_members in Hk.
  destruct lk; by tx_step Hc.
Qed.

#[local] Instance unclaimed_dec ctx q db : Decision (unclaimed ctx q db).
Proof. unfold unclaimed. destruct (claim_id_key ctx q); apply _. Defined.

Lemma claim_outcome_db rt settings key ctx q e db :
  let db' := (claim_cell_once rt settings key ctx q e db).2 in
  db' = db \/ exists a, claim_tx rt settings key ctx q e db = Ok (a, db').
Proof.
  unfold claim_cell_once. destruct (claim_tx _ _ _ _ _ _ _) as [[[a b] db']|] eqn:E; simpl; [|by left].
  destruct a, b; simpl; eauto.
Qed.

(** A claim leaves the memberships alone or takes the one of the cell it
    selected. *)
Lemma claim_takes rt settings key ctx q e db :
  let db' := (claim_cell_once rt settings key ctx q e db).2 in
  same_members db db' \/
  exists id c, select_cell settings ctx q e db = Some (id, c) /\ takes_member id db db'.
Proof.
  simpl. destruct (claim_outcome_db rt settings key ctx q e db) as [->|[a Ha]]; [by left|].
  set (db' := (claim_cell_once _ _ _ _ _ _ _).2) in *. clearbody db'.
  destruct (decide (unclaimed ctx q db)) as [Hu|Hu].
  - rewrite (claim_tx_fresh _ _ _ _ _ _ _ Hu) in Ha.
    destruct (claim_opened_tables ctx q (utc_now rt) db) as (_ & Hm & _).
    destruct (select_cell _ _ _ _ db) as [[id c]|]; [|left; apply answer_empty_members in Ha].
    + right. exists id, c. split; [done|]. eapply same_takes; [exact Hm | by eapply lease_cell_takes].
    + unfold same_members in *. congruence.
  - left. unfold unclaimed, claim_id_key, claim_tx in *. destruct (cq_claim_id q) as [cid|]; [|done]. simpl in *.
    apply tx_bind_ok in Ha as (rc & db1 & Hrec & Ha). pose proof (recover_claim_members _ _ _ _ _ _ _ _ Hrec) as Hr.
    destruct rc as [a0|]; [unfold committed in Ha; by tx_step Ha|].
    unfold recover_claim in Hrec. tx_step Hrec. tx_step Hm.
    destruct (sterile_cell_claims _ !! _) as [r|]; [|done]. destruct (_ =? _)%string; [|by tx_step Hrec].
    destruct (cc_cell_id r); [destruct (sterile_cells _ !! _); [|by tx_step Hrec]|];
      apply tx_bind_ok in Hrec as (? & ? & _ & Hrec); by tx_step Hrec.
Qed.

Definition ready_in_pool (config : SterilePoolConfig) (m : MembershipRow) : bool :=
  in_pool config m && member_is MemberReady m.

(** The ready members of the configured tuple. *)
Definition ready_count (config : SterilePoolConfig) (db : Db World) : Z :=
  count_members (ready_in_pool config) (world db).

Lemma in_pool_tuple config m :
  in_pool config m = true ->
  mb_tenant_id m = pool_tenant_id config /\ mb_release m = pool_release config /\
  mb_candidate_agent_image m = pool_agent_image config /\ mb_candidate_maestro_image m = pool_maestro_image config.
Proof.
  unfold in_pool. rewrite !andb_true_iff, !String.eqb_eq, bool_decide_eq_true. naive_solver.
Qed.

Lemma reserve_of_pool config w m : in_pool config m = true -> ready_reserve w m = count_members (ready_in_pool config) w.
Proof.
  intros (Ht & Hr & Ha & Hm)%in_pool_tuple. unfold ready_reserve, ready_in_pool, in_pool. by rewrite Ht, Hr, Ha, Hm.
Qed.

Lemma reachable_ready settings db : pool_reachable settings db -> ready_ok db.
Proof.
  intros (db0 & (_ & Hm & _) & Hs). apply pool_steps_rel in Hs as [[_ _ Hok] _ _ _]. apply Hok.
  intros id m. by rewrite Hm, lookup_empty.
Qed.

(** The pool's configuration applies to every cell of a member of its tuple. *)
Lemma member_matches settings config ctx q key e db id c m :
  ready_ok db -> sterile_pool_settings settings = Some config -> claim_checks settings q = Ok key ->
  sterile_cells db !! id = Some c -> is_eligible ctx q e c = true ->
  sterile_pool_memberships (world db) !! id = Some m -> mb_state m = MemberReady -> in_pool config m = true ->
  matching_pool_config settings ctx q = Some config.
Proof.
  intros Hok Hset Hq Hc He Hm Hs (Ht & Hr & _)%in_pool_tuple.
  destruct (Hok _ _ Hm Hs) as (c' & Hc' & Hcr & Hct). simplify_eq.
  destruct (eligible_ready _ _ _ _ He) as (_ & Hct' & Hcr' & _). rewrite (checked_release _ _ _ Hq) in Hcr'.
  unfold matching_pool_config. rewrite Hset. assert (ctx_tenant_id ctx = pool_tenant_id config) as -> by congruence.
  rewrite String.eqb_refl, bool_decide_eq_true_2; [done | congruence].
Qed.

(** C8. A claim respects the ready floor: it never takes the ready members of
    the configured tuple below the configured floor. *)
Theorem claims_respect_ready_floor settings config key rt ctx q e db :
  pool_reachable settings db -> sterile_pool_settings settings = Some config ->
  claim_checks settings q = Ok key ->
  let db' := (claim_cell_once rt settings key ctx q e db).2 in
  (Z.min (pool_ready_floor config) (ready_count config db) <= ready_count config db')%Z.
Proof.
  intros Hr Hset Hq. simpl. unfold ready_count. rewrite !count_members_rows. unfold count_of.
  destruct (claim_takes rt settings key ctx q e db) as [->|(id & c & Hsel & [->|(m & m' & Hm & Hs & Hs' & ->)])]; [lia..|].
  pose proof (count_rows_update (fun _ m => ready_in_pool config m) _ _ _ m' Hm) as Hcount. simpl in Hcount.
  destruct (ready_in_pool config m) eqn:Ep; [|simpl in Hcount; lia].
  assert (Hp : in_pool config m = true) by (unfold ready_in_pool in Ep; by destruct (in_pool config m)).
  destruct (select_cell_some _ _ _ _ _ _ _ Hsel) as (Hc & He & Hw).
  rewrite (member_matches _ _ _ _ _ _ _ _ _ _ (reachable_ready _ _ Hr) Hset Hq Hc He Hm Hs Hp) in Hw.
  unfold is_withheld in Hw. rewrite Hm in Hw. unfold member_is, at_floor in Hw.
  rewrite Hp, bool_decide_eq_true_2, (reserve_of_pool _ _ _ Hp), count_members_rows in Hw by done. unfold count_of in Hw.
  simpl in Hw, Hcount. destruct (ready_in_pool config m'); simpl in Hcount; lia.
Qed.

(** ** The diagnosis of an empty claim *)

(** The diagnosis counts as protected exactly the cells the claim withholds. *)
Lemma protected_is_withheld settings config ctx q key e db id c :
  ready_ok db -> matching_pool_config settings ctx q = Some config -> claim_checks settings q = Ok key ->
  sterile_cells db !! id = Some c -> is_eligible ctx q e c = true ->
  is_reserved_cell config ctx q e (world db) id c = is_withheld (Some config) (world db) id.
Proof.
  intros Hok Hset Hq Hc He. unfold is_reserved_cell, is_withheld. rewrite He. simpl.
  destruct (sterile_pool_memberships (world db) !! id) as [m|] eqn:Em; [|done].
  destruct (member_is MemberReady m) eqn:Er; [|done]. apply bool_decide_eq_true in Er. simpl. f_equal.
  destruct (Hok _ _ Em Er) as (c' & Hc' & Hr & Ht). simplify_eq.
  destruct (eligible_ready _ _ _ _ He) as (_ & Ht' & Hr' & _). rewrite (checked_release _ _ _ Hq) in Hr'.
  unfold matching_pool_config in Hset. destruct (sterile_pool_settings settings) as [cfg|]; [|done].
  destruct (_ && _) eqn:E; [|done]. injection Hset as ->.
  apply andb_true_iff in E as [E1%String.eqb_eq E2%bool_decide_eq_true].
  unfold in_pool, runs_images. assert (mb_tenant_id m = pool_tenant_id config) as -> by congruence.
  assert (mb_release m = pool_release config) as -> by congruence.
  by rewrite String.eqb_refl, bool_decide_eq_true_2.
Qed.

Definition withheld_rows (settings : CellSettings) (ctx : TenantContext) (q : ClaimSterileCellRequestV1)
    (e : Z) (db : Db World) : nat :=
  count_rows (fun id c => is_eligible ctx q e c
                && is_withheld (matching_pool_config settings ctx q) (world db) id) (sterile_cells db).

Lemma count_cells_rows p db : count_cells p db = Z.of_nat (count_rows p (sterile_cells db)).
Proof. reflexivity. Qed.

Lemma eligible_rows settings ctx q e db :
  count_rows (fun _ c => is_eligible ctx q e c) (sterile_cells db)
    = (withheld_rows settings ctx q e db + length (claimable_cells settings ctx q e db))%nat.
Proof.
  apply (count_rows_split (fun _ c => is_eligible ctx q e c)
           (fun id _ => is_withheld (matching_pool_config settings ctx q) (world db) id)).
Qed.

Lemma protected_rows settings ctx q key e db :
  ready_ok db -> claim_checks settings q = Ok key ->
  match matching_pool_config settings ctx q with
  | Some config => count_cells (is_reserved_cell config ctx q e (world db)) db
  | None => 0%Z
  end = Z.of_nat (withheld_rows settings ctx q e db).
Proof.
  intros Hok Hq. unfold withheld_rows. destruct (matching_pool_config settings ctx q) as [config|] eqn:Em.
  - unfold count_cells. f_equal. apply (count_rows_ext (is_reserved_cell config ctx q e (world db))).
    intros k. split; intros (c & Hc & Hp); exists c; split; try done.
    + destruct (is_eligible ctx q e c) eqn:He; [|unfold is_reserved_cell in Hp; by rewrite He in Hp].
      by rewrite <-(protected_is_withheld _ _ _ _ _ _ _ _ _ Hok Em Hq Hc He).
    + apply andb_true_iff in Hp as [He Hw]. by rewrite (protected_is_withheld _ _ _ _ _ _ _ _ _ Hok Em Hq Hc He).
  - symmetry. unfold count_rows. induction (map_to_list (sterile_cells db)) as [|[k c] l IH]; simpl; [done|].
    unfold is_withheld. by rewrite andb_false_r.
Qed.

(** The diagnosis is exact: it never fails on its own counts, the claimable
    cells it reports are those a claim could take, and a claim is empty
    exactly when it reports none. *)
Theorem diagnosis_is_exact settings key ctx q e now db :
  pool_reachable settings db -> claim_checks settings q = Ok key ->
  exists d, diagnose_no_lease now settings ctx q e db = Ok d /\
    evi_claimable_cells (nl_claimability d) = Z.of_nat (length (claimable_cells settings ctx q e db)) /\
    (evi_claimable_cells (nl_claimability d) = 0%Z <-> select_cell settings ctx q e db = None) /\
    (select_cell settings ctx q e db = None ->
     (nl_reason d = SterileCellNoLeaseReasonV1.ReadyFloorProtected <->
      (0 < evi_protected_ready_cells (nl_claimability d))%Z)).
Proof.
  intros Hr Hq. pose proof (reachable_ready _ _ Hr) as Hok.
  unfold diagnose_no_lease, gather_evidence.
  rewrite (protected_rows settings ctx q key e db Hok Hq).
  rewrite (count_cells_rows (fun _ c => is_eligible ctx q e c)), (eligible_rows settings).
  match goal with |- context [(?a <? ?b)%Z] => destruct (Z.ltb_spec a b) end; [lia|].
  cbn [result_bind]. eexists. split; [reflexivity|]. cbn [nl_claimability evi_claimable_cells evi_protected_ready_cells nl_reason].
  rewrite select_cell_none. split_and!; [lia | |].
  - destruct (claimable_cells _ _ _ _ _); simpl; split; done || lia.
  - intros ->. simpl. rewrite Nat.add_0_r, Z.sub_diag. unfold no_lease_reason. simpl.
    rewrite andb_true_r. destruct (Z.ltb_spec 0 (Z.of_nat (withheld_rows settings ctx q e db))); [done|].
    repeat case_match; split; done || lia.
Qed.
End Theorems.
