(* ===== verification/Samples.v ===== *)
(** * A concrete control plane for worked examples

    Instances of the library parameters (identifiers print as decimal
    numbers, JSON prints structurally) and of [JobEffects] for a deployment
    whose jobs have no side effects beyond the scheduler's own tables, with
    a small run: one worker, one job, claimed and finished.  The theorems of
    the development are applied to these states. *)

From S2P Require Import Prelude CoreTypes Json Store Leases Workers Queue Protocol.
From S2P Require Import Refinement Scheduler LeaseProperties.
From stdpp Require Import pretty.

Definition decimal_digit (a : Ascii.ascii) : option N :=
  let n := Ascii.N_of_ascii a in if is_ascii_digit n then Some (n - 48)%N else None.

Fixpoint decimal_value (acc : N) (s : string) : option N :=
  match s with
  | EmptyString => Some acc
  | String a s' => d ← decimal_digit a; decimal_value (10 * acc + d)%N s'
  end.

#[export] Instance sample_uuid : UuidLib := {|
  uuid_parse_str s := if String.eqb s "" then None else decimal_value 0 s;
  uuid_to_string u := pretty u
|}.

Fixpoint print_json (v : Json) : string :=
  match v with
  | JNull => "null"
  | JBool b => if b then "true" else "false"
  | JNumber (PosInt n) => pretty (Z.to_N n)
  | JNumber (NegInt n) => "-" ++ pretty (Z.to_N (- n))
  | JNumber (Float n) => "f" ++ pretty (Z.to_N n)
  | JString s => "'" ++ s ++ "'"
  | JArray vs => "[" ++ fold_right (fun x acc => print_json x ++ "," ++ acc) "]" vs
  | JObject es =>
      "{" ++ fold_right (fun '(k, x) acc => k ++ ":" ++ print_json x ++ "," ++ acc) "}" es
  end%string.

Definition sample_result_value (res : WorkerJobResult) : option Json :=
  match res with
  | ResultRunPrompt output =>
      Some (JObject [("kind", JString "run_prompt"); ("output", JString output)])
  | ResultRunResidentProcess p g _ =>
      Some (JObject [("kind", JString "run_resident_process");
                     ("process_id", JString (uuid_to_string p));
                     ("generation", JNumber (PosInt g))])
  | _ => None
  end.

#[export] Instance sample_serde : SerdeLib := {|
  result_to_value := sample_result_value;
  json_to_vec v := Some (print_json v);
  sha256_hex s := s;
  provision_spec_from_value _ := None;
  provision_spec_to_value _ := JObject [];
  destination_from_value _ := None;
  destination_to_value _ := JNull
|}.

#[export] Instance no_effects : JobEffects unit := {|
  apply_claimed_job_on_connection _ _ := tx_ret tt;
  apply_completed_job_on_connection _ _ _ := tx_ret tt;
  apply_retryable_job_on_connection _ _ _ := tx_ret tt;
  apply_failed_job_on_connection _ _ _ := tx_ret tt;
  apply_cancelled_job_on_connection _ _ := tx_ret tt
|}.

#[export] Instance no_effects_laws : JobEffectsLaws unit.
Proof. split; intros; apply tx_rel_ret; apply _. Qed.

(** ** A run *)

Definition sample_runtime (now : Z) (base : N) : Runtime :=
  mkRuntime (seconds now) (fun n => base + N.of_nat n)%N.

Definition sample_registration : RegisterWorkerRequest :=
  mkRegisterWorkerRequest "w1" "kubernetes" [WorkerCapability.ProvisionSandbox;
    WorkerCapability.AgentPrompt] (Some 2%Z) ∅.

Definition empty_tables : Db unit := mkDb ∅ ∅ ∅ ∅ ∅ ∅ ∅ ∅ ∅ ∅ ∅ tt.

Definition sample_prompt : CreateJobRequest :=
  mkCreateJobRequest JobKind.RunPrompt
    (JObject [("sandboxId", JString "500"); ("promptEventId", JString "501")])
    WorkerCapability.AgentPrompt None (Some 2%Z).

(** Worker 10 is registered, prompt job 20 is created and read by a scan. *)
Definition s_empty : Sys (W := unit) := mkSys empty_tables [].
Definition s_registered : Sys :=
  with_tables (register_worker (sample_runtime 0 10) "t" sample_registration "hash"
                 (tables s_empty)).2 s_empty.
Definition s_queued : Sys :=
  with_tables (run_tx (insert_job_on_connection
                 (job_of_request (sample_runtime 1 20) "t" sample_prompt))
                 (tables s_registered)).2 s_registered.
Definition sample_job : Job := job_of_request (sample_runtime 1 20) "t" sample_prompt.
Definition s_scanned : Sys := mkSys (tables s_queued) [sample_job].
Definition sample_worker : Worker :=
  mkWorker 10%N "t" "w1" WorkerStatus.Registered "kubernetes"
    [WorkerCapability.ProvisionSandbox; WorkerCapability.AgentPrompt] 2%Z ∅ None 0%Z None.

(** The worker claims job 20 under lease 30 at second 2. *)
Definition s_leased : Sys :=
  with_tables (try_claim_job (sample_runtime 2 30) sample_worker sample_job None None
                 (tables s_scanned)).2 s_scanned.

(** The lease completes at second 3. *)
Definition s_completed : Sys :=
  with_tables (complete_lease_in_transaction (sample_runtime 3 40) 30%N (ResultRunPrompt "done")
                 (tables s_leased)).2 s_leased.

(** Or the worker drains at second 3, with a deadline of second 30. *)
Definition sample_drain : DrainWorkerRequest := mkDrainWorkerRequest 60%N (seconds 30).
Definition s_drained : Sys :=
  with_tables (drain_worker (sample_runtime 3 40) "t" 10%N (Some sample_drain)
                 (tables s_leased)).2 s_leased.

Definition any_worker (_ : Worker) : Prop := True.

Section Runs.
Context (adm : Worker -> Prop) (Hadm : adm sample_worker).

Lemma s_scanned_reachable : reachable adm s_scanned.
Proof.
  exists s_empty. split; [done|].
  eapply rtc_l; [apply (st_register adm s_empty (sample_runtime 0 10) "t" sample_registration "hash")|].
  eapply rtc_l; [apply (st_create adm s_registered (sample_runtime 1 20) "t" sample_prompt)|].
  eapply rtc_l; [|apply rtc_refl].
  eapply (st_scan adm s_queued 20%N
    (mkJobRow sample_job (mkJobReferences (Some 500%N) None None None None (Some 501%N)) None None));
    vm_compute; reflexivity.
Qed.

Lemma reachable_step s s' : reachable adm s -> sched_step adm s s' -> reachable adm s'.
Proof. intros (s0 & Hi & Hr) Hs. exists s0. split; [done|]. by eapply rtc_r. Qed.

Lemma s_leased_reachable : reachable adm s_leased.
Proof using Hadm.
  eapply reachable_step; [apply s_scanned_reachable|].
  eapply (st_claim adm s_scanned (sample_runtime 2 30) sample_worker sample_job sample_job);
    [left | done | done].
Qed.

Lemma s_completed_reachable : reachable adm s_completed.
Proof using Hadm. eapply reachable_step; [apply s_leased_reachable | apply st_complete]. Qed.

Lemma s_drained_reachable : reachable adm s_drained.
Proof using Hadm. eapply reachable_step; [apply s_leased_reachable | apply st_drain]. Qed.
End Runs.

(** The rows these states hold. *)
Definition sample_lease_row (status : LeaseStatus) (expires : Z) (completed : option Z)
    (fingerprint : option string) : LeaseRow :=
  mkLeaseRow 20%N 10%N status 1%Z (seconds 2) expires completed None fingerprint None None.

Example leased_row :
  job_leases (tables s_leased) !! 30%N =
  Some (sample_lease_row LeaseStatus.Active (seconds 62) None None).
Proof. vm_compute. reflexivity. Qed.

Example completed_row :
  job_leases (tables s_completed) !! 30%N =
  Some (sample_lease_row LeaseStatus.Completed (seconds 62) (Some (seconds 3))
          (Some "sha256:v1:{kind:'run_prompt',output:'done',}")).
Proof. vm_compute. reflexivity. Qed.

Example drained_row :
  job_leases (tables s_drained) !! 30%N =
  Some (sample_lease_row LeaseStatus.Active (seconds 30) None None).
Proof. vm_compute. reflexivity. Qed.

Definition sample_job_row (db : Db unit) : JobRow :=
  default (mkJobRow sample_job no_references None None) (jobs db !! 20%N).

Lemma job_row_leased : jobs (tables s_leased) !! 20%N = Some (sample_job_row (tables s_leased)).
Proof. vm_compute. reflexivity. Qed.

Lemma sample_active : active_lease (tables s_leased) 30%N
  (sample_lease_row LeaseStatus.Active (seconds 62) None None).
Proof. split; [apply leased_row | reflexivity]. Qed.

Lemma sample_inv s : reachable any_worker s -> protocol_inv (tables s).
Proof. intros Hr. apply (sched_reachable_inv any_worker), Hr. Qed.

(** ** The theorems at these states *)

Lemma leased_iff_one_active_lease_witness :
  job_status (row_job (sample_job_row (tables s_leased))) = JobStatus.Leased /\
  exists lid l, active_lease (tables s_leased) lid l /\ lr_job_id l = 20%N.
Proof.
  split; [vm_compute; reflexivity|].
  apply (leased_iff_one_active_lease any_worker s_leased 20%N _
           (s_leased_reachable any_worker I) job_row_leased).
  vm_compute. reflexivity.
Defined.

Lemma scheduler_refines_protocol_witness :
  rtc protocol_step (tables s_leased) (tables s_completed) /\
  lr_status <$> job_leases (tables s_leased) !! 30%N = Some LeaseStatus.Active /\
  lr_status <$> job_leases (tables s_completed) !! 30%N = Some LeaseStatus.Completed.
Proof.
  split; [|split; vm_compute; reflexivity].
  apply (scheduler_refines_protocol any_worker s_leased s_completed (s_leased_reachable any_worker I)).
  apply rtc_once, st_complete.
Defined.

Lemma attempts_never_exceed_maximum_witness :
  attempts (row_job (sample_job_row (tables s_leased))) = 1%Z /\
  (0 <= attempts (row_job (sample_job_row (tables s_leased)))
     <= max_attempts (row_job (sample_job_row (tables s_leased))))%Z.
Proof.
  split; [vm_compute; reflexivity|].
  apply (attempts_never_exceed_maximum any_worker s_leased 20%N _
           (s_leased_reachable any_worker I) job_row_leased).
Defined.

(** A late failure report leaves the completed row as it was. *)
Definition s_late_failure : Sys :=
  with_tables (fail_lease_in_transaction (sample_runtime 70 80) 30%N true "late"
                 (tables s_completed)).2 s_completed.

Lemma ended_lease_is_final_witness :
  job_leases (tables s_late_failure) !! 30%N =
  Some (sample_lease_row LeaseStatus.Completed (seconds 62) (Some (seconds 3))
          (Some "sha256:v1:{kind:'run_prompt',output:'done',}")).
Proof.
  apply (ended_lease_is_final any_worker s_completed s_late_failure 30%N).
  - apply s_completed_reachable. exact I.
  - apply rtc_once, st_fail.
  - apply completed_row.
  - discriminate.
Defined.

Lemma drain_closes_admission_witness :
  exists l, active_lease (tables s_drained) 30%N l /\
    captured (tables s_drained) 60%N 30%N l (seconds 30) /\ (lr_expires_at l <= seconds 30)%Z.
Proof.
  exists (sample_lease_row LeaseStatus.Active (seconds 30) None None).
  assert (Ha : active_lease (tables s_drained) 30%N
                 (sample_lease_row LeaseStatus.Active (seconds 30) None None))
    by (split; [apply drained_row | reflexivity]).
  split; [exact Ha|].
  refine (proj2 (drain_closes_admission any_worker s_drained
                   (with_tables (try_claim_job (sample_runtime 4 90) sample_worker sample_job None None
                                   (tables s_drained)).2 s_drained) 60%N 10%N (seconds 30)
                   (s_drained_reachable any_worker I) _ _) 30%N _ Ha _).
  - eexists. split; [vm_compute; reflexivity|]. vm_compute. auto.
  - eapply st_claim with (read := sample_job); [left | done | exact I].
  - reflexivity.
Defined.

Definition sample_lease : JobLease :=
  row_to_lease_with_job 30%N (sample_lease_row LeaseStatus.Active (seconds 62) None None)
    (row_job (sample_job_row (tables s_leased))).

Lemma lease_durations_are_clamped_witness :
  exists u db' l',
    renew_lease_tx (sample_runtime 5 90) (seconds 5) sample_lease (Some 18446744073709551615%Z)
      (tables s_leased) = Ok (u, db') /\
    job_leases db' !! 30%N = Some l' /\ (seconds 5 < lr_expires_at l' <= seconds 5 + seconds 3600)%Z.
Proof.
  destruct (renew_lease_tx (sample_runtime 5 90) (seconds 5) sample_lease
              (Some 18446744073709551615%Z) (tables s_leased)) as [[u db']|e] eqn:E;
    [|vm_compute in E; discriminate].
  destruct (proj2 (lease_durations_are_clamped (sample_runtime 5 90) sample_worker sample_job
              (seconds 5) sample_lease (Some 18446744073709551615%Z) (tables s_leased)) u db' E)
    as (l' & Hl & Hb).
  exists u, db', l'. split; [reflexivity|]. split; [exact Hl | exact Hb].
Defined.

Lemma ended_lease_ignores_late_outcomes_witness :
  (complete_lease_in_transaction (sample_runtime 9 90) 30%N (ResultRunPrompt "other")
     (tables s_completed)).2 = tables s_completed.
Proof.
  refine (proj1 (ended_lease_ignores_late_outcomes (sample_runtime 9 90) 30%N
    (ResultRunPrompt "other") true "late" (seconds 9) (seconds 9) sample_lease None
    (tables s_completed) _ completed_row _ _)).
  - discriminate.
  - reflexivity.
Defined.

Definition done_fingerprint : string := "sha256:v1:{kind:'run_prompt',output:'done',}".
Definition other_fingerprint : string := "sha256:v1:{kind:'run_prompt',output:'other',}".

Lemma completion_replay_is_idempotent_witness :
  complete_lease_in_transaction (sample_runtime 9 90) 30%N (ResultRunPrompt "other")
    (tables s_completed) =
  (Err (bad_request "lease is already completed with a different result"), tables s_completed).
Proof.
  destruct (complete_lease_in_transaction (sample_runtime 3 40) 30%N (ResultRunPrompt "done")
              (tables s_leased)) as [[lease|e] db1] eqn:E; [|vm_compute in E; discriminate].
  assert (Hs : s_completed = with_tables db1 s_leased) by (unfold s_completed; rewrite E; reflexivity).
  refine (proj2 (completion_replay_is_idempotent any_worker s_leased s_completed
    (sample_runtime 3 40) (sample_runtime 9 90) 30%N _ (ResultRunPrompt "done")
    (ResultRunPrompt "other") done_fingerprint other_fingerprint lease db1
    (s_leased_reachable any_worker I) sample_active _ _ E _) _).
  - vm_compute. reflexivity.
  - vm_compute. reflexivity.
  - rewrite Hs. apply rtc_refl.
  - vm_compute. discriminate.
Defined.

(** The lease of second 62 swept at second 62: its job is queued again. *)
Lemma expiry_acts_exactly_when_due_witness :
  exists l' db', job_leases db' !! 30%N = Some l' /\ lr_status l' = LeaseStatus.Expired /\
    job_status (row_job (sample_job_row db')) = JobStatus.Queued.
Proof.
  destruct (expire_lease_if_still_active (sample_runtime 62 90) 30%N (seconds 62) (tables s_leased))
    as [[[]|e] db'] eqn:E; [|vm_compute in E; discriminate].
  destruct (proj2 (expiry_acts_exactly_when_due (sample_runtime 62 90) 30%N (seconds 62)
     (tables s_leased) _ db' (sample_inv s_leased (s_leased_reachable any_worker I)) sample_active)
     ltac:(vm_compute; discriminate) E) as (l' & r & r' & Hl & Hst & _).
  exists l', db'. split; [exact Hl|]. split; [exact Hst|].
  vm_compute in E. injection E as <-. vm_compute. reflexivity.
Defined.

(** The drained worker's lease is capped at second 30 and swept there. *)
Lemma sweep_clears_due_and_drained_leases_witness :
  exists db', expire_due_leases (fun _ => sample_runtime 30 90) (seconds 30) (tables s_drained) = (Ok tt, db') /\
    forall lid l, active_lease db' lid l -> lr_worker_id l <> 10%N.
Proof.
  destruct (expire_due_leases (fun _ => sample_runtime 30 90) (seconds 30) (tables s_drained))
    as [[[]|e] db'] eqn:E; [|vm_compute in E; discriminate].
  exists db'. split; [reflexivity|].
  refine (proj2 (sweep_clears_due_and_drained_leases (fun _ => sample_runtime 30 90) (seconds 30)
    (tables s_drained) db' (sample_inv s_drained (s_drained_reachable any_worker I)) _ E)
    60%N 10%N (seconds 30) _ _).
  - vm_compute. repeat constructor.
  - eexists. split; [vm_compute; reflexivity|]. vm_compute. auto.
  - reflexivity.
Defined.

Lemma worker_slots_bounded_witness :
  slot_count (tables s_leased) 10%N = 1 /\ slot_count (tables s_leased) 10%N <= 2.
Proof.
  split; [vm_compute; reflexivity|].
  apply (worker_slots_bounded 10%N 2 s_leased), s_leased_reachable.
  intros _. vm_compute. discriminate.
Defined.
