(* ===== verification/ClaimSamples.v ===== *)
(** * Claims: worked examples

    A reader and writer of provision specs that satisfy [SerdeLaws], and a
    small deployment: worker 10 of tenant "t", a sandbox being provisioned and
    one that runs.  The theorems of [Scopes], [Placement] and [ClaimProofs] are
    applied to it; and a job with a malformed sterile activation is shown to
    stop every claim that meets it. *)

From S2P Require Import Prelude Authz CoreTypes Json Store Leases Workers Queue Protocol Refinement.
From S2P Require Import Scheduler SandboxLifecycle World CommandOutput Scopes Placement Claim ClaimProofs.
From S2P Require Import Effects EffectProofs Samples.

(** ** A codec for provision specs *)

Definition enum_value `{DbVariant A} (a : A) : Json := JString (as_db_str a).
Definition enum_of `{DbVariant A} (v : Json) : option A :=
  text ← as_str v; match parse_db_str text with Ok a => Some a | Err _ => None end.

Lemma enum_round_trip `{DbVariantLaws A} (a : A) : enum_of (enum_value a) = Some a.
Proof. unfold enum_of, enum_value. simpl. by rewrite parse_as_db_str. Qed.

Definition opt_value {A} (f : A -> Json) (o : option A) : Json :=
  match o with Some a => f a | None => JNull end.
Definition opt_of {A} (f : Json -> option A) (v : Json) : option (option A) :=
  match v with JNull => Some None | _ => Some <$> f v end.

Definition id_value (u : Uuid) : Json := JNumber (PosInt (Z.of_N u)).
Definition id_of (v : Json) : option Uuid := Z.to_N <$> as_u64 v.

Fixpoint all_of {A} (f : Json -> option A) (vs : list Json) : option (list A) :=
  match vs with
  | [] => Some []
  | v :: vs' => a ← f v; l ← all_of f vs'; Some (a :: l)
  end.

Definition list_value {A} (f : A -> Json) (l : list A) : Json := JArray (f <$> l).
Definition list_of {A} (f : Json -> option A) (v : Json) : option (list A) :=
  match v with JArray vs => all_of f vs | _ => None end.

Lemma list_round_trip {A} (f : A -> Json) (g : Json -> option A) l :
  (forall a, g (f a) = Some a) -> list_of g (list_value f l) = Some l.
Proof.
  intros Hg. unfold list_of, list_value. induction l as [|a l IH]; [done|].
  rewrite fmap_cons. cbn [all_of]. rewrite Hg. cbn [mbind option_bind]. by rewrite IH.
Qed.

Definition rule_value_of (r : NetworkAllowRule) : Json :=
  JArray [enum_value (rule_kind r); JString (rule_value r)].
Definition rule_of (v : Json) : option NetworkAllowRule :=
  match v with
  | JArray [k; JString value] => kind ← enum_of k; Some (mkNetworkAllowRule kind value)
  | _ => None
  end.

Definition egress_value (e : NetworkEgress) : Json :=
  match e with
  | DenyAll => JString "deny_all"
  | AllowAll => JString "allow_all"
  | Allowlist rules => list_value rule_value_of rules
  end.
Definition egress_of (v : Json) : option NetworkEgress :=
  match v with
  | JString s => if String.eqb s "deny_all" then Some DenyAll
                 else if String.eqb s "allow_all" then Some AllowAll else None
  | _ => Allowlist <$> list_of rule_of v
  end.

Definition mount_value (m : SandboxSecretMount) : Json :=
  JArray [id_value (mount_secret_ref_id m); JString (mount_name m);
          enum_value (secret_backend (mount_source m)); JString (object_name (mount_source m));
          JString (object_key (mount_source m)); enum_value (mount_delivery m);
          JString (mount_mount_dir m); JString (mount_file_path m);
          JString (mount_env_file_variable m)].
Definition mount_of (v : Json) : option SandboxSecretMount :=
  match v with
  | JArray [i; JString name; b; JString object; JString key; d; JString dir; JString path; JString var] =>
      id ← id_of i; backend ← enum_of b; delivery ← enum_of d;
      Some (mkSandboxSecretMount id name (mkSecretSource backend object key) delivery dir path var)
  | _ => None
  end.

Definition candidate_value (c : SterilePoolCandidateV1) : Json :=
  let r := candidate_release c in
  JArray [id_value (candidate_cell_id c); JString (release_set_id r); enum_value (release_runtime_class r);
          JString (release_policy_digest r); JString (release_signature r);
          JString (candidate_agent_image c); JString (candidate_maestro_image c);
          JString (candidate_service_name c); opt_value JString (candidate_pod_name c);
          opt_value JString (candidate_pod_uid c)].
Definition candidate_of (v : Json) : option SterilePoolCandidateV1 :=
  match v with
  | JArray [i; JString set; c; JString digest; JString signature; JString agent; JString maestro;
            JString service; n; u] =>
      id ← id_of i; class ← enum_of c; name ← opt_of as_str n; uid ← opt_of as_str u;
      Some (mkSterilePoolCandidate id (mkReleaseTrustClass set class digest signature) agent maestro
              service name uid)
  | _ => None
  end.

Definition spec_value (s : SandboxProvisionSpec) : Json :=
  JObject [("memory_limit", enum_value (memory_limit s));
           ("network_egress", egress_value (network_egress s));
           ("workspace_mode", enum_value (workspace_mode s));
           ("runtime_profile", enum_value (runtime_profile s));
           ("execution_class", enum_value (execution_class s));
           ("provider_preference", enum_value (provider_preference s));
           ("tenant_id", opt_value JString (spec_tenant_id s));
           ("provider_external_id", opt_value JString (provider_external_id s));
           ("provider_routing_scope", opt_value JString (provider_routing_scope s));
           ("secret_mounts", list_value mount_value (secret_mounts s));
           ("sterile_pool_candidate", opt_value candidate_value (sterile_pool_candidate s))].

Definition spec_of (v : Json) : option SandboxProvisionSpec :=
  memory ← get v "memory_limit" ≫= enum_of;
  egress ← get v "network_egress" ≫= egress_of;
  mode ← get v "workspace_mode" ≫= enum_of;
  profile ← get v "runtime_profile" ≫= enum_of;
  class ← get v "execution_class" ≫= enum_of;
  preference ← get v "provider_preference" ≫= enum_of;
  tenant ← get v "tenant_id" ≫= opt_of as_str;
  external ← get v "provider_external_id" ≫= opt_of as_str;
  scope ← get v "provider_routing_scope" ≫= opt_of as_str;
  mounts ← get v "secret_mounts" ≫= list_of mount_of;
  candidate ← get v "sterile_pool_candidate" ≫= opt_of candidate_of;
  Some (mkSandboxProvisionSpec memory egress mode profile class preference tenant external scope
          mounts candidate).

Lemma id_round_trip u : id_of (id_value u) = Some u.
Proof. unfold id_of, id_value. simpl. by rewrite N2Z.id. Qed.

Lemma opt_string_round_trip o : opt_of as_str (opt_value JString o) = Some o.
Proof. by destruct o. Qed.

Lemma egress_round_trip e : egress_of (egress_value e) = Some e.
Proof.
  destruct e as [|rules|]; [done| |done]. unfold egress_value, egress_of, list_value.
  change (JArray (rule_value_of <$> rules)) with (list_value rule_value_of rules).
  rewrite list_round_trip; [done|]. intros [k v]. unfold rule_of, rule_value_of. simpl rule_kind.
  by rewrite enum_round_trip.
Qed.

Lemma mount_round_trip m : mount_of (mount_value m) = Some m.
Proof.
  destruct m as [id name [b o k] d dir path var]. unfold mount_of, mount_value.
  cbn [mount_secret_ref_id mount_source secret_backend mount_delivery].
  by rewrite id_round_trip, !enum_round_trip.
Qed.

Lemma candidate_round_trip c : opt_of candidate_of (opt_value candidate_value c) = Some c.
Proof.
  destruct c as [[id [set class digest signature] agent maestro service name uid]|]; [|done].
  unfold opt_value, opt_of, candidate_value, candidate_of.
  cbn [candidate_cell_id candidate_release release_runtime_class candidate_pod_name candidate_pod_uid].
  by rewrite id_round_trip, enum_round_trip, !opt_string_round_trip.
Qed.

Lemma spec_round_trip s : spec_of (spec_value s) = Some s.
Proof.
  destruct s as [m e w p c pr t x sc mo ca]. unfold spec_of, spec_value, get.
  cbn [entry_lookup String.eqb Ascii.eqb Bool.eqb memory_limit network_egress workspace_mode
       runtime_profile execution_class provider_preference spec_tenant_id provider_external_id
       provider_routing_scope secret_mounts sterile_pool_candidate mbind option_bind].
  rewrite !enum_round_trip, egress_round_trip, !opt_string_round_trip, candidate_round_trip.
  cbn [mbind option_bind]. rewrite list_round_trip by apply mount_round_trip. done.
Qed.

#[export] Instance spec_serde : SerdeLib := {|
  result_to_value := sample_result_value;
  json_to_vec v := Some (print_json v);
  sha256_hex s := s;
  provision_spec_from_value := spec_of;
  provision_spec_to_value := spec_value;
  destination_from_value _ := None;
  destination_to_value _ := JNull
|}.

#[export] Instance spec_serde_laws : SerdeLaws.
Proof. split. exact spec_round_trip. Qed.

(** Reports and fences as the objects [serde] derives; identifiers are the
    texts of [Samples]. *)
#[export] Instance claim_serde : ClaimSerdeLib := {|
  capability_report_from_value v :=
    protocol ← get_u64 v "protocolVersion";
    Some (mkGuestAgentCapabilityReport protocol
      (c ← get v "capabilities" ≫= (fun c => get c "uidIsolatedResidentProcess");
       version ← get_u64 c "version";
       status ← get_str c "status";
       Some (mkGuestAgentCapability
               (if String.eqb status "ok" then CapabilityOk else CapabilityUnavailable) version)));
  activation_fence_from_value v :=
    cell ← get_str v "cellId" ≫= uuid_parse_str;
    lease ← get_str v "leaseId" ≫= uuid_parse_str;
    generation ← get_u64 v "generation";
    Some (mkActivationFence cell lease generation);
  sandbox_id_from_value v := as_str v ≫= uuid_parse_str
|}.

(** ** A deployment *)

Definition claim_worker : Worker :=
  mkWorker 10%N "t" "w1" WorkerStatus.Registered "kubernetes"
    [WorkerCapability.ProvisionSandbox; WorkerCapability.RunCommand;
     WorkerCapability.UidIsolatedResidentProcess] 2%Z ∅ None 0%Z None.

Definition claim_sandbox (id : Uuid) (state : SandboxState) : Sandbox :=
  mkSandbox id "t" "box" state "image" MemoryLimit.OneG DenyAll WorkspaceMode.Ephemeral
    SandboxRuntimeProfile.Unprivileged ExecutionClass.DevelopmentContainer 0 0 None None None None None.

Definition queued_job (id : Uuid) (kind : JobKind) (capability : WorkerCapability) (priority : Z)
    (payload : list (string * Json)) : Job :=
  mkJob id "t" kind JobStatus.Queued (JObject payload) capability ExecutionClass.DevelopmentContainer
    priority 0 3 0 0 0 None.

(** Job 20 provisions sandbox 500; its payload claims a spec of its own. *)
Definition forged_job : Job :=
  queued_job 20%N JobKind.ProvisionSandbox WorkerCapability.ProvisionSandbox 0
    [("sandboxId", JString "500"); ("provisionSpec", JObject [("memory_limit", JString "64g")])].

(** Job 21 names a sterile activation, but no process. *)
Definition malformed_job : Job :=
  queued_job 21%N JobKind.RunResidentProcess WorkerCapability.UidIsolatedResidentProcess 5
    [("sandboxId", JString "501"); ("sterileActivation", JObject [])].

(** Lease 31 of worker 10 runs a command in sandbox 501. *)
Definition command_job : Job :=
  mkJob 22%N "t" JobKind.RunCommand JobStatus.Leased
    (JObject [("sandboxId", JString "501"); ("commandId", JString "600")])
    WorkerCapability.RunCommand ExecutionClass.DevelopmentContainer 0 1 3 0 0 0 None.

Definition claim_world : World :=
  set_sandboxes {[ 500%N := claim_sandbox 500%N SandboxState.Planning;
                   501%N := claim_sandbox 501%N SandboxState.Running ]} empty_world.

Definition job_row_for (sandbox_id : Uuid) (job : Job) : JobRow :=
  mkJobRow job (mkJobReferences (Some sandbox_id) None None None None None) None None.

Definition claim_db (rows : gmap Uuid JobRow) : Db World :=
  mkDb rows
    {[ 31%N := mkLeaseRow 22%N 10%N LeaseStatus.Active 1 0 (seconds 100) None None None None None ]}
    {[ 10%N := mkWorkerRow claim_worker "hash" 0%Z 0%Z ]} ∅ ∅
    {[ 501%N := mkPlacementRow 10%N "kubernetes" None 1 0 0 ]} ∅ ∅ ∅ ∅ ∅ claim_world.

Definition healthy_db : Db World :=
  claim_db {[ 20%N := job_row_for 500%N forged_job; 22%N := job_row_for 501%N command_job ]}.

Definition blocked_db : Db World :=
  claim_db {[ 20%N := job_row_for 500%N forged_job; 21%N := job_row_for 501%N malformed_job;
              22%N := job_row_for 501%N command_job ]}.

Definition worker_ctx : TenantContext := mkTenantContext "t" (PrincipalWorker 10%N).

Definition plain_call (wait : option Z) : ClaimCall :=
  mkClaimCall 10%N None None (mkClaimLeaseRequest None None None wait).

(** ** The theorems at these states *)

(** The guest of sandbox 501 may act on lease 31, and its job is the guest's. *)
Lemma scopes_confine_credentials_witness :
  exists lease, ensure_lease_worker_scope healthy_db 31%N
      (mkTenantContext "t" (PrincipalGuest 10%N 501%N)) = Ok lease /\
    job_matches_sandbox (lease_job lease) 501%N = true.
Proof.
  eexists. split; [vm_compute; reflexivity|].
  by destruct (proj1 (scopes_confine_credentials healthy_db "t" 10%N 501%N) 31%N
    (row_to_lease_with_job 31%N (mkLeaseRow 22%N 10%N LeaseStatus.Active 1 0 (seconds 100) None None None
       None None) command_job)) as (_ & _ & _ & Hm & _); [vm_compute; reflexivity|].
Defined.

(** The forged 64 GiB become the sandbox's limit. *)
Lemma placement_is_authoritative_witness :
  exists changed payload class cache',
    enrich_job_payload_with_provision_spec_cached healthy_db forged_job ∅ =
      (Ok (changed, payload, class), cache') /\
    (memory_limit <$> job_spec (placed_job forged_job payload class)) = Some MemoryLimit.OneG.
Proof.
  destruct (enrich_job_payload_with_provision_spec_cached healthy_db forged_job ∅)
    as [[[[changed payload] class]|e] cache'] eqn:E; [|vm_compute in E; discriminate].
  exists changed, payload, class, cache'. split; [reflexivity|].
  destruct (placement_is_authoritative healthy_db forged_job ∅ changed payload class cache')
    as (id & e & Hid & Hin & _ & _ & Hs & _); [by intros ? ? ? | done | exact E |].
  rewrite Hs. vm_compute in Hid. injection Hid as <-. vm_compute in Hin. by injection Hin as <-.
Defined.

Lemma healthy_keyed : workers_keyed healthy_db.
Proof.
  intros id row. cbn [healthy_db claim_db workers]. rewrite lookup_singleton_Some. by intros [<- <-].
Qed.

(** Worker 10 claims job 20. *)
Lemma claims_are_eligible_witness :
  exists lease db', claim_once (seconds 5) (fun _ => sample_runtime 5 40) worker_ctx (plain_call None)
      healthy_db = (Ok (Answered (Some lease)), db') /\
    lease_worker_id lease = 10%N /\ job_id (lease_job lease) = 20%N.
Proof.
  destruct (claim_once (seconds 5) (fun _ => sample_runtime 5 40) worker_ctx (plain_call None) healthy_db)
    as [[[[lease|]|]|e] db'] eqn:E; try (vm_compute in E; discriminate).
  exists lease, db'. split; [reflexivity|]. split.
  - exact (proj1 (claims_are_eligible _ _ _ _ _ _ _ healthy_keyed E)).
  - vm_compute in E. by injection E as <- _.
Defined.

(** A job created and then claimed: the scheduler scans it and grants it. *)
Definition provision_request : CreateJobRequest :=
  mkCreateJobRequest JobKind.ProvisionSandbox (job_payload forged_job)
    WorkerCapability.ProvisionSandbox None None.

Definition idle_db : Db World :=
  mkDb ∅ ∅ {[ 10%N := mkWorkerRow claim_worker "hash" 0%Z 0%Z ]} ∅ ∅ ∅ ∅ ∅ ∅ ∅ ∅ claim_world.

Definition queued_db : Db World :=
  (run_tx (insert_job_on_connection (job_of_request (sample_runtime 1 20) "t" provision_request))
     idle_db).2.

Lemma claim_is_scheduled_witness :
  exists sn', reachable every_worker
    (mkSys (claim_once (seconds 5) (fun _ => sample_runtime 5 40) worker_ctx (plain_call None)
              queued_db).2 sn') /\
  is_some (job_leases (claim_once (seconds 5) (fun _ => sample_runtime 5 40) worker_ctx
             (plain_call None) queued_db).2 !! 40%N) = true.
Proof.
  destruct (claim_is_scheduled (seconds 5) (fun _ => sample_runtime 5 40) worker_ctx (plain_call None)
    queued_db []) as (sn' & _ & Hr).
  - exists (mkSys idle_db []). split; [done|]. apply rtc_once.
    exact (st_create every_worker (mkSys idle_db []) (sample_runtime 1 20) "t" provision_request).
  - exists sn'. split; [exact Hr | vm_compute; reflexivity].
Defined.

(** A poll of a tenth of a second on an idle queue, with a clock that advances
    by fifty milliseconds a turn. *)
Definition idle_env : PollEnv :=
  mkPollEnv 0 (fun turn => 50 * Z.of_nat turn)%Z (fun _ db => db) (fun _ => seconds 6)
    (fun _ _ => sample_runtime 6 50).

Lemma claim_terminates_witness :
  exists db', claim_lease MAX_POLL_TURNS (seconds 5) (fun _ => sample_runtime 5 40) idle_env worker_ctx
    (plain_call (Some 100%Z)) (claim_db {[ 22%N := job_row_for 501%N command_job ]}) =
    Some (Ok None, db').
Proof.
  destruct (claim_terminates (seconds 5) (fun _ => sample_runtime 5 40) idle_env worker_ctx
    (plain_call (Some 100%Z)) (claim_db {[ 22%N := job_row_for 501%N command_job ]})) as [[r db'] E].
  - split; [done|]. intros turn _. cbn [poll_clock idle_env]. unfold CLAIM_WAIT_SLICE_MS. lia.
  - exists db'. rewrite E. vm_compute in E. by injection E as <- _.
Defined.

(** ** A malformed activation *)

(** Job 20 could be claimed, but job 21 has the higher priority. *)
Lemma malformed_activation_stops_claims_witness :
  claim_once (seconds 5) (fun _ => sample_runtime 5 40) worker_ctx (plain_call None) blocked_db =
    (Err (bad_request "residentProcessId is required"), blocked_db) /\
  job_leases (claim_once (seconds 5) (fun _ => sample_runtime 5 40) worker_ctx (plain_call None)
    healthy_db).2 !! 40%N <> None.
Proof.
  split; [|by vm_compute].
  eapply (malformed_activation_stops_claims (seconds 5) (fun _ => sample_runtime 5 40) worker_ctx
    (plain_call None) blocked_db claim_worker None None malformed_job [forged_job]);
    [vm_compute; reflexivity | vm_compute; reflexivity | reflexivity | reflexivity | reflexivity].
Defined.
