(* ===== verification/ProvisioningSamples.v ===== *)
(** * Provisioning progress: worked examples

    Sandbox 503 is being provisioned by its second attempt (lease 31); the
    first attempt (lease 30) had recorded [service_ready] before it expired.
    The theorems of [Provisioning] are applied to reports of the second
    attempt: one that reaches the recorded stage, and two that are still
    behind it. *)

From S2P Require Import Prelude CoreTypes Json Store Leases SandboxLifecycle World Provisioning Samples.

Definition provision_job : Job :=
  mkJob 21%N "t" JobKind.ProvisionSandbox JobStatus.Leased (JObject [("sandboxId", JString "503")])
    WorkerCapability.ProvisionSandbox ExecutionClass.SandboxedContainer 0 2 3 0 0 0 None.

Definition attempt_lease (status : LeaseStatus) (attempt from until : Z) : LeaseRow :=
  mkLeaseRow 21%N 10%N status attempt (seconds from) (seconds until) None None None None None.

Definition recorded_operation : ProvisioningOperationRow :=
  mkProvisioningOperationRow 30%N 1 "service_ready" 5 None None None None None 1 None None None
    (seconds 20).

Definition provisioning_sandbox : Sandbox :=
  mkSandbox 503%N "t" "box" SandboxState.Provisioning "image" MemoryLimit.OneG DenyAll
    WorkspaceMode.Ephemeral SandboxRuntimeProfile.Unprivileged ExecutionClass.SandboxedContainer
    0 0 None None None None None.

Definition staged_db : Db World :=
  mkDb {[ 21%N := mkJobRow provision_job no_references None None ]}
    {[ 30%N := attempt_lease LeaseStatus.Expired 1 0 40; 31%N := attempt_lease LeaseStatus.Active 2 50 100 ]}
    ∅ ∅ ∅ ∅ ∅ ∅ ∅ ∅ ∅
    (mkWorld {[ 503%N := provisioning_sandbox ]} [] [] [] ∅ [] ∅ ∅ ∅ ∅ ∅ ∅ ∅ ∅
       [mkStageResourceRow 503%N "pod_ready" RuntimeResourceKind.Pod "ns" "pod" "uid-1" None (seconds 10)]
       ∅ ∅ {[ 503%N := recorded_operation ]} ∅ ∅ ∅ ∅ ∅ ∅ ∅ ∅ ∅).

(** A report of the second attempt, with a pod or without. *)
Definition report (stage : ProvisioningStage) (uid : option string) (error : option string) :
    ProvisioningStageUpdateRequest :=
  mkStageUpdateRequest stage ((fun _ => RuntimeResourceKind.Pod) <$> uid) ((fun _ => "ns") <$> uid)
    ((fun _ => "pod") <$> uid) uid None 2
    None None error.

Lemma staged_ok : progress_ok staged_db.
Proof.
  intros sb row. cbn [staged_db world provisioning_operations]. rewrite lookup_singleton_Some.
  intros [<- <-]. split; [by exists ProvisioningStage.ServiceReady|].
  exists (attempt_lease LeaseStatus.Expired 1 0 40). by split.
Qed.

Definition reporting_lease : JobLease :=
  row_to_lease_with_job 31%N (attempt_lease LeaseStatus.Active 2 50 100) provision_job.

Lemma staged_reports now request :
  (now < seconds 100)%Z -> up_attempt_count request = 2%Z ->
  reports_for now staged_db 31%N request 503%N reporting_lease.
Proof.
  intros Hnow Ha. exists (attempt_lease LeaseStatus.Active 2 50 100),
    (mkJobRow provision_job no_references None None), provisioning_sandbox.
  split_and!; [reflexivity | reflexivity | reflexivity | | reflexivity | exact (eq_sym Ha)
    | vm_compute; reflexivity | reflexivity | reflexivity].
  unfold lease_is_live. simpl. by apply Z.ltb_lt.
Qed.

(** The second attempt reaches [sandbox_ready] and takes the row over. *)
Lemma stage_reports_are_fenced_witness :
  exists op db', update_provisioning_stage_in_transaction (sample_runtime 60 0) 31%N
      (report ProvisioningStage.SandboxReady None None) staged_db = (Ok op, db') /\
    op_lease_id op = 31%N /\ progress_ok db'.
Proof.
  destruct (update_provisioning_stage_in_transaction (sample_runtime 60 0) 31%N
    (report ProvisioningStage.SandboxReady None None) staged_db) as [[op|e] db'] eqn:E;
    [|vm_compute in E; discriminate].
  exists op, db'. split; [reflexivity|]. split.
  - vm_compute in E. by injection E as <- _.
  - by destruct (stage_reports_are_fenced _ _ _ _ _ _ staged_ok E) as (? & ? & ? & ? & ? & _ & _ & _ & Hok & _).
Defined.

(** A new attempt observes the pod under a new identity. *)
Lemma observed_identity_is_fenced_witness :
  exists op db', update_provisioning_stage_in_transaction (sample_runtime 60 0) 31%N
      (report ProvisioningStage.PodReady (Some "uid-2") None) staged_db = (Ok op, db') /\
    (str_resource_uid <$> find_resource (provisioning_operation_resources (world db')) 503%N
       ProvisioningStage.PodReady (mkResourceIdentity RuntimeResourceKind.Pod "ns" "pod" "uid-2")) =
    Some "uid-2".
Proof.
  destruct (update_provisioning_stage_in_transaction (sample_runtime 60 0) 31%N
    (report ProvisioningStage.PodReady (Some "uid-2") None) staged_db) as [[op|e] db'] eqn:E;
    [|vm_compute in E; discriminate].
  exists op, db'. split; [reflexivity|].
  destruct (observed_identity_is_fenced _ _ _ _ _ _ E)
    as (sb & lease & (l & r & s & -> & Hl & Hr & _ & _ & _ & Hsb & _) & Hnew & _).
  destruct (Hnew _ eq_refl) as (r' & Hf & Hu & _).
  vm_compute in Hl. injection Hl as <-. vm_compute in Hr. injection Hr as <-.
  vm_compute in Hsb. injection Hsb as <-. cbn [up_stage report] in Hf. rewrite Hf. simpl. by rewrite Hu.
Defined.

(** The same report again, ten seconds later. *)
Lemma stage_report_can_be_repeated_witness :
  exists op db', update_provisioning_stage_in_transaction (sample_runtime 60 0) 31%N
      (report ProvisioningStage.PodReady (Some "uid-2") None) staged_db = (Ok op, db') /\
    update_provisioning_stage_in_transaction (sample_runtime 70 0) 31%N
      (report ProvisioningStage.PodReady (Some "uid-2") None) db' = (Ok op, db').
Proof.
  destruct (update_provisioning_stage_in_transaction (sample_runtime 60 0) 31%N
    (report ProvisioningStage.PodReady (Some "uid-2") None) staged_db) as [[op|e] db'] eqn:E;
    [|vm_compute in E; discriminate].
  exists op, db'. split; [reflexivity|].
  apply (stage_report_can_be_repeated (sample_runtime 60 0) (sample_runtime 70 0) 31%N
    (report ProvisioningStage.PodReady (Some "uid-2") None) staged_db op db' staged_ok E).
  - by vm_compute.
  - intros l Hl. vm_compute in Hl. injection Hl as <-. by vm_compute.
Defined.

(** The second attempt, still behind, reports the pod as [uid-2], then as
    [uid-3], then an error: all are accepted, and the operation that is answered
    is the first attempt's, without an error. *)
Lemma reports_behind_are_accepted_witness :
  exists op db1 db2 db3,
    update_provisioning_stage_in_transaction (sample_runtime 60 0) 31%N
      (report ProvisioningStage.PodReady (Some "uid-2") None) staged_db = (Ok op, db1) /\
    update_provisioning_stage_in_transaction (sample_runtime 61 0) 31%N
      (report ProvisioningStage.PodReady (Some "uid-3") None) db1 = (Ok op, db2) /\
    update_provisioning_stage_in_transaction (sample_runtime 62 0) 31%N
      (report ProvisioningStage.PodReady None (Some "boom")) db2 = (Ok op, db3) /\
    op_lease_id op = 30%N /\ op_last_error op = None.
Proof.
  destruct (reports_behind_are_accepted (sample_runtime 60 0) 31%N
    (report ProvisioningStage.PodReady (Some "uid-2") None) 503%N reporting_lease staged_db
    recorded_operation (attempt_lease LeaseStatus.Expired 1 0 40)) as (op & db1 & E1 & Hop & _);
    [by apply staged_reports | done | exact staged_ok | done | done | done | done | done | done | done |].
  exists op, db1. vm_compute in E1. injection E1 as <- <-.
  eexists _, _. split; [reflexivity|]. split; [vm_compute; reflexivity|].
  split; [vm_compute; reflexivity|]. done.
Defined.
