(* ===== verification/WorldSamples.v ===== *)
(** * Worked examples over the whole database

    A small world for the job effects: a running sandbox with a command, a
    fork waiting on a snapshot, an archived sandbox whose provision comes
    back late, and a pool member being admitted; and a fleet of two
    sandboxes with lifetimes.  The theorems about effects, stopping and
    reaping are applied to them. *)

From S2P Require Import Prelude CoreTypes BootstrapStore Json Store Leases Protocol SandboxLifecycle.
From S2P Require Import LifecycleContract World CommandOutput RuntimeResources Snapshots SterilePool.
From S2P Require Import Effects EffectProofs SandboxStop Samples.

Definition sample_sandbox (id : Uuid) (state : SandboxState) (parent : option Uuid) : Sandbox :=
  mkSandbox id "t" "box" state "image" MemoryLimit.OneG DenyAll WorkspaceMode.Ephemeral
    SandboxRuntimeProfile.Unprivileged ExecutionClass.SandboxedContainer 0 0 None None None None
    parent.

Definition sample_command : CommandRow :=
  mkCommandRow 500%N CommandStatus.Running ["true"] None None "" "" 0 None 0 0 0 0.

Definition sample_release : SterileCellReleaseTrustClassV1 :=
  mkReleaseTrustClass "release" SterileCellRuntimeClass.KataMicrovm "digest" "signature".

Definition sample_member (state : MembershipState) (worker : option Uuid) (generation : option Z)
    (pod : option string) (expires : option Z) : MembershipRow :=
  mkMembershipRow "t" state worker 21%N None sample_release "agent" "maestro" "service" pod pod 100 10
    expires None generation None None false 0 0.

(** Member 503 is provisioning; its peer 504 is ready until second 205. *)
Definition sample_members : gmap Uuid MembershipRow :=
  {[ 503%N := sample_member MemberProvisioning None None None None;
     504%N := sample_member MemberReady (Some 10%N) (Some 1%Z) (Some "pod") (Some (seconds 205)) ]}.

Definition sample_world : World :=
  mkWorld
    {[ 500%N := sample_sandbox 500%N SandboxState.Running None;
       501%N := sample_sandbox 501%N SandboxState.Planning (Some 700%N);
       502%N := sample_sandbox 502%N SandboxState.Archived None;
       503%N := sample_sandbox 503%N SandboxState.Provisioning None ]}
    [] [] [] {[ 600%N := sample_command ]} [] ∅ ∅ ∅ ∅ ∅ ∅ ∅ sample_members
    [mkStageResourceRow 503%N "pod_ready" RuntimeResourceKind.Pod "ns" "sandboxwich-503" "uid" None 0]
    ∅ ∅ ∅ ∅ ∅ ∅ ∅ ∅ ∅ ∅ ∅ ∅.

Definition sample_db : Db World :=
  mkDb ∅ ∅ {[ 10%N := mkWorkerRow sample_worker "hash" 0%Z 0%Z ]} ∅ ∅
    {[ 503%N := mkPlacementRow 10%N "kubernetes" None 1 0 0 ]} ∅ ∅ ∅ ∅ ∅ sample_world.

Definition effect_job (kind : JobKind) (payload : list (string * Json)) : Job :=
  mkJob 21%N "t" kind JobStatus.Leased (JObject payload) WorkerCapability.ProvisionSandbox
    ExecutionClass.SandboxedContainer 0 1 3 0 0 0 None.

Definition sample_command_job : Job :=
  effect_job JobKind.RunCommand [("sandboxId", JString "500"); ("commandId", JString "600")].

Lemma sample_output_ok : output_ok sample_world.
Proof.
  split; [|by intros k ?%not_elem_of_nil]. intros id c. simpl.
  rewrite lookup_singleton_Some. intros [<- <-]. split; [|by vm_compute]. by intros [].
Qed.

(** ** The theorems at these states *)

(** Reporting "hello" for stdout of command 600. *)
Lemma completion_output_is_exact_witness :
  exists db', append_completion_output_on_connection (sample_runtime 5 40) 0 600%N 500%N
      CommandOutputStream.Stdout "hello" sample_db = Ok (tt, db') /\
    command_output_for_stream (world db') 600%N CommandOutputStream.Stdout = "hello".
Proof.
  pose proof (completion_output_is_exact (sample_runtime 5 40) 0 600%N 500%N
    CommandOutputStream.Stdout "hello" sample_db sample_command sample_output_ok eq_refl) as [Hout Hgo].
  destruct Hgo as [db' E]; [by eexists | by vm_compute | by vm_compute | by vm_compute |].
  exists db'. split; [exact E|]. by apply (Hout tt db' E).
Defined.

Definition sample_resource (sandbox_id : Uuid) : ProviderRuntimeResource :=
  mkProviderRuntimeResource sandbox_id None "kubernetes" RuntimeResourceKind.Pod
    RuntimeResourcePurpose.Runtime "pod" "ns" RuntimeResourceStatus.Ready None None None None None
    None None None None None.

(** Sandbox 500 reports its pod; a report of the same pod for sandbox 502 is
    then refused. *)
Lemma resource_ownership_is_stable_witness :
  exists db',
    upsert_provider_runtime_resource_on_connection (sample_runtime 5 40) 0 (sample_resource 500%N)
      None None None sample_db = Ok (tt, db') /\
    resources_evolve keeps_lineage (world sample_db) (world db') /\
    upsert_provider_runtime_resource_on_connection (sample_runtime 6 41) 0 (sample_resource 502%N)
      None None None db' =
      Err (bad_request "runtime resource provider identity belongs to a different association").
Proof.
  destruct (upsert_provider_runtime_resource_on_connection (sample_runtime 5 40) 0
    (sample_resource 500%N) None None None sample_db) as [[[] db']|e] eqn:E;
    [|vm_compute in E; discriminate].
  exists db'. split; [reflexivity|]. split.
  - exact (proj1 (resource_ownership_is_stable (sample_runtime 5 40) 0 (sample_resource 500%N) []
      "t" None None None sample_db tt db') E).
  - vm_compute in E. injection E as <-. vm_compute. reflexivity.
Defined.

(** Snapshot 700 fails: fork 501 fails with it, sandbox 500 does not. *)
Lemma failed_snapshot_fails_waiting_forks_witness :
  exists db',
    fail_sandboxes_waiting_on_snapshot_on_connection (sample_runtime 5 40) 0 700%N "snapshot_failed"
      "disk" sample_db = Ok (tt, db') /\
    (sb_state <$> sandboxes (world db') !! 501%N) = Some SandboxState.Error /\
    (sb_state <$> sandboxes (world db') !! 500%N) = Some SandboxState.Running.
Proof.
  destruct (failed_snapshot_fails_waiting_forks (sample_runtime 5 40) 0 700%N "snapshot_failed" "disk"
    sample_db) as (db' & E & Hall).
  exists db'. split; [exact E|].
  pose proof (Hall 501%N (sample_sandbox 501%N SandboxState.Planning (Some 700%N)) eq_refl) as H1.
  pose proof (Hall 500%N (sample_sandbox 500%N SandboxState.Running None) eq_refl) as H2.
  split; [apply (f_equal (fmap sb_state)) in H1; exact H1 | apply (f_equal (fmap sb_state)) in H2; exact H2].
Defined.

Definition sample_finish : WorkerJobResult :=
  ResultRunCommand (mkAgentCommandResult (Some 0%Z) "hello" "" 0 1).

Lemma effects_keep_output_accounting_witness :
  exists db', apply_completed (sample_runtime 5 40) sample_command_job sample_finish sample_db =
      Ok (tt, db') /\ output_ok (world db') /\ length (command_output_chunks (world db')) = 1.
Proof.
  destruct (apply_completed (sample_runtime 5 40) sample_command_job sample_finish sample_db)
    as [[[] db']|e] eqn:E; [|vm_compute in E; discriminate].
  exists db'. split; [reflexivity|]. split.
  - exact (effects_keep_output_accounting (sample_runtime 5 40) sample_command_job sample_db db'
      (run_completed _ _ _ _ _ E) sample_output_ok).
  - vm_compute in E. injection E as <-. vm_compute. reflexivity.
Defined.

(** The provision of sandbox 502 comes back after it was archived. *)
Definition late_job : Job :=
  effect_job JobKind.ProvisionSandbox [("sandboxId", JString "502")].
Definition late_handle : ProviderSandboxHandle :=
  mkProviderSandboxHandle "kubernetes" 502%N [sample_resource 502%N] (JObject []).

Lemma effects_follow_lifecycle_witness :
  exists db' s', apply_completed (sample_runtime 5 40) late_job (ResultProvisionSandbox late_handle)
      sample_db = Ok (tt, db') /\
    sandboxes (world db') !! 502%N = Some s' /\ sb_state s' = SandboxState.Archived.
Proof.
  destruct (apply_completed (sample_runtime 5 40) late_job (ResultProvisionSandbox late_handle) sample_db)
    as [[[] db']|e] eqn:E; [|vm_compute in E; discriminate].
  destruct (proj1 (effects_follow_lifecycle (sample_runtime 5 40) late_job sample_db db'
      (run_completed _ _ _ _ _ E)) 502%N _ eq_refl) as (s' & Hs & _ & _ & Harch & _).
  exists db', s'. split; [reflexivity|]. split; [exact Hs|]. apply Harch. reflexivity.
Defined.

Lemma late_provision_is_reclaimed_witness :
  exists db' id r, apply_completed (sample_runtime 5 40) late_job (ResultProvisionSandbox late_handle)
      sample_db = Ok (tt, db') /\
    jobs db' !! id = Some r /\ is_active_stop 502%N r = true.
Proof.
  destruct (apply_completed (sample_runtime 5 40) late_job (ResultProvisionSandbox late_handle) sample_db)
    as [[[] db']|e] eqn:E; [|vm_compute in E; discriminate].
  destruct (late_provision_is_reclaimed (sample_runtime 5 40) late_job late_handle 502%N
    (sample_sandbox 502%N SandboxState.Archived None) sample_db db') as (_ & id & r & Hr & Ha);
    try reflexivity; [discriminate | exact E |].
  exists db', id, r. split; [reflexivity|]. split; [exact Hr | exact Ha].
Defined.

(** The provision of pool member 503 completes at second 100: the cell lives
    until second 215, ten seconds after its peer. *)
Definition admit_job : Job :=
  effect_job JobKind.ProvisionSandbox [("sandboxId", JString "503"); ("sterilePool", JBool true)].

Lemma admitted_cells_are_staggered_witness :
  exists db' c, admit_provisioned_cell_on_connection (sample_runtime 100 40) admit_job sample_db =
      Ok (tt, db') /\ sterile_cells db' !! 503%N = Some c /\ sterile c /\
    cell_expires_at c = seconds 215.
Proof.
  destruct (admit_provisioned_cell_on_connection (sample_runtime 100 40) admit_job sample_db)
    as [[[] db']|e] eqn:E; [|vm_compute in E; discriminate].
  destruct (admitted_cells_are_staggered (sample_runtime 100 40) admit_job 503%N sample_db db')
    as (m & m' & c & _ & _ & _ & _ & Hc & Hst & _); [reflexivity | reflexivity | exact E |].
  exists db', c. split; [reflexivity|]. split; [exact Hc|]. split; [exact Hst|].
  vm_compute in E. injection E as <-. vm_compute in Hc. injection Hc as <-. reflexivity.
Defined.

(** The same completion through the effect; peer 504's membership has no
    usable cell to lose. *)
Definition admit_handle : ProviderSandboxHandle :=
  mkProviderSandboxHandle "kubernetes" 503%N [] (JObject []).

Lemma effects_only_withdraw_cells_witness :
  exists db', apply_completed (sample_runtime 100 40) admit_job (ResultProvisionSandbox admit_handle)
      sample_db = Ok (tt, db') /\
    forall c, sterile_cells db' !! 503%N = Some c -> is_usable c = true -> sterile c.
Proof.
  destruct (apply_completed (sample_runtime 100 40) admit_job (ResultProvisionSandbox admit_handle)
    sample_db) as [[[] db']|e] eqn:E; [|vm_compute in E; discriminate].
  exists db'. split; [reflexivity|]. intros c Hc Hu.
  destruct (proj1 (effects_only_withdraw_cells (sample_runtime 100 40) admit_job sample_db db'
    (run_completed _ _ _ _ _ E)) 503%N c Hc Hu) as [Hold|[_ Hs]]; [discriminate Hold | exact Hs].
Defined.

(** ** Stopping and reaping *)


#[local] Instance chrono_example : ChronoLib := { MAX_UTC := seconds 8210266876799 }.

Definition short_lived (id : Uuid) (max_lifetime : Z) : Sandbox :=
  mkSandbox id "t" "box" SandboxState.Ready "image" MemoryLimit.OneG DenyAll WorkspaceMode.Ephemeral
    SandboxRuntimeProfile.Unprivileged ExecutionClass.SandboxedContainer 0 0 None
    (Some max_lifetime) None None None.

(** Sandbox 800 lives ten seconds, sandbox 801 a hundred. *)
Definition lifetime_db : Db World :=
  mkDb ∅ ∅ ∅ ∅ ∅ ∅ ∅ ∅ ∅ ∅ ∅
    (mkWorld {[ 800%N := short_lived 800%N 10; 801%N := short_lived 801%N 100 ]} [] [] [] ∅ [] ∅ ∅ ∅ ∅
       ∅ ∅ ∅ ∅ [] ∅ ∅ ∅ ∅ ∅ ∅ ∅ ∅ ∅ ∅ ∅ ∅).

Lemma short_lived_representable id n lc :
  (0 <= n <= 1000)%Z -> lifetimes_representable (short_lived id n) lc.
Proof.
  intros Hn. split.
  - intros ttl [[= <-]|?]; [|done]. unfold i64_max. lia.
  - intros [] d; [|done]. simpl. intros [= <-]. unfold seconds. lia.
Qed.

Lemma reaping_is_exact_witness :
  exists db' store',
    attempt_reap_candidate (fun _ => JNull) None (sample_runtime 20 40) (short_lived 800%N 10) None
      (seconds 20) lifetime_db (with_capacity 2) =
      Some (Reaped MaxLifetime (seconds 10), db', store') /\
    exists r, jobs db' !! 40%N = Some r /\ job_status (row_job r) = JobStatus.Queued.
Proof.
  pose proof (reaping_is_exact (fun _ => JNull) None (sample_runtime 20 40) (short_lived 800%N 10) None
    (seconds 20) lifetime_db (with_capacity 2)) as Hreap.
  assert (Hout : exists db' store',
    attempt_reap_candidate (fun _ => JNull) None (sample_runtime 20 40) (short_lived 800%N 10) None
      (seconds 20) lifetime_db (with_capacity 2) =
      Some (Reaped MaxLifetime (seconds 10), db', store')).
  { do 2 eexists. vm_compute. reflexivity. }
  destruct Hout as (db' & store' & E). rewrite E in Hreap. exists db', store'. split; [exact E|].
  destruct Hreap as (_ & _ & _ & r & Hr & _ & Hq); [by apply short_lived_representable|].
  exists r. by split.
Defined.

(** Of the two, the sweep at second 20 reaps the first. *)
Lemma sweep_reaps_every_overdue_sandbox_witness :
  exists outcomes db' store',
    reap_expired_active_sandboxes (fun _ => JNull) None (fun n => sample_runtime 20 (40 + N.of_nat n))
      (seconds 20) lifetime_db (with_capacity 2) = Some (outcomes, db', store') /\
    exists o, (801%N, o) ∈ outcomes /\
      candidate_handled (short_lived 801%N 100) None (seconds 20) o (sandboxes (world db') !! 801%N).
Proof.
  destruct (sweep_reaps_every_overdue_sandbox (fun _ => JNull) None
    (fun n => sample_runtime 20 (40 + N.of_nat n)) (seconds 20) lifetime_db (with_capacity 2))
    as (outcomes & db' & store' & E & Hall).
  - intros id s. cbn [sandboxes world lifetime_db].
    intros [[<- <-]|[_ [<- <-]%lookup_singleton_Some]]%lookup_insert_Some;
      (split; [reflexivity|]); apply short_lived_representable; lia.
  - vm_compute. lia.
  - exists outcomes, db', store'. split; [exact E|].
    exact (proj2 (Hall 801%N (short_lived 801%N 100) eq_refl) eq_refl).
Defined.
