(* ===== verification/AgentSamples.v ===== *)
(** * Worked examples of the agent's components

    A codec in place of base64, a digest in place of SHA-256 and a body in
    place of the service's JSON, with which the theorems about commands,
    leases and guest tokens are applied to a small world: one running sandbox,
    placed on one worker. *)

From S2P Require Import Prelude Text Authz AuthzProofs CoreTypes Json Store Leases Refinement World Scopes SandboxStop.
From S2P Require Import Placement Effects AgentControl AgentLeases Commands GuestTokens Samples WorldSamples.
From stdpp Require Import pretty.

Open Scope Z_scope.

(** ** The libraries *)

(** Three bytes are written as four characters, the last their number. *)
Definition group (a b c : N) (n : string) : string :=
  String (Ascii.ascii_of_N a) (String (Ascii.ascii_of_N b) (String (Ascii.ascii_of_N c) n)).

Fixpoint group_encode (bs : Bytes) : string :=
  match bs with
  | a :: b :: c :: rest => group a b c "3" ++ group_encode rest
  | [a; b] => group a b 0 "2"
  | [a] => group a 0 0 "1"
  | [] => ""
  end%string.

Fixpoint group_decode (s : string) : option Bytes :=
  match s with
  | String a (String b (String c (String n rest))) =>
      r ← group_decode rest;
      let bytes := [Ascii.N_of_ascii a; Ascii.N_of_ascii b; Ascii.N_of_ascii c] in
      Some (take (N.to_nat (Ascii.N_of_ascii n) - 48) bytes ++ r)
  | EmptyString => Some []
  | _ => None
  end.

#[export] Instance group_base64 : Base64Lib := {|
  std_base64_encode := group_encode;
  std_base64_decode := group_decode
|}.

Lemma triple_induction (P : Bytes -> Prop) :
  P [] -> (forall a, P [a]) -> (forall a b, P [a; b]) -> (forall a b c r, P r -> P (a :: b :: c :: r)) ->
  forall bs, P bs.
Proof.
  intros H0 H1 H2 H3. fix IH 1. intros [|a [|b [|c r]]]; [done|apply H1|apply H2|]. apply H3, IH.
Qed.

Lemma group_decode_group a b c k rest r : (a < 256)%N -> (b < 256)%N -> (c < 256)%N -> group_decode rest = Some r ->
  group_decode (group a b c (String k rest)) = Some (take (N.to_nat (Ascii.N_of_ascii k) - 48) [a; b; c] ++ r).
Proof.
  intros Ha Hb Hc Hr. unfold group. cbn [group_decode]. rewrite Hr. cbn [mbind option_bind].
  by rewrite !Ascii.N_ascii_embedding.
Qed.

#[export] Instance group_base64_laws : Base64Laws.
Proof.
  split; intros bs; induction bs as [|a|a b|a b c r IH] using triple_induction; intros Hb.
  all: unfold bytes_ok in *; repeat match goal with H : Forall _ (_ :: _) |- _ => apply Forall_cons in H as [? H] end.
  all: cbn [std_base64_encode std_base64_decode group_base64 group_encode] in *.
  - done.
  - by apply (group_decode_group a 0 0 (Ascii.ascii_of_N 49) "" []).
  - by apply (group_decode_group a b 0 (Ascii.ascii_of_N 50) "" []).
  - change (group a b c "3" ++ group_encode r)%string with (group a b c (String (Ascii.ascii_of_N 51) (group_encode r))).
    by apply (group_decode_group a b c (Ascii.ascii_of_N 51) (group_encode r) r); [..|apply (IH Hb)].
  - done.
  - done.
  - done.
  - specialize (IH Hb). change (group a b c "3" ++ group_encode r)%string with (group a b c (String (Ascii.ascii_of_N 51) (group_encode r))).
    unfold group. cbn [String.length length]. rewrite !Nat2Z.inj_succ, IH.
    replace (Z.succ (Z.succ (Z.succ (Z.of_nat (length r)))) + 2) with (Z.of_nat (length r) + 2 + 1 * 3) by lia.
    rewrite Z.div_add by lia. lia.
Qed.

(** The digest of a token is its length in bytes. *)
Definition byte_length (b : Bytes) : string := pretty (N.of_nat (length b)).

#[local] Instance token_serde : SerdeLib := {|
  result_to_value := sample_result_value;
  json_to_vec v := Some (print_json v);
  sha256_hex token := byte_length (into_bytes (txt token));
  provision_spec_from_value _ := None;
  provision_spec_to_value _ := JObject [];
  destination_from_value _ := None;
  destination_to_value _ := JNull
|}.

#[local] Instance token_authz : AuthzLib := {|
  sha256_hex_digest b := txt (byte_length b);
  uuid_text u := txt (pretty u)
|}.

#[local] Instance token_hash_laws : TokenHashLaws.
Proof. split. reflexivity. Qed.

(** The body of an error is its code. *)
#[local] Instance code_envelope : EnvelopeLib := { envelope_code body := Some body }.
#[local] Instance code_body : ErrorBodyLib := {| error_body := err_code; error_body_code _ := eq_refl |}.

#[local] Instance chrono_sample : ChronoLib := { MAX_UTC := seconds 8210266876799 }.

(** ** A queued command *)

Definition tenant_ctx : TenantContext := mkTenantContext "t" PrincipalTenant.

Definition sample_command_request : CommandRequest :=
  mkCommandRequest ["cat"; "-n"] (Some "/workspace") [("A", "1"); ("B", "2")] (Some [104; 105; 33; 10]%N) (Some 9000).

Definition queue_sample : result (Uuid * Job) ApiError * Db World :=
  queue_command (sample_runtime 5 900) tenant_ctx sample_db 500%N sample_command_request sample_db.

Lemma sample_request_ok : request_ok sample_command_request.
Proof.
  split; [repeat constructor|]. intros b [= <-]. repeat constructor.
Qed.

Definition queued_job (out : result (Uuid * Job) ApiError * Db World) : option (Uuid * Job) :=
  match out.1 with Ok r => Some r | Err _ => None end.

Lemma queued_job_some out id job : queued_job out = Some (id, job) -> out = (Ok (id, job), out.2).
Proof. destruct out as [[r|] db]; [|done]. by intros [= ->]. Qed.

Definition queue_sample_job : Job :=
  match queued_job queue_sample with Some (_, job) => job | None => sample_command_job end.

Lemma queue_sample_ok : queued_job queue_sample = Some (900%N, queue_sample_job).
Proof. vm_compute. reflexivity. Qed.

Lemma uuid_500 : uuid_parse_str (uuid_to_string 500%N) = Some 500%N.
Proof. vm_compute. reflexivity. Qed.

Lemma queued_command_runs_as_asked_witness :
  handle_lease (fun q => (Ok (ac_argv q, ac_stdin q, ac_timeout_secs q) : result _ unit)) 500%N queue_sample_job
  = ReportComplete (agent_request_of sample_command_request)
      (["cat"; "-n"], Some [104; 105; 33; 10]%N, Some 3600).
Proof.
  destruct (queued_command_runs_as_asked (sample_runtime 5 900) tenant_ctx sample_db 500%N sample_command_request
              sample_db 900%N queue_sample_job queue_sample.2 uuid_500 sample_request_ok
              (queued_job_some _ _ _ queue_sample_ok)) as (_ & _ & H).
  exact (proj1 (H _ unit (fun q => Ok (ac_argv q, ac_stdin q, ac_timeout_secs q)))).
Defined.

(** ** Renewed leases *)

Definition lease_of (n : Z) : JobLease :=
  mkJobLease 70%N 21%N 10%N LeaseStatus.Active 1 (seconds 100) (seconds (100 + n)) None None
    ExecutionClass.SandboxedContainer (effect_job JobKind.RunCommand [("sandboxId", JString "500")]).

Definition lease_db (n : Z) : Db World :=
  mkDb {[ 21%N := mkJobRow (lease_job (lease_of n)) (mkJobReferences (Some 500%N) None None None None None) None None ]}
    {[ 70%N := mkLeaseRow 21%N 10%N LeaseStatus.Active 1 (seconds 100) (seconds (100 + n)) None None None None None ]}
    {[ 10%N := mkWorkerRow sample_worker "hash" 0%Z 0%Z ]} ∅ ∅ ∅ ∅ ∅ ∅ ∅ ∅ sample_world.

Lemma lease_held n : held (lease_of n) (expires_at (lease_of n)) (lease_db n).
Proof.
  split; [|reflexivity|reflexivity].
  exists (mkLeaseRow 21%N 10%N LeaseStatus.Active 1 (seconds 100) (seconds (100 + n)) None None None None None).
  cbn [job_leases lease_db lease_id lease_of lr_job_id jobs]. rewrite !lookup_singleton_eq.
  split_and!; try done; try reflexivity.
Qed.

(** Calls that take a quarter of a second each way. *)
Definition sample_latency : Latency := mkLatency (millis 500) (fun _ => millis 250) (fun _ => millis 250).

Lemma sample_forward : forward sample_latency.
Proof. split; intros; vm_compute; discriminate. Qed.

(** A lease of a minute is kept; one of ten minutes is lost while it runs. *)
Lemma renewals_keep_lease_iff_witness :
  (forall n, (lease_renewal_task sample_latency (call_renew (lease_of 60)) (lease_of 60) n (lease_db 60)).1 = true) /\
  (lease_renewal_task sample_latency (call_renew (lease_of 600)) (lease_of 600) 2 (lease_db 600)).1 = false.
Proof.
  split.
  - destruct (renewals_keep_lease_iff sample_latency (Some 60) (lease_of 60) (lease_db 60) sample_forward eq_refl
                (lease_held 60)) as (_ & _ & Hkept & _).
    apply Hkept; [|intros k]; apply Z.ltb_lt; vm_compute; reflexivity.
  - destruct (renewals_keep_lease_iff sample_latency (Some 600) (lease_of 600) (lease_db 600) sample_forward eq_refl
                (lease_held 600)) as (_ & _ & _ & Hlost).
    apply Hlost; [|lia]. apply Z.leb_le. vm_compute. reflexivity.
Defined.

(** ** A refreshed token *)

Definition old_token : string := "sbw_gtok_a".
Definition new_token : string := "sbw_gtok_bb".

Definition old_row : CredentialRow :=
  mkCredentialRow "t" 10%N 500%N (sha256_hex old_token) (seconds 3600) None 0.

Definition token_db : Db World :=
  set_sandbox_placements {[ 500%N := mkPlacementRow 10%N "kubernetes" None 1 0 0 ]}
    (set_world (set_guest_tokens {[ 800%N := old_row ]} sample_world) sample_db).

Definition guest_ctx : TenantContext := mkTenantContext "t" (PrincipalGuest 10%N 500%N).

Lemma token_db_unique : tokens_unique token_db.
Proof.
  intros i j a b. change (guest_tokens (world token_db)) with ({[ 800%N := old_row ]} : gmap Uuid CredentialRow).
  rewrite !lookup_singleton_Some. by intros [<- _] [<- _] _.
Qed.

Definition refresh_out : option (result GuestTokenResponse ApiError * Db World) :=
  refresh_guest_token (sample_runtime 2400 801) new_token guest_ctx token_db 500%N None token_db.

Definition refreshed_db : Db World := match refresh_out with Some (_, db) => db | None => token_db end.

Definition refresh_response : GuestTokenResponse := mkGuestTokenResponse new_token "t" 10%N 500%N (seconds 6000).

Lemma answer_of {A} (out : option (result A ApiError * Db World)) a :
  match out with Some (Ok r, _) => Some r | _ => None end = Some a ->
  out = Some (Ok a, match out with Some (_, db) => db | None => token_db end).
Proof. destruct out as [[[r|] db]|]; try done. by intros [= ->]. Qed.

Lemma refresh_out_ok :
  refresh_guest_token (sample_runtime 2400 801) new_token guest_ctx token_db 500%N None token_db
  = Some (Ok refresh_response, refreshed_db).
Proof. apply (answer_of refresh_out). vm_compute. reflexivity. Qed.

Definition health_request (token : string) : RequestHead := sample_request "/v1/sandboxes/500/guest-health" token.

Lemma carries_old : carries (health_request old_token) old_token.
Proof. split; [|split]; vm_compute; reflexivity. Qed.

Lemma carries_new : carries (health_request new_token) new_token.
Proof. split; [|split]; vm_compute; reflexivity. Qed.

Lemma old_row_hash : txt (cr_token_hash old_row) = hash_worker_token (txt old_token).
Proof. apply token_hash_text. Qed.

Lemma old_row_stored : guest_tokens (world token_db) !! 800%N = Some old_row.
Proof. vm_compute. reflexivity. Qed.

Lemma threshold_ok : 0 <= 12 <= u32_max.
Proof. vm_compute. split; discriminate. Qed.

(** With the default threshold, twelve heartbeats later. *)
Lemma refresh_ends_heartbeat_witness :
  heartbeat_loop 12 (health_answer sample_auth refreshed_db (health_request old_token) <$> (seconds <$> seqZ 2405 12))
  = inl 12%nat.
Proof.
  destruct (refresh_ends_heartbeat sample_auth (sample_runtime 2400 801) new_token guest_ctx token_db 10%N 500%N None
              token_db refresh_response refreshed_db 800%N old_row old_token (health_request old_token)
              (health_request new_token) token_db_unique eq_refl old_row_stored eq_refl eq_refl old_row_hash
              carries_old carries_new refresh_out_ok) as [H _].
  exact (H 12 (seconds <$> seqZ 2405 12) threshold_ok (le_n 12)).
Defined.

Definition mint_out : option (result GuestTokenResponse ApiError * Db World) :=
  issue_guest_token (sample_runtime 2400 801) new_token token_db "t" 10%N 500%N None true token_db.

Definition minted_db : Db World := match mint_out with Some (_, db) => db | None => token_db end.

Lemma mint_out_ok :
  issue_guest_token (sample_runtime 2400 801) new_token token_db "t" 10%N 500%N None true token_db
  = Some (Ok refresh_response, minted_db).
Proof. apply (answer_of mint_out). vm_compute. reflexivity. Qed.

Lemma issued_token_is_the_only_key_witness :
  resolve_guest_token (auth_at sample_auth minted_db (seconds 2500)) (txt new_token)
  = Ok (Some (txt "t", 10%N, 500%N)) /\
  resolve_guest_token (auth_at sample_auth minted_db (seconds 2500)) (txt old_token) = Ok None.
Proof.
  destruct (issued_token_is_the_only_key (sample_runtime 2400 801) new_token token_db "t" 10%N 500%N None true
              token_db refresh_response minted_db token_db_unique mint_out_ok) as (_ & _ & _ & H).
  destruct (H sample_auth (seconds 2500)) as [H1 H2]. split.
  - exact H1.
  - exact (H2 800%N old_row old_token old_row_stored old_row_hash).
Defined.
