(* ===== verification/ReconcileSamples.v ===== *)
(** * A worked example of reconciliation

    One running sandbox whose Pod is recorded, on a cluster that also holds the
    Pod of a sandbox the tables do not know yet. *)

From S2P Require Import Prelude Text CoreTypes Json Store Leases World Pagination Scopes SandboxStop.
From S2P Require Import Authz RuntimeInventory WorkerReconcile Samples WorldSamples.
From stdpp Require Import pretty.

#[local] Instance reconcile_chrono : ChronoLib := { MAX_UTC := seconds 8210266876799 }.
#[local] Instance reconcile_time_text : TimeTextLib := { time_text t := pretty (Z.to_N t) }.
#[local] Instance reconcile_rfc3339 : Rfc3339Lib := { parse_from_rfc3339 s := Z.of_N <$> decimal_value 0 s }.

Definition kept_an_hour : Sandbox :=
  mkSandbox 500%N "t" "box" SandboxState.Running "image" MemoryLimit.OneG DenyAll WorkspaceMode.Ephemeral
    SandboxRuntimeProfile.Unprivileged ExecutionClass.SandboxedContainer 0 0 (Some 3600%Z) None None None None.

Definition cluster_worker : Worker :=
  mkWorker 10%N "t" "w1" WorkerStatus.Registered "kubernetes" [WorkerCapability.ProvisionSandbox] 2%Z
    {[ "cluster" := "prod" ]} None 0%Z None.

Definition recorded_pod : StageResourceRow :=
  mkStageResourceRow 500%N "pod_ready" RuntimeResourceKind.Pod "ns" "sandboxwich-500" "u-500" None 0.

Definition provisioned_by : ProvisioningOperationRow :=
  mkProvisioningOperationRow 30%N 1 "pod_ready" 3 None None None None None 1 None None None 0.

Definition reconcile_world : World :=
  set_provisioning_operations {[ 500%N := provisioned_by ]}
    (set_provisioning_operation_resources [recorded_pod] (set_sandboxes {[ 500%N := kept_an_hour ]} empty_world)).

Definition reconcile_db : Db World :=
  mkDb ∅ {[ 30%N := sample_lease_row LeaseStatus.Completed (seconds 62) (Some (seconds 3)) None ]}
    {[ 10%N := mkWorkerRow cluster_worker "hash" 0%Z 0%Z ]} ∅ ∅ ∅ ∅ ∅ ∅ ∅ ∅ reconcile_world.

Definition reconciler_ctx : TenantContext := mkTenantContext "t" (PrincipalWorker 10%N).

Definition recorded_row : InventoryRow := mkInventoryRow recorded_pod 10%N kept_an_hour.

Example reconcile_rows : expected_rows reconcile_db 10%N "ns" cluster_worker = [recorded_row].
Proof. vm_compute. reflexivity. Qed.

Example reconcile_sandboxes : sandbox_rows reconcile_db = [(500%N, kept_an_hour)].
Proof. vm_compute. reflexivity. Qed.

Lemma reconcile_readable : inventory_readable reconcile_db reconciler_ctx 10%N "ns" cluster_worker.
Proof.
  split; rewrite ?reconcile_rows, ?reconcile_sandboxes.
  1-3: vm_compute; reflexivity.
  1-2: apply Nat.leb_le; vm_compute; reflexivity.
  1, 3: apply NoDup_singleton.
  1, 2: intros x ->%list_elem_of_singleton; split; vm_compute; reflexivity.
  intros row ->%list_elem_of_singleton. eexists. vm_compute. reflexivity.
Qed.

(** What [kubectl] prints: the recorded Pod, and one of a sandbox that is new. *)
Definition pod_listing : Text :=
  txt "Pod 500 ns sandboxwich-500 u-500 <none> <none> Running" ++ [10%N] ++
  txt "Pod 900 ns sandboxwich-900 u-900 <none> <none> Pending" ++ [10%N].

Definition observed_pod (sandbox : Uuid) (name uid : string) : ObservedKubernetesResource :=
  mkObservedResource (Some sandbox) RuntimeResourceKind.Pod "ns" name uid None None None (Some Live).

Definition observed_pods : list ObservedKubernetesResource :=
  [observed_pod 500%N "sandboxwich-500" "u-500"; observed_pod 900%N "sandboxwich-900" "u-900"].

Definition reconcile_limits : ReconciliationLimits := mkLimits 100 100 (seconds 120).

Example pods_discovered : discover_reconciliation_resources (max_scanned reconcile_limits) [Some pod_listing] = Ok observed_pods.
Proof. vm_compute. reflexivity. Qed.

Definition no_revival : @RevivalScript unit :=
  mkRevivalScript (fun _ => Some None) (fun _ => false) (Some 200%Z) true (fun _ _ _ _ _ => Some tt).

(** A run that applies its decisions; the sandbox is an hour and more old. *)
Definition reconcile_script : @PassScript unit :=
  mkPassScript true (fun _ => false) (fun _ => no_revival) (seconds 4000) (fun _ => 0%Z) (fun _ => false) (fun _ => Some 200%Z).

Lemma reconcile_within :
  run_within reconcile_db reconciler_ctx 10%N "ns" cluster_worker "prod" 3 [Some pod_listing] reconcile_limits
    observed_pods reconcile_script.
Proof.
  split; rewrite ?reconcile_rows, ?reconcile_sandboxes.
  - apply reconcile_readable.
  - reflexivity.
  - reflexivity.
  - simpl. lia.
  - simpl. lia.
  - simpl. lia.
  - simpl. lia.
  - apply pods_discovered.
  - simpl. lia.
  - split; [reflexivity|reflexivity|reflexivity|]. intros n. simpl. unfold seconds. lia.
Qed.

Definition pod_path (name : string) : string := "/api/v1/namespaces/ns/pods/" ++ name.

Lemma reconciler_deletes_only_witness :
  exists effects outcome,
    reconcile_once (Manifest := unit) (fun _ => serve reconcile_db reconciler_ctx 10%N) "prod" "ns" 3 [Some pod_listing]
      reconcile_limits true reconcile_script = Some (effects, outcome) /\ length effects = 2%nat /\
    exists r, r ∈ observed_pods /\ kubernetes_delete_path r = Some (pod_path "sandboxwich-500") /\
      (ended_supervisor reconcile_db observed_pods r \/ grounds reconcile_db 10%N "ns" cluster_worker (seconds 4000) r).
Proof.
  destruct (reconciler_deletes_only (Manifest := unit) reconcile_db reconciler_ctx 10%N "ns" cluster_worker "prod" 3
              [Some pod_listing] reconcile_limits true reconcile_script) as (effects & outcome & E & Hg).
  - apply reconcile_readable.
  - simpl. lia.
  - rewrite reconcile_rows. simpl. lia.
  - rewrite reconcile_sandboxes. simpl. lia.
  - exists effects, outcome. split; [exact E|].
    assert (Hin : length effects = 2%nat /\ DeleteRequest (pod_path "sandboxwich-500")
      (kubernetes_delete_options (observed_pod 500%N "sandboxwich-500" "u-500")) ∈ effects).
    { vm_compute in E. injection E as <- _. split; [reflexivity|]. vm_compute. left. }
    destruct Hin as [Hlen Hin]. split; [exact Hlen|].
    destruct Hg as [->|(_ & observed & rv & dl & Ho & -> & Hrv & Hdl & _)]; [discriminate Hlen|].
    rewrite pods_discovered in Ho. injection Ho as <-.
    apply elem_of_app in Hin as [Hin|Hin].
    + destruct (Hrv _ Hin) as [[m [=]]|(r & Hr & (p & Hp & Ee) & Hc)]. injection Ee as <- _.
      exists r. split; [exact Hr|]. split; [exact Hp|by left].
    + destruct (Hdl _ Hin) as (r & Hr & (p & Hp & Ee) & Hc). injection Ee as <- _.
      exists r. split; [exact Hr|]. split; [exact Hp|by right].
Defined.

Lemma retention_ends_live_sandboxes_witness :
  exists effects o,
    reconcile_once (Manifest := unit) (fun _ => serve reconcile_db reconciler_ctx 10%N) "prod" "ns" 3 [Some pod_listing]
      reconcile_limits true reconcile_script = Some (effects, Some o) /\
    sb_state kept_an_hour = SandboxState.Running /\
    exists e, e ∈ effects /\ deletion_of (observed_pod 500%N "sandboxwich-500" "u-500") e.
Proof.
  destruct (retention_ends_live_sandboxes (Manifest := unit) reconcile_db reconciler_ctx 10%N "ns" cluster_worker "prod" 3
              [Some pod_listing] reconcile_limits observed_pods reconcile_script recorded_row
              (observed_pod 500%N "sandboxwich-500" "u-500")) as (effects & o & E & _ & Hiff).
  - apply reconcile_within.
  - rewrite reconcile_rows. left.
  - left.
  - split_and!; reflexivity.
  - reflexivity.
  - reflexivity.
  - discriminate.
  - rewrite reconcile_rows. intros row' ->%list_elem_of_singleton _. reflexivity.
  - intros r' [->|[->|?%not_elem_of_nil]%elem_of_cons]%elem_of_cons Hp; [reflexivity|discriminate Hp|done].
  - exists effects, o. split; [exact E|]. split; [reflexivity|]. apply Hiff.
    exists 3600%Z. split; [reflexivity|]. apply Z.leb_le. vm_compute. reflexivity.
Defined.

Lemma young_sandbox_is_deleted_witness :
  exists effects o,
    reconcile_once (Manifest := unit) (fun _ => serve reconcile_db reconciler_ctx 10%N) "prod" "ns" 3 [Some pod_listing]
      reconcile_limits true reconcile_script = Some (effects, Some o) /\
    DeleteRequest (pod_path "sandboxwich-900") (kubernetes_delete_options (observed_pod 900%N "sandboxwich-900" "u-900")) ∈ effects.
Proof.
  destruct (young_sandbox_is_deleted (Manifest := unit) reconcile_db reconciler_ctx 10%N "ns" cluster_worker "prod" 3
              [Some pod_listing] reconcile_limits observed_pods reconcile_script 900%N
              (observed_pod 900%N "sandboxwich-900" "u-900")) as (effects & o & path & E & Hp & Hin).
  - apply reconcile_within.
  - reflexivity.
  - right. left.
  - reflexivity.
  - reflexivity.
  - exists effects, o. split; [exact E|]. vm_compute in Hp. injection Hp as <-. exact Hin.
Defined.
