(* ===== verification/CleanupSamples.v ===== *)
(** * Worked examples of cleanup and repair

    Four sandboxes at second 100: 800 and 801 are archived with their
    retention passed, 802 is archived and retained for longer, 803 runs.
    While the run is at 801, another request publishes a snapshot of it that
    can be forked. *)

From S2P Require Import Prelude CoreTypes Json Store Leases SandboxLifecycle Queue World CommandOutput.
From S2P Require Import RuntimeResources Snapshots Effects EffectProofs SandboxStop Cleanup CleanupProofs Samples.
From stdpp Require Import sorting relations.

#[local] Instance cleanup_chrono : ChronoLib := { MAX_UTC := seconds 8210266876799 }.

Definition retained_sandbox (id : Uuid) (state : SandboxState) (ttl : Z) : Sandbox :=
  mkSandbox id "t" "box" state "image" MemoryLimit.OneG DenyAll WorkspaceMode.Ephemeral
    SandboxRuntimeProfile.Unprivileged ExecutionClass.SandboxedContainer 0 0 (Some ttl) None None None
    None.

Definition live_pod (sandbox_id : Uuid) (name : string) : RuntimeResource :=
  mkRuntimeResource sandbox_id None "kubernetes" RuntimeResourceKind.Pod RuntimeResourcePurpose.Runtime name "ns"
    RuntimeResourceStatus.Ready None None None None None None None None 0 0 None None None None None.

Definition cleanup_db (fleet : gmap Uuid Sandbox) : Db World :=
  mkDb ∅ ∅ ∅ ∅ ∅ ∅ ∅ ∅ ∅ ∅ ∅
    (set_runtime_resources {[ 70%N := live_pod 800%N "a"; 71%N := live_pod 802%N "b" ]}
       (set_sandboxes fleet empty_world)).

Definition cleanup_fleet : gmap Uuid Sandbox :=
  {[ 800%N := retained_sandbox 800%N SandboxState.Archived 10;
     801%N := retained_sandbox 801%N SandboxState.Archived 20;
     802%N := retained_sandbox 802%N SandboxState.Archived 1000;
     803%N := retained_sandbox 803%N SandboxState.Running 1 ]}.

Definition cleanup_clock (n : nat) : Runtime := sample_runtime (100 + Z.of_nat n) (40 + 10 * N.of_nat n).

(** The eighth statement, the deletion of 801, finds a fresh restore source. *)
Definition racing_fork (n : nat) (db : Db World) : Db World :=
  if bool_decide (n = 8)
  then set_world (set_snapshot_restore_sources
         {[ 700%N := mkRestoreSourceRow "t" 801%N SnapshotStatus.Ready None ]} (world db)) db
  else db.


Lemma retained_sweepable fleet id s :
  cleanup_fleet !! id = Some s -> is_retained s = true -> sweepable (cleanup_db fleet) id s.
Proof.
  unfold cleanup_fleet. intros Hs Hr.
  repeat (apply lookup_insert_Some in Hs as [[<- <-]|[_ Hs]]; [by (split; [by eexists|])|]).
  apply lookup_singleton_Some in Hs as [<- <-]. done.
Qed.


(** A tenant asks for the longest retention there is; the sandbox behind it
    is never deleted. *)
Definition endless_fleet : gmap Uuid Sandbox :=
  {[ 800%N := retained_sandbox 800%N SandboxState.Archived u64_max;
     801%N := retained_sandbox 801%N SandboxState.Archived 20 ]}.

Lemma oversized_retention_stops_cleanup_witness :
  exists e n' db', cleanup_archived_sandboxes cleanup_clock calm (0, cleanup_db endless_fleet) =
      Some (Err e, (n', db')) /\
    rtc (sweep_commit calm (retention_removal cleanup_clock [] (seconds 100))) (cleanup_db endless_fleet) db'.
Proof.
  destruct (cleanup_archived_sandboxes cleanup_clock calm (0, cleanup_db endless_fleet)) as [[r [n' db']]|] eqn:E;
    [|exfalso; vm_compute in E; discriminate].
  destruct (oversized_retention_stops_cleanup cleanup_clock calm 0 (cleanup_db endless_fleet) [] 800%N
    (retained_sandbox 800%N SandboxState.Archived u64_max) u64_max
    [(801%N, retained_sandbox 801%N SandboxState.Archived 20)] r n' db') as [[e ->] Hrtc];
    [vm_compute; reflexivity | reflexivity | by vm_compute | exact E |].
  exists e, n', db'. split; [reflexivity | exact Hrtc].
Defined.

