(* ===== verification/SterileCellSamples.v ===== *)
(** * Sterile cells: a worked deployment

    A pool of two members with a ready floor of one is created by a
    reconciliation and admitted; one member is claimed, the other is
    protected.  The theorems of [SterileCellTheorems] are applied to these
    states. *)

From S2P Require Import Prelude CoreTypes Json Store Leases SandboxLifecycle World CommandOutput.
From S2P Require Import Authz Scopes SterilePool PoolController SterileCells ResidentProcesses SterileCellProofs.
From S2P Require Import SterileCellMachine SterileCellTheorems Samples.
From stdpp Require Import sorting pretty.

(** Counts print in unary; printing checks that it reads back. *)
Definition print_count (n : Z) : string :=
  (String.concat "" (replicate (Z.to_nat n) "1") ++ ",")%string.

Fixpoint read_count (acc : Z) (s : string) : option (Z * string) :=
  match s with
  | EmptyString => None
  | String a s' => if String.eqb (String a EmptyString) "1" then read_count (acc + 1) s' else Some (acc, s')
  end.

Definition print_evidence (e : SterileCellClaimabilityEvidenceV1) : string :=
  (print_count (evi_pool_ready_cells e) ++ print_count (evi_ready_cells e)
   ++ print_count (evi_unhealthy_pool_ready_cells e) ++ print_count (evi_claimable_cells e)
   ++ print_count (evi_protected_ready_cells e) ++ print_count (evi_leased_cells e)
   ++ print_count (evi_mismatched_active_cells e))%string.

Definition read_evidence (s : string) : option SterileCellClaimabilityEvidenceV1 :=
  '(a, s) ← read_count 0 s; '(b, s) ← read_count 0 s; '(c, s) ← read_count 0 s;
  '(d, s) ← read_count 0 s; '(e, s) ← read_count 0 s; '(f, s) ← read_count 0 s;
  '(g, _) ← read_count 0 s; Some (mkEvidence a b c d e f g).

#[export] Instance evidence_eq_dec : EqDecision SterileCellClaimabilityEvidenceV1.
Proof. solve_decision. Defined.

#[export] Instance cell_example : CellLib := {|
  hmac_base64 key m := (key ++ "|" ++ m)%string;
  sha256_base64 m := m;
  to_rfc3339 t := pretty (Z.to_N t);
  evidence_to_string e :=
    let s := print_evidence e in if decide (read_evidence s = Some e) then Some s else None;
  evidence_from_str := read_evidence
|}.

Lemma evidence_round_trip ev s : evidence_to_string ev = Some s -> evidence_from_str s = Some ev.
Proof. simpl. case_decide; [|done]. by intros [= <-]. Qed.

(** ** The deployment *)

Definition zero_digest : string := String.concat "" (replicate 64%nat "0").

Definition unsigned_release : SterileCellReleaseTrustClassV1 :=
  mkReleaseTrustClass "release-1" SterileCellRuntimeClass.GvisorLowerRisk zero_digest "".

Definition signed_release : SterileCellReleaseTrustClassV1 :=
  mkReleaseTrustClass "release-1" SterileCellRuntimeClass.GvisorLowerRisk zero_digest
    (RELEASE_SIGNATURE_PREFIX ++ hmac_base64 "key" (release_material unsigned_release))%string.

Definition pool_config : SterilePoolConfig :=
  mkSterilePoolConfig 2 1 2 "t" signed_release SandboxRuntimeProfile.Unprivileged "image" "agent" "maestro"
    3600.

Definition cell_settings : CellSettings := mkCellSettings (Some "key") (Some pool_config).

Definition cell_worker : Worker :=
  mkWorker 10%N "t" "w1" WorkerStatus.Registered "kubernetes"
    [WorkerCapability.ProvisionSandbox; WorkerCapability.SandboxedContainer] 2%Z ∅ None 0%Z None.

Definition cells_start : Db World :=
  mkDb ∅ ∅ {[ 10%N := mkWorkerRow cell_worker "hash" 0%Z 0%Z ]} ∅ ∅ ∅ ∅ ∅ ∅ ∅ ∅ empty_world.

(** The reconciliation creates sandboxes 600 and 602 with jobs 601 and 603. *)
Definition cells_created : Db World :=
  (reconcile_sterile_pool (sample_runtime 0 0) pool_config cells_start).2.

(** Both are placed and report their pods. *)
Definition pod_row (id : Uuid) : StageResourceRow :=
  mkStageResourceRow id "pod_ready" RuntimeResourceKind.Pod "ns" ("sandboxwich-" ++ pretty id)%string "uid" None 0.

Definition cells_placed : Db World :=
  mkDb (jobs cells_created) ∅ (workers cells_created) ∅ ∅
    {[ 600%N := mkPlacementRow 10%N "kubernetes" None 1 0 0; 602%N := mkPlacementRow 10%N "kubernetes" None 1 0 0 ]}
    ∅ ∅ ∅ ∅ ∅
    (set_provisioning_operation_resources [pod_row 600%N; pod_row 602%N] (world cells_created)).

Definition provision_job_of (job_id id : Uuid) : Job :=
  pool_provision_job pool_config job_id (pool_sandbox pool_config id 0) 0.

Definition cells_admitted : Db World :=
  (run_tx (admit_provisioned_cell_on_connection (sample_runtime 5 0) (provision_job_of 601%N 600%N)) cells_placed).2.

Definition cells_ready : Db World :=
  (run_tx (admit_provisioned_cell_on_connection (sample_runtime 6 0) (provision_job_of 603%N 602%N)) cells_admitted).2.

Definition cell_ctx : TenantContext := mkTenantContext "t" PrincipalTenant.

Definition cell_request (claim : option Uuid) (organization : string) : ClaimSterileCellRequestV1 :=
  mkCellClaimRequest claim signed_release organization "ws" "th" "rs" (Some 60%Z).

(** Claim 900 takes cell 600 under lease 700. *)
Definition claimed_out : result ClaimAttempt ApiError * Db World :=
  claim_cell_once (sample_runtime 10 700) cell_settings "key" cell_ctx (cell_request (Some 900%N) "org")
    (seconds 70) cells_ready.

Definition claimed_lease : SterileCellLeaseV1 :=
  mkCellLease 700%N 600%N 2 signed_release "org" "ws" "th" "rs" (seconds 70).

Example claim_takes_the_oldest :
  claimed_out.1 = Ok (CellClaimed claimed_lease (lease_token "key" claimed_lease)).
Proof. vm_compute. reflexivity. Qed.

Lemma cells_ready_reachable : pool_reachable cell_settings cells_ready.
Proof.
  exists cells_start. split; [by split_and!|].
  eapply rtc_l; [apply (ps_reconcile cell_settings cells_start (sample_runtime 0 0) pool_config); reflexivity|].
  eapply rtc_l; [apply (ps_beside cell_settings _ cells_placed); split_and!; vm_compute; reflexivity|].
  eapply rtc_l; [apply (ps_admit cell_settings cells_placed (sample_runtime 5 0) (provision_job_of 601%N 600%N))|].
  eapply rtc_l; [apply (ps_admit cell_settings cells_admitted (sample_runtime 6 0) (provision_job_of 603%N 602%N))|].
  apply rtc_refl.
Defined.

Lemma cells_claimed_reachable : pool_reachable cell_settings claimed_out.2.
Proof.
  destruct cells_ready_reachable as (db0 & H0 & Hs). exists db0. split; [exact H0|].
  eapply rtc_r; [exact Hs|].
  apply (ps_claim cell_settings cells_ready (sample_runtime 10 700) "key" cell_ctx
           (cell_request (Some 900%N) "org") (seconds 70)).
Defined.

Definition claimed_answer : result ClaimAttempt ApiError :=
  Ok (CellClaimed claimed_lease (lease_token "key" claimed_lease)).

(** ** The theorems at these states *)

(** A repeated claim 900 names cell 600 again: it is the same lease. *)
Lemma cell_serves_one_claim_witness :
  claim_checks cell_settings (cell_request (Some 900%N) "org") = Ok "key" /\
  claimed_out = (claimed_answer, claimed_out.2) /\
  claimed_lease = claimed_lease /\
  (exists k, claim_id_key cell_ctx (cell_request (Some 900%N) "org") = Some k /\
             claim_id_key cell_ctx (cell_request (Some 900%N) "org") = Some k).
Proof.
  split; [vm_compute; reflexivity|]. split; [vm_compute; reflexivity|].
  destruct (cell_serves_one_claim cell_settings "key" (sample_runtime 10 700) cell_ctx
    (cell_request (Some 900%N) "org") (seconds 70) claimed_lease (lease_token "key" claimed_lease)
    cells_ready claimed_out.2 (sample_runtime 20 800) cell_ctx (cell_request (Some 900%N) "org")
    (seconds 80) claimed_lease (lease_token "key" claimed_lease) claimed_out.2 claimed_out.2
    cells_ready_reachable) as (Hl & _ & Hk & _);
    [vm_compute; reflexivity | vm_compute; reflexivity | vm_compute; reflexivity | apply rtc_refl
    | vm_compute; reflexivity | reflexivity |]. split; assumption.
Defined.

(** The same request replays the lease, another one is refused. *)
Lemma claim_id_is_answered_once_witness :
  exists c, sterile_cells claimed_out.2 !! 600%N = Some c /\
    (claim_cell_once (sample_runtime 20 800) cell_settings "key" cell_ctx
       (cell_request (Some 900%N) "other") (seconds 80) claimed_out.2).1
    = Err (conflict "claim_id was already used for a different sterile-cell claim").
Proof.
  destruct (claim_id_is_answered_once cell_settings "key" (sample_runtime 10 700) cell_ctx
    (cell_request (Some 900%N) "org") (seconds 70) claimed_lease (lease_token "key" claimed_lease)
    cells_ready claimed_out.2 claimed_out.2 (sample_runtime 20 800) (cell_request (Some 900%N) "other")
    (seconds 80) ("t", 900%N)) as (c & Hc & Ha);
    [vm_compute; reflexivity | reflexivity | reflexivity | vm_compute; reflexivity | apply rtc_refl |].
  exists c. split; [exact Hc|]. rewrite Ha. vm_compute. reflexivity.
Defined.

Definition protected_diagnosis : NoLeaseDiagnosis :=
  mkDiagnosis SterileCellNoLeaseReasonV1.ReadyFloorProtected (mkEvidence 1 1 0 0 1 1 0).

Definition protected_out : result ClaimAttempt ApiError * Db World :=
  claim_cell_once (sample_runtime 20 800) cell_settings "key" cell_ctx (cell_request (Some 901%N) "org")
    (seconds 80) claimed_out.2.

(** Claim 901 meets the ready floor, and keeps that answer. *)
Lemma empty_claim_is_final_witness :
  protected_out.1 = Ok (ClaimEmpty (Some protected_diagnosis)) /\
  (claim_cell_once (sample_runtime 30 900) cell_settings "key" cell_ctx (cell_request (Some 901%N) "org")
     (seconds 90) protected_out.2).1 = Ok (ClaimEmpty (Some protected_diagnosis)).
Proof.
  split; [vm_compute; reflexivity|].
  apply (empty_claim_is_final cell_settings "key" (sample_runtime 20 800) cell_ctx
    (cell_request (Some 901%N) "org") (seconds 80) protected_diagnosis claimed_out.2 protected_out.2
    protected_out.2 (sample_runtime 30 900) (seconds 90) ("t", 901%N));
    [exact evidence_round_trip | reflexivity | vm_compute; reflexivity | vm_compute; reflexivity | apply rtc_refl].
Defined.

Definition late_cell : SterileCellRow :=
  ready_cell 10%N 600%N (pool_member pool_config 600%N 601%N 3600 0) (seconds 3605) (seconds 5).

(** Claim 902 waited until second 100 for a lease to second 70. *)
Definition late_out : result ClaimAttempt ApiError * Db World :=
  claim_cell_once (sample_runtime 100 700) cell_settings "key" cell_ctx
    (cell_request (Some 902%N) "org") (seconds 70) cells_ready.

Lemma late_claim_is_lost_witness :
  select_cell cell_settings cell_ctx (cell_request (Some 902%N) "org") (seconds 70) cells_ready
    = Some (600%N, late_cell) /\
  sterile_cells late_out.2 !! 600%N = Some (cell_set_quarantined (seconds 100) late_cell) /\
  (claim_cell_once (sample_runtime 101 700) cell_settings "key" cell_ctx
     (cell_request (Some 902%N) "org") (seconds 170) late_out.2).1 = Ok (ClaimEmpty None).
Proof.
  assert (Hsel : select_cell cell_settings cell_ctx (cell_request (Some 902%N) "org") (seconds 70) cells_ready
    = Some (600%N, late_cell)) by (vm_compute; reflexivity).
  split; [exact Hsel|].
  destruct (late_claim_is_lost cell_settings "key" (sample_runtime 100 700) cell_ctx
    (cell_request (Some 902%N) "org") (seconds 70) 600%N late_cell cells_ready late_out.2 late_out.2
    (sample_runtime 101 700) (seconds 170) ("t", 902%N) (eq_refl _) (eq_refl _) Hsel) as (_ & Hq & Ha);
    [vm_compute; discriminate | reflexivity | apply rtc_refl |]. split; [exact Hq | exact Ha].
Defined.

Lemma pool_stays_within_target_witness :
  live_count pool_config (world cells_ready) = 2%Z /\
  (live_count pool_config (world cells_ready) <= Z.max (pool_target pool_config) 0)%Z.
Proof.
  split; [vm_compute; reflexivity|].
  apply (pool_stays_within_target cell_settings pool_config cells_ready (eq_refl _) cells_ready_reachable).
Defined.

Lemma claims_respect_ready_floor_witness :
  ready_count pool_config cells_ready = 2%Z /\ ready_count pool_config claimed_out.2 = 1%Z /\
  (Z.min (pool_ready_floor pool_config) (ready_count pool_config cells_ready)
   <= ready_count pool_config claimed_out.2)%Z.
Proof.
  split; [vm_compute; reflexivity|]. split; [vm_compute; reflexivity|].
  apply (claims_respect_ready_floor cell_settings pool_config "key" (sample_runtime 10 700) cell_ctx
    (cell_request (Some 900%N) "org") (seconds 70) cells_ready cells_ready_reachable (eq_refl _)).
  vm_compute. reflexivity.
Defined.

Lemma diagnosis_is_exact_witness :
  exists d, diagnose_no_lease (seconds 20) cell_settings cell_ctx (cell_request (Some 901%N) "org")
      (seconds 80) claimed_out.2 = Ok d /\ d = protected_diagnosis /\
    (evi_claimable_cells (nl_claimability d) = 0%Z <->
     select_cell cell_settings cell_ctx (cell_request (Some 901%N) "org") (seconds 80) claimed_out.2 = None).
Proof.
  destruct (diagnosis_is_exact cell_settings "key" cell_ctx (cell_request (Some 901%N) "org") (seconds 80)
    (seconds 20) claimed_out.2 cells_claimed_reachable) as (d & Hd & _ & Hz & _); [vm_compute; reflexivity|].
  exists d. split; [exact Hd|]. split; [|exact Hz].
  assert (Hp : diagnose_no_lease (seconds 20) cell_settings cell_ctx (cell_request (Some 901%N) "org")
      (seconds 80) claimed_out.2 = Ok protected_diagnosis) by (vm_compute; reflexivity).
  congruence.
Defined.
