(* ===== verification/ResidentSamples.v ===== *)
(** * Resident processes: a worked deployment

    A sandbox with a sidecar and an executor, admitted, claimed, observed and
    read through the handlers; a placement attestation issued and redeemed; a
    Maestro runner whose activation is validated.  The theorems on resident
    processes, handoffs, attestations and activations are applied to these
    states. *)

From S2P Require Import Prelude Text BootstrapStore CoreTypes LifecycleContract Json Store Leases SandboxLifecycle World.
From S2P Require Import CommandOutput Authz Scopes Claim SterilePool PoolController SterileCells Effects SandboxStop.
From S2P Require Import ResidentContract ResidentAttestations AttestationProofs MaestroActivations MaestroProofs.
From S2P Require Import BootstrapHandoff HandoffProofs ResidentProcesses ResidentHandlers ResidentProofs ResidentTheorems.
From S2P Require Import Cleanup Samples SterileCellSamples.
From stdpp Require Import pretty strings.

(** ** The libraries *)

Definition ZERO : Ascii.ascii := Ascii.ascii_of_N 48.
Definition ONE : Ascii.ascii := Ascii.ascii_of_N 49.

(** The binary digits of a number, and back. *)
Fixpoint bits (p : positive) : string :=
  match p with
  | xH => "1"
  | xO q => String ZERO (bits q)
  | xI q => String ONE (bits q)
  end.

Fixpoint of_bits (s : string) : option positive :=
  match s with
  | EmptyString => None
  | String a EmptyString => if Ascii.eqb a ONE then Some xH else None
  | String a s' => if Ascii.eqb a ONE then xI <$> of_bits s' else xO <$> of_bits s'
  end.

Lemma bits_nonempty p : exists a s, bits p = String a s.
Proof. destruct p; by eexists _, _. Qed.

Lemma of_bits_bits p : of_bits (bits p) = Some p.
Proof.
  induction p as [q IH|q IH|]; [| |done]; simpl; destruct (bits_nonempty q) as (a & s & E); rewrite E in *; by rewrite IH.
Qed.

Lemma bits_lack_bar p : lacks_bar (bits p).
Proof.
  unfold lacks_bar. induction p as [q IH|q IH|]; simpl; apply not_elem_of_cons; (split; [done|]); [done|done|apply not_elem_of_nil].
Qed.

Definition activation_code (a : SterileResidentActivationV1) : N * Z * string * string * string * string * string :=
  (sa_lease_id a, sa_generation a, sa_organization_id a, sa_workspace_id a, sa_thread_id a,
   sa_runner_session_id a, sa_lease_attestation a).

Definition code_activation (c : N * Z * string * string * string * string * string) : SterileResidentActivationV1 :=
  let '(l, g, o, w, t, r, s) := c in Build_SterileResidentActivationV1 l g o w t r s.

(** A cipher that stores the associated data before the message: it opens only
    under the data it was sealed with. *)
#[export] Instance handoff_example : HandoffLib := {|
  aead_encrypt _ _ msg aad := Some (N.of_nat (length (str_bytes aad)) :: str_bytes aad ++ msg);
  aead_decrypt _ _ c aad :=
    match c with
    | n :: rest => if bool_decide (n = N.of_nat (length (str_bytes aad))) && bool_decide (take (N.to_nat n) rest = str_bytes aad)
                   then Some (drop (N.to_nat n) rest) else None
    | [] => None
    end;
  base64_encode b := bits (encode b);
  base64_decode s := of_bits s ≫= decode;
  sha256_hex_bytes b := bits (encode b);
  payload_to_vec p := Some [Npos (encode (sp_content p, activation_code <$> sp_sterile_activation p))];
  payload_from_slice b :=
    match b with
    | [Npos p] => '(content, a) ← decode p; Some (mkSealedPayload content (code_activation <$> a))
    | _ => None
    end
|}.

Lemma str_bytes_inj s s' : str_bytes s = str_bytes s' -> s = s'.
Proof.
  unfold str_bytes. intros E. apply list_ascii_inj. revert E. generalize (String.list_ascii_of_string s').
  induction (String.list_ascii_of_string s) as [|a l IH]; intros [|b l']; simpl; try done. intros [= Hab Hl].
  f_equal; [|by apply IH]. by rewrite <-(Ascii.ascii_N_embedding a), <-(Ascii.ascii_N_embedding b), Hab.
Qed.

#[export] Instance handoff_example_laws : HandoffLaws.
Proof.
  split; simpl.
  - intros key nonce msg aad c [= <-]. rewrite Nat2N.id, take_app_length, drop_app_length, !bool_decide_eq_true_2 by done. done.
  - intros key nonce nonce' msg aad aad' c m [= <-] Hd. case_match eqn:E; [|done]. injection Hd as <-.
    apply andb_true_iff in E as [E1%bool_decide_eq_true E2%bool_decide_eq_true]. rewrite Nat2N.id in *.
    rewrite take_app_length in E2. rewrite drop_app_length. split; [by apply str_bytes_inj | done].
  - intros b. rewrite of_bits_bits. apply decode_encode.
  - intros [content a] b [= <-]. rewrite decode_encode. simpl. f_equal. f_equal. destruct a as [[]|]; done.
  - intros b. apply bits_lack_bar.
Qed.

#[export] Instance uuid_text_example : UuidTextLaws.
Proof. split; simpl; [intros u v E; by apply (inj pretty) in E | apply pretty_N_lacks_bar]. Qed.

(** Digests of 64 digits. *)
Fixpoint hash (acc : N) (bs : list N) : N :=
  match bs with [] => acc | b :: rest => hash ((acc * 257 + b + 1) mod (10 ^ 40))%N rest end.

Definition pad (n : nat) (s : string) : string :=
  String.substring (String.length s) n (String.concat "" (replicate n "0") ++ s)%string.

#[export] Instance digest_serde : SerdeLib := {|
  result_to_value := result_to_value;
  json_to_vec := json_to_vec;
  sha256_hex s := pad 64 (pretty (hash 7 (str_bytes s)));
  provision_spec_from_value := provision_spec_from_value;
  provision_spec_to_value := provision_spec_to_value;
  destination_from_value := destination_from_value;
  destination_to_value := destination_to_value
|}.

#[export] Instance attestation_example : AttestationLib := {|
  spiffe_uri segments := ("spiffe://identity.evalops.dev/" ++ String.concat "/" segments)%string;
  uuid_simple u := pad 32 (pretty u)
|}.

#[export] Instance base64url_example : Base64UrlLib := {|
  base64url_encode b := bits (encode b);
  base64url_decode s := of_bits s ≫= decode
|}.

(** ** The deployment *)

Definition image_pin : string := ("image@sha256:" ++ zero_digest)%string.

Definition resident_worker : Worker :=
  mkWorker 10%N "t" "w1" WorkerStatus.Registered "kubernetes" [WorkerCapability.RunCommand] 2%Z
    (list_to_map [(PROVIDER_ISOLATED_RESIDENT_PROCESS_VERSION_LABEL, PROVIDER_ISOLATED_RESIDENT_PROCESS_VERSION_LABEL_VALUE);
                  (PROVIDER_ISOLATED_RESIDENT_PROCESS_IMAGE_LABEL, image_pin);
                  (MAESTRO_HOSTED_RUNNER_IMAGE_LABEL, image_pin); ("provider_mode", "apply");
                  ("sandbox_namespace", "ns")])
    None 0%Z None.

Definition resident_sandbox : Sandbox :=
  mkSandbox 500%N "t" "box" SandboxState.Running "image" MemoryLimit.OneG DenyAll WorkspaceMode.Persistent
    SandboxRuntimeProfile.Unprivileged ExecutionClass.SandboxedContainer 0 0 None None None None None.

Definition residents_start : Db World :=
  mkDb ∅ ∅ {[ 10%N := mkWorkerRow resident_worker "hash" 0%Z 0%Z ]} ∅ ∅
    {[ 500%N := mkPlacementRow 10%N "kubernetes" None 1 0 0 ]} ∅ ∅ ∅ ∅ ∅
    (set_sandboxes {[ 500%N := resident_sandbox ]} empty_world).

Definition sample_handoff : SharedBootstrapHandoff := mkSharedHandoff [1%N; 2%N] (seconds 600).
Definition sample_nonce : list N := replicate NONCE_BYTES 9%N.

Definition resident_settings : ResidentSettings := mkResidentSettings false (Some "akey") (Some sample_handoff).

Definition tenant_ctx : TenantContext := mkTenantContext "t" PrincipalTenant.
Definition guest_ctx : TenantContext := mkTenantContext "t" (PrincipalGuest 10%N 500%N).
Definition worker_ctx : TenantContext := mkTenantContext "t" (PrincipalWorker 10%N).

Definition secret : list N := [115; 101; 99]%N.

Definition resident_request (path : string) : ResidentProcessRequest :=
  mkResidentRequest ["run"] None [] ResidentProcessRestartPolicy.Never 0 false
    (Some (mkResidentBootstrap secret path MODE_0400)) None.

Definition sidecar_request : ResidentProcessRequest := resident_request "/run/sandboxwich/bootstrap/sidecar".
Definition executor_request : ResidentProcessRequest := resident_request "/run/sandboxwich/bootstrap/executor".

Definition plan_of (rt : Runtime) (name : string) (q : ResidentProcessRequest) (db : Db World) : option PutPlan :=
  match decide_put rt resident_settings tenant_ctx 500%N name q db with
  | Ok (PutPlanned plan) => Some plan
  | _ => None
  end.

(** The sidecar is process 800 with job 801, the executor process 810 with job
    811. *)
Definition sidecar_rt : Runtime := sample_runtime 10 800.
Definition executor_rt : Runtime := sample_runtime 11 810.

Definition put_all : ResidentState :=
  let st := mkResidentState residents_start (with_capacity 8) in
  let st := (put_resident_process sidecar_rt resident_settings tenant_ctx sample_nonce 500%N
               ORB_SIDECAR_RESIDENT_PROCESS_NAME sidecar_request st).2 in
  (put_resident_process executor_rt resident_settings tenant_ctx sample_nonce 500%N
     ORB_EXECUTOR_RESIDENT_PROCESS_NAME executor_request st).2.

Example both_are_admitted :
  (fun kr => (kr.1, rp_name kr.2, rp_generation kr.2)) <$> map_to_list (resident_processes (rst_db put_all))
  = [(810%N, "orb-executor", 1%Z); (800%N, "orb-sidecar", 1%Z)].
Proof. vm_compute. reflexivity. Qed.

(** *** Claims

    Leases 900 and 910, as [try_claim_job] grants them. *)

Definition lease_row_of (job : Uuid) : LeaseRow :=
  mkLeaseRow job 10%N LeaseStatus.Active 1 (seconds 20) (seconds 1000) None None None None None.

Definition with_lease (lease job : Uuid) (db : Db World) : Db World :=
  set_job_leases (<[lease := lease_row_of job]> (job_leases db)) db.

Definition granted (lease : Uuid) (db : Db World) : option JobLease :=
  match fetch_lease db lease with Ok l => Some l | Err _ => None end.

Definition claim_run (lease job : Uuid) (db : Db World) : Db World :=
  let db := with_lease lease job db in
  match granted lease db with
  | Some l => (run_tx (start_resident_process l (seconds 20)) db).2
  | None => db
  end.

Definition claimed_db : Db World := claim_run 910%N 811%N (claim_run 900%N 801%N (rst_db put_all)).

(** The sidecar's worker reads its bootstrap and attestation, then reports it
    running in its pod. *)
Definition sidecar_digest : string := content_digest secret.

Definition read_request (lease : Uuid) : ResidentProcessBootstrapReadRequest := mkReadRequest 1 lease sidecar_digest.

Definition sidecar_read : result (LiveResidentBootstrap * option string) ApiError * ResidentState :=
  read_resident_process_bootstrap (sample_runtime 30 820) resident_settings worker_ctx 800%N (read_request 900%N)
    (mkResidentState claimed_db (rst_store put_all)).

Definition running_observation : ResidentProcessObservationRequest :=
  mkObservationRequest 1 900%N ResidentProcessObservedState.Running (Some 7%Z) None None None (Some "pod-1") (Some "77").

Definition sidecar_observed : result ResidentRow ApiError * ResidentState :=
  observe_resident_process (sample_runtime 40 830) resident_settings worker_ctx 800%N running_observation sidecar_read.2.

Definition executor_read_before : result (LiveResidentBootstrap * option string) ApiError * ResidentState :=
  read_resident_process_bootstrap (sample_runtime 35 840) resident_settings guest_ctx 810%N (read_request 910%N)
    sidecar_read.2.

Definition executor_read : result (LiveResidentBootstrap * option string) ApiError * ResidentState :=
  read_resident_process_bootstrap (sample_runtime 50 840) resident_settings guest_ctx 810%N (read_request 910%N)
    sidecar_observed.2.

Definition read_bytes (r : result (LiveResidentBootstrap * option string) ApiError) : option (list N * bool) :=
  match r with Ok (b, att) => Some (lb_content b, is_some att) | Err _ => None end.

(** The sidecar gets its bytes with an attestation; the executor is refused
    until the sidecar runs. *)
Example the_executor_waits_for_the_sidecar :
  read_bytes sidecar_read.1 = Some (secret, true) /\
  executor_read_before.1 =
    Err (service_unavailable "resident_sidecar_unavailable"
           (block_message 500%N "requires an orb-sidecar resident process but it is Starting, not running")) /\
  read_bytes executor_read.1 = Some (secret, false).
Proof. vm_compute. auto. Qed.

(** ** Reaching these states *)

Lemma claim_run_steps settings lease job db used :
  rtc (resident_step settings) (db, used) (claim_run lease job db, used).
Proof.
  eapply rtc_l; [by apply (same_residents_step settings db (with_lease lease job db) used)|].
  apply rtc_once. apply rs_other. unfold claim_run. destruct (granted lease _) as [l|];
    [|intros id r' Hr; exists r'; split; [done | apply delivery_kept_refl]].
  apply run_tx_cases; [intros id r' Hr; exists r'; split; [done | apply delivery_kept_refl]|].
  intros u db' Hc. by eapply start_resident_kept.
Qed.

Lemma generation_width_check (db : Db World) :
  forallb (fun kr => (rp_generation kr.2 <=? i64_max)%Z) (map_to_list (resident_processes db)) = true ->
  generation_width db.
Proof.
  intros Hf id r Hr. rewrite forallb_forall in Hf. apply elem_of_map_to_list, list_elem_of_In, Hf in Hr.
  by apply Z.leb_le in Hr.
Qed.

Lemma put_all_reachable : exists used, resident_reachable resident_settings (rst_db put_all, used).
Proof.
  unfold put_all. set (st0 := mkResidentState residents_start (with_capacity 8)). cbv zeta.
  set (st1 := (put_resident_process sidecar_rt _ _ _ _ _ _ st0).2).
  destruct (put_steps resident_settings sidecar_rt tenant_ctx sample_nonce 500%N ORB_SIDECAR_RESIDENT_PROCESS_NAME
              sidecar_request st0 ∅) as (used1 & Hu1 & Hs1); [set_solver | apply map_Forall_empty |].
  destruct (put_steps resident_settings executor_rt tenant_ctx sample_nonce 500%N ORB_EXECUTOR_RESIDENT_PROCESS_NAME
              executor_request st1 used1) as (used2 & Hu2 & Hs2).
  - intros Hin%Hu1. change (new_uuid executor_rt 0) with 810%N in Hin. change (new_uuid sidecar_rt 0) with 800%N in Hin.
    set_solver.
  - apply generation_width_check. vm_compute. reflexivity.
  - exists used2, residents_start. split; [done|]. by etrans.
Qed.

Lemma claimed_reachable : exists used, resident_reachable resident_settings (claimed_db, used).
Proof.
  destruct put_all_reachable as (used & db0 & He & Hs). exists used, db0. split; [done|].
  etrans; [exact Hs|]. etrans; apply claim_run_steps.
Qed.

#[local] Strategy expand [sidecar_read sidecar_observed executor_read].

Lemma observed_reachable : exists used, resident_reachable resident_settings (rst_db sidecar_observed.2, used).
Proof.
  destruct claimed_reachable as (used & db0 & He & Hs). exists used, db0. split; [done|].
  pose proof (read_steps resident_settings (sample_runtime 30 820) worker_ctx 800%N (read_request 900%N)
                (mkResidentState claimed_db (rst_store put_all)) used) as Hread.
  pose proof (observe_steps resident_settings (sample_runtime 40 830) worker_ctx 800%N running_observation
                sidecar_read.2 used) as Hobserve.
  exact (transitivity Hs (transitivity Hread Hobserve)).
Qed.

(** ** Witnesses *)

(** The states are evaluated by the virtual machine only. *)
#[local] Strategy opaque [put_all claimed_db sidecar_read sidecar_observed executor_read].

Definition sidecar_fence : ResidentBootstrapFence := read_fence (read_request 900%N).

(** The sidecar's consume statement at a second. *)
Definition sidecar_consume (t : Z) (db : Db World) : result (bool * Db World) ApiError :=
  consume_bootstrap (seconds t) "t" 500%N 800%N sidecar_fence db.

Definition after_consume (t : Z) (db : Db World) : Db World :=
  match sidecar_consume t db with Ok (_, db') => db' | Err _ => db end.

Definition matched (r : result (bool * Db World) ApiError) : bool := match r with Ok (b, _) => b | Err _ => false end.

Lemma matched_ok t db : matched (sidecar_consume t db) = true -> sidecar_consume t db = Ok (true, after_consume t db).
Proof. unfold after_consume. by destruct (sidecar_consume t db) as [[[] db']|]. Qed.

Lemma consumed_twice : exists db1 db2,
  sidecar_consume 30 claimed_db = Ok (true, db1) /\ sidecar_consume 31 db1 = Ok (true, db2).
Proof.
  exists (after_consume 30 claimed_db), (after_consume 31 (after_consume 30 claimed_db)).
  split; apply matched_ok; vm_compute; reflexivity.
Qed.

Lemma bootstrap_has_one_holder_witness :
  exists used db1 db2, resident_reachable resident_settings (claimed_db, used) /\
    sidecar_consume 30 claimed_db = Ok (true, db1) /\ sidecar_consume 31 db1 = Ok (true, db2) /\
    sidecar_fence = sidecar_fence.
Proof.
  destruct claimed_reachable as [used Hr]. destruct consumed_twice as (db1 & db2 & H1 & H2).
  exists used, db1, db2. split; [exact Hr|]. split; [exact H1|]. split; [exact H2|].
  exact (bootstrap_has_one_holder resident_settings (claimed_db, used) (db1, used)
           (seconds 30) (seconds 31) "t" "t" 500%N 500%N 800%N sidecar_fence sidecar_fence
           db1 db2 Hr H1 (rtc_refl _ _) H2 eq_refl).
Defined.

Definition acknowledged (db : Db World) (id : Uuid) : bool :=
  match resident_processes db !! id with
  | Some r => is_some (rp_bootstrap_acknowledged_at r) && (rp_generation r =? 1)%Z
  | None => false
  end.

Lemma acknowledged_row db id : acknowledged db id = true ->
  exists r, resident_processes db !! id = Some r /\ is_Some (rp_bootstrap_acknowledged_at r) /\ rp_generation r = 1%Z.
Proof.
  unfold acknowledged. destruct (resident_processes db !! id) as [r|]; [|done]. rewrite andb_true_iff, Z.eqb_eq.
  intros [Ha Hg]. exists r. split_and!; [done| |done]. by destruct (rp_bootstrap_acknowledged_at r).
Qed.

Lemma sidecar_acknowledged : acknowledged (rst_db sidecar_observed.2) 800%N = true.
Proof. vm_compute. reflexivity. Qed.

Lemma acknowledged_bootstrap_is_gone_witness :
  exists used, resident_reachable resident_settings (rst_db sidecar_observed.2, used) /\
    forall db', sidecar_consume 60 (rst_db sidecar_observed.2) <> Ok (true, db').
Proof.
  destruct observed_reachable as [used Hr]. exists used. split; [exact Hr|]. intros db'.
  destruct (acknowledged_row _ _ sidecar_acknowledged) as (r & E & Ha & Hg).
  exact (acknowledged_bootstrap_is_gone resident_settings (rst_db sidecar_observed.2, used) (rst_db sidecar_observed.2, used)
           800%N r (seconds 60) "t" 500%N sidecar_fence db' Hr E Ha (rtc_refl _ _) (eq_sym Hg)).
Defined.

Lemma sidecar_row_there : is_Some (resident_processes claimed_db !! 800%N).
Proof. apply (bool_decide_unpack _). vm_compute. exact I. Qed.

Lemma stored_specs_well_formed_witness :
  exists used r, resident_reachable resident_settings (claimed_db, used) /\
    resident_processes claimed_db !! 800%N = Some r /\ row_wf r.
Proof.
  destruct claimed_reachable as [used Hr]. destruct sidecar_row_there as [r E].
  exists used, r. split; [exact Hr|]. split; [exact E|].
  exact (stored_specs_well_formed resident_settings (claimed_db, used) 800%N r Hr E).
Defined.

(** The sidecar's row passes the checks [sidecar_is_ours] asks for. *)
Definition sidecar_check (db : Db World) : bool :=
  match find_named db 500%N ORB_SIDECAR_RESIDENT_PROCESS_NAME with
  | Some (_, r) => String.eqb (rp_tenant_id r) "t" && (0 <=? rp_generation r)%Z
                   && match row_to_resident_process r with Ok _ => true | Err _ => false end
                   && bool_decide (try_u32 (rp_provider_isolation_version r) = Some (rp_provider_isolation_version r))
  | None => false
  end.

Lemma sidecar_check_ours db : sidecar_check db = true -> sidecar_is_ours db 500%N "t".
Proof.
  intros Hc id r Hf. unfold sidecar_check in Hc. rewrite Hf in Hc.
  apply andb_true_iff in Hc as [Hc Hv%bool_decide_eq_true]. apply andb_true_iff in Hc as [Hc Hr].
  apply andb_true_iff in Hc as [Ht%String.eqb_eq _]. split_and!; [done| |done].
  destruct (row_to_resident_process r) as [r'|] eqn:E; [|done]. by apply row_to_resident_ok in E as [-> _].
Qed.

Lemma sidecar_ours : sidecar_is_ours (rst_db sidecar_observed.2) 500%N "t".
Proof. apply sidecar_check_ours. vm_compute. reflexivity. Qed.

Lemma sidecar_gates_agree_witness :
  exists used, resident_reachable resident_settings (rst_db sidecar_observed.2, used) /\
    sidecar_clause (seconds 50) (rst_db sidecar_observed.2) 500%N "t" ORB_EXECUTOR_RESIDENT_PROCESS_NAME
    = executor_sidecar_is_ready_for_claim (seconds 50) (rst_db sidecar_observed.2) 500%N "t".
Proof.
  destruct observed_reachable as [used Hr]. exists used. split; [exact Hr|].
  exact (proj1 (sidecar_gates_agree resident_settings (rst_db sidecar_observed.2, used) (sample_runtime 50 0) 500%N "t"
                  Hr sidecar_ours)).
Defined.

Lemma read_bytes_ok (x : result (LiveResidentBootstrap * option string) ApiError * ResidentState) :
  is_some (read_bytes x.1) = true -> exists b att st', x = (Ok (b, att), st').
Proof. destruct x as [[[b att]|e] st']; [by eexists _, _, _ | done]. Qed.

Lemma executor_reads : exists b att st',
  read_resident_process_bootstrap (sample_runtime 50 840) resident_settings guest_ctx 810%N (read_request 910%N)
    sidecar_observed.2 = (Ok (b, att), st').
Proof. apply read_bytes_ok. vm_compute. reflexivity. Qed.

Lemma read_credential_is_current_witness :
  exists b r, resident_processes (rst_db sidecar_observed.2) !! 810%N = Some r /\ rp_bootstrap_sha256 r = Some (lb_sha256 b).
Proof.
  destruct executor_reads as (b & att & st' & E).
  destruct (read_credential_is_current (sample_runtime 50 840) resident_settings guest_ctx 810%N (read_request 910%N)
              sidecar_observed.2 b att st' E) as (r & lease & Hr & _ & _ & _ & _ & _ & _ & _ & Hsha & _).
  exists b, r. split; [exact Hr | exact Hsha].
Defined.

(** *** The shared handoff *)

Definition sealed_bootstrap : LiveResidentBootstrap :=
  {| lb_tenant_id := "t"; lb_content := secret; lb_sha256 := content_digest secret;
     lb_target_file := "/run/sandboxwich/bootstrap/sidecar"; lb_mode := MODE_0400; lb_generation := 1;
     lb_sterile_activation := None |}.

Lemma sealed_bootstrap_sealable : sealable sealed_bootstrap.
Proof. split; [reflexivity | unfold i64_max; simpl; lia | reflexivity]. Qed.

Lemma sealed_row_some : exists row, sealed_row sample_handoff sample_nonce 800%N 500%N sealed_bootstrap (seconds 10) = Some row.
Proof. eexists. reflexivity. Qed.

(** A table with the sealed row, beside a resident without a sterile lease. *)
Definition handoff_db (row : HandoffRow) : Db World :=
  set_world (set_resident_bootstrap_handoffs {[ 800%N := row ]} (world (rst_db put_all))) (rst_db put_all).

Lemma handoff_fence row : activation_matches_durable_fence (handoff_db row) 800%N 500%N None (seconds 20) = true.
Proof. vm_compute. reflexivity. Qed.

Lemma handoff_lookup row : resident_bootstrap_handoffs (world (handoff_db row)) !! 800%N = Some row.
Proof. apply lookup_singleton_eq. Qed.

Lemma published_bootstrap_is_recovered_witness :
  exists row, sealed_row sample_handoff sample_nonce 800%N 500%N sealed_bootstrap (seconds 10) = Some row /\
    load sample_handoff (handoff_db row) 800%N 500%N (seconds 20) (seconds 20) = Some sealed_bootstrap.
Proof.
  destruct sealed_row_some as [row Hrow]. exists row. split; [exact Hrow|].
  apply (published_bootstrap_is_recovered sample_handoff sample_nonce 800%N 500%N sealed_bootstrap (seconds 10) row
           (handoff_db row) (seconds 20) (seconds 20)).
  - reflexivity.
  - apply sealed_bootstrap_sealable.
  - exact Hrow.
  - apply handoff_lookup.
  - vm_compute. reflexivity.
  - apply handoff_fence.
Defined.

Lemma sealed_row_loads : exists row,
  sealed_row sample_handoff sample_nonce 800%N 500%N sealed_bootstrap (seconds 10) = Some row /\
  load sample_handoff (handoff_db row) 800%N 500%N (seconds 20) (seconds 20) = Some sealed_bootstrap.
Proof. eexists. split; [reflexivity|]. vm_compute. reflexivity. Qed.

Lemma sealed_bootstrap_is_bound_witness :
  exists row b', sealed_row sample_handoff sample_nonce 800%N 500%N sealed_bootstrap (seconds 10) = Some row /\
    load sample_handoff (handoff_db row) 800%N 500%N (seconds 20) (seconds 20) = Some b' /\ lb_content b' = secret.
Proof.
  destruct sealed_row_loads as (row & Hrow & Hl).
  exists row, sealed_bootstrap. split; [exact Hrow|]. split; [exact Hl|].
  destruct (sealed_bootstrap_is_bound sample_handoff sample_nonce 800%N 500%N sealed_bootstrap (seconds 10) row (handoff_db row)
              800%N 500%N sealed_bootstrap row (seconds 20) (seconds 20) sealed_bootstrap_sealable Hrow (handoff_lookup row)
              eq_refl Hl) as (_ & _ & _ & _ & _ & Hc & _).
  exact Hc.
Defined.

(** *** A placement proof, redeemed twice under its key *)

Definition unattested_db : Db World :=
  let db := rst_db sidecar_observed.2 in
  set_world (set_resident_placement_attestations ∅ (world db)) db.

Definition proof_issued : result (option string) ApiError * Db World :=
  issue_resident_placement_attestation (sample_runtime 45 850) (Some "akey") "t" 500%N 800%N 1 900%N unattested_db.

Definition issued_state : AState := mkAState proof_issued.2 ({[850%N]} ∪ ∅) ∅.

Lemma issue_is_reachable rt key tenant sb p g l db : attestations db = ∅ ->
  attestation_reachable (mkAState (issue_resident_placement_attestation rt key tenant sb p g l db).2 ({[new_uuid rt 0]} ∪ ∅) ∅).
Proof.
  intros He. exists db. split; [exact He|]. apply rtc_once.
  apply (as_issue (mkAState db ∅ ∅) rt key tenant sb p g l). apply not_elem_of_empty.
Qed.

#[local] Strategy expand [issued_state proof_issued].

Lemma issued_reachable : attestation_reachable issued_state.
Proof. exact (issue_is_reachable (sample_runtime 45 850) (Some "akey") "t" 500%N 800%N 1 900%N unattested_db eq_refl). Qed.

#[local] Strategy opaque [unattested_db issued_state proof_issued].

Definition redeem_request : RedeemRequest :=
  mkRedeemRequest (match proof_issued.1 with Ok (Some t) => t | _ => "" end) 77%N.

Definition record_of (x : result AttestationRecord ApiError) : AttestationRecord :=
  match x with
  | Ok r => r
  | Err _ => mkAttestationRecord 0%N "" 0%N 0%N 0 0%N (mkPlacementFence 0 0%N 0%N 0 "" "" 0 0 None None) 0 0 "" None None
  end.

Lemma record_of_ok x : is_ok x = true -> x = Ok (record_of x).
Proof. by destruct x. Qed.

Definition checks_at (t : Z) (s : AState) : result AttestationRecord ApiError :=
  redeem_checks (seconds t) (Some "akey") "t" redeem_request (as_db s).

Definition redeemed_state : AState :=
  after_settle (seconds 51) "t" redeem_request (record_of (checks_at 50 issued_state)) issued_state.

(** The first redemption consumes the proof, the second one repeats it. *)
Lemma redeemed_twice :
  checks_at 50 issued_state = Ok (record_of (checks_at 50 issued_state)) /\
  (settle_redemption (seconds 51) "t" redeem_request (record_of (checks_at 50 issued_state)) (as_db issued_state)).1 = Ok tt /\
  checks_at 60 redeemed_state = Ok (record_of (checks_at 60 redeemed_state)) /\
  (settle_redemption (seconds 61) "t" redeem_request (record_of (checks_at 60 redeemed_state)) (as_db redeemed_state)).1 = Ok tt /\
  rec_id (record_of (checks_at 60 redeemed_state)) = rec_id (record_of (checks_at 50 issued_state)).
Proof. split_and!; try apply record_of_ok; vm_compute; reflexivity. Qed.

Lemma redeemed_reachable : attestation_reachable redeemed_state.
Proof.
  destruct issued_reachable as (db0 & He & Hs). exists db0. split; [exact He|].
  exact (transitivity Hs (after_settle_steps (seconds 51) "t" redeem_request (record_of (checks_at 50 issued_state)) issued_state)).
Qed.

#[local] Strategy expand [redeemed_state checks_at].

Lemma redemption_sample : exists s r t r',
  attestation_reachable s /\ redeem_checks (seconds 50) (Some "akey") "t" redeem_request (as_db s) = Ok r /\
  (settle_redemption (seconds 51) "t" redeem_request r (as_db s)).1 = Ok tt /\
  attestation_reachable t /\ redeem_checks (seconds 60) (Some "akey") "t" redeem_request (as_db t) = Ok r' /\
  (settle_redemption (seconds 61) "t" redeem_request r' (as_db t)).1 = Ok tt /\
  t = after_settle (seconds 51) "t" redeem_request r s /\ rec_id r' = rec_id r.
Proof.
  destruct redeemed_twice as (H1 & H2 & H3 & H4 & H5).
  exists issued_state, (record_of (checks_at 50 issued_state)), redeemed_state, (record_of (checks_at 60 redeemed_state)).
  split; [exact issued_reachable|]. split; [exact H1|]. split; [exact H2|]. split; [exact redeemed_reachable|].
  split; [exact H3|]. split; [exact H4|]. split; [reflexivity | exact H5].
Qed.

Lemma proof_redeemed_for_one_key_witness :
  exists s r, attestation_reachable s /\ redeem_checks (seconds 50) (Some "akey") "t" redeem_request (as_db s) = Ok r /\
    rdm_idempotency_key redeem_request = rdm_idempotency_key redeem_request.
Proof.
  destruct redemption_sample as (s & r & t & r' & Hs & Hk & Hok & Ht & Hk' & Hok' & Heq & Hid).
  exists s, r. split; [exact Hs|]. split; [exact Hk|]. subst t.
  exact (proof_redeemed_for_one_key s s _ _ (seconds 50) (seconds 51) (seconds 60) (seconds 61) (Some "akey") (Some "akey")
           "t" "t" redeem_request redeem_request r r' Hs Hk (rtc_refl _ _) Hok Ht Hk' (rtc_refl _ _) Hok' (rtc_refl _ _) Hid).
Defined.

(** *** A Maestro activation *)

#[export] Instance activation_example : ActivationLib := {|
  activation_to_vec q :=
    nul_joined [pretty (act_activation_id q); act_organization_id q; act_workspace_id q; pretty (act_sandbox_id q);
                z_text (act_placement_generation q); act_runner_session_id q; act_service_host q;
                z_text (act_lease_expires_at_epoch_seconds q)];
  proof_tuple_to_vec t := nul_joined [pretty (pt_resident_process_id t); pretty (pt_job_id t); pt_runtime_image t]
|}.

Definition maestro_spec : ResidentSpec :=
  mkResidentSpec MAESTRO_ARGV (Some "/workspace")
    [("MAESTRO_ORGANIZATION_ID", "org"); ("MAESTRO_PLACEMENT_GENERATION", "1"); ("MAESTRO_RUNNER_SESSION_ID", "session");
     ("MAESTRO_SANDBOX_ID", "500"); ("MAESTRO_WORKSPACE_ID", "ws")]
    None None None ResidentProcessRestartPolicy.Never.

Definition maestro_resident : ResidentRow :=
  mkResidentRow 500%N "t" MAESTRO_HOSTED_RUNNER_RESIDENT_PROCESS_NAME 1 ResidentProcessDesiredState.Running
    ResidentProcessObservedState.Running (Some 900%N) (Some 7%Z) None None None None None (Some "pod-1") (Some "77") 0
    None None None None None None None None 2 maestro_spec None None None 0.

Definition maestro_job : Job :=
  mkJob 801%N "t" JobKind.RunResidentProcess JobStatus.Leased
    (JObject [("residentProcessId", JString "800"); ("generation", JNumber (PosInt 1))]) WorkerCapability.RunCommand
    ExecutionClass.SandboxedContainer 100 1 3 0 0 0 None.

(** The runner with its lease until a given second. *)
Definition maestro_db (expires : Z) : Db World :=
  set_resident_processes {[ 800%N := maestro_resident ]}
    (set_job_leases {[ 900%N := mkLeaseRow 801%N 10%N LeaseStatus.Active 1 0 (seconds expires) None None None None None ]}
       (set_jobs {[ 801%N := mkJobRow maestro_job no_references None None ]} residents_start)).

Definition identity_request : IdentityRequest :=
  mkIdentityRequest 60%N "org" "ws" 500%N 77%N 1 "session" zero_digest
    (maestro_hosted_runner_service_name 800%N 1 900%N) MAESTRO_HOSTED_RUNNER_CONTAINER_PORT 1 900%N 1 10%N.

Definition first_validation : result (MaestroBinding * ActivationProof) ApiError * Db World :=
  validate_maestro_activation_identity_inner (sample_runtime 30 0) "t" 500%N identity_request (maestro_db 1000).

(** The lease is renewed: only its deadline changes. *)
Definition renewed_db : Db World :=
  let db := first_validation.2 in set_job_leases (job_leases (maestro_db 2000)) db.

Definition binding_at (t : Z) (db : Db World) : result MaestroBinding ApiError :=
  authoritative_maestro_connection_binding (seconds t) db "t" 500%N.

Definition accepted_flag (x : result (MaestroBinding * ActivationProof) ApiError) : option bool :=
  match x with Ok (_, p) => Some (ap_replayed p) | Err _ => None end.

Example identity_is_accepted_and_replayed :
  accepted_flag first_validation.1 = Some false /\
  accepted_flag (validate_maestro_activation_identity_inner (sample_runtime 31 0) "t" 500%N identity_request first_validation.2).1
    = Some true.
Proof. vm_compute. auto. Qed.

Lemma validation_ok (x : result (MaestroBinding * ActivationProof) ApiError * Db World) :
  is_some (accepted_flag x.1) = true -> exists live p, x = (Ok (live, p), x.2).
Proof. destruct x as [[[live p]|e] db]; [by eexists _, _ | done]. Qed.

Lemma first_accepted : exists live p,
  validate_maestro_activation_identity_inner (sample_runtime 30 0) "t" 500%N identity_request (maestro_db 1000)
  = (Ok (live, p), first_validation.2).
Proof. apply validation_ok. vm_compute. reflexivity. Qed.

(** Another sandbox is cleaned up before the request is repeated. *)
Definition cleaned_db : Db World := cascade 999%N first_validation.2.

Lemma second_accepted : exists live p,
  validate_maestro_activation_identity_inner (sample_runtime 31 0) "t" 500%N identity_request cleaned_db
  = (Ok (live, p), (validate_maestro_activation_identity_inner (sample_runtime 31 0) "t" 500%N identity_request cleaned_db).2).
Proof. apply validation_ok. vm_compute. reflexivity. Qed.

Lemma validation_names_its_sandbox row :
  maestro_activation_validations (world first_validation.2) !! ("t", 60%N) = Some row -> av_sandbox_id row <> 999%N.
Proof.
  intros Hrow. assert (Hs : av_sandbox_id <$> maestro_activation_validations (world first_validation.2) !! ("t", 60%N)
    = Some 500%N) by (vm_compute; reflexivity). rewrite Hrow in Hs. by injection Hs as ->.
Qed.

Lemma activation_is_bound_witness :
  exists live p p', validate_maestro_activation_identity_inner (sample_runtime 30 0) "t" 500%N identity_request (maestro_db 1000)
      = (Ok (live, p), first_validation.2) /\
    ap_tuple_sha256 p' = ap_tuple_sha256 p /\ ap_validated_at p' = ap_validated_at p /\ ap_replayed p' = true.
Proof.
  destruct first_accepted as (live & p & H1). destruct second_accepted as (live' & p' & H2).
  exists live, p, p'. split; [exact H1|].
  exact (proj1 (activation_is_bound (sample_runtime 30 0) (sample_runtime 31 0) "t" 500%N 500%N
           (CallIdentity identity_request) (CallIdentity identity_request) (maestro_db 1000) p first_validation.2
           cleaned_db p' _ (ex_intro _ live H1)
           (rtc_once _ _ (activity_deletes _ _ _ validation_names_its_sandbox)) (ex_intro _ live' H2) eq_refl)).
Defined.

Lemma proof_is_of_live_binding_witness :
  exists live, binding_at 30 (maestro_db 1000) = Ok live /\ identity_matches identity_request live = true.
Proof.
  destruct first_accepted as (live & p & H1).
  destruct (proof_is_of_live_binding (sample_runtime 30 0) "t" 500%N (CallIdentity identity_request) (maestro_db 1000) p
              first_validation.2 (ex_intro _ live H1)) as (live' & Hl & _ & Hm).
  exists live'. split; [exact Hl | exact Hm].
Defined.

(** The binding at a second, when there is one. *)
Definition binding_of (x : result MaestroBinding ApiError) : MaestroBinding :=
  match x with Ok b => b | Err _ => mkMaestroBinding "" "" 0%N 0%N 0 "" "" None "" "" "" 0 "" 0 0%N 0 0 0%N end.

Lemma binding_of_ok x : is_ok x = true -> x = Ok (binding_of x).
Proof. by destruct x. Qed.

Definition tuple_at (b : MaestroBinding) : string :=
  tuple_sha256 (validation_request_from_binding (idr_activation_id identity_request) b).

Lemma is_Some_of {A} (x : option A) : is_some x = true -> is_Some x.
Proof. destruct x; [by eexists | done]. Qed.

Lemma renewed_placed : is_Some (sandbox_placements renewed_db !! 500%N).
Proof. apply is_Some_of. vm_compute. reflexivity. Qed.

Lemma renewed_one_maestro :
  length (List.filter (is_maestro_of 500%N "t") (map_to_list (resident_processes renewed_db))) = 1%nat.
Proof. vm_compute. reflexivity. Qed.

Lemma renewed_binding : binding_at 40 renewed_db = Ok (binding_of (binding_at 40 renewed_db)).
Proof. apply binding_of_ok. vm_compute. reflexivity. Qed.

Lemma renewed_identity : identity_matches identity_request (binding_of (binding_at 40 renewed_db)) = true.
Proof. vm_compute. reflexivity. Qed.

Lemma renewed_tuple :
  String.eqb (tuple_at (binding_of (binding_at 40 renewed_db))) (tuple_at (binding_of (binding_at 30 (maestro_db 1000)))) = false.
Proof. vm_compute. reflexivity. Qed.

Lemma binding_of_Ok x live : x = Ok live -> live = binding_of x.
Proof. by intros ->. Qed.

Lemma renewal_sample : exists live p live',
  validate_maestro_activation_identity_inner (sample_runtime 30 0) "t" 500%N identity_request (maestro_db 1000)
    = (Ok (live, p), first_validation.2) /\
  binding_at 40 renewed_db = Ok live' /\ identity_matches identity_request live' = true /\ tuple_at live' <> tuple_at live.
Proof.
  destruct first_accepted as (live & p & H1). exists live, p, (binding_of (binding_at 40 renewed_db)).
  destruct (identity_accepted _ _ _ _ _ _ _ _ H1) as (_ & _ & Hl & _).
  split; [exact H1 | split; [exact renewed_binding | split; [exact renewed_identity|]]].
  rewrite (binding_of_Ok _ _ Hl). exact (proj1 (String.eqb_neq _ _) renewed_tuple).
Qed.

Lemma renewal_keeps : validations_kept first_validation.2 renewed_db.
Proof. intros k v Hv. exact Hv. Qed.

Lemma identity_replay_lost_on_renewal_witness :
  validate_maestro_activation_identity_inner (sample_runtime 40 0) "t" 500%N identity_request renewed_db
  = (Err replay_mismatch, renewed_db).
Proof.
  destruct renewal_sample as (live & p & live' & H1 & Hl & Hm & Hne).
  exact (identity_replay_lost_on_renewal (sample_runtime 30 0) (sample_runtime 40 0) "t" 500%N identity_request
           (maestro_db 1000) live p first_validation.2 renewed_db live' H1 renewal_keeps renewed_placed renewed_one_maestro
           Hl Hm Hne).
Defined.
