(* ===== verification/Anomalies.v ===== *)
(** * Behaviours that surprise

    Consequences of the code, each shown on the definitions the other files
    verify: a command whose output is full cannot be failed or expired, a
    stale scan repeats an attempt number, a worker registered under a padded
    name cannot register again, sandboxes that are not due keep younger ones
    from being reaped, and a lifetime too long for the time library ends the
    sweep. *)

From S2P Require Import Prelude CoreTypes BootstrapStore Json Store Leases Workers Queue Protocol.
From S2P Require Import Refinement Scheduler SandboxLifecycle LifecycleContract.
From S2P Require Import World CommandOutput Effects EffectProofs BootstrapHandoff SandboxStop.
From S2P Require Import Samples.

(** ** A command at its output limit *)

Section FullCommand.
Context `{UuidLib} `{SerdeLib}.

Lemma append_to_full_command rt n id sb s text ann db c u db' :
  commands (world db) !! id = Some c -> output_chunk_count c = MAX_COMMAND_OUTPUT_CHUNKS ->
  append_command_output_chunk_on_connection rt n id sb s text ann db <> Ok (u, db').
Proof.
  intros Hc Hfull Ha. unfold append_command_output_chunk_on_connection in Ha. tx_step Ha.
  apply lock_command_ok in Hm as [-> Hc']. simplify_eq. tx_step Ha.
  apply tx_lift_ok in Hm as [Hv _]. unfold validate_command_output_bounds in Hv. rewrite Hfull in Hv.
  by destruct (_ <? _)%Z.
Qed.

(** Failing a command records its error as one more chunk of output, so a
    command that already has as many chunks as allowed cannot be failed. *)
Theorem full_command_cannot_be_failed rt job id error db c u db' :
  job_kind job = JobKind.RunCommand -> command_id_from_job job = Ok id ->
  commands (world db) !! id = Some c -> output_chunk_count c = MAX_COMMAND_OUTPUT_CHUNKS ->
  apply_failed rt job error db <> Ok (u, db').
Proof.
  intros Hk Hid Hc Hfull Ha. unfold apply_failed, fail_command in Ha. rewrite Hk, Hid in Ha.
  tx_step Ha. apply tx_lift_ok in Hm as [[= <-] ->]. tx_step Ha. apply tx_lift_ok in Hm as [_ ->].
  tx_step Ha. by eapply append_to_full_command in Hm.
Qed.

(** The lease of a full command's last attempt is never expired.
    Failing the command would record the error as one more chunk than is
    allowed, so every sweep that reaches the due lease rolls back with an
    error and leaves it active. *)
Theorem full_command_lease_never_expires rt id now db l r cid c :
  job_leases db !! id = Some l -> is_active l = true -> (lr_expires_at l <= now)%Z ->
  jobs db !! lr_job_id l = Some r -> job_kind (row_job r) = JobKind.RunCommand ->
  (max_attempts (row_job r) <= attempts (row_job r))%Z ->
  command_id_from_job (row_job r) = Ok cid ->
  commands (world db) !! cid = Some c -> output_chunk_count c = MAX_COMMAND_OUTPUT_CHUNKS ->
  exists e, expire_lease_if_still_active rt id now db = (Err e, db).
Proof.
  intros Hl Hact Hdue Hr Hk Hmax Hcid Hc Hfull. unfold expire_lease_if_still_active, run_tx.
  destruct (expire_lease_tx rt id now db) as [[u db']|e] eqn:E; [exfalso|by exists e].
  unfold expire_lease_tx in E. tx_step E. tx_step E. tx_reads. tx_step E.
  unfold expire_active_lease_on_connection in Hm1. tx_step Hm1. tx_step Hm2.
  unfold update_row in Hm1. rewrite Hl, Hact, (proj2 (Z.leb_le _ _) Hdue) in Hm1. cbn [andb] in Hm1.
  tx_step Hm1. tx_step Hm2. tx_step Hm1. cbn [negb] in E.
  tx_step E. apply fetch_lease_ok in Hm1 as (-> & l' & r' & Hl' & Hr' & ->).
  cbn [job_leases set_job_leases jobs] in Hl', Hr'. rewrite lookup_insert_eq in Hl'. simplify_eq.
  cbn [lr_job_id lease_set_terminal lease_job row_to_lease_with_job] in *. rewrite Hr in Hr'. simplify_eq.
  unfold resident_process_desires_stop, resident_bootstrap_was_delivered in E. rewrite Hk in E.
  cbn [negb bool_decide decide] in E. rewrite (proj2 (Z.leb_le _ _) Hmax) in E. cbn [orb] in E.
  tx_step E. unfold resolve_captured_worker_drain_fence_on_connection in Hm1. tx_step Hm1. tx_step Hm2.
  tx_step Hm1. tx_step E. tx_step Hm1. tx_step E. tx_step Hm1.
  tx_step E. unfold update_job_status_on_connection in Hm1. tx_step Hm1. tx_step Hm2. tx_step Hm1.
  tx_step E. by eapply full_command_cannot_be_failed in Hm1.
Qed.
End FullCommand.

(** Command 600 is full; lease 30 is the last attempt of its job. *)
Definition full_command : CommandRow :=
  mkCommandRow 500%N CommandStatus.Running ["yes"] None None "" "" 0 None 4096 4096 4096 0.

Definition full_world : World :=
  mkWorld ∅ [] [] [] {[ 600%N := full_command ]} [] ∅ ∅ ∅ ∅ ∅ ∅ ∅ ∅ [] ∅ ∅ ∅ ∅ ∅ ∅ ∅ ∅ ∅ ∅ ∅ ∅.

Definition full_job : JobRow :=
  mkJobRow
    (mkJob 20%N "t" JobKind.RunCommand JobStatus.Leased
       (JObject [("sandboxId", JString "500"); ("commandId", JString "600")])
       WorkerCapability.RunCommand ExecutionClass.SandboxedContainer 0 3 3 0 0 0 None)
    (mkJobReferences (Some 500%N) (Some 600%N) None None None None) None None.

Definition full_lease : LeaseRow :=
  mkLeaseRow 20%N 10%N LeaseStatus.Active 3%Z 0 (seconds 60) None None None None None.

Definition full_db : Db World :=
  mkDb {[ 20%N := full_job ]} {[ 30%N := full_lease ]}
    {[ 10%N := mkWorkerRow sample_worker "hash" 0%Z 0%Z ]} ∅ ∅ ∅ ∅ ∅ ∅ ∅ ∅ full_world.

Lemma full_command_lease_never_expires_witness :
  exists e, expire_lease_if_still_active (sample_runtime 90 40) 30%N (seconds 90) full_db =
    (Err e, full_db).
Proof.
  apply (full_command_lease_never_expires (sample_runtime 90 40) 30%N (seconds 90) full_db full_lease
    full_job 600%N full_command); try reflexivity; vm_compute; discriminate.
Defined.

(** ** A stale scan *)

(** Two scans read the job before its first attempt.  The first claim fails
    and is retried; the second claim, still acting on what its scan read,
    grants attempt number 1 again. *)
Definition s_retried : Sys :=
  with_tables (fail_lease_in_transaction (sample_runtime 3 40) 30%N true "lost"
                 (tables s_leased)).2 s_leased.
Definition s_reclaimed : Sys :=
  with_tables (try_claim_job (sample_runtime 4 50) sample_worker sample_job None None
                 (tables s_retried)).2 s_retried.

(** A claim from a stale scan repeats an attempt number.  A reachable
    state has two leases of one job with the same attempt: the one that
    failed and was retried, and the one a scan from before it then granted. *)
Theorem stale_claim_repeats_attempt :
  reachable any_worker s_reclaimed /\
  exists l1 l2, job_leases (tables s_reclaimed) !! 30%N = Some l1 /\
    job_leases (tables s_reclaimed) !! 50%N = Some l2 /\
    lr_job_id l1 = lr_job_id l2 /\ lr_attempt l1 = 1%Z /\ lr_attempt l2 = 1%Z /\
    lr_status l1 = LeaseStatus.Failed /\ lr_status l2 = LeaseStatus.Active.
Proof.
  split.
  - apply (reachable_step any_worker s_retried).
    + eapply reachable_step; [by apply s_leased_reachable | apply st_fail].
    + by eapply (st_claim any_worker s_retried (sample_runtime 4 50) sample_worker sample_job sample_job);
        [left| |].
  - do 2 eexists. split; [vm_compute; reflexivity|]. split; [vm_compute; reflexivity|].
    vm_compute. auto.
Qed.

(** ** A padded name *)

Definition padded_registration : RegisterWorkerRequest :=
  mkRegisterWorkerRequest " w1" "kubernetes" [WorkerCapability.AgentPrompt] None ∅.

(** A worker registered under a padded name cannot register again.  The
    lookup trims the name and the insert does not, so the worker that
    registered as [" w1"] conflicts with itself the second time. *)
Theorem padded_worker_cannot_reregister :
  exists w db, register_worker (sample_runtime 0 10) "t" padded_registration "hash" empty_tables =
      (Ok w, db) /\
    register_worker (sample_runtime 9 11) "t" padded_registration "hash2" db =
      (Err (api_error_of_db_error UniqueViolation), db).
Proof. do 2 eexists. split; vm_compute; reflexivity. Qed.

(** ** A fleet over a hundred *)

Section Sweeps.
Context `{ChronoLib} `{UuidLib} `{SerdeLib} (datetime_to_value : Z -> Json) (shared : option SharedBootstrapHandoff).

Definition living_sandbox (id : Uuid) (created_at max_lifetime : Z) : Sandbox :=
  mkSandbox id "t" "box" SandboxState.Ready "image" MemoryLimit.OneG DenyAll WorkspaceMode.Ephemeral
    SandboxRuntimeProfile.Unprivileged ExecutionClass.SandboxedContainer created_at created_at None
    (Some max_lifetime) None None None.

(** Sandboxes 1 to 100 live for a million seconds; sandbox 900, created at
    second 10, for one. *)
Definition old_fleet : list (Uuid * Sandbox) :=
  (fun n => (N.of_nat n, living_sandbox (N.of_nat n) 0 1000000)) <$> seq 1 100.

Definition starved_world : World :=
  mkWorld (list_to_map ((900%N, living_sandbox 900%N (seconds 10) 1) :: old_fleet))
    [] [] [] ∅ [] ∅ ∅ ∅ ∅ ∅ ∅ ∅ ∅ [] ∅ ∅ ∅ ∅ ∅ ∅ ∅ ∅ ∅ ∅ ∅ ∅.

Definition starved_db : Db World := mkDb ∅ ∅ ∅ ∅ ∅ ∅ ∅ ∅ ∅ ∅ ∅ starved_world.

Definition lives_a_million (s : Sandbox) : bool :=
  bool_decide (sb_created_at s = 0%Z) && bool_decide (sb_max_lifetime_seconds s = Some 1000000%Z)
  && bool_decide (sb_idle_ttl_seconds s = None).

Lemma lives_a_million_not_due s lc now :
  (seconds 1000000 <= MAX_UTC)%Z -> lives_a_million s = true -> (now < seconds 1000000)%Z ->
  expired_deadline s lc now = Some None.
Proof.
  intros Hmax. unfold lives_a_million.
  intros [[Hc Hm]%andb_true_iff Hi]%andb_true_iff Hnow. apply bool_decide_eq_true in Hc, Hm, Hi.
  unfold expired_deadline. rewrite Hc, Hm, Hi, trigger_expired_spec.
  - simpl. change (0 + seconds 1000000)%Z with (seconds 1000000).
    by rewrite (proj2 (Z.leb_gt _ _)) by done.
  - intros n [= <-]. split_and!; [done| by vm_compute | exact Hmax].
Qed.

(** Sandboxes that are not due keep an overdue one alive.  A sweep looks
    at the hundred oldest sandboxes with a lifetime, due or not.  With a
    hundred long-lived sandboxes older than it, a sandbox past its maximum
    lifetime is not stopped by any sweep until one of those is due: every
    sweep before then leaves all tables as they are. *)
Theorem overdue_sandbox_is_starved rts now store :
  (seconds 1000000 <= MAX_UTC)%Z -> (seconds 11 <= now)%Z -> (now < seconds 1000000)%Z ->
  (exists s d, sandboxes (world starved_db) !! 900%N = Some s /\ is_reapable s = true /\
     deadline_of s (last_command_at (world starved_db) 900%N) MaxLifetime = Some d /\ (d <= now)%Z) /\
  exists outcomes,
    reap_expired_active_sandboxes datetime_to_value shared rts now starved_db store =
      Some (outcomes, starved_db, store).
Proof.
  intros Hmax Hlo Hhi. split.
  - exists (living_sandbox 900%N (seconds 10) 1), (seconds 10 + seconds 1)%Z.
    split_and!; [vm_compute; reflexivity..|]. exact Hlo.
  - assert (Hall : forallb (fun ks => lives_a_million ks.2) (reap_candidates (world starved_db)) = true)
      by (vm_compute; reflexivity).
    eexists. apply reap_each_idle. intros id s Hin. apply lives_a_million_not_due; [done| |done].
    rewrite forallb_forall in Hall. by apply (Hall (id, s)), list_elem_of_In.
Qed.

(** ** A lifetime without end *)

(** A lifetime longer than the time library's longest duration ends the
    sweep.  The deadline is computed by an addition that panics, so when such
    a sandbox is among the candidates no sweep returns, whatever the time and
    whatever else there is to reap. *)
Theorem unrepresentable_lifetime_ends_the_sweep rts now db store id s ttl :
  (id, s) ∈ reap_candidates (world db) -> sb_max_lifetime_seconds s = Some ttl ->
  (i64_max < ttl * 1000)%Z ->
  reap_expired_active_sandboxes datetime_to_value shared rts now db store = None.
Proof.
  intros Hin Hm Hbig. eapply reap_each_panics; [exact Hin|].
  unfold expired_deadline, trigger_expired, deadline_expired, deadline_from, datetime_add_seconds.
  rewrite Hm. replace (_ * 1000 <=? i64_max)%Z with false; [done|]. symmetry. apply Z.leb_gt.
  unfold try_i64. destruct (in_i64 ttl); [done|]. by vm_compute.
Qed.
End Sweeps.

Definition endless_db : Db World :=
  mkDb ∅ ∅ ∅ ∅ ∅ ∅ ∅ ∅ ∅ ∅ ∅
    (mkWorld {[ 900%N := living_sandbox 900%N 0 i64_max ]} [] [] [] ∅ [] ∅ ∅ ∅ ∅ ∅ ∅ ∅ ∅ [] ∅ ∅ ∅ ∅ ∅ ∅ ∅ ∅ ∅ ∅ ∅ ∅).

#[local] Instance chrono_sample : ChronoLib := { MAX_UTC := seconds 8210266876799 }.

Lemma overdue_sandbox_is_starved_witness :
  exists outcomes,
    reap_expired_active_sandboxes (fun _ => JNull) None (fun n => sample_runtime 20 40) (seconds 20) starved_db
      (with_capacity 2) = Some (outcomes, starved_db, with_capacity 2).
Proof.
  apply (overdue_sandbox_is_starved (fun _ => JNull) None (fun n => sample_runtime 20 40) (seconds 20)
    (with_capacity 2)); vm_compute; congruence.
Defined.

Lemma unrepresentable_lifetime_ends_the_sweep_witness :
  reap_expired_active_sandboxes (fun _ => JNull) None (fun n => sample_runtime 20 40) (seconds 20) endless_db
    (with_capacity 2) = None.
Proof.
  apply (unrepresentable_lifetime_ends_the_sweep (fun _ => JNull) None (fun n => sample_runtime 20 40)
    (seconds 20) endless_db (with_capacity 2) 900%N (living_sandbox 900%N 0 i64_max) i64_max);
    [vm_compute; left | reflexivity | reflexivity].
Defined.
